(* ===== verification/_CoqProject ===== *)
-Q . S2P
Prelude.v
Errors.v
RustStr.v
Idempotency.v
Calendar.v
CalendarProps.v
Profile.v
Lifecycle.v
Resource.v
Budget.v
BudgetCompile.v
BudgetFacts.v
BudgetAuthority.v
StoreTypes.v
StoreTransaction.v
StorePlan.v
InMemoryStore.v
StoreFacts.v
StorePlanFacts.v
StoreProps.v
StoreInvariant.v
StoreSamples.v
ReadSession.v
ReadSessionProps.v
Governed.v
Eligibility.v
EligibilityProps.v
Premise.v
PremiseProps.v
Lineage.v
LineageProps.v
FileSystem.v
FileAddress.v
FileJournal.v
FileEngine.v
FileRep.v
FileRecovery.v
FileLoad.v
FileReads.v
FileProps.v
FileSamples.v
RustOrd.v
LongTermEntry.v
LongTermVersion.v
LongTermClosure.v
LongTermControl.v
LongTermPlan.v
LongTermSteps.v
LongTermScope.v
LongTermProps.v
LongTermPlanProps.v
LongTermSamples.v
OllamaTypes.v
OllamaController.v
OllamaSystem.v
OllamaInvariant.v
OllamaSaga.v
OllamaProps.v
OllamaSamples.v
TurnTypes.v
Transcript.v
TurnCommit.v
TranscriptView.v
TranscriptProps.v
TurnPlanFacts.v
TurnPlan.v
TurnCommitProps.v
TurnSamples.v
RecallDelivery.v
RecallOrder.v
RecallDeliveryProps.v
RecallRerank.v
RecallRerankProps.v
GovernanceTypes.v
MutationOperation.v
GovernanceJobs.v
GovernanceFacts.v
GovernanceProps.v
GovernanceLane.v
GovernanceSamples.v
