(* ===== verification/Prelude.v ===== *)
(** * Beetle Memory: a verification development

    Beetle Memory is a Rust memory runtime for agents.  Its core is a governed
    store: every change of the memory of a subject is one transaction, planned
    under a runtime budget that is compiled from what the device can currently
    afford, checked against the governance rules of the owner planes, and
    written by a backend engine; what is recalled is decided per revision by
    validity, privacy and premises.  This development models that core, from
    the sources under [src/crates], and proves it correct.

    ** The parts and how they interact

    - A resource probe answers with an observation; a cache decides when it
      must be renewed ([core/src/resource.rs]).
    - The budget authority compiles the observation, the profile of the build
      and the provider's limits into a sealed budget report
      ([core/src/budget.rs], [core/src/feature_gate.rs]).
    - A transaction is admitted under the current report; the engine evaluates
      a fence, closes the read set under owner dependencies, plans the
      transaction, and writes the plan
      ([sdk/src/store_internal/transaction.rs], [in_memory.rs], with the data
      of [config.rs], [event.rs], [mutation.rs], [snapshot.rs]).
    - Readers use immutable sessions over the store with receipts
      ([transaction.rs], [in_memory.rs]).
    - Recall asks, per revision, whether it is eligible, and reports lineages
      of revisions ([core/src/memory/governed_memory_validity.rs]).
    - Long-term memory keeps, per owner, a head and immutable revisions ended
      by transitions, under one scope manifest; the SDK plans each change of it
      as one transaction ([core/src/memory/long_term_version.rs],
      [long_term_control.rs], [sdk/src/runtime.rs]).
    - A turn of a conversation is planned against the session and transcript
      stores and appended atomically; views show it according to its lifecycle
      and to who asks ([core/src/memory/turn_commit.rs], [transcript.rs]).
    - Recalled candidates of several planes are ranked, routed into the prompt
      and delivered under a limit ([core/src/memory/recall_rerank.rs],
      [recall_router.rs], [recall_delivery.rs]).
    - After a turn, a durable job asks a model what to remember of it: workers
      claim the job under a lease, execute it, and complete it in one
      transaction with the memory it decided to write; operations with
      receipts are committed once
      ([sdk/src/store_internal/post_turn_governance.rs], [sdk/src/learning.rs],
      [core/src/memory/mutation_operation.rs]).
    - The transparent Ollama proxy puts a gateway in front of a local Ollama;
      its controller enables and disables it under a lease that all processes
      share ([ollama-transparent/src/controller.rs], [lease.rs]).
    - Requests enter through an idempotency cache
      ([entry/src/idempotency.rs]).  Failures are one error type, classified
      for retry and metrics ([core/src/error.rs]).

    ** Files

    - [Prelude]: errors, the [result] monad, machine integers, the tactics
      [inv_ok] and [split_bool], the hint database [beetle].
    - [Errors]: the methods of [Error].
    - [RustStr]: the parts of [str] the code uses (byte length, [trim]).
    - [Idempotency]: [EntryIdempotencyCache], as a transition system.
    - [Profile], [Resource]: profiles, pressure, snapshots, the snapshot cache.
    - [Budget], [BudgetCompile]: profile ceilings and [compile_runtime_budget];
      [BudgetFacts]: its bounds and monotonicity.
    - [BudgetAuthority]: [RuntimeBudgetAuthority] with its validation, and its
      theorems.
    - [StoreTypes], [StoreTransaction], [StorePlan]: store data, requests,
      admission, fence, closure, and the planner [apply_transaction].
    - [InMemoryStore]: the in-memory engine.
    - [StoreFacts], [StorePlanFacts], [StoreProps],
      [StoreInvariant], [StoreSamples]: lemmas, theorems and concrete stores.
    - [ReadSession], [ReadSessionProps]: immutable read sessions.
    - [Governed], [Eligibility], [EligibilityProps]: revisions, validity,
      recall decisions and reports.
    - [Lineage], [LineageProps]: update lineage.
    - [Premise], [PremiseProps]: premises of runtime skills and their
      evaluation report ([skills/governed_runtime_contract.rs],
      [governed_memory_validity.rs]).
    - [Calendar], [CalendarProps]: the calendar and ISO 8601 parser of
      [core/src/util.rs] and the user-local time of
      [core/src/memory/local_time.rs].
    - [Lifecycle]: runtime mode, lifecycle admission, reports
      and events ([core/src/runtime/lifecycle.rs], [runtime/mod.rs]).
    - [FileSystem]: files, the system calls the file engine makes, programs
      over them and their runs and crashes; [FileAddress]: where a document,
      blob or event segment lives on disk; [FileJournal]: the transaction
      journal, its checks and their consequences;
      [FileEngine]: the transactional engine itself, its load, read, commit,
      recovery and repair ([sdk/src/store_internal/file.rs]).
    - [FileRep], [FileRecovery], [FileLoad], [FileReads]: the
      relation between a tree of files and a store, and the lemmas of the
      engine's phases; [FileProps] its theorems, [FileSamples] a concrete
      codec and concrete trees.
    - [RustOrd]: [Ord], sorting, deduplication and binary search of the Rust
      standard library.
    - [LongTermEntry]: entries, subject visibility and transcript evidence
      ([core/src/memory/long_term.rs], [transcript.rs]); [LongTermVersion]:
      materials, transitions, heads, reads and the closure of a scope
      ([long_term_version.rs]); [LongTermControl]: control intents, revisions,
      tombstones, audit and the mutation binder ([long_term_control.rs]);
      [LongTermPlan]: the planner of long-term changes
      ([PlanningLongTermMemoryStore::into_plan] of [sdk/src/runtime.rs]).
    - [LongTermClosure], [LongTermSteps], [LongTermScope]: what the closure
      validator decides, inversions of the binders, and the scope invariant
      with its steps; [LongTermProps], [LongTermPlanProps]
      the theorems; [LongTermSamples] a concrete history.
    - [OllamaTypes]: errors, configuration, port owners and reports of the
      transparent Ollama proxy; [OllamaController]: its controller, as programs
      over its collaborators and the lock of its state, and the lease of the
      operating system ([ollama-transparent/src]); [OllamaSystem]: concurrent
      executions of processes that share a lease.
    - [OllamaInvariant], [OllamaSaga]: the invariant of those
      executions, and transitions as sagas; [OllamaProps]
      the theorems, [OllamaSamples] a scheduler and concrete executions.
    - [TurnTypes], [Transcript]: conversations, submitted turns, transcript
      records with their contract, lifecycle and appends; [TurnCommit]: the
      plan and commit of a turn; [TranscriptView]: attributes and redacted
      views ([core/src/memory/turn_commit.rs], [transcript.rs]).
    - [TurnPlanFacts], [TurnPlan]: what the validators decide, the storage
      keys, and the exact plan of a new turn; [TranscriptProps],
      [TurnCommitProps] the theorems (the contract of the stores is
      a class of [TurnCommitProps]), [TurnSamples] a reference store and
      concrete turns.
    - [RecallDelivery]: delivery of recalled candidates
      ([core/src/memory/recall_delivery.rs]), [RecallOrder] its orders and
      [RecallDeliveryProps] its theorems; [RecallRerank]: ranking across planes
      and routing ([recall_rerank.rs], [recall_router.rs]),
      [RecallRerankProps] its theorems and concrete candidates.
    - [GovernanceTypes]: post-turn governance jobs, scope indexes, binding
      snapshots, receipts and their validators
      ([core/src/memory/post_turn_governance.rs]); [MutationOperation]: durable
      mutation operations ([core/src/memory/mutation_operation.rs],
      [sdk/src/store_internal/platform.rs]) and the contract of the store
      platform, the class [StorePlatform] (closures of other owners and the
      commit of an engine that is not interrupted); [GovernanceJobs]: the operations of
      the job queue ([sdk/src/store_internal/post_turn_governance.rs],
      [procedural_feedback.rs]).
    - [GovernanceFacts]: what each plan and commit of the queue does;
      [GovernanceProps]: executions of the queue and its theorems;
      [GovernanceLane]: a cycle of the learning engine
      ([sdk/src/learning.rs], [runtime.rs]); [GovernanceSamples]: a store that
      meets the contract and a concrete job.

    ** What the theorems show

    - The store: a commit is atomic and refines an abstract transaction
      ([StoreProps]); failed commits change nothing and every reachable store
      satisfies the engine's invariant ([StoreInvariant]); the fence, the
      ledger, signing-authority and method rules, the merge of preconditions
      and the dependency closure ([StoreProps]).
    - Read sessions return exact, bounded, accounted copies and fail closed
      ([ReadSessionProps]).
    - Budgets stay within the profile, fall with pressure, and are sealed and
      admissible whenever they are published ([BudgetFacts],
      [BudgetAuthority]).
    - Recall decisions are total on admissible input, let a revision through
      exactly when nothing speaks against it, and put privacy first; the
      internal self-checks of the builders are unreachable
      ([EligibilityProps]).  A lineage without failures is one chain, and its
      report is total ([LineageProps]).
    - Idempotency reservations are exclusive and bounded ([Idempotency]).
      Error predicates are those of the chain of boxed errors ([Errors]).
    - Premises fail closed: only positive, authorized evidence satisfies one
      ([PremiseProps]).
    - The two calendar implementations are exact against one reference calendar
      and agree ([CalendarProps]); the concrete instants there also record that
      the ISO 8601 parser drops the time zone offset it accepts.
    - Lifecycle operations follow one exact admission table, and the events of
      a process have distinct identifiers ([Lifecycle]).
    - The file engine: a commit that returns writes the plan of the
      in-memory engine, a crash at any system call, also one during recovery,
      leaves a tree that recovery maps to the store before or after the
      commit, and whole executions with crashes refine the abstract store;
      reads are exact under the shared lock, and repair removes only orphans.
      The one exception is a commit whose journal is over the bound under which
      recovery reads it: its crash may leave that journal, which then blocks
      commits, reads and recovery for good ([FileProps]).
    - Long-term memory: the closure validator decides exactly a declarative
      closure; every planned transaction keeps the scope closed with one chain
      of revisions per owner; reads at a time are exact and unambiguous; the
      manifest does not depend on listing order; an owner that superseded
      another cannot be purged ([LongTermPlanProps],
      [LongTermProps]).  Visibility decisions and the withholding of
      transcript evidence are exact ([LongTermEntry]).
    - The Ollama proxy: over all interleavings, process deaths and answers of
      the collaborators, transitions are exclusive across processes, enabling
      is a saga with compensation, the official application is stopped only
      with proof of its identity, disabling attempts everything, and a status is
      what was observed ([OllamaProps]).
    - Transcripts: redaction is final under every sequence of lifecycle
      transitions ([TranscriptProps]); a new turn is planned exactly when its
      digest exists and six conditions hold, and retries are idempotent until
      raw deletion, which makes a turn with learning evidence a conflict
      ([TurnCommitProps]); which storage keys of the core contract are equal is
      exact ([TurnPlanFacts]).
    - Recall: an allocation is explained by a sequence of turns that gives the
      reason of every decision, it never passes over a more useful candidate,
      and the rotation of evidence families is fair ([RecallDeliveryProps]); the
      ranking across planes is exact, complete and independent of listing
      order, and the router follows an exact table ([RecallRerankProps]).
    - Post-turn governance: however many workers run the operations of the queue
      from reads that may be out of date, jobs and the indexes of their scopes
      stay valid and agree, jobs evolve only forwards, a lease that was
      superseded is fenced, attempts are bounded, jobs come only from turns
      that permit learning, masking a turn or deleting its raw transcript ends
      its jobs for good, and a completion is atomic and takes effect once
      ([GovernanceProps]); the learning engine asks its port only for authorised
      attempts and settles a failed one by the kind of its failure
      ([GovernanceLane]).  An operation is committed once, its receipt and audit
      record say what was committed and stay, and submitting it again replays
      the receipt ([MutationOperation]).

    ** Conventions, bounds and fuel

    [u64] and [usize] are [N] with saturating, checked or bounded operations
    written out; the target is 64-bit.  Strings are byte strings.  A [HashMap],
    [BTreeMap] or [BTreeSet] is a [gmap] or [gset], iterated in key order where
    the code iterates a BTree.  A mutex-protected method is one atomic step;
    wall and monotonic clocks and probe answers are inputs ([Env]).  What is
    not in the repository is a parameter: [StoreCodec] ([serde_json], [sha2],
    the standard hasher), [ReportCodec] (the report encoding), and the answer
    of the probe, [FileCodec] (the journal and segment encodings of the file
    engine, path digests), and [VersionCodec], [ControlCodec] and [PlanCodec]
    (the encodings and digests of long-term documents), and [TurnCodec] and
    [ValueCodec] (those of turns and attribute values).  The learning evidence
    of a turn, another module, is the class [LearningEvidence].
    [GovernanceCodec], [OperationCodec] and [QueueCodec] are the encodings of
    the governance queue; [QueueCodec] also stands for the methods a completion
    applies, which their owners decide.  Operations of the queue read through a
    view, the answers to their reads, which need not be those of the state they
    commit to.  The port observer, runner
    installer and process manager of the Ollama proxy answer anything; its
    operations are finite trees of calls, so they need no fuel.  The validators of the owner planes, other modules of the
    repository, are the class [OwnerGovernance]: the planner is modelled
    completely and its theorems hold for every implementation of them.

    In the file engine a crash is a crash of the process between two system
    calls; a completed call is durable, a file is a list of bytes at a list of
    path components, and directories exist when a file below them does.

    Five loops need fuel.  The dependency closure pops a pending address in each
    round and admits at most [kv_max_entries] of them; its fuel [closure_fuel]
    is enough in every state ([StoreProps.dependency_closure_complete]).  The
    lineage walks visit each revision once; their fuel is the number of
    revisions and is enough ([LineageProps.walk_repeats_total],
    [LineageProps.ordered_lineage]).  The year loop of the calendar takes at
    least 365 days per round; [Calendar.year_fuel] is enough
    ([CalendarProps.year_loop_spec]).  The event reader consumes a byte or a
    chunk per round ([FileLoad.read_events_sound]), and a shared read retries
    once after recovery ([FileProps.shared_read_terminates]).

    ** Not modelled

    The SQLite and embedded engines (a database around the same planner), the
    opening of the file engine (manifest, preflight and format migration) and
    its harness-only writes, scoped projections, the namespace registry and
    document decoders, transcript queries,
    search, cursors and repair, recall
    authorities, governance policies and the post-image validator of long-term
    memory, subject soul, procedural feedback (the procedural lane of the
    learning engine is a parameter of its cycle), completion of a job with a subject-soul plan, the
    other mutations a change of transcripts commits, runtime skills beyond their premises, lexical scores of recall, the SDK
    facade, the adapter, the LLM gateway, the process manager and runner
    installer of the Ollama proxy (spawning, signals, files of the operating
    system), the transports and
    the apps.  The next components in the plan: the
    adapter dispatch, and the post-image
    validator of long-term control as a part of [OwnerGovernance]. *)

From stdpp Require Export base strings gmap list pretty.
From Stdlib Require Export NArith Lia.

#[global] Set Default Goal Selector "!".
#[local] Set Warnings "-register-all".
#[global] Set Warnings "-clear-no-such-hyp".
Declare Scope beetle_scope.
Delimit Scope beetle_scope with beetle.

(** ** Errors ([crates/core/src/error.rs])

    A boxed [dyn std::error::Error] is an [Error] again, a
    [RuntimeBudgetReadmissionRequired], or an error of another crate, of which
    the program only uses the displayed text; the latter is also the model of
    [std::io::Error]. *)
Inductive RuntimeBudgetReadmissionRequired :=
| StaleOrExpired
| Superseded.

Inductive boxed (E : Type) :=
| Memory (e : E)
| Readmission (r : RuntimeBudgetReadmissionRequired)
| Foreign (display : string).
Arguments Memory {E} e.
Arguments Readmission {E} r.
Arguments Foreign {E} display.

Inductive Error :=
| Nvs (stage : string) (source : option (boxed Error))
| Storage (stage : string) (source : option (boxed Error))
| Config (stage message : string)
| InvalidInput (stage message : string)
| NotFound (stage message : string)
| Conflict (stage message : string)
| Io (stage source : string)
| Esp (stage : string) (code : Z)
| Http (stage : string) (status_code : N)
| Other (stage : string) (source : boxed Error).

#[global] Instance readmission_eq_dec : EqDecision RuntimeBudgetReadmissionRequired.
Proof. solve_decision. Defined.
#[global] Instance error_eq_dec : EqDecision Error.
Proof.
  unfold EqDecision, Decision. fix IH 1. intros x y.
  pose proof String.string_dec as Hs. pose proof Z.eq_dec as Hz. pose proof N.eq_dec as Hn.
  pose proof readmission_eq_dec as Hr. unfold EqDecision, Decision in Hr.
  destruct x as [s [[]|]|s [[]|]| | | | | | | |s []], y as [s' [[]|]|s' [[]|]| | | | | | | |s' []];
    try (right; congruence); decide equality; decide equality; decide equality.
Defined.

Definition error_stage (e : Error) : string :=
  match e with
  | Nvs s _ | Storage s _ | Config s _ | InvalidInput s _ | NotFound s _ | Conflict s _
  | Io s _ | Esp s _ | Http s _ | Other s _ => s
  end.

(** ** Fallible results

    [result A] is Rust's [Result<A, Error>]; [?] is the monadic bind. *)
Inductive result (A : Type) :=
| Ok (a : A)
| Err (e : Error).
Arguments Ok {A} a.
Arguments Err {A} e.

#[global] Instance result_ret : MRet result := @Ok.
#[global] Instance result_bind : MBind result :=
  λ A B f r, match r with Ok a => f a | Err e => Err e end.
#[global] Instance result_fmap : FMap result :=
  λ A B f r, match r with Ok a => Ok (f a) | Err e => Err e end.

Definition is_ok {A} (r : result A) : bool :=
  match r with Ok _ => true | Err _ => false end.

(** [ensure b e] is the early return [if !b { return Err(e) }]. *)
Definition ensure (b : bool) (e : Error) : result unit :=
  if b then Ok tt else Err e.

(** A loop with early return: [for x in l { acc = f(acc, x)?; }]. *)
Fixpoint try_fold {A S} (f : S → A → result S) (s : S) (l : list A) : result S :=
  match l with
  | [] => Ok s
  | a :: l' => s' ← f s a; try_fold f s' l'
  end.

(** ** Machine integers

    [u64] and [usize] (64-bit hosts) are values of [N] below their bound; the
    operations that can leave the range are written with their Rust
    behaviour. *)
Open Scope N_scope.

Definition u32_max : N := 4294967295.
Definition u64_max : N := 18446744073709551615.
Definition usize_max : N := u64_max.

Definition saturating_add (a b : N) : N := N.min usize_max (a + b).
Definition saturating_mul (a b : N) : N := N.min usize_max (a * b).
Definition checked_add (a b : N) : option N :=
  if a + b <=? usize_max then Some (a + b) else None.

Definition len {A} (l : list A) : N := N.of_nat (length l).

(** ** Tactics *)

(** Invert a successful monadic computation into its successful parts. *)
Ltac inv_ok_step :=
  match goal with
  | H : _ = Ok _ |- _ => progress cbv beta zeta in H
  | H : Ok _ = Ok _ |- _ => injection H; clear H; intros; subst
  | H : Err _ = Ok _ |- _ => discriminate H
  | H : Ok _ = Err _ |- _ => discriminate H
  | H : mret _ = Ok _ |- _ => unfold mret, result_ret in H
  | H : mbind _ ?r = Ok _ |- _ =>
      let E := fresh "E" in
      unfold mbind at 1, result_bind at 1 in H;
      destruct r eqn:E; [| discriminate H]
  | H : match ?r with Ok _ => _ | Err _ => _ end = Ok _ |- _ =>
      let E := fresh "E" in destruct r eqn:E; [| discriminate H]
  | H : ensure ?b _ = Ok _ |- _ =>
      let E := fresh "E" in
      unfold ensure in H; destruct b eqn:E; [| discriminate H]; clear H
  end.
Ltac inv_ok := repeat inv_ok_step.

(** Split boolean conjunctions and disjunctions in the hypotheses. *)
Ltac split_bool :=
  repeat match goal with
  | H : _ && _ = true |- _ => apply andb_true_iff in H; destruct H
  | H : _ || _ = false |- _ => apply orb_false_iff in H; destruct H
  | H : negb _ = true |- _ => apply negb_true_iff in H
  | H : negb _ = false |- _ => apply negb_false_iff in H
  | H : bool_decide _ = true |- _ => apply bool_decide_eq_true in H
  | H : bool_decide _ = false |- _ => apply bool_decide_eq_false in H
  | H : (_ <=? _) = true |- _ => apply N.leb_le in H
  | H : (_ <=? _) = false |- _ => apply N.leb_gt in H
  | H : (_ <? _) = true |- _ => apply N.ltb_lt in H
  | H : (_ <? _) = false |- _ => apply N.ltb_ge in H
  | H : (_ =? _) = true |- _ => apply N.eqb_eq in H
  | H : (_ =? _) = false |- _ => apply N.eqb_neq in H
  end.

(** ** Generic lemmas *)

Lemma find_snoc {A} (f : A → bool) l x :
  List.find f (l ++ [x]) = match List.find f l with
                           | Some y => Some y
                           | None => if f x then Some x else None
                           end.
Proof. induction l as [|y l IH]; cbn; [done|]. by destruct (f y). Qed.

Lemma saturating_add_exact a b :
  a + b ≤ usize_max → saturating_add a b = a + b.
Proof. unfold saturating_add. lia. Qed.

Lemma saturating_add_bound a b : saturating_add a b ≤ usize_max.
Proof. unfold saturating_add. lia. Qed.

Lemma checked_add_Some a b c :
  checked_add a b = Some c → c = a + b ∧ a + b ≤ usize_max.
Proof.
  unfold checked_add. destruct (_ <=? _) eqn:E; [|done].
  intros [= <-]. split_bool. done.
Qed.

Lemma try_fold_app {A S} (f : S → A → result S) s l1 l2 :
  try_fold f s (l1 ++ l2) = (s' ← try_fold f s l1; try_fold f s' l2).
Proof.
  revert s. induction l1 as [|a l1 IH]; intros s; [done|].
  cbn. destruct (f s a); cbn; [apply IH | done].
Qed.

(** An invariant of the loop body is an invariant of the loop. *)
Lemma try_fold_invariant {A S} (P : S → Prop) (f : S → A → result S) s l s' :
  (∀ s a s', a ∈ l → P s → f s a = Ok s' → P s') →
  P s → try_fold f s l = Ok s' → P s'.
Proof.
  revert s. induction l as [|a l IH]; intros s Hstep Hs Hf; cbn in Hf.
  - by inv_ok.
  - inv_ok. eapply IH; [| |done].
    + intros ??? Hin. apply Hstep. by right.
    + eapply Hstep; [by left | done | done].
Qed.

Lemma len_nil {A} : len (@nil A) = 0.
Proof. done. Qed.

Lemma len_cons {A} (a : A) l : len (a :: l) = 1 + len l.
Proof. unfold len. cbn [length]. lia. Qed.

Lemma len_app {A} (l1 l2 : list A) : len (l1 ++ l2) = len l1 + len l2.
Proof. unfold len. rewrite length_app. lia. Qed.

Create HintDb beetle.
Create Rewrite HintDb beetle.
#[export] Hint Rewrite @len_nil @len_cons @len_app : beetle.
#[export] Hint Resolve saturating_add_bound : beetle.
