(* ===== verification/Errors.v ===== *)
(** * Errors and their classification

    Model of the methods of [Error] in [crates/core/src/error.rs]: the
    displayed text, the class clients branch on, the retry and metrics
    predicates, which look through boxed errors, and the stage override. *)

From S2P Require Import Prelude.
From stdpp Require Import pretty.

Local Open Scope string_scope.
Local Open Scope list_scope.
Local Open Scope N_scope.

Inductive ErrorClass := ClassInvalidInput | ClassNotFound | ClassConflict.

#[global] Instance error_class_eq_dec : EqDecision ErrorClass.
Proof. solve_decision. Defined.

(** ** Display (the [thiserror] formats) *)

Definition readmission_display (r : RuntimeBudgetReadmissionRequired) : string :=
  match r with
  | StaleOrExpired => "runtime budget report is stale or expired"
  | Superseded =>
      "transaction admission is not the current exact runtime authority report"
  end.

Definition at_stage (text stage : string) : string := text +:+ " (stage: " +:+ stage +:+ ")".

Fixpoint error_display (e : Error) : string :=
  match e with
  | Nvs s _ => at_stage "NVS" s
  | Storage s _ => at_stage "storage" s
  | Config s m => at_stage ("config: " +:+ m) s
  | InvalidInput s m => at_stage ("invalid input: " +:+ m) s
  | NotFound s m => at_stage ("not found: " +:+ m) s
  | Conflict s m => at_stage ("conflict: " +:+ m) s
  | Io s m => at_stage ("IO: " +:+ m) s
  | Esp s code => at_stage ("ESP-IDF: code=" +:+ pretty code) s
  | Http s code => at_stage ("HTTP: status=" +:+ pretty code) s
  | Other s b =>
      at_stage ("other: " +:+ match b with
                              | Memory e => error_display e
                              | Readmission r => readmission_display r
                              | Foreign m => m
                              end) s
  end.

(** ** Classification *)

(** [downcast_ref::<Error>] *)
Definition downcast (b : boxed Error) : option Error :=
  match b with Memory e => Some e | _ => None end.

Definition nested_memory_error (e : Error) : option Error :=
  match e with
  | Nvs _ (Some b) | Storage _ (Some b) | Other _ b => downcast b
  | _ => None
  end.

(** The recursions of [error.rs] go through [nested_memory_error]; they are
    structural on the error. *)
Fixpoint class (e : Error) : option ErrorClass :=
  match e with
  | InvalidInput _ _ => Some ClassInvalidInput
  | NotFound _ _ => Some ClassNotFound
  | Conflict _ _ => Some ClassConflict
  | Nvs _ (Some (Memory n)) | Storage _ (Some (Memory n)) | Other _ (Memory n) => class n
  | _ => None
  end.

Fixpoint is_tls_admission (e : Error) : bool :=
  bool_decide (error_stage e = "tls_admission")
  || match e with
     | Nvs _ (Some (Memory n)) | Storage _ (Some (Memory n)) | Other _ (Memory n) =>
         is_tls_admission n
     | _ => false
     end.

Definition connect_stage (s : string) : bool :=
  bool_decide (s ∈ ["http_post_request"; "http_get_request"; "http_post_submit";
                    "http_get_submit"; "http_client_replace"; "http_read"]).

(** [local] of [is_connect_error]. *)
Definition local_connect_error (e : Error) : bool :=
  match e with Io s _ | Other s _ => connect_stage s | _ => false end.

Fixpoint is_connect_error (e : Error) : bool :=
  local_connect_error e
  || match e with
     | Nvs _ (Some (Memory n)) | Storage _ (Some (Memory n)) | Other _ (Memory n) =>
         is_connect_error n
     | _ => false
     end.

Definition http_status_code (e : Error) : option N :=
  match e with Http _ code => Some code | _ => None end.

Definition retryable_status (code : N) : bool :=
  bool_decide (code ∈ [408; 409; 425; 429]) || ((500 <=? code) && (code <=? 599)).

Definition is_retryable_upstream (e : Error) : bool :=
  if is_tls_admission e || is_connect_error e then true
  else match http_status_code e with Some code => retryable_status code | None => false end.

Fixpoint metrics_stage (e : Error) : string :=
  if bool_decide (error_stage e = "tls_admission") || is_connect_error e then error_stage e
  else match e with
       | Nvs _ (Some (Memory n)) | Storage _ (Some (Memory n)) | Other _ (Memory n) =>
           metrics_stage n
       | _ => error_stage e
       end.

Definition with_stage (e : Error) (stage : string) : Error :=
  match e with
  | Nvs _ b => Nvs stage b
  | Storage _ b => Storage stage b
  | Config _ m => Config stage m
  | InvalidInput _ m => InvalidInput stage m
  | NotFound _ m => NotFound stage m
  | Conflict _ m => Conflict stage m
  | Io _ m => Io stage m
  | Esp _ code => Esp stage code
  | Http _ code => Http stage code
  | Other _ b => Other stage b
  end.

(** ** The chain of nested errors *)

(** The error and the errors boxed in it, outermost first. *)
Fixpoint chain (e : Error) : list Error :=
  e :: match e with
       | Nvs _ (Some (Memory n)) | Storage _ (Some (Memory n)) | Other _ (Memory n) => chain n
       | _ => []
       end.

(** What the outermost error says of itself. *)
Definition own_class (e : Error) : option ErrorClass :=
  match e with
  | InvalidInput _ _ => Some ClassInvalidInput
  | NotFound _ _ => Some ClassNotFound
  | Conflict _ _ => Some ClassConflict
  | _ => None
  end.

(** [chain] is the unfolding of [nested_memory_error], and an induction
    principle along it. *)
Lemma chain_nested e :
  chain e = e :: match nested_memory_error e with Some n => chain n | None => [] end.
Proof. by destruct e as [? [[]|]|? [[]|]| | | | | | | |? []]. Qed.

Lemma nested_ind (P : Error → Prop) :
  (∀ e, (∀ n, nested_memory_error e = Some n → P n) → P e) → ∀ e, P e.
Proof.
  intros Hstep. fix IH 1. intros e. apply Hstep.
  destruct e as [? [[n| |]|]|? [[n| |]|]| | | | | | | |? [n| |]]; cbn; intros ? [= <-]; apply IH.
Qed.

Lemma class_nested e :
  class e = match own_class e with Some c => Some c
            | None => nested_memory_error e ≫= class end.
Proof. by destruct e as [? [[]|]|? [[]|]| | | | | | | |? []]. Qed.

Lemma is_tls_admission_nested e :
  is_tls_admission e = bool_decide (error_stage e = "tls_admission")
    || match nested_memory_error e with Some n => is_tls_admission n | None => false end.
Proof. by destruct e as [? [[]|]|? [[]|]| | | | | | | |? []]. Qed.

Lemma is_connect_error_nested e :
  is_connect_error e = local_connect_error e
    || match nested_memory_error e with Some n => is_connect_error n | None => false end.
Proof. by destruct e as [? [[]|]|? [[]|]| | | | | | | |? []]. Qed.

Lemma metrics_stage_nested e :
  metrics_stage e
  = if bool_decide (error_stage e = "tls_admission") || is_connect_error e then error_stage e
    else match nested_memory_error e with Some n => metrics_stage n | None => error_stage e end.
Proof. by destruct e as [? [[]|]|? [[]|]| | | | | | | |? []]. Qed.

Lemma exists_chain (P : Error → bool) e :
  existsb P (chain e)
  = P e || match nested_memory_error e with Some n => existsb P (chain n) | None => false end.
Proof. rewrite chain_nested. cbn. by destruct (nested_memory_error e). Qed.

(** A predicate that is the disjunction of a local test along the nesting. *)
Lemma along_chain (P Q : Error → bool) :
  (∀ e, Q e = P e || match nested_memory_error e with Some n => Q n | None => false end) →
  ∀ e, Q e = existsb P (chain e).
Proof.
  intros HQ. apply nested_ind. intros e IH. rewrite HQ, exists_chain.
  destruct (nested_memory_error e) as [n|]; [|done]. by rewrite (IH n).
Qed.

Lemma is_tls_admission_chain e :
  is_tls_admission e = existsb (λ n, bool_decide (error_stage n = "tls_admission")) (chain e).
Proof. apply along_chain. intros ?. apply is_tls_admission_nested. Qed.

Lemma is_connect_error_chain e : is_connect_error e = existsb local_connect_error (chain e).
Proof. apply along_chain. intros ?. apply is_connect_error_nested. Qed.

Lemma class_chain e : class e = head (omap own_class (chain e)).
Proof.
  induction e as [e IH] using nested_ind. rewrite class_nested, chain_nested. cbn.
  destruct (own_class e) as [c|]; [done|].
  destruct (nested_memory_error e) as [n|]; cbn; [by apply IH|done].
Qed.

(** The error whose stage is reported: the outermost one that is a TLS
    admission or still leads to a connect error. *)
Definition reports_itself (e : Error) : bool :=
  bool_decide (error_stage e = "tls_admission") || is_connect_error e.

Lemma metrics_stage_chain e :
  metrics_stage e
  = error_stage (default (List.last (chain e) e) (find reports_itself (chain e))).
Proof.
  induction e as [e IH] using nested_ind. rewrite metrics_stage_nested.
  fold (reports_itself e). rewrite !chain_nested. cbn [find].
  destruct (reports_itself e); [done|].
  destruct (nested_memory_error e) as [n|] eqn:Hn; [|done].
  rewrite (IH n eq_refl). do 2 f_equal. rewrite (chain_nested n). cbn [List.last].
  destruct (nested_memory_error n) as [m|]; [|done]. rewrite (chain_nested m).
  clear. cbn [List.last]. generalize (match nested_memory_error m with
    Some n => chain n | None => [] end). intros l. revert m.
  induction l as [|x l IHl]; intros m; [done|]. cbn. apply IHl.
Qed.

(** Classification looks through boxed errors: the class is that of the
    outermost error of the chain that has one; an error is a TLS admission or a
    connect failure when some error of the chain is one; and it is retryable
    exactly when that holds or the outermost error itself is an HTTP failure
    with a retryable status. *)
Theorem classification_through_chain e :
  class e = head (omap own_class (chain e))
  ∧ (is_tls_admission e = true ↔ ∃ n, n ∈ chain e ∧ error_stage n = "tls_admission")
  ∧ (is_connect_error e = true ↔ ∃ n, n ∈ chain e ∧ local_connect_error n = true)
  ∧ (is_retryable_upstream e = true ↔
       (∃ n, n ∈ chain e ∧ (error_stage n = "tls_admission" ∨ local_connect_error n = true))
       ∨ ∃ s code, e = Http s code ∧ retryable_status code = true).
Proof.
  assert (Htls : is_tls_admission e = true ↔ ∃ n, n ∈ chain e ∧ error_stage n = "tls_admission").
  { rewrite is_tls_admission_chain, existsb_exists.
    by setoid_rewrite bool_decide_eq_true; setoid_rewrite <- list_elem_of_In. }
  assert (Hcon : is_connect_error e = true ↔ ∃ n, n ∈ chain e ∧ local_connect_error n = true).
  { rewrite is_connect_error_chain, existsb_exists. by setoid_rewrite <- list_elem_of_In. }
  split_and!; [apply class_chain|done|done|]. unfold is_retryable_upstream.
  destruct (is_tls_admission e || is_connect_error e) eqn:E.
  - split; [|done]. intros _. left. apply orb_true_iff in E as [E|E].
    + apply Htls in E as (n & ? & ?). eauto.
    + apply Hcon in E as (n & ? & ?). eauto.
  - apply orb_false_iff in E as [E1 E2]. rewrite E1 in Htls. rewrite E2 in Hcon. split.
    + destruct e; try done. cbn. intros H. right. eauto.
    + intros [(n & Hn & [H|H])|(s & code & -> & H)]; [| |done].
      * assert (false = true) by (apply Htls; eauto). done.
      * assert (false = true) by (apply Hcon; eauto). done.
Qed.

(** The metrics stage is that of the outermost error of the chain that is a TLS
    admission or leads to a connect failure, and of the innermost error when
    there is none; overriding the stage of an error changes nothing else: its
    class, HTTP status and nested error are kept. *)
Theorem stage_reporting e stage :
  metrics_stage e = error_stage (default (List.last (chain e) e) (find reports_itself (chain e)))
  ∧ error_stage (with_stage e stage) = stage
  ∧ with_stage e (error_stage e) = e
  ∧ class (with_stage e stage) = class e
  ∧ http_status_code (with_stage e stage) = http_status_code e
  ∧ nested_memory_error (with_stage e stage) = nested_memory_error e.
Proof. split; [apply metrics_stage_chain|]. by destruct e as [? [[]|]|? [[]|]| | | | | | | |? []]. Qed.

(** A TLS admission failure boxed by a storage layer is still retryable; an
    HTTP failure boxed by another error is not. *)
Example wrapped_tls_is_retryable :
  is_retryable_upstream (Other "agent_loop" (Memory (Storage "flush"
    (Some (Memory (Config "tls_admission" "denied")))))) = true.
Proof. reflexivity. Qed.

Example wrapped_http_is_not_retryable :
  is_retryable_upstream (Http "chat" 503) = true
  ∧ is_retryable_upstream (Other "agent_loop" (Memory (Http "chat" 503))) = false.
Proof. split; reflexivity. Qed.
