(* ===== verification/RustStr.v ===== *)
(** * Rust strings

    A Rust [str] is modelled as the sequence of bytes of its UTF-8 encoding
    (a Standard Library [string], one [ascii] per byte).  [len] counts bytes,
    [chars] counts scalar values (bytes that are not continuation bytes), and
    [trim] removes the scalar values with the Unicode property
    [White_Space], by their encodings. *)

From S2P Require Import Prelude.
From Stdlib Require Import Ascii.

Definition byte_of (c : ascii) : N := N_of_ascii c.

Definition str_len (s : string) : N := N.of_nat (String.length s).
Definition is_empty (s : string) : bool := bool_decide (s = ""%string).

Definition is_ascii_ws (b : N) : bool :=
  ((9 <=? b) && (b <=? 13)) || (b =? 32).

(** U+0085 and U+00A0, encoded [C2 85] and [C2 A0]. *)
Definition is_ws2 (a b : N) : bool :=
  (a =? 194) && ((b =? 133) || (b =? 160)).

(** U+1680, U+2000..U+200A, U+2028, U+2029, U+202F, U+205F, U+3000. *)
Definition is_ws3 (a b c : N) : bool :=
  ((a =? 225) && (b =? 154) && (c =? 128))
  || ((a =? 226) && (b =? 128)
      && (((128 <=? c) && (c <=? 138)) || (c =? 168) || (c =? 169) || (c =? 175)))
  || ((a =? 226) && (b =? 129) && (c =? 159))
  || ((a =? 227) && (b =? 128) && (c =? 128)).

Fixpoint trim_start (s : string) : string :=
  match s with
  | String a s1 =>
      if is_ascii_ws (byte_of a) then trim_start s1
      else match s1 with
      | String b s2 =>
          if is_ws2 (byte_of a) (byte_of b) then trim_start s2
          else match s2 with
          | String c s3 =>
              if is_ws3 (byte_of a) (byte_of b) (byte_of c) then trim_start s3
              else s
          | EmptyString => s
          end
      | EmptyString => s
      end
  | EmptyString => ""
  end.

(** The same, on the reversed string. *)
Fixpoint trim_start_rev (s : string) : string :=
  match s with
  | String a s1 =>
      if is_ascii_ws (byte_of a) then trim_start_rev s1
      else match s1 with
      | String b s2 =>
          if is_ws2 (byte_of b) (byte_of a) then trim_start_rev s2
          else match s2 with
          | String c s3 =>
              if is_ws3 (byte_of c) (byte_of b) (byte_of a) then trim_start_rev s3
              else s
          | EmptyString => s
          end
      | EmptyString => s
      end
  | EmptyString => ""
  end.

Fixpoint str_rev_app (s acc : string) : string :=
  match s with
  | EmptyString => acc
  | String a s' => str_rev_app s' (String a acc)
  end.
Definition str_rev (s : string) : string := str_rev_app s "".

Definition trim_end (s : string) : string := str_rev (trim_start_rev (str_rev s)).
Definition trim (s : string) : string := trim_end (trim_start s).

(** [s.trim().is_empty()] *)
Definition blank (s : string) : bool := is_empty (trim s).

(** [byte.is_ascii_digit() || (b'a'..=b'f').contains(&byte)] *)
Definition is_lower_hex (c : Ascii.ascii) : bool :=
  let b := byte_of c in
  ((48 <=? b) && (b <=? 57)) || ((97 <=? b) && (b <=? 102)).

Example trim_ascii : trim "  a b	 " = "a b"%string.
Proof. reflexivity. Qed.
Example blank_spaces : blank "   " = true.
Proof. reflexivity. Qed.
