(* ===== verification/Idempotency.v ===== *)
(** * Entry idempotency cache

    Model of [crates/entry/src/idempotency.rs].  The cache holds one record
    per key that is being processed; [reserve] hands out a reservation, whose
    [Drop] implementation releases the key.  Both lock the cache's mutex for
    their whole body, so an execution of the entry layer is an interleaving of
    atomic [reserve] and [drop] steps over the shared records. *)

From S2P Require Import Prelude RustStr.

Module Idempotency.

(** ** Data and operations *)

(** [EntryIdempotencyCache]: the bound and the mutex-protected records
    (key to the digest of its [IdempotencyRecord]). *)
Record EntryIdempotencyCache := {
  max_keys : N;
  records : gmap string string;
}.

Record EntryIdempotencyReservation := {
  res_key : option string;
  res_digest : string;
}.

Inductive EntryIdempotencyReservationOutcome :=
| Reserved (r : EntryIdempotencyReservation)
| InFlight
| OutcomeConflict
| CapacityExhausted.

Definition new (n : N) : EntryIdempotencyCache :=
  {| max_keys := n; records := ∅ |}.

Definition with_records (c : EntryIdempotencyCache) (m : gmap string string) :=
  {| max_keys := max_keys c; records := m |}.

Definition reserve (c : EntryIdempotencyCache) (key digest : string)
    : EntryIdempotencyReservationOutcome * EntryIdempotencyCache :=
  if (max_keys c =? 0) || blank key then
    (Reserved {| res_key := None; res_digest := digest |}, c)
  else match records c !! key with
  | Some d =>
      if bool_decide (d ≠ digest) then (OutcomeConflict, c) else (InFlight, c)
  | None =>
      if max_keys c <=? N.of_nat (size (records c)) then (CapacityExhausted, c)
      else (Reserved {| res_key := Some key; res_digest := digest |},
            with_records c (<[key := digest]> (records c)))
  end.

Definition drop (c : EntryIdempotencyCache) (r : EntryIdempotencyReservation)
    : EntryIdempotencyCache :=
  match res_key r with
  | None => c
  | Some key =>
      if bool_decide (records c !! key = Some (res_digest r))
      then with_records c (delete key (records c))
      else c
  end.

(** ** Executions

    A configuration is the cache and the reservations that are alive; a step
    is a call of [reserve] by any thread or the drop of any live
    reservation. *)
Definition config : Type := EntryIdempotencyCache * list EntryIdempotencyReservation.

Inductive step : config → config → Prop :=
| step_reserve_granted c live key digest r c' :
    reserve c key digest = (Reserved r, c') →
    step (c, live) (c', r :: live)
| step_reserve_refused c live key digest o c' :
    reserve c key digest = (o, c') →
    (∀ r, o ≠ Reserved r) →
    step (c, live) (c', live)
| step_drop c live1 r live2 :
    step (c, live1 ++ r :: live2) (drop c r, live1 ++ live2).

Definition reachable (n : N) : config → Prop := rtc step (new n, []).

(** The keys held by live reservations, and the record each one owns. *)
Definition held (live : list EntryIdempotencyReservation) : list (string * string) :=
  omap (λ r, (λ k, (k, res_digest r)) <$> res_key r) live.

(** ** Invariant *)

(** The records are exactly the keyed live reservations, no key is held twice,
    and the bound holds. *)
Record inv (n : N) (cfg : config) : Prop := {
  inv_bound : max_keys cfg.1 = n;
  inv_nodup : NoDup (held cfg.2).*1;
  inv_records : records cfg.1 = list_to_map (held cfg.2);
  inv_size : N.of_nat (size (records cfg.1)) ≤ n;
}.

Lemma held_app l1 l2 : held (l1 ++ l2) = held l1 ++ held l2.
Proof. apply omap_app. Qed.

Lemma held_cons_Some k d live :
  held ({| res_key := Some k; res_digest := d |} :: live) = (k, d) :: held live.
Proof. done. Qed.

Lemma held_cons_None d live :
  held ({| res_key := None; res_digest := d |} :: live) = held live.
Proof. done. Qed.

Lemma reserve_refused_unchanged c key digest o c' :
  reserve c key digest = (o, c') → (∀ r, o ≠ Reserved r) → c' = c.
Proof.
  unfold reserve. intros H Ho.
  repeat case_match; simplify_eq; try done. all: by destruct (Ho _ eq_refl).
Qed.

Lemma reserve_granted_inv c key digest r c' :
  reserve c key digest = (Reserved r, c') →
  (r = {| res_key := None; res_digest := digest |} ∧ c' = c)
  ∨ (r = {| res_key := Some key; res_digest := digest |}
     ∧ c' = with_records c (<[key := digest]> (records c))
     ∧ records c !! key = None
     ∧ N.of_nat (size (records c)) < max_keys c).
Proof.
  unfold reserve. intros H.
  repeat case_match; simplify_eq; split_bool; auto.
Qed.

Lemma inv_new n : inv n (new n, []).
Proof. split; [done | apply NoDup_nil_2 | done | unfold new; cbn -[size]; rewrite map_size_empty; lia]. Qed.

Lemma inv_reserve n c live key digest r c' :
  inv n (c, live) → reserve c key digest = (Reserved r, c') →
  inv n (c', r :: live).
Proof.
  intros [Hb Hnd Hrec Hsz] H; cbn in *.
  apply reserve_granted_inv in H as [[-> ->]|(-> & -> & Hk & Hlt)].
  - by split.
  - split; rewrite ?held_cons_Some; cbn.
    + done.
    + apply NoDup_cons_2; [|done]. rewrite Hrec in Hk.
      by apply not_elem_of_list_to_map.
    + by rewrite Hrec.
    + rewrite map_size_insert_None by done. lia.
Qed.

Lemma inv_drop n c live1 r live2 :
  inv n (c, live1 ++ r :: live2) → inv n (drop c r, live1 ++ live2).
Proof.
  intros [Hb Hnd Hrec Hsz]; cbn in *.
  destruct r as [[k|] d]; cycle 1.
  { rewrite !held_app, held_cons_None, <- held_app in *. by split. }
  rewrite held_app, held_cons_Some in Hnd, Hrec.
  rewrite fmap_app, fmap_cons in Hnd. cbn in Hnd.
  assert (Hk : (k ∉ (held (live1 ++ live2)).*1) ∧ NoDup (held (live1 ++ live2)).*1).
  { rewrite <- Permutation_middle in Hnd. rewrite held_app, fmap_app.
    by apply NoDup_cons in Hnd. }
  destruct Hk as [Hk Hnd'].
  assert (Hm : records c = <[k := d]> (list_to_map (held (live1 ++ live2)))).
  { rewrite Hrec, held_app. symmetry.
    change (insert k d ?m) with
      (list_to_map (M := gmap string string) ((k, d) :: (held live1 ++ held live2))).
    apply list_to_map_proper; [|by rewrite Permutation_middle].
    rewrite fmap_cons, <- held_app. by apply NoDup_cons_2. }
  apply not_elem_of_list_to_map in Hk.
  unfold drop; cbn. rewrite bool_decide_eq_true_2 by (rewrite Hm; apply lookup_insert_eq).
  split; cbn; [done | done | | ].
  - by rewrite Hm, delete_insert_id.
  - rewrite Hm in *. rewrite delete_insert_id by done.
    rewrite map_size_insert_None in Hsz by done. lia.
Qed.

Lemma inv_step n cfg cfg' : inv n cfg → step cfg cfg' → inv n cfg'.
Proof.
  intros Hi Hs. destruct Hs.
  - by eapply inv_reserve.
  - by erewrite (reserve_refused_unchanged _ _ _ _ c') by done.
  - by apply inv_drop.
Qed.

Lemma reachable_inv n cfg : reachable n cfg → inv n cfg.
Proof.
  intros Hr. unfold reachable in Hr.
  assert (Hi : inv n (new n, [])) by apply inv_new. revert Hi.
  induction Hr as [|x y z Hxy _ IH]; [done|].
  intros Hi. apply IH. by eapply inv_step.
Qed.

Lemma held_lookup n c live k d :
  inv n (c, live) → records c !! k = Some d ↔ (k, d) ∈ held live.
Proof.
  intros [_ Hnd Hrec _]; cbn in *. rewrite Hrec. symmetry.
  by apply elem_of_list_to_map.
Qed.

Lemma held_size n c live :
  inv n (c, live) → size (records c) = length (held live).
Proof.
  intros [_ Hnd Hrec _]; cbn in *. rewrite Hrec.
  by apply map_size_list_to_map.
Qed.

Lemma reserve_outcome_inv n c live key digest :
  inv n (c, live) → n ≠ 0 → blank key = false →
  (reserve c key digest).1 =
    match list_find (λ kd, kd.1 = key) (held live) with
    | Some (_, (_, d)) => if bool_decide (d = digest) then InFlight else OutcomeConflict
    | None =>
        if len (held live) <? n
        then Reserved {| res_key := Some key; res_digest := digest |}
        else CapacityExhausted
    end.
Proof.
  intros Hi Hn Hkey. unfold reserve.
  destruct Hi as [Hb ? ? ?] eqn:E; cbn in Hb. rewrite Hb, Hkey.
  apply N.eqb_neq in Hn. rewrite Hn; cbn.
  destruct (list_find _ _) as [[i [k d]]|] eqn:Hf.
  - apply list_find_Some in Hf as (Hl & Hk & _). cbn in Hk; subst k.
    apply list_elem_of_lookup_2 in Hl.
    apply (held_lookup n c live) in Hl; [|done]. rewrite Hl.
    destruct (decide (d = digest)) as [->|Hd].
    + by rewrite bool_decide_eq_false_2, bool_decide_eq_true_2 by naive_solver.
    + by rewrite bool_decide_eq_true_2, bool_decide_eq_false_2 by done.
  - apply list_find_None in Hf.
    assert (Hnone : records c !! key = None).
    { apply eq_None_not_Some. intros [d Hd].
      apply (held_lookup n c live) in Hd; [|done].
      rewrite Forall_forall in Hf. by apply (Hf _ Hd). }
    rewrite Hnone. unfold len. rewrite <- (held_size n c live) by done.
    destruct (_ <=? _) eqn:E1, (_ <? _) eqn:E2; split_bool; try done; lia.
Qed.

(** ** Properties *)

(** C31: In every interleaving of reservations and drops the live reservations own
    pairwise distinct keys, the cache holds exactly their records, and it
    never holds more than [max_keys] of them. *)
Theorem reservations_exclusive_and_bounded n c live :
  reachable n (c, live) →
  NoDup (held live).*1
  ∧ (∀ k d, records c !! k = Some d ↔ (k, d) ∈ held live)
  ∧ len (held live) ≤ n.
Proof.
  intros Hi%reachable_inv. split; [|split].
  - apply Hi.
  - intros k d. by eapply held_lookup.
  - unfold len. rewrite <- (held_size n c live) by done. apply Hi.
Qed.

Definition sample : config :=
  (with_records (new 2) {["k" := "d"]}, [{| res_key := Some "k"; res_digest := "d" |}])%string.

Lemma sample_reachable : reachable 2 sample.
Proof.
  apply rtc_once.
  exact (step_reserve_granted (new 2) [] "k" "d" _ _ eq_refl).
Defined.

Lemma reservations_exclusive_and_bounded_witness :
  reachable 2 sample ∧ len (held sample.2) ≤ 2.
Proof.
  split; [exact sample_reachable|].
  exact (proj2 (proj2 (reservations_exclusive_and_bounded 2 _ _ sample_reachable))).
Defined.

(** The answer of [reserve] on a real key in a reachable state: the same key
    and digest in flight, a conflict when the key is in flight with another
    digest, exhaustion exactly when the key is free and [max_keys] keys are
    held, and otherwise a reservation that owns the key. *)
Theorem reserve_outcome n c live key digest :
  reachable n (c, live) → n ≠ 0 → blank key = false →
  (reserve c key digest).1 =
    match list_find (λ kd, kd.1 = key) (held live) with
    | Some (_, (_, d)) => if bool_decide (d = digest) then InFlight else OutcomeConflict
    | None =>
        if len (held live) <? n
        then Reserved {| res_key := Some key; res_digest := digest |}
        else CapacityExhausted
    end.
Proof. intros Hi%reachable_inv. by apply reserve_outcome_inv. Qed.

Lemma reserve_outcome_witness :
  (reserve sample.1 "k" "other").1 = OutcomeConflict.
Proof.
  rewrite (reserve_outcome 2 _ sample.2 "k" "other");
    [reflexivity | exact sample_reachable | discriminate | reflexivity].
Defined.

(** Dropping a live reservation frees its key: in every reachable state the
    next [reserve] of that key is granted, whatever digest it carries. *)
Theorem dropped_key_is_reusable n c live1 live2 key digest digest' :
  reachable n (c, live1 ++ {| res_key := Some key; res_digest := digest |} :: live2) →
  blank key = false →
  (reserve (drop c {| res_key := Some key; res_digest := digest |}) key digest').1
  = Reserved {| res_key := Some key; res_digest := digest' |}.
Proof.
  intros Hr Hkey. pose proof (reachable_inv _ _ Hr) as Hi.
  set (r := {| res_key := Some key; res_digest := digest |}) in *.
  assert (Hr' : reachable n (drop c r, live1 ++ live2)).
  { eapply rtc_r; [exact Hr|]. constructor. }
  pose proof (held_size _ _ _ Hi) as Hsz. pose proof (inv_size _ _ Hi) as Hle.
  pose proof (inv_nodup _ _ Hi) as Hnd. cbn in Hle, Hnd.
  subst r. rewrite held_app, held_cons_Some in Hsz, Hnd.
  rewrite length_app in Hsz; cbn in Hsz.
  rewrite (reserve_outcome_inv n _ (live1 ++ live2))
    by (done || lia || by apply reachable_inv).
  rewrite fmap_app, fmap_cons, <- Permutation_middle in Hnd.
  apply NoDup_cons in Hnd as [Hnd _].
  destruct (list_find _ _) as [[i [k d]]|] eqn:Hf.
  - apply list_find_Some in Hf as (Hl & Hk & _). cbn in Hk; subst k.
    destruct Hnd. rewrite <- fmap_app, <- held_app.
    apply list_elem_of_fmap. exists (key, d). split; [done|].
    by eapply list_elem_of_lookup_2.
  - rewrite held_app, len_app. unfold len.
    destruct (_ <? _) eqn:E; [done|]. split_bool. lia.
Qed.

Lemma dropped_key_is_reusable_witness :
  (reserve (drop sample.1 {| res_key := Some "k"; res_digest := "d" |}) "k" "e").1
  = Reserved {| res_key := Some "k"; res_digest := "e" |}%string.
Proof.
  exact (dropped_key_is_reusable 2 sample.1 [] [] "k" "d" "e" sample_reachable eq_refl).
Defined.

End Idempotency.
