(* ===== verification/Calendar.v ===== *)
(** * Calendar and user-local time

    Model of the time functions of [crates/core/src/util.rs] (a calendar by
    loops over years and months, and the ISO 8601 parser) and of
    [crates/core/src/memory/local_time.rs] (a validated user-local
    presentation, which computes the civil date in constant time by 400-year
    eras).  Machine integers are [Z]; casts to [u64] wrap. *)

From S2P Require Import Prelude RustStr.
From Stdlib Require Import ZArith Ascii.

Local Open Scope string_scope.
Local Open Scope list_scope.
Local Open Scope Z_scope.

Definition wrap_u64 (z : Z) : Z := z mod 18446744073709551616.

(** ** Dates by loops ([util.rs]) *)

Definition is_leap_year (y : Z) : bool :=
  ((Z.rem y 4 =? 0) && negb (Z.rem y 100 =? 0)) || (Z.rem y 400 =? 0).

Definition days_in_year (y : Z) : Z := if is_leap_year y then 366 else 365.

(** [MONTH_DAYS], with [month_days[1] = 29] in a leap year. *)
Definition month_days (leap : bool) : list Z :=
  [31; (if leap then 29 else 28); 31; 30; 31; 30; 31; 31; 30; 31; 30; 31].

Definition sumZ (l : list Z) : Z := foldr Z.add 0 l.

(** [for y in from..from + n { d += ... }] *)
Fixpoint add_years (n : nat) (from d : Z) : Z :=
  match n with
  | O => d
  | S n => add_years n (from + 1) (d + days_in_year from)
  end.

Definition days_from_epoch (year month day : Z) : Z :=
  let d := add_years (Z.to_nat (year - 1970)) 1970 0 in
  let d := d + sumZ (take (Z.to_nat (month - 1)) (month_days (is_leap_year year))) in
  d + day - 1.

(** [while d >= days_in_year(year) { ... }]; [None] is fuel exhaustion. *)
Fixpoint year_loop (fuel : nat) (year d : Z) : option (Z * Z) :=
  match fuel with
  | O => None
  | S fuel =>
      if days_in_year year <=? d then year_loop fuel (year + 1) (d - days_in_year year)
      else Some (year, d)
  end.

(** Every round takes at least 365 days. *)
Definition year_fuel (days : Z) : nat := S (Z.to_nat (days / 365)).

(** [while m < 12 && acc + month_days[m] <= day_of_year { ... }] *)
Fixpoint month_loop (rest : list Z) (m acc day_of_year : Z) : Z * Z :=
  match rest with
  | [] => (m, acc)
  | md :: rest =>
      if acc + md <=? day_of_year then month_loop rest (m + 1) (acc + md) day_of_year
      else (m, acc)
  end.

Record civil := mkCivil {
  c_year : Z; c_month : Z; c_day : Z; c_hour : Z; c_min : Z; c_sec : Z;
}.

Definition epoch_to_ymdhms (secs : Z) : option civil :=
  let sec := secs mod 60 in
  let secs := secs / 60 in
  let minute := secs mod 60 in
  let secs := secs / 60 in
  let hour := secs mod 24 in
  let days := secs / 24 in
  '(year, day_of_year) ← year_loop (year_fuel days) 1970 days;
  let '(m, acc) := month_loop (month_days (is_leap_year year)) 0 0 day_of_year in
  Some (mkCivil year (m + 1) (day_of_year - acc + 1) hour minute sec).

Definition ymdhms_to_epoch (c : civil) : Z :=
  wrap_u64 (wrap_u64 (days_from_epoch (c_year c) (c_month c) (c_day c)) * 86400
            + c_hour c * 3600 + c_min c * 60 + c_sec c).

Definition weekday_name (days_since_epoch : Z) : string :=
  nth (Z.to_nat (days_since_epoch mod 7))
    ["Thursday"; "Friday"; "Saturday"; "Sunday"; "Monday"; "Tuesday"; "Wednesday"] "".

(** ** Parsing ([str::parse], [split], [rfind], and [parse_iso8601]) *)

Definition digit (c : Ascii.ascii) : option Z :=
  let b := byte_of c in
  if ((48 <=? b) && (b <=? 57))%N then Some (Z.of_N b - 48) else None.

(** The digits of a number below [bound]; an overflow or another byte is an
    error. *)
Fixpoint digits (bound acc : Z) (s : string) : option Z :=
  match s with
  | EmptyString => Some acc
  | String c s =>
      match digit c with
      | Some d => if acc * 10 + d <? bound then digits bound (acc * 10 + d) s else None
      | None => None
      end
  end.

(** [s.parse::<uN>()]: an optional [+] and at least one digit. *)
Definition parse_unsigned (bound : Z) (s : string) : option Z :=
  let body := match s with String "+"%char s' => s' | _ => s end in
  match body with EmptyString => None | _ => digits bound 0 body end.

Definition parse_u64 : string → option Z := parse_unsigned 18446744073709551616.
Definition parse_u32 : string → option Z := parse_unsigned 4294967296.

(** [s.parse::<i32>()] *)
Definition parse_i32 (s : string) : option Z :=
  match s with
  | String "-"%char EmptyString => None
  | String "-"%char s' => Z.opp <$> digits 2147483649 0 s'
  | _ => parse_unsigned 2147483648 s
  end.

(** [s.split(c)] *)
Fixpoint split_on (c : Ascii.ascii) (s : string) : list string :=
  match s with
  | EmptyString => [""]
  | String a s =>
      match split_on c s with
      | seg :: segs => if decide (a = c) then "" :: seg :: segs else String a seg :: segs
      | [] => [""]
      end
  end.

(** [s.rfind(c)] *)
Fixpoint rfind (c : Ascii.ascii) (s : string) : option Z :=
  match s with
  | EmptyString => None
  | String a s =>
      match rfind c s with
      | Some p => Some (p + 1)
      | None => if decide (a = c) then Some 0 else None
      end
  end.

(** [&s[..pos]] *)
Fixpoint prefix_bytes (n : nat) (s : string) : string :=
  match n, s with
  | S n, String a s => String a (prefix_bytes n s)
  | _, _ => ""
  end.

(** [s.trim_end_matches('Z')] *)
Fixpoint trim_end_z (s : string) : string :=
  match s with
  | EmptyString => ""
  | String a s =>
      match trim_end_z s with
      | EmptyString => if decide (a = "Z"%char) then "" else String a ""
      | s => String a s
      end
  end.

(** [s.split_once('T')] *)
Fixpoint split_once_t (s : string) : option (string * string) :=
  match s with
  | EmptyString => None
  | String a s =>
      if decide (a = "T"%char) then Some ("", s)
      else '(l, r) ← split_once_t s; Some (String a l, r)
  end.

Definition strip_offset (s : string) : string :=
  match rfind "+"%char s with
  | Some pos => if 10 <? pos then prefix_bytes (Z.to_nat pos) s else s
  | None =>
      match rfind "-"%char s with
      | Some pos => if 16 <? pos then prefix_bytes (Z.to_nat pos) s else s
      | None => s
      end
  end.

Definition parse_datetime (s : string) : option Z :=
  '(date, time) ← split_once_t s;
  match split_on "-"%char date, split_on ":"%char time with
  | y :: m :: day :: _, h :: minute :: sec_str :: _ =>
      y ← parse_i32 y; m ← parse_u32 m; day ← parse_u32 day;
      h ← parse_u32 h; minute ← parse_u32 minute;
      sec ← match split_on "."%char sec_str with sec :: _ => parse_u32 sec | [] => None end;
      if ((1 <=? m) && (m <=? 12)) && ((1 <=? day) && (day <=? 31))
         && (h <=? 23) && (minute <=? 59) && (sec <=? 59)
      then Some (ymdhms_to_epoch (mkCivil y m day h minute sec))
      else None
  | _, _ => None
  end.

Definition parse_iso8601 (s : string) : option Z :=
  let s := trim s in
  match parse_u64 s with
  | Some n => Some n
  | None => parse_datetime (strip_offset (trim_end_z s))
  end.

(** ** User-local time ([local_time.rs]) *)

Definition MAX_PRESENTATION_UNIX_SECS : Z := 253402300799.
Definition MAX_TIME_ZONE_BYTES : Z := 128.

Record UserLocalTimeContext := mkLocalTime {
  unix_secs : Z;
  utc_offset_seconds : Z;
  time_zone : string;
}.

Definition local_seconds (c : UserLocalTimeContext) : Z := unix_secs c + utc_offset_seconds c.

(** The civil date of a day number, by 400-year eras. *)
Definition civil_from_days (days : Z) : Z * Z * Z :=
  let civil_days := days + 719468 in
  let era := civil_days / 146097 in
  let day_of_era := civil_days - era * 146097 in
  let year_of_era :=
    Z.quot (day_of_era - Z.quot day_of_era 1460 + Z.quot day_of_era 36524
            - Z.quot day_of_era 146096) 365 in
  let year := year_of_era + era * 400 in
  let day_of_year :=
    day_of_era - (365 * year_of_era + Z.quot year_of_era 4 - Z.quot year_of_era 100) in
  let month_position := Z.quot (5 * day_of_year + 2) 153 in
  let day := day_of_year - Z.quot (153 * month_position + 2) 5 + 1 in
  let month := month_position + (if month_position <? 10 then 3 else -9) in
  (year + (if month <=? 2 then 1 else 0), month, day).

Definition local_components (c : UserLocalTimeContext) : civil :=
  let local := local_seconds c in
  let days := local / 86400 in
  let seconds := local mod 86400 in
  let '(year, month, day) := civil_from_days days in
  mkCivil year month day (seconds / 3600) ((seconds mod 3600) / 60) (seconds mod 60).

Definition local_hour (c : UserLocalTimeContext) : Z := c_hour (local_components c).

Definition local_weekday (c : UserLocalTimeContext) : string :=
  nth (Z.to_nat ((local_seconds c / 86400 + 4) mod 7))
    ["Sun"; "Mon"; "Tue"; "Wed"; "Thu"; "Fri"; "Sat"] "".

(** [{n:0w}] *)
Fixpoint zeros (n : nat) : string := match n with O => "" | S n => String "0"%char (zeros n) end.
Definition pad (w : nat) (n : Z) : string :=
  let s := pretty n in zeros (w - String.length s) +:+ s.

Definition utc_offset_label (c : UserLocalTimeContext) : string :=
  let seconds := Z.abs (utc_offset_seconds c) in
  let sign := if utc_offset_seconds c <? 0 then "-" else "+" in
  let hours := seconds / 3600 in
  let minutes := (seconds mod 3600) / 60 in
  let seconds := seconds mod 60 in
  if seconds =? 0 then "UTC" +:+ sign +:+ pad 2 hours +:+ ":" +:+ pad 2 minutes
  else "UTC" +:+ sign +:+ pad 2 hours +:+ ":" +:+ pad 2 minutes +:+ ":" +:+ pad 2 seconds.

Definition format_local_datetime (c : UserLocalTimeContext) : string :=
  let l := local_components c in
  pad 4 (c_year l) +:+ "-" +:+ pad 2 (c_month l) +:+ "-" +:+ pad 2 (c_day l) +:+ " "
  +:+ pad 2 (c_hour l) +:+ ":" +:+ pad 2 (c_min l) +:+ ":" +:+ pad 2 (c_sec l) +:+ " "
  +:+ utc_offset_label c +:+ " [" +:+ time_zone c +:+ "]".

Definition zone_byte (c : Ascii.ascii) : bool :=
  let b := byte_of c in
  (((48 <=? b) && (b <=? 57)) || ((65 <=? b) && (b <=? 90)) || ((97 <=? b) && (b <=? 122)))%N
  || bool_decide (c ∈ ["/"; "_"; "-"; "+"; ":"]%char).

Definition invalid_local_time : Error :=
  InvalidInput "user_local_time"
    "user-local time must have a canonical zone, valid offset and the exact operation instant".

Definition zone_canonical (c : UserLocalTimeContext) : bool :=
  let tz := time_zone c in
  negb (is_empty tz)
  && (Z.of_N (str_len tz) <=? MAX_TIME_ZONE_BYTES)
  && negb (existsb is_empty (split_on "/"%char tz))
  && forallb zone_byte (String.list_ascii_of_string tz)
  && negb ((bool_decide (tz = "UTC") || bool_decide (tz = "GMT"))
           && negb (utc_offset_seconds c =? 0))
  && negb (String.prefix "UTC+" tz && negb (bool_decide (tz = utc_offset_label c)))
  && negb (String.prefix "UTC-" tz && negb (bool_decide (tz = utc_offset_label c))).

Definition validate_for_epoch (c : UserLocalTimeContext) (at_secs : Z) : result unit :=
  _ ← ensure ((unix_secs c =? at_secs)
              && (unix_secs c <=? MAX_PRESENTATION_UNIX_SECS)
              && ((-86399 <=? utc_offset_seconds c) && (utc_offset_seconds c <=? 86399))
              && zone_canonical c) invalid_local_time;
  ensure ((1 <=? c_year (local_components c)) && (c_year (local_components c) <=? 9999))
    invalid_local_time.

Definition local_time_new (at_secs offset : Z) (zone : string) : result UserLocalTimeContext :=
  let c := mkLocalTime at_secs offset zone in
  _ ← validate_for_epoch c at_secs;
  Ok c.
