(* ===== verification/CalendarProps.v ===== *)
(** * Calendar: theorems

    Against one reference calendar (days of whole years in closed form, then
    days of whole months), both implementations are exact: the loops of
    [util.rs] are inverse to each other, and the era computation of
    [local_time.rs] agrees with them. *)

From S2P Require Import Prelude RustStr Calendar.
From Stdlib Require Import ZArith Ascii.

Local Open Scope string_scope.
Local Open Scope list_scope.
Local Open Scope Z_scope.

(** ** The reference calendar *)

(** Days from 1970-01-01 to January 1st of year [y]. *)
Definition days_before_year (y : Z) : Z :=
  365 * (y - 1) + (y - 1) / 4 - (y - 1) / 100 + (y - 1) / 400 - 719162.

Definition days_before_month (leap : bool) (m : Z) : Z :=
  sumZ (take (Z.to_nat (m - 1)) (month_days leap)).

Definition days_in_month (leap : bool) (m : Z) : Z := nth (Z.to_nat (m - 1)) (month_days leap) 0.

Definition day_number (y m d : Z) : Z :=
  days_before_year y + days_before_month (is_leap_year y) m + d - 1.

Definition valid_date (y m d : Z) : Prop :=
  1 ≤ m ≤ 12 ∧ 1 ≤ d ≤ days_in_month (is_leap_year y) m.

Definition valid_civil (c : civil) : Prop :=
  valid_date (c_year c) (c_month c) (c_day c)
  ∧ 0 ≤ c_hour c < 24 ∧ 0 ≤ c_min c < 60 ∧ 0 ≤ c_sec c < 60.

(** Seconds since 1970-01-01 00:00:00. *)
Definition timestamp (c : civil) : Z :=
  day_number (c_year c) (c_month c) (c_day c) * 86400
  + c_hour c * 3600 + c_min c * 60 + c_sec c.

(** ** Years *)

Lemma rem_eqb_mod y k : 0 < k → (Z.rem y k =? 0) = (y mod k =? 0).
Proof.
  intros Hk. apply Bool.eq_true_iff_eq. rewrite !Z.eqb_eq.
  rewrite Z.rem_divide, Z.mod_divide by lia. done.
Qed.

Lemma days_before_succ y : days_before_year (y + 1) = days_before_year y + days_in_year y.
Proof.
  unfold days_before_year, days_in_year, is_leap_year. rewrite !rem_eqb_mod by lia.
  destruct (Z.eqb_spec (y mod 4) 0), (Z.eqb_spec (y mod 100) 0), (Z.eqb_spec (y mod 400) 0);
    cbn; Z.to_euclidean_division_equations; lia.
Qed.

Lemma days_in_year_bounds y : 365 ≤ days_in_year y ≤ 366.
Proof. unfold days_in_year. destruct (is_leap_year y); lia. Qed.

Lemma days_before_mono y y' : y ≤ y' → days_before_year y ≤ days_before_year y'.
Proof. unfold days_before_year. intros H. Z.to_euclidean_division_equations; lia. Qed.

Lemma add_years_spec n from d :
  add_years n from d = d + days_before_year (from + Z.of_nat n) - days_before_year from.
Proof.
  revert from d. induction n as [|n IH]; intros from d; cbn [add_years].
  - rewrite Z.add_0_r. lia.
  - rewrite IH, days_before_succ. replace (from + 1 + Z.of_nat n) with (from + Z.of_nat (S n)); lia.
Qed.

Lemma days_from_epoch_spec y m d : 1970 ≤ y → days_from_epoch y m d = day_number y m d.
Proof.
  intros Hy. unfold days_from_epoch, day_number, days_before_month. rewrite add_years_spec.
  replace (1970 + Z.of_nat (Z.to_nat (y - 1970))) with y by lia.
  change (days_before_year 1970) with 0. lia.
Qed.

(** The year loop finds the year of a day within its fuel. *)
Lemma year_loop_spec fuel y d :
  0 ≤ d → d / 365 < Z.of_nat fuel →
  ∃ y' d', year_loop fuel y d = Some (y', d') ∧ y ≤ y' ∧ 0 ≤ d' < days_in_year y'
    ∧ days_before_year y' + d' = days_before_year y + d.
Proof.
  revert y d. induction fuel as [|fuel IH]; intros y d Hd Hf.
  { pose proof (Z.div_pos d 365). lia. }
  cbn [year_loop]. pose proof (days_in_year_bounds y) as Hy.
  destruct (Z.leb_spec (days_in_year y) d).
  - destruct (IH (y + 1) (d - days_in_year y)) as (y' & d' & -> & ? & ? & Hs); [lia| |].
    + assert ((d - days_in_year y) / 365 ≤ (d - 365) / 365) by (apply Z.div_le_mono; lia).
      replace (d - 365) with (d + -1 * 365) in * by lia. rewrite Z.div_add in * by lia. lia.
    + exists y', d'. rewrite days_before_succ in Hs. split_and!; [done|lia..].
  - exists y, d. split_and!; [done|lia..].
Qed.

(** ** Months: finite tables *)

Definition year_length (leap : bool) : Z := if leap then 366 else 365.

Definition check_all (P : Z → bool) (n : nat) : bool := forallb P (Z.of_nat <$> seq 0 n).

Lemma check_all_spec P n : check_all P n = true → ∀ z, 0 ≤ z < Z.of_nat n → P z = true.
Proof.
  unfold check_all. rewrite forallb_forall. intros H z Hz. apply H, list_elem_of_In.
  apply list_elem_of_fmap. exists (Z.to_nat z). split; [lia|]. apply elem_of_seq. lia.
Qed.

Definition month_ok (leap : bool) (doy : Z) : bool :=
  let '(m, acc) := month_loop (month_days leap) 0 0 doy in
  (0 <=? m) && (m <=? 11) && (acc =? days_before_month leap (m + 1))
  && (acc <=? doy) && (doy - acc <? days_in_month leap (m + 1)).

Lemma month_loop_spec leap doy :
  0 ≤ doy < year_length leap →
  ∃ m acc, month_loop (month_days leap) 0 0 doy = (m, acc) ∧ 0 ≤ m ≤ 11
    ∧ acc = days_before_month leap (m + 1) ∧ 0 ≤ doy - acc < days_in_month leap (m + 1).
Proof.
  intros H. assert (Hc : check_all (month_ok leap) (Z.to_nat (year_length leap)) = true)
    by (destruct leap; vm_compute; reflexivity).
  assert (Hl : 0 ≤ year_length leap) by (destruct leap; cbn; lia).
  pose proof (check_all_spec _ _ Hc doy ltac:(lia)) as Hm. unfold month_ok in Hm.
  destruct (month_loop (month_days leap) 0 0 doy) as [m acc]. exists m, acc.
  rewrite !andb_true_iff, !Z.leb_le, Z.eqb_eq, Z.ltb_lt in Hm. split_and!; lia || done.
Qed.

Definition date_ok (leap : bool) (m d : Z) : bool :=
  (d <? 1) || (days_in_month leap m <? d)
  || (let '(m', acc) := month_loop (month_days leap) 0 0 (days_before_month leap m + d - 1) in
      (m' =? m - 1) && (acc =? days_before_month leap m)
      && (0 <=? days_before_month leap m) && (days_before_month leap m + d <=? year_length leap)).

Lemma date_spec leap m d :
  1 ≤ m ≤ 12 → 1 ≤ d ≤ days_in_month leap m →
  month_loop (month_days leap) 0 0 (days_before_month leap m + d - 1)
    = (m - 1, days_before_month leap m)
  ∧ 0 ≤ days_before_month leap m + d - 1 < year_length leap.
Proof.
  intros Hm Hd.
  assert (Hc : check_all (λ m, check_all (λ d, date_ok leap (m + 1) d) 32) 12 = true)
    by (destruct leap; vm_compute; reflexivity).
  assert (Hb : days_in_month leap m ≤ 31).
  { assert (Hc' : check_all (λ m, days_in_month leap (m + 1) <=? 31) 12 = true)
      by (destruct leap; vm_compute; reflexivity).
    pose proof (check_all_spec _ _ Hc' (m - 1) ltac:(lia)) as H. cbn beta in H.
    replace (m - 1 + 1) with m in H by lia. by apply Z.leb_le in H. }
  pose proof (check_all_spec _ _ Hc (m - 1) ltac:(lia)) as H. cbn beta in H.
  apply check_all_spec with (z := d) in H; [|lia]. replace (m - 1 + 1) with m in H by lia.
  unfold date_ok in H. rewrite !orb_true_iff, !Z.ltb_lt in H. destruct H as [[?|?]|H]; [lia..|].
  destruct (month_loop _ _ _ _) as [m' acc].
  rewrite !andb_true_iff, !Z.leb_le, !Z.eqb_eq in H. destruct H as [[[-> ->] ?] ?].
  split; [done|lia].
Qed.

(** ** Dates *)

Lemma days_in_year_length y : days_in_year y = year_length (is_leap_year y).
Proof. done. Qed.

Lemma valid_date_in_year y m d :
  valid_date y m d →
  days_before_year y ≤ day_number y m d < days_before_year (y + 1).
Proof.
  intros [Hm Hd]. destruct (date_spec _ m d Hm Hd) as [_ H]. unfold day_number.
  rewrite days_before_succ, days_in_year_length. lia.
Qed.

(** A day has one date. *)
Lemma day_number_inj y m d y' m' d' :
  valid_date y m d → valid_date y' m' d' → day_number y m d = day_number y' m' d' →
  y = y' ∧ m = m' ∧ d = d'.
Proof.
  intros H H' E. pose proof (valid_date_in_year _ _ _ H) as Hy.
  pose proof (valid_date_in_year _ _ _ H') as Hy'.
  assert (y = y') as ->.
  { destruct (Z.lt_trichotomy y y') as [Hlt|[?|Hlt]]; [|done|].
    - pose proof (days_before_mono (y + 1) y' ltac:(lia)). lia.
    - pose proof (days_before_mono (y' + 1) y ltac:(lia)). lia. }
  destruct H as [Hm Hd], H' as [Hm' Hd']. unfold day_number in E.
  destruct (date_spec _ m d Hm Hd) as [Hl _], (date_spec _ m' d' Hm' Hd') as [Hl' _].
  replace (days_before_month (is_leap_year y') m + d - 1)
    with (days_before_month (is_leap_year y') m' + d' - 1) in Hl by lia.
  rewrite Hl in Hl'. injection Hl' as Hmm Hacc. split_and!; lia.
Qed.

(** Hours, minutes and seconds are determined by the second of the day. *)
Lemma timestamp_inj c c' :
  valid_civil c → valid_civil c' → timestamp c = timestamp c' → c = c'.
Proof.
  destruct c as [y m d h mi s], c' as [y' m' d' h' mi' s'].
  intros (Hd & Hh & Hmi & Hs) (Hd' & Hh' & Hmi' & Hs') E. unfold timestamp in E. cbn in *.
  assert (En : day_number y m d = day_number y' m' d') by lia.
  destruct (day_number_inj _ _ _ _ _ _ Hd Hd' En) as (-> & -> & ->). f_equal; lia.
Qed.

Lemma valid_date_of_day y doy :
  0 ≤ doy < days_in_year y →
  let '(m, acc) := month_loop (month_days (is_leap_year y)) 0 0 doy in
  valid_date y (m + 1) (doy - acc + 1)
  ∧ day_number y (m + 1) (doy - acc + 1) = days_before_year y + doy.
Proof.
  intros H. destruct (month_loop_spec _ doy H) as (m & acc & -> & Hm & Hacc & Hd).
  split; [split; lia|]. unfold day_number. lia.
Qed.

(** The loops of [epoch_to_ymdhms] return the date of every instant. *)
Lemma epoch_to_ymdhms_spec secs :
  0 ≤ secs →
  ∃ c, epoch_to_ymdhms secs = Some c ∧ valid_civil c ∧ 1970 ≤ c_year c ∧ timestamp c = secs.
Proof.
  intros Hs. unfold epoch_to_ymdhms.
  assert (Hdays : 0 ≤ secs / 60 / 60 / 24) by (repeat apply Z.div_pos; lia).
  destruct (year_loop_spec (year_fuel (secs / 60 / 60 / 24)) 1970 (secs / 60 / 60 / 24))
    as (y & doy & -> & Hy & Hdoy & Hsum); [done| |].
  { unfold year_fuel. pose proof (Z.div_pos (secs / 60 / 60 / 24) 365). lia. }
  cbn [mbind option_bind]. pose proof (valid_date_of_day y doy Hdoy) as Hd.
  destruct (month_loop _ _ _ _) as [m acc]. destruct Hd as [Hv Hn].
  eexists. split; [reflexivity|]. unfold valid_civil, timestamp. cbn [c_year c_month c_day
    c_hour c_min c_sec]. rewrite Hn, Hsum. change (days_before_year 1970) with 0.
  pose proof (Z.mod_pos_bound (secs / 60 / 60) 24). pose proof (Z.mod_pos_bound (secs / 60) 60).
  pose proof (Z.mod_pos_bound secs 60). split_and!; try lia; [done|].
  pose proof (Z.div_mod secs 60). pose proof (Z.div_mod (secs / 60) 60).
  pose proof (Z.div_mod (secs / 60 / 60) 24). lia.
Qed.

Definition last_i32_second : Z := timestamp (mkCivil 2147483647 12 31 23 59 59).

Lemma day_number_bounded y m d :
  valid_date y m d → 1970 ≤ y → y ≤ 2147483647 → 0 ≤ day_number y m d < 784351576777.
Proof.
  intros Hv Hy Hy'. pose proof (valid_date_in_year _ _ _ Hv).
  pose proof (days_before_mono 1970 y Hy) as H1.
  pose proof (days_before_mono (y + 1) 2147483648 ltac:(lia)) as H2.
  change (days_before_year 1970) with 0 in H1.
  change (days_before_year 2147483648) with 784351576777 in H2. lia.
Qed.

(** In the range of [i32] years nothing wraps. *)
Lemma ymdhms_to_epoch_spec c :
  valid_civil c → 1970 ≤ c_year c → c_year c ≤ 2147483647 →
  ymdhms_to_epoch c = timestamp c.
Proof.
  intros (Hv & Hh & Hm & Hs) Hy Hy'. unfold ymdhms_to_epoch, timestamp, wrap_u64.
  rewrite days_from_epoch_spec by done.
  pose proof (day_number_bounded _ _ _ Hv Hy Hy'). 
  rewrite (Z.mod_small (day_number _ _ _)) by lia. apply Z.mod_small. lia.
Qed.

Lemma timestamp_year_le c c' :
  valid_civil c → valid_civil c' → timestamp c ≤ timestamp c' → c_year c ≤ c_year c'.
Proof.
  intros (Hv & ? & ? & ?) (Hv' & ? & ? & ?) Ht. unfold timestamp in Ht.
  pose proof (valid_date_in_year _ _ _ Hv) as Ha. pose proof (valid_date_in_year _ _ _ Hv') as Hb.
  destruct (Z.le_gt_cases (c_year c) (c_year c')) as [|Hlt]; [done|exfalso].
  pose proof (days_before_mono (c_year c' + 1) (c_year c) ltac:(lia)). lia.
Qed.

(** ** Eras *)

Lemma leap_period y k : is_leap_year (y + 400 * k) = is_leap_year y.
Proof.
  assert (H : ∀ a b, 0 < a → 400 = b * a → (y + 400 * k) mod a = y mod a).
  { intros a b Ha ->. replace (y + b * a * k) with (y + (b * k) * a) by ring.
    apply Z.mod_add. lia. }
  unfold is_leap_year. rewrite !rem_eqb_mod by lia.
  by rewrite (H 4 100), (H 100 4), (H 400 1).
Qed.

Lemma days_before_period y k :
  days_before_year (y + 400 * k) = days_before_year y + 146097 * k.
Proof.
  assert (H : ∀ a b, 0 < a → 400 = b * a →
    (y + 400 * k - 1) / a = (y - 1) / a + b * k).
  { intros a b Ha ->. replace (y + b * a * k - 1) with (y - 1 + (b * k) * a) by ring.
    apply Z.div_add. lia. }
  unfold days_before_year. rewrite (H 4 100), (H 100 4), (H 400 1) by lia. lia.
Qed.

Lemma date_period y m d k :
  (valid_date (y + 400 * k) m d ↔ valid_date y m d)
  ∧ day_number (y + 400 * k) m d = day_number y m d + 146097 * k.
Proof.
  unfold valid_date, day_number. rewrite leap_period, days_before_period.
  split; [done|lia].
Qed.

(** The year of an era, counted from March: the formula of the source. *)
Definition year_of_era (doe : Z) : Z :=
  (doe - doe / 1460 + doe / 36524 - doe / 146096) / 365.

(** Days of the era before its year [q]. *)
Definition era_start (q : Z) : Z := 365 * q + q / 4 - q / 100.

Lemma year_of_era_spec doe :
  0 ≤ doe ≤ 146096 →
  0 ≤ year_of_era doe ≤ 399
  ∧ era_start (year_of_era doe) ≤ doe
  ∧ (doe < era_start (year_of_era doe + 1) ∨ (year_of_era doe = 399 ∧ doe = 146096)).
Proof.
  intros H. unfold year_of_era, era_start.
  Z.to_euclidean_division_equations. lia.
Qed.

(** The date within a year counted from March: the formulas of the source. *)
Definition month_position (doy : Z) : Z := (5 * doy + 2) / 153.
Definition march_month (doy : Z) : Z :=
  month_position doy + (if month_position doy <? 10 then 3 else -9).
Definition march_day (doy : Z) : Z := doy - (153 * month_position doy + 2) / 5 + 1.

Definition march_ok (leap : bool) (doy : Z) : bool :=
  let m := march_month doy in let d := march_day doy in
  (1 <=? m) && (m <=? 12) && (1 <=? d)
  && (if m <=? 2
      then (days_before_month leap m + d - 1 =? doy - 306)
           && ((d <=? days_in_month leap m) || ((doy =? 365) && negb leap))
      else (days_before_month leap m + d - 1 =? doy + 59 + (if leap then 1 else 0))
           && (d <=? days_in_month leap m)).

Lemma march_spec leap doy :
  0 ≤ doy ≤ 365 → (doy = 365 → march_month doy ≤ 2 → leap = true) →
  let m := march_month doy in let d := march_day doy in
  1 ≤ m ≤ 12 ∧ 1 ≤ d ≤ days_in_month leap m
  ∧ days_before_month leap m + d - 1
    = if m <=? 2 then doy - 306 else doy + 59 + (if leap then 1 else 0).
Proof.
  intros H Hlast m d.
  assert (Hc : check_all (march_ok leap) 366 = true) by (destruct leap; vm_compute; reflexivity).
  pose proof (check_all_spec _ _ Hc doy ltac:(lia)) as Hm. unfold march_ok in Hm. fold m d in Hm.
  rewrite !andb_true_iff, !Z.leb_le in Hm. destruct Hm as [[[Hm1 Hm2] Hd] Hm].
  destruct (Z.leb_spec m 2).
  - rewrite andb_true_iff, orb_true_iff, andb_true_iff, Z.leb_le, !Z.eqb_eq, negb_true_iff in Hm.
    destruct Hm as [? [?|[E Hl]]]; [lia|]. rewrite Hlast in Hl by done. done.
  - rewrite andb_true_iff, Z.leb_le, Z.eqb_eq in Hm. lia.
Qed.

(** The 366th day of a year counted from March is February 29th. *)
Lemma era_leap_day doe :
  0 ≤ doe ≤ 146096 → doe - era_start (year_of_era doe) = 365 →
  is_leap_year (year_of_era doe + 1) = true.
Proof.
  intros H E. destruct (year_of_era_spec doe H) as (Hq & _ & Hnext).
  set (q := year_of_era doe) in *. destruct Hnext as [Hlt|[-> _]]; [|done].
  unfold is_leap_year. rewrite !rem_eqb_mod by lia. unfold era_start in *.
  destruct (Z.eqb_spec ((q + 1) mod 4) 0), (Z.eqb_spec ((q + 1) mod 100) 0); cbn; try done;
    exfalso; Z.to_euclidean_division_equations; lia.
Qed.

Lemma year_of_era_doy doe :
  0 ≤ doe ≤ 146096 → 0 ≤ doe - era_start (year_of_era doe) ≤ 365.
Proof.
  intros H. destruct (year_of_era_spec doe H) as (Hq & Hle & Hnext).
  set (q := year_of_era doe) in *. split; [lia|].
  destruct Hnext as [Hlt|[-> ->]]; [|done]. unfold era_start in *.
  Z.to_euclidean_division_equations; lia.
Qed.

(** March 1st and January 1st in terms of eras. *)
Lemma days_before_era y :
  days_before_year (y + 1) = era_start y + y / 400 - 719162.
Proof. unfold days_before_year, era_start. replace (y + 1 - 1) with y by lia. lia. Qed.

Definition era_civil (doe : Z) : Z * Z * Z :=
  let q := year_of_era doe in
  let doy := doe - era_start q in
  (q + (if march_month doy <=? 2 then 1 else 0), march_month doy, march_day doy).

Lemma era_civil_spec doe :
  0 ≤ doe ≤ 146096 →
  let '(y, m, d) := era_civil doe in valid_date y m d ∧ day_number y m d = doe - 719468.
Proof.
  intros H. unfold era_civil. pose proof (year_of_era_doy doe H) as Hdoy.
  destruct (year_of_era_spec doe H) as (Hq & _ & _). pose proof (era_leap_day doe H) as Hleap.
  set (q := year_of_era doe) in *. set (doy := doe - era_start q) in *.
  pose proof (days_before_era q) as He. rewrite Z.div_small in He by lia.
  destruct (Z.leb_spec (march_month doy) 2) as [Hm|Hm].
  - destruct (march_spec (is_leap_year (q + 1)) doy Hdoy) as (Hmb & Hd & Hn);
      [intros Hx _; by apply Hleap|].
    rewrite (proj2 (Z.leb_le _ _) Hm) in Hn. split; [by split|]. unfold day_number. lia.
  - destruct (march_spec (is_leap_year q) doy Hdoy) as (Hmb & Hd & Hn); [lia|].
    rewrite (proj2 (Z.leb_gt _ _) Hm) in Hn. rewrite Z.add_0_r. split; [by split|].
    unfold day_number. rewrite days_before_succ in He. unfold days_in_year in He.
    destruct (is_leap_year q); lia.
Qed.

(** The source's computation is [era_civil] moved by its era. *)
Lemma civil_from_days_era days :
  let era := (days + 719468) / 146097 in
  let '(y, m, d) := era_civil ((days + 719468) mod 146097) in
  civil_from_days days = (y + 400 * era, m, d).
Proof.
  intros era. unfold civil_from_days, era_civil. fold era.
  pose proof (Z.mod_pos_bound (days + 719468) 146097 ltac:(lia)) as Hdoe.
  replace (days + 719468 - era * 146097) with ((days + 719468) mod 146097)
    by (rewrite Z.mod_eq; unfold era; lia).
  set (doe := (days + 719468) mod 146097) in *.
  assert (H : 0 ≤ doe ≤ 146096) by lia. clear Hdoe.
  pose proof (year_of_era_doy doe H) as Hdoy.
  destruct (year_of_era_spec doe H) as (Hq & _ & _).
  assert (Hg : 0 ≤ doe - doe / 1460 + doe / 36524 - doe / 146096)
    by (Z.to_euclidean_division_equations; lia).
  rewrite !(Z.quot_div_nonneg doe) by lia. rewrite (Z.quot_div_nonneg _ 365) by lia.
  change ((doe - doe / 1460 + doe / 36524 - doe / 146096) / 365) with (year_of_era doe).
  set (q := year_of_era doe) in *. rewrite !(Z.quot_div_nonneg q) by lia.
  replace (doe - (365 * q + q / 4 - q / 100)) with (doe - era_start q) by (unfold era_start; lia).
  set (doy := doe - era_start q) in *. rewrite (Z.quot_div_nonneg (5 * doy + 2)) by lia.
  assert (Hmp : 0 ≤ (5 * doy + 2) / 153) by (apply Z.div_pos; lia).
  rewrite (Z.quot_div_nonneg _ 5) by lia. fold (month_position doy).
  fold (march_month doy). fold (march_day doy). f_equal. f_equal. lia.
Qed.

Lemma civil_from_days_spec days :
  let '(y, m, d) := civil_from_days days in valid_date y m d ∧ day_number y m d = days.
Proof.
  pose proof (civil_from_days_era days) as He. cbn zeta in He.
  pose proof (Z.mod_pos_bound (days + 719468) 146097 ltac:(lia)) as Hb.
  pose proof (era_civil_spec ((days + 719468) mod 146097) ltac:(lia)) as Hs.
  destruct (era_civil _) as [[y m] d]. rewrite He.
  destruct (date_period y m d ((days + 719468) / 146097)) as [Hv Hn].
  split; [by apply Hv, Hs|]. rewrite Hn, (proj2 Hs). rewrite Z.mod_eq by lia. lia.
Qed.

(** ** Theorems *)

(** The two conversions are inverse: every instant up to the end of the year
    [i32::MAX] has a date, which is a valid calendar date and converts back to
    the instant, and no other date in that range does; the loops terminate and
    no conversion wraps. *)
Theorem calendar_roundtrip secs :
  0 ≤ secs → secs ≤ last_i32_second →
  ∃ c, epoch_to_ymdhms secs = Some c ∧ valid_civil c ∧ 1970 ≤ c_year c ≤ 2147483647
    ∧ ymdhms_to_epoch c = secs
    ∧ ∀ c', valid_civil c' → 1970 ≤ c_year c' ≤ 2147483647 →
        ymdhms_to_epoch c' = secs → c' = c.
Proof.
  intros H0 H1. destruct (epoch_to_ymdhms_spec secs H0) as (c & Hc & Hv & Hy & Ht).
  assert (Hy' : c_year c ≤ 2147483647).
  { apply (timestamp_year_le c (mkCivil 2147483647 12 31 23 59 59)); [done| |by rewrite Ht].
    unfold valid_civil, valid_date. cbn [c_year c_month c_day c_hour c_min c_sec].
    change (days_in_month (is_leap_year 2147483647) 12) with 31. lia. }
  exists c. split_and!; [done|done|done|done| |].
  - rewrite ymdhms_to_epoch_spec by done. done.
  - intros c' Hv' Hyc He. rewrite ymdhms_to_epoch_spec in He by (done || lia).
    apply timestamp_inj; [done|done|]. congruence.
Qed.

(** A user-local time that is accepted presents its instant exactly: the civil
    date is a valid calendar date of the years 1 to 9999, it is the instant
    moved by the offset, and from 1970 on the constant-time computation gives
    the same date and weekday as the loops of [util.rs]. *)
Theorem local_time_exact at_secs offset zone c :
  local_time_new at_secs offset zone = Ok c →
  let local := at_secs + offset in
  valid_civil (local_components c)
  ∧ 1 ≤ c_year (local_components c) ≤ 9999
  ∧ timestamp (local_components c) = local
  ∧ (0 ≤ local →
     epoch_to_ymdhms local = Some (local_components c)
     ∧ local_weekday c = prefix_bytes 3 (weekday_name (local / 86400))).
Proof.
  intros H local. unfold local_time_new, validate_for_epoch in H. inv_ok.
  rewrite !andb_true_iff, !Z.leb_le in *. set (c := mkLocalTime at_secs offset zone) in *.
  assert (Hv : valid_civil (local_components c) ∧ timestamp (local_components c) = local).
  { unfold local_components. pose proof (civil_from_days_spec (local_seconds c / 86400)) as Hs.
    destruct (civil_from_days _) as [[y m] d]. destruct Hs as [Hd Hn].
    unfold valid_civil, timestamp. cbn [c_year c_month c_day c_hour c_min c_sec].
    rewrite Hn. change (local_seconds c) with local.
    pose proof (Z.mod_pos_bound local 86400 ltac:(lia)) as Hm.
    pose proof (Z.div_mod local 86400 ltac:(lia)) as Hdm.
    set (r := local mod 86400) in *. clearbody r.
    split; [split; [done|]|]; Z.to_euclidean_division_equations; lia. }
  destruct Hv as [Hv Ht]. split_and!; [done|lia|lia|done|]. intros Hl.
  destruct (epoch_to_ymdhms_spec local Hl) as (c' & -> & Hv' & _ & Ht'). split.
  - f_equal. apply timestamp_inj; [done|done|congruence].
  - unfold local_weekday, weekday_name. change (local_seconds c) with local.
    assert (Hw : ∀ w, 0 ≤ w < 7 →
      nth (Z.to_nat ((w + 4) mod 7)) ["Sun"; "Mon"; "Tue"; "Wed"; "Thu"; "Fri"; "Sat"] ""
      = prefix_bytes 3 (nth (Z.to_nat w) ["Thursday"; "Friday"; "Saturday"; "Sunday"; "Monday";
          "Tuesday"; "Wednesday"] "")).
    { intros w Hw. assert (w = 0 ∨ w = 1 ∨ w = 2 ∨ w = 3 ∨ w = 4 ∨ w = 5 ∨ w = 6)
        as [->|[->|[->|[->|[->|[->| ->]]]]]] by lia; reflexivity. }
    rewrite <- (Hw ((local / 86400) mod 7)) by (apply Z.mod_pos_bound; lia).
    by rewrite Z.add_mod_idemp_l.
Qed.

(** ** Concrete instants *)

Module CalendarSamples.

Lemma calendar_roundtrip_witness :
  0 ≤ 1793254440 ≤ last_i32_second
  ∧ ∃ c, epoch_to_ymdhms 1793254440 = Some c ∧ ymdhms_to_epoch c = 1793254440.
Proof.
  assert (H : 1793254440 ≤ last_i32_second) by (vm_compute; discriminate).
  split; [split; [lia|exact H]|].
  destruct (calendar_roundtrip 1793254440 ltac:(lia) H) as (c & Hc & _ & _ & He & _). eauto.
Defined.

Definition shanghai : UserLocalTimeContext := mkLocalTime 1793254440 28800 "Asia/Shanghai".

Lemma local_time_exact_witness :
  local_time_new 1793254440 28800 "Asia/Shanghai" = Ok shanghai
  ∧ timestamp (local_components shanghai) = 1793283240.
Proof.
  assert (H : local_time_new 1793254440 28800 "Asia/Shanghai" = Ok shanghai)
    by (vm_compute; reflexivity).
  split; [exact H|]. exact (proj1 (proj2 (proj2 (local_time_exact _ _ _ _ H)))).
Defined.

Example shanghai_text :
  format_local_datetime shanghai = "2026-10-29 14:14:00 UTC+08:00 [Asia/Shanghai]".
Proof. vm_compute. reflexivity. Qed.

(** The parser accepts an offset but reads the time as UTC: both texts name the
    same wall-clock time, eight hours apart, and parse to one instant. *)
Example parsed_offset_is_ignored :
  parse_iso8601 "2026-10-29T14:14:00+08:00" = parse_iso8601 "2026-10-29T14:14:00Z"
  ∧ parse_iso8601 "2026-10-29T14:14:00-05:00" = parse_iso8601 "2026-10-29T14:14:00Z".
Proof. split; vm_compute; reflexivity. Qed.

(** Dates before 1970 are read as dates of 1970. *)
Example parsed_before_1970 :
  parse_iso8601 "1950-01-02T00:00:00" = parse_iso8601 "1970-01-02T00:00:00".
Proof. vm_compute. reflexivity. Qed.

End CalendarSamples.
