(* ===== verification/Profile.v ===== *)
(** * Profiles and pressure

    Model of the profile contract of [crates/core/src/feature_gate.rs]
    (targets, roles and profiles with their projections) and of the pressure
    level of [crates/core/src/orchestrator.rs]. *)

From S2P Require Import Prelude.

Local Open Scope string_scope.
Local Open Scope N_scope.

Inductive TargetFeature :=
| Esp | LinuxDevice | DesktopMacos | DesktopLinux | DesktopWindows | ServerLinux.

Inductive RoleFeature :=
| StandaloneMemory | EmbeddedSdk | MemoryGateway | DevFull.

Inductive ProfileId :=
| EspStandaloneMemory
| EspEmbeddedSdk
| LinuxDeviceStandaloneMemory
| DesktopMacosStandaloneMemory
| DesktopMacosEmbeddedSdk
| DesktopMacosDevFull
| DesktopLinuxEmbeddedSdk
| DesktopWindowsEmbeddedSdk
| DesktopWindowsDevFull
| ServerLinuxMemoryGateway
| ServerLinuxDevFull.

#[global] Instance target_eq_dec : EqDecision TargetFeature.
Proof. solve_decision. Defined.
#[global] Instance role_eq_dec : EqDecision RoleFeature.
Proof. solve_decision. Defined.
#[global] Instance profile_eq_dec : EqDecision ProfileId.
Proof. solve_decision. Defined.

Definition target_as_str (t : TargetFeature) : string :=
  match t with
  | Esp => "target-esp"
  | LinuxDevice => "target-linux-device"
  | DesktopMacos => "target-desktop-macos"
  | DesktopLinux => "target-desktop-linux"
  | DesktopWindows => "target-desktop-windows"
  | ServerLinux => "target-server-linux"
  end.

Definition role_as_str (r : RoleFeature) : string :=
  match r with
  | StandaloneMemory => "role-standalone-memory"
  | EmbeddedSdk => "role-embedded-sdk"
  | MemoryGateway => "role-memory-gateway"
  | DevFull => "role-dev-full"
  end.

Definition profile_as_str (p : ProfileId) : string :=
  match p with
  | EspStandaloneMemory => "target-esp+role-standalone-memory"
  | EspEmbeddedSdk => "target-esp+role-embedded-sdk"
  | LinuxDeviceStandaloneMemory => "target-linux-device+role-standalone-memory"
  | DesktopMacosStandaloneMemory => "target-desktop-macos+role-standalone-memory"
  | DesktopMacosEmbeddedSdk => "target-desktop-macos+role-embedded-sdk"
  | DesktopMacosDevFull => "target-desktop-macos+role-dev-full"
  | DesktopLinuxEmbeddedSdk => "target-desktop-linux+role-embedded-sdk"
  | DesktopWindowsEmbeddedSdk => "target-desktop-windows+role-embedded-sdk"
  | DesktopWindowsDevFull => "target-desktop-windows+role-dev-full"
  | ServerLinuxMemoryGateway => "target-server-linux+role-memory-gateway"
  | ServerLinuxDevFull => "target-server-linux+role-dev-full"
  end.

Definition target (p : ProfileId) : TargetFeature :=
  match p with
  | EspStandaloneMemory | EspEmbeddedSdk => Esp
  | LinuxDeviceStandaloneMemory => LinuxDevice
  | DesktopMacosStandaloneMemory | DesktopMacosEmbeddedSdk | DesktopMacosDevFull =>
      DesktopMacos
  | DesktopLinuxEmbeddedSdk => DesktopLinux
  | DesktopWindowsEmbeddedSdk | DesktopWindowsDevFull => DesktopWindows
  | ServerLinuxMemoryGateway | ServerLinuxDevFull => ServerLinux
  end.

Definition role (p : ProfileId) : RoleFeature :=
  match p with
  | EspStandaloneMemory | LinuxDeviceStandaloneMemory
  | DesktopMacosStandaloneMemory => StandaloneMemory
  | EspEmbeddedSdk | DesktopMacosEmbeddedSdk | DesktopLinuxEmbeddedSdk
  | DesktopWindowsEmbeddedSdk => EmbeddedSdk
  | ServerLinuxMemoryGateway => MemoryGateway
  | DesktopMacosDevFull | DesktopWindowsDevFull | ServerLinuxDevFull => DevFull
  end.

(** The published identifier of a profile is its target's identifier and its
    role's, joined by [+]. *)
Lemma profile_as_str_decomposes p :
  profile_as_str p = target_as_str (target p) +:+ "+" +:+ role_as_str (role p).
Proof. by destruct p. Qed.

(** ** Pressure ([orchestrator.rs]) *)

Inductive PressureLevel := Normal | Cautious | Critical.

#[global] Instance pressure_eq_dec : EqDecision PressureLevel.
Proof. solve_decision. Defined.

Definition pressure_from_byte (value : N) : PressureLevel :=
  match value with 0 => Normal | 1 => Cautious | _ => Critical end.

Definition pressure_as_str (p : PressureLevel) : string :=
  match p with
  | Normal => "Normal" | Cautious => "Cautious" | Critical => "Critical"
  end.

(** The discriminants of the [repr(u8)] enum. *)
Definition pressure_rank (p : PressureLevel) : N :=
  match p with Normal => 0 | Cautious => 1 | Critical => 2 end.
