(* ===== verification/Lifecycle.v ===== *)
(** * Runtime mode and lifecycle admission

    Model of [crates/core/src/runtime/lifecycle.rs] and of the mode part of
    [crates/core/src/runtime/mod.rs]: the mode is derived from what the device
    is doing, limits the background actions, and decides whether a lifecycle
    operation executes now, is deferred or is rejected; every operation is
    reported as an event with a process-unique identifier. *)

From S2P Require Import Prelude RustStr Profile.

Local Open Scope string_scope.
Local Open Scope list_scope.
Local Open Scope N_scope.

(** ** Modes ([runtime/mod.rs]) *)

Inductive RuntimeMode :=
| ModeNormal | ModeBooting | ModePairing | ModeConfigActive | ModeVoiceExclusive
| ModeMaintenance | ModeRecoverySafeMode.

Inductive ConfigActivityPhase :=
| PhaseIdle | PhaseStarting | PhaseActive | PhasePersisting | PhaseSuccess | PhaseFail
| PhaseStopping | PhaseCleanup.

Inductive RuntimeForegroundSource :=
| FgUser | ExternalUserMessage | LocalAppChat | RealtimeVoiceSession | VoiceFallbackInteraction
| ManualOperatorAction | FgSystem.

#[global] Instance runtime_mode_eq_dec : EqDecision RuntimeMode.
Proof. solve_decision. Defined.

Definition mode_as_str (m : RuntimeMode) : string :=
  match m with
  | ModeNormal => "normal" | ModeBooting => "booting" | ModePairing => "pairing"
  | ModeConfigActive => "config_active" | ModeVoiceExclusive => "voice_exclusive"
  | ModeMaintenance => "maintenance" | ModeRecoverySafeMode => "recovery_safe_mode"
  end.

Definition blocks_new_non_voice_network_work (p : ConfigActivityPhase) : bool :=
  match p with PhasePersisting | PhaseStopping => true | _ => false end.

Record RuntimeForegroundOverlay := mkOverlay {
  fg_active : bool;
  active_count : N;
  primary_source : option RuntimeForegroundSource;
  age_ms : option N;
  resume_after_ms : option N;
  recovery_active : bool;
  recovery_source : option RuntimeForegroundSource;
  recovery_age_ms : option N;
  recovery_resume_after_ms : option N;
}.

Definition overlay_default : RuntimeForegroundOverlay :=
  mkOverlay false 0 None None None false None None None.

Record RuntimeModeActionBudget := mkActionBudget {
  allow_periodic_maintenance : bool;
  allow_due_user_timers : bool;
  allow_heartbeat_injection : bool;
  allow_best_effort_delayed_tasks : bool;
  allow_idle_self_runtime : bool;
  allow_non_voice_outbound : bool;
  allow_realtime_voice_connect : bool;
  allow_external_wss_connect : bool;
  require_external_wss_suspended : bool;
}.

Definition action_budget_default : RuntimeModeActionBudget :=
  mkActionBudget true true true true true true true true false.

Record RuntimeModeSource := mkModeSource {
  wifi_sta_connected : bool;
  boot_phase_active : bool;
  pairing_required : bool;
  pairing_state_known : bool;
  voice_exclusive_active : bool;
  background_maintenance_active : bool;
  config_plane_alive : bool;
  config_active : bool;
  config_activity_phase : ConfigActivityPhase;
  channel_plane_alive : bool;
  voice_plane_alive : bool;
  agent_plane_alive : bool;
  external_wss_managed_present : bool;
  external_wss_suspend_requested : bool;
  external_wss_suspended : bool;
  recovery_safe_mode_active : bool;
  runtime_foreground : RuntimeForegroundOverlay;
}.

(** The snapshot repeats the source beside what is derived from it. *)
Record RuntimeModeSnapshot := mkModeSnapshot {
  current_mode : RuntimeMode;
  mode_source : RuntimeModeSource;
  action_budget : RuntimeModeActionBudget;
}.

Definition derive_mode (s : RuntimeModeSource) : RuntimeMode :=
  if recovery_safe_mode_active s then ModeRecoverySafeMode
  else if boot_phase_active s then ModeBooting
  else if voice_exclusive_active s then ModeVoiceExclusive
  else if config_active s then ModeConfigActive
  else if background_maintenance_active s then ModeMaintenance
  else if pairing_state_known s && pairing_required s then ModePairing
  else ModeNormal.

Definition base_action_budget_for_mode (m : RuntimeMode) : RuntimeModeActionBudget :=
  match m with
  | ModeBooting | ModePairing =>
      mkActionBudget false false false false false false false false false
  | ModeNormal => action_budget_default
  | ModeConfigActive => mkActionBudget false true false false false true false true false
  | ModeVoiceExclusive => mkActionBudget false false false false false false true false true
  | ModeMaintenance => mkActionBudget false true false false false true true true false
  | ModeRecoverySafeMode => mkActionBudget false false false false false true false false false
  end.

Definition action_budget_for_source (m : RuntimeMode) (phase : ConfigActivityPhase)
    : RuntimeModeActionBudget :=
  let b := base_action_budget_for_mode m in
  if bool_decide (m = ModeConfigActive) && blocks_new_non_voice_network_work phase then
    mkActionBudget (allow_periodic_maintenance b) (allow_due_user_timers b)
      (allow_heartbeat_injection b) (allow_best_effort_delayed_tasks b)
      (allow_idle_self_runtime b) false (allow_realtime_voice_connect b) false true
  else b.

Definition snapshot_from_source (s : RuntimeModeSource) : RuntimeModeSnapshot :=
  let m := derive_mode s in
  mkModeSnapshot m s (action_budget_for_source m (config_activity_phase s)).

Definition allows_prompt_private_depth (s : RuntimeModeSnapshot) : bool :=
  bool_decide (current_mode s = ModeNormal).

Definition allows_prompt_governed_recall (s : RuntimeModeSnapshot) : bool :=
  bool_decide (current_mode s = ModeNormal).

Definition allows_prompt_background_governance (s : RuntimeModeSnapshot) : bool :=
  allow_periodic_maintenance (action_budget s) && bool_decide (current_mode s = ModeNormal).

Definition mode_block_reason (s : RuntimeModeSnapshot) : option string :=
  match current_mode s with
  | ModeBooting => Some "boot_phase_active"
  | ModePairing => Some "pairing_required"
  | ModeNormal => None
  | ModeConfigActive => Some "config_active"
  | ModeVoiceExclusive => Some "voice_exclusive_active"
  | ModeMaintenance => Some "background_maintenance_active"
  | ModeRecoverySafeMode => Some "recovery_safe_mode"
  end.

(** ** Lifecycle data ([lifecycle.rs]) *)

Definition DEFAULT_DEFER_RETRY_AFTER_MS : N := 1000.
Definition POST_REPLY_LIGHTWEIGHT_AFTER_MS : N := 30000.

Inductive RuntimeLifecycleOperation :=
| OpOpen | OpClose | OpRecover | OpMaintain | OpRecall | OpProject | OpInspect
| OpOperatorAction | OpExport | OpImport | OpReplay.

Inductive RuntimeLifecycleTrigger :=
| TriggerSdkCall | TriggerProjectionDependency | TriggerEvaluation | TriggerBootRecovery
| TriggerPostReply | TriggerDeferredDue | TriggerOperatorRequested | TriggerSnapshotTransfer
| TriggerReplayInspection.

Inductive RuntimeLifecycleDisposition := ExecuteNow | Defer | Skip | Reject | Failed.

Inductive RuntimeLifecycleEffect :=
| EffectNoop | EffectRunMaintenance | EffectRequestLongTermRefresh | EffectRefreshProjection
| EffectInspect | EffectExportSnapshot | EffectImportSnapshot | EffectRunReplayInspection
| EffectRecordOperatorAction | EffectRecoverSoulKernel.

Inductive RuntimeLifecycleEventKind := KindRuntimeLifecycle | KindOperatorAction.

#[global] Instance lifecycle_operation_eq_dec : EqDecision RuntimeLifecycleOperation.
Proof. solve_decision. Defined.
#[global] Instance lifecycle_trigger_eq_dec : EqDecision RuntimeLifecycleTrigger.
Proof. solve_decision. Defined.
#[global] Instance lifecycle_disposition_eq_dec : EqDecision RuntimeLifecycleDisposition.
Proof. solve_decision. Defined.

Record RuntimeLifecycleModeInput := mkModeInput {
  in_mode_profile : ProfileId;
  booting : bool;
  in_pairing_required : bool;
  in_pairing_state_known : bool;
  foreground : RuntimeForegroundOverlay;
  in_voice_exclusive_active : bool;
  in_config_active : bool;
  in_config_activity_phase : ConfigActivityPhase;
  maintenance_active : bool;
  in_recovery_safe_mode_active : bool;
  in_pressure : PressureLevel;
  post_reply_defer_elapsed_ms : option N;
}.

Definition mode_input_default : RuntimeLifecycleModeInput :=
  mkModeInput ServerLinuxDevFull false false true overlay_default false false PhaseIdle false
    false Normal None.

Definition runtime_mode_snapshot (i : RuntimeLifecycleModeInput) : RuntimeModeSnapshot :=
  snapshot_from_source
    {| wifi_sta_connected := true;
       boot_phase_active := booting i;
       pairing_required := in_pairing_required i;
       pairing_state_known := in_pairing_state_known i;
       voice_exclusive_active := in_voice_exclusive_active i;
       background_maintenance_active := maintenance_active i;
       config_plane_alive := true;
       config_active := in_config_active i;
       config_activity_phase := in_config_activity_phase i;
       channel_plane_alive := true;
       voice_plane_alive := in_voice_exclusive_active i;
       agent_plane_alive := true;
       external_wss_managed_present := false;
       external_wss_suspend_requested := false;
       external_wss_suspended := false;
       recovery_safe_mode_active := in_recovery_safe_mode_active i;
       runtime_foreground := foreground i |}.

(** What the host observes, and the input it gives ([runtime/mod.rs]). *)
Record RuntimeObservation := mkRuntimeObservation {
  foreground_source : option RuntimeForegroundSource;
  streaming_response : bool;
  critical_turn : bool;
  network_recovery_active : bool;
  body_pressure_bytes : option N;
  queue_pressure_items : option N;
  obs_pressure : PressureLevel;
}.

Definition to_mode_input (o : RuntimeObservation) : RuntimeLifecycleModeInput :=
  let overlay :=
    match foreground_source o with
    | Some s => mkOverlay true 1 (Some s) None None false None None None
    | None => overlay_default
    end in
  let overlay :=
    if network_recovery_active o then
      mkOverlay (fg_active overlay) (active_count overlay) (primary_source overlay)
        (age_ms overlay) (resume_after_ms overlay) true (foreground_source o)
        (recovery_age_ms overlay) (recovery_resume_after_ms overlay)
    else overlay in
  let voice := match foreground_source o with
               | Some RealtimeVoiceSession | Some VoiceFallbackInteraction => true
               | _ => false
               end in
  mkModeInput ServerLinuxDevFull false false true overlay voice false PhaseIdle false false
    (if critical_turn o then Critical else obs_pressure o) None.

(** ** Admission *)

Record RuntimeLifecycleAdmission := mkAdmission {
  adm_operation : RuntimeLifecycleOperation;
  adm_trigger : RuntimeLifecycleTrigger;
  disposition : RuntimeLifecycleDisposition;
  adm_profile : ProfileId;
  adm_mode : RuntimeModeSnapshot;
  adm_pressure : PressureLevel;
  adm_reason : string;
  retry_after_ms : option N;
  lightweight_allowed : bool;
  private_depth_allowed : bool;
}.

Section Admission.
Context (op : RuntimeLifecycleOperation) (trigger : RuntimeLifecycleTrigger).
Context (i : RuntimeLifecycleModeInput).

Definition admitted (reason : string) : RuntimeLifecycleAdmission :=
  mkAdmission op trigger ExecuteNow (in_mode_profile i) (runtime_mode_snapshot i) (in_pressure i)
    reason None false true.

Definition deferred (reason : string) : RuntimeLifecycleAdmission :=
  mkAdmission op trigger Defer (in_mode_profile i) (runtime_mode_snapshot i) (in_pressure i)
    reason (Some DEFAULT_DEFER_RETRY_AFTER_MS) false false.

Definition rejected (reason : string) : RuntimeLifecycleAdmission :=
  mkAdmission op trigger Reject (in_mode_profile i) (runtime_mode_snapshot i) (in_pressure i)
    reason None false false.

Definition is_embedded_profile (p : ProfileId) : bool :=
  match p with
  | EspEmbeddedSdk | DesktopMacosEmbeddedSdk | DesktopLinuxEmbeddedSdk
  | DesktopWindowsEmbeddedSdk => true
  | _ => false
  end.

Definition post_reply_waited : bool :=
  is_embedded_profile (in_mode_profile i)
  && bool_decide (trigger = TriggerPostReply)
  && match post_reply_defer_elapsed_ms i with
     | Some elapsed => POST_REPLY_LIGHTWEIGHT_AFTER_MS <=? elapsed
     | None => false
     end.

Definition admit_maintenance : RuntimeLifecycleAdmission :=
  let mode := runtime_mode_snapshot i in
  if negb (bool_decide (current_mode mode = ModeNormal)) then
    deferred (default "runtime_mode_blocked" (mode_block_reason mode))
  else if bool_decide (in_pressure i = Normal) then admitted "admitted"
  else if post_reply_waited then
    let a := admitted "bounded_lightweight_maintenance" in
    mkAdmission (adm_operation a) (adm_trigger a) (disposition a) (adm_profile a) (adm_mode a)
      (adm_pressure a) (adm_reason a) (retry_after_ms a) true (private_depth_allowed a)
  else deferred (match in_pressure i with
                 | Normal => "admitted"
                 | Cautious => "cautious_pressure"
                 | Critical => "critical_pressure"
                 end).

Definition admit_projection : RuntimeLifecycleAdmission :=
  let mode := runtime_mode_snapshot i in
  let a := admitted "admitted" in
  if negb (allows_prompt_private_depth mode) then
    mkAdmission (adm_operation a) (adm_trigger a) (disposition a) (adm_profile a) (adm_mode a)
      (adm_pressure a) "private_depth_blocked_by_mode" (retry_after_ms a)
      (lightweight_allowed a) false
  else a.

Definition admit_snapshot_transfer : RuntimeLifecycleAdmission :=
  if bool_decide (current_mode (runtime_mode_snapshot i) = ModeRecoverySafeMode)
  then rejected "recovery_safe_mode_blocks_snapshot_transfer"
  else admitted "admitted".

Definition admit_operation : RuntimeLifecycleAdmission :=
  match op with
  | OpOpen | OpClose => admitted "admitted"
  | OpRecover => admitted "recovery_admitted"
  | OpRecall | OpInspect | OpOperatorAction =>
      admitted (if bool_decide (current_mode (runtime_mode_snapshot i) = ModeRecoverySafeMode)
                then "safe_mode_inspection" else "admitted")
  | OpMaintain => admit_maintenance
  | OpProject => admit_projection
  | OpExport | OpImport => admit_snapshot_transfer
  | OpReplay => admitted "inspection_only"
  end.
End Admission.

(** ** Event identifiers *)

Definition hex_digit (d : N) : Ascii.ascii :=
  Ascii.ascii_of_N (if d <? 10 then 48 + d else 87 + d).

(** [{v:0wx}] for a value below [16^w]: exactly [w] lower-case digits. *)
Fixpoint hex_fixed (w : nat) (v : N) : string :=
  match w with
  | O => ""
  | S w => hex_fixed w (v / 16) +:+ String (hex_digit (v mod 16)) ""
  end.

(** [next_lifecycle_event_id]: the counter is behind a mutex; the clock and the
    process identifier are inputs. *)
Definition next_lifecycle_event_id (nanos pid sequence : N) : string * N :=
  ("rl" +:+ hex_fixed 32 nanos +:+ "_" +:+ hex_fixed 8 pid +:+ "_" +:+ hex_fixed 16 sequence,
   (sequence + 1) mod (u64_max + 1)).

(** ** Reports and events *)

Record RuntimeLifecycleReport := mkLifecycleReport {
  rep_operation : RuntimeLifecycleOperation;
  rep_trigger : RuntimeLifecycleTrigger;
  rep_admission : RuntimeLifecycleAdmission;
  rep_event_id : string;
  started_at_unix_secs : N;
  finished_at_unix_secs : N;
  rep_success : bool;
  rep_changed : bool;
  rep_result_summary : string;
  rep_error_stage : option string;
}.

Definition from_admission (a : RuntimeLifecycleAdmission) (event_id : string) (started : N)
    : RuntimeLifecycleReport :=
  mkLifecycleReport (adm_operation a) (adm_trigger a) a event_id started started false false ""
    None.

Definition finish_success (r : RuntimeLifecycleReport) (finished : N) (changed : bool)
    (summary : string) : RuntimeLifecycleReport :=
  mkLifecycleReport (rep_operation r) (rep_trigger r) (rep_admission r) (rep_event_id r)
    (started_at_unix_secs r) finished true changed summary (rep_error_stage r).

Definition finish_failure (r : RuntimeLifecycleReport) (finished : N) (stage summary : string)
    : RuntimeLifecycleReport :=
  mkLifecycleReport (rep_operation r) (rep_trigger r) (rep_admission r) (rep_event_id r)
    (started_at_unix_secs r) finished false (rep_changed r) summary (Some stage).

Record RuntimeLifecycleEvent := mkLifecycleEvent {
  ev_event_id : string;
  ev_kind : RuntimeLifecycleEventKind;
  ev_operation : RuntimeLifecycleOperation;
  ev_trigger : RuntimeLifecycleTrigger;
  ev_disposition : RuntimeLifecycleDisposition;
  ev_effect : RuntimeLifecycleEffect;
  ev_profile : ProfileId;
  ev_mode : RuntimeMode;
  ev_pressure : PressureLevel;
  ev_reason : string;
  ev_success : bool;
  ev_result_summary : string;
  ev_error_stage : option string;
  ev_timestamp_unix_secs : N;
  ev_payload : gmap string string;
}.

Definition event_from_report (kind : RuntimeLifecycleEventKind) (effect : RuntimeLifecycleEffect)
    (r : RuntimeLifecycleReport) (timestamp : N) : RuntimeLifecycleEvent :=
  mkLifecycleEvent (rep_event_id r) kind (rep_operation r) (rep_trigger r)
    (disposition (rep_admission r)) effect (adm_profile (rep_admission r))
    (current_mode (adm_mode (rep_admission r))) (adm_pressure (rep_admission r))
    (adm_reason (rep_admission r)) (rep_success r) (rep_result_summary r) (rep_error_stage r)
    timestamp ∅.

Definition event_with_payload (e : RuntimeLifecycleEvent) (key value : string)
    : RuntimeLifecycleEvent :=
  mkLifecycleEvent (ev_event_id e) (ev_kind e) (ev_operation e) (ev_trigger e)
    (ev_disposition e) (ev_effect e) (ev_profile e) (ev_mode e) (ev_pressure e) (ev_reason e)
    (ev_success e) (ev_result_summary e) (ev_error_stage e) (ev_timestamp_unix_secs e)
    (<[key := value]> (ev_payload e)).

Definition RESERVED_KEYS : list string :=
  ["operation"; "runtime_operation"; "trigger"; "disposition"; "effect"; "profile"; "mode";
   "pressure"; "reason"; "success"; "result"; "result_summary"; "error_stage";
   "transaction_id"].

Definition validate_for_recording (e : RuntimeLifecycleEvent) : result unit :=
  let stage := "runtime_lifecycle_event_payload" in
  _ ← ensure (negb (blank (ev_result_summary e)))
        (Config stage "runtime lifecycle result summary must be non-empty");
  ensure (negb (existsb (λ k, bool_decide (k ∈ RESERVED_KEYS)) ((map_to_list (ev_payload e)).*1)))
    (Config stage "runtime lifecycle detail payload cannot override typed fields").

(** * Lifecycle: theorems

    The exact admission table of the lifecycle engine, and the uniqueness of
    the event identifiers of a process. *)

(** ** Modes *)

(** Nothing that blocks is active. *)
Definition unblocked (i : RuntimeLifecycleModeInput) : Prop :=
  in_recovery_safe_mode_active i = false ∧ booting i = false
  ∧ in_voice_exclusive_active i = false ∧ in_config_active i = false
  ∧ maintenance_active i = false
  ∧ (in_pairing_state_known i = false ∨ in_pairing_required i = false).

Lemma normal_iff_unblocked i :
  current_mode (runtime_mode_snapshot i) = ModeNormal ↔ unblocked i.
Proof.
  destruct i as [? [] [] [] ? [] [] ? [] [] ? ?]; unfold unblocked; cbn; naive_solver.
Qed.

Lemma safe_mode_iff i :
  current_mode (runtime_mode_snapshot i) = ModeRecoverySafeMode
  ↔ in_recovery_safe_mode_active i = true.
Proof. destruct i as [? [] [] [] ? [] [] ? [] [] ? ?]; cbn; naive_solver. Qed.

(** Maintenance, heartbeats, delayed tasks and idle work run in normal mode
    only, and outbound connections that a mode forbids stay forbidden in every
    configuration phase. *)
Lemma budget_of_mode s :
  let b := action_budget (snapshot_from_source s) in
  let m := current_mode (snapshot_from_source s) in
  allow_periodic_maintenance b = bool_decide (m = ModeNormal)
  ∧ allow_heartbeat_injection b = bool_decide (m = ModeNormal)
  ∧ allow_best_effort_delayed_tasks b = bool_decide (m = ModeNormal)
  ∧ allow_idle_self_runtime b = bool_decide (m = ModeNormal)
  ∧ (require_external_wss_suspended b = true → allow_external_wss_connect b = false
       ∧ allow_non_voice_outbound b = false).
Proof.
  cbn. unfold action_budget_for_source. destruct (derive_mode s); cbn;
    destruct (blocks_new_non_voice_network_work _); naive_solver.
Qed.

(** ** Admission *)

(** Maintenance may run now: the device is free, and either not under pressure
    or on an embedded profile that has waited long enough after a reply. *)
Definition maintenance_due (trigger : RuntimeLifecycleTrigger) (i : RuntimeLifecycleModeInput)
    : Prop :=
  unblocked i ∧ (in_pressure i = Normal ∨ post_reply_waited trigger i = true).

(** The admission table, for every operation, trigger and input.  An operation
    is never skipped or failed by admission; a deferred one names when to
    retry.  Maintenance executes exactly when it is due, and is lightweight
    exactly when it runs under pressure; a snapshot transfer is rejected
    exactly in recovery safe mode; everything else executes.  Private depth is
    allowed exactly to executed operations, for a projection in normal mode
    only. *)
Theorem lifecycle_admission_exact op trigger i :
  let a := admit_operation op trigger i in
  (disposition a = ExecuteNow ↔
     match op with
     | OpMaintain => maintenance_due trigger i
     | OpExport | OpImport => in_recovery_safe_mode_active i = false
     | _ => True
     end)
  ∧ (disposition a = Reject ↔ (op = OpExport ∨ op = OpImport)
                               ∧ in_recovery_safe_mode_active i = true)
  ∧ (disposition a = Defer ↔ op = OpMaintain ∧ ¬ maintenance_due trigger i)
  ∧ retry_after_ms a
    = (if bool_decide (disposition a = Defer) then Some DEFAULT_DEFER_RETRY_AFTER_MS else None)
  ∧ (lightweight_allowed a = true ↔
       op = OpMaintain ∧ maintenance_due trigger i ∧ in_pressure i ≠ Normal)
  ∧ (private_depth_allowed a = true ↔
       disposition a = ExecuteNow ∧ (op = OpProject → unblocked i))
  ∧ adm_operation a = op ∧ adm_trigger a = trigger ∧ adm_mode a = runtime_mode_snapshot i.
Proof.
  intros a. subst a. pose proof (normal_iff_unblocked i) as Hn. pose proof (safe_mode_iff i) as Hs.
  destruct op; cbn [admit_operation];
    unfold admit_maintenance, admit_projection, admit_snapshot_transfer,
      allows_prompt_private_depth, maintenance_due.
  all: repeat case_bool_decide; cbn.
  all: try destruct (post_reply_waited trigger i).
  all: cbn; destruct (in_recovery_safe_mode_active i); naive_solver.
Qed.

(** ** Event identifiers *)

Lemma append_inv s1 s2 t1 t2 :
  String.length s1 = String.length t1 → s1 +:+ s2 = t1 +:+ t2 → s1 = t1 ∧ s2 = t2.
Proof.
  revert t1. induction s1 as [|a s1 IH]; intros [|b t1] Hl He; try done.
  injection Hl as Hl. change (String a (s1 +:+ s2) = String b (t1 +:+ t2)) in He.
  injection He as -> He. destruct (IH t1) as [-> ->]; auto.
Qed.

Lemma append_length s t : String.length (s +:+ t) = (String.length s + String.length t)%nat.
Proof. induction s as [|a s IH]; [done|]. exact (f_equal S IH). Qed.

Lemma hex_fixed_length w v : String.length (hex_fixed w v) = w.
Proof.
  revert v. induction w as [|w IH]; intros v; cbn [hex_fixed]; [done|].
  rewrite append_length, IH. cbn. lia.
Qed.

Lemma hex_digit_inj a b : a < 16 → b < 16 → hex_digit a = hex_digit b → a = b.
Proof.
  intros Ha Hb H. unfold hex_digit in H.
  assert (Hx : ∀ d, d < 16 → (if d <? 10 then 48 + d else 87 + d) < 256)
    by (intros d Hd; destruct (d <? 10); lia).
  apply (f_equal Ascii.N_of_ascii) in H.
  rewrite !Ascii.N_ascii_embedding in H by auto.
  destruct (N.ltb_spec a 10), (N.ltb_spec b 10); lia.
Qed.

Lemma hex_fixed_inj w v v' :
  v < 16 ^ N.of_nat w → v' < 16 ^ N.of_nat w → hex_fixed w v = hex_fixed w v' → v = v'.
Proof.
  revert v v'. induction w as [|w IH]; intros v v' Hv Hv' H.
  { cbn in *. lia. }
  cbn [hex_fixed] in H. apply append_inv in H as [H1 H2]; [|by rewrite !hex_fixed_length].
  injection H2 as H2. rewrite Nat2N.inj_succ, N.pow_succ_r' in Hv, Hv'.
  apply IH in H1; [|apply N.Div0.div_lt_upper_bound; lia..].
  apply hex_digit_inj in H2; [|apply N.mod_lt; lia..].
  rewrite (N.div_mod v 16), (N.div_mod v' 16) by lia. congruence.
Qed.

(** A run of the process: the identifiers drawn one after another, each with
    the clock at that moment, which may stand still or run backwards. *)
Fixpoint draw_event_ids (pid sequence : N) (clocks : list N) : list string :=
  match clocks with
  | [] => []
  | nanos :: rest =>
      let '(id, sequence') := next_lifecycle_event_id nanos pid sequence in
      id :: draw_event_ids pid sequence' rest
  end.

Lemma event_id_sequence nanos nanos' pid s s' :
  s ≤ u64_max → s' ≤ u64_max →
  (next_lifecycle_event_id nanos pid s).1 = (next_lifecycle_event_id nanos' pid s').1 → s = s'.
Proof.
  intros Hs Hs' H. cbn [fst next_lifecycle_event_id] in H.
  apply append_inv in H as [_ H]; [|done].
  apply append_inv in H as [_ H]; [|by rewrite !hex_fixed_length].
  do 3 (apply append_inv in H as [_ H]; [|by rewrite ?hex_fixed_length]).
  apply hex_fixed_inj in H; [done|..]; change (16 ^ N.of_nat 16) with (u64_max + 1); lia.
Qed.

Lemma drawn_after pid s clocks id :
  s + len clocks ≤ u64_max + 1 → id ∈ draw_event_ids pid s clocks →
  ∃ nanos s', s ≤ s' ≤ u64_max ∧ id = (next_lifecycle_event_id nanos pid s').1.
Proof.
  revert s. induction clocks as [|n rest IH]; intros s Hs Hid; [by apply elem_of_nil in Hid|].
  rewrite len_cons in Hs.
  cbn [draw_event_ids next_lifecycle_event_id] in Hid. apply elem_of_cons in Hid as [->|Hid].
  - exists n, s. split; [lia|done].
  - destruct rest as [|n' rest']; [by apply elem_of_nil in Hid|].
    rewrite len_cons in Hs. rewrite N.mod_small in Hid by lia.
    apply IH in Hid as (n'' & s' & ? & ->); [|rewrite len_cons; lia]. exists n'', s'. split; [lia|done].
Qed.

Lemma drawn_distinct pid s clocks :
  s + len clocks ≤ u64_max + 1 → NoDup (draw_event_ids pid s clocks).
Proof.
  revert s. induction clocks as [|n rest IH]; intros s Hs; [constructor|].
  cbn [draw_event_ids next_lifecycle_event_id]. rewrite len_cons in Hs.
  destruct rest as [|n' rest']; [apply NoDup_singleton|].
  rewrite len_cons in Hs. rewrite N.mod_small by lia. apply NoDup_cons. split.
  - intros Hin. apply drawn_after in Hin as (n'' & s' & Hs' & He); [|rewrite len_cons; lia].
    apply (event_id_sequence n n'' pid s s') in He; lia.
  - apply IH. rewrite len_cons. lia.
Qed.

(** The lifecycle events of a process have pairwise distinct identifiers, as
    long as it draws fewer than [2^64] of them, whatever the clock does. *)
Theorem lifecycle_event_ids_distinct pid clocks :
  len clocks ≤ u64_max → NoDup (draw_event_ids pid 1 clocks).
Proof. intros Hlen. apply drawn_distinct. lia. Qed.

Module LifecycleSamples.

Lemma lifecycle_event_ids_distinct_witness :
  len [7; 7; 6] ≤ u64_max ∧ NoDup (draw_event_ids 4242 1 [7; 7; 6]).
Proof.
  assert (H : len [7; 7; 6] ≤ u64_max) by (vm_compute; discriminate).
  split; [exact H|]. exact (lifecycle_event_ids_distinct 4242 [7; 7; 6] H).
Defined.

Example first_event_id :
  (next_lifecycle_event_id 255 4242 1).1
  = "rl000000000000000000000000000000ff_00001092_0000000000000001".
Proof. vm_compute. reflexivity. Qed.

(** Under cautious pressure an embedded profile maintains itself, lightly, once
    a reply is 30 seconds old. *)
Example late_post_reply :
  let i := mkModeInput EspEmbeddedSdk false false true overlay_default false false PhaseIdle
             false false Cautious (Some 30000) in
  disposition (admit_operation OpMaintain TriggerPostReply i) = ExecuteNow
  ∧ lightweight_allowed (admit_operation OpMaintain TriggerPostReply i) = true
  ∧ disposition (admit_operation OpMaintain TriggerSdkCall i) = Defer.
Proof. vm_compute. split_and!; reflexivity. Qed.

End LifecycleSamples.
