(* ===== verification/Resource.v ===== *)
(** * Runtime resource observations

    Model of the pure part of [crates/core/src/resource.rs]: observations and
    snapshots with their staleness rules, the pressure derived from host
    memory, the snapshot cache, and probe registrations.  The probe itself
    (operating-system reads, firmware callbacks) is a parameter: an
    environment that answers each probe. *)

From S2P Require Import Prelude Profile.

Local Open Scope string_scope.
Local Open Scope N_scope.

(** ** Data *)

Inductive RuntimeResourceProbeSource :=
| Unavailable | StaticManifest | FirmwareManifest
| HostMacos | HostLinux | HostWindows | HostOther.

#[global] Instance source_eq_dec : EqDecision RuntimeResourceProbeSource.
Proof. solve_decision. Defined.

Definition source_as_str (s : RuntimeResourceProbeSource) : string :=
  match s with
  | Unavailable => "unavailable"
  | StaticManifest => "static_manifest"
  | FirmwareManifest => "firmware_manifest"
  | HostMacos => "host_macos"
  | HostLinux => "host_linux"
  | HostWindows => "host_windows"
  | HostOther => "host_other"
  end.

Inductive RuntimeResourceUnavailableReason :=
| ProbeNotConfigured | ProbeFailed | SnapshotStale
| MemoryUnavailable | StorageUnavailable.

#[global] Instance reason_eq_dec : EqDecision RuntimeResourceUnavailableReason.
Proof. solve_decision. Defined.

Definition reason_as_str (r : RuntimeResourceUnavailableReason) : string :=
  match r with
  | ProbeNotConfigured => "probe_not_configured"
  | ProbeFailed => "probe_failed"
  | SnapshotStale => "snapshot_stale"
  | MemoryUnavailable => "memory_unavailable"
  | StorageUnavailable => "storage_unavailable"
  end.

Record RuntimeResourceObservation := mkObservation {
  observed_at_unix_secs : N;
  ttl_ms : N;
  stale : bool;
  pressure : PressureLevel;
  available_parallelism : option N;
  memory_total_bytes : option N;
  memory_available_bytes : option N;
  internal_heap_free_bytes : option N;
  internal_heap_minimum_free_bytes : option N;
  internal_heap_largest_block_bytes : option N;
  psram_total_bytes : option N;
  psram_free_bytes : option N;
  psram_largest_block_bytes : option N;
  storage_total_bytes : option N;
  storage_available_bytes : option N;
  unavailable_reason : option RuntimeResourceUnavailableReason;
  unavailable_detail : option string;
}.

#[global] Instance observation_eq_dec : EqDecision RuntimeResourceObservation.
Proof. solve_decision. Defined.

(** ** Observations *)

Definition obs_unavailable (now : N) (reason : RuntimeResourceUnavailableReason)
    : RuntimeResourceObservation :=
  {| observed_at_unix_secs := now;
     ttl_ms := 30000;
     stale := false;
     pressure := Cautious;
     available_parallelism := None;
     memory_total_bytes := None;
     memory_available_bytes := None;
     internal_heap_free_bytes := None;
     internal_heap_minimum_free_bytes := None;
     internal_heap_largest_block_bytes := None;
     psram_total_bytes := None;
     psram_free_bytes := None;
     psram_largest_block_bytes := None;
     storage_total_bytes := None;
     storage_available_bytes := None;
     unavailable_reason := Some reason;
     unavailable_detail := None |}.

Definition obs_with_unavailable_detail (o : RuntimeResourceObservation) (d : string)
    : RuntimeResourceObservation :=
  let 'mkObservation a b c p q r s t u v w x y z m n _ := o in
  mkObservation a b c p q r s t u v w x y z m n (Some d).

Definition obs_mark_stale (o : RuntimeResourceObservation) : RuntimeResourceObservation :=
  let 'mkObservation a b _ p q r s t u v w x y z m _ d := o in
  mkObservation a b true (if decide (p = Normal) then Cautious else p)
    q r s t u v w x y z m (Some SnapshotStale) d.

(** [u64::div_ceil] *)
Definition div_ceil (a b : N) : N := (a + b - 1) / b.

Definition obs_is_expired (o : RuntimeResourceObservation) (now_secs : N) : bool :=
  if now_secs <? observed_at_unix_secs o then true
  else div_ceil (ttl_ms o) 1000 <=? now_secs - observed_at_unix_secs o.

Definition pressure_from_resources (total available : option N) : PressureLevel :=
  match available with
  | None => Cautious
  | Some available =>
      if available <? 64 * 1024 * 1024 then Critical
      else if available <? 256 * 1024 * 1024 then Cautious
      else match total with
      | Some total =>
          if (0 <? total) && (saturating_mul available 100 / total <? 5) then Critical
          else if (0 <? total) && (saturating_mul available 100 / total <? 15) then Cautious
          else Normal
      | None => Normal
      end
  end.

(** The facts a host probe reads from the operating system. *)
Record HostFacts := {
  hf_memory : option N * option N;
  hf_storage : option N * option N;
  hf_parallelism : option N;
}.

(** [host_probe]: [storage_path] is present for a persistent filesystem. *)
Definition host_probe (facts : HostFacts) (now_secs : N) (storage_path : option string)
    : RuntimeResourceObservation :=
  let '(mem_total, mem_available) := hf_memory facts in
  let '(st_total, st_available) :=
    match storage_path with Some _ => hf_storage facts | None => (None, None) end in
  let parallelism :=
    match hf_parallelism facts with
    | Some v => if v <=? 65535 then Some v else None
    | None => None
    end in
  let reason1 :=
    if bool_decide (mem_total = None) && bool_decide (mem_available = None)
    then Some MemoryUnavailable else None in
  let reason2 :=
    if bool_decide (storage_path ≠ None) && bool_decide (st_total = None)
       && bool_decide (st_available = None)
    then match reason1 with Some r => Some r | None => Some StorageUnavailable end
    else reason1 in
  {| observed_at_unix_secs := now_secs;
     ttl_ms := 30000;
     stale := false;
     pressure := pressure_from_resources mem_total mem_available;
     available_parallelism := parallelism;
     memory_total_bytes := mem_total;
     memory_available_bytes := mem_available;
     internal_heap_free_bytes := None;
     internal_heap_minimum_free_bytes := None;
     internal_heap_largest_block_bytes := None;
     psram_total_bytes := None;
     psram_free_bytes := None;
     psram_largest_block_bytes := None;
     storage_total_bytes := st_total;
     storage_available_bytes := st_available;
     unavailable_reason := reason2;
     unavailable_detail := None |}.

(** ** Snapshots *)

Record RuntimeResourceSnapshot := mkSnapshot {
  source : RuntimeResourceProbeSource;
  observation : RuntimeResourceObservation;
}.

#[global] Instance snapshot_eq_dec : EqDecision RuntimeResourceSnapshot.
Proof. solve_decision. Defined.

Definition snap_unavailable (now : N) (src : RuntimeResourceProbeSource)
    (reason : RuntimeResourceUnavailableReason) : RuntimeResourceSnapshot :=
  {| source := src; observation := obs_unavailable now reason |}.

Definition snap_with_unavailable_detail (s : RuntimeResourceSnapshot) (d : string) :=
  {| source := source s; observation := obs_with_unavailable_detail (observation s) d |}.

Definition snap_mark_stale (s : RuntimeResourceSnapshot) : RuntimeResourceSnapshot :=
  {| source := source s; observation := obs_mark_stale (observation s) |}.

Definition snap_is_expired (s : RuntimeResourceSnapshot) (now : N) : bool :=
  obs_is_expired (observation s) now.

(** ** Probe registrations *)

Inductive HostStorageObservation := VolatileObservation | PersistentObservation.

(** The probe object is the environment: an operation that probes receives its
    answer as an argument. *)
Record RuntimeResourceProbeRegistration := {
  attested_source : RuntimeResourceProbeSource;
  host_storage_observation : option HostStorageObservation;
}.

Definition firmware : RuntimeResourceProbeRegistration :=
  {| attested_source := FirmwareManifest; host_storage_observation := None |}.

(** [UnavailableRuntimeResourceProbe::probe] *)
Definition unavailable_probe (reason : RuntimeResourceUnavailableReason) (now : N)
    : result RuntimeResourceObservation :=
  Ok (obs_unavailable now reason).

(** [host] on a target whose compiled source is [src]. *)
Definition host (src : RuntimeResourceProbeSource) (storage_path : option string)
    : RuntimeResourceProbeRegistration :=
  {| attested_source := src;
     host_storage_observation :=
       Some (match storage_path with
             | Some _ => PersistentObservation | None => VolatileObservation end) |}.

(** [probe_snapshot] for the answer [answer] of the probe. *)
Definition probe_snapshot (r : RuntimeResourceProbeRegistration)
    (answer : result RuntimeResourceObservation) : result RuntimeResourceSnapshot :=
  o ← answer; Ok {| source := attested_source r; observation := o |}.

(** ** Snapshot cache

    The monotonic clock is a number of milliseconds; [Instant::checked_add]
    fails above [instant_max]. *)
Record RuntimeResourceSnapshotCache := {
  cache_snapshot : RuntimeResourceSnapshot;
  refresh_deadline : N;
}.

Definition monotonic_refresh_deadline (instant_max ttl now : N) : N :=
  if now + ttl <=? instant_max then now + ttl else now.

Definition cache_new (instant_max : N) (s : RuntimeResourceSnapshot) (now : N)
    : RuntimeResourceSnapshotCache :=
  {| cache_snapshot := s;
     refresh_deadline :=
       monotonic_refresh_deadline instant_max (ttl_ms (observation s)) now |}.

Definition cache_replace (instant_max : N) (_ : RuntimeResourceSnapshotCache)
    (s : RuntimeResourceSnapshot) (now : N) : RuntimeResourceSnapshotCache :=
  {| cache_snapshot := s;
     refresh_deadline :=
       monotonic_refresh_deadline instant_max (ttl_ms (observation s)) now |}.

Definition requires_refresh (c : RuntimeResourceSnapshotCache) (now_secs now : N) : bool :=
  stale (observation (cache_snapshot c))
  || snap_is_expired (cache_snapshot c) now_secs
  || (refresh_deadline c <=? now).

Definition cache_current (c : RuntimeResourceSnapshotCache) (now_secs now : N)
    : RuntimeResourceSnapshot :=
  if negb (stale (observation (cache_snapshot c))) && requires_refresh c now_secs now
  then snap_mark_stale (cache_snapshot c)
  else cache_snapshot c.

(** ** Lemmas *)

Lemma obs_mark_stale_stale o : stale (obs_mark_stale o) = true.
Proof. by destruct o. Qed.

Lemma obs_mark_stale_idemp o : obs_mark_stale (obs_mark_stale o) = obs_mark_stale o.
Proof. destruct o as [??? p]; cbn. by destruct p. Qed.

(** Marking an observation stale never lowers its pressure. *)
Lemma obs_mark_stale_pressure o :
  pressure_rank (pressure o) ≤ pressure_rank (pressure (obs_mark_stale o)).
Proof. destruct o as [??? p]; cbn. by destruct p. Qed.

Lemma obs_is_expired_iff o now :
  obs_is_expired o now = true ↔
  now < observed_at_unix_secs o
  ∨ observed_at_unix_secs o + div_ceil (ttl_ms o) 1000 ≤ now.
Proof.
  unfold obs_is_expired.
  destruct (now <? _) eqn:E1; [split_bool; split; auto|].
  split_bool. rewrite N.leb_le. lia.
Qed.

Lemma div_ceil_spec a b : 0 < b → a ≤ div_ceil a b * b < a + b.
Proof.
  intros Hb. unfold div_ceil.
  pose proof (N.div_mod (a + b - 1) b ltac:(lia)) as H.
  pose proof (N.mod_upper_bound (a + b - 1) b ltac:(lia)).
  rewrite (N.mul_comm _ b).
  set (q := (a + b - 1) / b) in *. set (r := (a + b - 1) mod b) in *.
  clearbody q r. lia.
Qed.

(** Once expired, an observation stays expired as the clock advances. *)
Lemma obs_is_expired_mono o now now' :
  observed_at_unix_secs o ≤ now → now ≤ now' →
  obs_is_expired o now = true → obs_is_expired o now' = true.
Proof. rewrite !obs_is_expired_iff. lia. Qed.

(** ** Properties *)

(** What the cache hands out is never a fresh-looking snapshot past its
    time: [cache_current] returns either a snapshot marked stale, or the
    cached snapshot itself within both its wall-clock lifetime and its
    monotonic deadline. *)
Theorem cache_current_fresh_or_stale c now_secs now :
  stale (observation (cache_current c now_secs now)) = true
  ∨ (cache_current c now_secs now = cache_snapshot c
     ∧ snap_is_expired (cache_snapshot c) now_secs = false
     ∧ now < refresh_deadline c
     ∧ observed_at_unix_secs (observation (cache_snapshot c)) ≤ now_secs
     ∧ (now_secs - observed_at_unix_secs (observation (cache_snapshot c))) * 1000
       < ttl_ms (observation (cache_snapshot c)) + 1000).
Proof.
  unfold cache_current, requires_refresh.
  destruct (stale (observation (cache_snapshot c))) eqn:Hs; cbn; [by left|].
  destruct (snap_is_expired _ _) eqn:He; cbn; [left; apply obs_mark_stale_stale|].
  destruct (_ <=? now) eqn:Hd; cbn; [left; apply obs_mark_stale_stale|].
  right. split_bool. split; [done|]. split; [done|]. split; [done|].
  unfold snap_is_expired in He. apply not_true_iff_false in He.
  rewrite obs_is_expired_iff in He.
  pose proof (div_ceil_spec (ttl_ms (observation (cache_snapshot c))) 1000 ltac:(lia)).
  lia.
Qed.
