(* ===== verification/Budget.v ===== *)
(** * Runtime budgets: data, profile ceilings and the compiler

    Model of the data and of the pure compiler of
    [crates/core/src/budget.rs]: every budget record, the profile
    specification table, the ceilings derived from it, the scales derived from
    a resource snapshot, and [compile_runtime_budget].  Record fields carry a
    two-letter prefix of their record; the rest of the name is the source's. *)

From S2P Require Import Prelude Profile Resource.

Local Open Scope string_scope.
Local Open Scope N_scope.

(** ** Budget records *)

Record MemoryCoreBudget := mkMemoryCoreBudget {
  mc_profile_max_records : N;
  mc_recall_working_set_max_items : N;
  mc_long_term_scan_max_items : N;
}.

Record GraphExpansionRuntimeBudget := mkGraphExpansionRuntimeBudget {
  ge_max_hops : N;
  ge_max_seed_candidates : N;
  ge_max_expanded_candidates : N;
  ge_max_neighbors_per_candidate : N;
  ge_max_graph_nodes_loaded : N;
  ge_max_graph_edges_loaded : N;
  ge_max_backlinks_loaded : N;
  ge_compact_graph_node_limit : N;
  ge_compact_graph_edge_limit : N;
  ge_default_recall_multi_hop_allowed : bool;
  ge_eval_recall_multi_hop_allowed : bool;
}.

Record FacetRecallRuntimeBudget := mkFacetRecallRuntimeBudget {
  fr_max_query_facets : N;
  fr_max_facet_index_docs_read : N;
  fr_max_facet_anchor_candidates : N;
  fr_max_facet_expanded_candidates : N;
}.

Record RecallDeliveryRuntimeBudget := mkRecallDeliveryRuntimeBudget {
  rd_max_selected_candidates : N;
  rd_max_rendered_capsules : N;
  rd_max_capsule_chars : N;
  rd_max_loss_ledger_entries : N;
}.

Record GovernedStateRuntimeBudget := mkGovernedStateRuntimeBudget {
  gs_max_validity_joins : N;
  gs_max_lineage_depth : N;
  gs_max_retained_long_term_revisions_per_owner : N;
  gs_max_retained_runtime_skill_owners_per_scope : N;
  gs_max_runtime_skill_lineage_depth : N;
  gs_max_agent_tool_experience_owners_per_subject : N;
  gs_max_agent_tool_experience_revisions_per_owner : N;
  gs_max_agent_tool_experience_evidence_refs_per_owner : N;
  gs_max_as_of_candidates : N;
  gs_max_obsolete_decisions : N;
  gs_max_procedural_candidates : N;
  gs_max_premises_per_skill : N;
  gs_max_premise_evidence_reads : N;
  gs_max_state_transitions_per_write : N;
  gs_max_subject_soul_manifest_entries : N;
  gs_max_subject_soul_revisions_per_generation : N;
  gs_max_subject_soul_generation_tombstones : N;
  gs_max_subject_soul_transaction_mutations : N;
}.

Record EvidenceDocumentRuntimeBudget := mkEvidenceDocumentRuntimeBudget {
  ed_max_document_bytes : N;
  ed_max_document_body_bytes : N;
  ed_max_chunk_bytes : N;
  ed_max_chunks_per_document : N;
  ed_max_documents_per_transaction : N;
  ed_max_documents_per_read : N;
  ed_max_total_bytes_per_transaction : N;
}.

Record StoreRuntimeBudget := mkStoreRuntimeBudget {
  sb_metric_source_max_items : N;
  sb_event_log_max_items : N;
  sb_kv_max_entries : N;
  sb_blob_max_bytes : N;
  sb_snapshot_max_bytes : N;
  sb_logical_namespace_max_bytes : N;
  sb_logical_key_max_bytes : N;
  sb_event_record_key_max_bytes : N;
  sb_export_max_bytes : N;
  sb_import_max_bytes : N;
}.

Record AdapterRuntimeBudget := mkAdapterRuntimeBudget {
  ab_http_header_max_bytes : N;
  ab_http_body_max_bytes : N;
  ab_wss_frame_max_bytes : N;
  ab_wss_max_subscriptions : N;
  ab_wss_session_max_frames : N;
}.

Record ProjectionSourceBudget := mkProjectionSourceBudget {
  ps_context_assembly_max_chars : N;
  ps_recent_messages_limit : N;
  ps_recall_candidate_max_items : N;
}.

Record ProjectionRenderBudget := mkProjectionRenderBudget {
  pr_system_block_max_chars : N;
  pr_provider_prompt_max_chars : option N;
}.

Record MaintenanceBudget := mkMaintenanceBudget {
  mb_user_input_max_chars : N;
  mb_user_input_max_bytes : N;
  mb_reply_input_max_chars : N;
  mb_reply_input_max_bytes : N;
}.

Record RuntimeJobBudget := mkRuntimeJobBudget {
  rj_max_concurrent_jobs : N;
  rj_max_background_jobs : N;
  rj_maintenance_batch_max_items : N;
}.

Record LlmGatewayBudget := mkLlmGatewayBudget {
  lg_runtime_cache_max_runtimes : N;
  lg_projection_render_max_chars : N;
  lg_recent_messages_limit : N;
  lg_maintenance_user_max_chars : N;
  lg_maintenance_reply_max_chars : N;
  lg_buffered_json_max_bytes : N;
  lg_stream_chunk_max_bytes : N;
  lg_stream_event_max_bytes : N;
  lg_stream_max_events : N;
  lg_response_body_max_bytes : N;
}.

Record TranscriptGovernanceBudget := mkTranscriptGovernanceBudget {
  tg_transcript_page_size : N;
  tg_host_refs_per_turn : N;
  tg_max_attrs_per_turn : N;
  tg_max_attrs_per_message : N;
  tg_redaction_items_per_page : N;
  tg_derived_refs_per_report : N;
  tg_repair_issues_per_report : N;
}.

Record TranscriptQueryBudget := mkTranscriptQueryBudget {
  tq_result_page_size : N;
  tq_query_max_bytes : N;
  tq_query_max_chars : N;
  tq_query_max_terms : N;
  tq_candidate_hydration_limit : N;
  tq_excerpt_max_chars : N;
  tq_activity_bucket_limit : N;
  tq_activity_total_span_max_secs : N;
}.

Record ProfileBudgetSpec := mkProfileBudgetSpec {
  spec_memory_floor_bytes : N;
  spec_storage_floor_bytes : N;
  spec_records : N;
  spec_retained_long_term_revisions_per_owner : N;
  spec_retained_runtime_skill_owners_per_scope : N;
  spec_runtime_skill_lineage_depth : N;
  spec_events : N;
  spec_metric_source_max_items : N;
  spec_blob_max_bytes : N;
  spec_snapshot_max_bytes : N;
  spec_http_body_max_bytes : N;
  spec_llm_response_max_bytes : N;
  spec_source_chars : N;
  spec_render_chars : N;
  spec_maintenance_chars : N;
  spec_runtime_cache_max_runtimes : N;
  spec_wss_subscriptions : N;
  spec_graph_max_hops : N;
  spec_graph_default_recall_multi_hop_allowed : bool;
  spec_graph_eval_recall_multi_hop_allowed : bool;
}.

Record ProfileBudgetCeiling := mkProfileBudgetCeiling {
  c_memory_floor_bytes : N;
  c_storage_floor_bytes : N;
  c_memory_core_budget : MemoryCoreBudget;
  c_graph_expansion_budget : GraphExpansionRuntimeBudget;
  c_facet_recall_budget : FacetRecallRuntimeBudget;
  c_recall_delivery_budget : RecallDeliveryRuntimeBudget;
  c_governed_state_budget : GovernedStateRuntimeBudget;
  c_store_budget : StoreRuntimeBudget;
  c_adapter_budget : AdapterRuntimeBudget;
  c_projection_source_budget : ProjectionSourceBudget;
  c_projection_render_budget : ProjectionRenderBudget;
  c_maintenance_budget : MaintenanceBudget;
  c_runtime_job_budget : RuntimeJobBudget;
  c_llm_gateway_budget : LlmGatewayBudget;
  c_transcript_governance_budget : TranscriptGovernanceBudget;
  c_p0_min_records : N;
  c_p0_min_recall_items : N;
  c_p0_min_events : N;
  c_p0_min_blob_bytes : N;
  c_p0_min_snapshot_bytes : N;
  c_p0_min_http_body_bytes : N;
  c_p0_min_wss_frame_bytes : N;
  c_p0_min_projection_source_chars : N;
  c_p0_min_projection_render_chars : N;
  c_p0_min_maintenance_chars : N;
  c_p0_min_maintenance_bytes : N;
}.
#[global] Instance memorycorebudget_eq_dec : EqDecision MemoryCoreBudget.
Proof. solve_decision. Defined.
#[global] Instance graphexpansionruntimebudget_eq_dec : EqDecision GraphExpansionRuntimeBudget.
Proof. solve_decision. Defined.
#[global] Instance facetrecallruntimebudget_eq_dec : EqDecision FacetRecallRuntimeBudget.
Proof. solve_decision. Defined.
#[global] Instance recalldeliveryruntimebudget_eq_dec : EqDecision RecallDeliveryRuntimeBudget.
Proof. solve_decision. Defined.
#[global] Instance governedstateruntimebudget_eq_dec : EqDecision GovernedStateRuntimeBudget.
Proof. solve_decision. Defined.
#[global] Instance evidencedocumentruntimebudget_eq_dec : EqDecision EvidenceDocumentRuntimeBudget.
Proof. solve_decision. Defined.
#[global] Instance storeruntimebudget_eq_dec : EqDecision StoreRuntimeBudget.
Proof. solve_decision. Defined.
#[global] Instance adapterruntimebudget_eq_dec : EqDecision AdapterRuntimeBudget.
Proof. solve_decision. Defined.
#[global] Instance projectionsourcebudget_eq_dec : EqDecision ProjectionSourceBudget.
Proof. solve_decision. Defined.
#[global] Instance projectionrenderbudget_eq_dec : EqDecision ProjectionRenderBudget.
Proof. solve_decision. Defined.
#[global] Instance maintenancebudget_eq_dec : EqDecision MaintenanceBudget.
Proof. solve_decision. Defined.
#[global] Instance runtimejobbudget_eq_dec : EqDecision RuntimeJobBudget.
Proof. solve_decision. Defined.
#[global] Instance llmgatewaybudget_eq_dec : EqDecision LlmGatewayBudget.
Proof. solve_decision. Defined.
#[global] Instance transcriptgovernancebudget_eq_dec : EqDecision TranscriptGovernanceBudget.
Proof. solve_decision. Defined.
#[global] Instance transcriptquerybudget_eq_dec : EqDecision TranscriptQueryBudget.
Proof. solve_decision. Defined.

(** ** Profile specifications and ceilings *)

Definition MB : N := 1024 * 1024.

Definition max_usize (left right : N) : N := if right <=? left then left else right.

Definition ceiling_memory_core_budget (spec : ProfileBudgetSpec) : MemoryCoreBudget :=
  {| mc_profile_max_records := spec_records spec;
     mc_recall_working_set_max_items := max_usize ((spec_records spec) / 16) 16;
     mc_long_term_scan_max_items := max_usize ((spec_records spec) / 8) 32 |}.

Definition ceiling_graph_expansion_budget (spec : ProfileBudgetSpec)
    : GraphExpansionRuntimeBudget :=
  {| ge_max_hops := spec_graph_max_hops spec;
     ge_max_seed_candidates := max_usize ((spec_records spec) / 64) 4;
     ge_max_expanded_candidates := max_usize ((spec_records spec) / 128) 8;
     ge_max_neighbors_per_candidate := max_usize ((spec_records spec) / 512) 2;
     ge_max_graph_nodes_loaded := max_usize ((spec_records spec) / 16) 16;
     ge_max_graph_edges_loaded := max_usize ((spec_records spec) / 8) 32;
     ge_max_backlinks_loaded := max_usize ((spec_records spec) / 8) 32;
     ge_compact_graph_node_limit := if 4096 <=? (spec_records spec) then 32 else 16;
     ge_compact_graph_edge_limit := if 4096 <=? (spec_records spec) then 32 else 16;
     ge_default_recall_multi_hop_allowed :=
       spec_graph_default_recall_multi_hop_allowed spec;
     ge_eval_recall_multi_hop_allowed :=
       spec_graph_eval_recall_multi_hop_allowed spec |}.

Definition ceiling_facet_recall_budget (spec : ProfileBudgetSpec)
    : FacetRecallRuntimeBudget :=
  {| fr_max_query_facets := max_usize ((spec_source_chars spec) / 256) 4;
     fr_max_facet_index_docs_read := max_usize ((spec_records spec) / 8) 32;
     fr_max_facet_anchor_candidates := max_usize ((spec_records spec) / 128) 8;
     fr_max_facet_expanded_candidates := max_usize ((spec_records spec) / 256) 8 |}.

Definition ceiling_recall_delivery_budget (spec : ProfileBudgetSpec)
    : RecallDeliveryRuntimeBudget :=
  {| rd_max_selected_candidates := max_usize ((spec_source_chars spec) / 128) 8;
     rd_max_rendered_capsules := max_usize ((spec_source_chars spec) / 512) 2;
     rd_max_capsule_chars := max_usize ((spec_render_chars spec) / 3) 256;
     rd_max_loss_ledger_entries := max_usize ((spec_source_chars spec) / 256) 4 |}.

Definition ceiling_governed_state_budget (spec : ProfileBudgetSpec)
    : GovernedStateRuntimeBudget :=
  {| gs_max_validity_joins := max_usize ((spec_records spec) / 256) 2;
     gs_max_lineage_depth := if 4096 <=? (spec_records spec) then 16 else 4;
     gs_max_retained_long_term_revisions_per_owner :=
       spec_retained_long_term_revisions_per_owner spec;
     gs_max_retained_runtime_skill_owners_per_scope :=
       spec_retained_runtime_skill_owners_per_scope spec;
     gs_max_runtime_skill_lineage_depth := spec_runtime_skill_lineage_depth spec;
     gs_max_agent_tool_experience_owners_per_subject :=
       spec_retained_runtime_skill_owners_per_scope spec;
     gs_max_agent_tool_experience_revisions_per_owner :=
       spec_runtime_skill_lineage_depth spec;
     gs_max_agent_tool_experience_evidence_refs_per_owner :=
       max_usize ((spec_source_chars spec) / 128) 8;
     gs_max_as_of_candidates := max_usize ((spec_records spec) / 512) 2;
     gs_max_obsolete_decisions := max_usize ((spec_records spec) / 256) 2;
     gs_max_procedural_candidates := max_usize ((spec_source_chars spec) / 256) 2;
     gs_max_premises_per_skill := max_usize ((spec_source_chars spec) / 1024) 2;
     gs_max_premise_evidence_reads := max_usize ((spec_source_chars spec) / 512) 2;
     gs_max_state_transitions_per_write :=
       if 4096 <=? (spec_records spec) then 8 else 2;
     gs_max_subject_soul_manifest_entries := max_usize ((spec_records spec) / 16) 16;
     gs_max_subject_soul_revisions_per_generation :=
       spec_retained_long_term_revisions_per_owner spec;
     gs_max_subject_soul_generation_tombstones :=
       if 4096 <=? (spec_records spec) then 8 else 2;
     gs_max_subject_soul_transaction_mutations :=
       max_usize ((spec_records spec) / 128) 16 |}.

Definition ceiling_store_budget (spec : ProfileBudgetSpec) : StoreRuntimeBudget :=
  {| sb_metric_source_max_items := spec_metric_source_max_items spec;
     sb_event_log_max_items := spec_events spec;
     sb_kv_max_entries := spec_records spec;
     sb_blob_max_bytes := spec_blob_max_bytes spec;
     sb_snapshot_max_bytes := spec_snapshot_max_bytes spec;
     sb_logical_namespace_max_bytes := 96;
     sb_logical_key_max_bytes := max_usize ((spec_snapshot_max_bytes spec) / 1024) 512;
     sb_event_record_key_max_bytes :=
       max_usize ((spec_snapshot_max_bytes spec) / 1024) 512;
     sb_export_max_bytes := spec_snapshot_max_bytes spec;
     sb_import_max_bytes := spec_snapshot_max_bytes spec |}.

Definition ceiling_adapter_budget (spec : ProfileBudgetSpec) : AdapterRuntimeBudget :=
  {| ab_http_header_max_bytes := 16 * 1024;
     ab_http_body_max_bytes := spec_http_body_max_bytes spec;
     ab_wss_frame_max_bytes := spec_http_body_max_bytes spec;
     ab_wss_max_subscriptions := spec_wss_subscriptions spec;
     ab_wss_session_max_frames :=
       max_usize (saturating_mul (spec_wss_subscriptions spec) 8) 8 |}.

Definition ceiling_projection_source_budget (spec : ProfileBudgetSpec)
    : ProjectionSourceBudget :=
  {| ps_context_assembly_max_chars := spec_source_chars spec;
     ps_recent_messages_limit := max_usize ((spec_source_chars spec) / 256) 4;
     ps_recall_candidate_max_items := max_usize ((spec_source_chars spec) / 256) 4 |}.

Definition ceiling_projection_render_budget (spec : ProfileBudgetSpec)
    : ProjectionRenderBudget :=
  {| pr_system_block_max_chars := spec_render_chars spec;
     pr_provider_prompt_max_chars := None |}.

Definition ceiling_maintenance_budget (spec : ProfileBudgetSpec) : MaintenanceBudget :=
  {| mb_user_input_max_chars := spec_maintenance_chars spec;
     mb_user_input_max_bytes := ((spec_maintenance_chars spec) * 2);
     mb_reply_input_max_chars := spec_maintenance_chars spec;
     mb_reply_input_max_bytes := ((spec_maintenance_chars spec) * 2) |}.

Definition ceiling_runtime_job_budget (spec : ProfileBudgetSpec) : RuntimeJobBudget :=
  {| rj_max_concurrent_jobs := max_usize ((spec_runtime_cache_max_runtimes spec) / 4) 1;
     rj_max_background_jobs := max_usize ((spec_runtime_cache_max_runtimes spec) / 8) 1;
     rj_maintenance_batch_max_items := max_usize ((spec_records spec) / 64) 4 |}.

Definition ceiling_llm_gateway_budget (spec : ProfileBudgetSpec) : LlmGatewayBudget :=
  {| lg_runtime_cache_max_runtimes := spec_runtime_cache_max_runtimes spec;
     lg_projection_render_max_chars := spec_render_chars spec;
     lg_recent_messages_limit := max_usize ((spec_source_chars spec) / 256) 4;
     lg_maintenance_user_max_chars := spec_maintenance_chars spec;
     lg_maintenance_reply_max_chars := spec_maintenance_chars spec;
     lg_buffered_json_max_bytes := spec_llm_response_max_bytes spec;
     lg_stream_chunk_max_bytes := spec_http_body_max_bytes spec;
     lg_stream_event_max_bytes := spec_http_body_max_bytes spec;
     lg_stream_max_events := spec_events spec;
     lg_response_body_max_bytes := spec_llm_response_max_bytes spec |}.

Definition ceiling_transcript_governance_budget (spec : ProfileBudgetSpec)
    : TranscriptGovernanceBudget :=
  {| tg_transcript_page_size := max_usize ((spec_source_chars spec) / 256) 4;
     tg_host_refs_per_turn :=
       max_usize ((spec_http_body_max_bytes spec) / (8 * 1024)) 1;
     tg_max_attrs_per_turn := max_usize ((spec_source_chars spec) / 512) 2;
     tg_max_attrs_per_message := max_usize ((spec_source_chars spec) / 512) 2;
     tg_redaction_items_per_page := max_usize ((spec_source_chars spec) / 128) 8;
     tg_derived_refs_per_report := max_usize ((spec_records spec) / 512) 4;
     tg_repair_issues_per_report := max_usize ((spec_events spec) / 512) 4 |}.

Definition profile_budget (spec : ProfileBudgetSpec) : ProfileBudgetCeiling :=
  {| c_memory_floor_bytes := spec_memory_floor_bytes spec;
     c_storage_floor_bytes := spec_storage_floor_bytes spec;
     c_memory_core_budget := ceiling_memory_core_budget spec;
     c_graph_expansion_budget := ceiling_graph_expansion_budget spec;
     c_facet_recall_budget := ceiling_facet_recall_budget spec;
     c_recall_delivery_budget := ceiling_recall_delivery_budget spec;
     c_governed_state_budget := ceiling_governed_state_budget spec;
     c_store_budget := ceiling_store_budget spec;
     c_adapter_budget := ceiling_adapter_budget spec;
     c_projection_source_budget := ceiling_projection_source_budget spec;
     c_projection_render_budget := ceiling_projection_render_budget spec;
     c_maintenance_budget := ceiling_maintenance_budget spec;
     c_runtime_job_budget := ceiling_runtime_job_budget spec;
     c_llm_gateway_budget := ceiling_llm_gateway_budget spec;
     c_transcript_governance_budget := ceiling_transcript_governance_budget spec;
     c_p0_min_records := 64;
     c_p0_min_recall_items := 4;
     c_p0_min_events := 64;
     c_p0_min_blob_bytes := 64 * 1024;
     c_p0_min_snapshot_bytes := 64 * 1024;
     c_p0_min_http_body_bytes := 4 * 1024;
     c_p0_min_wss_frame_bytes := 4 * 1024;
     c_p0_min_projection_source_chars := 1024;
     c_p0_min_projection_render_chars := 512;
     c_p0_min_maintenance_chars := 512;
     c_p0_min_maintenance_bytes := 1024 |}.

Definition profile_budget_spec (profile : ProfileId) : ProfileBudgetSpec :=
  match profile with
  | EspEmbeddedSdk =>
      {| spec_memory_floor_bytes := 128 * MB;
         spec_storage_floor_bytes := 8 * MB;
         spec_records := 512;
         spec_retained_long_term_revisions_per_owner := 4;
         spec_retained_runtime_skill_owners_per_scope := 16;
         spec_runtime_skill_lineage_depth := 4;
         spec_events := 256;
         spec_metric_source_max_items := 1;
         spec_blob_max_bytes := 1024 * 1024;
         spec_snapshot_max_bytes := 256 * 1024;
         spec_http_body_max_bytes := 8 * 1024;
         spec_llm_response_max_bytes := 64 * 1024;
         spec_source_chars := 1024;
         spec_render_chars := 2048;
         spec_maintenance_chars := 1024;
         spec_runtime_cache_max_runtimes := 8;
         spec_wss_subscriptions := 4;
         spec_graph_max_hops := 1;
         spec_graph_default_recall_multi_hop_allowed := false;
         spec_graph_eval_recall_multi_hop_allowed := false |}
  | EspStandaloneMemory =>
      {| spec_memory_floor_bytes := 256 * MB;
         spec_storage_floor_bytes := 16 * MB;
         spec_records := 4096;
         spec_retained_long_term_revisions_per_owner := 4;
         spec_retained_runtime_skill_owners_per_scope := 64;
         spec_runtime_skill_lineage_depth := 4;
         spec_events := 2048;
         spec_metric_source_max_items := 1;
         spec_blob_max_bytes := 4 * 1024 * 1024;
         spec_snapshot_max_bytes := 1024 * 1024;
         spec_http_body_max_bytes := 16 * 1024;
         spec_llm_response_max_bytes := 256 * 1024;
         spec_source_chars := 2048;
         spec_render_chars := 4096;
         spec_maintenance_chars := 2048;
         spec_runtime_cache_max_runtimes := 16;
         spec_wss_subscriptions := 8;
         spec_graph_max_hops := 1;
         spec_graph_default_recall_multi_hop_allowed := false;
         spec_graph_eval_recall_multi_hop_allowed := false |}
  | LinuxDeviceStandaloneMemory =>
      {| spec_memory_floor_bytes := 512 * MB;
         spec_storage_floor_bytes := 256 * MB;
         spec_records := 12000;
         spec_retained_long_term_revisions_per_owner := 8;
         spec_retained_runtime_skill_owners_per_scope := 256;
         spec_runtime_skill_lineage_depth := 8;
         spec_events := 4096;
         spec_metric_source_max_items := 2;
         spec_blob_max_bytes := 16 * 1024 * 1024;
         spec_snapshot_max_bytes := 4 * 1024 * 1024;
         spec_http_body_max_bytes := 64 * 1024;
         spec_llm_response_max_bytes := 1024 * 1024;
         spec_source_chars := 4096;
         spec_render_chars := 8192;
         spec_maintenance_chars := 4096;
         spec_runtime_cache_max_runtimes := 32;
         spec_wss_subscriptions := 16;
         spec_graph_max_hops := 1;
         spec_graph_default_recall_multi_hop_allowed := false;
         spec_graph_eval_recall_multi_hop_allowed := false |}
  | DesktopMacosEmbeddedSdk | DesktopLinuxEmbeddedSdk | DesktopWindowsEmbeddedSdk =>
      {| spec_memory_floor_bytes := 512 * MB;
         spec_storage_floor_bytes := 256 * MB;
         spec_records := 4096;
         spec_retained_long_term_revisions_per_owner := 8;
         spec_retained_runtime_skill_owners_per_scope := 128;
         spec_runtime_skill_lineage_depth := 8;
         spec_events := 8192;
         spec_metric_source_max_items := 2;
         spec_blob_max_bytes := 8 * 1024 * 1024;
         spec_snapshot_max_bytes := 2 * 1024 * 1024;
         spec_http_body_max_bytes := 32 * 1024;
         spec_llm_response_max_bytes := 512 * 1024;
         spec_source_chars := 2048;
         spec_render_chars := 4096;
         spec_maintenance_chars := 2048;
         spec_runtime_cache_max_runtimes := 16;
         spec_wss_subscriptions := 8;
         spec_graph_max_hops := 1;
         spec_graph_default_recall_multi_hop_allowed := false;
         spec_graph_eval_recall_multi_hop_allowed := false |}
  | DesktopMacosStandaloneMemory =>
      {| spec_memory_floor_bytes := 1024 * MB;
         spec_storage_floor_bytes := 512 * MB;
         spec_records := 20000;
         spec_retained_long_term_revisions_per_owner := 16;
         spec_retained_runtime_skill_owners_per_scope := 512;
         spec_runtime_skill_lineage_depth := 16;
         spec_events := 8192;
         spec_metric_source_max_items := 2;
         spec_blob_max_bytes := 32 * 1024 * 1024;
         spec_snapshot_max_bytes := 8 * 1024 * 1024;
         spec_http_body_max_bytes := 96 * 1024;
         spec_llm_response_max_bytes := 2 * 1024 * 1024;
         spec_source_chars := 8192;
         spec_render_chars := 12288;
         spec_maintenance_chars := 8192;
         spec_runtime_cache_max_runtimes := 64;
         spec_wss_subscriptions := 32;
         spec_graph_max_hops := 1;
         spec_graph_default_recall_multi_hop_allowed := false;
         spec_graph_eval_recall_multi_hop_allowed := false |}
  | ServerLinuxMemoryGateway =>
      {| spec_memory_floor_bytes := 1024 * MB;
         spec_storage_floor_bytes := 1024 * MB;
         spec_records := 40000;
         spec_retained_long_term_revisions_per_owner := 32;
         spec_retained_runtime_skill_owners_per_scope := 1024;
         spec_runtime_skill_lineage_depth := 32;
         spec_events := 16384;
         spec_metric_source_max_items := 2;
         spec_blob_max_bytes := 64 * 1024 * 1024;
         spec_snapshot_max_bytes := 16 * 1024 * 1024;
         spec_http_body_max_bytes := 128 * 1024;
         spec_llm_response_max_bytes := 8 * 1024 * 1024;
         spec_source_chars := 8192;
         spec_render_chars := 16384;
         spec_maintenance_chars := 8192;
         spec_runtime_cache_max_runtimes := 128;
         spec_wss_subscriptions := 64;
         spec_graph_max_hops := 2;
         spec_graph_default_recall_multi_hop_allowed := true;
         spec_graph_eval_recall_multi_hop_allowed := true |}
  | DesktopMacosDevFull | DesktopWindowsDevFull | ServerLinuxDevFull =>
      {| spec_memory_floor_bytes := 2048 * MB;
         spec_storage_floor_bytes := 2048 * MB;
         spec_records := 80000;
         spec_retained_long_term_revisions_per_owner := 32;
         spec_retained_runtime_skill_owners_per_scope := 2048;
         spec_runtime_skill_lineage_depth := 32;
         spec_events := 32768;
         spec_metric_source_max_items := 2;
         spec_blob_max_bytes := 128 * 1024 * 1024;
         spec_snapshot_max_bytes := 32 * 1024 * 1024;
         spec_http_body_max_bytes := 256 * 1024;
         spec_llm_response_max_bytes := 16 * 1024 * 1024;
         spec_source_chars := 16384;
         spec_render_chars := 32768;
         spec_maintenance_chars := 16384;
         spec_runtime_cache_max_runtimes := 256;
         spec_wss_subscriptions := 128;
         spec_graph_max_hops := 2;
         spec_graph_default_recall_multi_hop_allowed := true;
         spec_graph_eval_recall_multi_hop_allowed := true |}
  end.

Definition profile_budget_ceiling (profile : ProfileId) : ProfileBudgetCeiling :=
  profile_budget (profile_budget_spec profile).

(** ** Scales *)

Definition scale_usize (value percent : N) : N := saturating_mul value percent / 100.

(** [scale_usize(value, percent).max(floor)] *)
Definition scaled (value percent floor : N) : N :=
  N.max (scale_usize value percent) floor.

Definition pressure_scale (p : PressureLevel) : N :=
  match p with Normal => 100 | Cautious => 60 | Critical => 35 end.

Inductive RuntimeStoreMedium := VolatileMemory | PersistentFilesystem | EmbeddedFlash.

#[global] Instance medium_eq_dec : EqDecision RuntimeStoreMedium.
Proof. solve_decision. Defined.

Definition medium_as_str (m : RuntimeStoreMedium) : string :=
  match m with
  | VolatileMemory => "volatile_memory"
  | PersistentFilesystem => "persistent_filesystem"
  | EmbeddedFlash => "embedded_flash"
  end.

Record StaticPlatformManifest := mkStaticPlatformManifest {
  manifest_id : string;
  manifest_profile : ProfileId;
  manifest_deployment_target : TargetFeature;
  manifest_deployment_role : RoleFeature;
  manifest_store_medium : RuntimeStoreMedium;
  memory_floor_bytes : N;
  storage_floor_bytes : N;
  notes : list string;
}.

Definition manifest_for_profile (p : ProfileId) (m : RuntimeStoreMedium)
    : StaticPlatformManifest :=
  let ceiling := profile_budget_ceiling p in
  {| manifest_id := "static-manifest:" +:+ profile_as_str p +:+ ":" +:+ medium_as_str m;
     manifest_profile := p;
     manifest_deployment_target := target p;
     manifest_deployment_role := role p;
     manifest_store_medium := m;
     memory_floor_bytes := c_memory_floor_bytes ceiling;
     storage_floor_bytes := c_storage_floor_bytes ceiling;
     notes := [] |}.

Definition option_or {A} (a b : option A) : option A :=
  match a with Some _ => a | None => b end.

Definition memory_scale (s : RuntimeResourceSnapshot) (m : StaticPlatformManifest) : N :=
  let o := observation s in
  match option_or (option_or (memory_available_bytes o) (internal_heap_free_bytes o))
          (psram_free_bytes o) with
  | None => 50
  | Some available =>
      if available <=? memory_floor_bytes m then 50
      else if available <=? saturating_mul (memory_floor_bytes m) 2 then 75
      else 100
  end.

Definition storage_scale (s : RuntimeResourceSnapshot) (m : StaticPlatformManifest) : N :=
  match storage_available_bytes (observation s) with
  | None => 60
  | Some available =>
      if available <=? storage_floor_bytes m then 50
      else if available <=? saturating_mul (storage_floor_bytes m) 2 then 75
      else 100
  end.

(** ** The compiler, one definition per compiled budget *)

Definition compile_memory_core_budget (c : ProfileBudgetCeiling) (source_scale : N)
    : MemoryCoreBudget :=
  {| mc_profile_max_records :=
       scaled (mc_profile_max_records (c_memory_core_budget c)) source_scale
         (c_p0_min_records c);
     mc_recall_working_set_max_items :=
       scaled (mc_recall_working_set_max_items (c_memory_core_budget c)) source_scale
         (c_p0_min_recall_items c);
     mc_long_term_scan_max_items :=
       scaled (mc_long_term_scan_max_items (c_memory_core_budget c)) source_scale
         (c_p0_min_recall_items c) |}.

Definition compile_graph_expansion_budget (c : ProfileBudgetCeiling) (source_scale : N)
    : GraphExpansionRuntimeBudget :=
  {| ge_max_hops := N.min (N.max (ge_max_hops (c_graph_expansion_budget c)) 1) 2;
     ge_max_seed_candidates :=
       scaled (ge_max_seed_candidates (c_graph_expansion_budget c)) source_scale
         (c_p0_min_recall_items c);
     ge_max_expanded_candidates :=
       scaled (ge_max_expanded_candidates (c_graph_expansion_budget c)) source_scale
         (c_p0_min_recall_items c);
     ge_max_neighbors_per_candidate :=
       scaled (ge_max_neighbors_per_candidate (c_graph_expansion_budget c)) source_scale 1;
     ge_max_graph_nodes_loaded :=
       scaled (ge_max_graph_nodes_loaded (c_graph_expansion_budget c)) source_scale
         (c_p0_min_recall_items c);
     ge_max_graph_edges_loaded :=
       scaled (ge_max_graph_edges_loaded (c_graph_expansion_budget c)) source_scale
         (c_p0_min_recall_items c);
     ge_max_backlinks_loaded :=
       scaled (ge_max_backlinks_loaded (c_graph_expansion_budget c)) source_scale
         (c_p0_min_recall_items c);
     ge_compact_graph_node_limit :=
       scaled (ge_compact_graph_node_limit (c_graph_expansion_budget c)) source_scale 1;
     ge_compact_graph_edge_limit :=
       scaled (ge_compact_graph_edge_limit (c_graph_expansion_budget c)) source_scale 1;
     ge_default_recall_multi_hop_allowed :=
       ge_default_recall_multi_hop_allowed (c_graph_expansion_budget c);
     ge_eval_recall_multi_hop_allowed :=
       ge_eval_recall_multi_hop_allowed (c_graph_expansion_budget c) |}.

Definition compile_facet_recall_budget (c : ProfileBudgetCeiling) (source_scale : N)
    : FacetRecallRuntimeBudget :=
  {| fr_max_query_facets :=
       scaled (fr_max_query_facets (c_facet_recall_budget c)) source_scale
         (c_p0_min_recall_items c);
     fr_max_facet_index_docs_read :=
       scaled (fr_max_facet_index_docs_read (c_facet_recall_budget c)) source_scale
         (c_p0_min_recall_items c);
     fr_max_facet_anchor_candidates :=
       scaled (fr_max_facet_anchor_candidates (c_facet_recall_budget c)) source_scale
         (c_p0_min_recall_items c);
     fr_max_facet_expanded_candidates :=
       scaled (fr_max_facet_expanded_candidates (c_facet_recall_budget c)) source_scale
         (c_p0_min_recall_items c) |}.

Definition compile_recall_delivery_budget (c : ProfileBudgetCeiling) (source_scale : N)
    : RecallDeliveryRuntimeBudget :=
  {| rd_max_selected_candidates :=
       scaled (rd_max_selected_candidates (c_recall_delivery_budget c)) source_scale
         (c_p0_min_recall_items c);
     rd_max_rendered_capsules :=
       scaled (rd_max_rendered_capsules (c_recall_delivery_budget c)) source_scale 1;
     rd_max_capsule_chars :=
       scaled (rd_max_capsule_chars (c_recall_delivery_budget c)) source_scale 128;
     rd_max_loss_ledger_entries :=
       scaled (rd_max_loss_ledger_entries (c_recall_delivery_budget c)) source_scale 1 |}.

Definition compile_governed_state_budget (c : ProfileBudgetCeiling) (source_scale : N)
    : GovernedStateRuntimeBudget :=
  {| gs_max_validity_joins :=
       scaled (gs_max_validity_joins (c_governed_state_budget c)) source_scale 1;
     gs_max_lineage_depth :=
       scaled (gs_max_lineage_depth (c_governed_state_budget c)) source_scale 1;
     gs_max_retained_long_term_revisions_per_owner :=
       scaled (gs_max_retained_long_term_revisions_per_owner (c_governed_state_budget c)) source_scale 1;
     gs_max_retained_runtime_skill_owners_per_scope :=
       scaled (gs_max_retained_runtime_skill_owners_per_scope (c_governed_state_budget c)) source_scale 1;
     gs_max_runtime_skill_lineage_depth :=
       scaled (gs_max_runtime_skill_lineage_depth (c_governed_state_budget c)) source_scale 1;
     gs_max_agent_tool_experience_owners_per_subject :=
       scaled (gs_max_agent_tool_experience_owners_per_subject (c_governed_state_budget c)) source_scale 1;
     gs_max_agent_tool_experience_revisions_per_owner :=
       scaled (gs_max_agent_tool_experience_revisions_per_owner (c_governed_state_budget c)) source_scale 1;
     gs_max_agent_tool_experience_evidence_refs_per_owner :=
       scaled (gs_max_agent_tool_experience_evidence_refs_per_owner (c_governed_state_budget c)) source_scale 1;
     gs_max_as_of_candidates :=
       scaled (gs_max_as_of_candidates (c_governed_state_budget c)) source_scale 1;
     gs_max_obsolete_decisions :=
       scaled (gs_max_obsolete_decisions (c_governed_state_budget c)) source_scale 1;
     gs_max_procedural_candidates :=
       scaled (gs_max_procedural_candidates (c_governed_state_budget c)) source_scale 1;
     gs_max_premises_per_skill :=
       scaled (gs_max_premises_per_skill (c_governed_state_budget c)) source_scale 1;
     gs_max_premise_evidence_reads :=
       scaled (gs_max_premise_evidence_reads (c_governed_state_budget c)) source_scale 1;
     gs_max_state_transitions_per_write :=
       scaled (gs_max_state_transitions_per_write (c_governed_state_budget c)) source_scale 1;
     gs_max_subject_soul_manifest_entries :=
       scaled (gs_max_subject_soul_manifest_entries (c_governed_state_budget c)) source_scale 8;
     gs_max_subject_soul_revisions_per_generation :=
       scaled (gs_max_subject_soul_revisions_per_generation (c_governed_state_budget c)) source_scale 1;
     gs_max_subject_soul_generation_tombstones :=
       scaled (gs_max_subject_soul_generation_tombstones (c_governed_state_budget c)) source_scale 1;
     gs_max_subject_soul_transaction_mutations :=
       scaled (gs_max_subject_soul_transaction_mutations (c_governed_state_budget c)) source_scale 8 |}.

Definition compile_store_budget (c : ProfileBudgetCeiling) (store_scale : N)
    : StoreRuntimeBudget :=
  {| sb_metric_source_max_items :=
       scaled (sb_metric_source_max_items (c_store_budget c)) store_scale 1;
     sb_event_log_max_items :=
       scaled (sb_event_log_max_items (c_store_budget c)) store_scale
         (c_p0_min_events c);
     sb_kv_max_entries :=
       scaled (sb_kv_max_entries (c_store_budget c)) store_scale
         (c_p0_min_records c);
     sb_blob_max_bytes :=
       scaled (sb_blob_max_bytes (c_store_budget c)) store_scale
         (c_p0_min_blob_bytes c);
     sb_snapshot_max_bytes :=
       scaled (sb_snapshot_max_bytes (c_store_budget c)) store_scale
         (c_p0_min_snapshot_bytes c);
     sb_logical_namespace_max_bytes :=
       sb_logical_namespace_max_bytes (c_store_budget c);
     sb_logical_key_max_bytes :=
       scaled (sb_logical_key_max_bytes (c_store_budget c)) store_scale 128;
     sb_event_record_key_max_bytes :=
       scaled (sb_event_record_key_max_bytes (c_store_budget c)) store_scale 128;
     sb_export_max_bytes :=
       scaled (sb_export_max_bytes (c_store_budget c)) store_scale
         (c_p0_min_snapshot_bytes c);
     sb_import_max_bytes :=
       scaled (sb_import_max_bytes (c_store_budget c)) store_scale
         (c_p0_min_snapshot_bytes c) |}.

Definition compile_adapter_budget (c : ProfileBudgetCeiling) (source_scale : N)
    : AdapterRuntimeBudget :=
  {| ab_http_header_max_bytes := ab_http_header_max_bytes (c_adapter_budget c);
     ab_http_body_max_bytes :=
       scaled (ab_http_body_max_bytes (c_adapter_budget c)) source_scale
         (c_p0_min_http_body_bytes c);
     ab_wss_frame_max_bytes :=
       scaled (ab_wss_frame_max_bytes (c_adapter_budget c)) source_scale
         (c_p0_min_wss_frame_bytes c);
     ab_wss_max_subscriptions :=
       scaled (ab_wss_max_subscriptions (c_adapter_budget c)) source_scale 1;
     ab_wss_session_max_frames :=
       scaled (ab_wss_session_max_frames (c_adapter_budget c)) source_scale 4 |}.

Definition compile_projection_source_budget (c : ProfileBudgetCeiling) (source_scale : N)
    : ProjectionSourceBudget :=
  {| ps_context_assembly_max_chars :=
       scaled (ps_context_assembly_max_chars (c_projection_source_budget c)) source_scale
         (c_p0_min_projection_source_chars c);
     ps_recent_messages_limit :=
       scaled (ps_recent_messages_limit (c_projection_source_budget c)) source_scale 1;
     ps_recall_candidate_max_items :=
       scaled (ps_recall_candidate_max_items (c_projection_source_budget c)) source_scale 1 |}.

Definition compile_projection_render_budget (c : ProfileBudgetCeiling)
    (pressure_scale : N) (render_provider_cap : option N) : ProjectionRenderBudget :=
  let render_max :=
    scaled (pr_system_block_max_chars (c_projection_render_budget c)) pressure_scale
      (c_p0_min_projection_render_chars c) in
  {| pr_system_block_max_chars :=
       match render_provider_cap with
       | Some cap => N.min render_max cap
       | None => render_max
       end;
     pr_provider_prompt_max_chars := render_provider_cap |}.

Definition compile_maintenance_budget (c : ProfileBudgetCeiling) (source_scale : N)
    : MaintenanceBudget :=
  {| mb_user_input_max_chars :=
       scaled (mb_user_input_max_chars (c_maintenance_budget c)) source_scale
         (c_p0_min_maintenance_chars c);
     mb_user_input_max_bytes :=
       scaled (mb_user_input_max_bytes (c_maintenance_budget c)) source_scale
         (c_p0_min_maintenance_bytes c);
     mb_reply_input_max_chars :=
       scaled (mb_reply_input_max_chars (c_maintenance_budget c)) source_scale
         (c_p0_min_maintenance_chars c);
     mb_reply_input_max_bytes :=
       scaled (mb_reply_input_max_bytes (c_maintenance_budget c)) source_scale
         (c_p0_min_maintenance_bytes c) |}.

Definition compile_runtime_job_budget (c : ProfileBudgetCeiling) (source_scale : N)
    : RuntimeJobBudget :=
  {| rj_max_concurrent_jobs :=
       scaled (rj_max_concurrent_jobs (c_runtime_job_budget c)) source_scale 1;
     rj_max_background_jobs :=
       scaled (rj_max_background_jobs (c_runtime_job_budget c)) source_scale 1;
     rj_maintenance_batch_max_items :=
       scaled (rj_maintenance_batch_max_items (c_runtime_job_budget c)) source_scale 1 |}.

Definition compile_llm_gateway_budget (c : ProfileBudgetCeiling) (source_scale : N)
    (render : ProjectionRenderBudget) (projection : ProjectionSourceBudget)
    (maintenance : MaintenanceBudget) : LlmGatewayBudget :=
  {| lg_runtime_cache_max_runtimes :=
       scaled (lg_runtime_cache_max_runtimes (c_llm_gateway_budget c)) source_scale 1;
     lg_projection_render_max_chars :=
       pr_system_block_max_chars render;
     lg_recent_messages_limit := ps_recent_messages_limit projection;
     lg_maintenance_user_max_chars := mb_user_input_max_chars maintenance;
     lg_maintenance_reply_max_chars := mb_reply_input_max_chars maintenance;
     lg_buffered_json_max_bytes :=
       scaled (lg_buffered_json_max_bytes (c_llm_gateway_budget c)) source_scale
         (c_p0_min_http_body_bytes c);
     lg_stream_chunk_max_bytes :=
       scaled (lg_stream_chunk_max_bytes (c_llm_gateway_budget c)) source_scale
         (c_p0_min_http_body_bytes c);
     lg_stream_event_max_bytes :=
       scaled (lg_stream_event_max_bytes (c_llm_gateway_budget c)) source_scale
         (c_p0_min_http_body_bytes c);
     lg_stream_max_events :=
       scaled (lg_stream_max_events (c_llm_gateway_budget c)) source_scale 1;
     lg_response_body_max_bytes :=
       scaled (lg_response_body_max_bytes (c_llm_gateway_budget c)) source_scale
         (c_p0_min_http_body_bytes c) |}.

Definition compile_transcript_governance_budget (c : ProfileBudgetCeiling) (source_scale : N)
    : TranscriptGovernanceBudget :=
  {| tg_transcript_page_size :=
       scaled (tg_transcript_page_size (c_transcript_governance_budget c)) source_scale 1;
     tg_host_refs_per_turn :=
       scaled (tg_host_refs_per_turn (c_transcript_governance_budget c)) source_scale 1;
     tg_max_attrs_per_turn :=
       scaled (tg_max_attrs_per_turn (c_transcript_governance_budget c)) source_scale 1;
     tg_max_attrs_per_message :=
       scaled (tg_max_attrs_per_message (c_transcript_governance_budget c)) source_scale 1;
     tg_redaction_items_per_page :=
       scaled (tg_redaction_items_per_page (c_transcript_governance_budget c)) source_scale 1;
     tg_derived_refs_per_report :=
       scaled (tg_derived_refs_per_report (c_transcript_governance_budget c)) source_scale 1;
     tg_repair_issues_per_report :=
       scaled (tg_repair_issues_per_report (c_transcript_governance_budget c)) source_scale 1 |}.
