(* ===== verification/BudgetCompile.v ===== *)
(** * Runtime budgets: reports

    Model of [RuntimeBudgetReport] and of the functions of
    [crates/core/src/budget.rs] that build, seal, cap and check one:
    [compile_runtime_budget], [compile_evidence_document_budget],
    [finalize_runtime_budget_report_id], [apply_store_budget_ceiling],
    [validate_for_admission], and the quota views derived from a report.

    The JSON encoding of a report ([serde_json::to_vec]) and SHA-256 are
    parameters ([ReportCodec]). *)

From S2P Require Import Prelude RustStr Profile Resource Budget.
From stdpp Require Import sorting.

Local Open Scope string_scope.
Local Open Scope N_scope.

(** ** Evidence document budget *)

Definition MAX_EVIDENCE_DOCUMENT_FACET_LEXICAL_TERMS : N := 64.
Definition MAX_GOVERNED_EVIDENCE_DOCUMENT_BYTES : N := 256 * 1024.
Definition MAX_GOVERNED_EVIDENCE_DOCUMENT_BODY_BYTES : N := 256 * 1024.
Definition MAX_GOVERNED_EVIDENCE_DOCUMENT_CHUNK_BYTES : N := 32 * 1024.
Definition MAX_GOVERNED_EVIDENCE_DOCUMENT_CHUNKS : N := 64.

Definition EVIDENCE_DOCUMENT_KV_ENTRY_ENVELOPE_PER_DOCUMENT : N :=
  MAX_EVIDENCE_DOCUMENT_FACET_LEXICAL_TERMS + MAX_GOVERNED_EVIDENCE_DOCUMENT_CHUNKS + 1.

Definition compile_evidence_document_budget (memory_core : MemoryCoreBudget)
    (job : RuntimeJobBudget) (store : StoreRuntimeBudget)
    : EvidenceDocumentRuntimeBudget :=
  let max_total := sb_snapshot_max_bytes store / 2 in
  let max_document := N.min max_total MAX_GOVERNED_EVIDENCE_DOCUMENT_BYTES in
  let max_body := N.min max_document MAX_GOVERNED_EVIDENCE_DOCUMENT_BODY_BYTES in
  let max_documents :=
    N.max
      (N.min
         (N.min (rj_maintenance_batch_max_items job) (sb_event_log_max_items store))
         (sb_kv_max_entries store / EVIDENCE_DOCUMENT_KV_ENTRY_ENVELOPE_PER_DOCUMENT))
      1 in
  {| ed_max_document_bytes := max_document;
     ed_max_document_body_bytes := max_body;
     ed_max_chunk_bytes := N.min max_body MAX_GOVERNED_EVIDENCE_DOCUMENT_CHUNK_BYTES;
     ed_max_chunks_per_document :=
       N.min (mc_recall_working_set_max_items memory_core)
         MAX_GOVERNED_EVIDENCE_DOCUMENT_CHUNKS;
     ed_max_documents_per_transaction := max_documents;
     ed_max_documents_per_read := max_documents;
     ed_max_total_bytes_per_transaction := max_total |}.

(** ** Reports *)

Record ProviderModelContextLimit := mkProviderModelContextLimit {
  provider : option string;
  model : option string;
  max_context_tokens : option N;
  max_prompt_chars : option N;
}.

Record RuntimeBudgetInput := mkRuntimeBudgetInput {
  in_profile : ProfileId;
  in_resource_snapshot : RuntimeResourceSnapshot;
  in_static_platform_manifest : StaticPlatformManifest;
  in_provider_model_context_limit : option ProviderModelContextLimit;
}.

Record RuntimeBudgetReport := mkRuntimeBudgetReport {
  report_id : string;
  profile : ProfileId;
  deployment_target : TargetFeature;
  deployment_role : RoleFeature;
  store_medium : RuntimeStoreMedium;
  resource_snapshot : RuntimeResourceSnapshot;
  static_platform_manifest : StaticPlatformManifest;
  provider_model_context_limit : option ProviderModelContextLimit;
  memory_core_budget : MemoryCoreBudget;
  graph_expansion_budget : GraphExpansionRuntimeBudget;
  facet_recall_budget : FacetRecallRuntimeBudget;
  recall_delivery_budget : RecallDeliveryRuntimeBudget;
  governed_state_budget : GovernedStateRuntimeBudget;
  evidence_document_budget : EvidenceDocumentRuntimeBudget;
  store_budget : StoreRuntimeBudget;
  adapter_budget : AdapterRuntimeBudget;
  projection_source_budget : ProjectionSourceBudget;
  projection_render_budget : ProjectionRenderBudget;
  maintenance_budget : MaintenanceBudget;
  runtime_job_budget : RuntimeJobBudget;
  llm_gateway_budget : LlmGatewayBudget;
  transcript_governance_budget : TranscriptGovernanceBudget;
  limited_by : list string;
  unavailable_reasons : list string;
}.

Definition with_report_id (r : RuntimeBudgetReport) (id : string) : RuntimeBudgetReport :=
  let 'mkRuntimeBudgetReport _ a b c d e f g h i j k l m n o p q s t u v w x := r in
  mkRuntimeBudgetReport id a b c d e f g h i j k l m n o p q s t u v w x.

(** [report.store_budget = store], with the budget derived from it
    ([recompile_store_derived_budgets]) and the limits renewed. *)
Definition with_store_budget (r : RuntimeBudgetReport) (store : StoreRuntimeBudget)
    (limits : list string) : RuntimeBudgetReport :=
  let 'mkRuntimeBudgetReport id a b c d e f g mc i j k l _ _ o p q s rj u v _ x := r in
  mkRuntimeBudgetReport id a b c d e f g mc i j k l
    (compile_evidence_document_budget mc rj store) store o p q s rj u v limits x.

(** ** Sealing *)

(** [serde_json::to_vec] of a report and the hexadecimal SHA-256 of a byte
    sequence. *)
Class ReportCodec := {
  report_to_vec : RuntimeBudgetReport → list N;
  sha256_hex : list N → string;
}.

Fixpoint str_bytes (s : string) : list N :=
  match s with
  | EmptyString => []
  | String c s' => byte_of c :: str_bytes s'
  end.

(** [u64::to_le_bytes] *)
Fixpoint le_bytes (n : nat) (v : N) : list N :=
  match n with
  | O => []
  | S n' => v mod 256 :: le_bytes n' (v / 256)
  end.

Section Sealing.
Context {codec : ReportCodec}.

Definition finalize_runtime_budget_report_id (r : RuntimeBudgetReport)
    : RuntimeBudgetReport :=
  let cleared := with_report_id r "" in
  let payload := report_to_vec cleared in
  with_report_id cleared
    ("rtb-v2-" +:+ sha256_hex
       (str_bytes "beetle-memory:runtime-budget-report:v2"
        ++ le_bytes 8 (len payload) ++ payload)).

Definition validate_for_admission (r : RuntimeBudgetReport) (now_secs : N)
    : result unit :=
  let expected := finalize_runtime_budget_report_id r in
  if bool_decide (report_id expected ≠ report_id r) then
    Err (Config "runtime_budget_admission"
           "runtime budget report identity does not cover its payload")
  else if stale (observation (resource_snapshot r))
          || snap_is_expired (resource_snapshot r) now_secs then
    Err (Other "runtime_budget_admission" (Readmission StaleOrExpired))
  else Ok tt.

(** ** The compiler *)

(** The [limited_by] entries pushed before the budgets are computed. *)
Definition compile_limited_by (i : RuntimeBudgetInput) (mem_scale st_scale : N)
    (render_cap : option N) : list string :=
  let o := observation (in_resource_snapshot i) in
  (match unavailable_reason o with
   | Some _ => ["runtime_resource_snapshot_unavailable"] | None => [] end)
  ++ (if stale o then ["runtime_resource_snapshot_stale"] else [])
  ++ (if bool_decide (pressure o ≠ Normal)
      then ["resource_pressure:" +:+ pressure_as_str (pressure o)] else [])
  ++ (if mem_scale <? 100 then ["memory_scale:" +:+ pretty mem_scale] else [])
  ++ (if bool_decide (manifest_store_medium (in_static_platform_manifest i)
                      ≠ VolatileMemory) && (st_scale <? 100)
      then ["storage_scale:" +:+ pretty st_scale] else [])
  ++ (match render_cap with
      | Some _ => ["provider_model_context_limit"] | None => [] end).

Definition store_scale_for (medium : RuntimeStoreMedium) (mem st pres : N) : N :=
  match medium with
  | VolatileMemory => N.min mem pres
  | PersistentFilesystem => N.min st pres
  | EmbeddedFlash => N.min (N.min mem st) pres
  end.

Definition compile_runtime_budget (i : RuntimeBudgetInput) : RuntimeBudgetReport :=
  let ceiling := profile_budget_ceiling (in_profile i) in
  let snapshot := in_resource_snapshot i in
  let manifest := in_static_platform_manifest i in
  let mem := memory_scale snapshot manifest in
  let st := storage_scale snapshot manifest in
  let pres := pressure_scale (pressure (observation snapshot)) in
  let source_scale := N.min mem pres in
  let store_scale := store_scale_for (manifest_store_medium manifest) mem st pres in
  let render_provider_cap :=
    limit ← in_provider_model_context_limit i; max_prompt_chars limit in
  let memory_core := compile_memory_core_budget ceiling source_scale in
  let store := compile_store_budget ceiling store_scale in
  let projection_source := compile_projection_source_budget ceiling source_scale in
  let render := compile_projection_render_budget ceiling pres render_provider_cap in
  let maintenance := compile_maintenance_budget ceiling source_scale in
  let job := compile_runtime_job_budget ceiling source_scale in
  finalize_runtime_budget_report_id
    {| report_id := "";
       profile := in_profile i;
       deployment_target := target (in_profile i);
       deployment_role := role (in_profile i);
       store_medium := manifest_store_medium manifest;
       resource_snapshot := snapshot;
       static_platform_manifest := manifest;
       provider_model_context_limit := in_provider_model_context_limit i;
       memory_core_budget := memory_core;
       graph_expansion_budget := compile_graph_expansion_budget ceiling source_scale;
       facet_recall_budget := compile_facet_recall_budget ceiling source_scale;
       recall_delivery_budget := compile_recall_delivery_budget ceiling source_scale;
       governed_state_budget := compile_governed_state_budget ceiling source_scale;
       evidence_document_budget := compile_evidence_document_budget memory_core job store;
       store_budget := store;
       adapter_budget := compile_adapter_budget ceiling source_scale;
       projection_source_budget := projection_source;
       projection_render_budget := render;
       maintenance_budget := maintenance;
       runtime_job_budget := job;
       llm_gateway_budget :=
         compile_llm_gateway_budget ceiling source_scale render projection_source maintenance;
       transcript_governance_budget :=
         compile_transcript_governance_budget ceiling source_scale;
       limited_by := compile_limited_by i mem st render_provider_cap;
       unavailable_reasons :=
         match unavailable_reason (observation snapshot) with
         | Some reason => [reason_as_str reason] | None => [] end |}.

(** ** Store ceilings *)

Definition min_store_budget (l r : StoreRuntimeBudget) : StoreRuntimeBudget :=
  {| sb_metric_source_max_items := N.min (sb_metric_source_max_items l) (sb_metric_source_max_items r);
     sb_event_log_max_items := N.min (sb_event_log_max_items l) (sb_event_log_max_items r);
     sb_kv_max_entries := N.min (sb_kv_max_entries l) (sb_kv_max_entries r);
     sb_blob_max_bytes := N.min (sb_blob_max_bytes l) (sb_blob_max_bytes r);
     sb_snapshot_max_bytes := N.min (sb_snapshot_max_bytes l) (sb_snapshot_max_bytes r);
     sb_logical_namespace_max_bytes :=
       N.min (sb_logical_namespace_max_bytes l) (sb_logical_namespace_max_bytes r);
     sb_logical_key_max_bytes := N.min (sb_logical_key_max_bytes l) (sb_logical_key_max_bytes r);
     sb_event_record_key_max_bytes :=
       N.min (sb_event_record_key_max_bytes l) (sb_event_record_key_max_bytes r);
     sb_export_max_bytes := N.min (sb_export_max_bytes l) (sb_export_max_bytes r);
     sb_import_max_bytes := N.min (sb_import_max_bytes l) (sb_import_max_bytes r) |}.

(** [Vec::sort] on strings (byte-wise lexicographic order) and [Vec::dedup]. *)
Definition str_le (a b : string) : Prop := Is_true (String.leb a b).
#[global] Instance str_le_dec : RelDecision str_le.
Proof. intros a b. unfold str_le. apply _. Defined.

Definition sort_strings : list string → list string := merge_sort str_le.

Fixpoint dedup (l : list string) : list string :=
  match l with
  | a :: (b :: _) as l' => if decide (a = b) then dedup l' else a :: dedup l'
  | _ => l
  end.

Definition apply_store_budget_ceiling (r : RuntimeBudgetReport)
    (ceiling : StoreRuntimeBudget) (label : string) : RuntimeBudgetReport :=
  let constrained := min_store_budget (store_budget r) ceiling in
  if bool_decide (constrained ≠ store_budget r) then
    finalize_runtime_budget_report_id
      (with_store_budget r constrained
         (dedup (sort_strings (limited_by r ++ [label]))))
  else r.

(** [compile_authority_report] in a production build. *)
Definition compile_authority_report (p : ProfileId) (manifest : StaticPlatformManifest)
    (limit : option ProviderModelContextLimit) (snapshot : RuntimeResourceSnapshot)
    (admission_store_ceiling : option StoreRuntimeBudget) : RuntimeBudgetReport :=
  let report := compile_runtime_budget
    {| in_profile := p; in_resource_snapshot := snapshot;
       in_static_platform_manifest := manifest;
       in_provider_model_context_limit := limit |} in
  match admission_store_ceiling with
  | Some ceiling => apply_store_budget_ceiling report ceiling "runtime_store_admission_ceiling"
  | None => report
  end.

End Sealing.

(** ** Views of a report *)

Definition projection_render_chars_for_request (r : RuntimeBudgetReport)
    (request_system_max_len : N) (provider_limit : option ProviderModelContextLimit) : N :=
  let limit := pr_system_block_max_chars (projection_render_budget r) in
  let limit :=
    if 0 <? request_system_max_len then N.min limit request_system_max_len else limit in
  let limit :=
    match provider_limit with
    | Some pl =>
        match max_prompt_chars pl with Some m => N.min limit m | None => limit end
    | None => limit
    end in
  N.max limit 1.

Definition query_budget (b : TranscriptGovernanceBudget) : TranscriptQueryBudget :=
  {| tq_result_page_size := N.max (tg_transcript_page_size b) 1;
     tq_query_max_bytes := 1024;
     tq_query_max_chars := 512;
     tq_query_max_terms := 24;
     tq_candidate_hydration_limit :=
       N.max (saturating_mul (tg_transcript_page_size b) 32) 32;
     tq_excerpt_max_chars := 220;
     tq_activity_bucket_limit := 42;
     tq_activity_total_span_max_secs := 32 * 86400 |}.

Record RuntimeRetentionQuotaReport := mkRuntimeRetentionQuotaReport {
  rq_owner : string;
  rq_session_transcript_max_recent_turns : N;
  rq_session_summary_refresh_after_turns : N;
  rq_long_term_quota : string * N;
  rq_archive_quota : string * N;
  rq_procedural_quota : string * N;
  rq_private_garden_quota : string * N;
  rq_store_snapshot_max_bytes : N;
  rq_compact_when_pressure : bool;
  rq_receipts_automatic_eviction : bool;
  rq_receipts_durable_json_entries_per_operation : N;
  rq_receipts_durable_events_per_operation : N;
  rq_migration_import_pressure_report : bool;
  rq_host_direct_deletion_allowed : option bool;
  rq_fail_closed_repair : bool;
}.

(** The single-variant policies of the receipt quota
    ([PinnedUntilCapacity], [FailClosed]) carry no information. *)
Definition retention_quota_report (r : RuntimeBudgetReport) : RuntimeRetentionQuotaReport :=
  let max_records := N.max (mc_profile_max_records (memory_core_budget r)) 1 in
  let recent_turns :=
    N.max (saturating_mul (ps_recent_messages_limit (projection_source_budget r)) 2) 1 in
  {| rq_owner := "sdk.runtime";
     rq_session_transcript_max_recent_turns := recent_turns;
     rq_session_summary_refresh_after_turns :=
       N.max (rj_maintenance_batch_max_items (runtime_job_budget r)) 1;
     rq_long_term_quota := ("long_term", max_records);
     rq_archive_quota := ("archive", max_records / 2);
     rq_procedural_quota := ("procedural", N.max (sb_kv_max_entries (store_budget r)) 1);
     rq_private_garden_quota := ("private_garden", max_records / 4);
     rq_store_snapshot_max_bytes := sb_snapshot_max_bytes (store_budget r);
     rq_compact_when_pressure := negb (bool_decide (limited_by r = []));
     rq_receipts_automatic_eviction := false;
     rq_receipts_durable_json_entries_per_operation := 2;
     rq_receipts_durable_events_per_operation := 2;
     rq_migration_import_pressure_report := true;
     rq_host_direct_deletion_allowed := None;
     rq_fail_closed_repair := true |}.
