(* ===== verification/BudgetFacts.v ===== *)
(** * Runtime budgets: bounds

    Order and bounds of the compiled budgets: every compiled limit lies
    between its floor and the ceiling of its profile, grows no larger under
    pressure, and the evidence-document budget fits the store it derives
    from. *)

From S2P Require Import Prelude RustStr Profile Resource Budget BudgetCompile.

Local Open Scope string_scope.
Local Open Scope N_scope.

(** ** The numeric limits of each budget, in declaration order *)

Definition memory_core_fields (b : MemoryCoreBudget) : list N :=
  [mc_profile_max_records b; mc_recall_working_set_max_items b;
   mc_long_term_scan_max_items b].

Definition graph_expansion_fields (b : GraphExpansionRuntimeBudget) : list N :=
  [ge_max_hops b; ge_max_seed_candidates b; ge_max_expanded_candidates b;
   ge_max_neighbors_per_candidate b; ge_max_graph_nodes_loaded b;
   ge_max_graph_edges_loaded b; ge_max_backlinks_loaded b;
   ge_compact_graph_node_limit b; ge_compact_graph_edge_limit b].

Definition facet_recall_fields (b : FacetRecallRuntimeBudget) : list N :=
  [fr_max_query_facets b; fr_max_facet_index_docs_read b;
   fr_max_facet_anchor_candidates b; fr_max_facet_expanded_candidates b].

Definition recall_delivery_fields (b : RecallDeliveryRuntimeBudget) : list N :=
  [rd_max_selected_candidates b; rd_max_rendered_capsules b; rd_max_capsule_chars b;
   rd_max_loss_ledger_entries b].

Definition governed_state_fields (b : GovernedStateRuntimeBudget) : list N :=
  [gs_max_validity_joins b; gs_max_lineage_depth b;
   gs_max_retained_long_term_revisions_per_owner b;
   gs_max_retained_runtime_skill_owners_per_scope b;
   gs_max_runtime_skill_lineage_depth b;
   gs_max_agent_tool_experience_owners_per_subject b;
   gs_max_agent_tool_experience_revisions_per_owner b;
   gs_max_agent_tool_experience_evidence_refs_per_owner b; gs_max_as_of_candidates b;
   gs_max_obsolete_decisions b; gs_max_procedural_candidates b;
   gs_max_premises_per_skill b; gs_max_premise_evidence_reads b;
   gs_max_state_transitions_per_write b; gs_max_subject_soul_manifest_entries b;
   gs_max_subject_soul_revisions_per_generation b;
   gs_max_subject_soul_generation_tombstones b;
   gs_max_subject_soul_transaction_mutations b].

Definition store_fields (b : StoreRuntimeBudget) : list N :=
  [sb_metric_source_max_items b; sb_event_log_max_items b; sb_kv_max_entries b;
   sb_blob_max_bytes b; sb_snapshot_max_bytes b; sb_logical_namespace_max_bytes b;
   sb_logical_key_max_bytes b; sb_event_record_key_max_bytes b; sb_export_max_bytes b;
   sb_import_max_bytes b].

Definition adapter_fields (b : AdapterRuntimeBudget) : list N :=
  [ab_http_header_max_bytes b; ab_http_body_max_bytes b; ab_wss_frame_max_bytes b;
   ab_wss_max_subscriptions b; ab_wss_session_max_frames b].

Definition projection_source_fields (b : ProjectionSourceBudget) : list N :=
  [ps_context_assembly_max_chars b; ps_recent_messages_limit b;
   ps_recall_candidate_max_items b].

Definition maintenance_fields (b : MaintenanceBudget) : list N :=
  [mb_user_input_max_chars b; mb_user_input_max_bytes b; mb_reply_input_max_chars b;
   mb_reply_input_max_bytes b].

Definition runtime_job_fields (b : RuntimeJobBudget) : list N :=
  [rj_max_concurrent_jobs b; rj_max_background_jobs b;
   rj_maintenance_batch_max_items b].

Definition llm_gateway_fields (b : LlmGatewayBudget) : list N :=
  [lg_runtime_cache_max_runtimes b; lg_buffered_json_max_bytes b;
   lg_stream_chunk_max_bytes b; lg_stream_event_max_bytes b; lg_stream_max_events b;
   lg_response_body_max_bytes b].

Definition transcript_governance_fields (b : TranscriptGovernanceBudget) : list N :=
  [tg_transcript_page_size b; tg_host_refs_per_turn b; tg_max_attrs_per_turn b;
   tg_max_attrs_per_message b; tg_redaction_items_per_page b;
   tg_derived_refs_per_report b; tg_repair_issues_per_report b].

(** All limits of a report, and of a profile ceiling.  The gateway limits that
    are copies of render, projection and maintenance limits, and the render
    limit, which a provider cap may lower below its floor, are left out. *)
Definition report_fields (r : RuntimeBudgetReport) : list N :=
  memory_core_fields (memory_core_budget r)
  ++ graph_expansion_fields (graph_expansion_budget r)
  ++ facet_recall_fields (facet_recall_budget r)
  ++ recall_delivery_fields (recall_delivery_budget r)
  ++ governed_state_fields (governed_state_budget r)
  ++ store_fields (store_budget r)
  ++ adapter_fields (adapter_budget r)
  ++ projection_source_fields (projection_source_budget r)
  ++ maintenance_fields (maintenance_budget r)
  ++ runtime_job_fields (runtime_job_budget r)
  ++ transcript_governance_fields (transcript_governance_budget r)
  ++ llm_gateway_fields (llm_gateway_budget r).

Definition ceiling_fields (c : ProfileBudgetCeiling) : list N :=
  memory_core_fields (c_memory_core_budget c)
  ++ graph_expansion_fields (c_graph_expansion_budget c)
  ++ facet_recall_fields (c_facet_recall_budget c)
  ++ recall_delivery_fields (c_recall_delivery_budget c)
  ++ governed_state_fields (c_governed_state_budget c)
  ++ store_fields (c_store_budget c)
  ++ adapter_fields (c_adapter_budget c)
  ++ projection_source_fields (c_projection_source_budget c)
  ++ maintenance_fields (c_maintenance_budget c)
  ++ runtime_job_fields (c_runtime_job_budget c)
  ++ transcript_governance_fields (c_transcript_governance_budget c)
  ++ llm_gateway_fields (c_llm_gateway_budget c).

(** ** Scaling lemmas *)

Lemma scale_usize_le v s : s ≤ 100 → scale_usize v s ≤ v.
Proof.
  intros Hs. unfold scale_usize, saturating_mul.
  apply N.Div0.div_le_upper_bound. nia.
Qed.

Lemma scale_usize_mono v s s' : s ≤ s' → scale_usize v s ≤ scale_usize v s'.
Proof.
  intros Hs. unfold scale_usize, saturating_mul. apply N.Div0.div_le_mono. nia.
Qed.

Lemma scaled_le v s f : s ≤ 100 → f ≤ v → scaled v s f ≤ v.
Proof. intros Hs Hf. unfold scaled. pose proof (scale_usize_le v s Hs). lia. Qed.

Lemma scaled_mono v s s' f : s ≤ s' → scaled v s f ≤ scaled v s' f.
Proof. intros Hs. unfold scaled. pose proof (scale_usize_mono v s s' Hs). lia. Qed.

Lemma scaled_pos v s f : 1 ≤ f → 1 ≤ scaled v s f.
Proof. unfold scaled. lia. Qed.

#[export] Hint Resolve scaled_mono scaled_pos : beetle.

Lemma pressure_scale_le p : pressure_scale p ≤ 100.
Proof. by destruct p. Qed.

Lemma pressure_scale_antitone p q :
  pressure_rank p ≤ pressure_rank q → pressure_scale q ≤ pressure_scale p.
Proof. destruct p, q; cbn; lia. Qed.

Lemma memory_scale_le s m : memory_scale s m ≤ 100.
Proof. unfold memory_scale. repeat case_match; lia. Qed.

Lemma storage_scale_le s m : storage_scale s m ≤ 100.
Proof. unfold storage_scale. repeat case_match; lia. Qed.

Lemma store_scale_for_le medium mem st pres :
  pres ≤ 100 → store_scale_for medium mem st pres ≤ 100.
Proof. destruct medium; cbn; lia. Qed.

Lemma store_scale_for_mono medium mem st pres pres' :
  pres ≤ pres' → store_scale_for medium mem st pres ≤ store_scale_for medium mem st pres'.
Proof. destruct medium; cbn; lia. Qed.

(** ** Per-budget bounds

    [field_bounds] closes one bound per limit of a compiled budget: a scaled
    limit by [scaled_le] with its floor checked by evaluation, an unscaled
    limit by evaluation. *)
Ltac field_le :=
  first
    [ apply scaled_le; [assumption | vm_compute; discriminate]

    | vm_compute; discriminate
    | apply N.le_refl ].
Ltac field_bounds :=
  repeat (apply Forall2_cons_2; [field_le|]); apply Forall2_nil_2.
Ltac field_pos :=
  repeat (apply Forall_cons_2; [first [apply scaled_pos; vm_compute; discriminate
                                      | vm_compute; discriminate]|]);
  apply Forall_nil_2.

Section Bounds.
Context (p : ProfileId) (s : N) (Hs : s ≤ 100).
Local Abbreviation c := (profile_budget_ceiling p).
Local Notation "a ⊑ b" := (Forall2 N.le a b) (at level 70).

Lemma memory_core_le :
  memory_core_fields (compile_memory_core_budget c s) ⊑ memory_core_fields (c_memory_core_budget c).
Proof. destruct p; field_bounds. Qed.
Lemma graph_expansion_le :
  graph_expansion_fields (compile_graph_expansion_budget c s)
  ⊑ graph_expansion_fields (c_graph_expansion_budget c).
Proof. destruct p; field_bounds. Qed.
Lemma facet_recall_le :
  facet_recall_fields (compile_facet_recall_budget c s) ⊑ facet_recall_fields (c_facet_recall_budget c).
Proof. destruct p; field_bounds. Qed.
Lemma recall_delivery_le :
  recall_delivery_fields (compile_recall_delivery_budget c s)
  ⊑ recall_delivery_fields (c_recall_delivery_budget c).
Proof. destruct p; field_bounds. Qed.
Lemma governed_state_le :
  governed_state_fields (compile_governed_state_budget c s)
  ⊑ governed_state_fields (c_governed_state_budget c).
Proof. destruct p; field_bounds. Qed.
Lemma store_le :
  store_fields (compile_store_budget c s) ⊑ store_fields (c_store_budget c).
Proof. destruct p; field_bounds. Qed.
Lemma adapter_le :
  adapter_fields (compile_adapter_budget c s) ⊑ adapter_fields (c_adapter_budget c).
Proof. destruct p; field_bounds. Qed.
Lemma projection_source_le :
  projection_source_fields (compile_projection_source_budget c s)
  ⊑ projection_source_fields (c_projection_source_budget c).
Proof. destruct p; field_bounds. Qed.
Lemma maintenance_le :
  maintenance_fields (compile_maintenance_budget c s) ⊑ maintenance_fields (c_maintenance_budget c).
Proof. destruct p; field_bounds. Qed.
Lemma runtime_job_le :
  runtime_job_fields (compile_runtime_job_budget c s) ⊑ runtime_job_fields (c_runtime_job_budget c).
Proof. destruct p; field_bounds. Qed.
Lemma transcript_governance_le :
  transcript_governance_fields (compile_transcript_governance_budget c s)
  ⊑ transcript_governance_fields (c_transcript_governance_budget c).
Proof. destruct p; field_bounds. Qed.
Lemma llm_gateway_le r ps mb :
  llm_gateway_fields (compile_llm_gateway_budget c s r ps mb)
  ⊑ llm_gateway_fields (c_llm_gateway_budget c).
Proof. destruct p; field_bounds. Qed.

End Bounds.

Ltac field_mono :=
  repeat (apply Forall2_cons_2;
          [first [apply scaled_mono; assumption | apply N.le_refl]|]);
  apply Forall2_nil_2.

(** ** Per-budget monotonicity in the scale *)
Section Monotone.
Context (c : ProfileBudgetCeiling) (s s' : N) (Hs : s ≤ s').
Local Notation "a ⊑ b" := (Forall2 N.le a b) (at level 70).

Lemma memory_core_mono :
  memory_core_fields (compile_memory_core_budget c s)
  ⊑ memory_core_fields (compile_memory_core_budget c s').
Proof. field_mono. Qed.
Lemma graph_expansion_mono :
  graph_expansion_fields (compile_graph_expansion_budget c s)
  ⊑ graph_expansion_fields (compile_graph_expansion_budget c s').
Proof. field_mono. Qed.
Lemma facet_recall_mono :
  facet_recall_fields (compile_facet_recall_budget c s)
  ⊑ facet_recall_fields (compile_facet_recall_budget c s').
Proof. field_mono. Qed.
Lemma recall_delivery_mono :
  recall_delivery_fields (compile_recall_delivery_budget c s)
  ⊑ recall_delivery_fields (compile_recall_delivery_budget c s').
Proof. field_mono. Qed.
Lemma governed_state_mono :
  governed_state_fields (compile_governed_state_budget c s)
  ⊑ governed_state_fields (compile_governed_state_budget c s').
Proof. field_mono. Qed.
Lemma store_mono :
  store_fields (compile_store_budget c s)
  ⊑ store_fields (compile_store_budget c s').
Proof. field_mono. Qed.
Lemma adapter_mono :
  adapter_fields (compile_adapter_budget c s)
  ⊑ adapter_fields (compile_adapter_budget c s').
Proof. field_mono. Qed.
Lemma projection_source_mono :
  projection_source_fields (compile_projection_source_budget c s)
  ⊑ projection_source_fields (compile_projection_source_budget c s').
Proof. field_mono. Qed.
Lemma maintenance_mono :
  maintenance_fields (compile_maintenance_budget c s)
  ⊑ maintenance_fields (compile_maintenance_budget c s').
Proof. field_mono. Qed.
Lemma runtime_job_mono :
  runtime_job_fields (compile_runtime_job_budget c s)
  ⊑ runtime_job_fields (compile_runtime_job_budget c s').
Proof. field_mono. Qed.
Lemma transcript_governance_mono :
  transcript_governance_fields (compile_transcript_governance_budget c s)
  ⊑ transcript_governance_fields (compile_transcript_governance_budget c s').
Proof. field_mono. Qed.
Lemma llm_gateway_mono r ps mb r' ps' mb' :
  llm_gateway_fields (compile_llm_gateway_budget c s r ps mb)
  ⊑ llm_gateway_fields (compile_llm_gateway_budget c s' r' ps' mb').
Proof. field_mono. Qed.

End Monotone.

Lemma report_fields_pos {codec : ReportCodec} i :
  Forall (λ x, 1 ≤ x) (report_fields (compile_runtime_budget i)).
Proof.
  unfold report_fields. rewrite !Forall_app. destruct i as [p snap man lim]; cbn.
  repeat split; destruct p; field_pos.
Qed.

(** The scales used by the compiler. *)
Definition source_scale_of (i : RuntimeBudgetInput) : N :=
  N.min (memory_scale (in_resource_snapshot i) (in_static_platform_manifest i))
    (pressure_scale (pressure (observation (in_resource_snapshot i)))).
Definition store_scale_of (i : RuntimeBudgetInput) : N :=
  store_scale_for (manifest_store_medium (in_static_platform_manifest i))
    (memory_scale (in_resource_snapshot i) (in_static_platform_manifest i))
    (storage_scale (in_resource_snapshot i) (in_static_platform_manifest i))
    (pressure_scale (pressure (observation (in_resource_snapshot i)))).

Lemma source_scale_of_le i : source_scale_of i ≤ 100.
Proof.
  unfold source_scale_of.
  pose proof (pressure_scale_le (pressure (observation (in_resource_snapshot i)))). lia.
Qed.
Lemma store_scale_of_le i : store_scale_of i ≤ 100.
Proof. apply store_scale_for_le, pressure_scale_le. Qed.

Lemma store_scale_of_ge i : 35 ≤ store_scale_of i.
Proof.
  unfold store_scale_of, store_scale_for, memory_scale, storage_scale, pressure_scale.
  repeat case_match; lia.
Qed.

(** ** Store budget order *)

Definition store_budget_le (a b : StoreRuntimeBudget) : Prop :=
  Forall2 N.le (store_fields a) (store_fields b).

#[export] Instance store_budget_le_preorder : PreOrder store_budget_le.
Proof.
  split.
  - intros a. unfold store_budget_le. reflexivity.
  - intros a b c. unfold store_budget_le. intros H1 H2. by transitivity (store_fields b).
Qed.

Ltac store_fields_split H :=
  unfold store_budget_le, store_fields in H; rewrite !Forall2_cons_iff in H;
  destruct_and! H.

Lemma min_store_budget_le_l a b : store_budget_le (min_store_budget a b) a.
Proof. repeat (apply Forall2_cons_2; [apply N.le_min_l|]). apply Forall2_nil_2. Qed.

Lemma min_store_budget_le_r a b : store_budget_le (min_store_budget a b) b.
Proof. repeat (apply Forall2_cons_2; [apply N.le_min_r|]). apply Forall2_nil_2. Qed.

(** ** Evidence documents *)

(** The documents a report admits per transaction fit the entries and events of
    its store, one exact read covers a transaction, and the byte limits nest. *)
Definition evidence_closed (r : RuntimeBudgetReport) : Prop :=
  let e := evidence_document_budget r in
  let s := store_budget r in
  1 ≤ ed_max_documents_per_transaction e
  ∧ ed_max_documents_per_transaction e
      * EVIDENCE_DOCUMENT_KV_ENTRY_ENVELOPE_PER_DOCUMENT ≤ sb_kv_max_entries s
  ∧ ed_max_documents_per_transaction e ≤ sb_event_log_max_items s
  ∧ ed_max_documents_per_read e = ed_max_documents_per_transaction e
  ∧ ed_max_chunk_bytes e ≤ ed_max_document_body_bytes e
  ∧ ed_max_document_body_bytes e ≤ ed_max_document_bytes e
  ∧ ed_max_document_bytes e ≤ ed_max_total_bytes_per_transaction e
  ∧ 2 * ed_max_total_bytes_per_transaction e ≤ sb_snapshot_max_bytes s.

Lemma evidence_budget_closed mc rj s :
  EVIDENCE_DOCUMENT_KV_ENTRY_ENVELOPE_PER_DOCUMENT ≤ sb_kv_max_entries s →
  1 ≤ sb_event_log_max_items s →
  let e := compile_evidence_document_budget mc rj s in
  1 ≤ ed_max_documents_per_transaction e
  ∧ ed_max_documents_per_transaction e
      * EVIDENCE_DOCUMENT_KV_ENTRY_ENVELOPE_PER_DOCUMENT ≤ sb_kv_max_entries s
  ∧ ed_max_documents_per_transaction e ≤ sb_event_log_max_items s
  ∧ ed_max_documents_per_read e = ed_max_documents_per_transaction e
  ∧ ed_max_chunk_bytes e ≤ ed_max_document_body_bytes e
  ∧ ed_max_document_body_bytes e ≤ ed_max_document_bytes e
  ∧ ed_max_document_bytes e ≤ ed_max_total_bytes_per_transaction e
  ∧ 2 * ed_max_total_bytes_per_transaction e ≤ sb_snapshot_max_bytes s.
Proof.
  intros Hkv Hev e. subst e.
  change EVIDENCE_DOCUMENT_KV_ENTRY_ENVELOPE_PER_DOCUMENT with 129 in *.
  pose proof (N.Div0.mul_div_le (sb_kv_max_entries s) 129) as Hq.
  pose proof (N.Div0.mul_div_le (sb_snapshot_max_bytes s) 2) as Hh.
  assert (1 ≤ sb_kv_max_entries s / 129) by (apply N.div_le_lower_bound; lia).
  unfold compile_evidence_document_budget; cbn -[N.mul N.div N.min N.max].
  change EVIDENCE_DOCUMENT_KV_ENTRY_ENVELOPE_PER_DOCUMENT with 129 in *.
  repeat split; lia.
Qed.

Section Properties.
Context {codec : ReportCodec}.

(** ** Sealing *)

(** A report whose identifier covers its payload. *)
Definition sealed (r : RuntimeBudgetReport) : Prop :=
  report_id (finalize_runtime_budget_report_id r) = report_id r.

Lemma finalize_sealed r : sealed (finalize_runtime_budget_report_id r).
Proof. by destruct r. Qed.

Lemma compile_sealed i : sealed (compile_runtime_budget i).
Proof. apply finalize_sealed. Qed.

Lemma apply_ceiling_sealed r c label :
  sealed r → sealed (apply_store_budget_ceiling r c label).
Proof.
  intros Hr. unfold apply_store_budget_ceiling.
  case_bool_decide; [apply finalize_sealed | done].
Qed.

Lemma apply_ceiling_store_budget r c label :
  store_budget (apply_store_budget_ceiling r c label)
  = min_store_budget (store_budget r) c.
Proof.
  unfold apply_store_budget_ceiling. case_bool_decide as Heq.
  - by destruct r.
  - by destruct (decide (min_store_budget (store_budget r) c = store_budget r)).
Qed.

Lemma apply_ceiling_snapshot r c label :
  resource_snapshot (apply_store_budget_ceiling r c label) = resource_snapshot r.
Proof. unfold apply_store_budget_ceiling. case_bool_decide; by destruct r. Qed.

(** A report keeps its evidence budget closed as long as its store holds one
    document envelope and one event. *)
Lemma apply_ceiling_evidence_closed r c label :
  evidence_closed r →
  EVIDENCE_DOCUMENT_KV_ENTRY_ENVELOPE_PER_DOCUMENT
    ≤ sb_kv_max_entries (min_store_budget (store_budget r) c) →
  1 ≤ sb_event_log_max_items (min_store_budget (store_budget r) c) →
  evidence_closed (apply_store_budget_ceiling r c label).
Proof.
  intros Hr Hkv Hev. unfold apply_store_budget_ceiling. case_bool_decide; [|done].
  destruct r. apply (evidence_budget_closed _ _ _ Hkv Hev).
Qed.

Lemma compiled_store_floor i :
  EVIDENCE_DOCUMENT_KV_ENTRY_ENVELOPE_PER_DOCUMENT
    ≤ sb_kv_max_entries (store_budget (compile_runtime_budget i))
  ∧ 1 ≤ sb_event_log_max_items (store_budget (compile_runtime_budget i)).
Proof.
  split.
  - change (129 ≤ scaled (sb_kv_max_entries
      (c_store_budget (profile_budget_ceiling (in_profile i)))) (store_scale_of i) 64).
    etransitivity; [|apply (scaled_mono _ _ _ _ (store_scale_of_ge i))].
    destruct (in_profile i); vm_compute; discriminate.
  - apply scaled_pos. vm_compute. discriminate.
Qed.

Lemma compiled_evidence_closed i : evidence_closed (compile_runtime_budget i).
Proof.
  destruct (compiled_store_floor i) as [Hkv Hev].
  exact (evidence_budget_closed _ _ _ Hkv Hev).
Qed.

(** Every limit of a compiled report is at least one and at most the ceiling
    of its profile, whatever the snapshot, the manifest and the provider
    limit say. *)
Theorem compiled_limits_within_profile (i : RuntimeBudgetInput) :
  Forall (λ x, 1 ≤ x) (report_fields (compile_runtime_budget i))
  ∧ Forall2 N.le (report_fields (compile_runtime_budget i))
      (ceiling_fields (profile_budget_ceiling (in_profile i))).
Proof.
  split; [apply report_fields_pos|].
  unfold report_fields, ceiling_fields.
  repeat apply Forall2_app;
    first
      [ apply memory_core_le | apply graph_expansion_le | apply facet_recall_le
      | apply recall_delivery_le | apply governed_state_le | apply store_le
      | apply adapter_le | apply projection_source_le | apply maintenance_le
      | apply runtime_job_le | apply transcript_governance_le | apply llm_gateway_le ];
    first [ apply (source_scale_of_le i) | apply (store_scale_of_le i) ].
Qed.

(** The same input under another pressure level. *)
Definition under_pressure (i : RuntimeBudgetInput) (q : PressureLevel)
    : RuntimeBudgetInput :=
  let 'mkObservation a b c _ e f g h j k l m n o r t u :=
    observation (in_resource_snapshot i) in
  {| in_profile := in_profile i;
     in_resource_snapshot :=
       {| source := source (in_resource_snapshot i);
          observation := mkObservation a b c q e f g h j k l m n o r t u |};
     in_static_platform_manifest := in_static_platform_manifest i;
     in_provider_model_context_limit := in_provider_model_context_limit i |}.

(** Pressure never enlarges a budget: with everything else equal, no limit of
    a report compiled under higher pressure exceeds the same limit under lower
    pressure, the render limit included. *)
Theorem pressure_never_enlarges_budgets i q q' :
  pressure_rank q ≤ pressure_rank q' →
  let low := compile_runtime_budget (under_pressure i q) in
  let high := compile_runtime_budget (under_pressure i q') in
  Forall2 N.le (report_fields high) (report_fields low)
  ∧ pr_system_block_max_chars (projection_render_budget high)
    ≤ pr_system_block_max_chars (projection_render_budget low).
Proof.
  intros Hq%pressure_scale_antitone low high. subst low high.
  destruct i as [p [src []] m l].
  match goal with |- context [compile_runtime_budget (under_pressure ?i q)] =>
    assert (Hsrc : source_scale_of (under_pressure i q')
                   ≤ source_scale_of (under_pressure i q))
      by (unfold source_scale_of, memory_scale; cbn; lia);
    assert (Hst : store_scale_of (under_pressure i q')
                  ≤ store_scale_of (under_pressure i q))
      by (unfold store_scale_of; by apply store_scale_for_mono)
  end.
  split.
  - unfold report_fields.
    repeat apply Forall2_app;
      first
        [ apply memory_core_mono | apply graph_expansion_mono | apply facet_recall_mono
        | apply recall_delivery_mono | apply governed_state_mono | apply store_mono
        | apply adapter_mono | apply projection_source_mono | apply maintenance_mono
        | apply runtime_job_mono | apply transcript_governance_mono
        | apply llm_gateway_mono ]; assumption.
  - cbn.
    pose proof (scaled_mono (pr_system_block_max_chars
      (c_projection_render_budget (profile_budget_ceiling p))) _ _
      (c_p0_min_projection_render_chars (profile_budget_ceiling p)) Hq).
    cbn in *. destruct (mbind _ l); lia.
Qed.

(** The render allowance of a request is positive and never above the report's
    limit, the requested length, or the provider's limit (where they ask for
    at least one character). *)
Theorem render_chars_bounded r request_len limit :
  let chars := projection_render_chars_for_request r request_len limit in
  1 ≤ chars
  ∧ chars ≤ N.max 1 (pr_system_block_max_chars (projection_render_budget r))
  ∧ (request_len = 0 ∨ chars ≤ request_len)
  ∧ match limit with
    | Some l => match max_prompt_chars l with Some m => chars ≤ N.max 1 m | None => True end
    | None => True
    end.
Proof.
  unfold projection_render_chars_for_request.
  destruct (0 <? request_len) eqn:E; split_bool;
    destruct limit as [[a b c [m|]]|]; cbn; lia.
Qed.

End Properties.
