(* ===== verification/BudgetAuthority.v ===== *)
(** * Runtime budget authority

    Model of [RuntimeBudgetAuthority] of [crates/core/src/budget.rs]: opening
    an authority, reading its current report (with automatic refresh when the
    cached snapshot is stale, expired or past its monotonic deadline) and
    refreshing it explicitly.  [refresh_guard] serialises refreshes and the
    state is replaced under a write lock, so an execution is a sequence of
    atomic steps.  The probe answers and both clocks are the environment of
    each step. *)

From S2P Require Import Prelude Errors RustStr Profile Resource Budget BudgetCompile BudgetFacts.
From stdpp Require Import sorting.

Local Open Scope string_scope.
Local Open Scope N_scope.

(** ** Configuration checks *)

Definition target_accepts_source (t : TargetFeature) (s : RuntimeResourceProbeSource) : bool :=
  match t, s with
  | Esp, FirmwareManifest
  | LinuxDevice, HostLinux
  | DesktopMacos, HostMacos
  | DesktopLinux, HostLinux
  | DesktopWindows, HostWindows
  | ServerLinux, HostLinux => true
  | _, _ => false
  end.

(** [harness] is the compile-time feature [nonproduction-replay-harness]. *)
Definition validate_authority_configuration (harness : bool) (p : ProfileId)
    (manifest : StaticPlatformManifest) (reg : RuntimeResourceProbeRegistration)
    : result unit :=
  let stage := "runtime_budget_authority_config" in
  _ ← ensure (bool_decide (manifest_profile manifest = p))
        (Config stage "manifest_profile_mismatch");
  _ ← ensure (bool_decide (manifest_deployment_target manifest = target p))
        (Config stage "manifest_deployment_target_mismatch");
  _ ← ensure (bool_decide (manifest_deployment_role manifest = role p))
        (Config stage "manifest_deployment_role_mismatch");
  _ ← ensure (negb (bool_decide (role p = DevFull) && negb harness))
        (Config stage "dev_full_requires_nonproduction_replay_harness");
  let source := attested_source reg in
  _ ← ensure (target_accepts_source (target p) source)
        (Config stage ("deployment_target_source_mismatch:target="
           +:+ target_as_str (target p) +:+ ":source=" +:+ source_as_str source));
  match source, host_storage_observation reg, manifest_store_medium manifest with
  | FirmwareManifest, None, (VolatileMemory | EmbeddedFlash)
  | (HostMacos | HostLinux | HostWindows | HostOther),
      Some VolatileObservation, VolatileMemory
  | (HostMacos | HostLinux | HostWindows | HostOther),
      Some PersistentObservation, PersistentFilesystem => Ok tt
  | _, _, _ => Err (Config stage "store_medium_probe_registration_mismatch")
  end.

Definition resource_snapshot_error (message : string) : Error :=
  Config "runtime_budget_resource_snapshot" message.

Definition is_some {A} (o : option A) : bool := match o with Some _ => true | None => false end.

(** [let (Some(a), Some(b), Some(c)) = t else { return Err(incomplete) }; ...] *)
Definition with_three (a b c : option N) (incomplete : Error)
    (k : N → N → N → result unit) : result unit :=
  match a, b, c with
  | Some a, Some b, Some c => k a b c
  | _, _, _ => Err incomplete
  end.

Definition with_two (a b : option N) (incomplete : Error)
    (k : N → N → result unit) : result unit :=
  match a, b with
  | Some a, Some b => k a b
  | _, _ => Err incomplete
  end.

Definition validate_esp_resource_snapshot (s : RuntimeResourceSnapshot) : result unit :=
  let o := observation s in
  _ ← ensure (negb (is_some (memory_total_bytes o) || is_some (memory_available_bytes o)))
        (resource_snapshot_error "esp_snapshot_contains_host_memory");
  _ ← ensure (negb (is_some (unavailable_reason o) && is_some (available_parallelism o)))
        (resource_snapshot_error "esp_unavailable_snapshot_contains_cpu_fact");
  _ ← (if negb (is_some (unavailable_reason o))
          || is_some (internal_heap_free_bytes o)
          || is_some (internal_heap_minimum_free_bytes o)
          || is_some (internal_heap_largest_block_bytes o)
       then with_three (internal_heap_free_bytes o) (internal_heap_minimum_free_bytes o)
              (internal_heap_largest_block_bytes o)
              (resource_snapshot_error "esp_internal_heap_facts_incomplete")
              (λ free minimum_free largest_block,
                 ensure (negb ((free <? minimum_free) || (free <? largest_block)))
                   (resource_snapshot_error "esp_internal_heap_relationship_invalid"))
       else Ok tt);
  _ ← (if is_some (psram_total_bytes o) || is_some (psram_free_bytes o)
          || is_some (psram_largest_block_bytes o)
       then with_three (psram_total_bytes o) (psram_free_bytes o)
              (psram_largest_block_bytes o)
              (resource_snapshot_error "esp_psram_facts_incomplete")
              (λ total free largest_block,
                 ensure (negb ((total <? free) || (free <? largest_block)))
                   (resource_snapshot_error "esp_psram_relationship_invalid"))
       else Ok tt);
  if negb (is_some (unavailable_reason o)) || is_some (storage_total_bytes o)
     || is_some (storage_available_bytes o)
  then with_two (storage_total_bytes o) (storage_available_bytes o)
         (resource_snapshot_error "esp_storage_facts_incomplete")
         (λ total available,
            ensure (negb (total <? available))
              (resource_snapshot_error "esp_storage_relationship_invalid"))
  else Ok tt.

Definition validate_host_resource_snapshot (s : RuntimeResourceSnapshot)
    (medium : RuntimeStoreMedium) : result unit :=
  let o := observation s in
  _ ← ensure (negb (is_some (internal_heap_free_bytes o)
                    || is_some (internal_heap_minimum_free_bytes o)
                    || is_some (internal_heap_largest_block_bytes o)
                    || is_some (psram_total_bytes o)
                    || is_some (psram_free_bytes o)
                    || is_some (psram_largest_block_bytes o)))
        (resource_snapshot_error "host_snapshot_contains_firmware_memory");
  _ ← match memory_total_bytes o, memory_available_bytes o with
      | Some total, Some available =>
          ensure (negb (total <? available))
            (resource_snapshot_error "host_memory_relationship_invalid")
      | _, _ => Ok tt
      end;
  if bool_decide (medium = PersistentFilesystem)
     && (negb (is_some (unavailable_reason o)) || is_some (storage_total_bytes o)
         || is_some (storage_available_bytes o))
  then with_two (storage_total_bytes o) (storage_available_bytes o)
         (resource_snapshot_error "host_storage_facts_incomplete")
         (λ total available,
            ensure (negb (total <? available))
              (resource_snapshot_error "host_storage_relationship_invalid"))
  else Ok tt.

Definition validate_authority_snapshot (p : ProfileId)
    (attested : RuntimeResourceProbeSource) (medium : RuntimeStoreMedium)
    (s : RuntimeResourceSnapshot) (now_secs : N) : result unit :=
  let o := observation s in
  let stage := "runtime_budget_resource_snapshot" in
  _ ← ensure (negb (ttl_ms o =? 0)) (Config stage "snapshot_ttl_must_be_nonzero");
  _ ← ensure (negb (now_secs <? observed_at_unix_secs o))
        (Config stage "snapshot_observed_at_is_in_the_future");
  _ ← ensure (negb (stale o)) (Config stage "probe_returned_stale_snapshot");
  _ ← ensure (bool_decide (source s = attested))
        (Config "runtime_budget_resource_source"
           ("snapshot_source_mismatch:expected=" +:+ source_as_str attested
            +:+ ":actual=" +:+ source_as_str (source s)));
  if decide (target p = Esp) then validate_esp_resource_snapshot s
  else validate_host_resource_snapshot s medium.

(** ** The authority *)

Record RuntimeBudgetAuthority := {
  a_profile : ProfileId;
  a_manifest : StaticPlatformManifest;
  a_limit : option ProviderModelContextLimit;
  a_registration : RuntimeResourceProbeRegistration;
  admission_store_ceiling : StoreRuntimeBudget;
}.

Record RuntimeBudgetAuthorityState := {
  resource_cache : RuntimeResourceSnapshotCache;
  state_report : RuntimeBudgetReport;
}.

(** What an operation observes of its environment: wall clock, monotonic
    clock, and the answer of the probe if it is asked. *)
Record Env := {
  now_secs : N;
  now_instant : N;
  probe_answer : result RuntimeResourceObservation;
}.

Section Authority.
Context {codec : ReportCodec} (instant_max : N).

Definition probe_failed (e : Error) : Error :=
  Config "runtime_budget_resource_probe" ("probe_failed:" +:+ error_display e).

Definition map_err {A} (f : Error → Error) (r : result A) : result A :=
  match r with Ok a => Ok a | Err e => Err (f e) end.

Definition new_with_mode (harness : bool) (p : ProfileId)
    (manifest : StaticPlatformManifest) (limit : option ProviderModelContextLimit)
    (reg : RuntimeResourceProbeRegistration) (env : Env)
    : result (RuntimeBudgetAuthority * RuntimeBudgetAuthorityState) :=
  _ ← validate_authority_configuration harness p manifest reg;
  snapshot ← map_err probe_failed (probe_snapshot reg (probe_answer env));
  _ ← validate_authority_snapshot p (attested_source reg)
        (manifest_store_medium manifest) snapshot (now_secs env);
  let report := compile_authority_report p manifest limit snapshot None in
  Ok ({| a_profile := p; a_manifest := manifest; a_limit := limit;
         a_registration := reg; admission_store_ceiling := store_budget report |},
      {| resource_cache := cache_new instant_max snapshot (now_instant env);
         state_report := report |}).

Definition compile_report (a : RuntimeBudgetAuthority) (s : RuntimeResourceSnapshot)
    : RuntimeBudgetReport :=
  compile_authority_report (a_profile a) (a_manifest a) (a_limit a) s
    (Some (admission_store_ceiling a)).

Definition replace_state (st : RuntimeBudgetAuthorityState) (env : Env)
    (s : RuntimeResourceSnapshot) (r : RuntimeBudgetReport) : RuntimeBudgetAuthorityState :=
  {| resource_cache := cache_replace instant_max (resource_cache st) s (now_instant env);
     state_report := r |}.

Definition probe_validated (a : RuntimeBudgetAuthority) (env : Env)
    (on_probe_error : Error → Error) : result RuntimeResourceSnapshot :=
  s ← map_err on_probe_error (probe_snapshot (a_registration a) (probe_answer env));
  _ ← validate_authority_snapshot (a_profile a) (attested_source (a_registration a))
        (manifest_store_medium (a_manifest a)) s (now_secs env);
  Ok s.

Definition current_report (a : RuntimeBudgetAuthority) (st : RuntimeBudgetAuthorityState)
    (env : Env) : RuntimeBudgetReport * RuntimeBudgetAuthorityState :=
  if negb (requires_refresh (resource_cache st) (now_secs env) (now_instant env))
  then (state_report st, st)
  else
    let snapshot :=
      match probe_validated a env id with
      | Ok s => s
      | Err e =>
          snap_with_unavailable_detail
            (snap_unavailable (now_secs env) (attested_source (a_registration a)) ProbeFailed)
            ("automatic_refresh_failed:" +:+ error_display e)
      end in
    let report := compile_report a snapshot in
    (report, replace_state st env snapshot report).

Definition current_snapshot (a : RuntimeBudgetAuthority) (st : RuntimeBudgetAuthorityState)
    (env : Env) : RuntimeResourceSnapshot * RuntimeBudgetAuthorityState :=
  let '(r, st') := current_report a st env in (resource_snapshot r, st').

Definition refresh (a : RuntimeBudgetAuthority) (st : RuntimeBudgetAuthorityState)
    (env : Env) : result RuntimeBudgetReport * RuntimeBudgetAuthorityState :=
  match probe_validated a env probe_failed with
  | Err e => (Err e, st)
  | Ok snapshot =>
      let report := compile_report a snapshot in
      (Ok report, replace_state st env snapshot report)
  end.

(** ** Executions *)

Inductive authority_step (a : RuntimeBudgetAuthority)
    : RuntimeBudgetAuthorityState → RuntimeBudgetAuthorityState → Prop :=
| step_current st env : authority_step a st (current_report a st env).2
| step_refresh st env : authority_step a st (refresh a st env).2.

Definition opened (a : RuntimeBudgetAuthority) (st : RuntimeBudgetAuthorityState) : Prop :=
  ∃ harness p manifest limit reg env,
    new_with_mode harness p manifest limit reg env = Ok (a, st).

Definition authority_reachable (a : RuntimeBudgetAuthority)
    (st : RuntimeBudgetAuthorityState) : Prop :=
  ∃ st0, opened a st0 ∧ rtc (authority_step a) st0 st.

(** ** Invariant *)

(** A report an authority may publish: sealed, within the ceiling fixed at
    opening, with its evidence budget closed. *)
Record publishable (a : RuntimeBudgetAuthority) (r : RuntimeBudgetReport) : Prop := {
  pub_sealed : sealed r;
  pub_ceiling : store_budget_le (store_budget r) (admission_store_ceiling a);
  pub_evidence : evidence_closed r;
}.

Record ceiling_ok (a : RuntimeBudgetAuthority) : Prop := {
  ceiling_kv : EVIDENCE_DOCUMENT_KV_ENTRY_ENVELOPE_PER_DOCUMENT
               ≤ sb_kv_max_entries (admission_store_ceiling a);
  ceiling_events : 1 ≤ sb_event_log_max_items (admission_store_ceiling a);
}.

Record authority_inv (a : RuntimeBudgetAuthority) (st : RuntimeBudgetAuthorityState) : Prop := {
  inv_publishable : publishable a (state_report st);
  inv_snapshot : resource_snapshot (state_report st) = cache_snapshot (resource_cache st);
}.

Lemma compile_report_publishable a s : ceiling_ok a → publishable a (compile_report a s).
Proof.
  intros [Hkv Hev]. unfold compile_report, compile_authority_report.
  match goal with |- context [compile_runtime_budget ?i] => set (r := compile_runtime_budget i);
    assert (Hfloor := compiled_store_floor i); assert (Hclosed := compiled_evidence_closed i);
    assert (Hsealed := compile_sealed i) end.
  fold r in Hfloor, Hclosed, Hsealed. destruct Hfloor as [Hk He]. clearbody r.
  split.
  - by apply apply_ceiling_sealed.
  - rewrite apply_ceiling_store_budget. apply min_store_budget_le_r.
  - apply apply_ceiling_evidence_closed; [done|..]; cbn; lia.
Qed.

Lemma compile_report_snapshot a s : resource_snapshot (compile_report a s) = s.
Proof. unfold compile_report, compile_authority_report. by rewrite apply_ceiling_snapshot. Qed.

Lemma replace_state_inv a st env s :
  ceiling_ok a → authority_inv a (replace_state st env s (compile_report a s)).
Proof.
  intros Hc. split; cbn; [by apply compile_report_publishable | apply compile_report_snapshot].
Qed.

Lemma opened_inv a st : opened a st → ceiling_ok a ∧ authority_inv a st.
Proof.
  intros (harness & p & manifest & limit & reg & env & H). unfold new_with_mode in H.
  inv_ok.
  match goal with |- context [compile_runtime_budget ?i] =>
    destruct (compiled_store_floor i) as [Hk He];
    split; [by split|]; split; [split; cbn|done];
    [apply (compile_sealed i) | reflexivity | apply (compiled_evidence_closed i)]
  end.
Qed.

Lemma step_inv a st st' :
  ceiling_ok a → authority_inv a st → authority_step a st st' → authority_inv a st'.
Proof.
  intros Hc Hi Hs. destruct Hs.
  - unfold current_report. destruct (negb _); [done|]. by apply replace_state_inv.
  - unfold refresh. destruct (probe_validated _ _ _); [|done]. by apply replace_state_inv.
Qed.

Lemma authority_reachable_inv a st :
  authority_reachable a st → ceiling_ok a ∧ authority_inv a st.
Proof.
  intros (st0 & [Hc Hi]%opened_inv & Hsteps). split; [done|].
  induction Hsteps as [|x y z Hxy _ IH]; [done|]. apply IH. by eapply step_inv.
Qed.

Lemma current_report_publishable a st env :
  authority_reachable a st → publishable a (current_report a st env).1.
Proof.
  intros [Hc Hi]%authority_reachable_inv. unfold current_report.
  destruct (negb _); [apply Hi | by apply compile_report_publishable].
Qed.

Lemma dedup_elem x l : x ∈ dedup l ↔ x ∈ l.
Proof.
  induction l as [|a l IH]; [done|].
  destruct l as [|b l]; [done|].
  change (dedup (a :: b :: l)) with
    (if decide (a = b) then dedup (b :: l) else a :: dedup (b :: l)).
  destruct (decide (a = b)) as [->|].
  - rewrite IH, !elem_of_cons. tauto.
  - rewrite elem_of_cons, IH, (elem_of_cons (b :: l)). tauto.
Qed.

Lemma sort_strings_elem x l : x ∈ sort_strings l ↔ x ∈ l.
Proof. unfold sort_strings. by rewrite (merge_sort_Permutation str_le l). Qed.

Lemma apply_ceiling_limited_by r c label x :
  x ∈ limited_by r → x ∈ limited_by (apply_store_budget_ceiling r c label).
Proof.
  intros Hx. unfold apply_store_budget_ceiling. case_bool_decide; [|done].
  destruct r; cbn in *. rewrite dedup_elem, sort_strings_elem. set_solver.
Qed.

Lemma probe_validated_Ok a env f s :
  probe_validated a env f = Ok s →
  ∃ o, probe_answer env = Ok o
    ∧ s = {| source := attested_source (a_registration a); observation := o |}
    ∧ stale o = false ∧ observed_at_unix_secs o ≤ now_secs env.
Proof.
  unfold probe_validated, probe_snapshot. intros H.
  destruct (probe_answer env) as [o|e]; cbn in H; [|done].
  unfold validate_authority_snapshot in H. inv_ok. split_bool.
  exists o; cbn in *; repeat split; done || lia.
Qed.

(** ** Properties *)

(** C28: Whatever the probe answers and however the clocks move, every report an
    opened authority publishes is sealed (its identifier covers its payload),
    never grants the store more than the ceiling fixed when the authority was
    opened, and admits only evidence transactions its store can hold; a failed
    refresh publishes nothing and leaves the authority as it was. *)
Theorem authority_reports_publishable a st env :
  authority_reachable a st →
  publishable a (current_report a st env).1
  ∧ match refresh a st env with
    | (Ok r, st') => publishable a r ∧ state_report st' = r
    | (Err _, st') => st' = st
    end.
Proof.
  intros Hr. split; [by apply current_report_publishable|].
  apply authority_reachable_inv in Hr as [Hc Hi].
  unfold refresh. destruct (probe_validated _ _ _); [|done].
  split; [by apply compile_report_publishable | done].
Qed.

(** The report read at a time is admissible at that time, except when the probe
    itself answered with an already expired observation; it is never refused
    for its identity. *)
Theorem current_report_admissible a st env :
  authority_reachable a st →
  match validate_for_admission (current_report a st env).1 (now_secs env) with
  | Ok _ => True
  | Err e =>
      e = Other "runtime_budget_admission" (Readmission StaleOrExpired)
      ∧ ∃ o, probe_answer env = Ok o ∧ obs_is_expired o (now_secs env) = true
  end.
Proof.
  intros Hr.
  pose proof (pub_sealed _ _ (current_report_publishable a st env Hr)) as Hs.
  apply authority_reachable_inv in Hr as [_ Hi].
  unfold validate_for_admission. rewrite bool_decide_eq_false_2 by (unfold sealed in Hs; congruence).
  clear Hs. unfold current_report.
  destruct (requires_refresh _ _ _) eqn:Hreq; cbn [negb fst].
  - rewrite compile_report_snapshot.
    destruct (probe_validated a env id) as [s|e] eqn:Hp.
    + apply probe_validated_Ok in Hp as (o & Ho & -> & Hst & Hle). cbn. rewrite Hst. cbn.
      unfold snap_is_expired; cbn. destruct (obs_is_expired _ _) eqn:He; [|done]. eauto.
    + cbn. unfold snap_is_expired, obs_is_expired; cbn.
      rewrite N.ltb_irrefl. replace (now_secs env - now_secs env) with 0 by lia. done.
  - rewrite (inv_snapshot _ _ Hi). unfold requires_refresh in Hreq. split_bool.
    by destruct (stale _), (snap_is_expired _ _).
Qed.

(** When the snapshot must be renewed and the probe fails or answers something
    invalid, the authority falls back to a restricted report: it is marked as
    unavailable, keeps the failure, and grants the store at most 60 percent of
    its profile ceiling (or the floors). *)
Theorem failed_refresh_restricts a st env e :
  requires_refresh (resource_cache st) (now_secs env) (now_instant env) = true →
  probe_validated a env id = Err e →
  let r := (current_report a st env).1 in
  unavailable_reason (observation (resource_snapshot r)) = Some ProbeFailed
  ∧ "runtime_resource_snapshot_unavailable" ∈ limited_by r
  ∧ store_budget_le (store_budget r)
      (compile_store_budget (profile_budget_ceiling (a_profile a)) 60).
Proof.
  intros Hreq Hp r. subst r. unfold current_report. rewrite Hreq, Hp. cbn [negb fst].
  rewrite compile_report_snapshot. split; [done|].
  unfold compile_report, compile_authority_report. split.
  - apply apply_ceiling_limited_by. cbn. set_solver.
  - rewrite apply_ceiling_store_budget.
    etransitivity; [apply min_store_budget_le_l|].
    unfold store_budget_le. apply store_mono. cbn.
    unfold store_scale_for, storage_scale, memory_scale; cbn.
    destruct (manifest_store_medium (a_manifest a)); lia.
Qed.

End Authority.

(** ** Witnesses *)

Module AuthoritySamples.

(** A codec for evaluation: any functions will do. *)
#[local] Instance sample_codec : ReportCodec :=
  {| report_to_vec := λ r, [sb_kv_max_entries (store_budget r)];
     sha256_hex := λ l, pretty (foldr N.add 0 l) |}.

Definition sample_manifest : StaticPlatformManifest :=
  manifest_for_profile DesktopLinuxEmbeddedSdk VolatileMemory.

Definition sample_env (now : N) (answer : result RuntimeResourceObservation) : Env :=
  {| now_secs := now; now_instant := now * 1000; probe_answer := answer |}.

Definition sample_answer (now : N) : result RuntimeResourceObservation :=
  Ok (host_probe {| hf_memory := (Some (16384 * MB), Some (8192 * MB));
                    hf_storage := (None, None); hf_parallelism := Some 8 |} now None).

Definition sample_open :=
  new_with_mode u64_max false DesktopLinuxEmbeddedSdk sample_manifest None
    (host HostLinux None) (sample_env 100 (sample_answer 100)).

Definition sample_authority : RuntimeBudgetAuthority :=
  Eval vm_compute in
  match sample_open with
  | Ok (a, _) => a
  | Err _ => {| a_profile := DesktopLinuxEmbeddedSdk; a_manifest := sample_manifest;
                a_limit := None; a_registration := host HostLinux None;
                admission_store_ceiling :=
                  compile_store_budget (profile_budget_ceiling DesktopLinuxEmbeddedSdk) 100 |}
  end.

Definition sample_state : RuntimeBudgetAuthorityState :=
  match sample_open with
  | Ok (_, st) => st
  | Err _ =>
      {| resource_cache := cache_new 0 (snap_unavailable 0 HostLinux ProbeFailed) 0;
         state_report := compile_report sample_authority (snap_unavailable 0 HostLinux ProbeFailed) |}
  end.

Lemma authority_sample_reachable : authority_reachable u64_max sample_authority sample_state.
Proof.
  exists sample_state. split; [|apply rtc_refl].
  exists false, DesktopLinuxEmbeddedSdk, sample_manifest, None, (host HostLinux None),
    (sample_env 100 (sample_answer 100)).
  vm_compute. reflexivity.
Defined.

Definition late_env : Env := sample_env 200 (Err (Config "probe" "unreadable")).

Lemma authority_reports_publishable_witness :
  authority_reachable u64_max sample_authority sample_state
  ∧ publishable sample_authority (current_report u64_max sample_authority sample_state late_env).1.
Proof.
  split; [exact authority_sample_reachable|].
  exact (proj1 (authority_reports_publishable u64_max _ _ late_env authority_sample_reachable)).
Defined.

Lemma current_report_admissible_witness :
  let r := (current_report u64_max sample_authority sample_state late_env).1 in
  validate_for_admission r 200 = Ok tt
  ∧ match validate_for_admission r 200 with
    | Ok _ => True
    | Err e =>
        e = Other "runtime_budget_admission" (Readmission StaleOrExpired)
        ∧ ∃ o, probe_answer late_env = Ok o ∧ obs_is_expired o 200 = true
    end.
Proof.
  split; [vm_compute; reflexivity|].
  exact (current_report_admissible u64_max _ _ late_env authority_sample_reachable).
Defined.

Lemma failed_refresh_restricts_witness :
  "runtime_resource_snapshot_unavailable"
  ∈ limited_by (current_report u64_max sample_authority sample_state late_env).1.
Proof.
  refine (proj1 (proj2 (failed_refresh_restricts u64_max sample_authority sample_state late_env
                          (Config "probe" "unreadable") _ _)));
    vm_compute; reflexivity.
Defined.

Definition sample_input : RuntimeBudgetInput :=
  {| in_profile := DesktopLinuxEmbeddedSdk;
     in_resource_snapshot := snap_unavailable 100 HostLinux ProbeNotConfigured;
     in_static_platform_manifest := sample_manifest;
     in_provider_model_context_limit := None |}.

Lemma pressure_never_enlarges_budgets_witness :
  pressure_rank Normal ≤ pressure_rank Critical
  ∧ let low := compile_runtime_budget (under_pressure sample_input Normal) in
    let high := compile_runtime_budget (under_pressure sample_input Critical) in
    Forall2 N.le (report_fields high) (report_fields low)
    ∧ pr_system_block_max_chars (projection_render_budget high)
      ≤ pr_system_block_max_chars (projection_render_budget low).
Proof.
  assert (H : pressure_rank Normal ≤ pressure_rank Critical) by (vm_compute; discriminate).
  split; [exact H|]. exact (pressure_never_enlarges_budgets sample_input Normal Critical H).
Defined.

End AuthoritySamples.
