(* ===== verification/StoreTypes.v ===== *)
(** * Store kernel: data

    The types of the store kernel ([crates/sdk/src/store_internal]): capacities
    ([config.rs]), events ([event.rs]), mutations and preconditions
    ([mutation.rs], [transaction.rs]), and the transaction request with its
    private read set ([transaction.rs]).

    JSON documents are values of [serde_json::Value]; the third-party encoders
    and hashers are the class [StoreCodec].  Maps keyed by
    [(namespace, key)] are [gmap]s; where the code iterates a [BTreeMap] or a
    [BTreeSet], the model iterates in the same (lexicographic) order. *)

From S2P Require Import Prelude RustStr Profile Resource Budget BudgetCompile.
From stdpp Require Import sorting.
From Stdlib Require Export Strings.Byte.

Local Open Scope string_scope.
Local Open Scope N_scope.

Abbreviation bytes := (list byte).
Abbreviation address := (string * string)%type.

(** ** Capacities ([config.rs]) *)

Inductive StoreBackendKind := BInMemory | BFile | BSqlite | BEmbedded.

Definition backend_as_str (b : StoreBackendKind) : string :=
  match b with
  | BInMemory => "in_memory" | BFile => "file"
  | BSqlite => "sqlite" | BEmbedded => "embedded"
  end.

Record StoreCapacityBudget := {
  metric_source_max_items : N;
  event_log_max_items : N;
  kv_max_entries : N;
  blob_max_bytes : N;
  snapshot_max_bytes : N;
  logical_namespace_max_bytes : N;
  logical_key_max_bytes : N;
  event_record_key_max_bytes : N;
  export_max_bytes : N;
  import_max_bytes : N;
}.

#[global] Instance capacity_eq_dec : EqDecision StoreCapacityBudget.
Proof. solve_decision. Defined.

Definition from_runtime_budget (b : StoreRuntimeBudget) : StoreCapacityBudget :=
  {| metric_source_max_items := sb_metric_source_max_items b;
     event_log_max_items := sb_event_log_max_items b;
     kv_max_entries := sb_kv_max_entries b;
     blob_max_bytes := sb_blob_max_bytes b;
     snapshot_max_bytes := sb_snapshot_max_bytes b;
     logical_namespace_max_bytes := sb_logical_namespace_max_bytes b;
     logical_key_max_bytes := sb_logical_key_max_bytes b;
     event_record_key_max_bytes := sb_event_record_key_max_bytes b;
     export_max_bytes := sb_export_max_bytes b;
     import_max_bytes := sb_import_max_bytes b |}.

Definition into_runtime_budget (c : StoreCapacityBudget) : StoreRuntimeBudget :=
  {| sb_metric_source_max_items := metric_source_max_items c;
     sb_event_log_max_items := event_log_max_items c;
     sb_kv_max_entries := kv_max_entries c;
     sb_blob_max_bytes := blob_max_bytes c;
     sb_snapshot_max_bytes := snapshot_max_bytes c;
     sb_logical_namespace_max_bytes := logical_namespace_max_bytes c;
     sb_logical_key_max_bytes := logical_key_max_bytes c;
     sb_event_record_key_max_bytes := event_record_key_max_bytes c;
     sb_export_max_bytes := export_max_bytes c;
     sb_import_max_bytes := import_max_bytes c |}.

Definition admits_runtime_budget (c : StoreCapacityBudget) (b : StoreRuntimeBudget) : bool :=
  (sb_metric_source_max_items b <=? metric_source_max_items c)
  && (sb_event_log_max_items b <=? event_log_max_items c)
  && (sb_kv_max_entries b <=? kv_max_entries c)
  && (sb_blob_max_bytes b <=? blob_max_bytes c)
  && (sb_snapshot_max_bytes b <=? snapshot_max_bytes c)
  && (sb_logical_namespace_max_bytes b <=? logical_namespace_max_bytes c)
  && (sb_logical_key_max_bytes b <=? logical_key_max_bytes c)
  && (sb_event_record_key_max_bytes b <=? event_record_key_max_bytes c)
  && (sb_export_max_bytes b <=? export_max_bytes c)
  && (sb_import_max_bytes b <=? import_max_bytes c).

Definition full_capacity : StoreCapacityBudget :=
  {| metric_source_max_items := 8; event_log_max_items := 20000;
     kv_max_entries := 20000; blob_max_bytes := 64 * 1024 * 1024;
     snapshot_max_bytes := 32 * 1024 * 1024; logical_namespace_max_bytes := 128;
     logical_key_max_bytes := 8192; event_record_key_max_bytes := 8192;
     export_max_bytes := 32 * 1024 * 1024; import_max_bytes := 32 * 1024 * 1024 |}.

Definition embedded_standalone_capacity : StoreCapacityBudget :=
  {| metric_source_max_items := 1; event_log_max_items := 2048;
     kv_max_entries := 4096; blob_max_bytes := 4 * 1024 * 1024;
     snapshot_max_bytes := 1024 * 1024; logical_namespace_max_bytes := 96;
     logical_key_max_bytes := 1024; event_record_key_max_bytes := 1024;
     export_max_bytes := 1024 * 1024; import_max_bytes := 1024 * 1024 |}.

Definition embedded_sdk_capacity : StoreCapacityBudget :=
  {| metric_source_max_items := 1; event_log_max_items := 256;
     kv_max_entries := 512; blob_max_bytes := 1024 * 1024;
     snapshot_max_bytes := 256 * 1024; logical_namespace_max_bytes := 96;
     logical_key_max_bytes := 512; event_record_key_max_bytes := 512;
     export_max_bytes := 256 * 1024; import_max_bytes := 256 * 1024 |}.

Definition store_budget_error (message : string) : Error :=
  Config "store_budget_exceeded" message.

Definition enforce_logical_key_budget (capacity : StoreCapacityBudget)
    (namespace key label : string) : result unit :=
  _ ← ensure (str_len namespace <=? logical_namespace_max_bytes capacity)
        (store_budget_error (label +:+ " namespace bytes " +:+ pretty (str_len namespace)
           +:+ " exceed " +:+ pretty (logical_namespace_max_bytes capacity)));
  ensure (str_len key <=? logical_key_max_bytes capacity)
    (store_budget_error (label +:+ " logical key bytes " +:+ pretty (str_len key)
       +:+ " exceed " +:+ pretty (logical_key_max_bytes capacity))).

(** ** Events ([event.rs]) *)

Definition STORE_SCHEMA_VERSION : N := 17.

Inductive MemoryStoreEventKind :=
| MemoryWrite | MemoryMerge | MemoryControl | MemoryDelete | MemoryPolicy
| MemoryMaintenance | MemoryProjection | RuntimeLifecycle | OperatorAction.

#[global] Instance event_kind_eq_dec : EqDecision MemoryStoreEventKind.
Proof. solve_decision. Defined.

Definition kind_as_str (k : MemoryStoreEventKind) : string :=
  match k with
  | MemoryWrite => "memory.write"
  | MemoryMerge => "memory.merge"
  | MemoryControl => "memory.control"
  | MemoryDelete => "memory.delete"
  | MemoryPolicy => "memory.policy"
  | MemoryMaintenance => "memory.maintenance"
  | MemoryProjection => "memory.projection"
  | RuntimeLifecycle => "runtime.lifecycle"
  | OperatorAction => "operator.action"
  end.

Inductive StorePhysicalOwningScope :=
| ScopeSubject (mounted_subject_id : string)
| ScopeSharedProgram.

#[global] Instance owning_scope_eq_dec : EqDecision StorePhysicalOwningScope.
Proof. solve_decision. Defined.

Record StoreEventScope := {
  scope_agent_id : string;
  scope_owner_id : string;
  scope_channel : string;
  scope_chat_id : string;
  scope_memory_space_id : string;
  scope_subject_id : string;
  scope_physical : StorePhysicalOwningScope;
  scope_conversation_id : option string;
}.

#[global] Instance event_scope_eq_dec : EqDecision StoreEventScope.
Proof. solve_decision. Defined.

Definition scope_new (agent_id owner_id channel chat_id : string) : StoreEventScope :=
  {| scope_agent_id := agent_id; scope_owner_id := owner_id;
     scope_channel := channel; scope_chat_id := chat_id;
     scope_memory_space_id := owner_id; scope_subject_id := owner_id;
     scope_physical := ScopeSubject owner_id; scope_conversation_id := None |}.

Definition scope_system (operation : string) : StoreEventScope :=
  {| scope_agent_id := "system"; scope_owner_id := "system";
     scope_channel := "runtime"; scope_chat_id := operation;
     scope_memory_space_id := "system"; scope_subject_id := "system";
     scope_physical := ScopeSubject "system"; scope_conversation_id := None |}.

Definition scope_with_memory_space (s : StoreEventScope) (id : string) : StoreEventScope :=
  {| scope_agent_id := scope_agent_id s; scope_owner_id := scope_owner_id s;
     scope_channel := scope_channel s; scope_chat_id := scope_chat_id s;
     scope_memory_space_id := id; scope_subject_id := scope_subject_id s;
     scope_physical := scope_physical s;
     scope_conversation_id := scope_conversation_id s |}.

Definition scope_with_subject (s : StoreEventScope) (id : string) : StoreEventScope :=
  {| scope_agent_id := scope_agent_id s; scope_owner_id := scope_owner_id s;
     scope_channel := scope_channel s; scope_chat_id := scope_chat_id s;
     scope_memory_space_id := scope_memory_space_id s; scope_subject_id := id;
     scope_physical := ScopeSubject id;
     scope_conversation_id := scope_conversation_id s |}.

Definition scope_with_shared_program (s : StoreEventScope) : StoreEventScope :=
  {| scope_agent_id := scope_agent_id s; scope_owner_id := scope_owner_id s;
     scope_channel := scope_channel s; scope_chat_id := scope_chat_id s;
     scope_memory_space_id := scope_memory_space_id s;
     scope_subject_id := scope_subject_id s; scope_physical := ScopeSharedProgram;
     scope_conversation_id := scope_conversation_id s |}.

Definition scope_with_conversation (s : StoreEventScope) (id : string) : StoreEventScope :=
  {| scope_agent_id := scope_agent_id s; scope_owner_id := scope_owner_id s;
     scope_channel := scope_channel s; scope_chat_id := scope_chat_id s;
     scope_memory_space_id := scope_memory_space_id s;
     scope_subject_id := scope_subject_id s; scope_physical := scope_physical s;
     scope_conversation_id := Some id |}.

Record MemoryStoreEvent := {
  event_id : string;
  event_kind : MemoryStoreEventKind;
  event_kind_name : string;
  event_scope : StoreEventScope;
  event_plane : string;
  event_record_key : string;
  event_content_hash : string;
  event_schema_version : N;
  event_timestamp_unix_secs : N;
  event_payload : gmap string string;
}.

#[global] Instance event_eq_dec : EqDecision MemoryStoreEvent.
Proof. solve_decision. Defined.

(** [MemoryStoreEvent::new(..).with_plane(..).with_record_key(..)
    .with_content_hash(..)] followed by the assignment of the payload. *)
Definition event_new (id : string) (kind : MemoryStoreEventKind) (scope : StoreEventScope)
    (timestamp : N) : MemoryStoreEvent :=
  {| event_id := id; event_kind := kind; event_kind_name := kind_as_str kind;
     event_scope := scope; event_plane := ""; event_record_key := "";
     event_content_hash := ""; event_schema_version := STORE_SCHEMA_VERSION;
     event_timestamp_unix_secs := timestamp; event_payload := ∅ |}.

Definition event_with (e : MemoryStoreEvent) (plane record_key content_hash : string)
    (payload : gmap string string) : MemoryStoreEvent :=
  {| event_id := event_id e; event_kind := event_kind e;
     event_kind_name := event_kind_name e; event_scope := event_scope e;
     event_plane := plane; event_record_key := record_key;
     event_content_hash := content_hash;
     event_schema_version := event_schema_version e;
     event_timestamp_unix_secs := event_timestamp_unix_secs e;
     event_payload := payload |}.

Definition validate_current_schema (e : MemoryStoreEvent) (stage : string) : result unit :=
  _ ← ensure (event_schema_version e =? STORE_SCHEMA_VERSION)
        (Config stage ("unsupported event schema version "
                       +:+ pretty (event_schema_version e)));
  ensure (negb (blank (event_id e)
                || negb (bool_decide (event_kind_name e = kind_as_str (event_kind e)))
                || blank (scope_memory_space_id (event_scope e))
                || blank (scope_subject_id (event_scope e))))
    (Config stage "event identity, kind, memory space, and subject must be canonical").

Definition enforce_event_key_budget (capacity : StoreCapacityBudget)
    (e : MemoryStoreEvent) (label : string) : result unit :=
  ensure (str_len (event_record_key e) <=? event_record_key_max_bytes capacity)
    (store_budget_error (label +:+ " event record key bytes "
       +:+ pretty (str_len (event_record_key e))
       +:+ " exceed " +:+ pretty (event_record_key_max_bytes capacity))).

(** ** Third-party encoders

    [serde_json] (the document type, its encoder and error texts), [sha2] and
    the standard library's unspecified [DefaultHasher]. *)
Class StoreCodec := {
  Value : Type;
  value_eq_dec :: EqDecision Value;
  json_to_vec : Value → string + bytes;
  event_to_vec : MemoryStoreEvent → string + bytes;
  sha256_digest : bytes → string;
  default_hash : bytes → string;
}.

(** ** Lexicographic iteration of [BTreeMap] and [BTreeSet] *)

Definition addr_le (a b : address) : Prop :=
  Is_true (match String.compare a.1 b.1 with
           | Lt => true
           | Gt => false
           | Eq => String.leb a.2 b.2
           end).
#[global] Instance addr_le_dec : RelDecision addr_le.
Proof. intros a b. unfold addr_le. apply _. Defined.

Definition btree_map_iter {A} (m : gmap address A) : list (address * A) :=
  merge_sort (λ p q, addr_le p.1 q.1) (map_to_list m).

Definition btree_set_iter (s : gset address) : list address :=
  merge_sort addr_le (elements s).

Definition pop_first (s : gset address) : option (address * gset address) :=
  match btree_set_iter s with
  | [] => None
  | a :: _ => Some (a, s ∖ {[a]})
  end.

Definition starts_with (s prefix : string) : bool := String.prefix prefix s.

Section Types.
Context {codec : StoreCodec}.

(** ** Mutations and preconditions ([mutation.rs]) *)

Inductive StoreJsonPrecondition :=
| JsonAbsent (namespace key : string)
| JsonExact (namespace key : string) (value : Value).

Inductive StoreBlobPrecondition :=
| BlobAbsent (namespace key : string)
| BlobExactDigest (namespace key content_digest : string).

#[global] Instance json_precondition_eq_dec : EqDecision StoreJsonPrecondition.
Proof. solve_decision. Defined.

Definition json_precondition_address (p : StoreJsonPrecondition) : address :=
  match p with JsonAbsent ns k | JsonExact ns k _ => (ns, k) end.

Definition blob_precondition_address (p : StoreBlobPrecondition) : address :=
  match p with BlobAbsent ns k | BlobExactDigest ns k _ => (ns, k) end.

(** The declared mutations of a governed batch ([StoreMutation]). *)
Inductive StoreMutation :=
| DeclPutJson (namespace key : string) (value : Value) (kind : MemoryStoreEventKind)
    (plane record_key : string)
| DeclDeleteJson (namespace key : string) (kind : MemoryStoreEventKind)
    (plane record_key : string)
| DeclPutBlob (namespace key : string) (value : bytes) (kind : MemoryStoreEventKind)
    (plane record_key : string)
| DeclDeleteBlob (namespace key : string) (kind : MemoryStoreEventKind)
    (plane record_key : string)
| DeclAppendEvent (event : MemoryStoreEvent).

Record StoreMutationBatch := {
  batch_transaction_id : string;
  batch_operation : string;
  batch_scope : StoreEventScope;
  batch_mutations : list StoreMutation;
}.

Record StoreMutationBudgetReport := {
  admission_report_id : string;
  required_events : N;
  remaining_events : N;
  required_kv_entries : N;
  remaining_kv_entries : N;
  required_blob_bytes : N;
  remaining_blob_bytes : N;
}.

(** ** Conditional deletes ([transaction.rs]) *)

Record ConditionalDeleteEventTemplate := {
  template_event_id : string;
  template_kind : MemoryStoreEventKind;
  template_scope : StoreEventScope;
  template_plane : string;
  template_record_key : string;
  template_timestamp_unix_secs : N;
  template_payload : gmap string string;
}.

Definition content_hash_from_bytes (b : bytes) : string := default_hash b.

Definition materialize_bytes (t : ConditionalDeleteEventTemplate) (before_image : bytes)
    : MemoryStoreEvent :=
  event_with
    (event_new (template_event_id t) (template_kind t) (template_scope t)
       (template_timestamp_unix_secs t))
    (template_plane t) (template_record_key t) (content_hash_from_bytes before_image)
    (template_payload t).

Definition materialize_json (t : ConditionalDeleteEventTemplate) (before_image : Value)
    : result MemoryStoreEvent :=
  match json_to_vec before_image with
  | inl message => Err (Config "memory_write_transaction" message)
  | inr before_image_bytes => Ok (materialize_bytes t before_image_bytes)
  end.

Definition materialize_blob (t : ConditionalDeleteEventTemplate) (before_image : bytes)
    : MemoryStoreEvent :=
  materialize_bytes t before_image.

(** ** Engine mutations *)

Inductive StoreEngineMutation :=
| PutJson (namespace key : string) (value : Value)
| DeleteJson (namespace key : string)
| DeleteJsonIfPresent (namespace key : string) (template : ConditionalDeleteEventTemplate)
| PutBlob (namespace key : string) (value : bytes)
| DeleteBlob (namespace key : string)
| DeleteBlobIfPresent (namespace key : string) (template : ConditionalDeleteEventTemplate)
| AppendEvent (event : MemoryStoreEvent).

Definition mutation_json_address (m : StoreEngineMutation) : option address :=
  match m with
  | PutJson ns k _ | DeleteJson ns k | DeleteJsonIfPresent ns k _ => Some (ns, k)
  | _ => None
  end.

Definition mutation_blob_address (m : StoreEngineMutation) : option address :=
  match m with
  | PutBlob ns k _ | DeleteBlob ns k | DeleteBlobIfPresent ns k _ => Some (ns, k)
  | _ => None
  end.

Definition mutation_event_id (m : StoreEngineMutation) : option string :=
  match m with
  | AppendEvent e => Some (event_id e)
  | DeleteJsonIfPresent _ _ t | DeleteBlobIfPresent _ _ t => Some (template_event_id t)
  | _ => None
  end.

(** ** The read set *)

Record StoreTransactionReadSet := {
  rs_json : gset address;
  rs_json_prefixes : gset address;
  rs_blobs : gset address;
}.

Definition read_set_from_request_parts (preconditions : list StoreJsonPrecondition)
    (mutations : list StoreEngineMutation) : StoreTransactionReadSet :=
  {| rs_json := list_to_set (json_precondition_address <$> preconditions)
                ∪ list_to_set (omap mutation_json_address mutations);
     rs_json_prefixes := ∅;
     rs_blobs := list_to_set (omap mutation_blob_address mutations) |}.

End Types.
