(* ===== verification/StoreTransaction.v ===== *)
(** * Store kernel: transactions

    Model of [crates/sdk/src/store_internal/transaction.rs]: transaction
    requests and their private read set, admission by a runtime budget
    authority and the fence every engine evaluates, the closure of the read
    set under owner dependencies, and the planner [apply_transaction] that
    every backend runs before it writes.

    The owner planes (runtime skills, subject soul, procedural feedback,
    long-term control) contribute decoders and validators implemented in other
    modules of the crate; the planner is modelled for an arbitrary
    implementation of them, the class [OwnerGovernance], so that what is proved
    of the planner holds whatever they answer. *)

From S2P Require Import Prelude RustStr Profile Resource Budget BudgetCompile BudgetAuthority.
From S2P Require Import StoreTypes.

Local Open Scope string_scope.
Local Open Scope N_scope.

Record BackendTransactionState `{codec : StoreCodec} := {
  bt_json : gmap address Value;
  bt_blobs : gmap address bytes;
  bt_events : list MemoryStoreEvent;
}.

Record AgentToolExperienceStoreBudget := {
  max_owners_per_subject : N;
  max_revisions_per_owner : N;
  max_evidence_refs_per_owner : N;
}.

Record GovernedTransactionPostImageLimits := {
  limit_long_term_retention : option N;
  limit_runtime_skill_owners : option N;
  limit_agent_tool_experience : option AgentToolExperienceStoreBudget;
}.

(** ** What the planner asks of the owner planes *)
Class OwnerGovernance `{codec : StoreCodec} := {
  (** sealed authorizations, opaque to the kernel *)
  LongTermControlAuthorization : Type;
  ProceduralMutationAuthorization : Type;
  ProceduralIntakeAuthorization : Type;
  (** [platform.rs], [subject_soul.rs] *)
  validate_runtime_skill_owner_transitions :
    BackendTransactionState → BackendTransactionState → gset address → result unit;
  validate_subject_soul_source_transition :
    BackendTransactionState → BackendTransactionState → result unit;
  (** [procedural_feedback]: the three source fences return the validity roots
      whose advance they attest *)
  source_dependents_validate_transition :
    BackendTransactionState → BackendTransactionState → string →
    list StoreJsonPrecondition → result (gset string);
  transcript_control_validate_transition :
    BackendTransactionState → BackendTransactionState → string →
    list StoreJsonPrecondition → result (gset string);
  runtime_skill_control_validate_transition :
    BackendTransactionState → BackendTransactionState → string →
    list StoreJsonPrecondition → option ProceduralMutationAuthorization →
    result (gset string);
  permits_mutation :
    ProceduralMutationAuthorization → StoreEngineMutation → gmap address Value → bool;
  permits_reconciliation_root_transition :
    StoreEngineMutation → BackendTransactionState → BackendTransactionState →
    list StoreJsonPrecondition → result bool;
  (** procedural feedback jobs *)
  Job : Type;
  job_eq_dec :: EqDecision Job;
  Checkpoint : Type;
  checkpoint_eq_dec :: EqDecision Checkpoint;
  CheckpointAuthority : Type;
  checkpoint_authority_eq_dec :: EqDecision CheckpointAuthority;
  decode_job : Value → option Job;
  job_reconciles : Job → bool;
  job_checkpoint : Job → option Checkpoint;
  job_checkpoint_authority : Job → option CheckpointAuthority;
  job_succeeded : Job → bool;
  validate_reconciliation_checkpoint_in_state :
    Job → BackendTransactionState → result unit;
  (** [procedural_selection.rs] *)
  validate_store_image : gmap address Value → result unit;
  validate_new_intakes :
    gmap address Value → gmap address Value → option ProceduralIntakeAuthorization →
    result unit;
  (** application ledgers and subject validity roots *)
  Ledger : Type;
  decode_ledger : Value → option Ledger;
  ledger_root_key : Ledger → result string;
  ledger_validity_epoch : Ledger → N;
  ValidityRoot : Type;
  decode_root : Value → option ValidityRoot;
  permits_learning_reads : ValidityRoot → N → result bool;
  root_validity_epoch : ValidityRoot → N;
  (** long-term control revisions *)
  Revision : Type;
  decode_revision : Value → string + Revision;
  revision_explicit_control : Revision → bool;
  authorizes : LongTermControlAuthorization → Revision → bool;
  validate_governed_transaction_post_image :
    StoreMutationBatch → BackendTransactionState → BackendTransactionState → bool →
    GovernedTransactionPostImageLimits → StoreCapacityBudget → result unit;
  (** dependency edges of a document *)
  long_term_source_dependency_addresses : string → Value → result (list address);
  subject_soul_transaction_dependencies : string → Value → list address * result unit;
  procedural_dependency_addresses : string → Value → result (list address);
}.

(** ** Namespaces ([schema.rs], [procedural_selection.rs], [long_term_control.rs]) *)

Definition AGENT_TOOL_EXPERIENCE_MATERIAL_NAMESPACE :=
  "agent_tool_experience_revision_materials".
Definition AGENT_TOOL_EXPERIENCE_HEAD_NAMESPACE := "agent_tool_experience_owner_heads".
Definition AGENT_TOOL_EXPERIENCE_SCOPE_MANIFEST_NAMESPACE :=
  "agent_tool_experience_scope_manifests".
Definition PROCEDURAL_FEEDBACK_JOB_NAMESPACE := "procedural_feedback_jobs".
Definition PROCEDURAL_PRODUCER_BINDING_NAMESPACE := "procedural_producer_bindings".
Definition PROCEDURAL_PRODUCER_HEAD_NAMESPACE := "procedural_producer_heads".
Definition PROCEDURAL_SUBJECT_VALIDITY_NAMESPACE := "procedural_subject_validity_roots".
Definition PROCEDURAL_SUBJECT_INITIALIZATION_NAMESPACE :=
  "procedural_subject_initializations".
Definition PROCEDURAL_FEEDBACK_APPLICATION_LEDGER_NAMESPACE :=
  "procedural_feedback_application_ledgers".
Definition SELECTION_NAMESPACE := "procedural_selection_authorities_private".
Definition LONG_TERM_CONTROL_REVISION_NAMESPACE := "long_term_control_revision".
Definition MAX_PROCEDURAL_SUBJECT_SCOPES : N := 256.

Section Transaction.
Context {codec : StoreCodec} {gov : OwnerGovernance} {rcodec : ReportCodec}.

(** ** Merging preconditions *)

Definition merge_json_preconditions (target incoming : list StoreJsonPrecondition)
    : result (list StoreJsonPrecondition) :=
  by_address ← try_fold
    (λ (by_address : gmap address StoreJsonPrecondition) precondition,
       let address := json_precondition_address precondition in
       match by_address !! address with
       | Some existing =>
           if decide (existing = precondition) then Ok by_address
           else Err (Config "memory_write_transaction_precondition_conflict"
                  ("conflicting JSON preconditions for namespace " +:+ address.1
                   +:+ ", key " +:+ address.2))
       | None => Ok (<[address := precondition]> by_address)
       end) ∅ (target ++ incoming);
  Ok ((btree_map_iter by_address).*2).

(** ** Requests *)

(** [graph_repair_authority] is a unit token. *)
Record StoreTransactionRequest := {
  transaction_id : string;
  preconditions : list StoreJsonPrecondition;
  blob_preconditions : list StoreBlobPrecondition;
  mutations : list StoreEngineMutation;
  governed_batch : option StoreMutationBatch;
  graph_repair_authority : option unit;
  long_term_control_authority : option LongTermControlAuthorization;
  procedural_authority_initialization : bool;
  procedural_mutation_authority : option ProceduralMutationAuthorization;
  procedural_intake_authority : option ProceduralIntakeAuthorization;
  governed_long_term_retention_limit : option N;
  governed_runtime_skill_owner_limit : option N;
  agent_tool_experience_budget : option AgentToolExperienceStoreBudget;
  read_set : StoreTransactionReadSet;
}.

Definition request_new (id : string) (pre : list StoreJsonPrecondition)
    (muts : list StoreEngineMutation) (batch : option StoreMutationBatch)
    : StoreTransactionRequest :=
  {| transaction_id := id; preconditions := pre; blob_preconditions := [];
     mutations := muts; governed_batch := batch; graph_repair_authority := None;
     long_term_control_authority := None;
     procedural_authority_initialization := false;
     procedural_mutation_authority := None; procedural_intake_authority := None;
     governed_long_term_retention_limit := None;
     governed_runtime_skill_owner_limit := None; agent_tool_experience_budget := None;
     read_set := read_set_from_request_parts pre muts |}.

(** The consuming builders: each replaces one field (the two [include_*]
    builders and [with_blob_preconditions] also extend the read set). *)
Inductive RequestBuilder :=
| authorize_long_term_control (a : LongTermControlAuthorization)
| with_procedural_authority_initialization
| authorize_procedural_mutation (a : ProceduralMutationAuthorization)
| authorize_procedural_intake (a : ProceduralIntakeAuthorization)
| with_blob_preconditions (p : list StoreBlobPrecondition)
| authorize_graph_repair
| include_governed_json_reads (l : list address)
| include_governed_json_prefix_reads (l : list address)
| with_governed_long_term_retention_limit (n : N)
| with_governed_runtime_skill_owner_limit (n : N)
| with_agent_tool_experience_budget (b : AgentToolExperienceStoreBudget).

Definition build (r : StoreTransactionRequest) (b : RequestBuilder)
    : StoreTransactionRequest :=
  let '(Build_StoreTransactionRequest id pre bpre muts batch repair ltc init pma pia
          ltr rso ate rs) := r in
  match b with
  | authorize_long_term_control a =>
      Build_StoreTransactionRequest id pre bpre muts batch repair (Some a) init pma pia
        ltr rso ate rs
  | with_procedural_authority_initialization =>
      Build_StoreTransactionRequest id pre bpre muts batch repair ltc true pma pia
        ltr rso ate rs
  | authorize_procedural_mutation a =>
      Build_StoreTransactionRequest id pre bpre muts batch repair ltc init (Some a) pia
        ltr rso ate rs
  | authorize_procedural_intake a =>
      Build_StoreTransactionRequest id pre bpre muts batch repair ltc init pma (Some a)
        ltr rso ate rs
  | with_blob_preconditions p =>
      Build_StoreTransactionRequest id pre (bpre ++ p) muts batch repair ltc init pma pia
        ltr rso ate
        {| rs_json := rs_json rs; rs_json_prefixes := rs_json_prefixes rs;
           rs_blobs := rs_blobs rs ∪ list_to_set (blob_precondition_address <$> p) |}
  | authorize_graph_repair =>
      Build_StoreTransactionRequest id pre bpre muts batch (Some tt) ltc init pma pia
        ltr rso ate rs
  | include_governed_json_reads l =>
      Build_StoreTransactionRequest id pre bpre muts batch repair ltc init pma pia
        ltr rso ate
        {| rs_json := rs_json rs ∪ list_to_set l; rs_json_prefixes := rs_json_prefixes rs;
           rs_blobs := rs_blobs rs |}
  | include_governed_json_prefix_reads l =>
      Build_StoreTransactionRequest id pre bpre muts batch repair ltc init pma pia
        ltr rso ate
        {| rs_json := rs_json rs; rs_json_prefixes := rs_json_prefixes rs ∪ list_to_set l;
           rs_blobs := rs_blobs rs |}
  | with_governed_long_term_retention_limit n =>
      Build_StoreTransactionRequest id pre bpre muts batch repair ltc init pma pia
        (Some n) rso ate rs
  | with_governed_runtime_skill_owner_limit n =>
      Build_StoreTransactionRequest id pre bpre muts batch repair ltc init pma pia
        ltr (Some n) ate rs
  | with_agent_tool_experience_budget b =>
      Build_StoreTransactionRequest id pre bpre muts batch repair ltc init pma pia
        ltr rso (Some b) rs
  end.

(** The read set is private: outside the module a request is built by
    [request_new] and the builders only. *)
Inductive built : StoreTransactionRequest → Prop :=
| built_new id pre muts batch : built (request_new id pre muts batch)
| built_build r b : built r → built (build r b).

(** [materialize_conditional_mutations] rewrites only the mutations. *)
Definition with_mutations (r : StoreTransactionRequest) (muts : list StoreEngineMutation)
    : StoreTransactionRequest :=
  let '(Build_StoreTransactionRequest id pre bpre _ batch repair ltc init pma pia
          ltr rso ate rs) := r in
  Build_StoreTransactionRequest id pre bpre muts batch repair ltc init pma pia
    ltr rso ate rs.

(** ** Admission and fence *)

(** [StoreAdmissionAuthority] is compared by pointer identity. *)
Definition StoreAdmissionAuthority : Type := N.

Record StoreTransactionAdmission := {
  adm_authority : StoreAdmissionAuthority;
  adm_runtime_budget_authority : option RuntimeBudgetAuthority;
  adm_report_id : string;
  operation_capacity : StoreCapacityBudget;
  adm_resource_snapshot : option RuntimeResourceSnapshot;
}.

Definition admission_from_runtime_budget (report : RuntimeBudgetReport)
    (runtime_budget_authority : RuntimeBudgetAuthority)
    (authority : StoreAdmissionAuthority) (now : N) : result StoreTransactionAdmission :=
  _ ← validate_for_admission report now;
  _ ← ensure (negb (blank (report_id report)))
        (Config "memory_write_transaction_resource_admission"
           "runtime budget admission report id is required");
  Ok {| adm_authority := authority;
        adm_runtime_budget_authority := Some runtime_budget_authority;
        adm_report_id := report_id report;
        operation_capacity := from_runtime_budget (store_budget report);
        adm_resource_snapshot := Some (resource_snapshot report) |}.

Definition admission_for_nonproduction_harness (capacity : StoreCapacityBudget)
    (authority : StoreAdmissionAuthority) : StoreTransactionAdmission :=
  {| adm_authority := authority; adm_runtime_budget_authority := None;
     adm_report_id := "nonproduction-replay-harness"; operation_capacity := capacity;
     adm_resource_snapshot := None |}.

(** The fence may refresh the budget authority it consults: [ast] is the state
    behind the authority's lock, returned updated. *)
Definition validate_inside_engine_fence (instant_max : N) (adm : StoreTransactionAdmission)
    (engine_capacity : StoreCapacityBudget) (authority : StoreAdmissionAuthority)
    (ast : RuntimeBudgetAuthorityState) (env : Env)
    : result unit * RuntimeBudgetAuthorityState :=
  let stage := "memory_write_transaction_resource_admission" in
  let admits :=
    ensure (admits_runtime_budget engine_capacity
              (into_runtime_budget (operation_capacity adm)))
      (Config stage "transaction admission exceeds the backend open capacity") in
  if negb (adm_authority adm =? authority) then
    (Err (Config stage "transaction admission was issued by a different store authority"), ast)
  else if match adm_resource_snapshot adm with
          | Some s => stale (observation s) || snap_is_expired s (now_secs env)
          | None => false
          end
  then (Err (Other stage (Readmission StaleOrExpired)), ast)
  else match adm_runtime_budget_authority adm with
  | None => (admits, ast)
  | Some a =>
      let '(current, ast') := current_report instant_max a ast env in
      (_ ← validate_for_admission current (now_secs env);
       _ ← ensure (bool_decide (report_id current = adm_report_id adm)
                   && bool_decide (from_runtime_budget (store_budget current)
                                   = operation_capacity adm))
             (Other stage (Readmission Superseded));
       admits, ast')
  end.

(** ** Serialized sizes *)

Definition serialized_len (encoded : string + bytes) : result N :=
  match encoded with
  | inl message => Err (Config "store_consistent_read" message)
  | inr b => Ok (N.min usize_max (len b))
  end.

Definition serialized_json_len (v : Value) : result N := serialized_len (json_to_vec v).

Definition add_or (e : Error) (a b : N) : result N :=
  match checked_add a b with Some c => Ok c | None => Err e end.

Definition json_bytes_of (overflow : string) (json : gmap address Value) : result N :=
  try_fold (λ total v,
    n ← serialized_json_len v;
    add_or (store_budget_error overflow) total n) 0 ((btree_map_iter json).*2).

(** ** Dependency closure of the read set *)

Definition emit (capacity : StoreCapacityBudget) (visited pending : gset address)
    (a : address) : result (gset address) :=
  if negb (bool_decide (a ∈ visited)) && negb (bool_decide (a ∈ pending)) then
    _ ← ensure (saturating_add (N.of_nat (size visited)) (N.of_nat (size pending))
                <? kv_max_entries capacity)
          (store_budget_error "Soul dependency read-set exceeds address budget");
    _ ← enforce_logical_key_budget capacity a.1 a.2 "memory_write_transaction";
    Ok ({[a]} ∪ pending)
  else Ok pending.

Definition enqueue (capacity : StoreCapacityBudget) (visited : gset address)
    (pending : gset address) (namespace : string) (v : Value) : result (gset address) :=
  n ← serialized_json_len v;
  _ ← ensure (n <=? snapshot_max_bytes capacity)
        (store_budget_error "Soul dependency document exceeds byte budget");
  long_term ← long_term_source_dependency_addresses namespace v;
  pending ← try_fold (emit capacity visited) pending long_term;
  let '(soul, soul_end) := subject_soul_transaction_dependencies namespace v in
  pending ← try_fold (emit capacity visited) pending soul;
  _ ← soul_end;
  procedural ← procedural_dependency_addresses namespace v;
  try_fold (emit capacity visited) pending procedural.

(** The worklist loop; [None] is fuel exhaustion.  The reader is given the bytes
    that remain of the operation's budget. *)
Fixpoint drain (capacity : StoreCapacityBudget)
    (read_json : address → N → result (option Value))
    (fuel : nat) (visited pending : gset address) (total : N) (json : gmap address Value)
    : option (result (gmap address Value)) :=
  match fuel with
  | O => None
  | S fuel =>
    match pop_first pending with
    | None => Some (Ok json)
    | Some (a, pending) =>
      if bool_decide (a ∈ visited)
      then drain capacity read_json fuel visited pending total json
      else
        let visited := {[a]} ∪ visited in
        if (kv_max_entries capacity <? N.of_nat (size visited))
           || (snapshot_max_bytes capacity <? total)
        then Some (Err (store_budget_error
                          "Soul dependency read-set exceeds operation budget"))
        else
        match
          (_ ← enforce_logical_key_budget capacity a.1 a.2 "memory_write_transaction";
           found ← read_json a (snapshot_max_bytes capacity - total);
           match found with
           | None => Ok (total, pending, json)
           | Some v =>
               n ← serialized_json_len v;
               total ← add_or (store_budget_error "Soul dependency read bytes overflow")
                         total n;
               _ ← ensure (total <=? snapshot_max_bytes capacity)
                     (store_budget_error "Soul dependency read-set exceeds byte budget");
               pending ← enqueue capacity visited pending a.1 v;
               Ok (total, pending, <[a := v]> json)
           end)
        with
        | Err e => Some (Err e)
        | Ok (total, pending, json) =>
            drain capacity read_json fuel visited pending total json
        end
    end
  end.

Definition proposed_json (m : StoreEngineMutation) : option (string * Value) :=
  match m with PutJson ns _ v => Some (ns, v) | _ => None end.

(** Every address the loop visits is counted against [kv_max_entries], so one
    iteration more than that bound is enough fuel ([drain_total]):
    [out_of_fuel] is never returned. *)
Definition out_of_fuel : Error := Config "model" "out of fuel".

Definition closure_fuel (capacity : StoreCapacityBudget) : nat :=
  S (S (N.to_nat (kv_max_entries capacity))).

(** The initial read set and what it makes pending. *)
Definition closure_roots (request : StoreTransactionRequest)
    (capacity : StoreCapacityBudget) (json : gmap address Value)
    : result (N * gset address) :=
  let visited := rs_json (read_set request) ∪ dom json in
  total ← json_bytes_of "Soul dependency read bytes overflow" json;
  _ ← ensure (negb ((kv_max_entries capacity <? N.of_nat (size visited))
                    || (snapshot_max_bytes capacity <? total)))
        (store_budget_error "initial transaction read-set exceeds operation budget");
  pending ← try_fold (λ pending (p : address * Value),
               enqueue capacity visited pending p.1.1 p.2) ∅ (btree_map_iter json);
  pending ← try_fold (λ pending (p : string * Value),
               enqueue capacity visited pending p.1 p.2) pending
               (omap proposed_json (mutations request));
  Ok (total, pending).

Definition expand_owner_transaction_dependencies (request : StoreTransactionRequest)
    (capacity : StoreCapacityBudget) (json : gmap address Value)
    (read_json : address → N → result (option Value)) : result (gmap address Value) :=
  match closure_roots request capacity json with
  | Err e => Err e
  | Ok (total, pending) =>
      default (Err out_of_fuel)
        (drain capacity read_json (closure_fuel capacity)
           (rs_json (read_set request) ∪ dom json) pending total json)
  end.

(** ** Conditional mutations *)

Definition materialize_mutation (current : BackendTransactionState)
    (m : StoreEngineMutation) : result (list StoreEngineMutation) :=
  match m with
  | DeleteJsonIfPresent ns k t =>
      match bt_json current !! (ns, k) with
      | None => Ok []
      | Some before_image =>
          e ← materialize_json t before_image;
          Ok [DeleteJson ns k; AppendEvent e]
      end
  | DeleteBlobIfPresent ns k t =>
      match bt_blobs current !! (ns, k) with
      | None => Ok []
      | Some before_image =>
          Ok [DeleteBlob ns k; AppendEvent (materialize_blob t before_image)]
      end
  | _ => Ok [m]
  end.

Definition materialize_conditional_mutations (request : StoreTransactionRequest)
    (current : BackendTransactionState) : result StoreTransactionRequest :=
  effective ← try_fold (λ acc m,
    l ← materialize_mutation current m; Ok (acc ++ l)%list) []%list (mutations request);
  Ok (with_mutations request effective).

(** ** Preconditions *)

Definition precondition_expected (p : StoreJsonPrecondition) : option Value :=
  match p with JsonAbsent _ _ => None | JsonExact _ _ v => Some v end.

Definition validate_preconditions (capacity : StoreCapacityBudget)
    (preconditions : list StoreJsonPrecondition) (json : gmap address Value)
    : result unit :=
  _ ← try_fold (λ (addresses : gset address) p,
    let a := json_precondition_address p in
    let '(namespace, key) := a in
    _ ← enforce_logical_key_budget capacity namespace key "memory_write_transaction";
    _ ← ensure (negb (bool_decide (a ∈ addresses)))
          (Config "memory_write_transaction_preflight_failed"
             ("duplicate precondition for " +:+ namespace +:+ "/" +:+ key));
    _ ← ensure (bool_decide (json !! a = precondition_expected p))
          (Conflict "memory_write_transaction_precondition_failed"
             ("json precondition failed for " +:+ namespace +:+ "/" +:+ key));
    Ok ({[a]} ∪ addresses)) ∅ preconditions;
  Ok tt.

(** [content_digest.strip_prefix("sha256:")] is 64 lower-case hex digits. *)
Definition canonical_digest (d : string) : bool :=
  starts_with d "sha256:"
  && (let hex := String.substring 7 (String.length d - 7) d in
      (str_len hex =? 64) && forallb is_lower_hex (String.list_ascii_of_string hex)).

Definition validate_blob_preconditions (capacity : StoreCapacityBudget)
    (preconditions : list StoreBlobPrecondition) (blobs : gmap address bytes)
    : result unit :=
  _ ← try_fold (λ (addresses : gset address) p,
    let a := blob_precondition_address p in
    let '(namespace, key) := a in
    expected ← match p with
      | BlobAbsent _ _ => Ok None
      | BlobExactDigest _ _ d =>
          _ ← ensure (canonical_digest d)
                (Config "memory_write_transaction_preflight_failed"
                   ("non-canonical blob digest for " +:+ namespace +:+ "/" +:+ key));
          Ok (Some d)
      end;
    _ ← enforce_logical_key_budget capacity namespace key "memory_write_transaction";
    _ ← ensure (negb (bool_decide (a ∈ addresses)))
          (Config "memory_write_transaction_preflight_failed"
             ("duplicate blob precondition for " +:+ namespace +:+ "/" +:+ key));
    let observed := (λ v, "sha256:" +:+ sha256_digest v) <$> blobs !! a in
    _ ← ensure (bool_decide (observed = expected))
          (Conflict "memory_write_transaction_precondition_failed"
             ("blob precondition failed for " +:+ namespace +:+ "/" +:+ key));
    Ok ({[a]} ∪ addresses)) ∅ preconditions;
  Ok tt.

End Transaction.
