(* ===== verification/StorePlan.v ===== *)
(** * Store kernel: the transaction planner

    [apply_transaction] of [crates/sdk/src/store_internal/transaction.rs]: the
    pure function that validates a request against the touched part of the
    store and computes the effective primitive mutations, the touched
    post-image and the budget report.  It is split at the points where the
    source splits it: preflight, the mutation loop, the owner governance
    checks, the method closure, long-term control, and the usage accounting. *)

From S2P Require Import Prelude RustStr Profile Resource Budget BudgetCompile BudgetAuthority.
From S2P Require Import StoreTypes StoreTransaction.

Local Open Scope string_scope.
Local Open Scope N_scope.

Record StoreBackendUsage := {
  kv_entries : N;
  blob_bytes : N;
  event_count : N;
}.

Record StoreTransactionReport := {
  report_transaction_id : string;
  report_changed_json : N;
  report_changed_blobs : N;
  report_appended_events : N;
  report_event_ids : list string;
  report_budget : StoreMutationBudgetReport;
}.

Section Plan.
Context {codec : StoreCodec} {gov : OwnerGovernance} {rcodec : ReportCodec}.

Record StoreTransactionContext := {
  touched : BackendTransactionState;
  usage : StoreBackendUsage;
  existing_event_ids : gset string;
}.

Record StoreTransactionPlan := {
  effective_request : StoreTransactionRequest;
  next_touched : BackendTransactionState;
  plan_report : StoreTransactionReport;
}.

(** ** The mutation loop *)

Record LoopState := {
  next : BackendTransactionState;
  changed_json : gset address;
  changed_blobs : gset address;
  event_ids : list string;
  known_event_ids : gset string;
  mutated_json : gset address;
  mutated_blobs : gset address;
}.

Definition loop_init (context : StoreTransactionContext) : LoopState :=
  {| next := touched context; changed_json := ∅; changed_blobs := ∅; event_ids := [];
     known_event_ids := existing_event_ids context;
     mutated_json := ∅; mutated_blobs := ∅ |}.

Definition reject_duplicate_mutation (addresses : gset address) (a : address)
    : result (gset address) :=
  if decide (a ∈ addresses) then
    Err (Config "memory_write_transaction_preflight_failed"
           ("duplicate mutation for " +:+ a.1 +:+ "/" +:+ a.2))
  else Ok ({[a]} ∪ addresses).

(** [changed] grows on every put, and on a delete that removed something. *)
Definition note_removed {A} (m : gmap address A) (a : address) (changed : gset address)
    : gset address :=
  match m !! a with Some _ => {[a]} ∪ changed | None => changed end.

Definition json_step (s : LoopState) (seen : gset address)
    (json : gmap address Value) (changed : gset address) : LoopState :=
  {| next := {| bt_json := json; bt_blobs := bt_blobs (next s);
                bt_events := bt_events (next s) |};
     changed_json := changed; changed_blobs := changed_blobs s;
     event_ids := event_ids s; known_event_ids := known_event_ids s;
     mutated_json := seen; mutated_blobs := mutated_blobs s |}.

Definition blob_step (s : LoopState) (seen : gset address)
    (blobs : gmap address bytes) (changed : gset address) : LoopState :=
  {| next := {| bt_json := bt_json (next s); bt_blobs := blobs;
                bt_events := bt_events (next s) |};
     changed_json := changed_json s; changed_blobs := changed;
     event_ids := event_ids s; known_event_ids := known_event_ids s;
     mutated_json := mutated_json s; mutated_blobs := seen |}.

Definition event_step (s : LoopState) (e : MemoryStoreEvent) : LoopState :=
  {| next := {| bt_json := bt_json (next s); bt_blobs := bt_blobs (next s);
                bt_events := (bt_events (next s) ++ [e])%list |};
     changed_json := changed_json s; changed_blobs := changed_blobs s;
     event_ids := (event_ids s ++ [event_id e])%list;
     known_event_ids := {[event_id e]} ∪ known_event_ids s;
     mutated_json := mutated_json s; mutated_blobs := mutated_blobs s |}.

Definition plan_mutation (capacity : StoreCapacityBudget) (s : LoopState)
    (m : StoreEngineMutation) : result LoopState :=
  let label := "memory_write_transaction" in
  match m with
  | PutJson ns k v =>
      let a : address := (ns, k) in
      _ ← enforce_logical_key_budget capacity ns k label;
      seen ← reject_duplicate_mutation (mutated_json s) a;
      Ok (json_step s seen (<[a := v]> (bt_json (next s))) ({[a]} ∪ changed_json s))
  | DeleteJson ns k =>
      let a : address := (ns, k) in
      _ ← enforce_logical_key_budget capacity ns k label;
      seen ← reject_duplicate_mutation (mutated_json s) a;
      Ok (json_step s seen (delete a (bt_json (next s)))
            (note_removed (bt_json (next s)) a (changed_json s)))
  | DeleteJsonIfPresent _ _ _ | DeleteBlobIfPresent _ _ _ =>
      Err (Config "memory_write_transaction_preflight_failed"
             "conditional mutation reached the primitive transaction executor")
  | PutBlob ns k v =>
      let a : address := (ns, k) in
      _ ← enforce_logical_key_budget capacity ns k label;
      seen ← reject_duplicate_mutation (mutated_blobs s) a;
      Ok (blob_step s seen (<[a := v]> (bt_blobs (next s))) ({[a]} ∪ changed_blobs s))
  | DeleteBlob ns k =>
      let a : address := (ns, k) in
      _ ← enforce_logical_key_budget capacity ns k label;
      seen ← reject_duplicate_mutation (mutated_blobs s) a;
      Ok (blob_step s seen (delete a (bt_blobs (next s)))
            (note_removed (bt_blobs (next s)) a (changed_blobs s)))
  | AppendEvent e =>
      _ ← enforce_event_key_budget capacity e label;
      _ ← ensure (negb (bool_decide (event_id e ∈ known_event_ids s)))
            (Config "store_event_log" ("duplicate event id " +:+ event_id e));
      Ok (event_step s e)
  end.

(** ** Owner governance *)

Definition permitted_by (auth : option ProceduralMutationAuthorization)
    (m : StoreEngineMutation) (json : gmap address Value) : bool :=
  match auth with Some a => permits_mutation a m json | None => false end.

Definition previous_job (current : BackendTransactionState) (a : address)
    : result (option Job) :=
  match bt_json current !! a with
  | None => Ok None
  | Some before =>
      match decode_job before with
      | None => Err (Config "procedural_reconciliation_authority"
                       "invalid previous durable work")
      | Some j => Ok (Some j)
      end
  end.

(** The reconciliation part of the per-mutation check, for a job document. *)
Definition check_reconciliation_job (request : StoreTransactionRequest)
    (current next : BackendTransactionState) (m : StoreEngineMutation) (a : address)
    (v : Value) : result unit :=
  let stage := "procedural_reconciliation_authority" in
  match decode_job v with
  | None => Err (Config stage "invalid durable work")
  | Some after_job =>
    if negb (job_reconciles after_job) then Ok tt else
    before_job ← previous_job current a;
    let publishes_progress :=
      negb (bool_decide (before_job ≫= job_checkpoint = job_checkpoint after_job))
      || negb (bool_decide (before_job ≫= job_checkpoint_authority
                            = job_checkpoint_authority after_job))
      || (job_succeeded after_job && negb (bool_decide (before_job = Some after_job))) in
    _ ← match before_job with
        | Some j => validate_reconciliation_checkpoint_in_state j current
        | None => Ok tt
        end;
    _ ← validate_reconciliation_checkpoint_in_state after_job next;
    ensure (negb (publishes_progress
                  && negb (permitted_by (procedural_mutation_authority request) m
                             (bt_json current))))
      (Config stage "checkpoint publication requires its exact governed page transaction")
  end.

Definition producer_namespace (ns : string) : bool :=
  bool_decide (ns ∈ [PROCEDURAL_PRODUCER_BINDING_NAMESPACE;
                     PROCEDURAL_PRODUCER_HEAD_NAMESPACE;
                     PROCEDURAL_SUBJECT_VALIDITY_NAMESPACE;
                     PROCEDURAL_SUBJECT_INITIALIZATION_NAMESPACE]).

(** The namespace of a [PutJson] or [DeleteJson]. *)
Definition primitive_json_namespace (m : StoreEngineMutation) : option string :=
  match m with PutJson ns _ _ | DeleteJson ns _ => Some ns | _ => None end.

Definition touches_namespace (P : string → bool) (m : StoreEngineMutation) : bool :=
  match primitive_json_namespace m with Some ns => P ns | None => false end.

Definition source_fenced (source_fences : gset string) (m : StoreEngineMutation) : bool :=
  match m with
  | PutJson ns k _ =>
      bool_decide (ns = PROCEDURAL_SUBJECT_VALIDITY_NAMESPACE)
      && bool_decide (k ∈ source_fences)
  | _ => false
  end.

Definition check_mutation_authority (request effective : StoreTransactionRequest)
    (current next : BackendTransactionState) (source_fences : gset string)
    (m : StoreEngineMutation) : result unit :=
  _ ← match m with
      | PutJson ns k v =>
          if decide (ns = PROCEDURAL_FEEDBACK_JOB_NAMESPACE)
          then check_reconciliation_job request current next m (ns, k) v
          else Ok tt
      | _ => Ok tt
      end;
  if touches_namespace producer_namespace m
     && negb (permitted_by (procedural_mutation_authority request) m (bt_json current))
     && negb (source_fenced source_fences m)
  then
    permitted ← permits_reconciliation_root_transition m current next
                  (preconditions effective);
    ensure permitted
      (Config "procedural_producer_authority"
         "producer changes require the sealed control transaction")
  else Ok tt.

Definition has_absent_precondition (request : StoreTransactionRequest) (a : address) : bool :=
  bool_decide (JsonAbsent a.1 a.2 ∈ preconditions request).

Definition has_exact_precondition (request : StoreTransactionRequest) (a : address)
    (v : Value) : bool :=
  bool_decide (JsonExact a.1 a.2 v ∈ preconditions request).

(** [for x in l { check(x)? }] *)
Definition try_each {A} (check : A → result unit) (l : list A) : result unit :=
  try_fold (λ _ x, check x) tt l.

Definition check_selection_authority (request effective : StoreTransactionRequest)
    (current next : BackendTransactionState) : result unit :=
  let stage := "procedural_selection_authority" in
  _ ← ensure (negb (negb (procedural_authority_initialization request)
                    && existsb (touches_namespace (λ ns, bool_decide (ns = SELECTION_NAMESPACE)))
                         (mutations effective)))
        (Config stage "ordinary transactions cannot mutate signing authority");
  _ ← try_each (λ p : address * Value,
        let '(a, v) := p in
        ensure (negb (bool_decide (a.1 = SELECTION_NAMESPACE)
                      && negb (bool_decide (bt_json current !! a = Some v))
                      && (negb (procedural_authority_initialization request)
                          || bool_decide (is_Some (bt_json current !! a))
                          || negb (has_absent_precondition request a))))
          (Config stage
             "authority can only be created by Store preparation with absent CAS"))
        (btree_map_iter (bt_json next));
  ensure (negb (existsb (λ p : address * Value,
                  bool_decide (p.1.1 = SELECTION_NAMESPACE)
                  && bool_decide (bt_json next !! p.1 = None))
            (btree_map_iter (bt_json current))))
    (Config stage "authority cannot be deleted within a Store incarnation").

Definition check_new_ledger (request : StoreTransactionRequest)
    (current next : BackendTransactionState) (p : address * Value) : result unit :=
  let stage := "procedural_feedback_application_ledger" in
  let '(a, v) := p in
  _ ← ensure (has_absent_precondition request a)
        (Config stage "application ledger creation requires absent CAS");
  match decode_ledger v with
  | None => Err (Config stage "invalid application ledger")
  | Some ledger =>
    root_key ← ledger_root_key ledger;
    let root_address : address := (PROCEDURAL_SUBJECT_VALIDITY_NAMESPACE, root_key) in
    match bt_json current !! root_address with
    | None => Err (Config stage "application validity root is missing")
    | Some root_value =>
      match decode_root root_value with
      | None => Err (Config stage "invalid application validity root")
      | Some root =>
        permitted ← permits_learning_reads root MAX_PROCEDURAL_SUBJECT_SCOPES;
        ensure (negb (negb permitted
                      || negb (ledger_validity_epoch ledger =? root_validity_epoch root)
                      || negb (bool_decide (bt_json next !! root_address = Some root_value))
                      || negb (has_exact_precondition request root_address root_value)))
          (Conflict stage "application requires the exact ready validity epoch")
      end
    end
  end.

Definition is_ledger (p : address * Value) : bool :=
  bool_decide (p.1.1 = PROCEDURAL_FEEDBACK_APPLICATION_LEDGER_NAMESPACE).

Definition check_application_ledgers (request : StoreTransactionRequest)
    (current next : BackendTransactionState) : result unit :=
  _ ← try_each (λ p : address * Value,
        ensure (negb (is_ledger p && negb (bool_decide (bt_json next !! p.1 = Some p.2))))
          (Config "procedural_feedback_application_ledger"
             "committed application ledgers cannot be replaced or deleted"))
        (btree_map_iter (bt_json current));
  try_each (check_new_ledger request current next)
    (filter (λ p, is_ledger p && bool_decide (bt_json current !! p.1 = None))
       (btree_map_iter (bt_json next))).

(** ** Method closure *)

Definition is_method_namespace (ns : string) : bool :=
  bool_decide (ns ∈ [AGENT_TOOL_EXPERIENCE_MATERIAL_NAMESPACE;
                     AGENT_TOOL_EXPERIENCE_HEAD_NAMESPACE;
                     AGENT_TOOL_EXPERIENCE_SCOPE_MANIFEST_NAMESPACE;
                     PROCEDURAL_FEEDBACK_APPLICATION_LEDGER_NAMESPACE]).

Definition method_entry (ns k : string) (v : option Value)
    : option (address * option Value) :=
  if is_method_namespace ns then Some ((ns, k), v) else None.

Definition actual_method (m : StoreEngineMutation) : option (address * option Value) :=
  match m with
  | PutJson ns k v => method_entry ns k (Some v)
  | DeleteJson ns k | DeleteJsonIfPresent ns k _ => method_entry ns k None
  | _ => None
  end.

Definition declared_method (m : StoreMutation) : option (address * option Value) :=
  match m with
  | DeclPutJson ns k v _ _ _ => method_entry ns k (Some v)
  | DeclDeleteJson ns k _ _ _ => method_entry ns k None
  | _ => None
  end.

(** [collect::<BTreeMap<_, _>>()]: a later entry replaces an earlier one. *)
Definition collect_map {A} (l : list (address * A)) : gmap address A :=
  foldl (λ m p, <[p.1 := p.2]> m) ∅ l.

Definition check_method_closure (effective : StoreTransactionRequest) : result unit :=
  let actual := collect_map (omap actual_method (mutations effective)) in
  let declared := collect_map (omap declared_method
    match governed_batch effective with Some b => batch_mutations b | None => [] end) in
  ensure (negb ((negb (bool_decide (actual = ∅)) || negb (bool_decide (declared = ∅)))
                && (negb (bool_decide (actual = declared))
                    || match governed_batch effective with
                       | None => true
                       | Some b => negb (bool_decide (batch_transaction_id b
                                                      = transaction_id effective))
                       end)))
    (Config "method_transaction_authority"
       "method owners require their exact governed transaction closure").

(** ** Long-term control and the governed post-image *)

Definition check_long_term_control (request : StoreTransactionRequest)
    (current : BackendTransactionState) (m : StoreMutation) : result unit :=
  match m with
  | DeclPutJson ns k v _ _ _ =>
    if bool_decide (ns = LONG_TERM_CONTROL_REVISION_NAMESPACE)
       && negb (bool_decide (bt_json current !! ((ns, k) : address) = Some v))
    then match decode_revision v with
      | inl message => Err (Config "long_term_control_authority" message)
      | inr revision =>
          ensure (negb (revision_explicit_control revision
                        && negb match long_term_control_authority request with
                                | Some a => authorizes a revision
                                | None => false
                                end))
            (Config "long_term_control_authority"
               "explicit transition lacks exact runtime control authority")
      end
    else Ok tt
  | _ => Ok tt
  end.

Definition check_governed_batch (request effective : StoreTransactionRequest)
    (current next : BackendTransactionState) (capacity : StoreCapacityBudget) : result unit :=
  match governed_batch effective with
  | None => Ok tt
  | Some batch =>
    _ ← try_each (check_long_term_control request current) (batch_mutations batch);
    validate_governed_transaction_post_image batch current next
      match graph_repair_authority request with Some _ => true | None => false end
      {| limit_long_term_retention := governed_long_term_retention_limit request;
         limit_runtime_skill_owners := governed_runtime_skill_owner_limit request;
         limit_agent_tool_experience := agent_tool_experience_budget request |}
      capacity
  end.

(** Every owner check between the mutation loop and the accounting. *)
Definition check_owners (request effective : StoreTransactionRequest)
    (current next : BackendTransactionState) (changed : gset address)
    (capacity : StoreCapacityBudget) : result unit :=
  _ ← validate_runtime_skill_owner_transitions current next changed;
  _ ← validate_subject_soul_source_transition current next;
  fences1 ← source_dependents_validate_transition current next
              (transaction_id request) (preconditions effective);
  fences2 ← transcript_control_validate_transition current next
              (transaction_id request) (preconditions effective);
  fences3 ← runtime_skill_control_validate_transition current next
              (transaction_id request) (preconditions effective)
              (procedural_mutation_authority request);
  _ ← try_each (check_mutation_authority request effective current next
                  (fences1 ∪ fences2 ∪ fences3)) (mutations effective);
  _ ← check_selection_authority request effective current next;
  _ ← validate_store_image (bt_json next);
  _ ← validate_new_intakes (bt_json current) (bt_json next)
        (procedural_intake_authority request);
  _ ← check_application_ledgers request current next;
  _ ← check_method_closure effective;
  check_governed_batch request effective current next capacity.

(** ** Usage accounting *)

(** [values().map(Vec::len).sum()]: the summed bytes are resident, so the sum
    does not leave the range of [usize]. *)
Definition blob_sum (blobs : gmap address bytes) : N :=
  map_fold (λ _ b acc, len b + acc) 0 blobs.

Definition entries (s : BackendTransactionState) : N :=
  saturating_add (N.of_nat (size (bt_json s))) (N.of_nat (size (bt_blobs s))).

Definition backend_budget_report (adm : StoreTransactionAdmission)
    (current : StoreBackendUsage) (next_kv next_blob next_events : N)
    : StoreMutationBudgetReport :=
  let capacity := operation_capacity adm in
  {| admission_report_id := adm_report_id adm;
     required_events := next_events - event_count current;
     remaining_events := event_log_max_items capacity - next_events;
     required_kv_entries := next_kv - kv_entries current;
     remaining_kv_entries := kv_max_entries capacity - next_kv;
     required_blob_bytes := next_blob - blob_bytes current;
     remaining_blob_bytes := blob_max_bytes capacity - next_blob |}.

Definition account_usage (capacity : StoreCapacityBudget) (u : StoreBackendUsage)
    (current next : BackendTransactionState) (new_events : N) : result StoreBackendUsage :=
  let kv := saturating_add (kv_entries u - entries current) (entries next) in
  _ ← ensure (kv <=? kv_max_entries capacity)
        (store_budget_error ("kv entries " +:+ pretty kv +:+ " exceed "
                             +:+ pretty (kv_max_entries capacity)));
  let blob := saturating_add (blob_bytes u - blob_sum (bt_blobs current))
                (blob_sum (bt_blobs next)) in
  _ ← ensure (blob <=? blob_max_bytes capacity)
        (store_budget_error ("blob bytes " +:+ pretty blob +:+ " exceed "
                             +:+ pretty (blob_max_bytes capacity)));
  let events := saturating_add (event_count u) new_events in
  _ ← ensure (events <=? event_log_max_items capacity)
        (store_budget_error ("event log items " +:+ pretty events +:+ " exceed "
                             +:+ pretty (event_log_max_items capacity)));
  Ok {| kv_entries := kv; blob_bytes := blob; event_count := events |}.

(** ** The planner *)

Definition apply_transaction (adm : StoreTransactionAdmission)
    (request : StoreTransactionRequest) (context : StoreTransactionContext)
    : result StoreTransactionPlan :=
  _ ← ensure (negb (blank (transaction_id request)))
        (Config "memory_write_transaction_preflight_failed" "transaction_id is required");
  let capacity := operation_capacity adm in
  let current := touched context in
  current_json_bytes ← json_bytes_of "transaction JSON read-set byte count overflow"
                         (bt_json current);
  _ ← ensure (negb ((kv_max_entries capacity <? N.of_nat (size (bt_json current)))
                    || (snapshot_max_bytes capacity <? current_json_bytes)))
        (store_budget_error "transaction JSON read-set exceeds the pinned operation budget");
  effective ← materialize_conditional_mutations request current;
  _ ← validate_preconditions capacity (preconditions effective) (bt_json current);
  _ ← validate_blob_preconditions capacity (blob_preconditions effective) (bt_blobs current);
  s ← try_fold (plan_mutation capacity) (loop_init context) (mutations effective);
  _ ← check_owners request effective current (next s) (changed_json s) capacity;
  u ← account_usage capacity (usage context) current (next s) (len (event_ids s));
  Ok {| effective_request := effective;
        next_touched := next s;
        plan_report :=
          {| report_transaction_id := transaction_id request;
             report_changed_json := N.of_nat (size (changed_json s));
             report_changed_blobs := N.of_nat (size (changed_blobs s));
             report_appended_events := len (event_ids s);
             report_event_ids := event_ids s;
             report_budget := backend_budget_report adm (usage context)
                                (kv_entries u) (blob_bytes u) (event_count u) |} |}.

End Plan.
