(* ===== verification/InMemoryStore.v ===== *)
(** * Store kernel: the in-memory engine

    Model of [InMemoryStoreEngine] ([crates/sdk/src/store_internal/in_memory.rs]).
    The state is behind one mutex that every operation holds from its first
    access to its last, so an execution is a sequence of operations, each a
    function from the state to a result and a state.  A [?] after a partial
    write would leave the partial state behind: the model returns the state
    reached, also on errors. *)

From S2P Require Import Prelude RustStr Profile Resource Budget BudgetCompile BudgetAuthority.
From S2P Require Import StoreTypes StoreTransaction StorePlan.
From stdpp Require Import sorting.

Local Open Scope string_scope.
Local Open Scope N_scope.

Section Engine.
Context {codec : StoreCodec} {gov : OwnerGovernance} {rcodec : ReportCodec}.

Record InMemoryStoreEngineState := {
  json : gmap address Value;
  blobs : gmap address bytes;
  events : list MemoryStoreEvent;
  log_ids : gset string;
}.

Definition empty_state : InMemoryStoreEngineState :=
  {| json := ∅; blobs := ∅; events := []; log_ids := ∅ |}.

Record InMemoryStoreEngine := {
  capacity : StoreCapacityBudget;
  admission_authority : StoreAdmissionAuthority;
}.

(** ** Writing a plan *)

Definition set_json (s : InMemoryStoreEngineState) (j : gmap address Value) :=
  {| json := j; blobs := blobs s; events := events s; log_ids := log_ids s |}.
Definition set_blobs (s : InMemoryStoreEngineState) (b : gmap address bytes) :=
  {| json := json s; blobs := b; events := events s; log_ids := log_ids s |}.
Definition push_event (s : InMemoryStoreEngineState) (e : MemoryStoreEvent) :=
  {| json := json s; blobs := blobs s; events := (events s ++ [e])%list;
     log_ids := {[event_id e]} ∪ log_ids s |}.

Fixpoint apply_in_memory_transaction_plan (s : InMemoryStoreEngineState)
    (mutations : list StoreEngineMutation) : result unit * InMemoryStoreEngineState :=
  match mutations with
  | [] => (Ok tt, s)
  | m :: rest =>
    match m with
    | PutJson ns k v => apply_in_memory_transaction_plan
                          (set_json s (<[(ns, k) := v]> (json s))) rest
    | DeleteJson ns k => apply_in_memory_transaction_plan
                           (set_json s (delete (ns, k) (json s))) rest
    | PutBlob ns k v => apply_in_memory_transaction_plan
                          (set_blobs s (<[(ns, k) := v]> (blobs s))) rest
    | DeleteBlob ns k => apply_in_memory_transaction_plan
                           (set_blobs s (delete (ns, k) (blobs s))) rest
    | AppendEvent e => apply_in_memory_transaction_plan (push_event s e) rest
    | DeleteJsonIfPresent _ _ _ | DeleteBlobIfPresent _ _ _ =>
        (Err (Config "memory_write_transaction"
                "conditional mutation reached in-memory primitive execution"), s)
    end
  end.

(** ** Reading the touched part *)

(** The documents at the read-set addresses, and under its prefixes. *)
Definition under_prefix (prefixes : gset address) (a : address) : bool :=
  existsb (λ p : address, bool_decide (a.1 = p.1) && starts_with a.2 p.2)
    (btree_set_iter prefixes).

Definition read_touched (s : InMemoryStoreEngineState) (rs : StoreTransactionReadSet)
    : BackendTransactionState :=
  {| bt_json := filter (λ p, p.1 ∈ rs_json rs ∨ under_prefix (rs_json_prefixes rs) p.1)
                  (json s);
     bt_blobs := filter (λ p, p.1 ∈ rs_blobs rs) (blobs s);
     bt_events := [] |}.

Definition usage_of (s : InMemoryStoreEngineState) : StoreBackendUsage :=
  {| kv_entries := saturating_add (N.of_nat (size (json s))) (N.of_nat (size (blobs s)));
     blob_bytes := blob_sum (blobs s);
     event_count := len (events s) |}.

Definition colliding_event_ids (s : InMemoryStoreEngineState)
    (mutations : list StoreEngineMutation) : gset string :=
  list_to_set (filter (λ i, i ∈ log_ids s) (omap mutation_event_id mutations)).

(** ** Committing *)

Definition commit_planned (s : InMemoryStoreEngineState)
    (request : StoreTransactionRequest) (adm : StoreTransactionAdmission)
    : result StoreTransactionReport * InMemoryStoreEngineState :=
  let touched0 := read_touched s (read_set request) in
  match
    (closed ← expand_owner_transaction_dependencies request (operation_capacity adm)
                (bt_json touched0) (λ a _, Ok (json s !! a));
     apply_transaction adm request
       {| touched := {| bt_json := closed; bt_blobs := bt_blobs touched0; bt_events := [] |};
          usage := usage_of s;
          existing_event_ids := colliding_event_ids s (mutations request) |})
  with
  | Err e => (Err e, s)
  | Ok plan =>
      let '(written, s') :=
        apply_in_memory_transaction_plan s (mutations (effective_request plan)) in
      match written with
      | Ok _ => (Ok (plan_report plan), s')
      | Err e => (Err e, s')
      end
  end.

Definition commit_transaction_admitted (instant_max : N) (engine : InMemoryStoreEngine)
    (s : InMemoryStoreEngineState) (request : StoreTransactionRequest)
    (adm : StoreTransactionAdmission) (ast : RuntimeBudgetAuthorityState) (env : Env)
    : result StoreTransactionReport * InMemoryStoreEngineState
      * RuntimeBudgetAuthorityState :=
  match validate_inside_engine_fence instant_max adm (capacity engine)
          (admission_authority engine) ast env with
  | (Err e, ast') => (Err e, s, ast')
  | (Ok _, ast') => (commit_planned s request adm, ast')
  end.

(** ** Single-entry operations *)

Definition append_event (engine : InMemoryStoreEngine) (s : InMemoryStoreEngineState)
    (e : MemoryStoreEvent) : result unit * InMemoryStoreEngineState :=
  match enforce_event_key_budget (capacity engine) e "in_memory_store_event" with
  | Err err => (Err err, s)
  | Ok _ =>
    if decide (event_id e ∈ log_ids s) then
      (Err (Config "store_event_log" ("duplicate event id " +:+ event_id e)), s)
    else
      let s1 := {| json := json s; blobs := blobs s; events := events s;
                   log_ids := {[event_id e]} ∪ log_ids s |} in
      if event_log_max_items (capacity engine) <=? len (events s1) then
        (Err (store_budget_error ("event log items "
                +:+ pretty (saturating_add (len (events s1)) 1) +:+ " exceed "
                +:+ pretty (event_log_max_items (capacity engine)))),
         {| json := json s1; blobs := blobs s1; events := events s1;
            log_ids := log_ids s1 ∖ {[event_id e]} |})
      else (Ok tt, {| json := json s1; blobs := blobs s1;
                      events := (events s1 ++ [e])%list; log_ids := log_ids s1 |})
  end.

Definition get_json_value (engine : InMemoryStoreEngine) (s : InMemoryStoreEngineState)
    (ns k : string) : result (option Value) :=
  _ ← enforce_logical_key_budget (capacity engine) ns k "in_memory_json_read";
  Ok (json s !! ((ns, k) : address)).

Definition put_json_value (engine : InMemoryStoreEngine) (s : InMemoryStoreEngineState)
    (ns k : string) (v : Value) : result unit * InMemoryStoreEngineState :=
  let a : address := (ns, k) in
  match enforce_logical_key_budget (capacity engine) ns k "in_memory_json_write" with
  | Err e => (Err e, s)
  | Ok _ =>
    if bool_decide (json s !! a = None)
       && (kv_max_entries (capacity engine) <=? N.of_nat (size (json s)))
    then (Err (store_budget_error ("kv entries "
                 +:+ pretty (saturating_add (N.of_nat (size (json s))) 1) +:+ " exceed "
                 +:+ pretty (kv_max_entries (capacity engine)))), s)
    else (Ok tt, set_json s (<[a := v]> (json s)))
  end.

Definition delete_json_value (engine : InMemoryStoreEngine) (s : InMemoryStoreEngineState)
    (ns k : string) : result bool * InMemoryStoreEngineState :=
  let a : address := (ns, k) in
  match enforce_logical_key_budget (capacity engine) ns k "in_memory_json_delete" with
  | Err e => (Err e, s)
  | Ok _ => (Ok (bool_decide (is_Some (json s !! a))), set_json s (delete a (json s)))
  end.

Definition keys_of_namespace {A} (m : gmap address A) (ns : string) : list string :=
  sort_strings ((filter (λ a : address, a.1 = ns) (btree_map_iter m).*1).*2).

Definition list_json_keys (engine : InMemoryStoreEngine) (s : InMemoryStoreEngineState)
    (ns : string) : result (list string) :=
  _ ← enforce_logical_key_budget (capacity engine) ns "" "in_memory_json_list";
  Ok (keys_of_namespace (json s) ns).

Definition get_blob (engine : InMemoryStoreEngine) (s : InMemoryStoreEngineState)
    (ns k : string) : result (option bytes) :=
  _ ← enforce_logical_key_budget (capacity engine) ns k "in_memory_blob_read";
  Ok (blobs s !! ((ns, k) : address)).

Definition put_blob (engine : InMemoryStoreEngine) (s : InMemoryStoreEngineState)
    (ns k : string) (v : bytes) : result unit * InMemoryStoreEngineState :=
  let a : address := (ns, k) in
  match enforce_logical_key_budget (capacity engine) ns k "in_memory_blob_write" with
  | Err e => (Err e, s)
  | Ok _ =>
    let previous := match blobs s !! a with Some b => len b | None => 0 end in
    let next_bytes := saturating_add (blob_sum (blobs s) - previous) (len v) in
    if blob_max_bytes (capacity engine) <? next_bytes
    then (Err (store_budget_error ("blob bytes " +:+ pretty next_bytes +:+ " exceed "
                 +:+ pretty (blob_max_bytes (capacity engine)))), s)
    else (Ok tt, set_blobs s (<[a := v]> (blobs s)))
  end.

Definition delete_blob (engine : InMemoryStoreEngine) (s : InMemoryStoreEngineState)
    (ns k : string) : result bool * InMemoryStoreEngineState :=
  let a : address := (ns, k) in
  match enforce_logical_key_budget (capacity engine) ns k "in_memory_blob_delete" with
  | Err e => (Err e, s)
  | Ok _ => (Ok (bool_decide (is_Some (blobs s !! a))), set_blobs s (delete a (blobs s)))
  end.

Definition list_blob_keys (engine : InMemoryStoreEngine) (s : InMemoryStoreEngineState)
    (ns : string) : result (list string) :=
  _ ← enforce_logical_key_budget (capacity engine) ns "" "in_memory_blob_list";
  Ok (keys_of_namespace (blobs s) ns).

(** ** Snapshot import *)

Record StoreSnapshotJsonDoc := {
  doc_namespace : string; doc_key : string; doc_value : Value;
}.
Record StoreSnapshotBlob := {
  sblob_namespace : string; sblob_key : string; sblob_value : bytes;
}.
Record StoreSnapshotReplaceReport := {
  json_deleted : N; blobs_deleted : N; events_imported : N;
}.

Definition doc_address (d : StoreSnapshotJsonDoc) : address := (doc_namespace d, doc_key d).
Definition sblob_address (b : StoreSnapshotBlob) : address :=
  (sblob_namespace b, sblob_key b).

Definition validate_restore_post_image_blob_bytes (c : StoreCapacityBudget)
    (retained replacement : list N) : result N :=
  total ← try_fold (add_or (store_budget_error
             "restore post-image blob byte count overflow")) 0 (retained ++ replacement)%list;
  _ ← ensure (total <=? blob_max_bytes c)
        (store_budget_error ("restore post-image blob bytes " +:+ pretty total
           +:+ " exceed " +:+ pretty (blob_max_bytes c)));
  Ok total.

Definition check_snapshot_events (c : StoreCapacityBudget) (l : list MemoryStoreEvent)
    : result (gset string) :=
  try_fold (λ (ids : gset string) e,
    _ ← enforce_event_key_budget c e "in_memory_snapshot_import";
    if decide (event_id e ∈ ids)
    then Err (Config "store_event_log" ("duplicate event id " +:+ event_id e))
    else Ok ({[event_id e]} ∪ ids)) ∅ l.

Definition check_snapshot_keys (c : StoreCapacityBudget) (l : list address)
    : result (gset address) :=
  try_fold (λ (keys : gset address) a,
    _ ← enforce_logical_key_budget c a.1 a.2 "in_memory_snapshot_import";
    Ok ({[a]} ∪ keys)) ∅ l.

Definition insert_docs (docs : list StoreSnapshotJsonDoc) (m : gmap address Value)
    : gmap address Value :=
  foldl (λ m d, <[doc_address d := doc_value d]> m) m docs.
Definition insert_blobs (l : list StoreSnapshotBlob) (m : gmap address bytes)
    : gmap address bytes :=
  foldl (λ m b, <[sblob_address b := sblob_value b]> m) m l.

Definition retained {A : Type} (namespaces : gset string) (m : gmap address A) : gmap address A :=
  filter (λ p, p.1.1 ∉ namespaces) m.

Definition deleted_count {A : Type} (namespaces : gset string) (keys : gset address)
    (m : gmap address A) : N :=
  N.of_nat (size (filter (λ p, p.1.1 ∈ namespaces ∧ p.1 ∉ keys) m)).

Definition replace_snapshot (engine : InMemoryStoreEngine) (s : InMemoryStoreEngineState)
    (json_namespaces blob_namespaces : list string)
    (docs : list StoreSnapshotJsonDoc) (new_blobs : list StoreSnapshotBlob)
    (new_events : list MemoryStoreEvent)
    : result StoreSnapshotReplaceReport * InMemoryStoreEngineState :=
  let c := capacity engine in
  let json_ns : gset string := list_to_set json_namespaces in
  let blob_ns : gset string := list_to_set blob_namespaces in
  match
    (_ ← ensure (len new_events <=? event_log_max_items c)
           (store_budget_error ("event log items " +:+ pretty (len new_events)
              +:+ " exceed " +:+ pretty (event_log_max_items c)));
     ids ← check_snapshot_events c new_events;
     json_keys ← check_snapshot_keys c (doc_address <$> docs);
     blob_keys ← check_snapshot_keys c (sblob_address <$> new_blobs);
     let final_json := saturating_add (N.of_nat (size (retained json_ns (json s))))
                         (len docs) in
     _ ← ensure (final_json <=? kv_max_entries c)
           (store_budget_error ("kv entries " +:+ pretty final_json +:+ " exceed "
                                +:+ pretty (kv_max_entries c)));
     _ ← validate_restore_post_image_blob_bytes c
           ((λ p, len p.2) <$> btree_map_iter (retained blob_ns (blobs s)))
           ((λ b, len (sblob_value b)) <$> new_blobs);
     Ok (ids, json_keys, blob_keys))
  with
  | Err e => (Err e, s)
  | Ok (ids, json_keys, blob_keys) =>
      (Ok {| json_deleted := deleted_count json_ns json_keys (json s);
             blobs_deleted := deleted_count blob_ns blob_keys (blobs s);
             events_imported := len new_events |},
       {| json := insert_docs docs (retained json_ns (json s));
          blobs := insert_blobs new_blobs (retained blob_ns (blobs s));
          events := new_events; log_ids := ids |})
  end.

End Engine.
