(* ===== verification/StoreFacts.v ===== *)
(** * Store kernel: lemmas

    The facts the store theorems rest on: iteration order, maps under a list of
    writes, the dependency closure, and the mutation loop of the planner seen
    as a list of writes. *)

From S2P Require Import Prelude RustStr Profile Resource Budget BudgetCompile BudgetFacts BudgetAuthority.
From S2P Require Import StoreTypes StoreTransaction StorePlan InMemoryStore.
From stdpp Require Import sorting.

Local Open Scope N_scope.

(** ** Iteration *)

Lemma btree_map_iter_perm {A} (m : gmap address A) : btree_map_iter m ≡ₚ map_to_list m.
Proof. apply merge_sort_Permutation. Qed.

Lemma elem_of_btree_map_iter {A} (m : gmap address A) a v :
  (a, v) ∈ btree_map_iter m ↔ m !! a = Some v.
Proof. rewrite btree_map_iter_perm. apply elem_of_map_to_list. Qed.

Lemma elem_of_btree_set_iter (s : gset address) a : a ∈ btree_set_iter s ↔ a ∈ s.
Proof.
  unfold btree_set_iter. rewrite (merge_sort_Permutation addr_le). apply elem_of_elements.
Qed.

Lemma pop_first_None s : pop_first s = None → s = ∅.
Proof.
  unfold pop_first. destruct (btree_set_iter s) as [|a l] eqn:E; [|done].
  intros _. apply elem_of_equiv_empty_L. intros x Hx%elem_of_btree_set_iter.
  rewrite E in Hx. by apply elem_of_nil in Hx.
Qed.

Lemma pop_first_Some s a s' : pop_first s = Some (a, s') → a ∈ s ∧ s' = s ∖ {[a]}.
Proof.
  unfold pop_first. destruct (btree_set_iter s) as [|b l] eqn:E; [done|].
  intros [= -> <-]. split; [|done]. apply elem_of_btree_set_iter. rewrite E. by left.
Qed.

(** ** Loops that only check *)

Lemma try_each_Ok {A} (check : A → result unit) l :
  try_each check l = Ok tt ↔ Forall (λ x, check x = Ok tt) l.
Proof.
  unfold try_each. induction l as [|x l IH]; cbn; [by rewrite Forall_nil|].
  rewrite Forall_cons, <- IH. destruct (check x) as [[]|e]; cbn; [tauto|].
  by split; [|intros [? _]].
Qed.

Lemma try_each_elem {A} (check : A → result unit) l u x :
  try_each check l = Ok u → x ∈ l → check x = Ok tt.
Proof.
  destruct u. intros H Hx. apply try_each_Ok in H.
  by eapply (proj1 (Forall_forall _ _)) in H.
Qed.

(** ** Lists of writes

    [Some v] writes [v], [None] deletes. *)
Section Writes.
Context {A : Type}.
Implicit Types (m : gmap address A) (ops : list (address * option A)).

Definition write m (p : address * option A) : gmap address A :=
  match p.2 with Some v => <[p.1 := v]> m | None => delete p.1 m end.

Definition writes ops m : gmap address A := foldl write m ops.

Lemma lookup_write m p a :
  write m p !! a = if decide (p.1 = a) then p.2 else m !! a.
Proof.
  unfold write. destruct p as [b [v|]]; cbn; case_decide; subst.
  - apply lookup_insert_eq.
  - by apply lookup_insert_ne.
  - apply lookup_delete_eq.
  - by apply lookup_delete_ne.
Qed.

(** The last write to an address decides. *)
Lemma lookup_writes ops m a :
  writes ops m !! a = default (m !! a) (collect_map ops !! a).
Proof.
  unfold writes, collect_map. induction ops as [|p l IH] using rev_ind; [done|].
  rewrite !foldl_app; cbn. rewrite lookup_write, lookup_insert, IH.
  by case_decide.
Qed.

Lemma collect_map_not_in ops a : a ∉ ops.*1 → collect_map ops !! a = None.
Proof.
  unfold collect_map. induction ops as [|p l IH] using rev_ind; [done|].
  rewrite foldl_app, fmap_app; cbn. intros Ha.
  rewrite lookup_insert_ne by set_solver. apply IH. set_solver.
Qed.

Lemma collect_map_in ops a o : collect_map ops !! a = Some o → (a, o) ∈ ops.
Proof.
  unfold collect_map. induction ops as [|p l IH] using rev_ind; [done|].
  rewrite foldl_app; cbn. rewrite lookup_insert. case_decide.
  - intros [= <-]. subst. destruct p; set_solver.
  - intros H0%IH. set_solver.
Qed.

Lemma collect_map_unique ops a o :
  NoDup ops.*1 → (a, o) ∈ ops → collect_map ops !! a = Some o.
Proof.
  intros Hnd Hin. destruct (collect_map ops !! a) as [o'|] eqn:E.
  - apply collect_map_in in E. f_equal.
    apply list_elem_of_lookup in Hin as [i Hi]. apply list_elem_of_lookup in E as [j Hj].
    assert (i = j) as ->.
    { eapply (NoDup_lookup _ _ _ _ Hnd); rewrite list_lookup_fmap, ?Hi, ?Hj; done. }
    congruence.
  - exfalso. revert E Hin. rewrite <- not_elem_of_dom.
    clear. unfold collect_map. induction ops as [|p l IH] using rev_ind; [set_solver|].
    rewrite foldl_app; cbn. rewrite dom_insert.
    intros Hn Hin. apply elem_of_app in Hin as [Hin|Hin]; [set_solver|].
    apply list_elem_of_singleton in Hin as <-. set_solver.
Qed.

(** Writes that avoid a part of the map leave that part alone. *)
Lemma writes_union ops m rest :
  m ##ₘ rest → (∀ a, a ∈ ops.*1 → rest !! a = None) →
  writes ops (m ∪ rest) = writes ops m ∪ rest ∧ writes ops m ##ₘ rest.
Proof.
  revert m. induction ops as [|[b o] ops IH]; intros m Hd Ha; cbn; [done|].
  assert (Hb : rest !! b = None) by (apply Ha; set_solver).
  assert (write (m ∪ rest) (b, o) = write m (b, o) ∪ rest) as ->.
  { unfold write; cbn. destruct o; [by rewrite insert_union_l|].
    rewrite delete_union. f_equal. by apply delete_id. }
  apply IH; [|set_solver].
  unfold write; cbn. destruct o; [by apply map_disjoint_insert_l|].
  by apply map_disjoint_delete_l.
Qed.
End Writes.

(** ** Blob byte sums *)

Lemma blob_sum_empty : blob_sum ∅ = 0.
Proof. done. Qed.

Lemma blob_sum_insert m a b :
  m !! a = None → blob_sum (<[a := b]> m) = len b + blob_sum m.
Proof.
  intros H. unfold blob_sum. apply (map_fold_insert_L (λ _ b acc, len b + acc)); [|done].
  intros. lia.
Qed.

Lemma blob_sum_union m1 m2 :
  m1 ##ₘ m2 → blob_sum (m1 ∪ m2) = blob_sum m1 + blob_sum m2.
Proof.
  induction m1 as [|a b m1 Hn IH] using map_ind; intros Hd.
  - by rewrite (left_id_L ∅ (∪)).
  - apply map_disjoint_insert_l in Hd as [Hn2 Hd].
    rewrite <- insert_union_l, !blob_sum_insert; [|done|].
    + rewrite IH by done. lia.
    + rewrite lookup_union_None; done.
Qed.

Lemma blob_sum_lookup m a :
  blob_sum m = match m !! a with Some b => len b | None => 0 end + blob_sum (delete a m).
Proof.
  destruct (m !! a) as [b|] eqn:E.
  - rewrite <- (insert_delete_id m a b) at 1 by done.
    apply blob_sum_insert, lookup_delete_eq.
  - rewrite delete_id by done. lia.
Qed.

(** ** The dependency closure *)
Section Closure.
Context {codec : StoreCodec} {gov : OwnerGovernance} {rcodec : ReportCodec}.
Implicit Types (visited pending : gset address) (cap : StoreCapacityBudget).

(** [d] is an edge of the document [v] of namespace [ns]. *)
Definition depends_on (ns : string) (v : Value) (d : address) : Prop :=
  (∃ l, long_term_source_dependency_addresses ns v = Ok l ∧ d ∈ l)
  ∨ d ∈ (subject_soul_transaction_dependencies ns v).1
  ∨ (∃ l, procedural_dependency_addresses ns v = Ok l ∧ d ∈ l).

Record enqueued visited pending pending' (l : address → Prop) : Prop := {
  enq_mono : pending ⊆ pending';
  enq_all : ∀ d, l d → d ∈ visited ∪ pending';
  enq_disj : visited ## pending → visited ## pending';
}.

Lemma emit_enqueued cap visited pending a pending' :
  emit cap visited pending a = Ok pending' → enqueued visited pending pending' (eq a).
Proof.
  unfold emit. destruct (_ && _) eqn:E; intros H; inv_ok; split_bool.
  - split; set_solver.
  - apply andb_false_iff in E. split; [done| |done]. intros d <-.
    destruct E; split_bool; set_solver.
Qed.

Lemma emits_enqueued cap visited pending l pending' :
  try_fold (emit cap visited) pending l = Ok pending' →
  enqueued visited pending pending' (.∈ l).
Proof.
  revert pending. induction l as [|a l IH]; intros pending H; cbn in H; inv_ok.
  - split; set_solver.
  - apply emit_enqueued in E as [H1 H2 H3]. apply IH in H as [H4 H5 H6].
    split; [set_solver| |auto]. intros d [->|Hd]%elem_of_cons; [|auto].
    specialize (H2 a eq_refl). set_solver.
Qed.

Local Ltac ok_unique :=
  match goal with H1 : ?f = Ok ?x, H2 : ?f = Ok ?y |- _ =>
    let E := fresh in assert (x = y) as E by congruence; subst end.

Lemma enqueue_enqueued cap visited pending ns v pending' :
  enqueue cap visited pending ns v = Ok pending' →
  enqueued visited pending pending' (depends_on ns v).
Proof.
  unfold enqueue. intros H. destruct (subject_soul_transaction_dependencies ns v) as [soul e] eqn:Es.
  inv_ok.
  repeat match goal with Hf : try_fold (emit _ _) _ _ = Ok _ |- _ =>
    apply emits_enqueued in Hf as [] end.
  split; [set_solver| |auto].
  intros d [(l & Hl & Hd)|[Hd|(l & Hl & Hd)]].
  - ok_unique. set_solver.
  - rewrite Es in Hd. set_solver.
  - ok_unique. set_solver.
Qed.

Lemma enqueue_fold {B} cap visited (f : B → string * Value) l pending pending' :
  try_fold (λ p x, enqueue cap visited p (f x).1 (f x).2) pending l = Ok pending' →
  enqueued visited pending pending'
    (λ d, ∃ x, x ∈ l ∧ depends_on (f x).1 (f x).2 d).
Proof.
  revert pending. induction l as [|x l IH]; intros pending H; cbn in H; inv_ok.
  - split; set_solver.
  - apply enqueue_enqueued in E as [H1 H2 H3]. apply IH in H as [H4 H5 H6].
    split; [set_solver| |auto].
    intros d (y & [->|Hy]%elem_of_cons & Hd); [|eauto].
    specialize (H2 d Hd). set_solver.
Qed.

(** Invariant of the worklist loop: what was visited is what the store holds
    there, and every edge found so far is visited or pending. *)
Record closure_inv (read : address → option Value) (roots : list (string * Value))
    visited pending (js : gmap address Value) : Prop := {
  ci_disj : visited ## pending;
  ci_read : ∀ a, a ∈ visited → js !! a = read a;
  ci_dom : dom js ⊆ visited;
  ci_deps : ∀ a v d, js !! a = Some v → depends_on a.1 v d → d ∈ visited ∪ pending;
  ci_roots : ∀ ns v d, (ns, v) ∈ roots → depends_on ns v d → d ∈ visited ∪ pending;
}.

Lemma closure_inv_absent read roots visited pending js a :
  closure_inv read roots visited pending js → a ∈ pending → read a = None →
  closure_inv read roots ({[a]} ∪ visited) (pending ∖ {[a]}) js.
Proof.
  intros [Hd Hr Hm Hs Hroot] Ha Hn. split.
  - set_solver.
  - intros b [->%elem_of_singleton|Hb]%elem_of_union; [|auto].
    rewrite Hn. apply not_elem_of_dom. set_solver.
  - set_solver.
  - intros b v d Hb Hdep. specialize (Hs b v d Hb Hdep). destruct (decide (d = a)); set_solver.
  - intros ns v d Hb Hdep. specialize (Hroot ns v d Hb Hdep).
    destruct (decide (d = a)); set_solver.
Qed.

Lemma closure_inv_present read roots visited pending js a v pending' :
  closure_inv read roots visited pending js → a ∈ pending → read a = Some v →
  enqueued ({[a]} ∪ visited) (pending ∖ {[a]}) pending' (depends_on a.1 v) →
  closure_inv read roots ({[a]} ∪ visited) pending' (<[a := v]> js).
Proof.
  intros [Hd Hr Hm Hs Hroot] Ha Hn [H1 H2 H3].
  assert (Hold : ∀ d, d ∈ visited ∪ pending → d ∈ {[a]} ∪ visited ∪ pending').
  { intros d Hin. destruct (decide (d = a)); set_solver. }
  split.
  - apply H3. set_solver.
  - intros b Hb. destruct (decide (a = b)) as [<-|].
    + by rewrite lookup_insert_eq.
    + rewrite lookup_insert_ne by done. apply Hr. set_solver.
  - rewrite dom_insert. set_solver.
  - intros b w d. rewrite lookup_insert. case_decide as Hb.
    + intros [= <-] Hdep. subst b. auto.
    + eauto.
  - eauto.
Qed.

(** A reader that answers with what the store holds, or with an error. *)
Definition reads_exactly (reader : address → N → result (option Value))
    (read : address → option Value) : Prop :=
  ∀ a remaining o, reader a remaining = Ok o → o = read a.

Lemma drain_closed cap reader read roots fuel visited pending total js js' :
  reads_exactly reader read →
  closure_inv read roots visited pending js →
  drain cap reader fuel visited pending total js = Some (Ok js') →
  ∃ visited', visited ⊆ visited' ∧ js ⊆ js' ∧ closure_inv read roots visited' ∅ js'.
Proof.
  intros Hrd. revert visited pending total js. induction fuel as [|fuel IH];
    intros visited pending total js Hi H; cbn in H; [done|].
  destruct (pop_first pending) as [[a rest]|] eqn:Hp.
  2:{ apply pop_first_None in Hp as ->. simplify_eq. eauto. }
  apply pop_first_Some in Hp as [Ha ->].
  rewrite bool_decide_eq_false_2 in H by (destruct Hi; set_solver).
  destruct (_ || _); [done|].
  match type of H with match ?r with _ => _ end = _ => destruct r as [[[t p] j]|] eqn:Hr; [|done] end.
  inv_ok. match goal with Hf : reader _ _ = Ok ?o |- _ => apply Hrd in Hf as Hread; destruct o as [v|] end;
    symmetry in Hread; inv_ok.
  - match goal with Hq : enqueue _ _ _ _ _ = Ok _ |- _ => apply enqueue_enqueued in Hq end.
    pose proof (closure_inv_present _ _ _ _ _ _ _ _ Hi Ha Hread ltac:(eassumption)) as Hi'.
    assert (Hna : js !! a = None).
    { apply not_elem_of_dom. destruct Hi. set_solver. }
    destruct (IH _ _ _ _ Hi' H) as (vs & Hv & Hj & Hc). exists vs. split_and!; [set_solver| |done].
    etransitivity; [|exact Hj]. by apply insert_subseteq.
  - pose proof (closure_inv_absent _ _ _ _ _ _ Hi Ha Hread) as Hi'.
    destruct (IH _ _ _ _ Hi' H) as (vs & Hv & Hj & Hc). exists vs. split_and!; [set_solver|done|done].
Qed.

(** Termination: every iteration visits a new address, and the visited
    addresses are bounded by the capacity. *)
Lemma drain_total cap reader fuel visited pending total js :
  visited ## pending →
  N.of_nat (size visited) ≤ kv_max_entries cap →
  (N.to_nat (kv_max_entries cap) + 2 ≤ fuel + size visited)%nat →
  drain cap reader fuel visited pending total js ≠ None.
Proof.
  revert visited pending total js. induction fuel as [|fuel IH];
    intros visited pending total js Hd Hs Hf; [lia|].
  cbn. destruct (pop_first pending) as [[a rest]|] eqn:Hp; [|done].
  apply pop_first_Some in Hp as [Ha ->].
  rewrite bool_decide_eq_false_2 by set_solver.
  destruct (_ || _) eqn:Hb; [done|]. split_bool.
  match goal with |- match ?r with _ => _ end ≠ _ => destruct r as [[[t p] j]|] eqn:Hr; [|done] end.
  assert (Hsz : size ({[a]} ∪ visited) = S (size visited)).
  { rewrite size_union by set_solver. by rewrite size_singleton. }
  apply IH; [|lia|lia].
  inv_ok. match goal with Hf : reader _ _ = Ok ?o |- _ => destruct o end; inv_ok; [|set_solver].
  match goal with Hq : enqueue _ _ _ _ _ = Ok _ |- _ => apply enqueue_enqueued in Hq as [_ _ Hdj] end.
  apply Hdj. set_solver.
Qed.

(** The closed part of the store a transaction works on. *)
Record closed_image (read : address → option Value) (r : StoreTransactionRequest)
    (js0 js : gmap address Value) : Prop := {
  cl_extends : js0 ⊆ js;
  cl_exact : ∀ a v, js !! a = Some v → read a = Some v;
  cl_read_set : ∀ a, a ∈ rs_json (read_set r) → js !! a = read a;
  cl_deps : ∀ a v d, js !! a = Some v → depends_on a.1 v d → js !! d = read d;
  cl_proposed : ∀ ns k v d,
    PutJson ns k v ∈ mutations r → depends_on ns v d → js !! d = read d;
}.

Lemma closure_roots_inv r cap js read total pending :
  (∀ a, a ∈ rs_json (read_set r) ∪ dom js → js !! a = read a) →
  closure_roots r cap js = Ok (total, pending) →
  closure_inv read (omap proposed_json (mutations r))
    (rs_json (read_set r) ∪ dom js) pending js
  ∧ N.of_nat (size (rs_json (read_set r) ∪ dom js)) ≤ kv_max_entries cap.
Proof.
  intros Hread H. unfold closure_roots in H. inv_ok. split_bool. split; [|done].
  match goal with H1 : try_fold _ ∅ _ = Ok _, H2 : try_fold _ _ (omap _ _) = Ok _ |- _ =>
    apply (enqueue_fold _ _ (λ p : address * Value, (p.1.1, p.2))) in H1 as [_ Hdoc Hd1];
    apply (enqueue_fold _ _ id) in H2 as [Hmono Hroot Hd2] end.
  split; [set_solver|done|set_solver| |].
  - intros a v d Ha Hdep.
    assert (Hin := Hdoc d ltac:(exists (a, v); by rewrite elem_of_btree_map_iter)).
    set_solver.
  - intros ns v d Hin Hdep. apply Hroot. by exists (ns, v).
Qed.

Lemma closure_fuel_enough r cap js reader total pending :
  closure_roots r cap js = Ok (total, pending) →
  drain cap reader (closure_fuel cap) (rs_json (read_set r) ∪ dom js) pending total js ≠ None.
Proof.
  intros H. assert (rs_json (read_set r) ∪ dom js ## pending
    ∧ N.of_nat (size (rs_json (read_set r) ∪ dom js)) ≤ kv_max_entries cap) as [Hd Hs].
  { unfold closure_roots in H. inv_ok. split_bool. split; [|done].
    match goal with H1 : try_fold _ ∅ _ = Ok _, H2 : try_fold _ _ (omap _ _) = Ok _ |- _ =>
      apply (enqueue_fold _ _ (λ p : address * Value, (p.1.1, p.2))) in H1 as [_ _ Hd1];
      apply (enqueue_fold _ _ id) in H2 as [_ _ Hd2] end.
    set_solver. }
  apply drain_total; [done|done|unfold closure_fuel; lia].
Qed.

Lemma expand_closed r cap js reader read js' :
  reads_exactly reader read →
  (∀ a, a ∈ rs_json (read_set r) ∪ dom js → js !! a = read a) →
  expand_owner_transaction_dependencies r cap js reader = Ok js' →
  closed_image read r js js'.
Proof.
  intros Hrd Hread H. unfold expand_owner_transaction_dependencies in H.
  destruct (closure_roots r cap js) as [[total pending]|] eqn:Hr; [|done].
  pose proof (closure_fuel_enough _ _ _ reader _ _ Hr) as Hfuel.
  destruct (closure_roots_inv _ _ _ _ _ _ Hread Hr) as [Hi _].
  destruct (drain _ _ _ _ _ _ _) as [res|] eqn:Hdr; [|done]. cbn in H. subst res.
  destruct (drain_closed _ _ _ _ _ _ _ _ _ _ Hrd Hi Hdr) as (vs & Hv & Hj & [_ Hcr Hcd Hcs Hcroot]).
  split; [done|..].
  - intros a v Ha. rewrite <- Hcr; [done|]. apply Hcd. by eapply elem_of_dom_2.
  - intros a Ha. apply Hcr. set_solver.
  - intros a v d Ha Hd. apply Hcr. specialize (Hcs a v d Ha Hd). set_solver.
  - intros ns k v d Hm Hd. apply Hcr. enough (Hin : (ns, v) ∈ omap proposed_json (mutations r)).
    { specialize (Hcroot ns v d Hin Hd). set_solver. }
    apply list_elem_of_omap. by exists (PutJson ns k v).
Qed.

(** A reader that may fail closes the read set like the store itself does. *)
Lemma drain_agrees cap reader read fuel visited pending total js js' :
  reads_exactly reader read →
  drain cap reader fuel visited pending total js = Some (Ok js') →
  drain cap (λ a _, Ok (read a)) fuel visited pending total js = Some (Ok js').
Proof.
  intros Hrd. revert visited pending total js. induction fuel as [|fuel IH];
    intros visited pending total js H; [done|]. cbn in H |- *.
  destruct (pop_first pending) as [[a rest]|]; [|done].
  destruct (bool_decide _); [by apply IH|]. destruct (_ || _); [done|].
  destruct (enforce_logical_key_budget _ _ _ _); cbn in H |- *; [|done].
  destruct (reader a _) as [o|] eqn:Hr; cbn in H; [|done]. apply Hrd in Hr as ->.
  match type of H with match ?r with _ => _ end = _ => destruct r as [[[t p] j]|]; [|done] end.
  by apply IH.
Qed.

Lemma expand_agrees r cap js reader read js' :
  reads_exactly reader read →
  expand_owner_transaction_dependencies r cap js reader = Ok js' →
  expand_owner_transaction_dependencies r cap js (λ a _, Ok (read a)) = Ok js'.
Proof.
  intros Hrd. unfold expand_owner_transaction_dependencies.
  destruct (closure_roots r cap js) as [[total pending]|]; [|done].
  destruct (drain cap reader _ _ _ _ _) as [res|] eqn:Hd; [|done].
  change (default _ (Some res)) with res. intros ->.
  by rewrite (drain_agrees _ _ _ _ _ _ _ _ _ Hrd Hd).
Qed.

End Closure.
