(* ===== verification/StorePlanFacts.v ===== *)
(** * Store kernel: the planner and the writer as lists of writes

    The planner works on the touched part of the store, the in-memory engine
    on the whole of it; both execute the same effective mutations.  This file
    relates the two through the list of writes they perform, and derives what
    a successful plan has checked. *)

From S2P Require Import Prelude RustStr Profile Resource Budget BudgetCompile BudgetFacts BudgetAuthority.
From S2P Require Import StoreTypes StoreTransaction StorePlan InMemoryStore StoreFacts.

Local Open Scope N_scope.

Section PlanFacts.
Context {codec : StoreCodec} {gov : OwnerGovernance} {rcodec : ReportCodec}.
Implicit Types (ms : list StoreEngineMutation) (cap : StoreCapacityBudget).

(** ** Primitive mutations as writes *)

Definition json_op (m : StoreEngineMutation) : option (address * option Value) :=
  match m with
  | PutJson ns k v => Some ((ns, k), Some v)
  | DeleteJson ns k => Some ((ns, k), None)
  | _ => None
  end.

Definition blob_op (m : StoreEngineMutation) : option (address * option bytes) :=
  match m with
  | PutBlob ns k v => Some ((ns, k), Some v)
  | DeleteBlob ns k => Some ((ns, k), None)
  | _ => None
  end.

Definition event_op (m : StoreEngineMutation) : option MemoryStoreEvent :=
  match m with AppendEvent e => Some e | _ => None end.

Definition primitive (m : StoreEngineMutation) : Prop :=
  match m with DeleteJsonIfPresent _ _ _ | DeleteBlobIfPresent _ _ _ => False | _ => True end.

(** ** The mutation loop *)

Record loop_effect (s : LoopState) ms (s' : LoopState) : Prop := {
  le_primitive : Forall primitive ms;
  le_json : bt_json (next s') = writes (omap json_op ms) (bt_json (next s));
  le_blobs : bt_blobs (next s') = writes (omap blob_op ms) (bt_blobs (next s));
  le_ids : event_ids s' = event_ids s ++ (event_id <$> omap event_op ms);
  le_json_fresh : NoDup (omap json_op ms).*1
    ∧ ∀ a, a ∈ (omap json_op ms).*1 → a ∉ mutated_json s;
  le_blob_fresh : NoDup (omap blob_op ms).*1
    ∧ ∀ a, a ∈ (omap blob_op ms).*1 → a ∉ mutated_blobs s;
  le_ids_fresh : NoDup (event_id <$> omap event_op ms)
    ∧ ∀ i, i ∈ (event_id <$> omap event_op ms) → i ∉ known_event_ids s;
}.

Lemma reject_duplicate_Ok seen a seen' :
  reject_duplicate_mutation seen a = Ok seen' → (a ∉ seen) ∧ seen' = ({[a]} ∪ seen).
Proof. unfold reject_duplicate_mutation. case_decide; [done|]. by intros [= <-]. Qed.

Lemma fresh_cons {K : Type} `{Countable K} (k : K) (l : list K) (seen : gset K) :
  k ∉ seen →
  (NoDup l ∧ ∀ x, x ∈ l → x ∉ ({[k]} ∪ seen : gset K)) →
  NoDup (k :: l) ∧ ∀ x, x ∈ k :: l → x ∉ seen.
Proof.
  intros Hk [Hnd Hl]. split.
  - apply NoDup_cons_2; [|done]. intros Hin. specialize (Hl _ Hin). set_solver.
  - intros x [->|Hx]%elem_of_cons; [done|]. specialize (Hl _ Hx). set_solver.
Qed.

Lemma loop_effect_ok cap s ms s' :
  try_fold (plan_mutation cap) s ms = Ok s' → loop_effect s ms s'.
Proof.
  revert s. induction ms as [|m ms IH]; intros s H; cbn in H; inv_ok.
  - split; cbn; rewrite ?app_nil_r; try done; split; (constructor || set_solver).
  - apply IH in H as [H1 H2 H3 H4 H5 H6 H7].
    destruct m; cbn in E; inv_ok;
      repeat match goal with H : reject_duplicate_mutation _ _ = Ok _ |- _ =>
        apply reject_duplicate_Ok in H as [? ->] end;
      split_bool; cbn in *; (split; cbn; [by constructor|..]); try done;
      try (by apply fresh_cons).
    rewrite H4. by rewrite <- app_assoc.
Qed.

(** ** The in-memory writer *)

Definition written (s : InMemoryStoreEngineState) (jops : list (address * option Value))
    (bops : list (address * option bytes)) (es : list MemoryStoreEvent)
    : InMemoryStoreEngineState :=
  {| json := writes jops (json s); blobs := writes bops (blobs s);
     events := events s ++ es;
     log_ids := list_to_set (event_id <$> es) ∪ log_ids s |}.

Lemma writer_effect s ms :
  Forall primitive ms →
  apply_in_memory_transaction_plan s ms
  = (Ok tt, written s (omap json_op ms) (omap blob_op ms) (omap event_op ms)).
Proof.
  intros Hp. revert s. induction Hp as [|m ms Hm Hp IH]; intros s.
  - unfold written; cbn. rewrite app_nil_r, (left_id_L ∅ (∪)). by destruct s.
  - destruct m; try done; cbn [apply_in_memory_transaction_plan]; rewrite IH;
      unfold written, writes; cbn; try done.
    by rewrite <- app_assoc, (assoc_L (∪)), (comm_L (∪) {[_]} (list_to_set _)).
Qed.

(** ** Conditional mutations *)

Definition materialize_list (current : BackendTransactionState) ms eff : Prop :=
  ∃ ls, Forall2 (λ m l, materialize_mutation current m = Ok l) ms ls ∧ eff = concat ls.

Lemma materialize_fold current ms acc eff :
  try_fold (λ acc m, l ← materialize_mutation current m; Ok (acc ++ l)) acc ms = Ok eff →
  ∃ eff', eff = acc ++ eff' ∧ materialize_list current ms eff'.
Proof.
  revert acc. induction ms as [|m ms IH]; intros acc H; cbn in H; inv_ok.
  - exists []. rewrite app_nil_r. split; [done|]. by exists [].
  - apply IH in H as (eff' & -> & ls & Hls & ->). rewrite <- app_assoc.
    eexists. split; [done|]. exists (a0 :: ls). by split; [constructor|].
Qed.

Lemma materialize_request r current eff :
  materialize_conditional_mutations r current = Ok eff →
  eff = with_mutations r (mutations eff)
  ∧ materialize_list current (mutations r) (mutations eff).
Proof.
  unfold materialize_conditional_mutations. intros H. inv_ok.
  apply materialize_fold in E as (eff' & -> & Hm). by destruct r.
Qed.

(** What a conditional mutation does is decided by the pre-image. *)
Definition effective_json_op (pre : gmap address Value) (m : StoreEngineMutation)
    : option (address * option Value) :=
  match m with
  | DeleteJsonIfPresent ns k _ =>
      match pre !! ((ns, k) : address) with Some _ => Some ((ns, k), None) | None => None end
  | _ => json_op m
  end.

Definition effective_blob_op (pre : gmap address bytes) (m : StoreEngineMutation)
    : option (address * option bytes) :=
  match m with
  | DeleteBlobIfPresent ns k _ =>
      match pre !! ((ns, k) : address) with Some _ => Some ((ns, k), None) | None => None end
  | _ => blob_op m
  end.

Definition emitted_event (pre_json : gmap address Value) (pre_blobs : gmap address bytes)
    (m : StoreEngineMutation) : option MemoryStoreEvent :=
  match m with
  | DeleteJsonIfPresent ns k t =>
      match pre_json !! ((ns, k) : address) with
      | Some v => match json_to_vec v with inr b => Some (materialize_bytes t b) | inl _ => None end
      | None => None
      end
  | DeleteBlobIfPresent ns k t => materialize_bytes t <$> pre_blobs !! ((ns, k) : address)
  | _ => event_op m
  end.

Record agrees (s : InMemoryStoreEngineState) (current : BackendTransactionState) ms : Prop := {
  ag_json : ∀ m a, m ∈ ms → mutation_json_address m = Some a →
              bt_json current !! a = json s !! a;
  ag_blobs : ∀ m a, m ∈ ms → mutation_blob_address m = Some a →
              bt_blobs current !! a = blobs s !! a;
}.

Lemma materialize_mutation_ops s current m l :
  (∀ a, mutation_json_address m = Some a → bt_json current !! a = json s !! a) →
  (∀ a, mutation_blob_address m = Some a → bt_blobs current !! a = blobs s !! a) →
  materialize_mutation current m = Ok l →
  omap json_op l = option_list (effective_json_op (json s) m)
  ∧ omap blob_op l = option_list (effective_blob_op (blobs s) m)
  ∧ omap event_op l = option_list (emitted_event (json s) (blobs s) m).
Proof.
  intros Hj Hb H. destruct m as [ns k v|ns k|ns k t|ns k v|ns k|ns k t|e]; cbn in H;
    try (by inv_ok).
  - unfold effective_json_op, emitted_event. rewrite <- (Hj (ns, k) eq_refl).
    destruct (bt_json current !! (ns, k)) as [before|]; inv_ok; [|done].
    unfold materialize_json in *. destruct (json_to_vec before); inv_ok. done.
  - unfold effective_blob_op, emitted_event. rewrite <- (Hb (ns, k) eq_refl).
    by destruct (bt_blobs current !! (ns, k)) as [before|]; inv_ok.
Qed.

Lemma omap_cons_option_list {X Y} (f : X → option Y) (m : X) (l : list X) :
  omap f (m :: l) = option_list (f m) ++ omap f l.
Proof. cbn. by destruct (f m). Qed.

Lemma omap_app {X Y} (f : X → option Y) (l1 l2 : list X) :
  omap f (l1 ++ l2) = omap f l1 ++ omap f l2.
Proof. induction l1 as [|x l1 IH]; cbn; [done|]. rewrite IH. by destruct (f x). Qed.

Lemma materialize_ops s current ms eff :
  agrees s current ms → materialize_list current ms eff →
  omap json_op eff = omap (effective_json_op (json s)) ms
  ∧ omap blob_op eff = omap (effective_blob_op (blobs s)) ms
  ∧ omap event_op eff = omap (emitted_event (json s) (blobs s)) ms.
Proof.
  intros [Hj Hb] (ls & Hls & ->). induction Hls as [|m l ms ls Hm Hls IH]; [done|].
  destruct (materialize_mutation_ops s current m l) as (H1 & H2 & H3); try done.
  { intros a Ha. eapply Hj; [by left|done]. }
  { intros a Ha. eapply Hb; [by left|done]. }
  destruct IH as (I1 & I2 & I3).
  { intros m' a Hin. apply Hj. by right. }
  { intros m' a Hin. apply Hb. by right. }
  cbn [concat]. by rewrite !omap_app, !omap_cons_option_list, H1, H2, H3, I1, I2, I3.
Qed.

(** ** Requests *)

(** The read set of a request covers what its checks and writes look at. *)
Record covers (r : StoreTransactionRequest) : Prop := {
  cov_pre : ∀ p, p ∈ preconditions r → json_precondition_address p ∈ rs_json (read_set r);
  cov_bpre : ∀ p, p ∈ blob_preconditions r →
               blob_precondition_address p ∈ rs_blobs (read_set r);
  cov_json : ∀ m a, m ∈ mutations r → mutation_json_address m = Some a →
               a ∈ rs_json (read_set r);
  cov_blobs : ∀ m a, m ∈ mutations r → mutation_blob_address m = Some a →
               a ∈ rs_blobs (read_set r);
}.

Lemma built_covers r : built r → covers r.
Proof.
  induction 1 as [id pre muts batch|r b Hr [H1 H2 H3 H4]].
  - split; cbn.
    + intros p Hp. apply elem_of_union_l, elem_of_list_to_set, list_elem_of_fmap. eauto.
    + intros p Hp. by apply elem_of_nil in Hp.
    + intros m a Hm Ha. apply elem_of_union_r, elem_of_list_to_set, list_elem_of_omap. eauto.
    + intros m a Hm Ha. apply elem_of_list_to_set, list_elem_of_omap. eauto.
  - destruct r, b; cbn in *; split; cbn; try done; try set_solver.
Qed.

(** ** What a successful plan has established *)

Record planned (adm : StoreTransactionAdmission) (r : StoreTransactionRequest)
    (ctx : StoreTransactionContext) (plan : StoreTransactionPlan) : Prop := {
  pl_eff : effective_request plan = with_mutations r (mutations (effective_request plan));
  pl_materialized :
    materialize_list (touched ctx) (mutations r) (mutations (effective_request plan));
  pl_pre : validate_preconditions (operation_capacity adm) (preconditions r)
             (bt_json (touched ctx)) = Ok tt;
  pl_bpre : validate_blob_preconditions (operation_capacity adm) (blob_preconditions r)
              (bt_blobs (touched ctx)) = Ok tt;
  pl_done : ∃ st u,
    loop_effect (loop_init ctx) (mutations (effective_request plan)) st
    ∧ next_touched plan = next st
    ∧ check_owners r (effective_request plan) (touched ctx) (next st) (changed_json st)
        (operation_capacity adm) = Ok tt
    ∧ account_usage (operation_capacity adm) (usage ctx) (touched ctx) (next st)
        (len (event_ids st)) = Ok u
    ∧ plan_report plan =
        {| report_transaction_id := transaction_id r;
           report_changed_json := N.of_nat (size (changed_json st));
           report_changed_blobs := N.of_nat (size (changed_blobs st));
           report_appended_events := len (event_ids st);
           report_event_ids := event_ids st;
           report_budget := backend_budget_report adm (usage ctx)
             (kv_entries u) (blob_bytes u) (event_count u) |};
}.

Lemma apply_transaction_planned adm r ctx plan :
  apply_transaction adm r ctx = Ok plan → planned adm r ctx plan.
Proof.
  unfold apply_transaction. intros H. inv_ok.
  match goal with H1 : materialize_conditional_mutations _ _ = Ok ?x |- _ =>
    apply materialize_request in H1 as [Heff Hm] end.
  repeat match goal with u : unit |- _ => destruct u end.
  split; cbn; [done|done| | |].
  - rewrite Heff in *. by destruct r.
  - rewrite Heff in *. by destruct r.
  - match goal with H1 : try_fold _ _ _ = Ok ?st |- _ =>
      exists st; eexists; apply loop_effect_ok in H1 end.
    done.
Qed.

(** ** What a successful commit has established *)

Record committed (s : InMemoryStoreEngineState) (r : StoreTransactionRequest)
    (adm : StoreTransactionAdmission) (rep : StoreTransactionReport)
    (s' : InMemoryStoreEngineState) (ctx : StoreTransactionContext)
    (plan : StoreTransactionPlan) : Prop := {
  cm_closed : closed_image (λ a, json s !! a) r
                (bt_json (read_touched s (read_set r))) (bt_json (touched ctx));
  cm_blobs : bt_blobs (touched ctx) = bt_blobs (read_touched s (read_set r));
  cm_usage : usage ctx = usage_of s;
  cm_ids : existing_event_ids ctx = colliding_event_ids s (mutations r);
  cm_planned : planned adm r ctx plan;
  cm_report : rep = plan_report plan;
  cm_state : s' = written s (omap json_op (mutations (effective_request plan)))
                    (omap blob_op (mutations (effective_request plan)))
                    (omap event_op (mutations (effective_request plan)));
}.

Lemma read_touched_json s r a :
  a ∈ rs_json (read_set r) ∪ dom (bt_json (read_touched s (read_set r))) →
  bt_json (read_touched s (read_set r)) !! a = json s !! a.
Proof.
  cbn. intros Ha. rewrite map_lookup_filter.
  destruct (json s !! a) as [v|] eqn:E; cbn; [|done].
  rewrite option_guard_True; [done|].
  apply elem_of_union in Ha as [Ha|Ha]; [by left|].
  apply elem_of_dom in Ha as [w Hw]. by apply map_lookup_filter_Some in Hw as [_ Hw].
Qed.

Lemma commit_planned_ok s r adm rep s' :
  commit_planned s r adm = (Ok rep, s') → ∃ ctx plan, committed s r adm rep s' ctx plan.
Proof.
  unfold commit_planned. intros H.
  destruct (expand_owner_transaction_dependencies _ _ _ _) as [closed|] eqn:He; cbn in H; [|done].
  destruct (apply_transaction _ _ _) as [plan|] eqn:Hp; [|done].
  pose proof (apply_transaction_planned _ _ _ _ Hp) as Hpl.
  destruct (pl_done _ _ _ _ Hpl) as (st & u & Hl & _).
  rewrite (writer_effect _ _ (le_primitive _ _ _ Hl)) in H. simplify_eq.
  match type of Hpl with planned _ _ ?c _ => exists c, plan end. split; try done; cbn.
  eapply (expand_closed _ _ _ _ (λ a, json s !! a)); [| |exact He]; [by intros ??? [= <-]|]. intros a Ha. by apply read_touched_json.
Qed.

(** A commit that fails has written nothing. *)
Lemma commit_planned_err s r adm e s' : commit_planned s r adm = (Err e, s') → s' = s.
Proof.
  unfold commit_planned. intros H.
  destruct (mbind _ _) as [plan|] eqn:Hp; [|by simplify_eq].
  inv_ok. apply apply_transaction_planned in Hp.
  destruct (pl_done _ _ _ _ Hp) as (st & u & Hl & _).
  by rewrite (writer_effect _ _ (le_primitive _ _ _ Hl)) in H.
Qed.

(** ** Preconditions *)

Lemma validate_preconditions_ok cap l js :
  validate_preconditions cap l js = Ok tt →
  ∀ p, p ∈ l → js !! json_precondition_address p = precondition_expected p.
Proof.
  unfold validate_preconditions. intros H. inv_ok. clear -E. revert E.
  generalize (∅ : gset address). induction l as [|q l IH]; intros seen H p Hp; cbn in H;
    [by apply elem_of_nil in Hp|].
  inv_ok. apply elem_of_cons in Hp as [->|Hp]; [|by eapply IH].
  destruct (json_precondition_address q). inv_ok. by split_bool.
Qed.

Lemma validate_blob_preconditions_ok cap l bs :
  validate_blob_preconditions cap l bs = Ok tt →
  ∀ p, p ∈ l →
    match p with
    | BlobAbsent ns k => bs !! (ns, k) = None
    | BlobExactDigest ns k d =>
        ∃ b, bs !! (ns, k) = Some b ∧ d = ("sha256:" +:+ sha256_digest b)%string
    end.
Proof.
  unfold validate_blob_preconditions. intros H. inv_ok. clear -E. revert E.
  generalize (∅ : gset address). induction l as [|q l IH]; intros seen H p Hp; cbn in H;
    [by apply elem_of_nil in Hp|].
  inv_ok. apply elem_of_cons in Hp as [->|Hp]; [|by eapply IH].
  destruct q; cbn in *; inv_ok; split_bool.
  - by destruct (bs !! _).
  - destruct (bs !! _) as [b|]; cbn in *; [|done]. simplify_eq. eauto.
Qed.

(** ** The touched part and the rest of the store *)

Lemma omap_json_addresses ms a :
  a ∈ (omap json_op ms).*1 → ∃ m, m ∈ ms ∧ mutation_json_address m = Some a.
Proof.
  intros ([b o] & -> & (m & Hm & Hop)%list_elem_of_omap)%list_elem_of_fmap.
  exists m. split; [done|]. destruct m; cbn in *; by simplify_eq.
Qed.

Lemma effective_json_addresses pre ms a :
  a ∈ (omap (effective_json_op pre) ms).*1 →
  ∃ m, m ∈ ms ∧ mutation_json_address m = Some a.
Proof.
  intros ([b o] & -> & (m & Hm & Hop)%list_elem_of_omap)%list_elem_of_fmap.
  exists m. split; [done|]. destruct m; cbn in *; simplify_eq; try done.
  by destruct (pre !! _); simplify_eq.
Qed.

Lemma effective_blob_addresses pre ms a :
  a ∈ (omap (effective_blob_op pre) ms).*1 →
  ∃ m, m ∈ ms ∧ mutation_blob_address m = Some a.
Proof.
  intros ([b o] & -> & (m & Hm & Hop)%list_elem_of_omap)%list_elem_of_fmap.
  exists m. split; [done|]. destruct m; cbn in *; simplify_eq; try done.
  by destruct (pre !! _); simplify_eq.
Qed.

Section Committed.
Context {s r adm rep s' ctx plan} (Hcov : covers r)
  (Hcm : committed s r adm rep s' ctx plan).

Lemma committed_blob_lookup a :
  a ∈ rs_blobs (read_set r) → bt_blobs (touched ctx) !! a = blobs s !! a.
Proof using Hcm.
  intros Ha. rewrite (cm_blobs _ _ _ _ _ _ _ Hcm). cbn. rewrite map_lookup_filter.
  destruct (blobs s !! a); cbn; [|done]. by rewrite option_guard_True.
Qed.

Lemma committed_agrees : agrees s (touched ctx) (mutations r).
Proof using Hcov Hcm.
  split.
  - intros m a Hm Ha. apply (cl_read_set _ _ _ _ (cm_closed _ _ _ _ _ _ _ Hcm)).
    by eapply cov_json.
  - intros m a Hm Ha. apply committed_blob_lookup. by eapply cov_blobs.
Qed.

(** The effective mutations are the writes the pre-image selects. *)
Lemma committed_ops :
  let eff := mutations (effective_request plan) in
  omap json_op eff = omap (effective_json_op (json s)) (mutations r)
  ∧ omap blob_op eff = omap (effective_blob_op (blobs s)) (mutations r)
  ∧ omap event_op eff = omap (emitted_event (json s) (blobs s)) (mutations r).
Proof using Hcov Hcm.
  apply (materialize_ops s (touched ctx)); [apply committed_agrees|].
  apply (pl_materialized _ _ _ _ (cm_planned _ _ _ _ _ _ _ Hcm)).
Qed.

Lemma committed_json_split :
  let rest := json s ∖ bt_json (touched ctx) in
  json s = bt_json (touched ctx) ∪ rest ∧ bt_json (touched ctx) ##ₘ rest
  ∧ json s' = bt_json (next_touched plan) ∪ rest ∧ bt_json (next_touched plan) ##ₘ rest.
Proof using Hcov Hcm.
  intros rest. pose proof (cm_closed _ _ _ _ _ _ _ Hcm) as Hcl.
  assert (Hsub : bt_json (touched ctx) ⊆ json s).
  { apply map_subseteq_spec. intros a v. apply (cl_exact _ _ _ _ Hcl). }
  assert (Hs : json s = bt_json (touched ctx) ∪ rest) by (subst rest; by rewrite map_difference_union).
  assert (Hd : bt_json (touched ctx) ##ₘ rest) by (subst rest; by apply map_disjoint_difference_r1).
  split_and!; [done|done|..].
  all: destruct (pl_done _ _ _ _ (cm_planned _ _ _ _ _ _ _ Hcm)) as (st & u & Hl & Hnext & _).
  all: rewrite Hnext, (le_json _ _ _ Hl); cbn [loop_init next].
  all: destruct (writes_union (omap json_op (mutations (effective_request plan)))
    (bt_json (touched ctx)) rest) as [Hw Hwd]; [done| |].
  all: try (intros a Ha; destruct committed_ops as [Hops _]; rewrite Hops in Ha;
    apply effective_json_addresses in Ha as (m & Hm & Ha);
    apply lookup_difference_None; rewrite <- (ag_json _ _ _ committed_agrees _ _ Hm Ha);
    destruct (bt_json (touched ctx) !! a); eauto).
  - rewrite (cm_state _ _ _ _ _ _ _ Hcm). cbn. by rewrite Hs, Hw.
  - done.
Qed.

Lemma committed_blob_split :
  let rest := blobs s ∖ bt_blobs (touched ctx) in
  blobs s = bt_blobs (touched ctx) ∪ rest ∧ bt_blobs (touched ctx) ##ₘ rest
  ∧ blobs s' = bt_blobs (next_touched plan) ∪ rest ∧ bt_blobs (next_touched plan) ##ₘ rest.
Proof using Hcov Hcm.
  intros rest.
  assert (Hsub : bt_blobs (touched ctx) ⊆ blobs s).
  { rewrite (cm_blobs _ _ _ _ _ _ _ Hcm). apply map_filter_subseteq. }
  assert (Hs : blobs s = bt_blobs (touched ctx) ∪ rest) by (subst rest; by rewrite map_difference_union).
  assert (Hd : bt_blobs (touched ctx) ##ₘ rest) by (subst rest; by apply map_disjoint_difference_r1).
  split_and!; [done|done|..].
  all: destruct (pl_done _ _ _ _ (cm_planned _ _ _ _ _ _ _ Hcm)) as (st & u & Hl & Hnext & _).
  all: rewrite Hnext, (le_blobs _ _ _ Hl); cbn [loop_init next].
  all: destruct (writes_union (omap blob_op (mutations (effective_request plan)))
    (bt_blobs (touched ctx)) rest) as [Hw Hwd]; [done| |].
  all: try (intros a Ha; destruct committed_ops as (_ & Hops & _); rewrite Hops in Ha;
    apply effective_blob_addresses in Ha as (m & Hm & Ha);
    apply lookup_difference_None; rewrite <- (ag_blobs _ _ _ committed_agrees _ _ Hm Ha);
    destruct (bt_blobs (touched ctx) !! a); eauto).
  - rewrite (cm_state _ _ _ _ _ _ _ Hcm). cbn. by rewrite Hs, Hw.
  - done.
Qed.

End Committed.

End PlanFacts.
