(* ===== verification/StoreProps.v ===== *)
(** * Store kernel: theorems

    The properties of the transaction kernel and of the in-memory engine: an
    atomic compare-and-set refinement of [commit_transaction_admitted], exact
    usage accounting, the invariant of every reachable store, the protection
    of ledgers, signing authorities and method owners, and the completeness of
    the dependency closure. *)

From S2P Require Import Prelude RustStr Profile Resource Budget BudgetCompile BudgetFacts BudgetAuthority StoreTypes StoreTransaction StorePlan InMemoryStore StoreFacts StorePlanFacts.

Local Open Scope string_scope.
Local Open Scope N_scope.

Section StoreProps.
Context {codec : StoreCodec} {gov : OwnerGovernance} {rcodec : ReportCodec}.
Implicit Types (s : InMemoryStoreEngineState) (r : StoreTransactionRequest).

(** ** Abstract transactions

    What a transaction promises, on the whole store: every mutation is decided
    by the pre-image, all writes happen at once, and the events are appended
    in the order of the mutations. *)
Definition abstract_commit s (ms : list StoreEngineMutation) : InMemoryStoreEngineState :=
  written s (omap (effective_json_op (json s)) ms) (omap (effective_blob_op (blobs s)) ms)
    (omap (emitted_event (json s) (blobs s)) ms).

Definition json_precondition_holds s (p : StoreJsonPrecondition) : Prop :=
  json s !! json_precondition_address p = precondition_expected p.

Definition blob_precondition_holds s (p : StoreBlobPrecondition) : Prop :=
  match p with
  | BlobAbsent ns k => blobs s !! (ns, k) = None
  | BlobExactDigest ns k d =>
      ∃ b, blobs s !! (ns, k) = Some b ∧ d = "sha256:" +:+ sha256_digest b
  end.

Definition new_events s r : list MemoryStoreEvent :=
  omap (emitted_event (json s) (blobs s)) (mutations r).

Lemma committed_refines s r adm rep s' ctx plan :
  covers r → committed s r adm rep s' ctx plan → s' = abstract_commit s (mutations r).
Proof.
  intros Hc Hcm. rewrite (cm_state _ _ _ _ _ _ _ Hcm).
  destruct (committed_ops Hc Hcm) as (-> & -> & ->). done.
Qed.

Lemma committed_preconditions s r adm rep s' ctx plan :
  covers r → committed s r adm rep s' ctx plan →
  (∀ p, p ∈ preconditions r → json_precondition_holds s p)
  ∧ (∀ p, p ∈ blob_preconditions r → blob_precondition_holds s p).
Proof.
  intros Hc Hcm. pose proof (cm_planned _ _ _ _ _ _ _ Hcm) as Hp. split.
  - intros p Hin. unfold json_precondition_holds.
    rewrite <- (validate_preconditions_ok _ _ _ (pl_pre _ _ _ _ Hp) p Hin).
    symmetry. apply (cl_read_set _ _ _ _ (cm_closed _ _ _ _ _ _ _ Hcm)).
    by apply cov_pre.
  - intros p Hin. pose proof (validate_blob_preconditions_ok _ _ _ (pl_bpre _ _ _ _ Hp) p Hin) as H.
    apply (cov_bpre _ Hc) in Hin. unfold blob_precondition_holds.
    destruct p; rewrite (committed_blob_lookup Hcm) in H; done.
Qed.

Lemma emitted_event_id pre_j pre_b m e :
  emitted_event pre_j pre_b m = Some e → mutation_event_id m = Some (event_id e).
Proof.
  destruct m; cbn; intros H; simplify_eq; try done.
  - destruct (pre_j !! _); [|done]. destruct (json_to_vec _); by simplify_eq.
  - destruct (pre_b !! _); cbn in H; by simplify_eq.
Qed.

Lemma committed_events_fresh s r adm rep s' ctx plan :
  covers r → committed s r adm rep s' ctx plan →
  NoDup (event_id <$> new_events s r)
  ∧ (∀ i, i ∈ (event_id <$> new_events s r) → i ∉ log_ids s)
  ∧ report_event_ids rep = event_id <$> new_events s r.
Proof.
  intros Hc Hcm. destruct (committed_ops Hc Hcm) as (_ & _ & Hev).
  destruct (pl_done _ _ _ _ (cm_planned _ _ _ _ _ _ _ Hcm)) as (st & u & Hl & _ & _ & _ & Hrep).
  destruct (le_ids_fresh _ _ _ Hl) as [Hnd Hfresh]. rewrite Hev in Hnd, Hfresh.
  split_and!; [done| |].
  - intros i Hi Hlog. apply (Hfresh i Hi). cbn.
    rewrite (cm_ids _ _ _ _ _ _ _ Hcm). unfold colliding_event_ids.
    apply elem_of_list_to_set, list_elem_of_filter. split; [done|].
    apply list_elem_of_fmap in Hi as (e & -> & He).
    apply list_elem_of_omap in He as (m & Hm & He).
    apply list_elem_of_omap. exists m. split; [done|]. by eapply emitted_event_id.
  - rewrite (cm_report _ _ _ _ _ _ _ Hcm), Hrep. cbn. rewrite (le_ids _ _ _ Hl), Hev. done.
Qed.

(** C1: A successful commit is the abstract transaction, performed only if every
    precondition holds of the store: no address is written twice, and the
    events appended carry fresh, distinct identifiers, which the report lists
    in order. *)
Theorem commit_refines_abstract s r adm rep s' :
  built r →
  commit_planned s r adm = (Ok rep, s') →
  s' = abstract_commit s (mutations r)
  ∧ (∀ p, p ∈ preconditions r → json_precondition_holds s p)
  ∧ (∀ p, p ∈ blob_preconditions r → blob_precondition_holds s p)
  ∧ NoDup (omap (effective_json_op (json s)) (mutations r)).*1
  ∧ NoDup (omap (effective_blob_op (blobs s)) (mutations r)).*1
  ∧ NoDup (event_id <$> new_events s r)
  ∧ (∀ i, i ∈ (event_id <$> new_events s r) → i ∉ log_ids s)
  ∧ report_event_ids rep = event_id <$> new_events s r.
Proof.
  intros Hb (ctx & plan & Hcm)%commit_planned_ok. apply built_covers in Hb as Hc.
  destruct (committed_preconditions _ _ _ _ _ _ _ Hc Hcm) as [Hp Hq].
  destruct (committed_ops Hc Hcm) as (Hj & Hbl & _).
  destruct (pl_done _ _ _ _ (cm_planned _ _ _ _ _ _ _ Hcm)) as (st & u & Hl & _).
  destruct (le_json_fresh _ _ _ Hl) as [Hnj _]. destruct (le_blob_fresh _ _ _ Hl) as [Hnb _].
  rewrite Hj in Hnj. rewrite Hbl in Hnb.
  split; [by eapply committed_refines|].
  by split_and!; try eapply committed_events_fresh.
Qed.

(** ** Usage accounting *)

Definition kv_count s : N := N.of_nat (size (json s)) + N.of_nat (size (blobs s)).

Record moderate (c : StoreCapacityBudget) : Prop := {
  mod_kv : kv_max_entries c < usize_max;
  mod_blobs : blob_max_bytes c < usize_max;
  mod_events : event_log_max_items c < usize_max;
}.

Lemma size_disj_union {A} (m1 m2 : gmap address A) :
  m1 ##ₘ m2 → N.of_nat (size (m1 ∪ m2)) = N.of_nat (size m1) + N.of_nat (size m2).
Proof. intros. rewrite map_size_disj_union by done. lia. Qed.

Lemma committed_blob_usage s r adm rep s' ctx plan :
  covers r → committed s r adm rep s' ctx plan →
  blob_max_bytes (operation_capacity adm) < usize_max →
  let b := report_budget rep in
  blob_sum (blobs s') ≤ blob_max_bytes (operation_capacity adm)
  ∧ required_blob_bytes b = blob_sum (blobs s') - blob_sum (blobs s)
  ∧ remaining_blob_bytes b = blob_max_bytes (operation_capacity adm) - blob_sum (blobs s').
Proof.
  intros Hc Hcm Hcap. destruct (committed_blob_split Hc Hcm) as (H1 & H2 & H3 & H4).
  destruct (pl_done _ _ _ _ (cm_planned _ _ _ _ _ _ _ Hcm)) as (st & u & _ & Hn & _ & Hu & Hrep).
  rewrite <- Hn in Hu. rewrite (cm_report _ _ _ _ _ _ _ Hcm), Hrep. cbn.
  rewrite (cm_usage _ _ _ _ _ _ _ Hcm) in *. unfold account_usage in Hu. inv_ok. split_bool.
  cbn in *. rewrite H3, blob_sum_union by done.
  assert (Hs : blob_sum (blobs s) = blob_sum (bt_blobs (touched ctx))
    + blob_sum (blobs s ∖ bt_blobs (touched ctx))).
  { rewrite <- blob_sum_union by done. by rewrite <- H1. }
  unfold saturating_add in *. lia.
Qed.

Lemma committed_event_usage s r adm rep s' ctx plan :
  covers r → committed s r adm rep s' ctx plan →
  event_log_max_items (operation_capacity adm) < usize_max →
  let b := report_budget rep in
  len (events s') ≤ event_log_max_items (operation_capacity adm)
  ∧ required_events b = len (events s') - len (events s)
  ∧ remaining_events b = event_log_max_items (operation_capacity adm) - len (events s').
Proof.
  intros Hc Hcm Hcap.
  destruct (pl_done _ _ _ _ (cm_planned _ _ _ _ _ _ _ Hcm)) as (st & u & Hl & _ & _ & Hu & Hrep).
  rewrite (cm_report _ _ _ _ _ _ _ Hcm), Hrep, (cm_state _ _ _ _ _ _ _ Hcm). cbn.
  rewrite (cm_usage _ _ _ _ _ _ _ Hcm) in *. unfold account_usage in Hu. inv_ok. split_bool.
  cbn in *. rewrite (le_ids _ _ _ Hl) in *. cbn in *. rewrite len_app.
  unfold len in *. rewrite length_fmap in *. unfold saturating_add in *. lia.
Qed.

Lemma committed_kv_usage s r adm rep s' ctx plan :
  covers r → committed s r adm rep s' ctx plan →
  kv_max_entries (operation_capacity adm) < usize_max → kv_count s ≤ usize_max →
  let b := report_budget rep in
  kv_count s' ≤ kv_max_entries (operation_capacity adm)
  ∧ required_kv_entries b = kv_count s' - kv_count s
  ∧ remaining_kv_entries b = kv_max_entries (operation_capacity adm) - kv_count s'.
Proof.
  intros Hc Hcm Hcap Hk.
  destruct (committed_json_split Hc Hcm) as (J1 & J2 & J3 & J4).
  destruct (committed_blob_split Hc Hcm) as (B1 & B2 & B3 & B4).
  destruct (pl_done _ _ _ _ (cm_planned _ _ _ _ _ _ _ Hcm)) as (st & u & _ & Hn & _ & Hu & Hrep).
  rewrite <- Hn in Hu. rewrite (cm_report _ _ _ _ _ _ _ Hcm), Hrep. cbn.
  rewrite (cm_usage _ _ _ _ _ _ _ Hcm) in *. unfold account_usage in Hu. inv_ok. split_bool.
  cbn in *. unfold kv_count in *. rewrite J3, B3, !size_disj_union by done.
  assert (HJ := size_disj_union _ _ J2). rewrite <- J1 in HJ.
  assert (HB := size_disj_union _ _ B2). rewrite <- B1 in HB.
  unfold entries, saturating_add in *. lia.
Qed.

(** The accounting of a commit is exact: although the planner sees only the
    touched part of the store, the entries, blob bytes and events it reports
    as required and remaining are those of the whole store before and after,
    and the store after is within the admitted capacity. *)
Theorem commit_accounts_exactly s r adm rep s' :
  built r → moderate (operation_capacity adm) → kv_count s ≤ usize_max →
  commit_planned s r adm = (Ok rep, s') →
  let c := operation_capacity adm in
  let b := report_budget rep in
  kv_count s' ≤ kv_max_entries c
  ∧ blob_sum (blobs s') ≤ blob_max_bytes c
  ∧ len (events s') ≤ event_log_max_items c
  ∧ required_kv_entries b = kv_count s' - kv_count s
  ∧ remaining_kv_entries b = kv_max_entries c - kv_count s'
  ∧ required_blob_bytes b = blob_sum (blobs s') - blob_sum (blobs s)
  ∧ remaining_blob_bytes b = blob_max_bytes c - blob_sum (blobs s')
  ∧ required_events b = len (events s') - len (events s)
  ∧ remaining_events b = event_log_max_items c - len (events s').
Proof.
  intros Hb [Hk Hbl Hev] Hs (ctx & plan & Hcm)%commit_planned_ok c b.
  apply built_covers in Hb.
  destruct (committed_kv_usage _ _ _ _ _ _ _ Hb Hcm Hk Hs) as (?&?&?).
  destruct (committed_blob_usage _ _ _ _ _ _ _ Hb Hcm Hbl) as (?&?&?).
  destruct (committed_event_usage _ _ _ _ _ _ _ Hb Hcm Hev) as (?&?&?).
  done.
Qed.

End StoreProps.

(** * Store kernel: protected documents, closure and fence

    What the inline owner checks of the planner guarantee about the whole
    store, whatever the abstract owner validators answer: committed application
    ledgers and signing authorities are never replaced or deleted, and method
    owners change only as their governed batch declares.  Then the dependency
    closure, the merging of preconditions and the admission fence. *)

Local Open Scope list_scope.

Section Guards.
Context {codec : StoreCodec} {gov : OwnerGovernance} {rcodec : ReportCodec}.
Implicit Types (s : InMemoryStoreEngineState) (r : StoreTransactionRequest).

(** ** From the touched part to the whole store *)

Record guarded r (eff : StoreTransactionRequest) (current next : BackendTransactionState)
    : Prop := {
  gd_selection : check_selection_authority r eff current next = Ok tt;
  gd_ledgers : check_application_ledgers r current next = Ok tt;
  gd_methods : check_method_closure eff = Ok tt;
}.

Lemma committed_guarded s r adm rep s' ctx plan :
  committed s r adm rep s' ctx plan →
  guarded r (effective_request plan) (touched ctx) (next_touched plan).
Proof.
  intros Hcm.
  destruct (pl_done _ _ _ _ (cm_planned _ _ _ _ _ _ _ Hcm)) as (st & u & _ & -> & Ho & _).
  unfold check_owners in Ho. inv_ok. repeat match goal with x : unit |- _ => destruct x end.
  by split.
Qed.

(** A document the planner keeps is kept by the store. *)
Lemma committed_keeps s r adm rep s' ctx plan a v :
  covers r → committed s r adm rep s' ctx plan → json s !! a = Some v →
  (bt_json (touched ctx) !! a = Some v → bt_json (next_touched plan) !! a = Some v) →
  json s' !! a = Some v.
Proof.
  intros Hc Hcm Ha Hkeep. destruct (committed_json_split Hc Hcm) as (J1 & _ & J3 & J4).
  rewrite J3. rewrite J1 in Ha. apply lookup_union_Some_raw in Ha as [Ha|[_ Ha]].
  - apply lookup_union_Some_l. auto.
  - by apply lookup_union_Some_r.
Qed.

(** A document that appears was put in the touched part. *)
Lemma committed_new s r adm rep s' ctx plan a v :
  covers r → committed s r adm rep s' ctx plan →
  json s !! a ≠ Some v → json s' !! a = Some v →
  bt_json (next_touched plan) !! a = Some v ∧ bt_json (touched ctx) !! a = json s !! a.
Proof.
  intros Hc Hcm Ha Hn. destruct (committed_json_split Hc Hcm) as (J1 & J2 & J3 & J4).
  rewrite J3 in Hn. apply lookup_union_Some_raw in Hn as [Hn|[_ Hn]].
  - split; [done|]. rewrite J1, lookup_union.
    rewrite (map_disjoint_Some_l _ _ _ _ J4 Hn). by rewrite (right_id_L None (∪)).
  - exfalso. apply Ha. rewrite J1. by apply lookup_union_Some_r.
Qed.

Lemma check_ledgers_keep r current next a v :
  check_application_ledgers r current next = Ok tt →
  a.1 = PROCEDURAL_FEEDBACK_APPLICATION_LEDGER_NAMESPACE →
  bt_json current !! a = Some v → bt_json next !! a = Some v.
Proof.
  unfold check_application_ledgers. intros H Hns Ha. inv_ok.
  apply elem_of_btree_map_iter in Ha.
  match goal with Ht : try_each _ (btree_map_iter (bt_json current)) = Ok _ |- _ =>
    pose proof (try_each_elem _ _ _ _ Ht Ha) as Hc end.
  cbv beta in Hc. inv_ok. unfold is_ledger in *. cbn in *.
  rewrite (bool_decide_eq_true_2 (a.1 = _)) in * by done. cbn in *. by split_bool.
Qed.

Lemma check_ledgers_new r current next a v :
  check_application_ledgers r current next = Ok tt →
  a.1 = PROCEDURAL_FEEDBACK_APPLICATION_LEDGER_NAMESPACE →
  bt_json current !! a = None → bt_json next !! a = Some v →
  check_new_ledger r current next (a, v) = Ok tt.
Proof.
  unfold check_application_ledgers. intros H Hns Hn Ha. inv_ok.
  eapply try_each_elem; [exact H|]. apply list_elem_of_filter.
  rewrite elem_of_btree_map_iter. split; [|done].
  unfold is_ledger; cbn. by rewrite !bool_decide_eq_true_2.
Qed.

Lemma check_selection_keep r eff current next a v :
  check_selection_authority r eff current next = Ok tt →
  a.1 = SELECTION_NAMESPACE →
  bt_json current !! a = Some v → bt_json next !! a = Some v.
Proof.
  unfold check_selection_authority. intros H Hns Ha. inv_ok. split_bool.
  destruct (bt_json next !! a) as [w|] eqn:Hw.
  - apply elem_of_btree_map_iter in Hw.
    match goal with Ht : try_each _ _ = Ok _ |- _ =>
      pose proof (try_each_elem _ _ _ _ Ht Hw) as Hc end.
    cbn in Hc. inv_ok. rewrite bool_decide_eq_true_2 in * by done. rewrite Ha in *.
    match goal with Hb : negb _ = true |- _ => revert Hb end.
    rewrite (bool_decide_eq_true_2 (is_Some _)) by eauto.
    case_bool_decide as Heq; [by intros _|]. by rewrite orb_true_r.
  - exfalso. apply not_true_iff_false in E1. apply E1, existsb_exists.
    exists (a, v). split; [by apply list_elem_of_In, elem_of_btree_map_iter|]. cbn.
    by rewrite Hw, !bool_decide_eq_true_2.
Qed.

Lemma check_selection_new r eff current next a v :
  check_selection_authority r eff current next = Ok tt →
  a.1 = SELECTION_NAMESPACE →
  bt_json next !! a = Some v → bt_json current !! a ≠ Some v →
  procedural_authority_initialization r = true ∧ bt_json current !! a = None
  ∧ JsonAbsent a.1 a.2 ∈ preconditions r.
Proof.
  unfold check_selection_authority. intros H Hns Hw Hne. inv_ok. split_bool.
  apply elem_of_btree_map_iter in Hw.
  match goal with Ht : try_each _ _ = Ok _ |- _ =>
    pose proof (try_each_elem _ _ _ _ Ht Hw) as Hc end.
  cbn in Hc. inv_ok. rewrite bool_decide_eq_true_2 in * by done.
  rewrite (bool_decide_eq_false_2 (_ = Some v)) in * by done. cbn in *. split_bool.
  unfold has_absent_precondition in *. split_bool.
  split_and!; [done| |done]. by apply eq_None_not_Some.
Qed.

(** ** Properties *)

(** C25: Committed application ledgers are final, and one appears only under an
    absent compare-and-set, with the subject's validity root present, ready,
    unchanged by the transaction and at the ledger's own epoch. *)
Theorem ledgers_are_final s r adm rep s' :
  built r → commit_planned s r adm = (Ok rep, s') →
  ∀ a v, a.1 = PROCEDURAL_FEEDBACK_APPLICATION_LEDGER_NAMESPACE →
  (json s !! a = Some v → json s' !! a = Some v)
  ∧ (json s !! a = None → json s' !! a = Some v →
     JsonAbsent a.1 a.2 ∈ preconditions r
     ∧ ∃ ledger root_key root_value root,
         decode_ledger v = Some ledger
         ∧ ledger_root_key ledger = Ok root_key
         ∧ json s !! (PROCEDURAL_SUBJECT_VALIDITY_NAMESPACE, root_key) = Some root_value
         ∧ json s' !! (PROCEDURAL_SUBJECT_VALIDITY_NAMESPACE, root_key) = Some root_value
         ∧ decode_root root_value = Some root
         ∧ permits_learning_reads root MAX_PROCEDURAL_SUBJECT_SCOPES = Ok true
         ∧ ledger_validity_epoch ledger = root_validity_epoch root).
Proof.
  intros Hb (ctx & plan & Hcm)%commit_planned_ok a v Hns. apply built_covers in Hb as Hc.
  destruct (committed_guarded _ _ _ _ _ _ _ Hcm) as [_ Hl _]. split.
  - intros Ha. eapply committed_keeps; [done|done|done|]. by eapply check_ledgers_keep.
  - intros Ha Hn.
    destruct (committed_new _ _ _ _ _ _ _ a v Hc Hcm) as [Hn1 Hn2]; [congruence|done|].
    eapply check_ledgers_new in Hl; [|done|congruence|done].
    unfold check_new_ledger in Hl. inv_ok. split_bool.
    unfold has_absent_precondition in *. split_bool. split; [done|].
    destruct (decode_ledger v) as [ledger|]; [|done]. inv_ok.
    destruct (bt_json (touched ctx) !! (_, a1)) as [root_value|] eqn:Hroot; [|done].
    destruct (decode_root root_value) as [root|] eqn:Hdr; [|done]. inv_ok. split_bool.
    subst. eexists ledger, _, root_value, root.
    pose proof (cl_exact _ _ _ _ (cm_closed _ _ _ _ _ _ _ Hcm) _ _ Hroot) as Hr.
    split_and!; try done. by eapply committed_keeps.
Qed.

(** A signing authority of procedural selection is never replaced or deleted,
    and one appears only in a transaction marked as Store preparation, under
    an absent compare-and-set. *)
Theorem signing_authority_create_only s r adm rep s' :
  built r → commit_planned s r adm = (Ok rep, s') →
  ∀ a v, a.1 = SELECTION_NAMESPACE →
  (json s !! a = Some v → json s' !! a = Some v)
  ∧ (json s !! a = None → json s' !! a = Some v →
     procedural_authority_initialization r = true
     ∧ JsonAbsent a.1 a.2 ∈ preconditions r).
Proof.
  intros Hb (ctx & plan & Hcm)%commit_planned_ok a v Hns. apply built_covers in Hb as Hc.
  destruct (committed_guarded _ _ _ _ _ _ _ Hcm) as [Hs _ _]. split.
  - intros Ha. eapply committed_keeps; [done|done|done|]. by eapply check_selection_keep.
  - intros Ha Hn.
    destruct (committed_new _ _ _ _ _ _ _ a v Hc Hcm) as [Hn1 Hn2]; [congruence|done|].
    eapply check_selection_new in Hs as (? & _ & ?); [done|done|done|congruence].
Qed.

Lemma collect_map_snoc {A} (l : list (address * A)) p :
  collect_map (l ++ [p]) = <[p.1 := p.2]> (collect_map l).
Proof. unfold collect_map. by rewrite foldl_app. Qed.

Lemma actual_methods_lookup ms a :
  Forall primitive ms → is_method_namespace a.1 = true →
  collect_map (omap actual_method ms) !! a = collect_map (omap json_op ms) !! a.
Proof.
  intros Hp Ha. induction ms as [|m ms IH] using rev_ind; [done|].
  apply Forall_app in Hp as [Hp Hm]. apply Forall_cons in Hm as [Hm _].
  rewrite !omap_app. specialize (IH Hp).
  destruct m; cbn in *; rewrite ?app_nil_r; try done;
    unfold method_entry; destruct (is_method_namespace namespace) eqn:Hns;
    rewrite ?app_nil_r, ?collect_map_snoc, ?lookup_insert; cbn;
    repeat case_decide; subst; try done; cbn in *; congruence.
Qed.

(** A method owner (tool-experience material, head or manifest, or an
    application ledger) changes only as the governed batch of the same
    transaction declares it. *)
Theorem method_owners_governed s r adm rep s' :
  built r → commit_planned s r adm = (Ok rep, s') →
  ∀ a, is_method_namespace a.1 = true → json s' !! a ≠ json s !! a →
  ∃ batch, governed_batch r = Some batch
    ∧ batch_transaction_id batch = transaction_id r
    ∧ collect_map (omap declared_method (batch_mutations batch)) !! a = Some (json s' !! a).
Proof.
  intros Hb (ctx & plan & Hcm)%commit_planned_ok a Hns Hne.
  destruct (committed_guarded _ _ _ _ _ _ _ Hcm) as [_ _ Hm].
  destruct (pl_done _ _ _ _ (cm_planned _ _ _ _ _ _ _ Hcm)) as (st & u & Hl & _).
  rewrite (cm_state _ _ _ _ _ _ _ Hcm) in *. cbn in *. rewrite lookup_writes in *.
  rewrite <- (actual_methods_lookup _ _ (le_primitive _ _ _ Hl) Hns) in *.
  destruct (collect_map _ !! a) as [o|] eqn:Ho; [|done]. cbn in *.
  unfold check_method_closure in Hm. inv_ok.
  rewrite (bool_decide_eq_false_2 (collect_map (omap actual_method _) = ∅)) in *
    by (intros He; by rewrite He in Ho).
  cbn in *. split_bool. rewrite (pl_eff _ _ _ _ (cm_planned _ _ _ _ _ _ _ Hcm)) in *.
  destruct r; cbn in *. destruct governed_batch as [batch|]; [|done].
  split_bool. exists batch. split_and!; [done|done|]. unfold collect_map in *. congruence.
Qed.

(** ** Merging preconditions *)

Definition merge_step (by_address : gmap address StoreJsonPrecondition)
    (p : StoreJsonPrecondition) : result (gmap address StoreJsonPrecondition) :=
  let address := json_precondition_address p in
  match by_address !! address with
  | Some existing =>
      if decide (existing = p) then Ok by_address
      else Err (Config "memory_write_transaction_precondition_conflict"
             ("conflicting JSON preconditions for namespace " +:+ address.1
              +:+ ", key " +:+ address.2))
  | None => Ok (<[address := p]> by_address)
  end.

Record merged (l : list StoreJsonPrecondition)
    (m : gmap address StoreJsonPrecondition) : Prop := {
  mg_in : ∀ p, p ∈ l → m !! json_precondition_address p = Some p;
  mg_from : ∀ a p, m !! a = Some p → p ∈ l ∧ a = json_precondition_address p;
}.

Lemma merge_fold done m l :
  merged done m →
  match try_fold merge_step m l with
  | Ok m' => merged (done ++ l) m'
  | Err _ => ∃ p q, p ∈ done ++ l ∧ q ∈ done ++ l ∧ p ≠ q
               ∧ json_precondition_address p = json_precondition_address q
  end.
Proof.
  revert done m. induction l as [|p l IH]; intros done m [Hin Hfrom]; cbn.
  - by rewrite app_nil_r.
  - unfold merge_step at 2. destruct (m !! json_precondition_address p) as [q|] eqn:Hq.
    + destruct (Hfrom _ _ Hq) as [Hqd Haddr]. case_decide as Heq; cbn.
      * subst q. specialize (IH (done ++ [p]) m). rewrite <- app_assoc in IH. apply IH.
        split; [set_solver|]. intros a q Ha. apply Hfrom in Ha. set_solver.
      * exists q, p. split_and!; [set_solver|set_solver|done|done].
    + cbn. specialize (IH (done ++ [p]) (<[json_precondition_address p := p]> m)).
      rewrite <- app_assoc in IH. apply IH. split.
      * intros q [Hqd| ->%list_elem_of_singleton]%elem_of_app; [|by rewrite lookup_insert_eq].
        rewrite lookup_insert_ne; [by apply Hin|]. intros Heq. apply Hin in Hqd. congruence.
      * intros a q. rewrite lookup_insert. case_decide as Heq.
        -- intros [= <-]. subst. set_solver.
        -- intros Ha. apply Hfrom in Ha. set_solver.
Qed.

(** Merging two lists of preconditions keeps exactly one precondition per
    address and loses none; it fails only on two different preconditions for
    one address. *)
Theorem merge_preconditions_exact target incoming :
  match merge_json_preconditions target incoming with
  | Ok out =>
      NoDup (json_precondition_address <$> out)
      ∧ ∀ p, p ∈ out ↔ p ∈ target ++ incoming
  | Err _ =>
      ∃ p q, p ∈ target ++ incoming ∧ q ∈ target ++ incoming ∧ p ≠ q
        ∧ json_precondition_address p = json_precondition_address q
  end.
Proof.
  unfold merge_json_preconditions.
  change (try_fold _ ∅ _) with (try_fold merge_step ∅ (target ++ incoming)).
  pose proof (merge_fold [] ∅ (target ++ incoming)) as H.
  destruct (try_fold _ _ _) as [m|e]; cbn; [|apply H; split; set_solver].
  destruct H as [Hin Hfrom]; [by split; set_solver|]. cbn in *. split.
  - replace (json_precondition_address <$> (btree_map_iter m).*2) with ((btree_map_iter m).*1).
    { rewrite btree_map_iter_perm. apply NoDup_fst_map_to_list. }
    assert (Hall : Forall (λ x, x.1 = json_precondition_address x.2) (btree_map_iter m)).
    { apply Forall_forall. intros [a p] Hp%elem_of_btree_map_iter. by apply Hfrom in Hp as [_ ->]. }
    induction Hall; cbn; f_equal; done.
  - intros p. rewrite list_elem_of_fmap. split.
    + intros ([a q] & -> & Hq%elem_of_btree_map_iter). by apply Hfrom in Hq as [? _].
    + intros Hp. exists (json_precondition_address p, p). split; [done|].
      apply elem_of_btree_map_iter. auto.
Qed.

(** ** Dependency closure *)

(** C26: The closure of a transaction's read set always terminates within its fuel,
    and what it returns is an exact part of the store that holds the read set
    and, for every document in it or proposed by the transaction, everything
    the store has at the document's dependencies. *)
Theorem dependency_closure_complete s r cap :
  let js0 := bt_json (read_touched s (read_set r)) in
  let read := λ a, json s !! a in
  match closure_roots r cap js0 with
  | Ok (total, pending) =>
      is_Some (drain cap (λ a _, Ok (read a)) (closure_fuel cap) (rs_json (read_set r) ∪ dom js0)
                 pending total js0)
  | Err _ => True
  end
  ∧ match expand_owner_transaction_dependencies r cap js0 (λ a _, Ok (read a)) with
    | Ok js => closed_image read r js0 js
    | Err _ => True
    end.
Proof.
  intros js0 read. split.
  - destruct (closure_roots r cap js0) as [[total pending]|] eqn:Hr; [|done].
    apply not_eq_None_Some. by eapply closure_fuel_enough.
  - destruct (expand_owner_transaction_dependencies _ _ _ _) eqn:He; [|done].
    eapply (expand_closed _ _ _ _ read); [| |exact He]; [by intros ??? [= <-]|]. intros b Hb. by apply read_touched_json.
Qed.

(** ** The fence *)

Lemma into_from_runtime_budget b : into_runtime_budget (from_runtime_budget b) = b.
Proof. by destruct b. Qed.

Lemma admits_le c b :
  store_budget_le b c → admits_runtime_budget (from_runtime_budget c) b = true.
Proof.
  unfold store_budget_le, store_fields. rewrite !Forall2_cons_iff. intros H.
  unfold admits_runtime_budget; cbn. rewrite !andb_true_iff, !N.leb_le. tauto.
Qed.

Lemma current_report_idempotent instant_max a ast env :
  (current_report instant_max a (current_report instant_max a ast env).2 env).1
  = (current_report instant_max a ast env).1.
Proof.
  unfold current_report.
  destruct (requires_refresh (resource_cache ast) _ _) eqn:Hreq; cbn [negb fst snd].
  - by destruct (requires_refresh (resource_cache (replace_state _ _ _ _ _)) _ _).
  - by rewrite Hreq.
Qed.

Lemma fence_strict_admits instant_max adm c auth ast env :
  match (validate_inside_engine_fence instant_max adm c auth ast env).1 with
  | Err _ => True
  | Ok _ => admits_runtime_budget c (into_runtime_budget (operation_capacity adm)) = true
  end.
Proof.
  unfold validate_inside_engine_fence. destruct (negb _); [done|].
  destruct (match adm_resource_snapshot adm with Some _ => _ | None => _ end); [done|].
  destruct (adm_runtime_budget_authority adm) as [a|].
  - destruct (current_report _ _ _ _) as [current ast']; cbn.
    destruct (validate_for_admission _ _); cbn; [|done].
    destruct (_ && _); cbn; [|done]. by destruct (admits_runtime_budget _ _).
  - cbn. by destruct (admits_runtime_budget _ _).
Qed.

(** An admission taken from the authority's current report is accepted by the
    fence of an engine opened at the authority's ceiling, as long as the
    observation behind the report is still current. *)
Theorem fresh_admission_accepted instant_max a ast env auth adm :
  authority_reachable instant_max a ast →
  admission_from_runtime_budget (current_report instant_max a ast env).1 a auth
    (now_secs env) = Ok adm →
  (validate_inside_engine_fence instant_max adm
     (from_runtime_budget (admission_store_ceiling a)) auth
     (current_report instant_max a ast env).2 env).1 = Ok tt.
Proof.
  intros Hr. pose proof (current_report_publishable instant_max a ast env Hr) as Hpub.
  pose proof (current_report_idempotent instant_max a ast env) as Hidem.
  destruct (current_report instant_max a ast env) as [report ast']; cbn in *.
  unfold admission_from_runtime_budget. intros H. inv_ok.
  unfold validate_inside_engine_fence; cbn. rewrite N.eqb_refl; cbn.
  unfold validate_for_admission in *.
  destruct (current_report instant_max a ast' env) as [current ast'']; cbn in *.
  destruct (bool_decide _) eqn:Hid; [done|].
  destruct (_ || _) eqn:Hst; [done|]. cbn.
  rewrite !bool_decide_eq_true_2 by done. cbn.
  rewrite into_from_runtime_budget, admits_le; [done|]. apply Hpub.
Qed.

(** The fence is strict: a transaction it lets through was admitted by this
    engine, within the engine's capacity, on an observation that is neither
    stale nor expired, and, when a budget authority is attached, under the
    report that is current at that moment. *)
Theorem fence_strict instant_max adm c auth ast env :
  match (validate_inside_engine_fence instant_max adm c auth ast env).1 with
  | Err _ => True
  | Ok _ =>
      adm_authority adm = auth
      ∧ admits_runtime_budget c (into_runtime_budget (operation_capacity adm)) = true
      ∧ (∀ o, adm_resource_snapshot adm = Some o →
           stale (observation o) = false ∧ snap_is_expired o (now_secs env) = false)
      ∧ (∀ a, adm_runtime_budget_authority adm = Some a →
           let current := (current_report instant_max a ast env).1 in
           validate_for_admission current (now_secs env) = Ok tt
           ∧ report_id current = adm_report_id adm
           ∧ operation_capacity adm = from_runtime_budget (store_budget current))
  end.
Proof.
  destruct (validate_inside_engine_fence _ _ _ _ _ _) as [res ast'] eqn:H. cbn.
  destruct res as [[]|]; [|done]. unfold validate_inside_engine_fence in H.
  destruct (negb _) eqn:Ha; [done|]. split_bool.
  destruct (match adm_resource_snapshot adm with Some _ => _ | None => _ end) eqn:Hs; [done|].
  assert (Hsnap : ∀ o, adm_resource_snapshot adm = Some o →
    stale (observation o) = false ∧ snap_is_expired o (now_secs env) = false).
  { intros o Hss. rewrite Hss in Hs. by split_bool. }
  destruct (adm_runtime_budget_authority adm) as [a|].
  - destruct (current_report instant_max a ast env) as [current ast1] eqn:Hcur.
    injection H; clear H; intros _ H. inv_ok. split_bool.
    split_and!; try done. intros a' [= <-]. rewrite Hcur. cbn.
    repeat match goal with x : unit |- _ => destruct x end. done.
  - injection H; clear H; intros _ H. inv_ok. by split_and!.
Qed.

End Guards.
