(* ===== verification/StoreInvariant.v ===== *)
(** * Store kernel: the invariant of every reachable store

    Executions of the in-memory engine as sequences of operations.  The
    operations compiled only with the feature [nonproduction-replay-harness]
    are enabled by the flag [harness]. *)

From S2P Require Import Prelude RustStr Profile Resource Budget BudgetCompile BudgetFacts BudgetAuthority.
From S2P Require Import StoreTypes StoreTransaction StorePlan InMemoryStore StoreFacts StorePlanFacts.
From S2P Require Import StoreProps.

Local Open Scope N_scope.

Section Invariant.
Context {codec : StoreCodec} {gov : OwnerGovernance} {rcodec : ReportCodec}.
Context (engine : InMemoryStoreEngine).
Implicit Types (s : InMemoryStoreEngineState).

Inductive engine_step (harness : bool)
    : InMemoryStoreEngineState → InMemoryStoreEngineState → Prop :=
| step_commit s instant_max r adm ast env :
    built r →
    engine_step harness s
      (commit_transaction_admitted instant_max engine s r adm ast env).1.2
| step_append s e : harness = true → engine_step harness s (append_event engine s e).2
| step_put_json s ns k v : harness = true →
    engine_step harness s (put_json_value engine s ns k v).2
| step_delete_json s ns k : harness = true →
    engine_step harness s (delete_json_value engine s ns k).2
| step_put_blob s ns k v : harness = true →
    engine_step harness s (put_blob engine s ns k v).2
| step_delete_blob s ns k : harness = true →
    engine_step harness s (delete_blob engine s ns k).2
| step_replace s jns bns docs bs es : harness = true →
    engine_step harness s (replace_snapshot engine s jns bns docs bs es).2.

Definition store_reachable (harness : bool) s : Prop :=
  rtc (engine_step harness) empty_state s.

Record store_ok s : Prop := {
  so_ids : log_ids s = list_to_set (event_id <$> events s);
  so_unique : NoDup (event_id <$> events s);
  so_events : len (events s) ≤ event_log_max_items (capacity engine);
  so_blobs : blob_sum (blobs s) ≤ blob_max_bytes (capacity engine);
}.

(** ** Commits *)

Lemma admits_bounds c b :
  admits_runtime_budget c (into_runtime_budget b) = true →
  kv_max_entries b ≤ kv_max_entries c ∧ blob_max_bytes b ≤ blob_max_bytes c
  ∧ event_log_max_items b ≤ event_log_max_items c.
Proof. unfold admits_runtime_budget. destruct b; cbn. intros. split_bool. done. Qed.

Lemma commit_admitted_cases instant_max s r adm ast env s' :
  (commit_transaction_admitted instant_max engine s r adm ast env).1.2 = s' →
  s' = s ∨
  (admits_runtime_budget (capacity engine) (into_runtime_budget (operation_capacity adm)) = true
   ∧ ∃ rep ctx plan, committed s r adm rep s' ctx plan).
Proof.
  unfold commit_transaction_admitted. intros H.
  pose proof (fence_strict_admits instant_max adm (capacity engine)
                (admission_authority engine) ast env) as Hf.
  destruct (validate_inside_engine_fence _ _ _ _ _ _) as [[]ast']; cbn in *; [|by left].
  destruct (commit_planned s r adm) as [res s1] eqn:Hc. cbn in H. subst s1.
  destruct res as [rep|e].
  - right. split; [done|]. exists rep. by apply commit_planned_ok.
  - left. by eapply commit_planned_err.
Qed.

Lemma committed_store_ok s r adm rep s' ctx plan :
  moderate (capacity engine) → covers r →
  admits_runtime_budget (capacity engine) (into_runtime_budget (operation_capacity adm)) = true →
  committed s r adm rep s' ctx plan → store_ok s → store_ok s'.
Proof.
  intros [Hk Hb He] Hcov (Ak & Ab & Ae)%admits_bounds Hcm [Hi Hu _ _].
  destruct (committed_events_fresh _ _ _ _ _ _ _ Hcov Hcm) as (Hnd & Hfresh & _).
  pose proof (committed_refines _ _ _ _ _ _ _ Hcov Hcm) as Hs'.
  destruct (committed_blob_usage _ _ _ _ _ _ _ Hcov Hcm) as [Hbu _]; [lia|].
  destruct (committed_event_usage _ _ _ _ _ _ _ Hcov Hcm) as [Heu _]; [lia|].
  split; [| |lia|lia].
  - rewrite Hs'. cbn. rewrite Hi, fmap_app, list_to_set_app_L. set_solver.
  - rewrite Hs'. cbn. rewrite fmap_app. apply NoDup_app. split_and!; [done| |done].
    intros i Hold Hnew. apply (Hfresh i Hnew). rewrite Hi. by apply elem_of_list_to_set.
Qed.

(** ** Harness operations *)

Lemma append_event_ok s e : store_ok s → store_ok (append_event engine s e).2.
Proof.
  intros Hs. unfold append_event. destruct (enforce_event_key_budget _ _ _); [|done].
  destruct Hs as [Hi Hu He Hb]. case_decide as Hin; cbn; [by split|].
  destruct (_ <=? _) eqn:Hlen; split_bool; split; cbn in *; try done.
  - set_solver.
  - rewrite fmap_app, list_to_set_app_L; cbn. set_solver.
  - rewrite fmap_app. apply NoDup_app. split_and!; [done| |apply NoDup_singleton].
    intros i Hold ->%list_elem_of_singleton. set_solver.
  - rewrite len_app, len_cons, len_nil. lia.
Qed.

Lemma put_blob_ok s ns k v :
  blob_max_bytes (capacity engine) < usize_max →
  store_ok s → store_ok (put_blob engine s ns k v).2.
Proof.
  intros Hm Hs. unfold put_blob. destruct (enforce_logical_key_budget _ _ _ _); [|done].
  destruct (_ <? _) eqn:E; [done|]. split_bool. destruct Hs as [Hi Hu He Hb].
  split; cbn; try done.
  rewrite <- insert_delete_eq, blob_sum_insert by apply lookup_delete_eq.
  pose proof (blob_sum_lookup (blobs s) (ns, k)) as Hl.
  unfold saturating_add in E. destruct (blobs s !! (ns, k)); lia.
Qed.

Lemma delete_blob_ok s ns k : store_ok s → store_ok (delete_blob engine s ns k).2.
Proof.
  intros Hs. unfold delete_blob. destruct (enforce_logical_key_budget _ _ _ _); [|done].
  destruct Hs as [Hi Hu He Hb]. split; cbn; try done.
  pose proof (blob_sum_lookup (blobs s) (ns, k)). lia.
Qed.

Lemma put_json_ok s ns k v : store_ok s → store_ok (put_json_value engine s ns k v).2.
Proof.
  intros Hs. unfold put_json_value. destruct (enforce_logical_key_budget _ _ _ _); [|done].
  destruct (_ && _); [done|]. by destruct Hs.
Qed.

Lemma delete_json_ok s ns k : store_ok s → store_ok (delete_json_value engine s ns k).2.
Proof.
  intros Hs. unfold delete_json_value. destruct (enforce_logical_key_budget _ _ _ _); [|done].
  by destruct Hs.
Qed.

(** ** Snapshot import *)

Lemma check_snapshot_events_ok c l ids :
  check_snapshot_events c l = Ok ids →
  NoDup (event_id <$> l) ∧ ids = list_to_set (event_id <$> l).
Proof.
  unfold check_snapshot_events.
  enough (∀ seen, try_fold (λ (ids : gset string) e,
    _ ← enforce_event_key_budget c e "in_memory_snapshot_import";
    if decide (event_id e ∈ ids)
    then Err (Config "store_event_log" ("duplicate event id " +:+ event_id e))
    else Ok ({[event_id e]} ∪ ids)) seen l = Ok ids →
    (NoDup (event_id <$> l) ∧ (∀ i, i ∈ (event_id <$> l) → i ∉ seen))
    ∧ ids = list_to_set (event_id <$> l) ∪ seen) as H.
  { intros [[Hnd _] ->]%H. split; [done|]. by rewrite (right_id_L ∅ (∪)). }
  induction l as [|e l IH]; intros seen H; cbn in *.
  - inv_ok. split; [split; [constructor|set_solver]|]. by rewrite (left_id_L ∅ (∪)).
  - inv_ok. destruct (decide _); [done|]. inv_ok. apply IH in H as [Hf ->].
    split; [|set_solver]. by apply fresh_cons.
Qed.

Definition sum (l : list N) : N := foldr N.add 0 l.

Lemma sum_cons x l : sum (x :: l) = x + sum l.
Proof. done. Qed.

#[export] Instance sum_proper : Proper (Permutation ==> eq) sum.
Proof. intros l l' Hp. unfold sum. induction Hp; cbn [foldr]; lia. Qed.

Lemma checked_sum e l n m : try_fold (add_or e) n l = Ok m → m = n + sum l.
Proof.
  revert n. induction l as [|x l IH]; intros n H; cbn [try_fold] in H; inv_ok; [cbn; lia|].
  apply IH in H. rewrite sum_cons. unfold add_or in E. destruct (checked_add _ _) eqn:Hc; inv_ok.
  apply checked_add_Some in Hc as [-> _]. lia.
Qed.

Lemma sum_app l1 l2 : sum (l1 ++ l2) = sum l1 + sum l2.
Proof. unfold sum. induction l1 as [|x l IH]; cbn [app foldr]; [done|]. rewrite IH. lia. Qed.

Lemma blob_sum_iter m : blob_sum m = sum ((λ p, len p.2) <$> btree_map_iter m).
Proof.
  assert (Hp : ∀ m : gmap address bytes,
    sum ((λ p, len p.2) <$> btree_map_iter m) = sum ((λ p, len p.2) <$> map_to_list m)).
  { intros m'. apply sum_proper. by rewrite btree_map_iter_perm. }
  rewrite Hp. induction m as [|a b m Hn IH] using map_ind; [done|].
  rewrite blob_sum_insert, IH by done. symmetry.
  exact (sum_proper _ _ (fmap_Permutation (λ p, len p.2) _ _ (map_to_list_insert m a b Hn))).
Qed.

Lemma blob_sum_insert_blobs l m :
  blob_sum (insert_blobs l m) ≤ blob_sum m + sum ((λ b, len (sblob_value b)) <$> l).
Proof.
  unfold insert_blobs. revert m. induction l as [|b l IH]; intros m; [cbn; lia|].
  cbn [foldl]. etransitivity; [apply IH|]. rewrite fmap_cons, sum_cons.
  rewrite <- (insert_delete_eq m), blob_sum_insert by apply lookup_delete_eq.
  pose proof (blob_sum_lookup m (sblob_address b)). lia.
Qed.

Lemma replace_snapshot_ok s jns bns docs bs es :
  store_ok s → store_ok (replace_snapshot engine s jns bns docs bs es).2.
Proof.
  intros Hs. unfold replace_snapshot.
  match goal with |- store_ok (match ?res with _ => _ end).2 =>
    destruct res as [[[ids jk] bk]|] eqn:H; [|done] end.
  inv_ok. split_bool.
  match goal with Hc : check_snapshot_events _ _ = Ok _ |- _ =>
    apply check_snapshot_events_ok in Hc as [Hnd ->] end.
  match goal with Hv : validate_restore_post_image_blob_bytes _ _ _ = Ok _ |- _ =>
    unfold validate_restore_post_image_blob_bytes in Hv end.
  inv_ok. split_bool.
  match goal with Ht : try_fold (add_or _) _ _ = Ok _ |- _ => apply checked_sum in Ht end.
  split; cbn; try done.
  etransitivity; [apply blob_sum_insert_blobs|].
  rewrite sum_app in *. rewrite blob_sum_iter. lia.
Qed.

(** ** Property *)

Lemma engine_step_ok harness s s' :
  moderate (capacity engine) → engine_step harness s s' → store_ok s → store_ok s'.
Proof.
  intros Hm Hstep Hs. destruct Hstep as [s instant_max r adm ast env Hb| | | | | |].
  - edestruct commit_admitted_cases as [->|(Ha & rep & ctx & plan & Hcm)]; [done|done|].
    eapply committed_store_ok; [done|by apply built_covers|done|done|done].
  - by apply append_event_ok.
  - by apply put_json_ok.
  - by apply delete_json_ok.
  - apply put_blob_ok; [apply Hm|done].
  - by apply delete_blob_ok.
  - by apply replace_snapshot_ok.
Qed.

Lemma production_step_bounded s s' :
  moderate (capacity engine) → engine_step false s s' →
  kv_count s ≤ kv_max_entries (capacity engine) →
  kv_count s' ≤ kv_max_entries (capacity engine).
Proof.
  intros Hm Hstep Hs. destruct Hstep as [s instant_max r adm ast env Hb| | | | | |]; try done.
  edestruct commit_admitted_cases as [->|(Ha & rep & ctx & plan & Hcm)]; [done|done|].
  apply admits_bounds in Ha as (Ak & _). destruct Hm as [Hk _ _].
  destruct (committed_kv_usage _ _ _ _ _ _ _ (built_covers _ Hb) Hcm); lia.
Qed.

Lemma reachable_store harness s :
  moderate (capacity engine) → store_reachable harness s →
  store_ok s ∧ (harness = false → kv_count s ≤ kv_max_entries (capacity engine)).
Proof.
  intros Hm Hr. unfold store_reachable in Hr.
  assert (H0 : store_ok empty_state ∧
    (harness = false → kv_count empty_state ≤ kv_max_entries (capacity engine))).
  { split; [split; cbn; [done|apply NoDup_nil_2|rewrite len_nil; lia|rewrite blob_sum_empty; lia]|].
    intros _. unfold kv_count; cbn. rewrite !map_size_empty. lia. }
  revert H0. induction Hr as [s|s1 s2 s3 Hstep _ IH]; [done|]. intros [H1 H2]. apply IH.
  split; [by eapply engine_step_ok|]. intros ->. eapply production_step_bounded; eauto.
Qed.

(** C3: In every reachable store the event log has no two events with one
    identifier and its identifier set is exact, and the log and the blob bytes
    are within the engine's capacity; without the harness operations the
    number of entries is, too. *)
Theorem reachable_store_ok harness s :
  moderate (capacity engine) → store_reachable harness s →
  store_ok s ∧ (harness = false → kv_count s ≤ kv_max_entries (capacity engine)).
Proof. apply reachable_store. Qed.

(** C23: A commit that fails, in the fence, in the closure, in the planner or in
    the writer, leaves the store as it was. *)
Theorem failed_commit_changes_nothing instant_max s r adm ast env :
  match commit_transaction_admitted instant_max engine s r adm ast env with
  | (Err _, s', _) => s' = s
  | (Ok _, _, _) => True
  end.
Proof.
  unfold commit_transaction_admitted.
  destruct (validate_inside_engine_fence _ _ _ _ _ _) as [[]ast']; [|done].
  destruct (commit_planned s r adm) as [[rep|e] s'] eqn:Hc; [done|].
  by eapply commit_planned_err.
Qed.

End Invariant.
