(* ===== verification/StoreSamples.v ===== *)
(** * Store kernel: concrete executions

    A concrete document type with permissive owner planes, on which the kernel
    runs, and the store theorems applied to its executions. *)

From S2P Require Import Prelude RustStr Profile Resource Budget BudgetCompile BudgetFacts BudgetAuthority.
From S2P Require Import StoreTypes StoreTransaction StorePlan InMemoryStore StoreFacts StorePlanFacts.
From S2P Require Import StoreProps StoreInvariant.

Local Open Scope string_scope.
Local Open Scope list_scope.
Local Open Scope N_scope.

(** Owner planes without opinions; a document of the namespace ["link"]
    depends on the document of the key it names. *)
Definition permissive_governance {codec : StoreCodec} (target : Value → string) : OwnerGovernance :=
  {| LongTermControlAuthorization := unit;
     ProceduralMutationAuthorization := unit;
     ProceduralIntakeAuthorization := unit;
     validate_runtime_skill_owner_transitions := λ _ _ _, Ok tt;
     validate_subject_soul_source_transition := λ _ _, Ok tt;
     source_dependents_validate_transition := λ _ _ _ _, Ok ∅;
     transcript_control_validate_transition := λ _ _ _ _, Ok ∅;
     runtime_skill_control_validate_transition := λ _ _ _ _ _, Ok ∅;
     permits_mutation := λ _ _ _, true;
     permits_reconciliation_root_transition := λ _ _ _ _, Ok false;
     Job := Value; Checkpoint := Value; CheckpointAuthority := Value;
     decode_job := Some; job_reconciles := λ _, false;
     job_checkpoint := λ _, None; job_checkpoint_authority := λ _, None;
     job_succeeded := λ _, false;
     validate_reconciliation_checkpoint_in_state := λ _ _, Ok tt;
     validate_store_image := λ _, Ok tt;
     validate_new_intakes := λ _ _ _, Ok tt;
     Ledger := Value; decode_ledger := Some;
     ledger_root_key := λ _, Ok "root"; ledger_validity_epoch := λ _, 1;
     ValidityRoot := Value; decode_root := Some;
     permits_learning_reads := λ _ _, Ok true; root_validity_epoch := λ _, 1;
     Revision := Value; decode_revision := inr;
     revision_explicit_control := λ _, false; authorizes := λ _ _, true;
     validate_governed_transaction_post_image := λ _ _ _ _ _ _, Ok tt;
     long_term_source_dependency_addresses :=
       λ ns v, Ok (if decide (ns = "link") then [("doc", target v)] else []);
     subject_soul_transaction_dependencies := λ _ _, ([], Ok tt);
     procedural_dependency_addresses := λ _ _, Ok [] |}.

Module StoreSamples.

(** Documents are strings that encode as themselves. *)
#[local] Instance sample_store_codec : StoreCodec :=
  {| Value := string;
     json_to_vec := λ v, inr (String.list_byte_of_string v);
     event_to_vec := λ e, inr (String.list_byte_of_string (event_id e));
     sha256_digest := λ b, pretty (len b);
     default_hash := λ b, pretty (len b) |}.

#[local] Instance sample_governance : OwnerGovernance := permissive_governance (codec := sample_store_codec) (λ v, v).

#[local] Existing Instance AuthoritySamples.sample_codec.

Definition admission : StoreTransactionAdmission :=
  admission_for_nonproduction_harness embedded_sdk_capacity 7.

Definition template : ConditionalDeleteEventTemplate :=
  {| template_event_id := "evt-delete"; template_kind := MemoryDelete;
     template_scope := scope_system "sample"; template_plane := "doc";
     template_record_key := "old"; template_timestamp_unix_secs := 10;
     template_payload := ∅ |}.

Definition event (id : string) : MemoryStoreEvent :=
  event_new id MemoryWrite (scope_system "sample") 5.

Definition ledger_address : string * string :=
  (PROCEDURAL_FEEDBACK_APPLICATION_LEDGER_NAMESPACE, "l1").
Definition root_address : string * string :=
  (PROCEDURAL_SUBJECT_VALIDITY_NAMESPACE, "root").
Definition authority_address : string * string := (SELECTION_NAMESPACE, "key").

Definition before : InMemoryStoreEngineState :=
  {| json := {[ ("doc", "old") := "o"; ("link", "l") := "old"; root_address := "r" ]};
     blobs := {[ ("b", "x") := [x00; x01] ]};
     events := [event "evt-0"]; log_ids := {[ "evt-0" ]} |}.

(** Creates a ledger under its governed batch and a signing authority as Store
    preparation, deletes a document conditionally, and appends an event. *)
Definition batch : StoreMutationBatch :=
  {| batch_transaction_id := "tx-1"; batch_operation := "apply";
     batch_scope := scope_system "sample";
     batch_mutations := [DeclPutJson ledger_address.1 ledger_address.2 "ledger"
                           MemoryWrite "p" "k"] |}.

Definition request : StoreTransactionRequest :=
  build (request_new "tx-1"
    [JsonAbsent ledger_address.1 ledger_address.2;
     JsonAbsent authority_address.1 authority_address.2;
     JsonExact root_address.1 root_address.2 "r"]
    [PutJson ledger_address.1 ledger_address.2 "ledger";
     PutJson authority_address.1 authority_address.2 "secret";
     DeleteJsonIfPresent "doc" "old" template;
     DeleteJsonIfPresent "doc" "absent" template;
     PutBlob "b" "y" [x02];
     AppendEvent (event "evt-1")]
    (Some batch)) with_procedural_authority_initialization.

Lemma request_built : built request.
Proof. apply built_build, built_new. Defined.

Definition after : InMemoryStoreEngineState := (commit_planned before request admission).2.

Definition report : StoreTransactionReport :=
  match (commit_planned before request admission).1 with
  | Ok rep => rep
  | Err _ => {| report_transaction_id := ""; report_changed_json := 0;
                report_changed_blobs := 0; report_appended_events := 0;
                report_event_ids := [];
                report_budget := backend_budget_report admission
                  {| kv_entries := 0; blob_bytes := 0; event_count := 0 |} 0 0 0 |}
  end.

Lemma commit_succeeds : is_ok (commit_planned before request admission).1 = true.
Proof. vm_compute. reflexivity. Defined.

Lemma committed_sample : commit_planned before request admission = (Ok report, after).
Proof.
  unfold report, after. pose proof commit_succeeds as H.
  destruct (commit_planned before request admission) as [[rep|e] s']; [reflexivity|].
  discriminate H.
Defined.

Example report_events : report_event_ids report = ["evt-delete"; "evt-1"].
Proof. vm_compute. reflexivity. Qed.

(** ** Witnesses *)

Lemma commit_refines_abstract_witness :
  built request ∧ commit_planned before request admission = (Ok report, after)
  ∧ after = abstract_commit before (mutations request).
Proof.
  split_and!; [exact request_built|exact committed_sample|].
  exact (proj1 (commit_refines_abstract _ _ _ _ _ request_built committed_sample)).
Defined.

Lemma embedded_moderate : moderate embedded_sdk_capacity.
Proof. split; vm_compute; reflexivity. Defined.

Lemma commit_accounts_exactly_witness :
  kv_count after = 6
  ∧ remaining_kv_entries (report_budget report) = 512 - kv_count after.
Proof.
  split; [vm_compute; reflexivity|].
  refine (proj1 (proj2 (proj2 (proj2 (proj2
    (commit_accounts_exactly before request admission report after
       request_built embedded_moderate _ committed_sample)))))).
  vm_compute. discriminate.
Defined.

Lemma ledgers_are_final_witness :
  json after !! ledger_address = Some "ledger"
  ∧ JsonAbsent ledger_address.1 ledger_address.2 ∈ preconditions request.
Proof.
  split; [vm_compute; reflexivity|].
  apply (proj2 (ledgers_are_final before request admission report after
    request_built committed_sample ledger_address "ledger" eq_refl));
    vm_compute; reflexivity.
Defined.

Lemma signing_authority_create_only_witness :
  json after !! authority_address = Some "secret"
  ∧ procedural_authority_initialization request = true.
Proof.
  split; [vm_compute; reflexivity|].
  apply (proj2 (signing_authority_create_only before request admission report after
    request_built committed_sample authority_address "secret" eq_refl));
    vm_compute; reflexivity.
Defined.

Lemma method_owners_governed_witness :
  ∃ b, governed_batch request = Some b ∧ batch_transaction_id b = transaction_id request
    ∧ collect_map (omap declared_method (batch_mutations b)) !! ledger_address
      = Some (json after !! ledger_address).
Proof.
  apply (method_owners_governed before request admission report after
    request_built committed_sample ledger_address).
  - vm_compute. reflexivity.
  - vm_compute. discriminate.
Defined.

Definition sample_engine : InMemoryStoreEngine :=
  {| capacity := embedded_sdk_capacity; admission_authority := 7 |}.

Definition no_authority : RuntimeBudgetAuthorityState := AuthoritySamples.sample_state.

Definition first_request : StoreTransactionRequest :=
  request_new "tx-0" [] [PutJson "doc" "d" "v"; AppendEvent (event "evt-0")] None.

Definition after_first : InMemoryStoreEngineState :=
  (commit_transaction_admitted u64_max sample_engine empty_state first_request admission
     no_authority AuthoritySamples.late_env).1.2.

Lemma reachable_store_ok_witness :
  len (events after_first) = 1 ∧ store_ok sample_engine after_first.
Proof.
  split; [vm_compute; reflexivity|].
  refine (proj1 (reachable_store_ok sample_engine false after_first embedded_moderate _)).
  apply rtc_once. apply step_commit. apply built_new.
Defined.

Definition late_read :=
  current_report u64_max AuthoritySamples.sample_authority AuthoritySamples.sample_state
    AuthoritySamples.late_env.

Definition late_admission : StoreTransactionAdmission :=
  {| adm_authority := 7;
     adm_runtime_budget_authority := Some AuthoritySamples.sample_authority;
     adm_report_id := report_id late_read.1;
     operation_capacity := from_runtime_budget (store_budget late_read.1);
     adm_resource_snapshot := Some (resource_snapshot late_read.1) |}.

Lemma late_admission_taken :
  admission_from_runtime_budget late_read.1 AuthoritySamples.sample_authority 7
    (now_secs AuthoritySamples.late_env) = Ok late_admission.
Proof. vm_compute. reflexivity. Defined.

Lemma fresh_admission_accepted_witness :
  (validate_inside_engine_fence u64_max late_admission
     (from_runtime_budget (admission_store_ceiling AuthoritySamples.sample_authority)) 7
     late_read.2 AuthoritySamples.late_env).1 = Ok tt.
Proof.
  exact (fresh_admission_accepted u64_max AuthoritySamples.sample_authority
    AuthoritySamples.sample_state AuthoritySamples.late_env 7 late_admission
    AuthoritySamples.authority_sample_reachable late_admission_taken).
Defined.

(** The single-entry operations of the replay harness count blobs and JSON
    documents separately, so that a store they filled can hold more entries than
    a commit would allow. *)
Definition one_entry : InMemoryStoreEngine :=
  {| capacity := {| metric_source_max_items := 1; event_log_max_items := 8;
                    kv_max_entries := 1; blob_max_bytes := 64; snapshot_max_bytes := 64;
                    logical_namespace_max_bytes := 96; logical_key_max_bytes := 96;
                    event_record_key_max_bytes := 96; export_max_bytes := 64;
                    import_max_bytes := 64 |};
     admission_authority := 7 |}.

Example harness_counts_apart :
  let '(put_b, s1) := put_blob one_entry empty_state "n" "b" [] in
  let '(put_j, s2) := put_json_value one_entry s1 "n" "j" "v" in
  put_b = Ok tt ∧ put_j = Ok tt ∧ kv_max_entries (capacity one_entry) < kv_count s2.
Proof. vm_compute. split_and!; reflexivity. Qed.

End StoreSamples.
