(* ===== verification/ReadSession.v ===== *)
(** * Store kernel: immutable read sessions

    Model of [StoreReadSessionState] and its receipts
    ([crates/sdk/src/store_internal/transaction.rs]) and of the in-memory
    session that feeds it ([in_memory.rs]).  A session holds the engine's lock,
    so the store does not change under it.  A SHA-256 hasher is the sequence of
    bytes fed to it so far. *)

From S2P Require Import Prelude RustStr Profile Resource Budget BudgetCompile BudgetAuthority.
From S2P Require Import StoreTypes StoreTransaction StorePlan InMemoryStore.

Local Open Scope string_scope.
Local Open Scope list_scope.
Local Open Scope N_scope.

(** ** Digests *)

Definition byte_of_N (n : N) : byte := default x00 (Byte.of_N (n mod 256)).

(** [u64::to_be_bytes] *)
Definition be_bytes (n : N) : bytes :=
  (λ i, byte_of_N (N.shiftr n (8 * i))) <$> [7; 6; 5; 4; 3; 2; 1; 0].

Definition str_bytes (s : string) : bytes := String.list_byte_of_string s.

Definition update_read_digest (h : bytes) (b : bytes) : bytes :=
  h ++ be_bytes (len b) ++ b.

Section ReadSession.
Context {codec : StoreCodec} {gov : OwnerGovernance} {rcodec : ReportCodec}.

Record StoreBoundedKnownJsonRead := {
  jr_namespace : string; jr_key : string; jr_value : option Value;
}.
Record StoreBoundedKnownBlobRead := {
  br_namespace : string; br_key : string; br_value : option bytes;
}.

Record StoreReadReceipt := {
  state_digest : string;
  json_doc_count : N;
  blob_count : N;
  receipt_event_count : N;
  entry_count : N;
  receipt_json_bytes : N;
  receipt_blob_bytes : N;
}.

Definition receipt_default : StoreReadReceipt :=
  {| state_digest := ""; json_doc_count := 0; blob_count := 0; receipt_event_count := 0;
     entry_count := 0; receipt_json_bytes := 0; receipt_blob_bytes := 0 |}.

(** ** Receipts *)

Definition digest_json (h : bytes) (read : StoreBoundedKnownJsonRead) : result bytes :=
  let h := h ++ str_bytes "json" in
  let h := update_read_digest h (str_bytes (jr_namespace read)) in
  let h := update_read_digest h (str_bytes (jr_key read)) in
  match jr_value read with
  | None => Ok (h ++ [x00])
  | Some v =>
      match json_to_vec v with
      | inl message => Err (Config "store_consistent_read" message)
      | inr b => Ok (update_read_digest (h ++ [x01]) b)
      end
  end.

Definition digest_blob (h : bytes) (read : StoreBoundedKnownBlobRead) : bytes :=
  let h := h ++ str_bytes "blob" in
  let h := update_read_digest h (str_bytes (br_namespace read)) in
  let h := update_read_digest h (str_bytes (br_key read)) in
  match br_value read with
  | None => h ++ [x00]
  | Some b => update_read_digest (h ++ [x01]) b
  end.

Definition digest_event (h : bytes) (e : MemoryStoreEvent) : result bytes :=
  match event_to_vec e with
  | inl message => Err (Config "store_consistent_read" message)
  | inr b => Ok (update_read_digest (h ++ str_bytes "event") b)
  end.

Definition known_key_read_receipt (json : list StoreBoundedKnownJsonRead)
    (blobs : list StoreBoundedKnownBlobRead) (events : list MemoryStoreEvent)
    : result StoreReadReceipt :=
  let stage := "store_consistent_read" in
  h ← try_fold digest_json
        (str_bytes "beetle_memory_bounded_known_key_read_v1" ++ be_bytes (len json)) json;
  let h := foldl digest_blob (h ++ be_bytes (len blobs)) blobs in
  h ← try_fold digest_event (h ++ be_bytes (len events)) events;
  entries ← add_or (Config stage "read receipt entry count overflow") (len json) (len blobs);
  json_total ← try_fold (λ total v,
      n ← serialized_json_len v;
      add_or (Config stage "read receipt JSON byte count overflow") total n)
    0 (omap jr_value json);
  blob_total ← try_fold (λ total b,
      add_or (Config stage "read receipt blob byte count overflow") total (len b))
    0 (omap br_value blobs);
  Ok {| state_digest := sha256_digest h;
        json_doc_count := len (omap jr_value json);
        blob_count := len (omap br_value blobs);
        receipt_event_count := len events;
        entry_count := entries;
        receipt_json_bytes := json_total;
        receipt_blob_bytes := blob_total |}.

Definition immutable_read_session_receipt (json : list StoreBoundedKnownJsonRead)
    (blobs : list StoreBoundedKnownBlobRead) (json_bytes blob_bytes : N)
    : result StoreReadReceipt :=
  receipt ← known_key_read_receipt json blobs [];
  entries ← add_or (Config "store_immutable_read_session" "read receipt entry count overflow")
              (len json) (len blobs);
  Ok {| state_digest := sha256_digest
          (update_read_digest (str_bytes "beetle_memory_immutable_read_session_v1")
             (str_bytes (state_digest receipt)));
        json_doc_count := json_doc_count receipt; blob_count := blob_count receipt;
        receipt_event_count := receipt_event_count receipt;
        entry_count := entries;
        receipt_json_bytes := json_bytes; receipt_blob_bytes := blob_bytes |}.

(** ** Session state *)

Record StoreReadSessionState := {
  rd_capacity : StoreCapacityBudget;
  poisoned : bool;
  json_reads : list StoreBoundedKnownJsonRead;
  blob_reads : list StoreBoundedKnownBlobRead;
  seen_json : gset address;
  seen_blobs : gset address;
  rd_json_bytes : N;
  rd_blob_bytes : N;
  catalog_digest : option bytes;
  catalog_receipt : StoreReadReceipt;
  catalog_checkpoints : N;
}.

Definition session_new (capacity : StoreCapacityBudget) : StoreReadSessionState :=
  {| rd_capacity := capacity; poisoned := false; json_reads := []; blob_reads := [];
     seen_json := ∅; seen_blobs := ∅; rd_json_bytes := 0; rd_blob_bytes := 0;
     catalog_digest := None; catalog_receipt := receipt_default;
     catalog_checkpoints := 0 |}.

Definition poison (s : StoreReadSessionState) : StoreReadSessionState :=
  {| rd_capacity := rd_capacity s; poisoned := true; json_reads := json_reads s;
     blob_reads := blob_reads s; seen_json := seen_json s; seen_blobs := seen_blobs s;
     rd_json_bytes := rd_json_bytes s; rd_blob_bytes := rd_blob_bytes s;
     catalog_digest := catalog_digest s; catalog_receipt := catalog_receipt s;
     catalog_checkpoints := catalog_checkpoints s |}.

Definition begin_catalog_scan (s : StoreReadSessionState)
    : result unit * StoreReadSessionState :=
  if poisoned s || bool_decide (is_Some (catalog_digest s))
     || negb (bool_decide (json_reads s = [])) || negb (bool_decide (blob_reads s = []))
  then (Err (Config "store_catalog_read_session"
               "catalog mode must begin before the first read"), s)
  else (Ok tt,
        {| rd_capacity := rd_capacity s; poisoned := poisoned s;
           json_reads := json_reads s; blob_reads := blob_reads s;
           seen_json := seen_json s; seen_blobs := seen_blobs s;
           rd_json_bytes := rd_json_bytes s; rd_blob_bytes := rd_blob_bytes s;
           catalog_digest := Some (str_bytes
             "beetle_memory_immutable_catalog_read_session_v1");
           catalog_receipt := catalog_receipt s;
           catalog_checkpoints := catalog_checkpoints s |}).

Definition catalog_error (field : string) : Error :=
  Config "store_catalog_read_session" field.

(** The receipt fields of [a] and [b] added, with the given digest. *)
Definition add_receipts (digest : string) (a b : StoreReadReceipt)
    : result StoreReadReceipt :=
  docs ← add_or (catalog_error "JSON count overflow") (json_doc_count a) (json_doc_count b);
  blobs ← add_or (catalog_error "blob count overflow") (blob_count a) (blob_count b);
  entries ← add_or (catalog_error "entry count overflow") (entry_count a) (entry_count b);
  json_bytes ← add_or (catalog_error "JSON byte count overflow")
                 (receipt_json_bytes a) (receipt_json_bytes b);
  blob_bytes ← add_or (catalog_error "blob byte count overflow")
                 (receipt_blob_bytes a) (receipt_blob_bytes b);
  Ok {| state_digest := digest; json_doc_count := docs; blob_count := blobs;
        receipt_event_count := 0; entry_count := entries;
        receipt_json_bytes := json_bytes; receipt_blob_bytes := blob_bytes |}.

Definition checkpoint_catalog_batch (s : StoreReadSessionState)
    : result StoreReadReceipt * StoreReadSessionState :=
  match catalog_digest s with
  | Some digest =>
    if poisoned s then
      (Err (catalog_error "catalog checkpoint requires an active healthy catalog session"), s)
    else
    match immutable_read_session_receipt (json_reads s) (blob_reads s)
            (rd_json_bytes s) (rd_blob_bytes s) with
    | Err e => (Err e, poison s)
    | Ok batch =>
      if entry_count batch =? 0 then (Ok batch, s)
      else if kv_max_entries (rd_capacity s) <=? catalog_checkpoints s then
        (Err (Config "store_consistent_read_budget_exceeded"
                "catalog batch count exceeds the Store entry ceiling"), poison s)
      else
      match
        (next ← add_receipts "" (catalog_receipt s) batch;
         checkpoints ← add_or (catalog_error "catalog checkpoint count overflow")
                         (catalog_checkpoints s) 1;
         Ok (next, checkpoints))
      with
      | Err e => (Err e, poison s)
      | Ok (next, checkpoints) =>
          (Ok batch,
           {| rd_capacity := rd_capacity s; poisoned := poisoned s;
              json_reads := []; blob_reads := []; seen_json := ∅; seen_blobs := ∅;
              rd_json_bytes := 0; rd_blob_bytes := 0;
              catalog_digest := Some (update_read_digest digest
                                        (str_bytes (state_digest batch)));
              catalog_receipt := next; catalog_checkpoints := checkpoints |})
      end
    end
  | None =>
      (Err (catalog_error "catalog checkpoint requires an active healthy catalog session"), s)
  end.

Definition immutable_read_session_poisoned_error : Error :=
  Config "store_immutable_read_session_poisoned"
    "immutable read session failed earlier and cannot resume or emit a receipt".

Definition enforce_entry_ceiling_with_one_more (s : StoreReadSessionState) : result unit :=
  let stage := "store_consistent_read_budget_exceeded" in
  let overflow := Config stage "immutable read entry count overflow" in
  count ← add_or overflow (N.of_nat (size (seen_json s))) (N.of_nat (size (seen_blobs s)));
  entries ← add_or overflow count 1;
  ensure (entries <=? kv_max_entries (rd_capacity s))
    (Config stage ("requested entries " +:+ pretty entries +:+ " exceed "
                   +:+ pretty (kv_max_entries (rd_capacity s)))).

Definition check_json_read (s : StoreReadSessionState) (namespace key : string)
    (value : option Value) : result N :=
  let stage := "store_immutable_read_session" in
  _ ← enforce_logical_key_budget (rd_capacity s) namespace key stage;
  _ ← ensure (negb (bool_decide ((namespace, key) ∈ seen_json s)))
        (Config stage ("duplicate JSON address " +:+ namespace +:+ "/" +:+ key
                       +:+ " across one read session"));
  _ ← enforce_entry_ceiling_with_one_more s;
  next ← match value with
         | None => Ok (rd_json_bytes s)
         | Some v =>
             n ← serialized_json_len v;
             add_or (Config stage "JSON byte count overflow") (rd_json_bytes s) n
         end;
  _ ← ensure (next <=? snapshot_max_bytes (rd_capacity s))
        (Config "store_consistent_read_budget_exceeded"
           ("JSON bytes " +:+ pretty next +:+ " exceed "
            +:+ pretty (snapshot_max_bytes (rd_capacity s))));
  Ok next.

Definition record_json (s : StoreReadSessionState) (namespace key : string)
    (value : option Value) : result StoreBoundedKnownJsonRead * StoreReadSessionState :=
  if poisoned s then (Err immutable_read_session_poisoned_error, s)
  else match check_json_read s namespace key value with
  | Err e => (Err e, poison s)
  | Ok next =>
      let read := {| jr_namespace := namespace; jr_key := key; jr_value := value |} in
      (Ok read,
       {| rd_capacity := rd_capacity s; poisoned := poisoned s;
          json_reads := json_reads s ++ [read]; blob_reads := blob_reads s;
          seen_json := {[(namespace, key)]} ∪ seen_json s; seen_blobs := seen_blobs s;
          rd_json_bytes := next; rd_blob_bytes := rd_blob_bytes s;
          catalog_digest := catalog_digest s; catalog_receipt := catalog_receipt s;
          catalog_checkpoints := catalog_checkpoints s |})
  end.

Definition check_blob_read (s : StoreReadSessionState) (namespace key : string)
    (value : option bytes) : result N :=
  let stage := "store_immutable_read_session" in
  _ ← enforce_logical_key_budget (rd_capacity s) namespace key stage;
  _ ← ensure (negb (bool_decide ((namespace, key) ∈ seen_blobs s)))
        (Config stage ("duplicate blob address " +:+ namespace +:+ "/" +:+ key
                       +:+ " across one read session"));
  _ ← enforce_entry_ceiling_with_one_more s;
  next ← match value with
         | None => Ok (rd_blob_bytes s)
         | Some b =>
             add_or (Config stage "blob byte count overflow") (rd_blob_bytes s) (len b)
         end;
  _ ← ensure (next <=? blob_max_bytes (rd_capacity s))
        (Config "store_consistent_read_budget_exceeded"
           ("blob bytes " +:+ pretty next +:+ " exceed "
            +:+ pretty (blob_max_bytes (rd_capacity s))));
  Ok next.

Definition record_blob (s : StoreReadSessionState) (namespace key : string)
    (value : option bytes) : result StoreBoundedKnownBlobRead * StoreReadSessionState :=
  if poisoned s then (Err immutable_read_session_poisoned_error, s)
  else match check_blob_read s namespace key value with
  | Err e => (Err e, poison s)
  | Ok next =>
      let read := {| br_namespace := namespace; br_key := key; br_value := value |} in
      (Ok read,
       {| rd_capacity := rd_capacity s; poisoned := poisoned s;
          json_reads := json_reads s; blob_reads := blob_reads s ++ [read];
          seen_json := seen_json s; seen_blobs := {[(namespace, key)]} ∪ seen_blobs s;
          rd_json_bytes := rd_json_bytes s; rd_blob_bytes := next;
          catalog_digest := catalog_digest s; catalog_receipt := catalog_receipt s;
          catalog_checkpoints := catalog_checkpoints s |})
  end.

Definition receipt (s : StoreReadSessionState) : result StoreReadReceipt :=
  if poisoned s then Err immutable_read_session_poisoned_error
  else
    current ← immutable_read_session_receipt (json_reads s) (blob_reads s)
                (rd_json_bytes s) (rd_blob_bytes s);
    match catalog_digest s with
    | None => Ok current
    | Some digest =>
        let digest := if entry_count current =? 0 then digest
                      else update_read_digest digest (str_bytes (state_digest current)) in
        add_receipts (sha256_digest digest) (catalog_receipt s) current
    end.

Definition remaining_json_bytes (s : StoreReadSessionState) : N :=
  snapshot_max_bytes (rd_capacity s) - rd_json_bytes s.
Definition remaining_session_blob_bytes (s : StoreReadSessionState) : N :=
  blob_max_bytes (rd_capacity s) - rd_blob_bytes s.

(** ** The in-memory session *)

Definition validate_immutable_read_session_capacity
    (engine_capacity requested : StoreCapacityBudget) : result unit :=
  ensure (admits_runtime_budget engine_capacity (into_runtime_budget requested))
    (Config "store_immutable_read_session_admission"
       "requested immutable read capacity exceeds the engine capacity").

Definition open_immutable_read_session (engine : InMemoryStoreEngine)
    (requested : StoreCapacityBudget) : result StoreReadSessionState :=
  _ ← validate_immutable_read_session_capacity (capacity engine) requested;
  Ok (session_new requested).

(** [iter().map(record).collect()]: stops at the first error. *)
Fixpoint read_json_known_keys (store : InMemoryStoreEngineState)
    (s : StoreReadSessionState) (addresses : list address)
    : result (list StoreBoundedKnownJsonRead) * StoreReadSessionState :=
  match addresses with
  | [] => (Ok [], s)
  | (ns, k) :: rest =>
      match record_json s ns k (json store !! (ns, k)) with
      | (Err e, s) => (Err e, s)
      | (Ok read, s) =>
          match read_json_known_keys store s rest with
          | (Err e, s) => (Err e, s)
          | (Ok reads, s) => (Ok (read :: reads), s)
          end
      end
  end.

Fixpoint read_blob_known_keys (store : InMemoryStoreEngineState)
    (s : StoreReadSessionState) (addresses : list address)
    : result (list StoreBoundedKnownBlobRead) * StoreReadSessionState :=
  match addresses with
  | [] => (Ok [], s)
  | (ns, k) :: rest =>
      match record_blob s ns k (blobs store !! (ns, k)) with
      | (Err e, s) => (Err e, s)
      | (Ok read, s) =>
          match read_blob_known_keys store s rest with
          | (Err e, s) => (Err e, s)
          | (Ok reads, s) => (Ok (read :: reads), s)
          end
      end
  end.

(** ** Bounded reads without a session *)

Definition reject_duplicate_known_keys (keys : list address) (kind : string) : result unit :=
  _ ← try_fold (λ (unique : gset address) a,
    if decide (a ∈ unique)
    then Err (Config "store_consistent_read"
           ("duplicate " +:+ kind +:+ " address " +:+ a.1 +:+ "/" +:+ a.2))
    else Ok ({[a]} ∪ unique)) ∅ keys;
  Ok tt.

Record StoreBoundedKnownKeyReadResult := {
  kr_json : list StoreBoundedKnownJsonRead;
  kr_blobs : list StoreBoundedKnownBlobRead;
  kr_events : list MemoryStoreEvent;
  kr_receipt : StoreReadReceipt;
}.

Definition budget_exceeded (what : string) (n limit : N) : Error :=
  Config "store_consistent_read_budget_exceeded"
    (what +:+ pretty n +:+ " exceed " +:+ pretty limit).

Definition read_json_key (capacity : StoreCapacityBudget) (json : gmap address Value)
    (acc : N * list StoreBoundedKnownJsonRead) (a : address)
    : result (N * list StoreBoundedKnownJsonRead) :=
  let '(total, reads) := acc in
  _ ← enforce_logical_key_budget capacity a.1 a.2 "store_consistent_read";
  let value := json !! a in
  total ← match value with
          | None => Ok total
          | Some v =>
              n ← serialized_json_len v;
              let total := saturating_add total n in
              _ ← ensure (total <=? snapshot_max_bytes capacity)
                    (budget_exceeded "json bytes " total (snapshot_max_bytes capacity));
              Ok total
          end;
  Ok (total, reads ++ [{| jr_namespace := a.1; jr_key := a.2; jr_value := value |}]).

Definition read_blob_key (capacity : StoreCapacityBudget) (blobs : gmap address bytes)
    (acc : N * list StoreBoundedKnownBlobRead) (a : address)
    : result (N * list StoreBoundedKnownBlobRead) :=
  let '(total, reads) := acc in
  _ ← enforce_logical_key_budget capacity a.1 a.2 "store_consistent_read";
  let value := blobs !! a in
  total ← match value with
          | None => Ok total
          | Some b =>
              let total := saturating_add total (len b) in
              _ ← ensure (total <=? blob_max_bytes capacity)
                    (budget_exceeded "blob bytes " total (blob_max_bytes capacity));
              Ok total
          end;
  Ok (total, reads ++ [{| br_namespace := a.1; br_key := a.2; br_value := value |}]).

Definition read_bounded_known_keys_from_parts (json_keys blob_keys : list address)
    (include_events : bool) (capacity : StoreCapacityBudget)
    (json : gmap address Value) (blobs : gmap address bytes)
    (all_events : list MemoryStoreEvent) : result StoreBoundedKnownKeyReadResult :=
  let requested := saturating_add (len json_keys) (len blob_keys) in
  _ ← ensure (requested <=? kv_max_entries capacity)
        (budget_exceeded "requested entries " requested (kv_max_entries capacity));
  _ ← reject_duplicate_known_keys json_keys "json";
  _ ← reject_duplicate_known_keys blob_keys "blob";
  jr ← try_fold (read_json_key capacity json) (0, []) json_keys;
  br ← try_fold (read_blob_key capacity blobs) (0, []) blob_keys;
  events ← if include_events then
      _ ← ensure (len all_events <=? event_log_max_items capacity)
            (budget_exceeded "event items " (len all_events) (event_log_max_items capacity));
      _ ← try_fold (λ total e,
            n ← serialized_len (event_to_vec e);
            let total := saturating_add total n in
            _ ← ensure (total <=? snapshot_max_bytes capacity)
                  (budget_exceeded "json and event bytes " total
                     (snapshot_max_bytes capacity));
            Ok total) jr.1 all_events;
      Ok all_events
    else Ok [];
  receipt ← known_key_read_receipt jr.2 br.2 events;
  Ok {| kr_json := jr.2; kr_blobs := br.2; kr_events := events; kr_receipt := receipt |}.

End ReadSession.
