(* ===== verification/ReadSessionProps.v ===== *)
(** * Store kernel: theorems about read sessions

    A session returns exactly what the store holds, each address at most once
    per batch, within the byte and entry ceilings of its capacity; its first
    failure poisons it for good; its receipt counts everything it returned. *)

From S2P Require Import Prelude RustStr Profile Resource Budget BudgetCompile BudgetAuthority.
From S2P Require Import StoreTypes StoreTransaction StorePlan InMemoryStore StoreFacts StorePlanFacts.
From S2P Require Import StoreInvariant StoreSamples ReadSession.

Local Open Scope string_scope.
Local Open Scope list_scope.
Local Open Scope N_scope.

Section SessionProps.
Context {codec : StoreCodec} {gov : OwnerGovernance} {rcodec : ReportCodec}.
Context (store : InMemoryStoreEngineState).
Implicit Types (s : StoreReadSessionState).

Inductive session_step : StoreReadSessionState → StoreReadSessionState → Prop :=
| step_read_json s l : session_step s (read_json_known_keys store s l).2
| step_read_blob s l : session_step s (read_blob_known_keys store s l).2
| step_begin s : session_step s (begin_catalog_scan s).2
| step_checkpoint s : session_step s (checkpoint_catalog_batch s).2.

Definition session_reachable (c : StoreCapacityBudget) s : Prop :=
  rtc session_step (session_new c) s.

(** ** Invariant *)

Definition json_len (v : Value) : N :=
  match serialized_json_len v with Ok n => n | Err _ => 0 end.

Definition jr_address (r : StoreBoundedKnownJsonRead) : address :=
  (jr_namespace r, jr_key r).
Definition br_address (r : StoreBoundedKnownBlobRead) : address :=
  (br_namespace r, br_key r).

Record session_ok s : Prop := {
  ss_json : Forall (λ r, jr_value r = json store !! jr_address r) (json_reads s);
  ss_blobs : Forall (λ r, br_value r = blobs store !! br_address r) (blob_reads s);
  ss_seen_json : seen_json s = list_to_set (jr_address <$> json_reads s)
    ∧ NoDup (jr_address <$> json_reads s);
  ss_seen_blobs : seen_blobs s = list_to_set (br_address <$> blob_reads s)
    ∧ NoDup (br_address <$> blob_reads s);
  ss_json_bytes : rd_json_bytes s = sum (json_len <$> omap jr_value (json_reads s))
    ∧ rd_json_bytes s ≤ snapshot_max_bytes (rd_capacity s);
  ss_blob_bytes : rd_blob_bytes s = sum (len <$> omap br_value (blob_reads s))
    ∧ rd_blob_bytes s ≤ blob_max_bytes (rd_capacity s);
  ss_entries : len (json_reads s) + len (blob_reads s) ≤ kv_max_entries (rd_capacity s);
}.

Lemma seen_size {A} (f : A → address) (l : list A) (seen : gset address) :
  seen = list_to_set (f <$> l) → NoDup (f <$> l) → N.of_nat (size seen) = len l.
Proof.
  intros -> Hnd. rewrite size_list_to_set by done. unfold len. by rewrite length_fmap.
Qed.

Lemma add_or_Ok e a b n : add_or e a b = Ok n → n = a + b ∧ n ≤ usize_max.
Proof.
  unfold add_or. destruct (checked_add a b) eqn:H; [|done]. intros [= <-].
  apply checked_add_Some in H as [-> ?]. done.
Qed.

Lemma entry_ceiling_ok s u :
  session_ok s → enforce_entry_ceiling_with_one_more s = Ok u →
  len (json_reads s) + len (blob_reads s) + 1 ≤ kv_max_entries (rd_capacity s).
Proof.
  intros Hs H. unfold enforce_entry_ceiling_with_one_more in H. inv_ok. split_bool.
  repeat match goal with He : add_or _ _ _ = Ok _ |- _ => apply add_or_Ok in He as [-> _] end.
  destruct Hs as [_ _ [Hj Hjn] [Hb Hbn] _ _ _].
  rewrite (seen_size _ _ _ Hj Hjn), (seen_size _ _ _ Hb Hbn) in *. lia.
Qed.

Lemma seen_snoc {A} (f : A → address) (l : list A) (x : A) (seen : gset address) :
  seen = list_to_set (f <$> l) ∧ NoDup (f <$> l) → f x ∉ seen →
  ({[f x]} ∪ seen : gset address) = list_to_set (f <$> l ++ [x])
  ∧ NoDup (f <$> l ++ [x]).
Proof.
  intros [-> Hnd] Hx. rewrite fmap_app, list_to_set_app_L. cbn. split; [set_solver|].
  apply NoDup_app. split_and!; [done|set_solver|apply NoDup_singleton].
Qed.

Lemma poison_ok s : session_ok s → session_ok (poison s).
Proof. by intros []. Qed.

Lemma record_json_ok s ns k :
  session_ok s → session_ok (record_json s ns k (json store !! (ns, k))).2.
Proof.
  intros Hs. unfold record_json. destruct (poisoned s); [done|].
  destruct (check_json_read _ _ _ _) as [next|] eqn:H; cbn; [|by apply poison_ok].
  unfold check_json_read in H. inv_ok. split_bool.
  match goal with He : enforce_entry_ceiling_with_one_more _ = Ok _ |- _ =>
    apply (entry_ceiling_ok _ _ Hs) in He end.
  destruct Hs as [Hj Hb Hsj Hsb Hjb Hbb He]. split; cbn; try done.
  - apply Forall_app. split; [done|]. by apply Forall_singleton.
  - by apply (seen_snoc jr_address _ {| jr_namespace := ns; jr_key := k |}).
  - split; [|done]. rewrite omap_app, fmap_app, sum_app. cbn. destruct Hjb as [Hjb _].
    destruct (json store !! (ns, k)) as [v|]; cbn [option_list fmap list_fmap] in *; inv_ok.
    + match goal with Ha : add_or _ _ _ = Ok _ |- _ => apply add_or_Ok in Ha as [-> _] end.
      rewrite sum_cons. unfold json_len at 2.
      match goal with Hn : serialized_json_len v = Ok _ |- _ => rewrite Hn end. cbn. lia.
    + cbn. lia.
  - rewrite len_app, len_cons, len_nil. lia.
Qed.

Lemma record_blob_ok s ns k :
  session_ok s → session_ok (record_blob s ns k (blobs store !! (ns, k))).2.
Proof.
  intros Hs. unfold record_blob. destruct (poisoned s); [done|].
  destruct (check_blob_read _ _ _ _) as [next|] eqn:H; cbn; [|by apply poison_ok].
  unfold check_blob_read in H. inv_ok. split_bool.
  match goal with He : enforce_entry_ceiling_with_one_more _ = Ok _ |- _ =>
    apply (entry_ceiling_ok _ _ Hs) in He end.
  destruct Hs as [Hj Hb Hsj Hsb Hjb Hbb He]. split; cbn; try done.
  - apply Forall_app. split; [done|]. by apply Forall_singleton.
  - by apply (seen_snoc br_address _ {| br_namespace := ns; br_key := k |}).
  - split; [|done]. rewrite omap_app, fmap_app, sum_app. cbn. destruct Hbb as [Hbb _].
    destruct (blobs store !! (ns, k)) as [b|]; cbn [option_list fmap list_fmap] in *; inv_ok.
    + match goal with Ha : add_or _ _ _ = Ok _ |- _ => apply add_or_Ok in Ha as [-> _] end.
      rewrite sum_cons. cbn. lia.
    + cbn. lia.
  - rewrite len_app, len_cons, len_nil. lia.
Qed.

Lemma read_json_ok s l : session_ok s → session_ok (read_json_known_keys store s l).2.
Proof.
  revert s. induction l as [|[ns k] l IH]; intros s Hs; cbn; [done|].
  pose proof (record_json_ok s ns k Hs) as H1.
  destruct (record_json _ _ _ _) as [[r|e] s1]; [|done]. specialize (IH s1 H1).
  by destruct (read_json_known_keys store s1 l) as [[] s2].
Qed.

Lemma read_blob_ok s l : session_ok s → session_ok (read_blob_known_keys store s l).2.
Proof.
  revert s. induction l as [|[ns k] l IH]; intros s Hs; cbn; [done|].
  pose proof (record_blob_ok s ns k Hs) as H1.
  destruct (record_blob _ _ _ _) as [[r|e] s1]; [|done]. specialize (IH s1 H1).
  by destruct (read_blob_known_keys store s1 l) as [[] s2].
Qed.

Lemma fresh_batch_ok s :
  json_reads s = [] → blob_reads s = [] → seen_json s = ∅ → seen_blobs s = ∅ →
  rd_json_bytes s = 0 → rd_blob_bytes s = 0 → session_ok s.
Proof.
  intros Hj Hb Hsj Hsb Hjn Hbn. split; rewrite ?Hj, ?Hb, ?Hsj, ?Hsb, ?Hjn, ?Hbn; cbn;
    try (split; [done|apply NoDup_nil_2]); try (split; [done|lia]); try done.
  unfold len; cbn. lia.
Qed.

Lemma checkpoint_ok s : session_ok s → session_ok (checkpoint_catalog_batch s).2.
Proof.
  intros Hs. unfold checkpoint_catalog_batch. destruct (catalog_digest s); [|done].
  destruct (poisoned s); [done|].
  destruct (immutable_read_session_receipt _ _ _ _) as [batch|]; [|by apply poison_ok].
  destruct (_ =? 0); [done|]. destruct (_ <=? _); [by apply poison_ok|].
  destruct (mbind _ _) as [[next n]|]; [|by apply poison_ok].
  by apply fresh_batch_ok.
Qed.

Lemma session_step_ok s s' : session_step s s' → session_ok s → session_ok s'.
Proof.
  intros [] Hs; [by apply read_json_ok|by apply read_blob_ok| |by apply checkpoint_ok].
  unfold begin_catalog_scan. destruct (_ || _); [done|]. by destruct Hs.
Qed.

Lemma session_reachable_ok c s : session_reachable c s → session_ok s.
Proof.
  unfold session_reachable. intros Hr.
  assert (H0 : session_ok (session_new c)).
  { by apply fresh_batch_ok. }
  revert H0. induction Hr as [|s1 s2 s3 H _ IH]; [done|]. intros H1.
  apply IH. by eapply session_step_ok.
Qed.

(** ** Receipts *)

Lemma known_key_receipt_counts js bs es r :
  known_key_read_receipt js bs es = Ok r →
  json_doc_count r = len (omap jr_value js) ∧ blob_count r = len (omap br_value bs)
  ∧ receipt_event_count r = len es ∧ entry_count r = len js + len bs.
Proof.
  unfold known_key_read_receipt. intros H. inv_ok. cbn.
  repeat match goal with Ha : add_or _ (len _) _ = Ok _ |- _ => apply add_or_Ok in Ha as [-> _] end.
  done.
Qed.

Lemma session_receipt_counts js bs jn bn r :
  immutable_read_session_receipt js bs jn bn = Ok r →
  json_doc_count r = len (omap jr_value js) ∧ blob_count r = len (omap br_value bs)
  ∧ entry_count r = len js + len bs
  ∧ receipt_json_bytes r = jn ∧ receipt_blob_bytes r = bn.
Proof.
  unfold immutable_read_session_receipt. intros H. inv_ok. cbn.
  match goal with Hk : known_key_read_receipt _ _ _ = Ok _ |- _ =>
    apply known_key_receipt_counts in Hk as (-> & -> & _) end.
  match goal with Ha : add_or _ _ _ = Ok _ |- _ => apply add_or_Ok in Ha as [-> _] end. done.
Qed.

Lemma add_receipts_counts d a b r :
  add_receipts d a b = Ok r →
  json_doc_count r = json_doc_count a + json_doc_count b
  ∧ blob_count r = blob_count a + blob_count b
  ∧ entry_count r = entry_count a + entry_count b
  ∧ receipt_json_bytes r = receipt_json_bytes a + receipt_json_bytes b
  ∧ receipt_blob_bytes r = receipt_blob_bytes a + receipt_blob_bytes b.
Proof.
  unfold add_receipts. intros H. inv_ok. cbn.
  repeat match goal with Ha : add_or _ _ _ = Ok _ |- _ => apply add_or_Ok in Ha as [-> _] end.
  done.
Qed.

(** ** Properties *)

(** C27: Whatever is read, and however often catalog batches are checkpointed, an
    open session holds exact copies of the store's entries, no address twice,
    its byte counters are the summed encoded sizes of what it returned, and
    entries and bytes stay within its capacity. *)
Theorem session_reads_exact_and_bounded c s :
  session_reachable c s → session_ok s.
Proof. apply session_reachable_ok. Qed.

(** The receipt of an open session counts what it returned: the entries,
    documents and bytes of the checkpointed batches plus those of the current
    one. *)
Theorem session_receipt_exact c s r :
  session_reachable c s → receipt s = Ok r →
  poisoned s = false
  ∧ let base := match catalog_digest s with
                | Some _ => catalog_receipt s | None => receipt_default end in
    entry_count r = entry_count base + len (json_reads s) + len (blob_reads s)
    ∧ json_doc_count r = json_doc_count base + len (omap jr_value (json_reads s))
    ∧ blob_count r = blob_count base + len (omap br_value (blob_reads s))
    ∧ receipt_json_bytes r
      = receipt_json_bytes base + sum (json_len <$> omap jr_value (json_reads s))
    ∧ receipt_blob_bytes r
      = receipt_blob_bytes base + sum (len <$> omap br_value (blob_reads s)).
Proof.
  intros Hr%session_reachable_ok. unfold receipt. destruct (poisoned s); [done|].
  intros H. split; [done|]. inv_ok. rename a into current.
  destruct (ss_json_bytes _ Hr) as [Hj _]. destruct (ss_blob_bytes _ Hr) as [Hb _].
  match goal with Hk : immutable_read_session_receipt _ _ _ _ = Ok _ |- _ =>
    apply session_receipt_counts in Hk as (H1 & H2 & H3 & H4 & H5) end.
  destruct (catalog_digest s) as [d|]; cbv zeta.
  - apply add_receipts_counts in H as (-> & -> & -> & -> & ->). lia.
  - inv_ok. cbn. lia.
Qed.

(** The first failing read poisons the session, and a poisoned session answers
    every further read, checkpoint and receipt with an error and stays as it
    is. *)
Theorem session_poisoning s :
  (∀ ns k v, match record_json s ns k v with
             | (Err _, s') => poisoned s' = true
             | (Ok _, s') => poisoned s = false ∧ poisoned s' = false
             end)
  ∧ (∀ ns k v, match record_blob s ns k v with
               | (Err _, s') => poisoned s' = true
               | (Ok _, s') => poisoned s = false ∧ poisoned s' = false
               end)
  ∧ (poisoned s = true →
     (∀ ns k v, record_json s ns k v = (Err immutable_read_session_poisoned_error, s))
     ∧ (∀ ns k v, record_blob s ns k v = (Err immutable_read_session_poisoned_error, s))
     ∧ is_ok (begin_catalog_scan s).1 = false ∧ (begin_catalog_scan s).2 = s
     ∧ is_ok (checkpoint_catalog_batch s).1 = false ∧ (checkpoint_catalog_batch s).2 = s
     ∧ receipt s = Err immutable_read_session_poisoned_error).
Proof.
  split_and!.
  - intros ns k v. unfold record_json. destruct (poisoned s) eqn:Hp; [done|].
    by destruct (check_json_read s ns k v).
  - intros ns k v. unfold record_blob. destruct (poisoned s) eqn:Hp; [done|].
    by destruct (check_blob_read s ns k v).
  - intros Hp. unfold record_json, record_blob, begin_catalog_scan, checkpoint_catalog_batch,
      receipt. rewrite Hp. by destruct (catalog_digest s).
Qed.

(** ** Bounded reads *)

Lemma read_json_keys_exact c js l n acc n' out :
  try_fold (read_json_key c js) (n, acc) l = Ok (n', out) →
  out = acc ++ ((λ a : address, {| jr_namespace := a.1; jr_key := a.2; jr_value := js !! a |}) <$> l)
  ∧ (n ≤ snapshot_max_bytes c → n' ≤ snapshot_max_bytes c).
Proof.
  revert n acc. induction l as [|a l IH]; intros n acc H; cbn [try_fold] in H.
  - inv_ok. by rewrite app_nil_r.
  - destruct (read_json_key c js (n, acc) a) as [[n1 acc1]|] eqn:E; cbn in H; [|done].
    apply IH in H as [-> Hn1]. unfold read_json_key in E.
    destruct (js !! a) eqn:Ha; cbn in E; inv_ok; split_bool;
      (split; [rewrite <- app_assoc; cbn; by rewrite Ha|auto]).
Qed.

Lemma read_blob_keys_exact c bs l n acc n' out :
  try_fold (read_blob_key c bs) (n, acc) l = Ok (n', out) →
  out = acc ++ ((λ a : address, {| br_namespace := a.1; br_key := a.2; br_value := bs !! a |}) <$> l)
  ∧ (n ≤ blob_max_bytes c → n' ≤ blob_max_bytes c).
Proof.
  revert n acc. induction l as [|a l IH]; intros n acc H; cbn [try_fold] in H.
  - inv_ok. by rewrite app_nil_r.
  - destruct (read_blob_key c bs (n, acc) a) as [[n1 acc1]|] eqn:E; cbn in H; [|done].
    apply IH in H as [-> Hn1]. unfold read_blob_key in E.
    destruct (bs !! a) eqn:Ha; cbn in E; inv_ok; split_bool;
      (split; [rewrite <- app_assoc; cbn; by rewrite Ha|auto]).
Qed.

Lemma reject_duplicates_ok l kind u :
  reject_duplicate_known_keys l kind = Ok u → NoDup l.
Proof.
  unfold reject_duplicate_known_keys. intros H. inv_ok. clear -E.
  enough (∀ seen a, try_fold (λ (unique : gset address) a,
    if decide (a ∈ unique)
    then Err (Config "store_consistent_read"
           ("duplicate " +:+ kind +:+ " address " +:+ a.1 +:+ "/" +:+ a.2))
    else Ok ({[a]} ∪ unique)) seen l = Ok a → NoDup l ∧ ∀ x, x ∈ l → x ∉ seen) as H.
  { by eapply H. }
  clear. induction l as [|x l IH]; intros seen out H; cbn in H.
  - split; [apply NoDup_nil_2|set_solver].
  - destruct (decide _) as [|Hx]; cbn in H; [done|]. apply IH in H. by apply fresh_cons.
Qed.

(** A consistent read returns, for distinct addresses, exactly the store's
    entries in the requested order and either all events or none, and its
    receipt counts them. *)
Theorem bounded_read_exact json_keys blob_keys include_events c :
  match read_bounded_known_keys_from_parts json_keys blob_keys include_events c
          (json store) (blobs store) (events store) with
  | Err _ => True
  | Ok res =>
      NoDup json_keys ∧ NoDup blob_keys
      ∧ kr_json res = (λ a : address, {| jr_namespace := a.1; jr_key := a.2;
                                         jr_value := json store !! a |}) <$> json_keys
      ∧ kr_blobs res = (λ a : address, {| br_namespace := a.1; br_key := a.2;
                                          br_value := blobs store !! a |}) <$> blob_keys
      ∧ kr_events res = (if include_events then events store else [])
      ∧ entry_count (kr_receipt res) = len json_keys + len blob_keys
      ∧ receipt_event_count (kr_receipt res) = len (kr_events res)
      ∧ saturating_add (len json_keys) (len blob_keys) ≤ kv_max_entries c
  end.
Proof.
  destruct (read_bounded_known_keys_from_parts _ _ _ _ _ _ _) as [res|] eqn:H; [|done].
  unfold read_bounded_known_keys_from_parts in H. inv_ok. split_bool. cbn.
  repeat match goal with Hd : reject_duplicate_known_keys _ _ = Ok _ |- _ =>
    apply reject_duplicates_ok in Hd end.
  match goal with Hk : known_key_read_receipt _ _ _ = Ok _ |- _ =>
    apply known_key_receipt_counts in Hk as (_ & _ & He & Hc) end.
  destruct a2 as [jn jr], a3 as [bn br]. cbn in *.
  match goal with Hk : try_fold (read_json_key _ _) _ _ = Ok _ |- _ =>
    apply read_json_keys_exact in Hk as [Hj _] end.
  match goal with Hk : try_fold (read_blob_key _ _) _ _ = Ok _ |- _ =>
    apply read_blob_keys_exact in Hk as [Hb _] end.
  cbn in *. subst jr br.
  assert (a4 = if include_events then events store else []) as ->
    by (destruct include_events; by inv_ok).
  unfold len in *. rewrite !length_fmap in *. done.
Qed.

End SessionProps.

(** ** Witnesses *)

Module SessionSamples.
#[local] Existing Instance StoreSamples.sample_store_codec.
#[local] Existing Instance StoreSamples.sample_governance.
#[local] Existing Instance AuthoritySamples.sample_codec.

Definition scanned : StoreReadSessionState :=
  let s := (begin_catalog_scan (session_new embedded_sdk_capacity)).2 in
  let s := (read_json_known_keys StoreSamples.before s [("doc", "old"); ("doc", "none")]).2 in
  let s := (checkpoint_catalog_batch s).2 in
  (read_blob_known_keys StoreSamples.before s [("b", "x")]).2.

Lemma scanned_reachable :
  session_reachable StoreSamples.before embedded_sdk_capacity scanned.
Proof.
  unfold session_reachable, scanned.
  eapply rtc_l; [apply step_begin|]. eapply rtc_l; [apply step_read_json|].
  eapply rtc_l; [apply step_checkpoint|]. apply rtc_once, step_read_blob.
Defined.

Definition scanned_receipt : StoreReadReceipt :=
  match receipt scanned with Ok r => r | Err _ => receipt_default end.

Lemma scanned_receipt_ok : receipt scanned = Ok scanned_receipt.
Proof. vm_compute. reflexivity. Defined.

Lemma session_reads_exact_and_bounded_witness :
  blob_reads scanned ≠ [] ∧ session_ok StoreSamples.before scanned.
Proof.
  split; [vm_compute; discriminate|].
  exact (session_reads_exact_and_bounded _ _ _ scanned_reachable).
Defined.

Lemma session_receipt_exact_witness :
  entry_count scanned_receipt = 3 ∧ poisoned scanned = false.
Proof.
  split; [vm_compute; reflexivity|].
  exact (proj1 (session_receipt_exact _ _ _ _ scanned_reachable scanned_receipt_ok)).
Defined.

Lemma session_poisoning_witness :
  let s := (read_json_known_keys StoreSamples.before scanned [("b", "x"); ("b", "x")]).2 in
  receipt s = Err immutable_read_session_poisoned_error.
Proof.
  apply (proj2 (proj2 (session_poisoning
    (read_json_known_keys StoreSamples.before scanned [("b", "x"); ("b", "x")]).2))).
  vm_compute. reflexivity.
Defined.
End SessionSamples.
