(* ===== verification/Governed.v ===== *)
(** * Governed memory: owners, validity and failures

    The vocabulary of [crates/core/src/memory/governed_memory_owner.rs],
    [memory_privacy.rs] and [governed_memory_validity.rs]: owner references,
    the validity interval of an owner revision and its contract, and the
    enumeration of contract failures with its derived order. *)

From S2P Require Import Prelude RustStr.

Local Open Scope string_scope.
Local Open Scope N_scope.

Definition GOVERNED_MEMORY_LIFECYCLE_SCHEMA_VERSION : N := 1.
Definition MAX_GOVERNED_ELIGIBILITY_REASONS : N := 12.
Definition MAX_GOVERNED_PREMISE_DECISION_REF_BYTES : N := 256.

(** ** Owners *)

Inductive GovernedMemoryOwnerPlane :=
| LongTerm | EvidenceDocument | ConversationTranscript | MemoryGraph | RuntimeSkill
| AgentToolExperience.

#[global] Instance plane_eq_dec : EqDecision GovernedMemoryOwnerPlane.
Proof. solve_decision. Defined.

(** Position in the declaration, the order [derive(Ord)] gives. *)
Definition plane_rank (p : GovernedMemoryOwnerPlane) : nat :=
  match p with
  | LongTerm => 0 | EvidenceDocument => 1 | ConversationTranscript => 2
  | MemoryGraph => 3 | RuntimeSkill => 4 | AgentToolExperience => 5
  end.

Definition plane_of_rank (n : nat) : option GovernedMemoryOwnerPlane :=
  [LongTerm; EvidenceDocument; ConversationTranscript; MemoryGraph; RuntimeSkill;
   AgentToolExperience] !! n.

#[global] Program Instance plane_countable : Countable GovernedMemoryOwnerPlane :=
  inj_countable plane_rank plane_of_rank _.
Next Obligation. by intros []. Qed.

Definition plane_as_str (p : GovernedMemoryOwnerPlane) : string :=
  match p with
  | LongTerm => "long_term"
  | EvidenceDocument => "evidence_document"
  | ConversationTranscript => "conversation_transcript"
  | MemoryGraph => "memory_graph"
  | RuntimeSkill => "runtime_skill"
  | AgentToolExperience => "agent_tool_experience"
  end.

Record GovernedMemoryOwnerRef := mkOwnerRef {
  owner_plane : GovernedMemoryOwnerPlane;
  owner_id : string;
}.

Record GovernedOwnerRevisionRef := mkRevisionRef {
  owner_ref : GovernedMemoryOwnerRef;
  owner_revision : N;
}.

#[global] Instance owner_ref_eq_dec : EqDecision GovernedMemoryOwnerRef.
Proof. solve_decision. Defined.
#[global] Instance revision_ref_eq_dec : EqDecision GovernedOwnerRevisionRef.
Proof. solve_decision. Defined.

#[global] Program Instance owner_ref_countable : Countable GovernedMemoryOwnerRef :=
  inj_countable' (λ r, (owner_plane r, owner_id r)) (λ p, mkOwnerRef p.1 p.2) _.
Next Obligation. by intros []. Qed.
#[global] Program Instance revision_ref_countable : Countable GovernedOwnerRevisionRef :=
  inj_countable' (λ r, (owner_ref r, owner_revision r)) (λ p, mkRevisionRef p.1 p.2) _.
Next Obligation. by intros []. Qed.

Definition owner_ref_is_valid (r : GovernedMemoryOwnerRef) : bool :=
  negb (is_empty (owner_id r)) && bool_decide (owner_id r = trim (owner_id r)).

Definition revision_ref_is_valid (r : GovernedOwnerRevisionRef) : bool :=
  owner_ref_is_valid (owner_ref r) && (0 <? owner_revision r).

Definition revision_ref_try_new (o : GovernedMemoryOwnerRef) (revision : N)
    : result GovernedOwnerRevisionRef :=
  let r := mkRevisionRef o revision in
  _ ← ensure (revision_ref_is_valid r)
        (Config "governed_owner_revision_ref"
           "owner identity must be canonical and owner_revision must be positive");
  Ok r.

(** The derived order: plane, then identifier, then revision. *)
Definition revision_ref_leb (a b : GovernedOwnerRevisionRef) : bool :=
  match Nat.compare (plane_rank (owner_plane (owner_ref a)))
          (plane_rank (owner_plane (owner_ref b))) with
  | Lt => true
  | Gt => false
  | Eq =>
      match String.compare (owner_id (owner_ref a)) (owner_id (owner_ref b)) with
      | Lt => true
      | Gt => false
      | Eq => owner_revision a <=? owner_revision b
      end
  end.

(** ** Privacy classes ([memory_privacy.rs]) *)

Inductive MemoryPrivacyClass :=
| PublicRuntime | SharedWithSubject | PrivateGarden | SoulPrivate | OperatorDiagnostic.

#[global] Instance privacy_class_eq_dec : EqDecision MemoryPrivacyClass.
Proof. solve_decision. Defined.

Definition privacy_label (c : MemoryPrivacyClass) : string :=
  match c with
  | PublicRuntime => "public_runtime"
  | SharedWithSubject => "shared_with_subject"
  | PrivateGarden => "private_garden"
  | SoulPrivate => "soul_private"
  | OperatorDiagnostic => "operator_diagnostic"
  end.

Definition projection_content_allowed (c : MemoryPrivacyClass) : bool :=
  match c with PublicRuntime | SharedWithSubject => true | _ => false end.

Definition shared_fact_surface_allowed (c : MemoryPrivacyClass) : bool :=
  match c with PublicRuntime => true | _ => false end.

(** ** Contract failures *)

Inductive GovernedContractFailure :=
| OwnerRevisionRefInvalid | ValidityIntervalInvalid | ValiditySelfLoop
| ValidityTerminationMismatch | ValiditySuccessorMismatch | EligibilityReasonMissing
| EligibilityReasonUnexpected | EligibilityReasonDuplicate | EligibilityReasonLimitExceeded
| EligibilityPrimaryReasonMismatch | EligibilityReportSchemaMismatch
| EligibilityDecisionDuplicate | EligibilityQueryMismatch | EligibilityCountMismatch
| DynamicStateReportSchemaMismatch | DynamicStateOwnerMismatch
| DynamicStateValidityMismatch | DynamicStateDecisionMismatch | PremiseGateInvalid
| PremiseReportSchemaMismatch | PremiseReportItemInvalid | PremiseReportCountMismatch
| DeliveryReportMismatch | ContentDigestMismatch | HeadManifestClosureMismatch
| InvalidationActorMissing | InvalidationEvidenceMissing | InvalidationEvidenceOwnerInvalid
| InvalidationAuditReasonMissing | LineageDuplicateRevision | LineageCycle | LineageGap
| LineageScopeMismatch | LineagePrivacyMismatch | LineageDepthExceeded
| LineageFailureMismatch.

#[global] Instance failure_eq_dec : EqDecision GovernedContractFailure.
Proof. solve_decision. Defined.

Definition all_failures : list GovernedContractFailure :=
  [OwnerRevisionRefInvalid; ValidityIntervalInvalid; ValiditySelfLoop;
   ValidityTerminationMismatch; ValiditySuccessorMismatch; EligibilityReasonMissing;
   EligibilityReasonUnexpected; EligibilityReasonDuplicate; EligibilityReasonLimitExceeded;
   EligibilityPrimaryReasonMismatch; EligibilityReportSchemaMismatch;
   EligibilityDecisionDuplicate; EligibilityQueryMismatch; EligibilityCountMismatch;
   DynamicStateReportSchemaMismatch; DynamicStateOwnerMismatch;
   DynamicStateValidityMismatch; DynamicStateDecisionMismatch; PremiseGateInvalid;
   PremiseReportSchemaMismatch; PremiseReportItemInvalid; PremiseReportCountMismatch;
   DeliveryReportMismatch; ContentDigestMismatch; HeadManifestClosureMismatch;
   InvalidationActorMissing; InvalidationEvidenceMissing; InvalidationEvidenceOwnerInvalid;
   InvalidationAuditReasonMissing; LineageDuplicateRevision; LineageCycle; LineageGap;
   LineageScopeMismatch; LineagePrivacyMismatch; LineageDepthExceeded;
   LineageFailureMismatch].

(** A [BTreeSet<GovernedContractFailure>], as a predicate on the finite
    enumeration; its iteration is in declaration order. *)
Definition failure_set : Type := GovernedContractFailure → bool.

Definition failures_of (s : failure_set) : list GovernedContractFailure :=
  filter (λ f, s f = true) all_failures.

Definition failure_set_empty (s : failure_set) : bool := bool_decide (failures_of s = []).

Lemma all_failures_complete f : f ∈ all_failures.
Proof. unfold all_failures. destruct f; set_solver. Qed.

Lemma elem_of_failures_of s f : f ∈ failures_of s ↔ s f = true.
Proof.
  unfold failures_of. rewrite list_elem_of_filter. pose proof (all_failures_complete f). tauto.
Qed.

Lemma failures_of_nil s : failures_of s = [] ↔ ∀ f, s f = false.
Proof.
  split.
  - intros H f. apply not_true_iff_false. rewrite <- elem_of_failures_of, H. apply not_elem_of_nil.
  - intros H. apply elem_of_nil_inv. intros f Hf%elem_of_failures_of. by rewrite H in Hf.
Qed.

Lemma failures_of_ext s1 s2 : failures_of s1 = failures_of s2 ↔ ∀ f, s1 f = s2 f.
Proof.
  split.
  - intros H f. apply Bool.eq_true_iff_eq. by rewrite <- !elem_of_failures_of, H.
  - intros H. unfold failures_of. apply list_filter_iff. intros f. by rewrite H.
Qed.

Record GovernedContractValidation := mkValidation {
  accepted : bool;
  failures : list GovernedContractFailure;
}.

Definition from_failures (l : list GovernedContractFailure) : GovernedContractValidation :=
  mkValidation (bool_decide (l = [])) l.

(** [if b { failures.push(f) }] *)
Definition push_if (b : bool) (f : GovernedContractFailure) : list GovernedContractFailure :=
  if b then [f] else [].

Lemma push_if_nil b f : push_if b f = [] ↔ b = false.
Proof. by destruct b. Qed.

Lemma accepted_nil l : accepted (from_failures l) = true ↔ l = [].
Proof. cbn. apply bool_decide_eq_true. Qed.

(** ** Validity of an owner revision *)

Inductive GovernedOwnerTermination :=
| Revised | Corrected | TSuperseded | TInvalidated | TDeleted | TForgotten.

#[global] Instance termination_eq_dec : EqDecision GovernedOwnerTermination.
Proof. solve_decision. Defined.

Definition is_terminal_without_successor (t : GovernedOwnerTermination) : bool :=
  match t with TInvalidated | TDeleted | TForgotten => true | _ => false end.

Record GovernedOwnerValidity := mkValidity {
  valid_from : N;
  valid_until : option N;
  observed_at : N;
  predecessor : option GovernedOwnerRevisionRef;
  successor : option GovernedOwnerRevisionRef;
  termination : option GovernedOwnerTermination;
}.

Definition is_none {A} (o : option A) : bool := match o with None => true | _ => false end.
Definition opt_any {A} (P : A → bool) (o : option A) : bool :=
  match o with Some a => P a | None => false end.

Definition u64_checked_add (a b : N) : option N :=
  if a + b <=? u64_max then Some (a + b) else None.

Definition termination_failures (v : GovernedOwnerValidity)
    (current : GovernedOwnerRevisionRef) : list GovernedContractFailure :=
  match termination v with
  | None =>
      push_if (negb (is_none (valid_until v)) || negb (is_none (successor v)))
        ValidityTerminationMismatch
  | Some t =>
      (push_if (is_none (valid_until v)) ValidityTerminationMismatch
       ++ match t with
          | Revised | Corrected =>
              push_if (negb (opt_any (λ s,
                  bool_decide (owner_ref s = owner_ref current)
                  && opt_any (λ revision, owner_revision s =? revision)
                       (u64_checked_add (owner_revision current) 1)) (successor v)))
                ValiditySuccessorMismatch
          | TSuperseded =>
              push_if (negb (opt_any (λ s,
                  bool_decide (owner_plane (owner_ref s) = owner_plane (owner_ref current))
                  && negb (bool_decide (owner_id (owner_ref s) = owner_id (owner_ref current)))
                  && (owner_revision s =? 1)) (successor v)))
                ValiditySuccessorMismatch
          | t => push_if (is_terminal_without_successor t && negb (is_none (successor v)))
                   ValiditySuccessorMismatch
          end)%list
  end.

Definition validate_for (v : GovernedOwnerValidity) (current : GovernedOwnerRevisionRef)
    : GovernedContractValidation :=
  from_failures
    (push_if (negb (revision_ref_is_valid current)
              || opt_any (λ r, negb (revision_ref_is_valid r)) (predecessor v)
              || opt_any (λ r, negb (revision_ref_is_valid r)) (successor v))
       OwnerRevisionRefInvalid
     ++ push_if (opt_any (λ u, u <=? valid_from v) (valid_until v)) ValidityIntervalInvalid
     ++ push_if (bool_decide (predecessor v = Some current)
                 || bool_decide (successor v = Some current)) ValiditySelfLoop
     ++ termination_failures v current)%list.

(** What an accepted validity says. *)
Lemma validate_for_accepted v current :
  accepted (validate_for v current) = true →
  revision_ref_is_valid current = true
  ∧ (∀ u, valid_until v = Some u → valid_from v < u)
  ∧ predecessor v ≠ Some current ∧ successor v ≠ Some current
  ∧ (termination v = None ↔ valid_until v = None)
  ∧ (termination v = None → successor v = None).
Proof.
  unfold validate_for. rewrite accepted_nil. intros H.
  apply app_nil in H as [H1 H]. apply app_nil in H as [H2 H]. apply app_nil in H as [H3 H].
  apply push_if_nil in H1, H2, H3. split_bool.
  split_and!; [done| |done|done| |].
  - intros u Hu. rewrite Hu in H2. cbn in H2. by split_bool.
  - unfold termination_failures in H. destruct (termination v) as [t|].
    + apply app_nil in H as [H _]. apply push_if_nil in H. by destruct (valid_until v).
    + apply push_if_nil in H. by destruct (valid_until v).
  - intros Ht. unfold termination_failures in H. rewrite Ht in H. apply push_if_nil in H.
    split_bool. by destruct (successor v).
Qed.
