(* ===== verification/Eligibility.v ===== *)
(** * Governed memory: recall eligibility

    Model of the eligibility part of
    [crates/core/src/memory/governed_memory_validity.rs]: the decision whether
    an owner revision may be recalled at a query time, its contract, the report
    over many decisions, and the dynamic-state reports built from decisions. *)

From S2P Require Import Prelude RustStr Governed.
From stdpp Require Import sorting.

Local Open Scope string_scope.
Local Open Scope list_scope.
Local Open Scope N_scope.

(** ** Data *)

Inductive GovernedRecallEligibility := EligibleCurrent | EligibleHistoricalAsOf | Excluded.

#[global] Instance eligibility_eq_dec : EqDecision GovernedRecallEligibility.
Proof. solve_decision. Defined.

Inductive GovernedRecallEligibilityReason :=
| PrivacyBlocked | Forgotten | Deleted | Invalidated | Superseded | Obsolete | Stale
| PremiseBlocked | ProfileBlocked | BudgetBlocked | Tombstoned | Redacted.

#[global] Instance reason_eq_dec : EqDecision GovernedRecallEligibilityReason.
Proof. solve_decision. Defined.

Definition precedence (r : GovernedRecallEligibilityReason) : N :=
  match r with
  | PrivacyBlocked => 1 | Forgotten => 2 | Deleted => 3 | Invalidated => 4
  | Superseded => 5 | Obsolete => 6 | Stale => 7 | PremiseBlocked => 8
  | ProfileBlocked => 9 | BudgetBlocked => 10 | Tombstoned => 11 | Redacted => 12
  end.

(** [min_by_key] keeps the first of equal keys. *)
Definition min_reason (a b : GovernedRecallEligibilityReason) : GovernedRecallEligibilityReason :=
  if precedence b <? precedence a then b else a.

Definition primary_governed_recall_reason (l : list GovernedRecallEligibilityReason)
    : option GovernedRecallEligibilityReason :=
  match l with [] => None | a :: l' => Some (foldl min_reason a l') end.

Inductive GovernedProfileBudgetDrop := DropNone | DropProfile | DropBudget | DropProfileAndBudget.

#[global] Instance drop_eq_dec : EqDecision GovernedProfileBudgetDrop.
Proof. solve_decision. Defined.

Inductive GovernedRecallTemporalQuery :=
| Current (query_time : N)
| HistoricalAsOf (query_time as_of_time : N).

Inductive GovernedRecallDisclosure := DisclosureAllowed | DisclosurePrivacyBlocked | DisclosureRedacted.

#[global] Instance disclosure_eq_dec : EqDecision GovernedRecallDisclosure.
Proof. solve_decision. Defined.

Inductive PremiseEvaluationDecision :=
| Satisfied | Unsatisfied | Unknown | Expired | PremisePrivacyBlocked.

#[global] Instance premise_decision_eq_dec : EqDecision PremiseEvaluationDecision.
Proof. solve_decision. Defined.

Inductive GovernedRequiredPremiseGate :=
| GateNotApplicable
| GateSatisfied (decision_ref : string)
| GateBlocked (decision_ref : string) (decision : PremiseEvaluationDecision).

Definition valid_decision_ref (r : string) : bool :=
  negb (blank r) && bool_decide (r = trim r)
  && (str_len r <=? MAX_GOVERNED_PREMISE_DECISION_REF_BYTES).

Definition gate_validate_contract (g : GovernedRequiredPremiseGate)
    : GovernedContractValidation :=
  let ok := match g with
            | GateNotApplicable => true
            | GateSatisfied r => valid_decision_ref r
            | GateBlocked r d => valid_decision_ref r && negb (bool_decide (d = Satisfied))
            end in
  from_failures (push_if (negb ok) PremiseGateInvalid).

Record GovernedRecallAuthorityGates := mkGates {
  disclosure : GovernedRecallDisclosure;
  required_premise : GovernedRequiredPremiseGate;
  gate_profile_budget_drop : GovernedProfileBudgetDrop;
}.

Record GovernedRecallLifecycleFacts := mkLifecycle {
  lf_owner_revision_ref : GovernedOwnerRevisionRef;
  lf_validity : GovernedOwnerValidity;
  lf_stale : bool;
  lf_obsolete : bool;
  lf_tombstoned : bool;
  historical_model_allowed : bool;
}.

Definition lifecycle_facts_new (r : GovernedOwnerRevisionRef) (v : GovernedOwnerValidity)
    (stale obsolete tombstoned historical_allowed : bool)
    : result GovernedRecallLifecycleFacts :=
  _ ← ensure (accepted (validate_for v r))
        (Config "governed_recall_lifecycle_facts" "owner validity is not canonical");
  Ok (mkLifecycle r v stale obsolete tombstoned historical_allowed).

Record GovernedRecallEligibilityDecision := mkDecision {
  eligibility : GovernedRecallEligibility;
  primary_reason : option GovernedRecallEligibilityReason;
  reasons : list GovernedRecallEligibilityReason;
  owner_revision_ref : GovernedOwnerRevisionRef;
  query_time : N;
  effective_time : N;
  premise_decision_ref : option string;
  profile_budget_drop : GovernedProfileBudgetDrop;
}.

(** ** The contract of a decision *)

Definition decision_validate_contract (d : GovernedRecallEligibilityDecision)
    : GovernedContractValidation :=
  from_failures
    (push_if (negb (revision_ref_is_valid (owner_revision_ref d))) OwnerRevisionRefInvalid
     ++ push_if (MAX_GOVERNED_ELIGIBILITY_REASONS <? len (reasons d))
          EligibilityReasonLimitExceeded
     ++ push_if (negb (bool_decide (NoDup (reasons d)))) EligibilityReasonDuplicate
     ++ match eligibility d with
        | Excluded => push_if (bool_decide (reasons d = [])) EligibilityReasonMissing
        | EligibleCurrent | EligibleHistoricalAsOf =>
            push_if (negb (bool_decide (reasons d = []))) EligibilityReasonUnexpected
        end
     ++ push_if (negb (bool_decide (primary_reason d
                                    = primary_governed_recall_reason (reasons d))))
          EligibilityPrimaryReasonMismatch
     ++ push_if (opt_any (λ r, blank r || negb (bool_decide (r = trim r))
                               || (MAX_GOVERNED_PREMISE_DECISION_REF_BYTES <? str_len r))
                   (premise_decision_ref d)
                 || (bool_decide (PremiseBlocked ∈ reasons d)
                     && is_none (premise_decision_ref d)))
          PremiseGateInvalid).

(** ** The decision *)

Definition query_times (q : GovernedRecallTemporalQuery) : result (N * N * bool) :=
  match q with
  | Current t => Ok (t, t, false)
  | HistoricalAsOf t as_of =>
      if t <? as_of then
        Err (Config "governed_recall_eligibility"
               "historical as-of time cannot be later than query time")
      else Ok (t, as_of, true)
  end.

Definition historical_reasons (f : GovernedRecallLifecycleFacts) (historical : bool)
    : list GovernedRecallEligibilityReason :=
  if historical && negb (historical_model_allowed f) then [Obsolete] else [].

Definition disclosure_reasons (d : GovernedRecallDisclosure)
    : list GovernedRecallEligibilityReason :=
  match d with
  | DisclosureAllowed => []
  | DisclosurePrivacyBlocked => [PrivacyBlocked]
  | DisclosureRedacted => [Redacted]
  end.

Definition termination_reasons (t : option GovernedOwnerTermination) (historical : bool)
    : list GovernedRecallEligibilityReason :=
  match t with
  | Some TInvalidated => [Invalidated]
  | Some TDeleted => [Deleted]
  | Some TForgotten => [Forgotten]
  | Some Corrected => [Obsolete]
  | Some TSuperseded => if historical then [] else [Superseded; Obsolete]
  | Some Revised => if historical then [] else [Obsolete]
  | None => []
  end.

Definition premise_reasons (g : GovernedRequiredPremiseGate)
    : list GovernedRecallEligibilityReason :=
  match g with
  | GateBlocked _ d =>
      (if decide (d = PremisePrivacyBlocked) then [PrivacyBlocked] else []) ++ [PremiseBlocked]
  | _ => []
  end.

Definition premise_ref (g : GovernedRequiredPremiseGate) : option string :=
  match g with
  | GateNotApplicable => None
  | GateSatisfied r | GateBlocked r _ => Some r
  end.

Definition drop_reasons (d : GovernedProfileBudgetDrop)
    : list GovernedRecallEligibilityReason :=
  match d with
  | DropNone => []
  | DropProfile => [ProfileBlocked]
  | DropBudget => [BudgetBlocked]
  | DropProfileAndBudget => [ProfileBlocked; BudgetBlocked]
  end.

Definition flag_reason (b : bool) (r : GovernedRecallEligibilityReason)
    : list GovernedRecallEligibilityReason := if b then [r] else [].

Definition raw_reasons (f : GovernedRecallLifecycleFacts) (gates : GovernedRecallAuthorityGates)
    (historical : bool) : list GovernedRecallEligibilityReason :=
  historical_reasons f historical
  ++ disclosure_reasons (disclosure gates)
  ++ termination_reasons (termination (lf_validity f)) historical
  ++ flag_reason (lf_stale f) Stale
  ++ flag_reason (lf_obsolete f) Obsolete
  ++ premise_reasons (required_premise gates)
  ++ drop_reasons (gate_profile_budget_drop gates)
  ++ flag_reason (lf_tombstoned f && is_none (termination (lf_validity f))) Tombstoned.

Definition drop_redacted (l : list GovernedRecallEligibilityReason)
    : list GovernedRecallEligibilityReason :=
  if decide (PrivacyBlocked ∈ l) then filter (λ r, r ≠ Redacted) l else l.

(** [sort_by_key(precedence)] (stable) followed by [dedup]. *)
Definition precedence_le (a b : GovernedRecallEligibilityReason) : Prop :=
  precedence a ≤ precedence b.
#[global] Instance precedence_le_dec : RelDecision precedence_le.
Proof. intros a b. unfold precedence_le. apply _. Defined.

Fixpoint dedup_reasons (l : list GovernedRecallEligibilityReason)
    : list GovernedRecallEligibilityReason :=
  match l with
  | a :: (b :: _) as l' => if decide (a = b) then dedup_reasons l' else a :: dedup_reasons l'
  | _ => l
  end.

Definition decision_reasons (f : GovernedRecallLifecycleFacts)
    (gates : GovernedRecallAuthorityGates) (historical : bool)
    : list GovernedRecallEligibilityReason :=
  dedup_reasons (merge_sort precedence_le (drop_redacted (raw_reasons f gates historical))).

Definition decide_governed_recall_eligibility (f : GovernedRecallLifecycleFacts)
    (query : GovernedRecallTemporalQuery) (gates : GovernedRecallAuthorityGates)
    : result GovernedRecallEligibilityDecision :=
  let stage := "governed_recall_eligibility" in
  _ ← ensure (accepted (validate_for (lf_validity f) (lf_owner_revision_ref f)))
        (Config stage "owner lifecycle facts are invalid");
  _ ← ensure (accepted (gate_validate_contract (required_premise gates)))
        (Config stage "required premise gate is invalid");
  times ← query_times query;
  let '(query_time, effective_time, historical) := times in
  _ ← ensure (negb ((query_time =? 0)
                    || (effective_time <? valid_from (lf_validity f))
                    || (historical
                        && opt_any (λ u, u <=? effective_time) (valid_until (lf_validity f)))))
        (Config stage "query does not address an eligible owner validity interval");
  let rs := decision_reasons f gates historical in
  let decision :=
    {| eligibility :=
         if decide (rs = []) then
           (if historical then EligibleHistoricalAsOf else EligibleCurrent)
         else Excluded;
       primary_reason := primary_governed_recall_reason rs;
       reasons := rs;
       owner_revision_ref := lf_owner_revision_ref f;
       query_time := query_time;
       effective_time := effective_time;
       premise_decision_ref := premise_ref (required_premise gates);
       profile_budget_drop := gate_profile_budget_drop gates |} in
  _ ← ensure (accepted (decision_validate_contract decision))
        (Config stage "derived decision failed its canonical contract");
  Ok decision.

(** ** Reports *)

Definition count_eligibility (ds : list GovernedRecallEligibilityDecision)
    (e : GovernedRecallEligibility) : N :=
  len (filter (λ d, eligibility d = e) ds).

Definition count_eligibility_reasons (ds : list GovernedRecallEligibilityDecision)
    (r : GovernedRecallEligibilityReason) : N :=
  len (filter (λ x, x = r) (concat (reasons <$> ds))).

Definition count_drops (ds : list GovernedRecallEligibilityDecision) : N :=
  len (filter (λ d, profile_budget_drop d ≠ DropNone) ds).

Definition all_eligibilities : list GovernedRecallEligibility :=
  [EligibleCurrent; EligibleHistoricalAsOf; Excluded].
Definition all_reasons : list GovernedRecallEligibilityReason :=
  [PrivacyBlocked; Forgotten; Deleted; Invalidated; Superseded; Obsolete; Stale;
   PremiseBlocked; ProfileBlocked; BudgetBlocked; Tombstoned; Redacted].

(** A count map lists the keys that occur, in key order, with their counts. *)
Definition counts_of {K} (keys : list K) (count : K → N) : list (K * N) :=
  filter (λ p, p.2 ≠ 0) ((λ k, (k, count k)) <$> keys).

Record GovernedRecallEligibilityReport := mkReport {
  er_schema_version : N;
  decisions : list GovernedRecallEligibilityDecision;
  eligibility_counts : list (GovernedRecallEligibility * N);
  reason_counts : list (GovernedRecallEligibilityReason * N);
  er_as_of_time : option N;
  profile_budget_drop_count : N;
}.

Definition report_validate_contract (r : GovernedRecallEligibilityReport)
    : GovernedContractValidation :=
  let ds := decisions r in
  from_failures
    (push_if (negb (er_schema_version r =? GOVERNED_MEMORY_LIFECYCLE_SCHEMA_VERSION))
       EligibilityReportSchemaMismatch
     ++ push_if (existsb (λ d, negb (accepted (decision_validate_contract d))) ds
                 || negb (bool_decide (NoDup (owner_revision_ref <$> ds))))
          EligibilityDecisionDuplicate
     ++ push_if (negb (bool_decide (eligibility_counts r
                                    = counts_of all_eligibilities (count_eligibility ds)))
                 || negb (bool_decide (reason_counts r
                                       = counts_of all_reasons (count_eligibility_reasons ds)))
                 || negb (profile_budget_drop_count r =? count_drops ds))
          EligibilityCountMismatch
     ++ push_if
          match er_as_of_time r with
          | Some as_of => existsb (λ d, negb (effective_time d =? as_of)
                                        || bool_decide (eligibility d = EligibleCurrent)) ds
          | None => existsb (λ d, negb (effective_time d =? query_time d)
                                  || bool_decide (eligibility d = EligibleHistoricalAsOf)) ds
          end EligibilityQueryMismatch).

Definition decision_matches_query (q : GovernedRecallTemporalQuery)
    (d : GovernedRecallEligibilityDecision) : bool :=
  match q with
  | Current t =>
      (query_time d =? t) && (effective_time d =? t)
      && negb (bool_decide (eligibility d = EligibleHistoricalAsOf))
  | HistoricalAsOf t as_of =>
      (query_time d =? t) && (effective_time d =? as_of)
      && negb (bool_decide (eligibility d = EligibleCurrent))
  end.

Definition query_as_of (q : GovernedRecallTemporalQuery) : option N :=
  match q with Current _ => None | HistoricalAsOf _ as_of => Some as_of end.

Definition build_governed_recall_eligibility_report
    (ds : list GovernedRecallEligibilityDecision) (query : GovernedRecallTemporalQuery)
    (max_decisions : N) : result GovernedRecallEligibilityReport :=
  let stage := "governed_recall_eligibility_report" in
  _ ← ensure (negb ((max_decisions =? 0) || (max_decisions <? len ds)))
        (Config stage "decision count exceeds the request-pinned report budget");
  _ ← ensure (forallb (λ d, accepted (decision_validate_contract d)
                            && decision_matches_query query d) ds
              && bool_decide (NoDup (owner_revision_ref <$> ds)))
        (Config stage "decision owner or temporal query contract drift");
  let report :=
    {| er_schema_version := GOVERNED_MEMORY_LIFECYCLE_SCHEMA_VERSION;
       decisions := ds;
       eligibility_counts := counts_of all_eligibilities (count_eligibility ds);
       reason_counts := counts_of all_reasons (count_eligibility_reasons ds);
       er_as_of_time := query_as_of query;
       profile_budget_drop_count := count_drops ds |} in
  _ ← ensure (accepted (report_validate_contract report))
        (Config stage "derived report failed its canonical contract");
  Ok report.

(** ** Dynamic state *)

Record DynamicStateResolutionReport := mkDynamic {
  ds_schema_version : N;
  ds_predecessor : option GovernedOwnerRevisionRef;
  ds_successor : option GovernedOwnerRevisionRef;
  ds_validity : GovernedOwnerValidity;
  current_decision : GovernedRecallEligibilityDecision;
  as_of_decision : option GovernedRecallEligibilityDecision;
  conflict_count : N;
  unknown_count : N;
}.

Definition dynamic_failures (r : DynamicStateResolutionReport)
    : list GovernedContractFailure :=
  let c := current_decision r in
  let v := ds_validity r in
  push_if (negb (ds_schema_version r =? GOVERNED_MEMORY_LIFECYCLE_SCHEMA_VERSION))
    DynamicStateReportSchemaMismatch
  ++ push_if (negb (bool_decide (ds_predecessor r = predecessor v))
              || negb (bool_decide (ds_successor r = successor v)))
       DynamicStateValidityMismatch
  ++ push_if (negb (accepted (validate_for v (owner_revision_ref c))))
       DynamicStateValidityMismatch
  ++ push_if (negb (accepted (decision_validate_contract c))
              || (query_time c =? 0)
              || negb (effective_time c =? query_time c)
              || bool_decide (eligibility c = EligibleHistoricalAsOf))
       DynamicStateDecisionMismatch
  ++ match as_of_decision r with
     | None => []
     | Some d =>
         push_if (negb (bool_decide (owner_revision_ref d = owner_revision_ref c)))
           DynamicStateOwnerMismatch
         ++ push_if (negb (accepted (decision_validate_contract d))
                     || (query_time d =? 0)
                     || negb (query_time d =? query_time c)
                     || (query_time d <? effective_time d)
                     || (effective_time d <? valid_from v)
                     || opt_any (λ u, u <=? effective_time d) (valid_until v)
                     || bool_decide (eligibility d = EligibleCurrent))
              DynamicStateDecisionMismatch
     end.

(** [failures.sort(); failures.dedup()] *)
Definition dynamic_validate_contract (r : DynamicStateResolutionReport)
    : GovernedContractValidation :=
  from_failures (failures_of (λ f, bool_decide (f ∈ dynamic_failures r))).

Definition dynamic_report (f : GovernedRecallLifecycleFacts)
    (current : GovernedRecallEligibilityDecision)
    (as_of : option GovernedRecallEligibilityDecision) : DynamicStateResolutionReport :=
  {| ds_schema_version := GOVERNED_MEMORY_LIFECYCLE_SCHEMA_VERSION;
     ds_predecessor := predecessor (lf_validity f);
     ds_successor := successor (lf_validity f);
     ds_validity := lf_validity f;
     current_decision := current; as_of_decision := as_of;
     conflict_count := 0; unknown_count := 0 |}.

Definition build_current_dynamic_state_resolution_report (f : GovernedRecallLifecycleFacts)
    (query_time : N) (gates : GovernedRecallAuthorityGates)
    : result DynamicStateResolutionReport :=
  current ← decide_governed_recall_eligibility f (Current query_time) gates;
  let report := dynamic_report f current None in
  _ ← ensure (negb (negb (accepted (dynamic_validate_contract report))
                    || negb (is_none (as_of_decision report))
                    || negb (conflict_count report =? 0)
                    || negb (unknown_count report =? 0)))
        (Config "dynamic_state_resolution_report"
           "derived current dynamic-state report failed its canonical contract");
  Ok report.

Definition build_historical_dynamic_state_resolution_report
    (f : GovernedRecallLifecycleFacts) (qt as_of_time : N)
    (gates : GovernedRecallAuthorityGates) : result DynamicStateResolutionReport :=
  current ← decide_governed_recall_eligibility f (Current qt) gates;
  as_of ← decide_governed_recall_eligibility f (HistoricalAsOf qt as_of_time) gates;
  let report := dynamic_report f current (Some as_of) in
  _ ← ensure (negb (negb (accepted (dynamic_validate_contract report))
                    || match as_of_decision report with
                       | None => true
                       | Some d => negb (query_time d =? qt)
                                   || negb (effective_time d =? as_of_time)
                       end
                    || negb (conflict_count report =? 0)
                    || negb (unknown_count report =? 0)))
        (Config "dynamic_state_resolution_report"
           "derived historical dynamic-state report failed its canonical contract");
  Ok report.
