(* ===== verification/EligibilityProps.v ===== *)
(** * Governed memory: theorems about recall eligibility

    The decision procedure fails exactly on inadmissible input and never on
    its own final check; it lets a revision through exactly when nothing
    speaks against it; privacy dominates every other reason; and the reports
    built from decisions never fail their own contracts. *)

From S2P Require Import Prelude RustStr Governed Eligibility.
From stdpp Require Import sorting.

Local Open Scope string_scope.
Local Open Scope list_scope.
Local Open Scope N_scope.

Lemma existsb_false_lemma {A} (P : A → bool) l :
  (∀ x, x ∈ l → P x = false) → existsb P l = false.
Proof.
  intros H. apply not_true_iff_false. rewrite existsb_exists. intros (x & Hx & Hp).
  rewrite H in Hp; [done|]. by apply list_elem_of_In.
Qed.

(** ** Reasons *)

#[export] Instance precedence_inj : Inj (=) (=) precedence.
Proof. intros [] []; done. Qed.
#[export] Instance precedence_le_trans : Transitive precedence_le.
Proof. intros a b c. unfold precedence_le. lia. Qed.
#[export] Instance precedence_le_total : Total precedence_le.
Proof. intros a b. unfold precedence_le. lia. Qed.

Lemma dedup_reasons_elem l x : x ∈ dedup_reasons l ↔ x ∈ l.
Proof.
  induction l as [|a l IH]; [done|]. destruct l as [|b l]; [done|].
  change (dedup_reasons (a :: b :: l)) with
    (if decide (a = b) then dedup_reasons (b :: l) else a :: dedup_reasons (b :: l)).
  case_decide; subst; rewrite ?elem_of_cons, IH, ?elem_of_cons; tauto.
Qed.

Lemma dedup_reasons_nodup l : StronglySorted precedence_le l → NoDup (dedup_reasons l).
Proof.
  induction 1 as [|a l Hs IH Hall]; [apply NoDup_nil_2|]. destruct l as [|b l]; [apply NoDup_singleton|].
  change (dedup_reasons (a :: b :: l)) with
    (if decide (a = b) then dedup_reasons (b :: l) else a :: dedup_reasons (b :: l)).
  case_decide as Hab; [done|]. apply NoDup_cons_2; [|done]. rewrite dedup_reasons_elem.
  intros Hin. apply Hab. apply (inj precedence).
  apply Forall_cons in Hall as [Hab' _]. unfold precedence_le in Hab'.
  apply StronglySorted_inv in Hs as [_ Hb]. rewrite Forall_forall in Hb.
  apply elem_of_cons in Hin as [->|Hin]; [done|]. specialize (Hb _ Hin).
  unfold precedence_le in Hb. lia.
Qed.

Lemma decision_reasons_elem f g h x :
  x ∈ decision_reasons f g h ↔ x ∈ drop_redacted (raw_reasons f g h).
Proof.
  unfold decision_reasons. rewrite dedup_reasons_elem. by rewrite merge_sort_Permutation.
Qed.

Lemma decision_reasons_nodup f g h : NoDup (decision_reasons f g h).
Proof. apply dedup_reasons_nodup, (StronglySorted_merge_sort precedence_le). Qed.

Lemma drop_redacted_elem l x :
  x ∈ drop_redacted l ↔ x ∈ l ∧ (x = Redacted → PrivacyBlocked ∉ l).
Proof.
  unfold drop_redacted. case_decide as Hp.
  - rewrite list_elem_of_filter. naive_solver.
  - naive_solver.
Qed.

Lemma decision_reasons_nil f g h : decision_reasons f g h = [] ↔ raw_reasons f g h = [].
Proof.
  split; intros H; apply elem_of_nil_inv; intros x Hx.
  - destruct (decide (PrivacyBlocked ∈ raw_reasons f g h)) as [Hp|Hp].
    + assert (Hq : PrivacyBlocked ∈ decision_reasons f g h).
      { by rewrite decision_reasons_elem, drop_redacted_elem. }
      rewrite H in Hq. by apply elem_of_nil in Hq.
    + assert (Hq : x ∈ decision_reasons f g h).
      { by rewrite decision_reasons_elem, drop_redacted_elem. }
      rewrite H in Hq. by apply elem_of_nil in Hq.
  - rewrite decision_reasons_elem, drop_redacted_elem, H in Hx. destruct Hx as [Hx _].
    by apply elem_of_nil in Hx.
Qed.

Lemma all_reasons_complete r : r ∈ all_reasons.
Proof. unfold all_reasons. destruct r; set_solver. Qed.

Lemma nodup_reasons_bounded (l : list GovernedRecallEligibilityReason) : NoDup l → len l ≤ MAX_GOVERNED_ELIGIBILITY_REASONS.
Proof.
  intros Hnd. assert (Hsub : l ⊆+ all_reasons).
  { apply NoDup_submseteq; [done|]. intros x _. apply all_reasons_complete. }
  apply submseteq_length in Hsub. unfold len, MAX_GOVERNED_ELIGIBILITY_REASONS. cbn in Hsub. lia.
Qed.

Lemma foldl_min_reason l a :
  (foldl min_reason a l = a ∨ foldl min_reason a l ∈ l)
  ∧ precedence (foldl min_reason a l) ≤ precedence a
  ∧ ∀ x, x ∈ l → precedence (foldl min_reason a l) ≤ precedence x.
Proof.
  revert a. induction l as [|b l IH]; intros a; cbn.
  - split_and!; [by left|done|]. intros x Hx. by apply elem_of_nil in Hx.
  - destruct (IH (min_reason a b)) as (H1 & H2 & H3).
    assert (Hm : (min_reason a b = a ∨ min_reason a b = b)
      ∧ precedence (min_reason a b) ≤ precedence a
      ∧ precedence (min_reason a b) ≤ precedence b).
    { unfold min_reason. destruct (_ <? _) eqn:E; split_bool; split_and!; auto; lia. }
    destruct Hm as ([Hm|Hm] & Ha & Hb); rewrite Hm in *.
    all: split_and!; [set_solver|lia|intros x [->|Hx]%elem_of_cons; [lia|auto]].
Qed.

(** The primary reason is the reason of least precedence. *)
Lemma primary_reason_min l r :
  primary_governed_recall_reason l = Some r ↔
  r ∈ l ∧ ∀ x, x ∈ l → precedence r ≤ precedence x.
Proof.
  destruct l as [|a l]; cbn.
  - split; [done|]. intros [Hr _]. by apply elem_of_nil in Hr.
  - destruct (foldl_min_reason l a) as (H1 & H2 & H3). split.
    + intros [= <-]. split; [set_solver|]. intros x [->|Hx]%elem_of_cons; auto.
    + intros [Hr Hmin]. f_equal. apply (inj precedence).
      assert (precedence r ≤ precedence (foldl min_reason a l)).
      { apply Hmin. destruct H1 as [->|H1]; set_solver. }
      apply elem_of_cons in Hr as [->|Hr]; [lia|]. specialize (H3 r Hr). lia.
Qed.

(** ** The decision *)

Definition historical_query (q : GovernedRecallTemporalQuery) : bool :=
  match q with Current _ => false | HistoricalAsOf _ _ => true end.
Definition time_of (q : GovernedRecallTemporalQuery) : N :=
  match q with Current t | HistoricalAsOf t _ => t end.
Definition effective_of (q : GovernedRecallTemporalQuery) : N :=
  match q with Current t => t | HistoricalAsOf _ as_of => as_of end.

(** The inputs a decision can be made on. *)
Record decidable_query (f : GovernedRecallLifecycleFacts) (q : GovernedRecallTemporalQuery)
    (g : GovernedRecallAuthorityGates) : Prop := {
  dq_validity : accepted (validate_for (lf_validity f) (lf_owner_revision_ref f)) = true;
  dq_gate : accepted (gate_validate_contract (required_premise g)) = true;
  dq_as_of : effective_of q ≤ time_of q;
  dq_time : time_of q ≠ 0;
  dq_from : valid_from (lf_validity f) ≤ effective_of q;
  dq_until : ∀ u, historical_query q = true → valid_until (lf_validity f) = Some u →
               effective_of q < u;
}.

Definition derived_decision (f : GovernedRecallLifecycleFacts)
    (q : GovernedRecallTemporalQuery) (g : GovernedRecallAuthorityGates)
    : GovernedRecallEligibilityDecision :=
  let rs := decision_reasons f g (historical_query q) in
  {| eligibility := if decide (rs = []) then
                      (if historical_query q then EligibleHistoricalAsOf else EligibleCurrent)
                    else Excluded;
     primary_reason := primary_governed_recall_reason rs; reasons := rs;
     owner_revision_ref := lf_owner_revision_ref f;
     query_time := time_of q; effective_time := effective_of q;
     premise_decision_ref := premise_ref (required_premise g);
     profile_budget_drop := gate_profile_budget_drop g |}.

Lemma gate_ref_valid g r :
  accepted (gate_validate_contract g) = true → premise_ref g = Some r →
  valid_decision_ref r = true.
Proof.
  unfold gate_validate_contract. rewrite accepted_nil, push_if_nil. intros H Hr. split_bool.
  destruct g; cbn in *; simplify_eq; [done|]. by split_bool.
Qed.

Lemma raw_premise_blocked f g h :
  PremiseBlocked ∈ raw_reasons f g h → is_none (premise_ref (required_premise g)) = false.
Proof.
  unfold raw_reasons. rewrite !elem_of_app.
  intros [H|[H|[H|[H|[H|[H|[H|H]]]]]]]; revert H.
  - unfold historical_reasons. destruct (_ && _); set_solver.
  - destruct (disclosure g); set_solver.
  - unfold termination_reasons. destruct (termination _) as [[]|], h; set_solver.
  - destruct (lf_stale f); set_solver.
  - destruct (lf_obsolete f); set_solver.
  - by destruct (required_premise g); cbn; [intros ?%elem_of_nil|intros ?%elem_of_nil|].
  - destruct (gate_profile_budget_drop g); set_solver.
  - destruct (_ && _); set_solver.
Qed.

(** A derived decision always meets its contract. *)
Lemma derived_decision_accepted f q g :
  decidable_query f q g → accepted (decision_validate_contract (derived_decision f q g)) = true.
Proof.
  intros [Hv Hg _ _ _ _]. unfold decision_validate_contract. rewrite accepted_nil.
  apply validate_for_accepted in Hv as (Href & _).
  set (rs := decision_reasons f g (historical_query q)).
  assert (Hnd : NoDup rs) by apply decision_reasons_nodup.
  cbn [derived_decision owner_revision_ref reasons eligibility primary_reason
       premise_decision_ref]. fold rs.
  rewrite Href. rewrite (bool_decide_eq_true_2 (NoDup rs)) by done.
  assert ((MAX_GOVERNED_ELIGIBILITY_REASONS <? len rs) = false) as ->.
  { apply N.ltb_ge. by apply nodup_reasons_bounded. }
  rewrite (bool_decide_eq_true_2 (primary_governed_recall_reason rs = _)) by done.
  assert (Hp : opt_any (λ r, blank r || negb (bool_decide (r = trim r))
      || (MAX_GOVERNED_PREMISE_DECISION_REF_BYTES <? str_len r)) (premise_ref (required_premise g))
    || (bool_decide (PremiseBlocked ∈ rs) && is_none (premise_ref (required_premise g))) = false).
  { apply orb_false_iff. split.
    - destruct (premise_ref (required_premise g)) as [r|] eqn:Hr; cbn; [|done].
      pose proof (gate_ref_valid _ _ Hg Hr) as Hok. unfold valid_decision_ref in Hok. split_bool.
      rewrite !orb_false_iff. split_and!; [done| |by apply N.ltb_ge].
      apply negb_false_iff. by apply bool_decide_eq_true_2.
    - case_bool_decide as Hin; [|done]. cbn.
      apply (raw_premise_blocked f g (historical_query q)).
      by apply decision_reasons_elem, drop_redacted_elem in Hin as [Hin _]. }
  rewrite Hp. cbn. destruct (decide (rs = [])) as [Hrs|Hrs].
  - rewrite (bool_decide_eq_true_2 (rs = [])) by done. by destruct (historical_query q).
  - by rewrite (bool_decide_eq_false_2 (rs = [])).
Qed.

Lemma decide_complete_lemma f q g :
  match decide_governed_recall_eligibility f q g with
  | Ok d => decidable_query f q g ∧ d = derived_decision f q g
  | Err _ => ¬ decidable_query f q g
  end.
Proof.
  unfold decide_governed_recall_eligibility.
  destruct (accepted (validate_for _ _)) eqn:Hv; cbn [mbind result_bind ensure];
    [|by intros []; congruence].
  destruct (accepted (gate_validate_contract _)) eqn:Hg; cbn [mbind result_bind ensure];
    [|by intros []; congruence].
  assert (Hq : query_times q = (if time_of q <? effective_of q
    then Err (Config "governed_recall_eligibility"
               "historical as-of time cannot be later than query time")
    else Ok (time_of q, effective_of q, historical_query q))).
  { destruct q; cbn; [by rewrite N.ltb_irrefl|done]. }
  rewrite Hq. destruct (_ <? _) eqn:Ht; cbn [mbind result_bind ensure]; split_bool;
    [by intros []; lia|].
  destruct (negb (_ || _ || _)) eqn:Hc; cbn [mbind result_bind ensure]; split_bool.
  - assert (Hdq : decidable_query f q g).
    { split; try done. intros u Hh Hu. match goal with H : historical_query q && _ = false |- _ =>
        rewrite Hh, Hu in H; cbn in H; by split_bool end. }
    pose proof (derived_decision_accepted _ _ _ Hdq) as Hacc.
    change (accepted (decision_validate_contract _)) with
      (accepted (decision_validate_contract (derived_decision f q g))).
    by rewrite Hacc.
  - intros [_ _ _ Hz Hf Hu]. apply not_false_iff_true in Hc. apply Hc.
    apply orb_false_iff. split; [apply orb_false_iff; split|].
    + by apply N.eqb_neq.
    + by apply N.ltb_ge.
    + destruct (historical_query q) eqn:Hh; [|done]. cbn.
      destruct (valid_until _) as [u|] eqn:Hvu; [|done]. cbn. apply N.leb_gt. auto.
Qed.

(** A decision is made exactly on admissible input: a canonical validity, a
    well-formed premise gate, an as-of time not after the query time, a
    positive query time, and an effective time inside the validity interval
    the query addresses.  The final self-check of the procedure never fails. *)
Theorem decide_complete f q g :
  match decide_governed_recall_eligibility f q g with
  | Ok d => decidable_query f q g ∧ d = derived_decision f q g
  | Err _ => ¬ decidable_query f q g
  end.
Proof. apply decide_complete_lemma. Qed.

(** ** Letting a revision through *)

(** Nothing speaks against recalling the revision. *)
Record clear (f : GovernedRecallLifecycleFacts) (g : GovernedRecallAuthorityGates)
    (historical : bool) : Prop := {
  clear_disclosure : disclosure g = DisclosureAllowed;
  clear_premise : match required_premise g with GateBlocked _ _ => False | _ => True end;
  clear_budget : gate_profile_budget_drop g = DropNone;
  clear_stale : lf_stale f = false;
  clear_obsolete : lf_obsolete f = false;
  clear_termination :
    match termination (lf_validity f) with
    | None => lf_tombstoned f = false
    | Some Revised | Some TSuperseded => historical = true
    | Some _ => False
    end;
  clear_model : historical = true → historical_model_allowed f = true;
}.

Lemma raw_reasons_clear f g h : raw_reasons f g h = [] ↔ clear f g h.
Proof.
  unfold raw_reasons. split.
  - intros H.
    repeat match goal with Ha : _ ++ _ = [] |- _ =>
      let Hb := fresh in let Hc := fresh in apply app_nil in Ha as [Hb Hc] end.
    split.
    + by destruct (disclosure g).
    + destruct (required_premise g) as [| |r d]; cbn in *; [done|done|].
      by destruct (decide (d = PremisePrivacyBlocked)).
    + by destruct (gate_profile_budget_drop g).
    + by destruct (lf_stale f).
    + by destruct (lf_obsolete f).
    + destruct (termination (lf_validity f)) as [[]|], h, (lf_tombstoned f); done.
    + intros ->. unfold historical_reasons in *. by destruct (historical_model_allowed f).
  - intros [-> H2 -> -> -> H6 H7]. unfold historical_reasons.
    assert (h && negb (historical_model_allowed f) = false) as ->.
    { destruct h; [|done]. by rewrite H7. }
    destruct (required_premise g) as [| |r d]; [| |done];
      destruct (termination (lf_validity f)) as [[]|]; try done; subst; cbn; rewrite ?andb_false_r; try done;
      match goal with Ht : lf_tombstoned f = false |- _ => by rewrite Ht end.
Qed.

(** C29: A revision is let through exactly when nothing speaks against it: it may
    be disclosed, no premise or budget blocks it, it is neither stale nor
    obsolete nor terminated (a revised or superseded revision may be recalled
    only as history, where the model allows history), and a live one is not
    tombstoned; and then the effective time lies in its validity interval. *)
Theorem eligible_iff_clear f q g d :
  decide_governed_recall_eligibility f q g = Ok d →
  (eligibility d ≠ Excluded ↔ clear f g (historical_query q))
  ∧ (eligibility d ≠ Excluded →
     valid_from (lf_validity f) ≤ effective_time d
     ∧ ∀ u, valid_until (lf_validity f) = Some u → effective_time d < u).
Proof.
  intros H. pose proof (decide_complete_lemma f q g) as Hc. rewrite H in Hc.
  destruct Hc as [Hdq ->].
  assert (Hiff : eligibility (derived_decision f q g) ≠ Excluded
                 ↔ clear f g (historical_query q)).
  { rewrite <- raw_reasons_clear, <- decision_reasons_nil. unfold derived_decision; cbn.
    case_decide; [|tauto]. by destruct (historical_query q). }
  split; [done|]. intros Hne%Hiff. destruct Hdq as [Hv _ _ _ Hf Hu]. cbn. split; [done|].
  intros u Hvu. destruct (historical_query q) eqn:Hh; [auto|].
  apply validate_for_accepted in Hv as (_ & _ & _ & _ & Hterm & _).
  pose proof (clear_termination _ _ _ Hne) as Ht.
  destruct (termination (lf_validity f)) as [[]|]; try done.
  by rewrite (proj1 Hterm eq_refl) in Hvu.
Qed.

(** Privacy dominates: a revision blocked for privacy, by its disclosure or by
    its premise, is excluded with privacy as the primary reason, whatever else
    holds of it, and the decision does not mention a redaction. *)
Theorem privacy_dominates f q g d :
  decide_governed_recall_eligibility f q g = Ok d →
  disclosure g = DisclosurePrivacyBlocked
  ∨ (∃ r, required_premise g = GateBlocked r PremisePrivacyBlocked) →
  eligibility d = Excluded ∧ primary_reason d = Some PrivacyBlocked ∧ Redacted ∉ reasons d.
Proof.
  intros H Hp. pose proof (decide_complete_lemma f q g) as Hc. rewrite H in Hc.
  destruct Hc as [_ ->]. set (h := historical_query q).
  assert (Hraw : PrivacyBlocked ∈ raw_reasons f g h).
  { unfold raw_reasons. rewrite !elem_of_app. destruct Hp as [->|[r ->]]; cbn; set_solver. }
  assert (Hin : PrivacyBlocked ∈ decision_reasons f g h).
  { by rewrite decision_reasons_elem, drop_redacted_elem. }
  cbn. fold h. split_and!.
  - case_decide as Hn; [|done]. rewrite Hn in Hin. by apply elem_of_nil in Hin.
  - apply primary_reason_min. split; [done|]. intros x _. destruct x; cbn; lia.
  - rewrite decision_reasons_elem, drop_redacted_elem. intros [_ Hr]. by apply Hr.
Qed.

(** ** Reports *)

Lemma sum_counts (ds : list GovernedRecallEligibilityDecision) :
  count_eligibility ds EligibleCurrent + count_eligibility ds EligibleHistoricalAsOf
  + count_eligibility ds Excluded = len ds.
Proof.
  unfold count_eligibility. induction ds as [|d ds IH]; [done|].
  rewrite !filter_cons. destruct (eligibility d) eqn:Hd; repeat case_decide; try congruence;
    rewrite !len_cons; lia.
Qed.

Definition reportable (ds : list GovernedRecallEligibilityDecision)
    (q : GovernedRecallTemporalQuery) (max : N) : Prop :=
  max ≠ 0 ∧ len ds ≤ max ∧ NoDup (owner_revision_ref <$> ds)
  ∧ ∀ d, d ∈ ds → accepted (decision_validate_contract d) = true
                  ∧ decision_matches_query q d = true.

(** A report is built exactly when the decisions fit the budget, are canonical,
    answer the one query, and decide distinct revisions; the report's own
    contract never fails, and its counters partition the decisions. *)
Theorem eligibility_report_complete ds q max :
  match build_governed_recall_eligibility_report ds q max with
  | Ok r =>
      reportable ds q max ∧ decisions r = ds
      ∧ accepted (report_validate_contract r) = true
      ∧ count_eligibility ds EligibleCurrent + count_eligibility ds EligibleHistoricalAsOf
        + count_eligibility ds Excluded = len ds
  | Err _ => ¬ reportable ds q max
  end.
Proof.
  unfold build_governed_recall_eligibility_report.
  destruct (negb (_ || _)) eqn:Hm; cbn [ensure mbind result_bind].
  2:{ intros (H1 & H2 & _). apply negb_false_iff, orb_true_iff in Hm as [?|?]; split_bool; lia. }
  destruct (forallb _ ds && _) eqn:Hall; cbn [ensure mbind result_bind].
  2:{ intros (_ & _ & H3 & H4). apply not_true_iff_false in Hall as []. apply andb_true_iff.
      split; [|by apply bool_decide_eq_true_2]. apply forallb_forall.
      intros d Hd%list_elem_of_In. apply andb_true_iff. auto. }
  split_bool. rewrite forallb_forall in *.
  assert (Hr : reportable ds q max).
  { split_and!; [done|done|done|]. intros d Hd. apply andb_true_iff.
    match goal with Hf : ∀ x, In x ds → _ |- _ => by apply Hf, list_elem_of_In end. }
  match goal with |- context [accepted (report_validate_contract ?r)] =>
    assert (Hacc : accepted (report_validate_contract r) = true) end.
  { unfold report_validate_contract. rewrite accepted_nil.
    cbn [decisions er_schema_version eligibility_counts reason_counts er_as_of_time
         profile_budget_drop_count].
    rewrite !bool_decide_eq_true_2 by done. rewrite !N.eqb_refl. cbn [negb orb push_if app].
    assert (existsb (λ d, negb (accepted (decision_validate_contract d))) ds = false) as ->.
    { apply existsb_false_lemma. intros d Hd. by rewrite (proj1 (proj2 (proj2 (proj2 Hr)) d Hd)). }
    destruct q as [t|t as_of]; cbn; rewrite existsb_false_lemma; try done;
      intros d Hd; destruct (proj2 (proj2 (proj2 Hr)) d Hd) as [_ Hq]; cbn in Hq; split_bool;
      apply orb_false_iff; split; try (by apply bool_decide_eq_false_2);
      apply negb_false_iff, N.eqb_eq; congruence. }
  rewrite Hacc. cbn [ensure mbind result_bind]. split_and!; [done|done|done|apply sum_counts].
Qed.

(** ** Dynamic state *)

Lemma derived_current f t g :
  eligibility (derived_decision f (Current t) g) ≠ EligibleHistoricalAsOf.
Proof. cbn. by case_decide. Qed.

Lemma derived_historical f t a g :
  eligibility (derived_decision f (HistoricalAsOf t a) g) ≠ EligibleCurrent.
Proof. cbn. by case_decide. Qed.

Lemma dynamic_failures_nil f current as_of :
  dynamic_failures (dynamic_report f current as_of) = [] →
  accepted (dynamic_validate_contract (dynamic_report f current as_of)) = true.
Proof.
  intros H. unfold dynamic_validate_contract. rewrite accepted_nil. apply failures_of_nil.
  intros x. apply bool_decide_eq_false_2. rewrite H. apply not_elem_of_nil.
Qed.

Lemma current_failures_nil f t g :
  decidable_query f (Current t) g →
  dynamic_failures (dynamic_report f (derived_decision f (Current t) g) None) = [].
Proof.
  intros Hdq. pose proof (derived_decision_accepted _ _ _ Hdq) as Hacc.
  destruct Hdq as [Hv _ _ Ht _ _]. unfold dynamic_failures.
  set (d := derived_decision f (Current t) g) in *.
  cbn [dynamic_report ds_schema_version ds_predecessor ds_successor ds_validity
       current_decision as_of_decision].
  rewrite !bool_decide_eq_true_2 by done. rewrite Hacc.
  rewrite (bool_decide_eq_false_2 (eligibility d = _)) by apply derived_current.
  subst d. cbn [derived_decision owner_revision_ref query_time effective_time time_of effective_of].
  rewrite Hv, N.eqb_refl. cbn in Ht. by rewrite (proj2 (N.eqb_neq _ _) Ht), N.eqb_refl.
Qed.

Lemma historical_failures_nil f t a g :
  decidable_query f (Current t) g → decidable_query f (HistoricalAsOf t a) g →
  dynamic_failures (dynamic_report f (derived_decision f (Current t) g)
                      (Some (derived_decision f (HistoricalAsOf t a) g))) = [].
Proof.
  intros Hc Hh. pose proof (current_failures_nil _ _ _ Hc) as Hn.
  pose proof (derived_decision_accepted _ _ _ Hh) as Hacc.
  unfold dynamic_failures in *.
  cbn [dynamic_report ds_schema_version ds_predecessor ds_successor ds_validity
       current_decision as_of_decision] in *.
  apply app_nil in Hn as [H1 Hn]. apply app_nil in Hn as [H2 Hn].
  apply app_nil in Hn as [H3 Hn]. apply app_nil in Hn as [H4 _].
  rewrite H1, H2, H3, H4. cbn [app]. rewrite Hacc.
  rewrite (bool_decide_eq_true_2 (owner_revision_ref _ = _)) by done.
  rewrite (bool_decide_eq_false_2 (eligibility _ = EligibleCurrent)) by apply derived_historical.
  destruct Hh as [_ _ Has Ht Hf Hu]. cbn in *.
  rewrite (proj2 (N.eqb_neq _ _) Ht), N.eqb_refl, (proj2 (N.ltb_ge _ _) Has),
    (proj2 (N.ltb_ge _ _) Hf). cbn.
  destruct (valid_until (lf_validity f)) as [u|]; [|done]. cbn.
  by rewrite (proj2 (N.leb_gt _ _) (Hu u eq_refl eq_refl)).
Qed.

(** The dynamic-state builders succeed exactly when their decisions do: their
    own contract checks never fail. *)
Theorem dynamic_state_total f t a g :
  build_current_dynamic_state_resolution_report f t g
  = (d ← decide_governed_recall_eligibility f (Current t) g; Ok (dynamic_report f d None))
  ∧ build_historical_dynamic_state_resolution_report f t a g
  = (d ← decide_governed_recall_eligibility f (Current t) g;
     h ← decide_governed_recall_eligibility f (HistoricalAsOf t a) g;
     Ok (dynamic_report f d (Some h))).
Proof.
  unfold build_current_dynamic_state_resolution_report,
    build_historical_dynamic_state_resolution_report.
  pose proof (decide_complete_lemma f (Current t) g) as Hc.
  pose proof (decide_complete_lemma f (HistoricalAsOf t a) g) as Hh.
  destruct (decide_governed_recall_eligibility f (Current t) g) as [d|e]; [|done].
  destruct Hc as [Hdq ->]. cbn [mbind result_bind]. split.
  - rewrite (dynamic_failures_nil _ _ _ (current_failures_nil _ _ _ Hdq)). done.
  - destruct (decide_governed_recall_eligibility f (HistoricalAsOf t a) g) as [h|e]; [|done].
    destruct Hh as [Hdh ->]. cbn [mbind result_bind].
    rewrite (dynamic_failures_nil _ _ _ (historical_failures_nil _ _ _ _ Hdq Hdh)).
    cbn. by rewrite !N.eqb_refl.
Qed.


(** ** Witnesses *)

Module EligibilitySamples.

Definition revision (id : string) (n : N) : GovernedOwnerRevisionRef :=
  mkRevisionRef (mkOwnerRef LongTerm id) n.

(** A revision superseded at time 50 by another owner. *)
Definition superseded_facts : GovernedRecallLifecycleFacts :=
  mkLifecycle (revision "owner-1" 3)
    {| valid_from := 10; valid_until := Some 50; observed_at := 12;
       predecessor := Some (revision "owner-1" 2);
       successor := Some (revision "owner-2" 1); termination := Some TSuperseded |}
    false false true true.

Definition open_gates : GovernedRecallAuthorityGates :=
  mkGates DisclosureAllowed (GateSatisfied "premise:1") DropNone.

Definition historical_decision : GovernedRecallEligibilityDecision :=
  derived_decision superseded_facts (HistoricalAsOf 100 20) open_gates.

Lemma historical_decided :
  decide_governed_recall_eligibility superseded_facts (HistoricalAsOf 100 20) open_gates
  = Ok historical_decision.
Proof. vm_compute. reflexivity. Defined.

Lemma eligible_iff_clear_witness :
  eligibility historical_decision = EligibleHistoricalAsOf
  ∧ clear superseded_facts open_gates true.
Proof.
  split; [vm_compute; reflexivity|].
  apply (proj1 (proj1 (eligible_iff_clear _ _ _ _ historical_decided))).
  vm_compute. discriminate.
Defined.

Definition private_gates : GovernedRecallAuthorityGates :=
  mkGates DisclosureRedacted (GateBlocked "premise:2" PremisePrivacyBlocked) DropBudget.

Lemma privacy_dominates_witness :
  let d := derived_decision superseded_facts (Current 100) private_gates in
  decide_governed_recall_eligibility superseded_facts (Current 100) private_gates = Ok d
  ∧ primary_reason d = Some PrivacyBlocked.
Proof.
  split; [vm_compute; reflexivity|].
  refine (proj1 (proj2 (privacy_dominates superseded_facts (Current 100) private_gates _ _ _))).
  - vm_compute. reflexivity.
  - right. exists "premise:2". reflexivity.
Defined.

End EligibilitySamples.
