(* ===== verification/Premise.v ===== *)
(** * Governed memory: premises of runtime skills

    Model of the premise part of
    [crates/core/src/memory/governed_memory_validity.rs] with the data of
    [crates/core/src/skills/governed_runtime_contract.rs]: what a runtime skill
    requires, what has been observed, and the evaluation report that gates
    recall.  The theorems state that the evaluation is closed by default: a
    premise counts as satisfied only on positive, authorized evidence. *)

From S2P Require Import Prelude RustStr Governed Eligibility.

Local Open Scope string_scope.
Local Open Scope list_scope.
Local Open Scope N_scope.

(** ** Data *)

Inductive PremiseTypedSource :=
| SourceRegisteredCapability | SourceOpaquePresenceAttestation
| SourceGovernedEnvironmentEvidence | SourceTaskLearning | SourceTaskRun | SourceTaskArtifact.

Inductive RuntimeSkillEvidenceKind :=
| KindProceduralFeedbackSource | KindGovernedEvidence | KindTaskLearning | KindTaskRun
| KindTaskArtifact.

Inductive RuntimeSkillOwningScope :=
| ScopeSubject (mounted_subject_id : string)
| ScopeSharedProgram.

#[global] Instance typed_source_eq_dec : EqDecision PremiseTypedSource.
Proof. solve_decision. Defined.
#[global] Instance evidence_kind_eq_dec : EqDecision RuntimeSkillEvidenceKind.
Proof. solve_decision. Defined.

Record RuntimeSkillVersionConstraint := mkVersionConstraint {
  min_inclusive : option N;
  max_exclusive : option N;
}.

Inductive RuntimeSkillPremise :=
| RegisteredCapability (capability_id : string) (c : RuntimeSkillVersionConstraint)
| GovernedEnvironmentEvidence (evidence : GovernedOwnerRevisionRef)
| OpaquePresenceAttestation (handle_ref : string)
| TaskEvidence (source : PremiseTypedSource) (kind : RuntimeSkillEvidenceKind)
    (safe_ref : string).

Definition typed_source (p : RuntimeSkillPremise) : PremiseTypedSource :=
  match p with
  | RegisteredCapability _ _ => SourceRegisteredCapability
  | GovernedEnvironmentEvidence _ => SourceGovernedEnvironmentEvidence
  | OpaquePresenceAttestation _ => SourceOpaquePresenceAttestation
  | TaskEvidence s _ _ => s
  end.

Record RuntimeSkillPremiseRequirement := mkRequirement {
  premise : RuntimeSkillPremise;
  required : bool;
  req_valid_from : N;
  req_valid_until : option N;
  req_privacy_class : MemoryPrivacyClass;
  governed_evidence_refs : list GovernedOwnerRevisionRef;
}.

Inductive RuntimeSkillPremiseObservation :=
| ObsRegisteredCapability (capability_id : string) (version : N)
| ObsGovernedEnvironmentEvidence (evidence : GovernedOwnerRevisionRef) (present : bool)
| ObsOpaquePresenceAttestation (handle_ref : string) (present : bool)
| ObsTaskEvidence (source : PremiseTypedSource) (kind : RuntimeSkillEvidenceKind)
    (safe_ref : string) (present : bool).

#[global] Instance observation_eq_dec : EqDecision RuntimeSkillPremiseObservation.
Proof. solve_decision. Defined.

(** What [canonical_identity] encodes. *)
Inductive ObservationIdentity :=
| IdRegisteredCapability (capability_id : string)
| IdGovernedEnvironmentEvidence (evidence : GovernedOwnerRevisionRef)
| IdOpaquePresenceAttestation (handle_ref : string)
| IdTaskEvidence (source : PremiseTypedSource) (kind : RuntimeSkillEvidenceKind)
    (safe_ref : string).

Definition observation_identity (o : RuntimeSkillPremiseObservation) : ObservationIdentity :=
  match o with
  | ObsRegisteredCapability c _ => IdRegisteredCapability c
  | ObsGovernedEnvironmentEvidence e _ => IdGovernedEnvironmentEvidence e
  | ObsOpaquePresenceAttestation h _ => IdOpaquePresenceAttestation h
  | ObsTaskEvidence s k r _ => IdTaskEvidence s k r
  end.

Record RuntimeSkillRecallAuthority := mkRecallAuthority {
  procedural_recall_allowed : bool;
  governed_environment_evidence_allowed : bool;
  task_evidence_allowed : bool;
  mounted_subject_id : option string;
}.

Definition is_canonical (v : string) : bool := negb (blank v) && bool_decide (v = trim v).

Definition recall_authority_try_new (procedural environment task : bool)
    (subject : option string) : result RuntimeSkillRecallAuthority :=
  _ ← ensure (negb (opt_any (λ s, negb (is_canonical s)) subject))
        (Config "runtime_skill_recall_authority" "mounted subject id must be canonical");
  Ok (mkRecallAuthority procedural environment task subject).

Definition privacy_allows (a : RuntimeSkillRecallAuthority) (scope : RuntimeSkillOwningScope)
    (c : MemoryPrivacyClass) : bool :=
  match scope with
  | ScopeSubject s =>
      if bool_decide (mounted_subject_id a = Some s) then
        match c with PublicRuntime | SharedWithSubject => true | _ => false end
      else false
  | ScopeSharedProgram => match c with PublicRuntime => true | _ => false end
  end.

Definition task_evidence_source_matches (s : PremiseTypedSource) (k : RuntimeSkillEvidenceKind)
    : bool :=
  match s, k with
  | SourceTaskLearning, KindTaskLearning | SourceTaskRun, KindTaskRun
  | SourceTaskArtifact, KindTaskArtifact => true
  | _, _ => false
  end.

Definition observation_validate_contract (o : RuntimeSkillPremiseObservation) : bool :=
  match o with
  | ObsRegisteredCapability c v => is_canonical c && (0 <? v)
  | ObsGovernedEnvironmentEvidence e _ =>
      revision_ref_is_valid e && bool_decide (owner_plane (owner_ref e) = EvidenceDocument)
  | ObsOpaquePresenceAttestation h _ => is_canonical h
  | ObsTaskEvidence s k r _ => task_evidence_source_matches s k && is_canonical r
  end.

(** ** Evaluation *)

Definition of_presence (present : bool) : PremiseEvaluationDecision :=
  if present then Satisfied else Unsatisfied.

(** [observations.iter().find_map(f)] *)
Fixpoint find_map {A B} (f : A → option B) (l : list A) : option B :=
  match l with
  | [] => None
  | a :: l => match f a with Some b => Some b | None => find_map f l end
  end.

Definition version_within (c : RuntimeSkillVersionConstraint) (version : N) : bool :=
  match min_inclusive c with Some m => m <=? version | None => true end
  && match max_exclusive c with Some m => version <? m | None => true end.

Definition observed_environment (observations : list RuntimeSkillPremiseObservation)
    (r : GovernedOwnerRevisionRef) : option bool :=
  find_map (λ o, match o with
                 | ObsGovernedEnvironmentEvidence e present =>
                     if decide (e = r) then Some present else None
                 | _ => None
                 end) observations.

Definition evaluate_runtime_skill_premise (p : RuntimeSkillPremise)
    (observations : list RuntimeSkillPremiseObservation) (environment task : bool)
    : PremiseEvaluationDecision :=
  match p with
  | RegisteredCapability id c =>
      default Unknown (find_map (λ o,
        match o with
        | ObsRegisteredCapability id' version =>
            if decide (id' = id) then Some (of_presence (version_within c version)) else None
        | _ => None
        end) observations)
  | GovernedEnvironmentEvidence r =>
      if negb environment then Unknown
      else default Unknown (of_presence <$> observed_environment observations r)
  | OpaquePresenceAttestation h =>
      default Unknown (find_map (λ o,
        match o with
        | ObsOpaquePresenceAttestation h' present =>
            if decide (h' = h) then Some (of_presence present) else None
        | _ => None
        end) observations)
  | TaskEvidence s k r =>
      if negb task then Unknown
      else default Unknown (find_map (λ o,
        match o with
        | ObsTaskEvidence s' k' r' present =>
            if decide (s' = s ∧ k' = k ∧ r' = r) then Some (of_presence present) else None
        | _ => None
        end) observations)
  end.

(** The loop of [evaluate_governed_evidence_refs]. *)
Fixpoint evidence_loop (observations : list RuntimeSkillPremiseObservation)
    (decision : PremiseEvaluationDecision) (refs : list GovernedOwnerRevisionRef)
    : PremiseEvaluationDecision :=
  match refs with
  | [] => decision
  | r :: refs =>
      match observed_environment observations r with
      | None => Unknown
      | Some false => evidence_loop observations Unsatisfied refs
      | Some true => evidence_loop observations decision refs
      end
  end.

Definition evaluate_governed_evidence_refs (refs : list GovernedOwnerRevisionRef)
    (observations : list RuntimeSkillPremiseObservation) (environment : bool)
    : PremiseEvaluationDecision :=
  match refs with
  | [] => Satisfied
  | _ => if negb environment then Unknown else evidence_loop observations Satisfied refs
  end.

Definition combine_premise_decisions (p e : PremiseEvaluationDecision)
    : PremiseEvaluationDecision :=
  if bool_decide (p = Unknown) || bool_decide (e = Unknown) then Unknown
  else if bool_decide (p = Unsatisfied) || bool_decide (e = Unsatisfied) then Unsatisfied
  else Satisfied.

Definition evaluate_requirement (r : RuntimeSkillPremiseRequirement)
    (observations : list RuntimeSkillPremiseObservation) (scope : RuntimeSkillOwningScope)
    (a : RuntimeSkillRecallAuthority) (query_time : N) : PremiseEvaluationDecision :=
  if negb (privacy_allows a scope (req_privacy_class r)) then PremisePrivacyBlocked
  else if opt_any (λ u, u <=? query_time) (req_valid_until r) then Expired
  else if query_time <? req_valid_from r then Unknown
  else combine_premise_decisions
         (evaluate_runtime_skill_premise (premise r) observations
            (governed_environment_evidence_allowed a) (task_evidence_allowed a))
         (evaluate_governed_evidence_refs (governed_evidence_refs r) observations
            (governed_environment_evidence_allowed a)).

(** ** The report *)

Record PremiseEvaluationItem := mkPremiseItem {
  premise_index : N;
  item_source : PremiseTypedSource;
  item_decision : PremiseEvaluationDecision;
  item_required : bool;
  governed_evidence_count : N;
}.

Record PremiseEvaluationReport := mkPremiseReport {
  pr_schema_version : N;
  pr_query_time : N;
  pr_items : list PremiseEvaluationItem;
  decision_counts : list (PremiseEvaluationDecision * N);
  required_failure_count : N;
}.

Definition all_premise_decisions : list PremiseEvaluationDecision :=
  [Satisfied; Unsatisfied; Unknown; Expired; PremisePrivacyBlocked].

Definition count_premise_decisions (items : list PremiseEvaluationItem)
    (d : PremiseEvaluationDecision) : N :=
  len (filter (λ i, item_decision i = d) items).

Definition required_failure (i : PremiseEvaluationItem) : bool :=
  item_required i && negb (bool_decide (item_decision i = Satisfied)).

(** The counting loop; [required_failure_count] saturates at [u64::MAX]. *)
Definition count_required_failures (items : list PremiseEvaluationItem) : N :=
  foldl (λ n i, if required_failure i then saturating_add n 1 else n) 0 items.

Fixpoint indices_match (index : N) (items : list PremiseEvaluationItem) : bool :=
  match items with
  | [] => true
  | i :: items => (premise_index i =? index) && indices_match (index + 1) items
  end.

Definition premise_report_validate_contract (r : PremiseEvaluationReport)
    : GovernedContractValidation :=
  from_failures
    (push_if (negb (pr_schema_version r =? GOVERNED_MEMORY_LIFECYCLE_SCHEMA_VERSION)
              || (pr_query_time r =? 0)) PremiseReportSchemaMismatch
     ++ push_if (negb (indices_match 0 (pr_items r))) PremiseReportItemInvalid
     ++ push_if (negb (bool_decide (decision_counts r
                          = counts_of all_premise_decisions (count_premise_decisions (pr_items r))))
                 || negb (required_failure_count r =? count_required_failures (pr_items r)))
          PremiseReportCountMismatch).

Definition premise_item (observations : list RuntimeSkillPremiseObservation)
    (scope : RuntimeSkillOwningScope) (a : RuntimeSkillRecallAuthority) (query_time : N)
    (index : N) (r : RuntimeSkillPremiseRequirement) : PremiseEvaluationItem :=
  {| premise_index := index;
     item_source := typed_source (premise r);
     item_decision := evaluate_requirement r observations scope a query_time;
     item_required := required r;
     governed_evidence_count := N.min u32_max (len (governed_evidence_refs r)) |}.

(** The loop over the enumerated requirements. *)
Fixpoint premise_items (observations : list RuntimeSkillPremiseObservation)
    (scope : RuntimeSkillOwningScope) (a : RuntimeSkillRecallAuthority) (query_time index : N)
    (requirements : list RuntimeSkillPremiseRequirement) : list PremiseEvaluationItem :=
  match requirements with
  | [] => []
  | r :: rest =>
      premise_item observations scope a query_time index r
      :: premise_items observations scope a query_time (index + 1) rest
  end.

Section Report.
(** [serde_json::to_vec] of an identity, as a byte string. *)
Context (identity_to_vec : ObservationIdentity → string).

Definition canonical_identity (o : RuntimeSkillPremiseObservation) : string :=
  identity_to_vec (observation_identity o).

(** [windows(2).any(|pair| pair[0] >= pair[1])], negated. *)
Fixpoint strictly_increasing (l : list string) : bool :=
  match l with
  | a :: (b :: _) as l' =>
      match String.compare a b with Lt => strictly_increasing l' | _ => false end
  | _ => true
  end.

Definition premise_input_valid (observations : list RuntimeSkillPremiseObservation)
    (query_time max_evidence_reads : N) : bool :=
  negb ((query_time =? 0) || (max_evidence_reads =? 0)
        || (max_evidence_reads <? len observations)
        || existsb (λ o, negb (observation_validate_contract o)) observations
        || negb (strictly_increasing (canonical_identity <$> observations))).

Definition build_runtime_skill_premise_evaluation_report
    (requirements : list RuntimeSkillPremiseRequirement)
    (observations : list RuntimeSkillPremiseObservation) (scope : RuntimeSkillOwningScope)
    (a : RuntimeSkillRecallAuthority) (query_time max_evidence_reads : N)
    : result PremiseEvaluationReport :=
  let stage := "runtime_skill_premise_report" in
  _ ← ensure (premise_input_valid observations query_time max_evidence_reads)
        (Config stage "query time, typed observations, or evidence-read budget is invalid");
  let items := premise_items observations scope a query_time 0 requirements in
  let report :=
    {| pr_schema_version := GOVERNED_MEMORY_LIFECYCLE_SCHEMA_VERSION;
       pr_query_time := query_time;
       pr_items := items;
       decision_counts := counts_of all_premise_decisions (count_premise_decisions items);
       required_failure_count := count_required_failures items |} in
  _ ← ensure (accepted (premise_report_validate_contract report))
        (Config stage "derived premise report failed its canonical contract");
  Ok report.
End Report.
