(* ===== verification/PremiseProps.v ===== *)
(** * Governed memory: theorems about premises

    Evaluation is closed by default, exact on authorized evidence, and the
    report's own contract never fails. *)

From S2P Require Import Prelude RustStr Governed Eligibility Premise.

Local Open Scope string_scope.
Local Open Scope list_scope.
Local Open Scope N_scope.

(** ** Byte order *)

Lemma string_compare_lt_trans a b c :
  String.compare a b = Lt → String.compare b c = Lt → String.compare a c = Lt.
Proof.
  revert b c. induction a as [|x a IH]; intros [|y b] [|z c]; cbn; try done.
  unfold Ascii.compare. intros H1 H2.
  destruct (N.compare_spec (Ascii.N_of_ascii x) (Ascii.N_of_ascii y)) as [E1|E1|E1]; [| |done];
    destruct (N.compare_spec (Ascii.N_of_ascii y) (Ascii.N_of_ascii z)) as [E2|E2|E2]; try done;
    destruct (N.compare_spec (Ascii.N_of_ascii x) (Ascii.N_of_ascii z)) as [E3|E3|E3]; try done; try lia.
  by eapply IH.
Qed.

Lemma string_compare_refl a : String.compare a a = Eq.
Proof. induction a as [|x a IH]; [done|]. cbn. unfold Ascii.compare. by rewrite N.compare_refl. Qed.

Lemma strictly_increasing_nodup l : strictly_increasing l = true → NoDup l.
Proof.
  assert (Hlt : ∀ a l, strictly_increasing (a :: l) = true →
    ∀ x, x ∈ l → String.compare a x = Lt).
  { intros a l0. revert a. induction l0 as [|b l0 IH]; intros a H x Hx.
    - by apply elem_of_nil in Hx.
    - cbn in H. destruct (String.compare a b) eqn:Hab; [done| |done].
      apply elem_of_cons in Hx as [->|Hx]; [done|].
      eapply string_compare_lt_trans; [done|]. by apply IH. }
  induction l as [|a l IH]; intros H; [constructor|]. apply NoDup_cons. split.
  - intros Ha. pose proof (Hlt _ _ H _ Ha) as Hc.
    by rewrite string_compare_refl in Hc.
  - apply IH. cbn in H. destruct l as [|b l]; [done|].
    by destruct (String.compare a b).
Qed.

(** ** Looking up observations *)

Lemma find_map_some {A B} (f : A → option B) l b :
  find_map f l = Some b → ∃ a, a ∈ l ∧ f a = Some b.
Proof.
  induction l as [|a l IH]; cbn; [done|]. destruct (f a) as [b'|] eqn:Hf.
  - intros [= ->]. exists a. split; [by left|done].
  - intros (a' & Ha & Hb)%IH. exists a'. split; [by right|done].
Qed.

Lemma find_map_is_some {A B} (f : A → option B) l a :
  a ∈ l → is_Some (f a) → is_Some (find_map f l).
Proof.
  intros Ha Hf. induction l as [|a' l IH]; [by apply elem_of_nil in Ha|]. cbn.
  destruct (f a') eqn:E; [done|]. apply elem_of_cons in Ha as [->|Ha]; [|auto].
  rewrite E in Hf. by destruct Hf.
Qed.

Section Evaluation.
Context (identity_to_vec : ObservationIdentity → string).
Context (observations : list RuntimeSkillPremiseObservation).
Context (Hinc : strictly_increasing (canonical_identity identity_to_vec <$> observations) = true).

Lemma observation_unique o o' :
  o ∈ observations → o' ∈ observations →
  observation_identity o = observation_identity o' → o = o'.
Proof using Hinc.
  intros Ho Ho' Hid. apply strictly_increasing_nodup in Hinc.
  apply list_elem_of_lookup in Ho as [i Hi]. apply list_elem_of_lookup in Ho' as [j Hj].
  assert (i = j) as ->; [|congruence].
  eapply (NoDup_lookup _ i j (canonical_identity identity_to_vec o) Hinc);
    rewrite list_lookup_fmap; [by rewrite Hi|rewrite Hj]. cbn. unfold canonical_identity.
  by rewrite Hid.
Qed.

(** A lookup by identity finds the observation, wherever it is in the list. *)
Lemma find_map_unique {B} (f : RuntimeSkillPremiseObservation → option B) id b :
  (∀ o b, f o = Some b → observation_identity o = id) →
  find_map f observations = Some b ↔ ∃ o, o ∈ observations ∧ f o = Some b.
Proof using Hinc.
  intros Hid. split; [apply find_map_some|]. intros (o & Ho & Hb).
  destruct (find_map_is_some f observations o Ho) as [b' Hb']; [eauto|].
  rewrite Hb'. apply find_map_some in Hb' as (o' & Ho' & Hb'').
  rewrite (observation_unique o o' Ho Ho') in Hb; [congruence|].
  rewrite (Hid o b Hb). symmetry. eauto.
Qed.

(** Every observation lookup of the evaluation, by the same argument. *)
Local Ltac lookup_observation id :=
  rewrite (find_map_unique _ id);
  [|intros []; cbn; try done; case_decide; naive_solver].

Lemma observed_environment_spec r b :
  observed_environment observations r = Some b ↔
  ObsGovernedEnvironmentEvidence r b ∈ observations.
Proof using Hinc.
  unfold observed_environment. lookup_observation (IdGovernedEnvironmentEvidence r). split.
  - intros ([] & Ho & H); try done. case_decide; naive_solver.
  - intros Ho. eexists. split; [exact Ho|]. cbn. by rewrite decide_True.
Qed.

(** Positive, authorized evidence for a premise. *)
Definition attested (environment task : bool) (p : RuntimeSkillPremise) : Prop :=
  match p with
  | RegisteredCapability id c =>
      ∃ version, ObsRegisteredCapability id version ∈ observations
        ∧ (∀ m, min_inclusive c = Some m → m ≤ version)
        ∧ (∀ m, max_exclusive c = Some m → version < m)
  | GovernedEnvironmentEvidence r =>
      environment = true ∧ ObsGovernedEnvironmentEvidence r true ∈ observations
  | OpaquePresenceAttestation h => ObsOpaquePresenceAttestation h true ∈ observations
  | TaskEvidence s k r => task = true ∧ ObsTaskEvidence s k r true ∈ observations
  end.

Lemma version_within_spec c v :
  version_within c v = true ↔
  (∀ m, min_inclusive c = Some m → m ≤ v) ∧ (∀ m, max_exclusive c = Some m → v < m).
Proof using.
  unfold version_within. rewrite andb_true_iff. destruct c as [[m|] [n|]]; cbn;
    rewrite ?N.leb_le, ?N.ltb_lt; naive_solver.
Qed.

Lemma default_unknown o : default Unknown o = Satisfied ↔ o = Some Satisfied.
Proof using. destruct o; naive_solver. Qed.

Lemma of_presence_satisfied b : of_presence b = Satisfied ↔ b = true.
Proof using. by destruct b. Qed.

Lemma premise_satisfied_iff environment task p :
  evaluate_runtime_skill_premise p observations environment task = Satisfied ↔
  attested environment task p.
Proof using Hinc.
  destruct p as [id c|r|h|s k r]; cbn -[observed_environment].
  - rewrite default_unknown. lookup_observation (IdRegisteredCapability id). split.
    + intros ([] & Ho & H); try done. case_decide; [|done]. subst. injection H as H.
      apply of_presence_satisfied, version_within_spec in H. eauto.
    + intros (v & Ho & H). eexists. split; [exact Ho|]. cbn. rewrite decide_True by done.
      by apply version_within_spec in H as ->.
  - destruct environment; cbn -[observed_environment]; [|naive_solver].
    rewrite default_unknown, fmap_Some. setoid_rewrite observed_environment_spec. split.
    + intros ([] & ? & ?); naive_solver.
    + intros [_ Ho]. by exists true.
  - rewrite default_unknown. lookup_observation (IdOpaquePresenceAttestation h). split.
    + intros ([| |h' []|] & Ho & H); try done; case_decide; naive_solver.
    + intros Ho. eexists. split; [exact Ho|]. cbn. by rewrite decide_True.
  - destruct task; cbn; [|naive_solver].
    rewrite default_unknown. lookup_observation (IdTaskEvidence s k r). split.
    + intros ([| | |s' k' r' []] & Ho & H); try done; case_decide; naive_solver.
    + intros [_ Ho]. eexists. split; [exact Ho|]. cbn. by rewrite decide_True.
Qed.

Lemma evidence_loop_satisfied d refs :
  evidence_loop observations d refs = Satisfied ↔
  d = Satisfied ∧ ∀ r, r ∈ refs → ObsGovernedEnvironmentEvidence r true ∈ observations.
Proof using Hinc.
  revert d. induction refs as [|r refs IH]; intros d; cbn -[observed_environment].
  - split; [|naive_solver]. intros ->. split; [done|]. intros r Hr. by apply elem_of_nil in Hr.
  - destruct (observed_environment observations r) as [[]|] eqn:E.
    + rewrite IH. apply observed_environment_spec in E. set_solver.
    + rewrite IH. split; [naive_solver|]. intros [_ H].
      assert (Hr : ObsGovernedEnvironmentEvidence r true ∈ observations) by (apply H; by left).
      apply observed_environment_spec in Hr. congruence.
    + split; [done|]. intros [_ H].
      assert (Hr : ObsGovernedEnvironmentEvidence r true ∈ observations) by (apply H; by left).
      apply observed_environment_spec in Hr. congruence.
Qed.

Definition evidence_attested (environment : bool) (refs : list GovernedOwnerRevisionRef) : Prop :=
  ∀ r, r ∈ refs →
    environment = true ∧ ObsGovernedEnvironmentEvidence r true ∈ observations.

Lemma evidence_satisfied_iff environment refs :
  evaluate_governed_evidence_refs refs observations environment = Satisfied ↔
  evidence_attested environment refs.
Proof using Hinc.
  unfold evidence_attested, evaluate_governed_evidence_refs. destruct refs as [|r refs].
  - split; [|done]. intros _ r Hr. by apply elem_of_nil in Hr.
  - destruct environment; cbn [negb].
    + rewrite evidence_loop_satisfied. naive_solver.
    + split; [done|]. intros H. destruct (H r); [by left|done].
Qed.

Lemma premise_decision_open environment task p :
  evaluate_runtime_skill_premise p observations environment task
    ∈ [Satisfied; Unsatisfied; Unknown].
Proof using.
  clear identity_to_vec Hinc.
  assert (Hd : ∀ (o : option bool), default Unknown (of_presence <$> o)
    ∈ [Satisfied; Unsatisfied; Unknown]) by (intros [[]|]; cbn; set_solver).
  assert (Hf : ∀ f : RuntimeSkillPremiseObservation → option PremiseEvaluationDecision,
    (∀ o d, f o = Some d → d ∈ [Satisfied; Unsatisfied; Unknown]) →
    default Unknown (find_map f observations) ∈ [Satisfied; Unsatisfied; Unknown]).
  { intros f H. destruct (find_map f observations) as [d|] eqn:E; cbn; [|set_solver].
    apply find_map_some in E as (o & _ & Ho). eauto. }
  destruct p; cbn -[observed_environment].
  all: try (case_match; [set_solver|]).
  all: first [apply Hd|apply Hf; intros [] d; try done; case_decide; try done;
    intros [= <-]; unfold of_presence; case_match; set_solver].
Qed.

Lemma combine_satisfied p e :
  p ∈ [Satisfied; Unsatisfied; Unknown] → e ∈ [Satisfied; Unsatisfied; Unknown] →
  combine_premise_decisions p e = Satisfied ↔ p = Satisfied ∧ e = Satisfied.
Proof using. clear identity_to_vec Hinc. intros Hp He. destruct p, e; try (exfalso; set_solver); cbn; naive_solver. Qed.
End Evaluation.

(** ** The report *)

Lemma evidence_decision_open observations environment refs :
  evaluate_governed_evidence_refs refs observations environment
    ∈ [Satisfied; Unsatisfied; Unknown].
Proof.
  unfold evaluate_governed_evidence_refs. destruct refs as [|r refs]; [set_solver|].
  destruct environment; cbn [negb]; [|set_solver].
  assert (H : ∀ refs d, d ∈ [Satisfied; Unsatisfied] →
    evidence_loop observations d refs ∈ [Satisfied; Unsatisfied; Unknown]); [|apply H; set_solver].
  clear. induction refs as [|r refs IH]; intros d Hd; cbn -[observed_environment]; [set_solver|].
  destruct (observed_environment observations r) as [[]|]; [apply IH..|]; set_solver.
Qed.

(** What a requirement needs to be satisfied at a time. *)
Record premise_met (observations : list RuntimeSkillPremiseObservation)
    (scope : RuntimeSkillOwningScope) (a : RuntimeSkillRecallAuthority) (query_time : N)
    (r : RuntimeSkillPremiseRequirement) : Prop := {
  met_privacy : privacy_allows a scope (req_privacy_class r) = true;
  met_from : req_valid_from r ≤ query_time;
  met_until : ∀ u, req_valid_until r = Some u → query_time < u;
  met_premise : attested observations (governed_environment_evidence_allowed a)
                  (task_evidence_allowed a) (premise r);
  met_evidence : evidence_attested observations (governed_environment_evidence_allowed a)
                   (governed_evidence_refs r);
}.

Lemma requirement_satisfied_iff identity_to_vec observations scope a query_time r :
  strictly_increasing (canonical_identity identity_to_vec <$> observations) = true →
  evaluate_requirement r observations scope a query_time = Satisfied ↔
  premise_met observations scope a query_time r.
Proof.
  intros Hinc. unfold evaluate_requirement.
  destruct (privacy_allows a scope (req_privacy_class r)) eqn:Hp; cbn [negb].
  2:{ split; [done|]. intros [? _ _ _ _]. congruence. }
  destruct (opt_any _ (req_valid_until r)) eqn:Hu.
  { split; [done|]. intros [_ _ H _ _]. destruct (req_valid_until r) as [u|]; [|done].
    cbn in Hu. split_bool. specialize (H u eq_refl). lia. }
  destruct (query_time <? req_valid_from r) eqn:Hf.
  { split; [done|]. intros [_ ? _ _ _]. split_bool. lia. }
  rewrite combine_satisfied by
    (apply premise_decision_open || apply evidence_decision_open).
  rewrite (premise_satisfied_iff _ _ Hinc), (evidence_satisfied_iff _ _ Hinc). split_bool.
  split; [|by intros []]. intros [? ?]. split; [done|done| |done|done].
  intros u E. rewrite E in Hu. cbn in Hu. split_bool. done.
Qed.

Lemma premise_items_lookup observations scope a t index requirements i :
  premise_items observations scope a t index requirements !! i
  = premise_item observations scope a t (index + N.of_nat i) <$> requirements !! i.
Proof.
  revert index i. induction requirements as [|r rest IH]; intros index [|i]; cbn; try done.
  - by rewrite N.add_0_r.
  - rewrite IH. do 2 f_equal. lia.
Qed.

Lemma premise_items_length observations scope a t index requirements :
  length (premise_items observations scope a t index requirements) = length requirements.
Proof. revert index. induction requirements; intros; cbn; auto. Qed.

Lemma premise_items_indexed observations scope a t index requirements :
  indices_match index (premise_items observations scope a t index requirements) = true.
Proof.
  revert index. induction requirements as [|r rest IH]; intros index; cbn; [done|].
  by rewrite N.eqb_refl, IH.
Qed.

Lemma premise_items_elem observations scope a t index requirements item :
  item ∈ premise_items observations scope a t index requirements →
  ∃ r j, r ∈ requirements ∧ item = premise_item observations scope a t j r.
Proof.
  intros [i Hi]%list_elem_of_lookup. rewrite premise_items_lookup in Hi.
  apply fmap_Some in Hi as (r & Hr & ->). apply list_elem_of_lookup_2 in Hr. eauto.
Qed.

Lemma elem_premise_items observations scope a t index requirements r :
  r ∈ requirements →
  ∃ j, premise_item observations scope a t j r
    ∈ premise_items observations scope a t index requirements.
Proof.
  intros [i Hi]%list_elem_of_lookup. eexists. apply (list_elem_of_lookup_2 _ i).
  rewrite premise_items_lookup, Hi. reflexivity.
Qed.

Lemma required_failures_zero items :
  count_required_failures items = 0 ↔ ∀ i, i ∈ items → required_failure i = false.
Proof.
  unfold count_required_failures.
  assert (Hmono : ∀ l n, 0 < n → 0 < foldl (λ n i,
    if required_failure i then saturating_add n 1 else n) n l).
  { induction l as [|i l IH]; intros n Hn; cbn; [done|]. apply IH.
    destruct (required_failure i); [|done].
    unfold saturating_add, usize_max, u64_max. lia. }
  induction items as [|i items IH]; cbn.
  - split; [|done]. intros _ i Hi. by apply elem_of_nil in Hi.
  - destruct (required_failure i) eqn:Hi.
    + split.
      * intros H. assert (H' : 0 < saturating_add 0 1) by (vm_compute; reflexivity).
        apply Hmono with (l := items) in H'. lia.
      * intros H. rewrite (H i) in Hi; [done|by left].
    + rewrite IH. split; [|by intros H j Hj; apply H; right].
      intros H j [->|Hj]%elem_of_cons; auto.
Qed.

Lemma premise_counts_partition items :
  foldr N.add 0 (count_premise_decisions items <$> all_premise_decisions) = len items.
Proof.
  unfold count_premise_decisions. induction items as [|i items IH]; [done|].
  rewrite len_cons, <- IH. unfold all_premise_decisions. cbn [fmap list_fmap foldr].
  rewrite !filter_cons. destruct (item_decision i); cbn [decide]; repeat case_decide;
    try done; rewrite ?len_cons; lia.
Qed.

(** A premise report is built exactly on valid input (a query time, a read
    budget that covers the observations, canonical observations in strict
    order of their identities); its own contract never fails, and its counters
    partition the requirements. *)
Theorem premise_report_total identity_to_vec requirements observations scope a t max :
  match build_runtime_skill_premise_evaluation_report identity_to_vec requirements
          observations scope a t max with
  | Ok r =>
      premise_input_valid identity_to_vec observations t max = true
      ∧ accepted (premise_report_validate_contract r) = true
      ∧ len (pr_items r) = len requirements
      ∧ foldr N.add 0 (count_premise_decisions (pr_items r) <$> all_premise_decisions)
        = len requirements
  | Err _ => premise_input_valid identity_to_vec observations t max = false
  end.
Proof.
  unfold build_runtime_skill_premise_evaluation_report.
  destruct (premise_input_valid identity_to_vec observations t max) eqn:Hv;
    cbn [ensure mbind result_bind]; [|done].
  set (items := premise_items observations scope a t 0 requirements).
  set (r := mkPremiseReport _ _ _ _ _).
  assert (Ha : accepted (premise_report_validate_contract r) = true).
  { unfold premise_report_validate_contract. apply accepted_nil. cbn [r pr_schema_version
      pr_query_time pr_items decision_counts required_failure_count].
    unfold premise_input_valid in Hv. split_bool.
    rewrite bool_decide_eq_true_2 by done. unfold items.
    rewrite premise_items_indexed, (proj2 (N.eqb_neq t 0)), !N.eqb_refl by done. done. }
  rewrite Ha. cbn [ensure mbind result_bind].
  assert (Hlen : len items = len requirements)
    by (unfold len, items; by rewrite premise_items_length).
  split_and!; [done|done|done|]. by rewrite premise_counts_partition.
Qed.

(** Premises fail closed: in a built report the requirement at an index is
    satisfied exactly when privacy allows it, the query time is in its interval,
    its premise is attested by a positive observation the authority may use,
    and every governed evidence it names is present; a privacy-blocked one is
    reported as such; and no required failure is counted exactly when every
    required premise is met. *)
Theorem premises_fail_closed identity_to_vec requirements observations scope a t max report :
  build_runtime_skill_premise_evaluation_report identity_to_vec requirements observations
    scope a t max = Ok report →
  (∀ i r, requirements !! i = Some r →
     ∃ item, pr_items report !! i = Some item ∧ item_required item = required r
       ∧ (item_decision item = Satisfied ↔ premise_met observations scope a t r)
       ∧ (privacy_allows a scope (req_privacy_class r) = false →
          item_decision item = PremisePrivacyBlocked))
  ∧ (required_failure_count report = 0 ↔
     ∀ r, r ∈ requirements → required r = true → premise_met observations scope a t r).
Proof.
  unfold build_runtime_skill_premise_evaluation_report. intros H. inv_ok. split_bool.
  cbn [pr_items required_failure_count].
  assert (Hinc : strictly_increasing (canonical_identity identity_to_vec <$> observations) = true).
  { unfold premise_input_valid in *. by split_bool. }
  split.
  - intros i r Hr. eexists. rewrite premise_items_lookup, Hr. split; [reflexivity|].
    split; [done|]. split; [by eapply requirement_satisfied_iff|].
    intros Hp. cbn. unfold evaluate_requirement. by rewrite Hp.
  - rewrite required_failures_zero. unfold required_failure. split.
    + intros Hz r Hr Hreq. destruct (elem_premise_items observations scope a t 0 requirements r Hr)
        as (j & Hj). specialize (Hz _ Hj). cbn in Hz. rewrite Hreq in Hz. cbn in Hz. split_bool.
      by eapply requirement_satisfied_iff.
    + intros Hm item Hi. apply premise_items_elem in Hi as (r & j & Hr & ->). cbn.
      destruct (required r) eqn:Hreq; [|done]. cbn. apply negb_false_iff, bool_decide_eq_true.
      eapply requirement_satisfied_iff; [done|]. auto.
Qed.

(** ** A concrete skill *)

Module PremiseSamples.

(** An identity encoding for the samples: a tag and the text. *)
Definition encode (i : ObservationIdentity) : string :=
  match i with
  | IdRegisteredCapability c => "c:" +:+ c
  | IdGovernedEnvironmentEvidence e => "e:" +:+ owner_id (owner_ref e)
  | IdOpaquePresenceAttestation h => "o:" +:+ h
  | IdTaskEvidence _ _ r => "t:" +:+ r
  end.

Definition doc : GovernedOwnerRevisionRef :=
  mkRevisionRef (mkOwnerRef EvidenceDocument "runbook") 3.

Definition observed : list RuntimeSkillPremiseObservation :=
  [ObsRegisteredCapability "shell" 4; ObsGovernedEnvironmentEvidence doc true].

Definition needs_shell : RuntimeSkillPremiseRequirement :=
  mkRequirement (RegisteredCapability "shell" (mkVersionConstraint (Some 3) (Some 5)))
    true 10 (Some 90) PublicRuntime [doc].

Definition authority : RuntimeSkillRecallAuthority := mkRecallAuthority true true false None.

Definition evaluated := build_runtime_skill_premise_evaluation_report encode [needs_shell]
  observed ScopeSharedProgram authority 50 8.

Definition sample_report : PremiseEvaluationReport :=
  mkPremiseReport 1 50
    [mkPremiseItem 0 SourceRegisteredCapability Satisfied true 1] [(Satisfied, 1)] 0.

Lemma premises_fail_closed_witness :
  evaluated = Ok sample_report
  ∧ premise_met observed ScopeSharedProgram authority 50 needs_shell.
Proof.
  assert (H : evaluated = Ok sample_report) by (vm_compute; reflexivity).
  split; [exact H|].
  destruct (premises_fail_closed encode [needs_shell] observed ScopeSharedProgram authority 50 8
              sample_report H) as [_ Hz].
  apply (proj1 Hz); [reflexivity|by left|reflexivity].
Defined.

(** The same skill without the capability observation is not satisfied. *)
Example unobserved_is_unknown :
  (λ r, item_decision <$> pr_items r) <$>
    build_runtime_skill_premise_evaluation_report encode [needs_shell]
      [ObsGovernedEnvironmentEvidence doc true] ScopeSharedProgram authority 50 8
  = Ok [Unknown].
Proof. vm_compute. reflexivity. Qed.

End PremiseSamples.
