(* ===== verification/Lineage.v ===== *)
(** * Governed memory: update lineage

    Model of the lineage part of
    [crates/core/src/memory/governed_memory_validity.rs]: detecting the
    failures of a set of revisions linked by predecessor and successor,
    ordering a complete lineage, and the lineage report. *)

From S2P Require Import Prelude RustStr Governed.
From stdpp Require Import sorting.

Local Open Scope string_scope.
Local Open Scope list_scope.
Local Open Scope N_scope.

Abbreviation Ref := GovernedOwnerRevisionRef (only parsing).

Inductive MemoryUpdateLineageFailure :=
| FCycle | FGap | FScopeMismatch | FPrivacyMismatch | FDepthExceeded.

Record GovernedUpdateLineageItem := mkItem {
  li_ref : Ref;
  li_predecessor : option Ref;
  li_successor : option Ref;
  li_scope_digest : string;
  li_privacy_class : MemoryPrivacyClass;
  li_content_digest : string;
}.
Abbreviation Item := GovernedUpdateLineageItem (only parsing).

#[global] Instance item_eq_dec : EqDecision GovernedUpdateLineageItem.
Proof. solve_decision. Defined.

Record MemoryUpdateLineageReport := mkLineageReport {
  lr_schema_version : N;
  lr_items : list Item;
  lr_failures : list MemoryUpdateLineageFailure;
  manifest_revision : N;
  max_lineage_depth : N;
  complete : bool;
}.

Definition is_canonical_lineage_digest (v : string) : bool :=
  (str_len v =? 64) && forallb is_lower_hex (String.list_ascii_of_string v).

(** ** Detection *)

(** [collect::<BTreeMap<_, _>>()] *)
Definition by_ref (items : list Item) : gmap Ref Item :=
  foldl (λ m i, <[li_ref i := i]> m) ∅ items.

Definition successors (items : list Item) : gmap Ref (option Ref) :=
  foldl (λ m i, <[li_ref i := li_successor i]> m) ∅ items.

Definition find_item (items : list Item) (r : Ref) : option Item :=
  find (λ c, bool_decide (li_ref c = r)) items.

(** The inner [while] loop of the cycle check: does the walk from [current]
    meet a revision twice?  [None] is fuel exhaustion. *)
Fixpoint walk_repeats (succs : gmap Ref (option Ref)) (fuel : nat) (seen : gset Ref)
    (current : Ref) : option bool :=
  match fuel with
  | O => None
  | S fuel =>
      if decide (current ∈ seen) then Some true
      else match succs !! current with
           | Some (Some next) => walk_repeats succs fuel ({[current]} ∪ seen) next
           | _ => Some false
           end
  end.

(** A walk visits each key at most once before it repeats or leaves the map. *)
Definition walk_fuel (succs : gmap Ref (option Ref)) : nat := S (size succs).

Definition has_cycle_from (succs : gmap Ref (option Ref)) (start : Ref) : bool :=
  default true (walk_repeats succs (walk_fuel succs) ∅ start).

Definition self_loop (i : Item) : bool :=
  bool_decide (li_predecessor i = Some (li_ref i))
  || bool_decide (li_successor i = Some (li_ref i)).

(** What one item requires of a neighbour it names: that it exists and, if it
    does, that [P] holds of it. *)
Definition neighbour (items : list Item) (r : option Ref) (missing : bool)
    (P : Item → bool) : bool :=
  match r with
  | None => false
  | Some r => match find_item items r with Some c => P c | None => missing end
  end.

Definition gap_at (items : list Item) (i : Item) : bool :=
  neighbour items (li_predecessor i) true
    (λ p, negb (bool_decide (li_successor p = Some (li_ref i))))
  || neighbour items (li_successor i) true
       (λ s, negb (bool_decide (li_predecessor s = Some (li_ref i)))).

Definition scope_mismatch_at (items : list Item) (i : Item) : bool :=
  neighbour items (li_predecessor i) false
    (λ p, negb (bool_decide (li_scope_digest p = li_scope_digest i)))
  || neighbour items (li_successor i) false
       (λ s, negb (bool_decide (li_scope_digest s = li_scope_digest i))).

Definition privacy_mismatch_at (items : list Item) (i : Item) : bool :=
  neighbour items (li_predecessor i) false
    (λ p, negb (bool_decide (li_privacy_class p = li_privacy_class i)))
  || neighbour items (li_successor i) false
       (λ s, negb (bool_decide (li_privacy_class s = li_privacy_class i))).

Definition heads (items : list Item) : list Item :=
  filter (λ i, li_predecessor i = None) items.
Definition tails (items : list Item) : list Item :=
  filter (λ i, li_successor i = None) items.

(** The set of failures; the loops insert into a set, so each failure is
    detected iff some iteration inserts it. *)
Definition detect_memory_update_lineage_failures (items : list Item) (max_depth : N)
    : failure_set := λ f,
  match f with
  | OwnerRevisionRefInvalid => existsb (λ i, negb (revision_ref_is_valid (li_ref i))) items
  | LineageFailureMismatch =>
      existsb (λ i, negb (is_canonical_lineage_digest (li_scope_digest i))
                    || negb (is_canonical_lineage_digest (li_content_digest i))) items
  | LineageDuplicateRevision => negb (bool_decide (NoDup (li_ref <$> items)))
  | LineageCycle =>
      existsb self_loop items
      || existsb (λ p, has_cycle_from (successors items) p.1) (map_to_list (successors items))
  | LineageDepthExceeded => max_depth <? len items
  | LineageGap =>
      existsb (gap_at items) items
      || (negb (bool_decide (items = []))
          && (negb (len (heads items) =? 1) || negb (len (tails items) =? 1)))
  | LineageScopeMismatch => existsb (scope_mismatch_at items) items
  | LineagePrivacyMismatch => existsb (privacy_mismatch_at items) items
  | _ => false
  end.

Definition reportable_failure (f : GovernedContractFailure) : bool :=
  match f with
  | LineageCycle | LineageGap | LineageScopeMismatch | LineagePrivacyMismatch
  | LineageDepthExceeded => true
  | _ => false
  end.

Definition lineage_failure_to_contract_failure (f : MemoryUpdateLineageFailure)
    : GovernedContractFailure :=
  match f with
  | FCycle => LineageCycle
  | FGap => LineageGap
  | FScopeMismatch => LineageScopeMismatch
  | FPrivacyMismatch => LineagePrivacyMismatch
  | FDepthExceeded => LineageDepthExceeded
  end.

Definition contract_failure_to_lineage_failure (f : GovernedContractFailure)
    : option MemoryUpdateLineageFailure :=
  match f with
  | LineageCycle => Some FCycle
  | LineageGap => Some FGap
  | LineageScopeMismatch => Some FScopeMismatch
  | LineagePrivacyMismatch => Some FPrivacyMismatch
  | LineageDepthExceeded => Some FDepthExceeded
  | _ => None
  end.

(** ** The contract of a report *)

Definition lineage_contract_set (r : MemoryUpdateLineageReport) : failure_set :=
  let detected := detect_memory_update_lineage_failures (lr_items r) (max_lineage_depth r) in
  let malformed := negb (lr_schema_version r =? GOVERNED_MEMORY_LIFECYCLE_SCHEMA_VERSION)
                   || (manifest_revision r =? 0) || (max_lineage_depth r =? 0) in
  let declared : failure_set := λ f,
    bool_decide (f ∈ (lineage_failure_to_contract_failure <$> lr_failures r)) in
  let reportable : failure_set := λ f, detected f && reportable_failure f in
  let mismatch :=
    negb (bool_decide (failures_of declared = failures_of reportable))
    || negb (eqb (complete r) (failure_set_empty reportable)) in
  λ f, detected f
       || (bool_decide (f = LineageFailureMismatch) && (malformed || mismatch)).

Definition lineage_validate_contract (r : MemoryUpdateLineageReport)
    : GovernedContractValidation :=
  from_failures (failures_of (lineage_contract_set r)).

(** ** Ordering *)

Definition ref_le (a b : Ref) : Prop := Is_true (revision_ref_leb a b).
#[global] Instance ref_le_dec : RelDecision ref_le.
Proof. intros a b. unfold ref_le. apply _. Defined.
Definition item_le (a b : Item) : Prop := ref_le (li_ref a) (li_ref b).
#[global] Instance item_le_dec : RelDecision item_le.
Proof. intros a b. unfold item_le. apply _. Defined.

(** The [while let Some(current)] loop; [None] is fuel exhaustion. *)
Fixpoint follow (m : gmap Ref Item) (fuel : nat) (cursor : option Ref)
    : option (result (list Item)) :=
  match cursor with
  | None => Some (Ok [])
  | Some current =>
    match fuel with
    | O => None
    | S fuel =>
      match m !! current with
      | None => Some (Err (Config "memory_update_lineage_report"
                             "complete lineage cursor is missing"))
      | Some item =>
          match follow m fuel (li_successor item) with
          | Some (Ok l) => Some (Ok (item :: l))
          | other => other
          end
      end
    end
  end.

Definition first_head (m : gmap Ref Item) : option Item :=
  find (λ i, is_none (li_predecessor i)) (merge_sort item_le ((map_to_list m).*2)).

Definition order_complete_lineage (items : list Item) : option (result (list Item)) :=
  let m := by_ref items in
  match follow m (size m) (li_ref <$> first_head m) with
  | Some (Ok ordered) =>
      Some (if len ordered =? N.of_nat (size m) then Ok ordered
            else Err (Config "memory_update_lineage_report"
                        "complete lineage does not cover every item"))
  | other => other
  end.

(** ** The report *)

(** The model of a loop that does not terminate; never reached
    ([ordered_lineage]). *)
Definition diverges : Error := Config "model" "out of fuel".

Definition build_memory_update_lineage_report (items : list Item) (revision max_depth : N)
    : result MemoryUpdateLineageReport :=
  let stage := "memory_update_lineage_report" in
  _ ← ensure (negb ((revision =? 0) || (max_depth =? 0)))
        (Config stage "manifest revision and request-pinned lineage depth must be positive");
  let detected := detect_memory_update_lineage_failures items max_depth in
  items ← (if failure_set_empty detected
           then default (Err diverges) (order_complete_lineage items)
           else Ok (merge_sort item_le items));
  _ ← ensure (forallb reportable_failure (failures_of detected))
        (Config stage "lineage items contain a non-reportable contract failure");
  let fs := omap contract_failure_to_lineage_failure (failures_of detected) in
  let report :=
    {| lr_schema_version := GOVERNED_MEMORY_LIFECYCLE_SCHEMA_VERSION;
       lr_items := items;
       lr_failures := fs;
       manifest_revision := revision;
       max_lineage_depth := max_depth;
       complete := match fs with [] => true | _ => false end |} in
  _ ← ensure (bool_decide (failures (lineage_validate_contract report) = failures_of detected))
        (Config stage "derived lineage report failed its canonical contract");
  Ok report.
