(* ===== verification/LineageProps.v ===== *)
(** * Governed memory: theorems about update lineage

    A lineage without failures is one chain: ordering it terminates, covers
    every item and links each to the next.  The detection does not depend on
    the order of the items, so that a report never fails its own contract. *)

From S2P Require Import Prelude RustStr Governed Lineage.
From stdpp Require Import sorting.

Local Open Scope string_scope.
Local Open Scope list_scope.
Local Open Scope N_scope.

(** ** Lookups *)

Lemma existsb_forall {A} (P : A → bool) l : existsb P l = false ↔ ∀ x, x ∈ l → P x = false.
Proof.
  split.
  - intros H x Hx. apply not_true_iff_false. intros Hp. apply not_true_iff_false in H.
    apply H, existsb_exists. exists x. split; [by apply list_elem_of_In|done].
  - intros H. apply not_true_iff_false. rewrite existsb_exists. intros (x & Hx & Hp).
    rewrite H in Hp; [done|]. by apply list_elem_of_In.
Qed.

Lemma existsb_perm {A} (P Q : A → bool) l l' :
  l ≡ₚ l' → (∀ x, x ∈ l → P x = Q x) → existsb P l = existsb Q l'.
Proof.
  intros Hp HPQ. apply Bool.eq_true_iff_eq. rewrite !existsb_exists.
  split; intros (x & Hx & H); exists x; rewrite <- !list_elem_of_In in *.
  - rewrite <- HPQ by done. by rewrite <- Hp.
  - rewrite <- Hp in Hx. by rewrite HPQ.
Qed.

Lemma find_item_some items r c :
  find_item items r = Some c → c ∈ items ∧ li_ref c = r.
Proof.
  unfold find_item. intros [Hin Hr]%find_some. split; [by apply list_elem_of_In|].
  by apply bool_decide_eq_true in Hr.
Qed.

Lemma find_item_unique items c :
  NoDup (li_ref <$> items) → c ∈ items → find_item items (li_ref c) = Some c.
Proof.
  intros Hnd Hc. destruct (find_item items (li_ref c)) as [c'|] eqn:E.
  - apply find_item_some in E as [Hc' Hr]. f_equal.
    apply list_elem_of_lookup in Hc as [i Hi]. apply list_elem_of_lookup in Hc' as [j Hj].
    assert (j = i) as ->.
    { apply (NoDup_lookup (li_ref <$> items) j i (li_ref c) Hnd);
        rewrite list_lookup_fmap; [rewrite Hj|rewrite Hi]; cbn; congruence. }
    congruence.
  - exfalso. unfold find_item in E. apply list_elem_of_In in Hc.
    pose proof (find_none _ _ E c Hc) as Hn. by apply bool_decide_eq_false in Hn.
Qed.

Lemma find_item_perm items items' r :
  NoDup (li_ref <$> items) → items ≡ₚ items' → find_item items r = find_item items' r.
Proof.
  intros Hnd Hp. assert (Hnd' : NoDup (li_ref <$> items')) by by rewrite <- Hp.
  destruct (find_item items r) as [c|] eqn:E.
  - apply find_item_some in E as [Hc <-]. rewrite find_item_unique; [done|done|].
    by rewrite <- Hp.
  - destruct (find_item items' r) as [c|] eqn:E'; [|done].
    apply find_item_some in E' as [Hc <-]. rewrite <- Hp in Hc.
    by rewrite find_item_unique in E.
Qed.

Lemma lookup_by_ref items r :
  NoDup (li_ref <$> items) → by_ref items !! r = find_item items r.
Proof.
  intros Hnd. enough (∀ m : gmap GovernedOwnerRevisionRef GovernedUpdateLineageItem,
    foldl (λ m i, <[li_ref i := i]> m) m items !! r
    = match find_item items r with Some c => Some c | None => m !! r end) as H.
  { unfold by_ref. rewrite H. by destruct (find_item items r). }
  induction items as [|i items IH]; intros m; [done|].
  rewrite fmap_cons in Hnd. apply NoDup_cons in Hnd as [Hi Hnd]. cbn [foldl]. rewrite (IH Hnd).
  change (find_item (i :: items) r) with
    (if bool_decide (li_ref i = r) then Some i else find_item items r).
  case_bool_decide as Hr.
  - destruct (find_item items r) as [c|] eqn:E; [|by rewrite Hr, lookup_insert_eq].
    apply find_item_some in E as [Hc Hcr]. exfalso. apply Hi. rewrite Hr, <- Hcr.
    apply list_elem_of_fmap. eauto.
  - destruct (find_item items r); [done|]. by rewrite lookup_insert_ne.
Qed.

Lemma lookup_successors items r :
  NoDup (li_ref <$> items) → successors items !! r = li_successor <$> find_item items r.
Proof.
  intros Hnd. rewrite <- lookup_by_ref by done. unfold successors, by_ref. clear Hnd.
  rewrite <- (lookup_fmap li_successor).
  replace (∅ : gmap GovernedOwnerRevisionRef (option GovernedOwnerRevisionRef))
    with (li_successor <$> (∅ : gmap GovernedOwnerRevisionRef GovernedUpdateLineageItem))
    by apply fmap_empty.
  generalize (∅ : gmap GovernedOwnerRevisionRef GovernedUpdateLineageItem).
  induction items as [|i items IH]; intros m; cbn; [done|].
  rewrite <- IH. by rewrite fmap_insert.
Qed.

(** ** Walks *)

(** [path] is the walk from [x] along the successors until it leaves them. *)
Inductive walk (succs : gmap GovernedOwnerRevisionRef (option GovernedOwnerRevisionRef))
    : GovernedOwnerRevisionRef → list GovernedOwnerRevisionRef → Prop :=
| walk_end x : (∀ n, succs !! x ≠ Some (Some n)) → walk succs x [x]
| walk_next x n l : succs !! x = Some (Some n) → walk succs n l → walk succs x (x :: l).

Lemma walk_repeats_false succs fuel seen x :
  walk_repeats succs fuel seen x = Some false →
  ∃ path, walk succs x path ∧ NoDup path ∧ ∀ y, y ∈ path → y ∉ seen.
Proof.
  revert seen x. induction fuel as [|fuel IH]; intros seen x H; cbn in H; [done|].
  case_decide as Hx; [done|].
  assert (Hend : (∀ n, succs !! x ≠ Some (Some n)) → ∃ path, walk succs x path
    ∧ NoDup path ∧ ∀ y, y ∈ path → y ∉ seen).
  { intros Hn. exists [x]. split_and!; [by constructor|apply NoDup_singleton|].
    by intros y ->%list_elem_of_singleton. }
  destruct (succs !! x) as [[n|]|] eqn:Hs; [|by apply Hend..].
  apply IH in H as (path & Hw & Hnd & Hseen). exists (x :: path).
  split_and!; [by econstructor| |].
  - apply NoDup_cons_2; [|done]. intros Hin. specialize (Hseen x Hin). set_solver.
  - intros y [->|Hy]%elem_of_cons; [done|]. specialize (Hseen y Hy). set_solver.
Qed.

Lemma walk_repeats_total succs fuel seen x :
  (size (dom succs ∖ seen) < fuel)%nat → is_Some (walk_repeats succs fuel seen x).
Proof.
  revert seen x. induction fuel as [|fuel IH]; intros seen x Hf; [lia|]. cbn.
  case_decide as Hx; [eauto|]. destruct (succs !! x) as [[n|]|] eqn:Hs; [|eauto..].
  apply IH. assert (Hin : x ∈ dom succs ∖ seen).
  { apply elem_of_difference. split; [by eapply elem_of_dom_2|done]. }
  assert (dom succs ∖ ({[x]} ∪ seen) ⊂ dom succs ∖ seen) as Hsub%subset_size; [|lia].
  split; [set_solver|]. intros Hc. specialize (Hc x Hin). set_solver.
Qed.

Lemma no_cycle_walk succs x :
  has_cycle_from succs x = false → ∃ path, walk succs x path ∧ NoDup path.
Proof.
  unfold has_cycle_from. destruct (walk_repeats_total succs (walk_fuel succs) ∅ x) as [b Hb].
  { unfold walk_fuel. rewrite difference_empty_L, size_dom. lia. }
  rewrite Hb. cbn. intros ->. apply walk_repeats_false in Hb as (path & Hw & Hnd & _). eauto.
Qed.

(** A walk never ends inside a set every element of which has a successor in
    the set. *)
Lemma walk_stuck succs (S : GovernedOwnerRevisionRef → Prop) x path :
  (∀ y, S y → ∃ n, succs !! y = Some (Some n) ∧ S n) → S x → ¬ walk succs x path.
Proof.
  intros Hclosed Hx Hw. induction Hw as [x Hend|x n l Hn Hw IH].
  - destruct (Hclosed x Hx) as (n & Hn & _). by apply (Hend n).
  - destruct (Hclosed x Hx) as (n' & Hn' & HS). apply IH. congruence.
Qed.

Lemma walk_head succs x path : walk succs x path → ∃ rest, path = x :: rest.
Proof. destruct 1; eauto. Qed.

Lemma walk_last succs x path :
  walk succs x path → ∃ t, t ∈ path ∧ ∀ n, succs !! t ≠ Some (Some n).
Proof.
  induction 1 as [x Hend|x n l Hn Hw (t & Ht & Hend)]; [exists x|exists t]; set_solver.
Qed.

Lemma walk_inner succs x path y :
  walk succs x path → y ∈ path → y ≠ x → ∃ z, z ∈ path ∧ succs !! z = Some (Some y).
Proof.
  induction 1 as [x Hend|x n l Hn Hw IH]; intros Hy Hne.
  - by apply list_elem_of_singleton in Hy.
  - apply elem_of_cons in Hy as [->|Hy]; [done|]. destruct (decide (y = n)) as [->|Hyn].
    + exists x. split; [by left|done].
    + destruct (IH Hy Hyn) as (z & Hz & Hzy). exists z. split; [by right|done].
Qed.

(** ** A lineage without failures *)

Section Complete.
Context (items : list GovernedUpdateLineageItem) (depth : N).
Context (Hnone : ∀ f, detect_memory_update_lineage_failures items depth f = false).

Lemma complete_nodup : NoDup (li_ref <$> items).
Proof using Hnone.
  pose proof (Hnone LineageDuplicateRevision) as H. cbn in H. by split_bool.
Qed.

Lemma complete_neighbours i :
  i ∈ items →
  (∀ r, li_successor i = Some r → ∃ c, c ∈ items ∧ li_ref c = r
     ∧ li_predecessor c = Some (li_ref i) ∧ li_scope_digest c = li_scope_digest i
     ∧ li_privacy_class c = li_privacy_class i)
  ∧ (∀ r, li_predecessor i = Some r → ∃ c, c ∈ items ∧ li_ref c = r
     ∧ li_successor c = Some (li_ref i)).
Proof using Hnone.
  intros Hi. pose proof (Hnone LineageGap) as Hg. pose proof (Hnone LineageScopeMismatch) as Hs.
  pose proof (Hnone LineagePrivacyMismatch) as Hp. cbn in Hg, Hs, Hp.
  apply orb_false_iff in Hg as [Hg _].
  apply (proj1 (existsb_forall _ _)) with (x := i) in Hg, Hs, Hp; try done.
  unfold gap_at, scope_mismatch_at, privacy_mismatch_at in *. split_bool. split.
  - intros r Hr. rewrite Hr in *. unfold neighbour in *.
    destruct (find_item items r) as [c|] eqn:Hf; [|done]. split_bool.
    apply find_item_some in Hf as [Hc <-]. eauto 10.
  - intros r Hr. rewrite Hr in *. unfold neighbour in *.
    destruct (find_item items r) as [c|] eqn:Hf; [|done]. split_bool.
    apply find_item_some in Hf as [Hc <-]. eauto.
Qed.

Lemma item_unique i j : i ∈ items → j ∈ items → li_ref i = li_ref j → i = j.
Proof using Hnone.
  intros Hi Hj Hr. pose proof (find_item_unique _ _ complete_nodup Hi) as H1.
  pose proof (find_item_unique _ _ complete_nodup Hj) as H2. rewrite Hr in H1. congruence.
Qed.

Lemma singleton_unique {A} (l : list A) x y : len l = 1 → x ∈ l → y ∈ l → x = y.
Proof. destruct l as [|a [|b l]]; unfold len; cbn; [lia| |lia]. set_solver. Qed.

Lemma complete_single_ends :
  items ≠ [] → len (heads items) = 1 ∧ len (tails items) = 1.
Proof using Hnone.
  intros Hne. pose proof (Hnone LineageGap) as Hg. cbn in Hg.
  rewrite (bool_decide_eq_false_2 (items = [])) in Hg by done. cbn in Hg. by split_bool.
Qed.

Lemma successor_lookup r n :
  successors items !! r = Some (Some n) ↔
  ∃ i, i ∈ items ∧ li_ref i = r ∧ li_successor i = Some n.
Proof using Hnone.
  rewrite lookup_successors by apply complete_nodup. split.
  - destruct (find_item items r) as [c|] eqn:Hf; cbn; [|done]. intros [= Hn].
    apply find_item_some in Hf as [Hc <-]. eauto.
  - intros (i & Hi & <- & Hn). rewrite find_item_unique by (done || apply complete_nodup).
    cbn. by rewrite Hn.
Qed.

Lemma walk_items h path y :
  h ∈ items → walk (successors items) (li_ref h) path → y ∈ path →
  ∃ j, j ∈ items ∧ li_ref j = y.
Proof using Hnone.
  intros Hh Hw Hy. destruct (decide (y = li_ref h)) as [->|Hyh]; [eauto|].
  destruct (walk_inner _ _ _ _ Hw Hy Hyh) as (z & _ & Hz).
  apply successor_lookup in Hz as (j & Hj & _ & Hs).
  destruct (proj1 (complete_neighbours j Hj) y Hs) as (c & Hc & Hcy & _). eauto.
Qed.

(** The walk from the head visits every item. *)
Lemma head_walk_covers h path :
  h ∈ items → li_predecessor h = None → walk (successors items) (li_ref h) path →
  ∀ i, i ∈ items → li_ref i ∈ path.
Proof using Hnone.
  intros Hh Hhp Hw i Hi.
  destruct (decide (li_ref i ∈ path)) as [|Hout]; [done|exfalso].
  assert (Hne : items ≠ []) by (intros He; rewrite He in Hi; by apply elem_of_nil in Hi).
  destruct (complete_single_ends Hne) as [H1 H2].
  (* the tail is on the path *)
  destruct (walk_last _ _ _ Hw) as (t & Ht & Hend).
  destruct (walk_items h path t Hh Hw Ht) as (jt & Hjt & <-).
  assert (Htail : jt ∈ tails items).
  { apply list_elem_of_filter. split; [|done]. destruct (li_successor jt) as [n|] eqn:Hn; [|done].
    exfalso. apply (Hend n). apply successor_lookup. eauto. }
  (* outside the path every item has a successor outside the path *)
  set (S := λ r, (r ∉ path) ∧ ∃ j, j ∈ items ∧ li_ref j = r).
  destruct (no_cycle_walk (successors items) (li_ref i)) as (wi & Hwi & _).
  { pose proof (Hnone LineageCycle) as Hc. cbn in Hc. apply orb_false_iff in Hc as [_ Hc].
    apply (proj1 (existsb_forall _ _)) with (x := (li_ref i, li_successor i)) in Hc; [done|].
    apply elem_of_map_to_list. rewrite lookup_successors by apply complete_nodup.
    by rewrite find_item_unique by (done || apply complete_nodup). }
  apply (walk_stuck (successors items) S (li_ref i) wi); [|split; eauto|done].
  intros y [Hy (j & Hj & <-)]. destruct (li_successor j) as [n|] eqn:Hn.
  - exists n. split; [apply successor_lookup; eauto|].
    destruct (proj1 (complete_neighbours j Hj) n Hn) as (c & Hc & <- & Hcp & _).
    split; [|eauto]. intros Hin. destruct (decide (li_ref c = li_ref h)) as [Heq|Hneq].
    + rewrite (item_unique c h) in Hcp by done. congruence.
    + destruct (walk_inner _ _ _ _ Hw Hin Hneq) as (z & Hz & Hzc).
      apply successor_lookup in Hzc as (jz & Hjz & <- & Hzs).
      destruct (proj1 (complete_neighbours jz Hjz) _ Hzs) as (c' & Hc' & Hcr & Hcp' & _).
      rewrite (item_unique c' c) in Hcp' by done. congruence.
  - exfalso. apply Hy.
    assert (Htj : j ∈ tails items) by (by apply list_elem_of_filter).
    by rewrite (singleton_unique _ _ _ H2 Htj Htail).
Qed.

(** Each item is followed by the successor it names, which names it as its
    predecessor and has its scope and privacy class; the last has none. *)
Fixpoint linked (l : list GovernedUpdateLineageItem) : Prop :=
  match l with
  | [] => True
  | a :: rest =>
      match rest with
      | [] => li_successor a = None
      | b :: _ =>
          li_successor a = Some (li_ref b) ∧ li_predecessor b = Some (li_ref a)
          ∧ li_scope_digest b = li_scope_digest a
          ∧ li_privacy_class b = li_privacy_class a
          ∧ linked rest
      end
  end.

Lemma follow_walk x path fuel :
  walk (successors items) x path → (∃ i, i ∈ items ∧ li_ref i = x) →
  (length path ≤ fuel)%nat →
  ∃ l, follow (by_ref items) fuel (Some x) = Some (Ok l)
    ∧ li_ref <$> l = path ∧ (∀ i, i ∈ l → i ∈ items) ∧ linked l.
Proof using Hnone.
  intros Hw. revert fuel. induction Hw as [x Hend|x n path Hn Hw IH];
    intros fuel (i & Hi & <-) Hf; (destruct fuel as [|fuel]; [cbn in Hf; lia|]); cbn [follow];
    rewrite (lookup_by_ref _ _ complete_nodup), (find_item_unique _ _ complete_nodup Hi).
  - destruct (li_successor i) as [n|] eqn:Hs.
    { exfalso. apply (Hend n), successor_lookup. eauto. }
    exists [i]. destruct fuel; cbn; rewrite Hs; split_and!; set_solver.
  - assert (Hs : li_successor i = Some n).
    { apply successor_lookup in Hn as (j & Hj & Hr & Hs). by rewrite (item_unique j i) in Hs. }
    destruct (proj1 (complete_neighbours i Hi) n Hs) as (c & Hc & <- & Hcp & Hsc & Hpc).
    destruct (IH fuel) as (l & Hfol & Hl & Hin & Hlink); [eauto|cbn in Hf; lia|].
    rewrite Hs, Hfol. exists (i :: l). split_and!; [done|by rewrite fmap_cons, Hl|set_solver|].
    destruct (walk_head _ _ _ Hw) as [rest Hrest].
    destruct l as [|b l]; [by rewrite <- Hl in Hrest|].
    assert (li_ref b = li_ref c) by (rewrite <- Hl, fmap_cons in Hrest; by simplify_eq).
    assert (b = c) as -> by (apply item_unique; [apply Hin; by left|done|done]).
    cbn. by rewrite Hs.
Qed.

Lemma first_head_exists :
  items ≠ [] → ∃ h, first_head (by_ref items) = Some h ∧ h ∈ items ∧ li_predecessor h = None.
Proof using Hnone.
  intros Hne. destruct (complete_single_ends Hne) as [H1 _].
  assert (∃ h, h ∈ heads items) as [h Hh].
  { destruct (heads items) as [|h l]; [by rewrite len_nil in H1|]. exists h. by left. }
  apply list_elem_of_filter in Hh as [Hp Hh].
  assert (Hval : ∀ i, i ∈ merge_sort item_le ((map_to_list (by_ref items)).*2) ↔ i ∈ items).
  { intros i. rewrite (merge_sort_Permutation item_le), list_elem_of_fmap. split.
    - intros ([r j] & -> & Hj%elem_of_map_to_list).
      rewrite (lookup_by_ref _ _ complete_nodup) in Hj. by apply find_item_some in Hj as [? _].
    - intros Hi. exists (li_ref i, i). split; [done|]. apply elem_of_map_to_list.
      by rewrite (lookup_by_ref _ _ complete_nodup), (find_item_unique _ _ complete_nodup). }
  unfold first_head. destruct (find _ _) as [h'|] eqn:Hf.
  - apply find_some in Hf as [Hin Hn]. exists h'. split; [done|]. split.
    + by apply Hval, list_elem_of_In.
    + by destruct (li_predecessor h').
  - exfalso. apply Hval, list_elem_of_In in Hh. pose proof (find_none _ _ Hf h Hh) as Hn.
    cbn in Hn. by rewrite Hp in Hn.
Qed.

Lemma by_ref_size : size (by_ref items) = length items.
Proof using Hnone.
  rewrite <- size_dom. rewrite <- (length_fmap li_ref).
  rewrite <- (size_list_to_set (C := gset GovernedOwnerRevisionRef)) by apply complete_nodup.
  f_equal. apply set_eq. intros r.
  rewrite elem_of_dom, elem_of_list_to_set, (lookup_by_ref _ _ complete_nodup), list_elem_of_fmap.
  split.
  - intros [c Hc]. apply find_item_some in Hc as [? <-]. eauto.
  - intros (i & -> & Hi). rewrite find_item_unique; eauto using complete_nodup.
Qed.

(** Ordering a lineage without failures terminates and yields the chain of all
    its items. *)
Lemma ordered_lineage :
  ∃ l, order_complete_lineage items = Some (Ok l) ∧ l ≡ₚ items ∧ linked l
    ∧ match l with [] => True | h :: _ => li_predecessor h = None end.
Proof using Hnone.
  unfold order_complete_lineage. destruct (decide (items = [])) as [He|Hne].
  { exists []. rewrite He. cbn. done. }
  destruct (first_head_exists Hne) as (h & -> & Hh & Hhp). cbn [fmap option_fmap option_map].
  destruct (no_cycle_walk (successors items) (li_ref h)) as (path & Hw & Hnd).
  { pose proof (Hnone LineageCycle) as Hc. cbn in Hc. apply orb_false_iff in Hc as [_ Hc].
    apply (proj1 (existsb_forall _ _)) with (x := (li_ref h, li_successor h)) in Hc; [done|].
    apply elem_of_map_to_list. rewrite lookup_successors by apply complete_nodup.
    by rewrite find_item_unique by (done || apply complete_nodup). }
  assert (Hpp : path ≡ₚ li_ref <$> items).
  { apply NoDup_Permutation; [done|apply complete_nodup|]. intros r. split.
    - intros Hr. destruct (walk_items h path r Hh Hw Hr) as (j & Hj & <-).
      apply list_elem_of_fmap. eauto.
    - intros (i & -> & Hi)%list_elem_of_fmap. by apply (head_walk_covers h path). }
  assert (Hlen : length path = length items).
  { rewrite (Permutation_length Hpp). apply length_fmap. }
  destruct (follow_walk (li_ref h) path (size (by_ref items)) Hw) as (l & -> & Hl & Hin & Hlink).
  { eauto. } { rewrite by_ref_size. lia. }
  assert (Hll : length l = length items).
  { rewrite <- Hlen, <- Hl. by rewrite length_fmap. }
  rewrite by_ref_size. unfold len. rewrite Hll, N.eqb_refl. exists l. split; [done|].
  split_and!; [|done|].
  - apply NoDup_Permutation.
    + apply (NoDup_fmap_1 li_ref). by rewrite Hl.
    + apply (NoDup_fmap_1 li_ref), complete_nodup.
    + intros i. split; [auto|]. intros Hi.
      assert (li_ref i ∈ li_ref <$> l) as (j & Hr & Hj)%list_elem_of_fmap.
      { rewrite Hl, Hpp. apply list_elem_of_fmap. eauto. }
      by rewrite (item_unique i j Hi (Hin j Hj) Hr).
  - destruct (walk_head _ _ _ Hw) as [rest Hrest]. rewrite Hrest in Hl.
    destruct l as [|a l]; [done|]. rewrite fmap_cons in Hl.
    rewrite (item_unique a h); [done|apply Hin; by left|done|by simplify_eq].
Qed.

End Complete.

(** ** Detection does not depend on the order of the items *)

Section Reordered.
Context (items items' : list GovernedUpdateLineageItem).
Context (Hperm : items ≡ₚ items').

Lemma refs_perm : li_ref <$> items ≡ₚ li_ref <$> items'.
Proof using Hperm. by rewrite Hperm. Qed.

Context (Hnd : NoDup (li_ref <$> items)).

Lemma neighbour_perm r missing P : neighbour items r missing P = neighbour items' r missing P.
Proof using Hperm Hnd.
  unfold neighbour. destruct r as [r|]; [|done]. by rewrite (find_item_perm _ _ r Hnd Hperm).
Qed.

Lemma successors_perm : successors items = successors items'.
Proof using Hperm Hnd.
  apply map_eq. intros r. rewrite !lookup_successors; [|by rewrite <- refs_perm|done].
  by rewrite (find_item_perm _ _ r Hnd Hperm).
Qed.

Lemma len_filter_perm (P : GovernedUpdateLineageItem → Prop) `{∀ x, Decision (P x)} :
  len (filter P items) = len (filter P items').
Proof using Hperm. unfold len. by rewrite (filter_Permutation P _ _ Hperm). Qed.

Lemma nil_perm : bool_decide (items = []) = bool_decide (items' = []).
Proof using Hperm.
  apply bool_decide_ext. split; intros E; rewrite E in Hperm.
  - by apply Permutation_nil_l in Hperm.
  - by apply Permutation_nil_r in Hperm.
Qed.

Lemma detect_perm depth f :
  detect_memory_update_lineage_failures items depth f
  = detect_memory_update_lineage_failures items' depth f.
Proof using Hperm Hnd.
  assert (Hex : ∀ P, existsb P items = existsb P items').
  { intros P. by apply existsb_perm. }
  assert (Hlen : len items = len items') by (unfold len; by rewrite Hperm).
  destruct f; cbn; try done; try apply Hex.
  - f_equal. apply bool_decide_ext. by rewrite refs_perm.
  - by rewrite Hex, successors_perm.
  - unfold heads, tails. rewrite nil_perm, !len_filter_perm. f_equal.
    apply existsb_perm; [done|]. intros x _. unfold gap_at. by rewrite !neighbour_perm.
  - apply existsb_perm; [done|]. intros x _. unfold scope_mismatch_at. by rewrite !neighbour_perm.
  - apply existsb_perm; [done|]. intros x _. unfold privacy_mismatch_at. by rewrite !neighbour_perm.
  - by rewrite Hlen.
Qed.
End Reordered.

(** ** The report *)

Lemma declared_failures s f :
  (∀ f, s f = true → reportable_failure f = true) →
  f ∈ lineage_failure_to_contract_failure
      <$> omap contract_failure_to_lineage_failure (failures_of s)
  ↔ s f = true.
Proof.
  intros Hs. rewrite list_elem_of_fmap. split.
  - intros (g & -> & Hg). apply list_elem_of_omap in Hg as (f' & Hf' & Hc).
    rewrite elem_of_failures_of in Hf'. by destruct f'; simplify_eq/=.
  - intros Hf. pose proof (Hs f Hf) as Hr.
    destruct (contract_failure_to_lineage_failure f) as [g|] eqn:Hc; [|by destruct f].
    exists g. split; [by destruct f; simplify_eq/=|].
    apply list_elem_of_omap. exists f. by rewrite elem_of_failures_of.
Qed.

Lemma declared_nil s :
  (∀ f, s f = true → reportable_failure f = true) →
  omap contract_failure_to_lineage_failure (failures_of s) = [] ↔ ∀ f, s f = false.
Proof.
  intros Hs. split.
  - intros H f. apply not_true_iff_false. rewrite <- (declared_failures s f Hs), H.
    apply not_elem_of_nil.
  - intros H. by rewrite (proj2 (failures_of_nil s) H).
Qed.

(** What the builder validates: the derived report of items that are a
    rearrangement of the input has exactly the failures of the input. *)
Lemma derived_report_failures items items' revision depth :
  let d := detect_memory_update_lineage_failures items depth in
  let fs := omap contract_failure_to_lineage_failure (failures_of d) in
  let r := mkLineageReport GOVERNED_MEMORY_LIFECYCLE_SCHEMA_VERSION items' fs revision depth
             (match fs with [] => true | _ => false end) in
  items ≡ₚ items' → revision ≠ 0 → depth ≠ 0 →
  (∀ f, d f = true → reportable_failure f = true) →
  failures (lineage_validate_contract r) = failures_of d.
Proof.
  intros d fs r Hp Hrev Hdep Hrep. unfold lineage_validate_contract. cbn [failures from_failures].
  apply failures_of_ext. intros f.
  assert (Hnd : NoDup (li_ref <$> items)).
  { destruct (d LineageDuplicateRevision) eqn:E; [by apply Hrep in E|].
    subst d. cbn in E. by split_bool. }
  assert (Hd : ∀ f, detect_memory_update_lineage_failures items' depth f = d f).
  { intros g. symmetry. by apply detect_perm. }
  unfold lineage_contract_set. cbn [lr_items max_lineage_depth lr_schema_version
    manifest_revision lr_failures complete r]. rewrite Hd.
  assert (Hrs : ∀ f, d f && reportable_failure f = d f).
  { intros g. destruct (d g) eqn:E; [by rewrite (Hrep g E)|done]. }
  rewrite (proj2 (N.eqb_neq _ _) Hrev), (proj2 (N.eqb_neq _ _) Hdep), N.eqb_refl.
  cbn [negb orb].
  rewrite (bool_decide_eq_true_2 (failures_of _ = failures_of _)); cbn [negb orb].
  2:{ apply failures_of_ext. intros g. rewrite Hd, Hrs. apply Bool.eq_true_iff_eq.
      rewrite bool_decide_eq_true. by apply declared_failures. }
  replace (failure_set_empty _) with (match fs with [] => true | _ => false end).
  { rewrite eqb_reflx. cbn. by rewrite andb_false_r, orb_false_r. }
  unfold failure_set_empty. apply Bool.eq_true_iff_eq. rewrite bool_decide_eq_true, failures_of_nil.
  transitivity (fs = []); [by destruct fs|]. unfold fs. rewrite (declared_nil d Hrep).
  split; intros H g; [by rewrite Hd, H|]. specialize (H g). cbn in H. by rewrite Hd, Hrs in H.
Qed.

Definition starts_chain (l : list GovernedUpdateLineageItem) : Prop :=
  linked l ∧ match l with [] => True | h :: _ => li_predecessor h = None end.

(** The items of the report: a rearrangement, and the chain if nothing was
    detected. *)
Lemma report_items items depth :
  let d := detect_memory_update_lineage_failures items depth in
  ∃ l, (if failure_set_empty d then default (Err diverges) (order_complete_lineage items)
        else Ok (merge_sort item_le items)) = Ok l
    ∧ items ≡ₚ l ∧ ((∀ f, d f = false) → starts_chain l).
Proof.
  intros d. destruct (failure_set_empty d) eqn:He; unfold failure_set_empty in He; split_bool.
  - pose proof (proj1 (failures_of_nil d) He) as Hn.
    destruct (ordered_lineage items depth Hn) as (l & -> & Hp & Hl & Hh).
    exists l. by split_and!.
  - exists (merge_sort item_le items). split_and!; [done|by rewrite merge_sort_Permutation|].
    intros Hn. by apply failures_of_nil in Hn.
Qed.

Definition lineage_admissible (items : list GovernedUpdateLineageItem) (revision depth : N) : Prop :=
  revision ≠ 0 ∧ depth ≠ 0
  ∧ ∀ f, detect_memory_update_lineage_failures items depth f = true → reportable_failure f = true.

#[global] Instance lineage_admissible_dec items revision depth :
  Decision (lineage_admissible items revision depth).
Proof.
  unfold lineage_admissible. apply and_dec; [apply _|]. apply and_dec; [apply _|].
  destruct (decide (Forall (λ f, reportable_failure f = true)
    (failures_of (detect_memory_update_lineage_failures items depth)))) as [H|H]; [left|right].
  - intros f Hf. rewrite Forall_forall in H. apply H. by apply elem_of_failures_of.
  - intros Hr. apply H, Forall_forall. intros f Hf%elem_of_failures_of. auto.
Defined.

Lemma build_lineage_admissible items revision depth :
  lineage_admissible items revision depth →
  ∃ l, items ≡ₚ l
    ∧ ((∀ f, detect_memory_update_lineage_failures items depth f = false) → starts_chain l)
    ∧ let fs := omap contract_failure_to_lineage_failure
                  (failures_of (detect_memory_update_lineage_failures items depth)) in
      build_memory_update_lineage_report items revision depth
      = Ok (mkLineageReport GOVERNED_MEMORY_LIFECYCLE_SCHEMA_VERSION l fs revision depth
              (match fs with [] => true | _ => false end)).
Proof.
  intros (Hrev & Hdep & Hrep). destruct (report_items items depth) as (l & Hl & Hp & Hc).
  exists l. split_and!; [done|done|]. intros fs. unfold build_memory_update_lineage_report.
  rewrite (proj2 (N.eqb_neq _ _) Hrev), (proj2 (N.eqb_neq _ _) Hdep).
  cbn [negb orb mbind result_bind ensure]. rewrite Hl. cbn [mbind result_bind].
  rewrite (proj2 (forallb_forall _ _)).
  2:{ intros f Hf. apply list_elem_of_In, elem_of_failures_of in Hf. by apply Hrep. }
  cbn [negb orb mbind result_bind ensure].
  rewrite bool_decide_eq_true_2; [done|]. by apply derived_report_failures.
Qed.

Local Ltac apply_in_failures :=
  match goal with
  | H : ∀ x, In x (failures_of _) → _ |- _ = true =>
      apply H, list_elem_of_In, elem_of_failures_of
  end.

(** The lineage report is total: it is built exactly when the manifest
    revision and the depth are positive and every detected failure is one the
    report can declare; the internal checks of ordering and of the derived
    report never fire.  The report holds the given items, declares exactly the
    detected failures, and its own validation finds the same. *)
Theorem lineage_report_total items revision depth :
  let d := detect_memory_update_lineage_failures items depth in
  match build_memory_update_lineage_report items revision depth with
  | Ok r =>
      lineage_admissible items revision depth
      ∧ lr_items r ≡ₚ items
      ∧ (∀ f, f ∈ lineage_failure_to_contract_failure <$> lr_failures r ↔ d f = true)
      ∧ (complete r = true ↔ ∀ f, d f = false)
      ∧ (∀ f, f ∈ failures (lineage_validate_contract r) ↔ d f = true)
  | Err e =>
      ¬ lineage_admissible items revision depth
      ∧ (e = Config "memory_update_lineage_report"
               "manifest revision and request-pinned lineage depth must be positive"
         ∨ e = Config "memory_update_lineage_report"
                 "lineage items contain a non-reportable contract failure")
  end.
Proof.
  intros d. destruct (decide (lineage_admissible items revision depth)) as [Ha|Ha].
  - destruct (build_lineage_admissible _ _ _ Ha) as (l & Hp & Hc & Hb). cbn zeta in Hb.
    rewrite Hb. destruct Ha as (Hrev & Hdep & Hrep).
    split_and!; [by split_and!|by symmetry|by intros f; apply declared_failures| |].
    + cbn [complete]. rewrite <- (declared_nil d Hrep). fold d. by destruct (omap _ _).
    + intros f. rewrite (derived_report_failures items l revision depth Hp Hrev Hdep Hrep).
      apply elem_of_failures_of.
  - destruct (build_memory_update_lineage_report items revision depth) as [r|e] eqn:Hb.
    + exfalso. apply Ha. unfold build_memory_update_lineage_report in Hb. inv_ok. split_bool.
      rewrite forallb_forall in *. split_and!; [done|done|].
      intros f Hf. by apply_in_failures.
    + split; [done|]. unfold build_memory_update_lineage_report in Hb.
      destruct (negb _) eqn:Hpos; cbn [mbind result_bind ensure] in Hb;
        [|left; congruence].
      destruct (report_items items depth) as (l & Hl & _). rewrite Hl in Hb.
      cbn [mbind result_bind] in Hb. destruct (forallb _ _) eqn:Hr;
        cbn [mbind result_bind ensure] in Hb; [|right; congruence].
      exfalso. apply Ha. split_bool. split_and!; [done|done|].
      rewrite forallb_forall in Hr. intros f Hf. by apply_in_failures.
Qed.

(** C30: A lineage in which no failure is detected is one chain: its report is
    built, is complete, and lists all the items from the one without
    predecessor on, each followed by the successor it names, which names it
    back and has its scope and privacy class, to the one without successor. *)
Theorem complete_lineage_is_chain items revision depth :
  revision ≠ 0 → depth ≠ 0 →
  (∀ f, detect_memory_update_lineage_failures items depth f = false) →
  ∃ r, build_memory_update_lineage_report items revision depth = Ok r
    ∧ complete r = true ∧ lr_items r ≡ₚ items ∧ starts_chain (lr_items r).
Proof.
  intros Hrev Hdep Hn.
  assert (Hrep : ∀ f, detect_memory_update_lineage_failures items depth f = true →
    reportable_failure f = true) by (intros f Hf; by rewrite Hn in Hf).
  destruct (build_lineage_admissible items revision depth) as (l & Hp & Hc & Hb); [done|].
  eexists. split; [exact Hb|]. cbn [complete lr_items].
  rewrite (proj2 (declared_nil _ Hrep) Hn). split_and!; [done|by rewrite Hp|by apply Hc].
Qed.

(** ** Concrete lineages *)

Module LineageSamples.

Definition digest : string := "0123456789abcdef0123456789abcdef0123456789abcdef0123456789abcdef".

Definition rev_ref (n : N) : GovernedOwnerRevisionRef :=
  mkRevisionRef (mkOwnerRef LongTerm "memory-1") n.

Definition item (n : N) (p s : option N) : GovernedUpdateLineageItem :=
  mkItem (rev_ref n) (rev_ref <$> p) (rev_ref <$> s) digest PublicRuntime digest.

(** Three revisions given out of order. *)
Definition shuffled : list GovernedUpdateLineageItem :=
  [item 2 (Some 1) (Some 3); item 3 (Some 2) None; item 1 None (Some 2)].

Lemma complete_lineage_is_chain_witness :
  (∀ f, detect_memory_update_lineage_failures shuffled 8 f = false)
  ∧ ∃ r, build_memory_update_lineage_report shuffled 1 8 = Ok r
    ∧ complete r = true ∧ lr_items r ≡ₚ shuffled ∧ starts_chain (lr_items r).
Proof.
  assert (H : ∀ f, detect_memory_update_lineage_failures shuffled 8 f = false)
    by (intros []; vm_compute; reflexivity).
  split; [exact H|]. apply (complete_lineage_is_chain shuffled 1 8); [lia|lia|exact H].
Defined.

(** The report lists them in order; a missing middle revision is a gap. *)
Example shuffled_is_ordered :
  lr_items <$> build_memory_update_lineage_report shuffled 1 8
  = Ok [item 1 None (Some 2); item 2 (Some 1) (Some 3); item 3 (Some 2) None].
Proof. vm_compute. reflexivity. Qed.

Example missing_revision_is_gap :
  lr_failures <$> build_memory_update_lineage_report
    [item 3 (Some 2) None; item 1 None (Some 2)] 1 8 = Ok [FGap].
Proof. vm_compute. reflexivity. Qed.

End LineageSamples.
