(* ===== verification/FileSystem.v ===== *)
(** * File engine: the file system under the store root

    The part of [std::fs] that [crates/sdk/src/store_internal/file.rs] uses,
    and the helpers of that file that only touch the file system.

    A disk maps the paths of the regular files under the store root to their
    contents; directories are implicit.  Every system call consumes one
    [fault]: it succeeds, fails with an I/O error, or the process dies inside
    it; a write that does not succeed leaves an arbitrary prefix of its bytes.
    A completed call is durable: this is the semantics of a process crash, and
    of a power failure where the file system orders what it was asked to sync.
    The reads between two writes are one call.

    A program is specified by [spec strict P m Q E]: from a disk in [P], it
    either returns a value and a disk in [Q] or is interrupted (error or death)
    on a disk in [E]; when [strict] holds it is interrupted by faults only. *)

From S2P Require Import Prelude RustStr StoreTypes.
From Stdlib Require Import Ascii.

Local Open Scope string_scope.
Local Open Scope list_scope.
Local Open Scope N_scope.

#[global] Instance byte_eq_dec : EqDecision byte := Byte.byte_eq_dec.

(** ** Paths *)

Abbreviation path := (list string).

(** Split at the last ['.']. *)
Fixpoint last_dot (name : string) : option (string * string) :=
  match name with
  | EmptyString => None
  | String c rest =>
      match last_dot rest with
      | Some (before, after) => Some (String c before, after)
      | None => if bool_decide (c = "."%char) then Some ("", rest) else None
      end
  end.

(** [Path::extension] and [Path::file_stem] of a file name: a leading dot is
    part of the stem. *)
Definition extension (name : string) : option string :=
  if bool_decide (name = "..") then None
  else match last_dot name with
       | Some (String _ _, after) => Some after
       | _ => None
       end.

Definition file_stem (name : string) : string :=
  if bool_decide (name = "..") then name
  else match last_dot name with
       | Some (String c before, _) => String c before
       | _ => name
       end.

Definition path_extension (p : path) : option string := last p ≫= extension.
Definition parent (p : path) : path := removelast p.

(** [Path::with_extension] *)
Definition with_extension (p : path) (ext : string) : path :=
  match last p with
  | Some name => parent p ++ [file_stem name +:+ String "." ext]
  | None => p
  end.

Definition is_orphan_tmp_path (p : path) : bool :=
  bool_decide (path_extension p = Some "tmp").

(** ** Disks and programs *)

Abbreviation disk :=
  (@gmap (list string) (@list_eq_dec string String.eq_dec)
     (@list_countable string String.eq_dec String.countable) bytes).

Inductive fault :=
| Proceed
| IoFail (written : nat) (message : string)
| Crash (written : nat).

Inductive outcome (A : Type) :=
| Done (a : A)
| Failed (e : Error)
| Crashed.
Arguments Done {A} a.
Arguments Failed {A} e.
Arguments Crashed {A}.

Definition io (A : Type) : Type := list fault → disk → outcome A * (list fault * disk).

#[global] Instance io_ret : MRet io := λ A a faults d, (Done a, (faults, d)).
#[global] Instance io_bind : MBind io := λ A B f m faults d,
  match m faults d with
  | (Done a, (faults', d')) => f a faults' d'
  | (Failed e, rest) => (Failed e, rest)
  | (Crashed, rest) => (Crashed, rest)
  end.

(** [?] on a computation that does not touch the disk. *)
Definition io_result {A} (r : result A) : io A := λ faults d,
  match r with
  | Ok a => (Done a, (faults, d))
  | Err e => (Failed e, (faults, d))
  end.

Fixpoint io_each {A} (f : A → io unit) (l : list A) : io unit :=
  match l with
  | [] => mret tt
  | a :: l' => _ ← f a; io_each f l'
  end.

(** A system call: its effect when it succeeds, and the effect of its first
    [written] bytes when it does not. *)
Definition syscall {A} (stage : string) (effect : disk → A * disk)
    (torn : nat → disk → disk) : io A := λ faults d,
  match faults with
  | IoFail written message :: rest => (Failed (Io stage message), (rest, torn written d))
  | Crash written :: rest => (Crashed, (rest, torn written d))
  | _ => let '(a, d') := effect d in (Done a, (tail faults, d'))
  end.

Definition untorn (written : nat) (d : disk) : disk := d.

Definition content (d : disk) (p : path) : bytes := default [] (d !! p).

Definition create_dir_all (p : path) (stage : string) : io unit :=
  syscall stage (λ d, (tt, d)) untorn.
Definition file_create (p : path) (stage : string) : io unit :=
  syscall stage (λ d, (tt, <[p := []]> d)) untorn.
(** [OpenOptions::new().create(true)] without truncation. *)
Definition open_or_create (p : path) (stage : string) : io unit :=
  syscall stage (λ d, (tt, <[p := content d p]> d)) untorn.
(** [write_all] at the end of the file. *)
Definition write_all (p : path) (b : bytes) (stage : string) : io unit :=
  syscall stage (λ d, (tt, <[p := content d p ++ b]> d))
    (λ written d, <[p := content d p ++ take written b]> d).
Definition sync_all (stage : string) : io unit := syscall stage (λ d, (tt, d)) untorn.
(** [File::set_len]: truncates, or extends with zeros. *)
Definition set_len (p : path) (n : N) (stage : string) : io unit :=
  syscall stage (λ d, (tt, <[p := resize (N.to_nat n) x00 (content d p)]> d)) untorn.
Definition rename (from to : path) (stage : string) : io unit :=
  r ← syscall stage (λ d, match d !! from with
                          | Some b => (Ok tt, <[to := b]> (delete from d))
                          | None => (Err (Io stage "entity not found"), d)
                          end) untorn;
  io_result r.
(** [fs::remove_file]; a missing file is the answer [false]. *)
Definition remove_file_if_exists (p : path) (stage : string) : io bool :=
  syscall stage (λ d, (bool_decide (is_Some (d !! p)), delete p d)) untorn.

(** The reads of one phase: they see the disk and change nothing. *)
Definition io_read {A} (stage : string) (f : disk → result A) : io A :=
  r ← syscall stage (λ d, (f d, d)) untorn; io_result r.

(** ** Helpers of [file.rs] *)

Definition sync_directory (p : path) (fsync : bool) (stage : string) : io unit :=
  if fsync then sync_all stage else mret tt.

Definition complete_rename_durability (from to : path) (fsync : bool) (stage : string)
    : io unit :=
  if fsync then io_each (λ p, sync_directory p true stage)
                  (elements (list_to_set [parent from; parent to] : gset path))
  else mret tt.

Definition atomic_write (p : path) (b : bytes) (fsync : bool) (stage : string) : io unit :=
  let tmp := with_extension p "tmp" in
  _ ← create_dir_all (parent p) stage;
  _ ← file_create tmp stage;
  _ ← write_all tmp b stage;
  _ ← (if fsync then sync_all stage else mret tt : io unit);
  _ ← rename tmp p stage;
  complete_rename_durability tmp p fsync stage.

Definition read_file_bounded (d : disk) (p : path) (max_bytes : N) (stage : string)
    : result (option bytes) :=
  match d !! p with
  | None => Ok None
  | Some b =>
      _ ← ensure (len b <=? max_bytes)
            (Config stage ("file bytes " +:+ pretty (len b) +:+ " exceed remaining budget "
                           +:+ pretty max_bytes));
      let taken := take (N.to_nat (saturating_add max_bytes 1)) b in
      _ ← ensure (len taken <=? max_bytes)
            (Config stage ("streamed file bytes " +:+ pretty (len taken)
                           +:+ " exceed remaining budget " +:+ pretty max_bytes));
      Ok (Some taken)
  end.

(** ** Directories *)

(** The names of the entries of a directory that are files. *)
Definition file_names (d : disk) (dir : path) : list string :=
  omap (λ p, if decide (parent p = dir) then last p else None) (map_to_list d).*1.

(** The components after [dir] in the paths below it. *)
Definition below (dir p : path) : option path :=
  if decide (take (length dir) p = dir) then Some (drop (length dir) p) else None.

(** The names of the entries of a directory that are directories with files. *)
Definition directory_names (d : disk) (dir : path) : list string :=
  remove_dups (omap (λ p, match below dir p with
                          | Some (name :: _ :: _) => Some name
                          | _ => None
                          end) (map_to_list d).*1).

(** ** Reasoning about interrupted programs *)

Definition spec {A} (strict : Prop) (P : disk → Prop) (m : io A) (Q : A → disk → Prop)
    (E : disk → Prop) : Prop :=
  ∀ faults d, P d →
    match m faults d with
    | (Done a, (faults', d')) => Q a d' ∧ (faults = [] → faults' = [])
    | (_, (_, d')) => E d' ∧ (strict → faults ≠ [])
    end.


Lemma spec_ret {A : Type} strict P (Q : A → disk → Prop) E (a : A) :
  (∀ d, P d → Q a d) → spec strict P (mret a) Q E.
Proof. intros H faults d Hd. split; [by apply H|done]. Qed.

Lemma spec_bind {A B : Type} strict P (m : io A) (R : A → disk → Prop) (f : A → io B) Q E :
  spec strict P m R E → (∀ a, spec strict (R a) (f a) Q E) →
  spec strict P (m ≫= f) Q E.
Proof.
  intros Hm Hf faults d Hd. specialize (Hm faults d Hd).
  unfold mbind, io_bind. destruct (m faults d) as [[a|e|] [faults' d']]; [|done|done].
  destruct Hm as [HR Hn]. specialize (Hf a faults' d' HR).
  destruct (f a faults' d') as [[b|e|] [faults'' d'']]; destruct Hf as [H1 H2];
    (split; [done|]); intros H; [by apply H2, Hn|..]; intros ->; by apply H2, Hn.
Qed.

Lemma spec_conseq {A : Type} strict strict' P P' (m : io A) (Q Q' : A → disk → Prop) E E' :
  spec strict P' m Q' E' → (strict' → strict) → (∀ d, P d → P' d) →
  (∀ a d, Q' a d → Q a d) → (∀ d, E' d → E d) → spec strict' P m Q E.
Proof.
  intros H Hs HP HQ HE faults d Hd. specialize (H faults d (HP d Hd)).
  destruct (m faults d) as [[a|e|] [faults' d']]; destruct H as [H1 H2]; split; auto.
Qed.

Lemma spec_syscall {A : Type} strict P stage (effect : disk → A * disk) torn Q E :
  (∀ d, P d → Q (effect d).1 (effect d).2) → (∀ d n, P d → E (torn n d)) →
  spec strict P (syscall stage effect torn) Q E.
Proof.
  intros HQ HE faults d Hd. unfold syscall. specialize (HQ d Hd).
  destruct faults as [|[] faults]; try (destruct (effect d); by split);
    by split; [apply HE|].
Qed.

Lemma spec_result {A : Type} strict P (r : result A) Q E :
  (∀ a d, P d → r = Ok a → Q a d) → (∀ e d, P d → r = Err e → E d ∧ ¬ strict) →
  spec strict P (io_result r) Q E.
Proof.
  intros HQ HE faults d Hd. unfold io_result. destruct r as [a|e]; [by split; auto|].
  destruct (HE e d Hd eq_refl). split; [done|]. intros ?. done.
Qed.

Lemma spec_read {A : Type} strict P stage (f : disk → result A) Q E :
  (∀ a d, P d → f d = Ok a → Q a d) → (∀ e d, P d → f d = Err e → ¬ strict) →
  (∀ d, P d → E d) → spec strict P (io_read stage f) Q E.
Proof.
  intros HQ HF HE. unfold io_read.
  eapply spec_bind with (R := λ r d, P d ∧ f d = r).
  - apply spec_syscall; auto.
  - intros r. apply spec_result; intros ? d [Hd <-] Hr; eauto.
Qed.

(** A precondition that holds may be assumed, and pure facts kept. *)
Lemma spec_pre {A : Type} strict P (m : io A) Q E :
  (∀ d0, P d0 → spec strict (eq d0) m Q E) → spec strict P m Q E.
Proof. intros H faults d Hd. by apply (H d Hd). Qed.

Lemma spec_each {A : Type} strict (I : list A → disk → Prop) (f : A → io unit) E l :
  (∀ done_ a rest, l = done_ ++ a :: rest →
     spec strict (I done_) (f a) (λ _, I (done_ ++ [a])) E) →
  spec strict (I []) (io_each f l) (λ _, I l) E.
Proof.
  intros H. enough (G : ∀ done_ rest, l = done_ ++ rest →
    spec strict (I done_) (io_each f rest) (λ _, I l) E) by (by apply (G [] l)).
  intros done_ rest. revert done_. induction rest as [|a rest IH]; intros done_ ->; cbn.
  - rewrite app_nil_r. by apply spec_ret.
  - eapply spec_bind; [by eapply H|]. intros []. apply IH. by rewrite <- app_assoc.
Qed.

(** A program without faults that is specified strictly returns. *)
Lemma spec_total {A : Type} P (m : io A) Q E d :
  spec True P m Q E → P d → ∃ a d', m [] d = (Done a, ([], d')) ∧ Q a d'.
Proof.
  intros H Hd. specialize (H [] d Hd).
  destruct (m [] d) as [[a|e|] [faults' d']]; destruct H as [H1 H2].
  - exists a, d'. by rewrite H2.
  - by destruct H2.
  - by destruct H2.
Qed.

(** ** Disks up to temporary files *)

Definition same_files (d d' : disk) : Prop :=
  ∀ p, is_orphan_tmp_path p = false → d !! p = d' !! p.
Notation "d ≈ d'" := (same_files d d') (at level 70) : beetle_scope.
Local Open Scope beetle_scope.

#[global] Instance same_files_equivalence : Equivalence same_files.
Proof.
  split.
  - by intros d p.
  - intros d d' H p Hp. by rewrite H.
  - intros d1 d2 d3 H1 H2 p Hp. by rewrite H1, H2.
Qed.

#[global] Instance same_files_insert p b : Proper (same_files ==> same_files) (insert p b).
Proof.
  intros d d' H q Hq. destruct (decide (p = q)) as [->|].
  - by rewrite !lookup_insert_eq.
  - rewrite !lookup_insert_ne by done. by apply H.
Qed.

#[global] Instance same_files_delete p : Proper (same_files ==> same_files) (delete p).
Proof.
  intros d d' H q Hq. destruct (decide (p = q)) as [->|].
  - by rewrite !lookup_delete_eq.
  - rewrite !lookup_delete_ne by done. by apply H.
Qed.

Lemma same_files_insert_tmp d p b : is_orphan_tmp_path p = true → <[p := b]> d ≈ d.
Proof. intros Hp q Hq. rewrite lookup_insert_ne by congruence. done. Qed.

Lemma same_files_delete_tmp d p : is_orphan_tmp_path p = true → delete p d ≈ d.
Proof. intros Hp q Hq. rewrite lookup_delete_ne by congruence. done. Qed.

Lemma same_files_content d d' p :
  d ≈ d' → is_orphan_tmp_path p = false → content d p = content d' p.
Proof. intros H Hp. unfold content. f_equal. by apply H. Qed.

(** ** Names *)

Lemma last_dot_app stem ext :
  last_dot ext = None → last_dot (stem +:+ String "." ext) = Some (stem, ext).
Proof.
  intros He. induction stem as [|c stem IH].
  - change ("" +:+ String "." ext) with (String "." ext). cbn [last_dot]. by rewrite He.
  - change (String c stem +:+ String "." ext) with (String c (stem +:+ String "." ext)).
    cbn [last_dot]. by rewrite IH.
Qed.

Lemma last_dot_eq name before after :
  last_dot name = Some (before, after) →
  name = before +:+ String "." after ∧ last_dot after = None.
Proof.
  revert before. induction name as [|c name IH]; intros before H; cbn in H; [done|].
  destruct (last_dot name) as [[b a]|] eqn:E.
  - simplify_eq. by destruct (IH _ eq_refl) as [-> ?].
  - case_bool_decide; simplify_eq. by split.
Qed.

Lemma dotted_not_dots stem ext :
  stem ≠ "" → last_dot ext = None → ext ≠ "" → stem +:+ String "." ext ≠ "..".
Proof.
  intros Hs He Hne H. apply (f_equal last_dot) in H. rewrite last_dot_app in H by done.
  cbn in H. injection H as _ He'. by destruct Hne.
Qed.

Lemma extension_app stem ext :
  stem ≠ "" → last_dot ext = None → ext ≠ "" →
  extension (stem +:+ String "." ext) = Some ext ∧ file_stem (stem +:+ String "." ext) = stem.
Proof.
  intros Hs He Hne. unfold extension, file_stem.
  rewrite bool_decide_eq_false_2 by (by apply dotted_not_dots).
  rewrite last_dot_app by done. by destruct stem.
Qed.

Lemma file_stem_nonempty name : name ≠ "" → file_stem name ≠ "".
Proof.
  intros H. unfold file_stem. case_bool_decide; [done|].
  destruct (last_dot name) as [[[|c b] a]|]; done.
Qed.

Lemma with_extension_tmp p name :
  last p = Some name → name ≠ "" → is_orphan_tmp_path (with_extension p "tmp") = true.
Proof.
  intros Hl Hn. unfold with_extension, is_orphan_tmp_path, path_extension. rewrite Hl.
  rewrite last_snoc. cbn [mbind option_bind].
  destruct (extension_app (file_stem name) "tmp") as [-> _]; [|done..].
  by apply file_stem_nonempty.
Qed.

(** ** Atomic replacement of a file *)

(** A path the engine writes atomically: it is not itself temporary. *)
Definition stable (p : path) : Prop :=
  is_orphan_tmp_path p = false ∧ ∃ name, last p = Some name ∧ name ≠ "".

Lemma spec_noop strict P stage (Q : unit → disk → Prop) E :
  (∀ d, P d → Q tt d) → (∀ d, P d → E d) →
  spec strict P (syscall stage (λ d, (tt, d)) untorn) Q E.
Proof. intros HQ HE. apply spec_syscall; auto. Qed.

Lemma spec_sync_directory strict p fsync stage P E :
  (∀ d, P d → E d) → spec strict P (sync_directory p fsync stage) (λ _, P) E.
Proof.
  intros HE. unfold sync_directory. destruct fsync; [by apply spec_noop|by apply spec_ret].
Qed.

Lemma spec_rename_durability strict from to fsync stage P E :
  (∀ d, P d → E d) →
  spec strict P (complete_rename_durability from to fsync stage) (λ _, P) E.
Proof.
  intros HE. unfold complete_rename_durability. destruct fsync; [|by apply spec_ret].
  apply (spec_each strict (λ _, P)). intros. by apply spec_sync_directory.
Qed.

(** An atomic write replaces the file or leaves it as it was. *)
Lemma atomic_write_spec strict d0 p b fsync stage :
  stable p →
  spec strict (λ d, d ≈ d0) (atomic_write p b fsync stage) (λ _ d, d ≈ <[p := b]> d0)
    (λ d, d ≈ d0 ∨ d ≈ <[p := b]> d0).
Proof.
  intros [Hp (name & Hl & Hn)]. unfold atomic_write.
  pose proof (with_extension_tmp p name Hl Hn) as Ht. set (tmp := with_extension p "tmp") in *.
  eapply spec_bind with (R := λ _ d, d ≈ d0); [apply spec_noop; auto|]. intros _.
  eapply spec_bind with (R := λ _ d, d ≈ d0 ∧ d !! tmp = Some []).
  { apply spec_syscall; cbn; [|by left]. intros d Hd.
    split; [by rewrite same_files_insert_tmp|by rewrite lookup_insert_eq]. }
  intros _. eapply spec_bind with (R := λ _ d, d ≈ d0 ∧ d !! tmp = Some b).
  { apply spec_syscall; cbn; intros d; [|intros n]; intros [Hd Hc].
    - split; [by rewrite same_files_insert_tmp|].
      rewrite lookup_insert_eq. unfold content. by rewrite Hc.
    - left. by rewrite same_files_insert_tmp. }
  intros _. eapply spec_bind with (R := λ _ d, d ≈ d0 ∧ d !! tmp = Some b).
  { destruct fsync; [apply spec_noop; [auto|]; by intros d []; left|by apply spec_ret]. }
  intros _. eapply spec_bind with (R := λ _ d, d ≈ <[p := b]> d0).
  { unfold rename. eapply spec_bind with (R := λ r d, r = Ok tt ∧ d ≈ <[p := b]> d0).
    - apply spec_syscall; cbn; [|by intros d ? []; left]. intros d [Hd ->]. split; [done|].
      by rewrite same_files_delete_tmp, Hd by done.
    - intros r. apply spec_result; [by intros [] d []|]. by intros e d [-> _]. }
  intros _. apply spec_rename_durability. by right.
Qed.

Lemma spec_remove strict d0 p stage :
  spec strict (λ d, d ≈ d0) (remove_file_if_exists p stage) (λ _ d, d ≈ delete p d0)
    (λ d, d ≈ d0).
Proof. apply spec_syscall; cbn; [|done]. intros d Hd. by rewrite Hd. Qed.
