(* ===== verification/FileAddress.v ===== *)
(** * File engine: physical addresses

    The addressing of [crates/sdk/src/store_internal/file.rs]: a document is
    stored under a digest of its lane, namespace and key, next to an index file
    that records the logical key; the legacy layout used the key in
    hexadecimal.  Path components are taken literally, so [.] and [..] are
    names like any other here.  Error messages leave out the value that the
    code prints with [{:?}]. *)

From S2P Require Import Prelude RustStr StoreTypes StoreTransaction FileSystem.
From Stdlib Require Import Ascii.

Local Open Scope string_scope.
Local Open Scope list_scope.
Local Open Scope N_scope.

(** ** Hexadecimal *)

Definition hex_digit (n : N) : ascii :=
  ascii_of_N (if n <? 10 then 48 + n else 87 + n).

(** [write!("{byte:02x}")] for every byte. *)
Fixpoint hex_encode (s : string) : string :=
  match s with
  | EmptyString => ""
  | String c rest =>
      String (hex_digit (byte_of c / 16))
        (String (hex_digit (byte_of c mod 16)) (hex_encode rest))
  end.

(** [char::to_digit(16)] *)
Definition to_digit (c : ascii) : option N :=
  let b := byte_of c in
  if (48 <=? b) && (b <=? 57) then Some (b - 48)
  else if (97 <=? b) && (b <=? 102) then Some (b - 87)
  else if (65 <=? b) && (b <=? 70) then Some (b - 55)
  else None.

(** [u8::from_str_radix] of two characters: a leading [+] is accepted. *)
Definition byte_from_hex (a b : ascii) : option ascii :=
  if bool_decide (a = "+"%char) then ascii_of_N <$> to_digit b
  else h ← to_digit a; l ← to_digit b; Some (ascii_of_N (16 * h + l)).

Definition in_range (lo hi : N) (c : ascii) : bool :=
  (lo <=? byte_of c) && (byte_of c <=? hi).
Definition continuation : ascii → bool := in_range 128 191.

(** Well-formed UTF-8 (the Unicode table of byte sequences). *)
Fixpoint is_utf8 (s : string) : bool :=
  match s with
  | EmptyString => true
  | String a s1 =>
    if byte_of a <=? 127 then is_utf8 s1 else
    match s1 with
    | EmptyString => false
    | String b s2 =>
      if in_range 194 223 a then continuation b && is_utf8 s2 else
      match s2 with
      | EmptyString => false
      | String c s3 =>
        if in_range 224 239 a then
          in_range (if byte_of a =? 224 then 160 else 128)
                   (if byte_of a =? 237 then 159 else 191) b
          && continuation c && is_utf8 s3
        else
        match s3 with
        | EmptyString => false
        | String d s4 =>
            in_range 240 244 a
            && in_range (if byte_of a =? 240 then 144 else 128)
                        (if byte_of a =? 244 then 143 else 191) b
            && continuation c && continuation d && is_utf8 s4
        end
      end
    end
  end.

(** The bytes of the chunks of two characters. *)
Fixpoint hex_decode_bytes (s : string) : option string :=
  match s with
  | EmptyString => Some ""
  | String _ EmptyString => None
  | String a (String b rest) =>
      c ← byte_from_hex a b; r ← hex_decode_bytes rest; Some (String c r)
  end.

Definition hex_decode_to_string (s : string) : option string :=
  if negb (str_len s mod 2 =? 0) then None
  else b ← hex_decode_bytes s; if is_utf8 b then Some b else None.

(** ** Digests *)

Definition fnv_prime : N := 1099511628211.          (* 0x0000_0100_0000_01b3 *)
Definition wrapping_mul (a b : N) : N := (a * b) mod 2 ^ 64.

Definition digest_byte (hash byte : N) : N := wrapping_mul (N.lxor hash byte) fnv_prime.

Definition str_bytes (s : string) : list N := byte_of <$> String.list_ascii_of_string s.

Definition digest_parts (seed : N) (parts : list string) : N :=
  foldl (λ hash part, digest_byte (foldl digest_byte hash (str_bytes part)) 255) seed parts.

(** [{:016x}] of a [u64] *)
Fixpoint hex_digits (k : nat) (n : N) : string :=
  match k with
  | O => ""
  | S k => String (hex_digit ((n / 16 ^ N.of_nat k) mod 16)) (hex_digits k n)
  end.

Definition physical_key_digest (lane namespace key : string) (hex_chars : N) : string :=
  let first := digest_parts 14695981039346656037          (* 0xcbf2_9ce4_8422_2325 *)
                 ["bm-store-file-v2"; lane; namespace; key] in
  let second := digest_parts 9521211207457086692           (* 0x8422_2325_cbf2_9ce4 *)
                  ["bm-store-file-v2-key"; key; namespace; lane] in
  String.substring 0 (N.to_nat hex_chars) (hex_digits 16 first +:+ hex_digits 16 second).

(** ** The engine *)

Record StorePathBudget := {
  max_file_name_bytes : N;
  max_directory_name_bytes : N;
  max_relative_path_bytes : N;
  physical_key_digest_hex_chars : N;
}.

Definition esp_compact : StorePathBudget :=
  {| max_file_name_bytes := 32; max_directory_name_bytes := 48;
     max_relative_path_bytes := 160; physical_key_digest_hex_chars := 24 |}.
Definition linux_device : StorePathBudget :=
  {| max_file_name_bytes := 64; max_directory_name_bytes := 64;
     max_relative_path_bytes := 384; physical_key_digest_hex_chars := 24 |}.

(** [root] is the origin of all paths; the lock timeout and the gates only
    delay a critical section. *)
Record FileStoreEngine := {
  file_fsync : bool;
  file_capacity : StoreCapacityBudget;
  path_budget : StorePathBudget;
  file_admission_authority : StoreAdmissionAuthority;
}.

Definition FILE_ADDRESSING_VERSION : N := 2.
Definition FILE_ADDRESSING_DATA_DIR := "_v2".
Definition FILE_ADDRESSING_INDEX_DIR := "_keys".
Definition MIN_PHYSICAL_DIGEST_HEX_CHARS : N := 16.
Definition MAX_PHYSICAL_DIGEST_HEX_CHARS : N := 32.
Definition TRANSACTION_LOCK_FILE := ".beetle-memory.lock".
Definition TRANSACTION_MARKER_FILE := ".beetle-memory.transaction".
Definition TRANSACTION_REPAIR_REQUIRED_STAGE := "memory_write_transaction_repair_required".

Record PhysicalKeyPaths := {
  data_path : path;
  index_path : path;
  legacy_path : path;
}.

Definition has_slash (s : string) : bool :=
  existsb (λ c, bool_decide (c = "/"%char) || bool_decide (c = "\"%char))
    (String.list_ascii_of_string s).

Section Engine.
Context (engine : FileStoreEngine).

Definition validate_addressing_budget (ext stage : string) : result unit :=
  let b := path_budget engine in
  let digest_chars := physical_key_digest_hex_chars b in
  _ ← ensure ((MIN_PHYSICAL_DIGEST_HEX_CHARS <=? digest_chars)
              && (digest_chars <=? MAX_PHYSICAL_DIGEST_HEX_CHARS))
        (Config stage ("physical key digest hex chars " +:+ pretty digest_chars
                       +:+ " outside 16..=32"));
  ensure (negb ((max_file_name_bytes b <? digest_chars + 1 + str_len ext)
                || (max_file_name_bytes b <? digest_chars + 1 + 4)))
    (Config stage ("physical key digest length exceeds file name budget "
                   +:+ pretty (max_file_name_bytes b))).

Definition validate_directory_component (value stage : string) : result unit :=
  _ ← ensure (negb (is_empty value || has_slash value))
        (Config stage "invalid file store directory component");
  ensure (str_len value <=? max_directory_name_bytes (path_budget engine))
    (Config stage ("directory component exceeds "
                   +:+ pretty (max_directory_name_bytes (path_budget engine)) +:+ " bytes")).

Definition validate_file_name (value stage : string) : result unit :=
  _ ← ensure (negb (is_empty value || has_slash value))
        (Config stage "invalid file store file name");
  ensure (str_len value <=? max_file_name_bytes (path_budget engine))
    (Config stage ("file name exceeds "
                   +:+ pretty (max_file_name_bytes (path_budget engine)) +:+ " bytes")).

Definition validate_relative_path (value stage : string) : result unit :=
  ensure (str_len value <=? max_relative_path_bytes (path_budget engine))
    (Config stage ("relative file store path exceeds "
                   +:+ pretty (max_relative_path_bytes (path_budget engine)) +:+ " bytes")).

Definition physical_key_paths (lane namespace key ext : string) : result PhysicalKeyPaths :=
  let stage := "file_store_addressing" in
  _ ← enforce_logical_key_budget (file_capacity engine) namespace key stage;
  _ ← validate_addressing_budget ext stage;
  let digest := physical_key_digest lane namespace key
                  (physical_key_digest_hex_chars (path_budget engine)) in
  let shard := String.substring 0 2 digest in
  let data_file_name := digest +:+ String "." ext in
  let index_file_name := digest +:+ ".json" in
  _ ← validate_directory_component lane stage;
  _ ← validate_directory_component namespace stage;
  _ ← validate_directory_component FILE_ADDRESSING_DATA_DIR stage;
  _ ← validate_directory_component FILE_ADDRESSING_INDEX_DIR stage;
  _ ← validate_directory_component shard stage;
  _ ← validate_file_name data_file_name stage;
  _ ← validate_file_name index_file_name stage;
  _ ← validate_relative_path (lane +:+ "/" +:+ namespace +:+ "/" +:+ FILE_ADDRESSING_DATA_DIR
        +:+ "/" +:+ shard +:+ "/" +:+ data_file_name) stage;
  _ ← validate_relative_path (lane +:+ "/" +:+ namespace +:+ "/" +:+ FILE_ADDRESSING_INDEX_DIR
        +:+ "/" +:+ shard +:+ "/" +:+ index_file_name) stage;
  Ok {| data_path := [lane; namespace; FILE_ADDRESSING_DATA_DIR; shard; data_file_name];
        index_path := [lane; namespace; FILE_ADDRESSING_INDEX_DIR; shard; index_file_name];
        legacy_path := [lane; namespace; hex_encode key +:+ String "." ext] |}.

Definition json_paths (namespace key : string) : result PhysicalKeyPaths :=
  physical_key_paths "kv" namespace key "json".
Definition blob_paths (namespace key : string) : result PhysicalKeyPaths :=
  physical_key_paths "blob" namespace key "bin".

End Engine.

Definition events_path : path := ["events"; "events.jsonl"].
Definition transaction_marker_path : path := [TRANSACTION_MARKER_FILE].
Definition manifest_path : path := ["manifest.json"].

(** ** Facts *)

Lemma below_16 (P : N → Prop) :
  Forall P [0; 1; 2; 3; 4; 5; 6; 7; 8; 9; 10; 11; 12; 13; 14; 15] → ∀ n, n < 16 → P n.
Proof.
  rewrite Forall_forall. intros H n Hn. apply H. rewrite !elem_of_cons, elem_of_nil. lia.
Qed.

Lemma hex_digit_to_digit n : n < 16 → to_digit (hex_digit n) = Some n.
Proof. revert n. apply below_16. repeat constructor. Qed.

Lemma hex_digit_plain n : n < 16 → hex_digit n ≠ "+"%char ∧ hex_digit n ≠ "."%char.
Proof. revert n. apply below_16. repeat constructor; discriminate. Qed.

Lemma byte_of_bound c : byte_of c < 256.
Proof. apply N_ascii_bounded. Qed.

Lemma byte_of_digits c : ascii_of_N (16 * (byte_of c / 16) + byte_of c mod 16) = c.
Proof.
  rewrite <- (N.div_mod (byte_of c) 16) by done. apply ascii_N_embedding.
Qed.

Lemma hex_digit_bounds c : byte_of c / 16 < 16 ∧ byte_of c mod 16 < 16.
Proof.
  pose proof (byte_of_bound c). split; [apply N.Div0.div_lt_upper_bound; lia|].
  by apply N.mod_lt.
Qed.

Lemma hex_decode_encode_bytes s : hex_decode_bytes (hex_encode s) = Some s.
Proof.
  induction s as [|c s IH]; [done|]. cbn [hex_encode hex_decode_bytes].
  destruct (hex_digit_bounds c) as [Hh Hl]. unfold byte_from_hex.
  rewrite bool_decide_eq_false_2 by (by apply hex_digit_plain).
  rewrite !hex_digit_to_digit by done. cbn [mbind option_bind].
  by rewrite IH, byte_of_digits.
Qed.

Lemma str_len_hex s : str_len (hex_encode s) = 2 * str_len s.
Proof.
  unfold str_len. induction s as [|c s IH]; [done|]. cbn [hex_encode String.length]. lia.
Qed.

Lemma hex_encode_inj s t : hex_encode s = hex_encode t → s = t.
Proof.
  intros H%(f_equal hex_decode_bytes). rewrite !hex_decode_encode_bytes in H. congruence.
Qed.

Lemma hex_decode_encode s :
  is_utf8 s = true → hex_decode_to_string (hex_encode s) = Some s.
Proof.
  intros Hs. unfold hex_decode_to_string. rewrite str_len_hex.
  rewrite (N.mul_comm 2), N.Div0.mod_mul. cbn [negb N.eqb].
  rewrite hex_decode_encode_bytes. cbn [mbind option_bind]. by rewrite Hs.
Qed.

(** Hexadecimal names have no dot. *)
Lemma hex_encode_no_dot s : last_dot (hex_encode s) = None.
Proof.
  induction s as [|c s IH]; [done|]. destruct (hex_digit_bounds c) as [Hh Hl].
  cbn [hex_encode last_dot]. rewrite IH.
  rewrite !bool_decide_eq_false_2 by (by apply hex_digit_plain). done.
Qed.

Lemma hex_digits_length k n : String.length (hex_digits k n) = k.
Proof. induction k as [|k IH]; [done|]. cbn [hex_digits String.length]. by rewrite IH. Qed.

Lemma no_dot_app s t : last_dot s = None → last_dot t = None → last_dot (s +:+ t) = None.
Proof.
  intros Hs Ht. induction s as [|c s IH]; [done|].
  change (String c s +:+ t) with (String c (s +:+ t)). cbn [last_dot] in Hs |- *.
  destruct (last_dot s) as [[]|]; [done|]. rewrite (IH eq_refl).
  by case_bool_decide.
Qed.

Lemma no_dot_prefix n s : last_dot s = None → last_dot (String.substring 0 n s) = None.
Proof.
  revert n. induction s as [|c s IH]; intros [|n] Hs; try done.
  cbn [String.substring last_dot] in Hs |- *.
  destruct (last_dot s) as [[]|] eqn:E; [done|]. rewrite (IH n eq_refl).
  by case_bool_decide.
Qed.

Lemma no_dot_hex_digits k n : last_dot (hex_digits k n) = None.
Proof.
  induction k as [|k IH]; [done|]. cbn [hex_digits last_dot]. rewrite IH.
  rewrite bool_decide_eq_false_2; [done|]. apply hex_digit_plain. by apply N.mod_lt.
Qed.

Lemma digest_no_dot lane ns k n : last_dot (physical_key_digest lane ns k n) = None.
Proof. apply no_dot_prefix, no_dot_app; apply no_dot_hex_digits. Qed.

Lemma substring_nonempty n s :
  (0 < n)%nat → s ≠ "" → String.substring 0 n s ≠ "".
Proof. destruct n, s; try done; lia. Qed.

Lemma digest_nonempty lane ns k n : 0 < n → physical_key_digest lane ns k n ≠ "".
Proof. intros Hn. apply substring_nonempty; [lia|]. done. Qed.

(** ** Lanes *)

Inductive Lane := KV | BLOB.

Definition lane_name (l : Lane) : string := match l with KV => "kv" | BLOB => "blob" end.
Definition lane_ext (l : Lane) : string := match l with KV => "json" | BLOB => "bin" end.

Section Lanes.
Context (engine : FileStoreEngine).

(** The paths of an address, without the checks on its size. *)
Definition slot_paths (l : Lane) (a : address) : PhysicalKeyPaths :=
  let digest := physical_key_digest (lane_name l) a.1 a.2
                  (physical_key_digest_hex_chars (path_budget engine)) in
  let shard := String.substring 0 2 digest in
  {| data_path := [lane_name l; a.1; FILE_ADDRESSING_DATA_DIR; shard;
                   digest +:+ String "." (lane_ext l)];
     index_path := [lane_name l; a.1; FILE_ADDRESSING_INDEX_DIR; shard; digest +:+ ".json"];
     legacy_path := [lane_name l; a.1; hex_encode a.2 +:+ String "." (lane_ext l)] |}.

(** The digest lengths [validate_addressing_budget] accepts. *)
Definition addressing_ok : Prop :=
  MIN_PHYSICAL_DIGEST_HEX_CHARS ≤ physical_key_digest_hex_chars (path_budget engine).

Lemma physical_key_paths_ok l a ps :
  physical_key_paths engine (lane_name l) a.1 a.2 (lane_ext l) = Ok ps →
  ps = slot_paths l a ∧ addressing_ok.
Proof.
  unfold physical_key_paths. intros H. inv_ok. split; [done|].
  match goal with E : validate_addressing_budget _ _ _ = Ok _ |- _ => revert E end.
  unfold validate_addressing_budget. intros E'. inv_ok. by split_bool.
Qed.

Lemma lane_ext_plain l : last_dot (lane_ext l) = None ∧ lane_ext l ≠ "" ∧ lane_ext l ≠ "tmp".
Proof. by destruct l. Qed.

(** Two addresses share their data file exactly when they share the
    namespace and the digest; then they share the index file too. *)
Lemma slot_collision l a b :
  data_path (slot_paths l a) = data_path (slot_paths l b) ↔
  index_path (slot_paths l a) = index_path (slot_paths l b).
Proof.
  destruct (lane_ext_plain l) as [He _]. cbn.
  split; intros H; injection H as Hn _ Hd; rewrite Hn in *;
    apply (f_equal last_dot) in Hd; rewrite !last_dot_app in Hd by (done || apply He);
    injection Hd as Hd; by rewrite Hd.
Qed.

Lemma slot_namespace l a b :
  data_path (slot_paths l a) = data_path (slot_paths l b) → a.1 = b.1.
Proof. cbn. congruence. Qed.

Lemma legacy_path_inj l a b :
  legacy_path (slot_paths l a) = legacy_path (slot_paths l b) → a = b.
Proof.
  destruct (lane_ext_plain l) as [He _]. cbn. intros H. injection H as Hn Hd.
  apply (f_equal last_dot) in Hd. rewrite !last_dot_app in Hd by done.
  injection Hd as Hd%hex_encode_inj. destruct a, b; cbn in *; congruence.
Qed.

Lemma slot_stable l a :
  addressing_ok →
  stable (data_path (slot_paths l a)) ∧ stable (index_path (slot_paths l a)).
Proof.
  intros Hok. destruct (lane_ext_plain l) as (He & Hne & Ht).
  set (digest := physical_key_digest (lane_name l) a.1 a.2
                   (physical_key_digest_hex_chars (path_budget engine))).
  assert (Hd : digest ≠ "").
  { apply digest_nonempty. unfold addressing_ok, MIN_PHYSICAL_DIGEST_HEX_CHARS in Hok. lia. }
  assert (Happ : ∀ t, digest +:+ t ≠ "") by (intros t; by destruct digest).
  split; (split; [|eexists; split; [reflexivity|apply Happ]]);
    apply bool_decide_eq_false_2; unfold path_extension; cbn [last slot_paths data_path index_path mbind option_bind];
    fold digest.
  - destruct (extension_app digest (lane_ext l)) as [-> _]; [done..|]. congruence.
  - destruct (extension_app digest "json") as [-> _]; done.
Qed.

(** The files of one lane, and which of them belong to one address. *)
Lemma slot_distinct l l' a b :
  data_path (slot_paths l a) ≠ index_path (slot_paths l' b)
  ∧ data_path (slot_paths l a) ≠ legacy_path (slot_paths l' b)
  ∧ index_path (slot_paths l a) ≠ legacy_path (slot_paths l' b).
Proof. by split_and!; cbn; intros H; simplify_eq. Qed.

Lemma lane_distinct p q a b :
  p ∈ [data_path (slot_paths KV a); index_path (slot_paths KV a); legacy_path (slot_paths KV a)] →
  q ∈ [data_path (slot_paths BLOB b); index_path (slot_paths BLOB b); legacy_path (slot_paths BLOB b)] →
  p ≠ q.
Proof.
  rewrite !elem_of_cons, !elem_of_nil. cbn.
  by intros [->|[->|[->|[]]]] [->|[->|[->|[]]]] H; simplify_eq.
Qed.

End Lanes.
