(* ===== verification/FileJournal.v ===== *)
(** * File engine: the transaction journal and the event log

    The journal records of [crates/sdk/src/store_internal/file.rs] with their
    checksum and address contract, the third-party encodings of everything the
    engine stores ([FileCodec]), and the bounded reader of the JSON-lines event
    log. *)

From S2P Require Import Prelude RustStr StoreTypes StoreTransaction FileSystem FileAddress.

Local Open Scope string_scope.
Local Open Scope list_scope.
Local Open Scope N_scope.

Inductive FileTransactionJournalState := Prepared | Committed.

Inductive FileTransactionEventsImage :=
| Append (prefix_len : N) (events : list MemoryStoreEvent)
| Replace (events : list MemoryStoreEvent).

Record FileKeyIndex := { addressing_version : N; index_key : string }.

Section Journal.
Context {codec : StoreCodec}.

Record FileTransactionJsonValue := {
  jv_namespace : string; jv_key : string; jv_value : option Value;
}.
Record FileTransactionBlobValue := {
  bv_namespace : string; bv_key : string; bv_value : option bytes;
}.
Record FileTransactionImage := {
  image_json : list FileTransactionJsonValue;
  image_blobs : list FileTransactionBlobValue;
  image_events : FileTransactionEventsImage;
}.
Record FileTransactionJournal := {
  journal_schema_version : N;
  journal_transaction_id : string;
  journal_state : FileTransactionJournalState;
  journal_before : FileTransactionImage;
  journal_after : FileTransactionImage;
  journal_checksum : string;
}.

Definition jv_address (e : FileTransactionJsonValue) : address := (jv_namespace e, jv_key e).
Definition bv_address (e : FileTransactionBlobValue) : address := (bv_namespace e, bv_key e).

(** The encodings of [serde_json] and of the derived [Serialize] and
    [Deserialize] instances; [journal_content_to_vec] is the checksummed tuple,
    [has_keys] asks whether a byte string is a JSON object with the keys. *)
Class FileCodec := {
  json_to_vec_pretty : Value → string + bytes;
  json_from_slice : bytes → string + Value;
  key_index_to_vec_pretty : FileKeyIndex → string + bytes;
  key_index_from_slice : bytes → string + FileKeyIndex;
  event_from_slice : bytes → string + MemoryStoreEvent;
  journal_to_vec : FileTransactionJournal → string + bytes;
  journal_from_slice : bytes → string + FileTransactionJournal;
  journal_content_to_vec : N → string → FileTransactionJournalState →
    FileTransactionImage → FileTransactionImage → string + bytes;
  has_keys : bytes → list string → bool;
}.

Definition newline : byte := x0a.

Definition is_ascii_whitespace (b : byte) : bool :=
  bool_decide (b ∈ [x20; x09; x0a; x0c; x0d]).

(** What the engine relies on: decoding inverts encoding, the encoders of
    documents and key indexes do not fail, and a compact record is one
    non-blank line. *)
Class FileCodecLaws {fc : FileCodec} : Prop := {
  json_round_trip v : ∃ b, json_to_vec_pretty v = inr b ∧ json_from_slice b = inr v;
  key_index_round_trip k :
    ∃ b, key_index_to_vec_pretty k = inr b ∧ key_index_from_slice b = inr k;
  event_round_trip e b :
    event_to_vec e = inr b →
    event_from_slice b = inr e ∧ (newline ∉ b) ∧ forallb is_ascii_whitespace b = false;
  journal_round_trip j b : journal_to_vec j = inr b → journal_from_slice b = inr j;
}.

Context {fc : FileCodec}.

Definition decoded {A} (stage : string) (r : string + A) : result A :=
  match r with inl message => Err (Config stage message) | inr a => Ok a end.

(** ** Journals *)

Definition expected_checksum (j : FileTransactionJournal) : result string :=
  b ← decoded "file_store_transaction"
        (journal_content_to_vec (journal_schema_version j) (journal_transaction_id j)
           (journal_state j) (journal_before j) (journal_after j));
  Ok (sha256_digest b).

Definition with_checksum (j : FileTransactionJournal) (checksum : string)
    : FileTransactionJournal :=
  {| journal_schema_version := journal_schema_version j;
     journal_transaction_id := journal_transaction_id j;
     journal_state := journal_state j; journal_before := journal_before j;
     journal_after := journal_after j; journal_checksum := checksum |}.

Definition with_state (j : FileTransactionJournal) (st : FileTransactionJournalState)
    : FileTransactionJournal :=
  {| journal_schema_version := journal_schema_version j;
     journal_transaction_id := journal_transaction_id j;
     journal_state := st; journal_before := journal_before j;
     journal_after := journal_after j; journal_checksum := journal_checksum j |}.

Definition refresh_checksum (j : FileTransactionJournal) : result FileTransactionJournal :=
  checksum ← expected_checksum j; Ok (with_checksum j checksum).

Definition journal_new (id : string) (before after : FileTransactionImage)
    : result FileTransactionJournal :=
  refresh_checksum {| journal_schema_version := 2; journal_transaction_id := id;
                      journal_state := Prepared; journal_before := before;
                      journal_after := after; journal_checksum := "" |}.

Definition verify_checksum (j : FileTransactionJournal) : result unit :=
  expected ← expected_checksum j;
  ensure (bool_decide (journal_checksum j = expected))
    (Config TRANSACTION_REPAIR_REQUIRED_STAGE "file transaction journal checksum mismatch").

(** The addresses of a list of entries, which must not repeat. *)
Definition distinct_addresses (l : list address) (message : string) : result (gset address) :=
  let addresses : gset address := list_to_set l in
  _ ← ensure (N.of_nat (size addresses) =? len l)
        (Config TRANSACTION_REPAIR_REQUIRED_STAGE message);
  Ok addresses.

Definition json_addresses (i : FileTransactionImage) : result (gset address) :=
  distinct_addresses (jv_address <$> image_json i)
    "file transaction journal contains duplicate JSON addresses".
Definition blob_addresses (i : FileTransactionImage) : result (gset address) :=
  distinct_addresses (bv_address <$> image_blobs i)
    "file transaction journal contains duplicate blob addresses".

(** [a || b? != c? || d? != e?], evaluated from the left. *)
Definition address_closure_mismatch (j : FileTransactionJournal) : result bool :=
  if blank (journal_transaction_id j) then Ok true else
  jb ← json_addresses (journal_before j); ja ← json_addresses (journal_after j);
  if negb (bool_decide (jb = ja)) then Ok true else
  bb ← blob_addresses (journal_before j); ba ← blob_addresses (journal_after j);
  Ok (negb (bool_decide (bb = ba))).

Definition validate_image_address_contract (j : FileTransactionJournal) : result unit :=
  mismatch ← address_closure_mismatch j;
  _ ← ensure (negb mismatch)
        (Config TRANSACTION_REPAIR_REQUIRED_STAGE
           "file transaction journal before/after address closure mismatch");
  ensure match image_events (journal_before j), image_events (journal_after j) with
         | Append before _, Append after _ => before =? after
         | Replace _, Replace _ => true
         | _, _ => false
         end
    (Config TRANSACTION_REPAIR_REQUIRED_STAGE
       "file transaction journal event image contract mismatch").

Definition has_complete_journal_shape (b : bytes) : bool :=
  has_keys b ["schema_version"; "transaction_id"; "state"; "before"; "after"; "checksum"].

(** ** The event log *)

Definition push_bounded_event_line (capacity : StoreCapacityBudget)
    (item_stage schema_stage : string) (events : list MemoryStoreEvent) (raw : bytes)
    : result (list MemoryStoreEvent) :=
  if forallb is_ascii_whitespace raw then Ok events else
  _ ← ensure (saturating_add (len events) 1 <=? event_log_max_items capacity)
        (Config item_stage "event items exceed the active aggregate budget");
  e ← decoded schema_stage (event_from_slice raw);
  _ ← validate_current_schema e schema_stage;
  Ok (events ++ [e]).

Definition position_newline (b : bytes) : option nat := fst <$> list_find (λ x, x = newline) b.

Section Reader.
Context (capacity : StoreCapacityBudget) (max_bytes : N) (item_stage byte_stage : string).

Definition byte_budget_error : Error :=
  Config byte_stage "event log line or aggregate bytes exceed operation budget".

(** The reader holds the buffers it will still return; an empty buffer is the
    end of the file.  [None] is fuel exhaustion. *)
Fixpoint read_events_loop (fuel : nat) (buffers : list bytes)
    (events : list MemoryStoreEvent) (line : bytes) (consumed : N)
    : option (result (list MemoryStoreEvent * N)) :=
  match fuel with
  | O => None
  | S fuel =>
    match buffers with
    | [] =>
        Some (events ← (if decide (line = []) then Ok events
                        else push_bounded_event_line capacity item_stage byte_stage events line);
              Ok (events, consumed))
    | buffer :: rest =>
      let '(take_, terminated) :=
        match position_newline buffer with
        | Some index => (S index, true)
        | None => (length buffer, false)
        end in
      match checked_add consumed (N.of_nat take_) with
      | None => Some (Err (store_budget_error "event log aggregate byte count overflow"))
      | Some consumed =>
        let content_len := (take_ - (if terminated : bool then 1 else 0))%nat in
        if (max_bytes <? consumed)
           || (max_bytes <? saturating_add (len line) (N.of_nat content_len))
        then Some (Err byte_budget_error)
        else
          let line := line ++ take content_len buffer in
          let buffers := match drop take_ buffer with [] => rest | b => b :: rest end in
          if terminated : bool then
            match push_bounded_event_line capacity item_stage byte_stage events line with
            | Err e => Some (Err e)
            | Ok events => read_events_loop fuel buffers events [] consumed
            end
          else read_events_loop fuel buffers events line consumed
      end
    end
  end.

(** Every round consumes a byte of a buffer. *)
Definition reader_fuel (buffers : list bytes) : nat := S (sum_list (length <$> buffers)).

Definition read_events_from_reader_bounded (buffers : list bytes)
    : result (list MemoryStoreEvent * N) :=
  default (Err out_of_fuel) (read_events_loop (reader_fuel buffers) buffers [] [] 0).

(** The reference: one byte at a time, whatever the buffers are. *)
Fixpoint read_bytes (b : bytes) (events : list MemoryStoreEvent) (line : bytes) (consumed : N)
    : result (list MemoryStoreEvent * N) :=
  match b with
  | [] =>
      events ← (if decide (line = []) then Ok events
                else push_bounded_event_line capacity item_stage byte_stage events line);
      Ok (events, consumed)
  | x :: b =>
      _ ← ensure (consumed + 1 <=? max_bytes) byte_budget_error;
      if decide (x = newline) then
        events ← push_bounded_event_line capacity item_stage byte_stage events line;
        read_bytes b events [] (consumed + 1)
      else read_bytes b events (line ++ [x]) (consumed + 1)
  end.

End Reader.

(** [BufReader::new(file)]: buffers of at most [n] bytes. *)
Fixpoint buffered (fuel n : nat) (b : bytes) : list bytes :=
  match fuel, b with
  | S fuel, _ :: _ => take n b :: buffered fuel n (drop n b)
  | _, _ => []
  end.
Definition buf_reader (b : bytes) : list bytes := buffered (length b) (N.to_nat 8192) b.

Definition read_events_jsonl_bounded_with_receipt (d : disk) (p : path)
    (capacity : StoreCapacityBudget) (max_bytes : N) (item_stage byte_stage : string)
    : result (list MemoryStoreEvent * N) :=
  match d !! p with
  | None => Ok ([], 0)
  | Some b =>
      _ ← ensure (len b <=? max_bytes)
            (Config byte_stage "runtime metric event bytes exceed the active aggregate budget");
      read_events_from_reader_bounded capacity max_bytes item_stage byte_stage (buf_reader b)
  end.

Definition read_events_jsonl_bounded (d : disk) (p : path) (capacity : StoreCapacityBudget)
    (max_bytes : N) (stage : string) : result (list MemoryStoreEvent) :=
  fst <$> read_events_jsonl_bounded_with_receipt d p capacity max_bytes stage stage.

Definition read_events_jsonl_prefix_bounded (d : disk) (p : path) (prefix_len : N)
    (capacity : StoreCapacityBudget) (max_bytes : N) (stage : string)
    : result (list MemoryStoreEvent) :=
  match d !! p with
  | None => if prefix_len =? 0 then Ok [] else Err (Io stage "entity not found")
  | Some b =>
      _ ← ensure (negb ((len b <? prefix_len) || (max_bytes <? prefix_len)))
            (Config stage ("event journal prefix " +:+ pretty prefix_len
               +:+ " exceeds physical length " +:+ pretty (len b) +:+ " or budget "
               +:+ pretty max_bytes));
      _ ← ensure ((prefix_len =? 0)
                  || bool_decide (b !! N.to_nat (prefix_len - 1) = Some newline))
            (Config stage "event journal prefix must end on an exact JSONL record boundary");
      fst <$> read_events_from_reader_bounded capacity prefix_len stage stage
                (buf_reader (take (N.to_nat prefix_len) b))
  end.

Fixpoint events_jsonl_bytes (l : list MemoryStoreEvent) : result bytes :=
  match l with
  | [] => Ok []
  | e :: rest =>
      b ← decoded "file_store_transaction" (event_to_vec e);
      tail ← events_jsonl_bytes rest;
      Ok (b ++ newline :: tail)
  end.

End Journal.

Arguments FileCodecLaws {codec} fc.

(** * File engine: facts on journals and the event log

    The bounded reader of the event log does not depend on how the file is
    buffered, and reads back exactly what the engine appends. *)

Section Events.
Context {codec : StoreCodec} {fc : FileCodec}.
Context (capacity : StoreCapacityBudget) (max_bytes : N) (item_stage byte_stage : string).

Let read_bytes := read_bytes capacity max_bytes item_stage byte_stage.
Let push := push_bounded_event_line capacity item_stage byte_stage.
Let loop := read_events_loop capacity max_bytes item_stage byte_stage.

(** ** One line at a time *)

Lemma read_bytes_step x b es line c :
  read_bytes (x :: b) es line c =
  if max_bytes <? c + 1 then Err (byte_budget_error byte_stage)
  else if decide (x = newline)
       then es' ← push es line; read_bytes b es' [] (c + 1)
       else read_bytes b es (line ++ [x]) (c + 1).
Proof.
  unfold read_bytes at 1. cbn [FileJournal.read_bytes]. unfold ensure.
  rewrite N.leb_antisym. by destruct (_ <? _).
Qed.

Lemma read_bytes_plain pre b es line c :
  newline ∉ pre → c ≤ max_bytes →
  read_bytes (pre ++ b) es line c =
  if max_bytes <? c + len pre then Err (byte_budget_error byte_stage)
  else read_bytes b es (line ++ pre) (c + len pre).
Proof.
  revert line c. induction pre as [|x pre IH]; intros line c Hn Hc.
  - cbn [app]. rewrite len_nil, N.add_0_r, app_nil_r.
    by destruct (N.ltb_spec max_bytes c); [lia|].
  - apply not_elem_of_cons in Hn as [Hx Hn]. cbn [app].
    rewrite read_bytes_step, len_cons, decide_False by done.
    destruct (N.ltb_spec max_bytes (c + 1)).
    + destruct (N.ltb_spec max_bytes (c + (1 + len pre))); [done|lia].
    + rewrite IH by (done || lia). rewrite <- app_assoc. cbn [app].
      by replace (c + 1 + len pre) with (c + (1 + len pre)) by lia.
Qed.

Lemma read_bytes_line pre b es line c :
  newline ∉ pre → c ≤ max_bytes →
  read_bytes (pre ++ newline :: b) es line c =
  if max_bytes <? c + len pre + 1 then Err (byte_budget_error byte_stage)
  else es' ← push es (line ++ pre); read_bytes b es' [] (c + len pre + 1).
Proof.
  intros Hn Hc. rewrite read_bytes_plain by done.
  destruct (N.ltb_spec max_bytes (c + len pre)).
  - destruct (N.ltb_spec max_bytes (c + len pre + 1)); [done|lia].
  - by rewrite read_bytes_step, decide_True.
Qed.

Lemma position_newline_cases b :
  match position_newline b with
  | Some i => ∃ pre post, b = pre ++ newline :: post ∧ length pre = i ∧ newline ∉ pre
  | None => newline ∉ b
  end.
Proof.
  unfold position_newline. destruct (list_find _ b) as [[i x]|] eqn:E; cbn.
  - apply list_find_Some in E as (Hi & -> & Hmin).
    exists (take i b), (drop (S i) b). pose proof (lookup_lt_Some _ _ _ Hi).
    split_and!.
    + by rewrite <- (take_drop_middle b i newline Hi) at 1.
    + rewrite length_take. lia.
    + intros (j & Hj)%list_elem_of_lookup_1. apply lookup_take_Some in Hj as [Hj ?].
      by apply (Hmin j newline).
  - apply list_find_None in E. rewrite Forall_forall in E. intros H. by apply (E newline).
Qed.

(** ** Buffers *)

Definition buffered_bytes (buffers : list bytes) : nat := sum_list (length <$> buffers).

Lemma concat_length (buffers : list bytes) : length (concat buffers) = buffered_bytes buffers.
Proof.
  induction buffers as [|b l IH]; [done|]. cbn [concat]. rewrite length_app, IH. done.
Qed.

Definition rest_of (n : nat) (buffer : bytes) (rest : list bytes) : list bytes :=
  match drop n buffer with [] => rest | b => b :: rest end.

Lemma rest_of_concat n buffer rest : concat (rest_of n buffer rest) = drop n buffer ++ concat rest.
Proof. unfold rest_of. by destruct (drop n buffer). Qed.

Lemma rest_of_nonempty n buffer rest :
  Forall (λ b : bytes, b ≠ []) rest → Forall (λ b : bytes, b ≠ []) (rest_of n buffer rest).
Proof. unfold rest_of. intros H. destruct (drop n buffer); [done|]. by constructor. Qed.

(** The streaming loop computes the byte-by-byte reference. *)
Lemma read_events_loop_eq fuel buffers es line c :
  max_bytes ≤ usize_max →
  Forall (λ b : bytes, b ≠ []) buffers → (buffered_bytes buffers < fuel)%nat →
  len line ≤ c → c ≤ max_bytes → c + N.of_nat (buffered_bytes buffers) ≤ usize_max →
  loop fuel buffers es line c = Some (read_bytes (concat buffers) es line c).
Proof.
  intros Hmax. revert buffers es line c.
  induction fuel as [|fuel IH]; intros buffers es line c Hne Hf Hl Hc Ht; [lia|].
  destruct buffers as [|buffer rest]; [done|].
  apply Forall_cons in Hne as [Hb Hrest].
  assert (Hlen : buffered_bytes (buffer :: rest) = (length buffer + buffered_bytes rest)%nat) by done.
  rewrite Hlen in Hf, Ht.
  assert (Hcat : ∀ n, buffered_bytes (rest_of n buffer rest)
                      = (length buffer - n + buffered_bytes rest)%nat).
  { intros n. rewrite <- concat_length, rest_of_concat, length_app, length_drop, concat_length. done. }
  assert (Hpos : (0 < length buffer)%nat) by (destruct buffer; [done|cbn; lia]).
  unfold loop. cbn [read_events_loop concat]. pose proof (position_newline_cases buffer) as Hp.
  destruct (position_newline buffer) as [i|].
  - destruct Hp as (pre & post & Hbuf & Hi & Hnl).
    assert (HL : length buffer = (i + 1 + length post)%nat)
      by (rewrite Hbuf, length_app; cbn [length]; lia).
    unfold checked_add. rewrite (proj2 (N.leb_le _ _)) by lia.
    replace (S i - 1)%nat with (length pre) by lia.
    replace (take (length pre) buffer) with pre by (rewrite Hbuf; by rewrite take_app_length).
    replace (concat (buffer :: rest)) with (pre ++ newline :: post ++ concat rest)
      by (cbn; rewrite Hbuf, <- app_assoc; done).
    rewrite Hbuf at 1. rewrite <- app_assoc. cbn [app]. rewrite read_bytes_line by done.
    replace (c + N.of_nat (S i)) with (c + len pre + 1) by (unfold len; lia).
    destruct (N.ltb_spec max_bytes (c + len pre + 1)) as [|Hle]; [done|]. cbn [orb].
    rewrite (proj2 (N.ltb_ge _ _)) by (unfold saturating_add, len in *; lia).
    fold (rest_of (S i) buffer rest).
    change (push_bounded_event_line capacity item_stage byte_stage es (line ++ pre))
      with (push es (line ++ pre)).
    destruct (push es (line ++ pre)) as [es'|]; [|done]. cbn [mbind result_bind].
    fold loop. rewrite IH; [|by apply rest_of_nonempty|rewrite Hcat; lia|rewrite len_nil; lia|done|].
    + rewrite rest_of_concat. f_equal. f_equal. f_equal. rewrite Hbuf.
      replace (S i) with (length (pre ++ [newline])) by (rewrite length_app; cbn; lia).
      change (pre ++ newline :: post) with (pre ++ [newline] ++ post).
      by rewrite app_assoc, drop_app_length.
    + rewrite Hcat. unfold len in *. lia.
  - unfold checked_add. rewrite (proj2 (N.leb_le _ _)) by lia.
    rewrite Nat.sub_0_r, firstn_all. rewrite read_bytes_plain by done.
    change (N.of_nat (length buffer)) with (len buffer).
    destruct (N.ltb_spec max_bytes (c + len buffer)) as [|Hle]; [done|]. cbn [orb].
    rewrite (proj2 (N.ltb_ge _ _)) by (unfold saturating_add; lia).
    fold (rest_of (length buffer) buffer rest). fold loop.
    rewrite IH; [|by apply rest_of_nonempty|rewrite Hcat; lia|rewrite len_app; lia|done|].
    + by rewrite rest_of_concat, drop_all.
    + rewrite Hcat. unfold len in *. lia.
Qed.

Lemma reader_eq buffers :
  max_bytes ≤ usize_max → Forall (λ b : bytes, b ≠ []) buffers →
  len (concat buffers) ≤ usize_max →
  read_events_from_reader_bounded capacity max_bytes item_stage byte_stage buffers
  = read_bytes (concat buffers) [] [] 0.
Proof.
  intros Hmax Hne Ht. unfold read_events_from_reader_bounded.
  change (read_events_loop _ _ _ _) with loop.
  rewrite read_events_loop_eq; [done|done|done| |rewrite len_nil; lia|lia|].
  - unfold reader_fuel, buffered_bytes. lia.
  - unfold len in Ht. rewrite concat_length in Ht. lia.
Qed.

End Events.

Lemma buffered_spec n fuel b :
  (0 < n)%nat → (length b ≤ fuel)%nat →
  concat (buffered fuel n b) = b ∧ Forall (λ c : bytes, c ≠ []) (buffered fuel n b).
Proof.
  intros Hn. revert b. induction fuel as [|fuel IH]; intros [|x b] Hf; try (by split).
  - cbn in Hf. lia.
  - cbn [buffered concat]. destruct (IH (drop n (x :: b))) as [H1 H2].
    { rewrite length_drop. cbn in Hf |- *. lia. }
    rewrite H1, take_drop. split; [done|]. constructor; [|done].
    destruct n; [lia|done].
Qed.

Lemma buf_reader_spec b :
  concat (buf_reader b) = b ∧ Forall (λ c : bytes, c ≠ []) (buf_reader b).
Proof. apply buffered_spec; lia. Qed.

Section Log.
Context {codec : StoreCodec} {fc : FileCodec} {laws : FileCodecLaws fc}.
Implicit Types (es : list MemoryStoreEvent).

(** The records of a list of events that can be encoded. *)
Definition log_of es (b : bytes) : Prop := events_jsonl_bytes es = Ok b.

Lemma log_of_nil b : log_of [] b ↔ b = [].
Proof. unfold log_of. cbn. split; [by intros [= <-]|by intros ->]. Qed.

Lemma log_of_cons e es b :
  log_of (e :: es) b ↔ ∃ r t, event_to_vec e = inr r ∧ log_of es t ∧ b = r ++ newline :: t.
Proof.
  unfold log_of. cbn [events_jsonl_bytes]. split.
  - intros H. inv_ok. unfold decoded in E. destruct (event_to_vec e); simplify_eq. eauto.
  - intros (r & t & Hr & Ht & ->). rewrite Hr, Ht. done.
Qed.

Lemma log_of_app es1 es2 b1 b2 : log_of es1 b1 → log_of es2 b2 → log_of (es1 ++ es2) (b1 ++ b2).
Proof.
  intros H1 H2. revert b1 H1. induction es1 as [|e es1 IH]; intros b1 H1.
  - by apply log_of_nil in H1 as ->.
  - apply log_of_cons in H1 as (r & t & Hr & Ht & ->). cbn [app]. apply log_of_cons.
    exists r, (t ++ b2). split_and!; [done|by apply IH|]. by rewrite <- app_assoc.
Qed.

Lemma log_of_app_inv es1 es2 b :
  log_of (es1 ++ es2) b → ∃ b1 b2, b = b1 ++ b2 ∧ log_of es1 b1 ∧ log_of es2 b2.
Proof.
  revert b. induction es1 as [|e es1 IH]; intros b Hb.
  - exists [], b. split_and!; [done|by apply log_of_nil|done].
  - cbn [app] in Hb. apply log_of_cons in Hb as (r & t & Hr & Ht & ->).
    destruct (IH t Ht) as (b1 & b2 & -> & H1 & H2). exists (r ++ newline :: b1), b2.
    rewrite <- app_assoc. split_and!; [done| |done]. apply log_of_cons. by exists r, b1.
Qed.

Lemma log_of_inj es b c : log_of es b → log_of es c → b = c.
Proof. unfold log_of. congruence. Qed.

Section Read.
Context (capacity : StoreCapacityBudget) (max_bytes : N) (item_stage byte_stage : string).
Let read_bytes := read_bytes capacity max_bytes item_stage byte_stage.

Lemma push_record e r es :
  event_to_vec e = inr r →
  push_bounded_event_line capacity item_stage byte_stage es r =
  (_ ← ensure (saturating_add (len es) 1 <=? event_log_max_items capacity)
         (Config item_stage "event items exceed the active aggregate budget");
   _ ← validate_current_schema e byte_stage; Ok (es ++ [e])).
Proof.
  intros Hr. destruct (event_round_trip e r Hr) as (Hd & _ & Hw).
  unfold push_bounded_event_line. by rewrite Hw, Hd.
Qed.

(** What the reader accepts of a log is the list of its events. *)
Lemma read_log_sound es b rest acc c res :
  log_of es b → c ≤ max_bytes → read_bytes (b ++ rest) acc [] c = Ok res →
  c + len b ≤ max_bytes ∧ read_bytes rest (acc ++ es) [] (c + len b) = Ok res.
Proof.
  revert b acc c. induction es as [|e es IH]; intros b acc c Hb Hc H.
  - apply log_of_nil in Hb as ->. rewrite len_nil, N.add_0_r, app_nil_r. by split.
  - apply log_of_cons in Hb as (r & t & Hr & Ht & ->).
    destruct (event_round_trip e r Hr) as (_ & Hn & _).
    rewrite <- app_assoc in H. cbn [app] in H. unfold read_bytes in H.
    rewrite read_bytes_line in H by done.
    destruct (N.ltb_spec max_bytes (c + len r + 1)); [done|]. cbn [app] in H.
    rewrite (push_record e r acc Hr) in H. inv_ok.
    apply IH in H as [H1 H2]; [|done|lia].
    rewrite len_app, len_cons, <- app_assoc in *. cbn [app] in *.
    replace (c + (len r + (1 + len t))) with (c + len r + 1 + len t) by lia. by split.
Qed.

(** A log within the bounds is accepted. *)
Lemma read_log_complete es b rest acc c :
  log_of es b → Forall (λ e, validate_current_schema e byte_stage = Ok tt) es →
  len acc + len es ≤ event_log_max_items capacity → event_log_max_items capacity ≤ usize_max →
  c + len b ≤ max_bytes →
  read_bytes (b ++ rest) acc [] c = read_bytes rest (acc ++ es) [] (c + len b).
Proof.
  revert b acc c. induction es as [|e es IH]; intros b acc c Hb Hes Hi Hu Hc.
  - apply log_of_nil in Hb as ->. by rewrite len_nil, N.add_0_r, app_nil_r.
  - apply log_of_cons in Hb as (r & t & Hr & Ht & ->).
    apply Forall_cons in Hes as [He Hes].
    destruct (event_round_trip e r Hr) as (_ & Hn & _).
    rewrite len_cons in Hi. rewrite len_app, len_cons in Hc |- *.
    rewrite <- app_assoc. cbn [app]. unfold read_bytes. rewrite read_bytes_line by (done || lia).
    rewrite (proj2 (N.ltb_ge _ _)) by lia. cbn [app].
    rewrite (push_record e r acc Hr). unfold ensure.
    rewrite (proj2 (N.leb_le _ _)) by (rewrite saturating_add_exact; lia).
    rewrite He. cbn [mbind result_bind]. fold read_bytes.
    rewrite IH; [|done|done|rewrite len_app, len_cons, len_nil; lia|done|lia].
    rewrite <- app_assoc. cbn [app]. f_equal. lia.
Qed.

End Read.

Lemma read_file_sound d p es b cap max st1 st2 res :
  max ≤ usize_max → d !! p = Some b → log_of es b →
  read_events_jsonl_bounded_with_receipt d p cap max st1 st2 = Ok res → res = (es, len b).
Proof.
  intros Hmax Hd Hb H. unfold read_events_jsonl_bounded_with_receipt in H. rewrite Hd in H.
  inv_ok. split_bool. destruct (buf_reader_spec b) as [Hc Hne].
  rewrite reader_eq in H; [|done|done|rewrite Hc; lia]. rewrite Hc in H.
  rewrite <- (app_nil_r b) in H at 1.
  apply (read_log_sound cap max st1 st2 es) in H as [_ H]; [|done|lia].
  cbn [read_bytes app] in H. rewrite decide_True in H by done. cbn in H. by simplify_eq.
Qed.

End Log.
