(* ===== verification/FileEngine.v ===== *)
(** * File engine

    Model of [FileStoreEngine] ([crates/sdk/src/store_internal/file.rs]): key
    indexes and reads, the journalled commit, and recovery.

    A critical section is one program: the canonical root gate and the advisory
    lock exclude every other one, so an execution is a sequence of programs.
    The environment hooks of the recovery tests ([maybe_crash_..],
    [maybe_pause_..]) and the durability trace do nothing here: every point is
    a crash point of the model.  Directory entries are visited in an arbitrary
    order, as [read_dir] does. *)

From S2P Require Import Prelude RustStr Profile Resource Budget BudgetCompile BudgetAuthority.
From S2P Require Import StoreTypes StoreTransaction StorePlan InMemoryStore ReadSession.
From S2P Require Import FileSystem FileAddress FileJournal.
From stdpp Require Import sorting.
From Stdlib Require Import Ascii.

Local Open Scope string_scope.
Local Open Scope list_scope.
Local Open Scope N_scope.

Section FileEngine.
Context {codec : StoreCodec} {fc : FileCodec} {gov : OwnerGovernance} {rcodec : ReportCodec}.
Context (engine : FileStoreEngine).

Let cap := file_capacity engine.

(** ** Key indexes *)

Definition key_index_bytes (key stage : string) : result bytes :=
  decoded stage (key_index_to_vec_pretty
                   {| addressing_version := FILE_ADDRESSING_VERSION; index_key := key |}).

Definition write_key_index (p : path) (key stage : string) : io unit :=
  b ← io_result (key_index_bytes key stage);
  atomic_write p b (file_fsync engine) stage.

Definition read_key_index (d : disk) (p : path) (stage : string) : result (option string) :=
  found ← read_file_bounded d p (saturating_add (logical_key_max_bytes cap) 1024) stage;
  match found with
  | None => Ok None
  | Some b =>
      value ← decoded stage (key_index_from_slice b);
      _ ← ensure (addressing_version value =? FILE_ADDRESSING_VERSION)
            (Config stage ("unsupported file store key index version "
                           +:+ pretty (addressing_version value)));
      Ok (Some (index_key value))
  end.

Definition require_key_index_matches (d : disk) (p : path) (key stage : string) : result unit :=
  existing ← read_key_index d p stage;
  match existing with
  | None => Err (Config stage "file store physical data is missing key index")
  | Some existing =>
      ensure (bool_decide (existing = key))
        (Config stage "file store physical key collision detected")
  end.

Definition missing_data (stage : string) : Error :=
  Config stage "file store key index has missing physical data".

(** ** Reads *)

(** The bytes of a slot: the data file with its index, or the legacy file. *)
Definition slot_bytes (d : disk) (ps : PhysicalKeyPaths) (key : string) (max_bytes : N)
    : result (option bytes) :=
  found ← read_file_bounded d (data_path ps) max_bytes "store_consistent_read_budget_exceeded";
  match found with
  | Some b =>
      _ ← require_key_index_matches d (index_path ps) key "store_consistent_read";
      Ok (Some b)
  | None =>
      index ← read_key_index d (index_path ps) "store_consistent_read";
      match index with
      | Some _ => Err (missing_data "store_consistent_read")
      | None => read_file_bounded d (legacy_path ps) max_bytes
                  "store_consistent_read_budget_exceeded"
      end
  end.

Definition get_json_value_unlocked_bounded (d : disk) (namespace key : string)
    (max_logical_bytes : N) : result (option (Value * N)) :=
  ps ← json_paths engine namespace key;
  found ← slot_bytes d ps key (snapshot_max_bytes cap);
  match found with
  | None => Ok None
  | Some b =>
      v ← decoded "store_consistent_read" (json_from_slice b);
      encoded ← decoded "store_consistent_read" (json_to_vec v);
      let logical_bytes := len encoded in
      _ ← ensure (logical_bytes <=? max_logical_bytes)
            (Config "store_consistent_read_budget_exceeded"
               ("logical JSON bytes " +:+ pretty logical_bytes
                +:+ " exceed remaining budget " +:+ pretty max_logical_bytes));
      Ok (Some (v, logical_bytes))
  end.

Definition get_blob_unlocked_bounded (d : disk) (namespace key : string) (max_bytes : N)
    : result (option (bytes * N)) :=
  ps ← blob_paths engine namespace key;
  found ← slot_bytes d ps key max_bytes;
  match found with
  | None => Ok None
  | Some b => Ok (Some (b, len b))
  end.

(** The same reads without a budget ([fs::read]). *)
Definition slot_bytes_unbounded (d : disk) (ps : PhysicalKeyPaths) (key stage : string)
    : result (option bytes) :=
  match d !! data_path ps with
  | Some b =>
      _ ← require_key_index_matches d (index_path ps) key stage; Ok (Some b)
  | None =>
      index ← read_key_index d (index_path ps) stage;
      match index with
      | Some _ => Err (missing_data stage)
      | None => Ok (d !! legacy_path ps)
      end
  end.

Definition get_json_value_unlocked (d : disk) (namespace key : string) : result (option Value) :=
  ps ← json_paths engine namespace key;
  found ← slot_bytes_unbounded d ps key "file_store_json_read";
  match found with
  | None => Ok None
  | Some b => v ← decoded "file_store_json_read" (json_from_slice b); Ok (Some v)
  end.

Definition get_blob_unlocked (d : disk) (namespace key : string) : result (option bytes) :=
  ps ← blob_paths engine namespace key;
  slot_bytes_unbounded d ps key "file_store_blob_read".

(** ** Listing *)

Definition list_indexed_keys (d : disk) (lane namespace ext : string) : result (list string) :=
  let base := [lane; namespace] in
  let index_base := base ++ [FILE_ADDRESSING_INDEX_DIR] in
  let data_base := base ++ [FILE_ADDRESSING_DATA_DIR] in
  out ← try_fold (λ out shard,
    try_fold (λ out name,
      let p := index_base ++ [shard; name] in
      if negb (bool_decide (extension name = Some "json")) then Ok out else
      let data := data_base ++ [shard; file_stem name +:+ String "." ext] in
      _ ← ensure (bool_decide (is_Some (d !! data))) (missing_data "file_store_list");
      index ← read_key_index d p "file_store_list";
      match index with
      | None => Ok out
      | Some key =>
          expected ← physical_key_paths engine lane namespace key ext;
          _ ← ensure (bool_decide (index_path expected = p ∧ data_path expected = data))
                (Config "file_store_list"
                   "file store physical key index does not match logical key");
          Ok (out ++ [key])
      end) out (file_names d (index_base ++ [shard])))
    [] (directory_names d index_base);
  Ok (sort_strings out).

Definition list_legacy_encoded_keys (d : disk) (lane namespace ext : string) : list string :=
  sort_strings (omap (λ name,
    if bool_decide (extension name = Some ext) then hex_decode_to_string (file_stem name)
    else None) (file_names d [lane; namespace])).

Definition list_keys (d : disk) (lane namespace ext : string) : result (list string) :=
  indexed ← list_indexed_keys d lane namespace ext;
  Ok (sort_strings (elements (list_to_set indexed
        ∪ list_to_set (list_legacy_encoded_keys d lane namespace ext) : gset string))).

Definition list_json_keys_unlocked (d : disk) (namespace : string) : result (list string) :=
  _ ← validate_directory_component engine namespace "file_store_list";
  list_keys d "kv" namespace "json".
Definition list_blob_keys_unlocked (d : disk) (namespace : string) : result (list string) :=
  _ ← validate_directory_component engine namespace "file_store_list";
  list_keys d "blob" namespace "bin".

Definition list_child_directory_names (d : disk) (dir : path) : list string :=
  sort_strings (directory_names d dir).

(** ** Usage *)

Definition json_entry_count (d : disk) : result N :=
  try_fold (λ count namespace,
    keys ← list_json_keys_unlocked d namespace;
    Ok (saturating_add count (len keys))) 0 (list_child_directory_names d ["kv"]).

Definition blob_entry_count (d : disk) : result N :=
  try_fold (λ count namespace,
    keys ← list_blob_keys_unlocked d namespace;
    Ok (saturating_add count (len keys))) 0 (list_child_directory_names d ["blob"]).

Definition blob_value_len_unlocked (d : disk) (namespace key : string) : result (option N) :=
  ps ← blob_paths engine namespace key;
  match d !! data_path ps with
  | Some b =>
      _ ← require_key_index_matches d (index_path ps) key "file_store_blob_quota";
      Ok (Some (len b))
  | None =>
      index ← read_key_index d (index_path ps) "file_store_blob_quota";
      match index with
      | Some _ => Err (missing_data "file_store_blob_quota")
      | None => Ok (len <$> d !! legacy_path ps)
      end
  end.

Definition blob_total_bytes (d : disk) : result N :=
  try_fold (λ total namespace,
    keys ← list_blob_keys_unlocked d namespace;
    try_fold (λ total key,
      found ← blob_value_len_unlocked d namespace key;
      match found with
      | None => Ok total
      | Some n => add_or (store_budget_error "file store blob byte count overflow") total n
      end) total keys) 0 (list_child_directory_names d ["blob"]).

Definition transaction_event_usage (d : disk) (request : StoreTransactionRequest)
    (c : StoreCapacityBudget) : result (N * gset string * N) :=
  let ids : gset string := list_to_set (omap mutation_event_id (mutations request)) in
  let prefix_len := len (content d events_path) in
  events ← read_events_jsonl_bounded d events_path c (snapshot_max_bytes c)
             "memory_write_transaction";
  Ok (len events, list_to_set (filter (λ i, i ∈ ids) (event_id <$> events)), prefix_len).

(** ** The touched part of the store *)

Definition touch_json (d : disk) (c : StoreCapacityBudget) (acc : gmap address Value * N)
    (a : address) : result (gmap address Value * N) :=
  let '(json, json_bytes) := acc in
  found ← get_json_value_unlocked_bounded d a.1 a.2 (snapshot_max_bytes c - json_bytes);
  match found with
  | None => Ok (json, json_bytes)
  | Some (v, n) =>
      total ← add_or (store_budget_error "transaction touched JSON byte count overflow")
                json_bytes n;
      Ok (<[a := v]> json, total)
  end.

Definition touch_prefix (d : disk) (c : StoreCapacityBudget) (acc : gmap address Value * N)
    (prefix : address) : result (gmap address Value * N) :=
  keys ← list_json_keys_unlocked d prefix.1;
  try_fold (λ acc key,
    let a : address := (prefix.1, key) in
    if negb (starts_with key prefix.2) || bool_decide (is_Some (acc.1 !! a)) then Ok acc
    else touch_json d c acc a) acc keys.

Definition touch_blob (d : disk) (c : StoreCapacityBudget) (acc : gmap address bytes * N)
    (a : address) : result (gmap address bytes * N) :=
  let '(blobs, blob_bytes) := acc in
  found ← get_blob_unlocked_bounded d a.1 a.2 (blob_max_bytes c - blob_bytes);
  match found with
  | None => Ok (blobs, blob_bytes)
  | Some (b, n) =>
      total ← add_or (store_budget_error "transaction touched blob byte count overflow")
                blob_bytes n;
      Ok (<[a := b]> blobs, total)
  end.

Definition read_dependency (d : disk) (a : address) (remaining : N) : result (option Value) :=
  (λ found : option (Value * N), fst <$> found)
    <$> get_json_value_unlocked_bounded d a.1 a.2 remaining.

(** The documents of the read set, under its prefixes, and their dependencies. *)
Definition load_json (d : disk) (request : StoreTransactionRequest) (c : StoreCapacityBudget)
    : result (gmap address Value) :=
  let rs := read_set request in
  exact ← try_fold (touch_json d c) (∅, 0) (btree_set_iter (rs_json rs));
  '(json, _) ← try_fold (touch_prefix d c) exact (btree_set_iter (rs_json_prefixes rs));
  expand_owner_transaction_dependencies request c json
    (read_dependency d).

Definition load_blobs (d : disk) (request : StoreTransactionRequest) (c : StoreCapacityBudget)
    : result (gmap address bytes) :=
  fst <$> try_fold (touch_blob d c) (∅, 0) (btree_set_iter (rs_blobs (read_set request))).

Definition load_usage (d : disk) (event_count : N) : result StoreBackendUsage :=
  json_count ← json_entry_count d;
  blob_count ← blob_entry_count d;
  total ← blob_total_bytes d;
  Ok {| kv_entries := saturating_add json_count blob_count; blob_bytes := total;
        event_count := event_count |}.

Definition load_transaction_context (d : disk) (request : StoreTransactionRequest)
    (c : StoreCapacityBudget) : result (StoreTransactionContext * N) :=
  json ← load_json d request c;
  blobs ← load_blobs d request c;
  '(event_count, existing, prefix_len) ← transaction_event_usage d request c;
  usage ← load_usage d event_count;
  Ok ({| touched := {| bt_json := json; bt_blobs := blobs; bt_events := [] |};
         usage := usage; existing_event_ids := existing |}, prefix_len).

(** ** Images *)

Definition transaction_image (state : BackendTransactionState) (rs : StoreTransactionReadSet)
    (events : FileTransactionEventsImage) : FileTransactionImage :=
  {| image_json := (λ a : address, {| jv_namespace := a.1; jv_key := a.2;
                                      jv_value := bt_json state !! a |})
                     <$> btree_set_iter (rs_json rs);
     image_blobs := (λ a : address, {| bv_namespace := a.1; bv_key := a.2;
                                       bv_value := bt_blobs state !! a |})
                      <$> btree_set_iter (rs_blobs rs);
     image_events := events |}.

Definition append_event_unchecked (e : MemoryStoreEvent) : io unit :=
  let stage := "store_event_log" in
  _ ← create_dir_all (parent events_path) stage;
  _ ← open_or_create events_path stage;
  b ← io_result (decoded stage (event_to_vec e));
  _ ← write_all events_path b stage;
  _ ← write_all events_path [newline] stage;
  if file_fsync engine then sync_all stage else mret tt.

Definition recovery_stage := "file_store_transaction_recovery".

(** Write a slot, or remove its data, index and legacy files. *)
Definition restore_slot (ps : result PhysicalKeyPaths) (key : string)
    (value : option (result bytes)) : io unit :=
  ps ← io_result ps;
  match value with
  | Some encoded =>
      _ ← write_key_index (index_path ps) key recovery_stage;
      b ← io_result encoded;
      atomic_write (data_path ps) b (file_fsync engine) recovery_stage
  | None =>
      _ ← remove_file_if_exists (data_path ps) recovery_stage;
      _ ← remove_file_if_exists (index_path ps) recovery_stage;
      _ ← remove_file_if_exists (legacy_path ps) recovery_stage;
      mret tt
  end.

Definition restore_json (e : FileTransactionJsonValue) : io unit :=
  restore_slot (json_paths engine (jv_namespace e) (jv_key e)) (jv_key e)
    ((λ v, decoded recovery_stage (json_to_vec_pretty v)) <$> jv_value e).

Definition restore_blob (e : FileTransactionBlobValue) : io unit :=
  restore_slot (blob_paths engine (bv_namespace e) (bv_key e)) (bv_key e) (Ok <$> bv_value e).

Definition sync_root (stage : string) : io unit := sync_directory [] (file_fsync engine) stage.

Definition restore_events (i : FileTransactionEventsImage) : io unit :=
  match i with
  | Append prefix_len events =>
      _ ← open_or_create events_path recovery_stage;
      _ ← set_len events_path prefix_len recovery_stage;
      io_each append_event_unchecked events
  | Replace events =>
      b ← io_result (events_jsonl_bytes events);
      atomic_write events_path b (file_fsync engine) recovery_stage
  end.

Definition restore_transaction_image (i : FileTransactionImage) : io unit :=
  _ ← io_each restore_json (image_json i);
  _ ← io_each restore_blob (image_blobs i);
  _ ← restore_events (image_events i);
  sync_root recovery_stage.

(** ** Journal *)

Definition write_transaction_journal (j : FileTransactionJournal) : io unit :=
  b ← io_result (decoded "file_store_transaction" (journal_to_vec j));
  _ ← atomic_write transaction_marker_path b (file_fsync engine) "file_store_transaction";
  sync_root "file_store_transaction".

Definition remove_transaction_journal (stage : string) : io unit :=
  _ ← remove_file_if_exists transaction_marker_path stage;
  sync_root stage.

(** The journal is read under this bound. *)
Definition journal_max_bytes : N :=
  saturating_add (import_max_bytes cap) (saturating_mul (blob_max_bytes cap) 3).

Definition read_transaction_journal_read_only (d : disk)
    : result (option FileTransactionJournal) :=
  found ← read_file_bounded d transaction_marker_path journal_max_bytes recovery_stage;
  match found with
  | None => Ok None
  | Some b =>
      match journal_from_slice b with
      | inl message =>
          Err (Config (if has_complete_journal_shape b then TRANSACTION_REPAIR_REQUIRED_STAGE
                       else "store_transaction_recovery_required")
                 ("file transaction journal is not recoverable: " +:+ message))
      | inr j =>
          _ ← ensure (journal_schema_version j =? 2)
                (Config TRANSACTION_REPAIR_REQUIRED_STAGE
                   ("unsupported file transaction journal schema "
                    +:+ pretty (journal_schema_version j)));
          _ ← verify_checksum j;
          _ ← validate_image_address_contract j;
          Ok (Some j)
      end
  end.

Definition journal_image (j : FileTransactionJournal) : FileTransactionImage :=
  match journal_state j with
  | Prepared => journal_before j
  | Committed => journal_after j
  end.

Definition recover_validated_transaction (j : option FileTransactionJournal) : io unit :=
  match j with
  | None => mret tt
  | Some j =>
      _ ← restore_transaction_image (journal_image j);
      remove_transaction_journal recovery_stage
  end.

Definition recover_transaction_if_needed : io unit :=
  j ← io_read recovery_stage read_transaction_journal_read_only;
  recover_validated_transaction j.

(** ** Critical sections *)

Definition with_exclusive_backend {A} (operation : io A) : io A :=
  _ ← recover_transaction_if_needed; operation.

(** The marker is looked for under the shared lock; when it is there, it is
    recovered under the exclusive lock, and the loop starts again.  [None] in
    the outcome is fuel exhaustion: without faults two rounds are enough. *)
Fixpoint with_shared_backend {A} (fuel : nat) (stage : string) (operation : disk → result A)
    : io (option A) :=
  match fuel with
  | O => mret None
  | S fuel =>
      marker ← io_read stage (λ d, Ok (d !! transaction_marker_path));
      match marker with
      | None => a ← io_read stage operation; mret (Some a)
      | Some _ =>
          _ ← recover_transaction_if_needed;
          with_shared_backend fuel stage operation
      end
  end.

Definition get_json_value (fuel : nat) (namespace key : string) : io (option (option Value)) :=
  with_shared_backend fuel "file_store_json_read"
    (λ d, get_json_value_unlocked d namespace key).
Definition get_blob (fuel : nat) (namespace key : string) : io (option (option bytes)) :=
  with_shared_backend fuel "file_store_blob_read" (λ d, get_blob_unlocked d namespace key).
Definition list_json_keys (fuel : nat) (namespace : string) : io (option (list string)) :=
  with_shared_backend fuel "file_store_list" (λ d, list_json_keys_unlocked d namespace).
Definition list_blob_keys (fuel : nat) (namespace : string) : io (option (list string)) :=
  with_shared_backend fuel "file_store_list" (λ d, list_blob_keys_unlocked d namespace).
Definition read_events (fuel : nat) : io (option (list MemoryStoreEvent)) :=
  with_shared_backend fuel "store_event_log"
    (λ d, read_events_jsonl_bounded d events_path cap (snapshot_max_bytes cap)
            "store_event_log").

(** ** Committing *)

Definition appended_event (m : StoreEngineMutation) : option MemoryStoreEvent :=
  match m with AppendEvent e => Some e | _ => None end.

(** The read phase of a commit: the context and the plan. *)
Definition plan_commit (request : StoreTransactionRequest) (adm : StoreTransactionAdmission)
    (d : disk) : result (StoreTransactionContext * N * StoreTransactionPlan) :=
  '(context, prefix_len) ← load_transaction_context d request (operation_capacity adm);
  plan ← apply_transaction adm request context;
  Ok (context, prefix_len, plan).

Definition prepare_journal (request : StoreTransactionRequest)
    (context : StoreTransactionContext) (prefix_len : N) (plan : StoreTransactionPlan)
    : result FileTransactionJournal :=
  let appended := omap appended_event (mutations (effective_request plan)) in
  journal_new (transaction_id (effective_request plan))
    (transaction_image (touched context) (read_set request) (Append prefix_len []))
    (transaction_image (next_touched plan) (read_set request) (Append prefix_len appended)).

Definition publish_journal (j : FileTransactionJournal) : io unit :=
  _ ← write_transaction_journal j;
  _ ← restore_transaction_image (journal_after j);
  j' ← io_result (refresh_checksum (with_state j Committed));
  _ ← write_transaction_journal j';
  remove_transaction_journal "file_store_transaction".

(** [commit_transaction_admitted] after the fence, which is passed inside the
    critical section, after recovery. *)
Definition commit_fenced (request : StoreTransactionRequest) (adm : StoreTransactionAdmission)
    : io StoreTransactionReport :=
  '(context, prefix_len, plan) ← io_read "memory_write_transaction" (plan_commit request adm);
  j ← io_result (prepare_journal request context prefix_len plan);
  _ ← publish_journal j;
  mret (plan_report plan).

Definition commit_transaction_admitted (instant_max : N) (request : StoreTransactionRequest)
    (adm : StoreTransactionAdmission) (ast : RuntimeBudgetAuthorityState) (env : Env)
    : io StoreTransactionReport :=
  _ ← recover_transaction_if_needed;
  _ ← io_result (validate_inside_engine_fence instant_max adm cap
                   (file_admission_authority engine) ast env).1;
  commit_fenced request adm.

(** ** Orphan temporary files *)

Inductive StoreRepairPolicy := ReportOnly | RepairSafe.

Record StoreRepairReport := { checked : bool; repaired : bool; findings : list string }.

Definition repair_clean : StoreRepairReport :=
  {| checked := true; repaired := false; findings := [] |}.
Definition repair_report_only (finding : string) : StoreRepairReport :=
  {| checked := true; repaired := false; findings := [finding] |}.

(** The path of a file below [root], as text. *)
Definition display (root : string) (p : path) : string := String.concat "/" (root :: p).

(** The paths whose extension is [tmp], in the order of their text. *)
Definition collect_tmp_files (root : string) (d : disk) : list path :=
  merge_sort (λ p q, str_le (display root p) (display root q))
    (filter (λ p, is_orphan_tmp_path p = true) (map_to_list d).*1).

Definition remove_tmp (p : path) : io unit :=
  let stage := "file_store_repair" in
  found ← remove_file_if_exists p stage;
  io_result (ensure found (Io stage "entity not found")).

Definition repair_orphan_tmp_files (root : string) (policy : StoreRepairPolicy)
    : io StoreRepairReport :=
  paths ← io_read "file_store_repair" (λ d, Ok (collect_tmp_files root d));
  let findings := display root <$> paths in
  match paths with
  | [] => mret repair_clean
  | _ =>
      match policy with
      | ReportOnly =>
          mret (repair_report_only ("orphan tmp files: " +:+ String.concat ", " findings))
      | RepairSafe =>
          _ ← io_each remove_tmp paths;
          mret {| checked := true; repaired := true; findings := findings |}
      end
  end.

(** ** Known-key reads *)

Definition read_known_json (d : disk) (c : StoreCapacityBudget)
    (acc : gmap address Value * N) (a : address) : result (gmap address Value * N) :=
  let '(json, json_bytes) := acc in
  found ← get_json_value_unlocked_bounded d a.1 a.2 (snapshot_max_bytes c - json_bytes);
  match found with
  | None => Ok (json, json_bytes)
  | Some (v, n) =>
      total ← add_or (store_budget_error "consistent known-key JSON byte count overflow")
                json_bytes n;
      Ok (<[a := v]> json, total)
  end.

Definition read_known_blob (d : disk) (c : StoreCapacityBudget)
    (acc : gmap address bytes * N) (a : address) : result (gmap address bytes * N) :=
  let '(blobs, blob_bytes) := acc in
  found ← get_blob_unlocked_bounded d a.1 a.2 (blob_max_bytes c - blob_bytes);
  match found with
  | None => Ok (blobs, blob_bytes)
  | Some (b, n) =>
      total ← add_or (store_budget_error "consistent known-key blob byte count overflow")
                blob_bytes n;
      Ok (<[a := b]> blobs, total)
  end.

Definition read_events_unlocked_bounded (d : disk) (c : StoreCapacityBudget)
    (already_used_json_bytes : N) : result (list MemoryStoreEvent) :=
  let n := len (content d events_path) in
  _ ← ensure (saturating_add already_used_json_bytes n <=? snapshot_max_bytes c)
        (Config "store_consistent_read_budget_exceeded"
           "event log exceeds the consistent known-key read budget");
  read_events_jsonl_bounded d events_path c (snapshot_max_bytes c - already_used_json_bytes)
    "store_consistent_read_budget_exceeded".

End FileEngine.
