(* ===== verification/FileRep.v ===== *)
(** * File engine: what a disk represents

    The representation of a store by the files of a lane, up to a set of
    addresses whose slots are being rewritten.  Every single write to such a
    slot keeps the representation, and a complete write settles the slot:
    these are the facts that make an interrupted restore repeatable. *)

From S2P Require Import Prelude RustStr Profile Resource Budget BudgetCompile BudgetAuthority StoreTypes StoreTransaction StorePlan InMemoryStore FileSystem FileAddress FileJournal FileEngine.
From Stdlib Require Import Ascii.

Local Open Scope string_scope.
Local Open Scope list_scope.
Local Open Scope beetle_scope.

Definition in_lane (l : Lane) (p : path) : Prop := head p = Some (lane_name l).

Section Rep.
Context {codec : StoreCodec} {fc : FileCodec} {laws : FileCodecLaws fc}.
Context (engine : FileStoreEngine).
Implicit Types (l : Lane) (a : address) (d : disk) (A : gset address).

Local Abbreviation paths := (slot_paths engine).

Definition slot_files l a : list path :=
  [data_path (paths l a); index_path (paths l a); legacy_path (paths l a)].

Definition current_index (key : string) : FileKeyIndex :=
  {| addressing_version := FILE_ADDRESSING_VERSION; index_key := key |}.

(** A slot holds a value: in its data file with the index of its key, or in a
    legacy file, which can be listed only when its name encodes a key. *)
Inductive slot_holds d l a (P : bytes → Prop) : Prop :=
| slot_current b i :
    d !! data_path (paths l a) = Some b → d !! index_path (paths l a) = Some i →
    key_index_from_slice i = inr (current_index a.2) → P b → slot_holds d l a P
| slot_legacy b :
    d !! data_path (paths l a) = None → d !! index_path (paths l a) = None →
    d !! legacy_path (paths l a) = Some b → a.2 ≠ "" → is_utf8 a.2 = true → P b →
    slot_holds d l a P.

(** No two addresses share a data file. *)
Definition collision_free l A : Prop :=
  ∀ a b, a ∈ A → b ∈ A → data_path (paths l a) = data_path (paths l b) → a = b.

Lemma slot_files_in_lane l a p : p ∈ slot_files l a → in_lane l p.
Proof. unfold slot_files. rewrite !elem_of_cons, elem_of_nil. by intros [->|[->|[->|[]]]]. Qed.

Lemma slot_files_not_tmp l a p :
  addressing_ok engine → p ∈ slot_files l a → is_orphan_tmp_path p = false.
Proof.
  intros Hok. destruct (slot_stable engine l a Hok) as [[Hd _] [Hi _]].
  unfold slot_files. rewrite !elem_of_cons, elem_of_nil. intros [->|[->|[->|[]]]]; [done..|].
  apply bool_decide_eq_false_2. unfold path_extension. cbn.
  destruct (lane_ext_plain l) as (He & Hne & Ht).
  destruct (decide (hex_encode a.2 = "")) as [->|Hk]; [by destruct l|].
  destruct (extension_app (hex_encode a.2) (lane_ext l)) as [-> _]; [done..|]. congruence.
Qed.

Lemma slot_files_disjoint l A a b p :
  collision_free l A → a ∈ A → b ∈ A → p ∈ slot_files l a → p ∈ slot_files l b → a = b.
Proof.
  intros Hcf Ha Hb. destruct (slot_distinct engine l l a b) as (H1 & H2 & H3).
  destruct (slot_distinct engine l l b a) as (H4 & H5 & H6).
  unfold slot_files. rewrite !elem_of_cons, !elem_of_nil.
  intros [->|[->|[->|[]]]] [H|[H|[H|[]]]]; try done.
  - by apply Hcf.
  - apply Hcf; [done..|]. by apply slot_collision.
  - by eapply legacy_path_inj.
Qed.

Section LaneRep.
Context {V : Type} (enc : V → bytes → Prop).
Implicit Types (m : gmap address V).

(** The files of lane [l] represent [m] except at the addresses of [A]. *)
Record lane_rep A l d m : Prop := {
  lr_present a v : a ∉ A → m !! a = Some v → slot_holds d l a (enc v);
  lr_owned p : is_orphan_tmp_path p = false → is_Some (d !! p) → in_lane l p →
    ∃ a, a ∈ dom m ∪ A ∧ p ∈ slot_files l a;
}.

Lemma slot_holds_ext d d' l a P :
  (∀ p, p ∈ slot_files l a → d !! p = d' !! p) → slot_holds d l a P → slot_holds d' l a P.
Proof.
  intros Heq. pose proof (Heq _ (list_elem_of_here _ _)) as Hd.
  assert (Hi := Heq (index_path (paths l a)) ltac:(unfold slot_files; set_solver)).
  assert (Hg := Heq (legacy_path (paths l a)) ltac:(unfold slot_files; set_solver)).
  intros [b i H1 H2 H3 H4|b H1 H2 H3 H4 H5 H6].
  - eapply slot_current; [by rewrite <- Hd|by rewrite <- Hi|done|done].
  - eapply slot_legacy; [by rewrite <- Hd|by rewrite <- Hi|by rewrite <- Hg|done|done|done].
Qed.

(** Only the non-temporary files of the lane matter. *)
Lemma lane_rep_frame A l d d' m :
  addressing_ok engine →
  (∀ p, is_orphan_tmp_path p = false → in_lane l p → d !! p = d' !! p) →
  lane_rep A l d m → lane_rep A l d' m.
Proof.
  intros Hok Heq [Hp Ho]. split.
  - intros a v Ha Hm. eapply slot_holds_ext; [|by apply Hp].
    intros p Hin. apply Heq; [by eapply slot_files_not_tmp|by eapply slot_files_in_lane].
  - intros p Ht Hs Hl. apply Ho; [done| |done]. by rewrite Heq.
Qed.

Lemma lane_rep_weaken A A' l d m : A ⊆ A' → lane_rep A l d m → lane_rep A' l d m.
Proof.
  intros HA [Hp Ho]. split.
  - intros a v Ha. apply Hp. set_solver.
  - intros p Ht Hs Hl. destruct (Ho p Ht Hs Hl) as (a & Ha & Hin). exists a. set_solver.
Qed.

(** The values at the addresses being rewritten do not matter. *)
Lemma lane_rep_outside A l d m m' :
  (∀ a, a ∉ A → m !! a = m' !! a) → lane_rep A l d m → lane_rep A l d m'.
Proof.
  intros Heq [Hp Ho]. split.
  - intros a v Ha Hm. apply Hp; [done|]. by rewrite Heq.
  - intros p Ht Hs Hl. destruct (Ho p Ht Hs Hl) as (a & Ha & Hin). exists a. split; [|done].
    destruct (decide (a ∈ A)); [set_solver|].
    apply elem_of_union in Ha as [Ha|Ha]; [|done].
    rewrite elem_of_dom, Heq, <- elem_of_dom in Ha by done. set_solver.
Qed.

(** A change of one file of a slot that is being rewritten. *)
Lemma lane_rep_touch A l d d' m a p :
  collision_free l (dom m ∪ A) → a ∈ A → p ∈ slot_files l a →
  (∀ q, q ≠ p → d !! q = d' !! q) → lane_rep A l d m → lane_rep A l d' m.
Proof.
  intros Hcf Ha Hin Heq [Hp Ho]. split.
  - intros b v Hb Hm. eapply slot_holds_ext; [|by apply Hp].
    intros q Hq. apply Heq. intros ->. assert (b = a) as ->; [|done].
    apply (slot_files_disjoint l (dom m ∪ A) b a p); [done| |set_solver|done|done].
    apply elem_of_union_l. by eapply elem_of_dom_2.
  - intros q Ht Hs Hl. destruct (decide (q = p)) as [->|Hne].
    + exists a. set_solver.
    + apply Ho; [done| |done]. by rewrite Heq.
Qed.

Lemma lane_rep_settle A l d m a v :
  m !! a = Some v → slot_holds d l a (enc v) → lane_rep A l d m → lane_rep (A ∖ {[a]}) l d m.
Proof.
  intros Hm Hs [Hp Ho]. split.
  - intros b w Hb Hw. destruct (decide (b = a)) as [->|]; [by simplify_eq|].
    apply Hp; [set_solver|done].
  - intros p Ht Hd Hl. destruct (Ho p Ht Hd Hl) as (b & Hb & Hin). exists b. split; [|done].
    destruct (decide (b = a)) as [->|]; [|set_solver].
    apply elem_of_union_l. by eapply elem_of_dom_2.
Qed.

Lemma lane_rep_settle_absent A l d m a :
  collision_free l (dom m ∪ A) → a ∈ A → m !! a = None →
  (∀ p, p ∈ slot_files l a → d !! p = None) → lane_rep A l d m → lane_rep (A ∖ {[a]}) l d m.
Proof.
  intros Hcf Ha Hm Hs [Hp Ho]. split.
  - intros b w Hb Hw. apply Hp; [|done].
    destruct (decide (b = a)) as [->|]; [by rewrite Hm in Hw|set_solver].
  - intros p Ht Hd Hl. destruct (Ho p Ht Hd Hl) as (b & Hb & Hin). exists b. split; [|done].
    destruct (decide (b = a)) as [->|]; [|set_solver].
    rewrite Hs in Hd by done. by destruct Hd.
Qed.

(** ** Reading a slot *)

(** The file of an address is its own: an index that names the key decides. *)
Lemma lane_rep_data l d m a b :
  addressing_ok engine → lane_rep ∅ l d m → d !! data_path (paths l a) = Some b →
  ∃ a' i v, data_path (paths l a') = data_path (paths l a) ∧ m !! a' = Some v ∧ enc v b
    ∧ d !! index_path (paths l a) = Some i ∧ key_index_from_slice i = inr (current_index a'.2).
Proof.
  intros Hok [Hp Ho] Hd.
  destruct (Ho (data_path (paths l a))) as (a' & Ha' & Hin).
  - eapply slot_files_not_tmp; [done|]. apply list_elem_of_here.
  - by eexists.
  - done.
  - rewrite union_empty_r_L in Ha'. apply elem_of_dom in Ha' as [v Hv].
    assert (Heq : data_path (paths l a) = data_path (paths l a')).
    { destruct (slot_distinct engine l l a a') as (H1 & H2 & _). revert Hin. unfold slot_files.
      rewrite !elem_of_cons, elem_of_nil. by intros [H|[H|[H|[]]]]. }
    pose proof (proj1 (slot_collision engine l a a') Heq) as Hidx.
    destruct (Hp a' v) as [b' i H1 H2 H3 H4|b' H1 H2 H3 H4]; [set_solver|done|..].
    + rewrite <- Heq in H1. rewrite <- Hidx in H2.
      rewrite Hd in H1. injection H1 as <-. by exists a', i, v.
    + rewrite <- Heq in H1. by rewrite Hd in H1.
Qed.

End LaneRep.

Lemma read_file_bounded_ok d p max stage o :
  (max ≤ usize_max)%N → read_file_bounded d p max stage = Ok o → o = d !! p.
Proof.
  unfold read_file_bounded. intros Hmax H. destruct (d !! p) as [b|]; [|by simplify_eq].
  inv_ok. split_bool. rewrite firstn_all2; [done|]. unfold len, saturating_add in *. lia.
Qed.

(** Reading a key index returns the key it stores. *)
Lemma read_key_index_some d p stage key :
  read_key_index engine d p stage = Ok (Some key) →
  ∃ i, d !! p = Some i ∧ key_index_from_slice i = inr (current_index key).
Proof.
  unfold read_key_index. intros H. inv_ok.
  match goal with Hr : read_file_bounded _ _ _ _ = Ok _ |- _ =>
    apply read_file_bounded_ok in Hr; [|apply saturating_add_bound] end.
  destruct (d !! p) as [i|]; subst; [|done]. inv_ok. split_bool. exists i. split; [done|].
  unfold decoded in *. destruct (key_index_from_slice i) as [|[ver k]]; simplify_eq.
  cbn in *. by subst ver.
Qed.

Lemma read_key_index_none d p stage :
  read_key_index engine d p stage = Ok None → d !! p = None.
Proof.
  unfold read_key_index. intros H. inv_ok.
  match goal with Hr : read_file_bounded _ _ _ _ = Ok _ |- _ =>
    apply read_file_bounded_ok in Hr; [|apply saturating_add_bound] end.
  destruct (d !! p); subst; [|done]. by inv_ok.
Qed.

(** What the readers of a slot find. *)
Definition slot_reads d l a (o : option bytes) : Prop :=
  (∃ b i, o = Some b ∧ d !! data_path (paths l a) = Some b
     ∧ d !! index_path (paths l a) = Some i ∧ key_index_from_slice i = inr (current_index a.2))
  ∨ (d !! data_path (paths l a) = None ∧ d !! index_path (paths l a) = None
     ∧ o = d !! legacy_path (paths l a)).

Lemma require_key_index_ok d p key stage :
  require_key_index_matches engine d p key stage = Ok tt →
  ∃ i, d !! p = Some i ∧ key_index_from_slice i = inr (current_index key).
Proof.
  unfold require_key_index_matches. intros H. inv_ok.
  match goal with Hr : read_key_index _ _ _ _ = Ok ?o |- _ => destruct o as [k|] end; [|done].
  inv_ok. split_bool. subst. by eapply read_key_index_some.
Qed.

Lemma slot_bytes_reads d l a max o :
  (max ≤ usize_max)%N → slot_bytes engine d (paths l a) a.2 max = Ok o → slot_reads d l a o.
Proof.
  unfold slot_bytes. intros Hmax H. inv_ok.
  match goal with Hr : read_file_bounded _ _ _ _ = Ok ?f |- _ =>
    apply read_file_bounded_ok in Hr as Hf; [|done]; destruct f as [b|] end; inv_ok.
  - left. match goal with Hr : require_key_index_matches _ _ _ _ _ = Ok ?u |- _ =>
      destruct u; apply require_key_index_ok in Hr as (i & Hi & Hk) end. by exists b, i.
  - right. match goal with Hr : read_key_index _ _ _ _ = Ok ?f |- _ =>
      destruct f; [done|]; apply read_key_index_none in Hr end.
    apply read_file_bounded_ok in H; [|done]. by split_and!.
Qed.

Lemma slot_bytes_unbounded_reads d l a stage o :
  slot_bytes_unbounded engine d (paths l a) a.2 stage = Ok o → slot_reads d l a o.
Proof.
  unfold slot_bytes_unbounded. intros H.
  destruct (d !! data_path (paths l a)) as [b|] eqn:Hd; inv_ok.
  - left. match goal with Hr : require_key_index_matches _ _ _ _ _ = Ok ?u |- _ =>
      destruct u; apply require_key_index_ok in Hr as (i & Hi & Hk) end. by exists b, i.
  - right. match goal with Hr : read_key_index _ _ _ _ = Ok ?f |- _ =>
      destruct f; [done|]; apply read_key_index_none in Hr end. by inv_ok.
Qed.

(** What is read from a slot is the value represented there. *)
Lemma slot_reads_sound {V} (enc : V → bytes → Prop) d l m a o :
  addressing_ok engine → lane_rep enc ∅ l d m → slot_reads d l a o →
  match o with
  | Some b => ∃ v, m !! a = Some v ∧ enc v b
  | None => m !! a = None
  end.
Proof.
  intros Hok Hrep [(b & i & -> & Hd & Hi & Hk)|(Hd & Hi & ->)].
  - destruct (lane_rep_data enc l d m a b Hok Hrep Hd) as (a' & i' & v & Heq & Hm & He & Hi' & Hk').
    rewrite Hi in Hi'. injection Hi' as <-. rewrite Hk in Hk'.
    unfold current_index in Hk'. injection Hk' as Hkey. apply slot_namespace in Heq.
    assert (a' = a) as -> by (destruct a, a'; cbn in *; congruence). by exists v.
  - destruct Hrep as [Hp Ho]. destruct (d !! legacy_path (paths l a)) as [b|] eqn:Hg.
    + destruct (Ho (legacy_path (paths l a))) as (a' & Ha' & Hin).
      * apply (slot_files_not_tmp l a); [done|]. unfold slot_files. by do 2 right; left.
      * by eexists.
      * done.
      * assert (a = a') as <-.
        { destruct (slot_distinct engine l l a' a) as (_ & H2 & H3). revert Hin.
          unfold slot_files. rewrite !elem_of_cons, elem_of_nil.
          intros [H|[H|[H|[]]]]; [by destruct H2|by destruct H3|]. by eapply legacy_path_inj. }
        rewrite union_empty_r_L in Ha'. apply elem_of_dom in Ha' as [v Hv].
        exists v. split; [done|].
        destruct (Hp a v) as [b' i H1|b' H1 H2 H3]; [set_solver|done|by rewrite Hd in H1|].
        by simplify_eq.
    + destruct (m !! a) as [v|] eqn:Hm; [|done].
      destruct (Hp a v) as [b' i H1|b' H1 H2 H3]; [set_solver|done|by rewrite Hd in H1|].
      by rewrite Hg in H3.
Qed.

End Rep.

(** * File engine: restoring an image

    [restore_transaction_image] can be interrupted anywhere and started again:
    the disk stays torn at most at the addresses of the image and behind the
    recorded prefix of the event log, and a complete restore settles both. *)

Local Open Scope N_scope.

(** A predicate that does not depend on the files of a set of paths. *)
Definition frame (touches : path → Prop) (F : disk → Prop) : Prop :=
  ∀ d d', (∀ p, is_orphan_tmp_path p = false → ¬ touches p → d !! p = d' !! p) → F d → F d'.

Lemma frame_true X : frame X (λ _, True).
Proof. by intros d d'. Qed.

Lemma frame_and X F G : frame X F → frame X G → frame X (λ d, F d ∧ G d).
Proof. intros HF HG d d' H [H1 H2]. split; [by eapply HF|by eapply HG]. Qed.

Lemma frame_mono (X Y : path → Prop) F : (∀ p, X p → Y p) → frame Y F → frame X F.
Proof. intros H HF d d' Heq. apply HF. intros p Ht Hp. apply Heq; auto. Qed.

Lemma frame_lookup (X : path → Prop) p (P : option bytes → Prop) :
  is_orphan_tmp_path p = false → ¬ X p → frame X (λ d, P (d !! p)).
Proof. intros Ht Hp d d' H. by rewrite H. Qed.

Section Restore.
Context {codec : StoreCodec} {fc : FileCodec} {laws : FileCodecLaws fc}.
Context (engine : FileStoreEngine).
Implicit Types (l : Lane) (a : address) (d : disk) (A : gset address).

Local Abbreviation paths := (slot_paths engine).

(** ** One slot *)

Section Slot.
Context {V : Type} (enc : V → bytes → Prop).
Context (strict : Prop) (A : gset address) (l : Lane) (m : gmap address V) (a : address).
Context (F : disk → Prop).
Context (Hok : addressing_ok engine) (Hcf : collision_free engine l (dom m ∪ A)) (Ha : a ∈ A).
Context (HF : frame (in_lane l) F).

Let torn d := lane_rep engine enc A l d m ∧ F d.

Lemma torn_change d d' p :
  p ∈ slot_files engine l a →
  (∀ q, is_orphan_tmp_path q = false → q ≠ p → d !! q = d' !! q) → torn d → torn d'.
Proof.
  intros Hin Heq [Hr Hf]. split.
  - pose (d1 := match d' !! p with Some b => <[p := b]> d | None => delete p d end).
    assert (Hd1 : d1 !! p = d' !! p).
    { unfold d1. destruct (d' !! p); [by rewrite lookup_insert_eq|by rewrite lookup_delete_eq]. }
    assert (Hne : ∀ q, q ≠ p → d1 !! q = d !! q).
    { intros q Hq. unfold d1.
      destruct (d' !! p); [by rewrite lookup_insert_ne|by rewrite lookup_delete_ne]. }
    apply (lane_rep_frame engine enc A l d1); [done| |].
    + intros q Ht _. destruct (decide (q = p)) as [->|Hq]; [done|]. rewrite Hne by done. auto.
    + eapply (lane_rep_touch engine enc A l d d1 m a p); [done..| |done].
      intros q Hq. by rewrite Hne.
  - eapply HF; [|exact Hf]. intros q Ht Hq. apply Heq; [done|]. intros ->.
    by apply Hq, (slot_files_in_lane engine l a).
Qed.

Lemma slot_write_spec p b stage (G : disk → Prop) :
  p ∈ slot_files engine l a → stable p → frame (eq p) G →
  spec strict (λ d, torn d ∧ G d) (atomic_write p b (file_fsync engine) stage)
    (λ _ d, torn d ∧ G d ∧ d !! p = Some b) torn.
Proof.
  intros Hin Hst HG. apply spec_pre. intros d0 [Ht Hg].
  eapply spec_conseq; [apply (atomic_write_spec strict d0 p b); done|done|by intros d <-|..].
  - intros [] d Hd. split_and!.
    + eapply (torn_change d0 d p); [done| |done]. intros q Hq Hne.
      rewrite (Hd q Hq). by rewrite lookup_insert_ne.
    + eapply HG; [|exact Hg]. intros q Hq Hne. rewrite (Hd q Hq). by rewrite lookup_insert_ne.
    + destruct Hst as [Hst _]. rewrite (Hd p Hst). by rewrite lookup_insert_eq.
  - intros d Hd. eapply (torn_change d0 d p); [done| |done]. intros q Hq Hne.
    destruct Hd as [Hd|Hd]; rewrite (Hd q Hq); [done|]. by rewrite lookup_insert_ne.
Qed.

Lemma slot_remove_spec p stage (G : disk → Prop) :
  p ∈ slot_files engine l a → frame (eq p) G →
  spec strict (λ d, torn d ∧ G d) (remove_file_if_exists p stage)
    (λ _ d, torn d ∧ G d ∧ d !! p = None) torn.
Proof.
  intros Hin HG. apply spec_syscall; cbn; [|by intros d ? []]. intros d [Ht Hg].
  assert (Hne : ∀ q, q ≠ p → d !! q = delete p d !! q).
  { intros q Hq. by rewrite lookup_delete_ne. }
  split_and!.
  - eapply (torn_change d); [done| |done]. auto.
  - eapply HG; [|exact Hg]. auto.
  - by rewrite lookup_delete_eq.
Qed.

Lemma key_index_encoded key stage :
  ∃ b, key_index_bytes key stage = Ok b ∧ key_index_from_slice b = inr (current_index key).
Proof.
  destruct (key_index_round_trip (current_index key)) as (b & Hb & Hd). exists b.
  unfold key_index_bytes. unfold current_index in *. rewrite Hb. by split.
Qed.

Lemma restore_slot_spec ps value :
  (∀ r, ps = Ok r → r = paths l a) → (strict → ∃ r, ps = Ok r) →
  match value with
  | Some r => ∃ v b, m !! a = Some v ∧ r = Ok b ∧ enc v b
  | None => m !! a = None
  end →
  spec strict torn (restore_slot engine ps a.2 value)
    (λ _ d, lane_rep engine enc (A ∖ {[a]}) l d m ∧ F d) torn.
Proof.
  intros Hps Hstrict Hv. unfold restore_slot.
  destruct (slot_stable engine l a Hok) as [Hdata Hindex].
  destruct (slot_distinct engine l l a a) as (Hn1 & Hn2 & Hn3).
  eapply spec_bind with (R := λ r d, r = paths l a ∧ torn d).
  { apply spec_result; [by intros r d Hd Hr; rewrite (Hps r Hr)|].
    intros e d Hd Hr. split; [done|]. intros Hs. destruct (Hstrict Hs) as [r ?]. by simplify_eq. }
  intros ps'. apply spec_pre. intros d0 [-> Ht0].
  apply spec_conseq with (strict := strict) (P' := torn)
    (Q' := λ _ d, lane_rep engine enc (A ∖ {[a]}) l d m ∧ F d) (E' := torn);
    [|done|by intros d <-|done|done]. clear d0 Ht0.
  destruct value as [r|].
  - destruct Hv as (v & b & Hm & -> & He). unfold write_key_index.
    destruct (key_index_encoded a.2 recovery_stage) as (i & Hi & Hk). rewrite Hi.
    eapply spec_bind with
      (R := λ _ d, torn d ∧ d !! index_path (paths l a) = Some i).
    { eapply spec_bind with (R := λ x d, x = i ∧ torn d ∧ True);
        [by apply spec_result; [intros x d Hd [= ->]|]|].
      intros x. apply spec_pre. intros d0 (-> & Hd0 & _).
      eapply spec_conseq; [apply (slot_write_spec (index_path (paths l a)) i recovery_stage (λ _, True))|done|..].
      + unfold slot_files. by do 1 right; left.
      + done.
      + apply frame_true.
      + by intros d <-.
      + by intros [] d (? & _ & ?).
      + done. }
    intros _. eapply spec_bind with
      (R := λ x d, x = b ∧ torn d ∧ d !! index_path (paths l a) = Some i).
    { by apply spec_result; [intros x d Hd [= ->]|]. }
    intros x. apply spec_pre. intros d0 (-> & Hd0).
    eapply spec_conseq; [apply (slot_write_spec (data_path (paths l a)) b recovery_stage
                           (λ d, d !! index_path (paths l a) = Some i))|done|..].
    + by left.
    + done.
    + apply (frame_lookup _ _ (λ o, o = Some i)); [apply Hindex|]. done.
    + by intros d <-.
    + intros [] d ([Hr Hf] & Hx & Hy). split; [|done].
      eapply lane_rep_settle; [done| |done]. by eapply slot_current.
    + done.
  - eapply spec_bind; [eapply spec_conseq;
      [apply (slot_remove_spec (data_path (paths l a)) recovery_stage (λ _, True))|done|..]|intros ?].
    { by left. } { apply frame_true. } { by intros d Hd. } { by intros ? d Hd; exact Hd. } { done. }
    eapply spec_bind; [eapply spec_conseq;
      [apply (slot_remove_spec (index_path (paths l a)) recovery_stage
                (λ d, d !! data_path (paths l a) = None))|done|..]|intros ?].
    { unfold slot_files. by right; left. }
    { apply (frame_lookup _ _ (λ o, o = None)); [apply Hdata|congruence]. }
    { by intros d (? & _ & ?). } { by intros ? d Hd; exact Hd. } { done. }
    eapply spec_bind; [eapply spec_conseq;
      [apply (slot_remove_spec (legacy_path (paths l a)) recovery_stage
                (λ d, d !! data_path (paths l a) = None ∧ d !! index_path (paths l a) = None))|done|..]|intros ?].
    { unfold slot_files. by do 2 right; left. }
    { apply frame_and; apply (frame_lookup _ _ (λ o, o = None));
        [apply Hdata|congruence|apply Hindex|congruence]. }
    { by intros d (? & ? & ?). } { by intros ? d Hd; exact Hd. } { done. }
    apply spec_ret. intros d ([Hr Hf] & [Hd Hi] & Hg). split; [|done].
    apply lane_rep_settle_absent; [done..| |done]. unfold slot_files. intros p.
    rewrite !elem_of_cons, elem_of_nil. by intros [->|[->|[->|[]]]].
Qed.

End Slot.

(** ** The slots of a lane *)

(** An entry of an image as a slot, its key and what is written there. *)
Lemma restore_lane_spec {V W : Type} (enc : V → bytes → Prop) (strict : Prop) A l (m : gmap address V)
    (F : disk → Prop) (addr : W → address) (value : W → option (result bytes))
    (restore : W → io unit) (entries : list W) :
  addressing_ok engine → collision_free engine l (dom m ∪ A) → frame (in_lane l) F →
  list_to_set (addr <$> entries) = A →
  (∀ w, w ∈ entries →
     restore w = restore_slot engine
       (physical_key_paths engine (lane_name l) (addr w).1 (addr w).2 (lane_ext l))
       (addr w).2 (value w)) →
  (strict → ∀ a, a ∈ A →
     ∃ r, physical_key_paths engine (lane_name l) a.1 a.2 (lane_ext l) = Ok r) →
  (∀ w, w ∈ entries →
     match value w with
     | Some r => ∃ v b, m !! addr w = Some v ∧ r = Ok b ∧ enc v b
     | None => m !! addr w = None
     end) →
  spec strict (λ d, lane_rep engine enc A l d m ∧ F d) (io_each restore entries)
    (λ _ d, lane_rep engine enc ∅ l d m ∧ F d) (λ d, lane_rep engine enc A l d m ∧ F d).
Proof.
  intros Hok Hcf HF HA Hr Hpaths Hv.
  set (left done_ := A ∖ list_to_set (addr <$> done_) : gset address).
  assert (H := spec_each strict (λ done_ d, lane_rep engine enc (left done_) l d m ∧ F d)
    restore (λ d, lane_rep engine enc A l d m ∧ F d) entries).
  eapply spec_conseq; [apply H| done | | |done].
  - intros done_ w rest ->. assert (Hw : w ∈ done_ ++ w :: rest) by set_solver.
    assert (Haw : addr w ∈ A).
    { rewrite <- HA. apply elem_of_list_to_set, list_elem_of_fmap. eauto. }
    rewrite Hr by done.
    set (B := left done_ ∪ {[addr w]}).
    assert (HB : B ⊆ A) by (unfold B, left; set_solver).
    eapply spec_conseq; [apply (restore_slot_spec enc strict B l m (addr w) F)|done|..].
    + done.
    + assert (HdB : dom m ∪ B ⊆ dom m ∪ A) by (by apply union_mono_l).
      intros x y Hx Hy. apply Hcf; by apply HdB.
    + apply elem_of_union_r. by apply elem_of_singleton.
    + done.
    + intros r Hp. by apply physical_key_paths_ok in Hp as [-> _].
    + intros Hs. by apply Hpaths.
    + by apply Hv.
    + intros d [Hd Hf]. split; [|done]. eapply lane_rep_weaken; [|done].
      apply union_subseteq_l.
    + intros [] d [Hd Hf]. split; [|done].
      replace (left (done_ ++ [w])) with (B ∖ {[addr w]}); [done|].
      unfold B, left. clear. rewrite fmap_app, list_to_set_app_L. cbn. set_solver.
    + intros d [Hd Hf]. split; [|done]. by eapply lane_rep_weaken.
  - intros d Hd. unfold left. cbn. by rewrite difference_empty_L.
  - intros [] d Hd. unfold left in Hd. by rewrite HA, difference_diag_L in Hd.
Qed.

(** ** The event log *)

(** The log holds at least the records of [pre], [n] bytes of them. *)
Definition log_prefix (pre : list MemoryStoreEvent) (n : N) d : Prop :=
  ∃ b, log_of pre b ∧ len b = n ∧ take (N.to_nat n) (content d events_path) = b.

Lemma events_path_stable : stable events_path.
Proof. split; [done|]. by eexists. Qed.

Lemma log_prefix_intro pre b d suffix :
  log_of pre b → content d events_path = b ++ suffix → log_prefix pre (len b) d.
Proof.
  intros Hb Hc. exists b. split_and!; [done|done|]. rewrite Hc. unfold len.
  by rewrite Nat2N.id, take_app_length.
Qed.

Lemma events_content_insert d b : content (<[events_path := b]> d) events_path = b.
Proof. unfold content. by rewrite lookup_insert_eq. Qed.

Section Events.
Context (strict : Prop) (F : disk → Prop) (HF : frame (eq events_path) F).

Lemma frame_events d b : F d → F (<[events_path := b]> d).
Proof. apply HF. intros p _ Hp. by rewrite lookup_insert_ne. Qed.

Lemma log_prefix_take pre n d :
  log_prefix pre n d → ∃ b suffix, log_of pre b ∧ len b = n ∧ content d events_path = b ++ suffix.
Proof.
  intros (b & Hb & Hn & Ht). exists b, (drop (N.to_nat n) (content d events_path)).
  split_and!; [done|done|]. rewrite <- Ht. by rewrite take_drop.
Qed.

(** Appending one record keeps every shorter prefix when it is interrupted. *)
Lemma append_event_spec pre n es e :
  (strict → ∃ b, event_to_vec e = inr b) →
  (∃ suffix, es = pre ++ suffix) →
  (∃ b, log_of pre b ∧ len b = n) →
  spec strict (λ d, log_of es (content d events_path) ∧ F d) (append_event_unchecked engine e)
    (λ _ d, log_of (es ++ [e]) (content d events_path) ∧ F d)
    (λ d, log_prefix pre n d ∧ F d).
Proof.
  intros Hs [suffix ->] (b0 & Hb0 & Hn).
  assert (Hpre : ∀ b, log_of (pre ++ suffix) b → ∃ t, b = b0 ++ t).
  { intros b Hb. apply log_of_app_inv in Hb as (b1 & t & -> & H1 & _). exists t.
    by rewrite (log_of_inj pre b1 b0). }
  assert (Hlog : ∀ d b, log_of (pre ++ suffix) b → (∃ t, content d events_path = b ++ t) →
                        log_prefix pre n d).
  { intros d b Hb [t Ht]. destruct (Hpre b Hb) as [u ->]. rewrite <- app_assoc in Ht.
    rewrite <- Hn. by eapply log_prefix_intro. }
  assert (Hkeep : ∀ d, log_of (pre ++ suffix) (content d events_path) ∧ F d →
                       log_prefix pre n d ∧ F d).
  { intros d [Hd Hf]. split; [|done]. eapply Hlog; [done|]. exists []. by rewrite app_nil_r. }
  unfold append_event_unchecked.
  eapply spec_bind with (R := λ _ d, log_of (pre ++ suffix) (content d events_path) ∧ F d);
    [by apply spec_noop|intros _].
  eapply spec_bind with (R := λ _ d, log_of (pre ++ suffix) (content d events_path) ∧ F d).
  { apply spec_syscall; cbn [fst snd]; [|auto]. intros d [Hd Hf]. rewrite events_content_insert.
    split; [done|]. by apply frame_events. }
  intros _. eapply spec_bind with (R := λ b d, event_to_vec e = inr b
    ∧ log_of (pre ++ suffix) (content d events_path) ∧ F d).
  { unfold decoded. apply spec_result.
    - intros b d Hd Hb. destruct (event_to_vec e); by simplify_eq.
    - intros err d Hd Hb. split; [auto|]. intros Hst. destruct (Hs Hst) as [b Hb']. by rewrite Hb' in Hb. }
  intros b. apply spec_pre. intros d0 (Hb & Hd0 & Hf0). set (c0 := content d0 events_path) in *.
  eapply spec_bind with (R := λ _ d, content d events_path = c0 ++ b ∧ F d).
  { apply spec_syscall; cbn [fst snd].
    - intros d <-. rewrite events_content_insert. split; [done|]. by apply frame_events.
    - intros d k <-. split; [|by apply frame_events]. eapply Hlog; [exact Hd0|].
      rewrite events_content_insert. by eexists. }
  intros _. eapply spec_bind with (R := λ _ d, log_of ((pre ++ suffix) ++ [e]) (content d events_path) ∧ F d).
  { apply spec_syscall; cbn [fst snd].
    - intros d [Hc Hf]. rewrite events_content_insert, Hc. split; [|by apply frame_events].
      rewrite <- (app_assoc c0). apply log_of_app; [done|]. apply log_of_cons. exists b, [].
      split_and!; [done|by apply log_of_nil|done].
    - intros d k [Hc Hf]. split; [|by apply frame_events]. eapply Hlog; [exact Hd0|].
      rewrite events_content_insert, Hc, <- app_assoc. by eexists. }
  intros _. destruct (file_fsync engine); [|by apply spec_ret].
  apply spec_noop; [done|]. intros d [Hd Hf]. split; [|done].
  assert (He : log_of [e] (b ++ [newline])).
  { apply log_of_cons. exists b, []. split_and!; [done|by apply log_of_nil|done]. }
  pose proof (log_of_app _ _ _ _ Hd0 He) as Hall. eapply Hlog; [exact Hd0|].
  exists (b ++ [newline]). unfold log_of in *. congruence.
Qed.

Lemma restore_events_spec pre n es :
  (strict → ∃ b, log_of es b) →
  spec strict (λ d, log_prefix pre n d ∧ F d) (restore_events engine (Append n es))
    (λ _ d, log_of (pre ++ es) (content d events_path) ∧ F d) (λ d, log_prefix pre n d ∧ F d).
Proof.
  intros Hs. apply spec_pre. intros d0 [Hd0 Hf0]. cbn [restore_events].
  assert (Hb0 : ∃ b, log_of pre b ∧ len b = n) by (destruct Hd0 as (b & ? & ? & _); eauto).
  eapply spec_bind with (R := λ _ d, log_prefix pre n d ∧ F d).
  { apply spec_syscall; cbn [fst snd]; [|by intros d ? <-]. intros d <-. split; [|by apply frame_events].
    destruct Hd0 as (b & ? & ? & ?). exists b. by rewrite events_content_insert. }
  intros _. eapply spec_bind with (R := λ _ d, log_of pre (content d events_path) ∧ F d).
  { apply spec_syscall; cbn [fst snd]; [|done]. intros d [Hd Hf]. split; [|by apply frame_events].
    rewrite events_content_insert. apply log_prefix_take in Hd as (b & suf & Hb & Hn & ->).
    rewrite resize_le by (rewrite length_app; unfold len in Hn; lia).
    replace (N.to_nat n) with (length b) by (unfold len in Hn; lia).
    by rewrite take_app_length. }
  intros _. eapply spec_conseq;
    [apply (spec_each strict (λ done_ d, log_of (pre ++ done_) (content d events_path) ∧ F d)
              (append_event_unchecked engine) (λ d, log_prefix pre n d ∧ F d) es)
    |done| | |done].
  - intros done_ e rest ->.
    eapply spec_conseq; [apply (append_event_spec pre n (pre ++ done_) e)|done|..].
    + intros Hst. destruct (Hs Hst) as [b Hb].
      apply log_of_app_inv in Hb as (_ & t & _ & _ & Ht).
      apply log_of_cons in Ht as (r & _ & Hr & _). eauto.
    + eauto.
    + done.
    + done.
    + intros [] d Hd. by rewrite <- app_assoc in Hd.
    + done.
  - intros d Hd. by rewrite app_nil_r.
  - done.
Qed.

End Events.
End Restore.
