(* ===== verification/FileRecovery.v ===== *)
(** * File engine: journals and recovery

    [holds d s]: the disk, after recovery, represents the store [s].  Recovery
    always succeeds on such a disk when nothing interrupts it and keeps the
    relation when something does; publishing a journal moves the relation from
    one store to the next, at one point in time. *)

From S2P Require Import Prelude RustStr Profile Resource Budget BudgetCompile BudgetAuthority.
From S2P Require Import StoreTypes StoreTransaction StorePlan InMemoryStore StoreFacts.
From S2P Require Import FileSystem FileAddress FileJournal FileEngine FileRep.

Local Open Scope string_scope.
Local Open Scope list_scope.
Local Open Scope N_scope.
Local Open Scope beetle_scope.

Section Recovery.
Context {codec : StoreCodec} {fc : FileCodec} {laws : FileCodecLaws fc}.
Context (engine : FileStoreEngine).
Implicit Types (d : disk) (s : InMemoryStoreEngineState) (A B : gset address).

Definition kv_enc (v : Value) (b : bytes) : Prop := json_from_slice b = inr v.
Definition blob_enc (v b : bytes) : Prop := b = v.

Record represents d s : Prop := {
  rep_json : lane_rep engine kv_enc ∅ KV d (json s);
  rep_blobs : lane_rep engine blob_enc ∅ BLOB d (blobs s);
  rep_events : log_of (events s) (content d events_path);
  rep_ids : log_ids s = list_to_set (event_id <$> events s);
}.

(** The disk represents the store except at [A], [B] and behind the records
    [pre] of the log. *)
Record torn A B (pre : list MemoryStoreEvent) (n : N) d s : Prop := {
  torn_json : lane_rep engine kv_enc A KV d (json s);
  torn_blobs : lane_rep engine blob_enc B BLOB d (blobs s);
  torn_log : log_prefix pre n d;
}.

(** The image [i] holds the values of the store at [A] and [B] and the events
    behind [pre]. *)
Record image_of A B (pre : list MemoryStoreEvent) (n : N) (i : FileTransactionImage) s : Prop := {
  im_json_addresses : list_to_set (jv_address <$> image_json i) = A;
  im_blob_addresses : list_to_set (bv_address <$> image_blobs i) = B;
  im_json e : e ∈ image_json i → json s !! jv_address e = jv_value e;
  im_blobs e : e ∈ image_blobs i → blobs s !! bv_address e = bv_value e;
  im_events : ∃ es, image_events i = Append n es ∧ events s = pre ++ es;
  im_prefix : ∃ b, log_of pre b ∧ len b = n;
  im_ids : log_ids s = list_to_set (event_id <$> events s);
}.

(** The addresses have paths, and no two of them share a digest. *)
Record addressable A B s : Prop := {
  ad_budget : addressing_ok engine;
  ad_json : collision_free engine KV (dom (json s) ∪ A);
  ad_blobs : collision_free engine BLOB (dom (blobs s) ∪ B);
  ad_json_paths a : a ∈ A → ∃ r, json_paths engine a.1 a.2 = Ok r;
  ad_blob_paths a : a ∈ B → ∃ r, blob_paths engine a.1 a.2 = Ok r;
}.

(** ** Frames *)

Definition store_file (p : path) : Prop := in_lane KV p ∨ in_lane BLOB p ∨ p = events_path.

Lemma lane_rep_other {V : Type} (enc : V → bytes → Prop) A (l : Lane) (m : gmap address V) (X : path → Prop) :
  addressing_ok engine → (∀ p, X p → ¬ in_lane l p) →
  frame X (λ d, lane_rep engine enc A l d m).
Proof.
  intros Hok HX d d' Heq. apply lane_rep_frame; [done|]. intros p Ht Hl. apply Heq; [done|].
  intros Hx. by apply (HX p).
Qed.

Lemma content_frame (X : path → Prop) (P : bytes → Prop) :
  ¬ X events_path → frame X (λ d, P (content d events_path)).
Proof.
  intros HX. apply (frame_lookup X events_path (λ o, P (default [] o))); [done|done].
Qed.

Lemma log_prefix_frame (X : path → Prop) pre n :
  ¬ X events_path → frame X (log_prefix pre n).
Proof.
  apply (content_frame X (λ c, ∃ b, log_of pre b ∧ len b = n ∧ take (N.to_nat n) c = b)).
Qed.

Lemma in_lane_apart p : in_lane KV p → ¬ in_lane BLOB p.
Proof. unfold in_lane. intros ->. done. Qed.

Lemma events_in_no_lane l : ¬ in_lane l events_path.
Proof. by destruct l. Qed.

Lemma represents_frame (X : path → Prop) s :
  addressing_ok engine → (∀ p, X p → ¬ store_file p) → frame X (λ d, represents d s).
Proof.
  intros Hok HX d d' Heq [H1 H2 H3 H4]. unfold store_file in HX. split; [..|done].
  - eapply (lane_rep_other kv_enc); [done| |exact Heq|done]. intros p Hp Hl. eapply HX; eauto.
  - eapply (lane_rep_other blob_enc); [done| |exact Heq|done]. intros p Hp Hl. eapply HX; eauto.
  - eapply (content_frame X (log_of (events s))); [|exact Heq|done].
    intros Hp. eapply HX; [exact Hp|]. auto.
Qed.

Lemma torn_frame (X : path → Prop) A B pre n s :
  addressing_ok engine → (∀ p, X p → ¬ store_file p) → frame X (λ d, torn A B pre n d s).
Proof.
  intros Hok HX d d' Heq [H1 H2 H3]. unfold store_file in HX. split.
  - eapply (lane_rep_other kv_enc); [done| |exact Heq|done]. intros p Hp Hl. eapply HX; eauto.
  - eapply (lane_rep_other blob_enc); [done| |exact Heq|done]. intros p Hp Hl. eapply HX; eauto.
  - eapply (log_prefix_frame X); [|exact Heq|done]. intros Hp. eapply HX; [exact Hp|]. auto.
Qed.

(** A complete representation is torn nowhere. *)
Lemma represents_torn A B pre n d s :
  represents d s → (∃ b, log_of pre b ∧ len b = n) → (∃ es, events s = pre ++ es) →
  torn A B pre n d s.
Proof.
  intros [H1 H2 H3 _] (b & Hb & Hn) (es & He). split.
  - eapply lane_rep_weaken; [|done]. apply empty_subseteq.
  - eapply lane_rep_weaken; [|done]. apply empty_subseteq.
  - rewrite He in H3. apply log_of_app_inv in H3 as (b1 & t & Hc & Hb1 & _).
    rewrite <- Hn, (log_of_inj pre b b1) by done. by eapply log_prefix_intro.
Qed.

(** ** Restoring an image *)

Lemma restore_image_spec strict A B pre n i s (F : disk → Prop) :
  image_of A B pre n i s → addressable A B s →
  (strict → ∃ b, log_of (events s) b) → frame store_file F →
  spec strict (λ d, torn A B pre n d s ∧ F d) (restore_transaction_image engine i)
    (λ _ d, represents d s ∧ F d) (λ d, torn A B pre n d s ∧ F d).
Proof.
  intros [HA HB Hj Hb (es & Hes & Hev) Hpre Hids] [Hok Hcj Hcb Hpj Hpb] Hlog HF.
  unfold restore_transaction_image. unfold store_file in HF.
  eapply spec_bind with (R := λ _ d, lane_rep engine kv_enc ∅ KV d (json s)
    ∧ lane_rep engine blob_enc B BLOB d (blobs s) ∧ log_prefix pre n d ∧ F d).
  { eapply spec_conseq; [apply (restore_lane_spec engine kv_enc strict A KV (json s)
      (λ d, lane_rep engine blob_enc B BLOB d (blobs s) ∧ log_prefix pre n d ∧ F d)
      jv_address (λ e, (λ v, decoded recovery_stage (json_to_vec_pretty v)) <$> jv_value e))
      |done|..]; try done.
    - repeat apply frame_and.
      + apply lane_rep_other; [done|apply in_lane_apart].
      + apply log_prefix_frame, events_in_no_lane.
      + eapply frame_mono; [|exact HF]. cbn; auto.
    - intros e He. rewrite Hj by done. destruct (jv_value e) as [v|]; [|done]. cbn.
      destruct (json_round_trip v) as (b & Hb1 & Hb2). exists v, b. by rewrite Hb1.
    - by intros d [[? ? ?] ?].
    - by intros d (? & ? & ? & ?). }
  intros []. eapply spec_bind with (R := λ _ d, lane_rep engine blob_enc ∅ BLOB d (blobs s)
    ∧ lane_rep engine kv_enc ∅ KV d (json s) ∧ log_prefix pre n d ∧ F d).
  { eapply spec_conseq; [apply (restore_lane_spec engine blob_enc strict B BLOB (blobs s)
      (λ d, lane_rep engine kv_enc ∅ KV d (json s) ∧ log_prefix pre n d ∧ F d)
      bv_address (λ e, Ok <$> bv_value e))|done|..]; try done.
    - repeat apply frame_and.
      + apply lane_rep_other; [done|]. intros p H1 H2. by eapply in_lane_apart.
      + apply log_prefix_frame, events_in_no_lane.
      + eapply frame_mono; [|exact HF]. cbn; auto.
    - intros e He. rewrite Hb by done. destruct (bv_value e) as [v|]; [|done]. cbn.
      by exists v, v.
    - by intros d (? & ? & ? & ?).
    - intros d (? & ? & ? & ?). split; [|done]. split; [|done|done].
      eapply lane_rep_weaken; [|done]. apply empty_subseteq. }
  intros []. eapply spec_bind with (R := λ _ d, represents d s ∧ F d).
  { rewrite Hes. eapply spec_conseq; [apply (restore_events_spec engine strict
      (λ d, lane_rep engine kv_enc ∅ KV d (json s) ∧ lane_rep engine blob_enc ∅ BLOB d (blobs s) ∧ F d))
      |done|..].
    - repeat apply frame_and.
      + apply lane_rep_other; [done|]. intros p <-. apply events_in_no_lane.
      + apply lane_rep_other; [done|]. intros p <-. apply events_in_no_lane.
      + eapply frame_mono; [|exact HF]. cbn; auto.
    - intros Hs. destruct (Hlog Hs) as [b Hb0]. rewrite Hev in Hb0.
      apply log_of_app_inv in Hb0 as (_ & t & _ & _ & Ht). by exists t.
    - by intros d (? & ? & ? & ?).
    - intros [] d (? & ? & ? & ?). split; [|done]. split; [done|done|by rewrite Hev|done].
    - intros d (? & ? & ? & ?). split; [|done].
      split; [| |done]; (eapply lane_rep_weaken; [|done]); apply empty_subseteq. }
  intros []. apply spec_sync_directory. intros d [Hd Hf]. split; [|done].
  by apply represents_torn; [|destruct Hpre; eauto|exists es].
Qed.

(** ** The journal *)

Lemma marker_stable : stable transaction_marker_path.
Proof. split; [done|]. by eexists. Qed.

Lemma marker_not_store : ¬ store_file transaction_marker_path.
Proof. unfold store_file, in_lane. cbn. by intros [H|[H|H]]; simplify_eq. Qed.

Lemma frame_marker (P : option bytes → Prop) :
  frame store_file (λ d, P (d !! transaction_marker_path)).
Proof. apply frame_lookup; [apply marker_stable|apply marker_not_store]. Qed.

(** A journal that the reader accepts. *)
Definition valid_journal (j : FileTransactionJournal) : Prop :=
  journal_schema_version j = 2 ∧ verify_checksum j = Ok tt
  ∧ validate_image_address_contract j = Ok tt.

Lemma expected_checksum_with j c : expected_checksum (with_checksum j c) = expected_checksum j.
Proof. done. Qed.

Lemma refreshed_checksum j j' :
  refresh_checksum j = Ok j' →
  verify_checksum j' = Ok tt ∧ ∃ c, j' = with_checksum j c.
Proof.
  unfold refresh_checksum. intros H. inv_ok.
  match goal with E : expected_checksum j = Ok ?c |- _ => split; [|by exists c]; unfold verify_checksum;
    rewrite expected_checksum_with, E end.
  cbn. by rewrite bool_decide_eq_true_2.
Qed.

(** The store that a disk holds, possibly behind a journal. *)
Definition holds d s : Prop :=
  (d !! transaction_marker_path = None ∧ represents d s)
  ∨ (∃ b j A B pre n,
       d !! transaction_marker_path = Some b ∧ len b ≤ journal_max_bytes engine
       ∧ journal_from_slice b = inr j ∧ valid_journal j
       ∧ image_of A B pre n (journal_image j) s ∧ addressable A B s
       ∧ (∃ c, log_of (events s) c) ∧ torn A B pre n d s).

Lemma journal_max_usize : journal_max_bytes engine ≤ usize_max.
Proof. apply saturating_add_bound. Qed.

Lemma read_journal_of d b j :
  d !! transaction_marker_path = Some b → len b ≤ journal_max_bytes engine →
  journal_from_slice b = inr j → valid_journal j →
  read_transaction_journal_read_only engine d = Ok (Some j).
Proof.
  intros Hd Hl Hj (Hv & Hc & Ha). unfold read_transaction_journal_read_only, read_file_bounded.
  pose proof journal_max_usize. pose proof (proj2 (N.leb_le _ _) Hl) as Hl'.
  rewrite Hd, Hl'. cbn [ensure mbind result_bind].
  rewrite firstn_all2, Hl' by (unfold len, saturating_add in *; lia).
  cbn [ensure mbind result_bind]. rewrite Hj, Hv. cbn [N.eqb Pos.eqb ensure mbind result_bind].
  by rewrite Hc, Ha.
Qed.

Lemma read_journal_none d :
  d !! transaction_marker_path = None → read_transaction_journal_read_only engine d = Ok None.
Proof.
  intros H. unfold read_transaction_journal_read_only, read_file_bounded. by rewrite H.
Qed.

(** Removing the journal. *)
Lemma remove_journal_spec strict stage s b :
  addressing_ok engine →
  spec strict (λ d, represents d s ∧ d !! transaction_marker_path = Some b)
    (remove_transaction_journal engine stage)
    (λ _ d, d !! transaction_marker_path = None ∧ represents d s)
    (λ d, represents d s ∧ (d !! transaction_marker_path = None
                            ∨ d !! transaction_marker_path = Some b)).
Proof.
  intros Hok. unfold remove_transaction_journal.
  eapply spec_bind with (R := λ _ d, d !! transaction_marker_path = None ∧ represents d s).
  - apply spec_syscall; cbn [fst snd]; [|by intros d ? []; auto]. intros d [Hd _].
    rewrite lookup_delete_eq. split; [done|].
    eapply (represents_frame (eq transaction_marker_path)); [done| | |exact Hd].
    + intros p <-. apply marker_not_store.
    + intros p _ Hp. by rewrite lookup_delete_ne.
  - intros ?. apply spec_sync_directory. intros d []; auto.
Qed.

(** Recovery returns when nothing interrupts it, and an interruption changes
    nothing of what the disk holds. *)
Lemma recover_spec s :
  addressing_ok engine →
  spec True (λ d, holds d s) (recover_transaction_if_needed engine)
    (λ _ d, d !! transaction_marker_path = None ∧ represents d s) (λ d, holds d s).
Proof.
  intros Hok. unfold recover_transaction_if_needed. apply spec_pre. intros d0 H0.
  pose proof H0 as [[Hm Hr]|(b & j & A & B & pre & n & Hm & Hl & Hj & Hv & Hi & Had & Hc & Ht)].
  - eapply spec_bind with (R := λ o d, o = None ∧ d = d0).
    + apply spec_read.
      * intros o d <-. rewrite read_journal_none by done. by intros [= <-].
      * intros e d <-. by rewrite read_journal_none.
      * by intros d <-.
    + intros o. apply spec_pre. intros d1 [-> ->]. apply spec_ret. by intros d <-.
  - eapply spec_bind with (R := λ o d, o = Some j ∧ d = d0).
    + apply spec_read.
      * intros o d <-. rewrite (read_journal_of d0 b j) by done. by intros [= <-].
      * intros e d <-. by rewrite (read_journal_of d0 b j).
      * by intros d <-.
    + intros o. apply spec_pre. intros d1 [-> ->]. cbn [recover_validated_transaction].
      assert (Hback : ∀ d, torn A B pre n d s ∧ d !! transaction_marker_path = Some b → holds d s).
      { intros d [Hd Hmd]. right. by exists b, j, A, B, pre, n. }
      eapply spec_bind with (R := λ _ d, represents d s ∧ d !! transaction_marker_path = Some b).
      * eapply spec_conseq; [apply (restore_image_spec True A B pre n (journal_image j) s
          (λ d, d !! transaction_marker_path = Some b))|done|..]; try done.
        -- apply (frame_marker (λ o, o = Some b)).
        -- by intros d <-.
      * intros _. eapply spec_pre. intros d [Hd Hmd].
        eapply spec_conseq; [apply (remove_journal_spec True recovery_stage s b Hok)|done|..].
        -- by intros d' <-.
        -- done.
        -- intros d' [Hd' [Hn|Hs]]; [by left|]. apply Hback. split; [|done].
           destruct Hi as [_ _ _ _ (es & _ & He) Hp _]. apply represents_torn; eauto.
Qed.

(** ** Publishing a journal *)

(** Two stores that differ at most where the images write. *)
Record next_store A B (s s' : InMemoryStoreEngineState) : Prop := {
  ns_json a : a ∉ A → json s !! a = json s' !! a;
  ns_blobs a : a ∉ B → blobs s !! a = blobs s' !! a;
}.

Lemma next_store_sym A B s s' : next_store A B s s' → next_store A B s' s.
Proof. intros [H1 H2]. split; intros a Ha; symmetry; auto. Qed.

Lemma torn_next A B pre n d s s' :
  next_store A B s s' → torn A B pre n d s → torn A B pre n d s'.
Proof.
  intros [H1 H2] [T1 T2 T3]. split; [..|done]; eapply lane_rep_outside; eauto.
Qed.

(** Writing the marker: it is replaced, or it stays. *)
Lemma write_journal_spec strict j (P : disk → Prop) (o : option bytes) b :
  journal_to_vec j = inr b → frame (eq transaction_marker_path) P →
  spec strict (λ d, P d ∧ d !! transaction_marker_path = o) (write_transaction_journal engine j)
    (λ _ d, P d ∧ d !! transaction_marker_path = Some b)
    (λ d, P d ∧ (d !! transaction_marker_path = o ∨ d !! transaction_marker_path = Some b)).
Proof.
  intros Hb HP. unfold write_transaction_journal. rewrite Hb. cbn [decoded].
  eapply spec_bind with (R := λ c d, c = b ∧ P d ∧ d !! transaction_marker_path = o);
    [by apply spec_result; [intros c d Hd [= ->]|]|].
  intros c. apply spec_pre. intros d0 (-> & H0 & Hm0).
  assert (Hmove : ∀ d, d ≈ <[transaction_marker_path := b]> d0 →
                       P d ∧ d !! transaction_marker_path = Some b).
  { intros d Hd. split.
    - eapply HP; [|exact H0]. intros p Hp Hne. rewrite (Hd p Hp). by rewrite lookup_insert_ne.
    - rewrite (Hd _ (proj1 marker_stable)). by rewrite lookup_insert_eq. }
  assert (Hstay : ∀ d, d ≈ d0 → P d ∧ d !! transaction_marker_path = o).
  { intros d Hd. split; [|by rewrite (Hd _ (proj1 marker_stable))].
    eapply HP; [|exact H0]. intros p Hp _. symmetry. by apply Hd. }
  eapply spec_bind with (R := λ _ d, P d ∧ d !! transaction_marker_path = Some b).
  - eapply spec_conseq;
      [apply (atomic_write_spec strict d0 transaction_marker_path b), marker_stable|done|..].
    + by intros d <-.
    + intros [] d Hd. by apply Hmove.
    + intros d [Hd|Hd]; [destruct (Hstay d Hd)|destruct (Hmove d Hd)]; auto.
  - intros []. apply spec_sync_directory. intros d []. auto.
Qed.

Context (A B : gset address) (pre : list MemoryStoreEvent) (n : N).
Context (s0 s1 : InMemoryStoreEngineState) (j : FileTransactionJournal).
Context (Hstate : journal_state j = Prepared).
Context (Hvalid : valid_journal j).
Context (Hbefore : image_of A B pre n (journal_before j) s0).
Context (Hafter : image_of A B pre n (journal_after j) s1).
Context (Had0 : addressable A B s0) (Had1 : addressable A B s1).
Context (Hnext : next_store A B s0 s1).

(** The encoded journal can be read back: the reader's bound is not checked
    when the journal is written. *)
Definition journal_fits : Prop :=
  (∀ b, journal_to_vec j = inr b → len b ≤ journal_max_bytes engine)
  ∧ (∀ j' b, refresh_checksum (with_state j Committed) = Ok j' → journal_to_vec j' = inr b →
             len b ≤ journal_max_bytes engine).

Lemma committed_valid j' :
  refresh_checksum (with_state j Committed) = Ok j' →
  valid_journal j' ∧ journal_image j' = journal_after j.
Proof using Hvalid.
  clear -Hvalid. intros (Hc & c & ->)%refreshed_checksum. destruct Hvalid as (Hv & _ & Ha).
  done.
Qed.

(** The disk has a journal over the bound under which it is read. *)
Definition blocked (d : disk) : Prop :=
  ∃ b, d !! transaction_marker_path = Some b ∧ journal_max_bytes engine < len b.

(** An encoding of the journal, prepared or committed, that recovery could not
    read. *)
Lemma oversized_not_fits (b : bytes) :
  (journal_to_vec j = inr b
   ∨ ∃ j', refresh_checksum (with_state j Committed) = Ok j' ∧ journal_to_vec j' = inr b) →
  journal_max_bytes engine < len b → ¬ journal_fits.
Proof.
  clear. intros Hb Hlt [H1 H2]. destruct Hb as [Hb|(j' & Hj' & Hb)].
  - apply H1 in Hb. lia.
  - apply (H2 _ _ Hj') in Hb. lia.
Qed.

Lemma publish_spec :
  spec False (λ d, d !! transaction_marker_path = None ∧ represents d s0)
    (publish_journal engine j)
    (λ _ d, d !! transaction_marker_path = None ∧ represents d s1)
    (λ d, holds d s0 ∨ holds d s1 ∨ (¬ journal_fits ∧ blocked d)).
Proof.
  pose proof (ad_budget _ _ _ Had0) as Hok. unfold publish_journal.
  (* what a prepared or a committed journal means *)
  assert (Hprep : ∀ b d, journal_to_vec j = inr b → d !! transaction_marker_path = Some b →
            torn A B pre n d s1 → (∃ c, log_of (events s0) c) →
            holds d s0 ∨ holds d s1 ∨ (¬ journal_fits ∧ blocked d)).
  { intros b d Hb Hm Ht Hc. destruct (decide (len b ≤ journal_max_bytes engine)) as [Hle|Hgt%N.nle_gt].
    2: { right. right. split; [|by exists b]. apply (oversized_not_fits b); auto. }
    left. right. exists b, j, A, B, pre, n. unfold journal_image. rewrite Hstate.
    split_and!; try done; [by apply journal_round_trip|].
    eapply torn_next; [|done]. by apply next_store_sym. }
  assert (Htorn0 : ∀ d, represents d s0 → torn A B pre n d s1).
  { intros d Hd. eapply torn_next; [done|]. destruct Hbefore as [_ _ _ _ (es & _ & He) Hp _].
    apply represents_torn; eauto. }
  assert (Htorn1 : ∀ d, represents d s1 → torn A B pre n d s1).
  { intros d Hd. destruct Hafter as [_ _ _ _ (es & _ & He) Hp _]. apply represents_torn; eauto. }
  assert (Hfr0 : ∀ s, frame (eq transaction_marker_path) (λ d, represents d s)).
  { intros s. apply represents_frame; [done|]. intros p <-. apply marker_not_store. }
  destruct (journal_to_vec j) as [message|b] eqn:Hb.
  { unfold write_transaction_journal. rewrite Hb. cbn [decoded].
    eapply spec_bind with (R := λ _ _, False); [|by intros ? ? ? []].
    eapply spec_bind with (R := λ _ _, False); [|by intros ? ? ? []].
    apply spec_result; [done|]. intros e d [Hm Hd] _. split; [|by intros []]. by left; left. }
  (* prepare *)
  apply spec_pre. intros d0 [Hm0 H0]. assert (Hlog0 : ∃ c, log_of (events s0) c).
  { destruct H0 as [_ _ Hl _]. eauto. }
  eapply spec_bind with (R := λ _ d, represents d s0 ∧ d !! transaction_marker_path = Some b).
  { eapply spec_conseq; [apply (write_journal_spec False j (λ d, represents d s0) None b); auto
      |done|by intros d <-|done|].
    intros d [Hd [Hm|Hm]]; [by left; left|]. eapply Hprep; [done|done|by apply Htorn0|done]. }
  (* apply *)
  intros []. eapply spec_bind with (R := λ _ d, represents d s1 ∧ d !! transaction_marker_path = Some b).
  { eapply spec_conseq; [apply (restore_image_spec False A B pre n (journal_after j) s1
      (λ d, d !! transaction_marker_path = Some b)); [done|done|done|]|done|..].
    - apply (frame_marker (λ o, o = Some b)).
    - intros d [Hd Hm]. split; [by apply Htorn0|done].
    - done.
    - intros d [Hd Hm]. by eapply Hprep. }
  intros []. destruct (refresh_checksum (with_state j Committed)) as [j'|e] eqn:Hj'.
  2:{ eapply spec_bind with (R := λ _ _, False); [|by intros ? ? ? []].
      apply spec_result; [done|]. intros ? d [Hd Hm] _. split; [|by intros []].
      eapply Hprep; eauto. }
  eapply spec_bind with (R := λ x d, x = j' ∧ represents d s1 ∧ d !! transaction_marker_path = Some b).
  { by apply spec_result; [intros x d Hd [= ->]|]. }
  intros x. apply spec_pre. intros d1 (-> & H1 & Hm1).
  destruct (committed_valid j' Hj') as [Hv' Hi'].
  destruct (journal_to_vec j') as [message|b'] eqn:Hb'.
  { eapply spec_bind with (R := λ _ _, False); [|by intros ? ? ? []].
    unfold write_transaction_journal. rewrite Hb'. cbn [decoded].
    eapply spec_bind with (R := λ _ _, False); [|by intros ? ? ? []].
    apply spec_result; [done|]. intros ? d <- _. split; [|by intros []].
    eapply Hprep; eauto. }
  assert (Hcomm : ∀ d, d !! transaction_marker_path = Some b' → represents d s1 →
            holds d s1 ∨ (¬ journal_fits ∧ blocked d)).
  { intros d Hm Hd. destruct (decide (len b' ≤ journal_max_bytes engine)) as [Hle|Hgt%N.nle_gt].
    2: { right. split; [|by exists b']. apply (oversized_not_fits b'); eauto. }
    left. right. exists b', j', A, B, pre, n. rewrite Hi'.
    split_and!; try done; [by apply journal_round_trip| |by apply Htorn1].
    destruct Hd as [_ _ Hl _]. eauto. }
  (* commit *)
  eapply spec_bind with (R := λ _ d, represents d s1 ∧ d !! transaction_marker_path = Some b').
  { eapply spec_conseq; [apply (write_journal_spec False j' (λ d, represents d s1) (Some b) b'); auto
      |done|by intros d <-|done|].
    intros d [Hd [Hm|Hm]]; [eapply Hprep; eauto|right; by apply Hcomm]. }
  (* clean up *)
  intros []. eapply spec_conseq;
    [apply (remove_journal_spec False "file_store_transaction" s1 b' Hok)|done|done|done|].
  intros d [Hd [Hm|Hm]]; right; [by left; left|by apply Hcomm].
Qed.

End Recovery.
