(* ===== verification/FileLoad.v ===== *)
(** * File engine: the context of a commit

    What [load_transaction_context] reads from a disk is what the in-memory
    engine reads from the store the disk represents, or it is an error. *)

From S2P Require Import Prelude RustStr Profile Resource Budget BudgetCompile BudgetAuthority.
From S2P Require Import StoreTypes StoreTransaction StorePlan InMemoryStore StoreFacts.
From S2P Require Import FileSystem FileAddress FileJournal FileEngine FileRep.
From S2P Require Import FileRep FileRecovery.
From stdpp Require Import sorting.
From Stdlib Require Import Ascii.

Local Open Scope string_scope.
Local Open Scope list_scope.
Local Open Scope N_scope.

(** The capacities of an operation are machine words. *)
Record usize_capacity (c : StoreCapacityBudget) : Prop := {
  uc_snapshot : snapshot_max_bytes c ≤ usize_max;
  uc_blobs : blob_max_bytes c ≤ usize_max;
}.

(** ** Directories *)

Lemma file_names_elem (d : disk) dir name :
  name ∈ file_names d dir ↔ is_Some (d !! (dir ++ [name])).
Proof.
  unfold file_names. rewrite list_elem_of_omap. split.
  - intros (p & Hp & Hn). case_decide as Hd; [|done].
    apply list_elem_of_fmap in Hp as ([q b] & -> & Hq). cbn in *.
    apply elem_of_map_to_list in Hq. destruct q as [|x q] using rev_ind; [done|].
    rewrite last_snoc in Hn. simplify_eq. unfold parent. rewrite removelast_last. by eexists.
  - intros [b Hb]. exists (dir ++ [name]). split.
    + apply list_elem_of_fmap. exists (dir ++ [name], b). split; [done|].
      by apply elem_of_map_to_list.
    + unfold parent. rewrite removelast_last, decide_True by done. apply last_snoc.
Qed.

Lemma directory_names_elem (d : disk) dir name x rest :
  is_Some (d !! (dir ++ name :: x :: rest)) → name ∈ directory_names d dir.
Proof.
  intros [b Hb]. unfold directory_names. apply elem_of_remove_dups, list_elem_of_omap.
  exists (dir ++ name :: x :: rest). split.
  - apply list_elem_of_fmap. exists (dir ++ name :: x :: rest, b). split; [done|].
    by apply elem_of_map_to_list.
  - unfold below. rewrite take_app_length, decide_True by done. by rewrite drop_app_length.
Qed.

Lemma directory_names_NoDup d dir : NoDup (directory_names d dir).
Proof. apply NoDup_remove_dups. Qed.

(** A loop that appends to a list. *)
Lemma try_fold_gather {A W : Type} (f : list W → A → result (list W)) (Q : A → list W → Prop) l out out' :
  (∀ out x out', x ∈ l → f out x = Ok out' → ∃ new, out' = out ++ new ∧ Q x new) →
  try_fold f out l = Ok out' → ∃ news, out' = out ++ concat news ∧ Forall2 Q l news.
Proof.
  revert out. induction l as [|x l IH]; intros out Hf H; cbn [try_fold] in H.
  - inv_ok. exists []. cbn. by rewrite app_nil_r.
  - destruct (f out x) as [o1|] eqn:E; [|done]. cbn [mbind result_bind] in H.
    destruct (Hf _ _ _ (list_elem_of_here _ _) E) as (new & -> & Hq).
    destruct (IH _ (λ o y o' Hy, Hf o y o' (list_elem_of_further _ _ _ Hy)) H) as (news & -> & Hn).
    exists (new :: news). cbn. rewrite <- app_assoc. by split; [|constructor].
Qed.

Lemma gathered_elem {A W : Type} (Q : A → list W → Prop) l news w :
  Forall2 Q l news → w ∈ concat news → ∃ x new, x ∈ l ∧ Q x new ∧ w ∈ new.
Proof.
  induction 1 as [|x new l news Hq _ IH]; cbn; [by intros ?%elem_of_nil|].
  intros [Hw|Hw]%elem_of_app; [exists x, new|destruct (IH Hw) as (y & n & ? & ? & ?); exists y, n];
    split_and!; try done; by constructor.
Qed.

Lemma gathered_all {A W : Type} (Q : A → list W → Prop) l news x :
  Forall2 Q l news → x ∈ l → ∃ new, Q x new ∧ ∀ w, w ∈ new → w ∈ concat news.
Proof.
  induction 1 as [|y new l news Hq _ IH]; [by intros ?%elem_of_nil|].
  intros [->|Hx]%elem_of_cons.
  - exists new. split; [done|]. intros w Hw. cbn. set_solver.
  - destruct (IH Hx) as (n & Hn & Hall). exists n. split; [done|]. intros w Hw. cbn. set_solver.
Qed.

(** ** Folds that gather a part of a map *)

(** [m] restricted to the addresses of a set. *)
Definition part {V : Type} (S : gset address) (m : gmap address V) : gmap address V :=
  filter (λ p, p.1 ∈ S) m.

Lemma part_lookup {V : Type} (S : gset address) (m : gmap address V) a :
  part S m !! a = if decide (a ∈ S) then m !! a else None.
Proof.
  unfold part. rewrite map_lookup_filter. destruct (m !! a) as [v|]; cbn.
  - case_decide; [by rewrite option_guard_True|by rewrite option_guard_False].
  - by destruct (decide _).
Qed.

Lemma part_add {V : Type} (S : gset address) (m : gmap address V) a :
  part (S ∪ {[a]}) m = match m !! a with Some v => <[a := v]> (part S m) | None => part S m end.
Proof.
  apply map_eq. intros b. destruct (m !! a) as [v|] eqn:Hm.
  - destruct (decide (b = a)) as [->|Hne].
    + rewrite lookup_insert_eq, part_lookup, decide_True by set_solver. done.
    + rewrite lookup_insert_ne by done. rewrite !part_lookup. repeat case_decide; set_solver.
  - rewrite !part_lookup. destruct (decide (b = a)) as [->|Hne];
      repeat case_decide; (done || set_solver).
Qed.

Lemma part_empty {V : Type} (m : gmap address V) : part ∅ m = ∅.
Proof.
  apply map_eq. intros a. rewrite part_lookup, lookup_empty, decide_False; [done|]. set_solver.
Qed.

Section Load.
Context {codec : StoreCodec} {fc : FileCodec} {laws : FileCodecLaws fc}.
Context {gov : OwnerGovernance} {rcodec : ReportCodec}.
Context (engine : FileStoreEngine) (d : disk) (s : InMemoryStoreEngineState).
Context (Hrep : represents engine d s) (Hcap : usize_capacity (file_capacity engine)).

(** ** Single reads *)

Lemma get_json_sound ns k max o :
  get_json_value_unlocked_bounded engine d ns k max = Ok o →
  fst <$> o = json s !! (ns, k) ∧ addressing_ok engine ∧ ∃ r, json_paths engine ns k = Ok r.
Proof using Hrep Hcap laws.
  unfold get_json_value_unlocked_bounded. intros H. inv_ok.
  match goal with E : json_paths _ _ _ = Ok ?p |- _ =>
    destruct (physical_key_paths_ok engine KV (ns, k) p E) as [-> Hok];
    split; [|split; [done|]]; [|by eexists] end.
  match goal with E : slot_bytes _ _ _ _ _ = Ok ?f |- _ =>
    apply (slot_bytes_reads engine d KV (ns, k)) in E; [|apply Hcap];
    apply (slot_reads_sound engine kv_enc d KV (json s)) in E; [|done|apply Hrep];
    destruct f as [b|] end.
  - destruct E0 as (v & Hv & He). inv_ok. unfold decoded in *. rewrite He in *. simplify_eq.
    cbn. by rewrite Hv.
  - inv_ok. by rewrite E0.
Qed.

Lemma get_blob_sound ns k max o :
  max ≤ usize_max → get_blob_unlocked_bounded engine d ns k max = Ok o →
  fst <$> o = blobs s !! (ns, k) ∧ addressing_ok engine ∧ ∃ r, blob_paths engine ns k = Ok r.
Proof using Hrep Hcap laws.
  unfold get_blob_unlocked_bounded. intros Hmax H. inv_ok.
  match goal with E : blob_paths _ _ _ = Ok ?p |- _ =>
    destruct (physical_key_paths_ok engine BLOB (ns, k) p E) as [-> Hok];
    split; [|split; [done|]]; [|by eexists] end.
  match goal with E : slot_bytes _ _ _ _ _ = Ok ?f |- _ =>
    apply (slot_bytes_reads engine d BLOB (ns, k)) in E; [|done];
    apply (slot_reads_sound engine blob_enc d BLOB (blobs s)) in E; [|done|apply Hrep];
    destruct f as [b|] end.
  - destruct E0 as (v & Hv & He). inv_ok. cbn. rewrite Hv. by rewrite <- He.
  - inv_ok. by rewrite E0.
Qed.

Lemma read_dependency_sound : reads_exactly (read_dependency engine d) (λ a, json s !! a).
Proof using Hrep Hcap laws.
  intros a remaining o H. unfold read_dependency in H.
  destruct (get_json_value_unlocked_bounded _ _ _ _ _) as [f|] eqn:E; [|done]. cbn in H.
  apply get_json_sound in E as [Hf _]. destruct a. cbn in *. congruence.
Qed.

(** ** The touched values *)

Lemma touch_json_part (c : StoreCapacityBudget) (S : gset address) n a acc :
  touch_json engine d c (part S (json s), n) a = Ok acc →
  acc.1 = part (S ∪ {[a]}) (json s) ∧ addressing_ok engine
  ∧ ∃ r, json_paths engine a.1 a.2 = Ok r.
Proof using Hrep Hcap laws.
  unfold touch_json. intros H. inv_ok.
  match goal with E : get_json_value_unlocked_bounded _ _ _ _ _ = Ok ?f |- _ =>
    apply get_json_sound in E as (Hf & Hok & Hp); split; [|done]; destruct f as [[v k]|] end;
    inv_ok; rewrite part_add; destruct a; cbn in *; by rewrite <- Hf.
Qed.

Lemma touch_json_fold (c : StoreCapacityBudget) l S n acc :
  try_fold (touch_json engine d c) (part S (json s), n) l = Ok acc →
  acc.1 = part (S ∪ list_to_set l) (json s)
  ∧ ∀ a, a ∈ l → addressing_ok engine ∧ ∃ r, json_paths engine a.1 a.2 = Ok r.
Proof using Hrep Hcap laws.
  revert S n. induction l as [|a l IH]; intros S n H; cbn [try_fold] in H.
  - inv_ok. cbn. rewrite union_empty_r_L. split; [done|]. by intros a ?%elem_of_nil.
  - destruct (touch_json engine d c _ a) as [[m k]|] eqn:E; [|done]. cbn [mbind result_bind] in H.
    apply touch_json_part in E as (Hm & Hok & Hp). cbn in Hm. subst m.
    apply IH in H as [-> Hall]. split; [f_equal; set_solver|].
    intros b [->|Hb]%elem_of_cons; [done|by apply Hall].
Qed.

Lemma touch_blob_fold (c : StoreCapacityBudget) l S n acc :
  blob_max_bytes c ≤ usize_max →
  try_fold (touch_blob engine d c) (part S (blobs s), n) l = Ok acc →
  acc.1 = part (S ∪ list_to_set l) (blobs s)
  ∧ ∀ a, a ∈ l → addressing_ok engine ∧ ∃ r, blob_paths engine a.1 a.2 = Ok r.
Proof using Hrep Hcap laws.
  intros Hmax. revert S n. induction l as [|a l IH]; intros S n H; cbn [try_fold] in H.
  - inv_ok. cbn. rewrite union_empty_r_L. split; [done|]. by intros a ?%elem_of_nil.
  - destruct (touch_blob engine d c _ a) as [[m k]|] eqn:E; [|done]. cbn [mbind result_bind] in H.
    assert (m = part (S ∪ {[a]}) (blobs s) ∧ addressing_ok engine
            ∧ ∃ r, blob_paths engine a.1 a.2 = Ok r) as (-> & Hok & Hp).
    { unfold touch_blob in E. inv_ok.
      match goal with E : get_blob_unlocked_bounded _ _ _ _ _ = Ok ?f |- _ =>
        apply get_blob_sound in E as (Hf & Hok & Hp); [|lia]; split; [|done]; destruct f as [[v z]|] end;
        inv_ok; rewrite part_add; destruct a; cbn in *; by rewrite <- Hf. }
    apply IH in H as [-> Hall]. split; [f_equal; set_solver|].
    intros b [->|Hb]%elem_of_cons; [done|by apply Hall].
Qed.

(** ** Listing *)

Section Listing.
Context {V : Type} (enc : V → bytes → Prop) (l : Lane) (m : gmap address V) (ns : string).
Context (Hlane : lane_rep engine enc ∅ l d m) (Hok : addressing_ok engine).
Local Abbreviation paths := (slot_paths engine).

Definition indexed_at (shard name : string) (new : list string) : Prop :=
  let p := [lane_name l; ns; FILE_ADDRESSING_INDEX_DIR; shard; name] in
  if bool_decide (extension name = Some "json") then
    match d !! p with
    | None => True
    | Some _ => ∃ key i b, new = [key] ∧ d !! p = Some i
        ∧ key_index_from_slice i = inr (current_index key)
        ∧ index_path (paths l (ns, key)) = p ∧ d !! data_path (paths l (ns, key)) = Some b
    end
  else new = [].

Lemma list_indexed_keys_sound out :
  list_indexed_keys engine d (lane_name l) ns (lane_ext l) = Ok out →
  ∀ key, key ∈ out ↔ ∃ b i, d !! data_path (paths l (ns, key)) = Some b
     ∧ d !! index_path (paths l (ns, key)) = Some i
     ∧ key_index_from_slice i = inr (current_index key).
Proof using Hok.
  unfold list_indexed_keys. intros H key. inv_ok. rewrite sort_strings_elem.
  match goal with E : try_fold _ _ _ = Ok ?o |- _ =>
    eapply (try_fold_gather _ (λ shard new, ∃ news, new = concat news
      ∧ Forall2 (λ name n, indexed_at shard name n)
          (file_names d [lane_name l; ns; FILE_ADDRESSING_INDEX_DIR; shard]) news)) in E
      as (news & -> & Hnews) end.
  2:{ intros out0 shard out1 _ Hf.
      eapply (try_fold_gather _ (λ name n, indexed_at shard name n)) in Hf as (ns' & -> & Hn);
        [by exists (concat ns'); split; [|exists ns']|].
      intros o name o' Hin Hs. cbv zeta in Hs. unfold indexed_at.
      case_bool_decide; cbn [negb] in Hs; [|inv_ok; exists []; by rewrite app_nil_r].
      inv_ok. split_bool.
      apply file_names_elem in Hin. cbn [app] in Hin. destruct Hin as [i Hi].
      match goal with E : read_key_index _ _ _ _ = Ok ?f |- _ => destruct f as [k|] end.
      2:{ match goal with E : read_key_index _ _ _ _ = Ok _ |- _ =>
            apply read_key_index_none in E end. cbn [app] in *. congruence. }
      inv_ok. split_bool.
      match goal with E : read_key_index _ _ _ _ = Ok _ |- _ =>
        apply read_key_index_some in E as (i' & Hi' & Hk) end.
      match goal with E : physical_key_paths _ _ _ _ _ = Ok ?p |- _ =>
        destruct (physical_key_paths_ok engine l (ns, k) p E) as [-> _] end.
      exists [k]. split; [done|]. cbn [app] in *. rewrite Hi.
      match goal with E : _ = _ ∧ _ = _ |- _ => destruct E as [Hip Hdp] end.
      match goal with E : is_Some (d !! _) |- _ => rewrite <- Hdp in E; destruct E as [b Hb] end.
      exists k, i', b. rewrite Hi in Hi'. simplify_eq. by split_and!. }
  cbn [app]. split.
  - intros Hin. destruct (gathered_elem _ _ _ _ Hnews Hin) as (shard & n1 & _ & (n2 & -> & H2) & Hk).
    destruct (gathered_elem _ _ _ _ H2 Hk) as (name & n3 & Hname & Hat & Hk3).
    unfold indexed_at in Hat. case_bool_decide; [|subst; by apply elem_of_nil in Hk3].
    apply file_names_elem in Hname as [i0 Hi0]. cbn [app] in Hi0. rewrite Hi0 in Hat.
    destruct Hat as (k & i & b & -> & Hi & Hki & Hp & Hb). apply list_elem_of_singleton in Hk3 as ->.
    injection Hi as <-. exists b, i0. split_and!; [done| |done]. by rewrite Hp.
  - intros (b & i & Hb & Hi & Hki). cbn [index_path slot_paths fst snd] in Hi.
    set (digest := physical_key_digest (lane_name l) ns key
           (physical_key_digest_hex_chars (path_budget engine))) in *.
    set (shard := String.substring 0 2 digest) in *.
    assert (Hsh : shard ∈ directory_names d [lane_name l; ns; FILE_ADDRESSING_INDEX_DIR]).
    { apply (directory_names_elem _ _ _ (digest +:+ ".json") []). by eexists. }
    destruct (gathered_all _ _ _ _ Hnews Hsh) as (n1 & (n2 & -> & H2) & Hin1).
    assert (Hname : digest +:+ ".json" ∈ file_names d [lane_name l; ns; FILE_ADDRESSING_INDEX_DIR; shard]).
    { apply file_names_elem. by eexists. }
    destruct (gathered_all _ _ _ _ H2 Hname) as (n3 & Hat & Hin3). apply Hin1, Hin3.
    unfold indexed_at in Hat.
    assert (Hdig : digest ≠ "").
    { apply digest_nonempty. unfold addressing_ok, MIN_PHYSICAL_DIGEST_HEX_CHARS in Hok. cbn. lia. }
    rewrite bool_decide_eq_true_2 in Hat by (by apply (extension_app digest "json")).
    rewrite Hi in Hat. destruct Hat as (k & i' & b' & -> & Hi' & Hk' & _). simplify_eq.
    rewrite Hki in Hk'. unfold current_index in Hk'. simplify_eq. by left.
Qed.

Lemma list_legacy_sound key :
  (key ∈ list_legacy_encoded_keys d (lane_name l) ns (lane_ext l) → (ns, key) ∈ dom m)
  ∧ (is_Some (d !! legacy_path (paths l (ns, key))) → key ≠ "" → is_utf8 key = true →
     key ∈ list_legacy_encoded_keys d (lane_name l) ns (lane_ext l)).
Proof using laws Hlane Hok.
  unfold list_legacy_encoded_keys. rewrite sort_strings_elem, list_elem_of_omap.
  destruct (lane_ext_plain l) as (He & Hne & Ht). split.
  - intros (name & Hin%file_names_elem & Hk). case_bool_decide as Hx; [|done]. cbn [app] in Hin.
    destruct Hlane as [_ Ho]. destruct (Ho [lane_name l; ns; name]) as (a & Ha & Hf).
    + apply bool_decide_eq_false_2. cbn. rewrite Hx. congruence.
    + done.
    + done.
    + rewrite union_empty_r_L in Ha. unfold slot_files in Hf.
      rewrite !elem_of_cons, elem_of_nil in Hf. cbn in Hf.
      destruct Hf as [Hf|[Hf|[Hf|[]]]]; [done|done|]. injection Hf as -> ->.
      assert (Hhex : hex_encode a.2 ≠ "").
      { intros Hh. rewrite Hh in Hx. by destruct l. }
      destruct (extension_app (hex_encode a.2) (lane_ext l)) as [_ Hstem]; [done..|].
      rewrite Hstem in Hk. unfold hex_decode_to_string in Hk.
      destruct (negb _); [done|]. rewrite hex_decode_encode_bytes in Hk. cbn in Hk.
      destruct (is_utf8 a.2); simplify_eq. by destruct a.
  - intros Hl Hk Hu. exists (hex_encode key +:+ String "." (lane_ext l)). split.
    + by apply file_names_elem.
    + assert (Hhex : hex_encode key ≠ "") by (by destruct key).
      destruct (extension_app (hex_encode key) (lane_ext l)) as [-> ->]; [done..|].
      rewrite bool_decide_eq_true_2 by done. by apply hex_decode_encode.
Qed.

(** The keys of a namespace are listed exactly once. *)
Lemma list_keys_sound keys :
  list_keys engine d (lane_name l) ns (lane_ext l) = Ok keys →
  NoDup keys ∧ ∀ k, k ∈ keys ↔ (ns, k) ∈ dom m.
Proof using laws Hlane Hok.
  unfold list_keys. intros H. inv_ok. split.
  { unfold sort_strings. rewrite merge_sort_Permutation. apply NoDup_elements. }
  intros k. rewrite sort_strings_elem, elem_of_elements, elem_of_union, !elem_of_list_to_set.
  match goal with E : list_indexed_keys _ _ _ _ _ = Ok _ |- _ =>
    pose proof (list_indexed_keys_sound _ E k) as Hidx end.
  destruct (list_legacy_sound k) as [Hleg1 Hleg2]. rewrite Hidx. split.
  - intros [(b & i & Hb & Hi & Hk)|Hk]; [|by apply Hleg1].
    destruct (slot_reads_sound engine enc d l m (ns, k) (Some b)) as (v & Hv & _); [done|done| |].
    + left. by exists b, i.
    + by eapply elem_of_dom_2.
  - intros [v Hv]%elem_of_dom. destruct Hlane as [Hp _].
    destruct (Hp (ns, k) v) as [b i H1 H2 H3 _|b H1 H2 H3 H4 H5 _]; [apply not_elem_of_empty|done|..].
    + left. by exists b, i.
    + right. apply Hleg2; [by eexists|done|done].
Qed.

(** Every namespace of the map has a directory. *)
Lemma namespace_listed k : (ns, k) ∈ dom m → ns ∈ directory_names d [lane_name l].
Proof using Hlane.
  intros [v Hv]%elem_of_dom. destruct Hlane as [Hp _].
  destruct (Hp (ns, k) v) as [b i H1 H2 H3 _|b H1 H2 H3 H4 H5 _]; [apply not_elem_of_empty|done|..].
  - exact (directory_names_elem d [lane_name l] ns _ _ (ex_intro _ b H1)).
  - exact (directory_names_elem d [lane_name l] ns _ [] (ex_intro _ b H3)).
Qed.

End Listing.

(** ** Counting *)

Section Counting.
Context {V : Type} (enc : V → bytes → Prop) (l : Lane) (m : gmap address V).
Context (Hlane : lane_rep engine enc ∅ l d m) (Hok : addressing_ok engine).
Context (list : string → result (list string)).
Context (Hlist : ∀ ns keys, list ns = Ok keys →
           list_keys engine d (lane_name l) ns (lane_ext l) = Ok keys).

(** The addresses a scan of all namespaces visits. *)
Definition scanned (names : Datatypes.list string) (L : Datatypes.list address) : Prop :=
  NoDup L ∧ ∀ a, a ∈ L ↔ a.1 ∈ names ∧ a ∈ dom m.

Lemma scanned_cons ns names keys L :
  ns ∉ names → list ns = Ok keys → scanned names L →
  scanned (ns :: names) ((pair ns <$> keys) ++ L).
Proof using laws Hlane Hok Hlist.
  intros Hn Hk%Hlist [HL1 HL2].
  destruct (list_keys_sound enc l m ns Hlane Hok keys Hk) as [Hnd Hin]. split.
  - apply NoDup_app. split_and!; [|..|done].
    + apply NoDup_fmap_2; [|done]. by intros x y [= ->].
    + intros a (k & -> & _)%list_elem_of_fmap Ha%HL2. by destruct Ha.
  - intros [n k]. rewrite elem_of_app, list_elem_of_fmap, HL2, elem_of_cons. cbn. split.
    + intros [(k' & [= -> ->] & Hk')|[? ?]]; [|auto]. apply Hin in Hk'. auto.
    + intros [[->|?] ?]; [|auto]. left. exists k. split; [done|]. by apply Hin.
Qed.

Lemma count_scan names c n :
  NoDup names → c ≤ usize_max →
  try_fold (λ count ns, keys ← list ns; Ok (saturating_add count (len keys))) c names = Ok n →
  ∃ L, scanned names L ∧ n = N.min usize_max (c + len L).
Proof using laws Hlane Hok Hlist.
  intros Hnd. revert c. induction Hnd as [|ns names Hn Hnd IH]; intros c Hc H; cbn [try_fold] in H.
  - inv_ok. exists []. split; [|rewrite len_nil; lia].
    split; [apply NoDup_nil_2|]. intros a. clear. set_solver.
  - destruct (list ns) as [keys|] eqn:Hk; [|done]. cbn [mbind result_bind] in H.
    apply IH in H as (L & HL & ->); [|apply saturating_add_bound].
    exists ((pair ns <$> keys) ++ L). split; [by apply scanned_cons|].
    rewrite len_app. unfold saturating_add, len. rewrite length_fmap. lia.
Qed.

(** A scan of all the directories visits every address. *)
Lemma scanned_all L :
  scanned (list_child_directory_names d [lane_name l]) L → L ≡ₚ (map_to_list m).*1.
Proof using Hlane.
  intros [HL1 HL2]. apply NoDup_Permutation; [done|apply NoDup_fst_map_to_list|].
  intros [ns k]. rewrite HL2. unfold list_child_directory_names. rewrite sort_strings_elem. cbn.
  rewrite list_elem_of_fmap. split.
  - intros [_ [v Hv]%elem_of_dom]. exists ((ns, k), v). split; [done|]. by apply elem_of_map_to_list.
  - intros ([a v] & Ha & Hv%elem_of_map_to_list). cbn in Ha. subst a.
    assert (Hd : (ns, k) ∈ dom m) by (by eapply elem_of_dom_2).
    split; [|done]. by apply (namespace_listed enc l m ns Hlane k).
Qed.

Lemma child_directories_NoDup dir : NoDup (list_child_directory_names d dir).
Proof.
  unfold list_child_directory_names, sort_strings. rewrite merge_sort_Permutation.
  apply directory_names_NoDup.
Qed.

Lemma entry_count n :
  try_fold (λ count ns, keys ← list ns; Ok (saturating_add count (len keys))) 0
    (list_child_directory_names d [lane_name l]) = Ok n →
  n = N.min usize_max (N.of_nat (size m)).
Proof using laws Hlane Hok Hlist.
  intros H. apply count_scan in H as (L & HL & ->); [|apply child_directories_NoDup|lia].
  apply scanned_all in HL. unfold len. by rewrite HL, length_fmap, length_map_to_list, N.add_0_l.
Qed.

End Counting.

Lemma lane_list_json ns keys :
  list_json_keys_unlocked engine d ns = Ok keys → list_keys engine d "kv" ns "json" = Ok keys.
Proof. unfold list_json_keys_unlocked. intros H. by inv_ok. Qed.

Lemma lane_list_blob ns keys :
  list_blob_keys_unlocked engine d ns = Ok keys → list_keys engine d "blob" ns "bin" = Ok keys.
Proof. unfold list_blob_keys_unlocked. intros H. by inv_ok. Qed.

Lemma blob_value_len_sound ns k o :
  blob_value_len_unlocked engine d ns k = Ok o → o = len <$> blobs s !! (ns, k).
Proof using Hrep laws.
  unfold blob_value_len_unlocked. intros H. inv_ok.
  match goal with E : blob_paths _ _ _ = Ok ?p |- _ =>
    destruct (physical_key_paths_ok engine BLOB (ns, k) p E) as [-> Hok] end.
  assert (Hr : ∃ r, slot_reads engine d BLOB (ns, k) r ∧ o = len <$> r).
  { destruct (d !! data_path _) as [b|] eqn:Hb; inv_ok.
    - match goal with E : require_key_index_matches _ _ _ _ _ = Ok ?u |- _ =>
        destruct u; apply require_key_index_ok in E as (i & Hi & Hk) end.
      exists (Some b). split; [|done]. left. by exists b, i.
    - match goal with E : read_key_index _ _ _ _ = Ok ?f |- _ => destruct f; [done|];
        apply read_key_index_none in E end.
      inv_ok. eexists. split; [|reflexivity]. by right. }
  destruct Hr as (r & Hr & ->).
  apply (slot_reads_sound engine blob_enc d BLOB (blobs s)) in Hr; [|done|apply Hrep].
  destruct r as [b|]; [|by rewrite Hr]. destruct Hr as (v & Hv & ->). by rewrite Hv.
Qed.

(** The sum of the blobs at a list of addresses. *)
Definition blob_len (a : address) : N := match blobs s !! a with Some b => len b | None => 0 end.
Definition blob_list_sum (L : list address) : N := foldr (λ a acc, blob_len a + acc) 0 L.

Lemma blob_list_sum_app L1 L2 :
  blob_list_sum (L1 ++ L2) = blob_list_sum L1 + blob_list_sum L2.
Proof. unfold blob_list_sum. induction L1 as [|a L1 IH]; cbn; [done|]. rewrite IH. lia. Qed.

Lemma blob_list_sum_all L :
  L ≡ₚ (map_to_list (blobs s)).*1 → blob_list_sum L = blob_sum (blobs s).
Proof.
  intros HL. assert (Hp : ∀ L1 L2, L1 ≡ₚ L2 → blob_list_sum L1 = blob_list_sum L2).
  { unfold blob_list_sum. induction 1; cbn; lia. }
  rewrite (Hp _ _ HL). unfold blob_list_sum, blob_len. clear.
  enough (H : ∀ m : gmap address bytes, m ⊆ blobs s →
    foldr (λ a acc, match blobs s !! a with Some b => len b | None => 0 end + acc) 0 (map_to_list m).*1
    = blob_sum m) by (by apply H).
  intros m. induction m as [|a b m Hm IH] using map_ind; intros Hs.
  - by rewrite map_to_list_empty, blob_sum_empty.
  - rewrite blob_sum_insert by done.
    assert (Hperm := map_to_list_insert m a b Hm).
    rewrite <- IH by (etransitivity; [by apply insert_subseteq|done]).
    assert (Hab : blobs s !! a = Some b).
    { eapply lookup_weaken; [|done]. by rewrite lookup_insert_eq. }
    transitivity (foldr (λ a acc, match blobs s !! a with Some b => len b | None => 0 end + acc) 0
                    ((a, b) :: map_to_list m).*1).
    + apply foldr_permutation_proper; try apply _; [|by rewrite Hperm].
      intros x y z. lia.
    + cbn. by rewrite Hab.
Qed.

Lemma sum_keys ns keys total n :
  try_fold (λ total key,
    found ← blob_value_len_unlocked engine d ns key;
    match found with
    | None => Ok total
    | Some n => add_or (store_budget_error "file store blob byte count overflow") total n
    end) total keys = Ok n →
  n = total + blob_list_sum (pair ns <$> keys).
Proof using Hrep laws.
  revert total. induction keys as [|k keys IH]; intros total H; cbn [try_fold] in H.
  - inv_ok. cbn. lia.
  - inv_ok. match goal with E : blob_value_len_unlocked _ _ _ _ = Ok _ |- _ =>
      apply blob_value_len_sound in E end. apply IH in H as ->. rewrite fmap_cons.
    change (blob_list_sum ((ns, k) :: (pair ns <$> keys)))
      with (blob_len (ns, k) + blob_list_sum (pair ns <$> keys)). unfold blob_len.
    subst. destruct (blobs s !! (ns, k)) as [b|]; cbn [fmap option_fmap option_map] in *; inv_ok; [|lia].
    unfold add_or in *. destruct (checked_add _ _) eqn:Hadd; inv_ok.
    apply checked_add_Some in Hadd as [-> _]. lia.
Qed.

Lemma blob_total_sound n :
  addressing_ok engine → blob_total_bytes engine d = Ok n → n = blob_sum (blobs s).
Proof using Hrep laws.
  intros Hok H. unfold blob_total_bytes in H.
  enough (Hscan : ∀ names c n, NoDup names →
    try_fold (λ total namespace,
      keys ← list_blob_keys_unlocked engine d namespace;
      try_fold (λ total key,
        found ← blob_value_len_unlocked engine d namespace key;
        match found with
        | None => Ok total
        | Some n => add_or (store_budget_error "file store blob byte count overflow") total n
        end) total keys) c names = Ok n →
    ∃ L, scanned (blobs s) names L ∧ n = c + blob_list_sum L).
  { apply Hscan in H as (L & HL & ->); [|apply child_directories_NoDup].
    apply (scanned_all blob_enc BLOB (blobs s) (rep_blobs _ _ _ Hrep)) in HL.
    by rewrite (blob_list_sum_all L HL). }
  clear n H. intros names c n Hnd. revert c.
  induction Hnd as [|ns names Hn Hnd IH]; intros c H; cbn [try_fold] in H.
  - inv_ok. exists []. split; [|cbn; lia]. split; [apply NoDup_nil_2|]. intros a. clear. set_solver.
  - inv_ok. match goal with E : list_blob_keys_unlocked _ _ _ = Ok _, F : try_fold _ c _ = Ok _ |- _ =>
      rename E into Hk; apply sum_keys in F end.
    apply IH in H as (L & HL & ->).
    eexists. split.
    + eapply (scanned_cons blob_enc BLOB (blobs s) (rep_blobs _ _ _ Hrep) Hok
               (list_blob_keys_unlocked engine d) lane_list_blob); done.
    + rewrite blob_list_sum_app. lia.
Qed.

(** ** The event log *)

Lemma read_events_sound (c : StoreCapacityBudget) max stage es :
  max ≤ usize_max → read_events_jsonl_bounded d events_path c max stage = Ok es → es = events s.
Proof using Hrep laws.
  intros Hc H. unfold read_events_jsonl_bounded in *.
  destruct (read_events_jsonl_bounded_with_receipt _ _ _ _ _ _) as [[es' k]|] eqn:E1; [|done].
  cbn in *. simplify_eq. pose proof (rep_events _ _ _ Hrep) as Hl. unfold content in Hl.
  destruct (d !! events_path) as [b|] eqn:Hb.
  - eapply read_file_sound in E1; [|done|done|done]. by simplify_eq.
  - unfold read_events_jsonl_bounded_with_receipt in E1. rewrite Hb in E1. simplify_eq.
    cbn in Hl. destruct (events s) as [|e l]; [done|].
    apply log_of_cons in Hl as (x & t & _ & _ & Hnil). by destruct x.
Qed.

Lemma event_usage_sound r c res :
  snapshot_max_bytes c ≤ usize_max → transaction_event_usage d r c = Ok res →
  res = (len (events s), colliding_event_ids s (mutations r), len (content d events_path)).
Proof using Hrep laws.
  intros Hc H. unfold transaction_event_usage in H. inv_ok.
  match goal with E : read_events_jsonl_bounded _ _ _ _ _ = Ok ?l |- _ =>
    apply read_events_sound in E as ->; [|done] end.
  f_equal. f_equal. unfold colliding_event_ids. rewrite (rep_ids _ _ _ Hrep).
  apply set_eq. intros i. rewrite !elem_of_list_to_set, !list_elem_of_filter, !elem_of_list_to_set.
  tauto.
Qed.

(** ** The context *)

Context (Hok : addressing_ok engine).

(** The addresses gathered so far are those of the read set and, in the store,
    those under the prefixes visited. *)
Lemma touch_keys_part (c : StoreCapacityBudget) (prefix : address) (keys : list string) (S : gset address) n acc :
  try_fold (λ acc key,
    let a : address := (prefix.1, key) in
    if negb (starts_with key prefix.2) || bool_decide (is_Some (acc.1 !! a)) then Ok acc
    else touch_json engine d c acc a) (part S (json s), n) keys = Ok acc →
  ∃ S' : gset address, acc.1 = part S' (json s)
    ∧ ∀ a, a ∈ S' ↔ a ∈ S ∨ (a.1 = prefix.1 ∧ a.2 ∈ keys ∧ starts_with a.2 prefix.2 = true).
Proof using Hrep Hcap laws.
  revert S n. induction keys as [|k keys IH]; intros S n H; cbn [try_fold] in H.
  - inv_ok. exists S. split; [done|]. intros a. rewrite elem_of_nil. tauto.
  - cbv zeta in H. destruct (starts_with k prefix.2) eqn:Hs; cbn [negb orb] in H.
    + case_bool_decide as Hin.
      * cbn [mbind result_bind] in H. apply IH in H as (S' & Ha & HS'). exists S'. split; [done|].
        intros a. rewrite HS', elem_of_cons.
        assert (Hk : (prefix.1, k) ∈ S).
        { cbn in Hin. rewrite part_lookup in Hin. case_decide; [done|]. by destruct Hin. }
        split; [intros [?|(? & ? & ?)]; auto|]. intros [?|(Ha1 & [Ha2|?] & ?)]; auto.
        left. by destruct a; cbn in *; subst.
      * destruct (touch_json engine d c _ _) as [[m z]|] eqn:E; [|done].
        cbn [mbind result_bind] in H. apply touch_json_part in E as [Hm _]. cbn in Hm. subst m.
        apply IH in H as (S' & Ha & HS'). exists S'. split; [done|].
        intros a. rewrite HS', elem_of_cons, elem_of_union, elem_of_singleton. split.
        -- intros [[?| ->]|(? & ? & ?)]; auto.
        -- intros [?|(Ha1 & [Ha2|?] & ?)]; auto. left; right. by destruct a; cbn in *; subst.
    + cbn [mbind result_bind] in H. apply IH in H as (S' & Ha & HS'). exists S'. split; [done|].
      intros a. rewrite HS', elem_of_cons. split; [intros [?|(? & ? & ?)]; auto|].
      intros [?|(Ha1 & [Ha2|?] & ?)]; auto. congruence.
Qed.

Lemma touch_prefixes_part (c : StoreCapacityBudget) (prefixes : list address) (S : gset address) n acc :
  try_fold (touch_prefix engine d c) (part S (json s), n) prefixes = Ok acc →
  ∃ S' : gset address, acc.1 = part S' (json s)
    ∧ ∀ a, a ∈ dom (json s) →
        (a ∈ S' ↔ a ∈ S ∨ ∃ p, p ∈ prefixes ∧ a.1 = p.1 ∧ starts_with a.2 p.2 = true).
Proof using Hrep Hcap laws Hok.
  revert S n. induction prefixes as [|p prefixes IH]; intros S n H; cbn [try_fold] in H.
  - inv_ok. exists S. split; [done|]. intros a _. split; [auto|].
    intros [?|(p & Hp & _)]; [done|]. by apply elem_of_nil in Hp.
  - destruct (touch_prefix engine d c _ p) as [[m z]|] eqn:E; [|done]. cbn [mbind result_bind] in H.
    unfold touch_prefix in E. inv_ok.
    match goal with E : list_json_keys_unlocked _ _ _ = Ok _ |- _ => apply lane_list_json in E;
      apply (list_keys_sound kv_enc KV (json s) p.1 (rep_json _ _ _ Hrep) Hok) in E as [_ Hkeys] end.
    match goal with E : try_fold _ _ _ = Ok (m, z) |- _ =>
      apply touch_keys_part in E as (S1 & Hm & HS1) end.
    cbn in Hm. subst m. apply IH in H as (S' & -> & HS'). exists S'. split; [done|].
    intros x Hx. rewrite HS', HS1 by done. split.
    + intros [[?|(Hx1 & Hx2 & ?)]|(q & Hq & ?)]; [auto|..].
      * right. exists p. split; [by left|done].
      * right. exists q. split; [by right|done].
    + intros [?|(q & [->|Hq]%elem_of_cons & Hx1 & ?)]; [auto|..].
      * left. right. split_and!; [done| |done]. apply Hkeys. rewrite <- Hx1. by destruct x.
      * right. by exists q.
Qed.

Lemma under_prefix_iff (prefixes : gset address) (a : address) :
  under_prefix prefixes a = true ↔
  ∃ p, p ∈ btree_set_iter prefixes ∧ a.1 = p.1 ∧ starts_with a.2 p.2 = true.
Proof.
  unfold under_prefix. rewrite existsb_exists. setoid_rewrite <- list_elem_of_In.
  split; intros (p & Hp & H); exists p; split; try done.
  - apply andb_true_iff in H as [H1 H2]. by split_bool.
  - destruct H as [H1 H2]. by rewrite H1, H2, bool_decide_eq_true_2.
Qed.

Lemma load_json_sound r c js :
  load_json engine d r c = Ok js →
  expand_owner_transaction_dependencies r c (bt_json (read_touched s (read_set r)))
    (λ a _, Ok (json s !! a)) = Ok js
  ∧ ∀ a, a ∈ rs_json (read_set r) → ∃ p, json_paths engine a.1 a.2 = Ok p.
Proof using Hrep Hcap laws Hok.
  unfold load_json. intros H.
  destruct (try_fold (touch_json engine d c) _ _) as [[m1 n1]|] eqn:E1; [|done].
  cbn [mbind result_bind] in H.
  destruct (try_fold (touch_prefix engine d c) _ _) as [[m2 n2]|] eqn:E2; [|done].
  cbn [mbind result_bind] in H.
  rewrite <- (part_empty (json s)) in E1. apply touch_json_fold in E1 as [Hm1 Hp1]. cbn in Hm1. subst m1.
  apply touch_prefixes_part in E2 as (S & Hm2 & HS). cbn in Hm2. subst m2.
  replace (bt_json (read_touched s (read_set r))) with (part S (json s)).
  - split; [eapply expand_agrees; [apply read_dependency_sound|done]|].
    intros a Ha. apply Hp1. by apply elem_of_btree_set_iter.
  - apply map_eq. intros a. cbn. rewrite part_lookup, map_lookup_filter.
    destruct (json s !! a) as [v|] eqn:Hv; cbn; [|by case_decide].
    assert (Hd : a ∈ dom (json s)) by (by eapply elem_of_dom_2).
    specialize (HS a Hd). rewrite union_empty_l_L, elem_of_list_to_set, elem_of_btree_set_iter,
      <- under_prefix_iff in HS.
    case_decide as Hin.
    + rewrite option_guard_True; [done|]. apply HS in Hin as [?| ->]; auto.
    + rewrite option_guard_False; [done|]. intros Hor. apply Hin, HS.
      destruct Hor as [?|Hu]; [by left|right]. by apply Is_true_true.
Qed.

Lemma load_context_sound r c ctx n :
  usize_capacity c → load_transaction_context engine d r c = Ok (ctx, n) →
  ∃ closed,
    expand_owner_transaction_dependencies r c (bt_json (read_touched s (read_set r)))
      (λ a _, Ok (json s !! a)) = Ok closed
    ∧ ctx = {| touched := {| bt_json := closed;
                             bt_blobs := bt_blobs (read_touched s (read_set r));
                             bt_events := [] |};
               usage := usage_of s;
               existing_event_ids := colliding_event_ids s (mutations r) |}
    ∧ n = len (content d events_path)
    ∧ (∀ a, a ∈ rs_json (read_set r) → ∃ p, json_paths engine a.1 a.2 = Ok p)
    ∧ (∀ a, a ∈ rs_blobs (read_set r) → ∃ p, blob_paths engine a.1 a.2 = Ok p).
Proof using Hrep Hcap laws Hok.
  intros [Hcs Hcb] H. unfold load_transaction_context in H.
  destruct (load_json engine d r c) as [js|] eqn:Ej; [|done]. cbn [mbind result_bind] in H.
  destruct (load_blobs engine d r c) as [bs|] eqn:Eb; [|done]. cbn [mbind result_bind] in H.
  destruct (transaction_event_usage d r c) as [[[ec ids] pl]|] eqn:Ee; [|done].
  cbn [mbind result_bind] in H. apply event_usage_sound in Ee; [|done]. simplify_eq.
  destruct (load_usage engine d _) as [u|] eqn:Eu; [|done]. cbn [mbind result_bind] in H. simplify_eq.
  apply load_json_sound in Ej as [Hexp Hjp]. exists js. split; [done|].
  unfold load_blobs in Eb. destruct (try_fold _ _ _) as [[m k]|] eqn:Ef; [|done]. cbn in Eb.
  simplify_eq. rewrite <- (part_empty (blobs s)) in Ef. apply touch_blob_fold in Ef as [Hm Hbp]; [|done].
  cbn in Hm. subst bs. split_and!; [|done|done|].
  - f_equal.
    + f_equal. cbn. apply map_eq. intros a. rewrite part_lookup, map_lookup_filter.
      rewrite union_empty_l_L.
      destruct (blobs s !! a) as [v|]; cbn; [|by case_decide].
      case_decide as Hin; rewrite elem_of_list_to_set, elem_of_btree_set_iter in Hin.
      * by rewrite option_guard_True.
      * by rewrite option_guard_False.
    + unfold load_usage in Eu. inv_ok.
      match goal with E : json_entry_count _ _ = Ok _ |- _ =>
        apply (entry_count kv_enc KV (json s) (rep_json _ _ _ Hrep) Hok _ lane_list_json) in E end.
      match goal with E : blob_entry_count _ _ = Ok _ |- _ =>
        apply (entry_count blob_enc BLOB (blobs s) (rep_blobs _ _ _ Hrep) Hok _ lane_list_blob) in E end.
      match goal with E : blob_total_bytes _ _ = Ok _ |- _ => apply blob_total_sound in E; [|done] end.
      subst. unfold usage_of. f_equal. unfold saturating_add. lia.
  - intros a Ha. apply Hbp. by apply elem_of_btree_set_iter.
Qed.

End Load.
