(* ===== verification/FileReads.v ===== *)
(** * File engine: consistent reads

    Reads of several keys under one shared lock, and immutable read sessions
    ([FileImmutableReadSession]), which hold that lock until they are dropped:
    the disk does not change under them.  Every read that succeeds returns what
    the in-memory engine returns for the store that the disk holds. *)

From S2P Require Import Prelude RustStr Profile Resource Budget BudgetCompile BudgetAuthority.
From S2P Require Import StoreTypes StoreTransaction StorePlan InMemoryStore StoreFacts ReadSession.
From S2P Require Import FileSystem FileAddress FileJournal FileEngine FileRep.
From S2P Require Import FileRep FileRecovery FileLoad.
From stdpp Require Import sorting strings.

Local Open Scope string_scope.
Local Open Scope list_scope.
Local Open Scope N_scope.

Section Operations.
Context {codec : StoreCodec} {fc : FileCodec} {gov : OwnerGovernance} {rcodec : ReportCodec}.
Context (engine : FileStoreEngine).

Definition read_events_unlocked (d : disk) : result (list MemoryStoreEvent) :=
  read_events_jsonl_bounded d events_path (file_capacity engine)
    (snapshot_max_bytes (file_capacity engine)) "store_event_log".

(** ** Several keys *)

Record StoreConsistentReadRequest := {
  crq_json : list address; crq_blobs : list address; crq_include_events : bool;
}.
Record StoreConsistentReadResult := {
  crs_json : list (address * option Value);
  crs_blobs : list (address * option bytes);
  crs_events : list MemoryStoreEvent;
}.

Definition read_consistent_from_state (request : StoreConsistentReadRequest)
    (state : BackendTransactionState) : StoreConsistentReadResult :=
  {| crs_json := (λ a, (a, bt_json state !! a)) <$> crq_json request;
     crs_blobs := (λ a, (a, bt_blobs state !! a)) <$> crq_blobs request;
     crs_events := if crq_include_events request then bt_events state else [] |}.

Definition read_consistent_unlocked (request : StoreConsistentReadRequest) (d : disk)
    : result StoreConsistentReadResult :=
  json ← try_fold (λ (json : gmap address Value) a,
    found ← get_json_value_unlocked engine d a.1 a.2;
    Ok match found with Some v => <[a := v]> json | None => json end) ∅ (crq_json request);
  blobs ← try_fold (λ (blobs : gmap address bytes) a,
    found ← get_blob_unlocked engine d a.1 a.2;
    Ok match found with Some b => <[a := b]> blobs | None => blobs end) ∅ (crq_blobs request);
  events ← if crq_include_events request then read_events_unlocked d else Ok [];
  Ok (read_consistent_from_state request
        {| bt_json := json; bt_blobs := blobs; bt_events := events |}).

Definition read_consistent (fuel : nat) (request : StoreConsistentReadRequest)
    : io (option StoreConsistentReadResult) :=
  with_shared_backend engine fuel "store_consistent_read" (read_consistent_unlocked request).

Definition check_known_keys (c : StoreCapacityBudget) (kind : string)
    (seen : gset (string * address)) (keys : list address) : result (gset (string * address)) :=
  try_fold (λ (seen : gset (string * address)) a,
    _ ← enforce_logical_key_budget c a.1 a.2 "store_consistent_read";
    if decide ((kind, a) ∈ seen)
    then Err (Config "store_consistent_read"
           ("duplicate " +:+ kind +:+ " known-key address " +:+ a.1 +:+ "/" +:+ a.2))
    else Ok ({[(kind, a)]} ∪ seen)) seen keys.

Definition known_keys_unlocked (json_keys blob_keys : list address) (include_events : bool)
    (c : StoreCapacityBudget) (d : disk) : result StoreBoundedKnownKeyReadResult :=
  '(json, json_bytes) ← try_fold (read_known_json engine d c) (∅, 0) json_keys;
  '(blobs, _) ← try_fold (read_known_blob engine d c) (∅, 0) blob_keys;
  events ← if include_events then read_events_unlocked_bounded d c json_bytes else Ok [];
  read_bounded_known_keys_from_parts json_keys blob_keys include_events c json blobs events.

Definition read_consistent_known_keys (fuel : nat) (json_keys blob_keys : list address)
    (include_events : bool) (c : StoreCapacityBudget)
    : io (option StoreBoundedKnownKeyReadResult) :=
  let requested := saturating_add (len json_keys) (len blob_keys) in
  _ ← io_result
    (_ ← ensure (requested <=? kv_max_entries c)
           (budget_exceeded "requested entries " requested (kv_max_entries c));
     seen ← check_known_keys c "json" ∅ json_keys;
     check_known_keys c "blob" seen blob_keys);
  with_shared_backend engine fuel "store_consistent_read"
    (known_keys_unlocked json_keys blob_keys include_events c).

(** ** Sessions *)

(** [acquire_immutable_read_lock]: the lock is returned when there is no
    journal, otherwise the journal is recovered and the loop starts again. *)
Definition acquire_immutable_read_lock (fuel : nat) : io (option unit) :=
  with_shared_backend engine fuel "store_immutable_read_session" (λ _, Ok tt).

Definition open_immutable_read_session (fuel : nat) (requested : StoreCapacityBudget)
    : io (option StoreReadSessionState) :=
  _ ← io_result (validate_immutable_read_session_capacity (file_capacity engine) requested);
  lock ← acquire_immutable_read_lock fuel;
  mret ((λ _, session_new requested) <$> lock).

(** [StoreReadSessionState::fail] *)
Definition session_fail {A} (s : StoreReadSessionState) (e : Error)
    : result A * StoreReadSessionState := (Err e, poison s).

Fixpoint read_json_known_keys (d : disk) (s : StoreReadSessionState)
    (addresses : list address)
    : result (list StoreBoundedKnownJsonRead) * StoreReadSessionState :=
  match addresses with
  | [] => (Ok [], s)
  | (ns, k) :: rest =>
      match get_json_value_unlocked_bounded engine d ns k (remaining_json_bytes s) with
      | Err e => session_fail s e
      | Ok found =>
          match record_json s ns k (fst <$> found) with
          | (Err e, s) => (Err e, s)
          | (Ok read, s) =>
              match read_json_known_keys d s rest with
              | (Err e, s) => (Err e, s)
              | (Ok reads, s) => (Ok (read :: reads), s)
              end
          end
      end
  end.

Fixpoint read_blob_known_keys (d : disk) (s : StoreReadSessionState)
    (addresses : list address)
    : result (list StoreBoundedKnownBlobRead) * StoreReadSessionState :=
  match addresses with
  | [] => (Ok [], s)
  | (ns, k) :: rest =>
      match get_blob_unlocked_bounded engine d ns k (remaining_session_blob_bytes s) with
      | Err e => session_fail s e
      | Ok found =>
          match record_blob s ns k (fst <$> found) with
          | (Err e, s) => (Err e, s)
          | (Ok read, s) =>
              match read_blob_known_keys d s rest with
              | (Err e, s) => (Err e, s)
              | (Ok reads, s) => (Ok (read :: reads), s)
              end
          end
      end
  end.

End Operations.

(** ** Exactness *)

Lemma sort_strings_perm l l' : l ≡ₚ l' → sort_strings l = sort_strings l'.
Proof.
  intros Hp. unfold sort_strings.
  apply (Sorted_unique String.le); [apply (Sorted_merge_sort String.le)..|].
  by rewrite (merge_sort_Permutation String.le l), (merge_sort_Permutation String.le l').
Qed.

Lemma try_fold_ext {S A : Type} (f g : S → A → result S) (acc : S) (l : list A) :
  (∀ acc a, a ∈ l → f acc a = g acc a) → try_fold f acc l = try_fold g acc l.
Proof.
  revert acc. induction l as [|a l IH]; intros acc H; [done|]. cbn [try_fold].
  rewrite H by (by left). destruct (g acc a); [|done]. cbn. apply IH. intros. apply H. by right.
Qed.

Section Exact.
Context {codec : StoreCodec} {fc : FileCodec} {laws : FileCodecLaws fc}.
Context {gov : OwnerGovernance} {rcodec : ReportCodec}.
Context (engine : FileStoreEngine) (d : disk) (s : InMemoryStoreEngineState).
Context (Hrep : represents engine d s) (Hcap : usize_capacity (file_capacity engine)).

Lemma get_json_unlocked_sound ns k o :
  get_json_value_unlocked engine d ns k = Ok o → o = json s !! (ns, k).
Proof using Hrep laws.
  unfold get_json_value_unlocked. intros H. inv_ok.
  match goal with E : json_paths _ _ _ = Ok ?p |- _ =>
    destruct (physical_key_paths_ok engine KV (ns, k) p E) as [-> Hok] end.
  match goal with E : slot_bytes_unbounded _ _ _ _ _ = Ok ?f |- _ =>
    apply (slot_bytes_unbounded_reads engine d KV (ns, k)) in E;
    apply (slot_reads_sound engine kv_enc d KV (json s)) in E; [|done|apply Hrep];
    rename E into Hs; destruct f as [b|] end.
  - destruct Hs as (v & Hv & He). inv_ok. unfold decoded in *. rewrite He in *. by simplify_eq.
  - by inv_ok.
Qed.

Lemma get_blob_unlocked_sound ns k o :
  get_blob_unlocked engine d ns k = Ok o → o = blobs s !! (ns, k).
Proof using Hrep laws.
  unfold get_blob_unlocked. intros H. inv_ok.
  match goal with E : blob_paths _ _ _ = Ok ?p |- _ =>
    destruct (physical_key_paths_ok engine BLOB (ns, k) p E) as [-> Hok] end.
  apply (slot_bytes_unbounded_reads engine d BLOB (ns, k)) in H.
  apply (slot_reads_sound engine blob_enc d BLOB (blobs s)) in H; [|done|apply Hrep].
  destruct o as [b|]; [|done]. by destruct H as (v & -> & ->).
Qed.

(** A duplicate-free listing of a namespace is the listing of the map. *)
Lemma keys_listed {V : Type} (m : gmap address V) ns keys :
  NoDup keys → (∀ k, k ∈ keys ↔ (ns, k) ∈ dom m) →
  sort_strings keys = keys_of_namespace m ns.
Proof.
  intros Hnd Hk. unfold keys_of_namespace. apply sort_strings_perm, NoDup_Permutation; [done| |].
  - apply NoDup_fmap_2_strong.
    + intros [a1 a2] [b1 b2] [Ha _]%list_elem_of_filter [Hb _]%list_elem_of_filter Heq.
      cbn in *. congruence.
    + apply NoDup_filter. rewrite btree_map_iter_perm. apply NoDup_fst_map_to_list.
  - intros k. rewrite Hk, list_elem_of_fmap. split.
    + intros [v Hv]%elem_of_dom. exists (ns, k). split; [done|]. apply list_elem_of_filter.
      split; [done|]. rewrite btree_map_iter_perm. apply list_elem_of_fmap.
      exists ((ns, k), v). split; [done|]. by apply elem_of_map_to_list.
    + intros ([n k'] & -> & [Hn Hin]%list_elem_of_filter). cbn in *. subst n.
      rewrite btree_map_iter_perm in Hin. apply list_elem_of_fmap in Hin as ([b v] & Hb & Hin).
      cbn in Hb. subst b. apply elem_of_map_to_list in Hin. by eapply elem_of_dom_2.
Qed.

Lemma sort_strings_idem l : sort_strings (sort_strings l) = sort_strings l.
Proof. apply sort_strings_perm. unfold sort_strings. apply merge_sort_Permutation. Qed.

Lemma list_keys_exact {V : Type} (enc : V → bytes → Prop) (l : Lane) (m : gmap address V) ns keys :
  lane_rep engine enc ∅ l d m → addressing_ok engine →
  list_keys engine d (lane_name l) ns (lane_ext l) = Ok keys → keys = keys_of_namespace m ns.
Proof using laws.
  intros Hl Hok H. destruct (list_keys_sound engine d enc l m ns Hl Hok keys H) as [Hnd Hk].
  rewrite <- (keys_listed m ns keys) by done. unfold list_keys in H. inv_ok.
  by rewrite sort_strings_idem.
Qed.

(** ** Several keys *)

Lemma read_known_json_fold (c : StoreCapacityBudget) (l : list address) (S : gset address) n acc :
  try_fold (read_known_json engine d c) (part S (json s), n) l = Ok acc →
  acc.1 = part (S ∪ list_to_set l) (json s).
Proof using Hrep Hcap laws.
  revert S n. induction l as [|a l IH]; intros S n H; cbn [try_fold] in H.
  - inv_ok. cbn. by rewrite union_empty_r_L.
  - destruct (read_known_json engine d c _ a) as [[m k]|] eqn:E; [|done]. cbn [mbind result_bind] in H.
    unfold read_known_json in E. inv_ok.
    match goal with E : get_json_value_unlocked_bounded _ _ _ _ _ = Ok ?f |- _ =>
      apply (get_json_sound engine d s) in E as (Hf & _); [|done|done]; rename f into found end.
    assert (m = part (S ∪ {[a]}) (json s)) as ->.
    { rewrite part_add. destruct found as [[v z]|]; inv_ok; destruct a; cbn in Hf; by rewrite <- Hf. }
    apply IH in H. rewrite H. cbn [list_to_set]. by rewrite (assoc_L (∪)).
Qed.

Lemma read_known_blob_fold (c : StoreCapacityBudget) (l : list address) (S : gset address) n acc :
  blob_max_bytes c ≤ usize_max →
  try_fold (read_known_blob engine d c) (part S (blobs s), n) l = Ok acc →
  acc.1 = part (S ∪ list_to_set l) (blobs s).
Proof using Hrep Hcap laws.
  intros Hmax. revert S n. induction l as [|a l IH]; intros S n H; cbn [try_fold] in H.
  - inv_ok. cbn. by rewrite union_empty_r_L.
  - destruct (read_known_blob engine d c _ a) as [[m k]|] eqn:E; [|done]. cbn [mbind result_bind] in H.
    unfold read_known_blob in E. inv_ok.
    match goal with E : get_blob_unlocked_bounded _ _ _ _ _ = Ok ?f |- _ =>
      apply (get_blob_sound engine d s) in E as (Hf & _); [|done|done|lia]; rename f into found end.
    assert (m = part (S ∪ {[a]}) (blobs s)) as ->.
    { rewrite part_add. destruct found as [[v z]|]; inv_ok; destruct a; cbn in Hf; by rewrite <- Hf. }
    apply IH in H. rewrite H. cbn [list_to_set]. by rewrite (assoc_L (∪)).
Qed.

Lemma part_at {V : Type} (m : gmap address V) (l : list address) a :
  a ∈ l → part (∅ ∪ list_to_set l) m !! a = m !! a.
Proof. intros Ha. rewrite part_lookup, decide_True; [done|]. set_solver. Qed.

Lemma read_json_keys_ext (c : StoreCapacityBudget) (j j' : gmap address Value) (l : list address) acc :
  (∀ a, a ∈ l → j !! a = j' !! a) →
  try_fold (read_json_key c j) acc l = try_fold (read_json_key c j') acc l.
Proof.
  intros H. apply try_fold_ext. intros [] a Ha. unfold read_json_key. by rewrite H.
Qed.

Lemma read_blob_keys_ext (c : StoreCapacityBudget) (b b' : gmap address bytes) (l : list address) acc :
  (∀ a, a ∈ l → b !! a = b' !! a) →
  try_fold (read_blob_key c b) acc l = try_fold (read_blob_key c b') acc l.
Proof.
  intros H. apply try_fold_ext. intros [] a Ha. unfold read_blob_key. by rewrite H.
Qed.

Lemma known_keys_exact json_keys blob_keys include_events c res :
  usize_capacity c →
  known_keys_unlocked engine json_keys blob_keys include_events c d = Ok res →
  read_bounded_known_keys_from_parts json_keys blob_keys include_events c
    (json s) (blobs s) (events s) = Ok res.
Proof using Hrep Hcap laws.
  intros [Hs Hb] H. unfold known_keys_unlocked in H.
  destruct (try_fold (read_known_json _ _ _) _ _) as [[m n]|] eqn:E1; [|done].
  cbn [mbind result_bind] in H.
  destruct (try_fold (read_known_blob _ _ _) _ _) as [[mb nb]|] eqn:E2; [|done].
  cbn [mbind result_bind] in H.
  rewrite <- (part_empty (json s)) in E1. apply read_known_json_fold in E1. cbn in E1. subst m.
  rewrite <- (part_empty (blobs s)) in E2. apply read_known_blob_fold in E2; [|done]. cbn in E2. subst mb.
  unfold read_bounded_known_keys_from_parts.
  rewrite (read_json_keys_ext c (json s) (part (∅ ∪ list_to_set json_keys) (json s)))
    by (intros; by rewrite part_at).
  rewrite (read_blob_keys_ext c (blobs s) (part (∅ ∪ list_to_set blob_keys) (blobs s)))
    by (intros; by rewrite part_at).
  destruct include_events; [|exact H]. unfold read_events_unlocked_bounded in H.
  destruct (ensure _ _) as [[]|]; [|done]. cbn [mbind result_bind] in H.
  destruct (read_events_jsonl_bounded _ _ _ _ _) as [es|] eqn:E3; [|done].
  cbn [mbind result_bind] in H. apply (read_events_sound engine d s) in E3 as ->; [|done|lia].
  exact H.
Qed.

(** [read_consistent] of the in-memory engine. *)
Definition consistent_image : BackendTransactionState :=
  {| bt_json := json s; bt_blobs := blobs s; bt_events := events s |}.

Lemma gather_exact {V : Type} (f : address → result (option V)) (m : gmap address V) (l : list address) (S : gset address) acc :
  (∀ a o, f a = Ok o → o = m !! a) →
  try_fold (λ (acc : gmap address V) a,
    found ← f a; Ok match found with Some v => <[a := v]> acc | None => acc end)
    (part S m) l = Ok acc → acc = part (S ∪ list_to_set l) m.
Proof.
  intros Hf. revert S. induction l as [|a l IH]; intros S H; cbn [try_fold] in H.
  - inv_ok. cbn. by rewrite union_empty_r_L.
  - destruct (f a) as [o|] eqn:E; [|done]. cbn [mbind result_bind] in H.
    apply Hf in E as ->.
    replace (match m !! a with Some v => <[a := v]> (part S m) | None => part S m end)
      with (part (S ∪ {[a]}) m) in H by apply part_add.
    apply IH in H as ->. cbn [list_to_set]. by rewrite (assoc_L (∪)).
Qed.

Lemma read_consistent_exact request res :
  read_consistent_unlocked engine request d = Ok res →
  res = read_consistent_from_state request consistent_image.
Proof using Hrep Hcap laws.
  unfold read_consistent_unlocked. intros H.
  destruct (try_fold _ _ (crq_json request)) as [m|] eqn:E1; [|done]. cbn [mbind result_bind] in H.
  destruct (try_fold _ _ (crq_blobs request)) as [b|] eqn:E2; [|done]. cbn [mbind result_bind] in H.
  rewrite <- (part_empty (json s)) in E1. apply gather_exact in E1 as ->;
    [|intros [] o Ho; by apply get_json_unlocked_sound in Ho].
  rewrite <- (part_empty (blobs s)) in E2. apply gather_exact in E2 as ->;
    [|intros [] o Ho; by apply get_blob_unlocked_sound in Ho].
  unfold read_consistent_from_state in *. destruct (crq_include_events request).
  - destruct (read_events_unlocked engine d) as [es|] eqn:E3; [|done]. cbn [mbind result_bind] in H.
    apply (read_events_sound engine d s) in E3 as ->; [|done|apply Hcap]. simplify_eq. f_equal.
    + apply list_fmap_ext. intros i a Ha%list_elem_of_lookup_2. cbn. by rewrite part_at.
    + apply list_fmap_ext. intros i a Ha%list_elem_of_lookup_2. cbn. by rewrite part_at.
  - cbn [mbind result_bind] in H. simplify_eq. f_equal.
    + apply list_fmap_ext. intros i a Ha%list_elem_of_lookup_2. cbn. by rewrite part_at.
    + apply list_fmap_ext. intros i a Ha%list_elem_of_lookup_2. cbn. by rewrite part_at.
Qed.

(** ** Sessions *)

Lemma session_json_exact addresses st reads st' :
  read_json_known_keys engine d st addresses = (Ok reads, st') →
  ReadSession.read_json_known_keys s st addresses = (Ok reads, st').
Proof using Hrep Hcap laws.
  revert st reads st'. induction addresses as [|[ns k] rest IH]; intros st reads st' H;
    cbn [read_json_known_keys ReadSession.read_json_known_keys] in *; [done|].
  destruct (get_json_value_unlocked_bounded _ _ _ _ _) as [found|] eqn:E; [|done].
  apply (get_json_sound engine d s) in E as (Hf & _); [|done|done]. rewrite <- Hf.
  destruct (record_json _ _ _ _) as [[read|] st1]; [|done].
  destruct (read_json_known_keys engine d st1 rest) as [[more|] st2] eqn:E1; [|done].
  by rewrite (IH _ _ _ E1).
Qed.

Lemma session_blob_exact addresses st reads st' :
  usize_capacity (rd_capacity st) →
  read_blob_known_keys engine d st addresses = (Ok reads, st') →
  ReadSession.read_blob_known_keys s st addresses = (Ok reads, st').
Proof using Hrep Hcap laws.
  revert st reads st'. induction addresses as [|[ns k] rest IH]; intros st reads st' Hc H;
    cbn [read_blob_known_keys ReadSession.read_blob_known_keys] in *; [done|].
  destruct (get_blob_unlocked_bounded _ _ _ _ _) as [found|] eqn:E; [|done].
  apply (get_blob_sound engine d s) in E as (Hf & _); [|done|done|].
  2:{ destruct Hc. unfold remaining_session_blob_bytes. lia. }
  rewrite <- Hf. destruct (record_blob _ _ _ _) as [[read|] st1] eqn:E0; [|done].
  assert (rd_capacity st1 = rd_capacity st) as Hst1.
  { unfold record_blob in E0. destruct (poisoned st); [done|].
    by destruct (check_blob_read _ _ _ _); simplify_eq. }
  destruct (read_blob_known_keys engine d st1 rest) as [[more|] st2] eqn:E1; [|done].
  by rewrite (IH st1 more st2) by (done || by rewrite Hst1).
Qed.

End Exact.
