(* ===== verification/FileProps.v ===== *)
(** * File engine: theorems

    A commit of the file engine, interrupted anywhere by errors or by the death
    of the process, leaves a disk that holds the store before it or the store
    the in-memory engine computes; when it reports, it is the latter.  Recovery
    can itself be interrupted any number of times.  Every disk that executions
    reach therefore holds a store that the in-memory engine reaches. *)

From S2P Require Import Prelude RustStr Profile Resource Budget BudgetCompile BudgetFacts BudgetAuthority.
From S2P Require Import StoreTypes StoreTransaction StorePlan InMemoryStore StoreFacts StorePlanFacts.
From S2P Require Import StoreProps StoreInvariant.
From S2P Require Import FileSystem FileAddress FileJournal FileEngine FileRep.
From S2P Require Import ReadSession FileRep FileRecovery FileLoad FileReads.

Local Open Scope string_scope.
Local Open Scope list_scope.
Local Open Scope N_scope.

Section FileProps.
Context {codec : StoreCodec} {fc : FileCodec} {laws : FileCodecLaws fc}.
Context {gov : OwnerGovernance} {rcodec : ReportCodec}.
Context (engine : FileStoreEngine).
Implicit Types (d : disk) (s : InMemoryStoreEngineState) (r : StoreTransactionRequest).

(** ** The plan of a commit *)

(** The journal that a commit on a store prepares, from the plan of the
    in-memory engine and the length of the log. *)
Definition planned_journal r (adm : StoreTransactionAdmission) s : result FileTransactionJournal :=
  let touched0 := read_touched s (read_set r) in
  log ← events_jsonl_bytes (events s);
  closed ← expand_owner_transaction_dependencies r (operation_capacity adm)
             (bt_json touched0) (λ a _, Ok (json s !! a));
  let ctx := {| touched := {| bt_json := closed; bt_blobs := bt_blobs touched0; bt_events := [] |};
                usage := usage_of s;
                existing_event_ids := colliding_event_ids s (mutations r) |} in
  plan ← apply_transaction adm r ctx;
  prepare_journal r ctx (len log) plan.

Lemma plan_commit_sound d s r adm ctx n plan :
  represents engine d s → usize_capacity (file_capacity engine) →
  usize_capacity (operation_capacity adm) → addressing_ok engine →
  plan_commit engine r adm d = Ok (ctx, n, plan) →
  ∃ s', commit_planned s r adm = (Ok (plan_report plan), s')
    ∧ committed s r adm (plan_report plan) s' ctx plan
    ∧ blank (transaction_id r) = false
    ∧ n = len (content d events_path)
    ∧ planned_journal r adm s = prepare_journal r ctx n plan
    ∧ (∀ a, a ∈ rs_json (read_set r) → ∃ p, json_paths engine a.1 a.2 = Ok p)
    ∧ (∀ a, a ∈ rs_blobs (read_set r) → ∃ p, blob_paths engine a.1 a.2 = Ok p).
Proof using laws.
  intros Hrep Hcap Hadm Hok H. unfold plan_commit in H.
  destruct (load_transaction_context engine d r _) as [[ctx' n']|] eqn:El; [|done].
  cbn [mbind result_bind] in H.
  destruct (apply_transaction adm r ctx') as [plan'|] eqn:Ep; [|done]. cbn [mbind result_bind] in H.
  simplify_eq. eapply load_context_sound in El as (closed & Hexp & Hctx & Hn & Hj & Hb); try done.
  pose proof (apply_transaction_planned _ _ _ _ Ep) as Hpl.
  destruct (pl_done _ _ _ _ Hpl) as (st & u & Hl & _).
  eexists. split_and!; [| | |done| |done|done].
  - unfold commit_planned. rewrite Hexp. cbn [mbind result_bind]. rewrite <- Hctx, Ep.
    by rewrite (writer_effect _ _ (le_primitive _ _ _ Hl)).
  - subst ctx. split; try done; cbn.
    eapply (expand_closed _ _ _ _ (λ a, json s !! a)); [| |exact Hexp]; [by intros ??? [= <-]|].
    intros a Ha. by apply read_touched_json.
  - unfold apply_transaction in Ep. inv_ok. by split_bool.
  - unfold planned_journal. rewrite (rep_events _ _ _ Hrep). cbn [mbind result_bind].
    rewrite Hexp. cbn [mbind result_bind]. rewrite <- Hctx, Ep, Hn. done.
Qed.

(** ** Images of a commit *)

Section Images.
Context {s r adm rep s' ctx plan} (Hcov : covers r)
  (Hcm : committed s r adm rep s' ctx plan).

Lemma committed_json_at a :
  a ∈ rs_json (read_set r) →
  bt_json (touched ctx) !! a = json s !! a ∧ bt_json (next_touched plan) !! a = json s' !! a.
Proof using Hcov Hcm.
  intros Ha. assert (Ht := cl_read_set _ _ _ _ (cm_closed _ _ _ _ _ _ _ Hcm) a Ha).
  split; [done|]. destruct (committed_json_split Hcov Hcm) as (_ & _ & -> & _).
  rewrite lookup_union_l; [done|]. apply lookup_difference_None.
  destruct (json s !! a) eqn:E; [right|by left]. rewrite Ht. by eexists.
Qed.

Lemma committed_blob_at a :
  a ∈ rs_blobs (read_set r) →
  bt_blobs (touched ctx) !! a = blobs s !! a ∧ bt_blobs (next_touched plan) !! a = blobs s' !! a.
Proof using Hcov Hcm.
  intros Ha. assert (Ht := committed_blob_lookup Hcm a Ha).
  split; [done|]. destruct (committed_blob_split Hcov Hcm) as (_ & _ & -> & _).
  rewrite lookup_union_l; [done|]. apply lookup_difference_None.
  destruct (blobs s !! a) eqn:E; [right|by left]. rewrite Ht. by eexists.
Qed.

Lemma committed_elsewhere : next_store (rs_json (read_set r)) (rs_blobs (read_set r)) s s'.
Proof using Hcov Hcm.
  destruct (committed_ops Hcov Hcm) as (Hj & Hb & _). rewrite (cm_state _ _ _ _ _ _ _ Hcm).
  split; intros a Ha; cbn.
  - rewrite Hj, lookup_writes, collect_map_not_in; [done|].
    intros (m & Hm & Hma)%effective_json_addresses. by apply Ha, (cov_json r Hcov m).
  - rewrite Hb, lookup_writes, collect_map_not_in; [done|].
    intros (m & Hm & Hma)%effective_blob_addresses. by apply Ha, (cov_blobs r Hcov m).
Qed.

Lemma committed_events :
  events s' = events s ++ omap appended_event (mutations (effective_request plan))
  ∧ log_ids s' = list_to_set (event_id <$> omap appended_event (mutations (effective_request plan)))
                 ∪ log_ids s.
Proof using Hcm. by rewrite (cm_state _ _ _ _ _ _ _ Hcm). Qed.

Lemma dom_next_json : dom (json s') ⊆ dom (json s) ∪ rs_json (read_set r).
Proof using Hcov Hcm.
  intros a Ha. destruct (decide (a ∈ rs_json (read_set r))) as [Hin|Hin].
  - by apply elem_of_union_r.
  - apply elem_of_union_l. by rewrite elem_of_dom, (ns_json _ _ _ _ committed_elsewhere a Hin), <- elem_of_dom.
Qed.

Lemma dom_next_blobs : dom (blobs s') ⊆ dom (blobs s) ∪ rs_blobs (read_set r).
Proof using Hcov Hcm.
  intros a Ha. destruct (decide (a ∈ rs_blobs (read_set r))) as [Hin|Hin].
  - by apply elem_of_union_r.
  - apply elem_of_union_l. by rewrite elem_of_dom, (ns_blobs _ _ _ _ committed_elsewhere a Hin), <- elem_of_dom.
Qed.

End Images.

Lemma transaction_image_addresses state rs ev :
  list_to_set (jv_address <$> image_json (transaction_image state rs ev)) = rs_json rs
  ∧ list_to_set (bv_address <$> image_blobs (transaction_image state rs ev)) = rs_blobs rs.
Proof.
  cbn. rewrite <- !list_fmap_compose. split; apply set_eq; intros a;
    rewrite elem_of_list_to_set, list_elem_of_fmap; (split;
    [intros (b & -> & Hb); apply elem_of_btree_set_iter in Hb; by destruct b
    |intros Ha; exists a; split; [by destruct a|by apply elem_of_btree_set_iter]]).
Qed.

(** The image of a transaction state that agrees with a store on the read set. *)
Lemma transaction_image_of state rs pre n es s :
  (∀ a, a ∈ rs_json rs → bt_json state !! a = json s !! a) →
  (∀ a, a ∈ rs_blobs rs → bt_blobs state !! a = blobs s !! a) →
  events s = pre ++ es → (∃ b, log_of pre b ∧ len b = n) →
  log_ids s = list_to_set (event_id <$> events s) →
  image_of (rs_json rs) (rs_blobs rs) pre n (transaction_image state rs (Append n es)) s.
Proof.
  intros Hj Hb He Hpre Hids.
  destruct (transaction_image_addresses state rs (Append n es)) as [H1 H2].
  split; [done|done| | |by exists es|done|done].
  - intros e (a & -> & Ha%elem_of_btree_set_iter)%list_elem_of_fmap. cbn.
    unfold jv_address. cbn. destruct a. by rewrite Hj.
  - intros e (a & -> & Ha%elem_of_btree_set_iter)%list_elem_of_fmap. cbn.
    unfold bv_address. cbn. destruct a. by rewrite Hb.
Qed.

Lemma distinct_image_addresses (X : gset address) (l : list address) message :
  l = btree_set_iter X → distinct_addresses l message = Ok X.
Proof.
  intros ->. unfold distinct_addresses, btree_set_iter.
  assert (Hset : list_to_set (sorting.merge_sort addr_le (elements X)) = X).
  { apply set_eq. intros a. rewrite elem_of_list_to_set. apply elem_of_btree_set_iter. }
  rewrite Hset. unfold ensure. rewrite (proj2 (N.eqb_eq _ _)); [done|].
  unfold len. f_equal. unfold size, set_size. cbn. apply Permutation_length.
  by rewrite (sorting.merge_sort_Permutation addr_le).
Qed.

Lemma prepared_journal_valid r ctx n plan j :
  blank (transaction_id (effective_request plan)) = false →
  prepare_journal r ctx n plan = Ok j →
  valid_journal j ∧ journal_state j = Prepared
  ∧ journal_before j = transaction_image (touched ctx) (read_set r) (Append n [])
  ∧ journal_after j = transaction_image (next_touched plan) (read_set r)
      (Append n (omap appended_event (mutations (effective_request plan)))).
Proof.
  intros Hid H. unfold prepare_journal, journal_new in H.
  apply refreshed_checksum in H as (Hc & c & ->). split; [|done].
  split_and!; [done|done|]. unfold validate_image_address_contract, address_closure_mismatch.
  cbn [with_checksum journal_transaction_id journal_before journal_after]. rewrite Hid.
  assert (Hsurj : ∀ l : list address, (λ a : address, (a.1, a.2)) <$> l = l).
  { intros l. rewrite <- (list_fmap_id l) at 2. apply list_fmap_ext. by intros ? [] ?. }
  unfold json_addresses, blob_addresses. cbn [transaction_image image_json image_blobs].
  rewrite <- !list_fmap_compose.
  unfold compose, jv_address, bv_address. cbn [jv_namespace jv_key bv_namespace bv_key]. rewrite !Hsurj.
  rewrite !(distinct_image_addresses _ _ _ eq_refl). cbn [mbind result_bind].
  rewrite bool_decide_eq_true_2 by done. cbn [negb mbind result_bind].
  rewrite bool_decide_eq_true_2 by done. cbn.
  by rewrite N.eqb_refl.
Qed.

(** ** Commits *)

(** The part of the universe of addresses that a commit needs: its read set and
    the entries of the store, without digest collisions. *)
Record well_addressed r s : Prop := {
  wa_json : collision_free engine KV (dom (json s) ∪ rs_json (read_set r));
  wa_blobs : collision_free engine BLOB (dom (blobs s) ∪ rs_blobs (read_set r));
}.

(** The journal of the commit is within the bound under which recovery reads
    it. *)
Definition journals_fit r adm s : Prop :=
  match planned_journal r adm s with Ok j => journal_fits engine j | Err _ => True end.

Lemma collision_free_mono (l : Lane) (X Y : gset address) :
  X ⊆ Y → collision_free engine l Y → collision_free engine l X.
Proof. intros HX H a b Ha Hb. apply H; by apply HX. Qed.

Lemma commit_fenced_spec r adm s :
  covers r → usize_capacity (file_capacity engine) → usize_capacity (operation_capacity adm) →
  addressing_ok engine → well_addressed r s →
  spec False (λ d, d !! transaction_marker_path = None ∧ represents engine d s)
    (commit_fenced engine r adm)
    (λ rep d, ∃ s', commit_planned s r adm = (Ok rep, s')
                ∧ d !! transaction_marker_path = None ∧ represents engine d s')
    (λ d, holds engine d s
          ∨ ∃ rep s', commit_planned s r adm = (Ok rep, s')
              ∧ (holds engine d s' ∨ (¬ journals_fit r adm s ∧ blocked engine d))).
Proof using laws.
  intros Hcov Hcap Hadm Hok [Hwj Hwb]. apply spec_pre. intros d [Hm Hrep].
  assert (Hhold : holds engine d s) by by left.
  unfold commit_fenced.
  eapply spec_bind with (R := λ x d', plan_commit engine r adm d = Ok x ∧ d' = d).
  { apply spec_read; [by intros a ? <-|by intros ??? ? []|]. intros ? <-. by left. }
  intros [[ctx n] plan]. apply spec_pre. intros d1 [Hplan ->]. 
  destruct (plan_commit_sound d s r adm ctx n plan Hrep Hcap Hadm Hok Hplan)
    as (s' & Hcp & Hcm & Hid & Hn & Hpl & Hpj & Hpb).
  eapply spec_bind with (R := λ j d', prepare_journal r ctx n plan = Ok j ∧ d' = d).
  { apply spec_result; [by intros ?? <-|]. intros ?? <- _. split; [by left|by intros []]. }
  intros j. apply spec_pre. intros d1 [Hj ->].
  assert (Hfits : ¬ journal_fits engine j → ¬ journals_fit r adm s).
  { unfold journals_fit. by rewrite Hpl, Hj. }
  destruct (prepared_journal_valid r ctx n plan j) as (Hv & Hst & Hbef & Haft); [|done|].
  { rewrite (pl_eff _ _ _ _ (cm_planned _ _ _ _ _ _ _ Hcm)). clear -Hid. by destruct r. }
  assert (Hpre : ∃ b, log_of (events s) b ∧ len b = n).
  { exists (content d events_path). split; [apply Hrep|done]. }
  destruct (committed_events Hcm) as [Hev Hids].
  assert (Hids' : log_ids s' = list_to_set (event_id <$> events s')).
  { rewrite Hids, Hev, (rep_ids _ _ _ Hrep), fmap_app, list_to_set_app_L.
    by rewrite (comm_L (∪)). }
  eapply spec_bind with (R := λ _ d, d !! transaction_marker_path = None ∧ represents engine d s').
  { eapply spec_conseq; [apply (publish_spec engine (rs_json (read_set r)) (rs_blobs (read_set r))
      (events s) n s s' j)|done|..]; try done.
    - rewrite Hbef. apply transaction_image_of; [..|by rewrite app_nil_r|done|apply Hrep].
      + intros a Ha. by apply (committed_json_at Hcov Hcm).
      + intros a Ha. by apply (committed_blob_at Hcov Hcm).
    - rewrite Haft. apply transaction_image_of; [..|done|done|done].
      + intros a Ha. by apply (committed_json_at Hcov Hcm).
      + intros a Ha. by apply (committed_blob_at Hcov Hcm).
    - pose proof (dom_next_json Hcov Hcm). pose proof (dom_next_blobs Hcov Hcm).
      split; try done; (eapply collision_free_mono; [|done]); set_solver.
    - apply (committed_elsewhere Hcov Hcm).
    - by intros d' <-.
    - intros d' [Hd'|[Hd'|[Hnf Hd']]]; [by left|right; exists (plan_report plan), s'; by auto..]. }
  intros []. apply spec_ret. intros d' [Hm' Hr']. by exists s'.
Qed.

Definition mirror : InMemoryStoreEngine :=
  {| capacity := file_capacity engine;
     admission_authority := file_admission_authority engine |}.

(** A commit from any disk that holds [s], under any faults: when it reports,
    the in-memory engine reports the same and the disk represents the store it
    computes; otherwise the disk holds the old store or that one, or a journal
    that was written although it is over the bound. *)
Lemma commit_spec instant_max r adm ast env s :
  covers r → usize_capacity (file_capacity engine) → usize_capacity (operation_capacity adm) →
  addressing_ok engine → well_addressed r s →
  let run := (InMemoryStore.commit_transaction_admitted instant_max mirror s r adm ast env).1 in
  spec False (λ d, holds engine d s)
    (commit_transaction_admitted engine instant_max r adm ast env)
    (λ rep d, run.1 = Ok rep ∧ d !! transaction_marker_path = None ∧ represents engine d run.2)
    (λ d, holds engine d s
          ∨ ((∃ rep, run.1 = Ok rep)
             ∧ (holds engine d run.2 ∨ (¬ journals_fit r adm s ∧ blocked engine d)))).
Proof using laws.
  intros Hcov Hcap Hadm Hok Hwa run. unfold commit_transaction_admitted.
  eapply spec_bind with (R := λ _ d, d !! transaction_marker_path = None ∧ represents engine d s).
  { eapply spec_conseq; [apply (recover_spec engine s Hok)|done|done|done|]. auto. }
  intros []. subst run. unfold InMemoryStore.commit_transaction_admitted. cbn [mirror capacity admission_authority].
  destruct (validate_inside_engine_fence instant_max adm _ _ ast env) as [[[]|e] ast'];
    cbn [fst snd].
  - eapply spec_bind with (R := λ _ d, d !! transaction_marker_path = None ∧ represents engine d s).
    { by apply spec_result. }
    intros []. eapply spec_conseq; [by apply (commit_fenced_spec r adm s)|done|done|..].
    + intros rep d (s' & -> & Hm & Hr). done.
    + intros d [Hd|(rep & s' & -> & Hd)]; [by left|right]. split; [by exists rep|done].
  - eapply spec_bind with (R := λ _ _, False); [|by intros ? ? ? []].
    apply spec_result; [done|]. intros ? d [Hm Hr] _. split; [|by intros []].
    left. by left.
Qed.

(** C2: Whatever errors and crashes interrupt it, a commit of the file engine
    from a disk that holds the store [s] reports only what the in-memory engine
    reports for [s], and then the disk represents the store that engine
    computes, without a journal.  When it does not report, the disk holds [s] or
    that store and nothing in between, except when the journal of the commit is
    over the bound under which recovery reads it: then the disk may be left with
    that journal.  The addresses of the store and of the transaction must have
    different files (no digest collision among them). *)
Theorem file_commit_refines instant_max r adm ast env s faults d :
  built r → usize_capacity (file_capacity engine) → usize_capacity (operation_capacity adm) →
  addressing_ok engine → well_addressed r s → holds engine d s →
  let run := (InMemoryStore.commit_transaction_admitted instant_max mirror s r adm ast env).1 in
  match commit_transaction_admitted engine instant_max r adm ast env faults d with
  | (Done rep, (_, d')) =>
      run.1 = Ok rep ∧ d' !! transaction_marker_path = None ∧ represents engine d' run.2
  | (_, (_, d')) =>
      holds engine d' s
      ∨ ((∃ rep, run.1 = Ok rep)
         ∧ (holds engine d' run.2 ∨ (¬ journals_fit r adm s ∧ blocked engine d')))
  end.
Proof using laws.
  intros Hb Hcap Hadm Hok Hwa Hd run.
  pose proof (commit_spec instant_max r adm ast env s (built_covers r Hb) Hcap Hadm Hok Hwa
    faults d Hd) as H.
  destruct (commit_transaction_admitted engine instant_max r adm ast env faults d)
    as [[rep|e|] [faults' d']]; apply H.
Qed.

(** ** Recovery *)

(** Attempts to recover, each under its own faults. *)
Definition attempts (runs : list (list fault)) d : disk :=
  foldl (λ d faults, (recover_transaction_if_needed engine faults d).2.2) d runs.

Lemma attempt_holds s faults d :
  addressing_ok engine → holds engine d s →
  holds engine (recover_transaction_if_needed engine faults d).2.2 s.
Proof using laws.
  intros Hok Hd. pose proof (recover_spec engine s Hok faults d Hd) as H.
  destruct (recover_transaction_if_needed engine faults d) as [[[]|e|] [faults' d']];
    destruct H as [H _]; [by left|done|done].
Qed.

Lemma attempts_hold s runs d :
  addressing_ok engine → holds engine d s → holds engine (attempts runs d) s.
Proof using laws.
  intros Hok. revert d. induction runs as [|faults runs IH]; intros d Hd; [done|].
  by apply IH, attempt_holds.
Qed.

(** C24: After any number of recoveries that were themselves interrupted, a
    recovery that nothing interrupts returns, and leaves a disk without a
    journal that represents the store the disk held all along. *)
Theorem recovery_survives_crashes s runs d :
  addressing_ok engine → holds engine d s →
  ∃ d', recover_transaction_if_needed engine [] (attempts runs d) = (Done tt, ([], d'))
    ∧ d' !! transaction_marker_path = None ∧ represents engine d' s.
Proof using laws.
  intros Hok Hd. apply (attempts_hold s runs) in Hd; [|done].
  destruct (spec_total _ _ _ _ _ (recover_spec engine s Hok) Hd) as ([] & d' & H & Hr).
  by exists d'.
Qed.

(** ** Orphan temporary files *)

Lemma collected_tmp root d p :
  p ∈ collect_tmp_files root d ↔ is_orphan_tmp_path p = true ∧ is_Some (d !! p).
Proof.
  unfold collect_tmp_files. rewrite sorting.merge_sort_Permutation, list_elem_of_filter, list_elem_of_fmap.
  split; intros [Ht H]; (split; [done|]).
  - destruct H as ([q b] & -> & Hq%elem_of_map_to_list). by exists b.
  - destruct H as [b Hb]. exists (p, b). split; [done|]. by apply elem_of_map_to_list.
Qed.

Lemma collected_NoDup root d : NoDup (collect_tmp_files root d).
Proof.
  unfold collect_tmp_files. rewrite sorting.merge_sort_Permutation.
  apply NoDup_filter, NoDup_fst_map_to_list.
Qed.

(** The disk without the files of a list. *)
Definition without (l : list path) d d' : Prop :=
  ∀ p, d' !! p = if decide (p ∈ l) then None else d !! p.

Lemma without_same_files l d d' :
  (∀ p, p ∈ l → is_orphan_tmp_path p = true) → without l d d' → same_files d d'.
Proof.
  intros Hl Hw p Hp. rewrite Hw. case_decide as Hin; [|done].
  apply Hl in Hin. congruence.
Qed.

Lemma repair_spec root policy d0 :
  spec True (eq d0) (repair_orphan_tmp_files root policy)
    (λ _ d, match policy with
            | ReportOnly => d = d0
            | RepairSafe => same_files d0 d ∧ ∀ p, is_orphan_tmp_path p = true → d !! p = None
            end)
    (λ d, same_files d0 d).
Proof.
  unfold repair_orphan_tmp_files.
  eapply spec_bind with (R := λ ps d, ps = collect_tmp_files root d0 ∧ d = d0).
  { apply spec_read; [by intros ps d <- [= <-]|by intros|by intros d <-]. }
  intros ps. apply spec_pre. intros d1 [-> ->].
  destruct (collect_tmp_files root d0) as [|p0 ps] eqn:Hps.
  { apply spec_ret. intros d <-. destruct policy; [done|]. split; [done|]. intros p Hp.
    destruct (d0 !! p) as [b|] eqn:Hb; [|done]. exfalso. apply (not_elem_of_nil p).
    rewrite <- Hps. apply collected_tmp. eauto. }
  destruct policy; [by apply spec_ret|]. cbv zeta. set (l := p0 :: ps) in *.
  assert (Hmem : ∀ p, p ∈ l ↔ is_orphan_tmp_path p = true ∧ is_Some (d0 !! p)).
  { intros p. rewrite <- Hps. apply collected_tmp. }
  eapply spec_bind with (R := λ _ d, without l d0 d).
  - eapply spec_conseq; [apply (spec_each True (λ done_ d, without done_ d0 d) _
      (λ d, same_files d0 d) l)|done|..]; [|by intros d <- p|done|done].
    intros done_ p rest Hl. assert (Hnd : NoDup l) by (rewrite <- Hps; apply collected_NoDup).
    assert (Hsub : ∀ q, q ∈ done_ → q ∈ l) by (intros q Hq; rewrite Hl, elem_of_app; by left).
    assert (Hp : p ∈ l) by (rewrite Hl, elem_of_app; right; by left).
    assert (Hpd : p ∉ done_).
    { rewrite Hl in Hnd. apply NoDup_app in Hnd as (_ & Hd & _). intros Hin.
      apply (Hd p Hin). by left. }
    unfold remove_tmp. eapply spec_bind with (R := λ found d, found = true ∧ without (done_ ++ [p]) d0 d).
    + apply spec_syscall; cbn [fst snd].
      * intros d Hd. split.
        -- apply bool_decide_eq_true_2. rewrite Hd, decide_False by done. by apply Hmem in Hp as [_ ?].
        -- intros q. destruct (decide (q = p)) as [->|Hne].
           ++ rewrite lookup_delete_eq, decide_True; [done|]. rewrite elem_of_app. right. by left.
           ++ rewrite lookup_delete_ne, Hd by done. f_equal.
              destruct (decide (q ∈ done_)) as [H|H].
              ** rewrite decide_True; [done|]. rewrite elem_of_app. by left.
              ** rewrite decide_False; [done|]. rewrite elem_of_app, list_elem_of_singleton. intros [?|?]; done.
      * intros d ? Hd. eapply without_same_files; [|done]. intros q Hq. by apply Hmem, Hsub.
    + intros found. apply spec_pre. intros d [-> Hd]. apply spec_result; [by intros ? ? <-|done].
  - intros _. apply spec_ret. intros d Hd. split; [eapply without_same_files; [|done]; intros q Hq; by apply Hmem|].
    intros p Hp. rewrite Hd. case_decide as Hin; [done|].
    destruct (d0 !! p) as [b|] eqn:Hb; [|done]. exfalso. apply Hin, Hmem. eauto.
Qed.

Lemma repair_same_files root policy faults d :
  same_files d (repair_orphan_tmp_files root policy faults d).2.2.
Proof.
  pose proof (repair_spec root policy d faults d eq_refl) as H.
  destruct (repair_orphan_tmp_files root policy faults d) as [[rep|e|] [f d']];
    destruct H as [H _]; [|done|done]. destruct policy; [by subst|apply H].
Qed.

(** Repair touches orphan temporary files only, whatever interrupts it; the
    safe policy, uninterrupted, removes all of them, and reporting removes
    none. *)
Theorem repair_removes_only_orphans root policy faults d :
  same_files d (repair_orphan_tmp_files root policy faults d).2.2
  ∧ ∃ rep d', repair_orphan_tmp_files root policy [] d = (Done rep, ([], d'))
      ∧ match policy with
        | ReportOnly => d' = d
        | RepairSafe => ∀ p, is_orphan_tmp_path p = true → d' !! p = None
        end.
Proof.
  split; [apply repair_same_files|].
  destruct (spec_total _ _ _ _ d (repair_spec root policy d) eq_refl) as (rep & d' & Hr & Hd).
  exists rep, d'. split; [done|]. by destruct policy; [|destruct Hd].
Qed.

(** ** A journal that is too large *)

Lemma oversized_recovery b faults d :
  d !! transaction_marker_path = Some b → journal_max_bytes engine < len b →
  match recover_transaction_if_needed engine faults d with
  | (Done _, _) => False
  | (_, (_, d')) => d' = d
  end.
Proof.
  intros Hb Hl. assert (Hr : ∃ e, read_transaction_journal_read_only engine d = Err e).
  { unfold read_transaction_journal_read_only, read_file_bounded. rewrite Hb.
    rewrite (proj2 (N.leb_gt _ _) Hl). cbn [ensure mbind result_bind]. eauto. }
  destruct Hr as [e He]. unfold recover_transaction_if_needed, io_read, mbind, io_bind, syscall.
  destruct faults as [|[] faults]; cbv beta iota; rewrite ?He; done.
Qed.

Lemma oversized_commit b faults d instant_max r adm ast env :
  d !! transaction_marker_path = Some b → journal_max_bytes engine < len b →
  match commit_transaction_admitted engine instant_max r adm ast env faults d with
  | (Done _, _) => False
  | (_, (_, d')) => d' = d
  end.
Proof.
  intros Hb Hl. pose proof (oversized_recovery b faults d Hb Hl) as Hrec.
  unfold commit_transaction_admitted, mbind, io_bind.
  by destruct (recover_transaction_if_needed engine faults d) as [[[]|e|] [f d']].
Qed.

Lemma oversized_read b faults d (A : Type) fuel stage (operation : disk → result A) :
  d !! transaction_marker_path = Some b → journal_max_bytes engine < len b →
  match with_shared_backend engine fuel stage operation faults d with
  | (Done (Some _), _) => False
  | (_, (_, d')) => d' = d
  end.
Proof.
  intros Hb Hl. destruct fuel as [|fuel]; [done|]. cbn [with_shared_backend].
  unfold mbind at 1, io_bind at 1.
  assert (Hm : (∃ f, io_read stage (λ d, Ok (d !! transaction_marker_path)) faults d = (Done (Some b), (f, d)))
    ∨ match io_read stage (λ d, Ok (d !! transaction_marker_path)) faults d with
      | (Done _, _) => False | (_, (_, d')) => d' = d end).
  { unfold io_read, mbind, io_bind, syscall.
    destruct faults as [|[] faults]; cbn; rewrite ?Hb; eauto. }
  destruct Hm as [[f ->]|Hm].
  - unfold mbind, io_bind. pose proof (oversized_recovery b f d Hb Hl) as Hrec.
    by destruct (recover_transaction_if_needed engine f d) as [[[]|e|] [f' d']].
  - by destruct (io_read _ _ faults d) as [[o|e|] [f d']].
Qed.

(** ** Executions *)

Section Executions.
Context (UJ UB : gset address).

(** Steps of executions whose addresses are in [UJ] and [UB]; [fit] says whether
    the journals of all commits are within the bound of recovery. *)
Inductive file_step (fit : bool) : disk → disk → Prop :=
| file_step_commit faults d instant_max r adm ast env :
    built r → rs_json (read_set r) ⊆ UJ → rs_blobs (read_set r) ⊆ UB →
    usize_capacity (operation_capacity adm) →
    (fit = true → ∀ s, holds engine d s → journals_fit r adm s) →
    file_step fit d (commit_transaction_admitted engine instant_max r adm ast env faults d).2.2
| file_step_read faults d A fuel stage (operation : disk → result A) :
    file_step fit d (with_shared_backend engine fuel stage operation faults d).2.2
| file_step_recover faults d :
    file_step fit d (recover_transaction_if_needed engine faults d).2.2
| file_step_repair faults d root policy :
    file_step fit d (repair_orphan_tmp_files root policy faults d).2.2.

(** A store root without documents, blobs, events or a journal. *)
Definition fresh_root d : Prop :=
  d !! transaction_marker_path = None ∧ ∀ p, store_file p → d !! p = None.

Definition file_reachable (fit : bool) d : Prop := ∃ d0, fresh_root d0 ∧ rtc (file_step fit) d0 d.

(** The disk holds a store that the in-memory engine reaches. *)
Definition simulated d : Prop :=
  ∃ s, holds engine d s ∧ store_reachable mirror false s
    ∧ dom (json s) ⊆ UJ ∧ dom (blobs s) ⊆ UB.

Context (Hcap : usize_capacity (file_capacity engine)) (Hok : addressing_ok engine).
Context (HUJ : collision_free engine KV UJ) (HUB : collision_free engine BLOB UB).

Lemma fresh_root_simulated d : fresh_root d → simulated d.
Proof using laws.
  clear. intros [Hm Hf]. exists empty_state. split_and!;
    [|apply rtc_refl|cbn; rewrite dom_empty_L; apply empty_subseteq..]. left. split; [done|]. split.
  - split; [done|]. intros p _ [b Hb] Hl. rewrite Hf in Hb; [done|]. by left.
  - split; [done|]. intros p _ [b Hb] Hl. rewrite Hf in Hb; [done|]. by right; left.
  - unfold content. rewrite Hf by (by right; right). by apply log_of_nil.
  - done.
Qed.

Lemma holds_same_files s d d' : same_files d d' → holds engine d s → holds engine d' s.
Proof using Hok laws.
  intros Hs. assert (Hmark : d' !! transaction_marker_path = d !! transaction_marker_path).
  { symmetry. apply Hs, marker_stable. }
  intros [[Hm Hr]|(b & j & A & B & pre & n & Hm & Hrest)]; [left|right].
  - rewrite Hmark. split; [done|].
    eapply (represents_frame engine (λ _, False)); [done|by intros ? []| |exact Hr]. intros p Hp _. by apply Hs.
  - exists b, j, A, B, pre, n. rewrite Hmark. destruct Hrest as (? & ? & ? & ? & ? & ? & Ht).
    split_and!; try done.
    eapply (torn_frame engine (λ _, False)); [done|by intros ? []| |exact Ht]. intros p Hp _. by apply Hs.
Qed.

Lemma shared_holds {A : Type} s fuel stage (operation : disk → result A) :
  spec False (λ d, holds engine d s) (with_shared_backend engine fuel stage operation)
    (λ _ d, holds engine d s) (λ d, holds engine d s).
Proof using laws Hok.
  induction fuel as [|fuel IH]; cbn [with_shared_backend]; [by apply spec_ret|].
  eapply spec_bind with (R := λ _ d, holds engine d s); [by apply spec_read|].
  intros [b|].
  - eapply spec_bind with (R := λ _ d, holds engine d s); [|by intros ?; apply IH].
    eapply spec_conseq; [apply (recover_spec engine s Hok)|done|done| |done]. by left.
  - eapply spec_bind with (R := λ _ d, holds engine d s); [by apply spec_read; auto|].
    intros a. by apply spec_ret.
Qed.

Lemma spec_keeps {A : Type} (m : io A) (P : disk → Prop) faults d :
  spec False P m (λ _, P) P → P d → P (m faults d).2.2.
Proof.
  intros H Hd. specialize (H faults d Hd).
  by destruct (m faults d) as [[a|e|] [faults' d']]; destruct H.
Qed.

Lemma commit_simulated fit instant_max r adm ast env faults d :
  built r → rs_json (read_set r) ⊆ UJ → rs_blobs (read_set r) ⊆ UB →
  usize_capacity (operation_capacity adm) →
  (fit = true → ∀ s, holds engine d s → journals_fit r adm s) → simulated d →
  let d' := (commit_transaction_admitted engine instant_max r adm ast env faults d).2.2 in
  simulated d' ∨ (fit = false ∧ blocked engine d').
Proof using laws Hcap Hok HUJ HUB.
  intros Hb HJ HB Hadm Hfit (s & Hd & Hr & Hj & Hbl).
  assert (Hwa : well_addressed r s).
  { split; (eapply collision_free_mono; [|done]); by apply union_subseteq. }
  pose proof (commit_spec instant_max r adm ast env s (built_covers r Hb) Hcap Hadm Hok Hwa
    faults d Hd) as H. cbv zeta in H.
  set (run := InMemoryStore.commit_transaction_admitted instant_max mirror s r adm ast env) in *.
  assert (Hold : ∀ d', holds engine d' s → simulated d') by (intros d' ?; by exists s).
  assert (Hnew : ∀ d', holds engine d' run.1.2 → simulated d').
  { intros d' Hd'. exists run.1.2. split_and!; [done|..].
    - eapply rtc_r; [done|]. by apply step_commit.
    - destruct (commit_admitted_cases mirror instant_max s r adm ast env run.1.2 eq_refl)
        as [->|(_ & rep & ctx & plan & Hcm)]; [done|].
      etransitivity; [apply (dom_next_json (built_covers r Hb) Hcm)|]. by apply union_subseteq.
    - destruct (commit_admitted_cases mirror instant_max s r adm ast env run.1.2 eq_refl)
        as [->|(_ & rep & ctx & plan & Hcm)]; [done|].
      etransitivity; [apply (dom_next_blobs (built_covers r Hb) Hcm)|]. by apply union_subseteq. }
  assert (Hlost : ∀ d', ¬ journals_fit r adm s → blocked engine d' → fit = false ∧ blocked engine d').
  { intros d' Hnf Hbd. split; [|done]. destruct fit; [|done]. by destruct (Hnf (Hfit eq_refl s Hd)). }
  destruct (commit_transaction_admitted engine instant_max r adm ast env faults d)
    as [[rep|e|] [faults' d']]; destruct H as [H _]; cbn [fst snd].
  - left. apply Hnew. left. apply H.
  - destruct H as [H|[_ [H|[]]]]; auto.
  - destruct H as [H|[_ [H|[]]]]; auto.
Qed.

(** A blocked disk stays as it is, up to temporary files. *)
Lemma file_step_blocked fit d d' :
  file_step fit d d' → ∀ b, d !! transaction_marker_path = Some b → journal_max_bytes engine < len b →
  d' !! transaction_marker_path = Some b.
Proof.
  clear. intros Hstep b Hb Hl. destruct Hstep as
    [faults d instant_max r adm ast env|faults d A fuel stage op|faults d|faults d root policy].
  - pose proof (oversized_commit b faults d instant_max r adm ast env Hb Hl) as Hov.
    by destruct (commit_transaction_admitted _ _ _ _ _ _ _ _) as [[rep|e|] [f d']]; [|subst d'..].
  - pose proof (oversized_read b faults d A fuel stage op Hb Hl) as Hov.
    by destruct (with_shared_backend _ _ _ _ _ _) as [[[a|]|e|] [f d']]; [|subst d'..].
  - pose proof (oversized_recovery b faults d Hb Hl) as Hov.
    by destruct (recover_transaction_if_needed _ _ _) as [[rep|e|] [f d']]; [|subst d'..].
  - rewrite <- Hb. symmetry. apply (repair_same_files root policy faults d), marker_stable.
Qed.

Lemma file_step_simulated fit d d' :
  file_step fit d d' → simulated d ∨ (fit = false ∧ blocked engine d) →
  simulated d' ∨ (fit = false ∧ blocked engine d').
Proof using laws Hcap Hok HUJ HUB.
  intros Hstep [Hs|[Hf (b & Hb & Hl)]].
  2: { right. split; [done|]. exists b. split; [|done]. by eapply file_step_blocked. }
  destruct Hstep as
    [faults d instant_max r adm ast env|faults d A fuel stage op|faults d|faults d root policy].
  - by apply commit_simulated.
  - left. destruct Hs as (s & Hd & Hrest). exists s. split; [|done].
    apply spec_keeps; [apply shared_holds|done].
  - left. destruct Hs as (s & Hd & Hrest). exists s. split; [|done]. by apply attempt_holds.
  - left. destruct Hs as (s & Hd & Hrest). exists s. split; [|done].
    eapply holds_same_files; [|exact Hd]. apply repair_same_files.
Qed.

Lemma file_reachable_simulated fit d :
  file_reachable fit d → simulated d ∨ (fit = false ∧ blocked engine d).
Proof using laws Hcap Hok HUJ HUB.
  intros (d0 & H0 & Hr). apply fresh_root_simulated in H0.
  assert (Hd : simulated d0 ∨ (fit = false ∧ blocked engine d0)) by by left. clear H0. revert Hd.
  induction Hr as [d|d1 d2 d3 Hstep _ IH]; [done|]. intros Hs. by apply IH, (file_step_simulated fit d1).
Qed.

(** C5: Every disk that commits, reads, recoveries and repairs reach from an empty
    root, however errors and crashes interrupt them, holds a store that the
    in-memory engine reaches, whose log has no duplicate identifiers and whose
    entries, blob bytes and events are within the capacity, or it has a journal
    over the bound of recovery, which only a commit whose journal is over that
    bound leaves.  The addresses of the execution must have different files (no
    digest collision among them). *)
Theorem file_executions_refine fit d :
  moderate (file_capacity engine) → file_reachable fit d →
  (∃ s, holds engine d s ∧ store_reachable mirror false s ∧ store_ok mirror s
     ∧ kv_count s ≤ kv_max_entries (file_capacity engine))
  ∨ (fit = false ∧ blocked engine d).
Proof using laws Hcap Hok HUJ HUB.
  intros Hm [(s & Hd & Hr & _)|H]%file_reachable_simulated; [left|by right]. exists s.
  destruct (reachable_store mirror false s Hm Hr) as [Hs Hk]. split_and!; auto.
Qed.

(** C33: A journal over the bound under which recovery reads it blocks the store
    for good: no commit, no read under the shared lock and no recovery succeeds,
    whatever the faults, none of them changes the disk, and no sequence of these
    and of repairs ever removes the journal. *)
Theorem oversized_journal_blocks b d :
  d !! transaction_marker_path = Some b → journal_max_bytes engine < len b →
  (∀ faults instant_max r adm ast env,
     match commit_transaction_admitted engine instant_max r adm ast env faults d with
     | (Done _, _) => False
     | (_, (_, d')) => d' = d
     end)
  ∧ (∀ faults (A : Type) fuel stage (operation : disk → result A),
     match with_shared_backend engine fuel stage operation faults d with
     | (Done (Some _), _) => False
     | (_, (_, d')) => d' = d
     end)
  ∧ (∀ faults,
     match recover_transaction_if_needed engine faults d with
     | (Done _, _) => False
     | (_, (_, d')) => d' = d
     end)
  ∧ ∀ fit d', rtc (file_step fit) d d' → d' !! transaction_marker_path = Some b.
Proof.
  clear. intros Hb Hl. split_and!.
  - intros faults instant_max r adm ast env. by apply (oversized_commit b).
  - intros faults A fuel stage operation. by apply (oversized_read b).
  - intros faults. by apply (oversized_recovery b).
  - intros fit d' Hr. revert Hb. induction Hr as [d|d1 d2 d3 Hstep _ IH]; [done|]. intros Hb.
    by apply IH, (file_step_blocked fit d1).
Qed.

End Executions.

(** ** Reads *)

Section Reads.
Context (Hcap : usize_capacity (file_capacity engine)) (Hok : addressing_ok engine).

Lemma no_journal_represents d s :
  holds engine d s → d !! transaction_marker_path = None → represents engine d s.
Proof. intros [[_ H]|(b & j & A & B & pre & n & Hm & _)] Hn; [done|congruence]. Qed.

Lemma settled_read {A : Type} s stage (operation : disk → result A) (R : A → Prop) :
  (∀ d a, represents engine d s → operation d = Ok a → R a) →
  spec False (λ d, d !! transaction_marker_path = None ∧ represents engine d s)
    (a ← io_read stage operation; mret (Some a))
    (λ o d, (∃ a, o = Some a ∧ R a) ∧ represents engine d s) (λ d, holds engine d s).
Proof.
  intros HR. eapply spec_bind with (R := λ a d, R a ∧ represents engine d s).
  - apply spec_read; [|by intros ?? _ _ []|by left]. intros a d [_ Hd] Ha. eauto.
  - intros a. apply spec_ret. intros d [Ha Hd]. eauto.
Qed.

(** Two rounds of the shared loop are enough: the second finds no journal. *)
Lemma shared_exact {A : Type} s stage (operation : disk → result A) (R : A → Prop) :
  (∀ d a, represents engine d s → operation d = Ok a → R a) →
  spec False (λ d, holds engine d s) (with_shared_backend engine 2 stage operation)
    (λ o d, (∃ a, o = Some a ∧ R a) ∧ represents engine d s) (λ d, holds engine d s).
Proof using laws Hok.
  intros HR. cbn [with_shared_backend].
  eapply spec_bind with (R := λ o d, holds engine d s ∧ d !! transaction_marker_path = o).
  { apply spec_read; [|by intros ?? _ _ []|done]. intros o d Hd [= <-]. done. }
  intros [b|].
  - eapply spec_bind with (R := λ _ d, d !! transaction_marker_path = None ∧ represents engine d s).
    { eapply spec_conseq; [apply (recover_spec engine s Hok)|done|by intros ? []|done|done]. }
    intros _. eapply spec_bind with (R := λ o d, o = None ∧
      d !! transaction_marker_path = None ∧ represents engine d s).
    { apply spec_read; [|by intros ?? _ _ []|by left]. intros o d [Hm Hd] [= <-]. done. }
    intros o. apply spec_pre. intros d (-> & Hm & Hd).
    eapply spec_conseq; [by apply (settled_read s stage operation R)|done|by intros ? <-|done|done].
  - eapply spec_conseq; [by apply (settled_read s stage operation R)|done| |done|done].
    intros d [Hd Hm]. split; [done|]. by apply no_journal_represents.
Qed.

(** The run of a read answers [R], or it is interrupted and the disk still
    holds the store. *)
Definition answers {A : Type} s (run : outcome (option A) * (list fault * disk)) (R : A → Prop) : Prop :=
  match run with
  | (Done o, (_, d')) => (∃ a, o = Some a ∧ R a) ∧ represents engine d' s
  | (_, (_, d')) => holds engine d' s
  end.

Lemma shared_answers {A : Type} s stage (operation : disk → result A) (R : A → Prop) faults d :
  (∀ d a, represents engine d s → operation d = Ok a → R a) → holds engine d s →
  answers s (with_shared_backend engine 2 stage operation faults d) R.
Proof using laws Hok.
  intros HR Hd. pose proof (shared_exact s stage operation R HR faults d Hd) as H. unfold answers.
  by destruct (with_shared_backend _ _ _ _ _ _) as [[o|e|] [f d']]; destruct H.
Qed.

(** C32: From any disk that holds the store [s], with or without a journal to
    recover and under any faults, a read that answers returns what [s] has at
    the key, the sorted keys of the namespace in [s], or the log of [s]. *)
Theorem file_reads_exact s faults d ns k :
  holds engine d s →
  answers s (get_json_value engine 2 ns k faults d) (eq (json s !! (ns, k)))
  ∧ answers s (get_blob engine 2 ns k faults d) (eq (blobs s !! (ns, k)))
  ∧ answers s (list_json_keys engine 2 ns faults d) (eq (keys_of_namespace (json s) ns))
  ∧ answers s (list_blob_keys engine 2 ns faults d) (eq (keys_of_namespace (blobs s) ns))
  ∧ answers s (read_events engine 2 faults d) (eq (events s)).
Proof using laws Hok Hcap.
  intros Hd. split_and!; apply shared_answers; try done; intros d' a Hr Ha; symmetry.
  - by apply (get_json_unlocked_sound engine d').
  - by apply (get_blob_unlocked_sound engine d').
  - apply lane_list_json in Ha. eapply (list_keys_exact engine d' kv_enc KV); [apply Hr|done|done].
  - apply lane_list_blob in Ha. eapply (list_keys_exact engine d' blob_enc BLOB); [apply Hr|done|done].
  - eapply (read_events_sound engine d'); [done| |done]. apply Hcap.
Qed.

(** A read of several known keys under one lock, a consistent read, and the
    reads of an immutable session, when they answer, answer with the values,
    events and receipt that the in-memory engine computes from the store the
    disk holds. *)
Theorem file_known_keys_exact s faults d json_keys blob_keys include_events c request :
  usize_capacity c → holds engine d s →
  answers s (read_consistent_known_keys engine 2 json_keys blob_keys include_events c faults d)
    (λ res, read_bounded_known_keys_from_parts json_keys blob_keys include_events c
              (json s) (blobs s) (events s) = Ok res)
  ∧ answers s (read_consistent engine 2 request faults d)
      (eq (read_consistent_from_state request (consistent_image s)))
  ∧ match open_immutable_read_session engine 2 c faults d with
    | (Done o, (_, d')) =>
        o = Some (session_new c) ∧ represents engine d' s
        ∧ (∀ st keys reads st', read_json_known_keys engine d' st keys = (Ok reads, st') →
             ReadSession.read_json_known_keys s st keys = (Ok reads, st'))
        ∧ (∀ st keys reads st', rd_capacity st = c →
             read_blob_known_keys engine d' st keys = (Ok reads, st') →
             ReadSession.read_blob_known_keys s st keys = (Ok reads, st'))
    | (_, (_, d')) => holds engine d' s
    end.
Proof using laws Hok Hcap.
  intros Hc Hd. split_and!.
  - unfold read_consistent_known_keys.
    match goal with |- context [io_result ?res] => destruct res as [u|e] end; cbn; [|done].
    apply shared_answers; [|done]. intros d' a Hr Ha. by apply (known_keys_exact engine d').
  - apply shared_answers; [|done]. intros d' a Hr Ha. symmetry.
    by apply (read_consistent_exact engine d').
  - assert (Ha : answers s (acquire_immutable_read_lock engine 2 faults d) (λ _, True))
      by (by apply shared_answers).
    unfold open_immutable_read_session, mbind, io_bind, io_result.
    destruct (validate_immutable_read_session_capacity _ _) as [[]|e]; cbv beta iota; [|done].
    destruct (acquire_immutable_read_lock engine 2 faults d) as [[o|e|] [f d']]; [|done|done].
    destruct Ha as [([] & -> & _) Hr]. cbn. split_and!; [done|done|..].
    + intros st keys reads st'. by apply (session_json_exact engine d').
    + intros st keys reads st' <-. by apply (session_blob_exact engine d').
Qed.

Lemma io_bind_done {A B : Type} (m : io A) (k : A → io B) faults d a faults' d' :
  m faults d = (Done a, (faults', d')) → (m ≫= k) faults d = k a faults' d'.
Proof. intros H. unfold mbind, io_bind. by rewrite H. Qed.

Lemma io_read_run {A : Type} stage (f : disk → result A) d :
  io_read stage f [] d = (match f d with Ok a => Done a | Err e => Failed e end, ([], d)).
Proof. unfold io_read, mbind, io_bind, io_result. cbn. by destruct (f d). Qed.

Lemma read_once {A : Type} stage (f : disk → result A) d :
  (a ← io_read stage f; mret (Some a)) [] d
  = (match f d with Ok a => Done (Some a) | Err e => Failed e end, ([], d)).
Proof. unfold mbind at 1, io_bind. rewrite io_read_run. by destruct (f d). Qed.

(** A read that nothing interrupts ends: the loop recovers at most one
    journal, and then returns the outcome of the read on the recovered disk. *)
Theorem shared_read_terminates {A : Type} s stage (operation : disk → result A) d :
  holds engine d s →
  ∃ d', represents engine d' s ∧ d' !! transaction_marker_path = None
    ∧ with_shared_backend engine 2 stage operation [] d
      = (match operation d' with Ok a => Done (Some a) | Err e => Failed e end, ([], d')).
Proof using laws Hok.
  intros Hd. cbn [with_shared_backend].
  rewrite (io_bind_done _ _ _ _ (d !! transaction_marker_path) [] d) by (by rewrite io_read_run).
  destruct (d !! transaction_marker_path) as [b|] eqn:Hm; cbv iota.
  - destruct (spec_total _ _ _ _ _ (recover_spec engine s Hok) Hd) as ([] & d' & Hrec & Hm' & Hr').
    exists d'. split_and!; [done|done|]. rewrite (io_bind_done _ _ _ _ tt [] d') by done.
    rewrite (io_bind_done _ _ _ _ None [] d') by (rewrite io_read_run; by rewrite Hm'). cbv iota.
    apply read_once.
  - exists d. split_and!; [by apply no_journal_represents|done|]. apply read_once.
Qed.

End Reads.

(** ** The event log and the names of files *)

(** The bounded reader of the event log gives the same answer, or the same
    error, however the file is cut into buffers, and its fuel is enough: it is
    the reader that looks at one byte at a time. *)
Theorem event_reader_chunking (c : StoreCapacityBudget) max item_stage byte_stage buffers :
  max ≤ usize_max → Forall (λ b : bytes, b ≠ []) buffers → len (concat buffers) ≤ usize_max →
  read_events_from_reader_bounded c max item_stage byte_stage buffers
  = read_bytes c max item_stage byte_stage (concat buffers) [] [] 0.
Proof. apply reader_eq. Qed.

(** A log written for a list of events of the current schema reads back as
    that list, when it is within the item and byte budgets. *)
Theorem event_log_round_trip (c : StoreCapacityBudget) d p max stage es b :
  events_jsonl_bytes es = Ok b → Forall (λ e, validate_current_schema e stage = Ok tt) es →
  len es ≤ event_log_max_items c → event_log_max_items c ≤ usize_max →
  len b ≤ max → max ≤ usize_max →
  read_events_jsonl_bounded (<[p := b]> d) p c max stage = Ok es.
Proof using laws.
  intros Hb Hes Hi Hu Hl Hm. unfold read_events_jsonl_bounded, read_events_jsonl_bounded_with_receipt.
  rewrite lookup_insert_eq, (proj2 (N.leb_le _ _) Hl). cbn [ensure mbind result_bind].
  destruct (buf_reader_spec b) as [Hc Hne]. rewrite reader_eq by (rewrite ?Hc; done || lia).
  rewrite Hc, <- (app_nil_r b), (read_log_complete c max stage stage es b [] [] 0)
    by (done || rewrite ?len_nil; lia).
  by cbn [read_bytes app].
Qed.

(** The file name of a legacy entry determines its key, and for a key of
    UTF-8 text, listing decodes the name back to the key. *)
Theorem legacy_name_round_trip key key' :
  (hex_encode key = hex_encode key' → key = key')
  ∧ (is_utf8 key = true → key ≠ "" →
     hex_decode_to_string (file_stem (hex_encode key +:+ ".json")) = Some key).
Proof.
  split; [apply hex_encode_inj|]. intros Hu Hk.
  destruct (extension_app (hex_encode key) "json") as [_ ->]; [|done..|by apply hex_decode_encode].
  by destruct key.
Qed.

End FileProps.
