(* ===== verification/FileSamples.v ===== *)
(** * File engine: concrete executions

    A concrete encoding of documents, events, key indexes and journals that
    satisfies what the engine relies on, and the file-engine theorems applied
    to executions on it. *)

From S2P Require Import Prelude RustStr Profile Resource Budget BudgetCompile BudgetFacts BudgetAuthority.
From S2P Require Import StoreTypes StoreTransaction StorePlan InMemoryStore StoreFacts StorePlanFacts.
From S2P Require Import StoreProps StoreInvariant StoreSamples.
From S2P Require Import FileSystem FileAddress FileJournal FileEngine FileRep.
From S2P Require Import ReadSession FileRep FileRecovery FileLoad FileReads FileProps.

Local Open Scope string_scope.
Local Open Scope list_scope.
Local Open Scope N_scope.

Module FileSamples.

(** ** A self-delimiting encoding

    A value is a list of tokens; a byte of a token is two letters, and a dot
    ends the token. *)

Definition letter (n : N) : byte := byte_of_N (97 + n).
Definition high (b : byte) : byte := letter (Byte.to_N b / 16).
Definition low (b : byte) : byte := letter (Byte.to_N b mod 16).
Definition unletters (h l : byte) : byte :=
  byte_of_N ((Byte.to_N h - 97) * 16 + (Byte.to_N l - 97)).

Lemma unletters_letters b : unletters (high b) (low b) = b.
Proof. by destruct b. Qed.

Lemma high_plain b : high b ≠ x2e ∧ high b ≠ newline ∧ low b ≠ newline.
Proof. by destruct b. Qed.

Definition put_token (t : bytes) : bytes := concat ((λ b, [high b; low b]) <$> t) ++ [x2e].

Fixpoint get_tokens (l : bytes) (token : bytes) : option (list bytes) :=
  match l with
  | [] => match token with [] => Some [] | _ => None end
  | h :: rest =>
      if decide (h = x2e) then cons token <$> get_tokens rest []
      else match rest with
           | [] => None
           | l :: rest => get_tokens rest (token ++ [unletters h l])
           end
  end.

Lemma get_token_put t rest token :
  get_tokens (put_token t ++ rest) token = cons (token ++ t) <$> get_tokens rest [].
Proof.
  revert token. induction t as [|b t IH]; intros token.
  - cbn. by rewrite app_nil_r.
  - unfold put_token. cbn [fmap list_fmap concat app get_tokens].
    rewrite decide_False by apply high_plain. rewrite unletters_letters.
    change (get_tokens (put_token t ++ rest) (token ++ [b]) = cons (token ++ b :: t) <$> get_tokens rest []).
    rewrite IH. by rewrite <- app_assoc.
Qed.

Lemma get_tokens_put ts : get_tokens (concat (put_token <$> ts)) [] = Some ts.
Proof.
  induction ts as [|t ts IH]; [done|]. cbn [fmap list_fmap concat].
  rewrite get_token_put, IH. done.
Qed.

Lemma put_tokens_line ts : newline ∉ concat (put_token <$> ts).
Proof.
  induction ts as [|t ts IH]; [by intros ?%elem_of_nil|]. cbn [fmap list_fmap concat].
  intros [H|H]%elem_of_app; [|done]. clear IH. unfold put_token in H.
  apply elem_of_app in H as [H|H]; [|by apply list_elem_of_singleton in H].
  induction t as [|b t IH]; [by apply elem_of_nil in H|]. cbn in H.
  destruct (high_plain b) as (_ & H1 & H2).
  apply elem_of_cons in H as [H|H]; [congruence|]. apply elem_of_cons in H as [H|H]; [congruence|auto].
Qed.

Lemma put_tokens_dot ts : ts ≠ [] → x2e ∈ concat (put_token <$> ts).
Proof.
  destruct ts as [|t ts]; [done|]. intros _. cbn [fmap list_fmap concat]. unfold put_token.
  rewrite !elem_of_app. left. right. apply list_elem_of_here.
Qed.

Class Tok (A : Type) := {
  put : A → list bytes;
  get : list bytes → option (A * list bytes);
  get_put a rest : get (put a ++ rest) = Some (a, rest);
}.

Program Definition tok_iso {A B : Type} `{Tok B} (f : A → B) (g : B → A) (gf : ∀ a, g (f a) = a)
    : Tok A :=
  {| put := λ a, put (f a);
     get := λ l, '(b, rest) ← get l; Some (g b, rest) |}.
Next Obligation. intros A B HB f g gf a rest. cbn. rewrite get_put. cbn. by rewrite gf. Qed.

#[local] Program Instance tok_bytes : Tok bytes :=
  {| put := λ b, [b]; get := λ l, match l with b :: rest => Some (b, rest) | [] => None end |}.
Next Obligation. done. Qed.

#[local] Instance tok_string : Tok string :=
  tok_iso String.list_byte_of_string String.string_of_list_byte String.string_of_list_byte_of_string.

Lemma unary_N n : N.of_nat (length (replicate (N.to_nat n) x00)) = n.
Proof. rewrite length_replicate. lia. Qed.
#[local] Instance tok_N : Tok N :=
  tok_iso (λ n, replicate (N.to_nat n) x00) (λ b, N.of_nat (length b)) unary_N.

#[local] Program Instance tok_prod {A B : Type} `{Tok A, Tok B} : Tok (A * B) :=
  {| put := λ p, put p.1 ++ put p.2;
     get := λ l, '(a, l) ← get l; '(b, l) ← get l; Some ((a, b), l) |}.
Next Obligation.
  intros A B HA HB [a b] rest. cbn. rewrite <- app_assoc, get_put. cbn. by rewrite get_put.
Qed.

Fixpoint get_n {A : Type} `{Tok A} (n : nat) (l : list bytes) : option (list A * list bytes) :=
  match n with
  | O => Some ([], l)
  | S n => '(a, l) ← get l; '(more, l) ← get_n n l; Some (a :: more, l)
  end.

Lemma get_n_put {A : Type} `{Tok A} (l : list A) rest :
  get_n (length l) (concat (put <$> l) ++ rest) = Some (l, rest).
Proof.
  induction l as [|a l IH]; [done|]. cbn [length get_n fmap list_fmap concat].
  rewrite <- app_assoc, get_put. cbn. by rewrite IH.
Qed.

#[local] Program Instance tok_list {A : Type} `{Tok A} : Tok (list A) :=
  {| put := λ l, put (len l) ++ concat (put <$> l);
     get := λ l, '(n, l) ← get l; get_n (N.to_nat n) l |}.
Next Obligation.
  intros A HA l rest. cbv beta. rewrite <- app_assoc, get_put. cbn [mbind option_bind].
  unfold len. rewrite Nat2N.id. apply get_n_put.
Qed.

Lemma head_option {A : Type} (o : option A) : head (option_list o) = o.
Proof. by destruct o. Qed.
#[local] Instance tok_option {A : Type} `{Tok A} : Tok (option A) :=
  tok_iso option_list head head_option.

Definition to_bytes {A : Type} `{Tok A} (a : A) : bytes := concat (put_token <$> put a).
Definition from_bytes {A : Type} `{Tok A} (b : bytes) : option A :=
  ts ← get_tokens b []; '(a, rest) ← get ts; match rest with [] => Some a | _ => None end.

Lemma from_to_bytes {A : Type} `{Tok A} (a : A) : from_bytes (to_bytes a) = Some a.
Proof.
  unfold from_bytes, to_bytes. rewrite get_tokens_put. cbn [mbind option_bind].
  rewrite <- (app_nil_r (put a)), get_put. done.
Qed.

(** ** Events and journals *)

Definition all_kinds : list MemoryStoreEventKind :=
  [MemoryWrite; MemoryMerge; MemoryControl; MemoryDelete; MemoryPolicy;
   MemoryMaintenance; MemoryProjection; RuntimeLifecycle; OperatorAction].
Definition kind_of (s : string) : MemoryStoreEventKind :=
  default MemoryWrite (snd <$> list_find (λ k, kind_as_str k = s) all_kinds).
Lemma kind_of_str k : kind_of (kind_as_str k) = k.
Proof. by destruct k. Qed.
#[local] Instance tok_kind : Tok MemoryStoreEventKind := tok_iso kind_as_str kind_of kind_of_str.

Definition of_physical (p : StorePhysicalOwningScope) : option string :=
  match p with ScopeSubject id => Some id | ScopeSharedProgram => None end.
Definition to_physical (o : option string) : StorePhysicalOwningScope :=
  match o with Some id => ScopeSubject id | None => ScopeSharedProgram end.
Lemma physical_iso p : to_physical (of_physical p) = p.
Proof. by destruct p. Qed.
#[local] Instance tok_physical : Tok StorePhysicalOwningScope :=
  tok_iso of_physical to_physical physical_iso.

Definition of_scope (s : StoreEventScope) :=
  (scope_agent_id s, (scope_owner_id s, (scope_channel s, (scope_chat_id s,
   (scope_memory_space_id s, (scope_subject_id s, (scope_physical s, scope_conversation_id s))))))).
Definition to_scope (t : string * (string * (string * (string * (string * (string *
    (StorePhysicalOwningScope * option string))))))) : StoreEventScope :=
  let '(a, (b, (c, (d, (e, (f, (g, h))))))) := t in
  {| scope_agent_id := a; scope_owner_id := b; scope_channel := c; scope_chat_id := d;
     scope_memory_space_id := e; scope_subject_id := f; scope_physical := g;
     scope_conversation_id := h |}.
Lemma scope_iso s : to_scope (of_scope s) = s.
Proof. by destruct s. Qed.
#[local] Instance tok_scope : Tok StoreEventScope := tok_iso of_scope to_scope scope_iso.

Lemma map_iso (m : gmap string string) : list_to_map (map_to_list m) = m.
Proof. apply list_to_map_to_list. Qed.
#[local] Instance tok_map : Tok (gmap string string) := tok_iso map_to_list list_to_map map_iso.

Definition of_event (e : MemoryStoreEvent) :=
  (event_id e, (event_kind e, (event_kind_name e, (event_scope e, (event_plane e,
   (event_record_key e, (event_content_hash e, (event_schema_version e,
    (event_timestamp_unix_secs e, event_payload e))))))))).
Definition to_event (t : string * (MemoryStoreEventKind * (string * (StoreEventScope * (string *
    (string * (string * (N * (N * gmap string string))))))))) : MemoryStoreEvent :=
  let '(a, (b, (c, (d, (e, (f, (g, (h, (i, j))))))))) := t in
  {| event_id := a; event_kind := b; event_kind_name := c; event_scope := d; event_plane := e;
     event_record_key := f; event_content_hash := g; event_schema_version := h;
     event_timestamp_unix_secs := i; event_payload := j |}.
Lemma event_iso e : to_event (of_event e) = e.
Proof. by destruct e. Qed.
#[local] Instance tok_event : Tok MemoryStoreEvent := tok_iso of_event to_event event_iso.

(** Documents are strings; events are written in full. *)
#[local] Instance sample_store_codec : StoreCodec :=
  {| Value := string;
     json_to_vec := λ v, inr (String.list_byte_of_string v);
     event_to_vec := λ e, inr (to_bytes e);
     sha256_digest := λ b, pretty (len b);
     default_hash := λ b, pretty (len b) |}.

Definition of_image (i : FileTransactionImage) :=
  ((λ e, (jv_namespace e, (jv_key e, jv_value e))) <$> image_json i,
   ((λ e, (bv_namespace e, (bv_key e, bv_value e))) <$> image_blobs i,
    match image_events i with
    | Append n es => (Some n, es)
    | Replace es => (None, es)
    end)).
Definition to_image (t : list (string * (string * option string)) *
    (list (string * (string * option bytes)) * (option N * list MemoryStoreEvent)))
    : FileTransactionImage :=
  let '(js, (bs, (o, es))) := t in
  {| image_json := (λ p, {| jv_namespace := p.1; jv_key := p.2.1; jv_value := p.2.2 |}) <$> js;
     image_blobs := (λ p, {| bv_namespace := p.1; bv_key := p.2.1; bv_value := p.2.2 |}) <$> bs;
     image_events := match o with Some n => Append n es | None => Replace es end |}.
Lemma image_iso i : to_image (of_image i) = i.
Proof.
  destruct i as [js bs es]. unfold of_image. cbn [image_json image_blobs image_events].
  assert (H1 : (λ p : string * (string * option string),
      {| jv_namespace := p.1; jv_key := p.2.1; jv_value := p.2.2 |})
    <$> ((λ e, (jv_namespace e, (jv_key e, jv_value e))) <$> js) = js).
  { induction js as [|[] js IH]; [done|]. rewrite !fmap_cons. f_equal. exact IH. }
  assert (H2 : (λ p : string * (string * option bytes),
      {| bv_namespace := p.1; bv_key := p.2.1; bv_value := p.2.2 |})
    <$> ((λ e, (bv_namespace e, (bv_key e, bv_value e))) <$> bs) = bs).
  { induction bs as [|[] bs IH]; [done|]. rewrite !fmap_cons. f_equal. exact IH. }
  destruct es; unfold to_image; f_equal; (exact H1 || exact H2).
Qed.
#[local] Instance tok_image : Tok FileTransactionImage := tok_iso of_image to_image image_iso.

Definition of_journal (j : FileTransactionJournal) :=
  (journal_schema_version j, (journal_transaction_id j,
   (match journal_state j with Prepared => 0 | Committed => 1 end,
    (journal_before j, (journal_after j, journal_checksum j))))).
Definition to_journal (t : N * (string * (N * (FileTransactionImage * (FileTransactionImage * string)))))
    : FileTransactionJournal :=
  let '(v, (id, (st, (b, (a, c))))) := t in
  {| journal_schema_version := v; journal_transaction_id := id;
     journal_state := if st =? 0 then Prepared else Committed;
     journal_before := b; journal_after := a; journal_checksum := c |}.
Lemma journal_iso j : to_journal (of_journal j) = j.
Proof. by destruct j as [v id [] b a c]. Qed.
#[local] Instance tok_journal : Tok FileTransactionJournal :=
  tok_iso of_journal to_journal journal_iso.

Definition of_index (i : FileKeyIndex) := (addressing_version i, index_key i).
Definition to_index (t : N * string) : FileKeyIndex :=
  {| addressing_version := t.1; index_key := t.2 |}.
Lemma index_iso i : to_index (of_index i) = i.
Proof. by destruct i. Qed.
#[local] Instance tok_index : Tok FileKeyIndex := tok_iso of_index to_index index_iso.

Definition decode {A : Type} `{Tok A} (b : bytes) : string + A :=
  match from_bytes b with Some a => inr a | None => inl "malformed" end.

Lemma decode_to_bytes {A : Type} `{Tok A} (a : A) : decode (to_bytes a) = inr a.
Proof. unfold decode. by rewrite from_to_bytes. Qed.

#[local] Instance sample_file_codec : FileCodec :=
  {| json_to_vec_pretty := λ v, inr (to_bytes (A := string) v);
     json_from_slice := decode (A := string);
     key_index_to_vec_pretty := λ i, inr (to_bytes i);
     key_index_from_slice := decode;
     event_from_slice := decode;
     journal_to_vec := λ j, inr (to_bytes j);
     journal_from_slice := decode;
     journal_content_to_vec := λ v id st b a,
       inr (to_bytes (v, (id, (match st with Prepared => 0 | Committed => 1 end, (b, a)))));
     has_keys := λ _ _, false |}.

#[local] Instance sample_codec_laws : FileCodecLaws sample_file_codec.
Proof.
  split.
  - intros v. exists (to_bytes (A := string) v). split; [done|]. apply (decode_to_bytes (A := string) v).
  - intros k. exists (to_bytes k). split; [done|]. apply decode_to_bytes.
  - intros e b [= <-]. split_and!; [apply decode_to_bytes|apply put_tokens_line|].
    destruct (forallb is_ascii_whitespace (to_bytes e)) eqn:Hw; [|done].
    rewrite forallb_forall in Hw. specialize (Hw x2e). exfalso.
    assert (He : is_ascii_whitespace x2e = true); [|done].
    apply Hw, list_elem_of_In, put_tokens_dot. done.
  - intros j b [= <-]. apply decode_to_bytes.
Qed.

#[local] Instance sample_governance : OwnerGovernance :=
  permissive_governance (codec := sample_store_codec) (λ v, v).
#[local] Existing Instance AuthoritySamples.sample_codec.

(** ** An execution *)

Definition file_engine : FileStoreEngine :=
  {| file_fsync := true; file_capacity := embedded_sdk_capacity; path_budget := linux_device;
     file_admission_authority := 7 |}.

Definition event (id : string) : MemoryStoreEvent :=
  event_new id MemoryWrite (scope_system "sample") 5.

Definition request : StoreTransactionRequest :=
  request_new "tx-1" [JsonAbsent "doc" "d"]
    [PutJson "doc" "d" "v"; PutBlob "b" "x" [x00; x01]; AppendEvent (event "evt-1")] None.

Definition run (faults : list fault) (d : disk) :=
  commit_transaction_admitted file_engine u64_max request StoreSamples.admission
    AuthoritySamples.sample_state AuthoritySamples.late_env faults d.

Definition mirror_run (s : InMemoryStoreEngineState) :=
  (InMemoryStore.commit_transaction_admitted u64_max (mirror file_engine) s request
     StoreSamples.admission AuthoritySamples.sample_state AuthoritySamples.late_env).1.

(** The process dies while the first document is being written. *)
Definition crashing : list fault := replicate 15 Proceed ++ [Crash 0].
Definition crashed : disk := (run crashing ∅).2.2.
Definition committed_disk : disk := (run [] ∅).2.2.

Definition interrupted {A : Type} (o : outcome A) : bool :=
  match o with Crashed => true | _ => false end.
Definition completed {A : Type} (o : outcome A) : bool :=
  match o with Done _ => true | _ => false end.

Example crash_leaves_journal :
  interrupted (run crashing ∅).1 = true ∧ is_Some (crashed !! transaction_marker_path)
  ∧ completed (run [] ∅).1 = true ∧ committed_disk !! transaction_marker_path = None.
Proof. vm_compute. split_and!; by eexists. Qed.

Lemma empty_fresh : fresh_root ∅.
Proof. done. Defined.

Lemma empty_holds : holds file_engine ∅ empty_state.
Proof.
  left. split; [done|]. split; [..|done|done]; (split; [done|]); intros p _ [b Hb]; done.
Defined.

Lemma file_request_built : built request.
Proof. apply built_new. Defined.

Lemma sample_usize : usize_capacity embedded_sdk_capacity.
Proof. split; vm_compute; discriminate. Defined.

Lemma sample_addressing : addressing_ok file_engine.
Proof. vm_compute. discriminate. Defined.

Lemma singleton_collision_free engine l a : collision_free engine l {[a]}.
Proof. intros x y ->%elem_of_singleton ->%elem_of_singleton. done. Defined.

Lemma sample_well_addressed : well_addressed file_engine request empty_state.
Proof.
  split.
  - replace (dom (json empty_state) ∪ rs_json (read_set request))
      with ({[("doc", "d")]} : gset address) by (vm_compute; reflexivity).
    apply singleton_collision_free.
  - replace (dom (blobs empty_state) ∪ rs_blobs (read_set request))
      with ({[("b", "x")]} : gset address) by (vm_compute; reflexivity).
    apply singleton_collision_free.
Defined.

Definition fit_check (engine : FileStoreEngine) (r : StoreTransactionRequest)
    (s : InMemoryStoreEngineState) : bool :=
  match planned_journal r StoreSamples.admission s with
  | Ok j =>
      (len (to_bytes j) <=? journal_max_bytes engine)
      && match refresh_checksum (with_state j FileJournal.Committed) with
         | Ok j' => len (to_bytes j') <=? journal_max_bytes engine
         | Err _ => true
         end
  | Err _ => true
  end.

Lemma fit_check_fits engine r s :
  fit_check engine r s = true → journals_fit engine r StoreSamples.admission s.
Proof.
  unfold fit_check, journals_fit. destruct (planned_journal _ _ _) as [j|]; [|done].
  intros [H1 H2]%andb_true_iff. split.
  - intros b [= <-]. by apply N.leb_le.
  - intros j' b Hj [= <-]. rewrite Hj in H2. by apply N.leb_le.
Defined.

Lemma sample_fits : journals_fit file_engine request StoreSamples.admission empty_state.
Proof. apply fit_check_fits. vm_compute. reflexivity. Defined.

Lemma crashed_holds :
  holds file_engine crashed empty_state ∨ holds file_engine crashed (mirror_run empty_state).2.
Proof.
  pose proof (commit_spec file_engine u64_max request StoreSamples.admission
    AuthoritySamples.sample_state AuthoritySamples.late_env empty_state
    (built_covers _ file_request_built) sample_usize sample_usize sample_addressing
    sample_well_addressed crashing ∅ empty_holds) as H. cbv zeta in H.
  change (commit_transaction_admitted file_engine u64_max request StoreSamples.admission
    AuthoritySamples.sample_state AuthoritySamples.late_env crashing ∅) with (run crashing ∅) in H.
  unfold crashed. destruct (run crashing ∅) as [[rep|e|] [f d']]; destruct H as [H _]; cbn [fst snd].
  - right. left. apply H.
  - destruct H as [H|[_ [H|[Hnf _]]]]; [left; exact H|right; exact H|destruct (Hnf sample_fits)].
  - destruct H as [H|[_ [H|[Hnf _]]]]; [left; exact H|right; exact H|destruct (Hnf sample_fits)].
Defined.

Lemma empty_lane {V : Type} (enc : V → bytes → Prop) (l : Lane) (m : gmap address V) :
  lane_rep file_engine enc ∅ l ∅ m → m = ∅.
Proof.
  intros [Hp _]. apply map_eq. intros a. rewrite lookup_empty.
  destruct (m !! a) as [v|] eqn:Hv; [|done].
  by destruct (Hp a v (not_elem_of_empty a) Hv).
Qed.

(** An empty disk holds only the empty store. *)
Lemma empty_holds_only s : holds file_engine ∅ s → s = empty_state.
Proof.
  intros [[_ [H1 H2 H3 H4]]|(b & j & A & B & pre & n & Hm & _)]; [|done].
  apply empty_lane in H1, H2. destruct s as [js bs es ids]. cbn in *. subst js bs ids.
  destruct es as [|e es]; [done|]. apply log_of_cons in H3 as (r & t & _ & _ & Hn).
  by destruct r.
Qed.

(** ** Witnesses *)

Lemma file_commit_refines_witness :
  completed (run [] ∅).1 = true
  ∧ represents file_engine committed_disk (mirror_run empty_state).2.
Proof.
  split; [vm_compute; reflexivity|].
  pose proof (file_commit_refines file_engine u64_max request StoreSamples.admission
    AuthoritySamples.sample_state AuthoritySamples.late_env empty_state [] ∅
    file_request_built sample_usize sample_usize sample_addressing
    sample_well_addressed empty_holds) as H.
  cbv zeta in H.
  assert (Hc : completed (run [] ∅).1 = true) by (vm_compute; reflexivity).
  unfold committed_disk. unfold run in *.
  destruct (commit_transaction_admitted file_engine u64_max request StoreSamples.admission
    AuthoritySamples.sample_state AuthoritySamples.late_env [] ∅) as [[rep|e|] [f d']];
    [|discriminate Hc|discriminate Hc].
  exact (proj2 (proj2 H)).
Defined.

Lemma recovery_survives_crashes_witness :
  ∃ s d', recover_transaction_if_needed file_engine []
            (attempts file_engine [[Proceed; Proceed; Crash 0]] crashed) = (Done tt, ([], d'))
    ∧ d' !! transaction_marker_path = None ∧ represents file_engine d' s.
Proof.
  destruct crashed_holds as [H|H].
  - exists empty_state. exact (recovery_survives_crashes file_engine empty_state
      [[Proceed; Proceed; Crash 0]] crashed sample_addressing H).
  - exists (mirror_run empty_state).2. exact (recovery_survives_crashes file_engine
      (mirror_run empty_state).2 [[Proceed; Proceed; Crash 0]] crashed sample_addressing H).
Defined.

Lemma file_executions_refine_witness :
  ∃ s, holds file_engine crashed s ∧ store_reachable (mirror file_engine) false s
    ∧ store_ok (mirror file_engine) s
    ∧ kv_count s ≤ kv_max_entries (file_capacity file_engine).
Proof.
  destruct (file_executions_refine file_engine {[("doc", "d")]} {[("b", "x")]} sample_usize
    sample_addressing (singleton_collision_free _ _ _) (singleton_collision_free _ _ _) true crashed)
    as [H|[Hf _]]; [..|exact H|discriminate Hf].
  - exact StoreSamples.embedded_moderate.
  - exists ∅. split; [exact empty_fresh|]. apply rtc_once. unfold crashed, run.
    apply file_step_commit; [exact file_request_built|..|exact sample_usize|].
    + apply (bool_decide_unpack _). vm_compute. exact I.
    + apply (bool_decide_unpack _). vm_compute. exact I.
    + intros _ s ->%empty_holds_only. exact sample_fits.
Defined.

Lemma file_reads_exact_witness :
  ∃ s, answers file_engine s (get_json_value file_engine 2 "doc" "d" [] crashed)
         (eq (json s !! ("doc", "d")))
    ∧ completed (get_json_value file_engine 2 "doc" "d" [] crashed).1 = true.
Proof.
  destruct crashed_holds as [H|H]; eexists.
  - split; [exact (proj1 (file_reads_exact file_engine sample_usize sample_addressing
      empty_state [] crashed "doc" "d" H))|vm_compute; reflexivity].
  - split; [exact (proj1 (file_reads_exact file_engine sample_usize sample_addressing
      (mirror_run empty_state).2 [] crashed "doc" "d" H))|vm_compute; reflexivity].
Defined.

Lemma file_known_keys_exact_witness :
  ∃ s, answers file_engine s
         (read_consistent_known_keys file_engine 2 [("doc", "d")] [("b", "x")] true
            embedded_sdk_capacity [] crashed)
         (λ res, read_bounded_known_keys_from_parts [("doc", "d")] [("b", "x")] true
                   embedded_sdk_capacity (json s) (blobs s) (events s) = Ok res)
    ∧ completed (read_consistent_known_keys file_engine 2 [("doc", "d")] [("b", "x")] true
                   embedded_sdk_capacity [] crashed).1 = true.
Proof.
  destruct crashed_holds as [H|H]; eexists.
  - split; [exact (proj1 (file_known_keys_exact file_engine sample_usize sample_addressing
      empty_state [] crashed [("doc", "d")] [("b", "x")] true embedded_sdk_capacity
      {| crq_json := []; crq_blobs := []; crq_include_events := true |} sample_usize H))
      |vm_compute; reflexivity].
  - split; [exact (proj1 (file_known_keys_exact file_engine sample_usize sample_addressing
      (mirror_run empty_state).2 [] crashed [("doc", "d")] [("b", "x")] true embedded_sdk_capacity
      {| crq_json := []; crq_blobs := []; crq_include_events := true |} sample_usize H))
      |vm_compute; reflexivity].
Defined.

Lemma shared_read_terminates_witness :
  ∃ s d', represents file_engine d' s ∧ d' !! transaction_marker_path = None
    ∧ with_shared_backend file_engine 2 "file_store_list"
        (λ d, list_json_keys_unlocked file_engine d "doc") [] crashed
      = (match list_json_keys_unlocked file_engine d' "doc" with
         | Ok keys => Done (Some keys)
         | Err e => Failed e
         end, ([], d')).
Proof.
  destruct crashed_holds as [H|H]; eexists;
    exact (shared_read_terminates file_engine sample_addressing _ "file_store_list"
      (λ d, list_json_keys_unlocked file_engine d "doc") crashed H).
Defined.

Lemma event_reader_chunking_witness :
  read_events_from_reader_bounded embedded_sdk_capacity 1000 "a" "b"
    [to_bytes (event "evt-1"); [newline]]
  = read_bytes embedded_sdk_capacity 1000 "a" "b" (to_bytes (event "evt-1") ++ [newline]) [] [] 0.
Proof.
  rewrite (event_reader_chunking embedded_sdk_capacity 1000 "a" "b"
    [to_bytes (event "evt-1"); [newline]]).
  - reflexivity.
  - vm_compute. discriminate.
  - repeat constructor; vm_compute; discriminate.
  - vm_compute. discriminate.
Defined.

Lemma event_log_round_trip_witness :
  read_events_jsonl_bounded
    (<[events_path := to_bytes (event "evt-1") ++ newline :: to_bytes (event "evt-2") ++ [newline]]> ∅)
    events_path embedded_sdk_capacity 2000 "store_event_log"
  = Ok [event "evt-1"; event "evt-2"].
Proof.
  apply event_log_round_trip.
  - reflexivity.
  - repeat constructor.
  - vm_compute. discriminate.
  - vm_compute. discriminate.
  - vm_compute. discriminate.
  - vm_compute. discriminate.
Defined.

(** ** A store that cannot be recovered

    With the proportions of the default profiles (the blob ceiling is four
    times the import ceiling), replacing a blob writes a journal over the bound
    under which it is read. *)

Definition small_capacity : StoreCapacityBudget :=
  {| metric_source_max_items := 8; event_log_max_items := 8; kv_max_entries := 8;
     blob_max_bytes := 400; snapshot_max_bytes := 100; logical_namespace_max_bytes := 96;
     logical_key_max_bytes := 96; event_record_key_max_bytes := 96; export_max_bytes := 100;
     import_max_bytes := 100 |}.

Definition small_engine : FileStoreEngine :=
  {| file_fsync := true; file_capacity := small_capacity; path_budget := linux_device;
     file_admission_authority := 7 |}.

Definition put_blob_request (id : string) (b : byte) : StoreTransactionRequest :=
  request_new id [] [PutBlob "b" "x" (replicate 400 b)] None.

Definition small_run (id : string) (b : byte) (faults : list fault) (d : disk) :=
  commit_transaction_admitted small_engine u64_max (put_blob_request id b)
    (admission_for_nonproduction_harness small_capacity 7)
    AuthoritySamples.sample_state AuthoritySamples.late_env faults d.

Definition stuck : disk :=
  (small_run "tx-2" x02 (replicate 10 Proceed ++ [Crash 0]) (small_run "tx-1" x01 [] ∅).2.2).2.2.

Lemma oversized_journal_blocks_witness :
  completed (small_run "tx-1" x01 [] ∅).1 = true
  ∧ journal_max_bytes small_engine < len (content stuck transaction_marker_path)
  ∧ match get_blob small_engine 2 "b" "x" [] stuck with
    | (Done (Some _), _) => False
    | (_, (_, d')) => d' = stuck
    end.
Proof.
  assert (Hl : journal_max_bytes small_engine < len (content stuck transaction_marker_path))
    by (vm_compute; reflexivity).
  assert (Hm : stuck !! transaction_marker_path = Some (content stuck transaction_marker_path))
    by (vm_compute; reflexivity).
  pose proof (oversized_journal_blocks small_engine ∅ ∅ (content stuck transaction_marker_path)
    stuck Hm Hl) as (_ & H & _).
  specialize (H [] (option bytes) 2%nat "file_store_blob_read"
    (λ d, get_blob_unlocked small_engine d "b" "x")).
  split; [vm_compute; reflexivity|]. split; [exact Hl|]. exact H.
Defined.

End FileSamples.
