(* ===== verification/RustOrd.v ===== *)
(** * Rust orders

    [PartialOrd]/[Ord] as the derive macros give them, and the slice and
    vector operations that use them: [sort] (stable), [dedup], [windows(2)]
    and [binary_search_by].  A type that derives [Ord] gets its comparison
    from the tuple of its fields ([ord_on]); the laws say that it is a strict
    total order, so sorting is canonical. *)

From S2P Require Import Prelude.
From Stdlib Require Import Ascii.
From Stdlib Require Export Sorted.

Class RustOrd (A : Type) := cmp : A → A → comparison.

Class RustOrdLaws (A : Type) `{RustOrd A} : Prop := {
  cmp_eq (a b : A) : cmp a b = Eq ↔ a = b;
  cmp_opp (a b : A) : cmp b a = CompOpp (cmp a b);
  cmp_trans (a b c : A) : cmp a b = Lt → cmp b c = Lt → cmp a c = Lt;
}.

Definition ltb {A} `{RustOrd A} (a b : A) : bool := match cmp a b with Lt => true | _ => false end.
Definition leb {A} `{RustOrd A} (a b : A) : bool := match cmp a b with Gt => false | _ => true end.

(** ** Orders of the data *)

#[global] Instance N_ord : RustOrd N := N.compare.
#[global] Instance nat_ord : RustOrd nat := Nat.compare.
#[global] Instance string_ord : RustOrd string := String.compare.
#[global] Instance bool_ord : RustOrd bool := Bool.compare.
#[global] Instance option_ord {A} `{RustOrd A} : RustOrd (option A) := λ a b,
  match a, b with
  | None, None => Eq | None, Some _ => Lt | Some _, None => Gt
  | Some a, Some b => cmp a b
  end.
#[global] Instance prod_ord {A B} `{RustOrd A, RustOrd B} : RustOrd (A * B) := λ p q,
  match cmp p.1 q.1 with Eq => cmp p.2 q.2 | c => c end.

(** An enumeration with fields: by constructor, then by fields. *)
#[global] Instance sum_ord {A B} `{RustOrd A, RustOrd B} : RustOrd (A + B) := λ x y,
  match x, y with
  | inl a, inl b => cmp a b
  | inl _, inr _ => Lt
  | inr _, inl _ => Gt
  | inr a, inr b => cmp a b
  end.

(** [std::cmp::Reverse], and a comparison written [right.cmp(left)]. *)
Record descending (A : Type) := Reverse { reversed : A }.
Arguments Reverse {_} _.
Arguments reversed {_} _.
#[global] Instance descending_ord {A} `{RustOrd A} : RustOrd (descending A) := λ a b,
  cmp (reversed b) (reversed a).

(** A derived order: the tuple of the fields. *)
Definition ord_on {A B} `{RustOrd B} (f : A → B) : RustOrd A := λ a b, cmp (f a) (f b).

(** ** Slices *)

(** [slice.windows(2).any(|pair| P(pair[0], pair[1]))] *)
Fixpoint windows2_any {A} (P : A → A → bool) (l : list A) : bool :=
  match l with
  | a :: (b :: _) as l' => P a b || windows2_any P l'
  | _ => false
  end.

(** A stable sort by a comparison. *)
Fixpoint insert_by {A} (le : A → A → bool) (a : A) (l : list A) : list A :=
  match l with
  | [] => [a]
  | b :: l' => if le a b then a :: l else b :: insert_by le a l'
  end.
Definition sort_by {A} (le : A → A → bool) (l : list A) : list A := foldr (insert_by le) [] l.

(** [slice.sort()] *)
Definition sort {A} `{RustOrd A} : list A → list A := sort_by leb.

(** [vec.dedup()]: of a run of equal elements the first stays. *)
Fixpoint dedup {A} `{EqDecision A} (l : list A) : list A :=
  match l with
  | a :: l' =>
      match dedup l' with
      | b :: _ => if bool_decide (a = b) then dedup l' else a :: dedup l'
      | [] => [a]
      end
  | [] => []
  end.

(** [slice.binary_search_by(|x| x.cmp(&key)).is_ok()], the loop of the
    Standard Library: [size] halves in each round. *)
Fixpoint binary_search_loop {A} `{RustOrd A} (fuel : nat) (l : list A) (key : A)
    (base size : nat) : nat :=
  match fuel with
  | O => base
  | S fuel =>
      if Nat.ltb 1 size then
        let half := Nat.div size 2 in
        let mid := (base + half)%nat in
        let base := match l !! mid with
                    | Some x => match cmp x key with Gt => base | _ => mid end
                    | None => base
                    end in
        binary_search_loop fuel l key base (size - half)%nat
      else base
  end.
Definition binary_search {A} `{RustOrd A} (l : list A) (key : A) : bool :=
  match l with
  | [] => false
  | _ =>
      let base := binary_search_loop (length l) l key 0%nat (length l) in
      match l !! base with
      | Some x => match cmp x key with Eq => true | _ => false end
      | None => false
      end
  end.

(** ** Laws *)

#[global] Instance N_ord_laws : RustOrdLaws N.
Proof.
  split; intros *; cbv [cmp N_ord].
  - apply N.compare_eq_iff.
  - apply N.compare_antisym.
  - rewrite !N.compare_lt_iff. lia.
Qed.

#[global] Instance nat_ord_laws : RustOrdLaws nat.
Proof.
  split; intros *; cbv [cmp nat_ord].
  - apply Nat.compare_eq_iff.
  - apply Nat.compare_antisym.
  - rewrite !Nat.compare_lt_iff. lia.
Qed.

#[global] Instance bool_ord_laws : RustOrdLaws bool.
Proof. split; intros [] []; try intros []; done. Qed.

Lemma ascii_compare_eq a b : Ascii.compare a b = Eq ↔ a = b.
Proof.
  unfold Ascii.compare. rewrite N.compare_eq_iff. split; [|by intros ->].
  intros H. rewrite <- (ascii_N_embedding a), H. apply ascii_N_embedding.
Qed.

#[global] Instance string_ord_laws : RustOrdLaws string.
Proof.
  split; cbv [cmp string_ord].
  - intros a b. split; [apply String.compare_eq_iff|intros ->].
    induction b as [|c b IH]; [done|]. cbn. by rewrite (proj2 (ascii_compare_eq c c) eq_refl).
  - intros a b. apply String.compare_antisym.
  - induction a as [|x a IH]; intros [|y b] [|z c]; cbn; try done.
    destruct (Ascii.compare x y) eqn:E1; destruct (Ascii.compare y z) eqn:E2; try done; intros H1 H2.
    + apply ascii_compare_eq in E1 as ->. rewrite E2. by eapply IH.
    + apply ascii_compare_eq in E1 as ->. by rewrite E2.
    + apply ascii_compare_eq in E2 as ->. by rewrite E1.
    + unfold Ascii.compare in *. rewrite N.compare_lt_iff in E1, E2.
      by rewrite (proj2 (N.compare_lt_iff _ _)) by lia.
Qed.

#[global] Instance option_ord_laws {A} `{RustOrdLaws A} : RustOrdLaws (option A).
Proof.
  split; cbv [cmp option_ord].
  - intros [a|] [b|]; try done. fold (cmp a b). rewrite cmp_eq. naive_solver.
  - intros [a|] [b|]; try done. apply cmp_opp.
  - intros [a|] [b|] [c|]; try done. apply cmp_trans.
Qed.

#[global] Instance prod_ord_laws {A B} `{RustOrdLaws A, RustOrdLaws B} : RustOrdLaws (A * B).
Proof.
  split.
  - intros [a b] [a' b']. change (match cmp a a' with Eq => cmp b b' | c => c end = Eq ↔ (a, b) = (a', b')).
    pose proof (cmp_eq a a') as Ha. pose proof (cmp_eq b b') as Hb.
    destruct (cmp a a'); naive_solver.
  - intros [a b] [a' b'].
    change (match cmp a' a with Eq => cmp b' b | c => c end
            = CompOpp (match cmp a a' with Eq => cmp b b' | c => c end)).
    rewrite (cmp_opp a a'), (cmp_opp b b'). by destruct (cmp a a').
  - intros [a b] [a' b'] [a'' b''].
    change (match cmp a a' with Eq => cmp b b' | c => c end = Lt →
            match cmp a' a'' with Eq => cmp b' b'' | c => c end = Lt →
            match cmp a a'' with Eq => cmp b b'' | c => c end = Lt).
    destruct (cmp a a') eqn:E1; destruct (cmp a' a'') eqn:E2; try done; intros H1' H2'.
    + apply cmp_eq in E1 as ->. rewrite E2. by eapply cmp_trans.
    + apply cmp_eq in E1 as ->. by rewrite E2.
    + apply cmp_eq in E2 as ->. by rewrite E1.
    + by rewrite (cmp_trans _ _ _ E1 E2).
Qed.

#[global] Instance sum_ord_laws {A B} `{RustOrdLaws A, RustOrdLaws B} : RustOrdLaws (A + B).
Proof.
  split.
  - intros [a|a] [b|b]; cbv [cmp sum_ord]; try done.
    + fold (cmp a b). rewrite cmp_eq. naive_solver.
    + fold (cmp a b). rewrite cmp_eq. naive_solver.
  - intros [a|a] [b|b]; cbv [cmp sum_ord]; try done; apply cmp_opp.
  - intros [a|a] [b|b] [c|c]; cbv [cmp sum_ord]; try done; apply cmp_trans.
Qed.

#[global] Instance descending_ord_laws {A} `{RustOrdLaws A} : RustOrdLaws (descending A).
Proof.
  assert (E : ∀ a b : A, cmp (Reverse a) (Reverse b) = cmp b a) by done. split.
  - intros [a] [b]. rewrite E, cmp_eq. naive_solver.
  - intros [a] [b]. rewrite !E. apply cmp_opp.
  - intros [a] [b] [c]. rewrite !E. intros H1 H2. by eapply cmp_trans.
Qed.

Lemma ord_on_laws {A B} `{RustOrdLaws B} (f : A → B) `{!Inj (=) (=) f} :
  @RustOrdLaws A (ord_on f).
Proof.
  split; cbv [cmp ord_on]; intros *.
  - fold (cmp (f a) (f b)). rewrite cmp_eq. split; [apply (inj f)|by intros ->].
  - apply cmp_opp.
  - apply cmp_trans.
Qed.

Section Orders.
Context {A : Type} `{laws : RustOrdLaws A}.

Lemma cmp_refl (a : A) : cmp a a = Eq.
Proof using laws. by apply cmp_eq. Qed.

Lemma ltb_spec (a b : A) : ltb a b = true ↔ cmp a b = Lt.
Proof. unfold ltb. by destruct (cmp a b). Qed.

Lemma leb_spec (a b : A) : leb a b = true ↔ a = b ∨ cmp a b = Lt.
Proof using laws.
  unfold leb. pose proof (cmp_eq a b). destruct (cmp a b); naive_solver.
Qed.

Lemma leb_ltb (a b : A) : leb a b = negb (ltb b a).
Proof using laws. unfold leb, ltb. rewrite (cmp_opp a b). by destruct (cmp a b). Qed.

Lemma leb_total (a b : A) : leb a b = false → leb b a = true.
Proof using laws. unfold leb. rewrite (cmp_opp a b). by destruct (cmp a b). Qed.

Lemma leb_trans (a b c : A) : leb a b = true → leb b c = true → leb a c = true.
Proof using laws.
  rewrite !leb_spec. intros [->|H1] [->|H2]; eauto using cmp_trans.
Qed.

Lemma leb_antisym (a b : A) : leb a b = true → leb b a = true → a = b.
Proof using laws.
  rewrite !leb_spec, (cmp_opp a b). intros [->|H1] [H2|H2]; try done. by rewrite H1 in H2.
Qed.

#[local] Notation le := (λ a b : A, leb a b = true).

(** ** Sorting *)

Lemma insert_by_perm (f : A → A → bool) a l : insert_by f a l ≡ₚ a :: l.
Proof. induction l as [|b l IH]; [done|]. cbn. case_match; [done|]. rewrite IH. constructor. Qed.

Lemma sort_by_perm (f : A → A → bool) l : sort_by f l ≡ₚ l.
Proof. induction l as [|a l IH]; [done|]. cbn. by rewrite insert_by_perm, IH. Qed.

Lemma sort_perm l : sort l ≡ₚ l.
Proof. apply sort_by_perm. Qed.

Lemma insert_sorted a (l : list A) : StronglySorted le l → StronglySorted le (insert_by leb a l).
Proof using laws.
  induction 1 as [|b l Hl IH Hb]; [repeat constructor|]. cbn. case_match eqn:E.
  - constructor; [by constructor|]. constructor; [done|].
    eapply Forall_impl; [exact Hb|]. cbn. eauto using leb_trans.
  - constructor; [done|]. rewrite insert_by_perm. constructor; [by apply leb_total|done].
Qed.

Lemma sort_sorted (l : list A) : StronglySorted le (sort l).
Proof using laws. induction l as [|a l IH]; [constructor|]. by apply insert_sorted. Qed.

(** A list has one sorted arrangement. *)
Lemma sorted_unique (l1 l2 : list A) :
  StronglySorted le l1 → StronglySorted le l2 → l1 ≡ₚ l2 → l1 = l2.
Proof using laws.
  intros H1. revert l2. induction H1 as [|a l1 Hl IH Ha]; intros l2 H2 Hp.
  - by apply Permutation_nil_l in Hp.
  - destruct H2 as [|b l2 Hl2 Hb]; [by apply Permutation_nil_r in Hp|].
    assert (a = b) as ->.
    { rewrite Forall_forall in Ha, Hb.
      assert (a ∈ b :: l2) as Hin by (rewrite <- Hp; by left).
      assert (b ∈ a :: l1) as Hin' by (rewrite Hp; by left).
      apply elem_of_cons in Hin as [->|Hin]; [done|].
      apply elem_of_cons in Hin' as [->|Hin']; [done|].
      apply leb_antisym; [by apply Ha|by apply Hb]. }
    f_equal. apply IH; [done|]. by apply Permutation_cons_inv in Hp.
Qed.

(** Sorting forgets the order of its input. *)
Lemma sort_canonical (l1 l2 : list A) : l1 ≡ₚ l2 → sort l1 = sort l2.
Proof using laws.
  intros Hp. apply sorted_unique; [apply sort_sorted..|]. by rewrite !sort_perm.
Qed.

Lemma sort_idemp (l : list A) : StronglySorted le l → sort l = l.
Proof using laws. intros H'. apply sorted_unique; [apply sort_sorted|done|apply sort_perm]. Qed.

(** ** Strictly sorted lists *)

#[local] Notation lt := (λ a b : A, cmp a b = Lt).

Lemma windows_strict (l : list A) :
  windows2_any (λ a b, leb b a) l = false ↔ StronglySorted lt l.
Proof using laws.
  split.
  - induction l as [|a [|b l] IH]; [repeat constructor..|]. cbn [windows2_any].
    intros [Hab Hl]%orb_false_iff. specialize (IH Hl). constructor; [done|].
    rewrite leb_ltb in Hab. apply negb_false_iff, ltb_spec in Hab.
    constructor; [done|]. apply StronglySorted_inv in IH as [_ Hb].
    eapply Forall_impl; [exact Hb|]. cbn. eauto using cmp_trans.
  - induction 1 as [|a [|b l] Hl IH Ha]; [done..|]. cbn [windows2_any].
    apply orb_false_iff. split; [|exact IH]. apply Forall_inv in Ha.
    rewrite leb_ltb. apply negb_false_iff. by apply ltb_spec.
Qed.

Lemma strict_NoDup (l : list A) : StronglySorted lt l → NoDup l.
Proof using laws.
  induction 1 as [|a l Hl IH Ha]; constructor; [|done].
  intros Hin. rewrite Forall_forall in Ha. specialize (Ha a Hin). by rewrite cmp_refl in Ha.
Qed.

Lemma strict_sorted (l : list A) : StronglySorted lt l → StronglySorted le l.
Proof using laws.
  induction 1 as [|a l Hl IH Ha]; constructor; [done|].
  eapply Forall_impl; [exact Ha|]. intros b Hb. apply leb_spec. by right.
Qed.

(** A set has one strictly sorted listing. *)
Lemma strict_unique (l1 l2 : list A) :
  StronglySorted lt l1 → StronglySorted lt l2 → (∀ a, a ∈ l1 ↔ a ∈ l2) → l1 = l2.
Proof using laws.
  intros H1 H2 Hiff. apply sorted_unique; [by apply strict_sorted..|].
  apply NoDup_Permutation; [by apply strict_NoDup..|done].
Qed.

Lemma sorted_NoDup_strict (l : list A) : StronglySorted le l → NoDup l → StronglySorted lt l.
Proof using laws.
  induction 1 as [|a l Hl IH Ha]; [constructor|]. intros [Hna Hnd]%NoDup_cons.
  constructor; [by apply IH|]. apply Forall_forall. intros b Hb.
  rewrite Forall_forall in Ha. specialize (Ha b Hb). apply leb_spec in Ha as [->|Ha]; [|done].
  by destruct Hna.
Qed.

Context `{EqDecision A}.

Lemma elem_of_dedup (l : list A) a : a ∈ dedup l ↔ a ∈ l.
Proof.
  induction l as [|b l IH]; [done|]. cbn. destruct (dedup l) as [|c l'] eqn:E.
  - rewrite !elem_of_cons, <- IH. done.
  - case_bool_decide as Hbc; rewrite !elem_of_cons, <- IH, ?elem_of_cons; naive_solver.
Qed.

Lemma dedup_strict (l : list A) : StronglySorted le l → StronglySorted lt (dedup l).
Proof using laws.
  induction 1 as [|a l Hl IH Ha]; [constructor|]. cbn.
  destruct (dedup l) as [|b l'] eqn:E; [repeat constructor|].
  case_bool_decide as Hab; [done|]. constructor; [done|].
  assert (Hb : cmp a b = Lt).
  { rewrite Forall_forall in Ha. assert (b ∈ l) as Hin.
    { apply elem_of_dedup. rewrite E. by left. }
    specialize (Ha b Hin). by apply leb_spec in Ha as [->|]. }
  constructor; [done|]. apply StronglySorted_inv in IH as [_ IH].
  eapply Forall_impl; [exact IH|]. cbn. eauto using cmp_trans.
Qed.

Lemma sort_dedup_strict (l : list A) : StronglySorted lt (dedup (sort l)).
Proof using laws. apply dedup_strict, sort_sorted. Qed.

Lemma elem_of_sort_dedup (l : list A) a : a ∈ dedup (sort l) ↔ a ∈ l.
Proof. rewrite elem_of_dedup. by rewrite (sort_perm l). Qed.

Lemma sort_dedup_idemp (l : list A) : StronglySorted lt l → dedup (sort l) = l.
Proof using laws.
  intros Hl. apply strict_unique; [apply sort_dedup_strict|done|]. apply elem_of_sort_dedup.
Qed.

End Orders.

(** ** Sorting by a key *)

Section Keys.
Context {A B : Type} `{laws : RustOrdLaws B} (f : A → B).
#[local] Notation le := (λ a b, leb (f a) (f b)).

Lemma sort_by_key_sorted (l : list A) :
  StronglySorted (λ a b, leb (f a) (f b) = true) (sort_by le l).
Proof using laws.
  induction l as [|a l IHl]; [constructor|].
  change (sort_by le (a :: l)) with (insert_by le a (sort_by le l)).
  revert IHl. generalize (sort_by le l). clear l. intros l. induction 1 as [|b l' Hl IH Hb]; [cbn; repeat constructor|]. cbn. destruct (leb (f a) (f b)) eqn:E.
  - constructor; [by constructor|]. constructor; [done|].
    eapply Forall_impl; [exact Hb|]. intros c Hc. cbn in Hc. by eapply leb_trans.
  - constructor; [done|]. rewrite insert_by_perm. constructor; [by apply leb_total|done].
Qed.

(** With distinct keys the order is strict, and independent of the input. *)
Lemma sort_by_key_strict (l : list A) :
  NoDup (f <$> l) → StronglySorted (λ a b, cmp (f a) (f b) = Lt) (sort_by le l).
Proof using laws.
  intros Hnd. pose proof (sort_by_key_sorted l) as Hs.
  rewrite <- (sort_by_perm le l) in Hnd.
  induction Hs as [|a l' Hl IH Ha]; [constructor|]. cbn in Hnd.
  apply NoDup_cons in Hnd as [Hna Hnd]. constructor; [by apply IH|].
  apply Forall_forall. intros b Hb. rewrite Forall_forall in Ha. specialize (Ha b Hb). cbn in Ha.
  apply leb_spec in Ha as [E|Ha]; [|done]. destruct Hna. rewrite E. by apply list_elem_of_fmap_2.
Qed.

Lemma sort_by_key_canonical (l1 l2 : list A) :
  NoDup (f <$> l1) → l1 ≡ₚ l2 → sort_by le l1 = sort_by le l2.
Proof using laws.
  intros Hnd Hp. assert (Hnd2 : NoDup (f <$> l2)) by by rewrite <- Hp.
  pose proof (sort_by_key_strict l1 Hnd) as H1. pose proof (sort_by_key_strict l2 Hnd2) as H2.
  assert (Hp' : sort_by le l1 ≡ₚ sort_by le l2) by by rewrite !sort_by_perm.
  revert H1 H2 Hp'. generalize (sort_by le l1) (sort_by le l2). clear -laws.
  intros k1 k2 H1. revert k2. induction H1 as [|a k1 Hk1 IH Ha]; intros k2 H2 Hp.
  - by apply Permutation_nil_l in Hp.
  - destruct H2 as [|b k2 Hk2 Hb]; [by apply Permutation_nil_r in Hp|].
    rewrite Forall_forall in Ha, Hb.
    assert (a = b) as ->.
    { assert (a ∈ b :: k2) as Hin by (rewrite <- Hp; by left).
      assert (b ∈ a :: k1) as Hin' by (rewrite Hp; by left).
      apply elem_of_cons in Hin as [->|Hin]; [done|].
      apply elem_of_cons in Hin' as [->|Hin']; [done|].
      specialize (Ha b Hin'). specialize (Hb a Hin). cbn in Ha, Hb.
      rewrite (cmp_opp (f a) (f b)), Ha in Hb. done. }
    f_equal. apply IH; [done|]. by apply Permutation_cons_inv in Hp.
Qed.

End Keys.

(** ** Binary search *)

Section Search.
Context {A : Type} `{laws : RustOrdLaws A}.
#[local] Notation lt := (λ a b : A, cmp a b = Lt).

Lemma strict_lookup (l : list A) i j x y :
  StronglySorted lt l → l !! i = Some x → l !! j = Some y → (i < j)%nat → cmp x y = Lt.
Proof.
  intros Hl. revert i j. induction Hl as [|a l Hl IH Ha]; intros i j Hi Hj Hij; [done|].
  destruct j as [|j]; [lia|]. cbn in Hj. destruct i as [|i]; cbn in Hi.
  - injection Hi as <-. rewrite Forall_forall in Ha. apply Ha. by eapply list_elem_of_lookup_2.
  - eapply IH; [done..|lia].
Qed.

(** The loop keeps the position of [key], if it is there, in its window. *)
Lemma binary_search_loop_spec fuel (l : list A) key base size i :
  StronglySorted lt l → (0 < size)%nat → (size ≤ fuel)%nat → (base + size ≤ length l)%nat →
  l !! i = Some key → (base ≤ i < base + size)%nat →
  binary_search_loop fuel l key base size = i.
Proof using laws.
  intros Hl. revert base size. induction fuel as [|fuel IH]; intros base size H0 Hs Hb Hi Hw; [lia|].
  cbn [binary_search_loop]. destruct (Nat.ltb_spec 1 size) as [H1|H1]; [|lia].
  pose proof (Nat.div_lt size 2 ltac:(lia) ltac:(lia)) as Hhalf.
  pose proof (Nat.div_str_pos size 2 ltac:(lia)) as Hpos.
  destruct (lookup_lt_is_Some_2 l (base + Nat.div size 2)) as [x Hx]; [lia|]. rewrite Hx.
  assert (Hlt : cmp x key = Gt ↔ (i < base + Nat.div size 2)%nat).
  { destruct (Nat.lt_trichotomy i (base + Nat.div size 2)) as [H'|[H'|H']].
    - split; [lia|]. intros _. rewrite (cmp_opp key x). by rewrite (strict_lookup l _ _ _ _ Hl Hi Hx H').
    - subst i. rewrite Hi in Hx. injection Hx as ->. rewrite cmp_refl. split; [done|lia].
    - rewrite (strict_lookup l _ _ _ _ Hl Hx Hi H'). split; [done|lia]. }
  pose proof (Nat.Div0.mul_div_le size 2) as Hmul.
  assert (Hge : cmp x key ≠ Gt → (base + Nat.div size 2 ≤ i)%nat).
  { intros Hne. destruct (Nat.lt_ge_cases i (base + Nat.div size 2)) as [H'|H']; [|done].
    by apply Hlt in H'. }
  destruct (cmp x key) eqn:E; (apply IH; [lia..|done|]).
  - specialize (Hge ltac:(done)). lia.
  - specialize (Hge ltac:(done)). lia.
  - destruct Hlt as [Hlt _]. specialize (Hlt eq_refl). lia.
Qed.

(** On a strictly sorted slice, binary search decides membership. *)
Lemma binary_search_elem_of (l : list A) key :
  StronglySorted lt l → binary_search l key = true ↔ key ∈ l.
Proof using laws.
  intros Hl. split.
  - unfold binary_search. destruct l as [|a l]; [done|].
    destruct ((a :: l) !! _) as [x|] eqn:E; [|done]. destruct (cmp x key) eqn:Ec; try done.
    intros _. apply cmp_eq in Ec as <-. by eapply list_elem_of_lookup_2.
  - intros [i Hi]%list_elem_of_lookup_1. pose proof (lookup_lt_Some _ _ _ Hi) as Hlen.
    unfold binary_search. destruct l as [|a l]; [done|].
    rewrite (binary_search_loop_spec _ _ _ _ _ i Hl); [|cbn in *; lia..|done|cbn in *; lia].
    rewrite Hi. by rewrite cmp_refl.
Qed.

End Search.
