(* ===== verification/LongTermEntry.v ===== *)
(** * Long-term memory: entries, evidence and visibility

    The data of [crates/core/src/memory/long_term.rs] that the version
    contracts carry (an accepted entry with its classification, provenance,
    evidence and subject visibility) and the transcript evidence references of
    [transcript.rs] with their display citations. *)

From S2P Require Import Prelude RustStr RustOrd Governed.

Local Open Scope string_scope.
Local Open Scope N_scope.

(** ** Classification *)

Inductive LongTermMemoryKind :=
| KPreference | KProfile | KRelationship | KProject | KTask | KConstraint | KFact.

Definition kind_label (k : LongTermMemoryKind) : string :=
  match k with
  | KPreference => "preference" | KProfile => "profile" | KRelationship => "relationship"
  | KProject => "project" | KTask => "task" | KConstraint => "constraint" | KFact => "fact"
  end.

Inductive LongTermMemoryConfidence := ConfLow | ConfMedium | ConfHigh.
Inductive LongTermMemorySourceType :=
| SrcConversation | SrcManualTool | SrcSystemRuntime | SrcExternalObservation.
Inductive LongTermMemorySourceScope := ScopeChat | ScopeUser | ScopeWorld.
Inductive LongTermMemoryFreshness := FreshStable | FreshDynamic | FreshVolatile.
Inductive LongTermMemoryStaleHint := StaleNone | ReviewBeforeUse | VerifyAgainstCurrentState.
#[global] Instance lt_kind_eq_dec : EqDecision LongTermMemoryKind.
Proof. solve_decision. Defined.
#[global] Instance lt_confidence_eq_dec : EqDecision LongTermMemoryConfidence.
Proof. solve_decision. Defined.
#[global] Instance lt_source_type_eq_dec : EqDecision LongTermMemorySourceType.
Proof. solve_decision. Defined.
#[global] Instance lt_source_scope_eq_dec : EqDecision LongTermMemorySourceScope.
Proof. solve_decision. Defined.
#[global] Instance lt_freshness_eq_dec : EqDecision LongTermMemoryFreshness.
Proof. solve_decision. Defined.
#[global] Instance lt_stale_hint_eq_dec : EqDecision LongTermMemoryStaleHint.
Proof. solve_decision. Defined.

Inductive MemoryEvidenceAuthority :=
| UserAsserted | ModelInferred | AssistantUtterance | AssistantSelfClaim | RuntimeObservation
| WorldObservation | ProgramMemoryCanonical | ArchiveEvidence | SubjectProjection
| SoulGovernance | PrivateGardenInternal | OperatorDiagnosticAuthority | ExternalContent
| LegacyTranscript.

Inductive MemorySemanticJudgmentSource := LlmGovernance | RuntimeGate.
#[global] Instance authority_eq_dec : EqDecision MemoryEvidenceAuthority.
Proof. solve_decision. Defined.
#[global] Instance judgment_source_eq_dec : EqDecision MemorySemanticJudgmentSource.
Proof. solve_decision. Defined.

Record LongTermMemoryProvenance := mkProvenance {
  source_authority : MemoryEvidenceAuthority;
  semantic_judgment_source : option MemorySemanticJudgmentSource;
}.
#[global] Instance provenance_eq_dec : EqDecision LongTermMemoryProvenance.
Proof. solve_decision. Defined.

(** [LongTermMemoryProvenance::default] *)
Definition provenance_default : LongTermMemoryProvenance := mkProvenance ModelInferred None.

(** ** Subject visibility *)

Inductive MemorySubjectVisibilityPolicy :=
| AllSubjects
| OnlySubjects (subject_ids : list string)
| HiddenFromSubjects (subject_ids : list string).

Inductive MemorySubjectVisibilityDecision := VisAllowed | VisDenied.
#[global] Instance visibility_policy_eq_dec : EqDecision MemorySubjectVisibilityPolicy.
Proof. solve_decision. Defined.
#[global] Instance visibility_decision_eq_dec : EqDecision MemorySubjectVisibilityDecision.
Proof. solve_decision. Defined.

(** [value.trim().is_empty() || value != value.trim()] *)
Definition not_canonical (s : string) : bool := blank s || negb (bool_decide (s = trim s)).

Definition validate_canonical (p : MemorySubjectVisibilityPolicy) : result unit :=
  match p with
  | AllSubjects => Ok tt
  | OnlySubjects subject_ids | HiddenFromSubjects subject_ids =>
      ensure (negb (bool_decide (subject_ids = [])
                    || existsb not_canonical subject_ids
                    || windows2_any (λ a b, leb b a) subject_ids))
        (Config "long_term_subject_visibility"
           "subject visibility sets must be non-empty, trimmed, unique, and strictly sorted")
  end.

Definition decision_for_subject (p : MemorySubjectVisibilityPolicy) (mounted_subject_id : string)
    : result MemorySubjectVisibilityDecision :=
  _ ← validate_canonical p;
  _ ← ensure (negb (not_canonical mounted_subject_id))
        (Config "long_term_subject_visibility"
           "mounted subject id must be non-empty and canonical");
  Ok match p with
     | AllSubjects => VisAllowed
     | OnlySubjects subject_ids =>
         if binary_search subject_ids mounted_subject_id then VisAllowed else VisDenied
     | HiddenFromSubjects subject_ids =>
         if binary_search subject_ids mounted_subject_id then VisDenied else VisAllowed
     end.

(** ** Evidence *)

Inductive CanonicalEntityKind :=
| EntPerson | EntAgent | EntOrganization | EntProject | EntProduct | EntPlace | EntService
| EntSystem | EntRepository | EntDocument | EntEvent | EntConcept.

Record CanonicalEntityKey := mkEntityKey {
  entity_kind : CanonicalEntityKind;
  canonical_id : string;
}.

Record CanonicalEvidenceRef := mkCanonicalEvidence {
  source_ref : string;
  canonical_evidence_group : string;
  evidence_family_group : option string;
  source_kind : string;
  source_authority_score : N;
}.

Record CanonicalEntityRef := mkEntityRef {
  entity_key : CanonicalEntityKey;
  display_label : option string;
  aliases : list string;
  evidence_refs : list CanonicalEvidenceRef;
}.
#[global] Instance entity_kind_eq_dec : EqDecision CanonicalEntityKind.
Proof. solve_decision. Defined.
#[global] Instance entity_key_eq_dec : EqDecision CanonicalEntityKey.
Proof. solve_decision. Defined.
#[global] Instance canonical_evidence_eq_dec : EqDecision CanonicalEvidenceRef.
Proof. solve_decision. Defined.
#[global] Instance entity_ref_eq_dec : EqDecision CanonicalEntityRef.
Proof. solve_decision. Defined.

Record TranscriptEvidenceRef := mkEvidenceRef {
  ev_memory_space_id : string;
  ev_channel_id : string;
  ev_conversation_id : string;
  ev_turn_id : string;
  ev_message_id : option string;
  ev_subject_id : option string;
  ev_authority : option MemoryEvidenceAuthority;
}.
#[global] Instance evidence_ref_eq_dec : EqDecision TranscriptEvidenceRef.
Proof. solve_decision. Defined.

Definition display_citation (r : TranscriptEvidenceRef) : string :=
  let base := "transcript:" ++ ev_memory_space_id r ++ "/" ++ ev_channel_id r ++ "/"
              ++ ev_conversation_id r ++ "#turn=" ++ ev_turn_id r in
  match ev_message_id r with
  | Some message_id => base ++ "#message=" ++ message_id
  | None => base
  end.

(** [s.strip_prefix(p)] *)
Fixpoint strip_prefix (p s : string) : option string :=
  match p, s with
  | EmptyString, _ => Some s
  | String a p, String b s => if Ascii.eqb a b then strip_prefix p s else None
  | String _ _, EmptyString => None
  end.

(** [s.split_once(sep)]: at the first occurrence. *)
Fixpoint split_once (sep s : string) : option (string * string) :=
  match strip_prefix sep s with
  | Some rest => Some ("", rest)
  | None =>
      match s with
      | EmptyString => None
      | String a s => '(l, r) ← split_once sep s; Some (String a l, r)
      end
  end.

Definition parse_display_citation (value : string) : option TranscriptEvidenceRef :=
  rest ← strip_prefix "transcript:" (trim value);
  '(path, turn_part) ← split_once "#turn=" rest;
  '(space, path) ← split_once "/" path;
  '(channel, conversation) ← split_once "/" path;
  let '(turn, message) :=
    match split_once "#message=" turn_part with
    | Some (turn_id, message_id) => (trim turn_id, Some (trim message_id))
    | None => (trim turn_part, None)
    end in
  if is_empty (trim space) || is_empty (trim channel) || is_empty (trim conversation)
     || is_empty turn
  then None
  else Some (mkEvidenceRef (trim space) (trim channel) (trim conversation) turn
               (match message with
                | Some m => if is_empty m then None else Some m
                | None => None
                end) None None).

(** ** Entries *)

Record LongTermMemoryEntry := mkEntry {
  e_transcript_sources : list TranscriptEvidenceRef;
  e_control_barrier_scope_revision : option N;
  e_id : string;
  e_kind : LongTermMemoryKind;
  e_topic : string;
  e_content : string;
  e_keywords : list string;
  e_privacy : MemoryPrivacyClass;
  e_source_chat_id : option string;
  e_source_type : LongTermMemorySourceType;
  e_source_scope : LongTermMemorySourceScope;
  e_subject_visibility : MemorySubjectVisibilityPolicy;
  e_provenance : LongTermMemoryProvenance;
  e_confidence : LongTermMemoryConfidence;
  e_freshness : LongTermMemoryFreshness;
  e_stale_hint : LongTermMemoryStaleHint;
  e_supporting_citations : list string;
  e_canonical_entities : list CanonicalEntityRef;
  e_evidence_count : N;
  e_created_at : N;
  e_updated_at : N;
  e_observed_at : N;
  e_last_confirmed_at : option N;
  e_source_revision : option N;
  e_owner_revision : N;
  e_last_used_at : N;
}.
#[global] Instance entry_eq_dec : EqDecision LongTermMemoryEntry.
Proof. solve_decision. Defined.

Definition is_transcript_citation (citation : string) : bool :=
  String.prefix "transcript:" citation.

(** A read-only evidence projection: transcript citations without an
    available source are withheld; content and provenance stay. *)
Definition project_transcript_evidence (e : LongTermMemoryEntry)
    (available : TranscriptEvidenceRef → bool) : LongTermMemoryEntry :=
  let allowed := display_citation <$> List.filter available (e_transcript_sources e) in
  let permits citation :=
    negb (is_transcript_citation citation) || bool_decide (citation ∈ allowed) in
  let citations := List.filter permits (e_supporting_citations e) in
  {| e_transcript_sources :=
       List.filter (λ s, bool_decide (display_citation s ∈ allowed)) (e_transcript_sources e);
     e_control_barrier_scope_revision := e_control_barrier_scope_revision e;
     e_id := e_id e; e_kind := e_kind e; e_topic := e_topic e; e_content := e_content e;
     e_keywords := e_keywords e; e_privacy := e_privacy e;
     e_source_chat_id := e_source_chat_id e; e_source_type := e_source_type e;
     e_source_scope := e_source_scope e; e_subject_visibility := e_subject_visibility e;
     e_provenance := e_provenance e; e_confidence := e_confidence e;
     e_freshness := e_freshness e; e_stale_hint := e_stale_hint e;
     e_supporting_citations := citations;
     e_canonical_entities :=
       List.filter (λ entity, negb (bool_decide (evidence_refs entity = [])))
         ((λ entity, mkEntityRef (entity_key entity) (display_label entity) (aliases entity)
                       (List.filter (λ evidence, permits (source_ref evidence))
                          (evidence_refs entity)))
          <$> e_canonical_entities e);
     e_evidence_count := N.min u32_max (len citations);
     e_created_at := e_created_at e; e_updated_at := e_updated_at e;
     e_observed_at := e_observed_at e; e_last_confirmed_at := e_last_confirmed_at e;
     e_source_revision := e_source_revision e; e_owner_revision := e_owner_revision e;
     e_last_used_at := e_last_used_at e |}.

(** ** Visibility: the decision is membership *)

(** The subjects a policy names, read as a set. *)
Definition visible_to (p : MemorySubjectVisibilityPolicy) (subject : string) : bool :=
  match p with
  | AllSubjects => true
  | OnlySubjects l => bool_decide (subject ∈ l)
  | HiddenFromSubjects l => negb (bool_decide (subject ∈ l))
  end.

Lemma canonical_subjects_strict p :
  validate_canonical p = Ok tt →
  match p with
  | AllSubjects => True
  | OnlySubjects l | HiddenFromSubjects l => StronglySorted (λ a b, cmp a b = Lt) l
  end.
Proof.
  destruct p as [|l|l]; [done|..]; cbn; intros ?; inv_ok; split_bool; by apply windows_strict.
Qed.

Lemma binary_search_decide (l : list string) s :
  StronglySorted (λ a b, cmp a b = Lt) l → binary_search l s = bool_decide (s ∈ l).
Proof.
  intros Hl. apply Bool.eq_true_iff_eq. rewrite binary_search_elem_of by done.
  symmetry. apply bool_decide_eq_true.
Qed.

(** The visibility decision of an owner for a mounted subject answers
    exactly when the policy and the subject identifier are canonical, and the
    binary search it uses then decides membership in the policy's set of
    subjects. *)
Theorem visibility_decision_exact p subject d :
  decision_for_subject p subject = Ok d ↔
  validate_canonical p = Ok tt ∧ not_canonical subject = false
  ∧ d = (if visible_to p subject then VisAllowed else VisDenied).
Proof.
  assert (Hd : validate_canonical p = Ok tt →
    match p with
    | AllSubjects => VisAllowed
    | OnlySubjects l => if binary_search l subject then VisAllowed else VisDenied
    | HiddenFromSubjects l => if binary_search l subject then VisDenied else VisAllowed
    end = (if visible_to p subject then VisAllowed else VisDenied)).
  { intros Hp%canonical_subjects_strict. destruct p as [|l|l]; [done|..];
      rewrite binary_search_decide by done; cbn; by case_bool_decide. }
  unfold decision_for_subject. split.
  - intros H. inv_ok. destruct a. split_bool. rewrite <- Hd by done. by destruct p.
  - intros (Hp & Hs & ->). rewrite Hp, Hs. cbn [mbind result_bind]. cbn. f_equal.
    rewrite <- Hd by done. by destruct p.
Qed.

(** ** Evidence: withdrawn transcripts stay hidden *)

Lemma elem_of_List_filter {A} (f : A → bool) (l : list A) a :
  a ∈ List.filter f l ↔ f a = true ∧ a ∈ l.
Proof. rewrite !list_elem_of_In, filter_In. tauto. Qed.

(** The citations an entry shows. *)
Definition shown_citations (e : LongTermMemoryEntry) : list string :=
  (e_supporting_citations e
   ++ concat ((λ entity, source_ref <$> evidence_refs entity) <$> e_canonical_entities e))%list.

Lemma elem_of_shown e c :
  c ∈ shown_citations e ↔
  c ∈ e_supporting_citations e
  ∨ ∃ entity v, entity ∈ e_canonical_entities e ∧ v ∈ evidence_refs entity ∧ c = source_ref v.
Proof.
  unfold shown_citations. rewrite elem_of_app. apply or_iff_compat_l.
  rewrite list_elem_of_In, in_concat. setoid_rewrite <- list_elem_of_In.
  setoid_rewrite list_elem_of_fmap. split.
  - intros (l & (entity & -> & He) & (v & -> & Hv)%list_elem_of_fmap). eauto.
  - intros (entity & v & He & Hv & ->). exists (source_ref <$> evidence_refs entity).
    split; [eauto|]. apply list_elem_of_fmap. eauto.
Qed.

Definition permitted (e : LongTermMemoryEntry) (available : TranscriptEvidenceRef → bool)
    (c : string) : Prop :=
  is_transcript_citation c = false
  ∨ ∃ s, s ∈ e_transcript_sources e ∧ available s = true ∧ c = display_citation s.

Lemma permits_spec e available c :
  negb (is_transcript_citation c)
  || bool_decide (c ∈ display_citation <$> List.filter available (e_transcript_sources e)) = true
  ↔ permitted e available c.
Proof.
  rewrite orb_true_iff, negb_true_iff, bool_decide_eq_true, list_elem_of_fmap.
  unfold permitted. setoid_rewrite elem_of_List_filter. naive_solver.
Qed.

(** The evidence projection of an entry shows a citation exactly when the
    entry shows it and it is not a transcript citation, or is the citation of
    a source that is available; a withdrawn transcript is not visible through
    supporting citations or through canonical entities.  Content, topic and
    provenance stay those of the accepted entry. *)
Theorem projection_withholds_transcripts e available :
  (∀ c, c ∈ shown_citations (project_transcript_evidence e available) ↔
        c ∈ shown_citations e ∧ permitted e available c)
  ∧ e_content (project_transcript_evidence e available) = e_content e
  ∧ e_topic (project_transcript_evidence e available) = e_topic e
  ∧ e_provenance (project_transcript_evidence e available) = e_provenance e.
Proof.
  split; [|done]. intros c. rewrite !elem_of_shown. cbn.
  rewrite elem_of_List_filter, permits_spec. split.
  - intros [[Hp Hc]|(entity & v & He & Hv & ->)]; [by auto|].
    apply elem_of_List_filter in He as [_ (entity0 & -> & He)%list_elem_of_fmap].
    cbn in Hv. apply elem_of_List_filter in Hv as [Hp%permits_spec Hv]. split; [|done].
    right. eauto.
  - intros [[Hc|(entity & v & He & Hv & ->)] Hp]; [by auto|]. right.
    exists (mkEntityRef (entity_key entity) (display_label entity) (aliases entity)
              (List.filter (λ evidence, negb (is_transcript_citation (source_ref evidence))
                 || bool_decide (source_ref evidence ∈
                      display_citation <$> List.filter available (e_transcript_sources e)))
                 (evidence_refs entity))), v. cbn.
    assert (v ∈ List.filter (λ evidence, negb (is_transcript_citation (source_ref evidence))
                 || bool_decide (source_ref evidence ∈
                      display_citation <$> List.filter available (e_transcript_sources e)))
                 (evidence_refs entity)) as Hin.
    { apply elem_of_List_filter. by rewrite permits_spec. }
    split_and!; [|done..]. apply elem_of_List_filter. cbn. split.
    + apply negb_true_iff, bool_decide_eq_false. intros E. rewrite E in Hin.
      by apply not_elem_of_nil in Hin.
    + apply list_elem_of_fmap. eauto.
Qed.
