(* ===== verification/LongTermVersion.v ===== *)
(** * Long-term memory: versions

    Model of [crates/core/src/memory/long_term_version.rs]: immutable version
    materials and their contract, owner transitions, head manifests, the
    creation of an owner, and the closure of a scope.  The JSON encodings and
    SHA-256 are the class [VersionCodec]. *)

From S2P Require Import Prelude RustStr RustOrd Governed Lineage LongTermEntry.
From S2P Require Import StoreTypes ReadSession.

Local Open Scope string_scope.
Local Open Scope list_scope.
Local Open Scope N_scope.

Definition LONG_TERM_MEMORY_VERSION_SCHEMA_VERSION : N := 6.

(** ** Orders and failures *)

#[global] Instance owner_ref_ord : RustOrd GovernedMemoryOwnerRef :=
  ord_on (λ r, (plane_rank (owner_plane r), owner_id r)).
#[global] Instance revision_ref_ord : RustOrd GovernedOwnerRevisionRef :=
  ord_on (λ r, (owner_ref r, owner_revision r)).

Definition termination_rank (t : GovernedOwnerTermination) : nat :=
  match t with
  | Revised => 0 | Corrected => 1 | TSuperseded => 2 | TInvalidated => 3 | TDeleted => 4
  | TForgotten => 5
  end.

#[global] Instance termination_rank_inj : Inj (=) (=) termination_rank.
Proof. by intros [] []. Qed.
#[global] Instance plane_rank_inj : Inj (=) (=) plane_rank.
Proof. by intros [] []. Qed.

#[global] Instance owner_ref_ord_laws : RustOrdLaws GovernedMemoryOwnerRef.
Proof. apply ord_on_laws. intros [p i] [q j]. cbn. intros [= ?%(inj _) ->]. by subst. Qed.
#[global] Instance revision_ref_ord_laws : RustOrdLaws GovernedOwnerRevisionRef.
Proof. apply ord_on_laws. intros [p i] [q j]. by intros [= -> ->]. Qed.

(** [failures.sort(); failures.dedup()]: declaration order, no repetition. *)
Definition contract_validation (l : list GovernedContractFailure) : GovernedContractValidation :=
  from_failures (failures_of (λ f, bool_decide (f ∈ l))).

Lemma contract_validation_accepted l : accepted (contract_validation l) = true ↔ l = [].
Proof.
  unfold contract_validation. rewrite accepted_nil, failures_of_nil. split.
  - intros H. destruct l as [|f l]; [done|]. specialize (H f).
    apply bool_decide_eq_false in H. destruct H. by left.
  - intros -> f. by apply bool_decide_eq_false, not_elem_of_nil.
Qed.

Definition is_lowercase_sha256 (v : string) : bool :=
  (str_len v =? 64) && forallb is_lower_hex (String.list_ascii_of_string v).

(** ** Evidence of corrections *)

(** [LongTermMemoryCorrectionLifecycle] has the one value [Correct]. *)
Inductive LongTermMemoryCorrectionLifecycle := CorrectLifecycle.

#[global] Instance correction_lifecycle_eq_dec : EqDecision LongTermMemoryCorrectionLifecycle.
Proof. solve_decision. Defined.

Record LongTermMemoryCorrectionEvidence := mkCorrection {
  ce_memory_space_id : string;
  ce_actor_subject_id : string;
  ce_predecessor : GovernedOwnerRevisionRef;
  ce_successor : GovernedOwnerRevisionRef;
  ce_lifecycle : LongTermMemoryCorrectionLifecycle;
  ce_corrected_at : N;
  ce_control_revision_id : string;
}.

#[global] Instance correction_eq_dec : EqDecision LongTermMemoryCorrectionEvidence.
Proof. solve_decision. Defined.

Definition correction_validate_contract (e : LongTermMemoryCorrectionEvidence) : result unit :=
  ensure (negb
      (not_canonical (ce_memory_space_id e)
       || not_canonical (ce_actor_subject_id e)
       || (ce_corrected_at e =? 0)
       || not_canonical (ce_control_revision_id e)
       || negb (revision_ref_is_valid (ce_predecessor e))
       || negb (revision_ref_is_valid (ce_successor e))
       || negb (bool_decide (owner_plane (owner_ref (ce_predecessor e)) = LongTerm))
       || negb (bool_decide (owner_plane (owner_ref (ce_successor e)) = LongTerm))
       || negb (bool_decide (owner_ref (ce_predecessor e) = owner_ref (ce_successor e)))
       || negb (opt_any (λ revision, revision =? owner_revision (ce_successor e))
                  (u64_checked_add (owner_revision (ce_predecessor e)) 1))))
    (Config "long_term_correction_evidence"
       "correction evidence scope, actor, lifecycle, revision, time, or control identity is invalid").

Definition correction_try_new (memory_space_id actor_subject_id : string)
    (predecessor successor : GovernedOwnerRevisionRef)
    (lifecycle : LongTermMemoryCorrectionLifecycle) (corrected_at : N)
    (control_revision_id : string) : result LongTermMemoryCorrectionEvidence :=
  let evidence := mkCorrection memory_space_id actor_subject_id predecessor successor lifecycle
                    corrected_at control_revision_id in
  _ ← correction_validate_contract evidence;
  Ok evidence.

Record LongTermMemoryHumanConfirmationEvidence := mkConfirmation {
  cf_correction : LongTermMemoryCorrectionEvidence;
  cf_confirmed_at : N;
}.

#[global] Instance confirmation_eq_dec : EqDecision LongTermMemoryHumanConfirmationEvidence.
Proof. solve_decision. Defined.

Definition confirmation_validate_contract (e : LongTermMemoryHumanConfirmationEvidence)
    : result unit :=
  _ ← correction_validate_contract (cf_correction e);
  ensure (negb ((cf_confirmed_at e =? 0)
                || negb (cf_confirmed_at e =? ce_corrected_at (cf_correction e))))
    (Config "long_term_human_confirmation_evidence"
       "human confirmation time must equal its exact correction transition time").

Definition confirmation_try_new (correction : LongTermMemoryCorrectionEvidence)
    : result LongTermMemoryHumanConfirmationEvidence :=
  let evidence := mkConfirmation correction (ce_corrected_at correction) in
  _ ← confirmation_validate_contract evidence;
  Ok evidence.

(** ** Retention *)

Record LongTermVersionRetentionLease := mkLease { max_retained_revisions_per_owner : N }.

Definition lease_try_new (n : N) : result LongTermVersionRetentionLease :=
  _ ← ensure (negb (n =? 0))
        (Config "long_term_version_retention_lease"
           "request-pinned retention limit must be positive");
  Ok (mkLease n).

(** ** Materials *)

Record LongTermMemoryGovernedContent := mkGoverned {
  gc_transcript_sources : list TranscriptEvidenceRef;
  gc_control_barrier_scope_revision : option N;
  gc_kind : LongTermMemoryKind;
  gc_topic : string;
  gc_content : string;
  gc_keywords : list string;
  gc_source_chat_id : option string;
  gc_source_type : LongTermMemorySourceType;
  gc_source_scope : LongTermMemorySourceScope;
  gc_provenance : LongTermMemoryProvenance;
  gc_confidence : LongTermMemoryConfidence;
  gc_freshness : LongTermMemoryFreshness;
  gc_stale_hint : LongTermMemoryStaleHint;
  gc_supporting_citations : list string;
  gc_canonical_entities : list CanonicalEntityRef;
  gc_evidence_count : N;
  gc_created_at : N;
  gc_updated_at : N;
  gc_observed_at : N;
  gc_correction_evidence : option LongTermMemoryCorrectionEvidence;
  gc_confirmation_evidence : option LongTermMemoryHumanConfirmationEvidence;
  gc_source_revision : option N;
  gc_last_used_at : N;
}.

Record LongTermMemoryVersionOrigin := mkOrigin {
  origin_valid_from : N;
  origin_observed_at : N;
  origin_predecessor : option GovernedOwnerRevisionRef;
}.

Record LongTermMemoryVersionMaterial := mkMaterial {
  m_schema_version : N;
  m_memory_space_id : string;
  m_factual_owner_id : string;
  m_owner_ref : GovernedMemoryOwnerRef;
  m_owner_revision : N;
  m_governed_content : LongTermMemoryGovernedContent;
  m_governed_evidence_refs : list GovernedOwnerRevisionRef;
  m_origin : LongTermMemoryVersionOrigin;
  m_privacy_class : MemoryPrivacyClass;
  m_subject_visibility : MemorySubjectVisibilityPolicy;
  m_content_digest : string;
}.

Abbreviation Material := LongTermMemoryVersionMaterial (only parsing).

#[global] Instance governed_content_eq_dec : EqDecision LongTermMemoryGovernedContent.
Proof. solve_decision. Defined.
#[global] Instance origin_eq_dec : EqDecision LongTermMemoryVersionOrigin.
Proof. solve_decision. Defined.
#[global] Instance material_eq_dec : EqDecision LongTermMemoryVersionMaterial.
Proof. solve_decision. Defined.

(** The local [struct DigestInput]: every field but the digest. *)
Record DigestInput := mkDigestInput {
  di_schema_version : N;
  di_memory_space_id : string;
  di_factual_owner_id : string;
  di_owner_ref : GovernedMemoryOwnerRef;
  di_owner_revision : N;
  di_governed_content : LongTermMemoryGovernedContent;
  di_governed_evidence_refs : list GovernedOwnerRevisionRef;
  di_origin : LongTermMemoryVersionOrigin;
  di_privacy_class : MemoryPrivacyClass;
  di_subject_visibility : MemorySubjectVisibilityPolicy;
}.

(** ** Transitions, heads and the scope manifest *)

Record GovernedOwnerTransition := mkTransition {
  t_predecessor : GovernedOwnerRevisionRef;
  t_terminated_at : N;
  t_termination : GovernedOwnerTermination;
  t_successor : option GovernedOwnerRevisionRef;
}.
Abbreviation Transition := GovernedOwnerTransition (only parsing).

#[global] Instance transition_eq_dec : EqDecision GovernedOwnerTransition.
Proof. solve_decision. Defined.
#[global] Instance transition_ord : RustOrd GovernedOwnerTransition :=
  ord_on (λ t, (t_predecessor t, t_terminated_at t, termination_rank (t_termination t),
                t_successor t)).
#[global] Instance transition_ord_laws : RustOrdLaws GovernedOwnerTransition.
Proof. apply ord_on_laws. intros [] []. cbn. intros [= -> -> ?%(inj _) ->]. by subst. Qed.

Record LongTermMemoryRetainedRevisionDigest := mkRetained {
  rd_owner_revision : N;
  rd_content_digest : string;
}.

#[global] Instance retained_eq_dec : EqDecision LongTermMemoryRetainedRevisionDigest.
Proof. solve_decision. Defined.
#[global] Program Instance retained_countable : Countable LongTermMemoryRetainedRevisionDigest :=
  inj_countable' (λ r, (rd_owner_revision r, rd_content_digest r)) (λ p, mkRetained p.1 p.2) _.
Next Obligation. by intros []. Qed.

Record LongTermMemoryHeadManifest := mkHead {
  h_schema_version : N;
  h_memory_space_id : string;
  h_factual_owner_id : string;
  h_owner_ref : GovernedMemoryOwnerRef;
  h_current_revision : N;
  h_retained_revision_digests : list LongTermMemoryRetainedRevisionDigest;
  h_terminal_transition_ref : option GovernedOwnerRevisionRef;
  h_manifest_revision : N;
}.
Abbreviation Head := LongTermMemoryHeadManifest (only parsing).

#[global] Instance head_eq_dec : EqDecision LongTermMemoryHeadManifest.
Proof. solve_decision. Defined.

Record LongTermMemoryVersionHeadBinding := mkHeadBinding {
  hb_owner_ref : GovernedMemoryOwnerRef;
  hb_head_physical_key : string;
  hb_head_content_digest : string;
  hb_head_manifest_revision : N;
}.

#[global] Instance head_binding_eq_dec : EqDecision LongTermMemoryVersionHeadBinding.
Proof. solve_decision. Defined.
#[global] Instance head_binding_ord : RustOrd LongTermMemoryVersionHeadBinding :=
  ord_on (λ b, (hb_owner_ref b, hb_head_physical_key b, hb_head_content_digest b,
                hb_head_manifest_revision b)).
#[global] Instance head_binding_ord_laws : RustOrdLaws LongTermMemoryVersionHeadBinding.
Proof. apply ord_on_laws. intros [] []. cbn. by intros [= -> -> -> ->]. Qed.

Record LongTermMemoryVersionTransitionBinding := mkTransitionBinding {
  tb_predecessor : GovernedOwnerRevisionRef;
  tb_control_revision_physical_key : string;
  tb_control_revision_content_digest : string;
}.

#[global] Instance transition_binding_eq_dec : EqDecision LongTermMemoryVersionTransitionBinding.
Proof. solve_decision. Defined.
#[global] Instance transition_binding_ord : RustOrd LongTermMemoryVersionTransitionBinding :=
  ord_on (λ b, (tb_predecessor b, tb_control_revision_physical_key b,
                tb_control_revision_content_digest b)).
#[global] Instance transition_binding_ord_laws : RustOrdLaws LongTermMemoryVersionTransitionBinding.
Proof. apply ord_on_laws. intros [] []. cbn. by intros [= -> -> ->]. Qed.

Record LongTermMemoryVersionScopeManifest := mkScopeManifest {
  s_schema_version : N;
  s_physical_key : string;
  s_memory_space_id : string;
  s_factual_owner_id : string;
  s_manifest_revision : N;
  s_head_bindings : list LongTermMemoryVersionHeadBinding;
  s_transition_bindings : list LongTermMemoryVersionTransitionBinding;
  s_head_count : N;
  s_material_count : N;
  s_transition_count : N;
  s_closure_digest : string;
}.

#[global] Instance scope_manifest_eq_dec : EqDecision LongTermMemoryVersionScopeManifest.
Proof. solve_decision. Defined.

(** What the closure digest covers: scope, revision, heads, the identity and
    digest of each material, transitions and bindings. *)
Record ClosureDigestInput := mkClosureInput {
  cd_memory_space_id : string;
  cd_factual_owner_id : string;
  cd_manifest_revision : N;
  cd_heads : list LongTermMemoryHeadManifest;
  cd_materials : list (GovernedMemoryOwnerRef * N * string);
  cd_transitions : list GovernedOwnerTransition;
  cd_head_bindings : list LongTermMemoryVersionHeadBinding;
  cd_transition_bindings : list LongTermMemoryVersionTransitionBinding;
}.

(** ** Encodings that are not in the repository

    [serde_json::to_vec] of each digested value, and
    [format!("{:x}", Sha256::digest(bytes))]. *)
Class VersionCodec := {
  sha256_hex : bytes → string;
  material_to_vec : DigestInput → string + bytes;
  head_to_vec : LongTermMemoryHeadManifest → string + bytes;
  closure_to_vec : ClosureDigestInput → string + bytes;
}.

(** Documented behaviour: a SHA-256 digest printed with [{:x}] is 64 lowercase
    hexadecimal digits, and encoding plain data does not fail. *)
Class VersionCodecLaws `{VersionCodec} : Prop := {
  sha256_hex_lowercase b : is_lowercase_sha256 (sha256_hex b) = true;
  material_to_vec_total d : ∃ b, material_to_vec d = inr b;
  head_to_vec_total h : ∃ b, head_to_vec h = inr b;
  closure_to_vec_total c : ∃ b, closure_to_vec c = inr b;
}.

Definition encoded {A} (stage : string) (r : string + A) : result A :=
  match r with inl message => Err (Config stage message) | inr a => Ok a end.

(** ** Keys and digests *)

Section Version.
Context {vc : VersionCodec}.

(** The bytes fed to the hasher: each field behind its length. *)
Definition domain_separated_sha256 (domain : string) (fields : list bytes) : string :=
  sha256_hex (foldl update_read_digest (update_read_digest [] (str_bytes domain)) fields).

Definition validate_scope_key_input (memory_space_id factual_owner_id : string) : result unit :=
  ensure (negb (not_canonical memory_space_id || not_canonical factual_owner_id))
    (Config "long_term_version_key" "canonical memory space and factual owner are required").

Definition validate_key_input (memory_space_id factual_owner_id : string)
    (o : GovernedMemoryOwnerRef) (revision : N) : result unit :=
  _ ← validate_scope_key_input memory_space_id factual_owner_id;
  ensure (negb (negb (bool_decide (owner_plane o = LongTerm))
                || negb (owner_ref_is_valid o) || (revision =? 0)))
    (Config "long_term_version_key" "scope, long-term owner and positive revision are required").

Definition long_term_version_material_key (memory_space_id factual_owner_id : string)
    (o : GovernedMemoryOwnerRef) (revision : N) : result string :=
  _ ← validate_key_input memory_space_id factual_owner_id o revision;
  Ok ("p8-material:" +:+ domain_separated_sha256 "long_term_version_material_key_v6"
        [str_bytes memory_space_id; str_bytes factual_owner_id;
         str_bytes (plane_as_str (owner_plane o)); str_bytes (owner_id o); be_bytes revision]).

Definition long_term_version_head_key (memory_space_id factual_owner_id : string)
    (o : GovernedMemoryOwnerRef) : result string :=
  _ ← validate_key_input memory_space_id factual_owner_id o 1;
  Ok ("p8-head:" +:+ domain_separated_sha256 "long_term_version_head_key_v6"
        [str_bytes memory_space_id; str_bytes factual_owner_id;
         str_bytes (plane_as_str (owner_plane o)); str_bytes (owner_id o)]).

Definition long_term_version_scope_manifest_key (memory_space_id factual_owner_id : string)
    : result string :=
  _ ← validate_scope_key_input memory_space_id factual_owner_id;
  Ok ("long-term-version-scope:" +:+
      domain_separated_sha256 "long_term_version_scope_manifest_key_v6"
        [str_bytes memory_space_id; str_bytes factual_owner_id]).

(** ** Material contract *)

Definition owner_revision_ref (m : Material) : GovernedOwnerRevisionRef :=
  mkRevisionRef (m_owner_ref m) (m_owner_revision m).

(** [LongTermMemoryVersionOrigin::validate_for] *)
Definition origin_validate_for (o : LongTermMemoryVersionOrigin)
    (current : GovernedOwnerRevisionRef) : GovernedContractValidation :=
  contract_validation
    (push_if (negb (revision_ref_is_valid current)
              || opt_any (λ p, negb (revision_ref_is_valid p)) (origin_predecessor o))
       OwnerRevisionRefInvalid
     ++ push_if (bool_decide (origin_predecessor o = Some current)) ValiditySelfLoop
     ++ match origin_predecessor o with
        | None => push_if (negb (owner_revision current =? 1)) LineageGap
        | Some p =>
            if owner_revision current =? 1 then
              push_if (negb (bool_decide (owner_plane (owner_ref p)
                                          = owner_plane (owner_ref current))))
                LineageScopeMismatch
              ++ push_if (bool_decide (owner_ref p = owner_ref current)) LineageGap
            else
              push_if (negb (bool_decide (owner_ref p = owner_ref current)
                             && opt_any (λ revision, revision =? owner_revision current)
                                  (u64_checked_add (owner_revision p) 1)))
                LineageGap
        end).

Definition canonical_content_digest (m : Material) : result string :=
  b ← encoded "long_term_version_digest"
        (material_to_vec (mkDigestInput (m_schema_version m) (m_memory_space_id m)
           (m_factual_owner_id m) (m_owner_ref m) (m_owner_revision m) (m_governed_content m)
           (m_governed_evidence_refs m) (m_origin m) (m_privacy_class m)
           (m_subject_visibility m)));
  Ok (domain_separated_sha256 "long_term_version_content_digest_v6" [b]).

(** [digest().ok().as_deref() == Some(d)] *)
Definition digest_is (r : result string) (d : string) : bool :=
  match r with Ok x => bool_decide (x = d) | Err _ => false end.

(** A subject identifier that is present, non-empty and trimmed. *)
Definition bad_subject (s : option string) : bool :=
  match s with
  | None => true
  | Some id => is_empty id || negb (bool_decide (trim id = id))
  end.

(** The transcript citations a material shows, and its bound sources. *)
Definition transcript_citations (c : LongTermMemoryGovernedContent) : list string :=
  List.filter is_transcript_citation
    (gc_supporting_citations c
     ++ concat ((λ entity, source_ref <$> evidence_refs entity) <$> gc_canonical_entities c)).

Definition source_not_bound (memory_space_id : string) (citations : list string)
    (s : TranscriptEvidenceRef) : bool :=
  negb (bool_decide (ev_memory_space_id s = memory_space_id))
  || bad_subject (ev_subject_id s)
  || negb (bool_decide (display_citation s ∈ citations))
  || is_none (parse_display_citation (display_citation s)).

Definition sources_mismatch (m : Material) : bool :=
  let c := m_governed_content m in
  let sources := gc_transcript_sources c in
  let citations := transcript_citations c in
  bool_decide (gc_control_barrier_scope_revision c = Some 0)
  || existsb (source_not_bound (m_memory_space_id m) citations) sources
  || existsb (λ citation,
       negb (existsb (λ s, bool_decide (display_citation s = citation)) sources)) citations
  || windows2_any (λ a b, leb (display_citation b) (display_citation a)) sources.

Definition content_mismatch (m : Material) : bool :=
  let c := m_governed_content m in
  blank (gc_content c)
  || negb (gc_observed_at c =? origin_observed_at (m_origin m))
  || opt_any (λ evidence,
       negb (is_ok (correction_validate_contract evidence))
       || negb (bool_decide (ce_memory_space_id evidence = m_memory_space_id m))
       || negb (bool_decide (owner_ref (ce_successor evidence) = m_owner_ref m))
       || (m_owner_revision m <? owner_revision (ce_successor evidence)))
     (gc_correction_evidence c)
  || opt_any (λ evidence,
       negb (is_ok (confirmation_validate_contract evidence))
       || negb (bool_decide (Some (cf_correction evidence) = gc_correction_evidence c)))
     (gc_confirmation_evidence c)
  || negb (digest_is (canonical_content_digest m) (m_content_digest m)).

Definition evidence_invalid (l : list GovernedOwnerRevisionRef) : bool :=
  existsb (λ r, negb (revision_ref_is_valid r)
                || negb (bool_decide (owner_plane (owner_ref r) = EvidenceDocument))) l
  || windows2_any (λ a b, leb b a) l.

Definition validate_contract (m : Material) : GovernedContractValidation :=
  let r := owner_revision_ref m in
  contract_validation
    (push_if (negb (m_schema_version m =? LONG_TERM_MEMORY_VERSION_SCHEMA_VERSION)
              || not_canonical (m_memory_space_id m)
              || not_canonical (m_factual_owner_id m)
              || negb (bool_decide (m_factual_owner_id m = m_memory_space_id m))
              || negb (bool_decide (owner_plane (m_owner_ref m) = LongTerm))
              || negb (revision_ref_is_valid r))
       OwnerRevisionRefInvalid
     ++ failures (origin_validate_for (m_origin m) r)
     ++ push_if (negb (is_ok (validate_canonical (m_subject_visibility m)))) ContentDigestMismatch
     ++ push_if (sources_mismatch m) ContentDigestMismatch
     ++ push_if (evidence_invalid (m_governed_evidence_refs m)) OwnerRevisionRefInvalid
     ++ push_if (negb (N.of_nat (size (list_to_set (m_governed_evidence_refs m)
                                       : gset GovernedOwnerRevisionRef))
                       =? len (m_governed_evidence_refs m))) LineageDuplicateRevision
     ++ push_if (content_mismatch m) ContentDigestMismatch).

(** ** Projections *)

Definition with_digest (m : Material) (d : string) : Material :=
  mkMaterial (m_schema_version m) (m_memory_space_id m) (m_factual_owner_id m) (m_owner_ref m)
    (m_owner_revision m) (m_governed_content m) (m_governed_evidence_refs m) (m_origin m)
    (m_privacy_class m) (m_subject_visibility m) d.

Definition from_current_projection (memory_space_id factual_owner_id : string)
    (e : LongTermMemoryEntry) (valid_from : N) (predecessor : option GovernedOwnerRevisionRef)
    (governed_evidence_refs : list GovernedOwnerRevisionRef) : result Material :=
  let material :=
    {| m_schema_version := LONG_TERM_MEMORY_VERSION_SCHEMA_VERSION;
       m_memory_space_id := memory_space_id;
       m_factual_owner_id := factual_owner_id;
       m_owner_ref := mkOwnerRef LongTerm (e_id e);
       m_owner_revision := e_owner_revision e;
       m_governed_content :=
         {| gc_transcript_sources := e_transcript_sources e;
            gc_control_barrier_scope_revision := e_control_barrier_scope_revision e;
            gc_kind := e_kind e; gc_topic := e_topic e; gc_content := e_content e;
            gc_keywords := e_keywords e; gc_source_chat_id := e_source_chat_id e;
            gc_source_type := e_source_type e; gc_source_scope := e_source_scope e;
            gc_provenance := e_provenance e; gc_confidence := e_confidence e;
            gc_freshness := e_freshness e; gc_stale_hint := e_stale_hint e;
            gc_supporting_citations := e_supporting_citations e;
            gc_canonical_entities := e_canonical_entities e;
            gc_evidence_count := e_evidence_count e; gc_created_at := e_created_at e;
            gc_updated_at := e_updated_at e; gc_observed_at := e_observed_at e;
            gc_correction_evidence := None; gc_confirmation_evidence := None;
            gc_source_revision := e_source_revision e; gc_last_used_at := e_last_used_at e |};
       m_governed_evidence_refs := dedup (sort governed_evidence_refs);
       m_origin := mkOrigin valid_from (e_observed_at e) predecessor;
       m_privacy_class := e_privacy e;
       m_subject_visibility := e_subject_visibility e;
       m_content_digest := "" |} in
  digest ← canonical_content_digest material;
  let material := with_digest material digest in
  _ ← ensure (accepted (validate_contract material))
        (Config "long_term_version_material"
           "current projection cannot form a canonical immutable material");
  Ok material.

Definition to_current_projection (m : Material) : result LongTermMemoryEntry :=
  _ ← ensure (accepted (validate_contract m))
        (Config "long_term_version_material"
           "invalid material cannot produce a current projection");
  let c := m_governed_content m in
  Ok {| e_transcript_sources := gc_transcript_sources c;
        e_control_barrier_scope_revision := gc_control_barrier_scope_revision c;
        e_id := owner_id (m_owner_ref m); e_kind := gc_kind c; e_topic := gc_topic c;
        e_content := gc_content c; e_keywords := gc_keywords c;
        e_privacy := m_privacy_class m; e_source_chat_id := gc_source_chat_id c;
        e_source_type := gc_source_type c; e_source_scope := gc_source_scope c;
        e_subject_visibility := m_subject_visibility m; e_provenance := gc_provenance c;
        e_confidence := gc_confidence c; e_freshness := gc_freshness c;
        e_stale_hint := gc_stale_hint c;
        e_supporting_citations := gc_supporting_citations c;
        e_canonical_entities := gc_canonical_entities c;
        e_evidence_count := gc_evidence_count c; e_created_at := gc_created_at c;
        e_updated_at := gc_updated_at c; e_observed_at := gc_observed_at c;
        e_last_confirmed_at := cf_confirmed_at <$> gc_confirmation_evidence c;
        e_source_revision := gc_source_revision c;
        e_owner_revision := m_owner_revision m; e_last_used_at := gc_last_used_at c |}.

(** ** Transition contract *)

Definition transition_validate_contract (t : Transition) (pm : Material) (sm : option Material)
    : GovernedContractValidation :=
  contract_validation
    (failures (validate_contract pm)
     ++ push_if (negb (revision_ref_is_valid (t_predecessor t))
                 || negb (bool_decide (t_predecessor t = owner_revision_ref pm)))
          OwnerRevisionRefInvalid
     ++ push_if (t_terminated_at t <=? origin_valid_from (m_origin pm)) ValidityIntervalInvalid
     ++ push_if (opt_any (λ s, negb (revision_ref_is_valid s)) (t_successor t))
          OwnerRevisionRefInvalid
     ++ match t_successor t, sm with
        | Some r, Some s =>
            failures (validate_contract s)
            ++ push_if (negb (bool_decide (owner_revision_ref s = r))
                        || negb (bool_decide (m_memory_space_id s = m_memory_space_id pm))
                        || negb (bool_decide (m_factual_owner_id s = m_factual_owner_id pm))
                        || negb (bool_decide (origin_predecessor (m_origin s)
                                              = Some (t_predecessor t)))
                        || negb (origin_valid_from (m_origin s) =? t_terminated_at t))
                 ValiditySuccessorMismatch
        | None, None => []
        | _, _ => [ValiditySuccessorMismatch]
        end
     ++ match t_termination t with
        | Revised | Corrected =>
            push_if (negb (opt_any (λ s,
                bool_decide (owner_ref s = owner_ref (t_predecessor t))
                && opt_any (λ revision, owner_revision s =? revision)
                     (u64_checked_add (owner_revision (t_predecessor t)) 1)) (t_successor t)))
              ValiditySuccessorMismatch
        | TSuperseded =>
            push_if (negb (opt_any (λ s,
                bool_decide (owner_plane (owner_ref s) = owner_plane (owner_ref (t_predecessor t)))
                && negb (bool_decide (owner_id (owner_ref s)
                                      = owner_id (owner_ref (t_predecessor t))))
                && (owner_revision s =? 1)) (t_successor t)))
              ValiditySuccessorMismatch
        | t' =>
            push_if (is_terminal_without_successor t'
                     && (negb (is_none (t_successor t)) || negb (is_none sm)))
              ValiditySuccessorMismatch
        end).

(** ** Head manifests *)

Definition head_content_digest (h : Head) : result string :=
  b ← encoded "long_term_version_head_digest" (head_to_vec h);
  Ok (domain_separated_sha256 "long_term_version_head_content_digest_v6" [b]).

Definition head_revisions (h : Head) : list N :=
  rd_owner_revision <$> h_retained_revision_digests h.

Definition head_validate_contract (h : Head) : GovernedContractValidation :=
  contract_validation
    (push_if (negb (h_schema_version h =? LONG_TERM_MEMORY_VERSION_SCHEMA_VERSION)
              || not_canonical (h_memory_space_id h)
              || not_canonical (h_factual_owner_id h)
              || negb (bool_decide (h_factual_owner_id h = h_memory_space_id h))
              || negb (bool_decide (owner_plane (h_owner_ref h) = LongTerm))
              || negb (owner_ref_is_valid (h_owner_ref h))
              || (h_current_revision h =? 0)
              || (h_manifest_revision h =? 0))
       OwnerRevisionRefInvalid
     ++ push_if (negb (N.of_nat (size (list_to_set (head_revisions h) : gset N))
                       =? len (h_retained_revision_digests h))
                 || existsb (λ d, (rd_owner_revision d =? 0)
                                  || negb (is_lowercase_sha256 (rd_content_digest d)))
                      (h_retained_revision_digests h)
                 || negb (bool_decide (h_current_revision h ∈ head_revisions h)))
          HeadManifestClosureMismatch
     ++ push_if (negb (bool_decide (last (head_revisions h) = Some (h_current_revision h)))
                 || windows2_any (λ a b, leb b a) (head_revisions h)
                 || opt_any (λ r, negb (revision_ref_is_valid r)
                                  || negb (bool_decide (owner_ref r = h_owner_ref h))
                                  || negb (owner_revision r =? h_current_revision h))
                      (h_terminal_transition_ref h))
          HeadManifestClosureMismatch).

(** ** Creation *)

Record LongTermMemoryVersionCreateIntent := mkCreateIntent {
  ci_memory_space_id : string;
  ci_factual_owner_id : string;
  ci_projection : LongTermMemoryEntry;
  ci_governed_evidence_refs : list GovernedOwnerRevisionRef;
  ci_requested_at : N;
}.

Record BoundLongTermVersionCreation := mkBoundCreation {
  bc_effective_at : N;
  bc_material : Material;
  bc_head : Head;
}.

Definition retained_digest (m : Material) : LongTermMemoryRetainedRevisionDigest :=
  mkRetained (m_owner_revision m) (m_content_digest m).

Definition bind_long_term_version_creation (intent : LongTermMemoryVersionCreateIntent)
    (lease : LongTermVersionRetentionLease) : result BoundLongTermVersionCreation :=
  _ ← ensure (negb (not_canonical (ci_memory_space_id intent)
                    || not_canonical (ci_factual_owner_id intent)
                    || negb (bool_decide (ci_factual_owner_id intent = ci_memory_space_id intent))
                    || negb (e_owner_revision (ci_projection intent) =? 1)
                    || negb (is_none (e_last_confirmed_at (ci_projection intent)))
                    || (max_retained_revisions_per_owner lease <? 1)))
        (Config "long_term_version_creation"
           "canonical scope, revision-one owner and request-pinned retention capacity are required");
  let effective_at :=
    N.max (N.max (ci_requested_at intent) (e_updated_at (ci_projection intent))) 1 in
  material ← from_current_projection (ci_memory_space_id intent) (ci_factual_owner_id intent)
               (ci_projection intent) effective_at None (ci_governed_evidence_refs intent);
  let head :=
    {| h_schema_version := LONG_TERM_MEMORY_VERSION_SCHEMA_VERSION;
       h_memory_space_id := ci_memory_space_id intent;
       h_factual_owner_id := ci_factual_owner_id intent;
       h_owner_ref := m_owner_ref material;
       h_current_revision := m_owner_revision material;
       h_retained_revision_digests := [retained_digest material];
       h_terminal_transition_ref := None;
       h_manifest_revision := 1 |} in
  _ ← ensure (accepted (head_validate_contract head))
        (Config "long_term_version_creation" "bound creation head contract is invalid");
  Ok (mkBoundCreation effective_at material head).

(** ** Material images *)

Record LongTermMemoryVersionMaterialImage := mkImage {
  before_physical_key : option string;
  image_before : option Material;
  after_physical_key : option string;
  image_after : option Material;
}.

Definition image_created (k : string) (m : Material) := mkImage None None (Some k) (Some m).
Definition image_updated (k : string) (m : Material) (k' : string) (m' : Material) :=
  mkImage (Some k) (Some m) (Some k') (Some m').
Definition image_deleted (k : string) (m : Material) := mkImage (Some k) (Some m) None None.

Definition observed_owner_ref (i : LongTermMemoryVersionMaterialImage)
    : option GovernedMemoryOwnerRef :=
  m_owner_ref <$> match image_after i with Some m => Some m | None => image_before i end.

Definition side_closed (memory_space_id factual_owner_id : string)
    (key : option string) (material : option Material) : bool :=
  match material with
  | None => true
  | Some m =>
      bool_decide (m_memory_space_id m = memory_space_id)
      && bool_decide (m_factual_owner_id m = factual_owner_id)
      && accepted (validate_contract m)
      && bool_decide (match long_term_version_material_key memory_space_id factual_owner_id
                              (m_owner_ref m) (m_owner_revision m) with
                      | Ok k => Some k | Err _ => None
                      end = key)
  end.

Definition has_exact_physical_closure (i : LongTermMemoryVersionMaterialImage)
    (memory_space_id factual_owner_id : string) : bool :=
  if negb (Bool.eqb (is_none (before_physical_key i)) (is_none (image_before i)))
     || negb (Bool.eqb (is_none (after_physical_key i)) (is_none (image_after i))) then false
  else if is_none (image_before i) && is_none (image_after i) then false
  else
    side_closed memory_space_id factual_owner_id (before_physical_key i) (image_before i)
    && side_closed memory_space_id factual_owner_id (after_physical_key i) (image_after i)
    && match image_before i, image_after i with
       | Some b, Some a => bool_decide (m_owner_ref b = m_owner_ref a)
       | _, _ => true
       end.

(** ** Validity and selection *)

Record LongTermMemoryVersionReadProjection := mkReadProjection {
  rp_material : Material;
  rp_validity : GovernedOwnerValidity;
}.

Definition project_long_term_owner_validity (m : Material) (t : option Transition)
    (sm : option Material) : result GovernedOwnerValidity :=
  _ ← ensure (accepted (validate_contract m))
        (Config "long_term_owner_validity" "owner material is invalid");
  _ ← match t with
      | Some t =>
          ensure (accepted (transition_validate_contract t m sm))
            (Config "long_term_owner_validity"
               "owner transition differs from the immutable material closure")
      | None =>
          ensure (is_none sm)
            (Config "long_term_owner_validity" "successor material requires an owner transition")
      end;
  let validity :=
    mkValidity (origin_valid_from (m_origin m)) (t_terminated_at <$> t)
      (origin_observed_at (m_origin m)) (origin_predecessor (m_origin m))
      (t ≫= t_successor) (t_termination <$> t) in
  _ ← ensure (accepted (validate_for validity (owner_revision_ref m)))
        (Config "long_term_owner_validity" "projected owner validity is invalid");
  Ok validity.

(** [collect::<BTreeMap<_, _>>()]: the last of equal keys stays. *)
Definition collect_by {K V} `{Countable K} (f : V → K) (l : list V) : gmap K V :=
  foldl (λ m v, <[f v := v]> m) ∅ l.

Definition owner_materials (o : GovernedMemoryOwnerRef) (ms : list Material) : list Material :=
  List.filter (λ m, bool_decide (m_owner_ref m = o)) ms.

Definition contains_time (v : GovernedOwnerValidity) (t : N) : bool :=
  (valid_from v <=? t) && match valid_until v with None => true | Some u => t <? u end.

Definition transition_required (h : Head) (m : Material) : bool :=
  negb (m_owner_revision m =? h_current_revision h)
  || bool_decide (h_terminal_transition_ref h = Some (owner_revision_ref m)).

(** One round of the selection loop. *)
Definition select_step (h : Head) (by_ref : gmap GovernedOwnerRevisionRef Material)
    (by_predecessor : gmap GovernedOwnerRevisionRef Transition) (as_of_time : N)
    (selected : option LongTermMemoryVersionReadProjection) (m : Material)
    : result (option LongTermMemoryVersionReadProjection) :=
  let transition := by_predecessor !! owner_revision_ref m in
  _ ← ensure (Bool.eqb (negb (is_none transition)) (transition_required h m))
        (Config "long_term_version_as_of_read"
           "material transition presence differs from the pinned head");
  let successor_material :=
    transition ≫= λ t, t_successor t ≫= λ r, by_ref !! r in
  validity ← project_long_term_owner_validity m transition successor_material;
  if contains_time validity as_of_time then
    _ ← ensure (is_none selected)
          (Config "long_term_version_as_of_read"
             "multiple retained materials overlap the as-of time");
    Ok (Some (mkReadProjection m validity))
  else Ok selected.

Definition select_long_term_version_as_of (h : Head) (ms : list Material)
    (ts : list Transition) (as_of_time max_retained : N)
    : result (option LongTermMemoryVersionReadProjection) :=
  _ ← ensure (negb (negb (accepted (head_validate_contract h)) || (max_retained =? 0)))
        (Config "long_term_version_as_of_read"
           "head contract or request-pinned retention limit is invalid");
  let owned := owner_materials (h_owner_ref h) ms in
  _ ← ensure (negb ((max_retained <? len owned)
                    || negb (bool_decide
                         ((list_to_set (retained_digest <$> owned)
                           : gset LongTermMemoryRetainedRevisionDigest)
                          = list_to_set (h_retained_revision_digests h)))))
        (Config "long_term_version_as_of_read"
           "retained material set differs from the exact head closure");
  let by_ref := collect_by owner_revision_ref ms in
  _ ← ensure (N.of_nat (size by_ref) =? len ms)
        (Config "long_term_version_as_of_read" "duplicate material revision");
  let by_predecessor := collect_by t_predecessor ts in
  _ ← ensure (N.of_nat (size by_predecessor) =? len ts)
        (Config "long_term_version_as_of_read" "duplicate predecessor transition");
  try_fold (select_step h by_ref by_predecessor as_of_time) None owned.

Definition select_long_term_version_current (h : Head) (ms : list Material)
    (ts : list Transition) (max_retained : N) : result LongTermMemoryVersionReadProjection :=
  _ ← ensure (negb (negb (accepted (head_validate_contract h)) || (max_retained =? 0)))
        (Config "long_term_version_current_read"
           "head contract or request-pinned retention limit is invalid");
  match find (λ m, bool_decide (m_owner_ref m = h_owner_ref h)
                   && (m_owner_revision m =? h_current_revision h)) ms with
  | None => Err (Config "long_term_version_current_read"
                   "current material is missing from the exact head closure")
  | Some material =>
      selected ← select_long_term_version_as_of h ms ts
                   (origin_valid_from (m_origin material)) max_retained;
      match selected with
      | None => Err (Config "long_term_version_current_read"
                       "current material validity does not contain its own valid-from time")
      | Some projection =>
          _ ← ensure (bool_decide (owner_revision_ref (rp_material projection)
                                   = owner_revision_ref material))
                (Config "long_term_version_current_read"
                   "as-of closure selected a different current material");
          Ok projection
      end
  end.

(** ** Bindings *)

Definition binding_from_head (h : Head) : result LongTermMemoryVersionHeadBinding :=
  _ ← ensure (accepted (head_validate_contract h))
        (Config "long_term_version_head_binding" "head contract is invalid");
  key ← long_term_version_head_key (h_memory_space_id h) (h_factual_owner_id h) (h_owner_ref h);
  digest ← head_content_digest h;
  Ok (mkHeadBinding (h_owner_ref h) key digest (h_manifest_revision h)).

Definition transition_binding_new (predecessor : GovernedOwnerRevisionRef)
    (physical_key content_digest : string) : result LongTermMemoryVersionTransitionBinding :=
  _ ← ensure (negb (negb (revision_ref_is_valid predecessor)
                    || negb (bool_decide (owner_plane (owner_ref predecessor) = LongTerm))
                    || not_canonical physical_key
                    || negb (is_lowercase_sha256 content_digest)))
        (Config "long_term_version_transition_binding"
           "exact predecessor, canonical control key and lowercase sha256 digest are required");
  Ok (mkTransitionBinding predecessor physical_key content_digest).

Definition transition_binding_validate_for (b : LongTermMemoryVersionTransitionBinding)
    (t : Transition) : result unit :=
  canonical ← transition_binding_new (tb_predecessor b) (tb_control_revision_physical_key b)
                (tb_control_revision_content_digest b);
  ensure (bool_decide (b = canonical) && bool_decide (tb_predecessor b = t_predecessor t))
    (Config "long_term_version_transition_binding"
       "control binding does not identify the exact transition predecessor").

(** ** Scope closure *)

(** An element that fails a check before the insertion is not inserted. *)
Definition closure_heads (memory_space_id factual_owner_id : string) (max_retained : N)
    (acc : list GovernedContractFailure * gmap GovernedMemoryOwnerRef Head) (h : Head) :=
  let '(fs, by_owner) := acc in
  let mismatch := negb (bool_decide (h_memory_space_id h = memory_space_id))
                  || negb (bool_decide (h_factual_owner_id h = factual_owner_id))
                  || (max_retained <? len (h_retained_revision_digests h)) in
  (fs ++ failures (head_validate_contract h)
   ++ push_if (mismatch || negb (is_none (by_owner !! h_owner_ref h))) HeadManifestClosureMismatch,
   if mismatch then by_owner else <[h_owner_ref h := h]> by_owner).

Abbreviation DigestSet := (gset LongTermMemoryRetainedRevisionDigest).

Definition closure_materials (memory_space_id factual_owner_id : string)
    (acc : list GovernedContractFailure * gmap GovernedOwnerRevisionRef Material
           * gmap GovernedMemoryOwnerRef DigestSet) (m : Material) :=
  let '(fs, by_ref, digests) := acc in
  let mismatch := negb (bool_decide (m_memory_space_id m = memory_space_id))
                  || negb (bool_decide (m_factual_owner_id m = factual_owner_id)) in
  (fs ++ failures (validate_contract m)
   ++ push_if (mismatch || negb (is_none (by_ref !! owner_revision_ref m)))
        HeadManifestClosureMismatch,
   if mismatch then by_ref else <[owner_revision_ref m := m]> by_ref,
   <[m_owner_ref m := {[retained_digest m]} ∪ default ∅ (digests !! m_owner_ref m)]> digests).

Definition closure_retained
    (acc : list GovernedContractFailure * gmap GovernedMemoryOwnerRef DigestSet) (h : Head) :=
  let '(fs, digests) := acc in
  (fs ++ push_if (negb (bool_decide
            ((list_to_set (h_retained_revision_digests h) : DigestSet)
             = default ∅ (digests !! h_owner_ref h)))) HeadManifestClosureMismatch,
   delete (h_owner_ref h) digests).

Definition closure_transitions
    (acc : list GovernedContractFailure * gmap GovernedOwnerRevisionRef Transition)
    (t : Transition) :=
  let '(fs, by_predecessor) := acc in
  let mismatch := negb (revision_ref_is_valid (t_predecessor t)) in
  (fs ++ push_if (mismatch || negb (is_none (by_predecessor !! t_predecessor t)))
           HeadManifestClosureMismatch,
   if mismatch then by_predecessor else <[t_predecessor t := t]> by_predecessor).

(** The windows of the retained materials of an owner, by revision. *)
Fixpoint closure_windows
    (acc : list GovernedContractFailure * gset GovernedOwnerRevisionRef) (l : list Material) :=
  match l with
  | a :: (b :: _) as l' =>
      closure_windows
        (acc.1 ++ push_if (negb (opt_any (λ revision, revision =? m_owner_revision b)
                                   (u64_checked_add (m_owner_revision a) 1))) LineageGap,
         {[owner_revision_ref a]} ∪ acc.2) l'
  | _ => acc
  end.

Definition closure_expected (ms : list Material)
    (acc : list GovernedContractFailure * gset GovernedOwnerRevisionRef) (h : Head) :=
  let retained := sort_by (λ a b, leb (m_owner_revision a) (m_owner_revision b))
                    (owner_materials (h_owner_ref h) ms) in
  let '(fs, expected) := closure_windows acc retained in
  (fs, match h_terminal_transition_ref h with
       | Some r => {[r]} ∪ expected
       | None => expected
       end).

Definition closure_transition_at (by_ref : gmap GovernedOwnerRevisionRef Material)
    (by_predecessor : gmap GovernedOwnerRevisionRef Transition) (r : GovernedOwnerRevisionRef)
    : list GovernedContractFailure :=
  match by_ref !! r with
  | None => [HeadManifestClosureMismatch]
  | Some pm =>
      match by_predecessor !! r with
      | None => [HeadManifestClosureMismatch]
      | Some t =>
          failures (transition_validate_contract t pm (t_successor t ≫= λ s, by_ref !! s))
      end
  end.

Definition validate_scope_closure (memory_space_id factual_owner_id : string)
    (heads : list Head) (ms : list Material) (ts : list Transition) (max_retained : N)
    : GovernedContractValidation :=
  let scope := push_if (not_canonical memory_space_id || not_canonical factual_owner_id
                        || negb (bool_decide (factual_owner_id = memory_space_id))
                        || (max_retained =? 0)) HeadManifestClosureMismatch in
  let '(head_failures, _) :=
    foldl (closure_heads memory_space_id factual_owner_id max_retained) ([], ∅) heads in
  let maximum := len heads * max_retained in
  let count := push_if ((usize_max <? maximum) || (maximum <? len ms))
                 HeadManifestClosureMismatch in
  let '(material_failures, by_ref, digests) :=
    foldl (closure_materials memory_space_id factual_owner_id) ([], ∅, ∅) ms in
  let '(retained_failures, digests) := foldl closure_retained ([], digests) heads in
  let leftover := push_if (negb (bool_decide (digests = ∅))) HeadManifestClosureMismatch in
  let '(transition_failures, by_predecessor) := foldl closure_transitions ([], ∅) ts in
  let '(window_failures, expected) := foldl (closure_expected ms) ([], ∅) heads in
  let presence := push_if (negb (bool_decide (expected = dom by_predecessor)))
                    HeadManifestClosureMismatch in
  let pairs := concat (closure_transition_at by_ref by_predecessor
                       <$> sort (elements expected)) in
  contract_validation
    (scope ++ head_failures ++ count ++ material_failures ++ retained_failures ++ leftover
     ++ transition_failures ++ window_failures ++ presence ++ pairs).

Definition validate_long_term_version_head_closure (h : Head) (ms : list Material)
    (ts : list Transition) (max_retained : N) : GovernedContractValidation :=
  validate_scope_closure (h_memory_space_id h) (h_factual_owner_id h) [h] ms ts max_retained.

(** ** Scope manifests *)

Definition scope_closure_digest (memory_space_id factual_owner_id : string)
    (manifest_revision : N) (heads : list Head) (ms : list Material) (ts : list Transition)
    (head_bindings : list LongTermMemoryVersionHeadBinding)
    (transition_bindings : list LongTermMemoryVersionTransitionBinding) : result string :=
  b ← encoded "long_term_version_scope_digest"
        (closure_to_vec
           {| cd_memory_space_id := memory_space_id; cd_factual_owner_id := factual_owner_id;
              cd_manifest_revision := manifest_revision;
              cd_heads := sort_by (λ a b, leb (h_owner_ref a) (h_owner_ref b)) heads;
              cd_materials :=
                sort ((λ m, (m_owner_ref m, m_owner_revision m, m_content_digest m)) <$> ms);
              cd_transitions := sort ts;
              cd_head_bindings := sort head_bindings;
              cd_transition_bindings := sort transition_bindings |});
  Ok (domain_separated_sha256 "long_term_version_scope_closure_digest_v6" [b]).

(** [u64::try_from(count)] *)
Definition bounded_count (field : string) (count : N) : result N :=
  _ ← ensure (count <=? u64_max)
        (Config "long_term_version_scope_manifest"
           (field +:+ " exceeds the manifest count representation"));
  Ok count.

Definition failure_name (f : GovernedContractFailure) : string :=
  match f with
  | OwnerRevisionRefInvalid => "OwnerRevisionRefInvalid"
  | ValidityIntervalInvalid => "ValidityIntervalInvalid"
  | ValiditySelfLoop => "ValiditySelfLoop"
  | ValidityTerminationMismatch => "ValidityTerminationMismatch"
  | ValiditySuccessorMismatch => "ValiditySuccessorMismatch"
  | EligibilityReasonMissing => "EligibilityReasonMissing"
  | EligibilityReasonUnexpected => "EligibilityReasonUnexpected"
  | EligibilityReasonDuplicate => "EligibilityReasonDuplicate"
  | EligibilityReasonLimitExceeded => "EligibilityReasonLimitExceeded"
  | EligibilityPrimaryReasonMismatch => "EligibilityPrimaryReasonMismatch"
  | EligibilityReportSchemaMismatch => "EligibilityReportSchemaMismatch"
  | EligibilityDecisionDuplicate => "EligibilityDecisionDuplicate"
  | EligibilityQueryMismatch => "EligibilityQueryMismatch"
  | EligibilityCountMismatch => "EligibilityCountMismatch"
  | DynamicStateReportSchemaMismatch => "DynamicStateReportSchemaMismatch"
  | DynamicStateOwnerMismatch => "DynamicStateOwnerMismatch"
  | DynamicStateValidityMismatch => "DynamicStateValidityMismatch"
  | DynamicStateDecisionMismatch => "DynamicStateDecisionMismatch"
  | PremiseGateInvalid => "PremiseGateInvalid"
  | PremiseReportSchemaMismatch => "PremiseReportSchemaMismatch"
  | PremiseReportItemInvalid => "PremiseReportItemInvalid"
  | PremiseReportCountMismatch => "PremiseReportCountMismatch"
  | DeliveryReportMismatch => "DeliveryReportMismatch"
  | ContentDigestMismatch => "ContentDigestMismatch"
  | HeadManifestClosureMismatch => "HeadManifestClosureMismatch"
  | InvalidationActorMissing => "InvalidationActorMissing"
  | InvalidationEvidenceMissing => "InvalidationEvidenceMissing"
  | InvalidationEvidenceOwnerInvalid => "InvalidationEvidenceOwnerInvalid"
  | InvalidationAuditReasonMissing => "InvalidationAuditReasonMissing"
  | LineageDuplicateRevision => "LineageDuplicateRevision"
  | LineageCycle => "LineageCycle" | LineageGap => "LineageGap"
  | LineageScopeMismatch => "LineageScopeMismatch"
  | LineagePrivacyMismatch => "LineagePrivacyMismatch"
  | LineageDepthExceeded => "LineageDepthExceeded"
  | LineageFailureMismatch => "LineageFailureMismatch"
  end.

(** [format!("{:?}", failures)] *)
Definition debug_failures (l : list GovernedContractFailure) : string :=
  "[" +:+ String.concat ", " (failure_name <$> l) +:+ "]".

Fixpoint try_map {A B} (f : A → result B) (l : list A) : result (list B) :=
  match l with
  | [] => Ok []
  | a :: l => b ← f a; bs ← try_map f l; Ok (b :: bs)
  end.

Definition binding_unbound (by_predecessor : gmap GovernedOwnerRevisionRef Transition)
    (b : LongTermMemoryVersionTransitionBinding) : bool :=
  match by_predecessor !! tb_predecessor b with
  | None => true
  | Some t => negb (is_ok (transition_binding_validate_for b t))
  end.

Definition scope_manifest_build (memory_space_id factual_owner_id : string)
    (manifest_revision : N) (heads : list Head) (ms : list Material) (ts : list Transition)
    (bindings : list LongTermMemoryVersionTransitionBinding) (max_retained : N)
    : result LongTermMemoryVersionScopeManifest :=
  let validation := validate_scope_closure memory_space_id factual_owner_id heads ms ts
                      max_retained in
  _ ← ensure (negb ((manifest_revision =? 0) || negb (accepted validation)))
        (Config "long_term_version_scope_manifest"
           ("scope closure rejected: " +:+ debug_failures (failures validation)));
  head_bindings ← try_map binding_from_head heads;
  let head_bindings := sort head_bindings in
  _ ← ensure (negb (windows2_any (λ a b, bool_decide (hb_owner_ref a = hb_owner_ref b))
                      head_bindings))
        (Config "long_term_version_scope_manifest" "scope contains duplicate head bindings");
  let bindings := sort bindings in
  _ ← ensure (negb (negb (len bindings =? len ts)
                    || windows2_any (λ a b,
                         bool_decide (tb_predecessor a = tb_predecessor b)
                         || bool_decide (tb_control_revision_physical_key a
                                         = tb_control_revision_physical_key b)) bindings))
        (Config "long_term_version_scope_manifest"
           "transition bindings must be an exact unique set");
  let by_predecessor := collect_by t_predecessor ts in
  _ ← ensure (negb (negb (N.of_nat (size by_predecessor) =? len ts)
                    || existsb (binding_unbound by_predecessor) bindings))
        (Config "long_term_version_scope_manifest"
           "transition bindings differ from the exact transition closure");
  key ← long_term_version_scope_manifest_key memory_space_id factual_owner_id;
  head_count ← bounded_count "head_count" (len heads);
  material_count ← bounded_count "material_count" (len ms);
  transition_count ← bounded_count "transition_count" (len ts);
  digest ← scope_closure_digest memory_space_id factual_owner_id manifest_revision heads ms ts
             head_bindings bindings;
  Ok {| s_schema_version := LONG_TERM_MEMORY_VERSION_SCHEMA_VERSION; s_physical_key := key;
        s_memory_space_id := memory_space_id; s_factual_owner_id := factual_owner_id;
        s_manifest_revision := manifest_revision; s_head_bindings := head_bindings;
        s_transition_bindings := bindings; s_head_count := head_count;
        s_material_count := material_count; s_transition_count := transition_count;
        s_closure_digest := digest |}.

Definition validate_exact (s : LongTermMemoryVersionScopeManifest)
    (heads : list Head) (ms : list Material) (ts : list Transition)
    (bindings : list LongTermMemoryVersionTransitionBinding) (max_retained : N)
    : GovernedContractValidation :=
  let expected := scope_manifest_build (s_memory_space_id s) (s_factual_owner_id s)
                    (s_manifest_revision s) heads ms ts bindings max_retained in
  contract_validation
    (failures (validate_scope_closure (s_memory_space_id s) (s_factual_owner_id s)
                 heads ms ts max_retained)
     ++ push_if (match expected with
                 | Ok expected => negb (bool_decide (expected = s))
                 | Err _ => true
                 end) HeadManifestClosureMismatch).

End Version.
