(* ===== verification/LongTermClosure.v ===== *)
(** * Long-term memory: what an accepted closure is

    [validate_scope_closure] walks heads, materials and transitions with maps
    and sets; here it is shown to decide a declarative property, [scope_closed],
    which the theorems about versions use. *)

From S2P Require Import Prelude RustStr RustOrd Governed LongTermEntry LongTermVersion.

Local Open Scope string_scope.
Local Open Scope list_scope.
Local Open Scope N_scope.

Abbreviation Material := LongTermMemoryVersionMaterial (only parsing).
Abbreviation Transition := GovernedOwnerTransition (only parsing).
Abbreviation Head := LongTermMemoryHeadManifest (only parsing).
Abbreviation Ref := GovernedOwnerRevisionRef (only parsing).
Abbreviation DigestSet := (gset LongTermMemoryRetainedRevisionDigest) (only parsing).

Lemma failures_contract_nil l : failures (contract_validation l) = [] ↔ l = [].
Proof.
  rewrite <- (contract_validation_accepted l). unfold contract_validation, from_failures.
  cbn [failures accepted]. symmetry. apply bool_decide_eq_true.
Qed.

Lemma is_none_true {A} (o : option A) : is_none o = true ↔ o = None.
Proof. by destruct o. Qed.

Lemma not_none_false {A} (o : option A) : negb (is_none o) = false ↔ o = None.
Proof. by destruct o. Qed.

(** ** Indexing loops

    A loop that collects failures and inserts each element into a map, failing
    when its key is taken. *)
Section Index.
Context {K V : Type} `{Countable K} (key : V → K).

Lemma collect_insert (m : gmap K V) l k v :
  NoDup (key <$> l) → (∀ u, u ∈ l → m !! key u = None) →
  foldl (λ m v, <[key v := v]> m) m l !! k = Some v ↔
  m !! k = Some v ∨ (v ∈ l ∧ key v = k).
Proof.
  revert m. induction l as [|u l IH]; intros m Hnd Hm.
  - cbn. split; [by left|]. intros [?|[[]%not_elem_of_nil _]]. done.
  - cbn in *. apply NoDup_cons in Hnd as [Hu Hnd]. rewrite IH; [|done|].
    + destruct (decide (key u = k)) as [<-|Hk].
      * rewrite lookup_insert_eq. split.
        -- intros [[= <-]|[Hv Hk]]; right; (split; [|done]); [by left|by right].
        -- intros [Hs|[Hv Hk]]; [by rewrite Hm in Hs by (by left)|].
           apply elem_of_cons in Hv as [->|Hv]; [by left|].
           destruct Hu. rewrite <- Hk. by apply list_elem_of_fmap_2.
      * rewrite lookup_insert_ne by done. rewrite elem_of_cons. naive_solver.
    + intros w Hw. rewrite lookup_insert_ne; [apply Hm; by right|].
      intros E. destruct Hu. rewrite E. by apply list_elem_of_fmap_2.
Qed.

Lemma collect_lookup l k v :
  NoDup (key <$> l) → collect_by key l !! k = Some v ↔ v ∈ l ∧ key v = k.
Proof.
  intros Hnd. unfold collect_by. rewrite collect_insert by done.
  rewrite lookup_empty. naive_solver.
Qed.

Lemma collect_dom_gen (m : gmap K V) l :
  dom (foldl (λ m v, <[key v := v]> m) m l) = dom m ∪ list_to_set (key <$> l).
Proof.
  revert m. induction l as [|u l IH]; intros m; cbn; [set_solver|]. rewrite IH. set_solver.
Qed.

Lemma collect_dom l : dom (collect_by key l) = list_to_set (key <$> l).
Proof. unfold collect_by. rewrite collect_dom_gen. set_solver. Qed.

Lemma list_to_set_size (l : list K) :
  size (list_to_set l : gset K) = length l ↔ NoDup l.
Proof.
  split.
  - intros Hs. apply NoDup_ListNoDup. apply NoDup_incl_NoDup with (elements (list_to_set l : gset K)).
    + apply NoDup_ListNoDup, NoDup_elements.
    + unfold size, set_size in Hs. cbn in Hs. unfold compose in Hs. lia.
    + intros x Hx. apply list_elem_of_In in Hx. apply list_elem_of_In. set_solver.
  - apply size_list_to_set.
Qed.

(** [map.len() == slice.len()] says that the keys are distinct. *)
Lemma collect_size l : (N.of_nat (size (collect_by key l)) =? len l) = true ↔ NoDup (key <$> l).
Proof.
  rewrite N.eqb_eq. unfold len. rewrite <- (length_fmap key l), <- list_to_set_size.
  rewrite <- collect_dom, size_dom. lia.
Qed.

Lemma fold_index (g : list GovernedContractFailure * gmap K V → V →
                      list GovernedContractFailure * gmap K V)
    (bad : V → list GovernedContractFailure) (P : V → bool) F fs m l :
  (∀ fs m v, g (fs, m) v =
     (fs ++ bad v ++ push_if (P v || negb (is_none (m !! key v))) F,
      if P v then m else <[key v := v]> m)) →
  ((foldl g (fs, m) l).1 = [] ↔
   fs = [] ∧ (∀ v, v ∈ l → bad v = [] ∧ P v = false ∧ m !! key v = None) ∧ NoDup (key <$> l))
  ∧ ((foldl g (fs, m) l).1 = [] → (foldl g (fs, m) l).2 = foldl (λ m v, <[key v := v]> m) m l).
Proof.
  intros Hg. revert fs m. induction l as [|u l IH]; intros fs m.
  - cbn. split; [|done]. split; [|by intros [-> _]].
    intros ->. split_and!; [done| |constructor]. by intros v Hv%not_elem_of_nil.
  - cbn. rewrite Hg. destruct (P u) eqn:HPu.
    { destruct (IH (fs ++ bad u ++ push_if (true || negb (is_none (m !! key u))) F) m) as [H1 _].
      assert (Hno : ¬ (foldl g (fs ++ bad u ++ push_if (true || negb (is_none (m !! key u))) F, m) l).1 = []).
      { rewrite H1, !app_nil. by intros ((_ & _ & ?) & _). }
      split; [|done]. split; [done|]. intros (_ & Hl & _). destruct (Hl u) as (_ & HP & _); [by left|].
      congruence. }
    destruct (IH (fs ++ bad u ++ push_if (false || negb (is_none (m !! key u))) F)
                 (<[key u := u]> m)) as [H1 H2].
    split; [|exact H2]. rewrite H1. clear H1 H2. rewrite !app_nil, push_if_nil, orb_false_iff,
      not_none_false, NoDup_cons. split.
    + intros ((-> & Hb & HP & Hm) & Hl & Hnd). split_and!; [done| | |done].
      * intros v [->|Hv]%elem_of_cons; [done|]. destruct (Hl v Hv) as (?&?&Hk).
        split_and!; [done..|]. destruct (decide (key u = key v)) as [E|E].
        -- rewrite E, lookup_insert_eq in Hk. done.
        -- by rewrite lookup_insert_ne in Hk.
      * intros (v & Hk & Hv)%list_elem_of_fmap. destruct (Hl v Hv) as (?&?&Hk').
        by rewrite Hk, lookup_insert_eq in Hk'.
    + intros (-> & Hl & Hu & Hnd). destruct (Hl u) as (?&?&?); [by left|].
      split_and!; try done. intros v Hv. destruct (Hl v) as (?&?&?); [by right|].
      split_and!; [done..|]. rewrite lookup_insert_ne; [done|].
      intros E. destruct Hu. rewrite E. by apply list_elem_of_fmap_2.
Qed.

End Index.

Section Closure.
Context {vc : VersionCodec}.

Definition material_ok (m : Material) : Prop := accepted (validate_contract m) = true.
Definition head_ok (h : Head) : Prop := accepted (head_validate_contract h) = true.
Definition transition_ok (t : Transition) (pm : Material) (sm : option Material) : Prop :=
  accepted (transition_validate_contract t pm sm) = true.

Lemma material_ok_failures m : failures (validate_contract m) = [] ↔ material_ok m.
Proof.
  unfold material_ok, validate_contract.
  by rewrite failures_contract_nil, contract_validation_accepted.
Qed.
Lemma head_ok_failures h : failures (head_validate_contract h) = [] ↔ head_ok h.
Proof.
  unfold head_ok, head_validate_contract.
  by rewrite failures_contract_nil, contract_validation_accepted.
Qed.
Lemma transition_ok_failures t pm sm :
  failures (transition_validate_contract t pm sm) = [] ↔ transition_ok t pm sm.
Proof.
  unfold transition_ok, transition_validate_contract.
  by rewrite failures_contract_nil, contract_validation_accepted.
Qed.

(** The material of a revision. *)
Definition material_at (ms : list Material) (r : Ref) : option Material :=
  find (λ m, bool_decide (owner_revision_ref m = r)) ms.

Lemma material_at_spec ms r m :
  NoDup (owner_revision_ref <$> ms) →
  material_at ms r = Some m ↔ m ∈ ms ∧ owner_revision_ref m = r.
Proof.
  intros Hnd. unfold material_at. split.
  - intros [Hin Hb]%find_some. apply bool_decide_eq_true in Hb. by rewrite list_elem_of_In.
  - intros [Hin <-]. induction ms as [|a ms IH]; [by apply not_elem_of_nil in Hin|].
    cbn in Hnd |- *. apply NoDup_cons in Hnd as [Ha Hnd].
    apply elem_of_cons in Hin as [->|Hin]; [by rewrite bool_decide_eq_true_2|].
    rewrite bool_decide_eq_false_2; [by apply IH|].
    intros E. destruct Ha. rewrite E. by apply list_elem_of_fmap_2.
Qed.

Lemma by_ref_material_at ms r :
  NoDup (owner_revision_ref <$> ms) → collect_by owner_revision_ref ms !! r = material_at ms r.
Proof.
  intros Hnd. apply option_eq. intros m. by rewrite collect_lookup, material_at_spec.
Qed.

(** ** The declarative closure *)

Record scope_closed (memory_space_id factual_owner_id : string) (heads : list Head)
    (ms : list Material) (ts : list Transition) (max_retained : N) : Prop := {
  closed_scope : not_canonical memory_space_id = false ∧ factual_owner_id = memory_space_id
                 ∧ max_retained ≠ 0;
  closed_head h : h ∈ heads →
    head_ok h ∧ h_memory_space_id h = memory_space_id ∧ h_factual_owner_id h = factual_owner_id
    ∧ len (h_retained_revision_digests h) ≤ max_retained;
  closed_heads_unique : NoDup (h_owner_ref <$> heads);
  closed_count : len heads * max_retained ≤ usize_max ∧ len ms ≤ len heads * max_retained;
  closed_material m : m ∈ ms →
    material_ok m ∧ m_memory_space_id m = memory_space_id
    ∧ m_factual_owner_id m = factual_owner_id;
  closed_materials_unique : NoDup (owner_revision_ref <$> ms);
  closed_retained h d : h ∈ heads →
    d ∈ h_retained_revision_digests h ↔
    ∃ m, m ∈ ms ∧ m_owner_ref m = h_owner_ref h ∧ d = retained_digest m;
  closed_owned m : m ∈ ms → ∃ h, h ∈ heads ∧ h_owner_ref h = m_owner_ref m;
  closed_transitions_unique : NoDup (t_predecessor <$> ts);
  closed_contiguous h m : h ∈ heads → m ∈ ms → m_owner_ref m = h_owner_ref h →
    m_owner_revision m ≠ h_current_revision h →
    m_owner_revision m + 1 ≤ u64_max
    ∧ ∃ m', m' ∈ ms ∧ m_owner_ref m' = h_owner_ref h
            ∧ m_owner_revision m' = m_owner_revision m + 1;
  closed_expected r :
    r ∈ t_predecessor <$> ts ↔
    (∃ h, h ∈ heads ∧ h_terminal_transition_ref h = Some r)
    ∨ (∃ h m, h ∈ heads ∧ m ∈ ms ∧ m_owner_ref m = h_owner_ref h
              ∧ m_owner_revision m ≠ h_current_revision h ∧ r = owner_revision_ref m);
  closed_transition t : t ∈ ts →
    ∃ pm, pm ∈ ms ∧ owner_revision_ref pm = t_predecessor t
          ∧ transition_ok t pm (t_successor t ≫= material_at ms);
}.

(** ** The loops *)

Lemma closure_heads_spec memory_space_id factual_owner_id max_retained heads :
  (foldl (closure_heads memory_space_id factual_owner_id max_retained) ([], ∅) heads).1 = [] ↔
  (∀ h, h ∈ heads →
    head_ok h ∧ h_memory_space_id h = memory_space_id ∧ h_factual_owner_id h = factual_owner_id
    ∧ len (h_retained_revision_digests h) ≤ max_retained)
  ∧ NoDup (h_owner_ref <$> heads).
Proof.
  destruct (fold_index h_owner_ref (closure_heads memory_space_id factual_owner_id max_retained)
    (λ h, failures (head_validate_contract h))
    (λ h, negb (bool_decide (h_memory_space_id h = memory_space_id))
          || negb (bool_decide (h_factual_owner_id h = factual_owner_id))
          || (max_retained <? len (h_retained_revision_digests h)))
    HeadManifestClosureMismatch [] ∅ heads) as [H _]; [done|]. rewrite H. clear H.
  split.
  - intros (_ & Hl & Hnd). split; [|done]. intros h Hh. destruct (Hl h Hh) as (?&?&_).
    split_bool. by rewrite <- head_ok_failures.
  - intros [Hl Hnd]. split_and!; [done| |done]. intros h Hh. destruct (Hl h Hh) as (?&->&->&?).
    rewrite head_ok_failures. rewrite !bool_decide_eq_true_2 by done. cbn.
    split_and!; [done| |apply lookup_empty]. by apply N.ltb_ge.
Qed.

(** The material loop is the index of materials beside the digests by owner. *)
Definition digest_step (digests : gmap GovernedMemoryOwnerRef DigestSet) (m : Material) :=
  <[m_owner_ref m := {[retained_digest m]} ∪ default ∅ (digests !! m_owner_ref m)]> digests.

Definition index_material (memory_space_id factual_owner_id : string)
    (acc : list GovernedContractFailure * gmap Ref Material) (m : Material) :=
  let mismatch := negb (bool_decide (m_memory_space_id m = memory_space_id))
                  || negb (bool_decide (m_factual_owner_id m = factual_owner_id)) in
  (acc.1 ++ failures (validate_contract m)
   ++ push_if (mismatch || negb (is_none (acc.2 !! owner_revision_ref m)))
        HeadManifestClosureMismatch,
   if mismatch then acc.2 else <[owner_revision_ref m := m]> acc.2).

Lemma closure_materials_split memory_space_id factual_owner_id acc digests ms :
  foldl (closure_materials memory_space_id factual_owner_id) (acc, digests) ms
  = (foldl (index_material memory_space_id factual_owner_id) acc ms, foldl digest_step digests ms).
Proof.
  revert acc digests. induction ms as [|m ms IH]; intros [fs by_ref] digests; [reflexivity|].
  cbn [foldl]. rewrite <- IH. f_equal.
Qed.

Lemma index_material_spec memory_space_id factual_owner_id ms :
  ((foldl (index_material memory_space_id factual_owner_id) ([], ∅) ms).1 = [] ↔
   (∀ m, m ∈ ms → material_ok m ∧ m_memory_space_id m = memory_space_id
                  ∧ m_factual_owner_id m = factual_owner_id)
   ∧ NoDup (owner_revision_ref <$> ms))
  ∧ ((foldl (index_material memory_space_id factual_owner_id) ([], ∅) ms).1 = [] →
     (foldl (index_material memory_space_id factual_owner_id) ([], ∅) ms).2
     = collect_by owner_revision_ref ms).
Proof.
  destruct (fold_index owner_revision_ref (index_material memory_space_id factual_owner_id)
    (λ m, failures (validate_contract m))
    (λ m, negb (bool_decide (m_memory_space_id m = memory_space_id))
          || negb (bool_decide (m_factual_owner_id m = factual_owner_id)))
    HeadManifestClosureMismatch [] ∅ ms) as [H Hm]; [done|]. split; [|exact Hm].
  rewrite H. clear H Hm. split.
  - intros (_ & Hl & Hnd). split; [|done]. intros m Hm. destruct (Hl m Hm) as (?&?&_).
    split_bool. by rewrite <- material_ok_failures.
  - intros [Hl Hnd]. split_and!; [done| |done]. intros m Hm. destruct (Hl m Hm) as (?&->&->).
    rewrite material_ok_failures. rewrite !bool_decide_eq_true_2 by done. cbn.
    split_and!; [done|done|apply lookup_empty].
Qed.

Lemma digest_step_lookup digests ms o :
  default ∅ (foldl digest_step digests ms !! o)
  = default ∅ (digests !! o) ∪ list_to_set (retained_digest <$> owner_materials o ms).
Proof.
  revert digests. induction ms as [|m ms IH]; intros digests; [cbn; set_solver|].
  cbn. rewrite IH. unfold digest_step. destruct (decide (m_owner_ref m = o)) as [<-|Ho].
  - rewrite lookup_insert_eq, bool_decide_eq_true_2 by done. cbn. set_solver.
  - rewrite lookup_insert_ne, bool_decide_eq_false_2 by done. done.
Qed.

Lemma digest_step_dom digests ms :
  dom (foldl digest_step digests ms) =@{gset GovernedMemoryOwnerRef} dom digests ∪ list_to_set (m_owner_ref <$> ms).
Proof.
  revert digests. induction ms as [|m ms IH]; intros digests; [cbn; set_solver|].
  cbn. rewrite IH. unfold digest_step. set_solver.
Qed.

Lemma closure_retained_spec fs digests heads :
  NoDup (h_owner_ref <$> heads) →
  ((foldl closure_retained (fs, digests) heads).1 = [] ↔
   fs = [] ∧ ∀ h, h ∈ heads →
     (list_to_set (h_retained_revision_digests h) : DigestSet)
     = default ∅ (digests !! h_owner_ref h))
  ∧ dom (foldl closure_retained (fs, digests) heads).2
    =@{gset GovernedMemoryOwnerRef} dom digests ∖ list_to_set (h_owner_ref <$> heads).
Proof.
  revert fs digests. induction heads as [|h heads IH]; intros fs digests Hnd.
  - cbn. split; [|set_solver]. split; [|by intros [? _]]. intros ->. split; [done|].
    by intros h Hh%not_elem_of_nil.
  - cbn in Hnd |- *. apply NoDup_cons in Hnd as [Hh Hnd].
    edestruct IH as [IH1 IH2]; [done|]. split; [|rewrite IH2; set_solver].
    rewrite IH1. clear IH1 IH2. rewrite app_nil, push_if_nil, negb_false_iff,
      bool_decide_eq_true.
    assert (Hlook : ∀ h', h' ∈ heads →
        delete (h_owner_ref h) digests !! h_owner_ref h' = digests !! h_owner_ref h').
    { intros h' Hh'. rewrite lookup_delete_ne; [done|]. intros E. destruct Hh. rewrite E.
      by apply list_elem_of_fmap_2. }
    split.
    + intros [[-> H0] H]. split; [done|]. intros h' [->|Hh']%elem_of_cons; [done|].
      by rewrite H, Hlook.
    + intros [-> H]. split; [split; [done|]; apply H; by left|]. intros h' Hh'.
      rewrite Hlook by done. apply H. by right.
Qed.

Lemma closure_transitions_spec ts :
  ((foldl closure_transitions ([], ∅) ts).1 = [] ↔
   (∀ t, t ∈ ts → revision_ref_is_valid (t_predecessor t) = true)
   ∧ NoDup (t_predecessor <$> ts))
  ∧ ((foldl closure_transitions ([], ∅) ts).1 = [] →
     (foldl closure_transitions ([], ∅) ts).2 = collect_by t_predecessor ts).
Proof.
  destruct (fold_index t_predecessor closure_transitions (λ _, [])
    (λ t, negb (revision_ref_is_valid (t_predecessor t)))
    HeadManifestClosureMismatch [] ∅ ts) as [H Hm]; [done|]. split; [|exact Hm].
  rewrite H. clear H Hm. split.
  - intros (_ & Hl & Hnd). split; [|done]. intros t Ht. destruct (Hl t Ht) as (_&?&_).
    by split_bool.
  - intros [Hl Hnd]. split_and!; [done| |done]. intros t Ht. rewrite (Hl t Ht).
    split_and!; [done|done|apply lookup_empty].
Qed.

(** ** Windows over the revisions of an owner *)

Lemma u64_next_spec a b :
  negb (opt_any (λ revision, revision =? b) (u64_checked_add a 1)) = false ↔
  a + 1 ≤ u64_max ∧ b = a + 1.
Proof.
  rewrite negb_false_iff. unfold u64_checked_add. destruct (a + 1 <=? u64_max) eqn:E; cbn; split_bool.
  - rewrite N.eqb_eq. lia.
  - split; [done|lia].
Qed.

Lemma closure_windows_fst acc l :
  (closure_windows acc l).1 = [] ↔
  acc.1 = [] ∧ windows2_any (λ a b, negb (opt_any (λ revision, revision =? m_owner_revision b)
                                      (u64_checked_add (m_owner_revision a) 1))) l = false.
Proof.
  revert acc. induction l as [|a [|b l] IH]; intros acc; [cbn; tauto..|].
  change (closure_windows acc (a :: b :: l)) with
    (closure_windows
        (acc.1 ++ push_if (negb (opt_any (λ revision, revision =? m_owner_revision b)
                                   (u64_checked_add (m_owner_revision a) 1))) LineageGap,
         {[owner_revision_ref a]} ∪ acc.2) (b :: l)).
  rewrite IH. cbn [fst]. rewrite app_nil, push_if_nil.
  cbn [windows2_any]. rewrite orb_false_iff. tauto.
Qed.

Lemma closure_windows_snd acc l r :
  r ∈ (closure_windows acc l).2 ↔ r ∈ acc.2 ∨ ∃ m, m ∈ removelast l ∧ r = owner_revision_ref m.
Proof.
  revert acc. induction l as [|a [|b l] IH]; intros acc.
  - cbn. setoid_rewrite elem_of_nil. naive_solver.
  - cbn. setoid_rewrite elem_of_nil. naive_solver.
  - change (closure_windows acc (a :: b :: l)) with
    (closure_windows
        (acc.1 ++ push_if (negb (opt_any (λ revision, revision =? m_owner_revision b)
                                   (u64_checked_add (m_owner_revision a) 1))) LineageGap,
         {[owner_revision_ref a]} ∪ acc.2) (b :: l)).
    change (removelast (a :: b :: l)) with (a :: removelast (b :: l)).
    rewrite IH. cbn [snd]. setoid_rewrite elem_of_cons. rewrite elem_of_union, elem_of_singleton.
    naive_solver.
Qed.

#[local] Notation by_revision := (λ a b : Material, leb (m_owner_revision a) (m_owner_revision b)).

(** The revisions of an owner in order, without repetition. *)
Lemma retained_sorted ms o :
  NoDup (owner_revision_ref <$> ms) →
  let l := sort_by by_revision (owner_materials o ms) in
  StronglySorted (λ a b, m_owner_revision a < m_owner_revision b) l
  ∧ (∀ m, m ∈ l ↔ m ∈ ms ∧ m_owner_ref m = o).
Proof.
  intros Hnd l. assert (Hin : ∀ m, m ∈ l ↔ m ∈ ms ∧ m_owner_ref m = o).
  { intros m. unfold l. rewrite sort_by_perm. unfold owner_materials.
    rewrite elem_of_List_filter, bool_decide_eq_true. tauto. }
  split; [|exact Hin].
  assert (Hnd' : NoDup (m_owner_revision <$> owner_materials o ms)).
  { unfold owner_materials. clear -Hnd.
    induction ms as [|a ms IH]; [constructor|]. cbn in *. apply NoDup_cons in Hnd as [Ha Hnd].
    case_bool_decide as Ho; [|by apply IH]. cbn. apply NoDup_cons. split; [|by apply IH].
    intros (b & E & [Hb%bool_decide_eq_true Hin]%elem_of_List_filter)%list_elem_of_fmap.
    destruct Ha. apply list_elem_of_fmap. exists b. split; [|done].
    unfold owner_revision_ref. by rewrite Ho, Hb, E. }
  pose proof (sort_by_key_strict m_owner_revision _ Hnd') as Hs. fold l in Hs. revert Hs. clear.
  induction 1 as [|a l' Hl IH Ha]; constructor; [done|].
  eapply Forall_impl; [exact Ha|]. intros b Hb. cbn in Hb. by apply N.compare_lt_iff in Hb.
Qed.

#[local] Notation ascending :=
  (StronglySorted (λ a b : Material, m_owner_revision a < m_owner_revision b)).

(** In an ascending list whose greatest revision is [c], all but the last are
    the materials below [c]. *)
Lemma removelast_below l c m :
  ascending l → (∃ x, x ∈ l ∧ m_owner_revision x = c) →
  (∀ x, x ∈ l → m_owner_revision x ≤ c) →
  m ∈ removelast l ↔ m ∈ l ∧ m_owner_revision m ≠ c.
Proof.
  induction 1 as [|a l Hl IH Ha]; intros (x & Hx & <-) Hle; [by apply not_elem_of_nil in Hx|].
  rewrite Forall_forall in Ha. destruct l as [|b l].
  - apply list_elem_of_singleton in Hx as ->. cbn. rewrite list_elem_of_singleton.
    setoid_rewrite elem_of_nil. naive_solver.
  - assert (Hax : m_owner_revision a < m_owner_revision x).
    { pose proof (Ha b ltac:(by left)) as Hab. cbn in Hab.
      pose proof (Hle b ltac:(right; by left)). lia. }
    change (removelast (a :: b :: l)) with (a :: removelast (b :: l)). rewrite elem_of_cons.
    rewrite IH.
    + rewrite (elem_of_cons (b :: l)). split; [|tauto]. intros [->|?]; [|tauto]. split; [by left|lia].
    + exists x. split; [|done]. apply elem_of_cons in Hx as [->|Hx]; [lia|done].
    + intros y Hy. apply Hle. by right.
Qed.

(** Windows without a gap are an interval of revisions. *)
Lemma windows_contiguous l c :
  ascending l → (∃ x, x ∈ l ∧ m_owner_revision x = c) →
  (∀ x, x ∈ l → m_owner_revision x ≤ c) →
  windows2_any (λ a b, negb (opt_any (λ revision, revision =? m_owner_revision b)
                         (u64_checked_add (m_owner_revision a) 1))) l = false ↔
  ∀ m, m ∈ l → m_owner_revision m ≠ c →
    m_owner_revision m + 1 ≤ u64_max
    ∧ ∃ m', m' ∈ l ∧ m_owner_revision m' = m_owner_revision m + 1.
Proof.
  induction 1 as [|a l Hl IH Ha]; intros (x & Hx & <-) Hle; [by apply not_elem_of_nil in Hx|].
  rewrite Forall_forall in Ha. destruct l as [|b l].
  - apply list_elem_of_singleton in Hx as ->. cbn. split; [|done].
    intros _ m Hm%list_elem_of_singleton. by subst.
  - pose proof (Ha b ltac:(by left)) as Hab. cbn in Hab.
    assert (Hax : m_owner_revision a < m_owner_revision x).
    { pose proof (Hle b ltac:(right; by left)). lia. }
    assert (Hxl : x ∈ b :: l) by (apply elem_of_cons in Hx as [->|Hx]; [lia|done]).
    cbn [windows2_any]. rewrite orb_false_iff, u64_next_spec, IH; [|by eauto|].
    2:{ intros y Hy. apply Hle. by right. }
    split.
    + intros [[Hb Hab'] Hrest] m [->|Hm]%elem_of_cons Hne.
      * split; [done|]. exists b. split; [right; by left|done].
      * destruct (Hrest m Hm Hne) as [? (m' & Hm' & ?)]. split; [done|]. exists m'.
        split; [by right|done].
    + intros Hall. split.
      * destruct (Hall a ltac:(by left) ltac:(lia)) as [Hmax (m' & Hm' & E)]. split; [done|].
        apply elem_of_cons in Hm' as [->|Hm']; [lia|].
        apply elem_of_cons in Hm' as [->|Hm']; [done|].
        apply StronglySorted_inv in Hl as [_ Hb]. rewrite Forall_forall in Hb.
        specialize (Hb m' Hm'). cbn in Hb. lia.
      * intros m Hm Hne. destruct (Hall m ltac:(by right) Hne) as [? (m' & Hm' & E)].
        split; [done|]. exists m'. split; [|done].
        apply elem_of_cons in Hm' as [->|Hm']; [|done].
        assert (m_owner_revision a < m_owner_revision m) by (apply (Ha m); done). lia.
Qed.

(** ** Heads *)

Lemma head_ok_inv h :
  head_ok h →
  h_schema_version h = LONG_TERM_MEMORY_VERSION_SCHEMA_VERSION
  ∧ not_canonical (h_memory_space_id h) = false ∧ h_factual_owner_id h = h_memory_space_id h
  ∧ owner_plane (h_owner_ref h) = LongTerm ∧ owner_ref_is_valid (h_owner_ref h) = true
  ∧ h_current_revision h ≠ 0 ∧ h_manifest_revision h ≠ 0
  ∧ (∀ d, d ∈ h_retained_revision_digests h →
       rd_owner_revision d ≠ 0 ∧ is_lowercase_sha256 (rd_content_digest d) = true)
  ∧ last (head_revisions h) = Some (h_current_revision h)
  ∧ StronglySorted (λ a b, cmp a b = Lt) (head_revisions h)
  ∧ (∀ r, h_terminal_transition_ref h = Some r →
       r = mkRevisionRef (h_owner_ref h) (h_current_revision h)).
Proof.
  unfold head_ok, head_validate_contract. rewrite contract_validation_accepted, !app_nil, !push_if_nil.
  intros (H1 & H2 & H3). split_bool. split_and!; try done.
  - intros d Hd. assert (He : ((rd_owner_revision d =? 0)
      || negb (is_lowercase_sha256 (rd_content_digest d))) = false).
    { apply not_true_iff_false. intros He. match goal with H : existsb _ _ = false |- _ =>
        apply not_true_iff_false in H; destruct H; apply existsb_exists end.
      exists d. by rewrite <- list_elem_of_In. }
    by split_bool.
  - by apply windows_strict.
  - intros r Hr. match goal with H : opt_any _ _ = false |- _ => rewrite Hr in H; cbn in H end.
    split_bool. destruct r. cbn in *. by subst.
Qed.

Lemma head_ok_intro h :
  h_schema_version h = LONG_TERM_MEMORY_VERSION_SCHEMA_VERSION →
  not_canonical (h_memory_space_id h) = false → h_factual_owner_id h = h_memory_space_id h →
  owner_plane (h_owner_ref h) = LongTerm → owner_ref_is_valid (h_owner_ref h) = true →
  h_manifest_revision h ≠ 0 →
  (∀ d, d ∈ h_retained_revision_digests h →
       rd_owner_revision d ≠ 0 ∧ is_lowercase_sha256 (rd_content_digest d) = true) →
  last (head_revisions h) = Some (h_current_revision h) →
  StronglySorted (λ a b, cmp a b = Lt) (head_revisions h) →
  (∀ r, h_terminal_transition_ref h = Some r →
       r = mkRevisionRef (h_owner_ref h) (h_current_revision h)) →
  head_ok h.
Proof.
  intros H1 H2 H3 H4 H5 H6 H7 H8 H9 H10.
  assert (Hcur : h_current_revision h ∈ head_revisions h) by by apply last_Some_elem_of.
  assert (H0 : h_current_revision h ≠ 0).
  { unfold head_revisions in Hcur. apply list_elem_of_fmap in Hcur as (d & -> & Hd).
    by apply H7. }
  unfold head_ok, head_validate_contract.
  rewrite contract_validation_accepted, !app_nil, !push_if_nil. split_and!.
  - rewrite H1, H3, H2, H4, H5, !bool_decide_eq_true_2, N.eqb_refl by done. cbn.
    by rewrite !(proj2 (N.eqb_neq _ _)).
  - rewrite bool_decide_eq_true_2 by done. apply orb_false_iff. split; [|done].
    apply orb_false_iff. split.
    + apply negb_false_iff, N.eqb_eq. unfold len. f_equal.
      rewrite <- (length_fmap rd_owner_revision). apply list_to_set_size. by apply strict_NoDup.
    + apply not_true_iff_false. intros (d & Hd & Hb)%existsb_exists.
      apply list_elem_of_In, H7 in Hd as [Hd1 Hd2].
      by rewrite Hd2, (proj2 (N.eqb_neq _ _)) in Hb.
  - rewrite bool_decide_eq_true_2 by done. rewrite (proj2 (windows_strict _)) by done.
    destruct (h_terminal_transition_ref h) as [r|]; [|done]. rewrite (H10 r eq_refl). cbn.
    rewrite bool_decide_eq_true_2, N.eqb_refl by done. unfold revision_ref_is_valid. cbn.
    rewrite H5. by rewrite (proj2 (N.ltb_lt _ _)) by lia.
Qed.

(** The current revision is the greatest of the retained ones. *)
Lemma head_current_greatest h r :
  head_ok h → r ∈ head_revisions h → r ≤ h_current_revision h.
Proof.
  intros Hok. apply head_ok_inv in Hok as (_&_&_&_&_&_&_&_&Hlast&Hs&_). revert Hs Hlast.
  generalize (h_current_revision h). intros c. induction 1 as [|a l Hl IH Ha]; [done|].
  intros Hlast [->|Hr]%elem_of_cons.
  - destruct l as [|b l]; [cbn in Hlast; injection Hlast as ->; lia|].
    rewrite Forall_forall in Ha. assert (c ∈ b :: l) as Hc.
    { change (last (a :: b :: l)) with (last (b :: l)) in Hlast. by apply last_Some_elem_of. }
    assert (a < c) by exact (Ha c Hc). lia.
  - destruct l as [|b l]; [by apply not_elem_of_nil in Hr|]. by apply IH.
Qed.

Lemma head_current_retained h : head_ok h → h_current_revision h ∈ head_revisions h.
Proof.
  intros (_&_&_&_&_&_&_&_&Hlast&_&_)%head_ok_inv. by apply last_Some_elem_of.
Qed.

(** ** Expected transitions *)

Definition sorted_owned (o : GovernedMemoryOwnerRef) (ms : list Material) : list Material :=
  sort_by by_revision (owner_materials o ms).

Lemma closure_expected_fst ms acc heads :
  (foldl (closure_expected ms) acc heads).1 = [] ↔
  acc.1 = [] ∧ ∀ h, h ∈ heads →
    windows2_any (λ a b, negb (opt_any (λ revision, revision =? m_owner_revision b)
      (u64_checked_add (m_owner_revision a) 1))) (sorted_owned (h_owner_ref h) ms) = false.
Proof.
  revert acc. induction heads as [|h heads IH]; intros acc.
  - cbn. split; [|by intros []]. intros ?. split; [done|]. by intros h Hh%not_elem_of_nil.
  - cbn [foldl]. rewrite IH. unfold closure_expected. fold (sorted_owned (h_owner_ref h) ms).
    destruct (closure_windows acc _) as [fs expected] eqn:E. cbn [fst].
    pose proof (closure_windows_fst acc (sorted_owned (h_owner_ref h) ms)) as Hfs.
    rewrite E in Hfs. cbn [fst] in Hfs. rewrite Hfs. setoid_rewrite elem_of_cons. naive_solver.
Qed.

Lemma closure_expected_snd ms acc heads r :
  r ∈ (foldl (closure_expected ms) acc heads).2 ↔
  r ∈ acc.2 ∨ (∃ h, h ∈ heads ∧ h_terminal_transition_ref h = Some r)
  ∨ (∃ h m, h ∈ heads ∧ m ∈ removelast (sorted_owned (h_owner_ref h) ms)
            ∧ r = owner_revision_ref m).
Proof.
  revert acc. induction heads as [|h heads IH]; intros acc.
  - cbn. setoid_rewrite elem_of_nil. naive_solver.
  - cbn [foldl]. rewrite IH. clear IH. unfold closure_expected. fold (sorted_owned (h_owner_ref h) ms).
    destruct (closure_windows acc _) as [fs expected] eqn:E. cbn [snd].
    pose proof (closure_windows_snd acc (sorted_owned (h_owner_ref h) ms) r) as He.
    rewrite E in He. cbn [snd] in He.
    setoid_rewrite elem_of_cons.
    assert (Ht : r ∈ match h_terminal_transition_ref h with
                     | Some r => {[r]} ∪ expected | None => expected end
                 ↔ r ∈ expected ∨ h_terminal_transition_ref h = Some r).
    { destruct (h_terminal_transition_ref h) as [r'|]; [|naive_solver].
      rewrite elem_of_union, elem_of_singleton. naive_solver. }
    rewrite Ht, He. split.
    + intros [[[?|(m & ? & ?)]|?]|[(h' & ? & ?)|(h' & m & ? & ? & ?)]]; [by left|..];
        right; [right|left|left|right]; eauto 10.
    + intros [?|[(h' & [->|?] & ?)|(h' & m & [->|?] & ? & ?)]]; eauto 10.
Qed.

Lemma closure_pairs_spec by_ref by_predecessor (l : list Ref) :
  concat (closure_transition_at by_ref by_predecessor <$> l) = [] ↔
  ∀ r, r ∈ l → ∃ pm t, by_ref !! r = Some pm ∧ by_predecessor !! r = Some t
    ∧ transition_ok t pm (t_successor t ≫= λ s, by_ref !! s).
Proof.
  induction l as [|r l IH].
  - cbn. split; [|done]. by intros _ r Hr%not_elem_of_nil.
  - cbn. rewrite app_nil, IH. setoid_rewrite elem_of_cons. unfold closure_transition_at.
    split.
    + intros [H Hl] r' [->|Hr']; [|by apply Hl].
      destruct (by_ref !! r) as [pm|]; [|done]. destruct (by_predecessor !! r) as [t|]; [|done].
      apply transition_ok_failures in H. eauto.
    + intros Hl. split; [|by eauto]. destruct (Hl r) as (pm & t & -> & -> & H); [by left|].
      by apply transition_ok_failures.
Qed.

(** Under the other clauses, the windows of an owner are an interval ending at
    the current revision, and all but the last are the superseded ones. *)
Section Owner.
Context (heads : list Head) (ms : list Material).
Hypothesis Hunique : NoDup (owner_revision_ref <$> ms).
Hypothesis Hheads : ∀ h, h ∈ heads → head_ok h.
Hypothesis Hretained : ∀ h d, h ∈ heads →
    d ∈ h_retained_revision_digests h ↔
    ∃ m, m ∈ ms ∧ m_owner_ref m = h_owner_ref h ∧ d = retained_digest m.

Lemma owned_revision_retained h m :
  h ∈ heads → m ∈ ms → m_owner_ref m = h_owner_ref h → m_owner_revision m ∈ head_revisions h.
Proof using Hretained.
  intros Hh Hm Ho. unfold head_revisions. apply list_elem_of_fmap. exists (retained_digest m).
  split; [done|]. apply Hretained; eauto.
Qed.

Lemma owned_current h :
  h ∈ heads → ∃ m, m ∈ ms ∧ m_owner_ref m = h_owner_ref h
                   ∧ m_owner_revision m = h_current_revision h.
Proof using Hretained Hheads.
  intros Hh. pose proof (head_current_retained h (Hheads h Hh)) as Hc.
  unfold head_revisions in Hc. apply list_elem_of_fmap in Hc as (d & Hd & Hin).
  apply Hretained in Hin as (m & Hm & Ho & ->); [|done]. exists m. by rewrite Hd.
Qed.

Lemma owned_sorted h :
  h ∈ heads →
  ascending (sorted_owned (h_owner_ref h) ms)
  ∧ (∃ x, x ∈ sorted_owned (h_owner_ref h) ms ∧ m_owner_revision x = h_current_revision h)
  ∧ (∀ x, x ∈ sorted_owned (h_owner_ref h) ms → m_owner_revision x ≤ h_current_revision h)
  ∧ (∀ m, m ∈ sorted_owned (h_owner_ref h) ms ↔ m ∈ ms ∧ m_owner_ref m = h_owner_ref h).
Proof using Hunique Hheads Hretained.
  intros Hh. destruct (retained_sorted ms (h_owner_ref h) Hunique) as [Hs Hin].
  split_and!; [exact Hs| | |exact Hin].
  - destruct (owned_current h Hh) as (m & Hm & Ho & Hr). exists m. by rewrite Hin.
  - intros x [Hx Ho]%Hin. apply head_current_greatest; [by apply Hheads|].
    by apply owned_revision_retained.
Qed.

Lemma owned_contiguous h :
  h ∈ heads →
  windows2_any (λ a b, negb (opt_any (λ revision, revision =? m_owner_revision b)
      (u64_checked_add (m_owner_revision a) 1))) (sorted_owned (h_owner_ref h) ms) = false ↔
  ∀ m, m ∈ ms → m_owner_ref m = h_owner_ref h → m_owner_revision m ≠ h_current_revision h →
    m_owner_revision m + 1 ≤ u64_max
    ∧ ∃ m', m' ∈ ms ∧ m_owner_ref m' = h_owner_ref h
            ∧ m_owner_revision m' = m_owner_revision m + 1.
Proof using Hunique Hheads Hretained.
  intros Hh. destruct (owned_sorted h Hh) as (Hs & Hc & Hle & Hin).
  rewrite (windows_contiguous _ (h_current_revision h)) by done. split.
  - intros H m Hm Ho Hne. destruct (H m) as [? (m' & Hm' & ?)]; [by apply Hin|done|].
    apply Hin in Hm' as [??]. eauto.
  - intros H m [Hm Ho]%Hin Hne. destruct (H m Hm Ho Hne) as [? (m' & ? & ? & ?)].
    split; [done|]. exists m'. by rewrite Hin.
Qed.

Lemma owned_superseded h m :
  h ∈ heads →
  m ∈ removelast (sorted_owned (h_owner_ref h) ms) ↔
  m ∈ ms ∧ m_owner_ref m = h_owner_ref h ∧ m_owner_revision m ≠ h_current_revision h.
Proof using Hunique Hheads Hretained.
  intros Hh. destruct (owned_sorted h Hh) as (Hs & Hc & Hle & Hin).
  rewrite (removelast_below _ (h_current_revision h)) by done. rewrite Hin. tauto.
Qed.

End Owner.

(** ** The validator decides the closure *)

(** Digest sets by owner, as the relation they are. *)
Lemma retained_sets (heads : list Head) (ms : list Material) :
  (∀ h, h ∈ heads →
     (list_to_set (h_retained_revision_digests h) : DigestSet)
     = default ∅ (foldl digest_step ∅ ms !! h_owner_ref h)) ↔
  (∀ h d, h ∈ heads →
    d ∈ h_retained_revision_digests h ↔
    ∃ m, m ∈ ms ∧ m_owner_ref m = h_owner_ref h ∧ d = retained_digest m).
Proof.
  assert (Hset : ∀ h d, d ∈ default ∅ (foldl digest_step ∅ ms !! h_owner_ref h) ↔
     ∃ m, m ∈ ms ∧ m_owner_ref m = h_owner_ref h ∧ d = retained_digest m).
  { intros h d. rewrite digest_step_lookup, lookup_empty. cbn.
    rewrite elem_of_union, elem_of_list_to_set, list_elem_of_fmap.
    unfold owner_materials. setoid_rewrite elem_of_List_filter.
    setoid_rewrite bool_decide_eq_true. set_solver. }
  split.
  - intros H h d Hh. rewrite <- Hset, <- (H h Hh). by rewrite elem_of_list_to_set.
  - intros H h Hh. apply set_eq. intros d. by rewrite elem_of_list_to_set, Hset, H.
Qed.

Lemma owners_covered (heads : list Head) (ms : list Material) :
  dom (foldl digest_step ∅ ms) ∖ list_to_set (h_owner_ref <$> heads)
  =@{gset GovernedMemoryOwnerRef} ∅ ↔
  ∀ m, m ∈ ms → ∃ h, h ∈ heads ∧ h_owner_ref h = m_owner_ref m.
Proof.
  rewrite digest_step_dom. split.
  - intros H m Hm. assert (m_owner_ref m ∈ (list_to_set (h_owner_ref <$> heads)
      : gset GovernedMemoryOwnerRef)) as Hin.
    { destruct (decide (m_owner_ref m ∈ (list_to_set (h_owner_ref <$> heads)
        : gset GovernedMemoryOwnerRef))) as [|Hn]; [done|].
      destruct (not_elem_of_empty (C := gset GovernedMemoryOwnerRef) (m_owner_ref m)).
      rewrite <- H. apply elem_of_difference. split; [|done].
      apply elem_of_union_r, elem_of_list_to_set. by apply list_elem_of_fmap_2. }
    apply elem_of_list_to_set, list_elem_of_fmap in Hin as (h & E & Hh). eauto.
  - intros H. apply set_eq. intros o. split; [|set_solver].
    intros [[Ho|Ho]%elem_of_union Hn]%elem_of_difference; [set_solver|].
    apply elem_of_list_to_set, list_elem_of_fmap in Ho as (m & -> & Hm).
    destruct (H m Hm) as (h & Hh & E). destruct Hn. apply elem_of_list_to_set.
    rewrite <- E. by apply list_elem_of_fmap_2.
Qed.

Lemma expected_set (heads : list Head) (ms : list Material) (r : Ref) :
  NoDup (owner_revision_ref <$> ms) → (∀ h, h ∈ heads → head_ok h) →
  (∀ h d, h ∈ heads →
    d ∈ h_retained_revision_digests h ↔
    ∃ m, m ∈ ms ∧ m_owner_ref m = h_owner_ref h ∧ d = retained_digest m) →
  r ∈ (foldl (closure_expected ms) ([], ∅) heads).2 ↔
  (∃ h, h ∈ heads ∧ h_terminal_transition_ref h = Some r)
  ∨ (∃ h m, h ∈ heads ∧ m ∈ ms ∧ m_owner_ref m = h_owner_ref h
            ∧ m_owner_revision m ≠ h_current_revision h ∧ r = owner_revision_ref m).
Proof.
  intros Hu Hh Hr. rewrite closure_expected_snd. cbn. split.
  - intros [[]%not_elem_of_empty|[?|(h & m & Hin & Hm & ->)]]; [by left|].
    right. exists h, m. rewrite (owned_superseded heads) in Hm by done. naive_solver.
  - intros [?|(h & m & Hin & ? & ? & ? & ->)]; [by eauto|]. right. right. exists h, m.
    rewrite (owned_superseded heads) by done. naive_solver.
Qed.

Section Decision.
Context (memory_space_id factual_owner_id : string).
Context (heads : list Head) (ms : list Material) (ts : list Transition) (max_retained : N).

(** The transition part, given the rest. *)
Definition transitions_closed : Prop :=
  NoDup (t_predecessor <$> ts)
  ∧ (∀ r, r ∈ t_predecessor <$> ts ↔
      (∃ h, h ∈ heads ∧ h_terminal_transition_ref h = Some r)
      ∨ (∃ h m, h ∈ heads ∧ m ∈ ms ∧ m_owner_ref m = h_owner_ref h
                ∧ m_owner_revision m ≠ h_current_revision h ∧ r = owner_revision_ref m))
  ∧ (∀ t, t ∈ ts → ∃ pm, pm ∈ ms ∧ owner_revision_ref pm = t_predecessor t
          ∧ transition_ok t pm (t_successor t ≫= material_at ms)).

Lemma transition_ok_predecessor t pm sm :
  transition_ok t pm sm → revision_ref_is_valid (t_predecessor t) = true.
Proof.
  unfold transition_ok, transition_validate_contract.
  rewrite contract_validation_accepted, !app_nil, !push_if_nil. intros (_ & H & _). by split_bool.
Qed.

Lemma transitions_closed_spec :
  NoDup (owner_revision_ref <$> ms) → (∀ h, h ∈ heads → head_ok h) →
  (∀ h d, h ∈ heads →
    d ∈ h_retained_revision_digests h ↔
    ∃ m, m ∈ ms ∧ m_owner_ref m = h_owner_ref h ∧ d = retained_digest m) →
  let expected := (foldl (closure_expected ms) ([], ∅) heads).2 in
  ((∀ t, t ∈ ts → revision_ref_is_valid (t_predecessor t) = true)
   ∧ NoDup (t_predecessor <$> ts)
   ∧ expected = dom (collect_by t_predecessor ts)
   ∧ concat (closure_transition_at (collect_by owner_revision_ref ms)
               (collect_by t_predecessor ts) <$> sort (elements expected)) = []) ↔
  transitions_closed.
Proof.
  intros Hu Hh Hr expected. rewrite collect_dom, closure_pairs_spec.
  assert (Hex : ∀ r, r ∈ expected ↔ _) by (intros r; by apply expected_set).
  assert (Hsort : ∀ r, r ∈ sort (elements expected) ↔ r ∈ expected).
  { intros r. by rewrite sort_perm, elem_of_elements. }
  assert (Hat : ∀ s : option Ref, (s ≫= λ r, collect_by owner_revision_ref ms !! r)
                                  = s ≫= material_at ms).
  { intros [r|]; [|done]. cbn. by apply by_ref_material_at. }
  unfold transitions_closed. split.
  - intros (_ & Hnd & Heq & Hp). split_and!; [done| |].
    + intros r. rewrite <- Hex, Heq. by rewrite elem_of_list_to_set.
    + intros t Ht. destruct (Hp (t_predecessor t)) as (pm & t' & Hpm & Ht' & Hok).
      { apply Hsort. rewrite Heq, elem_of_list_to_set. by apply list_elem_of_fmap_2. }
      apply collect_lookup in Hpm as [? ?]; [|done].
      rewrite (proj2 (collect_lookup t_predecessor ts _ t Hnd)) in Ht' by done.
      injection Ht' as <-. rewrite Hat in Hok. eauto.
  - intros (Hnd & Hiff & Hok).
    assert (Heq : expected = list_to_set (t_predecessor <$> ts)).
    { apply set_eq. intros r. by rewrite Hex, <- Hiff, elem_of_list_to_set. }
    split_and!; [|done|done|].
    + intros t Ht. destruct (Hok t Ht) as (pm & _ & _ & H). by eapply transition_ok_predecessor.
    + intros r Hr'%Hsort. rewrite Heq, elem_of_list_to_set in Hr'.
      apply list_elem_of_fmap in Hr' as (t & -> & Ht). destruct (Hok t Ht) as (pm & Hin & E & H).
      exists pm, t. rewrite Hat. split_and!; [|by apply collect_lookup|done].
      by apply collect_lookup.
Qed.

(** The loops compute [scope_closed]. *)
Lemma scope_closure_decides :
  accepted (validate_scope_closure memory_space_id factual_owner_id heads ms ts max_retained)
  = true ↔ scope_closed memory_space_id factual_owner_id heads ms ts max_retained.
Proof.
  unfold validate_scope_closure.
  pose proof (closure_heads_spec memory_space_id factual_owner_id max_retained heads) as Hheads.
  destruct (foldl (closure_heads _ _ _) _ heads) as [fh mh]. cbn [fst] in Hheads.
  rewrite (closure_materials_split memory_space_id factual_owner_id ([], ∅) ∅ ms).
  destruct (index_material_spec memory_space_id factual_owner_id ms) as [Hms Hby].
  destruct (foldl (index_material _ _) _ ms) as [fm by_ref]. cbn [fst snd] in Hms, Hby.
  pose proof (closure_retained_spec [] (foldl digest_step ∅ ms) heads) as Hret.
  destruct (foldl closure_retained _ heads) as [fr digests]. cbn [fst snd] in Hret.
  destruct (closure_transitions_spec ts) as [Hts Hbp].
  destruct (foldl closure_transitions _ ts) as [ft bp]. cbn [fst snd] in Hts, Hbp.
  destruct (decide (fm = [] ∧ ft = [])) as [[Hfm0 Hft0]|Hno].
  2: { split.
       - destruct (foldl (closure_expected ms) _ heads) as [fw expected].
         rewrite contract_validation_accepted, !app_nil. tauto.
       - intros [_ _ _ _ Hm Hmu _ _ Htu _ _ Htok]. destruct Hno.
         split; [by apply Hms|]. apply Hts. split; [|done]. intros t Ht.
         destruct (Htok t Ht) as (pm & _ & _ & H). by eapply transition_ok_predecessor. }
  rewrite (Hby Hfm0), (Hbp Hft0). clear Hby Hbp Hfm0 Hft0.
  pose proof (closure_expected_fst ms ([], ∅) heads) as Hwin.
  pose proof transitions_closed_spec as Htr.
  destruct (foldl (closure_expected ms) _ heads) as [fw expected]. cbn [fst snd] in Hwin, Htr.
  rewrite contract_validation_accepted, !app_nil, !push_if_nil, !orb_false_iff, !negb_false_iff,
    !bool_decide_eq_true, Hheads, Hms, Hwin, N.eqb_neq, !N.ltb_ge.
  split.
  - intros ((((Hc & _) & Hs) & Hmax) & (Hh & Hhu) & Hcount & (Hm & Hmu) & Hfr & Hdig & Hft
            & (_ & Hw) & Hpres & Hpairs).
    destruct (Hret Hhu) as [Hr1 Hr2]. apply Hr1 in Hfr as [_ Hfr]. rewrite retained_sets in Hfr.
    rewrite Hdig, dom_empty_L in Hr2. symmetry in Hr2. pose proof (proj1 (owners_covered heads ms) Hr2) as Hown.
    apply Hts in Hft as [Hv Htu].
    assert (Hok : ∀ h, h ∈ heads → head_ok h) by (intros h Hin; by apply Hh).
    destruct Htr as [Htr _]; [done..|]. destruct Htr as (_ & Hiff & Htok); [done|].
    split; try done.
    intros h m Hin. by apply (proj1 (owned_contiguous heads ms Hmu Hok Hfr h Hin)), Hw.
  - intros [Hs Hh Hhu Hcount Hm Hmu Hfr Hown Htu Hcont Hiff Htok].
    assert (Hok : ∀ h, h ∈ heads → head_ok h) by (intros h Hin; by apply Hh).
    destruct Htr as [_ Htr]; [done..|]. destruct Htr as (Hv & _ & Hpres & Hpairs); [done|].
    destruct (Hret Hhu) as [Hr1 Hr2]. destruct Hs as (Hc & -> & Hmax).
    destruct Hcount as [??]. split_and!; try done.
    + by apply Hr1; split; [|apply retained_sets].
    + apply dom_empty_inv_L. rewrite Hr2. by apply owners_covered.
    + by apply Hts.
    + intros h Hin. apply (owned_contiguous heads ms Hmu Hok Hfr h Hin). intros m. by apply Hcont.
Qed.

End Decision.
End Closure.
