(* ===== verification/LongTermControl.v ===== *)
(** * Long-term memory: control transitions

    Model of the owner-transition part of
    [crates/core/src/memory/long_term_control.rs]: control operations, the
    intent of a revision and its binding to exact materials, tombstones, audit
    events, and [bind_long_term_version_mutation], which turns an intent and
    the exact snapshot of an owner into a bound mutation. *)

From S2P Require Import Prelude RustStr RustOrd Governed Lineage LongTermEntry LongTermVersion.
From S2P Require Import StoreTypes ReadSession.

Local Open Scope string_scope.
Local Open Scope list_scope.
Local Open Scope N_scope.

Definition LONG_TERM_CONTROL_REVISION_NAMESPACE := "long_term_control_revision".
Definition LONG_TERM_CONTROL_TOMBSTONE_NAMESPACE := "long_term_control_tombstone".
Definition LONG_TERM_CONTROL_AUDIT_NAMESPACE := "long_term_control_audit".
Definition LONG_TERM_CONTROL_SCHEMA_VERSION : N := 4.
Definition LONG_TERM_CONTROL_TOMBSTONE_SCHEMA_VERSION : N := 4.

(** ** Operations *)

Inductive LongTermControlOperation :=
| Refresh | Correct | Supersede | Invalidate | Delete | ForgetByQuery | MarkStale | ChangeScope
| ChangePrivacy | PolicySuppress | PolicyPause | PolicyResume | PolicyRemoveSuppression.

#[global] Instance operation_eq_dec : EqDecision LongTermControlOperation.
Proof. solve_decision. Defined.

Definition operation_rank (o : LongTermControlOperation) : nat :=
  match o with
  | Refresh => 0 | Correct => 1 | Supersede => 2 | Invalidate => 3 | Delete => 4
  | ForgetByQuery => 5 | MarkStale => 6 | ChangeScope => 7 | ChangePrivacy => 8
  | PolicySuppress => 9 | PolicyPause => 10 | PolicyResume => 11 | PolicyRemoveSuppression => 12
  end.

Definition operation_as_str (o : LongTermControlOperation) : string :=
  match o with
  | Refresh => "refresh" | Correct => "correct" | Supersede => "supersede"
  | Invalidate => "invalidate" | Delete => "delete" | ForgetByQuery => "forget_by_query"
  | MarkStale => "mark_stale" | ChangeScope => "change_scope"
  | ChangePrivacy => "change_privacy" | PolicySuppress => "policy.suppress"
  | PolicyPause => "policy.pause" | PolicyResume => "policy.resume"
  | PolicyRemoveSuppression => "policy.remove_suppression"
  end.

(** [match value.trim() { "refresh" => ... }] *)
Definition operation_from_label (value : string) : option LongTermControlOperation :=
  let value := trim value in
  find (λ o, bool_decide (operation_as_str o = value))
    [Refresh; Correct; Supersede; Invalidate; Delete; ForgetByQuery; MarkStale; ChangeScope;
     ChangePrivacy; PolicySuppress; PolicyPause; PolicyResume; PolicyRemoveSuppression].

Inductive LongTermInvalidationReasonCode :=
| FactuallyIncorrect | SourceAuthorityRevoked | ContradictedByGovernedEvidence
| IntegrityViolation.

#[global] Instance invalidation_code_eq_dec : EqDecision LongTermInvalidationReasonCode.
Proof. solve_decision. Defined.

(** ** The basis of a transition *)

Inductive LongTermTransitionBasis :=
| ExplicitControl
| SourceGoverned (authoritative_sources : list TranscriptEvidenceRef).

#[global] Instance basis_eq_dec : EqDecision LongTermTransitionBasis.
Proof. solve_decision. Defined.

Definition basis_validate (b : LongTermTransitionBasis) (space : string)
    (operation : LongTermControlOperation) : result unit :=
  match b with
  | ExplicitControl =>
      ensure (negb (bool_decide (operation = Refresh)))
        (Config "long_term_transition_basis" "ordinary refresh cannot claim explicit control")
  | SourceGoverned sources =>
      ensure (negb (negb (bool_decide (operation = Refresh) || bool_decide (operation = Delete))
                    || existsb (λ s,
                         negb (bool_decide (ev_memory_space_id s = space))
                         || bad_subject (ev_subject_id s)
                         || is_none (parse_display_citation (display_citation s))) sources
                    || windows2_any (λ a b, leb (display_citation b) (display_citation a)) sources))
        (Config "long_term_transition_basis" "noncanonical factual transition authority")
  end.

(** ** Revision intents *)

Record LongTermMemoryControlRevisionIntent := mkIntent {
  ri_revision_id : string;
  ri_memory_space_id : string;
  ri_factual_owner_id : string;
  ri_operation : LongTermControlOperation;
  ri_basis : LongTermTransitionBasis;
  ri_invalidation_reason_code : option LongTermInvalidationReasonCode;
  ri_transition : GovernedOwnerTransition;
  ri_governed_evidence_refs : list GovernedOwnerRevisionRef;
  ri_actor_subject_id : option string;
  ri_reason : string;
  ri_created_at : N;
}.

Definition intent_validate_contract (i : LongTermMemoryControlRevisionIntent) : result unit :=
  _ ← basis_validate (ri_basis i) (ri_memory_space_id i) (ri_operation i);
  ensure (negb
      (not_canonical (ri_revision_id i)
       || not_canonical (ri_memory_space_id i)
       || not_canonical (ri_factual_owner_id i)
       || negb (bool_decide (ri_factual_owner_id i = ri_memory_space_id i))
       || not_canonical (ri_reason i)
       || (ri_created_at i =? 0)
       || (t_terminated_at (ri_transition i) <? ri_created_at i)
       || negb (Bool.eqb (bool_decide (ri_operation i = Invalidate))
                  (negb (is_none (ri_invalidation_reason_code i))))
       || windows2_any (λ a b, leb b a) (ri_governed_evidence_refs i)
       || existsb (λ r, negb (revision_ref_is_valid r)
                        || negb (bool_decide (owner_plane (owner_ref r) = EvidenceDocument)))
            (ri_governed_evidence_refs i)))
    (Config "long_term_control_revision_intent"
       "revision intent identity, scope, transition, evidence, reason, or time is invalid").

(** How an operation ends the revision it acts on. *)
Definition operation_termination (o : LongTermControlOperation)
    : result GovernedOwnerTermination :=
  match o with
  | Refresh => Ok Revised
  | Correct => Ok Corrected
  | Supersede => Ok TSuperseded
  | Invalidate => Ok TInvalidated
  | Delete => Ok TDeleted
  | ForgetByQuery => Ok TForgotten
  | MarkStale | ChangeScope | ChangePrivacy => Ok Revised
  | PolicySuppress | PolicyPause | PolicyResume | PolicyRemoveSuppression =>
      Err (Config "long_term_control_revision_intent"
             "policy operations do not create owner version transitions")
  end.

Definition entry_revision_ref (e : LongTermMemoryEntry) : result GovernedOwnerRevisionRef :=
  revision_ref_try_new (mkOwnerRef LongTerm (e_id e)) (e_owner_revision e).

(** [Option::map(f).transpose()] *)
Definition transpose_map {A B} (f : A → result B) (o : option A) : result (option B) :=
  match o with None => Ok None | Some a => b ← f a; Ok (Some b) end.

Definition for_owner_change_with_invalidation_reason (revision_id : string)
    (operation : LongTermControlOperation) (before : LongTermMemoryEntry)
    (after : option LongTermMemoryEntry) (reason factual_owner_id : string)
    (actor_subject_id : option string) (memory_space_id : string) (created_at : N)
    (governed_evidence_refs : list GovernedOwnerRevisionRef)
    (invalidation_reason_code : option LongTermInvalidationReasonCode)
    : result LongTermMemoryControlRevisionIntent :=
  termination ← operation_termination operation;
  predecessor ← entry_revision_ref before;
  successor ← transpose_map entry_revision_ref after;
  let intent :=
    {| ri_revision_id := revision_id; ri_memory_space_id := memory_space_id;
       ri_factual_owner_id := factual_owner_id; ri_operation := operation;
       ri_basis := if bool_decide (operation = Refresh) then SourceGoverned []
                   else ExplicitControl;
       ri_invalidation_reason_code := invalidation_reason_code;
       ri_transition := mkTransition predecessor created_at termination successor;
       ri_governed_evidence_refs := dedup (sort governed_evidence_refs);
       ri_actor_subject_id := actor_subject_id; ri_reason := reason;
       ri_created_at := created_at |} in
  _ ← intent_validate_contract intent;
  Ok intent.

Definition for_owner_change (revision_id : string) (operation : LongTermControlOperation)
    (before : LongTermMemoryEntry) (after : option LongTermMemoryEntry)
    (reason factual_owner_id : string) (actor_subject_id : option string)
    (memory_space_id : string) (created_at : N)
    (governed_evidence_refs : list GovernedOwnerRevisionRef)
    : result LongTermMemoryControlRevisionIntent :=
  for_owner_change_with_invalidation_reason revision_id operation before after reason
    factual_owner_id actor_subject_id memory_space_id created_at governed_evidence_refs None.

Definition for_invalidation (revision_id : string) (before : LongTermMemoryEntry)
    (reason_code : LongTermInvalidationReasonCode) (reason factual_owner_id : string)
    (actor_subject_id memory_space_id : string) (created_at : N)
    (governed_evidence_refs : list GovernedOwnerRevisionRef)
    : result LongTermMemoryControlRevisionIntent :=
  for_owner_change_with_invalidation_reason revision_id Invalidate before None reason
    factual_owner_id (Some actor_subject_id) memory_space_id created_at governed_evidence_refs
    (Some reason_code).

(** ** Control revisions, tombstones and audit events *)

Record LongTermMemoryControlRevision := mkControlRevision {
  cr_schema_version : N;
  cr_revision_id : string;
  cr_memory_space_id : string;
  cr_factual_owner_id : string;
  cr_operation : LongTermControlOperation;
  cr_basis : LongTermTransitionBasis;
  cr_invalidation_reason_code : option LongTermInvalidationReasonCode;
  cr_transition : GovernedOwnerTransition;
  cr_predecessor_material_digest : string;
  cr_successor_material_digest : option string;
  cr_governed_evidence_refs : list GovernedOwnerRevisionRef;
  cr_reason : string;
  cr_actor_subject_id : option string;
  cr_created_at : N;
  cr_content_digest : string;
}.

(** The local [struct DigestInput] of the control revision. *)
Record ControlDigestInput := mkControlDigestInput {
  cdi_schema_version : N;
  cdi_revision_id : string;
  cdi_memory_space_id : string;
  cdi_factual_owner_id : string;
  cdi_operation : LongTermControlOperation;
  cdi_basis : LongTermTransitionBasis;
  cdi_invalidation_reason_code : option LongTermInvalidationReasonCode;
  cdi_transition : GovernedOwnerTransition;
  cdi_predecessor_material_digest : string;
  cdi_successor_material_digest : option string;
  cdi_governed_evidence_refs : list GovernedOwnerRevisionRef;
  cdi_reason : string;
  cdi_actor_subject_id : option string;
  cdi_created_at : N;
}.

Record LongTermMemoryTombstone := mkTombstone {
  ts_schema_version : N;
  ts_tombstone_id : string;
  ts_record_id : string;
  ts_operation : LongTermControlOperation;
  ts_last_owner_revision : N;
  ts_last_source_revision : option N;
  ts_previous_digest : string;
  ts_subject_visibility : MemorySubjectVisibilityPolicy;
  ts_reason : string;
  ts_factual_owner_id : string;
  ts_actor_subject_id : option string;
  ts_memory_space_id : string;
  ts_created_at : N;
}.

Inductive ControlEffectRef :=
| RevisionEffect (revision_id : string) (transition : GovernedOwnerTransition)
    (factual_owner_id : string)
| TombstoneEffect (tombstone_id record_id factual_owner_id : string) (owner_revision : N)
    (source_revision : option N)
| PolicyEffect (policy_id factual_owner_id : string) (policy_revision : N) (deleted : bool).

#[global] Instance effect_eq_dec : EqDecision ControlEffectRef.
Proof. solve_decision. Defined.

#[global] Instance effect_ord : RustOrd ControlEffectRef :=
  ord_on (λ e, match e with
               | RevisionEffect r t o => inl (r, t, o)
               | TombstoneEffect t r o n s => inr (inl (t, r, o, n, s))
               | PolicyEffect p o n d => inr (inr (p, o, n, d))
               end).
#[global] Instance effect_ord_laws : RustOrdLaws ControlEffectRef.
Proof. apply ord_on_laws. intros [] []; cbn; try done; intros [=]; by subst. Qed.

Record LongTermMemoryControlAuditEvent := mkAudit {
  au_schema_version : N;
  au_event_id : string;
  au_transaction_id : string;
  au_operation : LongTermControlOperation;
  au_effects : list ControlEffectRef;
  au_reason : string;
  au_factual_owner_id : string;
  au_actor_subject_id : option string;
  au_memory_space_id : option string;
  au_created_at : N;
}.

(** The encodings of the digested values: the control revision, the tuple that
    identifies an audit event, and the tuple that identifies a tombstone. *)
Class ControlCodec := {
  control_to_vec : ControlDigestInput → string + bytes;
  audit_identity_to_vec :
    N * LongTermControlOperation * list ControlEffectRef * string * string
    * option string * option string * N → string + bytes;
  tombstone_identity_to_vec :
    LongTermControlOperation * GovernedOwnerRevisionRef * string * string * N → string + bytes;
}.

(** Documented behaviour: encoding plain data does not fail. *)
Class ControlCodecLaws `{ControlCodec} : Prop := {
  control_to_vec_total d : ∃ b, control_to_vec d = inr b;
  audit_identity_to_vec_total d : ∃ b, audit_identity_to_vec d = inr b;
  tombstone_identity_to_vec_total d : ∃ b, tombstone_identity_to_vec d = inr b;
}.

Section Control.
Context {vc : VersionCodec} {cc : ControlCodec}.

(** [hash_control_field] feeds a length and the bytes. *)
Definition hash_control_field (hasher value : bytes) : bytes :=
  hasher ++ be_bytes (len value) ++ value.

Definition is_control_sha256 (v : string) : bool :=
  (str_len v =? 64) && forallb is_lower_hex (String.list_ascii_of_string v).

Definition control_content_digest (r : LongTermMemoryControlRevision) : result string :=
  b ← encoded "long_term_control_revision"
        (control_to_vec
           (mkControlDigestInput (cr_schema_version r) (cr_revision_id r) (cr_memory_space_id r)
              (cr_factual_owner_id r) (cr_operation r) (cr_basis r)
              (cr_invalidation_reason_code r) (cr_transition r)
              (cr_predecessor_material_digest r) (cr_successor_material_digest r)
              (cr_governed_evidence_refs r) (cr_reason r) (cr_actor_subject_id r)
              (cr_created_at r)));
  Ok (sha256_hex (hash_control_field
        (hash_control_field [] (str_bytes "long_term_control_revision_v4")) b)).

Definition control_validate_contract (r : LongTermMemoryControlRevision) : result unit :=
  _ ← basis_validate (cr_basis r) (cr_memory_space_id r) (cr_operation r);
  ensure (negb
      (negb (cr_schema_version r =? LONG_TERM_CONTROL_SCHEMA_VERSION)
       || blank (cr_revision_id r)
       || blank (cr_memory_space_id r)
       || blank (cr_factual_owner_id r)
       || negb (bool_decide (cr_factual_owner_id r = cr_memory_space_id r))
       || blank (cr_reason r)
       || (cr_created_at r =? 0)
       || (t_terminated_at (cr_transition r) <? cr_created_at r)
       || negb (Bool.eqb (bool_decide (cr_operation r = Invalidate))
                  (negb (is_none (cr_invalidation_reason_code r))))
       || negb (is_control_sha256 (cr_predecessor_material_digest r))
       || opt_any (λ d, negb (is_control_sha256 d)) (cr_successor_material_digest r)
       || negb (Bool.eqb (negb (is_none (t_successor (cr_transition r))))
                  (negb (is_none (cr_successor_material_digest r))))
       || windows2_any (λ a b, leb b a) (cr_governed_evidence_refs r)
       || negb (digest_is (control_content_digest r) (cr_content_digest r))))
    (Config "long_term_control_revision" "typed control revision contract is invalid").

Definition with_control_digest (r : LongTermMemoryControlRevision) (d : string) :=
  mkControlRevision (cr_schema_version r) (cr_revision_id r) (cr_memory_space_id r)
    (cr_factual_owner_id r) (cr_operation r) (cr_basis r) (cr_invalidation_reason_code r)
    (cr_transition r) (cr_predecessor_material_digest r) (cr_successor_material_digest r)
    (cr_governed_evidence_refs r) (cr_reason r) (cr_actor_subject_id r) (cr_created_at r) d.

(** [LongTermMemoryControlRevision::bind]: the transition ends at the intent's
    time, or just after the predecessor began. *)
Definition control_revision_bind (i : LongTermMemoryControlRevisionIntent)
    (predecessor : LongTermMemoryVersionMaterial)
    (successor : option LongTermMemoryVersionMaterial) : result LongTermMemoryControlRevision :=
  _ ← intent_validate_contract i;
  match u64_checked_add (origin_valid_from (m_origin predecessor)) 1 with
  | None => Err (Config "long_term_control_revision"
                   "predecessor validity time cannot advance without overflow")
  | Some monotonic_successor_time =>
      let t := ri_transition i in
      let transition := mkTransition (t_predecessor t)
                          (N.max (ri_created_at i) monotonic_successor_time)
                          (t_termination t) (t_successor t) in
      let validation := transition_validate_contract transition predecessor successor in
      _ ← ensure (negb (negb (accepted validation)
                        || negb (bool_decide (m_memory_space_id predecessor
                                              = ri_memory_space_id i))
                        || negb (bool_decide (m_factual_owner_id predecessor
                                              = ri_factual_owner_id i))))
            (Config "long_term_control_revision"
               ("material transition binding rejected: "
                +:+ debug_failures (failures validation)));
      let revision :=
        {| cr_schema_version := LONG_TERM_CONTROL_SCHEMA_VERSION;
           cr_revision_id := ri_revision_id i; cr_memory_space_id := ri_memory_space_id i;
           cr_factual_owner_id := ri_factual_owner_id i; cr_operation := ri_operation i;
           cr_basis := ri_basis i;
           cr_invalidation_reason_code := ri_invalidation_reason_code i;
           cr_transition := transition;
           cr_predecessor_material_digest := m_content_digest predecessor;
           cr_successor_material_digest := m_content_digest <$> successor;
           cr_governed_evidence_refs := ri_governed_evidence_refs i;
           cr_reason := ri_reason i; cr_actor_subject_id := ri_actor_subject_id i;
           cr_created_at := ri_created_at i; cr_content_digest := "" |} in
      digest ← control_content_digest revision;
      Ok (with_control_digest revision digest)
  end.

Definition tombstone_validate_contract (t : LongTermMemoryTombstone) : result unit :=
  ensure (negb
      (negb (ts_schema_version t =? LONG_TERM_CONTROL_TOMBSTONE_SCHEMA_VERSION)
       || not_canonical (ts_tombstone_id t)
       || not_canonical (ts_record_id t)
       || negb (bool_decide (ts_operation t = Supersede) || bool_decide (ts_operation t = Delete)
                || bool_decide (ts_operation t = ForgetByQuery))
       || (ts_last_owner_revision t =? 0)
       || negb (is_control_sha256 (ts_previous_digest t))
       || negb (is_ok (validate_canonical (ts_subject_visibility t)))
       || not_canonical (ts_reason t)
       || not_canonical (ts_factual_owner_id t)
       || negb (bool_decide (ts_factual_owner_id t = ts_memory_space_id t))
       || not_canonical (ts_memory_space_id t)
       || (ts_created_at t =? 0)))
    (Config "long_term_control_tombstone"
       "typed tombstone identity, operation, digest, scope, reason, or time is invalid").

Definition canonical_long_term_tombstone_id (operation : LongTermControlOperation)
    (predecessor : LongTermMemoryVersionMaterial) (control_revision_id : string)
    (effective_at : N) : result string :=
  b ← encoded "long_term_control_tombstone"
        (tombstone_identity_to_vec (operation, owner_revision_ref predecessor,
           m_content_digest predecessor, control_revision_id, effective_at));
  Ok ("ltmt-" +:+ sha256_hex (hash_control_field
        (hash_control_field [] (str_bytes "long_term_control_tombstone_v3")) b)).

(** [LongTermMemoryControlAuditEvent::new] *)
Definition audit_new (event_id transaction_id : string) (operation : LongTermControlOperation)
    (effects : list ControlEffectRef) (reason factual_owner_id : string)
    (actor_subject_id : option string) (memory_space_id : string) (created_at : N)
    : LongTermMemoryControlAuditEvent :=
  {| au_schema_version := LONG_TERM_CONTROL_SCHEMA_VERSION; au_event_id := event_id;
     au_transaction_id := transaction_id; au_operation := operation;
     au_effects := dedup (sort effects); au_reason := reason;
     au_factual_owner_id := factual_owner_id; au_actor_subject_id := actor_subject_id;
     au_memory_space_id := Some memory_space_id; au_created_at := created_at |}.

Definition bind_canonical_event_id (a : LongTermMemoryControlAuditEvent)
    : result LongTermMemoryControlAuditEvent :=
  let effects := dedup (sort (au_effects a)) in
  match audit_identity_to_vec (au_schema_version a, au_operation a, effects, au_reason a,
          au_factual_owner_id a, au_actor_subject_id a, au_memory_space_id a,
          au_created_at a) with
  | inl error => Err (Config "long_term_control_audit_identity"
                        ("cannot canonicalize audit identity: " +:+ error))
  | inr identity =>
      Ok {| au_schema_version := au_schema_version a;
            au_event_id := "ltma-" +:+ sha256_hex identity;
            au_transaction_id := au_transaction_id a; au_operation := au_operation a;
            au_effects := effects; au_reason := au_reason a;
            au_factual_owner_id := au_factual_owner_id a;
            au_actor_subject_id := au_actor_subject_id a;
            au_memory_space_id := au_memory_space_id a; au_created_at := au_created_at a |}
  end.

(** ** Bound mutations *)

Record LongTermVersionOwnerSnapshot := mkSnapshot {
  sn_head : LongTermMemoryHeadManifest;
  sn_retained_materials : list LongTermMemoryVersionMaterial;
  sn_transitions : list GovernedOwnerTransition;
}.

(** The exact, active closure of one owner has a current material. *)
Definition current_material (s : LongTermVersionOwnerSnapshot)
    (lease : LongTermVersionRetentionLease) : result LongTermMemoryVersionMaterial :=
  let validation := validate_long_term_version_head_closure (sn_head s)
                      (sn_retained_materials s) (sn_transitions s)
                      (max_retained_revisions_per_owner lease) in
  _ ← ensure (negb (negb (accepted validation)
                    || negb (is_none (h_terminal_transition_ref (sn_head s)))))
        (Config "long_term_version_snapshot"
           ("exact active owner closure rejected: " +:+ debug_failures (failures validation)));
  match find (λ m, bool_decide (m_owner_ref m = h_owner_ref (sn_head s))
                   && (m_owner_revision m =? h_current_revision (sn_head s)))
          (sn_retained_materials s) with
  | Some m => Ok m
  | None => Err (Config "long_term_version_snapshot"
                   "current material is missing from the exact owner closure")
  end.

Record LongTermMemoryHumanConfirmationAuthority := mkAuthority {
  ha_memory_space_id : string;
  ha_actor_subject_id : string;
}.

Record LongTermMemoryVersionMutationIntent := mkMutationIntent {
  mi_control_revision_intent : LongTermMemoryControlRevisionIntent;
  mi_successor_projection : option LongTermMemoryEntry;
  mi_human_confirmation_authority : option LongTermMemoryHumanConfirmationAuthority;
  mi_audit_transaction_id : string;
}.

Inductive BoundLongTermVersionRetention :=
| AppendSuccessor | StartSuccessorOwner | RetainOperatorOnly | PurgeOwner.

Record BoundLongTermVersionReportIdentity := mkReportIdentity {
  rid_operation : LongTermControlOperation;
  rid_predecessor : GovernedOwnerRevisionRef;
  rid_successor : option GovernedOwnerRevisionRef;
  rid_predecessor_material_digest : string;
  rid_successor_material_digest : option string;
  rid_control_revision_id : string;
  rid_tombstone_id : option string;
  rid_audit_event_id : string;
}.

Record BoundVersionMutation := mkBoundMutation {
  bm_effective_at : N;
  bm_predecessor_material : LongTermMemoryVersionMaterial;
  bm_successor_material : option LongTermMemoryVersionMaterial;
  bm_control_revision : LongTermMemoryControlRevision;
  bm_tombstone : option LongTermMemoryTombstone;
  bm_audit : LongTermMemoryControlAuditEvent;
  bm_retention : BoundLongTermVersionRetention;
  bm_report_identity : BoundLongTermVersionReportIdentity;
}.

Definition successor_required (o : LongTermControlOperation) : bool :=
  match o with
  | Refresh | Correct | Supersede | MarkStale | ChangeScope | ChangePrivacy => true
  | _ => false
  end.

Definition terminal_without_successor (o : LongTermControlOperation) : bool :=
  match o with Invalidate | Delete | ForgetByQuery => true | _ => false end.

Definition with_evidence (c : LongTermMemoryGovernedContent)
    (correction : option LongTermMemoryCorrectionEvidence)
    (confirmation : option LongTermMemoryHumanConfirmationEvidence)
    : LongTermMemoryGovernedContent :=
  mkGoverned (gc_transcript_sources c) (gc_control_barrier_scope_revision c) (gc_kind c)
    (gc_topic c) (gc_content c) (gc_keywords c) (gc_source_chat_id c) (gc_source_type c)
    (gc_source_scope c) (gc_provenance c) (gc_confidence c) (gc_freshness c)
    (gc_stale_hint c) (gc_supporting_citations c) (gc_canonical_entities c)
    (gc_evidence_count c) (gc_created_at c) (gc_updated_at c) (gc_observed_at c)
    correction confirmation (gc_source_revision c) (gc_last_used_at c).

Definition with_content (m : LongTermMemoryVersionMaterial) (c : LongTermMemoryGovernedContent) :=
  mkMaterial (m_schema_version m) (m_memory_space_id m) (m_factual_owner_id m) (m_owner_ref m)
    (m_owner_revision m) c (m_governed_evidence_refs m) (m_origin m) (m_privacy_class m)
    (m_subject_visibility m) (m_content_digest m).

(** The correction evidence of the successor: new for a correction, carried
    over while the content stays the same. *)
Definition successor_correction (i : LongTermMemoryControlRevisionIntent)
    (predecessor successor : LongTermMemoryVersionMaterial)
    : result (option LongTermMemoryCorrectionEvidence) :=
  match ri_operation i with
  | Correct =>
      match ri_actor_subject_id i with
      | None => Err (Config "long_term_correction_evidence"
                       "Correct requires an explicit scoped actor")
      | Some actor =>
          e ← correction_try_new (ri_memory_space_id i) actor (t_predecessor (ri_transition i))
                (owner_revision_ref successor) CorrectLifecycle (ri_created_at i)
                (ri_revision_id i);
          Ok (Some e)
      end
  | _ =>
      Ok (if bool_decide (gc_content (m_governed_content successor)
                          = gc_content (m_governed_content predecessor))
          then gc_correction_evidence (m_governed_content predecessor) else None)
  end.

(** Human confirmation: minted for a correction with an authority, carried
    over while the content and the confirmation time stay the same. *)
Definition successor_confirmation (i : LongTermMemoryControlRevisionIntent)
    (authority : option LongTermMemoryHumanConfirmationAuthority)
    (projection : option LongTermMemoryEntry)
    (predecessor successor : LongTermMemoryVersionMaterial)
    (correction : option LongTermMemoryCorrectionEvidence)
    : result (option LongTermMemoryHumanConfirmationEvidence) :=
  match ri_operation i with
  | Correct =>
      match authority, correction with
      | Some _, Some c => e ← confirmation_try_new c; Ok (Some e)
      | _, _ => Ok None
      end
  | _ =>
      Ok (if bool_decide (gc_content (m_governed_content successor)
                          = gc_content (m_governed_content predecessor))
             && opt_any (λ e, bool_decide ((projection ≫= e_last_confirmed_at)
                                           = Some (cf_confirmed_at e)))
                  (gc_confirmation_evidence (m_governed_content predecessor))
          then gc_confirmation_evidence (m_governed_content predecessor) else None)
  end.

Definition bind_successor (i : LongTermMemoryControlRevisionIntent)
    (authority : option LongTermMemoryHumanConfirmationAuthority)
    (projection : option LongTermMemoryEntry)
    (predecessor : LongTermMemoryVersionMaterial) (effective_at : N)
    (refs : list GovernedOwnerRevisionRef) : result (option LongTermMemoryVersionMaterial) :=
  successor ← transpose_map (λ e,
    from_current_projection (m_memory_space_id predecessor) (m_factual_owner_id predecessor) e
      effective_at (Some (owner_revision_ref predecessor)) refs) projection;
  match successor with
  | None => Ok None
  | Some successor =>
      correction ← successor_correction i predecessor successor;
      confirmation ← successor_confirmation i authority projection predecessor successor
                       correction;
      let successor := with_content successor
                         (with_evidence (m_governed_content successor) correction confirmation) in
      digest ← canonical_content_digest successor;
      Ok (Some (with_digest successor digest))
  end.

Definition mutation_retention (operation : LongTermControlOperation)
    (successor : option LongTermMemoryVersionMaterial) (snapshot : LongTermVersionOwnerSnapshot)
    (lease : LongTermVersionRetentionLease) : result BoundLongTermVersionRetention :=
  match operation with
  | Supersede =>
      _ ← ensure (opt_any (λ s, m_owner_revision s =? 1) successor)
            (Config "long_term_version_mutation"
               "supersede requires a revision-one successor owner");
      Ok StartSuccessorOwner
  | Invalidate => Ok RetainOperatorOnly
  | Delete | ForgetByQuery => Ok PurgeOwner
  | _ =>
      _ ← ensure (len (sn_retained_materials snapshot) <? max_retained_revisions_per_owner lease)
            (Config "long_term_version_retention" "request-pinned retention limit is exhausted");
      Ok AppendSuccessor
  end.

Definition mutation_tombstone (operation : LongTermControlOperation)
    (predecessor : LongTermMemoryVersionMaterial) (revision : LongTermMemoryControlRevision)
    (effective_at : N) : result (option LongTermMemoryTombstone) :=
  match operation with
  | Supersede | Delete | ForgetByQuery =>
      tombstone_id ← canonical_long_term_tombstone_id operation predecessor
                       (cr_revision_id revision) effective_at;
      let tombstone :=
        {| ts_schema_version := LONG_TERM_CONTROL_TOMBSTONE_SCHEMA_VERSION;
           ts_tombstone_id := tombstone_id;
           ts_record_id := owner_id (m_owner_ref predecessor); ts_operation := operation;
           ts_last_owner_revision := m_owner_revision predecessor;
           ts_last_source_revision := gc_source_revision (m_governed_content predecessor);
           ts_previous_digest := m_content_digest predecessor;
           ts_subject_visibility := m_subject_visibility predecessor;
           ts_reason := cr_reason revision;
           ts_factual_owner_id := m_factual_owner_id predecessor;
           ts_actor_subject_id := cr_actor_subject_id revision;
           ts_memory_space_id := m_memory_space_id predecessor;
           ts_created_at := effective_at |} in
      _ ← tombstone_validate_contract tombstone;
      Ok (Some tombstone)
  | _ => Ok None
  end.

Definition mutation_effects (revision : LongTermMemoryControlRevision)
    (tombstone : option LongTermMemoryTombstone) : list ControlEffectRef :=
  RevisionEffect (cr_revision_id revision) (cr_transition revision)
    (cr_factual_owner_id revision)
  :: match tombstone with
     | Some t => [TombstoneEffect (ts_tombstone_id t) (ts_record_id t) (ts_factual_owner_id t)
                    (ts_last_owner_revision t) (ts_last_source_revision t)]
     | None => []
     end.

(** What the intent must say of the exact predecessor. *)
Definition mutation_admissible (intent : LongTermMemoryVersionMutationIntent)
    (predecessor : LongTermMemoryVersionMaterial) : result unit :=
  let i := mi_control_revision_intent intent in
  _ ← ensure (negb (opt_any (λ a,
            negb (bool_decide (ri_operation i = Correct))
            || negb (bool_decide (ri_actor_subject_id i = Some (ha_actor_subject_id a)))
            || negb (bool_decide (ri_memory_space_id i = ha_memory_space_id a)))
          (mi_human_confirmation_authority intent)))
        (Config "long_term_human_confirmation_authority"
           "human confirmation authority must bind the exact actor of a Correct transition");
  _ ← ensure (negb (negb (bool_decide (ri_memory_space_id i = m_memory_space_id predecessor))
                    || negb (bool_decide (ri_factual_owner_id i = m_factual_owner_id predecessor))
                    || negb (bool_decide (t_predecessor (ri_transition i)
                                          = owner_revision_ref predecessor))))
        (Config "long_term_version_mutation"
           "control intent differs from the exact predecessor scope or revision");
  _ ← ensure (negb (negb (Bool.eqb (successor_required (ri_operation i))
                            (negb (is_none (mi_successor_projection intent))))
                    || (negb (successor_required (ri_operation i))
                        && negb (terminal_without_successor (ri_operation i)))))
        (Config "long_term_version_mutation"
           "operation and successor projection do not form a supported owner transition");
  ensure (negb (bool_decide (ri_operation i = Invalidate)
                && (bool_decide (ri_governed_evidence_refs i = [])
                    || is_none (ri_actor_subject_id i)
                    || is_none (ri_invalidation_reason_code i))))
    (Config "long_term_version_invalidation"
       "invalidation requires a typed reason, governed evidence and actor").

Definition bind_long_term_version_mutation (intent : LongTermMemoryVersionMutationIntent)
    (snapshot : LongTermVersionOwnerSnapshot) (lease : LongTermVersionRetentionLease)
    : result BoundVersionMutation :=
  let i := mi_control_revision_intent intent in
  _ ← intent_validate_contract i;
  _ ← ensure (negb (not_canonical (mi_audit_transaction_id intent)))
        (Config "long_term_version_mutation"
           "audit transaction identity must be canonical and non-empty");
  predecessor ← current_material snapshot lease;
  _ ← mutation_admissible intent predecessor;
  match u64_checked_add (origin_valid_from (m_origin predecessor)) 1 with
  | None => Err (Config "long_term_version_mutation"
                   "predecessor validity time cannot advance without overflow")
  | Some next =>
      let effective_at := N.max (ri_created_at i) next in
      let refs := dedup (sort (m_governed_evidence_refs predecessor
                               ++ ri_governed_evidence_refs i)) in
      successor ← bind_successor i (mi_human_confirmation_authority intent)
                    (mi_successor_projection intent) predecessor effective_at refs;
      retention ← mutation_retention (ri_operation i) successor snapshot lease;
      revision ← control_revision_bind i predecessor successor;
      _ ← ensure (t_terminated_at (cr_transition revision) =? effective_at)
            (Config "long_term_version_mutation"
               "control revision did not bind the exact monotonic effective time");
      tombstone ← mutation_tombstone (ri_operation i) predecessor revision effective_at;
      audit ← bind_canonical_event_id
                (audit_new "pending" (mi_audit_transaction_id intent) (ri_operation i)
                   (mutation_effects revision tombstone) (cr_reason revision)
                   (m_factual_owner_id predecessor) (cr_actor_subject_id revision)
                   (m_memory_space_id predecessor) (cr_created_at revision));
      Ok {| bm_effective_at := effective_at; bm_predecessor_material := predecessor;
            bm_successor_material := successor; bm_control_revision := revision;
            bm_tombstone := tombstone; bm_audit := audit; bm_retention := retention;
            bm_report_identity :=
              {| rid_operation := ri_operation i;
                 rid_predecessor := t_predecessor (cr_transition revision);
                 rid_successor := t_successor (cr_transition revision);
                 rid_predecessor_material_digest := cr_predecessor_material_digest revision;
                 rid_successor_material_digest := cr_successor_material_digest revision;
                 rid_control_revision_id := cr_revision_id revision;
                 rid_tombstone_id := ts_tombstone_id <$> tombstone;
                 rid_audit_event_id := au_event_id audit |} |}
  end.

End Control.
