(* ===== verification/LongTermPlan.v ===== *)
(** * Long-term memory: planning version changes

    Model of the planner of long-term version changes in the SDK
    ([PlanningLongTermTransitionIntent] and
    [PlanningLongTermMemoryStore::into_plan] in [crates/sdk/src/runtime.rs]):
    the documents of a scope are admitted against their scope manifest, each
    staged change is bound and turned into preconditions and mutations, and
    the next scope manifest is built over the result.

    The model starts where the documents have been read and decoded and there
    is at least one change; the staged entries already carry their bound
    transcript sources and control barrier, and [source_preconditions] is the
    plan so far.  The derived-reference mutations that the code adds for the
    transcript sources of an entry are not modelled. *)

From S2P Require Import Prelude RustStr RustOrd Governed Lineage LongTermEntry LongTermVersion.
From S2P Require Import LongTermControl StoreTypes StoreTransaction ReadSession.

Local Open Scope string_scope.
Local Open Scope list_scope.
Local Open Scope N_scope.

Definition LONG_TERM_VERSION_MATERIAL_NAMESPACE := "long_term_version_materials".
Definition LONG_TERM_HEAD_MANIFEST_NAMESPACE := "long_term_head_manifests".
Definition LONG_TERM_VERSION_SCOPE_MANIFEST_NAMESPACE := "long_term_version_scope_manifests".

(** ** Staged changes *)

Record PlanningLongTermTransitionIntent := mkPlanning {
  pt_revision_id : string;
  pt_operation : LongTermControlOperation;
  pt_basis : LongTermTransitionBasis;
  pt_invalidation_reason_code : option LongTermInvalidationReasonCode;
  pt_reason : string;
  pt_actor_subject_id : option string;
  pt_human_confirmation_authority : option LongTermMemoryHumanConfirmationAuthority;
  pt_created_at : N;
  pt_governed_evidence_refs : list GovernedOwnerRevisionRef;
}.

Inductive PlanningLongTermVersionIntent :=
| PlanCreate (after : LongTermMemoryEntry)
| PlanAdvance (before after : LongTermMemoryEntry)
    (transition : PlanningLongTermTransitionIntent)
| PlanTerminal (before : LongTermMemoryEntry) (transition : PlanningLongTermTransitionIntent).

Definition current_projection (p : PlanningLongTermVersionIntent)
    : option LongTermMemoryEntry :=
  match p with
  | PlanCreate after | PlanAdvance _ after _ => Some after
  | PlanTerminal _ _ => None
  end.

Definition validated_planning_actor_subject_id (actor : string) : result string :=
  let trimmed := trim actor in
  _ ← ensure (negb (is_empty trimmed || negb (bool_decide (actor = trimmed))))
        (Config "long_term_version_plan"
           "runtime long-term transition requires an exact scoped actor subject");
  Ok trimmed.

Definition validated_planning_transition_actor_subject_id (expected : string)
    (transition_actor : option string) : result string :=
  expected ← validated_planning_actor_subject_id expected;
  actual ← match transition_actor with
           | None => Err (Config "long_term_version_plan"
               "runtime long-term transition requires an exact scoped actor subject")
           | Some actor => validated_planning_actor_subject_id actor
           end;
  _ ← ensure (bool_decide (actual = expected))
        (Config "long_term_version_plan"
           "runtime long-term transition actor differs from the scoped runtime actor");
  Ok actual.

Definition checked_next_persisted_revision (current : N) (owner : string) : result N :=
  match u64_checked_add current 1 with
  | Some n => Ok n
  | None => Err (Config "governed_revision_overflow" (owner +:+ " revision exhausted"))
  end.

(** [PlanningLongTermTransitionIntent::refresh] *)
Definition planning_refresh (before after : LongTermMemoryEntry) (reason actor : string)
    : PlanningLongTermTransitionIntent :=
  {| pt_revision_id := "refresh:" +:+ e_id before +:+ ":" +:+
       pretty (N.max (e_owner_revision after) (saturating_add (e_owner_revision before) 1));
     pt_operation := Refresh; pt_basis := SourceGoverned [];
     pt_invalidation_reason_code := None; pt_reason := reason;
     pt_actor_subject_id := Some actor; pt_human_confirmation_authority := None;
     pt_created_at := N.max (N.max (e_updated_at after) (e_observed_at after)) 1;
     pt_governed_evidence_refs := [] |}.

(** [PlanningLongTermTransitionIntent::delete] *)
Definition planning_delete (before : LongTermMemoryEntry) (reason actor : string)
    : PlanningLongTermTransitionIntent :=
  {| pt_revision_id := "delete:" +:+ e_id before +:+ ":" +:+ pretty (e_owner_revision before);
     pt_operation := Delete; pt_basis := SourceGoverned [];
     pt_invalidation_reason_code := None; pt_reason := reason;
     pt_actor_subject_id := Some actor; pt_human_confirmation_authority := None;
     pt_created_at := saturating_add (N.max (e_updated_at before) (e_observed_at before)) 1;
     pt_governed_evidence_refs := [] |}.

(** [PlanningLongTermTransitionIntent::from_core] *)
Definition planning_from_core (intent : LongTermMemoryControlRevisionIntent)
    (expected_actor : string) (authority : option LongTermMemoryHumanConfirmationAuthority)
    : result PlanningLongTermTransitionIntent :=
  actor ← validated_planning_transition_actor_subject_id expected_actor
            (ri_actor_subject_id intent);
  _ ← ensure (match authority with
              | None => true
              | Some a => bool_decide (ri_operation intent = Correct)
                          && bool_decide (ha_actor_subject_id a = actor)
                          && bool_decide (ha_memory_space_id a = ri_memory_space_id intent)
              end)
        (Config "long_term_human_confirmation_authority"
           "human confirmation authority must bind the exact Correct transition actor");
  Ok {| pt_revision_id := ri_revision_id intent; pt_operation := ri_operation intent;
        pt_basis := ri_basis intent;
        pt_invalidation_reason_code := ri_invalidation_reason_code intent;
        pt_reason := ri_reason intent; pt_actor_subject_id := Some actor;
        pt_human_confirmation_authority := authority; pt_created_at := ri_created_at intent;
        pt_governed_evidence_refs := ri_governed_evidence_refs intent |}.

(** [bind_scope]: the staged transition as a core intent. *)
Definition bind_scope (p : PlanningLongTermTransitionIntent)
    (memory_space_id mounted_subject_id : string) (before : LongTermMemoryEntry)
    (after : option LongTermMemoryEntry) : result LongTermMemoryControlRevisionIntent :=
  if bool_decide (pt_operation p = Invalidate) then
    match pt_invalidation_reason_code p with
    | None => Err (Config "long_term_version_plan" "invalidate requires a typed reason code")
    | Some code =>
        match pt_actor_subject_id p with
        | None => Err (Config "long_term_version_plan" "invalidate requires an actor")
        | Some actor =>
            for_invalidation (pt_revision_id p) before code (pt_reason p) mounted_subject_id
              actor memory_space_id (pt_created_at p) (pt_governed_evidence_refs p)
        end
    end
  else
    intent ← for_owner_change (pt_revision_id p) (pt_operation p) before after (pt_reason p)
               mounted_subject_id (pt_actor_subject_id p) memory_space_id (pt_created_at p)
               (pt_governed_evidence_refs p);
    let intent :=
      {| ri_revision_id := ri_revision_id intent;
         ri_memory_space_id := ri_memory_space_id intent;
         ri_factual_owner_id := ri_factual_owner_id intent;
         ri_operation := ri_operation intent; ri_basis := pt_basis p;
         ri_invalidation_reason_code := ri_invalidation_reason_code intent;
         ri_transition := ri_transition intent;
         ri_governed_evidence_refs := ri_governed_evidence_refs intent;
         ri_actor_subject_id := ri_actor_subject_id intent; ri_reason := ri_reason intent;
         ri_created_at := ri_created_at intent |} in
    _ ← intent_validate_contract intent;
    Ok intent.

Section Plan.
Context {codec : StoreCodec} {vc : VersionCodec} {cc : ControlCodec}.

(** [serde_json::to_value] of the stored documents. *)
Class PlanCodec := {
  material_to_value : LongTermMemoryVersionMaterial → string + Value;
  head_to_value : LongTermMemoryHeadManifest → string + Value;
  control_to_value : LongTermMemoryControlRevision → string + Value;
  tombstone_to_value : LongTermMemoryTombstone → string + Value;
  audit_to_value : LongTermMemoryControlAuditEvent → string + Value;
  scope_to_value : LongTermMemoryVersionScopeManifest → string + Value;
}.
Context {pc : PlanCodec}.

Definition bind_version (p : PlanningLongTermTransitionIntent)
    (memory_space_id mounted_subject_id : string) (before : LongTermMemoryEntry)
    (after : option LongTermMemoryEntry) (head : LongTermMemoryHeadManifest)
    (ms : list LongTermMemoryVersionMaterial) (ts : list GovernedOwnerTransition)
    (max_retained : N) : result BoundVersionMutation :=
  control_revision_intent ← bind_scope p memory_space_id mounted_subject_id before after;
  let snapshot :=
    mkSnapshot head (owner_materials (h_owner_ref head) ms)
      (List.filter (λ t, bool_decide (owner_ref (t_predecessor t) = h_owner_ref head)) ts) in
  lease ← lease_try_new max_retained;
  bind_long_term_version_mutation
    (mkMutationIntent control_revision_intent after (pt_human_confirmation_authority p) "pending")
    snapshot lease.

(** ** Keys of control documents ([long_term.rs]) *)

Definition scoped_long_term_control_storage_prefix (memory_space_id namespace : string)
    : result string :=
  let namespace := trim namespace in
  _ ← ensure (negb (is_empty namespace))
        (Config "long_term_control_storage_scope" "namespace must not be empty");
  let memory_space_id := trim memory_space_id in
  _ ← ensure (negb (is_empty memory_space_id))
        (Config "long_term_storage_scope" "memory_space_id must not be empty");
  Ok ("scope:" +:+ domain_separated_sha256 "long_term_memory_space_scope_v1"
                     [str_bytes memory_space_id]
      +:+ ":control:" +:+ domain_separated_sha256 "long_term_control_namespace_v1"
                            [str_bytes namespace]
      +:+ ":doc:").

Definition scoped_long_term_control_storage_key (memory_space_id namespace logical_key : string)
    : result string :=
  let namespace := trim namespace in
  let logical_key := trim logical_key in
  _ ← ensure (negb (is_empty namespace || is_empty logical_key))
        (Config "long_term_control_storage_scope" "namespace and logical_key must not be empty");
  prefix ← scoped_long_term_control_storage_prefix memory_space_id namespace;
  Ok (prefix +:+ domain_separated_sha256 "long_term_control_document_v1"
                   [str_bytes logical_key]).

(** ** The plan *)

(** The documents of the scope as the planner holds them. *)
Record ScopeDocs := mkDocs {
  sd_heads : list LongTermMemoryHeadManifest;
  sd_materials : list LongTermMemoryVersionMaterial;
  sd_transitions : list GovernedOwnerTransition;
  sd_bindings : list LongTermMemoryVersionTransitionBinding;
  sd_control_revisions : list LongTermMemoryControlRevision;
}.

(** [MemoryStoreMutationPlan]; the planner adds no blob preconditions. *)
Record VersionPlan := mkVersionPlan {
  vp_mutations : list StoreMutation;
  vp_preconditions : list StoreJsonPrecondition;
}.

Definition json_precondition (namespace key : string) (value : option Value)
    : StoreJsonPrecondition :=
  match value with
  | Some v => JsonExact namespace key v
  | None => JsonAbsent namespace key
  end.

Definition require (p : VersionPlan) (namespace key : string) (value : option Value) : VersionPlan :=
  mkVersionPlan (vp_mutations p) (vp_preconditions p ++ [json_precondition namespace key value]).

(** [plan.mutations.push(planned_json_put(...)?)] *)
Definition planned_json_put (p : VersionPlan) (namespace key record_key : string)
    (value : string + Value) (kind : MemoryStoreEventKind) : result VersionPlan :=
  v ← encoded "long_term_control_plan" value;
  Ok (mkVersionPlan (vp_mutations p ++ [DeclPutJson namespace key v kind namespace record_key])
        (vp_preconditions p)).

(** [plan.mutations.push(StoreMutation::DeleteJson { ... })] *)
Definition planned_json_delete (p : VersionPlan) (namespace key record_key : string)
    (kind : MemoryStoreEventKind) : VersionPlan :=
  mkVersionPlan (vp_mutations p ++ [DeclDeleteJson namespace key kind namespace record_key])
    (vp_preconditions p).

(** What the planner read: the scope, the stored values it observed, the
    planning reads of current entries, and the retention limit. *)
Record PlanReads := mkReads {
  pr_memory_space_id : string;
  pr_factual_owner_id : string;
  pr_head_values : gmap string Value;
  pr_material_values : gmap string Value;
  pr_control_revision_values : gmap string Value;
  pr_read_set : gmap string (option LongTermMemoryEntry);
  pr_complete_snapshot_read : bool;
  pr_max_retained : N;
}.

Section Reads.
Context (reads : PlanReads).
#[local] Notation space := (pr_memory_space_id reads).
#[local] Notation owner := (pr_factual_owner_id reads).

Definition plan_error {A} (message : string) : result A :=
  Err (Config "long_term_version_plan" message).

(** The planning read of the owner a change is about. *)
Definition planning_prior (id : string) : result (option LongTermMemoryEntry) :=
  match pr_read_set reads !! id with
  | Some prior => Ok prior
  | None =>
      if pr_complete_snapshot_read reads then Ok None
      else Err (Config "memory_write_transaction_read_set_incomplete"
                  ("owner " +:+ id +:+ " was mutated without a planning read"))
  end.

Definition put_control_revision (p : VersionPlan) (key : string)
    (r : LongTermMemoryControlRevision) : result VersionPlan :=
  planned_json_put p LONG_TERM_CONTROL_REVISION_NAMESPACE key (cr_revision_id r)
    (control_to_value r) MemoryControl.

Definition put_audit (p : VersionPlan) (a : LongTermMemoryControlAuditEvent)
    : result VersionPlan :=
  key ← scoped_long_term_control_storage_key space LONG_TERM_CONTROL_AUDIT_NAMESPACE
          (au_event_id a);
  let p := require p LONG_TERM_CONTROL_AUDIT_NAMESPACE key None in
  planned_json_put p LONG_TERM_CONTROL_AUDIT_NAMESPACE key (au_event_id a) (audit_to_value a)
    MemoryControl.

Definition put_tombstone (p : VersionPlan) (t : LongTermMemoryTombstone) : result VersionPlan :=
  key ← scoped_long_term_control_storage_key space LONG_TERM_CONTROL_TOMBSTONE_NAMESPACE
          (ts_record_id t);
  let p := require p LONG_TERM_CONTROL_TOMBSTONE_NAMESPACE key None in
  planned_json_put p LONG_TERM_CONTROL_TOMBSTONE_NAMESPACE key (ts_record_id t)
    (tombstone_to_value t) MemoryDelete.

Definition revision_key (r : LongTermMemoryControlRevision) : result string :=
  scoped_long_term_control_storage_key space LONG_TERM_CONTROL_REVISION_NAMESPACE
    (cr_revision_id r).

(** The index and value of the head of an owner, [position] and a clone. *)
Definition head_position (o : GovernedMemoryOwnerRef) (heads : list LongTermMemoryHeadManifest)
    : option (nat * LongTermMemoryHeadManifest) :=
  list_find (λ h, h_owner_ref h = o) heads.

Definition find_material (o : GovernedMemoryOwnerRef) (revision : N)
    (ms : list LongTermMemoryVersionMaterial) : option LongTermMemoryVersionMaterial :=
  find (λ m, bool_decide (m_owner_ref m = o) && (m_owner_revision m =? revision)) ms.

Definition with_head (h : LongTermMemoryHeadManifest) (current manifest_revision : N)
    (retained : list LongTermMemoryRetainedRevisionDigest)
    (terminal : option GovernedOwnerRevisionRef) : LongTermMemoryHeadManifest :=
  mkHead (h_schema_version h) (h_memory_space_id h) (h_factual_owner_id h) (h_owner_ref h)
    current retained terminal manifest_revision.

(** A head closed by its terminal transition. *)
Definition terminal_head (h : LongTermMemoryHeadManifest)
    (predecessor : LongTermMemoryVersionMaterial) : result LongTermMemoryHeadManifest :=
  manifest_revision ← checked_next_persisted_revision (h_manifest_revision h)
                        "long_term_head_manifest";
  Ok (with_head h (h_current_revision h) manifest_revision (h_retained_revision_digests h)
        (Some (owner_revision_ref predecessor))).

(** The current material of [o], equal to the planning read. *)
Definition exact_predecessor (o : GovernedMemoryOwnerRef) (h : LongTermMemoryHeadManifest)
    (before : LongTermMemoryEntry) (ms : list LongTermMemoryVersionMaterial)
    (missing differs : string) : result LongTermMemoryVersionMaterial :=
  match find_material o (h_current_revision h) ms with
  | None => plan_error missing
  | Some predecessor =>
      projected ← to_current_projection predecessor;
      _ ← ensure (bool_decide (projected = before))
            (Config "long_term_version_plan" differs);
      Ok predecessor
  end.

Definition plan_create (docs : ScopeDocs) (p : VersionPlan) (id : string)
    (prior : option LongTermMemoryEntry) (entry : LongTermMemoryEntry)
    : result (ScopeDocs * VersionPlan) :=
  _ ← ensure (is_none prior)
        (Config "long_term_version_plan" "create intent observed an existing owner");
  lease ← lease_try_new (pr_max_retained reads);
  bound ← bind_long_term_version_creation
            (mkCreateIntent space owner entry [] (e_updated_at entry)) lease;
  let material := bc_material bound in
  material_key ← long_term_version_material_key space owner (m_owner_ref material)
                   (m_owner_revision material);
  let head := bc_head bound in
  head_key ← long_term_version_head_key space owner (h_owner_ref head);
  _ ← ensure (negb (existsb (λ h, bool_decide (h_owner_ref h = h_owner_ref head))
                      (sd_heads docs)))
        (Config "long_term_version_plan" "new owner already has a typed head");
  let p := require p LONG_TERM_VERSION_MATERIAL_NAMESPACE material_key None in
  let p := require p LONG_TERM_HEAD_MANIFEST_NAMESPACE head_key None in
  p ← planned_json_put p LONG_TERM_VERSION_MATERIAL_NAMESPACE material_key id
        (material_to_value material) MemoryWrite;
  p ← planned_json_put p LONG_TERM_HEAD_MANIFEST_NAMESPACE head_key id (head_to_value head)
        MemoryWrite;
  Ok (mkDocs (sd_heads docs ++ [head]) (sd_materials docs ++ [material]) (sd_transitions docs)
        (sd_bindings docs) (sd_control_revisions docs), p).

Definition successor_head_of (successor : LongTermMemoryVersionMaterial)
    (o : GovernedMemoryOwnerRef) : LongTermMemoryHeadManifest :=
  mkHead LONG_TERM_MEMORY_VERSION_SCHEMA_VERSION space owner o (m_owner_revision successor)
    [retained_digest successor] None 1.

(** An advance to another owner: the predecessor ends, a new owner begins. *)
Definition plan_supersede (docs : ScopeDocs) (p : VersionPlan)
    (before after : LongTermMemoryEntry) (transition : PlanningLongTermTransitionIntent)
    : result (ScopeDocs * VersionPlan) :=
  _ ← ensure (negb (negb (bool_decide (pt_operation transition = Supersede))
                    || negb (e_owner_revision after =? 1)))
        (Config "long_term_version_plan"
           "cross-owner advance must be a new revision-one supersede owner");
  let predecessor_ref := mkOwnerRef LongTerm (e_id before) in
  let successor_ref := mkOwnerRef LongTerm (e_id after) in
  _ ← ensure (negb (existsb (λ h, bool_decide (h_owner_ref h = successor_ref)) (sd_heads docs)))
        (Config "long_term_version_plan" "supersede successor already has a typed head");
  match head_position predecessor_ref (sd_heads docs) with
  | None => plan_error "supersede predecessor is missing its typed head"
  | Some (index, predecessor_head) =>
      _ ← ensure (is_none (h_terminal_transition_ref predecessor_head))
            (Config "long_term_version_plan" "terminal owner cannot be superseded again");
      predecessor ← exact_predecessor predecessor_ref predecessor_head before (sd_materials docs)
                      "supersede predecessor material is missing"
                      "supersede planning read differs from current material";
      bound ← bind_version transition space owner before (Some after) predecessor_head
                (sd_materials docs) (sd_transitions docs) (pr_max_retained reads);
      match bm_retention bound, bm_successor_material bound with
      | StartSuccessorOwner, Some successor =>
          let revision := bm_control_revision bound in
          key ← revision_key revision;
          binding ← transition_binding_new (t_predecessor (cr_transition revision)) key
                      (cr_content_digest revision);
          material_key ← long_term_version_material_key space owner successor_ref
                           (m_owner_revision successor);
          predecessor_key ← long_term_version_head_key space owner predecessor_ref;
          successor_key ← long_term_version_head_key space owner successor_ref;
          let p := require p LONG_TERM_HEAD_MANIFEST_NAMESPACE predecessor_key
                     (pr_head_values reads !! predecessor_key) in
          let p := require p LONG_TERM_HEAD_MANIFEST_NAMESPACE successor_key None in
          let p := require p LONG_TERM_VERSION_MATERIAL_NAMESPACE material_key None in
          let p := require p LONG_TERM_CONTROL_REVISION_NAMESPACE key None in
          closed ← terminal_head predecessor_head predecessor;
          let successor_head := successor_head_of successor successor_ref in
          p ← planned_json_put p LONG_TERM_VERSION_MATERIAL_NAMESPACE material_key (e_id after)
                (material_to_value successor) MemoryWrite;
          p ← planned_json_put p LONG_TERM_HEAD_MANIFEST_NAMESPACE predecessor_key
                (e_id before) (head_to_value closed) MemoryWrite;
          p ← planned_json_put p LONG_TERM_HEAD_MANIFEST_NAMESPACE successor_key (e_id after)
                (head_to_value successor_head) MemoryWrite;
          p ← put_control_revision p key revision;
          p ← match bm_tombstone bound with
              | Some tombstone => put_tombstone p tombstone
              | None => Ok p
              end;
          p ← put_audit p (bm_audit bound);
          Ok (mkDocs (<[index := closed]> (sd_heads docs) ++ [successor_head])
                (sd_materials docs ++ [successor])
                (sd_transitions docs ++ [cr_transition revision])
                (sd_bindings docs ++ [binding])
                (sd_control_revisions docs ++ [revision]), p)
      | StartSuccessorOwner, None => plan_error "supersede binder omitted the successor material"
      | _, _ => plan_error "supersede binder returned a non-supersede retention disposition"
      end
  end.

(** An advance of the same owner: one more revision. *)
Definition plan_append (docs : ScopeDocs) (p : VersionPlan)
    (before after : LongTermMemoryEntry) (transition : PlanningLongTermTransitionIntent)
    : result (ScopeDocs * VersionPlan) :=
  let o := mkOwnerRef LongTerm (e_id before) in
  match head_position o (sd_heads docs) with
  | None => plan_error "advance owner is missing its typed head"
  | Some (index, previous_head) =>
      _ ← ensure (is_none (h_terminal_transition_ref previous_head))
            (Config "long_term_version_plan" "terminal owner cannot advance");
      predecessor ← exact_predecessor o previous_head before (sd_materials docs)
                      "advance owner is missing its current material"
                      "planning read differs from the typed current material";
      bound ← bind_version transition space owner before (Some after) previous_head
                (sd_materials docs) (sd_transitions docs) (pr_max_retained reads);
      match bm_retention bound, bm_successor_material bound with
      | AppendSuccessor, Some successor =>
          let revision := bm_control_revision bound in
          key ← revision_key revision;
          binding ← transition_binding_new (t_predecessor (cr_transition revision)) key
                      (cr_content_digest revision);
          successor_key ← long_term_version_material_key space owner (m_owner_ref successor)
                            (m_owner_revision successor);
          head_key ← long_term_version_head_key space owner (h_owner_ref previous_head);
          let p := require p LONG_TERM_HEAD_MANIFEST_NAMESPACE head_key
                     (pr_head_values reads !! head_key) in
          let p := require p LONG_TERM_VERSION_MATERIAL_NAMESPACE successor_key None in
          let p := require p LONG_TERM_CONTROL_REVISION_NAMESPACE key None in
          p ← planned_json_put p LONG_TERM_VERSION_MATERIAL_NAMESPACE successor_key (e_id after)
                (material_to_value successor) MemoryWrite;
          p ← put_control_revision p key revision;
          manifest_revision ← checked_next_persisted_revision
                                (h_manifest_revision previous_head) "long_term_head_manifest";
          let next_head :=
            with_head previous_head (m_owner_revision successor) manifest_revision
              (h_retained_revision_digests previous_head ++ [retained_digest successor])
              (h_terminal_transition_ref previous_head) in
          p ← planned_json_put p LONG_TERM_HEAD_MANIFEST_NAMESPACE head_key (e_id after)
                (head_to_value next_head) MemoryWrite;
          p ← put_audit p (bm_audit bound);
          Ok (mkDocs (<[index := next_head]> (sd_heads docs))
                (sd_materials docs ++ [successor])
                (sd_transitions docs ++ [cr_transition revision])
                (sd_bindings docs ++ [binding])
                (sd_control_revisions docs ++ [revision]), p)
      | AppendSuccessor, None => plan_error "advance binder omitted the successor material"
      | _, _ => plan_error "advance binder returned a non-append retention disposition"
      end
  end.

Definition plan_advance (docs : ScopeDocs) (p : VersionPlan) (prior : option LongTermMemoryEntry)
    (before after : LongTermMemoryEntry) (transition : PlanningLongTermTransitionIntent)
    : result (ScopeDocs * VersionPlan) :=
  _ ← ensure (bool_decide (prior = Some before))
        (Config "long_term_version_plan"
           "advance intent does not match the exact planning read");
  if bool_decide (e_id before = e_id after) then plan_append docs p before after transition
  else plan_supersede docs p before after transition.

(** The deletes of every retained material of the owner, each at its observed
    value. *)
Definition purge_material (id : string) (p : VersionPlan) (m : LongTermMemoryVersionMaterial)
    : result VersionPlan :=
  key ← long_term_version_material_key space owner (m_owner_ref m) (m_owner_revision m);
  match pr_material_values reads !! key with
  | None => plan_error "terminal material precondition is missing"
  | Some value =>
      let p := require p LONG_TERM_VERSION_MATERIAL_NAMESPACE key (Some value) in
      Ok (planned_json_delete p LONG_TERM_VERSION_MATERIAL_NAMESPACE key id MemoryDelete)
  end.

Definition purge_docs (o : GovernedMemoryOwnerRef) (index : nat) (docs : ScopeDocs) : ScopeDocs :=
  mkDocs (delete index (sd_heads docs))
    (List.filter (λ m, negb (bool_decide (m_owner_ref m = o))) (sd_materials docs))
    (List.filter (λ t, negb (bool_decide (owner_ref (t_predecessor t) = o)))
       (sd_transitions docs))
    (List.filter (λ b, negb (bool_decide (owner_ref (tb_predecessor b) = o)))
       (sd_bindings docs))
    (sd_control_revisions docs).

Definition plan_terminal (docs : ScopeDocs) (p : VersionPlan) (prior : option LongTermMemoryEntry)
    (before : LongTermMemoryEntry) (transition : PlanningLongTermTransitionIntent)
    : result (ScopeDocs * VersionPlan) :=
  _ ← ensure (bool_decide (prior = Some before))
        (Config "long_term_version_plan"
           "terminal intent does not match the exact planning read");
  let o := mkOwnerRef LongTerm (e_id before) in
  match head_position o (sd_heads docs) with
  | None => plan_error "terminal owner is missing its typed head"
  | Some (index, previous_head) =>
      predecessor ← exact_predecessor o previous_head before (sd_materials docs)
                      "terminal owner is missing its current material"
                      "terminal planning read differs from current material";
      bound ← bind_version transition space owner before None previous_head
                (sd_materials docs) (sd_transitions docs) (pr_max_retained reads);
      let revision := bm_control_revision bound in
      match bm_retention bound with
      | RetainOperatorOnly =>
          key ← revision_key revision;
          let p := require p LONG_TERM_CONTROL_REVISION_NAMESPACE key None in
          p ← put_control_revision p key revision;
          binding ← transition_binding_new (t_predecessor (cr_transition revision)) key
                      (cr_content_digest revision);
          head_key ← long_term_version_head_key space owner o;
          let p := require p LONG_TERM_HEAD_MANIFEST_NAMESPACE head_key
                     (pr_head_values reads !! head_key) in
          closed ← terminal_head previous_head predecessor;
          p ← planned_json_put p LONG_TERM_HEAD_MANIFEST_NAMESPACE head_key (e_id before)
                (head_to_value closed) MemoryWrite;
          p ← put_audit p (bm_audit bound);
          Ok (mkDocs (<[index := closed]> (sd_heads docs)) (sd_materials docs)
                (sd_transitions docs ++ [cr_transition revision])
                (sd_bindings docs ++ [binding])
                (sd_control_revisions docs ++ [revision]), p)
      | PurgeOwner =>
          key ← revision_key revision;
          let p := require p LONG_TERM_CONTROL_REVISION_NAMESPACE key None in
          p ← put_control_revision p key revision;
          _ ← transition_binding_new (t_predecessor (cr_transition revision)) key
                (cr_content_digest revision);
          p ← try_fold (purge_material (e_id before)) p (owner_materials o (sd_materials docs));
          head_key ← long_term_version_head_key space owner o;
          let p := require p LONG_TERM_HEAD_MANIFEST_NAMESPACE head_key
                     (pr_head_values reads !! head_key) in
          let p := planned_json_delete p LONG_TERM_HEAD_MANIFEST_NAMESPACE head_key
                     (e_id before) MemoryDelete in
          match bm_tombstone bound with
          | None => plan_error "purge binder omitted the typed tombstone"
          | Some tombstone =>
              p ← put_tombstone p tombstone;
              p ← put_audit p (bm_audit bound);
              Ok (purge_docs o index docs, p)
          end
      | _ => plan_error "terminal binder returned a non-terminal retention disposition"
      end
  end.

Definition plan_change (state : ScopeDocs * VersionPlan)
    (change : string * PlanningLongTermVersionIntent) : result (ScopeDocs * VersionPlan) :=
  let '(docs, p) := state in
  let '(id, value) := change in
  prior ← planning_prior id;
  match value with
  | PlanCreate entry => plan_create docs p id prior entry
  | PlanAdvance before after transition => plan_advance docs p prior before after transition
  | PlanTerminal before transition => plan_terminal docs p prior before transition
  end.

(** ** Admission of the documents, and the next scope manifest *)

Definition binding_drifts (revisions : list LongTermMemoryControlRevision)
    (b : LongTermMemoryVersionTransitionBinding) : bool :=
  match find (λ r, bool_decide (t_predecessor (cr_transition r) = tb_predecessor b)) revisions with
  | None => true
  | Some r =>
      negb (bool_decide (cr_content_digest r = tb_control_revision_content_digest b))
      || negb (digest_is (revision_key r) (tb_control_revision_physical_key b))
  end.

Definition admit_scope (previous : option LongTermMemoryVersionScopeManifest) (docs : ScopeDocs)
    : result unit :=
  match previous with
  | Some scope =>
      ensure (negb (negb (accepted (validate_exact scope (sd_heads docs) (sd_materials docs)
                                      (sd_transitions docs) (sd_bindings docs)
                                      (pr_max_retained reads)))
                    || existsb (λ r, negb (is_ok (control_validate_contract r)))
                         (sd_control_revisions docs)
                    || existsb (binding_drifts (sd_control_revisions docs)) (sd_bindings docs)))
        (Config "long_term_version_plan" "existing typed long-term root closure is invalid")
  | None =>
      ensure (negb (negb (bool_decide (sd_heads docs = []))
                    || negb (bool_decide (sd_materials docs = []))
                    || negb (bool_decide (sd_control_revisions docs = []))
                    || negb (bool_decide (sd_bindings docs = []))))
        (Config "long_term_version_plan"
           "typed long-term documents exist without their scope root")
  end.

Definition next_scope_revision (previous : option LongTermMemoryVersionScopeManifest)
    : result N :=
  match previous with
  | None => Ok 1
  | Some scope => checked_next_persisted_revision (s_manifest_revision scope)
                    "long_term_scope_manifest"
  end.

(** The observed values, required unchanged. *)
Definition require_values (namespace : string) (values : gmap string Value) (p : VersionPlan)
    : VersionPlan :=
  foldl (λ p kv, require p namespace kv.1 (Some kv.2)) p
    (sort_by (λ a b, leb a.1 b.1) (map_to_list values)).

Definition finish_plan (previous_value : option Value) (revision : N)
    (state : ScopeDocs * VersionPlan)
    : result (ScopeDocs * LongTermMemoryVersionScopeManifest * VersionPlan) :=
  let '(docs, p) := state in
  scope_key ← long_term_version_scope_manifest_key space owner;
  next_scope ← scope_manifest_build space owner revision (sd_heads docs) (sd_materials docs)
                 (sd_transitions docs) (sd_bindings docs) (pr_max_retained reads);
  let p := require p LONG_TERM_VERSION_SCOPE_MANIFEST_NAMESPACE scope_key previous_value in
  p ← planned_json_put p LONG_TERM_VERSION_SCOPE_MANIFEST_NAMESPACE scope_key
        (space +:+ ":" +:+ owner) (scope_to_value next_scope) MemoryWrite;
  preconditions ← merge_json_preconditions [] (vp_preconditions p);
  Ok (docs, next_scope, mkVersionPlan (vp_mutations p) preconditions).

Definition into_plan (previous : option LongTermMemoryVersionScopeManifest)
    (previous_value : option Value) (docs : ScopeDocs) (source_preconditions : VersionPlan)
    (changes : list (string * PlanningLongTermVersionIntent))
    : result (ScopeDocs * LongTermMemoryVersionScopeManifest * VersionPlan) :=
  _ ← admit_scope previous docs;
  revision ← next_scope_revision previous;
  let p := require_values LONG_TERM_HEAD_MANIFEST_NAMESPACE (pr_head_values reads)
             source_preconditions in
  let p := require_values LONG_TERM_VERSION_MATERIAL_NAMESPACE (pr_material_values reads) p in
  let p := require_values LONG_TERM_CONTROL_REVISION_NAMESPACE
             (pr_control_revision_values reads) p in
  state ← try_fold plan_change (docs, p) changes;
  finish_plan previous_value revision state.

End Reads.
End Plan.
