(* ===== verification/LongTermSteps.v ===== *)
(** * Long-term memory: what the version operations preserve

    Inversion of the contracts and of the binders, and the effect of each
    planning step on a closed scope. *)

From S2P Require Import Prelude RustStr RustOrd Governed LongTermEntry LongTermVersion.
From S2P Require Import LongTermClosure LongTermControl LongTermPlan StoreTypes ReadSession.

Local Open Scope string_scope.
Local Open Scope list_scope.
Local Open Scope N_scope.

Section Steps.
Context {vc : VersionCodec} {laws : VersionCodecLaws}.

(** ** Contracts *)

Lemma digest_is_spec r d : digest_is r d = true ↔ r = Ok d.
Proof.
  unfold digest_is. destruct r; [|done]. rewrite bool_decide_eq_true. naive_solver.
Qed.

(** What a material contract says of identity, lineage and digest. *)
Lemma material_ok_inv m :
  material_ok m →
  m_schema_version m = LONG_TERM_MEMORY_VERSION_SCHEMA_VERSION
  ∧ not_canonical (m_memory_space_id m) = false ∧ m_factual_owner_id m = m_memory_space_id m
  ∧ owner_plane (m_owner_ref m) = LongTerm
  ∧ revision_ref_is_valid (owner_revision_ref m) = true
  ∧ failures (origin_validate_for (m_origin m) (owner_revision_ref m)) = []
  ∧ canonical_content_digest m = Ok (m_content_digest m).
Proof.
  unfold material_ok, validate_contract.
  rewrite contract_validation_accepted, !app_nil, !push_if_nil.
  intros (H1 & H2 & _ & _ & _ & _ & H3). unfold content_mismatch in H3.
  split_bool. split_and!; try done. by apply digest_is_spec.
Qed.

(** A revision above one continues its own owner; revision one has no
    predecessor or one of another owner. *)
Lemma material_ok_origin m :
  material_ok m →
  match origin_predecessor (m_origin m) with
  | None => m_owner_revision m = 1
  | Some p =>
      (m_owner_revision m = 1 ∧ owner_ref p ≠ m_owner_ref m)
      ∨ (m_owner_revision m ≠ 1 ∧ owner_ref p = m_owner_ref m
         ∧ owner_revision p + 1 = m_owner_revision m)
  end.
Proof.
  intros (_&_&_&_&_&Ho&_)%material_ok_inv. unfold origin_validate_for in Ho.
  rewrite failures_contract_nil, !app_nil in Ho. destruct Ho as (_ & _ & Ho).
  destruct (origin_predecessor (m_origin m)) as [p|]; cbn in Ho.
  - destruct (m_owner_revision m =? 1) eqn:E; split_bool.
    + apply app_nil in Ho as [_ Ho]. apply push_if_nil in Ho. split_bool. by left.
    + apply push_if_nil in Ho. split_bool. right. split_and!; try done.
      unfold u64_checked_add in *. destruct (_ <=? _); cbn in *; [by split_bool|done].
  - apply push_if_nil in Ho. by split_bool.
Qed.

Lemma material_digest_lowercase m : material_ok m → is_lowercase_sha256 (m_content_digest m) = true.
Proof using laws.
  intros (_&_&_&_&_&_&Hd)%material_ok_inv. unfold canonical_content_digest in Hd. inv_ok.
  match goal with H : _ = m_content_digest m |- _ => rewrite <- H end.
  unfold domain_separated_sha256. apply sha256_hex_lowercase.
Qed.

(** The end of a revision, by the kind of its termination. *)
Definition termination_fits (t : Transition) : Prop :=
  match t_termination t with
  | Revised | Corrected =>
      owner_revision (t_predecessor t) + 1 ≤ u64_max
      ∧ t_successor t = Some (mkRevisionRef (owner_ref (t_predecessor t))
                                (owner_revision (t_predecessor t) + 1))
  | TSuperseded =>
      ∃ s, t_successor t = Some s
           ∧ owner_plane (owner_ref s) = owner_plane (owner_ref (t_predecessor t))
           ∧ owner_id (owner_ref s) ≠ owner_id (owner_ref (t_predecessor t))
           ∧ owner_revision s = 1
  | TInvalidated | TDeleted | TForgotten => t_successor t = None
  end.

Lemma transition_ok_inv t pm sm :
  transition_ok t pm sm →
  material_ok pm ∧ t_predecessor t = owner_revision_ref pm
  ∧ origin_valid_from (m_origin pm) < t_terminated_at t
  ∧ termination_fits t
  ∧ match t_successor t, sm with
    | Some r, Some s =>
        material_ok s ∧ owner_revision_ref s = r ∧ revision_ref_is_valid r = true
        ∧ m_memory_space_id s = m_memory_space_id pm
        ∧ m_factual_owner_id s = m_factual_owner_id pm
        ∧ origin_predecessor (m_origin s) = Some (t_predecessor t)
        ∧ origin_valid_from (m_origin s) = t_terminated_at t
    | None, None => True
    | _, _ => False
    end.
Proof.
  unfold transition_ok, transition_validate_contract.
  rewrite contract_validation_accepted, !app_nil, !push_if_nil, material_ok_failures.
  intros (Hpm & H1 & H2 & H3 & H4 & H5). split_bool. split_and!; try assumption.
  - clear Hpm H4. unfold termination_fits.
    destruct (t_termination t) eqn:E; apply push_if_nil in H5.
    1,2: apply negb_false_iff in H5; destruct (t_successor t) as [[o n]|]; [|done];
      cbn in H5; unfold u64_checked_add in H5; split_bool;
      destruct (_ <=? _) eqn:El; [|done]; cbn in *; split_bool; by subst.
    + apply negb_false_iff in H5. destruct (t_successor t) as [s|]; [|done].
      cbn in H5. split_bool. eauto.
    + cbn in H5. split_bool. by destruct (t_successor t).
    + cbn in H5. split_bool. by destruct (t_successor t).
    + cbn in H5. split_bool. by destruct (t_successor t).
  - destruct (t_successor t) as [r|], sm as [s|]; try done.
    apply app_nil in H4 as [H4 H6]. apply push_if_nil in H6. cbn in H3. split_bool.
    split_and!; try assumption. by apply material_ok_failures.
Qed.

(** ** Counting *)

Lemma owner_materials_spec o ms m :
  m ∈ owner_materials o ms ↔ m ∈ ms ∧ m_owner_ref m = o.
Proof. unfold owner_materials. rewrite elem_of_List_filter, bool_decide_eq_true. tauto. Qed.

Lemma owner_materials_NoDup o ms :
  NoDup (owner_revision_ref <$> ms) → NoDup (owner_revision_ref <$> owner_materials o ms).
Proof.
  unfold owner_materials. induction ms as [|a ms IH]; [done|]. cbn.
  intros [Ha Hnd]%NoDup_cons. case_bool_decide; [|by apply IH]. cbn. apply NoDup_cons.
  split; [|by apply IH]. intros (b & E & [_ Hb]%elem_of_List_filter)%list_elem_of_fmap.
  destruct Ha. rewrite E. by apply list_elem_of_fmap_2.
Qed.

(** The retained digests of a head are those of its materials, one each. *)
Lemma retained_perm (heads : list Head) (ms : list Material) (h : Head) :
  NoDup (owner_revision_ref <$> ms) → head_ok h → h ∈ heads →
  (∀ h d, h ∈ heads → d ∈ h_retained_revision_digests h ↔
     ∃ m, m ∈ ms ∧ m_owner_ref m = h_owner_ref h ∧ d = retained_digest m) →
  h_retained_revision_digests h ≡ₚ retained_digest <$> owner_materials (h_owner_ref h) ms.
Proof.
  intros Hnd Hok Hh Hr. apply NoDup_Permutation.
  - apply head_ok_inv in Hok as (_&_&_&_&_&_&_&_&_&Hs&_). apply strict_NoDup in Hs.
    unfold head_revisions in Hs. by eapply NoDup_fmap_1.
  - pose proof (owner_materials_NoDup (h_owner_ref h) ms Hnd) as Hn.
    assert (Ho : ∀ m, m ∈ owner_materials (h_owner_ref h) ms → m_owner_ref m = h_owner_ref h).
    { intros m Hm. by apply owner_materials_spec in Hm as [_ ?]. }
    revert Hn Ho. generalize (owner_materials (h_owner_ref h) ms). clear.
    intros l. induction l as [|a l IH]; cbn; intros Hn Ho; [constructor|].
    apply NoDup_cons in Hn as [Ha Hn]. apply NoDup_cons. split.
    + intros (b & E & Hb)%list_elem_of_fmap. destruct Ha. apply list_elem_of_fmap. exists b.
      split; [|done]. unfold owner_revision_ref. unfold retained_digest in E. injection E as E1 E2.
      by rewrite E1, (Ho a ltac:(by left)), (Ho b ltac:(by right)).
    + apply IH; [done|]. intros m Hm. apply Ho. by right.
  - intros d. rewrite Hr by done. rewrite list_elem_of_fmap. setoid_rewrite owner_materials_spec.
    naive_solver.
Qed.

(** Materials are shared out among the heads. *)
Lemma materials_partition (heads : list Head) (ms : list Material) :
  NoDup (h_owner_ref <$> heads) →
  (∀ m, m ∈ ms → ∃ h, h ∈ heads ∧ h_owner_ref h = m_owner_ref m) →
  ms ≡ₚ concat ((λ h, owner_materials (h_owner_ref h) ms) <$> heads).
Proof.
  revert ms. induction heads as [|h heads IH]; intros ms Hnd Hown.
  - destruct ms as [|m ms]; [done|]. destruct (Hown m ltac:(by left)) as (h & []%not_elem_of_nil & _).
  - cbn in *. apply NoDup_cons in Hnd as [Hh Hnd].
    assert (Hsplit : ms ≡ₚ owner_materials (h_owner_ref h) ms
              ++ List.filter (λ m, negb (bool_decide (m_owner_ref m = h_owner_ref h))) ms).
    { clear. induction ms as [|a ms IH]; [done|]. cbn. case_bool_decide; cbn.
      - by rewrite <- IH.
      - rewrite <- Permutation_middle. by rewrite <- IH. }
    rewrite Hsplit at 1. apply Permutation_app_head.
    set (rest := List.filter _ ms). rewrite (IH rest).
    + apply reflexive_eq. f_equal. apply list_fmap_ext. intros i h' Hi.
      assert (h_owner_ref h' ≠ h_owner_ref h) as Hne.
      { intros E. destruct Hh. rewrite <- E. apply list_elem_of_fmap_2.
        by eapply list_elem_of_lookup_2. }
      unfold rest, owner_materials. clear -Hne. induction ms as [|a ms IH]; [done|]. cbn.
      repeat case_bool_decide; cbn; rewrite ?bool_decide_eq_true_2, ?bool_decide_eq_false_2 by congruence;
        rewrite ?IH; congruence.
    + done.
    + intros m [Hm Hin]%elem_of_List_filter. split_bool.
      destruct (Hown m Hin) as (h' & [->|Hh']%elem_of_cons & E); [congruence|eauto].
Qed.

Lemma materials_bounded (heads : list Head) (ms : list Material) max_retained :
  NoDup (h_owner_ref <$> heads) →
  (∀ m, m ∈ ms → ∃ h, h ∈ heads ∧ h_owner_ref h = m_owner_ref m) →
  (∀ h, h ∈ heads → len (owner_materials (h_owner_ref h) ms) ≤ max_retained) →
  len ms ≤ len heads * max_retained.
Proof.
  intros Hnd Hown Hle. unfold len.
  rewrite (Permutation_length (materials_partition heads ms Hnd Hown)).
  revert Hle. clear. unfold len. intros Hle. induction heads as [|h heads IH]; [done|].
  cbn [fmap list_fmap map concat]. rewrite length_app.
  pose proof (Hle h ltac:(by left)). cbn [length].
  assert (Hrest : ∀ h, h ∈ heads → N.of_nat (length (owner_materials (h_owner_ref h) ms)) ≤ max_retained).
  { intros h' Hh'. apply Hle. by right. }
  specialize (IH Hrest). change (list_fmap Head (list Material)) with (@fmap list _ Head (list Material)). lia.
Qed.

(** The count of materials follows from the other clauses. *)
Lemma closed_intro memory_space_id factual_owner_id (heads : list Head) (ms : list Material)
    (ts : list Transition) max_retained :
  (not_canonical memory_space_id = false ∧ factual_owner_id = memory_space_id
   ∧ max_retained ≠ 0) →
  (∀ h, h ∈ heads →
    head_ok h ∧ h_memory_space_id h = memory_space_id ∧ h_factual_owner_id h = factual_owner_id
    ∧ len (h_retained_revision_digests h) ≤ max_retained) →
  NoDup (h_owner_ref <$> heads) →
  len heads * max_retained ≤ usize_max →
  (∀ m, m ∈ ms → material_ok m ∧ m_memory_space_id m = memory_space_id
                 ∧ m_factual_owner_id m = factual_owner_id) →
  NoDup (owner_revision_ref <$> ms) →
  (∀ h d, h ∈ heads → d ∈ h_retained_revision_digests h ↔
    ∃ m, m ∈ ms ∧ m_owner_ref m = h_owner_ref h ∧ d = retained_digest m) →
  (∀ m, m ∈ ms → ∃ h, h ∈ heads ∧ h_owner_ref h = m_owner_ref m) →
  (∀ h m, h ∈ heads → m ∈ ms → m_owner_ref m = h_owner_ref h →
    m_owner_revision m ≠ h_current_revision h →
    m_owner_revision m + 1 ≤ u64_max
    ∧ ∃ m', m' ∈ ms ∧ m_owner_ref m' = h_owner_ref h
            ∧ m_owner_revision m' = m_owner_revision m + 1) →
  transitions_closed heads ms ts →
  scope_closed memory_space_id factual_owner_id heads ms ts max_retained.
Proof.
  intros Hs Hh Hhu Hc Hm Hmu Hr Hown Hcont (Htu & Hiff & Htok). split; try done.
  split; [done|]. apply materials_bounded; [done..|]. intros h Hin.
  destruct (Hh h Hin) as (Hok & _ & _ & Hle).
  pose proof (Permutation_length (retained_perm heads ms h Hmu Hok Hin Hr)) as Hlen.
  rewrite length_fmap in Hlen. unfold len in *. lia.
Qed.

End Steps.

Section Binding.
Context {codec : StoreCodec} {vc : VersionCodec} {laws : VersionCodecLaws} {cc : ControlCodec}.
Context {pc : PlanCodec}.

(** ** The binder *)

Lemma current_material_inv s lease m :
  current_material s lease = Ok m →
  scope_closed (h_memory_space_id (sn_head s)) (h_factual_owner_id (sn_head s)) [sn_head s]
    (sn_retained_materials s) (sn_transitions s) (max_retained_revisions_per_owner lease)
  ∧ h_terminal_transition_ref (sn_head s) = None
  ∧ m ∈ sn_retained_materials s ∧ m_owner_ref m = h_owner_ref (sn_head s)
  ∧ m_owner_revision m = h_current_revision (sn_head s).
Proof.
  unfold current_material. intros H. inv_ok. split_bool.
  rewrite <- scope_closure_decides.
  destruct (find _ _) as [m'|] eqn:Ef; [|done]. injection H as ->.
  apply find_some in Ef as [Hin Hb]. split_bool. apply list_elem_of_In in Hin.
  split_and!; try assumption. by apply is_none_true.
Qed.

Lemma control_revision_bind_inv i pm sm r :
  control_revision_bind i pm sm = Ok r →
  ∃ next, u64_checked_add (origin_valid_from (m_origin pm)) 1 = Some next
  ∧ cr_transition r = mkTransition (t_predecessor (ri_transition i))
                        (N.max (ri_created_at i) next)
                        (t_termination (ri_transition i)) (t_successor (ri_transition i))
  ∧ transition_ok (cr_transition r) pm sm
  ∧ cr_revision_id r = ri_revision_id i
  ∧ control_content_digest r = Ok (cr_content_digest r).
Proof.
  unfold control_revision_bind. intros H. inv_ok. destruct (u64_checked_add _ _) as [next|]; [|done].
  inv_ok. split_bool. exists next. cbn [cr_transition cr_revision_id with_control_digest cr_content_digest].
  split_and!; try assumption; try reflexivity.
Qed.

(** The successor of a binding is the material of the staged projection. *)
Lemma bind_successor_owner i authority projection pm at_ refs sm :
  bind_successor i authority projection pm at_ refs = Ok sm →
  m_owner_ref <$> sm = (λ e, mkOwnerRef LongTerm (e_id e)) <$> projection.
Proof.
  unfold bind_successor. intros H. inv_ok. destruct projection as [e|]; cbn in *.
  - inv_ok. cbn. unfold from_current_projection in *. inv_ok. done.
  - by inv_ok.
Qed.

(** What a bound mutation is made of. *)
Lemma bind_mutation_inv intent s lease b :
  bind_long_term_version_mutation intent s lease = Ok b →
  let i := mi_control_revision_intent intent in
  let t := cr_transition (bm_control_revision b) in
  current_material s lease = Ok (bm_predecessor_material b)
  ∧ t_termination t = t_termination (ri_transition i)
  ∧ t_successor t = t_successor (ri_transition i)
  ∧ t_terminated_at t = bm_effective_at b
  ∧ t_predecessor t = owner_revision_ref (bm_predecessor_material b)
  ∧ transition_ok t (bm_predecessor_material b) (bm_successor_material b)
  ∧ mutation_retention (ri_operation i) (bm_successor_material b) s lease = Ok (bm_retention b)
  ∧ cr_revision_id (bm_control_revision b) = ri_revision_id i
  ∧ control_content_digest (bm_control_revision b)
    = Ok (cr_content_digest (bm_control_revision b))
  ∧ m_owner_ref <$> bm_successor_material b
    = (λ e, mkOwnerRef LongTerm (e_id e)) <$> mi_successor_projection intent.
Proof.
  unfold bind_long_term_version_mutation. intros H. inv_ok.
  destruct (u64_checked_add _ _) as [next|] eqn:Enext; [|done]. inv_ok.
  cbn [bm_effective_at bm_predecessor_material bm_successor_material bm_control_revision
       bm_retention].
  match goal with H : control_revision_bind _ _ _ = Ok ?r |- _ =>
    destruct (control_revision_bind_inv _ _ _ _ H) as (next' & En & Ht & Hok & Hid & Hd) end.
  rewrite Enext in En. injection En as <-.
  pose proof (transition_ok_inv _ _ _ Hok) as (_ & Hp & _).
  match goal with H : bind_successor _ _ _ _ _ _ = _ |- _ =>
    pose proof (bind_successor_owner _ _ _ _ _ _ _ H) end.
  split_and!; try assumption; try reflexivity; rewrite Ht; reflexivity.
Qed.

(** The staged operation fixes how the revision ends. *)
Lemma for_owner_change_inv id op before after reason fo actor space at_ refs code i :
  for_owner_change_with_invalidation_reason id op before after reason fo actor space at_ refs code
  = Ok i →
  operation_termination op = Ok (t_termination (ri_transition i))
  ∧ ri_operation i = op ∧ ri_revision_id i = id.
Proof.
  unfold for_owner_change_with_invalidation_reason. intros H. inv_ok. done.
Qed.

Lemma bind_scope_inv p space mounted before after i :
  bind_scope p space mounted before after = Ok i →
  operation_termination (pt_operation p) = Ok (t_termination (ri_transition i))
  ∧ ri_operation i = pt_operation p.
Proof.
  unfold bind_scope. case_bool_decide as Ho.
  - destruct (pt_invalidation_reason_code p), (pt_actor_subject_id p); try done.
    rewrite Ho. intros H%for_owner_change_inv. destruct H as (H1 & H2 & _). by split.
  - intros H. inv_ok. cbn. unfold for_owner_change in *.
    match goal with H : for_owner_change_with_invalidation_reason _ _ _ _ _ _ _ _ _ _ _ = _ |- _ =>
      apply for_owner_change_inv in H as (H1 & H2 & _) end. by split.
Qed.

Lemma lease_inv n lease : lease_try_new n = Ok lease → max_retained_revisions_per_owner lease = n ∧ n ≠ 0.
Proof. unfold lease_try_new. intros H. inv_ok. split_bool. done. Qed.

(** A version bound against the documents of a scope. *)
Lemma bind_version_inv p space mounted before after head ms ts max_retained b :
  bind_version p space mounted before after head ms ts max_retained = Ok b →
  let t := cr_transition (bm_control_revision b) in
  let pm := bm_predecessor_material b in
  h_terminal_transition_ref head = None
  ∧ scope_closed (h_memory_space_id head) (h_factual_owner_id head) [head]
      (owner_materials (h_owner_ref head) ms)
      (List.filter (λ t, bool_decide (owner_ref (t_predecessor t) = h_owner_ref head)) ts)
      max_retained
  ∧ pm ∈ ms ∧ m_owner_ref pm = h_owner_ref head ∧ m_owner_revision pm = h_current_revision head
  ∧ operation_termination (pt_operation p) = Ok (t_termination t)
  ∧ t_predecessor t = owner_revision_ref pm
  ∧ transition_ok t pm (bm_successor_material b)
  ∧ m_owner_ref <$> bm_successor_material b
    = (λ e, mkOwnerRef LongTerm (e_id e)) <$> after
  ∧ match bm_retention b with
    | AppendSuccessor =>
        len (owner_materials (h_owner_ref head) ms) < max_retained
        ∧ (t_termination t = Revised ∨ t_termination t = Corrected)
    | StartSuccessorOwner => t_termination t = TSuperseded
    | RetainOperatorOnly => t_termination t = TInvalidated
    | PurgeOwner => t_termination t = TDeleted ∨ t_termination t = TForgotten
    end.
Proof.
  unfold bind_version. intros H. inv_ok.
  match goal with H : lease_try_new _ = _ |- _ => apply lease_inv in H as [Hl Hmax] end.
  match goal with H : bind_scope _ _ _ _ _ = _ |- _ => apply bind_scope_inv in H as [Hop Hri] end.
  apply bind_mutation_inv in H. cbn [mi_control_revision_intent] in H.
  destruct H as (Hc & Hterm & _ & _ & Hp & Hok & Hret & _ & _ & Hown).
  apply current_material_inv in Hc as (Hcl & Hnt & Hin & Ho & Hrev).
  cbn [sn_head sn_retained_materials sn_transitions] in *. rewrite Hl in Hcl.
  apply owner_materials_spec in Hin as [Hin _].
  rewrite Hterm. split_and!; try assumption.
  unfold mutation_retention in Hret. rewrite Hri in Hret. rewrite Hl in Hret. clear Hok Hp Hterm Hown.
  destruct (pt_operation p) eqn:Ep; cbn in Hop; inv_ok; try congruence;
    repeat match goal with H : _ = bm_retention b |- _ => rewrite <- H end; try naive_solver.
  all: cbn [sn_retained_materials] in *; split_bool; split; [assumption|]; naive_solver.
Qed.

End Binding.
