(* ===== verification/LongTermScope.v ===== *)
(** * Long-term memory: planning steps keep the scope closed *)

From S2P Require Import Prelude RustStr RustOrd Governed LongTermEntry LongTermVersion.
From S2P Require Import LongTermClosure LongTermControl LongTermPlan LongTermSteps.
From S2P Require Import StoreTypes ReadSession.

Local Open Scope string_scope.
Local Open Scope list_scope.
Local Open Scope N_scope.

(** ** Lists with distinct keys *)

Lemma NoDup_key_unique {A B} (f : A → B) (l : list A) x y :
  NoDup (f <$> l) → x ∈ l → y ∈ l → f x = f y → x = y.
Proof.
  induction l as [|a l IH]; [by intros _ ?%not_elem_of_nil|]. cbn. intros [Ha Hnd]%NoDup_cons.
  intros [->|Hx]%elem_of_cons [->|Hy]%elem_of_cons E; [done|..].
  - destruct Ha. rewrite E. by apply list_elem_of_fmap_2.
  - destruct Ha. rewrite <- E. by apply list_elem_of_fmap_2.
  - by apply IH.
Qed.

Lemma StronglySorted_snoc {A} (R : A → A → Prop) l b :
  StronglySorted R l → (∀ a, a ∈ l → R a b) → StronglySorted R (l ++ [b]).
Proof.
  induction 1 as [|a l Hl IH Ha]; intros Hb; cbn; [repeat constructor|].
  constructor; [apply IH; intros c Hc; apply Hb; by right|].
  apply Forall_app. split; [done|]. constructor; [apply Hb; by left|constructor].
Qed.

Lemma NoDup_fmap_filter {A B} (f : A → B) (P : A → bool) (l : list A) :
  NoDup (f <$> l) → NoDup (f <$> List.filter P l).
Proof.
  induction l as [|a l IH]; [done|]. cbn. intros [Ha Hnd]%NoDup_cons.
  destruct (P a); [|by apply IH]. cbn. apply NoDup_cons. split; [|by apply IH].
  intros (b & E & [_ Hb]%elem_of_List_filter)%list_elem_of_fmap. destruct Ha. rewrite E.
  by apply list_elem_of_fmap_2.
Qed.

(** Replacing an element by one with the same key. *)
Lemma insert_same_key {A B} (f : A → B) (l : list A) i x y :
  NoDup (f <$> l) → l !! i = Some x → f y = f x →
  f <$> <[i := y]> l = f <$> l
  ∧ ∀ z, z ∈ <[i := y]> l ↔ z = y ∨ (z ∈ l ∧ f z ≠ f x).
Proof.
  revert i. induction l as [|a l IH]; intros i Hnd Hi Hf; [done|].
  cbn in Hnd. apply NoDup_cons in Hnd as [Ha Hnd]. destruct i as [|i]; cbn in Hi |- *.
  - injection Hi as ->. rewrite Hf. split; [done|]. intros z. rewrite !elem_of_cons. split.
    + intros [->|Hz]; [by left|]. right. split; [by right|]. intros E. destruct Ha.
      rewrite <- E. by apply list_elem_of_fmap_2.
    + intros [->|[[->|Hz] Hne]]; [by left|done|by right].
  - destruct (IH i Hnd Hi Hf) as [IH1 IH2]. split; [f_equal; exact IH1|]. intros z.
    rewrite !elem_of_cons, IH2. split; [|tauto]. intros [->|[->|[Hz Hne]]]; [|by left|tauto].
    right. split; [by left|]. intros E. destruct Ha. rewrite E. apply list_elem_of_fmap_2.
    by eapply list_elem_of_lookup_2.
Qed.

Lemma delete_key {A B} (f : A → B) (l : list A) i x :
  NoDup (f <$> l) → l !! i = Some x →
  NoDup (f <$> delete i l) ∧ ∀ z, z ∈ delete i l ↔ z ∈ l ∧ f z ≠ f x.
Proof.
  revert i. induction l as [|a l IH]; intros i Hnd Hi; [done|].
  cbn in Hnd. apply NoDup_cons in Hnd as [Ha Hnd]. destruct i as [|i]; cbn in Hi |- *.
  - injection Hi as ->. split; [done|]. intros z. rewrite elem_of_cons. split.
    + intros Hz. split; [by right|]. intros E. destruct Ha. rewrite <- E. by apply list_elem_of_fmap_2.
    + intros [[->|Hz] Hne]; done.
  - destruct (IH i Hnd Hi) as [IH1 IH2]. change (delete (S i) (a :: l)) with (a :: delete i l).
    split.
    + cbn. apply NoDup_cons. split; [|done]. intros (z & E & [Hz _]%IH2)%list_elem_of_fmap.
      destruct Ha. rewrite E. by apply list_elem_of_fmap_2.
    + intros z. rewrite !elem_of_cons, IH2. split; [|tauto]. intros [->|[Hz Hne]]; [|tauto].
      split; [by left|]. intros E. destruct Ha. rewrite E. apply list_elem_of_fmap_2.
      by eapply list_elem_of_lookup_2.
Qed.

Section Scope.
Context {vc : VersionCodec} {laws : VersionCodecLaws}.
Context (space owner : string) (max_retained : N).

(** The successor a kept transition names is still found among more materials. *)
Lemma transition_stable (ms ms' : list Material) (t : Transition) (pm : Material) :
  NoDup (owner_revision_ref <$> ms) → NoDup (owner_revision_ref <$> ms') →
  (∀ m, m ∈ ms → t_successor t = Some (owner_revision_ref m) → m ∈ ms') →
  transition_ok t pm (t_successor t ≫= material_at ms) →
  transition_ok t pm (t_successor t ≫= material_at ms').
Proof.
  intros Hnd Hnd' Hsub Hok. destruct (t_successor t) as [r|] eqn:Es; [|done]. cbn in *.
  destruct (material_at ms r) as [m|] eqn:E.
  - apply material_at_spec in E as [Hin Hr]; [|done].
    assert (material_at ms' r = Some m) as ->; [|done].
    apply material_at_spec; [done|]. split; [apply Hsub; [done|by rewrite Hr]|done].
  - apply transition_ok_inv in Hok as (_&_&_&_&H). by rewrite Es in H.
Qed.

(** The current revision of an open head has no transition yet. *)
Lemma open_head_fresh heads ms ts h pm :
  scope_closed space owner heads ms ts max_retained →
  h ∈ heads → h_terminal_transition_ref h = None →
  m_owner_ref pm = h_owner_ref h → m_owner_revision pm = h_current_revision h →
  owner_revision_ref pm ∉ t_predecessor <$> ts.
Proof.
  intros Hc Hh Hopen Ho Hr. rewrite (closed_expected _ _ _ _ _ _ Hc).
  pose proof (closed_heads_unique _ _ _ _ _ _ Hc) as Hu.
  intros [(x & Hx & Ht)|(x & m & Hx & Hm & Hxo & Hne & E)].
  - destruct (closed_head _ _ _ _ _ _ Hc x Hx) as [Hok _].
    apply head_ok_inv in Hok as (_&_&_&_&_&_&_&_&_&_&Hterm). specialize (Hterm _ Ht).
    injection Hterm as Ex _. assert (x = h) as ->; [|congruence].
    eapply (NoDup_key_unique h_owner_ref); [done..|]. by rewrite <- Ho, Ex.
  - injection E as E1 E2. assert (x = h) as ->; [|congruence].
    eapply (NoDup_key_unique h_owner_ref); [done..|]. congruence.
Qed.

Lemma current_is_material heads ms ts h :
  scope_closed space owner heads ms ts max_retained → h ∈ heads →
  ∀ m, m ∈ ms → m_owner_ref m = h_owner_ref h → m_owner_revision m ≤ h_current_revision h.
Proof.
  intros Hc Hh m Hm Ho. destruct (closed_head _ _ _ _ _ _ Hc h Hh) as [Hok _].
  apply head_current_greatest; [done|].
  by eapply (owned_revision_retained heads ms (closed_retained _ _ _ _ _ _ Hc)).
Qed.

(** Revisions before the current one continue in the next revision of their
    owner. *)
Definition chained (heads : list Head) (ts : list Transition) : Prop :=
  ∀ h t, h ∈ heads → t ∈ ts → owner_ref (t_predecessor t) = h_owner_ref h →
    owner_revision (t_predecessor t) ≠ h_current_revision h →
    t_successor t = Some (mkRevisionRef (h_owner_ref h) (owner_revision (t_predecessor t) + 1)).

(** The scope of a space: closed, and each owner's revisions form one chain. *)
Record scope_inv (heads : list Head) (ms : list Material) (ts : list Transition) : Prop := {
  inv_closed : scope_closed space owner heads ms ts max_retained;
  inv_chained : chained heads ts;
}.

(** ** Adding a revision to an owner *)

Section Append.
Context (heads : list Head) (ms : list Material) (ts : list Transition).
Hypothesis Hinv : scope_inv heads ms ts.
Context (i : nat) (h : Head) (pm s : Material) (t : Transition) (n : N).
Hypothesis Hh : heads !! i = Some h.
Hypothesis Hopen : h_terminal_transition_ref h = None.
Hypothesis Hpm : pm ∈ ms.
Hypothesis Hpo : m_owner_ref pm = h_owner_ref h.
Hypothesis Hpr : m_owner_revision pm = h_current_revision h.
Hypothesis Hok : transition_ok t pm (Some s).
Hypothesis Hterm : t_termination t = Revised ∨ t_termination t = Corrected.
Hypothesis Hroom : len (owner_materials (h_owner_ref h) ms) < max_retained.
Hypothesis Hn : n ≠ 0.

Definition appended : Head :=
  with_head h (m_owner_revision s) n (h_retained_revision_digests h ++ [retained_digest s]) None.

Let Hc := inv_closed _ _ _ Hinv.
Let Hu := closed_heads_unique _ _ _ _ _ _ Hc.
Let Hmu := closed_materials_unique _ _ _ _ _ _ Hc.

Lemma append_facts :
  h ∈ heads ∧ head_ok h ∧ material_ok s ∧ m_owner_ref s = h_owner_ref h
  ∧ m_owner_revision s = h_current_revision h + 1 ∧ h_current_revision h + 1 ≤ u64_max
  ∧ t_predecessor t = owner_revision_ref pm
  ∧ t_successor t = Some (owner_revision_ref s)
  ∧ m_memory_space_id s = space ∧ m_factual_owner_id s = owner
  ∧ owner_revision_ref s ∉ owner_revision_ref <$> ms.
Proof using Hinv Hh Hpm Hpo Hpr Hok Hterm.
  clear Hroom Hn. assert (Hin : h ∈ heads) by by eapply list_elem_of_lookup_2.
  destruct (closed_head _ _ _ _ _ _ Hc h Hin) as (Hhok & _).
  destruct (closed_material _ _ _ _ _ _ Hc pm Hpm) as (_ & Hps & Hpf).
  apply transition_ok_inv in Hok as (_ & Hp & _ & Hfit & Hs).
  assert (Hfit' : owner_revision (t_predecessor t) + 1 ≤ u64_max
      ∧ t_successor t = Some (mkRevisionRef (owner_ref (t_predecessor t))
                                (owner_revision (t_predecessor t) + 1))).
  { unfold termination_fits in Hfit. by destruct Hterm as [E|E]; rewrite E in Hfit. }
  destruct Hfit' as [Hmax Hsucc]. rewrite Hsucc in Hs.
  destruct Hs as (Hsok & Href & _ & Hss & Hsf & _). rewrite Hp in *. cbn in Hmax, Hsucc, Href.
  injection Href as Eo Er. rewrite Hpo in Eo. rewrite Hpr in Er, Hmax.
  split_and!; try assumption; try congruence.
  - rewrite Hsucc. f_equal. unfold owner_revision_ref. by rewrite Eo, Er, Hpo, Hpr.
  - intros (m & E & Hm)%list_elem_of_fmap. injection E as E1 E2.
    pose proof (current_is_material heads ms ts h Hc Hin m Hm ltac:(congruence)).
    lia.
Qed.

Lemma appended_ok : head_ok appended.
Proof using laws Hinv Hh Hpm Hpo Hpr Hok Hterm Hn.
  clear Hroom. destruct append_facts as (_ & Hhok & Hsok & Ho & Hr & _).
  apply head_ok_inv in Hhok as (H1&H2&H3&H4&H5&H6&H7&H8&Hlast&Hs&_).
  assert (Hrev : head_revisions appended = head_revisions h ++ [m_owner_revision s]).
  { unfold head_revisions. cbn. by rewrite fmap_app. }
  apply head_ok_intro; try done.
  - intros d [Hd|Hd%list_elem_of_singleton]%elem_of_app; [by apply H8|]. subst d. cbn.
    split; [lia|]. by apply material_digest_lowercase.
  - rewrite Hrev, last_snoc. done.
  - rewrite Hrev. apply StronglySorted_snoc; [done|]. intros a Ha. apply N.compare_lt_iff. rewrite Hr.
    enough (a ≤ h_current_revision h) by lia.
    apply head_current_greatest; [|done]. by destruct append_facts as (_ & ? & _).
Qed.

Lemma append_scope_inv : scope_inv (<[i := appended]> heads) (ms ++ [s]) (ts ++ [t]).
Proof using laws Hinv Hh Hopen Hpm Hpo Hpr Hok Hterm Hroom Hn.
  destruct append_facts as (Hin & Hhok & Hsok & Ho & Hr & Hmax & Hp & Hsucc & Hss & Hsf & Hfresh).
  destruct (insert_same_key h_owner_ref heads i h appended Hu Hh eq_refl) as [Hkeys Hel].
  pose proof Hc as [Hscope Hheads _ [Hcnt _] Hmat _ Hret Hown Htu Hcont Hexp Htok].
  assert (Hmu' : NoDup (owner_revision_ref <$> ms ++ [s])).
  { rewrite fmap_app. apply NoDup_app. split_and!; [done| |apply NoDup_singleton].
    intros r Hr' E%list_elem_of_singleton. by subst. }
  assert (Hnew : ∀ x, x ∈ heads → h_owner_ref x ≠ h_owner_ref h → m_owner_ref s ≠ h_owner_ref x)
    by congruence.
  split; [apply closed_intro|].
  - done.
  - intros x [->|[Hx Hne]]%Hel; [|by apply Hheads].
    destruct (Hheads h Hin) as (_ & ? & ? & _). split_and!; [apply appended_ok|done|done|].
    pose proof (Permutation_length (retained_perm heads ms h Hmu Hhok Hin Hret)) as Hlen.
    rewrite length_fmap in Hlen. cbn. unfold len in *. rewrite length_app. cbn. lia.
  - by rewrite Hkeys.
  - unfold len in *. by rewrite length_insert.
  - intros m [Hm|Hm%list_elem_of_singleton]%elem_of_app; [by apply Hmat|by subst].
  - done.
  - intros x d [->|[Hx Hne]]%Hel.
    + cbn. rewrite elem_of_app, list_elem_of_singleton, (Hret h d Hin).
      setoid_rewrite elem_of_app. setoid_rewrite list_elem_of_singleton. naive_solver.
    + rewrite (Hret x d Hx). setoid_rewrite elem_of_app. setoid_rewrite list_elem_of_singleton.
      specialize (Hnew x Hx Hne). naive_solver.
  - intros m [Hm|Hm%list_elem_of_singleton]%elem_of_app.
    + destruct (Hown m Hm) as (x & Hx & E). destruct (decide (h_owner_ref x = h_owner_ref h)) as [E'|E'].
      * exists appended. rewrite Hel. split; [by left|]. cbn. congruence.
      * exists x. rewrite Hel. auto.
    + subst m. exists appended. rewrite Hel. split; [by left|done].
  - intros x m [->|[Hx Hne]]%Hel [Hm|Hm%list_elem_of_singleton]%elem_of_app Hmo Hmr; try subst m; cbn in Hmo, Hmr.
    + destruct (decide (m_owner_revision m = h_current_revision h)) as [E|E].
      * rewrite E. split; [done|]. exists s. rewrite elem_of_app, list_elem_of_singleton. auto.
      * destruct (Hcont h m Hin Hm Hmo E) as [? (m' & ? & ? & ?)]. split; [done|].
        exists m'. rewrite elem_of_app. auto.
    + done.
    + destruct (Hcont x m Hx Hm Hmo Hmr) as [? (m' & ? & ? & ?)]. split; [done|].
      exists m'. rewrite elem_of_app. auto.
    + by destruct (Hnew x Hx Hne).
  - split_and!.
    + rewrite fmap_app. apply NoDup_app. split_and!; [done| |apply NoDup_singleton].
      intros r Hr' E%list_elem_of_singleton. subst r. rewrite Hp in Hr'.
      exact (open_head_fresh heads ms ts h pm Hc Hin Hopen Hpo Hpr Hr').
    + intros r. rewrite fmap_app, elem_of_app, Hexp. cbn. rewrite list_elem_of_singleton, Hp.
      setoid_rewrite Hel. setoid_rewrite elem_of_app. setoid_rewrite list_elem_of_singleton. split.
      * intros [[(x & Hx & Ht)|(x & m & Hx & Hm & Hmo & Hmr & ->)]| ->].
        -- left. exists x. split; [|done]. right. split; [done|]. intros E.
           assert (x = h) as -> by (by eapply (NoDup_key_unique h_owner_ref)). congruence.
        -- right. destruct (decide (h_owner_ref x = h_owner_ref h)) as [E|E].
           ++ exists appended, m. assert (x = h) as -> by (by eapply (NoDup_key_unique h_owner_ref)).
              split_and!; [by left|by left|done| |done]. cbn.
              pose proof (current_is_material heads ms ts h Hc Hin m Hm Hmo). lia.
           ++ exists x, m. split_and!; auto.
        -- right. exists appended, pm. split_and!; [by left|by left|done|cbn; lia|done].
      * intros [(x & [->|[Hx Hne]] & Ht)|(x & m & [->|[Hx Hne]] & [Hm|Hm] & Hmo & Hmr & ->)];
          try subst m; cbn in *; try done.
        -- left. left. eauto.
        -- destruct (decide (m_owner_revision m = h_current_revision h)) as [E|E].
           ++ right. unfold owner_revision_ref. f_equal; congruence.
           ++ left. right. exists h, m. auto.
        -- left. right. exists x, m. auto.
        -- by destruct (Hnew x Hx Hne).
    + intros t' [Ht'|Ht'%list_elem_of_singleton]%elem_of_app; [|subst t'].
      * destruct (Htok t' Ht') as (pm' & ? & ? & Hok'). exists pm'. rewrite elem_of_app.
        split_and!; [by left|done|]. eapply transition_stable; [| | |exact Hok']; [done|done|].
        intros m Hm _. apply elem_of_app. by left.
      * exists pm. rewrite elem_of_app. split_and!; [by left|done|]. rewrite Hsucc. cbn.
        rewrite (proj2 (material_at_spec (ms ++ [s]) _ s Hmu')); [done|].
        rewrite elem_of_app, list_elem_of_singleton. auto.
  - intros x t' [->|[Hx Hne]]%Hel [Ht'|Ht'%list_elem_of_singleton]%elem_of_app Hxo Hxr; cbn in *;
      try subst t'.
    + destruct (decide (owner_revision (t_predecessor t') = h_current_revision h)) as [E|E].
      * exfalso. apply (open_head_fresh heads ms ts h pm Hc Hin Hopen Hpo Hpr).
        replace (owner_revision_ref pm) with (t_predecessor t') by
          (destruct (t_predecessor t'); cbn in *; unfold owner_revision_ref; congruence).
        by apply list_elem_of_fmap_2.
      * by apply (inv_chained _ _ _ Hinv h t').
    + rewrite Hsucc, Hp. cbn. unfold owner_revision_ref. by rewrite Ho, Hr, Hpr.
    + by apply (inv_chained _ _ _ Hinv x t').
    + rewrite Hp in Hxo. cbn in Hxo. congruence.
Qed.

End Append.

(** ** Starting an owner *)

Definition started (m : Material) : Head :=
  mkHead LONG_TERM_MEMORY_VERSION_SCHEMA_VERSION space owner (m_owner_ref m) (m_owner_revision m)
    [retained_digest m] None 1.

Lemma started_ok m :
  material_ok m → m_memory_space_id m = space → m_factual_owner_id m = owner →
  head_ok (started m).
Proof using laws.
  intros Hm Hs Ho. pose proof (material_digest_lowercase m Hm) as Hd.
  apply material_ok_inv in Hm as (_ & Hcan & Hfo & Hpl & Hv & _ & _).
  unfold revision_ref_is_valid in Hv. cbn in Hv. split_bool.
  apply head_ok_intro; cbn; try congruence; try done.
  - intros d Hin%list_elem_of_singleton. subst d. cbn. split; [lia|done].
  - repeat constructor.
Qed.

Lemma start_inv heads ms ts m :
  scope_inv heads ms ts → material_ok m → m_memory_space_id m = space →
  m_factual_owner_id m = owner → (∀ h, h ∈ heads → h_owner_ref h ≠ m_owner_ref m) →
  (len heads + 1) * max_retained ≤ usize_max →
  scope_inv (heads ++ [started m]) (ms ++ [m]) ts.
Proof using laws.
  intros [Hc Hch] Hm Hs Hf Hfresh Hcnt.
  pose proof Hc as [Hscope Hheads Hu _ Hmat Hmu Hret Hown Htu Hcont Hexp Htok].
  assert (Hnone : ∀ x, x ∈ ms → m_owner_ref x ≠ m_owner_ref m).
  { intros x Hx E. destruct (Hown x Hx) as (h & Hh & E'). apply (Hfresh h Hh). congruence. }
  assert (Hmu' : NoDup (owner_revision_ref <$> ms ++ [m])).
  { rewrite fmap_app. apply NoDup_app. split_and!; [done| |apply NoDup_singleton].
    intros r (x & -> & Hx)%list_elem_of_fmap [= E _]%list_elem_of_singleton.
    by destruct (Hnone x Hx). }
  assert (Hel : ∀ x, x ∈ ms ++ [m] ↔ x ∈ ms ∨ x = m).
  { intros x. by rewrite elem_of_app, list_elem_of_singleton. }
  split; [apply closed_intro|].
  - done.
  - intros x [Hx|Hx%list_elem_of_singleton]%elem_of_app; [by apply Hheads|subst x].
    split_and!; [by apply started_ok|done|done|]. cbn. unfold len. cbn. lia.
  - rewrite fmap_app. apply NoDup_app. split_and!; [done| |apply NoDup_singleton].
    intros r (x & -> & Hx)%list_elem_of_fmap E%list_elem_of_singleton. by destruct (Hfresh x Hx).
  - unfold len in *. rewrite length_app. cbn. lia.
  - intros x [Hx| ->]%Hel; [by apply Hmat|done].
  - done.
  - intros x d [Hx|Hx%list_elem_of_singleton]%elem_of_app; [|subst x]; setoid_rewrite Hel.
    + rewrite (Hret x d Hx). specialize (Hfresh x Hx). naive_solver.
    + cbn. rewrite list_elem_of_singleton. naive_solver.
  - intros x [Hx| ->]%Hel; setoid_rewrite elem_of_app; setoid_rewrite list_elem_of_singleton.
    + destruct (Hown x Hx) as (h & ? & ?). eauto.
    + exists (started m). auto.
  - intros x y [Hx|Hx%list_elem_of_singleton]%elem_of_app [Hy| ->]%Hel Hyo Hyr; try subst x;
      cbn in *; try done.
    + destruct (Hcont x y Hx Hy Hyo Hyr) as [? (m' & ? & ? & ?)]. split; [done|]. exists m'.
      rewrite Hel. auto.
    + by destruct (Hfresh x Hx).
    + by destruct (Hnone y Hy).
  - split_and!; [done| |].
    + intros r. rewrite Hexp. setoid_rewrite Hel. setoid_rewrite elem_of_app.
      setoid_rewrite list_elem_of_singleton. split.
      * intros [(x & ? & ?)|(x & y & ? & ? & ? & ? & ?)]; [left|right]; eauto 10.
      * intros [(x & [Hx| ->] & Ht)|(x & y & [Hx| ->] & [Hy| ->] & Hyo & Hyr & ->)]; try done.
        -- left. eauto.
        -- right. eauto 10.
        -- by destruct (Hfresh x Hx).
        -- by destruct (Hnone y Hy).
    + intros t Ht. destruct (Htok t Ht) as (pm & Hpm & ? & Hok). exists pm. rewrite Hel.
      split_and!; [by left|done|]. eapply transition_stable; [| | |exact Hok]; [done|done|].
      intros x Hx _. apply Hel. by left.
  - intros x t [Hx|Hx%list_elem_of_singleton]%elem_of_app Ht Hto; [by apply Hch|subst x].
    cbn in Hto |- *. exfalso. destruct (Htok t Ht) as (pm & Hpm & E & _).
    apply (Hnone pm Hpm). by rewrite <- Hto, <- E.
Qed.

(** ** Ending an owner *)

Section Close.
Context (heads : list Head) (ms : list Material) (ts : list Transition).
Hypothesis Hinv : scope_inv heads ms ts.
Context (i : nat) (h : Head) (pm : Material) (t : Transition) (n : N).
Hypothesis Hh : heads !! i = Some h.
Hypothesis Hopen : h_terminal_transition_ref h = None.
Hypothesis Hpm : pm ∈ ms.
Hypothesis Hpo : m_owner_ref pm = h_owner_ref h.
Hypothesis Hpr : m_owner_revision pm = h_current_revision h.
Hypothesis Hok : transition_ok t pm (t_successor t ≫= material_at ms).
Hypothesis Hn : n ≠ 0.

Definition ended : Head :=
  with_head h (h_current_revision h) n (h_retained_revision_digests h)
    (Some (owner_revision_ref pm)).

Let Hc := inv_closed _ _ _ Hinv.
Let Hu := closed_heads_unique _ _ _ _ _ _ Hc.

Lemma ended_ok : head_ok ended.
Proof using Hinv Hh Hpo Hpr Hn.
  assert (Hin : h ∈ heads) by by eapply list_elem_of_lookup_2.
  destruct (closed_head _ _ _ _ _ _ Hc h Hin) as (Hhok & _).
  apply head_ok_inv in Hhok as (H1&H2&H3&H4&H5&H6&H7&H8&Hlast&Hs&_).
  apply head_ok_intro; try done. cbn. intros r [= <-]. unfold owner_revision_ref.
  by rewrite Hpo, Hpr.
Qed.

Lemma end_inv : scope_inv (<[i := ended]> heads) ms (ts ++ [t]).
Proof using Hinv Hh Hopen Hpm Hpo Hpr Hok Hn.
  assert (Hin : h ∈ heads) by by eapply list_elem_of_lookup_2.
  destruct (insert_same_key h_owner_ref heads i h ended Hu Hh eq_refl) as [Hkeys Hel].
  pose proof Hc as [Hscope Hheads _ [Hcnt _] Hmat Hmu Hret Hown Htu Hcont Hexp Htok].
  assert (Hp : t_predecessor t = owner_revision_ref pm) by by apply transition_ok_inv in Hok as (_ & ? & _).
  assert (Hself : ∀ x, x ∈ heads → h_owner_ref x = h_owner_ref h → x = h).
  { intros x Hx E. by eapply (NoDup_key_unique h_owner_ref). }
  split; [apply closed_intro|].
  - done.
  - intros x [->|[Hx Hne]]%Hel; [|by apply Hheads].
    destruct (Hheads h Hin) as (_ & ? & ? & ?). split_and!; [apply ended_ok|done..].
  - by rewrite Hkeys.
  - unfold len in *. by rewrite length_insert.
  - done.
  - done.
  - intros x d [->|[Hx Hne]]%Hel; [by apply (Hret h)|by apply Hret].
  - intros m Hm. destruct (Hown m Hm) as (x & Hx & E).
    destruct (decide (h_owner_ref x = h_owner_ref h)) as [E'|E'].
    + exists ended. rewrite Hel. split; [by left|]. cbn. congruence.
    + exists x. rewrite Hel. auto.
  - intros x m [->|[Hx Hne]]%Hel Hm Hmo Hmr; [by apply (Hcont h m)|by apply (Hcont x m)].
  - split_and!.
    + rewrite fmap_app. apply NoDup_app. split_and!; [done| |apply NoDup_singleton].
      intros r Hr' E%list_elem_of_singleton. subst r. rewrite Hp in Hr'.
      exact (open_head_fresh heads ms ts h pm Hc Hin Hopen Hpo Hpr Hr').
    + intros r. rewrite fmap_app, elem_of_app, Hexp. cbn. rewrite list_elem_of_singleton, Hp.
      setoid_rewrite Hel. split.
      * intros [[(x & Hx & Ht)|(x & m & Hx & Hm & Hmo & Hmr & ->)]| ->].
        -- left. exists x. split; [|done]. right. split; [done|]. intros E.
           rewrite (Hself x Hx E) in Ht. congruence.
        -- right. destruct (decide (h_owner_ref x = h_owner_ref h)) as [E|E].
           ++ rewrite (Hself x Hx E) in *. exists ended, m. auto 10.
           ++ exists x, m. auto 10.
        -- left. exists ended. auto.
      * intros [(x & [->|[Hx Hne]] & Ht)|(x & m & [->|[Hx Hne]] & Hm & Hmo & Hmr & ->)]; cbn in *.
        -- right. congruence.
        -- left. left. eauto.
        -- left. right. exists h, m. auto.
        -- left. right. exists x, m. auto.
    + intros t' [Ht'|Ht'%list_elem_of_singleton]%elem_of_app; [by apply Htok|subst t']. eauto.
  - intros x t' [->|[Hx Hne]]%Hel [Ht'|Ht'%list_elem_of_singleton]%elem_of_app Hxo Hxr; cbn in *;
      try subst t'.
    + by apply (inv_chained _ _ _ Hinv h t').
    + rewrite Hp in Hxr. cbn in Hxr. congruence.
    + by apply (inv_chained _ _ _ Hinv x t').
    + rewrite Hp in Hxo. cbn in Hxo. congruence.
Qed.

End Close.

(** ** Purging an owner *)

(** No other owner's transition continues in [o]. *)
Definition no_incoming (o : GovernedMemoryOwnerRef) (ts : list Transition) : Prop :=
  ∀ t s, t ∈ ts → owner_ref (t_predecessor t) ≠ o → t_successor t = Some s → owner_ref s ≠ o.

Lemma purge_inv heads ms ts i h :
  scope_inv heads ms ts → heads !! i = Some h → no_incoming (h_owner_ref h) ts →
  scope_inv (delete i heads)
    (List.filter (λ m, negb (bool_decide (m_owner_ref m = h_owner_ref h))) ms)
    (List.filter (λ t, negb (bool_decide (owner_ref (t_predecessor t) = h_owner_ref h))) ts).
Proof.
  intros [Hc Hch] Hh Hinc.
  pose proof Hc as [Hscope Hheads Hu [Hcnt _] Hmat Hmu Hret Hown Htu Hcont Hexp Htok].
  destruct (delete_key h_owner_ref heads i h Hu Hh) as [Hu' Hel].
  assert (Hm' : ∀ m, m ∈ List.filter (λ m, negb (bool_decide (m_owner_ref m = h_owner_ref h))) ms
                     ↔ m ∈ ms ∧ m_owner_ref m ≠ h_owner_ref h).
  { intros m. rewrite elem_of_List_filter, negb_true_iff, bool_decide_eq_false. tauto. }
  assert (Ht' : ∀ t, t ∈ List.filter (λ t, negb (bool_decide (owner_ref (t_predecessor t)
                                                              = h_owner_ref h))) ts
                     ↔ t ∈ ts ∧ owner_ref (t_predecessor t) ≠ h_owner_ref h).
  { intros t. rewrite elem_of_List_filter, negb_true_iff, bool_decide_eq_false. tauto. }
  assert (Hmu' : NoDup (owner_revision_ref <$>
      List.filter (λ m, negb (bool_decide (m_owner_ref m = h_owner_ref h))) ms)).
  { by apply NoDup_fmap_filter. }
  split; [apply closed_intro|].
  - done.
  - intros x [Hx _]%Hel. by apply Hheads.
  - done.
  - unfold len in *. rewrite length_delete by eauto. lia.
  - intros m [Hm _]%Hm'. by apply Hmat.
  - done.
  - intros x d [Hx Hne]%Hel. rewrite (Hret x d Hx). setoid_rewrite Hm'. split.
    + intros (m & ? & ? & ?). exists m. split_and!; congruence.
    + intros (m & [? _] & ? & ?). eauto.
  - intros m [Hm Hne]%Hm'. destruct (Hown m Hm) as (x & Hx & E). exists x. rewrite Hel.
    split; [split; congruence|done].
  - intros x m [Hx Hne]%Hel [Hm Hmn]%Hm' Hmo Hmr.
    destruct (Hcont x m Hx Hm Hmo Hmr) as [? (m' & ? & ? & ?)]. split; [done|]. exists m'.
    rewrite Hm'. split_and!; congruence.
  - split_and!.
    + by apply NoDup_fmap_filter.
    + intros r. rewrite list_elem_of_fmap. setoid_rewrite Ht'. setoid_rewrite Hel.
      setoid_rewrite Hm'.
      assert (Hr : (∃ t, r = t_predecessor t ∧ t ∈ ts ∧ owner_ref (t_predecessor t) ≠ h_owner_ref h)
                   ↔ r ∈ t_predecessor <$> ts ∧ owner_ref r ≠ h_owner_ref h).
      { rewrite list_elem_of_fmap. naive_solver. }
      rewrite Hr, Hexp. split.
      * intros [[(x & Hx & Ht)|(x & m & Hx & Hm & Hmo & Hmr & ->)] Hne].
        -- left. exists x. split_and!; [done| |done]. destruct (Hheads x Hx) as [Hok _].
           apply head_ok_inv in Hok as (_&_&_&_&_&_&_&_&_&_&Hterm). rewrite (Hterm _ Ht) in Hne. done.
        -- right. exists x, m. cbn in Hne. split_and!; try done. congruence.
      * intros [(x & [Hx Hne] & Ht)|(x & m & [Hx Hne] & [Hm Hmn] & Hmo & Hmr & ->)].
        -- split; [left; eauto|]. destruct (Hheads x Hx) as [Hok _].
           apply head_ok_inv in Hok as (_&_&_&_&_&_&_&_&_&_&Hterm). by rewrite (Hterm _ Ht).
        -- split; [right; eauto 10|done].
    + intros t [Ht Hne]%Ht'. destruct (Htok t Ht) as (pm & Hpm & E & Hok). exists pm.
      split_and!; [|done|].
      * apply Hm'. split; [done|]. rewrite <- E in Hne. done.
      * eapply transition_stable; [| | |exact Hok]; [done|done|]. intros m Hm Es. apply Hm'.
        split; [done|]. exact (Hinc t _ Ht Hne Es).
  - intros x t [Hx _]%Hel [Ht _]%Ht'. by apply Hch.
Qed.

End Scope.
