(* ===== verification/LongTermProps.v ===== *)
(** * Long-term memory: properties of versions

    Theorems about the versions of long-term memory: the closure validator is
    exact, planning keeps the scope closed, reads at a time are unambiguous,
    and projections and manifests round trip. *)

From S2P Require Import Prelude RustStr RustOrd Governed LongTermEntry LongTermVersion.
From S2P Require Import LongTermClosure LongTermControl LongTermPlan LongTermSteps LongTermScope.
From S2P Require Import StoreTypes ReadSession.

Local Open Scope string_scope.
Local Open Scope list_scope.
Local Open Scope N_scope.

(** ** Intervals of validity *)

Section Intervals.
Context {vc : VersionCodec} {laws : VersionCodecLaws}.
Context (space owner : string) (max_retained : N).
Context (heads : list Head) (ms : list Material) (ts : list Transition).
Hypothesis Hinv : scope_inv space owner max_retained heads ms ts.

Let Hc := inv_closed _ _ _ _ _ _ Hinv.
Let Hmu := closed_materials_unique _ _ _ _ _ _ Hc.
Let Htu := closed_transitions_unique _ _ _ _ _ _ Hc.

(** The transition that ends a revision, and the time it ends. *)
Definition transition_at (r : Ref) : option Transition := collect_by t_predecessor ts !! r.
Definition ends_at (m : Material) : option N := t_terminated_at <$> transition_at (owner_revision_ref m).

Lemma transition_at_spec r t : transition_at r = Some t ↔ t ∈ ts ∧ t_predecessor t = r.
Proof using Hinv. apply collect_lookup. exact Htu. Qed.

Lemma transition_at_ok m t :
  m ∈ ms → transition_at (owner_revision_ref m) = Some t →
  transition_ok t m (t_successor t ≫= material_at ms).
Proof using Hinv.
  intros Hm [Ht Hp]%transition_at_spec.
  destruct (closed_transition _ _ _ _ _ _ Hc t Ht) as (pm & Hpm & E & Hok).
  assert (pm = m) as ->; [|done]. eapply (NoDup_key_unique owner_revision_ref); [exact Hmu|done..|].
  by rewrite E.
Qed.

(** A revision has a transition exactly when it is not the current one of an
    open owner. *)
Lemma transition_presence h m :
  h ∈ heads → m ∈ ms → m_owner_ref m = h_owner_ref h →
  negb (is_none (transition_at (owner_revision_ref m))) = transition_required h m.
Proof using Hinv.
  intros Hh Hm Ho. apply Bool.eq_true_iff_eq. unfold transition_required.
  rewrite negb_true_iff, orb_true_iff, negb_true_iff, bool_decide_eq_true, N.eqb_neq.
  assert (Hsome : is_none (transition_at (owner_revision_ref m)) = false
                  ↔ owner_revision_ref m ∈ t_predecessor <$> ts).
  { rewrite list_elem_of_fmap. destruct (transition_at _) as [t|] eqn:E; cbn.
    - apply transition_at_spec in E as [??]. naive_solver.
    - split; [done|]. intros (t & E' & Ht). exfalso.
      assert (transition_at (owner_revision_ref m) = Some t) as Ht' by by apply transition_at_spec.
      congruence. }
  rewrite Hsome, (closed_expected _ _ _ _ _ _ Hc). split.
  - intros [(x & Hx & Ht)|(x & m' & Hx & Hm' & Hmo & Hmr & [= E1 E2])].
    + right. destruct (closed_head _ _ _ _ _ _ Hc x Hx) as [Hok _].
      apply head_ok_inv in Hok as (_&_&_&_&_&_&_&_&_&_&Hterm). pose proof (Hterm _ Ht) as E.
      injection E as E _. assert (x = h) as ->; [|done].
      eapply (NoDup_key_unique h_owner_ref); [exact (closed_heads_unique _ _ _ _ _ _ Hc)|done..|].
      congruence.
    + left. assert (x = h) as ->; [|congruence].
      eapply (NoDup_key_unique h_owner_ref); [exact (closed_heads_unique _ _ _ _ _ _ Hc)|done..|].
      congruence.
  - intros [Hr|Ht]; [right|left]; eauto 10.
Qed.

(** Between two revisions of an owner, the earlier ends before the later begins. *)
Lemma revisions_abut h m m' :
  h ∈ heads → m ∈ ms → m' ∈ ms → m_owner_ref m = h_owner_ref h → m_owner_ref m' = h_owner_ref h →
  m_owner_revision m < m_owner_revision m' →
  ∃ e, ends_at m = Some e ∧ e ≤ origin_valid_from (m_origin m').
Proof using Hinv.
  intros Hh Hm Hm' Ho Ho' Hlt.
  remember (N.to_nat (m_owner_revision m' - m_owner_revision m)) as k eqn:Ek.
  revert m Hm Ho Hlt Ek. induction k as [|k IH]; intros m Hm Ho Hlt Ek; [lia|].
  pose proof (current_is_material space owner max_retained heads ms ts h Hc Hh m' Hm' Ho') as Hle.
  assert (Hne : m_owner_revision m ≠ h_current_revision h) by lia.
  pose proof (transition_presence h m Hh Hm Ho) as Hpres. unfold transition_required in Hpres.
  rewrite (proj2 (N.eqb_neq _ _) Hne) in Hpres. cbn [negb orb] in Hpres.
  destruct (transition_at (owner_revision_ref m)) as [t|] eqn:Et; [|done].
  pose proof (transition_at_ok m t Hm Et) as Hok.
  apply transition_at_spec in Et as Ht. destruct Ht as [Ht Hp].
  assert (Hs : t_successor t = Some (mkRevisionRef (h_owner_ref h) (m_owner_revision m + 1))).
  { pose proof (inv_chained _ _ _ _ _ _ Hinv h t Hh Ht) as Hch. rewrite Hp in Hch. by apply Hch. }
  apply transition_ok_inv in Hok as (_ & _ & _ & _ & Hsm). rewrite Hs in Hsm. cbn in Hsm.
  destruct (material_at ms _) as [s|] eqn:Es; [|done].
  apply material_at_spec in Es as [Hsin Hsref]; [|exact Hmu].
  destruct Hsm as (_ & _ & _ & _ & _ & _ & Hfrom). injection Hsref as Eo Er.
  exists (t_terminated_at t). split; [unfold ends_at; by rewrite Et|].
  destruct (decide (m_owner_revision s = m_owner_revision m')) as [E|E].
  - assert (s = m') as ->; [|lia]. eapply (NoDup_key_unique owner_revision_ref); [exact Hmu|done..|].
    unfold owner_revision_ref. congruence.
  - destruct (IH s Hsin Eo ltac:(lia) ltac:(lia)) as (e & He & Hle').
    unfold ends_at in He. destruct (transition_at (owner_revision_ref s)) as [t'|] eqn:Et'; [|done].
    cbn in He. injection He as <-. pose proof (transition_at_ok s t' Hsin Et') as Hok'.
    apply transition_ok_inv in Hok' as (_ & _ & Hint & _). lia.
Qed.

(** [m] is valid at [time]. *)
Definition valid_at (m : Material) (time : N) : Prop :=
  origin_valid_from (m_origin m) ≤ time ∧ ∀ e, ends_at m = Some e → time < e.

Lemma valid_at_unique h m m' time :
  h ∈ heads → m ∈ ms → m' ∈ ms → m_owner_ref m = h_owner_ref h → m_owner_ref m' = h_owner_ref h →
  valid_at m time → valid_at m' time → m = m'.
Proof using Hinv.
  intros Hh Hm Hm' Ho Ho' [Hf He] [Hf' He'].
  destruct (N.lt_total (m_owner_revision m) (m_owner_revision m')) as [Hlt|[E|Hlt]].
  - destruct (revisions_abut h m m' Hh Hm Hm' Ho Ho' Hlt) as (e & Hend & Hle).
    specialize (He e Hend). lia.
  - eapply (NoDup_key_unique owner_revision_ref); [exact Hmu|done..|].
    unfold owner_revision_ref. congruence.
  - destruct (revisions_abut h m' m Hh Hm' Hm Ho' Ho Hlt) as (e & Hend & Hle).
    specialize (He' e Hend). lia.
Qed.

(** ** The projected validity of a revision *)

Definition validity_of (m : Material) : GovernedOwnerValidity :=
  let t := transition_at (owner_revision_ref m) in
  mkValidity (origin_valid_from (m_origin m)) (ends_at m) (origin_observed_at (m_origin m))
    (origin_predecessor (m_origin m)) (t ≫= t_successor) (t_termination <$> t).

Lemma contains_time_spec m time : contains_time (validity_of m) time = true ↔ valid_at m time.
Proof.
  unfold contains_time, validity_of, valid_at. cbn [valid_from valid_until]. rewrite andb_true_iff, N.leb_le.
  destruct (ends_at m) as [e|].
  - rewrite N.ltb_lt. naive_solver.
  - naive_solver.
Qed.

Lemma origin_predecessor_fits m :
  material_ok m →
  opt_any (λ r, negb (revision_ref_is_valid r)) (origin_predecessor (m_origin m)) = false
  ∧ origin_predecessor (m_origin m) ≠ Some (owner_revision_ref m).
Proof.
  intros (_&_&_&_&_&Ho&_)%material_ok_inv. unfold origin_validate_for in Ho.
  rewrite failures_contract_nil, !app_nil, !push_if_nil in Ho. destruct Ho as (H1 & H2 & _).
  by split_bool.
Qed.

Lemma validity_accepted m :
  m ∈ ms → accepted (validate_for (validity_of m) (owner_revision_ref m)) = true.
Proof using Hinv.
  intros Hm. destruct (closed_material _ _ _ _ _ _ Hc m Hm) as [Hok _].
  destruct (origin_predecessor_fits m Hok) as [Hpv Hpn].
  apply material_ok_inv in Hok as (_&_&_&_&Hv&_&_).
  unfold validate_for. apply accepted_nil. rewrite !app_nil, !push_if_nil.
  unfold validity_of, ends_at, termination_failures. cbn [valid_from valid_until predecessor successor termination].
  rewrite Hv, Hpv. rewrite (bool_decide_eq_false_2 _ Hpn).
  destruct (transition_at (owner_revision_ref m)) as [t|] eqn:Et; cbn -[N.leb owner_revision_ref].
  - pose proof (transition_at_ok m t Hm Et) as Htok.
    apply transition_at_spec in Et as [_ Hp].
    apply transition_ok_inv in Htok as (_ & _ & Hint & Hfit & Hs).
    unfold termination_fits in Hfit. rewrite Hp in Hfit.
    split_and!; [| | |].
    + destruct (t_successor t) as [r|]; [|done]. cbn. destruct (_ ≫= _) as [s|]; [|done].
      destruct Hs as (_ & _ & -> & _). done.
    + by apply N.leb_gt.
    + apply bool_decide_eq_false. intros E. destruct (t_termination t); rewrite E in Hfit.
      1,2: destruct Hfit as [_ Hfit]; unfold owner_revision_ref in Hfit;
           injection Hfit as Hfit; lia.
      1: destruct Hfit as (s & [= <-] & _ & Hne & _); done.
      all: done.
    + destruct (t_termination t); cbn [is_none app].
      1,2: destruct Hfit as [Hmax ->]; cbn in Hmax; apply push_if_nil, negb_false_iff; cbn;
           unfold u64_checked_add; rewrite (proj2 (N.leb_le _ _) Hmax); cbn;
           rewrite bool_decide_eq_true_2 by done; by rewrite N.eqb_refl.
      * destruct Hfit as (s & -> & Hpl & Hid & Hone). cbn. rewrite Hpl, Hone.
        rewrite bool_decide_eq_true_2, bool_decide_eq_false_2 by done. done.
      * by rewrite Hfit.
      * by rewrite Hfit.
      * by rewrite Hfit.
  - done.
Qed.

(** The next revision of one that is not current. *)
Lemma next_revision h m e :
  h ∈ heads → m ∈ ms → m_owner_ref m = h_owner_ref h → m_owner_revision m ≠ h_current_revision h →
  ends_at m = Some e →
  ∃ s, s ∈ ms ∧ m_owner_ref s = h_owner_ref h ∧ m_owner_revision s = m_owner_revision m + 1
       ∧ origin_valid_from (m_origin s) = e.
Proof using Hinv.
  intros Hh Hm Ho Hne He. unfold ends_at in He.
  destruct (transition_at (owner_revision_ref m)) as [t|] eqn:Et; [|done]. cbn in He.
  injection He as <-. pose proof (transition_at_ok m t Hm Et) as Hok.
  apply transition_at_spec in Et as [Ht Hp].
  assert (Hs : t_successor t = Some (mkRevisionRef (h_owner_ref h) (m_owner_revision m + 1))).
  { pose proof (inv_chained _ _ _ _ _ _ Hinv h t Hh Ht) as Hch. rewrite Hp in Hch. by apply Hch. }
  apply transition_ok_inv in Hok as (_ & _ & _ & _ & Hsm). rewrite Hs in Hsm. cbn in Hsm.
  destruct (material_at ms _) as [s|] eqn:Es; [|done].
  apply material_at_spec in Es as [Hsin [= Eo Er]]; [|exact Hmu].
  destruct Hsm as (_ & _ & _ & _ & _ & _ & Hfrom). eauto.
Qed.

(** Once an owner has begun, some revision is valid until it ends. *)
Lemma valid_revision_exists h m time :
  h ∈ heads → m ∈ ms → m_owner_ref m = h_owner_ref h → origin_valid_from (m_origin m) ≤ time →
  (∀ c e, c ∈ ms → m_owner_ref c = h_owner_ref h → m_owner_revision c = h_current_revision h →
          ends_at c = Some e → time < e) →
  ∃ m', m' ∈ ms ∧ m_owner_ref m' = h_owner_ref h ∧ valid_at m' time.
Proof using Hinv.
  intros Hh Hm Ho Hf Hcur.
  remember (N.to_nat (h_current_revision h - m_owner_revision m)) as k eqn:Ek.
  revert m Hm Ho Hf Ek. induction k as [|k IH]; intros m Hm Ho Hf Ek;
    pose proof (current_is_material space owner max_retained heads ms ts h Hc Hh m Hm Ho) as Hle.
  - exists m. split_and!; [done..|]. split; [done|]. intros e He. eapply Hcur; [done..| |done]. lia.
  - destruct (ends_at m) as [e|] eqn:He.
    + destruct (N.lt_ge_cases time e) as [Hlt|Hge].
      * exists m. split_and!; [done..|]. split; [done|]. intros e' He'. congruence.
      * destruct (next_revision h m e Hh Hm Ho ltac:(lia) He) as (s & Hs & Hso & Hsr & Hsf).
        apply (IH s Hs Hso); lia.
    + exists m. split_and!; [done..|]. split; [done|]. intros e' He'. congruence.
Qed.

(** ** Selection *)

Definition read_projection (m : Material) : LongTermMemoryVersionReadProjection :=
  mkReadProjection m (validity_of m).

Lemma project_ok m :
  m ∈ ms →
  project_long_term_owner_validity m (transition_at (owner_revision_ref m))
    (transition_at (owner_revision_ref m) ≫= λ t, t_successor t ≫= λ r,
       collect_by owner_revision_ref ms !! r) = Ok (validity_of m).
Proof using Hinv.
  intros Hm. unfold project_long_term_owner_validity.
  destruct (closed_material _ _ _ _ _ _ Hc m Hm) as [Hok _]. unfold material_ok in Hok. rewrite Hok.
  cbn [ensure mbind result_bind].
  pose proof (validity_accepted m Hm) as Hva. unfold validity_of, ends_at in Hva |- *.
  destruct (transition_at (owner_revision_ref m)) as [t|] eqn:Et.
  - pose proof (transition_at_ok m t Hm Et) as Htok. unfold transition_ok in Htok.
    assert (Hat : (t_successor t ≫= λ r, collect_by owner_revision_ref ms !! r)
                  = t_successor t ≫= material_at ms).
    { destruct (t_successor t); [|done]. cbn. apply by_ref_material_at. exact Hmu. }
    cbn [mbind option_bind]. rewrite Hat, Htok. cbn [ensure mbind result_bind].
    cbn [fmap option_fmap option_map mbind option_bind] in *. by rewrite Hva.
  - cbn [mbind option_bind is_none ensure result_bind fmap option_fmap option_map] in *.
    by rewrite Hva.
Qed.

Section Select.
Context (h : Head) (time : N).
Hypothesis Hh : h ∈ heads.

#[local] Notation step :=
  (select_step h (collect_by owner_revision_ref ms) (collect_by t_predecessor ts) time).

Lemma select_step_spec selected m :
  m ∈ ms → m_owner_ref m = h_owner_ref h →
  step selected m =
  if contains_time (validity_of m) time then
    (_ ← ensure (is_none selected)
           (Config "long_term_version_as_of_read"
              "multiple retained materials overlap the as-of time");
     Ok (Some (read_projection m)))
  else Ok selected.
Proof using Hinv Hh.
  intros Hm Ho. unfold select_step. fold (transition_at (owner_revision_ref m)).
  rewrite (transition_presence h m Hh Hm Ho), Bool.eqb_reflx. cbn [ensure mbind result_bind].
  rewrite project_ok by done. reflexivity.
Qed.

Lemma select_fold_some p l :
  (∀ m, m ∈ l → m ∈ ms ∧ m_owner_ref m = h_owner_ref h ∧ ¬ valid_at m time) →
  try_fold step (Some p) l = Ok (Some p).
Proof using Hinv Hh.
  induction l as [|a l IH]; intros Hl; [done|]. cbn [try_fold].
  destruct (Hl a ltac:(by left)) as (Ha & Hao & Hav).
  rewrite select_step_spec by done. destruct (contains_time _ _) eqn:E.
  - by apply contains_time_spec in E.
  - cbn [mbind result_bind]. apply IH. intros m Hm. apply Hl. by right.
Qed.

Lemma select_fold l :
  NoDup l → (∀ m, m ∈ l → m ∈ ms ∧ m_owner_ref m = h_owner_ref h) →
  try_fold step None l
  = Ok (read_projection <$> find (λ m, contains_time (validity_of m) time) l).
Proof using Hinv Hh.
  induction l as [|a l IH]; intros Hnd Hl; [done|]. apply NoDup_cons in Hnd as [Hna Hnd].
  cbn [try_fold find]. destruct (Hl a ltac:(by left)) as (Ha & Hao).
  rewrite select_step_spec by done. destruct (contains_time (validity_of a) time) eqn:E.
  - cbn [is_none ensure mbind result_bind]. rewrite select_fold_some; [done|].
    intros m Hm. destruct (Hl m ltac:(by right)) as [Hin Hmo]. split_and!; [done..|].
    intros Hv. apply contains_time_spec in E. destruct Hna.
    by rewrite (valid_at_unique h a m time Hh Ha Hin Hao Hmo E Hv).
  - cbn [mbind result_bind]. apply IH; [done|]. intros m Hm. apply Hl. by right.
Qed.

(** The revision of the owner of [h] that is valid at [time]. *)
Definition valid_revision : option Material :=
  find (λ m, contains_time (validity_of m) time) (owner_materials (h_owner_ref h) ms).

Lemma valid_revision_spec m :
  valid_revision = Some m ↔ m ∈ ms ∧ m_owner_ref m = h_owner_ref h ∧ valid_at m time.
Proof using Hinv Hh.
  unfold valid_revision. split.
  - intros [Hin Hb]%find_some. apply list_elem_of_In, owner_materials_spec in Hin as [Hin Ho].
    apply contains_time_spec in Hb. done.
  - intros (Hin & Ho & Hv). destruct (find _ _) as [m'|] eqn:E.
    + apply find_some in E as [Hin' Hb]. apply list_elem_of_In, owner_materials_spec in Hin' as [Hin' Ho'].
      apply contains_time_spec in Hb. f_equal. by eapply valid_at_unique.
    + exfalso. apply contains_time_spec in Hv.
      assert (Hin' : In m (owner_materials (h_owner_ref h) ms)).
      { apply list_elem_of_In, owner_materials_spec. done. }
      pose proof (find_none _ _ E m Hin') as Hn. cbn in Hn. congruence.
Qed.

Lemma select_as_of_spec :
  select_long_term_version_as_of h ms ts time max_retained = Ok (read_projection <$> valid_revision).
Proof using Hinv Hh.
  unfold select_long_term_version_as_of.
  destruct (closed_head _ _ _ _ _ _ Hc h Hh) as (Hok & _ & _ & Hlen).
  destruct (closed_scope _ _ _ _ _ _ Hc) as (_ & _ & Hmax).
  pose proof (retained_perm heads ms h Hmu Hok Hh (closed_retained _ _ _ _ _ _ Hc)) as Hperm.
  unfold head_ok in Hok. rewrite Hok, (proj2 (N.eqb_neq _ _) Hmax). cbn [negb orb ensure mbind result_bind].
  assert (Hle : (max_retained <? len (owner_materials (h_owner_ref h) ms)) = false).
  { apply N.ltb_ge. apply Permutation_length in Hperm. rewrite length_fmap in Hperm.
    unfold len in *. lia. }
  rewrite Hle. rewrite bool_decide_eq_true_2.
  2:{ apply set_eq. intros d. by rewrite !elem_of_list_to_set, Hperm. }
  cbn [negb orb ensure mbind result_bind].
  rewrite (proj2 (collect_size owner_revision_ref ms) Hmu). cbn [ensure mbind result_bind].
  rewrite (proj2 (collect_size t_predecessor ts) Htu). cbn [ensure mbind result_bind].
  apply select_fold.
  - eapply (NoDup_fmap_1 owner_revision_ref). apply owner_materials_NoDup. exact Hmu.
  - intros m Hm. by apply owner_materials_spec.
Qed.

End Select.

End Intervals.

(** ** Reads *)

Section Reads.
Context {vc : VersionCodec} {laws : VersionCodecLaws}.

(** C6: In a closed scope whose owners are chains of revisions, a read of an
    owner at a time always succeeds: it never finds overlapping revisions, it
    returns the revision whose validity interval contains the time with that
    interval, and from the first retained revision until the owner ends it
    returns one. *)
Theorem as_of_read_exact space owner max_retained heads ms ts h time :
  scope_inv space owner max_retained heads ms ts → h ∈ heads →
  ∃ selected,
    select_long_term_version_as_of h ms ts time max_retained = Ok selected
    ∧ (∀ p, selected = Some p →
         rp_material p ∈ ms ∧ m_owner_ref (rp_material p) = h_owner_ref h
         ∧ valid_at ts (rp_material p) time ∧ rp_validity p = validity_of ts (rp_material p))
    ∧ (∀ m, m ∈ ms → m_owner_ref m = h_owner_ref h → valid_at ts m time →
         selected = Some (read_projection ts m))
    ∧ (∀ m, m ∈ ms → m_owner_ref m = h_owner_ref h → origin_valid_from (m_origin m) ≤ time →
         (∀ c e, c ∈ ms → m_owner_ref c = h_owner_ref h →
                 m_owner_revision c = h_current_revision h → ends_at ts c = Some e → time < e) →
         selected ≠ None).
Proof.
  intros Hinv Hh. eexists. split; [by eapply select_as_of_spec|].
  assert (Hiff : ∀ m, valid_revision ms ts h time = Some m ↔
      m ∈ ms ∧ m_owner_ref m = h_owner_ref h ∧ valid_at ts m time).
  { intros m. by eapply valid_revision_spec. }
  split_and!.
  - intros p Hp. destruct (valid_revision ms ts h time) as [m|] eqn:E; [|done].
    cbn in Hp. injection Hp as <-. destruct (proj1 (Hiff m) eq_refl) as (?&?&?). done.
  - intros m Hm Ho Hv. by rewrite (proj2 (Hiff m)).
  - intros m Hm Ho Hf Hcur. destruct (valid_revision_exists _ _ _ _ _ _ Hinv h m time) as (m' & ? & ? & ?);
      [done..|]. by rewrite (proj2 (Hiff m')).
Qed.

(** The read of the current version of an owner in a closed scope always
    succeeds, and returns the material of the revision the head names, valid
    from its own origin. *)
Theorem current_read_exact space owner max_retained heads ms ts h :
  scope_inv space owner max_retained heads ms ts → h ∈ heads →
  ∃ m, m ∈ ms ∧ m_owner_ref m = h_owner_ref h ∧ m_owner_revision m = h_current_revision h
    ∧ select_long_term_version_current h ms ts max_retained = Ok (read_projection ts m).
Proof.
  intros Hinv Hh. pose proof (inv_closed _ _ _ _ _ _ Hinv) as Hc.
  destruct (owned_current heads ms (λ x Hx, proj1 (closed_head _ _ _ _ _ _ Hc x Hx))
              (closed_retained _ _ _ _ _ _ Hc) h Hh) as (m & Hm & Ho & Hr).
  exists m. split_and!; [done..|]. unfold select_long_term_version_current.
  destruct (closed_head _ _ _ _ _ _ Hc h Hh) as (Hok & _).
  destruct (closed_scope _ _ _ _ _ _ Hc) as (_ & _ & Hmax).
  unfold head_ok in Hok. rewrite Hok, (proj2 (N.eqb_neq _ _) Hmax).
  cbn [negb orb ensure mbind result_bind].
  destruct (find _ ms) as [m'|] eqn:Ef.
  - apply find_some in Ef as [Hin Hb]. apply list_elem_of_In in Hin. split_bool.
    assert (m' = m) as ->.
    { eapply (NoDup_key_unique owner_revision_ref); [exact (closed_materials_unique _ _ _ _ _ _ Hc)|done..|].
      unfold owner_revision_ref. congruence. }
    erewrite select_as_of_spec by done.
    rewrite (proj2 (valid_revision_spec _ _ _ _ _ _ Hinv h (origin_valid_from (m_origin m)) Hh m)).
    + cbn [fmap option_fmap option_map mbind result_bind rp_material read_projection].
      by rewrite bool_decide_eq_true_2.
    + split_and!; [done..|]. split; [lia|]. intros e He. unfold ends_at in He.
      destruct (transition_at ts (owner_revision_ref m)) as [t|] eqn:Et; [|done].
      cbn in He. injection He as <-.
      pose proof (transition_at_ok _ _ _ _ _ _ Hinv m t Hm Et) as Htok.
      by apply transition_ok_inv in Htok as (_ & _ & Hint & _).
  - exfalso. assert (Hin : In m ms) by by apply list_elem_of_In.
    pose proof (find_none _ _ Ef m Hin) as Hn. cbn in Hn.
    rewrite Ho, Hr, bool_decide_eq_true_2, N.eqb_refl in Hn by done. done.
Qed.

(** ** Projections *)

(** An entry as a material keeps it: confirmation is evidence, not a field. *)
Definition unconfirmed (e : LongTermMemoryEntry) : LongTermMemoryEntry :=
  mkEntry (e_transcript_sources e) (e_control_barrier_scope_revision e) (e_id e) (e_kind e)
    (e_topic e) (e_content e) (e_keywords e) (e_privacy e) (e_source_chat_id e)
    (e_source_type e) (e_source_scope e) (e_subject_visibility e) (e_provenance e)
    (e_confidence e) (e_freshness e) (e_stale_hint e) (e_supporting_citations e)
    (e_canonical_entities e) (e_evidence_count e) (e_created_at e) (e_updated_at e)
    (e_observed_at e) None (e_source_revision e) (e_owner_revision e) (e_last_used_at e).

Lemma projection_back space owner e valid_from predecessor refs m :
  from_current_projection space owner e valid_from predecessor refs = Ok m →
  to_current_projection m = Ok (unconfirmed e).
Proof.
  unfold from_current_projection. intros H. inv_ok. unfold to_current_projection.
  match goal with H : accepted _ = true |- _ => rewrite H end. reflexivity.
Qed.

(** An entry turned into an immutable material and projected back is the
    same entry, except that its confirmation time is dropped: a material shows
    one only from confirmation evidence. *)
Theorem projection_round_trip space owner e valid_from predecessor refs m :
  from_current_projection space owner e valid_from predecessor refs = Ok m →
  to_current_projection m = Ok (unconfirmed e).
Proof. apply projection_back. Qed.

End Reads.
