(* ===== verification/LongTermPlanProps.v ===== *)
(** * Long-term memory: properties of planning

    Every scope the planner can reach is closed and consists of chains of
    revisions, and each change it plans keeps the scope closed, with one
    exception: an owner that supersedes another cannot be purged. *)

From S2P Require Import Prelude RustStr StoreTypes StoreTransaction ReadSession Governed RustOrd LongTermEntry LongTermVersion LongTermClosure LongTermControl LongTermPlan LongTermSteps LongTermScope LongTermProps.

Local Open Scope string_scope.
Local Open Scope list_scope.
Local Open Scope N_scope.

(** ** What holds between the changes of one transaction *)

Record staged_ok (heads : list Head) (ts : list Transition) : Prop := {
  staged_unique : NoDup (h_owner_ref <$> heads);
  staged_owned t : t ∈ ts → ∃ h, h ∈ heads ∧ h_owner_ref h = owner_ref (t_predecessor t);
  staged_chained : chained heads ts;
}.

Lemma staged_start heads ts hd :
  staged_ok heads ts → (∀ h, h ∈ heads → h_owner_ref h ≠ h_owner_ref hd) →
  staged_ok (heads ++ [hd]) ts.
Proof.
  intros [Hu Hown Hch] Hfresh. split.
  - rewrite fmap_app. apply NoDup_app. split_and!; [done| |apply NoDup_singleton].
    intros o (x & -> & Hx)%list_elem_of_fmap E%list_elem_of_singleton. by destruct (Hfresh x Hx).
  - intros t Ht. destruct (Hown t Ht) as (h & ? & ?). exists h. rewrite elem_of_app. auto.
  - intros x t [Hx|Hx%list_elem_of_singleton]%elem_of_app Ht Hto; [by apply Hch|subst x].
    destruct (Hown t Ht) as (h & Hh & E). destruct (Hfresh h Hh). congruence.
Qed.

(** A head advances over one more transition, to the next revision or to its
    end. *)
Lemma staged_advance heads ts i h next t :
  staged_ok heads ts → heads !! i = Some h → h_owner_ref next = h_owner_ref h →
  t_predecessor t = mkRevisionRef (h_owner_ref h) (h_current_revision h) →
  (∀ t', t' ∈ ts → t_predecessor t' ≠ t_predecessor t) →
  h_current_revision next = h_current_revision h
  ∨ t_successor t = Some (mkRevisionRef (h_owner_ref h) (h_current_revision h + 1)) →
  staged_ok (<[i := next]> heads) (ts ++ [t]).
Proof.
  intros [Hu Hown Hch] Hh Hkey Hp Hfresh Hnext.
  assert (Hin : h ∈ heads) by by eapply list_elem_of_lookup_2.
  destruct (insert_same_key h_owner_ref heads i h next Hu Hh Hkey) as [Hkeys Hel]. split.
  - by rewrite Hkeys.
  - intros t' [Ht'|Ht'%list_elem_of_singleton]%elem_of_app.
    + destruct (Hown t' Ht') as (x & Hx & E). destruct (decide (h_owner_ref x = h_owner_ref h)).
      * exists next. rewrite Hel. split; [by left|congruence].
      * exists x. rewrite Hel. auto.
    + subst t'. exists next. rewrite Hel, Hp. split; [by left|done].
  - intros x t' [->|[Hx Hne]]%Hel [Ht'|Ht'%list_elem_of_singleton]%elem_of_app Hxo Hxr.
    + rewrite Hkey in *. apply (Hch h t' Hin Ht' Hxo). intros E. apply (Hfresh t' Ht').
      rewrite Hp. destruct (t_predecessor t'). cbn in *. congruence.
    + subst t'. rewrite Hp in Hxr |- *. cbn in Hxr |- *. rewrite Hkey.
      destruct Hnext as [Hcur|Hs]; [congruence|done].
    + by apply Hch.
    + subst t'. rewrite Hp in Hxo. cbn in Hxo. congruence.
Qed.

Lemma staged_purge heads ts i h :
  staged_ok heads ts → heads !! i = Some h →
  staged_ok (delete i heads)
    (List.filter (λ t, negb (bool_decide (owner_ref (t_predecessor t) = h_owner_ref h))) ts).
Proof.
  intros [Hu Hown Hch] Hh. destruct (delete_key h_owner_ref heads i h Hu Hh) as [Hu' Hel].
  split; [done|..].
  - intros t [Hne Ht]%elem_of_List_filter. split_bool. destruct (Hown t Ht) as (x & Hx & E).
    exists x. rewrite Hel. split; [split; congruence|done].
  - intros x t [Hx _]%Hel [_ Ht]%elem_of_List_filter. by apply Hch.
Qed.

Section PlanProps.
Context {codec : StoreCodec} {vc : VersionCodec} {laws : VersionCodecLaws} {cc : ControlCodec}.
Context {pc : PlanCodec} (reads : PlanReads).

(** What a bound version adds: the transition from the head's current
    revision, which had none. *)
Lemma bound_transition p space mounted before after head ms ts max_retained b :
  bind_version p space mounted before after head ms ts max_retained = Ok b →
  t_predecessor (cr_transition (bm_control_revision b))
  = mkRevisionRef (h_owner_ref head) (h_current_revision head)
  ∧ ∀ t, t ∈ ts → t_predecessor t ≠ t_predecessor (cr_transition (bm_control_revision b)).
Proof.
  intros (Hopen & Hcl & Hin & Ho & Hr & _ & Hp & _)%bind_version_inv.
  rewrite Hp. split; [unfold owner_revision_ref; by rewrite Ho, Hr|].
  intros t Ht E. eapply (open_head_fresh _ _ _ [head]); [exact Hcl|by left|done|exact Ho|exact Hr|].
  rewrite <- E. apply list_elem_of_fmap_2, elem_of_List_filter. split; [|done].
  apply bool_decide_eq_true. by rewrite E.
Qed.

Lemma head_position_spec o heads i h :
  head_position o heads = Some (i, h) → heads !! i = Some h ∧ h_owner_ref h = o.
Proof. unfold head_position. intros (? & ? & _)%list_find_Some. done. Qed.

Lemma no_head o heads :
  existsb (λ h, bool_decide (h_owner_ref h = o)) heads = false →
  ∀ h, h ∈ heads → h_owner_ref h ≠ o.
Proof.
  intros He h Hh E. apply not_true_iff_false in He. destruct He. apply existsb_exists.
  exists h. rewrite <- list_elem_of_In. split; [done|]. by apply bool_decide_eq_true.
Qed.

Lemma plan_create_staged docs p id prior entry docs' p' :
  staged_ok (sd_heads docs) (sd_transitions docs) →
  plan_create reads docs p id prior entry = Ok (docs', p') →
  staged_ok (sd_heads docs') (sd_transitions docs').
Proof.
  intros Hst H. unfold plan_create in H. inv_ok. cbn. apply staged_start; [done|].
  apply no_head. by split_bool.
Qed.

Lemma plan_append_staged docs p before after transition docs' p' :
  staged_ok (sd_heads docs) (sd_transitions docs) →
  plan_append reads docs p before after transition = Ok (docs', p') →
  staged_ok (sd_heads docs') (sd_transitions docs').
Proof.
  intros Hst H. unfold plan_append in H.
  destruct (head_position _ _) as [[i h]|] eqn:Eh; [|done].
  apply head_position_spec in Eh as [Hh Ho]. inv_ok.
  match goal with H : bind_version _ _ _ _ _ _ _ _ _ = Ok ?b |- _ =>
    pose proof (bound_transition _ _ _ _ _ _ _ _ _ _ H) as [Hp Hfresh];
    pose proof (bind_version_inv _ _ _ _ _ _ _ _ _ _ H)
      as (_ & _ & _ & _ & _ & _ & _ & Hok & _ & Hret);
    destruct (bm_retention b) eqn:Er; [|done..]; destruct (bm_successor_material b) eqn:Es; [|done]
  end.
  inv_ok. cbn. eapply staged_advance; [done|done|done|done|done|]. right.
  apply transition_ok_inv in Hok as (_ & _ & _ & Hfit & _). unfold termination_fits in Hfit.
  destruct Hret as [_ [E'|E']]; rewrite E' in Hfit; destruct Hfit as [_ Hs]; by rewrite Hs, Hp.
Qed.

Lemma plan_supersede_staged docs p before after transition docs' p' :
  staged_ok (sd_heads docs) (sd_transitions docs) →
  plan_supersede reads docs p before after transition = Ok (docs', p') →
  staged_ok (sd_heads docs') (sd_transitions docs').
Proof.
  intros Hst H. unfold plan_supersede in H. inv_ok.
  destruct (head_position _ _) as [[i h]|] eqn:Eh; [|done].
  apply head_position_spec in Eh as [Hh Ho]. inv_ok.
  match goal with H : bind_version _ _ _ _ _ _ _ _ _ = Ok ?b |- _ =>
    pose proof (bound_transition _ _ _ _ _ _ _ _ _ _ H) as [Hp Hfresh];
    destruct (bm_retention b) eqn:Er; try done; destruct (bm_successor_material b) eqn:Es; [|done]
  end.
  inv_ok. cbn. unfold terminal_head in *. inv_ok. split_bool. apply staged_start.
  - eapply staged_advance; [done|done|done|done|done|]. by left.
  - intros x Hx. assert (Hin : h ∈ sd_heads docs) by by eapply list_elem_of_lookup_2.
    match type of Hx with _ ∈ <[_ := ?y]> _ =>
      destruct (insert_same_key h_owner_ref _ i h y (staged_unique _ _ Hst) Hh eq_refl) as [_ Hel]
    end.
    apply Hel in Hx as [->|[Hx _]].
    + cbn. by eapply no_head.
    + by eapply no_head.
Qed.

Lemma plan_terminal_staged docs p prior before transition docs' p' :
  staged_ok (sd_heads docs) (sd_transitions docs) →
  plan_terminal reads docs p prior before transition = Ok (docs', p') →
  staged_ok (sd_heads docs') (sd_transitions docs').
Proof.
  intros Hst H. unfold plan_terminal in H. inv_ok.
  destruct (head_position _ _) as [[i h]|] eqn:Eh; [|done].
  apply head_position_spec in Eh as [Hh Ho]. inv_ok.
  match goal with H : bind_version _ _ _ _ _ _ _ _ _ = Ok ?b |- _ =>
    pose proof (bound_transition _ _ _ _ _ _ _ _ _ _ H) as [Hp Hfresh];
    destruct (bm_retention b) eqn:Er; try done
  end.
  - inv_ok. cbn. unfold terminal_head in *. inv_ok.
    eapply staged_advance; [done|done|done|done|done|]. by left.
  - inv_ok. destruct (bm_tombstone _); [|done]. inv_ok. cbn. rewrite <- Ho.
    by apply staged_purge.
Qed.

Lemma plan_change_staged docs p change docs' p' :
  staged_ok (sd_heads docs) (sd_transitions docs) →
  plan_change reads (docs, p) change = Ok (docs', p') →
  staged_ok (sd_heads docs') (sd_transitions docs').
Proof.
  intros Hst H. destruct change as [id value]. cbn [plan_change] in H. inv_ok.
  destruct value as [entry|before after transition|before transition].
  - by eapply plan_create_staged.
  - unfold plan_advance in H. inv_ok. case_bool_decide.
    + by eapply plan_append_staged.
    + by eapply plan_supersede_staged.
  - by eapply plan_terminal_staged.
Qed.

(** ** A change keeps the scope closed *)

#[local] Notation space := (pr_memory_space_id reads).
#[local] Notation owner := (pr_factual_owner_id reads).
#[local] Notation docs_inv docs :=
  (scope_inv space owner (pr_max_retained reads) (sd_heads docs) (sd_materials docs)
     (sd_transitions docs)).

Lemma next_revision_positive n who m : checked_next_persisted_revision n who = Ok m → m ≠ 0.
Proof.
  unfold checked_next_persisted_revision, u64_checked_add.
  destruct (_ <=? _); [|done]. intros [= <-]. lia.
Qed.

Lemma from_current_projection_ok sp ow e vf pred refs m :
  from_current_projection sp ow e vf pred refs = Ok m →
  material_ok m ∧ m_memory_space_id m = sp ∧ m_factual_owner_id m = ow
  ∧ m_owner_ref m = mkOwnerRef LongTerm (e_id e) ∧ m_owner_revision m = e_owner_revision e
  ∧ origin_predecessor (m_origin m) = pred ∧ origin_valid_from (m_origin m) = vf.
Proof. unfold from_current_projection. intros H. inv_ok. done. Qed.

Lemma creation_inv intent lease b :
  bind_long_term_version_creation intent lease = Ok b →
  material_ok (bc_material b)
  ∧ m_memory_space_id (bc_material b) = ci_memory_space_id intent
  ∧ m_factual_owner_id (bc_material b) = ci_factual_owner_id intent
  ∧ bc_head b = started (ci_memory_space_id intent) (ci_factual_owner_id intent) (bc_material b).
Proof.
  unfold bind_long_term_version_creation. intros H. inv_ok. cbn [bc_material bc_head].
  match goal with H : from_current_projection _ _ _ _ _ _ = _ |- _ =>
    apply from_current_projection_ok in H as (?&?&?&_) end. done.
Qed.

Lemma plan_create_inv docs p id prior entry docs' p' :
  docs_inv docs → plan_create reads docs p id prior entry = Ok (docs', p') →
  len (sd_heads docs') * pr_max_retained reads ≤ usize_max → docs_inv docs'.
Proof using laws.
  intros Hinv H Hcnt. unfold plan_create in H. inv_ok. cbn in Hcnt |- *.
  match goal with H : bind_long_term_version_creation _ _ = _ |- _ =>
    apply creation_inv in H as (Hok & Hs & Ho & Hhead) end. cbn in Hs, Ho, Hhead.
  split_bool. rewrite Hhead in *. apply start_inv; try done.
  - by apply no_head.
  - unfold len in *. rewrite length_app in Hcnt. cbn in Hcnt. lia.
Qed.

Lemma exact_predecessor_in o h before ms missing differs m :
  exact_predecessor o h before ms missing differs = Ok m →
  m ∈ ms ∧ m_owner_ref m = o ∧ m_owner_revision m = h_current_revision h.
Proof.
  unfold exact_predecessor, find_material. destruct (find _ ms) as [x|] eqn:E; [|done].
  intros H. inv_ok. apply find_some in E as [Hin Hb]. split_bool.
  by apply list_elem_of_In in Hin.
Qed.

(** The planner's predecessor is the binder's. *)
Lemma predecessor_agrees (docs : ScopeDocs) (pm pm' : LongTermMemoryVersionMaterial) :
  docs_inv docs → pm ∈ sd_materials docs → pm' ∈ sd_materials docs →
  m_owner_ref pm = m_owner_ref pm' → m_owner_revision pm = m_owner_revision pm' → pm = pm'.
Proof.
  intros [Hc _] H1 H2 Ho Hr.
  eapply (NoDup_key_unique owner_revision_ref); [exact (closed_materials_unique _ _ _ _ _ _ Hc)|done..|].
  unfold owner_revision_ref. congruence.
Qed.

Lemma plan_append_inv docs p before after transition docs' p' :
  docs_inv docs → plan_append reads docs p before after transition = Ok (docs', p') →
  docs_inv docs'.
Proof using laws.
  intros Hinv H. unfold plan_append in H.
  destruct (head_position _ _) as [[i h]|] eqn:Eh; [|done].
  apply head_position_spec in Eh as [Hh Ho]. inv_ok.
  match goal with H : bind_version _ _ _ _ _ _ _ _ _ = Ok ?b |- _ =>
    pose proof (bind_version_inv _ _ _ _ _ _ _ _ _ _ H)
      as (Hopen & _ & Hin & Hpo & Hpr & _ & _ & Hok & _ & Hret);
    destruct (bm_retention b) eqn:Er; [|done..]; destruct (bm_successor_material b) eqn:Es; [|done]
  end.
  inv_ok. cbn. rewrite Hopen. destruct Hret as [Hroom Hterm].
  match goal with H : checked_next_persisted_revision _ _ = _ |- _ =>
    apply next_revision_positive in H as Hn end.
  by eapply append_scope_inv.
Qed.

Lemma plan_supersede_inv docs p before after transition docs' p' :
  docs_inv docs → plan_supersede reads docs p before after transition = Ok (docs', p') →
  len (sd_heads docs') * pr_max_retained reads ≤ usize_max → docs_inv docs'.
Proof using laws.
  intros Hinv H Hcnt. unfold plan_supersede in H. inv_ok.
  destruct (head_position _ _) as [[i h]|] eqn:Eh; [|done].
  apply head_position_spec in Eh as [Hh Ho]. inv_ok. split_bool.
  match goal with H : bind_version _ _ _ _ _ _ _ _ _ = Ok ?b |- _ =>
    pose proof (bind_version_inv _ _ _ _ _ _ _ _ _ _ H)
      as (Hopen & _ & Hin & Hpo & Hpr & _ & _ & Hok & Hown & _);
    destruct (bm_retention b) eqn:Er; try done;
    destruct (bm_successor_material b) as [s|] eqn:Es; [|done]
  end.
  cbn in Hown. injection Hown as Hso. inv_ok. unfold terminal_head in *. inv_ok.
  match goal with H : exact_predecessor _ _ _ _ _ _ = Ok ?x |- _ =>
    apply exact_predecessor_in in H as (Hx & Hxo & Hxr);
    pose proof (predecessor_agrees docs _ _ Hinv Hin Hx ltac:(congruence) ltac:(congruence)) as E' end.
  match goal with H : checked_next_persisted_revision _ _ = _ |- _ =>
    apply next_revision_positive in H as Hn end.
  cbn in Hcnt |- *. rewrite <- E', <- Hso.
  pose proof (transition_ok_inv _ _ _ Hok) as (_ & _ & _ & _ & Hs).
  destruct (t_successor _) as [r|] eqn:Er'; [|done].
  destruct Hs as (Hsok & Href & _ & Hss & Hsf & _).
  destruct (closed_material _ _ _ _ _ _ (inv_closed _ _ _ _ _ _ Hinv) _ Hin) as (_ & Hps & Hpf).
  assert (Hstart : scope_inv space owner (pr_max_retained reads)
            (sd_heads docs ++ [started space owner s]) (sd_materials docs ++ [s])
            (sd_transitions docs)).
  { apply start_inv; [done|done|congruence|congruence| |].
    - rewrite Hso. by apply no_head.
    - unfold len in *. rewrite length_app, length_insert in Hcnt. cbn in Hcnt. lia. }
  pose proof (lookup_lt_Some _ _ _ Hh) as Hlt.
  rewrite <- insert_app_l by done. eapply end_inv; [exact Hstart|..]; try done.
  - by rewrite lookup_app_l.
  - rewrite elem_of_app. by left.
  - rewrite Er'. cbn. rewrite <- Href.
    rewrite (proj2 (material_at_spec _ _ s (closed_materials_unique _ _ _ _ _ _
      (inv_closed _ _ _ _ _ _ Hstart)))); [exact Hok|].
    rewrite elem_of_app, list_elem_of_singleton. auto.
Qed.

(** A purge names its owner; an end keeps the owner for operators. *)
Lemma plan_terminal_inv docs p prior before transition docs' p' :
  docs_inv docs → plan_terminal reads docs p prior before transition = Ok (docs', p') →
  (pt_operation transition ≠ Invalidate →
   no_incoming (mkOwnerRef LongTerm (e_id before)) (sd_transitions docs)) →
  docs_inv docs'.
Proof using laws.
  intros Hinv H Hinc. unfold plan_terminal in H. inv_ok.
  destruct (head_position _ _) as [[i h]|] eqn:Eh; [|done].
  apply head_position_spec in Eh as [Hh Ho]. inv_ok.
  match goal with H : bind_version _ _ _ _ _ _ _ _ _ = Ok ?b |- _ =>
    pose proof (bind_version_inv _ _ _ _ _ _ _ _ _ _ H)
      as (Hopen & _ & Hin & Hpo & Hpr & Hop & _ & Hok & Hown & Hret);
    destruct (bm_retention b) eqn:Er; try done
  end.
  - inv_ok. cbn. unfold terminal_head in *. inv_ok.
    match goal with H : exact_predecessor _ _ _ _ _ _ = Ok ?x |- _ =>
      apply exact_predecessor_in in H as (Hx & Hxo & Hxr);
      pose proof (predecessor_agrees docs _ _ Hinv Hin Hx ltac:(congruence) ltac:(congruence)) as E' end.
    match goal with H : checked_next_persisted_revision _ _ = _ |- _ =>
      apply next_revision_positive in H as Hn end.
    rewrite <- E'. eapply end_inv; [done..| |done].
    pose proof (transition_ok_inv _ _ _ Hok) as (_ & _ & _ & Hfit & _).
    unfold termination_fits in Hfit. rewrite Hret in Hfit. rewrite Hfit. cbn.
    destruct (bm_successor_material _); [done|exact Hok].
  - inv_ok. destruct (bm_tombstone _); [|done]. inv_ok. cbn. rewrite <- Ho.
    apply purge_inv; [done|done|]. rewrite Ho. apply Hinc. intros E'. rewrite E' in Hop. cbn in Hop.
    injection Hop as Hop. destruct Hret; congruence.
Qed.

Lemma purge_closed_iff docs i h :
  docs_inv docs → sd_heads docs !! i = Some h →
  let docs' := purge_docs (h_owner_ref h) i docs in
  accepted (validate_scope_closure space owner (sd_heads docs') (sd_materials docs')
              (sd_transitions docs') (pr_max_retained reads)) = true ↔
  no_incoming (h_owner_ref h) (sd_transitions docs).
Proof.
  intros Hinv Hh docs'. rewrite scope_closure_decides. split.
  - intros Hc' t s Ht Hne Hs E.
    destruct (closed_transition _ _ _ _ _ _ Hc' t) as (pm & _ & _ & Hok).
    { cbn. apply elem_of_List_filter. split; [|done].
      by apply negb_true_iff, bool_decide_eq_false. }
    apply transition_ok_inv in Hok as (_ & _ & _ & _ & Hsm). rewrite Hs in Hsm.
    cbn [mbind option_bind] in Hsm.
    destruct (material_at _ s) as [m|] eqn:Em; [|done].
    apply material_at_spec in Em as [Hm Href]; [|exact (closed_materials_unique _ _ _ _ _ _ Hc')].
    apply elem_of_List_filter in Hm as [Hm _]. split_bool. rewrite <- Href in E. done.
  - intros Hinc. apply (inv_closed _ _ _ _ _ _ (purge_inv _ _ _ _ _ _ _ _ Hinv Hh Hinc)).
Qed.

(** The scope manifest is built only over a closed scope. *)
Lemma build_closed sp ow revision heads ms ts bs max_retained s :
  scope_manifest_build sp ow revision heads ms ts bs max_retained = Ok s →
  scope_closed sp ow heads ms ts max_retained ∧ s_manifest_revision s = revision
  ∧ s_memory_space_id s = sp ∧ s_factual_owner_id s = ow.
Proof.
  unfold scope_manifest_build. intros H. inv_ok. cbn [s_manifest_revision s_memory_space_id s_factual_owner_id].
  split_bool. by rewrite <- scope_closure_decides.
Qed.

Lemma validate_exact_iff s heads ms ts bs max_retained :
  accepted (validate_exact s heads ms ts bs max_retained) = true ↔
  scope_manifest_build (s_memory_space_id s) (s_factual_owner_id s) (s_manifest_revision s)
    heads ms ts bs max_retained = Ok s.
Proof.
  unfold validate_exact. rewrite contract_validation_accepted, app_nil, push_if_nil. split.
  - intros [_ H]. destruct (scope_manifest_build _ _ _ _ _ _ _ _) as [x|]; [|done].
    split_bool. by subst.
  - intros H. rewrite H. rewrite bool_decide_eq_true_2 by done. split; [|done].
    apply build_closed in H as [H _]. apply scope_closure_decides in H.
    unfold validate_scope_closure in H |- *.
    repeat match goal with |- context [let '(_, _) := ?x in _] => destruct x end.
    by rewrite contract_validation_accepted, <- failures_contract_nil in H.
Qed.

End PlanProps.

Section Claims.
Context {codec : StoreCodec} {vc : VersionCodec} {laws : VersionCodecLaws} {cc : ControlCodec}.
Context {pc : PlanCodec}.

(** A change the planner accepts on a closed scope of revision chains
    (create, append a revision, supersede, invalidate, delete or forget)
    leaves one, so the closure check of the next scope manifest passes,
    provided the number of owners stays representable and an owner that is
    deleted or forgotten does not supersede another one. *)
Theorem planned_change_keeps_scope reads docs p change docs' p' :
  scope_inv (pr_memory_space_id reads) (pr_factual_owner_id reads) (pr_max_retained reads)
    (sd_heads docs) (sd_materials docs) (sd_transitions docs) →
  plan_change reads (docs, p) change = Ok (docs', p') →
  len (sd_heads docs') * pr_max_retained reads ≤ usize_max →
  (∀ before transition, change.2 = PlanTerminal before transition →
     pt_operation transition ≠ Invalidate →
     no_incoming (mkOwnerRef LongTerm (e_id before)) (sd_transitions docs)) →
  scope_inv (pr_memory_space_id reads) (pr_factual_owner_id reads) (pr_max_retained reads)
    (sd_heads docs') (sd_materials docs') (sd_transitions docs').
Proof using laws.
  intros Hinv H Hcnt Hinc. destruct change as [id value]. cbn [plan_change] in H. inv_ok.
  destruct value as [entry|before after transition|before transition].
  - by eapply plan_create_inv.
  - unfold plan_advance in H. inv_ok. case_bool_decide.
    + by eapply plan_append_inv.
    + by eapply plan_supersede_inv.
  - eapply plan_terminal_inv; [done|done|]. by apply Hinc.
Qed.

(** Purging an owner leaves a closed scope exactly when no other owner was
    superseded by it; otherwise the plan that deletes or forgets it cannot be
    finished, whatever the rest of it is. *)
Theorem superseding_owner_cannot_be_purged reads docs i h previous revision p bindings :
  scope_inv (pr_memory_space_id reads) (pr_factual_owner_id reads) (pr_max_retained reads)
    (sd_heads docs) (sd_materials docs) (sd_transitions docs) →
  sd_heads docs !! i = Some h →
  let purged := purge_docs (h_owner_ref h) i docs in
  (accepted (validate_scope_closure (pr_memory_space_id reads) (pr_factual_owner_id reads)
     (sd_heads purged) (sd_materials purged) (sd_transitions purged) (pr_max_retained reads))
   = true ↔ no_incoming (h_owner_ref h) (sd_transitions docs))
  ∧ (¬ no_incoming (h_owner_ref h) (sd_transitions docs) →
     ∃ e, finish_plan reads previous revision
            (mkDocs (sd_heads purged) (sd_materials purged) (sd_transitions purged) bindings
               (sd_control_revisions purged), p) = Err e).
Proof.
  intros Hinv Hh purged. pose proof (purge_closed_iff reads docs i h Hinv Hh) as Hiff.
  split; [exact Hiff|]. intros Hno. unfold finish_plan.
  destruct (long_term_version_scope_manifest_key _ _) as [k|e]; [|by eexists].
  cbn [mbind result_bind sd_heads sd_materials sd_transitions sd_bindings].
  destruct (scope_manifest_build _ _ _ _ _ _ _ _) as [s|e] eqn:E; [|by eexists].
  exfalso. apply Hno, Hiff, scope_closure_decides. by apply build_closed in E as [? _].
Qed.

(** The documents of a space, planned transaction by transaction.  Between two
    transactions they are read back from the store, in the order of the keys
    and with the control revisions that the bindings name. *)
Inductive reachable (space owner : string) : ScopeDocs → Prop :=
| reach_empty : reachable space owner (mkDocs [] [] [] [] [])
| reach_plan reads previous previous_value docs sources changes docs' scope plan :
    reachable space owner docs →
    pr_memory_space_id reads = space → pr_factual_owner_id reads = owner →
    into_plan reads previous previous_value docs sources changes = Ok (docs', scope, plan) →
    reachable space owner docs'
| reach_read docs docs' :
    reachable space owner docs →
    sd_heads docs ≡ₚ sd_heads docs' → sd_materials docs ≡ₚ sd_materials docs' →
    sd_transitions docs ≡ₚ sd_transitions docs' →
    reachable space owner docs'.

Lemma staged_perm (heads heads' : list Head) (ts ts' : list Transition) :
  heads ≡ₚ heads' → ts ≡ₚ ts' → staged_ok heads ts → staged_ok heads' ts'.
Proof.
  intros Hh Ht [Hu Hown Hch]. split.
  - by rewrite <- Hh.
  - intros t. rewrite <- Ht. intros Hin. destruct (Hown t Hin) as (h & Hin' & E).
    exists h. by rewrite <- Hh.
  - intros h t. rewrite <- Hh, <- Ht. apply Hch.
Qed.

Lemma try_fold_staged reads changes docs p docs' p' :
  staged_ok (sd_heads docs) (sd_transitions docs) →
  try_fold (plan_change reads) (docs, p) changes = Ok (docs', p') →
  staged_ok (sd_heads docs') (sd_transitions docs').
Proof.
  intros Hst H.
  apply (try_fold_invariant (λ s, staged_ok (sd_heads s.1) (sd_transitions s.1))) in H; [done| |done].
  intros [d q] c [d' q'] _ Hd Hc. by eapply plan_change_staged.
Qed.

(** A finished plan starts from staged documents and ends in a closed scope. *)
Lemma into_plan_staged reads previous previous_value docs sources changes docs' scope plan :
  staged_ok (sd_heads docs) (sd_transitions docs) →
  into_plan reads previous previous_value docs sources changes = Ok (docs', scope, plan) →
  scope_inv (pr_memory_space_id reads) (pr_factual_owner_id reads) (pr_max_retained reads)
    (sd_heads docs') (sd_materials docs') (sd_transitions docs')
  ∧ scope_manifest_build (pr_memory_space_id reads) (pr_factual_owner_id reads)
      (s_manifest_revision scope) (sd_heads docs') (sd_materials docs') (sd_transitions docs')
      (sd_bindings docs') (pr_max_retained reads) = Ok scope
  ∧ next_scope_revision previous = Ok (s_manifest_revision scope).
Proof.
  intros Hst H. unfold into_plan in H. inv_ok.
  match goal with H : try_fold _ _ _ = Ok ?x |- _ => destruct x as [d q] eqn:Ex; rename H into Hf end.
  apply try_fold_staged in Hf as [_ _ Hch]; [|done]. unfold finish_plan in H. inv_ok.
  match goal with H : scope_manifest_build _ _ _ _ _ _ _ _ = Ok _ |- _ =>
    pose proof (build_closed _ _ _ _ _ _ _ _ _ H) as (Hc & Hrev & _); rename H into Hb end.
  rewrite Hrev. done.
Qed.

Lemma closed_staged space owner max_retained heads ms ts :
  scope_inv space owner max_retained heads ms ts → staged_ok heads ts.
Proof.
  intros [Hc Hch]. split; [exact (closed_heads_unique _ _ _ _ _ _ Hc)| |done].
  intros t Ht. destruct (closed_transition _ _ _ _ _ _ Hc t Ht) as (pm & Hpm & E & _).
  destruct (closed_owned _ _ _ _ _ _ Hc pm Hpm) as (h & Hh & Ho). exists h. by rewrite <- E.
Qed.

Lemma reachable_staged space owner docs :
  reachable space owner docs → staged_ok (sd_heads docs) (sd_transitions docs).
Proof.
  induction 1 as [|reads previous pv docs sources changes docs' scope plan _ IH _ _ Hp
                  |docs docs' _ IH Hh _ Ht].
  - split; cbn; [constructor| |]; intros t; try by intros ?%not_elem_of_nil.
    intros ? Ht. by apply not_elem_of_nil in Ht.
  - apply into_plan_staged in Hp as [Hinv _]; [|done]. by eapply closed_staged.
  - by eapply staged_perm.
Qed.

(** C4: Every transaction planned over reachable documents, however its
    changes are ordered and combined, ends in a closed scope in which the
    revisions of each owner form one chain, with a scope manifest of the next
    revision that validates exactly against the documents. *)
Theorem reachable_scope_invariant space owner reads previous previous_value docs sources changes
    docs' scope plan :
  reachable space owner docs →
  pr_memory_space_id reads = space → pr_factual_owner_id reads = owner →
  into_plan reads previous previous_value docs sources changes = Ok (docs', scope, plan) →
  scope_inv space owner (pr_max_retained reads) (sd_heads docs') (sd_materials docs')
    (sd_transitions docs')
  ∧ accepted (validate_exact scope (sd_heads docs') (sd_materials docs') (sd_transitions docs')
                (sd_bindings docs') (pr_max_retained reads)) = true
  ∧ next_scope_revision previous = Ok (s_manifest_revision scope).
Proof.
  intros Hreach <- <- Hp. apply reachable_staged in Hreach.
  apply into_plan_staged in Hp as (Hinv & Hb & Hrev); [|done]. split_and!; [done| |done].
  apply validate_exact_iff. pose proof (build_closed _ _ _ _ _ _ _ _ _ Hb) as (_ & _ & -> & ->).
  done.
Qed.

(** A scope manifest validates against documents exactly when building
    the manifest of the same scope and revision from them gives that manifest,
    and a manifest that was built is bound to a closed scope. *)
Theorem scope_manifest_exact s heads ms ts bs max_retained :
  (accepted (validate_exact s heads ms ts bs max_retained) = true ↔
   scope_manifest_build (s_memory_space_id s) (s_factual_owner_id s) (s_manifest_revision s)
     heads ms ts bs max_retained = Ok s)
  ∧ (accepted (validate_exact s heads ms ts bs max_retained) = true →
     scope_closed (s_memory_space_id s) (s_factual_owner_id s) heads ms ts max_retained).
Proof.
  split; [apply validate_exact_iff|]. intros H%validate_exact_iff.
  by apply build_closed in H as [? _].
Qed.

(** C7: The closure validator accepts heads, materials and transitions
    exactly when they are closed: contracts hold, heads and revisions are
    unique, retained digests are those of the materials, the revisions of an
    owner are an interval up to the current one, and transitions are exactly
    those of superseded and ended revisions, each fitting its materials. *)
Theorem closure_validator_exact space owner heads ms ts max_retained :
  accepted (validate_scope_closure space owner heads ms ts max_retained) = true ↔
  scope_closed space owner heads ms ts max_retained.
Proof. apply scope_closure_decides. Qed.

(** The scope without owners. *)
Lemma empty_inv space max_retained :
  not_canonical space = false → max_retained ≠ 0 →
  scope_inv space space max_retained [] [] [].
Proof.
  intros Hs Hmax. split.
  - apply closed_intro; [done|set_solver|constructor|done|set_solver|constructor|set_solver..|].
    split_and!; [constructor|intros r; cbn; set_solver|set_solver].
  - intros ? ? ?. set_solver.
Qed.

Lemma unconfirmed_id e : e_last_confirmed_at e = None → unconfirmed e = e.
Proof. destruct e. cbn. by intros ->. Qed.

(** C34: A created owner is well formed: its material and head satisfy their
    contracts, together they are a closed scope of one owner with one
    revision, and the material projects back to the staged entry. *)
Theorem created_owner_well_formed intent lease b :
  bind_long_term_version_creation intent lease = Ok b →
  max_retained_revisions_per_owner lease ≤ usize_max →
  scope_inv (ci_memory_space_id intent) (ci_factual_owner_id intent)
    (max_retained_revisions_per_owner lease) [bc_head b] [bc_material b] []
  ∧ m_owner_revision (bc_material b) = 1
  ∧ to_current_projection (bc_material b) = Ok (ci_projection intent).
Proof using laws.
  intros H Hmax. pose proof (creation_inv _ _ _ H) as (Hok & Hs & Ho & Hhead).
  unfold bind_long_term_version_creation in H. inv_ok. cbn [bc_material bc_head] in *. split_bool.
  match goal with H : from_current_projection _ _ _ _ _ _ = Ok ?m |- _ =>
    pose proof (from_current_projection_ok _ _ _ _ _ _ _ H) as (_&_&_&_&Hrev&_);
    apply projection_back in H as Hback end.
  match goal with H : is_none _ = true |- _ => rename H into Hconf end.
  split_and!; [|congruence|].
  - rewrite Hhead. apply (start_inv _ _ _ [] [] []); try done.
    + match goal with H : ci_factual_owner_id _ = ci_memory_space_id _ |- _ => rewrite H end.
      apply empty_inv; [done|lia].
    + by intros h Hh%not_elem_of_nil.
    + change (len (@nil Head)) with 0%N. lia.
  - rewrite Hback, unconfirmed_id; [done|].
    destruct (e_last_confirmed_at (ci_projection intent)); done.
Qed.

End Claims.

(** * Long-term memory: the scope manifest is canonical

    The manifest of a scope, and with it the closure digest, depends on the
    documents as sets: the order in which a store lists heads, materials,
    transitions and bindings does not matter. *)

Lemma try_map_perm {A B} (f : A → result B) l1 l2 bs1 :
  l1 ≡ₚ l2 → try_map f l1 = Ok bs1 → ∃ bs2, try_map f l2 = Ok bs2 ∧ bs1 ≡ₚ bs2.
Proof.
  intros Hp. revert bs1. induction Hp as [|a l1 l2 _ IH|a b l|l1 l2 l3 _ IH1 _ IH2]; intros bs1 H.
  - by exists bs1.
  - cbn in H. inv_ok. edestruct IH as (bs2 & H2 & Hp2); [done|].
    eexists. cbn. rewrite H2. match goal with H : f a = _ |- _ => rewrite H end.
    split; [reflexivity|by constructor].
  - cbn in H. inv_ok. eexists. cbn.
    repeat match goal with H : ?x = Ok _ |- _ => rewrite H; clear H end.
    split; [reflexivity|by constructor].
  - edestruct IH1 as (bs2 & H2 & Hp2); [done|]. edestruct IH2 as (bs3 & H3 & Hp3); [done|].
    exists bs3. split; [done|by etrans].
Qed.

Lemma len_perm {A} (l1 l2 : list A) : l1 ≡ₚ l2 → len l1 = len l2.
Proof. intros Hp. unfold len. by rewrite Hp. Qed.

Section Canonical.
Context {vc : VersionCodec} {laws : VersionCodecLaws}.

Lemma collect_by_perm (ts ts' : list Transition) :
  NoDup (t_predecessor <$> ts) → ts ≡ₚ ts' →
  collect_by t_predecessor ts = collect_by t_predecessor ts'.
Proof.
  intros Hnd Hp. assert (Hnd' : NoDup (t_predecessor <$> ts')) by by rewrite <- Hp.
  apply map_eq. intros r. apply option_eq. intros t.
  rewrite !collect_lookup by done. by rewrite Hp.
Qed.

Lemma material_at_perm (ms ms' : list Material) r :
  NoDup (owner_revision_ref <$> ms) → ms ≡ₚ ms' → material_at ms r = material_at ms' r.
Proof.
  intros Hnd Hp. assert (Hnd' : NoDup (owner_revision_ref <$> ms')) by by rewrite <- Hp.
  apply option_eq. intros m. rewrite !material_at_spec by done. by rewrite Hp.
Qed.

Lemma scope_closed_perm space owner (heads heads' : list Head) (ms ms' : list Material)
    (ts ts' : list Transition) max_retained :
  heads ≡ₚ heads' → ms ≡ₚ ms' → ts ≡ₚ ts' →
  scope_closed space owner heads ms ts max_retained →
  scope_closed space owner heads' ms' ts' max_retained.
Proof.
  intros Hh Hm Ht [Hscope Hhead Hu Hcnt Hmat Hmu Hret Hown Htu Hcont Hexp Htok].
  assert (Hh' : ∀ h, h ∈ heads ↔ h ∈ heads') by (intros; by rewrite Hh).
  assert (Hm' : ∀ m, m ∈ ms ↔ m ∈ ms') by (intros; by rewrite Hm).
  assert (Ht' : ∀ t, t ∈ ts ↔ t ∈ ts') by (intros; by rewrite Ht).
  setoid_rewrite Hh' in Hhead. setoid_rewrite Hm' in Hmat.
  split; try done.
  - by rewrite <- Hh.
  - by rewrite <- (len_perm _ _ Hh), <- (len_perm _ _ Hm).
  - by rewrite <- Hm.
  - intros h d. rewrite <- Hh'. setoid_rewrite <- Hm'. apply Hret.
  - intros m. rewrite <- Hm'. setoid_rewrite <- Hh'. apply Hown.
  - by rewrite <- Ht.
  - intros h m. rewrite <- Hh'. setoid_rewrite <- Hm'. apply Hcont.
  - intros r. rewrite <- Ht, Hexp. setoid_rewrite Hh'. by setoid_rewrite Hm'.
  - intros t. rewrite <- Ht'. setoid_rewrite <- Hm'. intros Hin.
    destruct (Htok t Hin) as (pm & Hpm & E & Hok). exists pm. split_and!; [done..|].
    destruct (t_successor t) as [s|]; [|done]. cbn [mbind option_bind] in Hok |- *.
    by rewrite <- (material_at_perm ms ms').
Qed.

Lemma scope_closure_digest_perm space owner revision (heads heads' : list Head)
    (ms ms' : list Material) (ts ts' : list Transition) hb bs :
  NoDup (h_owner_ref <$> heads) → heads ≡ₚ heads' → ms ≡ₚ ms' → ts ≡ₚ ts' →
  scope_closure_digest space owner revision heads ms ts hb bs
  = scope_closure_digest space owner revision heads' ms' ts' hb bs.
Proof.
  intros Hnd Hh Hm Ht. unfold scope_closure_digest.
  rewrite (sort_by_key_canonical h_owner_ref heads heads'), (sort_canonical ts ts') by done.
  by rewrite (sort_canonical ((λ m, (m_owner_ref m, m_owner_revision m, m_content_digest m)) <$> ms)
               ((λ m, (m_owner_ref m, m_owner_revision m, m_content_digest m)) <$> ms'))
    by by rewrite Hm.
Qed.

(** The scope manifest, its bindings, counts and closure digest included,
    is the same for every order in which the documents of the scope are
    listed. *)
Theorem scope_manifest_canonical space owner revision heads heads' ms ms' ts ts' bs bs'
    max_retained s :
  heads ≡ₚ heads' → ms ≡ₚ ms' → ts ≡ₚ ts' → bs ≡ₚ bs' →
  scope_manifest_build space owner revision heads ms ts bs max_retained = Ok s →
  scope_manifest_build space owner revision heads' ms' ts' bs' max_retained = Ok s.
Proof.
  intros Hh Hm Ht Hb H. pose proof (build_closed _ _ _ _ _ _ _ _ _ H) as [Hc _].
  pose proof (scope_closed_perm _ _ _ _ _ _ _ _ _ Hh Hm Ht Hc) as Hc'.
  unfold scope_manifest_build in H |- *. inv_ok.
  match goal with H : try_map _ heads = Ok _ |- _ =>
    destruct (try_map_perm _ _ _ _ Hh H) as (hb' & Hhb & Hhp) end.
  rewrite (proj2 (scope_closure_decides _ _ _ _ _ _) Hc').
  rewrite Hhb. cbn [mbind result_bind].
  rewrite <- (sort_canonical _ _ Hhp), <- (sort_canonical _ _ Hb).
  rewrite <- (collect_by_perm _ _ (closed_transitions_unique _ _ _ _ _ _ Hc) Ht).
  rewrite <- (len_perm _ _ Hh), <- (len_perm _ _ Hm), <- (len_perm _ _ Ht).
  rewrite <- (scope_closure_digest_perm _ _ _ _ _ _ _ _ _ _ _
               (closed_heads_unique _ _ _ _ _ _ Hc) Hh Hm Ht).
  assert (Hrev : (revision =? 0) = false) by (split_bool; by apply N.eqb_neq).
  rewrite Hrev. cbn [negb orb ensure mbind result_bind].
  repeat match goal with H : _ = true |- _ => rewrite H; clear H; cbn [ensure mbind result_bind] end.
  repeat match goal with H : _ = Ok _ |- _ => rewrite H; clear H; cbn [mbind result_bind] end.
  reflexivity.
Qed.

End Canonical.
