(* ===== verification/LongTermSamples.v ===== *)
(** * Long-term memory: sample scopes

    A concrete codec, a small history of a scope planned transaction by
    transaction, and the theorems about versions applied to it. *)

From S2P Require Import Prelude RustStr RustOrd Governed LongTermEntry LongTermVersion.
From S2P Require Import LongTermClosure LongTermControl LongTermPlan LongTermSteps LongTermScope.
From S2P Require Import LongTermProps LongTermPlanProps StoreTypes StoreTransaction ReadSession StoreSamples.

Local Open Scope string_scope.
Local Open Scope list_scope.
Local Open Scope N_scope.

Module LongTermSamples.

(** ** A codec *)

Definition hex_digit (n : N) : Ascii.ascii :=
  Ascii.ascii_of_N (if n <? 10 then 48 + n else 87 + n).

Fixpoint hex_digits (k : nat) (n : N) : string :=
  match k with
  | O => ""
  | S k => String (hex_digit (n mod 16)) (hex_digits k (n / 16))
  end.

Lemma hex_digit_lower n : n < 16 → is_lower_hex (hex_digit n) = true.
Proof.
  intros Hn. assert (Hin : In n (N.of_nat <$> seq 0 16)).
  { apply list_elem_of_In, list_elem_of_fmap. exists (N.to_nat n). rewrite elem_of_seq. lia. }
  clear Hn. revert n Hin. apply forallb_forall. vm_compute. reflexivity.
Qed.

Lemma sample_hex_length k n : String.length (hex_digits k n) = k.
Proof. revert n. induction k as [|k IH]; intros n; [done|]. cbn. by rewrite IH. Qed.

Lemma hex_digits_lower k n :
  forallb is_lower_hex (String.list_ascii_of_string (hex_digits k n)) = true.
Proof.
  revert n. induction k as [|k IH]; intros n; [done|]. cbn [hex_digits String.list_ascii_of_string forallb].
  rewrite hex_digit_lower by (apply N.mod_lt; lia). apply IH.
Qed.

(** A checksum printed as 64 digits stands for SHA-256. *)
Definition checksum (b : bytes) : N :=
  foldl (λ h x, N.land (257 * h + Byte.to_N x + 1) (N.ones 64)) 7 b.

#[local] Instance version_codec : VersionCodec :=
  {| sha256_hex := λ b, hex_digits 64 (checksum b);
     material_to_vec := λ d,
       inr (str_bytes (owner_id (di_owner_ref d)) ++ be_bytes (di_owner_revision d)
            ++ str_bytes (gc_content (di_governed_content d)));
     head_to_vec := λ h,
       inr (str_bytes (owner_id (h_owner_ref h)) ++ be_bytes (h_manifest_revision h));
     closure_to_vec := λ c,
       inr (be_bytes (cd_manifest_revision c) ++ be_bytes (len (cd_heads c))
            ++ be_bytes (len (cd_transitions c))) |}.

#[local] Instance version_codec_laws : VersionCodecLaws.
Proof.
  split; [|by eexists..]. intros b. unfold is_lowercase_sha256, str_len. cbn [sha256_hex version_codec].
  by rewrite sample_hex_length, hex_digits_lower.
Qed.

#[local] Instance control_codec : ControlCodec :=
  {| control_to_vec := λ d, inr (str_bytes (cdi_revision_id d));
     audit_identity_to_vec := λ _, inr (str_bytes "audit");
     tombstone_identity_to_vec := λ _, inr (str_bytes "tombstone") |}.

#[local] Existing Instance StoreSamples.sample_store_codec.

#[local] Instance plan_codec : PlanCodec :=
  {| material_to_value := λ m, inr (m_content_digest m : Value);
     head_to_value := λ h, inr (pretty (h_manifest_revision h) : Value);
     control_to_value := λ r, inr (cr_revision_id r : Value);
     tombstone_to_value := λ t, inr (ts_record_id t : Value);
     audit_to_value := λ a, inr (au_event_id a : Value);
     scope_to_value := λ s, inr (s_closure_digest s : Value) |}.

(** ** A history *)

Definition entry (id content : string) (revision at_ : N) : LongTermMemoryEntry :=
  {| e_transcript_sources := []; e_control_barrier_scope_revision := None; e_id := id;
     e_kind := KFact; e_topic := "topic"; e_content := content; e_keywords := [];
     e_privacy := SharedWithSubject; e_source_chat_id := None; e_source_type := SrcManualTool;
     e_source_scope := ScopeUser; e_subject_visibility := AllSubjects;
     e_provenance := mkProvenance UserAsserted None; e_confidence := ConfHigh;
     e_freshness := FreshStable; e_stale_hint := StaleNone; e_supporting_citations := [];
     e_canonical_entities := []; e_evidence_count := 1; e_created_at := 10;
     e_updated_at := at_; e_observed_at := at_; e_last_confirmed_at := None;
     e_source_revision := None; e_owner_revision := revision; e_last_used_at := at_ |}.

(** The values a planner observes for the documents of a scope. *)
Definition observed {A} (key : A → result string) (value : A → string + Value) (l : list A)
    : gmap string Value :=
  list_to_map (omap (λ a, match key a, value a with
                          | Ok k, inr v => Some (k, v)
                          | _, _ => None
                          end) l).

Definition reads_of (docs : ScopeDocs) (entries : list (string * option LongTermMemoryEntry))
    : PlanReads :=
  mkReads "space" "space"
    (observed (λ h, long_term_version_head_key "space" "space" (h_owner_ref h)) head_to_value
       (sd_heads docs))
    (observed (λ m, long_term_version_material_key "space" "space" (m_owner_ref m)
                      (m_owner_revision m)) material_to_value (sd_materials docs))
    ∅ (list_to_map entries) false 4.

Definition staged (id : string) (operation : LongTermControlOperation) (at_ : N)
    : PlanningLongTermTransitionIntent :=
  {| pt_revision_id := id; pt_operation := operation; pt_basis := ExplicitControl;
     pt_invalidation_reason_code := None; pt_reason := "sample";
     pt_actor_subject_id := Some "actor"; pt_human_confirmation_authority := None;
     pt_created_at := at_; pt_governed_evidence_refs := [] |}.

Definition no_docs : ScopeDocs := mkDocs [] [] [] [] [].
Definition no_plan : VersionPlan := mkVersionPlan [] [].

Definition outcome (r : result (ScopeDocs * LongTermMemoryVersionScopeManifest * VersionPlan))
    : ScopeDocs * LongTermMemoryVersionScopeManifest * VersionPlan :=
  match r with
  | Ok x => x
  | Err _ => (no_docs, mkScopeManifest 0 "" "" "" 0 [] [] 0 0 0 "", no_plan)
  end.

(** Two owners are created. *)
Definition alpha1 := entry "alpha" "first" 1 10.
Definition beta1 := entry "beta" "other" 1 10.
Definition reads1 := reads_of no_docs [("alpha", None); ("beta", None)].
Definition changes1 := [("alpha", PlanCreate alpha1); ("beta", PlanCreate beta1)].
Definition plan1 := Eval vm_compute in outcome (into_plan reads1 None None no_docs no_plan changes1).

Example plan1_ok : into_plan reads1 None None no_docs no_plan changes1 = Ok plan1.
Proof. vm_compute. reflexivity. Qed.

(** The first is revised, the second superseded by a third. *)
Definition docs1 := plan1.1.1.
Definition alpha2 := entry "alpha" "second" 2 20.
Definition gamma1 := entry "gamma" "better" 1 20.
Definition reads2 := reads_of docs1 [("alpha", Some alpha1); ("beta", Some beta1)].
Definition refresh2 := planning_refresh alpha1 alpha2 "sample" "actor".
Definition changes2 :=
  [("alpha", PlanAdvance alpha1 alpha2 refresh2);
   ("beta", PlanAdvance beta1 gamma1 (staged "supersede-beta" Supersede 20))].
Definition plan2 := Eval vm_compute in
  outcome (into_plan reads2 (Some plan1.1.2) (Some (s_closure_digest plan1.1.2)) docs1 no_plan changes2).
Definition docs2 := plan2.1.1.

Example plan2_ok :
  into_plan reads2 (Some plan1.1.2) (Some (s_closure_digest plan1.1.2)) docs1 no_plan changes2 = Ok plan2.
Proof. vm_compute. reflexivity. Qed.

Lemma reachable1 : reachable "space" "space" docs1.
Proof. eapply reach_plan; [apply reach_empty| | |exact plan1_ok]; reflexivity. Qed.

Lemma reachable2 : reachable "space" "space" docs2.
Proof. eapply reach_plan; [exact reachable1| | |exact plan2_ok]; reflexivity. Qed.

Lemma scope1 : scope_inv "space" "space" 4 (sd_heads docs1) (sd_materials docs1) (sd_transitions docs1).
Proof.
  exact (proj1 (into_plan_staged _ _ _ _ _ _ _ _ _ (reachable_staged _ _ _ (reach_empty "space" "space")) plan1_ok)).
Qed.

Lemma scope2 : scope_inv "space" "space" 4 (sd_heads docs2) (sd_materials docs2) (sd_transitions docs2).
Proof.
  exact (proj1 (into_plan_staged _ _ _ _ _ _ _ _ _ (reachable_staged "space" "space" _ reachable1) plan2_ok)).
Qed.

(** ** Witnesses *)

Definition alpha_head : LongTermMemoryHeadManifest :=
  default (mkHead 0 "" "" (mkOwnerRef LongTerm "") 0 [] None 0) (head (sd_heads docs2)).

Lemma alpha_head_in : alpha_head ∈ sd_heads docs2.
Proof. vm_compute. left. Qed.

Definition content_at (time : N) : option string :=
  match select_long_term_version_as_of alpha_head (sd_materials docs2) (sd_transitions docs2) time 4 with
  | Ok (Some p) => Some (gc_content (m_governed_content (rp_material p)))
  | _ => None
  end.

Example content_over_time : content_at <$> [9; 10; 19; 20; 1000]
  = [None; Some "first"; Some "first"; Some "second"; Some "second"].
Proof. vm_compute. reflexivity. Qed.

Lemma as_of_read_exact_witness :
  ∃ selected,
    select_long_term_version_as_of alpha_head (sd_materials docs2) (sd_transitions docs2) 15 4
    = Ok (Some selected)
    ∧ valid_at (sd_transitions docs2) (rp_material selected) 15.
Proof.
  destruct (as_of_read_exact _ _ _ _ _ _ _ 15 scope2 alpha_head_in) as (selected & Hs & Hv & _).
  destruct selected as [p|]; [exists p; split; [exact Hs|exact (proj1 (proj2 (proj2 (Hv p eq_refl))))]|].
  exfalso. vm_compute in Hs. discriminate Hs.
Defined.

Lemma current_read_exact_witness :
  ∃ m, m_owner_revision m = 2
    ∧ select_long_term_version_current alpha_head (sd_materials docs2) (sd_transitions docs2) 4
      = Ok (read_projection (sd_transitions docs2) m).
Proof.
  destruct (current_read_exact _ _ _ _ _ _ _ scope2 alpha_head_in) as (m & _ & _ & Hr & Hs).
  exists m. split; [exact Hr|exact Hs].
Defined.

Definition alpha_material := Eval vm_compute in
  from_current_projection "space" "space" alpha1 10 None [].

Lemma projection_round_trip_witness :
  ∃ m, from_current_projection "space" "space" alpha1 10 None [] = Ok m
    ∧ to_current_projection m = Ok alpha1.
Proof.
  destruct (from_current_projection "space" "space" alpha1 10 None []) as [m|e] eqn:E.
  - exists m. split; [reflexivity|]. exact (projection_round_trip _ _ _ _ _ _ _ E).
  - exfalso. vm_compute in E. discriminate E.
Defined.

Definition create_intent := mkCreateIntent "space" "space" alpha1 [] 10.

Lemma created_owner_well_formed_witness :
  ∃ b, bind_long_term_version_creation create_intent (mkLease 4) = Ok b
    ∧ scope_inv "space" "space" 4 [bc_head b] [bc_material b] [].
Proof.
  destruct (bind_long_term_version_creation create_intent (mkLease 4)) as [b|e] eqn:E.
  - exists b. split; [reflexivity|].
    exact (proj1 (created_owner_well_formed _ _ _ E ltac:(vm_compute; discriminate))).
  - exfalso. vm_compute in E. discriminate E.
Defined.

(** Appending a revision to the documents of the first transaction. *)
Definition append_alpha : string * PlanningLongTermVersionIntent :=
  ("alpha", PlanAdvance alpha1 alpha2 refresh2).
Definition appended : ScopeDocs * VersionPlan := Eval vm_compute in
  match plan_change reads2 (docs1, no_plan) append_alpha with
  | Ok x => x
  | Err _ => (no_docs, no_plan)
  end.

Example append_alpha_ok : plan_change reads2 (docs1, no_plan) append_alpha = Ok appended.
Proof. vm_compute. reflexivity. Qed.

Lemma planned_change_keeps_scope_witness :
  scope_inv "space" "space" 4 (sd_heads appended.1) (sd_materials appended.1)
    (sd_transitions appended.1).
Proof.
  refine (planned_change_keeps_scope reads2 docs1 no_plan append_alpha appended.1 appended.2
            scope1 append_alpha_ok _ _).
  - vm_compute. discriminate.
  - intros before transition [=].
Defined.

Definition gamma_index : nat := 2.
Definition gamma_head : LongTermMemoryHeadManifest :=
  default alpha_head (sd_heads docs2 !! gamma_index).

(** The owner that superseded another. *)
Lemma superseding_owner_cannot_be_purged_witness :
  sd_heads docs2 !! gamma_index = Some gamma_head
  ∧ ∃ e, finish_plan reads2 None 3 (purge_docs (h_owner_ref gamma_head) gamma_index docs2, no_plan) = Err e.
Proof.
  assert (Hh : sd_heads docs2 !! gamma_index = Some gamma_head) by (vm_compute; reflexivity).
  split; [exact Hh|].
  refine (proj2 (superseding_owner_cannot_be_purged reads2 docs2 gamma_index gamma_head None 3 no_plan
            (sd_bindings (purge_docs (h_owner_ref gamma_head) gamma_index docs2)) scope2 Hh) _).
  intros Hno.
  assert (Hex : ∃ t s, t ∈ sd_transitions docs2 ∧ owner_ref (t_predecessor t) ≠ h_owner_ref gamma_head
                       ∧ t_successor t = Some s ∧ owner_ref s = h_owner_ref gamma_head).
  { eexists _, _. split_and!; [vm_compute; right; left|vm_compute; discriminate|vm_compute; reflexivity|
      vm_compute; reflexivity]. }
  destruct Hex as (t & s & Ht & Hne & Hs & Ho). exact (Hno t s Ht Hne Hs Ho).
Defined.

Lemma reachable_scope_invariant_witness :
  scope_inv "space" "space" 4 (sd_heads docs2) (sd_materials docs2) (sd_transitions docs2)
  ∧ s_manifest_revision plan2.1.2 = 2.
Proof.
  pose proof (reachable_scope_invariant "space" "space" reads2 _ _ docs1 no_plan changes2
                docs2 plan2.1.2 plan2.2 reachable1 eq_refl eq_refl plan2_ok) as (Hinv & _ & Hrev).
  split; [exact Hinv|reflexivity].
Defined.

Lemma scope_manifest_exact_witness :
  scope_closed "space" "space" (sd_heads docs2) (sd_materials docs2) (sd_transitions docs2) 4.
Proof.
  refine (proj2 (scope_manifest_exact plan2.1.2 _ _ _ (sd_bindings docs2) 4) _).
  vm_compute. reflexivity.
Defined.

(** The documents listed backwards. *)
Lemma scope_manifest_canonical_witness :
  scope_manifest_build "space" "space" 2 (reverse (sd_heads docs2)) (reverse (sd_materials docs2))
    (reverse (sd_transitions docs2)) (reverse (sd_bindings docs2)) 4 = Ok plan2.1.2.
Proof.
  refine (scope_manifest_canonical "space" "space" 2 (sd_heads docs2) _ (sd_materials docs2) _
            (sd_transitions docs2) _ (sd_bindings docs2) _ 4 _ _ _ _ _ _);
    [symmetry; apply reverse_Permutation..|].
  vm_compute. reflexivity.
Defined.

End LongTermSamples.
