(* ===== verification/OllamaTypes.v ===== *)
(** * Transparent Ollama proxy: data, configuration and port owners

    Model of the contracts of [crates/ollama-transparent/src]: errors
    ([error.rs]), configuration ([config.rs]), states and status
    ([status.rs]), transition reports ([report.rs]), preflight data
    ([preflight.rs]), the classifier of port owners ([port_owner.rs]) and the
    reports of the runner installer and the process manager ([runner.rs],
    [process.rs]).  Paths are UTF-8 strings. *)

From S2P Require Import Prelude RustStr.
From Stdlib Require Import Ascii.

Local Open Scope string_scope.
Local Open Scope list_scope.
Local Open Scope N_scope.

(** ** Errors *)

Inductive OllamaTransparentErrorKey :=
| InvalidConfig | PortInspectionFailed | RunnerInstallFailed | ProcessActionFailed
| PreflightRejected | TransitionLeaseFailed | Unsupported.

Definition error_key_as_str (k : OllamaTransparentErrorKey) : string :=
  match k with
  | InvalidConfig => "invalid_config"
  | PortInspectionFailed => "port_inspection_failed"
  | RunnerInstallFailed => "runner_install_failed"
  | ProcessActionFailed => "process_action_failed"
  | PreflightRejected => "preflight_rejected"
  | TransitionLeaseFailed => "transition_lease_failed"
  | Unsupported => "unsupported"
  end.

Record OllamaTransparentError := mkOllamaError {
  oe_key : OllamaTransparentErrorKey;
  oe_message : string;
}.

#[global] Instance error_key_eq_dec : EqDecision OllamaTransparentErrorKey.
Proof. solve_decision. Defined.
#[global] Instance ollama_error_eq_dec : EqDecision OllamaTransparentError.
Proof. solve_decision. Defined.

(** [Display], used by [to_string]. *)
Definition ollama_error_display (e : OllamaTransparentError) : string :=
  error_key_as_str (oe_key e) +:+ ": " +:+ oe_message e.

Definition invalid_config (message : string) := mkOllamaError InvalidConfig message.
Definition preflight_rejected (message : string) := mkOllamaError PreflightRejected message.
Definition transition_lease_failed (message : string) :=
  mkOllamaError TransitionLeaseFailed message.

(** [crate::Result<A>] *)
Definition outcome_of (A : Type) : Type := OllamaTransparentError + A.

#[global] Instance outcome_of_ret : MRet outcome_of := λ A a, inr a.
#[global] Instance outcome_of_bind : MBind outcome_of := λ A B f m,
  match m with inl e => inl e | inr a => f a end.

Definition o_ensure (b : bool) (e : OllamaTransparentError) : outcome_of unit :=
  if b then inr tt else inl e.

(** ** Paths and socket addresses *)

(** [Path::components]: the root, a leading ["."], and the names between
    slashes; repeated slashes and inner ["."] are dropped. *)
Fixpoint split_slash (s : string) (current : string) : list string :=
  match s with
  | EmptyString => [current]
  | String c rest =>
      if bool_decide (c = "/"%char) then current :: split_slash rest ""
      else split_slash rest (current +:+ String c "")
  end.

Definition is_absolute (p : string) : bool := String.prefix "/" p.

Definition components (p : string) : list string :=
  let names := split_slash p "" in
  let kept := List.filter (λ n, negb (is_empty n || bool_decide (n = "."))) names in
  if is_absolute p then "/" :: kept
  else if bool_decide (head names = Some ".") then "." :: kept
  else kept.

(** Equality of paths compares components. *)
Definition path_eqb (p q : string) : bool := bool_decide (components p = components q).

(** [Path::starts_with] on components. *)
Fixpoint list_prefix (prefix l : list string) : bool :=
  match prefix, l with
  | [], _ => true
  | a :: prefix', b :: l' => bool_decide (a = b) && list_prefix prefix' l'
  | _ :: _, [] => false
  end.

Definition path_is_under (path parent : string) : bool :=
  list_prefix (components parent) (components path).

(** The components of [Path::parent], with [Path::new("/")] for none. *)
Definition parent_components (p : string) : list string :=
  match components p with
  | [] => ["/"]
  | [c] => if bool_decide (c = "/") then ["/"] else []
  | l => removelast l
  end.

Inductive SocketAddr :=
| SocketV4 (a b c d : N) (port : N)
| SocketV6 (ip : N) (port flowinfo scope_id : N).

#[global] Instance socket_addr_eq_dec : EqDecision SocketAddr.
Proof. solve_decision. Defined.

(** [addr.ip().is_loopback()] *)
Definition is_loopback (s : SocketAddr) : bool :=
  match s with
  | SocketV4 a _ _ _ _ => a =? 127
  | SocketV6 ip _ _ _ => ip =? 1
  end.

Definition loopback (port : N) : SocketAddr := SocketV4 127 0 0 1 port.

(** ** Configuration *)

Inductive OllamaTransparentMode := ModeDisabled | ModeEnabled.

Record OllamaTransparentMemoryAuthority := mkMemoryAuthority {
  ma_owner_id : string;
  ma_agent_id : string;
  ma_channel : string;
  ma_store_path : string;
}.

Definition require_absolute (name path : string) : outcome_of unit :=
  o_ensure (negb (is_empty path || negb (is_absolute path)))
    (invalid_config (name +:+ " must be an explicit absolute path")).

Fixpoint require_each {A} (f : A → outcome_of unit) (l : list A) : outcome_of unit :=
  match l with
  | [] => mret tt
  | a :: l' => _ ← f a; require_each f l'
  end.

Definition authority_validate (a : OllamaTransparentMemoryAuthority) : outcome_of unit :=
  _ ← require_each (λ nv, o_ensure (negb (blank nv.2))
                            (invalid_config ("memory authority " +:+ nv.1 +:+ " must not be empty")))
        [("owner_id", ma_owner_id a); ("agent_id", ma_agent_id a); ("channel", ma_channel a)];
  require_absolute "memory authority store_path" (ma_store_path a).

Definition memory_authority_new (owner_id agent_id channel store_path : string)
    : outcome_of OllamaTransparentMemoryAuthority :=
  let authority := mkMemoryAuthority owner_id agent_id channel store_path in
  _ ← authority_validate authority;
  mret authority.

Record OllamaTransparentConfig := mkConfig {
  mode : OllamaTransparentMode;
  app_bundle_path : string;
  official_ollama_binary : string;
  managed_runner_path : string;
  gateway_binary_path : string;
  transition_lease_path : string;
  managed_process_receipt_path : string;
  managed_log_dir : string;
  memory_authority : OllamaTransparentMemoryAuthority;
  public_bind : SocketAddr;
  upstream_bind : SocketAddr;
  allow_stop_official_ollama : bool;
  open_app_after_enable : bool;
  restore_official_after_disable : bool;
}.

Definition config_validate (c : OllamaTransparentConfig) : outcome_of unit :=
  _ ← o_ensure (is_loopback (public_bind c))
        (invalid_config
           "public_bind must be loopback because Ollama App transparent mode is local only");
  _ ← o_ensure (is_loopback (upstream_bind c))
        (invalid_config
           "upstream_bind must be loopback because managed Ollama upstream is local only");
  _ ← o_ensure (negb (bool_decide (public_bind c = upstream_bind c)))
        (invalid_config "public_bind and upstream_bind must be different");
  _ ← require_each (λ np, require_absolute np.1 np.2)
        [("app_bundle_path", app_bundle_path c);
         ("official_ollama_binary", official_ollama_binary c);
         ("managed_runner_path", managed_runner_path c);
         ("gateway_binary_path", gateway_binary_path c);
         ("transition_lease_path", transition_lease_path c);
         ("managed_process_receipt_path", managed_process_receipt_path c);
         ("managed_log_dir", managed_log_dir c)];
  _ ← authority_validate (memory_authority c);
  _ ← o_ensure (negb (path_eqb (managed_runner_path c) (official_ollama_binary c)))
        (invalid_config "managed_runner_path must not equal official_ollama_binary");
  o_ensure (negb (path_is_under (managed_runner_path c) (app_bundle_path c)))
    (invalid_config "managed_runner_path must not live inside the Ollama.app bundle").

(** [Path::join] with a relative name. *)
Definition join (p name : string) : string :=
  if is_empty p then name
  else if String.eqb (String.substring (String.length p - 1) 1 p) "/" then p +:+ name
  else p +:+ "/" +:+ name.

Definition config_new (data_dir gateway_binary_path : string)
    (authority : OllamaTransparentMemoryAuthority) : outcome_of OllamaTransparentConfig :=
  _ ← require_absolute "data_dir" data_dir;
  let config :=
    {| mode := ModeDisabled; app_bundle_path := "/Applications/Ollama.app";
       official_ollama_binary := "/Applications/Ollama.app/Contents/Resources/ollama";
       managed_runner_path := join (join (join data_dir "ollama") "bin") "bm-real-ollama";
       gateway_binary_path := gateway_binary_path;
       transition_lease_path := join (join (join data_dir "ollama") "control") "transition.lock";
       managed_process_receipt_path :=
         join (join (join data_dir "ollama") "control") "managed-processes.json";
       managed_log_dir := join (join data_dir "ollama") "logs";
       memory_authority := authority; public_bind := loopback 11434;
       upstream_bind := loopback 11435; allow_stop_official_ollama := false;
       open_app_after_enable := true; restore_official_after_disable := true |} in
  _ ← config_validate config;
  mret config.

(** ** Processes and port owners *)

Record ExecutableFileIdentity := mkIdentity {
  sha256 : string;
  byte_len : N;
  device : N;
  inode : N;
  unix_mode : N;
}.

#[global] Instance executable_identity_eq_dec : EqDecision ExecutableFileIdentity.
Proof. solve_decision. Defined.

Record ObservedProcess := mkProcess {
  op_pid : N;
  op_command : string;
  op_executable : string;
  op_start_identity : option string;
  op_executable_identity : option ExecutableFileIdentity;
}.

Definition has_complete_identity (p : ObservedProcess) : bool :=
  negb (blank (op_command p))
  && negb (is_empty (op_executable p))
  && match op_start_identity p with None => false | Some i => negb (blank i) end
  && match op_executable_identity p with None => false | Some _ => true end.

Inductive PortOwnerKind :=
| NoListener | OfficialOllama | BeetleMemoryTransparentFront | ManagedOllamaRunner | UnknownOwner.

#[global] Instance port_owner_eq_dec : EqDecision PortOwnerKind.
Proof. solve_decision. Defined.

Record PortBindingReport := mkPort {
  pb_bind : SocketAddr;
  pb_owner : PortOwnerKind;
  pb_process : option ObservedProcess;
  pb_detail : option string;
}.

Definition port_empty (bind : SocketAddr) : PortBindingReport := mkPort bind NoListener None None.
Definition port_owned (bind : SocketAddr) (owner : PortOwnerKind) (p : ObservedProcess)
    : PortBindingReport := mkPort bind owner (Some p) None.

Record PortOwnerClassifier := mkClassifier {
  cl_official_ollama_binary : string;
  cl_managed_runner_path : string;
  cl_managed_objects_root : list string;
  cl_transparent_front_markers : list string;
}.

Definition classifier_new (official_ollama_binary managed_runner_path : string)
    : PortOwnerClassifier :=
  {| cl_official_ollama_binary := official_ollama_binary;
     cl_managed_runner_path := managed_runner_path;
     cl_managed_objects_root := parent_components managed_runner_path ++ ["objects"];
     cl_transparent_front_markers := ["bm-llm-gateway"; "bm-ollama-transparent"] |}.

Definition port_owner_classifier (c : OllamaTransparentConfig) : PortOwnerClassifier :=
  classifier_new (official_ollama_binary c) (managed_runner_path c).

(** [str::contains] *)
Fixpoint str_contains (needle s : string) : bool :=
  String.prefix needle s
  || match s with EmptyString => false | String _ rest => str_contains needle rest end.

Definition same_path (left right : string) : bool :=
  path_eqb left right || bool_decide (left = right).

Definition classify (cl : PortOwnerClassifier) (process : option ObservedProcess)
    : PortOwnerKind :=
  match process with
  | None => NoListener
  | Some p =>
      let exe := op_executable p in
      if list_prefix (cl_managed_objects_root cl ++ ["upstream"]) (components exe)
         || same_path exe (cl_managed_runner_path cl)
         || bool_decide (op_command p = "bm-real-ollama")
      then ManagedOllamaRunner
      else if same_path exe (cl_official_ollama_binary cl)
              || (bool_decide (op_command p = "ollama")
                  && negb (same_path exe (cl_managed_runner_path cl)))
              || str_contains "Ollama.app/Contents/Resources/ollama" exe
      then OfficialOllama
      else if list_prefix (cl_managed_objects_root cl ++ ["front"]) (components exe)
      then BeetleMemoryTransparentFront
      else if existsb (λ marker, str_contains marker (op_command p) || str_contains marker exe)
                (cl_transparent_front_markers cl)
      then BeetleMemoryTransparentFront
      else UnknownOwner
  end.

(** [SystemPortOwnerObserver::inspect], given what [lsof] shows. *)
Definition system_inspect (cl : PortOwnerClassifier) (bind : SocketAddr)
    (found : outcome_of (option ObservedProcess)) : outcome_of PortBindingReport :=
  process ← found;
  match process with
  | None => mret (port_empty bind)
  | Some p => mret (port_owned bind (classify cl (Some p)) p)
  end.

(** ** Reports of the runner installer and the process manager *)

Record ManagedRunnerReport := mkRunnerReport {
  mr_source_path : string;
  mr_managed_path : string;
  mr_source_exists : bool;
  mr_managed_exists : bool;
  mr_installed : bool;
  mr_source_digest : option string;
  mr_managed_digest : option string;
  mr_copy_digest : option string;
  mr_execution_identity : option ExecutableFileIdentity;
  mr_message : option string;
}.

Inductive ManagedProcessKind := ManagedUpstream | TransparentFront.

Record ManagedProcessReport := mkProcessReport {
  mp_kind : ManagedProcessKind;
  mp_pid : option N;
  mp_started : bool;
  mp_message : option string;
}.

Record ProcessActionReport := mkActionReport {
  pa_action : string;
  pa_ok : bool;
  pa_pid : option N;
  pa_message : option string;
}.

Record ProbeReport := mkProbeReport {
  pr_target : string;
  pr_ok : bool;
  pr_message : option string;
}.

Record ManagedProcessOwnershipReport := mkOwnership {
  managed_upstream_authorized : bool;
  transparent_front_authorized : bool;
}.

Definition fully_authorized (o : ManagedProcessOwnershipReport) : bool :=
  managed_upstream_authorized o && transparent_front_authorized o.

(** ** States, reports and preflight data *)

Inductive OllamaTransparentState :=
| Disabled | PreflightFailed | Enabling | Active | Degraded | Disabling | RollingBack.

#[global] Instance ollama_state_eq_dec : EqDecision OllamaTransparentState.
Proof. solve_decision. Defined.

Inductive TransitionStep :=
| StepPreflight | StepStopOfficialOllama | StepInstallManagedRunner | StepStartManagedUpstream
| StepProbeManagedUpstream | StepStartTransparentFront | StepProbePublicFront
| StepOpenOfficialApp | StepStopTransparentFront | StepStopManagedUpstream
| StepRestoreOfficialApp.

Inductive TransitionOutcome := Completed | Rejected | OutcomeFailed | RolledBack.

#[global] Instance transition_step_eq_dec : EqDecision TransitionStep.
Proof. solve_decision. Defined.
#[global] Instance transition_outcome_eq_dec : EqDecision TransitionOutcome.
Proof. solve_decision. Defined.

Record TransitionStepReport := mkStep {
  st_step : TransitionStep;
  st_ok : bool;
  st_message : option string;
}.

Definition step_ok (s : TransitionStep) : TransitionStepReport := mkStep s true None.
Definition step_failed (s : TransitionStep) (message : string) : TransitionStepReport :=
  mkStep s false (Some message).

Record RollbackReport := mkRollback {
  rb_attempted : bool;
  rb_completed : bool;
  rb_steps : list TransitionStepReport;
}.

Record OllamaTransparentTransitionReport := mkTransitionReport {
  tr_from_state : OllamaTransparentState;
  tr_to_state : OllamaTransparentState;
  tr_outcome : TransitionOutcome;
  tr_steps : list TransitionStepReport;
  tr_failing_step : option TransitionStepReport;
  tr_rollback : option RollbackReport;
}.

Definition report_completed (from to : OllamaTransparentState) (steps : list TransitionStepReport)
    : OllamaTransparentTransitionReport :=
  mkTransitionReport from to Completed steps None None.

Inductive PreflightBlockerCode :=
| BlockerInvalidConfig | PublicPortOwnedByUnknownProcess | PublicPortOwnedByManagedRunner
| OfficialOllamaStopNotAllowed | UpstreamPortUnavailable | ManagedRunnerUnavailable
| GatewayFrontUnavailable.

Record PreflightBlocker := mkBlocker {
  bl_code : PreflightBlockerCode;
  bl_message : string;
}.

Record OfficialOllamaStopTarget := mkStopTarget {
  sx_bind : SocketAddr;
  sx_process : ObservedProcess;
}.

Record OfficialOllamaStopPlan := mkStopPlan {
  sp_allowed : bool;
  sp_targets : list OfficialOllamaStopTarget;
  sp_reason : string;
}.

Record OllamaTransparentPreflightReport := mkPreflight {
  pf_accepted : bool;
  pf_resulting_state : OllamaTransparentState;
  pf_public_port : PortBindingReport;
  pf_upstream_port : PortBindingReport;
  pf_managed_runner : ManagedRunnerReport;
  pf_gateway_executable : option ExecutableFileIdentity;
  pf_stop_plan : option OfficialOllamaStopPlan;
  pf_blockers : list PreflightBlocker;
}.

Record OllamaAppReport := mkAppReport {
  ar_bundle_path : string;
  ar_allow_stop_official_ollama : bool;
  ar_open_app_after_enable : bool;
  ar_restore_official_after_disable : bool;
  ar_last_action : option ProcessActionReport;
}.

Definition app_report_from_config (c : OllamaTransparentConfig) : OllamaAppReport :=
  mkAppReport (app_bundle_path c) (allow_stop_official_ollama c) (open_app_after_enable c)
    (restore_official_after_disable c) None.

Record GatewayFrontReport := mkFrontReport {
  gf_expected_owner : PortOwnerKind;
  gf_bind : SocketAddr;
  gf_active : bool;
  gf_message : option string;
}.

Definition front_report_from_public_port (p : PortBindingReport) : GatewayFrontReport :=
  mkFrontReport BeetleMemoryTransparentFront (pb_bind p)
    (bool_decide (pb_owner p = BeetleMemoryTransparentFront)) None.

Record OllamaTransparentStatus := mkStatus {
  os_state : OllamaTransparentState;
  os_public_port : PortBindingReport;
  os_upstream_port : PortBindingReport;
  os_app : OllamaAppReport;
  os_managed_runner : ManagedRunnerReport;
  os_gateway_front : GatewayFrontReport;
  os_last_transition : option OllamaTransparentTransitionReport;
}.
