(* ===== verification/OllamaController.v ===== *)
(** * Transparent Ollama proxy: the controller

    Model of [crates/ollama-transparent/src/controller.rs].  An operation of
    the controller is a program: a finite tree of calls to the port observer,
    the runner installer and the process manager (the traits of the source,
    whose answers are not fixed here), and of sections under the lock of the
    controller state, each of which is one atomic step.

    The transition lease of the operating system ([lease.rs]) is a file lock
    shared by every process that uses the same path; acquiring it, which
    happens inside [begin_transition], fails while it is held and may fail for
    other reasons, and it is released when the lease is dropped, after the
    controller state has been updated. *)

From S2P Require Import Prelude RustStr OllamaTypes.

Local Open Scope string_scope.
Local Open Scope list_scope.
Local Open Scope N_scope.

(** ** Calls to the collaborators *)

Inductive external :=
| InspectPort (bind : SocketAddr)
| InspectRunner (c : OllamaTransparentConfig)
| InspectExecutable (path : string)
| InspectOwnership (c : OllamaTransparentConfig)
| StopOfficial (plan : OfficialOllamaStopPlan)
| EnsureInstalled (c : OllamaTransparentConfig)
| StartUpstream (c : OllamaTransparentConfig) (runner : ManagedRunnerReport)
| ProbeUpstream (c : OllamaTransparentConfig)
| StartFront (c : OllamaTransparentConfig) (gateway : ExecutableFileIdentity)
| ProbeFront (c : OllamaTransparentConfig)
| StopFront (c : OllamaTransparentConfig)
| StopUpstream (c : OllamaTransparentConfig)
| OpenApp (c : OllamaTransparentConfig).

Definition answer_type (c : external) : Type :=
  match c with
  | InspectPort _ => PortBindingReport
  | InspectRunner _ | EnsureInstalled _ => ManagedRunnerReport
  | InspectExecutable _ => ExecutableFileIdentity
  | InspectOwnership _ => ManagedProcessOwnershipReport
  | StopOfficial _ => list ProcessActionReport
  | StartUpstream _ _ | StartFront _ _ => ManagedProcessReport
  | ProbeUpstream _ | ProbeFront _ => ProbeReport
  | StopFront _ | StopUpstream _ | OpenApp _ => ProcessActionReport
  end.

Definition reply (c : external) : Type := outcome_of (answer_type c).

(** ** The transition lease of the operating system *)

Record TransitionProcessReceipt := mkReceipt {
  rc_version : N;
  rc_pid : N;
  rc_start_identity : string;
  rc_executable_path : string;
  rc_executable_identity : ExecutableFileIdentity;
}.

#[global] Instance process_receipt_eq_dec : EqDecision TransitionProcessReceipt.
Proof. solve_decision. Defined.

(** What acquiring the lease meets: the answers of opening and locking the
    file, the receipts read from it, the answer of writing it, the number of
    this process and the processes that run. *)
Record lease_environment := mkLeaseEnv {
  le_opened : outcome_of unit;
  le_lock_refused : bool;
  le_lock_error : string;
  le_found : outcome_of TransitionProcessReceipt;
  le_pid : N;
  le_observe : N → option ObservedProcess;
  le_written : outcome_of unit;
  le_read_back : outcome_of TransitionProcessReceipt;
}.

Definition some_or_lease_error {A} (o : option A) (message : string) : outcome_of A :=
  match o with Some a => inr a | None => inl (transition_lease_failed message) end.

Definition current_process_receipt (observe_process : N → option ObservedProcess) (pid : N)
    : outcome_of TransitionProcessReceipt :=
  observed ← some_or_lease_error (observe_process pid)
               "failed to observe current process exact executable/start identity";
  start ← some_or_lease_error (op_start_identity observed)
            "current process start identity is unavailable";
  executable ← some_or_lease_error (op_executable_identity observed)
                 "current process executable identity is unavailable";
  mret (mkReceipt 1 pid start (op_executable observed) executable).

Definition receipt_matches_live_process (observe_process : N → option ObservedProcess)
    (receipt : TransitionProcessReceipt) : bool :=
  if negb (rc_version receipt =? 1) then false
  else match observe_process (rc_pid receipt) with
       | None => false
       | Some observed =>
           bool_decide (op_start_identity observed = Some (rc_start_identity receipt))
           && path_eqb (op_executable observed) (rc_executable_path receipt)
           && bool_decide (op_executable_identity observed = Some (rc_executable_identity receipt))
       end.

Definition lock_refusal (env : lease_environment) : OllamaTransparentError :=
  let detail :=
    match le_found env with
    | inr receipt =>
        if receipt_matches_live_process (le_observe env) receipt then
          "active transition is owned by verified pid " +:+ pretty (rc_pid receipt) +:+ " start "
          +:+ rc_start_identity receipt
        else "transition lock is held but persisted receipt for pid " +:+ pretty (rc_pid receipt)
             +:+ " is not live-exact"
    | inl _ => "transition lock is held but its receipt is unavailable or invalid"
    end in
  transition_lease_failed
    ("failed to acquire OS transition lease: " +:+ le_lock_error env +:+ "; " +:+ detail).

(** [OsTransitionLease::acquire]; [held] says whether another file handle has
    the lock. *)
Definition acquire (held : bool) (env : lease_environment) : outcome_of unit :=
  _ ← match le_opened env with
      | inl e => inl (transition_lease_failed (ollama_error_display e))
      | inr _ => inr tt
      end;
  _ ← o_ensure (negb (held || le_lock_refused env)) (lock_refusal env);
  receipt ← current_process_receipt (le_observe env) (le_pid env);
  _ ← le_written env;
  persisted ← le_read_back env;
  o_ensure (bool_decide (persisted = receipt)
            && receipt_matches_live_process (le_observe env) persisted)
    (transition_lease_failed "persisted transition receipt failed exact readback validation").

Lemma acquire_held env : ∃ e, acquire true env = inl e.
Proof. unfold acquire. destruct (le_opened env); cbn; eauto. Qed.

(** ** Controller state and leases *)

Inductive TransitionKind := KindEnable | KindDisable | KindOpenApp.

#[global] Instance transition_kind_eq_dec : EqDecision TransitionKind.
Proof. solve_decision. Defined.

Record TransitionLeaseRecord := mkLeaseRecord {
  lr_id : N;
  lr_kind : TransitionKind;
}.

#[global] Instance lease_record_eq_dec : EqDecision TransitionLeaseRecord.
Proof. solve_decision. Defined.

Record ControllerState := mkController {
  cs_state : OllamaTransparentState;
  cs_last_transition : option OllamaTransparentTransitionReport;
  cs_next_lease_id : N;
  cs_active_transition : option TransitionLeaseRecord;
}.

Definition controller_initial : ControllerState := mkController Disabled None 1 None.

Record TransitionLease := mkLease {
  tl_record : TransitionLeaseRecord;
  tl_from_state : OllamaTransparentState;
}.

#[global] Instance transition_lease_eq_dec : EqDecision TransitionLease.
Proof. solve_decision. Defined.

Definition kind_name (k : TransitionKind) : string :=
  match k with KindEnable => "Enable" | KindDisable => "Disable" | KindOpenApp => "OpenApp" end.

(** [begin_transition] under the lock; [os] is the answer of
    [OsTransitionLease::acquire]. *)
Definition begin_transition (kind : TransitionKind) (os : outcome_of unit) (s : ControllerState)
    : outcome_of TransitionLease * ControllerState :=
  match cs_active_transition s with
  | Some active =>
      (inl (preflight_rejected ("transparent transition " +:+ kind_name (lr_kind active)
              +:+ " lease " +:+ pretty (lr_id active) +:+ " is already active")), s)
  | None =>
      let lease_id := cs_next_lease_id s in
      match checked_add lease_id 1 with
      | None => (inl (preflight_rejected "transition lease id exhausted"), s)
      | Some next_lease_id =>
          match os with
          | inl e => (inl e, s)
          | inr _ =>
              let lease := mkLease (mkLeaseRecord lease_id kind) (cs_state s) in
              (inr lease,
               mkController (match kind with
                             | KindEnable => Enabling
                             | KindDisable => Disabling
                             | KindOpenApp => cs_state s
                             end) (cs_last_transition s) next_lease_id (Some (tl_record lease)))
          end
      end
  end.

Definition lost_ownership (l : TransitionLease) (when : string) : OllamaTransparentError :=
  preflight_rejected ("transition lease " +:+ pretty (lr_id (tl_record l))
                      +:+ " lost ownership" +:+ when).

Definition owns (l : TransitionLease) (s : ControllerState) : bool :=
  bool_decide (cs_active_transition s = Some (tl_record l)).

(** [TransitionLease::set_state] *)
Definition set_state (l : TransitionLease) (next : OllamaTransparentState) (s : ControllerState)
    : outcome_of unit * ControllerState :=
  if owns l s then
    (inr tt, mkController next (cs_last_transition s) (cs_next_lease_id s) (cs_active_transition s))
  else (inl (lost_ownership l ""), s).

(** The section of [TransitionLease::commit_report]. *)
Definition commit_report_section (l : TransitionLease) (r : OllamaTransparentTransitionReport)
    (s : ControllerState) : outcome_of unit * ControllerState :=
  if owns l s then
    (inr tt, mkController (tr_to_state r) (Some r) (cs_next_lease_id s) None)
  else (inl (lost_ownership l " before completion"), s).

(** The section of [TransitionLease::commit_exclusive]. *)
Definition commit_exclusive_section (l : TransitionLease) (s : ControllerState)
    : outcome_of unit * ControllerState :=
  if owns l s then
    (inr tt, mkController (cs_state s) (cs_last_transition s) (cs_next_lease_id s) None)
  else (inl (lost_ownership l " before operation completion"), s).

(** [Drop for TransitionLease] of a lease that was not committed. *)
Definition drop_lease (l : TransitionLease) (s : ControllerState) : ControllerState :=
  if owns l s then
    mkController (tl_from_state l) (cs_last_transition s) (cs_next_lease_id s) None
  else s.

(** The section of [preflight] after a rejected report. *)
Definition note_preflight_failed (s : ControllerState) : ControllerState :=
  match cs_active_transition s with
  | None => mkController PreflightFailed (cs_last_transition s) (cs_next_lease_id s) None
  | Some _ => s
  end.

Definition in_transition (s : OllamaTransparentState) : bool :=
  match s with Enabling | Disabling | RollingBack => true | _ => false end.

Definition reconcile_observed_state (current : OllamaTransparentState)
    (public_port upstream_port : PortBindingReport) (ownership : ManagedProcessOwnershipReport)
    : OllamaTransparentState :=
  let public_owned := bool_decide (pb_owner public_port = BeetleMemoryTransparentFront) in
  let upstream_owned := bool_decide (pb_owner upstream_port = ManagedOllamaRunner) in
  match public_owned, upstream_owned with
  | true, true => if fully_authorized ownership then Active else Degraded
  | true, false | false, true => if in_transition current then current else Degraded
  | false, false =>
      if in_transition current || bool_decide (current = PreflightFailed) then current
      else Disabled
  end.

(** The section of [status]: the reconciled state, and a copy of it. *)
Definition reconcile_section (public_port upstream_port : PortBindingReport)
    (ownership : ManagedProcessOwnershipReport) (s : ControllerState) : ControllerState :=
  match cs_active_transition s with
  | None =>
      mkController (reconcile_observed_state (cs_state s) public_port upstream_port ownership)
        (cs_last_transition s) (cs_next_lease_id s) None
  | Some _ => s
  end.

(** ** Programs *)

Inductive critical :=
| Begin (kind : TransitionKind)
| SetState (l : TransitionLease) (next : OllamaTransparentState)
| CommitReport (l : TransitionLease) (r : OllamaTransparentTransitionReport)
| CommitExclusive (l : TransitionLease)
| DropLease (l : TransitionLease)
| CloseLease
| NotePreflightFailed
| Reconcile (public_port upstream_port : PortBindingReport)
    (ownership : ManagedProcessOwnershipReport).

Definition critical_reply (op : critical) : Type :=
  match op with
  | Begin _ => outcome_of TransitionLease
  | SetState _ _ | CommitReport _ _ | CommitExclusive _ => outcome_of unit
  | DropLease _ | CloseLease | NotePreflightFailed => unit
  | Reconcile _ _ _ => ControllerState
  end.

(** What the section does to the controller state. *)
Definition critical_step (os : outcome_of unit) (op : critical) (s : ControllerState)
    : critical_reply op * ControllerState :=
  match op with
  | Begin kind => begin_transition kind os s
  | SetState l next => set_state l next s
  | CommitReport l r => commit_report_section l r s
  | CommitExclusive l => commit_exclusive_section l s
  | DropLease l => (tt, drop_lease l s)
  | CloseLease => (tt, s)
  | NotePreflightFailed => (tt, note_preflight_failed s)
  | Reconcile p u o => let s' := reconcile_section p u o s in (s', s')
  end.

Inductive prog (A : Type) : Type :=
| Return (a : A)
| Ask (c : external) (k : reply c → prog A)
| Lock (op : critical) (k : critical_reply op → prog A).
Arguments Return {A} a.
Arguments Ask {A} c k.
Arguments Lock {A} op k.

Fixpoint prog_bind {A B} (m : prog A) (f : A → prog B) : prog B :=
  match m with
  | Return a => f a
  | Ask c k => Ask c (λ r, prog_bind (k r) f)
  | Lock op k => Lock op (λ r, prog_bind (k r) f)
  end.

Definition ask (c : external) : prog (reply c) := Ask c (λ r, Return r).
Definition lock (op : critical) : prog (critical_reply op) := Lock op (λ r, Return r).

Declare Scope prog_scope.
Delimit Scope prog_scope with prog.
Notation "x <- m ;; k" := (prog_bind m (λ x, k))
  (at level 100, m at next level, right associativity) : prog_scope.

(** [?]: an error leaves the function, after [cleanup] has dropped what is
    still alive. *)
Definition or_leave {A B} (r : outcome_of A) (cleanup : prog unit) (k : A → prog (outcome_of B))
    : prog (outcome_of B) :=
  match r with
  | inl e => prog_bind cleanup (λ _, Return (inl e))
  | inr a => k a
  end.

Definition nothing : prog unit := Return tt.

(** The end of a lease that was not committed: the state is restored, then the
    lock file closes. *)
Definition abandon (l : TransitionLease) : prog unit :=
  (_ <- lock (DropLease l) ;; lock CloseLease)%prog.

Definition commit_report (l : TransitionLease) (r : OllamaTransparentTransitionReport)
    : prog (outcome_of OllamaTransparentTransitionReport) :=
  (c <- lock (CommitReport l r) ;;
   or_leave c (abandon l) (λ _, _ <- lock CloseLease ;; Return (inr r)))%prog.

Definition commit_exclusive (l : TransitionLease) : prog (outcome_of unit) :=
  (c <- lock (CommitExclusive l) ;;
   or_leave c (abandon l) (λ _, _ <- lock CloseLease ;; Return (inr tt)))%prog.

(** ** Preflight *)

Definition report_from_parts (public_port upstream_port : PortBindingReport)
    (managed_runner : ManagedRunnerReport) (gateway_executable : option ExecutableFileIdentity)
    (stop_plan : option OfficialOllamaStopPlan) (blockers : list PreflightBlocker)
    : OllamaTransparentPreflightReport :=
  let accepted := match blockers with [] => true | _ => false end in
  let resulting_state :=
    if negb accepted then PreflightFailed
    else if bool_decide (pb_owner public_port = BeetleMemoryTransparentFront)
            && bool_decide (pb_owner upstream_port = ManagedOllamaRunner) then Active
    else Disabled in
  mkPreflight accepted resulting_state public_port upstream_port managed_runner
    gateway_executable stop_plan blockers.

(** [AttachedProcessAuthority::is_supported]: Linux and Windows. *)
Class Platform := { attached_authority_supported : bool }.

Section Controller.
Context {platform : Platform}.

(** What the owner of the public port means: an early report with one more
    blocker, or a stop plan and blockers with which the checks go on. *)
Inductive public_verdict :=
| Stop (b : PreflightBlocker)
| Continue (stop_plan : option OfficialOllamaStopPlan) (blockers : list PreflightBlocker).

Definition unknown_blocker (message : string) : PreflightBlocker :=
  mkBlocker PublicPortOwnedByUnknownProcess message.

Definition official_verdict (c : OllamaTransparentConfig) (public_port : PortBindingReport)
    : prog public_verdict :=
  match pb_process public_port with
  | None => Return (Stop (unknown_blocker
              "official Ollama owner was reported without process detail"))
  | Some process =>
      if allow_stop_official_ollama c then
        if negb (has_complete_identity process) then
          Return (Stop (unknown_blocker
            "official Ollama owner lacks a complete pid/start/command/executable identity"))
        else
          (official <- ask (InspectExecutable (official_ollama_binary c)) ;;
           match official with
           | inl e => Return (Stop (unknown_blocker
               ("official Ollama executable identity is unavailable: "
                +:+ ollama_error_display e)))
           | inr identity =>
               if negb (bool_decide (op_executable_identity process = Some identity)) then
                 Return (Stop (unknown_blocker
                   "classifier matched Ollama, but exact executable identity does not match the governed official binary"))
               else if negb attached_authority_supported then
                 Return (Stop (unknown_blocker
                   "platform cannot retain a stable authority for externally launched Ollama; close the official app before enabling transparent mode"))
               else
                 Return (Continue
                   (Some (mkStopPlan true [mkStopTarget (pb_bind public_port) process]
                      "official Ollama owns the public transparent port and user allowed stopping it"))
                   [])
           end)%prog
      else
        Return (Continue None
          [mkBlocker OfficialOllamaStopNotAllowed
             "official Ollama owns 11434 but allow_stop_official_ollama is false"])
  end.

Definition public_port_verdict (c : OllamaTransparentConfig) (public_port : PortBindingReport)
    : prog public_verdict :=
  match pb_owner public_port with
  | NoListener | BeetleMemoryTransparentFront => Return (Continue None [])
  | OfficialOllama => official_verdict c public_port
  | ManagedOllamaRunner =>
      Return (Continue None
        [mkBlocker PublicPortOwnedByManagedRunner
           "managed upstream runner must not own the public Ollama App port"])
  | UnknownOwner =>
      Return (Continue None
        [unknown_blocker "public transparent port is owned by an unknown process"])
  end.

Definition upstream_blockers (upstream_port : PortBindingReport) : list PreflightBlocker :=
  match pb_owner upstream_port with
  | NoListener | ManagedOllamaRunner => []
  | _ => [mkBlocker UpstreamPortUnavailable
            "managed upstream port is owned by a non-managed process"]
  end.

Definition runner_blockers (r : ManagedRunnerReport) : list PreflightBlocker :=
  if mr_source_exists r then []
  else [mkBlocker ManagedRunnerUnavailable
          "official Ollama binary is missing; managed runner cannot be installed"].

Definition gateway_part (r : outcome_of ExecutableFileIdentity)
    : option ExecutableFileIdentity * list PreflightBlocker :=
  match r with
  | inr identity => (Some identity, [])
  | inl e => (None, [mkBlocker GatewayFrontUnavailable (ollama_error_display e)])
  end.

Definition build_preflight_report (c : OllamaTransparentConfig)
    : prog (outcome_of OllamaTransparentPreflightReport) :=
  or_leave (config_validate c) nothing (λ _,
  (public_r <- ask (InspectPort (public_bind c)) ;;
   or_leave public_r nothing (λ public_port : PortBindingReport,
   upstream_r <- ask (InspectPort (upstream_bind c)) ;;
   or_leave upstream_r nothing (λ upstream_port : PortBindingReport,
   runner_r <- ask (InspectRunner c) ;;
   or_leave runner_r nothing (λ managed_runner : ManagedRunnerReport,
   gateway_r <- ask (InspectExecutable (gateway_binary_path c)) ;;
   let gateway := gateway_part gateway_r in
   verdict <- public_port_verdict c public_port ;;
   Return (inr
     (match verdict with
      | Stop b =>
          report_from_parts public_port upstream_port managed_runner gateway.1 None
            (gateway.2 ++ [b])
      | Continue stop_plan blockers =>
          report_from_parts public_port upstream_port managed_runner gateway.1 stop_plan
            (gateway.2 ++ blockers ++ upstream_blockers upstream_port
             ++ runner_blockers managed_runner)
      end))))))%prog).

Definition preflight (c : OllamaTransparentConfig)
    : prog (outcome_of OllamaTransparentPreflightReport) :=
  (r <- build_preflight_report c ;;
   or_leave r nothing (λ report,
     if pf_accepted report then Return (inr report)
     else _ <- lock NotePreflightFailed ;; Return (inr report)))%prog.

(** ** Enabling *)

Record EnableOllamaTransparentRequest := mkEnable {
  er_open_app : option bool;
  er_allow_stop_official_ollama : bool;
}.

Record DisableOllamaTransparentRequest := mkDisable { dr_restore_official_app : option bool }.

Record EnableProgress := mkProgress {
  official_stopped : bool;
  upstream_started : bool;
  public_front_started : bool;
}.

Definition progress_default : EnableProgress := mkProgress false false false.

(** A call whose answer becomes a step of a report. *)
Definition step_report {A} (s : TransitionStep) (r : outcome_of A) : TransitionStepReport :=
  match r with
  | inl e => step_failed s (ollama_error_display e)
  | inr _ => step_ok s
  end.

Definition optional_step (wanted : bool) (c : external) (s : TransitionStep)
    : prog (list TransitionStepReport) :=
  if wanted then (r <- ask c ;; Return [step_report s r])%prog else Return [].

Definition rollback_enable_failure (c : OllamaTransparentConfig) (p : EnableProgress)
    : prog RollbackReport :=
  (front <- optional_step (public_front_started p) (StopFront c) StepStopTransparentFront ;;
   upstream <- optional_step (upstream_started p) (StopUpstream c) StepStopManagedUpstream ;;
   app <- optional_step (official_stopped p && restore_official_after_disable c) (OpenApp c)
            StepRestoreOfficialApp ;;
   let steps := front ++ upstream ++ app in
   Return (mkRollback (negb (bool_decide (length steps = 0%nat))) (forallb st_ok steps) steps))%prog.

Definition finish_failed_enable (c : OllamaTransparentConfig) (l : TransitionLease)
    (from_state : OllamaTransparentState) (steps : list TransitionStepReport)
    (failing_step : TransitionStep) (e : OllamaTransparentError) (p : EnableProgress)
    : prog (outcome_of OllamaTransparentTransitionReport) :=
  let failed := step_failed failing_step (ollama_error_display e) in
  (s <- lock (SetState l RollingBack) ;;
   or_leave s (abandon l) (λ _,
     rollback <- rollback_enable_failure c p ;;
     commit_report l
       (mkTransitionReport from_state (if rb_completed rollback then Disabled else Degraded)
          (if rb_completed rollback then RolledBack else OutcomeFailed) (steps ++ [failed])
          (Some failed) (Some rollback))))%prog.

Definition with_allow_stop (c : OllamaTransparentConfig) : OllamaTransparentConfig :=
  mkConfig (mode c) (app_bundle_path c) (official_ollama_binary c) (managed_runner_path c)
    (gateway_binary_path c) (transition_lease_path c) (managed_process_receipt_path c)
    (managed_log_dir c) (memory_authority c) (public_bind c) (upstream_bind c) true
    (open_app_after_enable c) (restore_official_after_disable c).

Definition rejected_report (from to : OllamaTransparentState) (message : string)
    : OllamaTransparentTransitionReport :=
  let failed := step_failed StepPreflight message in
  mkTransitionReport from to Rejected [failed] (Some failed) None.

Definition blocker_messages (l : list PreflightBlocker) : string :=
  String.concat "; " (bl_message <$> l).

(** [enable] from the installation of the runner on. *)
Definition enable_after_stop (c effective : OllamaTransparentConfig)
    (request : EnableOllamaTransparentRequest) (l : TransitionLease)
    (gateway_executable : option ExecutableFileIdentity) (steps : list TransitionStepReport)
    (p : EnableProgress) : prog (outcome_of OllamaTransparentTransitionReport) :=
  let from_state := tl_from_state l in
  let fail := finish_failed_enable c l from_state in
  (installed_r <- ask (EnsureInstalled effective) ;;
   match installed_r with
   | inl e => fail steps StepInstallManagedRunner e p
   | inr runner =>
   let steps := steps ++ [step_ok StepInstallManagedRunner] in
   upstream_r <- ask (StartUpstream effective runner) ;;
   match upstream_r with
   | inl e => fail steps StepStartManagedUpstream e p
   | inr _ =>
   let p := mkProgress (official_stopped p) true (public_front_started p) in
   let steps := steps ++ [step_ok StepStartManagedUpstream] in
   probe_r <- ask (ProbeUpstream effective) ;;
   match probe_r with
   | inl e => fail steps StepProbeManagedUpstream e p
   | inr _ =>
   let steps := steps ++ [step_ok StepProbeManagedUpstream] in
   match gateway_executable with
   | None =>
       _ <- abandon l ;;
       Return (inl (preflight_rejected "accepted preflight omitted gateway executable identity"))
   | Some gateway =>
   front_r <- ask (StartFront effective gateway) ;;
   match front_r with
   | inl e => fail steps StepStartTransparentFront e p
   | inr _ =>
   let p := mkProgress (official_stopped p) (upstream_started p) true in
   let steps := steps ++ [step_ok StepStartTransparentFront] in
   public_r <- ask (ProbeFront effective) ;;
   match public_r with
   | inl e => fail steps StepProbePublicFront e p
   | inr _ =>
   let steps := steps ++ [step_ok StepProbePublicFront] in
   if default (open_app_after_enable effective) (er_open_app request) then
     app_r <- ask (OpenApp effective) ;;
     match app_r with
     | inl e => fail steps StepOpenOfficialApp e p
     | inr _ =>
         commit_report l
           (report_completed from_state Active (steps ++ [step_ok StepOpenOfficialApp]))
     end
   else commit_report l (report_completed from_state Active steps)
   end end end end end end)%prog.

Definition enable (c : OllamaTransparentConfig) (request : EnableOllamaTransparentRequest)
    : prog (outcome_of OllamaTransparentTransitionReport) :=
  (b <- lock (Begin KindEnable) ;;
   or_leave b nothing (λ l : TransitionLease,
   let from_state := tl_from_state l in
   let effective := if er_allow_stop_official_ollama request then with_allow_stop c else c in
   preflight_r <- build_preflight_report effective ;;
   match preflight_r with
   | inl e => commit_report l (rejected_report from_state PreflightFailed (ollama_error_display e))
   | inr pf =>
   if negb (pf_accepted pf) then
     commit_report l
       (rejected_report from_state PreflightFailed (blocker_messages (pf_blockers pf)))
   else
   let steps := [step_ok StepPreflight] in
   if bool_decide (pf_resulting_state pf = Active) then
     ownership_r <- ask (InspectOwnership effective) ;;
     or_leave ownership_r (abandon l) (λ ownership : ManagedProcessOwnershipReport,
       if negb (fully_authorized ownership) then
         commit_report l
           (rejected_report from_state Degraded
              "managed-looking listeners lack exact persisted launch receipts")
       else commit_report l (report_completed from_state Active steps))
   else
   let after_stop := enable_after_stop c effective request l (pf_gateway_executable pf) in
   match pf_stop_plan pf with
   | Some stop_plan =>
       stop_r <- ask (StopOfficial stop_plan) ;;
       match stop_r with
       | inl e => finish_failed_enable c l from_state steps StepStopOfficialOllama e progress_default
       | inr _ =>
           after_stop (steps ++ [step_ok StepStopOfficialOllama]) (mkProgress true false false)
       end
   | None => after_stop steps progress_default
   end
   end))%prog.

(** ** Disabling, status and opening the application *)

Definition first_failed (steps : list TransitionStepReport) : option TransitionStepReport :=
  find (λ s, negb (st_ok s)) steps.

Definition disable (c : OllamaTransparentConfig) (request : DisableOllamaTransparentRequest)
    : prog (outcome_of OllamaTransparentTransitionReport) :=
  (b <- lock (Begin KindDisable) ;;
   or_leave b nothing (λ l : TransitionLease,
     front <- optional_step true (StopFront c) StepStopTransparentFront ;;
     upstream <- optional_step true (StopUpstream c) StepStopManagedUpstream ;;
     app <- optional_step
              (default (restore_official_after_disable c) (dr_restore_official_app request))
              (OpenApp c) StepRestoreOfficialApp ;;
     let steps := front ++ upstream ++ app in
     let failing_step := first_failed steps in
     commit_report l
       (mkTransitionReport (tl_from_state l)
          (match failing_step with Some _ => Degraded | None => Disabled end)
          (match failing_step with Some _ => OutcomeFailed | None => Completed end)
          steps failing_step None)))%prog.

Definition status (c : OllamaTransparentConfig) : prog (outcome_of OllamaTransparentStatus) :=
  (public_r <- ask (InspectPort (public_bind c)) ;;
   or_leave public_r nothing (λ public_port : PortBindingReport,
   upstream_r <- ask (InspectPort (upstream_bind c)) ;;
   or_leave upstream_r nothing (λ upstream_port : PortBindingReport,
   runner_r <- ask (InspectRunner c) ;;
   or_leave runner_r nothing (λ managed_runner : ManagedRunnerReport,
   ownership_r <- ask (InspectOwnership c) ;;
   or_leave ownership_r nothing (λ ownership : ManagedProcessOwnershipReport,
   s <- lock (Reconcile public_port upstream_port ownership) ;;
   Return (inr
     (mkStatus (cs_state s) public_port upstream_port (app_report_from_config c) managed_runner
        (front_report_from_public_port public_port) (cs_last_transition s))))))))%prog.

Definition open_app (c : OllamaTransparentConfig) : prog (outcome_of ProcessActionReport) :=
  (b <- lock (Begin KindOpenApp) ;;
   or_leave b nothing (λ l : TransitionLease,
     r <- ask (OpenApp c) ;;
     or_leave r (abandon l) (λ result : ProcessActionReport,
       e <- commit_exclusive l ;;
       or_leave e nothing (λ _, Return (inr result)))))%prog.

End Controller.
