(* ===== verification/OllamaSystem.v ===== *)
(** * Transparent Ollama proxy: concurrent executions

    Processes that share one transition lease file, each with its controller
    and any number of threads that run operations of it.  A step is one call to
    a collaborator with an arbitrary answer, one section under the lock of a
    controller, or the start or death of a process or thread.  Each thread
    carries the log of its calls and what it holds of the lease. *)

From S2P Require Import Prelude RustStr OllamaTypes OllamaController.

Local Open Scope string_scope.
Local Open Scope list_scope.
Local Open Scope N_scope.

(** ** Operations as programs *)

(** The configuration under which an enabling runs. *)
Definition effective_config (c : OllamaTransparentConfig)
    (request : EnableOllamaTransparentRequest) : OllamaTransparentConfig :=
  if er_allow_stop_official_ollama request then with_allow_stop c else c.

Inductive operation :=
| OpPreflight
| OpEnable (request : EnableOllamaTransparentRequest)
| OpDisable (request : DisableOllamaTransparentRequest)
| OpStatus
| OpOpenApp.

Inductive answer :=
| PreflightAnswer (r : outcome_of OllamaTransparentPreflightReport)
| TransitionAnswer (r : outcome_of OllamaTransparentTransitionReport)
| StatusAnswer (r : outcome_of OllamaTransparentStatus)
| AppAnswer (r : outcome_of ProcessActionReport).

Definition op_prog {platform : Platform} (c : OllamaTransparentConfig) (op : operation)
    : prog answer :=
  match op with
  | OpPreflight => prog_bind (preflight c) (λ r, Return (PreflightAnswer r))
  | OpEnable request => prog_bind (enable c request) (λ r, Return (TransitionAnswer r))
  | OpDisable request => prog_bind (disable c request) (λ r, Return (TransitionAnswer r))
  | OpStatus => prog_bind (status c) (λ r, Return (StatusAnswer r))
  | OpOpenApp => prog_bind (open_app c) (λ r, Return (AppAnswer r))
  end.

(** ** Logs and leases held *)

Inductive event :=
| Asked (c : external) (r : reply c)
| Locked (op : critical) (r : critical_reply op).

Inductive holding :=
| Idle
| Holding (l : TransitionLease)
| Closing.

#[global] Instance holding_eq_dec : EqDecision holding.
Proof. solve_decision. Defined.

Definition holding_after (op : critical) : critical_reply op → holding → holding :=
  match op with
  | Begin _ => λ r h, match r with inr l => Holding l | inl _ => h end
  | CommitReport _ _ | CommitExclusive _ => λ r h, match r with inr _ => Closing | inl _ => h end
  | DropLease _ => λ _ _, Closing
  | CloseLease => λ _ _, Idle
  | SetState _ _ | NotePreflightFailed | Reconcile _ _ _ => λ _ h, h
  end.

(** The lease file: who holds its lock. *)
Definition lease_after (tid : nat) (op : critical)
    : critical_reply op → option nat → option nat :=
  match op with
  | Begin _ => λ r lease, match r with inr _ => Some tid | inl _ => lease end
  | CloseLease => λ _ _, None
  | _ => λ _ lease, lease
  end.

(** A process that opens the lease file while some thread has it locked. *)
Definition os_answer (lease : option nat) (env : lease_environment) : outcome_of unit :=
  acquire (bool_decide (is_Some lease)) env.

Lemma os_answer_held tid env : ∃ e, os_answer (Some tid) env = inl e.
Proof. unfold os_answer. rewrite bool_decide_eq_true_2 by done. apply acquire_held. Qed.

Definition stop_of (e : event) : option OfficialOllamaStopPlan :=
  match e with
  | Asked c _ => match c with StopOfficial plan => Some plan | _ => None end
  | Locked _ _ => None
  end.

Definition stops (log : list event) : list OfficialOllamaStopPlan := omap stop_of log.

Definition op_config (c : OllamaTransparentConfig) (op : operation) : OllamaTransparentConfig :=
  match op with OpEnable request => effective_config c request | _ => c end.

(** ** Systems and steps *)

Record thread := mkThread {
  th_process : nat;
  th_config : OllamaTransparentConfig;
  th_operation : operation;
  th_log : list event;
  th_holding : holding;
  th_prog : prog answer;
}.

Record system := mkSystem {
  sy_controllers : gmap nat (OllamaTransparentConfig * ControllerState);
  sy_lease : option nat;
  sy_threads : gmap nat thread;
}.

Definition with_thread (s : system) (tid : nat) (th : thread) : system :=
  mkSystem (sy_controllers s) (sy_lease s) (<[tid := th]> (sy_threads s)).

Definition lease_of_process (s : system) (pid : nat) : bool :=
  match sy_lease s ≫= λ tid, sy_threads s !! tid with
  | Some th => bool_decide (th_process th = pid)
  | None => false
  end.

(** The processes of a system use one lease file. *)
Definition same_lease_path (s : system) (c : OllamaTransparentConfig) : Prop :=
  map_Forall (λ _ x, transition_lease_path x.1 = transition_lease_path c) (sy_controllers s).

Section System.
Context {platform : Platform}.

Inductive step (s : system) : system → Prop :=
| step_open pid c :
    sy_controllers s !! pid = None → config_validate c = inr tt → same_lease_path s c →
    step s (mkSystem (<[pid := (c, controller_initial)]> (sy_controllers s)) (sy_lease s)
              (sy_threads s))
| step_spawn tid pid c st op :
    sy_threads s !! tid = None → sy_controllers s !! pid = Some (c, st) →
    step s (with_thread s tid (mkThread pid c op [] Idle (op_prog c op)))
| step_ask tid th c k r :
    sy_threads s !! tid = Some th → th_prog th = Ask c k →
    step s (with_thread s tid
              (mkThread (th_process th) (th_config th) (th_operation th)
                 (th_log th ++ [Asked c r]) (th_holding th) (k r)))
| step_lock tid th op k c st env r st' :
    sy_threads s !! tid = Some th → th_prog th = Lock op k →
    sy_controllers s !! th_process th = Some (c, st) →
    critical_step (os_answer (sy_lease s) env) op st = (r, st') →
    step s (mkSystem (<[th_process th := (c, st')]> (sy_controllers s))
              (lease_after tid op r (sy_lease s))
              (<[tid := mkThread (th_process th) (th_config th) (th_operation th)
                          (th_log th ++ [Locked op r]) (holding_after op r (th_holding th)) (k r)]>
                 (sy_threads s)))
| step_finish tid th a :
    sy_threads s !! tid = Some th → th_prog th = Return a →
    step s (mkSystem (sy_controllers s) (sy_lease s) (delete tid (sy_threads s)))
| step_die pid :
    step s (mkSystem (delete pid (sy_controllers s))
              (if lease_of_process s pid then None else sy_lease s)
              (filter (λ x, th_process x.2 ≠ pid) (sy_threads s))).

Inductive reachable : system → Prop :=
| reach_start : reachable (mkSystem ∅ None ∅)
| reach_step s s' : reachable s → step s s' → reachable s'.

(** ** What a program may do with the lease *)

Definition allowed (h : holding) (op : critical) : Prop :=
  match op with
  | Begin _ | NotePreflightFailed | Reconcile _ _ _ => h = Idle
  | SetState l next =>
      h = Holding l ∧ lr_kind (tl_record l) = KindEnable ∧ next = RollingBack
  | CommitReport l r =>
      h = Holding l ∧ lr_kind (tl_record l) ≠ KindOpenApp ∧ in_transition (tr_to_state r) = false
  | CommitExclusive l => h = Holding l ∧ lr_kind (tl_record l) = KindOpenApp
  | DropLease l => h = Holding l
  | CloseLease => h = Closing
  end.

(** The answers of a section while the lease is not taken away. *)
Definition granted (op : critical) : critical_reply op → Prop :=
  match op with
  | Begin kind => λ r, match r with
                       | inr l => lr_kind (tl_record l) = kind
                                  ∧ in_transition (tl_from_state l) = false
                       | inl _ => True
                       end
  | SetState _ _ | CommitReport _ _ | CommitExclusive _ => λ r, r = inr tt
  | Reconcile p u o => λ st, cs_active_transition st = None →
      cs_state st = Active ↔
      pb_owner p = BeetleMemoryTransparentFront ∧ pb_owner u = ManagedOllamaRunner
      ∧ fully_authorized o = true
  | DropLease _ | CloseLease | NotePreflightFailed => λ _, True
  end.

Definition granted_event (e : event) : Prop :=
  match e with Asked _ _ => True | Locked op r => granted op r end.

(** When the official application may be stopped: the user or the configuration
    allowed it, and the plan names exactly the process seen on the public port,
    with a complete identity that is the one of the governed binary. *)
Definition stop_authorized (c : OllamaTransparentConfig) (log : list event)
    (plan : OfficialOllamaStopPlan) : Prop :=
  allow_stop_official_ollama c = true ∧ attached_authority_supported = true
  ∧ ∃ port process identity,
      Asked (InspectPort (public_bind c)) (inr port) ∈ log
      ∧ Asked (InspectExecutable (official_ollama_binary c)) (inr identity) ∈ log
      ∧ pb_owner port = OfficialOllama ∧ pb_process port = Some process
      ∧ has_complete_identity process = true
      ∧ op_executable_identity process = Some identity
      ∧ sp_targets plan = [mkStopTarget (pb_bind port) process].

Lemma stop_authorized_mono c log log' plan :
  stop_authorized c log plan → stop_authorized c (log ++ log') plan.
Proof.
  intros (Ha & Hs & port & p & i & H1 & H2 & Hrest). split_and!; [done..|].
  exists port, p, i. rewrite !elem_of_app. auto.
Qed.

Definition call_allowed (c : OllamaTransparentConfig) (log : list event) (x : external) : Prop :=
  match x with StopOfficial plan => stop_authorized c log plan | _ => True end.

(** Every execution of [p] from a log and a holding makes authorized calls,
    respects the lease and ends in [Q]. *)
Fixpoint wp {A} (cfg : OllamaTransparentConfig) (h : holding) (log : list event) (p : prog A)
    (Q : A → holding → list event → Prop) : Prop :=
  match p with
  | Return a => Q a h log
  | Ask c k => call_allowed cfg log c ∧ ∀ r, wp cfg h (log ++ [Asked c r]) (k r) Q
  | Lock op k =>
      allowed h op
      ∧ ∀ r, granted op r → wp cfg (holding_after op r h) (log ++ [Locked op r]) (k r) Q
  end.

Lemma wp_bind {A B} cfg h log (m : prog A) (f : A → prog B) Q :
  wp cfg h log m (λ a h' log', wp cfg h' log' (f a) Q) → wp cfg h log (prog_bind m f) Q.
Proof.
  revert h log. induction m as [a|c k IH|op k IH]; intros h log; cbn [wp prog_bind].
  - done.
  - intros [Hc H]. split; [done|]. intros r. apply IH, H.
  - intros [Ha H]. split; [done|]. intros r Hr. by apply IH, H.
Qed.

Lemma wp_mono {A} cfg h log (p : prog A) (Q Q' : A → holding → list event → Prop) :
  (∀ a h' log', Q a h' log' → Q' a h' log') → wp cfg h log p Q → wp cfg h log p Q'.
Proof.
  intros HQ. revert h log. induction p as [a|c k IH|op k IH]; intros h log; cbn [wp].
  - apply HQ.
  - intros [Hc H]. split; [done|]. intros r. apply IH, H.
  - intros [Ha H]. split; [done|]. intros r Hr. by apply IH, H.
Qed.

End System.
