(* ===== verification/OllamaInvariant.v ===== *)
(** * Transparent Ollama proxy: the invariant of concurrent executions

    In every reachable system the lease is held by at most one thread of all
    processes, a controller records exactly the transition whose lease one of
    its threads holds, and its state is a transitional one exactly during a
    transition of that kind.  The invariant also carries, for each thread, a
    postcondition of its operation, proved once for the program alone. *)

From S2P Require Import Prelude RustStr OllamaTypes OllamaController OllamaSystem.

Local Open Scope string_scope.
Local Open Scope list_scope.
Local Open Scope N_scope.

Definition state_fits (st : ControllerState) : Prop :=
  match cs_active_transition st with
  | None => in_transition (cs_state st) = false
  | Some r =>
      match lr_kind r with
      | KindEnable => cs_state st = Enabling ∨ cs_state st = RollingBack
      | KindDisable => cs_state st = Disabling
      | KindOpenApp => in_transition (cs_state st) = false
      end
  end.

(** Outside a transition the state is active exactly when both listeners are
    the managed ones and authorized. *)
Lemma reconcile_active current p u o :
  in_transition current = false →
  reconcile_observed_state current p u o = Active ↔
  pb_owner p = BeetleMemoryTransparentFront ∧ pb_owner u = ManagedOllamaRunner
  ∧ fully_authorized o = true.
Proof.
  intros H. unfold reconcile_observed_state. do 2 case_bool_decide; rewrite ?H; cbn.
  - destruct (fully_authorized o); naive_solver.
  - naive_solver.
  - naive_solver.
  - case_bool_decide; naive_solver.
Qed.

Lemma reconcile_stable current p u o :
  in_transition current = false → in_transition (reconcile_observed_state current p u o) = false.
Proof.
  intros H. unfold reconcile_observed_state.
  destruct (bool_decide _), (bool_decide _); [by destruct (fully_authorized o)|rewrite H; done..|].
  rewrite H. by destruct (_ || _).
Qed.

Section Invariant.
Context {platform : Platform}.
Context (Q : OllamaTransparentConfig → operation → answer → holding → list event → Prop).

(** No section took the lease away, and every stop was authorized by what had
    been seen before it. *)
Definition good_log (cfg : OllamaTransparentConfig) (log : list event) : Prop :=
  Forall granted_event log
  ∧ ∀ before plan r after, log = before ++ Asked (StopOfficial plan) r :: after →
      stop_authorized cfg before plan.

Lemma good_log_snoc cfg log e :
  good_log cfg log → granted_event e →
  match e with Asked c _ => call_allowed cfg log c | Locked _ _ => True end →
  good_log cfg (log ++ [e]).
Proof.
  intros [Hg Hs] He Hc. split; [by apply Forall_app; split; [|constructor]|].
  intros before plan r after. destruct after as [|x after _] using rev_ind.
  - intros [-> ->]%app_inj_tail. exact Hc.
  - rewrite app_comm_cons, app_assoc. intros [-> _]%app_inj_tail. by eapply Hs.
Qed.

Record sys_inv (s : system) : Prop := {
  inv_wp tid th : sy_threads s !! tid = Some th →
    wp (op_config (th_config th) (th_operation th)) (th_holding th) (th_log th) (th_prog th)
      (Q (th_config th) (th_operation th));
  inv_log tid th : sy_threads s !! tid = Some th →
    good_log (op_config (th_config th) (th_operation th)) (th_log th);
  inv_process tid th : sy_threads s !! tid = Some th →
    ∃ st, sy_controllers s !! th_process th = Some (th_config th, st);
  inv_lease tid : sy_lease s = Some tid ↔
    ∃ th, sy_threads s !! tid = Some th ∧ th_holding th ≠ Idle;
  inv_active tid th l c st : sy_threads s !! tid = Some th → th_holding th = Holding l →
    sy_controllers s !! th_process th = Some (c, st) →
    cs_active_transition st = Some (tl_record l) ∧ in_transition (tl_from_state l) = false;
  inv_held pid c st r : sy_controllers s !! pid = Some (c, st) →
    cs_active_transition st = Some r →
    ∃ tid th l, sy_threads s !! tid = Some th ∧ th_process th = pid
                ∧ th_holding th = Holding l ∧ tl_record l = r;
  inv_state pid c st : sy_controllers s !! pid = Some (c, st) → state_fits st;
}.

Lemma inv_start : sys_inv (mkSystem ∅ None ∅).
Proof.
  split; cbn; intros *; try (rewrite lookup_empty; done).
  setoid_rewrite lookup_empty. split; [done|]. by intros (? & ? & ?).
Qed.

(** Two threads that hold something of the lease are the same. *)
Lemma inv_exclusive s tid1 tid2 th1 th2 :
  sys_inv s → sy_threads s !! tid1 = Some th1 → sy_threads s !! tid2 = Some th2 →
  th_holding th1 ≠ Idle → th_holding th2 ≠ Idle → tid1 = tid2.
Proof.
  intros Hinv H1 H2 Hh1 Hh2.
  assert (E1 : sy_lease s = Some tid1) by (apply (inv_lease _ Hinv); eauto).
  assert (E2 : sy_lease s = Some tid2) by (apply (inv_lease _ Hinv); eauto). congruence.
Qed.

(** One thread moves, with a section that keeps the books. *)
Record books (lease : option nat) (tid : nat) (h h' : holding) (lease' : option nat)
    (st st' : ControllerState) : Prop := {
  books_lease : lease' = match h' with
                         | Idle => match h with Idle => lease | _ => None end
                         | _ => Some tid
                         end;
  books_free : h = Idle → h' ≠ Idle → lease = None;
  books_active : cs_active_transition st' =
    match h' with
    | Holding l => Some (tl_record l)
    | _ => match h with Holding _ => None | _ => cs_active_transition st end
    end;
  books_start l' : h' = Holding l' → in_transition (tl_from_state l') = false;
  books_state : state_fits st';
}.

Lemma inv_move s tid th c st log h' p' st' lease' :
  sys_inv s → sy_threads s !! tid = Some th →
  sy_controllers s !! th_process th = Some (c, st) →
  books (sy_lease s) tid (th_holding th) h' lease' st st' →
  wp (op_config (th_config th) (th_operation th)) h' log p'
    (Q (th_config th) (th_operation th)) →
  good_log (op_config (th_config th) (th_operation th)) log →
  sys_inv (mkSystem (<[th_process th := (c, st')]> (sy_controllers s)) lease'
             (<[tid := mkThread (th_process th) (th_config th) (th_operation th) log h' p']>
                (sy_threads s))).
Proof.
  intros Hinv Hth Hc [Hl Hfree Hact Hstart Hst] Hwp Hgood.
  assert (Hmine : th_holding th ≠ Idle → ∀ tid2 th2, sy_threads s !! tid2 = Some th2 →
      th_holding th2 ≠ Idle → tid2 = tid).
  { intros Hh tid2 th2 H2 Hh2. by eapply (inv_exclusive s tid2 tid). }
  assert (Hother : ∀ tid2 th2, tid2 ≠ tid → sy_threads s !! tid2 = Some th2 →
      th_holding th2 ≠ Idle → th_holding th = Idle ∧ h' = Idle).
  { intros tid2 th2 Hne H2 Hh2. destruct (decide (th_holding th = Idle)) as [Ei|Hh].
    - split; [done|]. destruct h'; try done; exfalso.
      all: assert (sy_lease s = Some tid2) by (apply (inv_lease _ Hinv); eauto).
      all: rewrite Hfree in *; done.
    - by destruct Hne; apply (Hmine Hh tid2 th2). }
  split; cbn [sy_controllers sy_lease sy_threads].
  - intros t x [[<- <-]|[Hne Hx]]%lookup_insert_Some; [done|by eapply inv_wp].
  - intros t x [[<- <-]|[Hne Hx]]%lookup_insert_Some; [done|by eapply inv_log].
  - intros t x [[<- <-]|[Hne Hx]]%lookup_insert_Some; cbn.
    + rewrite lookup_insert_eq. destruct (inv_process _ Hinv _ _ Hth) as [st0 H0].
      rewrite Hc in H0. injection H0 as -> ->. eauto.
    + destruct (inv_process _ Hinv _ _ Hx) as [st0 H0].
      destruct (decide (th_process x = th_process th)) as [E|E].
      * rewrite E, lookup_insert_eq. rewrite E, Hc in H0. injection H0 as -> ->. eauto.
      * rewrite lookup_insert_ne by done. eauto.
  - intros t. rewrite Hl. split.
    + intros Et. destruct (decide (t = tid)) as [->|Hne].
      * rewrite lookup_insert_eq. eexists. split; [done|]. cbn. intros ->.
        destruct (th_holding th) eqn:Eh; try done.
        apply (inv_lease _ Hinv) in Et as (x & Hx & Hxh). by rewrite Hth in Hx; simplify_eq.
      * rewrite lookup_insert_ne by done.
        destruct h'; [|congruence..]. destruct (th_holding th) eqn:Eh; try done.
        by apply (inv_lease _ Hinv).
    + intros (x & [[<- <-]|[Hne Hx]]%lookup_insert_Some & Hxh); cbn in Hxh.
      * by destruct h'.
      * destruct (Hother t x (not_eq_sym Hne) Hx Hxh) as [-> ->].
        apply (inv_lease _ Hinv). eauto.
  - intros t x l c0 st0 [[<- <-]|[Hne Hx]]%lookup_insert_Some Hxl; cbn in Hxl |- *.
    + rewrite lookup_insert_eq. intros [= <- <-]. rewrite Hact, Hxl. split; [done|by apply Hstart].
    + destruct (Hother t x (not_eq_sym Hne) Hx ltac:(by rewrite Hxl)) as [Eh Eh'].
      destruct (decide (th_process x = th_process th)) as [E|E].
      * rewrite E, lookup_insert_eq. intros [= <- <-]. rewrite Hact, Eh, Eh'.
        eapply (inv_active _ Hinv t x); [done..|]. by rewrite E.
      * rewrite lookup_insert_ne by done. by apply (inv_active _ Hinv t x).
  - intros pid c0 st0 r [[<- [= <- <-]]|[Hne Hp]]%lookup_insert_Some Hr.
    + rewrite Hact in Hr. destruct h' as [|l'|] eqn:Eh'.
      * destruct (th_holding th) eqn:Eh; [|done|].
        all: destruct (inv_held _ Hinv _ _ _ _ Hc Hr) as (t & x & l & Hx & Hxp & Hxl & Hlr).
        all: assert (t ≠ tid) by (intros ->; congruence).
        all: exists t, x, l; rewrite lookup_insert_ne by done; done.
      * eexists tid, _, l'. rewrite lookup_insert_eq. split_and!; [done..|]. by simplify_eq.
      * destruct (th_holding th) eqn:Eh; [|done|].
        all: destruct (inv_held _ Hinv _ _ _ _ Hc Hr) as (t & x & l & Hx & Hxp & Hxl & Hlr).
        all: assert (t ≠ tid) by (intros ->; congruence).
        all: exists t, x, l; rewrite lookup_insert_ne by done; done.
    + destruct (inv_held _ Hinv _ _ _ _ Hp Hr) as (t & x & l & Hx & Hxp & Hxl & Hlr).
      assert (t ≠ tid) by (intros ->; congruence).
      exists t, x, l. by rewrite lookup_insert_ne.
  - intros pid c0 st0 [[<- [= <- <-]]|[Hne Hp]]%lookup_insert_Some; [done|by eapply inv_state].
Qed.

(** A section whose holder does not change. *)
Lemma books_same lease tid h st st' :
  (h ≠ Idle → lease = Some tid) → cs_active_transition st' = cs_active_transition st →
  (∀ l, h = Holding l → cs_active_transition st = Some (tl_record l)
                        ∧ in_transition (tl_from_state l) = false) →
  state_fits st' → books lease tid h h lease st st'.
Proof.
  intros Hl Ha Hh Hst. split; [|done|rewrite Ha|by intros l Hl'; apply Hh|done].
  - destruct h; [done|by rewrite Hl..].
  - destruct h as [|l|]; [done| |done]. by apply Hh.
Qed.

(** Sections keep the books, and the lease is never lost. *)
Lemma section_books lease tid h op st env r st' :
  allowed h op → state_fits st → (h ≠ Idle → lease = Some tid) →
  (∀ l, h = Holding l → cs_active_transition st = Some (tl_record l)
                        ∧ in_transition (tl_from_state l) = false) →
  critical_step (os_answer lease env) op st = (r, st') →
  granted op r ∧ books lease tid h (holding_after op r h) (lease_after tid op r lease) st st'.
Proof.
  intros Hal Hfit Hlease Hhold Hstep.
  destruct op as [kind|l next|l rep|l|l| | |p u o]; cbn in Hstep, Hal, r |- *.
  - subst h. unfold begin_transition in Hstep.
    destruct (cs_active_transition st) as [a|] eqn:Ea.
    { simplify_eq. split; [done|]. by apply books_same. }
    destruct (checked_add _ _); [|simplify_eq; split; [done|]; by apply books_same].
    destruct (os_answer lease env) as [e|u] eqn:Eos.
    { simplify_eq. split; [done|]. by apply books_same. }
    destruct lease as [t|]; [by destruct (os_answer_held t env) as [? Hheld]; rewrite Hheld in Eos|].
    simplify_eq.
    unfold state_fits in Hfit. rewrite Ea in Hfit. split; [done|].
    split; cbn; [done..| |]; [by intros l' [= <-]|].
    unfold state_fits; cbn. by destruct kind; [left|..].
  - destruct Hal as (-> & Hk & ->). destruct (Hhold l eq_refl) as [Ha Hs].
    unfold set_state, owns in Hstep. rewrite bool_decide_eq_true_2 in Hstep by done. simplify_eq.
    split; [done|]. apply books_same; cbn; [done..|].
    unfold state_fits. cbn. rewrite Ha, Hk. by right.
  - destruct Hal as (-> & Hk & Hto). destruct (Hhold l eq_refl) as [Ha Hs].
    unfold commit_report_section, owns in Hstep.
    rewrite bool_decide_eq_true_2 in Hstep by done. simplify_eq.
    split; [done|]. split; cbn; [by apply Hlease|done..].
  - destruct Hal as (-> & Hk). destruct (Hhold l eq_refl) as [Ha Hs].
    unfold commit_exclusive_section, owns in Hstep.
    rewrite bool_decide_eq_true_2 in Hstep by done. simplify_eq.
    unfold state_fits in Hfit. rewrite Ha, Hk in Hfit.
    split; [done|]. split; cbn; [by apply Hlease|done..].
  - subst h. destruct (Hhold l eq_refl) as [Ha Hs]. simplify_eq.
    unfold drop_lease, owns. rewrite bool_decide_eq_true_2 by done.
    split; [done|]. split; cbn; [by apply Hlease|done..].
  - subst h. simplify_eq. split; [done|]. split; cbn; [done..|by intros l' [=]|done].
  - subst h. simplify_eq. split; [done|]. unfold note_preflight_failed.
    destruct (cs_active_transition st) eqn:Ea; by apply books_same.
  - subst h. simplify_eq. split.
    { unfold reconcile_section. unfold state_fits in Hfit.
      destruct (cs_active_transition st) eqn:Ea; cbn; [congruence|]. intros _.
      by apply reconcile_active. }
    unfold reconcile_section.
    unfold state_fits in Hfit. destruct (cs_active_transition st) eqn:Ea.
    + apply books_same; try done. unfold state_fits. by rewrite Ea.
    + apply books_same; cbn; try done. unfold state_fits. cbn. by apply reconcile_stable.
Qed.

Context (Hops : ∀ c op, wp (op_config c op) Idle [] (op_prog c op) (Q c op)).
Context (Hend : ∀ c op a h log, Q c op a h log → h = Idle).

Lemma inv_open s pid c :
  sys_inv s → sy_controllers s !! pid = None →
  sys_inv (mkSystem (<[pid := (c, controller_initial)]> (sy_controllers s)) (sy_lease s)
             (sy_threads s)).
Proof using.
  intros Hinv Hpid.
  assert (Hp : ∀ tid th, sy_threads s !! tid = Some th → th_process th ≠ pid).
  { intros tid th Hth E. destruct (inv_process _ Hinv _ _ Hth) as [st Hst]. congruence. }
  split; cbn [sy_controllers sy_lease sy_threads].
  - apply (inv_wp _ Hinv).
  - apply (inv_log _ Hinv).
  - intros tid th Hth. rewrite lookup_insert_ne by (apply not_eq_sym; by eapply Hp).
    by eapply inv_process.
  - apply (inv_lease _ Hinv).
  - intros tid th l c0 st Hth. rewrite lookup_insert_ne by (apply not_eq_sym; by eapply Hp).
    by apply (inv_active _ Hinv tid).
  - intros p c0 st r [[<- [= <- <-]]|[_ Hst]]%lookup_insert_Some; [done|by apply (inv_held _ Hinv p c0)].
  - intros p c0 st [[<- [= <- <-]]|[_ Hst]]%lookup_insert_Some; [done|by eapply inv_state].
Qed.

Lemma inv_spawn s tid pid c st op :
  sys_inv s → sy_threads s !! tid = None → sy_controllers s !! pid = Some (c, st) →
  sys_inv (with_thread s tid (mkThread pid c op [] Idle (op_prog c op))).
Proof using Hops.
  intros Hinv Htid Hpid. split; cbn [with_thread sy_controllers sy_lease sy_threads].
  - intros t x [[<- <-]|[_ Hx]]%lookup_insert_Some; [apply Hops|by eapply inv_wp].
  - intros t x [[<- <-]|[_ Hx]]%lookup_insert_Some; [|by eapply inv_log].
    split; [constructor|]. by intros [|] * [=].
  - intros t x [[<- <-]|[_ Hx]]%lookup_insert_Some; [by eauto|by eapply inv_process].
  - intros t. rewrite (inv_lease _ Hinv). split; intros (x & Hx & Hh).
    + exists x. rewrite lookup_insert_ne by congruence. done.
    + apply lookup_insert_Some in Hx as [[<- <-]|[_ Hx]]; [done|]. by exists x.
  - intros t x l c0 st0 [[<- <-]|[_ Hx]]%lookup_insert_Some; [done|by apply (inv_active _ Hinv t)].
  - intros p c0 st0 r Hp Hr. destruct (inv_held _ Hinv _ _ _ _ Hp Hr) as (t & x & l & Hx & ?).
    exists t, x, l. rewrite lookup_insert_ne by congruence. done.
  - apply (inv_state _ Hinv).
Qed.

Lemma inv_finish s tid th :
  sys_inv s → sy_threads s !! tid = Some th → th_holding th = Idle →
  sys_inv (mkSystem (sy_controllers s) (sy_lease s) (delete tid (sy_threads s))).
Proof using.
  intros Hinv Hth Hidle. split; cbn [sy_controllers sy_lease sy_threads].
  - intros t x [_ Hx]%lookup_delete_Some. by eapply inv_wp.
  - intros t x [_ Hx]%lookup_delete_Some. by eapply inv_log.
  - intros t x [_ Hx]%lookup_delete_Some. by eapply inv_process.
  - intros t. rewrite (inv_lease _ Hinv). split; intros (x & Hx & Hh).
    + exists x. rewrite lookup_delete_ne by congruence. done.
    + apply lookup_delete_Some in Hx as [_ Hx]. by exists x.
  - intros t x l c st [_ Hx]%lookup_delete_Some. by apply (inv_active _ Hinv t).
  - intros p c st r Hp Hr. destruct (inv_held _ Hinv _ _ _ _ Hp Hr) as (t & x & l & Hx & ? & ? & ?).
    exists t, x, l. rewrite lookup_delete_ne by congruence. done.
  - apply (inv_state _ Hinv).
Qed.

Lemma inv_die s pid :
  sys_inv s →
  sys_inv (mkSystem (delete pid (sy_controllers s))
             (if lease_of_process s pid then None else sy_lease s)
             (filter (λ x, th_process x.2 ≠ pid) (sy_threads s))).
Proof using.
  intros Hinv. split; cbn [sy_controllers sy_lease sy_threads].
  - intros t x [Hx _]%map_lookup_filter_Some. by eapply inv_wp.
  - intros t x [Hx _]%map_lookup_filter_Some. by eapply inv_log.
  - intros t x [Hx Hne]%map_lookup_filter_Some. rewrite lookup_delete_ne by done.
    by eapply inv_process.
  - intros t. setoid_rewrite map_lookup_filter_Some. cbn. unfold lease_of_process.
    destruct (sy_lease s) as [t0|] eqn:El; cbn.
    + apply (inv_lease _ Hinv) in El as El'. destruct El' as (x0 & Hx0 & Hh0). rewrite Hx0.
      case_bool_decide as Hp.
      * split; [done|]. intros (x & [Hx Hne] & Hh). destruct Hne.
        assert (t = t0) as -> by by eapply inv_exclusive. congruence.
      * rewrite <- El, (inv_lease _ Hinv). split; [|naive_solver].
        intros (x & Hx & Hh). exists x. split_and!; [done| |done].
        assert (t = t0) as -> by by eapply inv_exclusive. congruence.
    + split; [done|]. intros (x & [Hx _] & Hh).
      assert (sy_lease s = Some t) by (apply (inv_lease _ Hinv); eauto). congruence.
  - intros t x l c st [Hx Hne]%map_lookup_filter_Some. rewrite lookup_delete_ne by done.
    by apply (inv_active _ Hinv t).
  - intros p c st r [Hne Hp]%lookup_delete_Some Hr.
    destruct (inv_held _ Hinv _ _ _ _ Hp Hr) as (t & x & l & Hx & Hxp & Hxl & Hlr).
    exists t, x, l. rewrite map_lookup_filter_Some. cbn. split_and!; try done. congruence.
  - intros p c st [_ Hp]%lookup_delete_Some. by eapply inv_state.
Qed.

Lemma sys_inv_step s s' : sys_inv s → step s s' → sys_inv s'.
Proof using Hops Hend.
  intros Hinv Hstep.
  destruct Hstep as [pid c Hpid _ _|tid pid c st op Htid Hpid|tid th c k r Hth Hp
                    |tid th op k c st env r st' Hth Hp Hc Hcs|tid th a Hth Hp|pid].
  - by apply inv_open.
  - by eapply inv_spawn.
  - destruct (inv_process _ Hinv _ _ Hth) as [st Hc].
    pose proof (inv_wp _ Hinv _ _ Hth) as Hwp. rewrite Hp in Hwp.
    replace (with_thread s tid _) with
      (mkSystem (<[th_process th := (th_config th, st)]> (sy_controllers s)) (sy_lease s)
         (<[tid := mkThread (th_process th) (th_config th) (th_operation th)
                     (th_log th ++ [Asked c r]) (th_holding th) (k r)]> (sy_threads s)))
      by (unfold with_thread; by rewrite insert_id).
    destruct Hwp as [Hcall Hwp].
    eapply inv_move; [done..| |apply Hwp|by apply good_log_snoc; [eapply inv_log|..]].
    apply books_same; [|done| |by eapply inv_state].
    + intros Hh. apply (inv_lease _ Hinv). eauto.
    + intros l Hl. by eapply inv_active.
  - pose proof (inv_wp _ Hinv _ _ Hth) as Hwp. rewrite Hp in Hwp. destruct Hwp as [Hal Hwp].
    edestruct (section_books (sy_lease s) tid) as [Hg Hb]; [exact Hal|by eapply inv_state| | |exact Hcs|].
    + intros Hh. apply (inv_lease _ Hinv). eauto.
    + intros l Hl. by eapply inv_active.
    + eapply inv_move; [done..|exact Hb|by apply Hwp|by apply good_log_snoc; [eapply inv_log|..]].
  - pose proof (inv_wp _ Hinv _ _ Hth) as Hwp. rewrite Hp in Hwp. cbn in Hwp.
    apply Hend in Hwp. by eapply inv_finish.
  - by apply inv_die.
Qed.

Lemma reachable_sys_inv s : reachable s → sys_inv s.
Proof using Hops Hend. induction 1; [apply inv_start|by eapply sys_inv_step]. Qed.

End Invariant.
