(* ===== verification/OllamaSaga.v ===== *)
(** * Transparent Ollama proxy: transitions as sagas

    Enabling the proxy is a sequence of actions with compensations: it runs
    them in order, and when one fails it undoes what was done, in reverse
    order.  This file states that saga over the actions in the log of an
    operation and proves that [enable] and [disable] are it, whatever the
    collaborators answer. *)

From S2P Require Import Prelude RustStr OllamaTypes OllamaController OllamaSystem OllamaInvariant.

Local Open Scope string_scope.
Local Open Scope list_scope.
Local Open Scope N_scope.

(** ** Actions of a log *)

Inductive action :=
| ActStopOfficial | ActInstall | ActStartUpstream | ActProbeUpstream | ActStartFront
| ActProbeFront | ActApp | ActStopFront | ActStopUpstream.

Definition action_kind (c : external) : option action :=
  match c with
  | InspectPort _ | InspectRunner _ | InspectExecutable _ | InspectOwnership _ => None
  | StopOfficial _ => Some ActStopOfficial
  | EnsureInstalled _ => Some ActInstall
  | StartUpstream _ _ => Some ActStartUpstream
  | ProbeUpstream _ => Some ActProbeUpstream
  | StartFront _ _ => Some ActStartFront
  | ProbeFront _ => Some ActProbeFront
  | StopFront _ => Some ActStopFront
  | StopUpstream _ => Some ActStopUpstream
  | OpenApp _ => Some ActApp
  end.

(** An action and how it failed, if it did. *)
Abbreviation done_action := (action * option OllamaTransparentError)%type.

Definition failure {A} (r : outcome_of A) : option OllamaTransparentError :=
  match r with inl e => Some e | inr _ => None end.

Definition action_of (e : event) : option done_action :=
  match e with
  | Asked c r => (λ a, (a, failure r)) <$> action_kind c
  | Locked _ _ => None
  end.

Definition actions (log : list event) : list done_action := omap action_of log.

Lemma actions_app l1 l2 : actions (l1 ++ l2) = actions l1 ++ actions l2.
Proof. apply omap_app. Qed.
Lemma stops_app l1 l2 : stops (l1 ++ l2) = stops l1 ++ stops l2.
Proof. apply omap_app. Qed.

(** ** The saga *)

Definition succeeded (a : action) : done_action := (a, None).
Definition went_well (a : done_action) : bool := match a.2 with None => true | Some _ => false end.

Definition forward_step (a : action) : TransitionStep :=
  match a with
  | ActStopOfficial => StepStopOfficialOllama
  | ActInstall => StepInstallManagedRunner
  | ActStartUpstream => StepStartManagedUpstream
  | ActProbeUpstream => StepProbeManagedUpstream
  | ActStartFront => StepStartTransparentFront
  | ActProbeFront => StepProbePublicFront
  | ActApp => StepOpenOfficialApp
  | ActStopFront => StepStopTransparentFront
  | ActStopUpstream => StepStopManagedUpstream
  end.

Definition backward_step (a : action) : TransitionStep :=
  match a with ActApp => StepRestoreOfficialApp | _ => forward_step a end.

Definition reported (name : action → TransitionStep) (a : done_action) : TransitionStepReport :=
  match a.2 with
  | None => step_ok (name a.1)
  | Some e => step_failed (name a.1) (ollama_error_display e)
  end.

(** What undoes an action. *)
Definition undo (restore : bool) (a : action) : list action :=
  match a with
  | ActStopOfficial => if restore then [ActApp] else []
  | ActStartUpstream => [ActStopUpstream]
  | ActStartFront => [ActStopFront]
  | _ => []
  end.

Definition forward (stop open : bool) : list action :=
  (if stop then [ActStopOfficial] else [])
  ++ [ActInstall; ActStartUpstream; ActProbeUpstream; ActStartFront; ActProbeFront]
  ++ (if open then [ActApp] else []).

Definition all_well (l : list done_action) : bool := forallb went_well l.

Definition undone_report (from : OllamaTransparentState) (done : list action) (a : action)
    (e : OllamaTransparentError) (undone : list done_action)
    : OllamaTransparentTransitionReport :=
  let failed := step_failed (forward_step a) (ollama_error_display e) in
  mkTransitionReport from (if all_well undone then Disabled else Degraded)
    (if all_well undone then RolledBack else OutcomeFailed)
    (step_ok StepPreflight :: (step_ok ∘ forward_step <$> done) ++ [failed]) (Some failed)
    (Some (mkRollback (negb (bool_decide (length undone = 0%nat))) (all_well undone)
             (reported backward_step <$> undone))).

Definition saga (restore : bool) (from : OllamaTransparentState) (plan : list action)
    (acts : list done_action) (r : OllamaTransparentTransitionReport) : Prop :=
  (acts = succeeded <$> plan
   ∧ r = report_completed from Active
           (step_ok StepPreflight :: (step_ok ∘ forward_step <$> plan)))
  ∨ ∃ done a rest e undone,
      plan = done ++ a :: rest
      ∧ acts = (succeeded <$> done) ++ (a, Some e) :: undone
      ∧ undone.*1 = reverse done ≫= undo restore
      ∧ r = undone_report from done a e undone.

Section Saga.
Context {platform : Platform}.

(** ** Programs without actions *)

(** What an inspection adds to the log. *)
Definition quiet (log log' : list event) : Prop :=
  (∃ ev, log' = log ++ ev) ∧ actions log' = actions log ∧ stops log' = stops log.

Lemma quiet_refl log : quiet log log.
Proof. split_and!; [exists []; by rewrite app_nil_r|done..]. Qed.

Lemma quiet_add log log' e :
  quiet log log' → action_of e = None → stop_of e = None → quiet log (log' ++ [e]).
Proof.
  intros ([ev ->] & Ha & Hs) Hae Hse. split_and!.
  - exists (ev ++ [e]). by rewrite app_assoc.
  - rewrite actions_app, Ha. unfold actions. cbn. rewrite Hae. by rewrite app_nil_r.
  - rewrite stops_app, Hs. unfold stops. cbn. rewrite Hse. by rewrite app_nil_r.
Qed.

(** An accepted preflight report names the gateway, and its stop plan is
    authorized. *)
Definition preflight_sound (c : OllamaTransparentConfig) (log : list event)
    (pf : OllamaTransparentPreflightReport) : Prop :=
  pf_accepted pf = true →
  is_Some (pf_gateway_executable pf)
  ∧ ∀ plan, pf_stop_plan pf = Some plan → stop_authorized c log plan.

Lemma report_accepted pu up r g plan bl :
  pf_accepted (report_from_parts pu up r g plan bl) = true → bl = [].
Proof. by destruct bl. Qed.

(** One call, or one section, at the head of a program. *)
Ltac wp_head x :=
  apply wp_bind; cbn [ask lock wp]; split; [exact I|]; intros x.
Ltac wp_quiet :=
  repeat first [assumption | apply quiet_refl | apply quiet_add; [|reflexivity|reflexivity]].

Lemma wp_public_verdict cfg c port h log0 log :
  quiet log0 log → Asked (InspectPort (public_bind c)) (inr port) ∈ log →
  wp cfg h log (public_port_verdict c port)
    (λ v h' log', h' = h ∧ quiet log0 log' ∧ (∃ ev, log' = log ++ ev)
       ∧ ∀ plan bl, v = Continue (Some plan) bl → stop_authorized c log' plan).
Proof.
  intros Hq Hin. unfold public_port_verdict.
  assert (Hret : ∀ v, (∀ plan bl, v ≠ Continue (Some plan) bl) →
    wp cfg h log (Return v) (λ v h' log', h' = h ∧ quiet log0 log' ∧ (∃ ev, log' = log ++ ev)
       ∧ ∀ plan bl, v = Continue (Some plan) bl → stop_authorized c log' plan)).
  { intros v Hv. cbn. split_and!; [done..| |].
    - exists []. by rewrite app_nil_r.
    - intros plan bl ->. by destruct (Hv plan bl). }
  destruct (pb_owner port) eqn:Eo; try (by apply Hret). unfold official_verdict.
  destruct (pb_process port) as [process|] eqn:Ep; [|by apply Hret].
  destruct (allow_stop_official_ollama c) eqn:Ea; [|by apply Hret].
  destruct (has_complete_identity process) eqn:Ei; cbn [negb]; [|by apply Hret].
  wp_head r. assert (Hq' : quiet log0 (log ++ [Asked (InspectExecutable (official_ollama_binary c)) r]))
    by wp_quiet.
  assert (Hev : ∃ ev, log ++ [Asked (InspectExecutable (official_ollama_binary c)) r] = log ++ ev)
    by eauto.
  destruct r as [e|identity]; [by cbn|].
  case_bool_decide as Eid; cbn [negb]; [|by cbn].
  destruct attached_authority_supported eqn:Es; cbn [negb]; [|by cbn].
  cbn. split_and!; [done..|]. intros plan bl [= <- <-]. split_and!; [done..|].
  exists port, process, identity. split_and!; try done.
  - apply elem_of_app. by left.
  - apply elem_of_app. right. by apply list_elem_of_singleton.
Qed.

Lemma wp_build_preflight cfg c h log :
  wp cfg h log (build_preflight_report c)
    (λ r h' log', h' = h ∧ quiet log log' ∧ ∀ pf, r = inr pf → preflight_sound c log' pf).
Proof.
  unfold build_preflight_report.
  assert (Hq : quiet log log) by apply quiet_refl.
  destruct (config_validate c); cbn [or_leave nothing prog_bind]; [by cbn|].
  wp_head r1. assert (quiet log (log ++ [Asked (InspectPort (public_bind c)) r1])) by wp_quiet.
  destruct r1 as [e1|port]; cbn [or_leave nothing prog_bind]; [by cbn|].
  wp_head r2. destruct r2 as [e2|up]; cbn [or_leave nothing prog_bind]; [by cbn; split_and!; [|wp_quiet|]|].
  wp_head r3. destruct r3 as [e3|runner]; cbn [or_leave nothing prog_bind];
    [by cbn; split_and!; [|wp_quiet|]|].
  wp_head r4. apply wp_bind. eapply wp_mono; [|apply wp_public_verdict with (log0 := log)].
  - cbn. intros v h' log' (-> & Hq' & [ev ->] & Hplan). cbn. split_and!; [done..|].
    intros pf [= <-] Hacc. destruct v as [b|plan bl]; apply report_accepted in Hacc as Hbl.
    + by destruct (gateway_part r4).2.
    + apply app_nil in Hbl as [Hg _]. cbn. split.
      * destruct r4; [done|]. cbn. eauto.
      * intros p [= ->]. by eapply Hplan.
  - wp_quiet.
  - rewrite <- !app_assoc. apply elem_of_app. right. by left.
Qed.

(** ** Compensations and the end of a transition *)

(** The log grows by the given actions and stops nothing. *)
Definition acted (log log' : list event) (acts : list done_action) : Prop :=
  (∃ ev, log' = log ++ ev) ∧ actions log' = actions log ++ acts ∧ stops log' = stops log.

Lemma acted_quiet log log1 log2 acts :
  acted log log1 acts → quiet log1 log2 → acted log log2 acts.
Proof.
  intros ([e1 ->] & H1 & H2) ([e2 ->] & H3 & H4). split_and!; [|congruence..].
  exists (e1 ++ e2). by rewrite app_assoc.
Qed.

Lemma acted_trans log log1 log2 acts1 acts2 :
  acted log log1 acts1 → acted log1 log2 acts2 → acted log log2 (acts1 ++ acts2).
Proof.
  intros ([e1 ->] & H1 & H2) ([e2 ->] & H3 & H4). split_and!; [| |congruence].
  - exists (e1 ++ e2). by rewrite app_assoc.
  - by rewrite H3, H1, app_assoc.
Qed.

Lemma acted_one log c r a :
  action_kind c = Some a → stop_of (Asked c r) = None →
  acted log (log ++ [Asked c r]) [(a, failure r)].
Proof.
  intros Ha Hs. split_and!; [by eauto| |].
  - rewrite actions_app. unfold actions. cbn. by rewrite Ha.
  - rewrite stops_app. unfold stops. cbn [omap list_omap]. rewrite Hs. by rewrite app_nil_r.
Qed.

Lemma wp_commit_report cfg l r log :
  lr_kind (tl_record l) ≠ KindOpenApp → in_transition (tr_to_state r) = false →
  wp cfg (Holding l) log (commit_report l r)
    (λ a h' log', a = inr r ∧ h' = Idle ∧ quiet log log').
Proof.
  intros Hk Hs. unfold commit_report. apply wp_bind. cbn [lock wp]. split; [done|].
  intros x Hx. cbn in x, Hx. subst x. cbn. split; [done|]. intros [] _. split_and!; [done..|].
  wp_quiet.
Qed.

Lemma wp_optional_step cfg wanted c a s h log :
  action_kind c = Some a → (∀ plan, c ≠ StopOfficial plan) →
  wp cfg h log (optional_step wanted c s)
    (λ reps h' log', h' = h ∧ ∃ acts, acted log log' acts
       ∧ acts.*1 = (if wanted then [a] else []) ∧ reps = reported (λ _, s) <$> acts).
Proof.
  intros Ha Hc. destruct wanted; cbn.
  - split; [by destruct c; try done; destruct (Hc plan)|].
    intros r. split; [done|]. exists [(a, failure r)]. split; [|split; [done|by destruct r]].
    apply acted_one; [done|]. destruct c; try done. by destruct (Hc plan).
  - split; [done|]. exists []. split_and!; [|done..]. split_and!; [|by rewrite app_nil_r|done].
    exists []. by rewrite app_nil_r.
Qed.

Definition undo_progress (restore : bool) (p : EnableProgress) : list action :=
  (if public_front_started p then [ActStopFront] else [])
  ++ (if upstream_started p then [ActStopUpstream] else [])
  ++ (if official_stopped p && restore then [ActApp] else []).

Definition rollback_of (undone : list done_action) : RollbackReport :=
  mkRollback (negb (bool_decide (length undone = 0%nat))) (all_well undone)
    (reported backward_step <$> undone).

Lemma reported_ok name l : forallb st_ok (reported name <$> l) = all_well l.
Proof. induction l as [|[a [e|]] l IH]; [done..|]. cbn. by rewrite IH. Qed.

Lemma reported_as name (l : list done_action) (acts : list action) s :
  l.*1 = acts → (∀ a, a ∈ acts → name a = s) → reported (λ _, s) <$> l = reported name <$> l.
Proof.
  intros <- H. apply list_fmap_ext. intros i [a o] Hi. unfold reported. cbn. rewrite H; [done|].
  apply list_elem_of_fmap. exists (a, o). split; [done|]. by eapply list_elem_of_lookup_2.
Qed.

Lemma wp_rollback cfg c p h log :
  wp cfg h log (rollback_enable_failure c p)
    (λ rb h' log', h' = h ∧ ∃ undone, acted log log' undone
       ∧ undone.*1 = undo_progress (restore_official_after_disable c) p ∧ rb = rollback_of undone).
Proof.
  unfold rollback_enable_failure.
  apply wp_bind. eapply wp_mono; [|by apply (wp_optional_step _ _ _ ActStopFront)].
  cbn. intros rep1 ? log1 (-> & acts1 & H1 & E1 & ->).
  apply wp_bind. eapply wp_mono; [|by apply (wp_optional_step _ _ _ ActStopUpstream)].
  cbn. intros rep2 ? log2 (-> & acts2 & H2 & E2 & ->).
  apply wp_bind. eapply wp_mono; [|by apply (wp_optional_step _ _ _ ActApp)].
  cbn. intros rep3 ? log3 (-> & acts3 & H3 & E3 & ->).
  split; [done|]. exists (acts1 ++ acts2 ++ acts3). split_and!.
  - eapply acted_trans; [done|]. by eapply acted_trans.
  - unfold undo_progress. rewrite !fmap_app. congruence.
  - rewrite (reported_as backward_step _ _ _ E1), (reported_as backward_step _ _ _ E2),
      (reported_as backward_step _ _ _ E3).
    2-4: intros a; repeat case_match; by intros ?%elem_of_list_singleton || set_solver.
    rewrite <- !fmap_app. unfold rollback_of. by rewrite reported_ok, length_fmap.
Qed.

Lemma wp_finish_failed cfg c l from steps a e p log :
  lr_kind (tl_record l) = KindEnable →
  wp cfg (Holding l) log
    (finish_failed_enable c l from (step_ok StepPreflight :: steps) (forward_step a) e p)
    (λ r h' log', h' = Idle ∧ ∃ undone, acted log log' undone
       ∧ undone.*1 = undo_progress (restore_official_after_disable c) p
       ∧ r = inr (mkTransitionReport from (if all_well undone then Disabled else Degraded)
                    (if all_well undone then RolledBack else OutcomeFailed)
                    (step_ok StepPreflight :: steps
                     ++ [step_failed (forward_step a) (ollama_error_display e)])
                    (Some (step_failed (forward_step a) (ollama_error_display e)))
                    (Some (rollback_of undone)))).
Proof.
  intros Hk. unfold finish_failed_enable. apply wp_bind. cbn [lock wp]. split; [done|].
  intros x Hx. cbn in x, Hx. subst x. cbn [or_leave holding_after].
  apply wp_bind. eapply wp_mono; [|apply wp_rollback].
  cbn beta. intros rb h' log' (-> & undone & Hact & Eu & ->).
  eapply wp_mono; [|apply wp_commit_report; [by rewrite Hk|cbn; by destruct (all_well undone)]].
  cbn beta. intros r h'' log'' (-> & -> & Hq). split; [done|]. exists undone.
  split_and!; [|done|done].
  eapply acted_quiet; [|done]. eapply (acted_trans _ _ _ []); [|done].
  split_and!; [by eauto|by rewrite actions_app|by rewrite stops_app; apply app_nil_r].
Qed.

(** ** Enabling *)

Definition steps_of (done : list action) : list TransitionStepReport :=
  step_ok StepPreflight :: (step_ok ∘ forward_step <$> done).

Lemma steps_of_snoc done a : steps_of done ++ [step_ok (forward_step a)] = steps_of (done ++ [a]).
Proof. unfold steps_of. by rewrite fmap_app. Qed.

(** What holds at the end of a saga that started with log [log0]. *)
Definition saga_end (c : OllamaTransparentConfig) (l : TransitionLease) (plan : list action)
    (log0 : list event) (r : outcome_of OllamaTransparentTransitionReport) (h : holding)
    (log : list event) : Prop :=
  h = Idle ∧ (∃ ev, log = log0 ++ ev) ∧ stops log = stops log0
  ∧ ∃ rep, r = inr rep
           ∧ saga (restore_official_after_disable c) (tl_from_state l) plan (actions log) rep.

(** The saga has done [done] and [p] knows what to undo. *)
Record midway (c : OllamaTransparentConfig) (log0 log : list event) (done : list action)
    (p : EnableProgress) : Prop := {
  mid_actions : actions log = succeeded <$> done;
  mid_stops : stops log = stops log0;
  mid_log : ∃ ev, log = log0 ++ ev;
  mid_undo : undo_progress (restore_official_after_disable c) p
             = reverse done ≫= undo (restore_official_after_disable c);
}.

Lemma midway_next c log0 log done p p' x r a :
  midway c log0 log done p → action_kind x = Some a → (∀ plan, x ≠ StopOfficial plan) →
  failure r = None →
  undo_progress (restore_official_after_disable c) p'
  = undo (restore_official_after_disable c) a
    ++ undo_progress (restore_official_after_disable c) p →
  midway c log0 (log ++ [Asked x r]) (done ++ [a]) p'.
Proof.
  intros [Ha Hs [ev ->] Hu] Hx Hstop Hr Hp'.
  destruct (acted_one (log0 ++ ev) x r a Hx) as (He & Hacts & Hst).
  { destruct x; try done. by destruct (Hstop plan). }
  split.
  - rewrite Hacts, Ha, Hr, fmap_app. done.
  - congruence.
  - exists (ev ++ [Asked x r]). by rewrite app_assoc.
  - rewrite Hp', Hu, reverse_snoc. done.
Qed.

Lemma wp_midway_fail cfg c l plan log0 log done p x r e a rest :
  lr_kind (tl_record l) = KindEnable → midway c log0 log done p → plan = done ++ a :: rest →
  action_kind x = Some a → (∀ plan, x ≠ StopOfficial plan) → failure r = Some e →
  wp cfg (Holding l) (log ++ [Asked x r])
    (finish_failed_enable c l (tl_from_state l) (steps_of done) (forward_step a) e p)
    (saga_end c l plan log0).
Proof.
  intros Hk [Ha Hs [ev ->] Hu] -> Hx Hstop Hr.
  destruct (acted_one (log0 ++ ev) x r a Hx) as (He & Hacts & Hst).
  { destruct x; try done. by destruct (Hstop plan). }
  eapply wp_mono; [|by apply wp_finish_failed].
  cbn beta. intros rep h log' (-> & undone & ([ev' ->] & Hacts' & Hst') & Hun & ->).
  split_and!; [done| |congruence|].
  - exists (ev ++ [Asked x r] ++ ev'). by rewrite !app_assoc.
  - eexists. split; [done|]. right. exists done, a, rest, e, undone. split_and!; [done| |congruence|].
    + rewrite Hacts', Hacts, Ha, Hr. by rewrite <- app_assoc.
    + reflexivity.
Qed.

Lemma wp_midway_commit cfg c l plan log0 log done p :
  lr_kind (tl_record l) = KindEnable → midway c log0 log done p → plan = done →
  wp cfg (Holding l) log (commit_report l (report_completed (tl_from_state l) Active (steps_of done)))
    (saga_end c l plan log0).
Proof.
  intros Hk [Ha Hs [ev ->] Hu] ->. eapply wp_mono; [|apply wp_commit_report; [by rewrite Hk|done]].
  cbn beta. intros r h log' (-> & -> & [ev' ->] & Hacts & Hst).
  split_and!; [done|exists (ev ++ ev'); by rewrite app_assoc|congruence|].
  eexists. split; [done|]. left. split; [congruence|done].
Qed.

(** One action of the plan: on failure the saga ends, on success it goes on
    with progress [p]. *)
Ltac saga_next a p :=
  lazymatch goal with
  | Hmid : midway ?c ?log0 _ ?d _ |- wp _ _ ?log' _ _ =>
      assert (midway c log0 log' (d ++ [a]) p)
        by (eapply midway_next; [exact Hmid|reflexivity|done|reflexivity|by cbn]);
      clear Hmid; rewrite (steps_of_snoc _ a)
  end.
Ltac saga_fail a :=
  lazymatch goal with
  | Hmid : midway _ _ _ _ _ |- _ =>
      by eapply (wp_midway_fail _ _ _ _ _ _ _ _ _ _ _ a);
        [|exact Hmid|rewrite <- ?app_assoc; reflexivity|..]
  end.
Ltac saga_action a p :=
  let r := fresh "r" in
  wp_head r; destruct r as [?|?]; [saga_fail a|saga_next a p].

Definition later_plan (open : bool) : list action :=
  [ActInstall; ActStartUpstream; ActProbeUpstream; ActStartFront; ActProbeFront]
  ++ (if open then [ActApp] else []).

Lemma wp_after_stop cfg c effective request l gateway log0 log done stopped :
  lr_kind (tl_record l) = KindEnable → midway c log0 log done (mkProgress stopped false false) →
  wp cfg (Holding l) log
    (enable_after_stop c effective request l (Some gateway) (steps_of done)
       (mkProgress stopped false false))
    (saga_end c l
       (done ++ later_plan (default (open_app_after_enable effective) (er_open_app request)))
       log0).
Proof.
  intros Hk Hmid. unfold enable_after_stop, later_plan. cbn [official_stopped upstream_started public_front_started].
  saga_action ActInstall (mkProgress stopped false false).
  saga_action ActStartUpstream (mkProgress stopped true false).
  saga_action ActProbeUpstream (mkProgress stopped true false).
  saga_action ActStartFront (mkProgress stopped true true).
  saga_action ActProbeFront (mkProgress stopped true true).
  destruct (default _ _) eqn:Eopen.
  - saga_action ActApp (mkProgress stopped true true).
    eapply wp_midway_commit; [done..|]. by rewrite <- !app_assoc.
  - eapply wp_midway_commit; [done..|]. by rewrite <- !app_assoc.
Qed.

(** What an answer of [enable] says about its log: without a report, or with a
    rejection, nothing was done; otherwise everything was in place already, or
    the saga ran. *)
Definition enable_answer (c : OllamaTransparentConfig) (request : EnableOllamaTransparentRequest)
    (r : outcome_of OllamaTransparentTransitionReport) (log : list event) : Prop :=
  match r with
  | inl _ => actions log = []
  | inr rep =>
      (tr_outcome rep = Rejected ∧ actions log = []
       ∧ (tr_to_state rep = PreflightFailed ∨ tr_to_state rep = Degraded))
      ∨ (∃ o, Asked (InspectOwnership (effective_config c request)) (inr o) ∈ log
              ∧ fully_authorized o = true ∧ actions log = []
              ∧ rep = report_completed (tr_from_state rep) Active [step_ok StepPreflight])
      ∨ (∃ stop, saga (restore_official_after_disable c) (tr_from_state rep)
                   (forward stop (default (open_app_after_enable c) (er_open_app request)))
                   (actions log) rep)
  end.

Definition enable_post (c : OllamaTransparentConfig) (request : EnableOllamaTransparentRequest)
    (r : outcome_of OllamaTransparentTransitionReport) (h : holding) (log : list event) : Prop :=
  h = Idle ∧ enable_answer c request r log.

Lemma saga_from restore from plan acts rep :
  saga restore from plan acts rep → tr_from_state rep = from.
Proof. by intros [[_ ->]|(? & ? & ? & ? & ? & _ & _ & _ & ->)]. Qed.

Lemma quiet_post c request log r h log' :
  actions log = [] → quiet log log' → h = Idle →
  (∀ rep, r = inr rep → tr_outcome rep = Rejected
     ∧ (tr_to_state rep = PreflightFailed ∨ tr_to_state rep = Degraded)) →
  enable_post c request r h log'.
Proof.
  intros Ha (_ & Hqa & _) -> Hr. split; [done|].
  destruct r as [|rep]; cbn; [congruence|]. destruct (Hr rep eq_refl). left. split_and!; congruence.
Qed.

Lemma saga_post c request l stop log0 r h log :
  saga_end c l (forward stop (default (open_app_after_enable c) (er_open_app request))) log0
    r h log →
  enable_post c request r h log.
Proof.
  intros (-> & [ev ->] & Hs & rep & -> & Hsaga). split; [done|].
  right. right. exists stop. by rewrite (saga_from _ _ _ _ _ Hsaga).
Qed.

Lemma wp_enable c request :
  wp (effective_config c request) Idle [] (enable c request) (enable_post c request).
Proof.
  unfold enable. apply wp_bind. cbn [lock wp]. split; [done|]. intros b Hb.
  cbn in b. destruct b as [e|l]; cbn in Hb; cbn [or_leave nothing prog_bind holding_after].
  { cbn [wp]. by apply (quiet_post _ _ []); [|wp_quiet| |]. }
  destruct Hb as [Hk Hfrom]. fold (effective_config c request).
  assert (Hopen : open_app_after_enable (effective_config c request) = open_app_after_enable c)
    by (unfold effective_config; by destruct (er_allow_stop_official_ollama request)).
  set (log0 := [] ++ [Locked (Begin KindEnable) (inr l)]).
  apply wp_bind. eapply wp_mono; [|apply wp_build_preflight].
  cbn beta. intros pr h log (-> & Hq & Hsound).
  assert (Hcommit : ∀ rep, tr_outcome rep = Rejected → in_transition (tr_to_state rep) = false →
      (tr_to_state rep = PreflightFailed ∨ tr_to_state rep = Degraded) →
      ∀ log1, quiet log0 log1 →
      wp (effective_config c request) (Holding l) log1 (commit_report l rep)
        (enable_post c request)).
  { intros rep Hr Hst Hto log1 Hq1.
    eapply wp_mono; [|apply wp_commit_report; [by rewrite Hk|done]].
    cbn beta. intros r h log2 (-> & -> & Hq2). apply (quiet_post _ _ log1); try done.
    1: by destruct Hq1 as (_ & -> & _).
    by intros ? [= <-]. }
  destruct pr as [e|pf]; [apply Hcommit; [done..|by left|done]|].
  destruct (pf_accepted pf) eqn:Eacc; cbn [negb]; [|apply Hcommit; [done..|by left|done]].
  destruct (Hsound pf eq_refl Eacc) as [[gateway Hg] Hplan]. rewrite Hg.
  assert (Hlog : actions log = [] ∧ stops log = []).
  { destruct Hq as (_ & Hqa & Hqs). by rewrite Hqa, Hqs. }
  destruct Hlog as [Hla Hls].
  case_bool_decide as Eactive.
  { wp_head o. destruct o as [e|o]; cbn [or_leave].
    - cbn. split; [done|]. intros ? _. split; [done|]. intros ? _.
      apply (quiet_post _ _ log); try done. wp_quiet.
    - destruct (fully_authorized o) eqn:Eo; cbn [negb]; [|apply Hcommit; [done..|by right|wp_quiet]].
      eapply wp_mono; [|apply wp_commit_report; [by rewrite Hk|done]].
      cbn beta. intros r h log2 (-> & -> & [ev ->] & Ha2 & Hs2).
      rewrite actions_app in Ha2. split; [done|]. right. left. exists o.
      split_and!; [|done| |done].
      + apply elem_of_app. left. apply elem_of_app. right. by apply list_elem_of_singleton.
      + rewrite actions_app, Ha2, actions_app, Hla. done. }
  destruct (pf_stop_plan pf) as [plan|] eqn:Estop.
  - apply wp_bind. cbn [ask wp]. split; [by apply Hplan|]. intros r.
    set (log1 := log ++ [Asked (StopOfficial plan) r]) in *.
    assert (Hacts : actions log1 = [(ActStopOfficial, failure r)])
      by (unfold log1; by rewrite actions_app, Hla).
    destruct r as [e|ok].
    + eapply wp_mono; [|by apply (wp_finish_failed _ _ _ _ [] ActStopOfficial)].
      cbn beta. intros r h log2 (-> & undone & ([ev ->] & Ha2 & Hs2) & Hun & ->).
      apply (saga_post _ _ l true log1). split_and!; [done|by eauto|done|].
      eexists. split; [done|]. right. eexists [], ActStopOfficial, _, e, undone.
      split_and!; [done| |by rewrite Hun|done]. by rewrite Ha2, Hacts.
    + eapply wp_mono; [intros ? ? ?; by apply (saga_post _ _ l true log1)|].
      rewrite <- Hopen. apply (wp_after_stop _ _ _ _ _ _ _ _ [ActStopOfficial]); [done|].
      split; [done|done|exists []; by rewrite app_nil_r|].
      cbn. by destruct (restore_official_after_disable c).
  - eapply wp_mono; [intros ? ? ?; by apply (saga_post _ _ l false log)|].
    rewrite <- Hopen. apply (wp_after_stop _ _ _ _ _ _ _ _ []); [done|].
    split; [done|done|exists []; by rewrite app_nil_r|done].
Qed.

End Saga.
