(* ===== verification/OllamaProps.v ===== *)
(** * Transparent Ollama proxy: properties

    Theorems about reachable systems of processes and threads: transitions are
    exclusive, enabling is a saga with compensation, the official application
    is stopped only when authorized, disabling attempts everything, and status
    is exact. *)

From S2P Require Import Prelude RustStr OllamaTypes OllamaController OllamaSystem OllamaInvariant OllamaSaga.

Local Open Scope string_scope.
Local Open Scope list_scope.
Local Open Scope N_scope.

Section Props.
Context {platform : Platform}.

(** ** The other operations *)

(** Disabling attempts every action, whatever fails. *)
Definition disable_answer (c : OllamaTransparentConfig) (request : DisableOllamaTransparentRequest)
    (r : outcome_of OllamaTransparentTransitionReport) (log : list event) : Prop :=
  match r with
  | inl _ => actions log = []
  | inr rep =>
      (actions log).*1
      = [ActStopFront; ActStopUpstream]
        ++ (if default (restore_official_after_disable c) (dr_restore_official_app request)
            then [ActApp] else [])
      ∧ tr_steps rep = reported backward_step <$> actions log
      ∧ tr_failing_step rep = first_failed (tr_steps rep)
      ∧ tr_to_state rep = (if all_well (actions log) then Disabled else Degraded)
      ∧ tr_outcome rep = (if all_well (actions log) then Completed else OutcomeFailed)
      ∧ tr_rollback rep = None
  end.

Definition status_answer (r : outcome_of OllamaTransparentStatus) (log : list event) : Prop :=
  actions log = []
  ∧ ∀ st, r = inr st →
      ∃ s o, Locked (Reconcile (os_public_port st) (os_upstream_port st) o) s ∈ log
        ∧ os_state st = cs_state s ∧ os_last_transition st = cs_last_transition s
        ∧ (cs_active_transition s = None →
           os_state st = Active ↔
           pb_owner (os_public_port st) = BeetleMemoryTransparentFront
           ∧ pb_owner (os_upstream_port st) = ManagedOllamaRunner ∧ fully_authorized o = true).

Definition app_answer (r : outcome_of ProcessActionReport) (log : list event) : Prop :=
  match r with
  | inr _ => actions log = [(ActApp, None)]
  | inl e => actions log = [] ∨ actions log = [(ActApp, Some e)]
  end.

Definition op_post (c : OllamaTransparentConfig) (op : operation) (a : answer) (h : holding)
    (log : list event) : Prop :=
  h = Idle ∧
  match op, a with
  | OpPreflight, PreflightAnswer _ => actions log = []
  | OpEnable request, TransitionAnswer r => enable_answer c request r log
  | OpDisable request, TransitionAnswer r => disable_answer c request r log
  | OpStatus, StatusAnswer r => status_answer r log
  | OpOpenApp, AppAnswer r => app_answer r log
  | _, _ => False
  end.

Lemma first_failed_well name l :
  first_failed (reported name <$> l) = None ↔ all_well l = true.
Proof.
  induction l as [|[a [e|]] l IH]; cbn; [done..|exact IH].
Qed.

Lemma wp_disable cfg c request :
  wp cfg Idle [] (disable c request)
    (λ r h log, h = Idle ∧ disable_answer c request r log).
Proof.
  unfold disable. apply wp_bind. cbn [lock wp]. split; [done|]. intros b Hb. cbn in b.
  destruct b as [e|l]; cbn in Hb; cbn [or_leave nothing prog_bind holding_after]; [by cbn|].
  destruct Hb as [Hk Hfrom].
  apply wp_bind. eapply wp_mono; [|by apply (wp_optional_step _ _ _ ActStopFront)].
  cbn beta. intros rep1 ? log1 (-> & acts1 & H1 & E1 & ->).
  apply wp_bind. eapply wp_mono; [|by apply (wp_optional_step _ _ _ ActStopUpstream)].
  cbn beta. intros rep2 ? log2 (-> & acts2 & H2 & E2 & ->).
  apply wp_bind. eapply wp_mono; [|by apply (wp_optional_step _ _ _ ActApp)].
  cbn beta. intros rep3 ? log3 (-> & acts3 & H3 & E3 & ->).
  rewrite (reported_as backward_step _ _ _ E1), (reported_as backward_step _ _ _ E2),
    (reported_as backward_step _ _ _ E3).
  2-4: intros a; repeat case_match; by intros ?%elem_of_list_singleton || set_solver.
  rewrite <- !fmap_app. cbn zeta.
  eapply wp_mono; [|apply wp_commit_report; [by rewrite Hk|cbn; by destruct (first_failed _)]].
  cbn beta. intros r h log' (-> & -> & Hq).
  destruct (acted_quiet _ _ _ _ (acted_trans _ _ _ _ _ H1 (acted_trans _ _ _ _ _ H2 H3)) Hq)
    as (_ & Ha & _).
  split; [done|]. cbn. cbn in Ha. rewrite Ha. split_and!; [|done..| | |done].
  - by rewrite !fmap_app, E1, E2, E3.
  - pose proof (first_failed_well backward_step (acts1 ++ acts2 ++ acts3)) as Hw.
    destruct (first_failed _), (all_well _); naive_solver.
  - pose proof (first_failed_well backward_step (acts1 ++ acts2 ++ acts3)) as Hw.
    destruct (first_failed _), (all_well _); naive_solver.
Qed.

Lemma wp_status cfg c :
  wp cfg Idle [] (status c) (λ r h log, h = Idle ∧ status_answer r log).
Proof.
  unfold status.
  do 4 (apply wp_bind; cbn [ask wp]; split; [exact I|]; intros [?|?];
        cbn [or_leave nothing prog_bind]; [by cbn|]).
  apply wp_bind. cbn [lock wp]. split; [done|]. intros s Hs. cbn in s, Hs. cbn [wp].
  split; [done|]. split; [done|]. intros st [= <-]. eexists s, _. cbn.
  split_and!; [|done..]. rewrite !elem_of_cons. tauto.
Qed.

Lemma wp_open_app cfg c :
  wp cfg Idle [] (open_app c) (λ r h log, h = Idle ∧ app_answer r log).
Proof.
  unfold open_app. apply wp_bind. cbn [lock wp]. split; [done|]. intros b Hb. cbn in b.
  destruct b as [e|l]; cbn in Hb; cbn [or_leave nothing prog_bind holding_after]; [by cbn; auto|].
  destruct Hb as [Hk Hfrom]. apply wp_bind. cbn [ask wp]. split; [exact I|]. intros [e|r].
  - cbn. split; [done|]. intros ? _. split; [done|]. intros ? _. auto.
  - cbn. split; [done|]. intros x ->. cbn. split; [done|]. intros ? _. done.
Qed.

Lemma wp_preflight cfg c :
  wp cfg Idle [] (preflight c) (λ r h log, h = Idle ∧ actions log = []).
Proof.
  unfold preflight. apply wp_bind. eapply wp_mono; [|apply wp_build_preflight].
  cbn beta. intros r h log (-> & (_ & Ha & _) & _).
  destruct r as [e|pf]; cbn [or_leave nothing prog_bind]; [by cbn|].
  destruct (pf_accepted pf); [by cbn|]. cbn. split; [done|]. intros ? _. split; [done|].
  by rewrite actions_app, Ha.
Qed.

Lemma wp_op c op : wp (op_config c op) Idle [] (op_prog c op) (op_post c op).
Proof.
  destruct op as [|request|request| |]; cbn [op_prog]; apply wp_bind.
  - eapply wp_mono; [|apply wp_preflight]. by intros r h log [-> ?].
  - eapply wp_mono; [|apply wp_enable]. by intros r h log [-> ?].
  - eapply wp_mono; [|apply wp_disable]. by intros r h log [-> ?].
  - eapply wp_mono; [|apply wp_status]. by intros r h log [-> ?].
  - eapply wp_mono; [|apply wp_open_app]. by intros r h log [-> ?].
Qed.

Lemma system_inv s : reachable s → sys_inv op_post s.
Proof. apply reachable_sys_inv; [apply wp_op|]. by intros c op a h log [-> _]. Qed.

(** ** Reachable systems *)

(** C9: whatever the processes and threads do and whatever the collaborators
    answer, at most one thread of all processes is in a transition; a
    controller records a transition exactly while one of its own threads holds
    the lease of that transition; its state is transitional exactly during an
    enabling or a disabling; and a lease once granted is never lost to another
    thread before it is committed. *)
Theorem transitions_exclusive s :
  reachable s →
  (∀ tid1 tid2 th1 th2, sy_threads s !! tid1 = Some th1 → sy_threads s !! tid2 = Some th2 →
     th_holding th1 ≠ Idle → th_holding th2 ≠ Idle → tid1 = tid2)
  ∧ (∀ pid c st, sy_controllers s !! pid = Some (c, st) → state_fits st
       ∧ ∀ r, cs_active_transition st = Some r ↔
              ∃ tid th l, sy_threads s !! tid = Some th ∧ th_process th = pid
                          ∧ th_holding th = Holding l ∧ tl_record l = r)
  ∧ (∀ tid th, sy_threads s !! tid = Some th → Forall granted_event (th_log th)).
Proof.
  intros Hs. pose proof (system_inv s Hs) as Hinv. split_and!.
  - intros tid1 tid2 th1 th2 H1 H2 Hh1 Hh2. by eapply inv_exclusive.
  - intros pid c st Hp. split; [by eapply inv_state|]. intros r. split.
    + intros Hr. by eapply inv_held.
    + intros (tid & th & l & Hth & <- & Hl & <-). by eapply inv_active.
  - intros tid th Hth. by apply (inv_log _ _ Hinv _ _ Hth).
Qed.

(** C8: an enabling that has returned did what the abstract saga says: without
    a report or with a rejection no action was taken; with everything in place
    and authorized nothing had to be done; otherwise it ran its actions in
    order, and at the first failure undid exactly the completed ones, the last
    first, and reported each outcome. *)
Theorem enabling_is_a_saga s tid th request a :
  reachable s → sy_threads s !! tid = Some th → th_operation th = OpEnable request →
  th_prog th = Return a →
  ∃ r, a = TransitionAnswer r ∧ enable_answer (th_config th) request r (th_log th).
Proof.
  intros Hs Hth Hop Ha. pose proof (inv_wp _ _ (system_inv s Hs) _ _ Hth) as H.
  rewrite Ha, Hop in H. destruct H as [_ H]. destruct a; [done|by eauto|done..].
Qed.

(** a disabling that has returned a report attempted to stop the front, to
    stop the upstream and, when asked, to restore the official application,
    each whatever the others answered; the report names the first failure, and
    the state is [Disabled] exactly when none failed. *)
Theorem disabling_attempts_everything s tid th request a :
  reachable s → sy_threads s !! tid = Some th → th_operation th = OpDisable request →
  th_prog th = Return a →
  ∃ r, a = TransitionAnswer r ∧ disable_answer (th_config th) request r (th_log th).
Proof.
  intros Hs Hth Hop Ha. pose proof (inv_wp _ _ (system_inv s Hs) _ _ Hth) as H.
  rewrite Ha, Hop in H. destruct H as [_ H]. destruct a; [done|by eauto|done..].
Qed.

(** C10: at every moment of every execution, a thread that has asked to stop the
    official Ollama had been allowed to, and had seen before that the public
    port belongs to that very process, whose executable identity is the one of
    the governed official binary. *)
Theorem official_stop_authorized s tid th before plan r after :
  reachable s → sy_threads s !! tid = Some th →
  th_log th = before ++ Asked (StopOfficial plan) r :: after →
  stop_authorized (op_config (th_config th) (th_operation th)) before plan.
Proof.
  intros Hs Hth Hlog. by eapply (inv_log _ _ (system_inv s Hs) _ _ Hth).
Qed.

(** a status never acts, and when it answers outside a transition it says
    [Active] exactly when both ports are owned by the managed processes and
    both are authorized by their launch receipts. *)
Theorem status_is_observed s tid th a :
  reachable s → sy_threads s !! tid = Some th → th_operation th = OpStatus →
  th_prog th = Return a →
  ∃ r, a = StatusAnswer r ∧ status_answer r (th_log th).
Proof.
  intros Hs Hth Hop Ha. pose proof (inv_wp _ _ (system_inv s Hs) _ _ Hth) as H.
  rewrite Ha, Hop in H. destruct H as [_ H]. destruct a; [done..|by eauto|done].
Qed.

End Props.
