(* ===== verification/OllamaSamples.v ===== *)
(** * Transparent Ollama proxy: concrete executions

    A scheduler that replays a list of moves as steps of a system, and three
    executions of it: an enabling that stops the official application and is
    rolled back, a second process that is refused meanwhile, and a disabling
    and a status after it.  The witnesses apply the theorems to them. *)

From S2P Require Import Prelude RustStr OllamaTypes OllamaController OllamaSystem OllamaInvariant OllamaSaga OllamaProps.

Local Open Scope string_scope.
Local Open Scope list_scope.
Local Open Scope N_scope.

Module OllamaSamples.

(** ** A scheduler *)

Inductive move :=
| DoOpen (pid : nat) (c : OllamaTransparentConfig)
| DoSpawn (tid pid : nat) (op : operation)
| DoRun (tid : nat) (answers : ∀ c : external, reply c) (env : lease_environment)
| DoFinish (tid : nat)
| DoDie (pid : nat).

#[local] Instance same_lease_path_dec s c : Decision (same_lease_path s c).
Proof. unfold same_lease_path. apply _. Defined.

Section Exec.
Context {platform : Platform}.

Definition exec_one (s : system) (m : move) : option system :=
  match m with
  | DoOpen pid c =>
      match sy_controllers s !! pid, config_validate c, decide (same_lease_path s c) with
      | None, inr tt, left _ =>
          Some (mkSystem (<[pid := (c, controller_initial)]> (sy_controllers s)) (sy_lease s)
                  (sy_threads s))
      | _, _, _ => None
      end
  | DoSpawn tid pid op =>
      match sy_threads s !! tid, sy_controllers s !! pid with
      | None, Some (c, _) => Some (with_thread s tid (mkThread pid c op [] Idle (op_prog c op)))
      | _, _ => None
      end
  | DoRun tid answers env =>
      match sy_threads s !! tid with
      | None => None
      | Some th =>
          match th_prog th with
          | Return _ => None
          | Ask c k =>
              Some (with_thread s tid
                      (mkThread (th_process th) (th_config th) (th_operation th)
                         (th_log th ++ [Asked c (answers c)]) (th_holding th) (k (answers c))))
          | Lock op k =>
              match sy_controllers s !! th_process th with
              | None => None
              | Some (c, st) =>
                  let rs := critical_step (os_answer (sy_lease s) env) op st in
                  Some (mkSystem (<[th_process th := (c, rs.2)]> (sy_controllers s))
                          (lease_after tid op rs.1 (sy_lease s))
                          (<[tid := mkThread (th_process th) (th_config th) (th_operation th)
                                      (th_log th ++ [Locked op rs.1])
                                      (holding_after op rs.1 (th_holding th)) (k rs.1)]>
                             (sy_threads s)))
              end
          end
      end
  | DoFinish tid =>
      match sy_threads s !! tid with
      | Some th => match th_prog th with
                   | Return _ => Some (mkSystem (sy_controllers s) (sy_lease s)
                                         (delete tid (sy_threads s)))
                   | _ => None
                   end
      | None => None
      end
  | DoDie pid =>
      Some (mkSystem (delete pid (sy_controllers s))
              (if lease_of_process s pid then None else sy_lease s)
              (filter (λ x, th_process x.2 ≠ pid) (sy_threads s)))
  end.

Fixpoint exec (s : system) (l : list move) : option system :=
  match l with [] => Some s | m :: l' => exec_one s m ≫= λ s', exec s' l' end.

Lemma exec_one_step s m s' : exec_one s m = Some s' → step s s'.
Proof.
  destruct m as [pid c|tid pid op|tid answers env|tid|pid]; cbn.
  - destruct (sy_controllers s !! pid) eqn:Ep; [done|].
    destruct (config_validate c) as [|[]] eqn:Ec; [done|].
    destruct (decide (same_lease_path s c)); [|done]. intros [= <-]. by apply step_open.
  - destruct (sy_threads s !! tid) eqn:Et; [done|].
    destruct (sy_controllers s !! pid) as [[c st]|] eqn:Ep; [|done]. intros [= <-].
    by eapply step_spawn.
  - destruct (sy_threads s !! tid) as [th|] eqn:Et; [|done].
    destruct (th_prog th) as [a|c k|op k] eqn:Ep; [done| |].
    + intros [= <-]. by apply step_ask.
    + destruct (sy_controllers s !! th_process th) as [[c st]|] eqn:Ec; [|done].
      intros [= <-]. eapply step_lock; [done..|]. apply surjective_pairing.
  - destruct (sy_threads s !! tid) as [th|] eqn:Et; [|done].
    destruct (th_prog th) eqn:Ep; [|done..]. intros [= <-]. by eapply step_finish.
  - intros [= <-]. apply step_die.
Qed.

Lemma exec_reachable l s s' : reachable s → exec s l = Some s' → reachable s'.
Proof.
  revert s. induction l as [|m l IH]; cbn; intros s Hs; [by intros [= <-]|].
  destruct (exec_one s m) as [s1|] eqn:E; [|done]. cbn. apply IH.
  eapply reach_step; [done|]. by eapply exec_one_step.
Qed.

Definition start : system := mkSystem ∅ None ∅.

End Exec.

(** ** The executions *)

#[local] Instance linux : Platform := {| attached_authority_supported := true |}.

Definition authority : OllamaTransparentMemoryAuthority :=
  mkMemoryAuthority "owner-1" "agent-1" "ollama" "/data/store".

Definition no_config : OllamaTransparentConfig :=
  mkConfig ModeDisabled "" "" "" "" "" "" "" authority (loopback 0) (loopback 0)
    false false false.

Definition config : OllamaTransparentConfig :=
  match config_new "/data" "/opt/bm-llm-gateway" authority with
  | inr c => c
  | inl _ => no_config
  end.

Definition identity : ExecutableFileIdentity := mkIdentity "sha256:aa" 10 1 2 493.

Definition ollama_process : ObservedProcess :=
  mkProcess 41 "ollama" "/Applications/Ollama.app/Contents/Resources/ollama" (Some "1000")
    (Some identity).

Definition runner : ManagedRunnerReport :=
  mkRunnerReport "/a" "/b" true true true None None None (Some identity) None.

Definition action_report : ProcessActionReport := mkActionReport "action" true None None.

(** The official Ollama listens on the public port; the probe of the front
    answers [probe], the rest succeeds. *)
Definition answers (probe : outcome_of ProbeReport) (c : external) : reply c :=
  match c with
  | InspectPort bind =>
      system_inspect (port_owner_classifier config) bind
        (inr (if bool_decide (bind = loopback 11434) then Some ollama_process else None))
  | InspectRunner _ | EnsureInstalled _ => inr runner
  | InspectExecutable _ => inr identity
  | InspectOwnership _ => inr (mkOwnership false false)
  | StopOfficial _ => inr [action_report]
  | StartUpstream _ _ => inr (mkProcessReport ManagedUpstream (Some 50) true None)
  | StartFront _ _ => inr (mkProcessReport TransparentFront (Some 51) true None)
  | ProbeUpstream _ => inr (mkProbeReport "upstream" true None)
  | ProbeFront _ => probe
  | StopFront _ | StopUpstream _ | OpenApp _ => inr action_report
  end.

Definition probe_error : OllamaTransparentError :=
  mkOllamaError ProcessActionFailed "front does not answer".

Definition gateway_process : ObservedProcess :=
  mkProcess 7 "beetle" "/opt/beetle" (Some "900") (Some identity).
Definition gateway_receipt : TransitionProcessReceipt := mkReceipt 1 7 "900" "/opt/beetle" identity.

Definition environment : lease_environment :=
  mkLeaseEnv (inr tt) false "Resource temporarily unavailable" (inr gateway_receipt) 7
    (λ pid, if pid =? 7 then Some gateway_process else None) (inr tt) (inr gateway_receipt).

Definition run (tid : nat) : move := DoRun tid (answers (inl probe_error)) environment.

Definition enable_request : EnableOllamaTransparentRequest := mkEnable None true.

(** Process 0 enables; process 1 tries to disable while the front of process 0
    is being probed; the enabling is rolled back. *)
Definition moves_until_stop : list move :=
  [DoOpen 0 config; DoOpen 1 config; DoSpawn 0 0 (OpEnable enable_request)] ++ replicate 7 (run 0).
Definition moves_refused : list move :=
  replicate 4 (run 0) ++ [DoSpawn 1 1 (OpDisable (mkDisable None)); run 1].
Definition moves_rolled_back : list move := replicate 7 (run 0).
Definition moves_after : list move :=
  [DoFinish 0; DoFinish 1; DoSpawn 2 1 (OpDisable (mkDisable None))] ++ replicate 6 (run 2)
  ++ [DoSpawn 3 1 OpStatus] ++ replicate 5 (run 3).

Definition system_of (o : option system) : system := default start o.

Definition stopping : system := system_of (exec start moves_until_stop).
Definition refused : system := system_of (exec stopping moves_refused).
Definition rolled_back : system := system_of (exec refused moves_rolled_back).
Definition after : system := system_of (exec rolled_back moves_after).

Lemma system_of_reachable s l :
  reachable s → reachable (system_of (exec s l)).
Proof.
  intros Hs. unfold system_of. destruct (exec s l) eqn:E; cbn; [|constructor].
  by eapply exec_reachable.
Qed.

Lemma stopping_reachable : reachable stopping.
Proof. apply system_of_reachable. constructor. Qed.
Lemma refused_reachable : reachable refused.
Proof. apply system_of_reachable, stopping_reachable. Qed.
Lemma rolled_back_reachable : reachable rolled_back.
Proof. apply system_of_reachable, refused_reachable. Qed.
Lemma after_reachable : reachable after.
Proof. apply system_of_reachable, rolled_back_reachable. Qed.

Definition no_thread : thread := mkThread 0 no_config OpStatus [] Idle (Return (StatusAnswer (inl probe_error))).
Definition thread_of (s : system) (tid : nat) : thread := default no_thread (sy_threads s !! tid).

Definition returned (th : thread) : option answer :=
  match th_prog th with Return a => Some a | _ => None end.

Definition state_of (s : system) (pid : nat) : option OllamaTransparentState :=
  cs_state ∘ snd <$> sy_controllers s !! pid.

Definition present (s : system) (tid : nat) : bool :=
  match sy_threads s !! tid with Some _ => true | None => false end.

Lemma present_thread s tid : present s tid = true → sy_threads s !! tid = Some (thread_of s tid).
Proof. unfold present, thread_of. by destruct (sy_threads s !! tid). Qed.

Lemma returned_prog th a : returned th = Some a → th_prog th = Return a.
Proof. unfold returned. destruct (th_prog th); [by intros [= ->]|done..]. Qed.

(** ** Witnesses *)

Lemma transitions_exclusive_witness :
  present refused 0 = true ∧ present refused 1 = true
  ∧ state_of refused 0 = Some Enabling
  ∧ (th_holding (thread_of refused 0) ≠ Idle → th_holding (thread_of refused 1) ≠ Idle → 0%nat = 1%nat)
  ∧ Forall granted_event (th_log (thread_of refused 0)).
Proof.
  split_and!; [vm_compute; reflexivity..| |].
  - apply (transitions_exclusive refused refused_reachable);
      apply present_thread; vm_compute; reflexivity.
  - apply (transitions_exclusive refused refused_reachable) with (tid := 0%nat).
    apply present_thread. vm_compute. reflexivity.
Defined.

Lemma enabling_is_a_saga_witness :
  ∃ rep, returned (thread_of rolled_back 0) = Some (TransitionAnswer (inr rep))
    ∧ tr_outcome rep = RolledBack
    ∧ ∃ r, TransitionAnswer (inr rep) = TransitionAnswer r
           ∧ enable_answer (th_config (thread_of rolled_back 0)) enable_request r
               (th_log (thread_of rolled_back 0)).
Proof.
  eexists. split; [vm_compute; reflexivity|]. split; [vm_compute; reflexivity|].
  apply (enabling_is_a_saga rolled_back 0%nat (thread_of rolled_back 0) enable_request).
  - exact rolled_back_reachable.
  - apply present_thread. vm_compute. reflexivity.
  - vm_compute. reflexivity.
  - apply returned_prog. vm_compute. reflexivity.
Defined.

Lemma disabling_attempts_everything_witness :
  ∃ rep, returned (thread_of after 2) = Some (TransitionAnswer (inr rep))
    ∧ tr_outcome rep = Completed
    ∧ ∃ r, TransitionAnswer (inr rep) = TransitionAnswer r
           ∧ disable_answer (th_config (thread_of after 2)) (mkDisable None) r
               (th_log (thread_of after 2)).
Proof.
  eexists. split; [vm_compute; reflexivity|]. split; [vm_compute; reflexivity|].
  apply (disabling_attempts_everything after 2%nat (thread_of after 2) (mkDisable None)).
  - exact after_reachable.
  - apply present_thread. vm_compute. reflexivity.
  - vm_compute. reflexivity.
  - apply returned_prog. vm_compute. reflexivity.
Defined.

(** The log of the enabling up to its request to stop the official Ollama. *)
Definition log_before : list event := removelast (th_log (thread_of stopping 0)).
Definition stop_plan : OfficialOllamaStopPlan :=
  mkStopPlan true [mkStopTarget (loopback 11434) ollama_process]
    "official Ollama owns the public transparent port and user allowed stopping it".

Lemma official_stop_authorized_witness :
  th_log (thread_of stopping 0)
  = log_before ++ [Asked (StopOfficial stop_plan) (inr [action_report])]
  ∧ stop_authorized (with_allow_stop config) log_before stop_plan.
Proof.
  split; [vm_compute; reflexivity|].
  apply (official_stop_authorized stopping 0%nat (thread_of stopping 0) log_before stop_plan
           (inr [action_report]) []).
  - exact stopping_reachable.
  - apply present_thread. vm_compute. reflexivity.
  - vm_compute. reflexivity.
Defined.

Lemma status_is_observed_witness :
  ∃ st, returned (thread_of after 3) = Some (StatusAnswer (inr st))
    ∧ os_state st = Disabled
    ∧ ∃ r, StatusAnswer (inr st) = StatusAnswer r ∧ status_answer r (th_log (thread_of after 3)).
Proof.
  eexists. split; [vm_compute; reflexivity|]. split; [vm_compute; reflexivity|].
  apply (status_is_observed after 3%nat (thread_of after 3)).
  - exact after_reachable.
  - apply present_thread. vm_compute. reflexivity.
  - vm_compute. reflexivity.
  - apply returned_prog. vm_compute. reflexivity.
Defined.

End OllamaSamples.
