(* ===== verification/TurnTypes.v ===== *)
(** * Transcripts: conversations, turns and records

    The data of [crates/core/src/memory/turn_commit.rs] and [transcript.rs]: a
    turn as a host submits it (the canonical delta), the session messages and
    transcript records it becomes, conversation keys with their storage keys,
    actors, host references and the lifecycle of a stored turn. *)

From S2P Require Import Prelude RustStr LongTermEntry.
From Stdlib Require Import Ascii.

Local Open Scope string_scope.
Local Open Scope list_scope.
Local Open Scope N_scope.

(** ** Characters *)

(** [chars().any(char::is_control)]: U+0000..U+001F, U+007F..U+009F. *)
Fixpoint has_control (s : string) : bool :=
  match s with
  | EmptyString => false
  | String a rest =>
      (byte_of a <? 32) || (byte_of a =? 127)
      || ((byte_of a =? 194)
          && match rest with
             | String b _ => (128 <=? byte_of b) && (byte_of b <=? 159)
             | EmptyString => false
             end)
      || has_control rest
  end.

Definition ascii_lowercase (c : ascii) : ascii :=
  if (65 <=? byte_of c) && (byte_of c <=? 90) then ascii_of_N (byte_of c + 32) else c.

(** [a.eq_ignore_ascii_case(b)] *)
Fixpoint eq_ignore_ascii_case (a b : string) : bool :=
  match a, b with
  | EmptyString, EmptyString => true
  | String x a', String y b' =>
      Ascii.eqb (ascii_lowercase x) (ascii_lowercase y) && eq_ignore_ascii_case a' b'
  | _, _ => false
  end.

(** [s.chars().count()]: the bytes that are not continuation bytes. *)
Fixpoint char_count (s : string) : N :=
  match s with
  | EmptyString => 0
  | String c rest =>
      (if (128 <=? byte_of c) && (byte_of c <=? 191) then 0 else 1) + char_count rest
  end.

(** ** Turns as they are submitted *)

Definition MAX_SESSION_MESSAGE_LEN : N := 4096.
Definition MAX_SESSION_ENTRIES : N := 128.
Definition MAX_ASSISTANT_MESSAGES_PER_TURN : N := 16.
Definition MAX_PROCEDURAL_EVIDENCE_ITEMS : N := 256.

Inductive MemoryTurnDeliveryStatus :=
| Delivered | UserOnly | UpstreamFailed | Cancelled | IncompleteStream | RejectedByPolicy.

Inductive MemoryTurnProtocol :=
| OpenAiChat | OpenAiResponses | OllamaChat | OllamaGenerate | NativeProtocol.

Inductive IngressKind := IngressUser | IngressSystem.

Inductive AssistantMessageSettlement := SettledComplete | InterruptedDeliveredPrefix.

#[global] Instance delivery_status_eq_dec : EqDecision MemoryTurnDeliveryStatus.
Proof. solve_decision. Defined.
#[global] Instance turn_protocol_eq_dec : EqDecision MemoryTurnProtocol.
Proof. solve_decision. Defined.
#[global] Instance ingress_kind_eq_dec : EqDecision IngressKind.
Proof. solve_decision. Defined.
#[global] Instance settlement_eq_dec : EqDecision AssistantMessageSettlement.
Proof. solve_decision. Defined.

(** [MemoryEvidenceAuthority::for_role] and [label] *)
Definition authority_for_role (role : string) : MemoryEvidenceAuthority :=
  if eq_ignore_ascii_case role "user" then UserAsserted
  else if eq_ignore_ascii_case role "assistant" then AssistantUtterance
  else LegacyTranscript.

Definition authority_label (a : MemoryEvidenceAuthority) : string :=
  match a with
  | UserAsserted => "user_asserted"
  | ModelInferred => "model_inferred"
  | AssistantUtterance => "assistant_utterance"
  | AssistantSelfClaim => "assistant_self_claim"
  | RuntimeObservation => "runtime_observation"
  | WorldObservation => "world_observation"
  | ProgramMemoryCanonical => "program_memory_canonical"
  | ArchiveEvidence => "archive_evidence"
  | SubjectProjection => "subject_projection"
  | SoulGovernance => "soul_governance"
  | PrivateGardenInternal => "private_garden_internal"
  | OperatorDiagnosticAuthority => "operator_diagnostic"
  | ExternalContent => "external_content"
  | LegacyTranscript => "legacy_transcript"
  end.

Definition default_session_speaker_for_role (role : string) : string * string :=
  if String.eqb role "user" then ("user", "human")
  else if String.eqb role "assistant" then ("assistant", "llm_agent")
  else if String.eqb role "system" then ("system", "system")
  else if String.eqb role "tool" then ("tool", "tool")
  else if negb (blank role) then (role, "external")
  else ("unknown", "unknown").

Record TranscriptInputMessage := mkInput {
  im_role : string;
  im_content : string;
  im_authority : MemoryEvidenceAuthority;
  im_observed_at : N;
  im_speaker_id : string;
  im_speaker_kind : string;
}.

Definition input_message_new (role content : string) (authority : MemoryEvidenceAuthority)
    : TranscriptInputMessage :=
  let speaker := default_session_speaker_for_role role in
  mkInput role content authority 0 speaker.1 speaker.2.

Definition input_user (content : string) := input_message_new "user" content UserAsserted.
Definition input_assistant (content : string) :=
  input_message_new "assistant" content AssistantUtterance.

Definition is_role (m : TranscriptInputMessage) (role : string) : bool :=
  eq_ignore_ascii_case (im_role m) role.

Record TranscriptAssistantMessage := mkAssistant {
  am_message : TranscriptInputMessage;
  am_settlement : AssistantMessageSettlement;
}.

Record MemoryTurnSource := mkTurnSource {
  tso_ingress : IngressKind;
  tso_channel : string;
  tso_provider : option string;
  tso_protocol : MemoryTurnProtocol;
  tso_endpoint : option string;
  tso_model_alias : option string;
  tso_model_resolved : option string;
  tso_request_id : option string;
  tso_client_conversation_hint : option string;
}.

Record ConversationScope := mkConversation {
  cv_channel : string;
  cv_chat_id : string;
  cv_conversation_id : option string;
}.

Record ToolObservationDigest := mkObservation {
  to_observation_id : string;
  to_call_id : string;
  to_tool_name : string;
  to_summary : string;
  to_external_content : bool;
}.

Record ActorAttribution := mkActor {
  aa_speaker_id : string;
  aa_speaker_kind : string;
  aa_subject_id : option string;
  aa_actor_subject_id : option string;
  aa_mounted_subject_id : option string;
  aa_agent_id : option string;
  aa_triggered_by : option string;
}.

Definition actor_for_subject (subject_id : string) : ActorAttribution :=
  mkActor subject_id "subject" (Some subject_id) (Some subject_id) (Some subject_id) None None.

Definition or_subject (o : option string) (subject_id : string) : option string :=
  match o with None => Some subject_id | Some _ => o end.

Definition normalized_for_subject (a : ActorAttribution) (subject_id : string)
    : ActorAttribution :=
  mkActor (if blank (aa_speaker_id a) then subject_id else aa_speaker_id a)
    (if blank (aa_speaker_kind a) then "subject" else aa_speaker_kind a)
    (or_subject (aa_subject_id a) subject_id)
    (or_subject (aa_actor_subject_id a) subject_id)
    (or_subject (aa_mounted_subject_id a) subject_id) (aa_agent_id a) (aa_triggered_by a).

(** The actor of a message: its speaker, with the rest of the actor of the turn. *)
Definition with_speaker (a : ActorAttribution) (speaker_id speaker_kind : string)
    : ActorAttribution :=
  mkActor speaker_id speaker_kind (aa_subject_id a) (aa_actor_subject_id a)
    (aa_mounted_subject_id a) (aa_agent_id a) (aa_triggered_by a).

Definition inherited_actor (turn_actor : option ActorAttribution) (subject_id : string)
    : ActorAttribution :=
  normalized_for_subject (default (actor_for_subject subject_id) turn_actor) subject_id.

Definition from_message_with_turn_actor (m : TranscriptInputMessage) (subject_id : string)
    (turn_actor : option ActorAttribution) : ActorAttribution :=
  with_speaker (inherited_actor turn_actor subject_id) (im_speaker_id m) (im_speaker_kind m).

Record CanonicalTurnDelta := mkDelta {
  td_turn_id : string;
  td_conversation : ConversationScope;
  td_subject : string;
  td_delivery_status : MemoryTurnDeliveryStatus;
  td_source : MemoryTurnSource;
  td_actor : option ActorAttribution;
  td_input_messages : list TranscriptInputMessage;
  td_assistant_messages : list TranscriptAssistantMessage;
  td_tool_observations : list ToolObservationDigest;
  td_external_content_used : bool;
  td_candidate_ids : list string;
}.

(** ** Sessions *)

Record SessionMessage := mkSessionMessage {
  sm_message_id : string;
  sm_role : string;
  sm_content : string;
  sm_observed_at : N;
  sm_created_at : N;
  sm_speaker_id : string;
  sm_speaker_kind : string;
}.

#[global] Instance session_message_eq_dec : EqDecision SessionMessage.
Proof. solve_decision. Defined.

(** [TranscriptInputMessage::into_session_message] *)
Definition into_session_message (m : TranscriptInputMessage) (message_id : string)
    (fallback_observed_at created_at : N) : SessionMessage :=
  let observed_at := if im_observed_at m =? 0 then fallback_observed_at else im_observed_at m in
  mkSessionMessage message_id (im_role m) (im_content m) observed_at
    (N.max created_at observed_at) (im_speaker_id m) (im_speaker_kind m).

Record SessionMessageRecord := mkSessionRecord {
  sr_message_id : string;
  sr_role : string;
  sr_content : string;
  sr_observed_at : N;
  sr_created_at : N;
  sr_speaker_id : string;
  sr_speaker_kind : string;
  sr_transcript_ref : option TranscriptEvidenceRef;
}.

Definition as_message (r : SessionMessageRecord) : SessionMessage :=
  mkSessionMessage (sr_message_id r) (sr_role r) (sr_content r) (sr_observed_at r)
    (sr_created_at r) (sr_speaker_id r) (sr_speaker_kind r).

(** ** Conversation keys *)

Record ConversationKey := mkConversationKey {
  ck_memory_space_id : string;
  ck_channel_id : string;
  ck_conversation_id : string;
}.

#[global] Instance conversation_key_eq_dec : EqDecision ConversationKey.
Proof. solve_decision. Defined.

Definition conversation_key_validate (k : ConversationKey) : result unit :=
  _ ← ensure (negb (is_empty (ck_memory_space_id k)))
        (Config "conversation_key" "memory_space_id must not be empty");
  _ ← ensure (negb (is_empty (ck_channel_id k)))
        (Config "conversation_key" "channel_id must not be empty");
  ensure (negb (is_empty (ck_conversation_id k)))
    (Config "conversation_key" "conversation_id must not be empty").

Definition conversation_key_new (memory_space_id channel_id conversation_id : string)
    : result ConversationKey :=
  let key := mkConversationKey (trim memory_space_id) (trim channel_id) (trim conversation_id) in
  _ ← conversation_key_validate key;
  Ok key.

Definition delta_conversation_id (d : CanonicalTurnDelta) : string :=
  default (cv_chat_id (td_conversation d)) (cv_conversation_id (td_conversation d)).

Definition conversation_key_from_delta (memory_space_id : string) (d : CanonicalTurnDelta)
    : result ConversationKey :=
  conversation_key_new memory_space_id (cv_channel (td_conversation d)) (delta_conversation_id d).

(** [format!("{byte:02X}")] *)
Definition upper_hex_digit (n : N) : ascii :=
  if n <? 10 then ascii_of_N (48 + n) else ascii_of_N (55 + n).

Definition is_key_char (c : ascii) : bool :=
  let b := byte_of c in
  ((48 <=? b) && (b <=? 57)) || ((65 <=? b) && (b <=? 90)) || ((97 <=? b) && (b <=? 122))
  || (b =? 95) || (b =? 45) || (b =? 46).

Fixpoint encode_key_bytes (s : string) : string :=
  match s with
  | EmptyString => ""
  | String c rest =>
      if is_key_char c then String c (encode_key_bytes rest)
      else String "%" (String (upper_hex_digit (byte_of c / 16))
                         (String (upper_hex_digit (byte_of c mod 16)) (encode_key_bytes rest)))
  end.

Definition encode_key_component (raw : string) : string :=
  let trimmed := trim raw in
  if is_empty trimmed then "_" else encode_key_bytes trimmed.

Definition encode_labeled_key_component (label raw : string) : string :=
  let encoded := encode_key_component raw in
  label +:+ pretty (str_len encoded) +:+ ":" +:+ encoded.

Definition storage_key (k : ConversationKey) : string :=
  encode_labeled_key_component "ms" (ck_memory_space_id k) +:+ "__"
  +:+ encode_labeled_key_component "ch" (ck_channel_id k) +:+ "__"
  +:+ encode_labeled_key_component "cv" (ck_conversation_id k).

Definition turn_storage_key (k : ConversationKey) (turn_id : string) : string :=
  storage_key k +:+ "__" +:+ encode_labeled_key_component "turn" turn_id.

(** [require_canonical_transcript_query_component] *)
Definition canonical_component (value : string) : bool :=
  negb (is_empty value || negb (String.eqb (trim value) value) || has_control value
        || (512 <? str_len value)).

Definition require_canonical_transcript_query_component (value field : string) : result unit :=
  ensure (canonical_component value)
    (Config "conversation_transcript_query" (field +:+ "_must_be_canonical")).

Record TranscriptConversationAlias := mkAlias {
  al_memory_space_id : string;
  al_mounted_subject_id : string;
  al_channel_id : string;
  al_chat_id : string;
  al_conversation_id : string;
  al_updated_at : N;
}.

Definition alias_validate (a : TranscriptConversationAlias) : result unit :=
  _ ← conversation_key_new (al_memory_space_id a) (al_channel_id a) (al_conversation_id a);
  _ ← ensure (negb (blank (al_mounted_subject_id a)))
        (Config "conversation_transcript_alias" "mounted_subject_id must not be empty");
  ensure (negb (blank (al_chat_id a)))
    (Config "conversation_transcript_alias" "chat_id must not be empty").

Definition validate_for_transcript_owner (a : TranscriptConversationAlias) (k : ConversationKey)
    (mounted_subject_id : string) : result unit :=
  _ ← alias_validate a;
  _ ← conversation_key_validate k;
  _ ← require_canonical_transcript_query_component mounted_subject_id "mounted_subject_id";
  ensure (String.eqb (al_memory_space_id a) (ck_memory_space_id k)
          && String.eqb (al_mounted_subject_id a) mounted_subject_id
          && String.eqb (al_channel_id a) (ck_channel_id k)
          && String.eqb (al_conversation_id a) (ck_conversation_id k))
    (Config "conversation_transcript_append" "conversation_alias_must_match_transcript_owner").

(** ** Host references and lifecycle *)

Inductive HostRefRelation := RefOrigin | RefEvidenceFor | RefTrigger | RefRelated.
Inductive HostRefVisibility :=
| VisInternal | VisHostUi | VisModelContext | VisOperatorAudit | VisExport.

Record HostOpaqueRef := mkHostRef {
  hr_host_kind : string;
  hr_business_ref_type : string;
  hr_business_ref_id : string;
  hr_relation : HostRefRelation;
  hr_visibility : HostRefVisibility;
  hr_label : option string;
}.

#[global] Instance host_ref_relation_eq_dec : EqDecision HostRefRelation.
Proof. solve_decision. Defined.
#[global] Instance host_ref_visibility_eq_dec : EqDecision HostRefVisibility.
Proof. solve_decision. Defined.
#[global] Instance host_ref_eq_dec : EqDecision HostOpaqueRef.
Proof. solve_decision. Defined.
#[global] Instance turn_source_eq_dec : EqDecision MemoryTurnSource.
Proof. solve_decision. Defined.
#[global] Instance observation_eq_dec : EqDecision ToolObservationDigest.
Proof. solve_decision. Defined.
#[global] Instance actor_eq_dec : EqDecision ActorAttribution.
Proof. solve_decision. Defined.

Inductive TranscriptLifecycleState := LcActive | LcArchived | LcMasked | LcRawDeleted.
Inductive TranscriptRedactionState := RawAvailable | RawMasked | RawGone.
Inductive TranscriptLifecycleTransition := Archive | Restore | Mask | DeleteRaw.

#[global] Instance lifecycle_state_eq_dec : EqDecision TranscriptLifecycleState.
Proof. solve_decision. Defined.
#[global] Instance lifecycle_transition_eq_dec : EqDecision TranscriptLifecycleTransition.
Proof. solve_decision. Defined.
#[global] Instance redaction_state_eq_dec : EqDecision TranscriptRedactionState.
Proof. solve_decision. Defined.

Record TranscriptMessageRecord := mkMessageRecord {
  tm_message_id : string;
  tm_turn_id : string;
  tm_sequence : N;
  tm_role : string;
  tm_content : string;
  tm_authority : MemoryEvidenceAuthority;
  tm_observed_at : N;
  tm_created_at : N;
  tm_actor : ActorAttribution;
}.

Record TranscriptAssistantMessageRecord := mkAssistantRecord {
  ta_message : TranscriptMessageRecord;
  ta_settlement : AssistantMessageSettlement;
}.

#[global] Instance message_record_eq_dec : EqDecision TranscriptMessageRecord.
Proof. solve_decision. Defined.
#[global] Instance assistant_record_eq_dec : EqDecision TranscriptAssistantMessageRecord.
Proof. solve_decision. Defined.

(** The learning evidence of [post_turn_learning.rs], a module of its own: what
    binds it to a turn, and its contract. *)
Class LearningEvidence := {
  PostTurnLearningEvidence : Type;
  #[global] evidence_eq_dec :: EqDecision PostTurnLearningEvidence;
  le_memory_space_id : PostTurnLearningEvidence → string;
  le_mounted_subject_id : PostTurnLearningEvidence → string;
  le_conversation_id : PostTurnLearningEvidence → string;
  le_turn_id : PostTurnLearningEvidence → string;
  le_canonical_turn_digest : PostTurnLearningEvidence → string;
  le_validate_contract : PostTurnLearningEvidence → bool;
}.

Record TranscriptTurnRecord `{LearningEvidence} := mkTurnRecord {
  tt_factual_admission_revision : N;
  tt_key : ConversationKey;
  tt_turn_id : string;
  tt_session_chat_id : string;
  tt_canonical_turn_digest : string;
  tt_sequence : N;
  tt_delivery_status : MemoryTurnDeliveryStatus;
  tt_source : MemoryTurnSource;
  tt_subject : string;
  tt_actor : ActorAttribution;
  tt_input_messages : list TranscriptMessageRecord;
  tt_assistant_messages : list TranscriptAssistantMessageRecord;
  tt_tool_observations : list ToolObservationDigest;
  tt_host_refs : list HostOpaqueRef;
  tt_learning_evidence : option PostTurnLearningEvidence;
  tt_external_content_used : bool;
  tt_candidate_ids : list string;
  tt_lifecycle_state : TranscriptLifecycleState;
  tt_redaction_state : TranscriptRedactionState;
  tt_created_at : N;
  tt_updated_at : N;
}.
Arguments mkTurnRecord {_} _ _ _ _ _ _ _ _ _ _ _ _ _ _ _ _ _ _ _ _ _.

#[global] Instance turn_record_eq_dec `{LearningEvidence} : EqDecision TranscriptTurnRecord.
Proof. solve_decision. Defined.

(** The messages of a record, inputs first. *)
Definition record_messages `{LearningEvidence} (r : TranscriptTurnRecord)
    : list TranscriptMessageRecord :=
  tt_input_messages r ++ (ta_message <$> tt_assistant_messages r).
