(* ===== verification/Transcript.v ===== *)
(** * Transcripts: records of turns and their lifecycle

    Model of [crates/core/src/memory/transcript.rs] and the validators of
    [turn_commit.rs]: what makes a submitted turn admissible, the record built
    from it, the contract of a stored record, its lifecycle transitions, and
    the validation of an append. *)

From S2P Require Import Prelude RustStr StoreTypes ReadSession LongTermEntry TurnTypes.

Local Open Scope string_scope.
Local Open Scope list_scope.
Local Open Scope N_scope.

(** [serde_json::to_vec] of a turn and [format!("{:x}", Sha256::digest(b))]. *)
Class TurnCodec := {
  turn_sha256_hex : bytes → string;
  delta_to_vec : CanonicalTurnDelta → string + bytes;
}.

(** ** Admissible turns *)

Definition canonical_id (value : string) : bool :=
  negb (is_empty value) && (str_len value <=? 256) && String.eqb (trim value) value
  && negb (has_control value).

(** The iteration stops at the first observation that is not canonical or
    repeats an identity. *)
Fixpoint observations_bad (observation_ids call_ids : gset string)
    (l : list ToolObservationDigest) : bool :=
  match l with
  | [] => false
  | o :: l' =>
      negb (canonical_id (to_observation_id o)) || negb (canonical_id (to_call_id o))
      || negb (canonical_id (to_tool_name o))
      || bool_decide (to_observation_id o ∈ observation_ids)
      || bool_decide (to_call_id o ∈ call_ids)
      || observations_bad ({[to_observation_id o]} ∪ observation_ids)
           ({[to_call_id o]} ∪ call_ids) l'
  end.

Definition validate_tool_observation_identities (l : list ToolObservationDigest) : result unit :=
  ensure (negb ((MAX_PROCEDURAL_EVIDENCE_ITEMS <? len l) || observations_bad ∅ ∅ l))
    (Config "canonical_tool_observations"
       "tool observation identities must be canonical, bounded and unique").

Definition assistant_attribution_valid (authority : MemoryEvidenceAuthority)
    (speaker_kind speaker_id : string) : bool :=
  match authority with AssistantUtterance | AssistantSelfClaim => true | _ => false end
  && String.eqb speaker_kind "llm_agent" && negb (is_empty speaker_id)
  && (str_len speaker_id <=? 256) && String.eqb (trim speaker_id) speaker_id
  && negb (has_control speaker_id).

(** Every interrupted prefix is the last one. *)
Fixpoint only_last_interrupted (l : list AssistantMessageSettlement) : bool :=
  match l with
  | [] => true
  | s :: l' =>
      (bool_decide (s ≠ InterruptedDeliveredPrefix) || match l' with [] => true | _ => false end)
      && only_last_interrupted l'
  end.

Definition assistant_settlements_valid (status : MemoryTurnDeliveryStatus)
    (settlements : list AssistantMessageSettlement) : bool :=
  if MAX_ASSISTANT_MESSAGES_PER_TURN <? len settlements then false
  else match status with
       | Delivered =>
           match settlements with [] => false | _ => true end
           && forallb (λ s, bool_decide (s = SettledComplete)) settlements
       | Cancelled | UpstreamFailed | IncompleteStream => only_last_interrupted settlements
       | UserOnly | RejectedByPolicy => match settlements with [] => true | _ => false end
       end.

Definition assistant_message_bad (m : TranscriptInputMessage) : bool :=
  negb (is_role m "assistant") || blank (im_content m)
  || (MAX_SESSION_MESSAGE_LEN <? str_len (im_content m))
  || negb (assistant_attribution_valid (im_authority m) (im_speaker_kind m) (im_speaker_id m)).

Definition actor_contradicts (actor : option ActorAttribution) (subject : string) : bool :=
  match actor ≫= aa_subject_id with
  | Some s => negb (String.eqb s subject)
  | None => false
  end.

Definition validate_assistant_messages (d : CanonicalTurnDelta) : result unit :=
  let messages := td_assistant_messages d in
  ensure (negb (negb (assistant_settlements_valid (td_delivery_status d)
                        (am_settlement <$> messages))
                || (MAX_SESSION_ENTRIES
                    <? saturating_add (len (td_input_messages d)) (len messages))
                || actor_contradicts (td_actor d) (td_subject d)
                || existsb (λ a, assistant_message_bad (am_message a)) messages))
    (Config "canonical_turn_assistant_messages"
       "assistant messages must be bounded, ordered, settled, and match turn delivery status").

(** ** Reports of a session commit *)

Record CommittedSessionMessage := mkCommitted {
  cm_message_id : string;
  cm_role : string;
  cm_authority : MemoryEvidenceAuthority;
  cm_content_chars : N;
  cm_content_bytes : N;
  cm_observed_at : N;
  cm_created_at : N;
  cm_speaker_id : string;
  cm_speaker_kind : string;
}.

Definition canonical_sha256_digest (value : string) : bool :=
  match strip_prefix "sha256:" value with
  | Some hex => (str_len hex =? 64) && forallb is_lower_hex (String.list_ascii_of_string hex)
  | None => false
  end.

Section Transcript.
Context {codec : TurnCodec} {learning : LearningEvidence}.

Definition CANONICAL_TURN_LEARNING_DIGEST_DOMAIN := "canonical_turn_learning_digest_v2".

Definition canonical_turn_learning_digest (d : CanonicalTurnDelta) : result string :=
  _ ← validate_tool_observation_identities (td_tool_observations d);
  _ ← validate_assistant_messages d;
  encoded ← match delta_to_vec d with
            | inl message => Err (Config "canonical_turn_learning_digest" message)
            | inr b => Ok b
            end;
  Ok ("sha256:" +:+ turn_sha256_hex
        (foldl update_read_digest [] [str_bytes CANONICAL_TURN_LEARNING_DIGEST_DOMAIN; encoded])).

(** ** Records *)

Definition from_committed_input (turn_id : string) (sequence : N) (m : TranscriptInputMessage)
    (c : CommittedSessionMessage) (subject_id : string) (turn_actor : option ActorAttribution)
    : TranscriptMessageRecord :=
  mkMessageRecord (cm_message_id c) turn_id sequence (cm_role c) (im_content m) (cm_authority c)
    (cm_observed_at c) (cm_created_at c)
    (with_speaker (inherited_actor turn_actor subject_id) (cm_speaker_id c) (cm_speaker_kind c)).

Definition validate_key_matches_delta (k : ConversationKey) (d : CanonicalTurnDelta)
    : result unit :=
  _ ← validate_tool_observation_identities (td_tool_observations d);
  _ ← ensure (String.eqb (ck_channel_id k) (trim (cv_channel (td_conversation d))))
        (Config "transcript_turn_record" "conversation key channel does not match delta");
  ensure (String.eqb (ck_conversation_id k) (trim (delta_conversation_id d)))
    (Config "transcript_turn_record" "conversation key conversation_id does not match delta").

Record TranscriptTurnRecordAttachments := mkAttachments {
  at_host_refs : list HostOpaqueRef;
  at_learning_evidence : option PostTurnLearningEvidence;
}.

(** The loop of [from_committed_messages]: it splits the messages into inputs
    and assistant messages, which come last and take the settlements of the
    delta in order. *)
Fixpoint split_committed (d : CanonicalTurnDelta) (actor : ActorAttribution) (index : N)
    (l : list (TranscriptInputMessage * CommittedSessionMessage))
    (inputs : list TranscriptMessageRecord) (assistants : list TranscriptAssistantMessageRecord)
    (assistant_started : bool)
    : result (list TranscriptMessageRecord * list TranscriptAssistantMessageRecord) :=
  match l with
  | [] => Ok (inputs, assistants)
  | (m, c) :: l' =>
      let record := from_committed_input (td_turn_id d) (saturating_add index 1) m c
                      (td_subject d) (Some actor) in
      if eq_ignore_ascii_case (tm_role record) "assistant" then
        match td_assistant_messages d !! length assistants with
        | None => Err (Config "conversation_transcript_intake" "assistant settlement missing")
        | Some a =>
            split_committed d actor (index + 1) l' inputs
              (assistants ++ [mkAssistantRecord record (am_settlement a)]) true
        end
      else if assistant_started then
        Err (Config "conversation_transcript_intake" "input follows assistant settlement")
      else split_committed d actor (index + 1) l' (inputs ++ [record]) assistants false
  end.

Definition from_committed_messages (k : ConversationKey) (sequence : N) (d : CanonicalTurnDelta)
    (committed_inputs : list TranscriptInputMessage)
    (committed_messages : list CommittedSessionMessage)
    (attachments : TranscriptTurnRecordAttachments) (now_secs : N)
    : result TranscriptTurnRecord :=
  _ ← validate_key_matches_delta k d;
  _ ← validate_assistant_messages d;
  _ ← ensure (len committed_inputs =? len committed_messages)
        (Config "conversation_transcript_intake" "session/transcript message count mismatch");
  let actor := inherited_actor (td_actor d) (td_subject d) in
  split ← split_committed d actor 0 (zip committed_inputs committed_messages) [] [] false;
  _ ← ensure (len split.2 =? len (td_assistant_messages d))
        (Config "conversation_transcript_intake" "assistant settlement count mismatch");
  digest ← canonical_turn_learning_digest d;
  Ok (mkTurnRecord 0 k (td_turn_id d) (cv_chat_id (td_conversation d)) digest sequence
        (td_delivery_status d) (td_source d) (td_subject d) actor split.1 split.2
        (td_tool_observations d) (at_host_refs attachments) (at_learning_evidence attachments)
        (td_external_content_used d) (td_candidate_ids d) LcActive RawAvailable now_secs now_secs).

(** ** The contract of a record *)

Definition lifecycle_valid (l : TranscriptLifecycleState) (r : TranscriptRedactionState) : bool :=
  match l, r with
  | LcActive, RawAvailable | LcArchived, RawAvailable | LcArchived, RawMasked
  | LcMasked, RawMasked | LcRawDeleted, RawGone => true
  | _, _ => false
  end.

(** Something raw that a raw-deleted record must not have. *)
Definition has_raw_payload (r : TranscriptTurnRecord) : bool :=
  match tt_tool_observations r with [] => false | _ => true end
  || match tt_learning_evidence r with None => false | Some _ => true end
  || existsb (λ h, bool_decide (is_Some (hr_label h))) (tt_host_refs r)
  || existsb (λ m, negb (is_empty (tm_content m))) (record_messages r).

Definition assistant_record_bad (r : TranscriptTurnRecord) (m : TranscriptMessageRecord) : bool :=
  negb (eq_ignore_ascii_case (tm_role m) "assistant")
  || (bool_decide (tt_redaction_state r = RawAvailable) && blank (tm_content m))
  || (MAX_SESSION_MESSAGE_LEN <? str_len (tm_content m))
  || negb (bool_decide (aa_subject_id (tm_actor m) = Some (tt_subject r)))
  || negb (assistant_attribution_valid (tm_authority m) (aa_speaker_kind (tm_actor m))
             (aa_speaker_id (tm_actor m))).

Definition assistant_shape_bad (r : TranscriptTurnRecord) : bool :=
  negb (assistant_settlements_valid (tt_delivery_status r)
          (ta_settlement <$> tt_assistant_messages r))
  || (MAX_SESSION_ENTRIES
      <? saturating_add (len (tt_input_messages r)) (len (tt_assistant_messages r)))
  || negb (bool_decide (aa_subject_id (tt_actor r) = Some (tt_subject r)))
  || existsb (λ a, assistant_record_bad r (ta_message a)) (tt_assistant_messages r).

Fixpoint messages_bad (turn_id : string) (index : N) (seen : gset string)
    (l : list TranscriptMessageRecord) : bool :=
  match l with
  | [] => false
  | m :: l' =>
      is_empty (tm_message_id m) || bool_decide (tm_message_id m ∈ seen)
      || negb (String.eqb (tm_turn_id m) turn_id)
      || (MAX_SESSION_MESSAGE_LEN <? str_len (tm_content m))
      || negb (tm_sequence m =? saturating_add index 1)
      || messages_bad turn_id (index + 1) ({[tm_message_id m]} ∪ seen) l'
  end.

Definition validate_canonical_intake (r : TranscriptTurnRecord) : result unit :=
  _ ← validate_tool_observation_identities (tt_tool_observations r);
  _ ← require_canonical_transcript_query_component (tt_session_chat_id r) "session_chat_id";
  _ ← ensure (negb (negb (lifecycle_valid (tt_lifecycle_state r) (tt_redaction_state r))
                    || (bool_decide (tt_lifecycle_state r = LcRawDeleted) && has_raw_payload r)))
        (Config "conversation_transcript_intake"
           "transcript lifecycle and redaction payload differ");
  _ ← ensure (negb (assistant_shape_bad r))
        (Config "conversation_transcript_intake" "assistant settlement shape is invalid");
  _ ← ensure (negb (messages_bad (tt_turn_id r) 0 ∅ (record_messages r)))
        (Config "conversation_transcript_intake" "message identities or order are invalid");
  ensure (canonical_sha256_digest (tt_canonical_turn_digest r)
          && match tt_learning_evidence r with
             | Some e => String.eqb (le_canonical_turn_digest e) (tt_canonical_turn_digest r)
             | None => true
             end)
    (Config "conversation_transcript_intake"
       "canonical intake digest is missing, invalid, or differs from learning evidence").

(** ** Lifecycle *)

Definition redact_raw (m : TranscriptMessageRecord) : TranscriptMessageRecord :=
  mkMessageRecord (tm_message_id m) (tm_turn_id m) (tm_sequence m) (tm_role m) ""
    (tm_authority m) (tm_observed_at m) (tm_created_at m) (tm_actor m).

Definition without_label (h : HostOpaqueRef) : HostOpaqueRef :=
  mkHostRef (hr_host_kind h) (hr_business_ref_type h) (hr_business_ref_id h) (hr_relation h)
    (hr_visibility h) None.

Definition with_states (r : TranscriptTurnRecord) (l : TranscriptLifecycleState)
    (red : TranscriptRedactionState) : TranscriptTurnRecord :=
  mkTurnRecord (tt_factual_admission_revision r) (tt_key r) (tt_turn_id r) (tt_session_chat_id r)
    (tt_canonical_turn_digest r) (tt_sequence r) (tt_delivery_status r) (tt_source r)
    (tt_subject r) (tt_actor r) (tt_input_messages r) (tt_assistant_messages r)
    (tt_tool_observations r) (tt_host_refs r) (tt_learning_evidence r)
    (tt_external_content_used r) (tt_candidate_ids r) l red (tt_created_at r) (tt_updated_at r).

Definition with_updated_at (r : TranscriptTurnRecord) (updated_at : N) : TranscriptTurnRecord :=
  mkTurnRecord (tt_factual_admission_revision r) (tt_key r) (tt_turn_id r) (tt_session_chat_id r)
    (tt_canonical_turn_digest r) (tt_sequence r) (tt_delivery_status r) (tt_source r)
    (tt_subject r) (tt_actor r) (tt_input_messages r) (tt_assistant_messages r)
    (tt_tool_observations r) (tt_host_refs r) (tt_learning_evidence r)
    (tt_external_content_used r) (tt_candidate_ids r) (tt_lifecycle_state r)
    (tt_redaction_state r) (tt_created_at r) updated_at.

(** The branch [DeleteRaw]. *)
Definition erased (r : TranscriptTurnRecord) : TranscriptTurnRecord :=
  mkTurnRecord (tt_factual_admission_revision r) (tt_key r) (tt_turn_id r) (tt_session_chat_id r)
    (tt_canonical_turn_digest r) (tt_sequence r) (tt_delivery_status r) (tt_source r)
    (tt_subject r) (tt_actor r) (redact_raw <$> tt_input_messages r)
    ((λ a, mkAssistantRecord (redact_raw (ta_message a)) (ta_settlement a))
       <$> tt_assistant_messages r)
    [] (without_label <$> tt_host_refs r) None (tt_external_content_used r) (tt_candidate_ids r)
    LcRawDeleted RawGone (tt_created_at r) (tt_updated_at r).

Definition apply_lifecycle_transition (t : TranscriptLifecycleTransition) (updated_at : N)
    (r : TranscriptTurnRecord) : TranscriptTurnRecord :=
  if bool_decide (tt_lifecycle_state r = LcRawDeleted) then r
  else
    let next :=
      match t with
      | Archive => with_states r LcArchived (tt_redaction_state r)
      | Restore =>
          if bool_decide (tt_redaction_state r = RawAvailable)
          then with_states r LcActive (tt_redaction_state r) else r
      | Mask => with_states r LcMasked RawMasked
      | DeleteRaw => erased r
      end in
    if bool_decide (next = r) then next else with_updated_at next updated_at.

Definition is_searchable_for_presentation (r : TranscriptTurnRecord) : bool :=
  match tt_lifecycle_state r with LcActive | LcArchived => true | _ => false end
  && bool_decide (tt_redaction_state r = RawAvailable).

Definition permits_post_turn_learning (r : TranscriptTurnRecord) : bool :=
  match tt_lifecycle_state r with LcActive | LcArchived => true | _ => false end
  && bool_decide (tt_redaction_state r = RawAvailable).

Definition query_index_eligible (m : TranscriptMessageRecord) : bool :=
  (eq_ignore_ascii_case (tm_role m) "user" || eq_ignore_ascii_case (tm_role m) "assistant")
  && match tm_authority m with
     | PrivateGardenInternal | SoulGovernance | OperatorDiagnosticAuthority => false
     | _ => true
     end.

(** ** Evidence references *)

Definition is_available_in (e : TranscriptEvidenceRef) (r : TranscriptTurnRecord) : bool :=
  String.eqb (ev_memory_space_id e) (ck_memory_space_id (tt_key r))
  && String.eqb (ev_channel_id e) (ck_channel_id (tt_key r))
  && String.eqb (ev_conversation_id e) (ck_conversation_id (tt_key r))
  && String.eqb (ev_turn_id e) (tt_turn_id r)
  && bool_decide (ev_subject_id e = Some (tt_subject r))
  && bool_decide (tt_redaction_state r = RawAvailable)
  && match tt_lifecycle_state r with LcActive | LcArchived => true | _ => false end
  && match ev_message_id e with
     | Some id =>
         existsb (λ m, String.eqb (tm_message_id m) id
                       && bool_decide (ev_authority e = Some (tm_authority m)))
           (record_messages r)
     | None => bool_decide (ev_authority e = None)
     end.

Definition evidence_from_message (k : ConversationKey) (r : TranscriptTurnRecord)
    (m : TranscriptMessageRecord) : TranscriptEvidenceRef :=
  mkEvidenceRef (ck_memory_space_id k) (ck_channel_id k) (ck_conversation_id k) (tt_turn_id r)
    (Some (tm_message_id m)) (Some (tt_subject r)) (Some (tm_authority m)).

(** ** Appends *)

Record TranscriptAppendIntent := mkAppendIntent {
  ai_record : TranscriptTurnRecord;
  ai_conversation_alias : option TranscriptConversationAlias;
}.

Definition append_intent_validate (i : TranscriptAppendIntent) : result unit :=
  let r := ai_record i in
  _ ← validate_canonical_intake r;
  _ ← conversation_key_validate (tt_key r);
  _ ← require_canonical_transcript_query_component (tt_subject r) "record.subject";
  _ ← ensure (negb (existsb (λ m, MAX_SESSION_MESSAGE_LEN <? str_len (tm_content m))
                      (record_messages r)))
        (Config "conversation_transcript_append" "transcript_message_content_budget_exceeded");
  _ ← match ai_conversation_alias i with
      | Some a => validate_for_transcript_owner a (tt_key r) (tt_subject r)
      | None => Ok tt
      end;
  match tt_learning_evidence r with
  | Some e =>
      ensure (le_validate_contract e
              && String.eqb (le_memory_space_id e) (ck_memory_space_id (tt_key r))
              && String.eqb (le_mounted_subject_id e) (tt_subject r)
              && String.eqb (le_conversation_id e) (ck_conversation_id (tt_key r))
              && String.eqb (le_turn_id e) (tt_turn_id r))
        (Config "conversation_transcript_append"
           "learning evidence must bind the exact transcript owner")
  | None => Ok tt
  end.

Record CanonicalTurnAppendIntent := mkCanonicalAppend {
  ca_session_chat_id : string;
  ca_session_before : list SessionMessage;
  ca_session_append : list SessionMessage;
  ca_transcript : TranscriptAppendIntent;
}.

Definition session_matches (s : SessionMessage) (m : TranscriptMessageRecord) : bool :=
  String.eqb (sm_message_id s) (tm_message_id m)
  && String.eqb (sm_role s) (tm_role m)
  && String.eqb (sm_content s) (tm_content m)
  && (sm_observed_at s =? tm_observed_at m)
  && (sm_created_at s =? tm_created_at m)
  && String.eqb (sm_speaker_id s) (aa_speaker_id (tm_actor m))
  && String.eqb (sm_speaker_kind s) (aa_speaker_kind (tm_actor m)).

Fixpoint repeats_id (prior : list SessionMessage) (l : list SessionMessage) : bool :=
  match l with
  | [] => false
  | m :: l' =>
      existsb (λ p, String.eqb (sm_message_id p) (sm_message_id m)) prior
      || repeats_id (prior ++ [m]) l'
  end.

Definition session_message_bad (m : SessionMessage) : bool :=
  blank (sm_message_id m) || blank (sm_role m)
  || (MAX_SESSION_MESSAGE_LEN <? str_len (sm_content m)).

Definition canonical_append_validate (i : CanonicalTurnAppendIntent) : result unit :=
  let r := ai_record (ca_transcript i) in
  let before := ca_session_before i in
  let append := ca_session_append i in
  _ ← append_intent_validate (ca_transcript i);
  _ ← require_canonical_transcript_query_component (ca_session_chat_id i) "session_chat_id";
  _ ← ensure (String.eqb (tt_session_chat_id r) (ca_session_chat_id i))
        (Config "canonical_turn_append" "session_chat_owner_mismatch");
  _ ← ensure (match ai_conversation_alias (ca_transcript i) with
              | Some a => String.eqb (al_chat_id a) (ca_session_chat_id i)
              | None => true
              end)
        (Config "canonical_turn_append" "session_alias_owner_mismatch");
  let messages := record_messages r in
  let valid :=
    match append with
    | [] => forallb (λ m, existsb (λ s, session_matches s m) before) messages
    | _ => (len append =? len messages)
           && forallb (λ p, session_matches p.1 p.2) (zip append messages)
    end in
  ensure (negb (negb valid
                || existsb (λ m, existsb (λ p, String.eqb (sm_message_id p) (sm_message_id m))
                                   before) append
                || repeats_id [] append
                || existsb session_message_bad append))
    (Config "canonical_turn_append" "session_transcript_post_image_mismatch").

End Transcript.
