(* ===== verification/TurnCommit.v ===== *)
(** * Transcripts: committing a turn

    Model of [plan_canonical_turn_delta_with_transcript] and
    [CanonicalTurnTranscriptCommitPlan::commit_with] of
    [crates/core/src/memory/turn_commit.rs].  The session store and the
    transcript store are the traits of the source: a class of operations on a
    state, with what the theorems assume of it as laws.  A turn is planned
    from what the stores answered and appended later, in a state other callers
    may have changed meanwhile. *)

From S2P Require Import Prelude RustStr StoreTypes ReadSession LongTermEntry TurnTypes Transcript.

Local Open Scope string_scope.
Local Open Scope list_scope.
Local Open Scope N_scope.

(** ** Reports *)

Record SessionTurnCommitReport := mkSessionCommit {
  sc_attempted : bool;
  sc_committed : bool;
  sc_chat_id : string;
  sc_before_count : N;
  sc_after_count : N;
  sc_committed_messages : list CommittedSessionMessage;
  sc_skipped_reason : option string;
}.

Record TranscriptCommitReport := mkTranscriptCommit {
  tc_key : ConversationKey;
  tc_turn_id : string;
  tc_sequence : N;
  tc_committed : bool;
  tc_before_count : N;
  tc_after_count : N;
  tc_skipped_reason : option string;
}.

Record CanonicalTurnTranscriptCommitReport := mkTurnCommitReport {
  tr_session_commit : SessionTurnCommitReport;
  tr_transcript_commit : option TranscriptCommitReport;
}.

Record PreparedCanonicalTurnCommit := mkPrepared {
  pc_before_count : N;
  pc_messages : list TranscriptInputMessage;
  pc_skipped_reason : option string;
}.

(** ** What a turn commits *)

Definition skipped_reason (status : MemoryTurnDeliveryStatus) : string :=
  match status with
  | Delivered => "empty_delivered_turn"
  | UserOnly => "empty_user_turn"
  | UpstreamFailed => "empty_failed_turn"
  | Cancelled => "empty_cancelled_turn"
  | IncompleteStream => "incomplete_stream"
  | RejectedByPolicy => "rejected_by_policy"
  end.

Definition user_input (m : TranscriptInputMessage) : bool :=
  is_role m "user" && negb (blank (im_content m)).

Definition prepare_canonical_turn_delta (before_count : N) (d : CanonicalTurnDelta)
    : PreparedCanonicalTurnCommit :=
  let user_delta := List.filter user_input (td_input_messages d) in
  let assistant_messages := am_message <$> td_assistant_messages d in
  let messages :=
    match td_delivery_status d with
    | Delivered | UserOnly | UpstreamFailed | Cancelled => user_delta ++ assistant_messages
    | IncompleteStream =>
        match td_assistant_messages d with
        | [] => []
        | _ => user_delta ++ assistant_messages
        end
    | RejectedByPolicy => []
    end in
  mkPrepared before_count messages
    (match messages with [] => Some (skipped_reason (td_delivery_status d)) | _ => None end).

(** The user messages after the last assistant message of a history window. *)
Fixpoint after_last_assistant (l : list TranscriptInputMessage)
    : option (list TranscriptInputMessage) :=
  match l with
  | [] => None
  | m :: l' =>
      match after_last_assistant l' with
      | Some rest => Some rest
      | None => if is_role m "assistant" then Some l' else None
      end
  end.

Definition protocol_window_user_delta (l : list TranscriptInputMessage)
    : list TranscriptInputMessage :=
  List.filter user_input (default l (after_last_assistant l)).

Definition committed_of (p : SessionMessage * MemoryEvidenceAuthority)
    : CommittedSessionMessage :=
  let m := p.1 in
  mkCommitted (sm_message_id m) (sm_role m) p.2 (char_count (sm_content m))
    (str_len (sm_content m)) (sm_observed_at m) (sm_created_at m) (sm_speaker_id m)
    (sm_speaker_kind m).

Section TurnCommit.
Context {codec : TurnCodec} {learning : LearningEvidence}.

Definition turn_message_id (k : ConversationKey) (d : CanonicalTurnDelta) (index : N) : string :=
  "msg_" +:+ turn_sha256_hex
    (foldl update_read_digest []
       (str_bytes <$> ["bm.canonical-turn.message.v1"; ck_memory_space_id k; ck_channel_id k;
                       ck_conversation_id k; td_subject d; td_turn_id d])
     ++ be_bytes index).

Definition session_messages_of (k : ConversationKey) (d : CanonicalTurnDelta)
    (messages : list TranscriptInputMessage) (now : N)
    : list (SessionMessage * MemoryEvidenceAuthority) :=
  imap (λ i m, (into_session_message m (turn_message_id k d (N.of_nat i)) now now,
                im_authority m)) messages.

Definition plan_prepared_session_messages (k : ConversationKey) (d : CanonicalTurnDelta)
    (prepared : PreparedCanonicalTurnCommit) (now : N)
    : list SessionMessage * SessionTurnCommitReport :=
  let chat_id := cv_chat_id (td_conversation d) in
  match pc_messages prepared with
  | [] =>
      ([], mkSessionCommit true false chat_id (pc_before_count prepared)
             (pc_before_count prepared) [] (pc_skipped_reason prepared))
  | messages =>
      let prepared_messages := session_messages_of k d messages now in
      let after_count :=
        N.min (saturating_add (pc_before_count prepared) (len prepared_messages))
          MAX_SESSION_ENTRIES in
      (prepared_messages.*1,
       mkSessionCommit true true chat_id (pc_before_count prepared) after_count
         (committed_of <$> prepared_messages) None)
  end.

Record CanonicalTurnTranscriptCommitOptions := mkCommitOptions {
  co_host_refs : list HostOpaqueRef;
  co_learning_evidence : option PostTurnLearningEvidence;
  co_conversation_alias : option TranscriptConversationAlias;
  co_now_secs : N;
}.

Record CanonicalTurnTranscriptCommitPlan := mkCommitPlan {
  cp_append : option CanonicalTurnAppendIntent;
  cp_report : CanonicalTurnTranscriptCommitReport;
}.

(** ** Planning *)

(** What the stores answered: the recent session records, the turn if it is
    known, and the number of turns. *)
Record stores_view := mkView {
  sv_session : result (list SessionMessageRecord);
  sv_turn : result (option TranscriptTurnRecord);
  sv_turn_count : result N;
}.

Definition already_committed := "conversation_transcript_turn_already_committed".

Definition check_learning_evidence (memory_space_id : string) (d : CanonicalTurnDelta)
    (evidence : option PostTurnLearningEvidence) : result unit :=
  let error := Config "post_turn_learning_evidence"
                 "learning evidence must bind the exact canonical turn owner and digest" in
  match evidence with
  | None => Ok tt
  | Some e =>
      if negb (le_validate_contract e)
         || negb (String.eqb (le_memory_space_id e) memory_space_id)
         || negb (String.eqb (le_mounted_subject_id e) (td_subject d))
         || negb (String.eqb (le_conversation_id e) (delta_conversation_id d))
         || negb (String.eqb (le_turn_id e) (td_turn_id d))
      then Err error
      else digest ← canonical_turn_learning_digest d;
           ensure (String.eqb (le_canonical_turn_digest e) digest) error
  end.

Definition check_alias (k : ConversationKey) (d : CanonicalTurnDelta)
    (alias : option TranscriptConversationAlias) : result unit :=
  match alias with
  | None => Ok tt
  | Some a =>
      _ ← validate_for_transcript_owner a k (td_subject d);
      ensure (String.eqb (al_chat_id a) (cv_chat_id (td_conversation d)))
        (Config "turn_transcript_commit" "conversation_alias_chat_id_must_match_turn_delta")
  end.

(** A turn that is known already is the same turn or a conflict. *)
Definition plan_known_turn (k : ConversationKey) (d : CanonicalTurnDelta)
    (options : CanonicalTurnTranscriptCommitOptions) (before_count : N)
    (existing : TranscriptTurnRecord) (turn_count : result N)
    : result CanonicalTurnTranscriptCommitPlan :=
  _ ← validate_canonical_intake existing;
  digest ← canonical_turn_learning_digest d;
  _ ← ensure (String.eqb (tt_canonical_turn_digest existing) digest
              && bool_decide (tt_host_refs existing = co_host_refs options)
              && bool_decide (tt_learning_evidence existing = co_learning_evidence options))
        (Conflict "canonical_turn_intake_conflict"
           "same turn cannot be committed with different canonical input, host references, or learning evidence");
  transcript_count ← turn_count;
  Ok (mkCommitPlan None
        (mkTurnCommitReport
           (mkSessionCommit true false (cv_chat_id (td_conversation d)) before_count before_count
              [] (Some already_committed))
           (Some (mkTranscriptCommit k (td_turn_id d) (tt_sequence existing) false
                    transcript_count transcript_count (Some already_committed))))).

Definition plan_new_turn (k : ConversationKey) (d : CanonicalTurnDelta)
    (options : CanonicalTurnTranscriptCommitOptions) (session_before : list SessionMessage)
    : result CanonicalTurnTranscriptCommitPlan :=
  let prepared := prepare_canonical_turn_delta (len session_before) d in
  let committed_inputs := pc_messages prepared in
  let planned := plan_prepared_session_messages k d prepared (co_now_secs options) in
  let session_append := planned.1 in
  let session_commit := planned.2 in
  if negb (sc_committed session_commit) then
    Ok (mkCommitPlan None (mkTurnCommitReport session_commit None))
  else
    _ ← ensure (len committed_inputs =? len (sc_committed_messages session_commit))
          (Config "turn_transcript_commit"
             "session commit and transcript commit message count diverged");
    record ← from_committed_messages k 0 d committed_inputs (sc_committed_messages session_commit)
               (mkAttachments (co_host_refs options) (co_learning_evidence options))
               (co_now_secs options);
    let intent := mkAppendIntent record (co_conversation_alias options) in
    _ ← append_intent_validate intent;
    let atomic := mkCanonicalAppend (cv_chat_id (td_conversation d)) session_before
                    session_append intent in
    _ ← canonical_append_validate atomic;
    Ok (mkCommitPlan (Some atomic) (mkTurnCommitReport session_commit None)).

Definition plan_canonical_turn_delta_with_transcript (memory_space_id : string)
    (d : CanonicalTurnDelta) (options : CanonicalTurnTranscriptCommitOptions)
    (view : ConversationKey → stores_view) : result CanonicalTurnTranscriptCommitPlan :=
  _ ← validate_assistant_messages d;
  k ← conversation_key_from_delta memory_space_id d;
  _ ← check_learning_evidence memory_space_id d (co_learning_evidence options);
  _ ← check_alias k d (co_conversation_alias options);
  recent_records ← sv_session (view k);
  let session_before := as_message <$> recent_records in
  existing ← sv_turn (view k);
  match existing with
  | Some existing =>
      plan_known_turn k d options (len session_before) existing (sv_turn_count (view k))
  | None => plan_new_turn k d options session_before
  end.

(** ** Committing *)

Definition transcript_refused (report : CanonicalTurnTranscriptCommitReport)
    (transcript_commit : TranscriptCommitReport) : CanonicalTurnTranscriptCommitReport :=
  let session := tr_session_commit report in
  mkTurnCommitReport
    (if tc_committed transcript_commit then session
     else mkSessionCommit (sc_attempted session) false (sc_chat_id session)
            (sc_before_count session) (sc_before_count session) []
            (tc_skipped_reason transcript_commit))
    (Some transcript_commit).

Definition commit_with {S} (plan : CanonicalTurnTranscriptCommitPlan)
    (append : CanonicalTurnAppendIntent → S → result TranscriptCommitReport * S) (s : S)
    : result CanonicalTurnTranscriptCommitReport * S :=
  match cp_append plan with
  | None => (Ok (cp_report plan), s)
  | Some intent =>
      match append intent s with
      | (Err e, s') => (Err e, s')
      | (Ok transcript_commit, s') => (Ok (transcript_refused (cp_report plan) transcript_commit), s')
      end
  end.

End TurnCommit.
