(* ===== verification/TranscriptView.v ===== *)
(** * Transcripts: redacted views

    Model of [RedactedTranscriptSlice::from_records_with_attrs] of
    [crates/core/src/memory/transcript.rs]: what a view of stored turns shows
    of their messages, attributes and host references, and the report of what
    it withholds. *)

From S2P Require Import Prelude RustStr StoreTypes ReadSession LongTermEntry TurnTypes Transcript.
From Stdlib Require Import Ascii.

Local Open Scope string_scope.
Local Open Scope list_scope.
Local Open Scope N_scope.

Inductive TranscriptReplayView :=
| RawOwnerOnly | ModelContextView | HostUiView | OperatorAuditView | ExportView.

Inductive TranscriptRedactionReason :=
| LifecycleMasked | RawDeletedReason | PrivateAuthority | HostRefVisibilityReason | HostRefLabel
| AttrVisibility | AttrValueBudget | AttrLifecyclePolicy | ProfileBudget | OperatorOnly
| ModelContextPolicy.

Inductive TranscriptAttrScope := AttrTurn | AttrMessage.
Inductive TranscriptAttrValueKind := KJsonObject | KJsonArray | KString | KNumber | KBoolean.
Inductive TranscriptAttrSourceKind :=
| HostReported | ProviderReported | GatewayCounted | HostEstimated | MemoryComputed | Unavailable.
Inductive TranscriptAttrRedactionPolicy :=
| FollowTranscript | MetadataSurvivesMask | OperatorAuditOnlyAfterMask.

#[global] Instance replay_view_eq_dec : EqDecision TranscriptReplayView.
Proof. solve_decision. Defined.
#[global] Instance redaction_reason_eq_dec : EqDecision TranscriptRedactionReason.
Proof. solve_decision. Defined.
#[global] Instance attr_scope_eq_dec : EqDecision TranscriptAttrScope.
Proof. solve_decision. Defined.
#[global] Instance attr_policy_eq_dec : EqDecision TranscriptAttrRedactionPolicy.
Proof. solve_decision. Defined.

(** [serde_json::Value]; numbers by their text. *)
Inductive Value :=
| VNull
| VBool (b : bool)
| VNumber (text : string)
| VString (s : string)
| VArray (l : list Value)
| VObject (fields : list (string * Value)).

Record TranscriptAttrTarget := mkAttrTarget {
  tg_key : ConversationKey;
  tg_scope : TranscriptAttrScope;
  tg_turn_id : string;
  tg_message_id : option string;
}.

Record TranscriptAttrSource := mkAttrSource {
  asr_writer : string;
  asr_source_kind : TranscriptAttrSourceKind;
  asr_written_at : N;
  asr_audit_reason : string;
}.

Record TranscriptAttrGovernance := mkAttrGovernance {
  ag_max_value_bytes : N;
  ag_redaction_policy : TranscriptAttrRedactionPolicy;
  ag_export_allowed : bool;
}.

Record TranscriptAttrLink := mkAttrLink {
  ak_relation : string;
  ak_ref_kind : string;
  ak_ref_id : string;
}.

Record TranscriptAttrEnvelope := mkAttr {
  ae_attr_id : string;
  ae_target : TranscriptAttrTarget;
  ae_key : string;
  ae_value_kind : TranscriptAttrValueKind;
  ae_schema_ref : option string;
  ae_value : Value;
  ae_visibility : HostRefVisibility;
  ae_source : TranscriptAttrSource;
  ae_governance : TranscriptAttrGovernance;
  ae_links : list TranscriptAttrLink;
  ae_created_at : N;
  ae_updated_at : N;
}.

(** [serde_json::to_vec] of an attribute value. *)
Class ValueCodec := { value_to_vec : Value → string + bytes }.

Record TranscriptRedactionReportItem := mkRedaction {
  ri_turn_id : string;
  ri_message_id : option string;
  ri_host_ref_index : option N;
  ri_attr_id : option string;
  ri_attr_key : option string;
  ri_reason : TranscriptRedactionReason;
  ri_source_authority : option MemoryEvidenceAuthority;
  ri_view : TranscriptReplayView;
}.

Record RedactedTranscriptMessage := mkRedactedMessage {
  rm_message_id : string;
  rm_role : string;
  rm_content : option string;
  rm_attrs : list TranscriptAttrEnvelope;
  rm_authority : MemoryEvidenceAuthority;
  rm_actor : ActorAttribution;
  rm_observed_at : N;
  rm_redacted : bool;
}.

Record RedactedTranscriptAssistantMessage := mkRedactedAssistant {
  ra_message : RedactedTranscriptMessage;
  ra_settlement : AssistantMessageSettlement;
}.

Record RedactedTranscriptTurn := mkRedactedTurn {
  rt_turn_id : string;
  rt_sequence : N;
  rt_subject : string;
  rt_actor : ActorAttribution;
  rt_delivery_status : MemoryTurnDeliveryStatus;
  rt_attrs : list TranscriptAttrEnvelope;
  rt_input_messages : list RedactedTranscriptMessage;
  rt_assistant_messages : list RedactedTranscriptAssistantMessage;
  rt_host_refs : list HostOpaqueRef;
  rt_lifecycle_state : TranscriptLifecycleState;
  rt_redaction_state : TranscriptRedactionState;
}.

Record TranscriptReplayAudit := mkReplayAudit {
  ra_view : TranscriptReplayView;
  ra_source_turns : N;
  ra_returned_turns : N;
  ra_redacted_messages : N;
  ra_redacted_host_refs : N;
  ra_redaction_reasons : list TranscriptRedactionReason;
}.

Record RedactedTranscriptSlice := mkSlice {
  sl_key : ConversationKey;
  sl_view : TranscriptReplayView;
  sl_turns : list RedactedTranscriptTurn;
  sl_redactions : list TranscriptRedactionReportItem;
  sl_audit : TranscriptReplayAudit;
}.

(** ** Attributes *)

Definition attr_error (message : string) : Error := Config "transcript_attr" message.

(** [split('.')] *)
Fixpoint split_dot (s : string) (current : string) : list string :=
  match s with
  | EmptyString => [current]
  | String c rest =>
      if Ascii.eqb c "." then current :: split_dot rest ""
      else split_dot rest (current +:+ String c "")
  end.

Definition validate_transcript_attr_key (key : string) : result unit :=
  let trimmed := trim key in
  _ ← ensure (String.eqb trimmed key && negb (is_empty trimmed))
        (attr_error "attr key must not be empty or padded");
  match split_dot trimmed "" with
  | [] => Err (attr_error "attr key must be namespaced")
  | owner :: remaining =>
      _ ← ensure (String.eqb owner "host" || String.eqb owner "memory")
            (attr_error "attr key must start with host. or memory.");
      _ ← ensure (negb ((len remaining <? 2) || existsb is_empty remaining))
            (attr_error "attr key must include namespace and name");
      ensure (forallb is_key_char (String.list_ascii_of_string trimmed))
        (attr_error "attr key contains unsupported characters")
  end.

Definition validate_transcript_attr_value_kind (kind : TranscriptAttrValueKind) (value : Value)
    : result unit :=
  ensure (match kind, value with
          | KJsonObject, VObject _ | KJsonArray, VArray _ | KString, VString _
          | KNumber, VNumber _ | KBoolean, VBool _ => true
          | _, _ => false
          end)
    (attr_error "attr value_kind does not match value").

Section View.
Context {learning : LearningEvidence} {values : ValueCodec}.

Definition attr_validate (a : TranscriptAttrEnvelope) : result unit :=
  _ ← ensure (negb (blank (ae_attr_id a))) (attr_error "attr_id must not be empty");
  _ ← validate_transcript_attr_key (ae_key a);
  _ ← ensure (negb (blank (tg_turn_id (ae_target a))))
        (attr_error "target turn_id must not be empty");
  _ ← match tg_scope (ae_target a) with
      | AttrTurn =>
          ensure (match tg_message_id (ae_target a) with None => true | Some _ => false end)
            (attr_error "turn scoped attr must not include message_id")
      | AttrMessage =>
          ensure (match tg_message_id (ae_target a) with
                  | None => false
                  | Some id => negb (blank id)
                  end)
            (attr_error "message scoped attr requires message_id")
      end;
  _ ← validate_transcript_attr_value_kind (ae_value_kind a) (ae_value a);
  _ ← ensure (negb (blank (asr_writer (ae_source a))))
        (attr_error "source writer must not be empty");
  _ ← ensure (negb (blank (asr_audit_reason (ae_source a))))
        (attr_error "source audit_reason must not be empty");
  _ ← ensure (negb (ag_max_value_bytes (ae_governance a) =? 0))
        (attr_error "max_value_bytes must be greater than zero");
  value_bytes ← match value_to_vec (ae_value a) with
                | inl message => Err (attr_error message)
                | inr b => Ok (len b)
                end;
  _ ← ensure (value_bytes <=? ag_max_value_bytes (ae_governance a))
        (attr_error "value exceeds max_value_bytes");
  _ ← ensure (ae_created_at a <=? ae_updated_at a)
        (attr_error "updated_at must be greater than or equal to created_at");
  ensure (negb (existsb (λ l, blank (ak_relation l) || blank (ak_ref_kind l)
                              || blank (ak_ref_id l)) (ae_links a)))
    (attr_error "attr links must include relation, ref_kind, and ref_id").

Definition record_has_message (r : TranscriptTurnRecord) (message_id : string) : bool :=
  existsb (λ m, String.eqb (tm_message_id m) message_id) (tt_input_messages r)
  || existsb (λ a, String.eqb (tm_message_id (ta_message a)) message_id)
       (tt_assistant_messages r).

Definition attr_validate_for_record (a : TranscriptAttrEnvelope) (r : TranscriptTurnRecord)
    : result unit :=
  _ ← attr_validate a;
  _ ← ensure (negb (bool_decide (tt_lifecycle_state r = LcRawDeleted)))
        (attr_error "raw-deleted transcript cannot receive attrs");
  _ ← ensure (bool_decide (tg_key (ae_target a) = tt_key r))
        (attr_error "attr target key does not match transcript turn key");
  _ ← ensure (String.eqb (tg_turn_id (ae_target a)) (tt_turn_id r))
        (attr_error "attr target turn_id does not match transcript turn");
  match tg_scope (ae_target a) with
  | AttrMessage =>
      ensure (record_has_message r (default "" (tg_message_id (ae_target a))))
        (attr_error "attr target message_id does not exist in transcript turn")
  | AttrTurn => Ok tt
  end.

Definition raw_deleted (r : TranscriptTurnRecord) : bool :=
  bool_decide (tt_redaction_state r = RawGone) || bool_decide (tt_lifecycle_state r = LcRawDeleted).
Definition masked (r : TranscriptTurnRecord) : bool :=
  bool_decide (tt_redaction_state r = RawMasked) || bool_decide (tt_lifecycle_state r = LcMasked).

Definition owner_or_operator (view : TranscriptReplayView) : bool :=
  match view with OperatorAuditView | RawOwnerOnly => true | _ => false end.

(** [json!({"redacted": true, "reason": "transcript_lifecycle"})], whose keys
    are in alphabetical order. *)
Definition redacted_value : Value :=
  VObject [("reason", VString "transcript_lifecycle"); ("redacted", VBool true)].

Definition transcript_attr_for_lifecycle (r : TranscriptTurnRecord) (a : TranscriptAttrEnvelope)
    (view : TranscriptReplayView) : TranscriptAttrEnvelope :=
  if negb (raw_deleted r || masked r)
     || negb (bool_decide (ag_redaction_policy (ae_governance a) = OperatorAuditOnlyAfterMask))
     || negb (owner_or_operator view)
  then a
  else
    let value_bytes := match value_to_vec redacted_value with inr b => len b | inl _ => 0 end in
    mkAttr (ae_attr_id a) (ae_target a) (ae_key a) KJsonObject
      (Some "memory.transcript.attr.redacted.v1") redacted_value (ae_visibility a) (ae_source a)
      (mkAttrGovernance (N.max (ag_max_value_bytes (ae_governance a)) (N.min u32_max value_bytes))
         (ag_redaction_policy (ae_governance a)) (ag_export_allowed (ae_governance a)))
      (ae_links a) (ae_created_at a) (ae_updated_at a).

Definition transcript_attr_visible_in_view (a : TranscriptAttrEnvelope)
    (view : TranscriptReplayView) : bool :=
  match view with
  | RawOwnerOnly => true
  | ModelContextView => bool_decide (ae_visibility a = VisModelContext)
  | HostUiView => bool_decide (ae_visibility a = VisHostUi)
  | OperatorAuditView =>
      match ae_visibility a with VisHostUi | VisOperatorAudit | VisExport => true | _ => false end
  | ExportView =>
      bool_decide (ae_visibility a = VisExport) && ag_export_allowed (ae_governance a)
  end.

Definition transcript_attr_redaction_reason (r : TranscriptTurnRecord)
    (a : TranscriptAttrEnvelope) (view : TranscriptReplayView)
    : option TranscriptRedactionReason :=
  let policy := ag_redaction_policy (ae_governance a) in
  if negb (transcript_attr_visible_in_view a view) then Some AttrVisibility
  else if raw_deleted r
          && match policy with
             | FollowTranscript | MetadataSurvivesMask => true
             | OperatorAuditOnlyAfterMask => negb (owner_or_operator view)
             end
  then Some AttrLifecyclePolicy
  else if masked r
          && match policy with
             | FollowTranscript => true
             | MetadataSurvivesMask => false
             | OperatorAuditOnlyAfterMask => negb (owner_or_operator view)
             end
  then Some AttrLifecyclePolicy
  else None.

Definition attr_targets (r : TranscriptTurnRecord) (message_id : option string)
    (a : TranscriptAttrEnvelope) : bool :=
  bool_decide (tg_key (ae_target a) = tt_key r)
  && String.eqb (tg_turn_id (ae_target a)) (tt_turn_id r)
  && match tg_scope (ae_target a), message_id with
     | AttrTurn, None =>
         match tg_message_id (ae_target a) with None => true | Some _ => false end
     | AttrMessage, Some _ => bool_decide (tg_message_id (ae_target a) = message_id)
     | _, _ => false
     end.

Definition attr_redaction (r : TranscriptTurnRecord) (message_id : option string)
    (view : TranscriptReplayView) (a : TranscriptAttrEnvelope)
    (reason : TranscriptRedactionReason) : TranscriptRedactionReportItem :=
  mkRedaction (tt_turn_id r) message_id None (Some (ae_attr_id a)) (Some (ae_key a)) reason None
    view.

(** Why an attribute of this target is withheld. *)
Definition attr_withheld (r : TranscriptTurnRecord) (a : TranscriptAttrEnvelope)
    (view : TranscriptReplayView) : option TranscriptRedactionReason :=
  if bool_decide (tt_lifecycle_state r = LcRawDeleted) then Some AttrLifecyclePolicy
  else if negb (is_ok (attr_validate_for_record a r)) then Some AttrVisibility
  else transcript_attr_redaction_reason r a view.

(** What the calls of one slice accumulate: the report items and the two
    counters. *)
Record tally := mkTally {
  ty_redactions : list TranscriptRedactionReportItem;
  ty_messages : N;
  ty_host_refs : N;
}.

Definition report_item (t : tally) (i : TranscriptRedactionReportItem) : tally :=
  mkTally (ty_redactions t ++ [i]) (ty_messages t) (ty_host_refs t).

Definition count_message (t : tally) : tally :=
  mkTally (ty_redactions t) (saturating_add (ty_messages t) 1) (ty_host_refs t).
Definition count_host_ref (t : tally) : tally :=
  mkTally (ty_redactions t) (ty_messages t) (saturating_add (ty_host_refs t) 1).

Fixpoint filter_attrs_for_target (r : TranscriptTurnRecord) (message_id : option string)
    (attrs : list TranscriptAttrEnvelope) (view : TranscriptReplayView) (t : tally)
    : list TranscriptAttrEnvelope * tally :=
  match attrs with
  | [] => ([], t)
  | a :: attrs' =>
      if negb (attr_targets r message_id a) then
        filter_attrs_for_target r message_id attrs' view t
      else match attr_withheld r a view with
           | Some reason =>
               filter_attrs_for_target r message_id attrs' view
                 (report_item t (attr_redaction r message_id view a reason))
           | None =>
               let rest := filter_attrs_for_target r message_id attrs' view t in
               (transcript_attr_for_lifecycle r a view :: rest.1, rest.2)
           end
  end.

(** ** Messages and host references *)

Definition message_redaction_reason (r : TranscriptTurnRecord) (m : TranscriptMessageRecord)
    (view : TranscriptReplayView) : option TranscriptRedactionReason :=
  if raw_deleted r then Some RawDeletedReason
  else if masked r then Some LifecycleMasked
  else if bool_decide (view = RawOwnerOnly) then None
  else match tm_authority m with
       | PrivateGardenInternal | SoulGovernance => Some PrivateAuthority
       | OperatorDiagnosticAuthority => Some OperatorOnly
       | _ => None
       end.

Definition redact_message_for_view (r : TranscriptTurnRecord) (m : TranscriptMessageRecord)
    (view : TranscriptReplayView) (attrs : list TranscriptAttrEnvelope) (t : tally)
    : RedactedTranscriptMessage * tally :=
  let reason := message_redaction_reason r m view in
  (mkRedactedMessage (tm_message_id m) (tm_role m)
     (match reason with Some _ => None | None => Some (tm_content m) end) attrs (tm_authority m)
     (tm_actor m) (tm_observed_at m) (bool_decide (is_Some reason)),
   match reason with
   | Some reason =>
       report_item (count_message t)
         (mkRedaction (tt_turn_id r) (Some (tm_message_id m)) None None None reason
            (Some (tm_authority m)) view)
   | None => t
   end).

Definition host_ref_visible_in_view (visibility : HostRefVisibility)
    (view : TranscriptReplayView) : bool :=
  match view with
  | RawOwnerOnly => true
  | ModelContextView => bool_decide (visibility = VisModelContext)
  | HostUiView => match visibility with VisHostUi | VisExport => true | _ => false end
  | OperatorAuditView =>
      match visibility with VisHostUi | VisOperatorAudit | VisExport => true | _ => false end
  | ExportView => bool_decide (visibility = VisExport)
  end.

Definition host_ref_label_visible_in_view (visibility : HostRefVisibility)
    (view : TranscriptReplayView) : bool :=
  match view with
  | RawOwnerOnly => true
  | HostUiView => bool_decide (visibility = VisHostUi)
  | _ => false
  end.

Definition sanitize_host_ref_for_view (h : HostOpaqueRef) (view : TranscriptReplayView)
    : HostOpaqueRef :=
  if host_ref_label_visible_in_view (hr_visibility h) view then h else without_label h.

Definition host_ref_redaction (turn_id : string) (index : N) (view : TranscriptReplayView)
    (reason : TranscriptRedactionReason) : TranscriptRedactionReportItem :=
  mkRedaction turn_id None (Some index) None None reason None view.

(** [filter_host_refs_for_view], and [filter_host_refs_for_transcript_view]
    from an empty tally. *)
Fixpoint filter_host_refs (turn_id : string) (index : N) (refs : list HostOpaqueRef)
    (view : TranscriptReplayView) (t : tally) : list HostOpaqueRef * tally :=
  match refs with
  | [] => ([], t)
  | h :: refs' =>
      if host_ref_visible_in_view (hr_visibility h) view then
        let sanitized := sanitize_host_ref_for_view h view in
        let t' := if bool_decide (is_Some (hr_label h)) && bool_decide (hr_label sanitized = None)
                  then report_item t (host_ref_redaction turn_id index view HostRefLabel) else t in
        let rest := filter_host_refs turn_id (index + 1) refs' view t' in
        (sanitized :: rest.1, rest.2)
      else
        filter_host_refs turn_id (index + 1) refs' view
          (report_item (count_host_ref t)
             (host_ref_redaction turn_id index view HostRefVisibilityReason))
  end.

(** ** Slices *)

(** [iter().map(...).collect()] with a tally. *)
Fixpoint map_tally {A B} (f : A → tally → B * tally) (l : list A) (t : tally) : list B * tally :=
  match l with
  | [] => ([], t)
  | a :: l' =>
      let first := f a t in
      let rest := map_tally f l' first.2 in
      (first.1 :: rest.1, rest.2)
  end.

Definition view_message (r : TranscriptTurnRecord) (attrs : list TranscriptAttrEnvelope)
    (view : TranscriptReplayView) (m : TranscriptMessageRecord) (t : tally)
    : RedactedTranscriptMessage * tally :=
  let visible := filter_attrs_for_target r (Some (tm_message_id m)) attrs view t in
  redact_message_for_view r m view visible.1 visible.2.

Definition view_turn (attrs : list TranscriptAttrEnvelope) (view : TranscriptReplayView)
    (r : TranscriptTurnRecord) (t : tally) : RedactedTranscriptTurn * tally :=
  let turn_attrs := filter_attrs_for_target r None attrs view t in
  let inputs := map_tally (view_message r attrs view) (tt_input_messages r) turn_attrs.2 in
  let assistants :=
    map_tally (λ a t, let m := view_message r attrs view (ta_message a) t in
                      (mkRedactedAssistant m.1 (ta_settlement a), m.2))
      (tt_assistant_messages r) inputs.2 in
  let refs := filter_host_refs (tt_turn_id r) 0 (tt_host_refs r) view assistants.2 in
  (mkRedactedTurn (tt_turn_id r) (tt_sequence r) (tt_subject r) (tt_actor r)
     (tt_delivery_status r) turn_attrs.1 inputs.1 assistants.1 refs.1 (tt_lifecycle_state r)
     (tt_redaction_state r),
   refs.2).

Definition collect_redaction_reasons (l : list TranscriptRedactionReportItem)
    : list TranscriptRedactionReason :=
  foldl (λ reasons i, if bool_decide (ri_reason i ∈ reasons) then reasons
                      else reasons ++ [ri_reason i]) [] l.

Definition from_records_with_attrs (k : ConversationKey) (view : TranscriptReplayView)
    (records : list TranscriptTurnRecord) (attrs : list TranscriptAttrEnvelope)
    : RedactedTranscriptSlice :=
  let turns := map_tally (view_turn attrs view) records (mkTally [] 0 0) in
  let t := turns.2 in
  mkSlice k view turns.1 (ty_redactions t)
    (mkReplayAudit view (len records) (len turns.1) (ty_messages t) (ty_host_refs t)
       (collect_redaction_reasons (ty_redactions t))).

End View.

(** * Transcripts: lifecycle of a record

    Lifecycle transitions keep the contract of a record, hidden content stays
    hidden, and raw deletion erases for good. *)

Section Lifecycle.
Context {learning : LearningEvidence}.

(** The contract of a record, as its five conditions. *)
Record record_valid (r : TranscriptTurnRecord) : Prop := {
  rv_observations : validate_tool_observation_identities (tt_tool_observations r) = Ok tt;
  rv_chat : canonical_component (tt_session_chat_id r) = true;
  rv_states : lifecycle_valid (tt_lifecycle_state r) (tt_redaction_state r) = true;
  rv_payload : tt_lifecycle_state r = LcRawDeleted → has_raw_payload r = false;
  rv_shape : assistant_shape_bad r = false;
  rv_messages : messages_bad (tt_turn_id r) 0 ∅ (record_messages r) = false;
  rv_digest : canonical_sha256_digest (tt_canonical_turn_digest r) = true;
  rv_evidence e : tt_learning_evidence r = Some e →
                  le_canonical_turn_digest e = tt_canonical_turn_digest r;
}.

Lemma validate_intake_valid r : validate_canonical_intake r = Ok tt ↔ record_valid r.
Proof.
  unfold validate_canonical_intake, require_canonical_transcript_query_component. split.
  - intros H. inv_ok. split_bool. split; try done.
    + by destruct a.
    + intros El. by destruct (has_raw_payload r); rewrite El in *.
    + intros e He. rewrite He in *. by apply String.eqb_eq.
  - intros [Ho Hc Hs Hp Hsh Hm Hd He]. rewrite Ho. cbn -[canonical_component ensure].
    rewrite Hc, Hs, Hsh, Hm, Hd. cbn. case_bool_decide as El; cbn; [rewrite (Hp El)|]; cbn.
    all: destruct (tt_learning_evidence r) as [e|]; cbn; [|done].
    all: rewrite (He e eq_refl), String.eqb_refl; done.
Qed.

(** ** Transitions keep the contract *)

Lemma existsb_impl {A} (f g : A → bool) l :
  (∀ a, f a = true → g a = true) → existsb g l = false → existsb f l = false.
Proof.
  intros Hfg. induction l as [|a l IH]; cbn; [done|].
  intros [Ha Hl]%orb_false_iff. rewrite IH by done.
  destruct (f a) eqn:Ef; [|done]. by rewrite Hfg in Ha.
Qed.

Lemma with_updated_at_valid r n : record_valid r → record_valid (with_updated_at r n).
Proof. intros []. by split. Qed.

(** New states, where content may only become unavailable. *)
Lemma with_states_valid r l red :
  record_valid r → lifecycle_valid l red = true → l ≠ LcRawDeleted →
  (red = RawAvailable → tt_redaction_state r = RawAvailable) → record_valid (with_states r l red).
Proof.
  intros [Ho Hc Hs Hp Hsh Hm Hd He] Hv Hl Hred. split; try done.
  unfold assistant_shape_bad in *. cbn in *. split_bool.
  rewrite ?orb_false_iff, ?negb_false_iff, ?bool_decide_eq_true. split_and!; try done.
  - by apply N.ltb_ge.
  - eapply existsb_impl; [|done]. intros a. unfold assistant_record_bad. cbn.
    rewrite !orb_true_iff, !andb_true_iff, !bool_decide_eq_true. naive_solver.
Qed.

Lemma redact_messages_ok turn_id index seen l :
  messages_bad turn_id index seen l = false →
  messages_bad turn_id index seen (redact_raw <$> l) = false.
Proof.
  revert index seen. induction l as [|m l IH]; intros index seen; cbn [messages_bad fmap list_fmap]; [done|].
  intros H. split_bool. cbn. rewrite IH by done.
  repeat match goal with H : _ = _ |- _ => rewrite H end. rewrite bool_decide_eq_false_2 by done.
  cbn. by rewrite N.eqb_refl.
Qed.

Lemma existsb_fmap {A B} (f : B → bool) (g : A → B) l : existsb f (g <$> l) = existsb (f ∘ g) l.
Proof. induction l as [|a l IH]; cbn; [done|by rewrite IH]. Qed.

Lemma existsb_false {A} (f : A → bool) l : (∀ a, f a = false) → existsb f l = false.
Proof. intros H. induction l as [|a l IH]; cbn; [done|by rewrite H, IH]. Qed.

Lemma erased_messages r : record_messages (erased r) = redact_raw <$> record_messages r.
Proof. unfold record_messages. cbn. by rewrite fmap_app, <- !list_fmap_compose. Qed.

Lemma erased_no_payload r : has_raw_payload (erased r) = false.
Proof.
  unfold has_raw_payload. rewrite erased_messages. cbn. rewrite !existsb_fmap.
  rewrite existsb_false; cbn; [|done]. by apply existsb_false.
Qed.

Lemma erased_valid r : record_valid r → record_valid (erased r).
Proof.
  intros [Ho Hc Hs Hp Hsh Hm Hd He]. split; try done.
  - intros _. apply erased_no_payload.
  - unfold assistant_shape_bad in *. cbn. rewrite <- list_fmap_compose, existsb_fmap.
    unfold len in *. rewrite !length_fmap. split_bool.
    rewrite ?orb_false_iff, ?negb_false_iff, ?bool_decide_eq_true. split_and!; try done.
    + by apply N.ltb_ge.
    + eapply existsb_impl; [|done]. intros a. unfold assistant_record_bad. cbn.
      rewrite !orb_true_iff. naive_solver.
  - rewrite erased_messages. by apply redact_messages_ok.
Qed.

Lemma apply_transition_valid t n r :
  record_valid r → record_valid (apply_lifecycle_transition t n r).
Proof.
  intros Hr. unfold apply_lifecycle_transition. case_bool_decide as Hdel; [done|].
  pose proof (rv_states r Hr) as Hs.
  assert (Hstep : ∀ next, record_valid next →
      record_valid (if bool_decide (next = r) then next else with_updated_at next n)).
  { intros next Hn. case_bool_decide; [done|]. by apply with_updated_at_valid. }
  cbn zeta. apply Hstep. destruct t.
  - apply with_states_valid; [done| |done..].
    by destruct (tt_lifecycle_state r), (tt_redaction_state r).
  - case_bool_decide as Hraw; [|done]. rewrite Hraw. by apply with_states_valid.
  - by apply with_states_valid.
  - by apply erased_valid.
Qed.

(** ** Hidden stays hidden *)

Definition hidden (r : TranscriptTurnRecord) : bool := raw_deleted r || masked r.

Lemma hidden_redaction r :
  record_valid r → hidden r = negb (bool_decide (tt_redaction_state r = RawAvailable)).
Proof.
  intros Hr%rv_states. unfold hidden, raw_deleted, masked.
  by destruct (tt_lifecycle_state r), (tt_redaction_state r).
Qed.

(** A property of the states and payload of a record that the time of the last
    update does not change. *)
Lemma apply_transition_states t n r :
  let r' := apply_lifecycle_transition t n r in
  tt_redaction_state r' =
    (if bool_decide (tt_lifecycle_state r = LcRawDeleted) then tt_redaction_state r
     else match t with Mask => RawMasked | DeleteRaw => RawGone | _ => tt_redaction_state r end)
  ∧ (tt_lifecycle_state r = LcRawDeleted ∨ t = DeleteRaw → tt_lifecycle_state r' = LcRawDeleted).
Proof.
  unfold apply_lifecycle_transition. case_bool_decide as Hdel; [done|]. cbn zeta.
  destruct t; [|destruct (bool_decide (tt_redaction_state r = RawAvailable))|..].
  all: case_bool_decide as Hsame; cbn; (split; [done|intros [?|?]; done]).
Qed.

Definition apply_all (ts : list (TranscriptLifecycleTransition * N)) (r : TranscriptTurnRecord)
    : TranscriptTurnRecord :=
  foldl (λ r t, apply_lifecycle_transition t.1 t.2 r) r ts.

Lemma apply_all_snoc ts t r : apply_all (ts ++ [t]) r = apply_lifecycle_transition t.1 t.2 (apply_all ts r).
Proof. unfold apply_all. by rewrite foldl_app. Qed.

Lemma apply_all_valid ts r : record_valid r → record_valid (apply_all ts r).
Proof.
  intros Hr. induction ts as [|t ts IH] using rev_ind; [done|].
  rewrite apply_all_snoc. by apply apply_transition_valid.
Qed.

Lemma apply_all_deleted ts r :
  DeleteRaw ∈ ts.*1 → tt_lifecycle_state (apply_all ts r) = LcRawDeleted.
Proof.
  induction ts as [|[t n] ts IH] using rev_ind; [by intros ?%not_elem_of_nil|].
  rewrite fmap_app, elem_of_app, apply_all_snoc. cbn. rewrite list_elem_of_singleton.
  intros [H|<-]; apply apply_transition_states; auto.
Qed.

Lemma apply_all_hidden ts r :
  record_valid r → Mask ∈ ts.*1 ∨ DeleteRaw ∈ ts.*1 → hidden (apply_all ts r) = true.
Proof.
  intros Hr. induction ts as [|[t n] ts IH] using rev_ind.
  { by intros [?%not_elem_of_nil|?%not_elem_of_nil]. }
  rewrite !fmap_app, !elem_of_app, apply_all_snoc. cbn. rewrite !list_elem_of_singleton.
  intros H. pose proof (apply_all_valid ts r Hr) as Hv.
  rewrite hidden_redaction by (by apply apply_transition_valid).
  rewrite hidden_redaction in IH by done.
  destruct (apply_transition_states t n (apply_all ts r)) as [Hred _]. rewrite Hred.
  pose proof (rv_states _ Hv) as Hs. case_bool_decide as Hdel.
  { rewrite Hdel in Hs. by destruct (tt_redaction_state (apply_all ts r)). }
  destruct t; try done; apply IH; naive_solver.
Qed.

End Lifecycle.
