(* ===== verification/TranscriptProps.v ===== *)
(** * Transcripts: theorems about views and the lifecycle

    A slice is computed by one pass that threads a report and two counters;
    [shown_turn] and [turn_reports] describe, turn by turn and without state,
    what it shows and what it reports. *)

From S2P Require Import Prelude RustStr StoreTypes ReadSession LongTermEntry TurnTypes Transcript TranscriptView.

Local Open Scope string_scope.
Local Open Scope list_scope.
Local Open Scope N_scope.

Section Props.
Context {learning : LearningEvidence} {values : ValueCodec}.

(** ** What a view shows and reports *)

Definition shown_attrs (r : TranscriptTurnRecord) (message_id : option string)
    (attrs : list TranscriptAttrEnvelope) (view : TranscriptReplayView)
    : list TranscriptAttrEnvelope :=
  (λ a, transcript_attr_for_lifecycle r a view)
    <$> List.filter (λ a, attr_targets r message_id a
                          && bool_decide (attr_withheld r a view = None)) attrs.

Definition attr_reports (r : TranscriptTurnRecord) (message_id : option string)
    (attrs : list TranscriptAttrEnvelope) (view : TranscriptReplayView)
    : list TranscriptRedactionReportItem :=
  omap (λ a, if attr_targets r message_id a
             then attr_redaction r message_id view a <$> attr_withheld r a view else None) attrs.

Definition withheld (r : TranscriptTurnRecord) (view : TranscriptReplayView)
    (m : TranscriptMessageRecord) : bool :=
  bool_decide (is_Some (message_redaction_reason r m view)).

Definition shown_message (r : TranscriptTurnRecord) (attrs : list TranscriptAttrEnvelope)
    (view : TranscriptReplayView) (m : TranscriptMessageRecord) : RedactedTranscriptMessage :=
  mkRedactedMessage (tm_message_id m) (tm_role m)
    (if withheld r view m then None else Some (tm_content m))
    (shown_attrs r (Some (tm_message_id m)) attrs view) (tm_authority m) (tm_actor m)
    (tm_observed_at m) (withheld r view m).

Definition message_reports (r : TranscriptTurnRecord) (attrs : list TranscriptAttrEnvelope)
    (view : TranscriptReplayView) (m : TranscriptMessageRecord)
    : list TranscriptRedactionReportItem :=
  attr_reports r (Some (tm_message_id m)) attrs view
  ++ match message_redaction_reason r m view with
     | Some reason => [mkRedaction (tt_turn_id r) (Some (tm_message_id m)) None None None reason
                         (Some (tm_authority m)) view]
     | None => []
     end.

Definition host_ref_shown (view : TranscriptReplayView) (h : HostOpaqueRef) : bool :=
  host_ref_visible_in_view (hr_visibility h) view.

Definition host_ref_report (turn_id : string) (index : N) (view : TranscriptReplayView)
    (h : HostOpaqueRef) : list TranscriptRedactionReportItem :=
  if host_ref_shown view h then
    if bool_decide (is_Some (hr_label h))
       && negb (host_ref_label_visible_in_view (hr_visibility h) view)
    then [host_ref_redaction turn_id index view HostRefLabel] else []
  else [host_ref_redaction turn_id index view HostRefVisibilityReason].

Fixpoint host_ref_reports (turn_id : string) (index : N) (view : TranscriptReplayView)
    (refs : list HostOpaqueRef) : list TranscriptRedactionReportItem :=
  match refs with
  | [] => []
  | h :: refs' =>
      host_ref_report turn_id index view h ++ host_ref_reports turn_id (index + 1) view refs'
  end.

Definition shown_turn (attrs : list TranscriptAttrEnvelope) (view : TranscriptReplayView)
    (r : TranscriptTurnRecord) : RedactedTranscriptTurn :=
  mkRedactedTurn (tt_turn_id r) (tt_sequence r) (tt_subject r) (tt_actor r)
    (tt_delivery_status r) (shown_attrs r None attrs view)
    (shown_message r attrs view <$> tt_input_messages r)
    ((λ a, mkRedactedAssistant (shown_message r attrs view (ta_message a)) (ta_settlement a))
       <$> tt_assistant_messages r)
    ((λ h, sanitize_host_ref_for_view h view) <$> List.filter (host_ref_shown view) (tt_host_refs r))
    (tt_lifecycle_state r) (tt_redaction_state r).

Definition turn_reports (attrs : list TranscriptAttrEnvelope) (view : TranscriptReplayView)
    (r : TranscriptTurnRecord) : list TranscriptRedactionReportItem :=
  attr_reports r None attrs view ++ (record_messages r ≫= message_reports r attrs view)
  ++ host_ref_reports (tt_turn_id r) 0 view (tt_host_refs r).

Definition count_true {A} (f : A → bool) (l : list A) : nat := length (List.filter f l).

Definition withheld_messages (view : TranscriptReplayView) (r : TranscriptTurnRecord) : nat :=
  count_true (withheld r view) (record_messages r).
Definition withheld_host_refs (view : TranscriptReplayView) (r : TranscriptTurnRecord) : nat :=
  count_true (λ h, negb (host_ref_shown view h)) (tt_host_refs r).

(** ** Tallies grow *)

Definition bump (n : N) : N := saturating_add n 1.

Definition grown (t : tally) (reports : list TranscriptRedactionReportItem) (m h : nat) : tally :=
  mkTally (ty_redactions t ++ reports) (Nat.iter m bump (ty_messages t))
    (Nat.iter h bump (ty_host_refs t)).

Lemma grown_nil t : grown t [] 0 0 = t.
Proof. destruct t. unfold grown. cbn. by rewrite app_nil_r. Qed.

Lemma grown_grown t r1 m1 h1 r2 m2 h2 :
  grown (grown t r1 m1 h1) r2 m2 h2 = grown t (r1 ++ r2) (m1 + m2) (h1 + h2).
Proof.
  unfold grown. cbn. by rewrite <- app_assoc, (Nat.add_comm m1), (Nat.add_comm h1), !Nat.iter_add.
Qed.

Lemma bump_iter n : Nat.iter n bump 0 = N.min usize_max (N.of_nat n).
Proof.
  induction n as [|n IH]; [done|]. cbn [Nat.iter nat_rect].
  change (nat_rect _ _ _ n) with (Nat.iter n bump 0). rewrite IH. unfold bump, saturating_add. lia.
Qed.

Lemma report_item_grown t i : report_item t i = grown t [i] 0 0.
Proof. by destruct t. Qed.

Lemma filter_attrs_exact r message_id attrs view t :
  filter_attrs_for_target r message_id attrs view t
  = (shown_attrs r message_id attrs view, grown t (attr_reports r message_id attrs view) 0 0).
Proof.
  revert t. unfold shown_attrs, attr_reports.
  induction attrs as [|a attrs IH]; intros t; cbn -[attr_targets attr_withheld].
  { by rewrite grown_nil. }
  destruct (attr_targets r message_id a); cbn -[attr_withheld]; [|apply IH].
  destruct (attr_withheld r a view) as [reason|]; cbn; rewrite IH; [|done].
  by rewrite report_item_grown, grown_grown.
Qed.

Lemma view_message_exact r attrs view m t :
  view_message r attrs view m t
  = (shown_message r attrs view m,
     grown t (message_reports r attrs view m) (if withheld r view m then 1 else 0) 0).
Proof.
  unfold view_message, shown_message, message_reports, withheld. rewrite filter_attrs_exact. cbn.
  unfold redact_message_for_view. destruct (message_redaction_reason r m view) as [reason|]; cbn.
  - f_equal. unfold report_item, count_message, grown. cbn. by rewrite app_assoc.
  - f_equal. by rewrite app_nil_r.
Qed.

Lemma filter_host_refs_exact turn_id index refs view t :
  filter_host_refs turn_id index refs view t
  = ((λ h, sanitize_host_ref_for_view h view) <$> List.filter (host_ref_shown view) refs,
     grown t (host_ref_reports turn_id index view refs) 0
       (count_true (λ h, negb (host_ref_shown view h)) refs)).
Proof.
  revert index t. unfold host_ref_shown, count_true.
  induction refs as [|h refs IH]; intros index t; cbn; [by rewrite grown_nil|].
  unfold host_ref_report, host_ref_shown.
  destruct (host_ref_visible_in_view (hr_visibility h) view); cbn; rewrite IH; cbn.
  - f_equal. unfold sanitize_host_ref_for_view.
    destruct (host_ref_label_visible_in_view (hr_visibility h) view), (hr_label h); cbn; try done.
    by rewrite report_item_grown, grown_grown.
  - f_equal. rewrite report_item_grown.
    change (count_host_ref t) with (mkTally (ty_redactions t) (ty_messages t) (bump (ty_host_refs t))).
    rewrite grown_grown. unfold grown. cbn [ty_redactions ty_messages ty_host_refs app].
    by rewrite <- Nat.iter_succ_r.
Qed.

Lemma map_tally_exact {A B} (f : A → tally → B * tally) g reports m h l t :
  (∀ a t, f a t = (g a, grown t (reports a) (m a) (h a))) →
  map_tally f l t
  = (g <$> l, grown t (l ≫= reports) (sum_list_with m l) (sum_list_with h l)).
Proof.
  intros Hf. revert t. induction l as [|a l IH]; intros t; cbn; [by rewrite grown_nil|].
  rewrite Hf. cbn. rewrite IH. cbn. by rewrite grown_grown.
Qed.

Lemma sum_count {A} (f : A → bool) l :
  sum_list_with (λ a, if f a then 1%nat else 0%nat) l = count_true f l.
Proof. induction l as [|a l IH]; cbn; [done|]. rewrite IH. unfold count_true. cbn. by destruct (f a). Qed.

Lemma sum_zero {A} (l : list A) : sum_list_with (λ _, 0%nat) l = 0%nat.
Proof. by induction l. Qed.

Lemma sum_fmap {A B} (f : B → nat) (g : A → B) l :
  sum_list_with (λ a, f (g a)) l = sum_list_with f (g <$> l).
Proof. induction l as [|a l IH]; cbn; [done|by rewrite IH]. Qed.

Lemma bind_fmap_list {A B C} (f : B → list C) (g : A → B) l :
  (l ≫= λ a, f (g a)) = (g <$> l) ≫= f.
Proof. induction l as [|a l IH]; cbn; [done|by rewrite IH]. Qed.

Lemma view_turn_exact attrs view r t :
  view_turn attrs view r t
  = (shown_turn attrs view r,
     grown t (turn_reports attrs view r) (withheld_messages view r) (withheld_host_refs view r)).
Proof.
  unfold view_turn. rewrite filter_attrs_exact. cbn [fst snd].
  rewrite (map_tally_exact _ (shown_message r attrs view) (message_reports r attrs view)
             (λ m, if withheld r view m then 1 else 0)%nat (λ _, 0%nat))
    by (intros; apply view_message_exact). cbn [fst snd].
  rewrite (map_tally_exact _
             (λ a, mkRedactedAssistant (shown_message r attrs view (ta_message a)) (ta_settlement a))
             (λ a, message_reports r attrs view (ta_message a))
             (λ a, if withheld r view (ta_message a) then 1 else 0)%nat (λ _, 0%nat))
    by (intros; by rewrite view_message_exact). cbn [fst snd].
  rewrite filter_host_refs_exact. cbn [fst snd]. f_equal. rewrite !grown_grown.
  unfold turn_reports, withheld_messages, withheld_host_refs, record_messages.
  rewrite <- !sum_count, sum_list_with_app, !sum_zero, bind_app.
  rewrite (sum_fmap (λ m, if withheld r view m then 1%nat else 0%nat) ta_message).
  rewrite (bind_fmap_list (message_reports r attrs view) ta_message).
  f_equal; rewrite <- ?app_assoc; try done; lia.
Qed.

Lemma slice_exact k view records attrs :
  from_records_with_attrs k view records attrs
  = mkSlice k view (shown_turn attrs view <$> records) (records ≫= turn_reports attrs view)
      (mkReplayAudit view (len records) (len records)
         (N.min usize_max (N.of_nat (sum_list_with (withheld_messages view) records)))
         (N.min usize_max (N.of_nat (sum_list_with (withheld_host_refs view) records)))
         (collect_redaction_reasons (records ≫= turn_reports attrs view))).
Proof.
  unfold from_records_with_attrs.
  rewrite (map_tally_exact _ (shown_turn attrs view) (turn_reports attrs view)
             (withheld_messages view) (withheld_host_refs view)) by apply view_turn_exact.
  cbn. rewrite !bump_iter. f_equal. f_equal. unfold len. by rewrite length_fmap.
Qed.

(** the redacted slice of a conversation, computed in one pass with shared
    counters, is the turn by turn description: each message with its content
    exactly when nothing withholds it, the attributes of each target that are
    visible, the host references the view may see, in the order of the records,
    with one report item per thing withheld and the exact counts. *)
Theorem slice_is_turn_by_turn k view records attrs :
  from_records_with_attrs k view records attrs
  = mkSlice k view (shown_turn attrs view <$> records) (records ≫= turn_reports attrs view)
      (mkReplayAudit view (len records) (len records)
         (N.min usize_max (N.of_nat (sum_list_with (withheld_messages view) records)))
         (N.min usize_max (N.of_nat (sum_list_with (withheld_host_refs view) records)))
         (collect_redaction_reasons (records ≫= turn_reports attrs view))).
Proof. apply slice_exact. Qed.

(** ** Lifecycle and views *)

(** The messages of a turn of a slice. *)
Definition turn_messages (t : RedactedTranscriptTurn) : list RedactedTranscriptMessage :=
  rt_input_messages t ++ (ra_message <$> rt_assistant_messages t).

Lemma shown_turn_messages attrs view r :
  turn_messages (shown_turn attrs view r) = shown_message r attrs view <$> record_messages r.
Proof. unfold turn_messages, record_messages. cbn. by rewrite fmap_app, <- !list_fmap_compose. Qed.

Lemma hidden_withheld r view m : hidden r = true → withheld r view m = true.
Proof.
  unfold hidden, withheld, message_redaction_reason. destruct (raw_deleted r), (masked r); by cbn.
Qed.

Lemma deleted_attrs r message_id attrs view :
  tt_lifecycle_state r = LcRawDeleted → shown_attrs r message_id attrs view = [].
Proof.
  intros Hd. unfold shown_attrs, attr_withheld. rewrite Hd. cbn.
  induction attrs as [|a attrs IH]; cbn; [done|]. by rewrite andb_false_r.
Qed.

Lemma no_labels r h : has_raw_payload r = false → h ∈ tt_host_refs r → hr_label h = None.
Proof.
  unfold has_raw_payload. intros Hp Hin. split_bool.
  destruct (hr_label h) as [x|] eqn:El; [|done].
  assert (Hx : existsb (λ h, bool_decide (is_Some (hr_label h))) (tt_host_refs r) = true).
  { apply existsb_exists. exists h. rewrite El. split; [by apply list_elem_of_In|done]. }
  congruence.
Qed.

Lemma hidden_unavailable e r : record_valid r → hidden r = true → is_available_in e r = false.
Proof.
  intros Hv Hh. rewrite hidden_redaction in Hh by done. unfold is_available_in.
  apply negb_true_iff in Hh. rewrite Hh, andb_false_r. done.
Qed.

(** What the lifecycle promises of a record and of a turn that shows it. *)
Record privacy (masked_ever deleted_ever : bool) (view : TranscriptReplayView)
    (r : TranscriptTurnRecord) (t : RedactedTranscriptTurn) : Prop := {
  pv_valid : validate_canonical_intake r = Ok tt;
  pv_hidden : masked_ever || deleted_ever = true →
    Forall (λ m, rm_content m = None) (turn_messages t)
    ∧ (∀ e, is_available_in e r = false) ∧ is_searchable_for_presentation r = false
    ∧ permits_post_turn_learning r = false;
  pv_erased : deleted_ever = true →
    has_raw_payload r = false ∧ rt_attrs t = [] ∧ Forall (λ m, rm_attrs m = []) (turn_messages t)
    ∧ Forall (λ h, hr_label h = None) (rt_host_refs t);
  pv_private : view ≠ RawOwnerOnly →
    Forall (λ m, rm_authority m ∈ [PrivateGardenInternal; SoulGovernance;
                                   OperatorDiagnosticAuthority] → rm_content m = None)
      (turn_messages t);
}.

(** C11: whatever lifecycle transitions a valid record goes through, it stays
    valid; once it was masked or raw-deleted no later transition makes any view
    show the content of a message, lets its evidence be cited or its text be
    searched or learned from; once raw-deleted the record itself holds no raw
    payload and no view shows an attribute or a label; and private content is
    shown to the owner only. *)
Theorem redaction_is_final k view records attrs r ts i :
  validate_canonical_intake r = Ok tt → records !! i = Some (apply_all ts r) →
  ∃ t, sl_turns (from_records_with_attrs k view records attrs) !! i = Some t
       ∧ privacy (bool_decide (Mask ∈ ts.*1)) (bool_decide (DeleteRaw ∈ ts.*1)) view
           (apply_all ts r) t.
Proof.
  rewrite validate_intake_valid. intros Hv Hi. rewrite slice_exact. cbn.
  rewrite list_lookup_fmap, Hi. cbn. eexists. split; [done|].
  pose proof (apply_all_valid ts r Hv) as Hv'.
  assert (Hdel : DeleteRaw ∈ ts.*1 → tt_lifecycle_state (apply_all ts r) = LcRawDeleted)
    by apply apply_all_deleted.
  assert (Hhid := apply_all_hidden ts r Hv).
  set (r' := apply_all ts r) in *. clearbody r'. split.
  - by apply validate_intake_valid.
  - rewrite orb_true_iff, !bool_decide_eq_true. intros H. specialize (Hhid H). split_and!.
    + rewrite shown_turn_messages, Forall_fmap. apply Forall_true. intros m. cbn.
      by rewrite hidden_withheld.
    + intros e. by apply hidden_unavailable.
    + rewrite hidden_redaction in Hhid by done. apply negb_true_iff in Hhid.
      unfold is_searchable_for_presentation. by rewrite Hhid, andb_false_r.
    + rewrite hidden_redaction in Hhid by done. apply negb_true_iff in Hhid.
      unfold permits_post_turn_learning. by rewrite Hhid, andb_false_r.
  - rewrite bool_decide_eq_true. intros H. specialize (Hdel H).
    pose proof (rv_payload _ Hv' Hdel) as Hp. split_and!; [done|by apply deleted_attrs| |].
    + rewrite shown_turn_messages, Forall_fmap. apply Forall_true. intros m. by apply deleted_attrs.
    + cbn. apply Forall_fmap, Forall_forall. intros h Hin%list_elem_of_In.
      apply filter_In in Hin as [Hin _]. cbn. unfold sanitize_host_ref_for_view.
      destruct (host_ref_label_visible_in_view _ _); [|done].
      eapply no_labels; [done|]. by apply list_elem_of_In.
  - intros Hview. rewrite shown_turn_messages, Forall_fmap. apply Forall_true. intros m. cbn.
    intros Ha. unfold withheld, message_redaction_reason. rewrite (bool_decide_eq_false_2 (view = _)) by done.
    destruct (raw_deleted r'), (masked r'); cbn; try done.
    by destruct (tm_authority m); cbn; try done; set_solver.
Qed.

End Props.
