(* ===== verification/TurnPlanFacts.v ===== *)
(** * Transcripts: lemmas on planned turns

    Strings that are not blank, the messages a turn commits, the record built
    from them, and the conditions its validation comes down to. *)

From S2P Require Import Prelude RustStr StoreTypes ReadSession LongTermEntry TurnTypes Transcript TurnCommit TranscriptView.
From Stdlib Require Import Ascii.

Local Open Scope string_scope.
Local Open Scope list_scope.
Local Open Scope N_scope.

(** ** Strings that are not blank *)

Definition plain (c : ascii) : bool := (byte_of c <? 128) && negb (is_ascii_ws (byte_of c)).

Definition str_elem (c : ascii) (s : string) : Prop := c ∈ String.list_ascii_of_string s.

Lemma str_elem_cons c a s : str_elem c (String a s) ↔ c = a ∨ str_elem c s.
Proof. unfold str_elem. cbn. apply elem_of_cons. Qed.

Lemma str_elem_rev_app c s acc : str_elem c (str_rev_app s acc) ↔ str_elem c s ∨ str_elem c acc.
Proof.
  revert acc. induction s as [|a s IH]; intros acc; cbn [str_rev_app].
  - unfold str_elem at 2. cbn. rewrite elem_of_nil. tauto.
  - rewrite IH, !str_elem_cons. tauto.
Qed.

Lemma str_elem_rev c s : str_elem c (str_rev s) ↔ str_elem c s.
Proof. unfold str_rev. rewrite str_elem_rev_app. unfold str_elem at 2. cbn. rewrite elem_of_nil. tauto. Qed.

(** Whitespace of two or three bytes has none below 128. *)
Lemma ws2_high a b : is_ws2 a b = true → 128 ≤ a ∧ 128 ≤ b.
Proof. unfold is_ws2. rewrite andb_true_iff, orb_true_iff, !N.eqb_eq. lia. Qed.

Lemma ws3_high a b c : is_ws3 a b c = true → 128 ≤ a ∧ 128 ≤ b ∧ 128 ≤ c.
Proof.
  unfold is_ws3. rewrite !orb_true_iff, !andb_true_iff, !orb_true_iff, !andb_true_iff, !N.eqb_eq,
    !N.leb_le. lia.
Qed.

Lemma string_len_ind (P : string → Prop) :
  (∀ s, (∀ s', (String.length s' < String.length s)%nat → P s') → P s) → ∀ s, P s.
Proof. intros H s. induction s as [s IH] using (induction_ltof1 _ String.length). by apply H. Qed.

Lemma trim_start_keeps c s : plain c = true → str_elem c s → str_elem c (trim_start s).
Proof.
  unfold plain. intros Hp. split_bool.
  induction s as [s IH] using string_len_ind. destruct s as [|a s1]; [done|]. cbn [trim_start].
  destruct (is_ascii_ws (byte_of a)) eqn:Ea.
  { intros [->|Hc]%str_elem_cons; [congruence|]. apply IH; [cbn; lia|done]. }
  destruct s1 as [|b s2]; [done|]. destruct (is_ws2 (byte_of a) (byte_of b)) eqn:E2.
  { apply ws2_high in E2. rewrite !str_elem_cons. intros [->|[->|Hc]]; [lia..|].
    apply IH; [cbn; lia|done]. }
  destruct s2 as [|x s3]; [done|]. destruct (is_ws3 _ _ _) eqn:E3; [|done].
  apply ws3_high in E3. rewrite !str_elem_cons. intros [->|[->|[->|Hc]]]; [lia..|].
  apply IH; [cbn; lia|done].
Qed.

Lemma trim_start_rev_keeps c s : plain c = true → str_elem c s → str_elem c (trim_start_rev s).
Proof.
  unfold plain. intros Hp. split_bool.
  induction s as [s IH] using string_len_ind. destruct s as [|a s1]; [done|]. cbn [trim_start_rev].
  destruct (is_ascii_ws (byte_of a)) eqn:Ea.
  { intros [->|Hc]%str_elem_cons; [congruence|]. apply IH; [cbn; lia|done]. }
  destruct s1 as [|b s2]; [done|]. destruct (is_ws2 (byte_of b) (byte_of a)) eqn:E2.
  { apply ws2_high in E2. rewrite !str_elem_cons. intros [->|[->|Hc]]; [lia..|].
    apply IH; [cbn; lia|done]. }
  destruct s2 as [|x s3]; [done|]. destruct (is_ws3 _ _ _) eqn:E3; [|done].
  apply ws3_high in E3. rewrite !str_elem_cons. intros [->|[->|[->|Hc]]]; [lia..|].
  apply IH; [cbn; lia|done].
Qed.

Lemma not_blank c s : plain c = true → str_elem c s → blank s = false.
Proof.
  intros Hp Hc. unfold blank, trim, trim_end, is_empty.
  assert (H : str_elem c (str_rev (trim_start_rev (str_rev (trim_start s))))).
  { apply str_elem_rev, trim_start_rev_keeps; [done|]. by apply str_elem_rev, trim_start_keeps. }
  apply bool_decide_eq_false. intros E. rewrite E in H. by apply elem_of_nil in H.
Qed.

Lemma not_blank_head c s : plain c = true → blank (String c s) = false.
Proof. intros Hp. apply (not_blank c); [done|]. apply str_elem_cons. by left. Qed.

(** ** Roles *)

Lemma eq_ignore_length a b : eq_ignore_ascii_case a b = true → String.length a = String.length b.
Proof.
  revert b. induction a as [|x a IH]; intros [|y b]; cbn; try done.
  intros [_ H]%andb_true_iff. f_equal. by apply IH.
Qed.

Lemma lowercase_plain x y :
  ascii_lowercase x = ascii_lowercase y → plain (ascii_lowercase y) = true → plain x = true.
Proof.
  intros E Hy. rewrite <- E in Hy. revert Hy. unfold ascii_lowercase.
  destruct ((65 <=? byte_of x) && (byte_of x <=? 90)) eqn:Hx; [|done]. intros _. split_bool.
  unfold plain, is_ascii_ws. rewrite andb_true_iff, negb_true_iff, N.ltb_lt. split; [lia|].
  rewrite orb_false_iff, andb_false_iff, N.eqb_neq, !N.leb_gt. lia.
Qed.

Lemma role_not_blank r c b :
  plain (ascii_lowercase c) = true → eq_ignore_ascii_case r (String c b) = true → blank r = false.
Proof.
  destruct r as [|x r]; cbn [eq_ignore_ascii_case]; [done|]. intros Hc [E _]%andb_true_iff.
  apply Ascii.eqb_eq in E. apply not_blank_head. by eapply lowercase_plain.
Qed.

Lemma user_not_assistant r :
  eq_ignore_ascii_case r "user" = true → eq_ignore_ascii_case r "assistant" = false.
Proof.
  intros H%eq_ignore_length. destruct (eq_ignore_ascii_case r "assistant") eqn:E; [|done].
  apply eq_ignore_length in E. cbn in *. lia.
Qed.

(** ** Numbered lists *)

Fixpoint numbered {A B} (f : N → A → B) (i : N) (l : list A) : list B :=
  match l with [] => [] | a :: l' => f i a :: numbered f (i + 1) l' end.

Lemma imap_numbered_from {A B} (f : N → A → B) n l :
  imap (λ i, f (N.of_nat (n + i))) l = numbered f (N.of_nat n) l.
Proof.
  revert n. induction l as [|a l IH]; intros n; [done|]. rewrite imap_cons. cbn.
  rewrite Nat.add_0_r. f_equal. replace (N.of_nat n + 1) with (N.of_nat (S n)) by lia.
  rewrite <- IH. apply imap_ext. intros i x _. cbn. do 2 f_equal. lia.
Qed.

Lemma imap_numbered {A B} (f : N → A → B) l : imap (λ i, f (N.of_nat i)) l = numbered f 0 l.
Proof. apply (imap_numbered_from f 0). Qed.

Lemma numbered_app {A B} (f : N → A → B) i l1 l2 :
  numbered f i (l1 ++ l2) = numbered f i l1 ++ numbered f (i + len l1) l2.
Proof.
  revert i. induction l1 as [|a l1 IH]; intros i; cbn.
  - rewrite len_nil. f_equal. lia.
  - rewrite IH, len_cons. do 3 f_equal. lia.
Qed.

Lemma numbered_fmap {A B C} (g : B → C) (f : N → A → B) i l :
  g <$> numbered f i l = numbered (λ i a, g (f i a)) i l.
Proof. revert i. induction l as [|a l IH]; intros i; cbn; [done|by rewrite IH]. Qed.

Lemma fmap_numbered {A A' B} (g : A → A') (f : N → A' → B) i l :
  numbered f i (g <$> l) = numbered (λ i a, f i (g a)) i l.
Proof. revert i. induction l as [|a l IH]; intros i; cbn; [done|by rewrite IH]. Qed.

Lemma numbered_length {A B} (f : N → A → B) i l : length (numbered f i l) = length l.
Proof. revert i. induction l as [|a l IH]; intros i; cbn; [done|by rewrite IH]. Qed.

Lemma zip_numbered {A B} (f : N → A → B) i l : zip l (numbered f i l) = numbered (λ i a, (a, f i a)) i l.
Proof. revert i. induction l as [|a l IH]; intros i; cbn; [done|by rewrite IH]. Qed.

Lemma numbered_Forall {A B} (P : B → Prop) (f : N → A → B) i l :
  (∀ j a, a ∈ l → P (f j a)) → Forall P (numbered f i l).
Proof.
  revert i. induction l as [|a l IH]; intros i H; cbn; constructor.
  - apply H. by left.
  - apply IH. intros j b Hb. apply H. by right.
Qed.

(** ** The messages and record of a turn *)

Section Facts.
Context {codec : TurnCodec} {learning : LearningEvidence}.

Definition turn_actor (d : CanonicalTurnDelta) : ActorAttribution :=
  inherited_actor (td_actor d) (td_subject d).

Definition turn_users (d : CanonicalTurnDelta) : list TranscriptInputMessage :=
  List.filter user_input (td_input_messages d).

(** The messages a turn commits; [prepare_canonical_turn_delta] does not look
    at the session. *)
Definition turn_inputs (d : CanonicalTurnDelta) : list TranscriptInputMessage :=
  pc_messages (prepare_canonical_turn_delta 0 d).

Lemma turn_inputs_cases d :
  turn_inputs d = [] ∨ turn_inputs d = turn_users d ++ (am_message <$> td_assistant_messages d).
Proof.
  unfold turn_inputs, turn_users. cbn. destruct (td_delivery_status d); auto.
  destruct (td_assistant_messages d); auto.
Qed.

Section Turn.
Context (k : ConversationKey) (d : CanonicalTurnDelta) (now : N).

Definition session_of (i : N) (m : TranscriptInputMessage) : SessionMessage :=
  into_session_message m (turn_message_id k d i) now now.
Definition committed_at (i : N) (m : TranscriptInputMessage) : CommittedSessionMessage :=
  committed_of (session_of i m, im_authority m).
Definition record_at (i : N) (m : TranscriptInputMessage) : TranscriptMessageRecord :=
  from_committed_input (td_turn_id d) (saturating_add i 1) m (committed_at i m) (td_subject d)
    (Some (turn_actor d)).
Definition assistant_at (i : N) (a : TranscriptAssistantMessage)
    : TranscriptAssistantMessageRecord :=
  mkAssistantRecord (record_at i (am_message a)) (am_settlement a).

Lemma session_messages_numbered messages :
  session_messages_of k d messages now
  = numbered (λ i m, (session_of i m, im_authority m)) 0 messages.
Proof. apply (imap_numbered (λ i m, (session_of i m, im_authority m))). Qed.

Lemma split_users l rest index inputs :
  Forall (λ m, is_role m "assistant" = false) l →
  split_committed d (turn_actor d) index
    (numbered (λ i m, (m, committed_at i m)) index l ++ rest) inputs [] false
  = split_committed d (turn_actor d) (index + len l) rest
      (inputs ++ numbered record_at index l) [] false.
Proof.
  revert index inputs. induction l as [|m l IH]; intros index inputs Hl; cbn [numbered app].
  - by rewrite len_nil, N.add_0_r, app_nil_r.
  - apply Forall_cons in Hl as [Hm Hl]. cbn [split_committed].
    change (tm_role _) with (im_role m). unfold is_role in Hm. rewrite Hm, IH by done.
    rewrite len_cons, <- app_assoc. f_equal. lia.
Qed.

Lemma split_assistants l before index inputs assistants started :
  td_assistant_messages d = before ++ l → length assistants = length before →
  Forall (λ a, is_role (am_message a) "assistant" = true) l →
  split_committed d (turn_actor d) index
    (numbered (λ i a, (am_message a, committed_at i (am_message a))) index l) inputs assistants
    started
  = Ok (inputs, assistants ++ numbered assistant_at index l).
Proof.
  revert before index assistants started.
  induction l as [|a l IH]; intros before index assistants started Hd Hlen Hl; cbn [numbered].
  - by rewrite app_nil_r.
  - apply Forall_cons in Hl as [Ha Hl]. cbn [split_committed].
    change (tm_role _) with (im_role (am_message a)). unfold is_role in Ha. rewrite Ha, Hlen, Hd.
    rewrite list_lookup_middle by done. rewrite (IH (before ++ [a])).
    + by rewrite <- app_assoc.
    + by rewrite Hd, <- app_assoc.
    + rewrite !length_app. cbn. lia.
    + done.
Qed.

(** The users and assistants of an admissible turn. *)
Definition turn_pairs := turn_users d ++ (am_message <$> td_assistant_messages d).

Lemma users_not_assistants : Forall (λ m, is_role m "assistant" = false) (turn_users d).
Proof.
  apply Forall_forall. intros m Hm%list_elem_of_In%filter_In.
  destruct Hm as [_ Hm]. unfold user_input in Hm. split_bool. by apply user_not_assistant.
Qed.

Lemma split_turn :
  Forall (λ a, is_role (am_message a) "assistant" = true) (td_assistant_messages d) →
  split_committed d (turn_actor d) 0
    (zip turn_pairs (committed_of <$> session_messages_of k d turn_pairs now)) [] [] false
  = Ok (numbered record_at 0 (turn_users d),
        numbered assistant_at (len (turn_users d)) (td_assistant_messages d)).
Proof.
  intros Ha. rewrite session_messages_numbered, numbered_fmap.
  rewrite (zip_numbered (λ i m, committed_of (session_of i m, im_authority m))).
  unfold turn_pairs. rewrite numbered_app, (fmap_numbered am_message).
  rewrite split_users by apply users_not_assistants. cbn [app]. rewrite !N.add_0_l.
  by rewrite (split_assistants _ []).
Qed.

(** ** Validation of the record *)

Lemma messages_bad_numbered i seen l :
  messages_bad (td_turn_id d) i seen (numbered record_at i l) = false ↔
  Forall (λ m, str_len (im_content m) ≤ MAX_SESSION_MESSAGE_LEN) l
  ∧ NoDup (numbered (λ j _, turn_message_id k d j) i l)
  ∧ Forall (λ x, x ∉ seen) (numbered (λ j _, turn_message_id k d j) i l).
Proof.
  revert i seen. induction l as [|m l IH]; intros i seen; cbn [numbered messages_bad].
  { split; [by repeat constructor|done]. }
  change (tm_message_id (record_at i m)) with (turn_message_id k d i).
  change (tm_turn_id (record_at i m)) with (td_turn_id d).
  change (tm_content (record_at i m)) with (im_content m).
  change (tm_sequence (record_at i m)) with (saturating_add i 1).
  change (is_empty (turn_message_id k d i)) with false.
  rewrite String.eqb_refl, N.eqb_refl, !orb_false_iff, IH, bool_decide_eq_false, N.ltb_ge.
  rewrite !Forall_cons, NoDup_cons, !Forall_forall. set_solver.
Qed.

Lemma repeats_id_numbered prior i l :
  repeats_id prior (numbered session_of i l) = false ↔
  NoDup (numbered (λ j _, turn_message_id k d j) i l)
  ∧ Forall (λ x, x ∉ sm_message_id <$> prior) (numbered (λ j _, turn_message_id k d j) i l).
Proof.
  revert prior i. induction l as [|m l IH]; intros prior i; cbn [numbered repeats_id].
  { split; [by repeat constructor|done]. }
  change (sm_message_id (session_of i m)) with (turn_message_id k d i).
  rewrite orb_false_iff, IH, NoDup_cons, !Forall_forall.
  assert (Hex : existsb (λ p, String.eqb (sm_message_id p) (turn_message_id k d i)) prior = false
                ↔ turn_message_id k d i ∉ sm_message_id <$> prior).
  { rewrite <- not_true_iff_false, existsb_exists. rewrite list_elem_of_fmap.
    setoid_rewrite list_elem_of_In. setoid_rewrite String.eqb_eq. naive_solver. }
  rewrite Hex. rewrite fmap_app. cbn. setoid_rewrite elem_of_cons. setoid_rewrite elem_of_app.
  setoid_rewrite list_elem_of_singleton. naive_solver.
Qed.

Lemma session_matches_at i m : session_matches (session_of i m) (record_at i m) = true.
Proof. unfold session_matches. cbn. by rewrite !String.eqb_refl, !N.eqb_refl. Qed.

Lemma forallb_matches i l :
  forallb (λ p, session_matches p.1 p.2) (zip (numbered session_of i l) (numbered record_at i l))
  = true.
Proof.
  revert i. induction l as [|m l IH]; intros i; [done|].
  cbn [numbered zip zip_with forallb fst snd]. by rewrite session_matches_at, IH.
Qed.

End Turn.
End Facts.

(** * Transcripts: storage keys

    A conversation key is stored under a string built from its trimmed and
    escaped components, each behind a label and its length.  Trimming twice is
    trimming once, the escape is injective and the lengths make the components
    prefix free, so different conversations and turns never share a key. *)

(** ** Trimming *)

Lemma trim_start_le s : (String.length (trim_start s) ≤ String.length s)%nat.
Proof.
  induction s as [s IH] using string_len_ind. destruct s as [|a s1]; [done|]. cbn [trim_start].
  destruct (is_ascii_ws (byte_of a)); [transitivity (String.length s1); [apply IH|]; cbn; lia|].
  destruct s1 as [|b s2]; [done|].
  destruct (is_ws2 _ _); [transitivity (String.length s2); [apply IH|]; cbn; lia|].
  destruct s2 as [|c s3]; [done|].
  destruct (is_ws3 _ _ _); [transitivity (String.length s3); [apply IH|]; cbn; lia|done].
Qed.

(** A string that starts without whitespace. *)
Definition starts_clean (s : string) : Prop := trim_start s = s.
Definition starts_clean_rev (s : string) : Prop := trim_start_rev s = s.

Lemma trim_start_clean s : starts_clean (trim_start s).
Proof.
  unfold starts_clean. induction s as [s IH] using string_len_ind.
  destruct s as [|a s1]; [done|]. cbn [trim_start].
  destruct (is_ascii_ws (byte_of a)) eqn:E1; [apply IH; cbn; lia|].
  destruct s1 as [|b s2]; [cbn; by rewrite E1|].
  destruct (is_ws2 (byte_of a) (byte_of b)) eqn:E2; [apply IH; cbn; lia|].
  destruct s2 as [|c s3]; [cbn; by rewrite E1, E2|].
  destruct (is_ws3 (byte_of a) (byte_of b) (byte_of c)) eqn:E3; [apply IH; cbn; lia|].
  cbn. by rewrite E1, E2, E3.
Qed.

Lemma trim_start_rev_clean s : starts_clean_rev (trim_start_rev s).
Proof.
  unfold starts_clean_rev. induction s as [s IH] using string_len_ind.
  destruct s as [|a s1]; [done|]. cbn [trim_start_rev].
  destruct (is_ascii_ws (byte_of a)) eqn:E1; [apply IH; cbn; lia|].
  destruct s1 as [|b s2]; [cbn; by rewrite E1|].
  destruct (is_ws2 (byte_of b) (byte_of a)) eqn:E2; [apply IH; cbn; lia|].
  destruct s2 as [|c s3]; [cbn; by rewrite E1, E2|].
  destruct (is_ws3 (byte_of c) (byte_of b) (byte_of a)) eqn:E3; [apply IH; cbn; lia|].
  cbn. by rewrite E1, E2, E3.
Qed.

Lemma str_app_cons a (p q : string) : String a p +:+ q = String a (p +:+ q).
Proof. done. Qed.

Lemma str_app_empty (q : string) : "" +:+ q = q.
Proof. done. Qed.

(** A prefix of a string that starts clean does too. *)
Lemma clean_prefix p q : starts_clean (p +:+ q) → starts_clean p.
Proof.
  unfold starts_clean. destruct p as [|a p]; [done|]. rewrite str_app_cons.
  intros Hlen%(f_equal String.length). revert Hlen. cbn [trim_start].
  destruct (is_ascii_ws (byte_of a)) eqn:E1.
  { pose proof (trim_start_le (p +:+ q)). cbn [String.length]. lia. }
  destruct p as [|b p]; [done|]. rewrite str_app_cons.
  destruct (is_ws2 _ _); [pose proof (trim_start_le (p +:+ q)); cbn [String.length]; lia|].
  destruct p as [|c p]; [done|]. rewrite str_app_cons.
  destruct (is_ws3 _ _ _); [pose proof (trim_start_le (p +:+ q)); cbn [String.length]; lia|done].
Qed.

Lemma str_app_assoc (a b c : string) : a +:+ (b +:+ c) = (a +:+ b) +:+ c.
Proof. induction a as [|x a IH]; [done|by rewrite !str_app_cons, IH]. Qed.

Lemma str_app_nil (a : string) : a +:+ "" = a.
Proof. induction a as [|x a IH]; [done|by rewrite !str_app_cons, IH]. Qed.

Lemma str_rev_app_spec s acc : str_rev_app s acc = str_rev s +:+ acc.
Proof.
  unfold str_rev. revert acc. induction s as [|a s IH]; intros acc; cbn [str_rev_app]; [done|].
  rewrite IH, (IH (String a "")). by rewrite <- str_app_assoc.
Qed.

Lemma str_rev_cons a s : str_rev (String a s) = str_rev s +:+ String a "".
Proof. unfold str_rev at 1. cbn. apply str_rev_app_spec. Qed.

Lemma str_rev_append a b : str_rev (a +:+ b) = str_rev b +:+ str_rev a.
Proof.
  induction a as [|x a IH].
  - by rewrite str_app_nil.
  - by rewrite str_app_cons, !str_rev_cons, IH, str_app_assoc.
Qed.

Lemma str_rev_involutive s : str_rev (str_rev s) = s.
Proof.
  induction s as [|a s IH]; [done|]. rewrite str_rev_cons, str_rev_append, IH. done.
Qed.

Lemma trim_start_rev_suffix s : ∃ q, s = q +:+ trim_start_rev s.
Proof.
  induction s as [s IH] using string_len_ind.
  destruct s as [|a s1]; [by exists ""|]. cbn [trim_start_rev].
  destruct (is_ascii_ws (byte_of a)).
  { destruct (IH s1) as [q Hq]; [cbn; lia|]. exists (String a q). rewrite !str_app_cons. by rewrite <- Hq. }
  destruct s1 as [|b s2]; [by exists ""|]. destruct (is_ws2 _ _).
  { destruct (IH s2) as [q Hq]; [cbn; lia|]. exists (String a (String b q)). rewrite !str_app_cons. by rewrite <- Hq. }
  destruct s2 as [|c s3]; [by exists ""|]. destruct (is_ws3 _ _ _); [|by exists ""].
  destruct (IH s3) as [q Hq]; [cbn; lia|]. exists (String a (String b (String c q))). rewrite !str_app_cons.
  by rewrite <- Hq.
Qed.

Lemma trim_end_prefix s : ∃ q, s = trim_end s +:+ q.
Proof.
  unfold trim_end. destruct (trim_start_rev_suffix (str_rev s)) as [q Hq].
  exists (str_rev q). rewrite <- str_rev_append, <- Hq. by rewrite str_rev_involutive.
Qed.

Lemma trim_idempotent s : trim (trim s) = trim s.
Proof.
  unfold trim. destruct (trim_end_prefix (trim_start s)) as [q Hq].
  assert (Hc : starts_clean (trim_end (trim_start s))).
  { apply (clean_prefix _ q). rewrite <- Hq. apply trim_start_clean. }
  unfold starts_clean in Hc. rewrite Hc. unfold trim_end. rewrite str_rev_involutive.
  by rewrite trim_start_rev_clean.
Qed.

(** ** The escape *)

Lemma byte_bound c : byte_of c < 256.
Proof. apply N_ascii_bounded. Qed.

Lemma byte_of_inj c c' : byte_of c = byte_of c' → c = c'.
Proof. intros H. rewrite <- (ascii_N_embedding c), <- (ascii_N_embedding c'). by f_equal. Qed.

Lemma byte_of_ascii n : n < 256 → byte_of (ascii_of_N n) = n.
Proof. apply N_ascii_embedding. Qed.

Lemma upper_hex_digit_inj n m :
  n < 16 → m < 16 → upper_hex_digit n = upper_hex_digit m → n = m.
Proof.
  intros Hn Hm H%(f_equal byte_of). unfold upper_hex_digit in H.
  destruct (n <? 10) eqn:En, (m <? 10) eqn:Em; split_bool; rewrite !byte_of_ascii in H by lia; lia.
Qed.

Lemma encode_key_bytes_inj a b : encode_key_bytes a = encode_key_bytes b → a = b.
Proof.
  revert b. induction a as [|x a IH]; intros [|y b]; cbn [encode_key_bytes]; [done| | |].
  - by destruct (is_key_char y).
  - by destruct (is_key_char x).
  - destruct (is_key_char x) eqn:Ex, (is_key_char y) eqn:Ey.
    + intros [= -> H]. f_equal. by apply IH.
    + by intros [= -> _].
    + by intros [= <- _].
    + intros [= H1 H2 H].
      pose proof (byte_bound x). pose proof (byte_bound y).
      apply upper_hex_digit_inj in H1; [|by apply N.Div0.div_lt_upper_bound..].
      apply upper_hex_digit_inj in H2; [|by apply N.mod_lt..].
      rewrite (IH _ H). f_equal. apply byte_of_inj.
      rewrite (N.div_mod' (byte_of x) 16), (N.div_mod' (byte_of y) 16). congruence.
Qed.

(** What the encoding of a component keeps of it. *)
Definition component_name (raw : string) : string := if blank raw then "_" else trim raw.

Lemma encode_key_component_name raw :
  encode_key_component raw = encode_key_bytes (component_name raw).
Proof. unfold encode_key_component, component_name, blank. by destruct (is_empty (trim raw)). Qed.

(** ** Labels and lengths *)

Definition digit_char (c : ascii) : bool := (48 <=? byte_of c) && (byte_of c <=? 57).

Lemma pretty_digits (n : N) : forallb digit_char (String.list_ascii_of_string (pretty n)) = true.
Proof.
  assert (Hgo : ∀ n s, forallb digit_char (String.list_ascii_of_string s) = true →
      forallb digit_char (String.list_ascii_of_string (pretty_N_go n s)) = true).
  { intros m s Hs. revert s Hs. induction (N.lt_wf_0 m) as [m _ IH]; intros s Hs.
    destruct (decide (m = 0)) as [->|Hm]; [done|].
    rewrite pretty_N_go_step by lia. apply IH; [by apply N.div_lt; lia|].
    cbn. rewrite Hs, andb_true_r. unfold pretty_N_char. by repeat case_match. }
  unfold pretty, pretty_N. case_decide; [done|]. by apply Hgo.
Qed.

(** Digits up to a delimiter that is not one. *)
Lemma digits_delimited (a b ra rb : string) c :
  digit_char c = false →
  forallb digit_char (String.list_ascii_of_string a) = true →
  forallb digit_char (String.list_ascii_of_string b) = true →
  a +:+ String c ra = b +:+ String c rb → a = b ∧ ra = rb.
Proof.
  intros Hc. revert b.
  induction a as [|x a IH]; intros [|y b]; rewrite ?str_app_cons, ?str_app_empty; cbn.
  - intros _ _ H. by injection H as ->.
  - intros _ [Hy _]%andb_true_iff H. injection H as -> _. congruence.
  - intros [Hx _]%andb_true_iff _ H. injection H as -> _. congruence.
  - intros [_ Ha]%andb_true_iff [_ Hb]%andb_true_iff H. injection H as -> H.
    by destruct (IH b Ha Hb H) as [-> ->].
Qed.

Lemma str_app_inj_len (a b ra rb : string) :
  String.length a = String.length b → a +:+ ra = b +:+ rb → a = b ∧ ra = rb.
Proof.
  revert b. induction a as [|x a IH]; intros [|y b]; try done.
  rewrite !str_app_cons. intros [= Hl] [= -> H].
  by destruct (IH b Hl H) as [-> ->].
Qed.

Lemma str_app_inj_l (l a b : string) : l +:+ a = l +:+ b → a = b.
Proof. induction l as [|x l IH]; [done|]. rewrite !str_app_cons. intros [= H]. by apply IH. Qed.

Lemma labeled_inj label a b ra rb :
  encode_labeled_key_component label a +:+ ra = encode_labeled_key_component label b +:+ rb →
  component_name a = component_name b ∧ ra = rb.
Proof.
  unfold encode_labeled_key_component. rewrite <- !str_app_assoc.
  intros H%str_app_inj_l.
  apply (digits_delimited _ _ _ _ ":"%char) in H as [Hn H]; [|done|apply pretty_digits..].
  apply (inj pretty) in Hn. unfold str_len in Hn.
  apply str_app_inj_len in H as [He ->]; [|lia].
  split; [|done]. rewrite !encode_key_component_name in He. by apply encode_key_bytes_inj.
Qed.

(** Keys as [ConversationKey::new] makes them. *)
Definition key_canonical (k : ConversationKey) : Prop :=
  ∃ space channel conversation, conversation_key_new space channel conversation = Ok k.

Lemma key_canonical_parts k :
  key_canonical k →
  component_name (ck_memory_space_id k) = ck_memory_space_id k
  ∧ component_name (ck_channel_id k) = ck_channel_id k
  ∧ component_name (ck_conversation_id k) = ck_conversation_id k.
Proof.
  intros (space & channel & conversation & H). unfold conversation_key_new, conversation_key_validate in H.
  inv_ok.
  split_bool. cbn [ck_memory_space_id ck_channel_id ck_conversation_id] in *.
  unfold component_name, blank. rewrite !trim_idempotent.
  repeat match goal with H : is_empty _ = false |- _ => rewrite H end. done.
Qed.

Lemma storage_key_rest k k' r r' :
  key_canonical k → key_canonical k' →
  storage_key k +:+ r = storage_key k' +:+ r' → k = k' ∧ r = r'.
Proof.
  intros (T1 & T2 & T3)%key_canonical_parts (T1' & T2' & T3')%key_canonical_parts.
  unfold storage_key. rewrite <- !str_app_assoc.
  intros H. apply labeled_inj in H as [H1 H]. apply str_app_inj_l in H.
  apply labeled_inj in H as [H2 H]. apply str_app_inj_l in H.
  apply labeled_inj in H as [H3 ->].
  split; [|done]. destruct k, k'. cbn in *. congruence.
Qed.

(** C36: which storage keys of the transcript contract are equal.  For
    conversation keys as the constructor makes them, two conversations have
    the same key exactly when they are the same; two turns have the same key
    exactly when they are of the same conversation and their identifiers have
    the same name, which is the identifier without surrounding whitespace and
    ["_"] for a blank one, so that ["t"] and [" t"], or a blank identifier and
    ["_"], do share a key; and no conversation has the key of a turn. *)
Theorem storage_keys_exact k k' turn turn' :
  key_canonical k → key_canonical k' →
  (storage_key k = storage_key k' ↔ k = k')
  ∧ (turn_storage_key k turn = turn_storage_key k' turn' ↔
     k = k' ∧ (if blank turn then "_" else trim turn) = if blank turn' then "_" else trim turn')
  ∧ storage_key k ≠ turn_storage_key k' turn'.
Proof.
  intros Hk Hk'. unfold turn_storage_key. split_and!.
  - split; [|by intros ->]. intros H. apply (storage_key_rest k k' "" ""); [done..|]. by rewrite H.
  - change (storage_key k +:+ "__" +:+ encode_labeled_key_component "turn" turn
      = storage_key k' +:+ "__" +:+ encode_labeled_key_component "turn" turn'
      ↔ k = k' ∧ component_name turn = component_name turn').
    split.
    + intros [-> H]%storage_key_rest; [|done..]. split; [done|].
      apply str_app_inj_l in H. apply (labeled_inj "turn" _ _ "" ""). by rewrite H.
    + intros [-> H]. unfold encode_labeled_key_component. by rewrite !encode_key_component_name, H.
  - rewrite <- (str_app_nil (storage_key k)).
    intros [_ H]%storage_key_rest; [discriminate H|done..].
Qed.

Lemma storage_keys_exact_witness :
  storage_key (mkConversationKey "space" "a__ch" "b") ≠ storage_key (mkConversationKey "space" "a" "ch__b").
Proof.
  intros H.
  assert (E : mkConversationKey "space" "a__ch" "b" = mkConversationKey "space" "a" "ch__b").
  { refine (proj1 (proj1 (storage_keys_exact (mkConversationKey "space" "a__ch" "b")
                     (mkConversationKey "space" "a" "ch__b") "t" "t" _ _)) H).
    - by exists "space", " a__ch ", "b".
    - by exists "space", "a", "ch__b ". }
  discriminate E.
Defined.
