(* ===== verification/TurnPlan.v ===== *)
(** * Transcripts: when a new turn can be committed

    The validations of a planned turn, each of which rebuilds and compares
    several images of the same messages, come down to conditions on the turn
    and the session alone. *)

From S2P Require Import Prelude RustStr StoreTypes ReadSession LongTermEntry TurnTypes Transcript TurnCommit TranscriptView TurnPlanFacts.
From Stdlib Require Import Ascii.

Local Open Scope string_scope.
Local Open Scope list_scope.
Local Open Scope N_scope.

(** Documented behaviour of [sha2]: a digest printed with [{:x}] is 64
    lowercase hexadecimal digits. *)
Class TurnCodecLaws {codec : TurnCodec} : Prop :=
  turn_sha256_format b :
    (str_len (turn_sha256_hex b) =? 64)
    && forallb is_lower_hex (String.list_ascii_of_string (turn_sha256_hex b)) = true.
Arguments TurnCodecLaws : clear implicits.

Section Plan.
Context {codec : TurnCodec} {learning : LearningEvidence} {laws : TurnCodecLaws codec}.

(** ** What the first checks give *)

Record delta_valid (d : CanonicalTurnDelta) : Prop := {
  dv_settlements : assistant_settlements_valid (td_delivery_status d)
                     (am_settlement <$> td_assistant_messages d) = true;
  dv_count : saturating_add (len (td_input_messages d)) (len (td_assistant_messages d))
             ≤ MAX_SESSION_ENTRIES;
  dv_actor : actor_contradicts (td_actor d) (td_subject d) = false;
  dv_assistants : Forall (λ a, assistant_message_bad (am_message a) = false)
                    (td_assistant_messages d);
}.

Lemma existsb_Forall {A} (f : A → bool) l : existsb f l = false ↔ Forall (λ a, f a = false) l.
Proof.
  induction l as [|a l IH]; cbn; [split; [by constructor|done]|].
  by rewrite orb_false_iff, IH, Forall_cons.
Qed.

Lemma validate_assistants_valid d : validate_assistant_messages d = Ok tt ↔ delta_valid d.
Proof.
  unfold validate_assistant_messages, ensure. split.
  - intros H. destruct (negb _) eqn:E; [|done]. split_bool. split; [done..|].
    by apply existsb_Forall.
  - intros [Hs Hc Ha Hm]. apply existsb_Forall in Hm. rewrite Hs, Ha, Hm.
    apply N.ltb_ge in Hc. rewrite Hc. done.
Qed.

Lemma assistants_have_role d :
  delta_valid d →
  Forall (λ a, is_role (am_message a) "assistant" = true) (td_assistant_messages d).
Proof.
  intros Hd. eapply Forall_impl; [apply (dv_assistants d Hd)|].
  intros a. unfold assistant_message_bad. cbn. intros H. by split_bool.
Qed.

Lemma turn_actor_subject d :
  delta_valid d → aa_subject_id (turn_actor d) = Some (td_subject d).
Proof.
  intros [_ _ Ha _]. unfold turn_actor, inherited_actor, normalized_for_subject, actor_contradicts in *.
  cbn. destruct (td_actor d) as [a|]; cbn in *; [|done].
  destruct (aa_subject_id a) as [s|]; cbn in *; [|done].
  apply negb_false_iff, String.eqb_eq in Ha. by rewrite Ha.
Qed.

(** Normalizing the actor of the turn again does not change its subject. *)
Lemma or_subject_turn d :
  delta_valid d → or_subject (aa_subject_id (turn_actor d)) (td_subject d) = Some (td_subject d).
Proof. intros Hd. by rewrite turn_actor_subject. Qed.

Lemma key_from_delta_parts space d k :
  conversation_key_from_delta space d = Ok k →
  conversation_key_validate k = Ok tt ∧ ck_memory_space_id k = trim space
  ∧ ck_channel_id k = trim (cv_channel (td_conversation d))
  ∧ ck_conversation_id k = trim (delta_conversation_id d).
Proof.
  unfold conversation_key_from_delta, conversation_key_new. intros H.
  destruct (conversation_key_validate _) as [[]|] eqn:E; cbn in H; [|done]. by injection H as <-.
Qed.

Lemma digest_form d digest :
  canonical_turn_learning_digest d = Ok digest → canonical_sha256_digest digest = true.
Proof using laws.
  unfold canonical_turn_learning_digest. intros H. inv_ok. unfold canonical_sha256_digest. cbn.
  apply turn_sha256_format.
Qed.

(** ** The record of a new turn *)

Section Turn.
Context (space : string) (d : CanonicalTurnDelta) (k : ConversationKey)
  (options : CanonicalTurnTranscriptCommitOptions) (before : list SessionMessage)
  (digest : string).

Let now := co_now_secs options.

Definition built : TranscriptTurnRecord :=
  mkTurnRecord 0 k (td_turn_id d) (cv_chat_id (td_conversation d)) digest 0
    (td_delivery_status d) (td_source d) (td_subject d) (turn_actor d)
    (numbered (record_at k d now) 0 (turn_users d))
    (numbered (assistant_at k d now) (len (turn_users d)) (td_assistant_messages d))
    (td_tool_observations d) (co_host_refs options) (co_learning_evidence options)
    (td_external_content_used d) (td_candidate_ids d) LcActive RawAvailable now now.

Definition built_intent : TranscriptAppendIntent :=
  mkAppendIntent built (co_conversation_alias options).

Definition built_append : CanonicalTurnAppendIntent :=
  mkCanonicalAppend (cv_chat_id (td_conversation d)) before
    (numbered (session_of k d now) 0 (turn_pairs d)) built_intent.

Lemma built_messages : record_messages built = numbered (record_at k d now) 0 (turn_pairs d).
Proof using.
  unfold record_messages, turn_pairs. cbn. rewrite numbered_app, (fmap_numbered am_message).
  by rewrite numbered_fmap.
Qed.

(** The identifiers of the messages of the turn. *)
Definition built_ids : list string :=
  numbered (λ j _, turn_message_id k d j) 0 (turn_pairs d).

Context (Hd : delta_valid d) (Hkey : conversation_key_from_delta space d = Ok k)
  (Hev : check_learning_evidence space d (co_learning_evidence options) = Ok tt)
  (Hal : check_alias k d (co_conversation_alias options) = Ok tt)
  (Hdigest : canonical_turn_learning_digest d = Ok digest).

Lemma digest_observations :
  validate_tool_observation_identities (td_tool_observations d) = Ok tt.
Proof using Hdigest.
  unfold canonical_turn_learning_digest in Hdigest.
  destruct (validate_tool_observation_identities _) as [[]|]; [done|]. by cbn in Hdigest.
Qed.

Lemma from_committed_built :
  from_committed_messages k 0 d (turn_pairs d)
    (committed_of <$> session_messages_of k d (turn_pairs d) now)
    (mkAttachments (co_host_refs options) (co_learning_evidence options)) now = Ok built.
Proof using Hd Hkey Hdigest.
  apply key_from_delta_parts in Hkey as (_ & _ & Hch & Hcv).
  unfold from_committed_messages, validate_key_matches_delta.
  rewrite digest_observations, Hch, Hcv. cbn -[from_committed_messages].
  rewrite !String.eqb_refl. cbn -[len]. apply validate_assistants_valid in Hd as Hv. rewrite Hv.
  cbn -[len session_messages_of].
  assert (Hl1 : (len (turn_pairs d)
                 =? len (committed_of <$> session_messages_of k d (turn_pairs d) now)) = true).
  { unfold session_messages_of, len. by rewrite length_fmap, length_imap, N.eqb_refl. }
  rewrite Hl1. cbn -[len session_messages_of].
  change (inherited_actor (td_actor d) (td_subject d)) with (turn_actor d).
  rewrite (split_turn k d now (assistants_have_role d Hd)). cbn -[len].
  assert (Hl2 : (len (numbered (assistant_at k d now) (len (turn_users d)) (td_assistant_messages d))
                 =? len (td_assistant_messages d)) = true).
  { unfold len. by rewrite numbered_length, N.eqb_refl. }
  rewrite Hl2. cbn -[len]. by rewrite Hdigest.
Qed.

Lemma built_shape : assistant_shape_bad built = false.
Proof using Hd.
  unfold assistant_shape_bad. cbn -[len turn_actor numbered assistant_at assistant_record_bad].
  rewrite numbered_fmap. cbn -[len turn_actor assistant_record_bad].
  assert (Hset : numbered (λ _ a, am_settlement a) (len (turn_users d)) (td_assistant_messages d)
                 = am_settlement <$> td_assistant_messages d).
  { generalize (len (turn_users d)). induction (td_assistant_messages d) as [|a l IH]; intros n; cbn; [done|].
    by rewrite IH. }
  rewrite Hset, (dv_settlements d Hd), turn_actor_subject by done.
  rewrite bool_decide_eq_true_2 by done. cbn -[len assistant_record_bad numbered]. rewrite orb_false_r, orb_false_iff. split.
  - apply N.ltb_ge. unfold len. rewrite !numbered_length.
    pose proof (filter_length_le user_input (td_input_messages d)) as Hle.
    pose proof (dv_count d Hd) as Hc. unfold saturating_add, len, turn_users in *. lia.
  - apply existsb_Forall, numbered_Forall. intros j a Ha. unfold assistant_record_bad. cbn.
    pose proof (dv_assistants d Hd) as Hall. rewrite Forall_forall in Hall.
    specialize (Hall a Ha). unfold assistant_message_bad in Hall. split_bool.
    unfold is_role in *. rewrite H, H0, H2.
    pose proof (or_subject_turn d Hd) as Hos. cbn in Hos. rewrite Hos.
    rewrite !bool_decide_eq_true_2 by done. cbn. rewrite !orb_false_r. by apply N.ltb_ge.
Qed.

(** What the evidence of an accepted turn says. *)
Lemma evidence_facts e :
  co_learning_evidence options = Some e →
  le_validate_contract e = true ∧ le_memory_space_id e = space
  ∧ le_mounted_subject_id e = td_subject d ∧ le_conversation_id e = delta_conversation_id d
  ∧ le_turn_id e = td_turn_id d ∧ le_canonical_turn_digest e = digest.
Proof using Hev Hdigest.
  intros He. unfold check_learning_evidence in Hev. rewrite He in Hev.
  destruct (_ || _) eqn:E; [done|]. rewrite Hdigest in Hev. cbn in Hev. split_bool.
  unfold ensure in Hev. destruct (String.eqb (le_canonical_turn_digest e) digest) eqn:Ed; [|done].
  repeat match goal with H : String.eqb _ _ = true |- _ => apply String.eqb_eq in H end. done.
Qed.

Definition contents_fit : Prop :=
  Forall (λ m, str_len (im_content m) ≤ MAX_SESSION_MESSAGE_LEN) (turn_pairs d).

Lemma built_valid :
  record_valid built ↔
  canonical_component (cv_chat_id (td_conversation d)) = true ∧ contents_fit ∧ NoDup built_ids.
Proof using Hd Hev Hdigest laws.
  split.
  - intros [_ Hc _ _ _ Hm _ _]. rewrite built_messages in Hm.
    apply messages_bad_numbered in Hm as (Hfit & Hnd & _). done.
  - intros (Hc & Hfit & Hnd). split; try done.
    + apply digest_observations.
    + apply built_shape.
    + rewrite built_messages. apply messages_bad_numbered. split_and!; [done..|].
      apply Forall_true. intros x. apply not_elem_of_empty.
    + by eapply digest_form.
    + intros e He. by apply evidence_facts.
Qed.

(** The evidence is bound to the key only when the identifiers are canonical. *)
Definition evidence_canonical : Prop :=
  ∀ e, co_learning_evidence options = Some e →
       trim space = space ∧ trim (delta_conversation_id d) = delta_conversation_id d.

Lemma fits_budget r :
  Forall (λ m, str_len (tm_content m) ≤ MAX_SESSION_MESSAGE_LEN) (record_messages r) →
  existsb (λ m, MAX_SESSION_MESSAGE_LEN <? str_len (tm_content m)) (record_messages r) = false.
Proof using.
  intros H. apply existsb_Forall. eapply Forall_impl; [exact H|]. intros m. apply N.ltb_ge.
Qed.

Lemma alias_owner_ok :
  match co_conversation_alias options with
  | Some a => validate_for_transcript_owner a k (td_subject d)
  | None => Ok tt
  end = Ok tt.
Proof using Hal.
  unfold check_alias in Hal. destruct (co_conversation_alias options) as [a|]; [|done].
  by destruct (validate_for_transcript_owner a k (td_subject d)) as [[]|].
Qed.

Lemma built_intent_ok :
  append_intent_validate built_intent = Ok tt ↔
  record_valid built ∧ canonical_component (td_subject d) = true ∧ evidence_canonical.
Proof using Hd Hkey Hev Hal Hdigest laws.
  destruct (key_from_delta_parts _ _ _ Hkey) as (Hkv & Hsp & _ & Hcv).
  unfold append_intent_validate. cbn [ai_record ai_conversation_alias built_intent].
  split.
  - intros H. inv_ok. split_and!.
    + apply validate_intake_valid. by destruct a.
    + unfold require_canonical_transcript_query_component in *. by inv_ok.
    + intros e He. cbn [tt_learning_evidence built] in H. rewrite He in H.
      unfold ensure in H. destruct (_ && _) eqn:Eb in H; [|done]. split_bool.
      repeat match goal with H : String.eqb _ _ = true |- _ => apply String.eqb_eq in H end.
      destruct (evidence_facts e He) as (_ & Hf1 & _ & Hf2 & _).
      cbn in *. split; congruence.
  - intros (Hv & Hs & Hc). pose proof (proj2 (validate_intake_valid built) Hv) as Hi.
    apply built_valid in Hv as (_ & Hfit & _). rewrite Hi. cbn -[built record_messages].
    change (tt_key built) with k. change (tt_subject built) with (td_subject d).
    rewrite Hkv. cbn -[built record_messages canonical_component].
    unfold require_canonical_transcript_query_component. rewrite Hs.
    cbn -[built record_messages]. rewrite fits_budget.
    2: { rewrite built_messages. apply numbered_Forall. intros j m Hm. cbn.
         unfold contents_fit in Hfit. rewrite Forall_forall in Hfit. by apply Hfit. }
    cbn. rewrite alias_owner_ok. cbn. pose proof evidence_facts as Hfacts.
    unfold evidence_canonical in Hc. clear Hev Hi.
    destruct (co_learning_evidence options) as [e|]; [|done].
    destruct (Hfacts e eq_refl) as (H0 & H1 & H2 & H3 & H4 & _).
    destruct (Hc e eq_refl) as [Hc1 Hc2].
    rewrite H0, H1, H2, H3, H4, Hsp, Hcv, Hc1, Hc2, !String.eqb_refl. done.
Qed.

Definition fresh_ids : Prop := Forall (λ x, x ∉ sm_message_id <$> before) built_ids.

Lemma pair_role_not_blank m : m ∈ turn_pairs d → blank (im_role m) = false.
Proof using Hd.
  unfold turn_pairs. rewrite elem_of_app. intros [Hm|Hm].
  - apply list_elem_of_In, filter_In in Hm as [_ Hm]. unfold user_input in Hm. split_bool.
    by eapply role_not_blank; [|done].
  - apply list_elem_of_fmap in Hm as (a & -> & Ha). pose proof (assistants_have_role d Hd) as Hr.
    rewrite Forall_forall in Hr. eapply role_not_blank; [|by apply Hr]. done.
Qed.

Lemma append_messages_ok :
  contents_fit → existsb session_message_bad (numbered (session_of k d now) 0 (turn_pairs d)) = false.
Proof using Hd.
  intros Hfit. apply existsb_Forall, numbered_Forall. intros j m Hm. unfold session_message_bad.
  cbn [session_of into_session_message sm_message_id sm_role sm_content].
  rewrite pair_role_not_blank by done. unfold contents_fit in Hfit. rewrite Forall_forall in Hfit.
  specialize (Hfit m Hm). apply N.ltb_ge in Hfit. rewrite Hfit, !orb_false_r.
  by apply (not_blank_head "m"%char).
Qed.

Lemma fresh_exists :
  existsb (λ m, existsb (λ p, String.eqb (sm_message_id p) (sm_message_id m)) before)
    (numbered (session_of k d now) 0 (turn_pairs d)) = false ↔ fresh_ids.
Proof using.
  unfold fresh_ids, built_ids. generalize 0. induction (turn_pairs d) as [|m l IH]; intros i.
  { split; [by constructor|done]. }
  cbn [numbered existsb]. rewrite orb_false_iff, IH, Forall_cons.
  change (sm_message_id (session_of k d now i m)) with (turn_message_id k d i).
  enough (existsb (λ p, String.eqb (sm_message_id p) (turn_message_id k d i)) before = false
          ↔ turn_message_id k d i ∉ sm_message_id <$> before) by tauto.
  rewrite <- not_true_iff_false, existsb_exists, list_elem_of_fmap.
  setoid_rewrite list_elem_of_In. setoid_rewrite String.eqb_eq. naive_solver.
Qed.

Lemma alias_chat_ok :
  match co_conversation_alias options with
  | Some a => String.eqb (al_chat_id a) (cv_chat_id (td_conversation d))
  | None => true
  end = true.
Proof using Hal.
  unfold check_alias in Hal. destruct (co_conversation_alias options) as [a|]; [|done].
  destruct (validate_for_transcript_owner a k (td_subject d)); cbn in Hal; [|done].
  unfold ensure in Hal. by destruct (String.eqb _ _).
Qed.

Lemma built_append_ok :
  turn_pairs d ≠ [] →
  canonical_append_validate built_append = Ok tt ↔
  append_intent_validate built_intent = Ok tt ∧ fresh_ids.
Proof using Hd Hkey Hev Hal Hdigest laws.
  intros Hne. unfold canonical_append_validate.
  change (ca_transcript built_append) with built_intent.
  destruct (append_intent_validate built_intent) as [[]|e] eqn:Ei; [|split; [done|by intros []]].
  pose proof (proj1 built_intent_ok Ei) as (Hv & _ & _).
  apply built_valid in Hv as (Hc & Hfit & Hnd). cbn -[built_append built canonical_component record_messages repeats_id].
  unfold require_canonical_transcript_query_component.
  change (ca_session_chat_id built_append) with (cv_chat_id (td_conversation d)). rewrite Hc.
  cbn -[built_append built record_messages repeats_id].
  change (tt_session_chat_id built) with (cv_chat_id (td_conversation d)).
  rewrite String.eqb_refl. cbn -[built_append built record_messages repeats_id].
  rewrite alias_chat_ok. cbn -[built_append built record_messages repeats_id].
  change (ca_session_before built_append) with before.
  change (ca_session_append built_append) with (numbered (session_of k d now) 0 (turn_pairs d)).
  rewrite append_messages_ok by done.
  assert (Hrep : repeats_id [] (numbered (session_of k d now) 0 (turn_pairs d)) = false).
  { apply repeats_id_numbered. split; [done|]. apply Forall_true. intros x. cbn. apply not_elem_of_nil. }
  rewrite Hrep, !orb_false_r, built_messages.
  assert (Hvalid : (len (numbered (session_of k d now) 0 (turn_pairs d))
                    =? len (numbered (record_at k d now) 0 (turn_pairs d)))
                   && forallb (λ p, session_matches p.1 p.2)
                        (zip (numbered (session_of k d now) 0 (turn_pairs d))
                           (numbered (record_at k d now) 0 (turn_pairs d))) = true).
  { rewrite forallb_matches. unfold len. by rewrite !numbered_length, N.eqb_refl. }
  rewrite <- fresh_exists. destruct (turn_pairs d) as [|m l]; [done|].
  cbn [numbered] in Hvalid |- *. rewrite Hvalid. cbn [negb orb]. unfold ensure.
  destruct (existsb _ _); cbn; [|done]. split; [done|by intros []].
Qed.

(** ** When a turn can be planned *)

Record turn_admissible : Prop := {
  ta_chat : canonical_component (cv_chat_id (td_conversation d)) = true;
  ta_subject : canonical_component (td_subject d) = true;
  ta_fit : contents_fit;
  ta_ids : NoDup built_ids;
  ta_fresh : fresh_ids;
  ta_evidence : evidence_canonical;
}.

Lemma built_admissible :
  turn_pairs d ≠ [] →
  canonical_append_validate built_append = Ok tt ↔ turn_admissible.
Proof using Hd Hkey Hev Hal Hdigest laws.
  intros Hne. rewrite built_append_ok, built_intent_ok, built_valid by done. split.
  - by intros [((? & ? & ?) & ? & ?) ?].
  - by intros [].
Qed.

End Turn.

(** The session report of a turn that commits its messages. *)
Definition committed_session (k : ConversationKey) (d : CanonicalTurnDelta) (now count : N)
    : SessionTurnCommitReport :=
  mkSessionCommit true true (cv_chat_id (td_conversation d)) count
    (N.min (saturating_add count (len (turn_pairs d))) MAX_SESSION_ENTRIES)
    (numbered (committed_at k d now) 0 (turn_pairs d)) None.

Definition skipped_session (d : CanonicalTurnDelta) (count : N) : SessionTurnCommitReport :=
  mkSessionCommit true false (cv_chat_id (td_conversation d)) count count []
    (Some (skipped_reason (td_delivery_status d))).

Lemma plan_new_turn_skips k d options before :
  turn_inputs d = [] →
  plan_new_turn k d options before
  = Ok (mkCommitPlan None (mkTurnCommitReport (skipped_session d (len before)) None)).
Proof using.
  intros H. unfold plan_new_turn, plan_prepared_session_messages.
  change (pc_messages (prepare_canonical_turn_delta (len before) d)) with (turn_inputs d).
  rewrite H. unfold skipped_session. cbn. unfold turn_inputs in H. cbn in H. by rewrite H.
Qed.

Lemma plan_new_turn_exact space k d options before plan :
  delta_valid d → conversation_key_from_delta space d = Ok k →
  check_learning_evidence space d (co_learning_evidence options) = Ok tt →
  check_alias k d (co_conversation_alias options) = Ok tt → turn_inputs d ≠ [] →
  plan_new_turn k d options before = Ok plan ↔
  ∃ digest, canonical_turn_learning_digest d = Ok digest
    ∧ turn_admissible space d k options before
    ∧ plan = mkCommitPlan (Some (built_append d k options before digest))
               (mkTurnCommitReport (committed_session k d (co_now_secs options) (len before)) None).
Proof using laws.
  intros Hd Hkey Hev Hal Hne. destruct (turn_inputs_cases d) as [?|Hpairs]; [done|].
  fold (turn_pairs d) in Hpairs. rewrite Hpairs in Hne.
  assert (Hplan : plan_prepared_session_messages k d
                    (prepare_canonical_turn_delta (len before) d) (co_now_secs options)
                  = (numbered (session_of k d (co_now_secs options)) 0 (turn_pairs d),
                     committed_session k d (co_now_secs options) (len before))).
  { unfold plan_prepared_session_messages, committed_session.
    change (pc_messages (prepare_canonical_turn_delta (len before) d)) with (turn_inputs d).
    rewrite Hpairs. destruct (turn_pairs d) as [|m l] eqn:El; [done|]. rewrite <- El.
    rewrite session_messages_numbered, !numbered_fmap. cbn. do 2 f_equal.
    unfold len. by rewrite numbered_length. }
  unfold plan_new_turn. rewrite Hplan. cbn [fst snd sc_committed committed_session negb].
  change (pc_messages (prepare_canonical_turn_delta (len before) d)) with (turn_inputs d).
  rewrite Hpairs.
  change (sc_committed_messages (committed_session k d (co_now_secs options) (len before)))
    with (numbered (committed_at k d (co_now_secs options)) 0 (turn_pairs d)).
  assert (Hl : (len (turn_pairs d)
                =? len (numbered (committed_at k d (co_now_secs options)) 0 (turn_pairs d))) = true).
  { unfold len. by rewrite numbered_length, N.eqb_refl. }
  unfold ensure at 1. rewrite Hl. cbn [mbind result_bind].
  assert (Hcm : numbered (committed_at k d (co_now_secs options)) 0 (turn_pairs d)
                = committed_of <$> session_messages_of k d (turn_pairs d) (co_now_secs options))
    by (by rewrite session_messages_numbered, numbered_fmap).
  rewrite Hcm. destruct (canonical_turn_learning_digest d) as [digest|e] eqn:Edig.
  - rewrite (from_committed_built space d k options digest) by done. cbn [mbind result_bind].
    change (mkAppendIntent _ _) with (built_intent d k options digest).
    change (mkCanonicalAppend _ _ _ _) with (built_append d k options before digest).
    split.
    + intros H. destruct (append_intent_validate _) as [[]|] eqn:E1; cbn in H; [|done].
      destruct (canonical_append_validate _) as [[]|] eqn:E2; cbn in H; [|done].
      exists digest. split; [done|]. split; [by eapply built_admissible|by injection H as <-].
    + intros (dg & [= <-] & Hadm & ->).
      pose proof (proj2 (built_admissible space d k options before digest Hd Hkey Hev Hal Edig Hne) Hadm) as E2.
      rewrite E2. pose proof E2 as E1. apply (built_append_ok space) in E1 as [E1 _]; [|done..].
      by rewrite E1.
  - split; [|by intros (? & [=] & _)]. intros H. exfalso.
    unfold from_committed_messages in H. rewrite Edig in H.
    destruct (validate_key_matches_delta k d); cbn in H; [|done].
    destruct (validate_assistant_messages d); cbn in H; [|done].
    destruct (ensure _ _); cbn in H; [|done]. destruct (split_committed _ _ _ _ _ _ _); cbn in H; [|done].
    destruct (ensure _ _); cbn in H; done.
Qed.

End Plan.
