(* ===== verification/TurnCommitProps.v ===== *)
(** * Transcripts: theorems about committing a turn

    The session and transcript stores are an interface: [TranscriptStores] is
    the operations of the two traits the commit uses, [TranscriptStoreLaws] what
    is assumed of an implementation: an append stores the turn and extends its
    session at once or changes nothing, and a lifecycle request transitions
    exactly the turns it names.  Planning reads the stores in one state
    and appends in another, so that other commits and lifecycle requests may
    come between. *)

From S2P Require Import Prelude RustStr StoreTypes ReadSession LongTermEntry TurnTypes Transcript TurnCommit TranscriptView TurnPlanFacts TurnPlan.

Local Open Scope string_scope.
Local Open Scope list_scope.
Local Open Scope N_scope.

(** ** The stores *)

Class TranscriptStores `{LearningEvidence} (S : Type) := {
  load_recent_records : S → string → result (list SessionMessageRecord);
  get_turn : S → ConversationKey → string → string → result (option TranscriptTurnRecord);
  turn_count : S → ConversationKey → string → result N;
  append_canonical_turn_intent :
    CanonicalTurnAppendIntent → S → result TranscriptCommitReport * S;
  apply_lifecycle_request :
    ConversationKey → string → option string → TranscriptLifecycleTransition → N → S
    → result unit * S;
}.

Section Stores.
Context {codec : TurnCodec} {learning : LearningEvidence}.

(** The record as the store keeps it: with its sequence and the revision of the
    facts at its intake. *)
Definition stored_record (r : TranscriptTurnRecord) (sequence revision : N)
    : TranscriptTurnRecord :=
  mkTurnRecord revision (tt_key r) (tt_turn_id r) (tt_session_chat_id r)
    (tt_canonical_turn_digest r) sequence (tt_delivery_status r) (tt_source r)
    (tt_subject r) (tt_actor r) (tt_input_messages r) (tt_assistant_messages r)
    (tt_tool_observations r) (tt_host_refs r) (tt_learning_evidence r)
    (tt_external_content_used r) (tt_candidate_ids r) (tt_lifecycle_state r)
    (tt_redaction_state r) (tt_created_at r) (tt_updated_at r).

(** The last [MAX_SESSION_ENTRIES] messages. *)
Definition session_ring (l : list SessionMessage) : list SessionMessage :=
  drop (length l - N.to_nat MAX_SESSION_ENTRIES) l.

Context {S : Type} {stores : TranscriptStores S}.

Definition session_of_chat (s : S) (chat : string) : result (list SessionMessage) :=
  match load_recent_records s chat with
  | Ok records => Ok (as_message <$> records)
  | Err e => Err e
  end.

Definition intent_record (i : CanonicalTurnAppendIntent) : TranscriptTurnRecord :=
  ai_record (ca_transcript i).

(** The stored turn a record belongs to. *)
Definition turn_of (s : S) (r : TranscriptTurnRecord) : result (option TranscriptTurnRecord) :=
  get_turn s (tt_key r) (tt_subject r) (tt_turn_id r).

(** What an append that reports a commit did: the turn was new and the session
    was the one planned for; now the turn is stored and the session holds its
    messages; nothing else changed. *)
Record appended (i : CanonicalTurnAppendIntent) (s : S) (report : TranscriptCommitReport) (s' : S)
    : Prop := {
  ap_valid : canonical_append_validate i = Ok tt;
  ap_new : turn_of s (intent_record i) = Ok None;
  ap_session : session_of_chat s (ca_session_chat_id i) = Ok (ca_session_before i);
  ap_turn : ∃ revision, turn_of s' (intent_record i)
                        = Ok (Some (stored_record (intent_record i) (tc_sequence report) revision));
  ap_others k subject turn :
    (k, subject, turn) ≠ (tt_key (intent_record i), tt_subject (intent_record i),
                          tt_turn_id (intent_record i)) →
    get_turn s' k subject turn = get_turn s k subject turn;
  ap_ring : session_of_chat s' (ca_session_chat_id i)
            = Ok (session_ring (ca_session_before i ++ ca_session_append i));
  ap_sessions chat : chat ≠ ca_session_chat_id i →
    load_recent_records s' chat = load_recent_records s chat;
}.

(** A lifecycle request changes the turns it names. *)
Definition concerns (turn : option string) (turn' : string) : bool :=
  match turn with None => true | Some t => String.eqb t turn' end.

Class TranscriptStoreLaws : Prop := {
  append_law i s :
    match append_canonical_turn_intent i s with
    | (Err _, s') => s' = s
    | (Ok report, s') => if tc_committed report then appended i s report s' else s' = s
    end;
  lifecycle_law k subject turn t n s :
    match apply_lifecycle_request k subject turn t n s with
    | (Err _, s') => s' = s
    | (Ok _, s') => ∀ k' subject' turn',
        get_turn s' k' subject' turn'
        = if bool_decide (k' = k ∧ subject' = subject) && concerns turn turn'
          then match get_turn s k' subject' turn' with
               | Ok o => Ok (apply_lifecycle_transition t n <$> o)
               | Err e => Err e
               end
          else get_turn s k' subject' turn'
    end;
}.

(** ** Commits and executions *)

(** Planning reads the stores in state [planned]. *)
Definition view_of (planned : S) (d : CanonicalTurnDelta) (k : ConversationKey) : stores_view :=
  mkView (load_recent_records planned (cv_chat_id (td_conversation d)))
    (get_turn planned k (td_subject d) (td_turn_id d)) (turn_count planned k (td_subject d)).

Definition commit_canonical_turn_delta_with_transcript (planned : S) (memory_space_id : string)
    (d : CanonicalTurnDelta) (options : CanonicalTurnTranscriptCommitOptions) (s : S)
    : result CanonicalTurnTranscriptCommitReport * S :=
  match plan_canonical_turn_delta_with_transcript memory_space_id d options (view_of planned d) with
  | Err e => (Err e, s)
  | Ok plan => commit_with plan append_canonical_turn_intent s
  end.

(** The stores change by appends and lifecycle requests; the list is the
    transitions the turn of the record went through. *)
Inductive evolves (r : TranscriptTurnRecord)
    : list (TranscriptLifecycleTransition * N) → S → S → Prop :=
| evolves_refl s : evolves r [] s s
| evolves_append ts s s1 i :
    evolves r ts s s1 → evolves r ts s (append_canonical_turn_intent i s1).2
| evolves_lifecycle ts s s1 k subject turn t n :
    evolves r ts s s1 →
    evolves r
      (ts ++ (if is_ok (apply_lifecycle_request k subject turn t n s1).1
                 && (bool_decide (tt_key r = k ∧ tt_subject r = subject)
                     && concerns turn (tt_turn_id r))
              then [(t, n)] else []))
      s (apply_lifecycle_request k subject turn t n s1).2.

End Stores.
Arguments TranscriptStoreLaws {_} _ {_}.

Section Props.
Context {codec : TurnCodec} {learning : LearningEvidence} {laws : TurnCodecLaws codec}.
Context {S : Type} {stores : TranscriptStores S} {store_laws : TranscriptStoreLaws S}.

(** ** Planning *)

(** The first checks of a plan, which do not depend on the stores. *)
Record turn_checked (space : string) (d : CanonicalTurnDelta)
    (options : CanonicalTurnTranscriptCommitOptions) (k : ConversationKey) : Prop := {
  tk_delta : delta_valid d;
  tk_key : conversation_key_from_delta space d = Ok k;
  tk_evidence : check_learning_evidence space d (co_learning_evidence options) = Ok tt;
  tk_alias : check_alias k d (co_conversation_alias options) = Ok tt;
}.

Lemma plan_checked space d options view plan :
  plan_canonical_turn_delta_with_transcript space d options view = Ok plan →
  ∃ k records existing, turn_checked space d options k ∧ sv_session (view k) = Ok records
    ∧ sv_turn (view k) = Ok existing
    ∧ match existing with
      | Some r => plan_known_turn k d options (len (as_message <$> records)) r
                    (sv_turn_count (view k))
      | None => plan_new_turn k d options (as_message <$> records)
      end = Ok plan.
Proof using.
  unfold plan_canonical_turn_delta_with_transcript. intros H. inv_ok.
  repeat match goal with u : unit |- _ => destruct u end.
  eexists _, _, _. split; [split; [by apply validate_assistants_valid|done..]|]. done.
Qed.

Lemma plan_of_checks space d options view k records existing :
  turn_checked space d options k → sv_session (view k) = Ok records →
  sv_turn (view k) = Ok existing →
  plan_canonical_turn_delta_with_transcript space d options view
  = match existing with
    | Some r => plan_known_turn k d options (len (as_message <$> records)) r (sv_turn_count (view k))
    | None => plan_new_turn k d options (as_message <$> records)
    end.
Proof using.
  intros [Hd Hk He Ha] Hs Ht. apply validate_assistants_valid in Hd.
  unfold plan_canonical_turn_delta_with_transcript. rewrite Hd. cbn. rewrite Hk. cbn.
  rewrite He. cbn. rewrite Ha. cbn. rewrite Hs. cbn. rewrite Ht. done.
Qed.

(** C35: a turn that is not known yet can be planned exactly when its first
    checks pass and either it has no message to commit, or its learning digest
    can be computed (the identities of its tool observations are canonical,
    bounded and unique, and the turn encodes) and it meets the six
    conditions of [turn_admissible] on the turn and the session; the
    validations of the rebuilt record, of the append and of the session image
    never fail for another reason than these seven, and the plan carries the
    messages of the turn, its digest and its attachments exactly. *)
Theorem new_turn_plan_exact space d options view k records plan :
  conversation_key_from_delta space d = Ok k → sv_session (view k) = Ok records →
  sv_turn (view k) = Ok None →
  plan_canonical_turn_delta_with_transcript space d options view = Ok plan ↔
  turn_checked space d options k
  ∧ ((turn_inputs d = []
      ∧ plan = mkCommitPlan None
                 (mkTurnCommitReport (skipped_session d (len (as_message <$> records))) None))
     ∨ (turn_inputs d ≠ []
        ∧ ∃ digest, canonical_turn_learning_digest d = Ok digest
            ∧ turn_admissible space d k options (as_message <$> records)
            ∧ plan = mkCommitPlan
                       (Some (built_append d k options (as_message <$> records) digest))
                       (mkTurnCommitReport
                          (committed_session k d (co_now_secs options)
                             (len (as_message <$> records))) None))).
Proof using laws.
  intros Hk Hs Ht. split.
  - intros H. destruct (plan_checked _ _ _ _ _ H) as (k' & records' & existing & Hc & Hs' & Ht' & Hp).
    assert (k' = k) as -> by (pose proof (tk_key _ _ _ _ Hc); congruence).
    rewrite Hs in Hs'. rewrite Ht in Ht'. simplify_eq. split; [done|].
    destruct (decide (turn_inputs d = [])) as [E|E].
    + left. split; [done|]. rewrite plan_new_turn_skips in Hp by done. by injection Hp as <-.
    + right. split; [done|]. destruct Hc as [H1 H2 H3 H4].
      by apply (plan_new_turn_exact space) in Hp.
  - intros [Hc Hcases]. rewrite (plan_of_checks space d options view k records None) by done.
    destruct Hcases as [[E ->]|[E H]]; [by apply plan_new_turn_skips|].
    destruct Hc. by apply (plan_new_turn_exact space).
Qed.

(** ** Committing *)

(** What a commit did when its report says that it committed. *)
Record turn_committed (space : string) (d : CanonicalTurnDelta)
    (options : CanonicalTurnTranscriptCommitOptions) (s s' : S) : Prop := {
  tcm_effect : ∃ k digest before report,
    turn_checked space d options k ∧ canonical_turn_learning_digest d = Ok digest
    ∧ turn_inputs d ≠ []
    ∧ appended (built_append d k options before digest) s report s';
}.

Lemma commit_report_cases space d options planned s report s' :
  commit_canonical_turn_delta_with_transcript planned space d options s = (Ok report, s') →
  if sc_committed (tr_session_commit report) then turn_committed space d options s s' else s' = s.
Proof using laws store_laws.
  unfold commit_canonical_turn_delta_with_transcript.
  destruct (plan_canonical_turn_delta_with_transcript _ _ _ _) as [plan|] eqn:Ep; [|done].
  destruct (plan_checked _ _ _ _ _ Ep) as (k & records & existing & Hc & Hs & Ht & Hp).
  destruct existing as [r|].
  { intros Hcw. unfold plan_known_turn in Hp. inv_ok. cbn in Hcw. by injection Hcw as <- <-. }
  destruct (decide (turn_inputs d = [])) as [E|E].
  { rewrite plan_new_turn_skips in Hp by done. injection Hp as <-. cbn. by intros [= <- <-]. }
  destruct Hc as [H1 H2 H3 H4]. apply (plan_new_turn_exact space) in Hp as (digest & Hdg & _ & ->); [|done..].
  unfold commit_with. cbn [cp_append cp_report].
  pose proof (append_law (built_append d k options (as_message <$> records) digest) s) as Hlaw.
  destruct (append_canonical_turn_intent _ s) as [[tc|e] s1]; [|done].
  intros [= <- <-]. cbn. destruct (tc_committed tc); cbn; [|done].
  split. by exists k, digest, (as_message <$> records), tc.
Qed.

(** ** Retries *)

Lemma stored_valid r sequence revision :
  record_valid r → record_valid (stored_record r sequence revision).
Proof using. intros []. by split. Qed.

(** Transitions other than raw deletion keep what a retry is compared with. *)
Lemma apply_all_keeps ts (r : TranscriptTurnRecord) :
  let r' := apply_all ts r in
  tt_canonical_turn_digest r' = tt_canonical_turn_digest r ∧ tt_sequence r' = tt_sequence r
  ∧ (DeleteRaw ∉ ts.*1 →
     tt_host_refs r' = tt_host_refs r ∧ tt_learning_evidence r' = tt_learning_evidence r).
Proof using.
  induction ts as [|[t n] ts IH] using rev_ind; [done|]. cbn zeta in *.
  rewrite apply_all_snoc. destruct IH as (Hd & Hq & Hk).
  assert (Hstep : ∀ r : TranscriptTurnRecord,
      tt_canonical_turn_digest (apply_lifecycle_transition t n r) = tt_canonical_turn_digest r
      ∧ tt_sequence (apply_lifecycle_transition t n r) = tt_sequence r
      ∧ (t ≠ DeleteRaw →
         tt_host_refs (apply_lifecycle_transition t n r) = tt_host_refs r
         ∧ tt_learning_evidence (apply_lifecycle_transition t n r) = tt_learning_evidence r)).
  { intros x. unfold apply_lifecycle_transition. case_bool_decide; [done|]. cbn zeta.
    destruct t; [|destruct (bool_decide (tt_redaction_state x = RawAvailable))|..];
      (case_bool_decide; done). }
  destruct (Hstep (apply_all ts r)) as (Hd' & Hq' & Hk'). cbn.
  split_and!; [congruence..|]. rewrite fmap_app, not_elem_of_app. cbn.
  rewrite list_elem_of_singleton. intros [H1 H2].
  destruct (Hk H1), (Hk' ltac:(congruence)). split; congruence.
Qed.

Lemma evolves_turn r r0 ts s s' :
  evolves r ts s s' → turn_of s r = Ok (Some r0) → turn_of s' r = Ok (Some (apply_all ts r0)).
Proof using store_laws.
  intros Hev Hs. induction Hev as [s|ts s s1 i Hev IH|ts s s1 k subject turn t n Hev IH]; [done|..].
  - specialize (IH Hs). pose proof (append_law i s1) as Hlaw.
    destruct (append_canonical_turn_intent i s1) as [[tc|e] s2]; cbn [snd]; [|by subst s2].
    destruct (tc_committed tc); [|by subst s2]. unfold turn_of. rewrite (ap_others _ _ _ _ Hlaw); [done|].
    intros [= E1 E2 E3]. pose proof (ap_new _ _ _ _ Hlaw) as Hnew. unfold turn_of in *. congruence.
  - specialize (IH Hs). pose proof (lifecycle_law k subject turn t n s1) as Hlaw.
    destruct (apply_lifecycle_request k subject turn t n s1) as [[u|e] s2]; cbn.
    2: { subst s2. by rewrite app_nil_r. }
    unfold turn_of in *. rewrite Hlaw, IH.
    destruct (bool_decide _ && concerns _ _); [|by rewrite app_nil_r].
    by rewrite apply_all_snoc.
Qed.

(** How a turn that is stored answers a retry. *)
Lemma retry_of_stored space d options k s r records count :
  turn_checked space d options k → get_turn s k (td_subject d) (td_turn_id d) = Ok (Some r) →
  record_valid r → canonical_turn_learning_digest d = Ok (tt_canonical_turn_digest r) →
  load_recent_records s (cv_chat_id (td_conversation d)) = Ok records →
  turn_count s k (td_subject d) = Ok count →
  commit_canonical_turn_delta_with_transcript s space d options s
  = if bool_decide (tt_host_refs r = co_host_refs options)
       && bool_decide (tt_learning_evidence r = co_learning_evidence options)
    then (Ok (mkTurnCommitReport
                (mkSessionCommit true false (cv_chat_id (td_conversation d)) (len records)
                   (len records) [] (Some already_committed))
                (Some (mkTranscriptCommit k (td_turn_id d) (tt_sequence r) false count count
                         (Some already_committed)))), s)
    else (Err (Conflict "canonical_turn_intake_conflict"
                 "same turn cannot be committed with different canonical input, host references, or learning evidence"), s).
Proof using.
  intros Hc Hturn Hv Hdig Hrec Hcount. unfold commit_canonical_turn_delta_with_transcript.
  rewrite (plan_of_checks space d options _ k records (Some r)) by done.
  unfold plan_known_turn. apply validate_intake_valid in Hv. rewrite Hv. cbn -[len].
  rewrite Hdig. cbn -[len]. rewrite String.eqb_refl. cbn -[len].
  destruct (_ && _); cbn -[len]; [|done]. rewrite Hcount. cbn -[len].
  unfold len. by rewrite length_fmap.
Qed.

(** Evolution of the stores after a commit. *)
Definition committed_then (space : string) (d : CanonicalTurnDelta)
    (options : CanonicalTurnTranscriptCommitOptions) (k : ConversationKey)
    (ts : list (TranscriptLifecycleTransition * N)) (s : S) : Prop :=
  ∃ planned s0 report s1 digest,
    commit_canonical_turn_delta_with_transcript planned space d options s0 = (Ok report, s1)
    ∧ sc_committed (tr_session_commit report) = true
    ∧ conversation_key_from_delta space d = Ok k
    ∧ evolves (built d k options digest) ts s1 s.

Lemma committed_then_stored space d options k ts s :
  committed_then space d options k ts s →
  turn_checked space d options k
  ∧ ∃ digest sequence revision r, canonical_turn_learning_digest d = Ok digest
      ∧ r = stored_record (built d k options digest) sequence revision ∧ record_valid r
      ∧ get_turn s k (td_subject d) (td_turn_id d) = Ok (Some (apply_all ts r)).
Proof using laws store_laws.
  intros (planned & s0 & report & s1 & digest & Hcom & Hyes & Hk & Hev).
  apply commit_report_cases in Hcom. rewrite Hyes in Hcom.
  destruct Hcom as [(k' & digest' & before & tc & Hc & Hdig & Hne & Happ)].
  assert (k' = k) as -> by (pose proof (tk_key _ _ _ _ Hc); congruence).
  split; [done|]. destruct (ap_turn _ _ _ _ Happ) as [revision Hturn].
  eexists digest', _, revision, _. split; [done|]. split; [reflexivity|]. split.
  - apply stored_valid. pose proof (ap_valid _ _ _ _ Happ) as Hval. destruct Hc.
    destruct (turn_inputs_cases d) as [?|Hpairs]; [done|]. fold (turn_pairs d) in Hpairs.
    apply (built_append_ok space) in Hval as [Hval _]; [|done..|congruence].
    by apply (built_intent_ok space) in Hval as [Hval _].
  - by eapply (evolves_turn (built d k options digest)) in Hturn.
Qed.

(** C20: after a turn was committed, whatever other appends and lifecycle
    requests follow, as long as it is not raw-deleted, committing the same turn
    with the same attachments again reports that it is already committed and
    changes nothing. *)
Theorem retry_is_idempotent space d options k ts s records count :
  committed_then space d options k ts s → DeleteRaw ∉ ts.*1 →
  load_recent_records s (cv_chat_id (td_conversation d)) = Ok records →
  turn_count s k (td_subject d) = Ok count →
  ∃ report, commit_canonical_turn_delta_with_transcript s space d options s = (Ok report, s)
    ∧ sc_committed (tr_session_commit report) = false
    ∧ sc_skipped_reason (tr_session_commit report) = Some already_committed
    ∧ tc_committed <$> tr_transcript_commit report = Some false.
Proof using laws store_laws.
  intros Hcom Hts Hrec Hcount.
  destruct (committed_then_stored _ _ _ _ _ _ Hcom) as (Hc & digest & sequence & revision & r & Hdig & -> & Hv & Hturn).
  destruct (apply_all_keeps ts (stored_record (built d k options digest) sequence revision))
    as (Hd & _ & Hkeep). destruct (Hkeep Hts) as [Hh Hl].
  eexists. erewrite retry_of_stored; [|done|done|by apply apply_all_valid|by rewrite Hd|done..].
  rewrite Hh, Hl, !bool_decide_eq_true_2 by done. done.
Qed.

(** after raw deletion of a turn that was committed with learning evidence,
    the same commit is refused as a conflict although its canonical digest is
    the stored one, and nothing changes. *)
Theorem erased_turn_refuses_retry space d options k ts s records count :
  committed_then space d options k ts s → DeleteRaw ∈ ts.*1 →
  co_learning_evidence options ≠ None →
  load_recent_records s (cv_chat_id (td_conversation d)) = Ok records →
  turn_count s k (td_subject d) = Ok count →
  ∃ message, commit_canonical_turn_delta_with_transcript s space d options s
             = (Err (Conflict "canonical_turn_intake_conflict" message), s).
Proof using laws store_laws.
  intros Hcom Hts Hev Hrec Hcount.
  destruct (committed_then_stored _ _ _ _ _ _ Hcom) as (Hc & digest & sequence & revision & r & Hdig & -> & Hv & Hturn).
  destruct (apply_all_keeps ts (stored_record (built d k options digest) sequence revision))
    as (Hd & _ & _).
  pose proof (apply_all_valid ts _ Hv) as Hva.
  pose proof (rv_payload _ Hva (apply_all_deleted ts _ Hts)) as Hp.
  assert (Hnone : tt_learning_evidence (apply_all ts (stored_record (built d k options digest) sequence revision)) = None).
  { unfold has_raw_payload in Hp. split_bool. by destruct (tt_learning_evidence _). }
  eexists. erewrite retry_of_stored; [|done|done|done|by rewrite Hd|done..].
  rewrite Hnone. rewrite (bool_decide_eq_false_2 (None = _)) by congruence.
  by rewrite andb_false_r.
Qed.

End Props.
