(* ===== verification/TurnSamples.v ===== *)
(** * Transcripts: a reference store and sample turns

    An in-memory store that meets the contract of the session and transcript
    stores, with the theorems about commits at concrete turns: a turn is
    committed, retried, masked and erased. *)

From S2P Require Import Prelude RustStr StoreTypes ReadSession LongTermEntry LongTermSamples TurnTypes Transcript TurnCommit TranscriptView TranscriptProps TurnPlanFacts TurnPlan TurnCommitProps.

Local Open Scope string_scope.
Local Open Scope list_scope.
Local Open Scope N_scope.

Module TurnSamples.

(** ** Codecs *)

Record evidence := mkEvidence {
  e_space : string;
  e_subject : string;
  e_conversation : string;
  e_turn : string;
  e_digest : string;
}.

#[global] Instance evidence_dec : EqDecision evidence.
Proof. solve_decision. Defined.

#[local] Instance learning : LearningEvidence :=
  {| PostTurnLearningEvidence := evidence; le_memory_space_id := e_space;
     le_mounted_subject_id := e_subject; le_conversation_id := e_conversation;
     le_turn_id := e_turn; le_canonical_turn_digest := e_digest;
     le_validate_contract := λ _, true |}.

#[local] Instance codec : TurnCodec :=
  {| turn_sha256_hex := λ b, LongTermSamples.hex_digits 64 (LongTermSamples.checksum b);
     delta_to_vec := λ d, inr (str_bytes (td_turn_id d)) |}.

#[local] Instance codec_laws : TurnCodecLaws codec.
Proof.
  intros b. cbn [turn_sha256_hex codec]. unfold str_len.
  by rewrite LongTermSamples.sample_hex_length, LongTermSamples.hex_digits_lower.
Qed.

#[local] Instance values : ValueCodec := {| value_to_vec := λ _, inr [] |}.

(** ** The reference store *)

Record ref_store := mkStore {
  rs_turns : list TranscriptTurnRecord;
  rs_sessions : gmap string (list SessionMessage);
}.

Definition is_turn (k : ConversationKey) (subject turn : string) (r : TranscriptTurnRecord) : bool :=
  bool_decide ((k, subject, turn) = (tt_key r, tt_subject r, tt_turn_id r)).

Definition record_of (m : SessionMessage) : SessionMessageRecord :=
  mkSessionRecord (sm_message_id m) (sm_role m) (sm_content m) (sm_observed_at m)
    (sm_created_at m) (sm_speaker_id m) (sm_speaker_kind m) None.

Definition session_in (s : ref_store) (chat : string) : list SessionMessage :=
  default [] (rs_sessions s !! chat).

Definition ref_get_turn (s : ref_store) (k : ConversationKey) (subject turn : string)
    : option TranscriptTurnRecord :=
  List.find (is_turn k subject turn) (rs_turns s).

Definition ref_append (i : CanonicalTurnAppendIntent) (s : ref_store)
    : result TranscriptCommitReport * ref_store :=
  let r := ai_record (ca_transcript i) in
  let chat := ca_session_chat_id i in
  let count := len (rs_turns s) in
  match canonical_append_validate i with
  | Err e => (Err e, s)
  | Ok _ =>
      match ref_get_turn s (tt_key r) (tt_subject r) (tt_turn_id r) with
      | Some old =>
          (Ok (mkTranscriptCommit (tt_key r) (tt_turn_id r) (tt_sequence old) false count count
                 (Some already_committed)), s)
      | None =>
          if bool_decide (session_in s chat = ca_session_before i) then
            let sequence := count + 1 in
            (Ok (mkTranscriptCommit (tt_key r) (tt_turn_id r) sequence true count (count + 1) None),
             mkStore (rs_turns s ++ [stored_record r sequence 1])
               (<[chat := session_ring (ca_session_before i ++ ca_session_append i)]> (rs_sessions s)))
          else (Err (Conflict "canonical_turn_append" "session changed"), s)
      end
  end.

Definition lifecycle_of (k : ConversationKey) (subject : string) (turn : option string)
    (t : TranscriptLifecycleTransition) (n : N) (r : TranscriptTurnRecord)
    : TranscriptTurnRecord :=
  if bool_decide (tt_key r = k ∧ tt_subject r = subject) && concerns turn (tt_turn_id r)
  then apply_lifecycle_transition t n r else r.

#[local] Instance ref_stores : TranscriptStores ref_store :=
  {| load_recent_records := λ s chat, Ok (record_of <$> session_in s chat);
     get_turn := λ s k subject turn, Ok (ref_get_turn s k subject turn);
     turn_count := λ s k subject, Ok (len (rs_turns s));
     append_canonical_turn_intent := ref_append;
     apply_lifecycle_request := λ k subject turn t n s,
       (Ok tt, mkStore (lifecycle_of k subject turn t n <$> rs_turns s) (rs_sessions s)) |}.

(** ** It meets the contract *)

Lemma as_message_record_of (l : list SessionMessage) : as_message <$> (record_of <$> l) = l.
Proof. induction l as [|[] l IH]; cbn; [done|]. by rewrite IH. Qed.

Lemma lifecycle_same_turn k subject turn t n k' subject' turn' r :
  is_turn k' subject' turn' (lifecycle_of k subject turn t n r) = is_turn k' subject' turn' r.
Proof.
  unfold lifecycle_of. destruct (_ && _); [|done]. unfold apply_lifecycle_transition.
  case_bool_decide; [done|]. cbn zeta.
  destruct t; [|destruct (bool_decide (tt_redaction_state r = RawAvailable))|..];
    (case_bool_decide; done).
Qed.

Lemma find_lifecycle k subject turn t n k' subject' turn' l :
  List.find (is_turn k' subject' turn') (lifecycle_of k subject turn t n <$> l)
  = (if bool_decide (k' = k ∧ subject' = subject) && concerns turn turn'
     then apply_lifecycle_transition t n <$> List.find (is_turn k' subject' turn') l
     else List.find (is_turn k' subject' turn') l).
Proof.
  induction l as [|r l IH]; cbn; [by destruct (_ && _)|]. rewrite lifecycle_same_turn, IH.
  destruct (is_turn k' subject' turn' r) eqn:E; [|done].
  unfold is_turn in E. apply bool_decide_eq_true in E as [= -> -> ->].
  unfold lifecycle_of. by destruct (_ && _).
Qed.

#[local] Instance ref_laws : TranscriptStoreLaws ref_store.
Proof.
  split.
  - intros i s. cbn. unfold ref_append. destruct (canonical_append_validate i) as [[]|] eqn:Ev; [|done].
    destruct (ref_get_turn s _ _ _) eqn:Et; cbn [tc_committed]; [done|].
    case_bool_decide as Es; [|done]. cbn [tc_committed]. split.
    + done.
    + unfold turn_of. cbn. by rewrite <- Et.
    + unfold session_of_chat. cbn. by rewrite as_message_record_of, Es.
    + exists 1. unfold turn_of, ref_get_turn in *. cbn [get_turn ref_stores] in *.
      unfold ref_get_turn. cbn [rs_turns]. unfold intent_record in *. rewrite find_snoc, Et.
      unfold is_turn. cbn. by rewrite bool_decide_eq_true_2.
    + intros k subject turn Hne. cbn. unfold ref_get_turn. cbn. rewrite find_snoc.
      destruct (List.find _ _); [done|]. unfold is_turn. cbn.
      by rewrite bool_decide_eq_false_2.
    + unfold session_of_chat. cbn. rewrite as_message_record_of. unfold session_in. cbn.
      by rewrite lookup_insert_eq.
    + intros chat Hne. cbn. unfold session_in. cbn. by rewrite lookup_insert_ne.
  - intros k subject turn t n s. cbn. intros k' subject' turn'. unfold ref_get_turn. cbn.
    rewrite find_lifecycle. by destruct (_ && _).
Qed.

(** ** A turn *)

Definition source : MemoryTurnSource :=
  mkTurnSource IngressUser "chat" None NativeProtocol None None None None None.

Definition turn : CanonicalTurnDelta :=
  mkDelta "t1" (mkConversation "channel" "chat" None) "subject" Delivered source None
    [input_user "hello"] [mkAssistant (input_assistant "hi") SettledComplete] [] false [].

Definition key : ConversationKey := mkConversationKey "space" "channel" "chat".

Definition plain : CanonicalTurnTranscriptCommitOptions := mkCommitOptions [] None None 7.

Definition empty_store : ref_store := mkStore [] ∅.

Definition commit (s : ref_store) (options : CanonicalTurnTranscriptCommitOptions) :=
  commit_canonical_turn_delta_with_transcript s "space" turn options s.

Definition committed : ref_store := (commit empty_store plain).2.

Example turn_stored : length (rs_turns committed) = 1%nat.
Proof. vm_compute. reflexivity. Qed.

Definition report_of (r : result CanonicalTurnTranscriptCommitReport)
    : CanonicalTurnTranscriptCommitReport :=
  match r with
  | Ok report => report
  | Err _ => mkTurnCommitReport (mkSessionCommit false false "" 0 0 [] None) None
  end.

Definition plan_of (options : CanonicalTurnTranscriptCommitOptions) :=
  plan_canonical_turn_delta_with_transcript "space" turn options (view_of empty_store turn).

Lemma new_turn_plan_exact_witness :
  ∃ plan, plan_of plain = Ok plan ∧ is_Some (cp_append plan)
    ∧ turn_checked "space" turn plain key.
Proof.
  eexists. split; [vm_compute; reflexivity|]. split; [by eexists|].
  eapply (new_turn_plan_exact "space" turn plain (view_of empty_store turn) key []).
  - vm_compute. reflexivity.
  - vm_compute. reflexivity.
  - vm_compute. reflexivity.
  - vm_compute. reflexivity.
Defined.

(** ** Retries *)

Lemma committed_then_steps options ts s :
  (commit empty_store options).1 = Ok (report_of (commit empty_store options).1) →
  sc_committed (tr_session_commit (report_of (commit empty_store options).1)) = true →
  (∀ digest, evolves (built turn key options digest) ts (commit empty_store options).2 s) →
  committed_then "space" turn options key ts s.
Proof.
  intros H1 H2 H3. exists empty_store, empty_store, (report_of (commit empty_store options).1),
    (commit empty_store options).2, "". split_and!; [|done|vm_compute; reflexivity|by apply H3].
  rewrite <- H1. apply surjective_pairing.
Qed.

(** The turn of the sample goes through one transition. *)
Definition after_transition (t : TranscriptLifecycleTransition) (s : ref_store) : ref_store :=
  (apply_lifecycle_request key "subject" (Some "t1") t 9 s).2.

Lemma evolves_transition options digest t s :
  evolves (built turn key options digest) [(t, 9)] s (after_transition t s).
Proof.
  pose proof (evolves_lifecycle (built turn key options digest) [] s s key "subject" (Some "t1") t 9
                (evolves_refl _ s)) as H.
  rewrite bool_decide_eq_true_2 in H by done. exact H.
Qed.

Lemma session_loads (s : ref_store) chat :
  load_recent_records s chat = Ok (record_of <$> session_in s chat).
Proof. reflexivity. Qed.

Lemma turns_counted (s : ref_store) k subject : turn_count s k subject = Ok (len (rs_turns s)).
Proof. reflexivity. Qed.

Lemma retry_is_idempotent_witness :
  ∃ report, commit (after_transition Mask committed) plain
            = (Ok report, after_transition Mask committed)
    ∧ sc_skipped_reason (tr_session_commit report) = Some already_committed.
Proof.
  edestruct (retry_is_idempotent "space" turn plain key [(Mask, 9)]
               (after_transition Mask committed)) as (report & H1 & _ & H2 & _).
  - apply committed_then_steps; [vm_compute; reflexivity..|]. intros digest.
    apply evolves_transition.
  - cbn. set_solver.
  - apply session_loads.
  - apply turns_counted.
  - exists report. split; [exact H1|exact H2].
Defined.

Definition learned : CanonicalTurnTranscriptCommitOptions :=
  mkCommitOptions []
    (Some (mkEvidence "space" "subject" "chat" "t1"
             (match canonical_turn_learning_digest turn with Ok dg => dg | Err _ => "" end)))
    None 7.

Definition after_erasure : ref_store :=
  after_transition DeleteRaw (commit empty_store learned).2.

Lemma erased_turn_refuses_retry_witness :
  ∃ message, commit after_erasure learned
             = (Err (Conflict "canonical_turn_intake_conflict" message), after_erasure).
Proof.
  eapply (erased_turn_refuses_retry "space" turn learned key [(DeleteRaw, 9)] after_erasure).
  - apply committed_then_steps; [vm_compute; reflexivity..|]. intros digest.
    apply evolves_transition.
  - constructor.
  - discriminate.
  - apply session_loads.
  - apply turns_counted.
Defined.

(** ** Redaction *)

Definition stored : TranscriptTurnRecord :=
  default (built turn key plain "") (rs_turns committed !! 0%nat).

Definition history : list (TranscriptLifecycleTransition * N) :=
  [(Mask, 8); (Archive, 9); (Restore, 10); (DeleteRaw, 11); (Restore, 12)].

Lemma redaction_is_final_witness :
  ∃ t, sl_turns (from_records_with_attrs key RawOwnerOnly [apply_all history stored] [])
         !! 0%nat = Some t
    ∧ privacy true true RawOwnerOnly (apply_all history stored) t.
Proof.
  apply (redaction_is_final key RawOwnerOnly [apply_all history stored] [] stored history 0).
  - vm_compute. reflexivity.
  - reflexivity.
Defined.

End TurnSamples.
