(* ===== verification/RecallDelivery.v ===== *)
(** * Recall: delivery of candidates

    Model of [crates/core/src/memory/recall_delivery.rs]: candidates that may
    be delivered are ordered by utility, optionally rotating through the
    evidence families of candidates of equal utility, and taken greedily up to
    a limit as long as each contributes evidence that is not covered yet.
    Lexical scoring (floating point) is not modelled; scores are inputs. *)

From S2P Require Import Prelude RustOrd.

Local Open Scope string_scope.
Local Open Scope list_scope.
Local Open Scope N_scope.

(** ** Data *)

Record GovernedEvidenceBinding := mkBinding {
  eb_safe_evidence_ref : string;
  eb_canonical_evidence_group : string;
  eb_evidence_family_group : option string;
}.

Definition effective_evidence_family_group (b : GovernedEvidenceBinding) : string :=
  default (eb_canonical_evidence_group b) (eb_evidence_family_group b).

Record RecallDeliveryCandidate := mkDelivery {
  dc_candidate_id : string;
  dc_evidence_bindings : list GovernedEvidenceBinding;
  dc_owner_available : bool;
  dc_governed_binding_eligible : bool;
  dc_citation_eligible : bool;
  dc_privacy_eligible : bool;
  dc_temporal_eligible : bool;
  dc_source_rank : option N;
  dc_expanded_rank : option N;
  dc_reranked_rank : N;
  dc_relevance_score : N;
  dc_authority_score : N;
}.

Inductive RecallDeliverySelectionDropReason :=
| CitationMissing | DuplicateEvidenceGroup | GovernedBindingInvalid | OwnerRecordUnavailable
| ProfileBudgetExhausted | PrivacyScopeBlocked | TemporalSuperseded | LowerRank.

Definition drop_reason_label (r : RecallDeliverySelectionDropReason) : string :=
  match r with
  | CitationMissing => "citation_missing"
  | DuplicateEvidenceGroup => "duplicate_evidence_group"
  | GovernedBindingInvalid => "governed_binding_invalid"
  | OwnerRecordUnavailable => "owner_record_unavailable"
  | ProfileBudgetExhausted => "profile_budget_exhausted"
  | PrivacyScopeBlocked => "privacy_scope_blocked"
  | TemporalSuperseded => "temporal_superseded"
  | LowerRank => "lower_rank"
  end.

Inductive RecallDeliveryOrderingPolicy :=
| RelevanceRank | EvidenceFamilyRotationWithinEqualUtility.

Record RecallDeliverySelectionDecision := mkDecision {
  dd_candidate_id : string;
  dd_evidence_bindings : list GovernedEvidenceBinding;
  dd_renderable_evidence_bindings : list GovernedEvidenceBinding;
  dd_selected : bool;
  dd_drop_reason : option RecallDeliverySelectionDropReason;
}.

Record RecallDeliverySelectionReport := mkSelection {
  ds_selected_candidate_ids : list string;
  ds_decisions : list RecallDeliverySelectionDecision;
  ds_covered_evidence_groups : list string;
  ds_selected_owner_evidence_family_groups : list string;
  ds_renderable_evidence_family_groups : list string;
  ds_ordering_policy : RecallDeliveryOrderingPolicy;
}.

(** An index into the candidates, with the candidate it denotes. *)
Notation indexed := (nat * RecallDeliveryCandidate)%type.

(** ** Eligibility *)

Definition candidate_has_governed_citation (c : RecallDeliveryCandidate) : bool :=
  dc_citation_eligible c && match dc_evidence_bindings c with [] => false | _ => true end.

Definition delivery_eligible (c : RecallDeliveryCandidate) : bool :=
  dc_owner_available c && dc_governed_binding_eligible c && candidate_has_governed_citation c
  && dc_privacy_eligible c && dc_temporal_eligible c.

Definition ineligible_drop_reason (c : RecallDeliveryCandidate)
    : RecallDeliverySelectionDropReason :=
  if negb (dc_owner_available c) then OwnerRecordUnavailable
  else if negb (dc_governed_binding_eligible c) then GovernedBindingInvalid
  else if negb (candidate_has_governed_citation c) then CitationMissing
  else if negb (dc_privacy_eligible c) then PrivacyScopeBlocked
  else if negb (dc_temporal_eligible c) then TemporalSuperseded
  else ProfileBudgetExhausted.

Definition selection_decision (c : RecallDeliveryCandidate) (selected : bool)
    (renderable : list GovernedEvidenceBinding)
    (drop_reason : option RecallDeliverySelectionDropReason) : RecallDeliverySelectionDecision :=
  mkDecision (dc_candidate_id c) (dc_evidence_bindings c) renderable selected drop_reason.

(** ** Utility *)

Definition rank_utility (rank : option N) (weight : N) : N :=
  match rank with
  | Some rank => saturating_mul weight 1000000 / saturating_add 60 rank
  | None => 0
  end.

Definition delivery_utility (c : RecallDeliveryCandidate) : N :=
  saturating_add
    (saturating_add
       (saturating_add
          (saturating_add (rank_utility (dc_source_rank c) 4) (rank_utility (dc_expanded_rank c) 3))
          (rank_utility (Some (dc_reranked_rank c)) 2))
       (saturating_mul (dc_relevance_score c) 100))
    (saturating_mul (dc_authority_score c) 50).

(** [compare_delivery_utility] compares the utility downwards, then the rank,
    then the identifier. *)
Definition utility_key (c : RecallDeliveryCandidate) : descending N * (N * string) :=
  (Reverse (delivery_utility c), (dc_reranked_rank c, dc_candidate_id c)).

Definition compare_delivery_utility (left right : RecallDeliveryCandidate) : comparison :=
  cmp (utility_key left) (utility_key right).

Definition utility_le (a b : indexed) : bool :=
  match compare_delivery_utility a.2 b.2 with Gt => false | _ => true end.

Definition delivery_candidate_family (c : RecallDeliveryCandidate) : string :=
  match dc_evidence_bindings c with
  | b :: _ => effective_evidence_family_group b
  | [] => "candidate:" +:+ dc_candidate_id c
  end.

(** ** Orders *)

(** [families.entry(family).or_default().push(index)], in key order. *)
Fixpoint push_family (family : string) (i : indexed) (l : list (string * list indexed))
    : list (string * list indexed) :=
  match l with
  | [] => [(family, [i])]
  | (f, members) :: l' =>
      match cmp family f with
      | Lt => (family, [i]) :: l
      | Eq => (f, members ++ [i]) :: l'
      | Gt => (f, members) :: push_family family i l'
      end
  end.

Definition families_of (eligible : list indexed) : list (string * list indexed) :=
  foldl (λ m i, push_family (delivery_candidate_family i.2) i m) [] eligible.

(** Families are compared by their first members, then by name; a family has
    a member, so the indexing does not panic. *)
Definition family_le (a b : string * list indexed) : bool :=
  match a.2, b.2 with
  | x :: _, y :: _ =>
      match compare_delivery_utility x.2 y.2 with
      | Lt => true
      | Gt => false
      | Eq => match cmp a.1 b.1 with Gt => false | _ => true end
      end
  | _, _ => true
  end.

Definition round_of (families : list (string * list indexed)) (round : nat) : list indexed :=
  omap (λ f, f.2 !! round) families.

Fixpoint rounds (fuel : nat) (families : list (string * list indexed)) (round : nat)
    : list indexed :=
  match fuel with
  | O => []
  | S fuel' =>
      match round_of families round with
      | [] => []
      | added => added ++ rounds fuel' families (S round)
      end
  end.

Definition hierarchical_family_order (eligible : list indexed) : list indexed :=
  let families := (λ f, (f.1, sort_by utility_le f.2)) <$> families_of eligible in
  rounds (S (length eligible)) (sort_by family_le families) 0.

(** The run of candidates of the same utility at the front. *)
Fixpoint take_run (utility : N) (l : list indexed) : list indexed * list indexed :=
  match l with
  | [] => ([], [])
  | i :: l' =>
      if delivery_utility i.2 =? utility then
        let r := take_run utility l' in (i :: r.1, r.2)
      else ([], l)
  end.

Fixpoint family_runs (fuel : nat) (l : list indexed) : list indexed :=
  match fuel, l with
  | S fuel', i :: l' =>
      let r := take_run (delivery_utility i.2) l' in
      hierarchical_family_order (i :: r.1) ++ family_runs fuel' r.2
  | _, _ => []
  end.

Definition relevance_preserving_family_order (eligible : list indexed) : list indexed :=
  family_runs (length eligible) (sort_by utility_le eligible).

Definition delivery_order (policy : RecallDeliveryOrderingPolicy) (eligible : list indexed)
    : list indexed :=
  match policy with
  | EvidenceFamilyRotationWithinEqualUtility => relevance_preserving_family_order eligible
  | RelevanceRank => sort_by utility_le eligible
  end.

(** ** Allocation *)

Definition uncovered_evidence_bindings (c : RecallDeliveryCandidate) (covered : gset string)
    : list GovernedEvidenceBinding :=
  List.filter (λ b, negb (bool_decide (eb_canonical_evidence_group b ∈ covered)))
    (dc_evidence_bindings c).

Record allocation := mkAllocation {
  al_selected : list string;
  al_covered : gset string;
  al_owner_families : gset string;
  al_renderable_families : gset string;
  al_decisions : list (option RecallDeliverySelectionDecision);
}.

Definition decide_at (a : allocation) (index : nat) (d : RecallDeliverySelectionDecision)
    : allocation :=
  mkAllocation (al_selected a) (al_covered a) (al_owner_families a) (al_renderable_families a)
    (<[index := Some d]> (al_decisions a)).

Definition select_delivery_candidate (a : allocation) (c : RecallDeliveryCandidate)
    (renderable : list GovernedEvidenceBinding) : allocation :=
  mkAllocation (al_selected a ++ [dc_candidate_id c])
    (al_covered a ∪ list_to_set (eb_canonical_evidence_group <$> renderable))
    (al_owner_families a ∪ list_to_set (effective_evidence_family_group <$> dc_evidence_bindings c))
    (al_renderable_families a ∪ list_to_set (effective_evidence_family_group <$> renderable))
    (al_decisions a).

(** One round of the loop over the ordered candidates. *)
Definition allocate_one (limit : N) (a : allocation) (i : indexed) : allocation :=
  let c := i.2 in
  if limit <=? len (al_selected a) then
    decide_at a i.1 (selection_decision c false [] (Some ProfileBudgetExhausted))
  else
    match uncovered_evidence_bindings c (al_covered a) with
    | [] => decide_at a i.1 (selection_decision c false [] (Some DuplicateEvidenceGroup))
    | renderable =>
        decide_at (select_delivery_candidate a c renderable) i.1
          (selection_decision c true renderable None)
    end.

(** A [BTreeSet] in order. *)
Definition sorted_set (s : gset string) : list string := sort (elements s).

Definition eligible_candidates (candidates : list RecallDeliveryCandidate) : list indexed :=
  List.filter (λ i, delivery_eligible i.2) (imap (λ i c, (i, c)) candidates).

Definition allocate_recall_delivery_candidates (candidates : list RecallDeliveryCandidate)
    (limit : N) (policy : RecallDeliveryOrderingPolicy) : RecallDeliverySelectionReport :=
  let initial := mkAllocation [] ∅ ∅ ∅ (replicate (length candidates) None) in
  let a := foldl (allocate_one limit) initial
             (delivery_order policy (eligible_candidates candidates)) in
  mkSelection (al_selected a)
    (imap (λ i c, default (selection_decision c false [] (Some (ineligible_drop_reason c)))
                    (mjoin (al_decisions a !! i))) candidates)
    (sorted_set (al_covered a)) (sorted_set (al_owner_families a))
    (sorted_set (al_renderable_families a)) policy.
