(* ===== verification/RecallOrder.v ===== *)
(** * Recall: the delivery order

    Both orders are permutations of the eligible candidates in which the
    utility never rises; the rotation takes, within equal utility, the members
    of the evidence families round by round. *)

From S2P Require Import Prelude RustOrd RecallDelivery.

Local Open Scope string_scope.
Local Open Scope list_scope.

(** ** Sorting by utility *)

Lemma utility_sorted (l : list indexed) :
  StronglySorted (λ a b, utility_le a b = true) (sort_by utility_le l).
Proof. apply (sort_by_key_sorted (λ i : indexed, utility_key i.2)). Qed.

Lemma utility_le_desc a b :
  utility_le a b = true → (delivery_utility b.2 ≤ delivery_utility a.2)%N.
Proof.
  unfold utility_le, compare_delivery_utility, utility_key, cmp, prod_ord, cmp, descending_ord, cmp, N_ord.
  cbn. destruct (N.compare_spec (delivery_utility b.2) (delivery_utility a.2)); [lia..|done].
Qed.

(** The relation of the order: the utility does not rise. *)
Definition no_rise (a b : indexed) : Prop := (delivery_utility b.2 ≤ delivery_utility a.2)%N.

Lemma sorted_no_rise l : StronglySorted no_rise (sort_by utility_le l).
Proof.
  induction (utility_sorted l) as [|a k Hk IH Ha]; constructor; [done|].
  eapply Forall_impl; [exact Ha|]. intros b. apply utility_le_desc.
Qed.

(** ** Families *)

Definition family (i : indexed) : string := delivery_candidate_family i.2.

Definition in_family (f : string) (i : indexed) : bool := String.eqb (family i) f.

Definition keys (m : list (string * list indexed)) : list string := m.*1.

Lemma push_family_keys f i m x : x ∈ keys (push_family f i m) ↔ x = f ∨ x ∈ keys m.
Proof.
  unfold keys. induction m as [|[g ms] m IH]; cbn; [set_solver|].
  destruct (cmp f g) eqn:E; cbn; [apply (cmp_eq f g) in E as ->; set_solver|set_solver|].
  rewrite !elem_of_cons, IH. set_solver.
Qed.

Lemma push_family_strict f i m :
  StronglySorted (λ a b, cmp a b = Lt) (keys m) →
  StronglySorted (λ a b, cmp a b = Lt) (keys (push_family f i m)).
Proof.
  induction m as [|[g ms] m IH]; intros Hs; [repeat constructor|]. cbn in Hs |- *.
  apply StronglySorted_inv in Hs as [Hs Hg].
  destruct (cmp f g) eqn:E; cbn.
  - by constructor.
  - constructor; [by constructor|]. constructor; [done|].
    eapply Forall_impl; [exact Hg|]. intros x Hx. by eapply cmp_trans.
  - constructor; [by apply IH|]. apply Forall_forall. intros x Hx%push_family_keys.
    rewrite Forall_forall in Hg. destruct Hx as [->|Hx]; [|by apply Hg].
    by rewrite (cmp_opp f g), E.
Qed.

(** What a family holds. *)
Fixpoint members_of (f : string) (m : list (string * list indexed)) : list indexed :=
  match m with
  | [] => []
  | (g, ms) :: m' => if String.eqb f g then ms else members_of f m'
  end.

Lemma members_of_none f m : f ∉ keys m → members_of f m = [].
Proof.
  unfold keys. induction m as [|[g ms] m IH]; cbn; [done|]. rewrite not_elem_of_cons. intros [Hne Hn].
  apply String.eqb_neq in Hne. rewrite Hne. by apply IH.
Qed.

Lemma members_of_elem f ms m :
  StronglySorted (λ a b, cmp a b = Lt) (keys m) → (f, ms) ∈ m → members_of f m = ms.
Proof.
  induction m as [|[g gs] m IH]; cbn; [by intros _ ?%elem_of_nil|].
  intros [Hs Hg]%StronglySorted_inv [[= -> ->]|Hin]%elem_of_cons; [by rewrite String.eqb_refl|].
  destruct (String.eqb_spec f g) as [->|_]; [|by apply IH].
  rewrite Forall_forall in Hg. apply (list_elem_of_fmap_2 fst), Hg in Hin. cbn in Hin.
  by rewrite cmp_refl in Hin.
Qed.

Lemma below_all_keys f g m :
  cmp f g = Lt → Forall (λ x, cmp g x = Lt) (keys m) → f ∉ g :: keys m.
Proof.
  rewrite Forall_forall. intros E Hg [->|Hin]%elem_of_cons; [by rewrite cmp_refl in E|].
  pose proof (cmp_trans _ _ _ E (Hg _ Hin)) as H. by rewrite cmp_refl in H.
Qed.

Lemma push_family_members f i m g :
  StronglySorted (λ a b, cmp a b = Lt) (keys m) →
  members_of g (push_family f i m)
  = if String.eqb g f then members_of f m ++ [i] else members_of g m.
Proof.
  induction m as [|[h hs] m IH]; [done|]. cbn [push_family keys].
  intros [Hs Hh]%StronglySorted_inv. destruct (cmp f h) eqn:E.
  - apply cmp_eq in E as ->. cbn. rewrite String.eqb_refl. by destruct (String.eqb g h).
  - pose proof (members_of_none f ((h, hs) :: m) (below_all_keys _ _ _ E Hh)) as ->. done.
  - cbn. rewrite IH by done. destruct (String.eqb_spec f h) as [->|Hfh]; [by rewrite cmp_refl in E|].
    destruct (String.eqb_spec g h) as [->|_]; [|done].
    destruct (String.eqb_spec h f) as [->|_]; [by rewrite cmp_refl in E|done].
Qed.

Lemma families_of_snoc l i : families_of (l ++ [i]) = push_family (family i) i (families_of l).
Proof. unfold families_of. by rewrite foldl_app. Qed.

Lemma families_strict l : StronglySorted (λ a b, cmp a b = Lt) (keys (families_of l)).
Proof.
  induction l as [|i l IH] using rev_ind; [constructor|].
  rewrite families_of_snoc. by apply push_family_strict.
Qed.

Lemma families_members l f : members_of f (families_of l) = List.filter (in_family f) l.
Proof.
  induction l as [|i l IH] using rev_ind; [done|].
  rewrite families_of_snoc, push_family_members by apply families_strict.
  rewrite List.filter_app. cbn. unfold in_family at 2. rewrite String.eqb_sym.
  destruct (String.eqb_spec (family i) f) as [<-|_]; [by rewrite <- IH|by rewrite app_nil_r, <- IH].
Qed.

Lemma families_elem l f ms :
  (f, ms) ∈ families_of l → ms = List.filter (in_family f) l.
Proof.
  intros H. rewrite <- families_members. symmetry. apply members_of_elem; [|done].
  apply families_strict.
Qed.

Lemma push_family_concat f i m : concat (push_family f i m).*2 ≡ₚ i :: concat m.*2.
Proof.
  induction m as [|[g gs] m IH]; [done|]. cbn [push_family]. destruct (cmp f g); cbn.
  - rewrite <- app_assoc. cbn. by rewrite Permutation_middle.
  - done.
  - rewrite IH. by rewrite Permutation_middle.
Qed.

Lemma families_concat l : concat (families_of l).*2 ≡ₚ l.
Proof.
  induction l as [|i l IH] using rev_ind; [done|].
  rewrite families_of_snoc, push_family_concat, IH. by rewrite Permutation_cons_append.
Qed.

(** ** Rounds *)

Lemma round_of_drop (fs : list (string * list indexed)) r :
  concat ((drop r ∘ snd) <$> fs) ≡ₚ round_of fs r ++ concat ((drop (S r) ∘ snd) <$> fs).
Proof.
  induction fs as [|[f ms] fs IH]; [done|]. cbn. rewrite IH.
  destruct (ms !! r) as [x|] eqn:E.
  - rewrite (drop_S ms x r E). cbn. f_equiv. rewrite !app_assoc. f_equiv. apply Permutation_app_comm.
  - apply lookup_ge_None in E. rewrite !drop_ge by lia. done.
Qed.

Lemma round_of_nil fs r : round_of fs r = [] → Forall (λ f, (length f.2 ≤ r)%nat) fs.
Proof.
  unfold round_of. induction fs as [|[f ms] fs IH]; [constructor|]. cbn.
  destruct (ms !! r) eqn:E; [done|]. intros H. constructor; [by apply lookup_ge_None|by apply IH].
Qed.

Lemma drop_all_nil (fs : list (string * list indexed)) r :
  Forall (λ f, (length f.2 ≤ r)%nat) fs → concat ((drop r ∘ snd) <$> fs) = [].
Proof.
  induction 1 as [|[f ms] fs Hf _ IH]; [done|]. cbn in *. by rewrite drop_ge, IH.
Qed.

Lemma rounds_perm fuel fs r :
  Forall (λ f, (length f.2 ≤ r + fuel)%nat) fs →
  rounds fuel fs r ≡ₚ concat ((drop r ∘ snd) <$> fs).
Proof.
  revert r. induction fuel as [|fuel IH]; intros r Hf; cbn.
  { rewrite Nat.add_0_r in Hf. by rewrite drop_all_nil. }
  destruct (round_of fs r) as [|x k] eqn:E.
  - by rewrite drop_all_nil by by apply round_of_nil.
  - rewrite round_of_drop, E. change (x :: k ++ ?z) with ((x :: k) ++ z). f_equiv.
    apply IH. eapply Forall_impl; [exact Hf|]. cbn. intros. lia.
Qed.

(** The members of a family in order. *)
Definition family_members (f : string) (l : list indexed) : list indexed :=
  sort_by utility_le (List.filter (in_family f) l).

Definition ordered_families (l : list indexed) : list (string * list indexed) :=
  sort_by family_le ((λ f, (f.1, sort_by utility_le f.2)) <$> families_of l).

Lemma ordered_families_elem l f ms :
  (f, ms) ∈ ordered_families l → ms = family_members f l.
Proof.
  unfold ordered_families. rewrite sort_by_perm, list_elem_of_fmap.
  intros ([g gs] & [= -> ->] & Hin). by rewrite (families_elem l g gs Hin).
Qed.

Lemma filter_length_le' {A} (p : A → bool) l : (length (List.filter p l) ≤ length l)%nat.
Proof. induction l as [|a l IH]; cbn; [done|]. destruct (p a); cbn; lia. Qed.

Lemma family_members_short f l : (length (family_members f l) ≤ length l)%nat.
Proof. unfold family_members. rewrite sort_by_perm. apply filter_length_le'. Qed.

Lemma concat_sorted (fs : list (string * list indexed)) :
  concat ((λ f : string * list indexed, sort_by utility_le f.2) <$> fs) ≡ₚ concat fs.*2.
Proof.
  induction fs as [|[f ms] fs IH]; [done|].
  cbn [fmap list_fmap concat snd]. by rewrite sort_by_perm, IH.
Qed.

Lemma concat_perm {A} (l k : list (list A)) : l ≡ₚ k → concat l ≡ₚ concat k.
Proof.
  induction 1 as [| |x y l|]; cbn; [done|by f_equiv| |by etransitivity].
  rewrite !app_assoc. f_equiv. apply Permutation_app_comm.
Qed.

Lemma hierarchical_perm l : hierarchical_family_order l ≡ₚ l.
Proof.
  unfold hierarchical_family_order. fold (ordered_families l). rewrite rounds_perm.
  - rewrite <- (families_concat l) at 2. rewrite <- concat_sorted. apply concat_perm.
    unfold ordered_families. rewrite sort_by_perm, <- list_fmap_compose.
    done.
  - apply Forall_forall. intros [f ms] Hin. apply ordered_families_elem in Hin as ->. cbn.
    pose proof (family_members_short f l). lia.
Qed.

(** ** Fairness of the rotation *)

(** [x] is the member number [r] of its family. *)
Definition in_round (l : list indexed) (r : nat) (x : indexed) : Prop :=
  family_members (family x) l !! r = Some x.

Lemma round_of_in_round l r x : x ∈ round_of (ordered_families l) r → in_round l r x.
Proof.
  unfold round_of, in_round. rewrite list_elem_of_omap. intros ([f ms] & Hin & Hr).
  apply ordered_families_elem in Hin as ->. cbn in Hr.
  assert (x ∈ family_members f l) as Hx by by eapply list_elem_of_lookup_2.
  unfold family_members in Hx. rewrite sort_by_perm in Hx.
  apply list_elem_of_In, filter_In in Hx as [_ Hf]. unfold in_family in Hf.
  apply String.eqb_eq in Hf as ->. done.
Qed.

Lemma rounds_from l fuel r x :
  x ∈ rounds fuel (ordered_families l) r → ∃ r', (r ≤ r')%nat ∧ in_round l r' x.
Proof.
  revert r. induction fuel as [|fuel IH]; intros r; cbn; [by intros ?%elem_of_nil|].
  destruct (round_of (ordered_families l) r) as [|y k] eqn:E; [by intros ?%elem_of_nil|].
  change (y :: k ++ ?z) with ((y :: k) ++ z). rewrite elem_of_app, <- E. intros [Hx|Hx].
  - exists r. split; [done|]. by apply round_of_in_round.
  - destruct (IH _ Hx) as (r' & Hle & Hr). exists r'. split; [lia|done].
Qed.

(** The round of the first is not later than that of the second. *)
Definition fair (l : list indexed) (x y : indexed) : Prop :=
  ∃ rx ry, in_round l rx x ∧ in_round l ry y ∧ (rx ≤ ry)%nat.

Lemma fair_in_round l r (k : list indexed) :
  (∀ x, x ∈ k → in_round l r x) → StronglySorted (fair l) k.
Proof.
  induction k as [|x k IH]; intros H; constructor.
  - apply IH. intros y Hy. apply H. by right.
  - apply Forall_forall. intros y Hy. exists r, r. split_and!; [apply H; by left|apply H; by right|done].
Qed.

Lemma strongly_sorted_app {A} (R : A → A → Prop) l k :
  StronglySorted R l → StronglySorted R k → (∀ x y, x ∈ l → y ∈ k → R x y) →
  StronglySorted R (l ++ k).
Proof.
  induction 1 as [|x l Hl IH Hx]; intros Hk H; cbn; [done|]. constructor.
  - apply IH; [done|]. intros y z Hy. apply H. by right.
  - apply Forall_app. split; [done|]. apply Forall_forall. intros y Hy. apply H; [by left|done].
Qed.

Lemma rounds_fair l fuel r : StronglySorted (fair l) (rounds fuel (ordered_families l) r).
Proof.
  revert r. induction fuel as [|fuel IH]; intros r; cbn; [constructor|].
  destruct (round_of (ordered_families l) r) as [|y k] eqn:E; [constructor|].
  change (y :: k ++ ?z) with ((y :: k) ++ z). rewrite <- E.
  apply strongly_sorted_app; [|done|].
  - apply (fair_in_round l r). intros x. apply round_of_in_round.
  - intros x z Hx%round_of_in_round Hz. apply rounds_from in Hz as (r' & Hle & Hr).
    exists r, r'. split_and!; [done..|lia].
Qed.

Lemma hierarchical_fair l : StronglySorted (fair l) (hierarchical_family_order l).
Proof. apply rounds_fair. Qed.

(** ** Runs of equal utility *)

Lemma take_run_app u l : l = (take_run u l).1 ++ (take_run u l).2.
Proof.
  induction l as [|i l IH]; cbn; [done|]. destruct (N.eqb _ _); cbn; [by rewrite <- IH|done].
Qed.

Lemma take_run_utility u l : Forall (λ i, delivery_utility i.2 = u) (take_run u l).1.
Proof.
  induction l as [|i l IH]; cbn; [constructor|]. destruct (N.eqb_spec (delivery_utility i.2) u);
    by constructor.
Qed.

Lemma family_runs_perm fuel l : (length l ≤ fuel)%nat → family_runs fuel l ≡ₚ l.
Proof.
  revert l. induction fuel as [|fuel IH]; intros [|i l] Hl; cbn [family_runs length] in *;
    [done|lia|done|]. rewrite hierarchical_perm. pose proof (take_run_app (delivery_utility i.2) l) as E.
  rewrite IH by (rewrite E, length_app in Hl; lia). cbn [app]. f_equiv. by rewrite <- E.
Qed.

Lemma family_runs_no_rise fuel l :
  StronglySorted no_rise l → StronglySorted no_rise (family_runs fuel l).
Proof.
  revert l. induction fuel as [|fuel IH]; intros [|i l] Hs; cbn [family_runs]; [constructor..|].
  apply StronglySorted_inv in Hs as [Hs Hi].
  pose proof (take_run_app (delivery_utility i.2) l) as E.
  pose proof (take_run_utility (delivery_utility i.2) l) as Hu.
  set (run := (take_run (delivery_utility i.2) l).1) in *.
  set (rest := (take_run (delivery_utility i.2) l).2) in *.
  assert (Hrun : ∀ x, x ∈ hierarchical_family_order (i :: run) →
                      delivery_utility x.2 = delivery_utility i.2).
  { intros x. rewrite hierarchical_perm. rewrite Forall_forall in Hu.
    intros [->|Hx]%elem_of_cons; [done|by apply Hu]. }
  assert (Hrest : ∀ y, y ∈ family_runs fuel rest → no_rise i y).
  { intros y Hy. rewrite Forall_forall in Hi. apply Hi. rewrite E. apply elem_of_app. right.
    assert (Hp : ∀ f k z, z ∈ family_runs f k → z ∈ k).
    { clear. induction f as [|f IH]; intros [|j k] z; cbn [family_runs]; try by intros ?%elem_of_nil.
      rewrite elem_of_app, hierarchical_perm. pose proof (take_run_app (delivery_utility j.2) k) as E.
      rewrite E at 3. rewrite !elem_of_cons, elem_of_app. intros [[?|?]|?%IH]; tauto. }
    by eapply Hp. }
  apply strongly_sorted_app.
  - assert (Hall : ∀ k, (∀ x, x ∈ k → delivery_utility x.2 = delivery_utility i.2) →
                        StronglySorted no_rise k).
    { clear. induction k as [|x k IH]; intros H; constructor.
      - apply IH. intros y Hy. apply H. by right.
      - apply Forall_forall. intros y Hy. unfold no_rise.
        rewrite (H x), (H y) by (by left || by right). done. }
    by apply Hall.
  - apply IH. rewrite E in Hs. clear -Hs.
    induction run as [|x run IH]; [done|]. apply StronglySorted_inv in Hs as [Hs _]. by apply IH.
  - intros x y Hx Hy. unfold no_rise. rewrite (Hrun x Hx). by apply Hrest.
Qed.

(** ** Both policies *)

Lemma delivery_order_perm policy l : delivery_order policy l ≡ₚ l.
Proof.
  destruct policy; cbn [delivery_order]; [apply sort_by_perm|]. unfold relevance_preserving_family_order.
  rewrite family_runs_perm; [apply sort_by_perm|]. by rewrite sort_by_perm.
Qed.

Lemma delivery_order_no_rise policy l : StronglySorted no_rise (delivery_order policy l).
Proof.
  destruct policy; cbn [delivery_order]; [apply sorted_no_rise|]. apply family_runs_no_rise, sorted_no_rise.
Qed.

(** ** Tiers *)

(** The candidates of one utility, in order. *)
Definition tier (u : N) (l : list indexed) : list indexed :=
  List.filter (λ i, N.eqb (delivery_utility i.2) u) l.

Lemma tier_none u l : (∀ x, x ∈ l → delivery_utility x.2 ≠ u) → tier u l = [].
Proof.
  unfold tier. induction l as [|x l IH]; intros H; cbn; [done|].
  destruct (N.eqb_spec (delivery_utility x.2) u) as [E|_]; [by destruct (H x (list_elem_of_here _ _))|].
  apply IH. intros y Hy. apply H. by right.
Qed.

Lemma tier_app u l k : tier u (l ++ k) = tier u l ++ tier u k.
Proof. apply List.filter_app. Qed.

Lemma take_run_tier u l :
  StronglySorted no_rise l → Forall (λ x, (delivery_utility x.2 ≤ u)%N) l →
  (take_run u l).1 = tier u l
  ∧ Forall (λ x, (delivery_utility x.2 < u)%N) (take_run u l).2.
Proof.
  induction l as [|i l IH]; [done|]. intros [Hs Hi]%StronglySorted_inv [Hu Hl]%Forall_cons.
  unfold tier in *. cbn. destruct (N.eqb_spec (delivery_utility i.2) u) as [E|E].
  - destruct (IH Hs Hl) as [H1 H2]. cbn. by rewrite H1.
  - assert (Hlt : Forall (λ x, (delivery_utility x.2 < u)%N) (i :: l)).
    { constructor; [lia|]. eapply Forall_impl; [exact Hi|]. unfold no_rise. intros. lia. }
    split; [|done]. symmetry. apply (tier_none u l). intros x Hx. rewrite Forall_forall in Hlt.
    assert (Hx' : x ∈ i :: l) by by right. apply Hlt in Hx'. cbn in Hx'. lia.
Qed.

(** Delivery in tiers, and round by round through the families of a tier. *)
Definition rotates (l : list indexed) (x y : indexed) : Prop :=
  (delivery_utility y.2 < delivery_utility x.2)%N
  ∨ (delivery_utility y.2 = delivery_utility x.2 ∧ fair (tier (delivery_utility x.2) l) x y).

Lemma StronglySorted_impl_in {A} (R R' : A → A → Prop) l :
  (∀ x y, x ∈ l → y ∈ l → R x y → R' x y) → StronglySorted R l → StronglySorted R' l.
Proof.
  intros H. induction 1 as [|x l Hl IH Hx]; constructor.
  - apply IH. intros y z Hy Hz. apply H; by right.
  - rewrite Forall_forall in Hx |- *. intros y Hy. apply H; [by left|by right|by apply Hx].
Qed.

Lemma family_runs_rotate fuel l L :
  StronglySorted no_rise l → (length l ≤ fuel)%nat →
  (∀ x, x ∈ l → tier (delivery_utility x.2) L = tier (delivery_utility x.2) l) →
  StronglySorted (rotates L) (family_runs fuel l).
Proof.
  revert l. induction fuel as [|fuel IH]; intros [|i l] Hs Hl HL; cbn [family_runs]; [constructor..|].
  apply StronglySorted_inv in Hs as [Hs Hi]. cbn in Hl.
  pose proof (take_run_app (delivery_utility i.2) l) as E.
  destruct (take_run_tier (delivery_utility i.2) l Hs Hi) as [Hrun Hrest].
  set (run := (take_run (delivery_utility i.2) l).1) in *.
  set (rest := (take_run (delivery_utility i.2) l).2) in *.
  assert (Htier : tier (delivery_utility i.2) L = i :: run).
  { rewrite HL by by left. unfold tier at 1. cbn. rewrite N.eqb_refl. f_equal. by rewrite Hrun. }
  assert (Hsame : ∀ x, x ∈ i :: run → delivery_utility x.2 = delivery_utility i.2).
  { intros x Hx. rewrite <- Htier in Hx. apply list_elem_of_In, filter_In in Hx as [_ Hx].
    by apply N.eqb_eq. }
  rewrite Forall_forall in Hrest.
  assert (Hin : ∀ y, y ∈ family_runs fuel rest → y ∈ rest).
  { intros y. rewrite family_runs_perm; [done|]. rewrite E, length_app in Hl. lia. }
  apply strongly_sorted_app.
  - apply (StronglySorted_impl_in (fair (i :: run))); [|apply hierarchical_fair].
    intros x y. rewrite hierarchical_perm. intros Hx Hy Hf. right.
    rewrite (Hsame x Hx), (Hsame y Hy), Htier. done.
  - apply IH.
    + rewrite E in Hs. clear -Hs. induction run as [|x run IH]; [done|].
      apply StronglySorted_inv in Hs as [Hs _]. by apply IH.
    + rewrite E, length_app in Hl. lia.
    + intros x Hx. rewrite HL by (right; rewrite E; apply elem_of_app; by right).
      change (i :: l) with ([i] ++ l). rewrite E, app_assoc. change ([i] ++ run) with (i :: run).
      rewrite tier_app, (tier_none _ (i :: run)); [done|].
      intros y Hy. rewrite (Hsame y Hy). specialize (Hrest x Hx). lia.
  - intros x y Hx Hy. rewrite hierarchical_perm in Hx. left. rewrite (Hsame x Hx).
    by apply Hrest, Hin.
Qed.

Lemma rotation_order l :
  StronglySorted (rotates (sort_by utility_le l))
    (delivery_order EvidenceFamilyRotationWithinEqualUtility l).
Proof. apply family_runs_rotate; [apply sorted_no_rise|by rewrite sort_by_perm|done]. Qed.
