(* ===== verification/RecallDeliveryProps.v ===== *)
(** * Recall: theorems about delivery

    The allocation loop, as a fold over the ordered candidates, decides each
    candidate from the decisions before it; from this come the contract of the
    report, its greedy optimality and the fairness of the rotation. *)

From S2P Require Import Prelude RustOrd RecallDelivery RecallOrder.

Local Open Scope string_scope.
Local Open Scope list_scope.
Local Open Scope N_scope.

(** ** The decisions of the loop *)

Notation decided := (indexed * RecallDeliverySelectionDecision)%type.

Definition selected_of (l : list decided) : list decided :=
  List.filter (λ o, dd_selected o.2) l.

Definition rendered_groups (d : RecallDeliverySelectionDecision) : list string :=
  eb_canonical_evidence_group <$> dd_renderable_evidence_bindings d.

Definition covered_by (l : list decided) : gset string :=
  list_to_set (l ≫= λ o, rendered_groups o.2).

(** The decision about a candidate after those before it. *)
Definition decision_after (limit : N) (before : list decided) (i : indexed)
    : RecallDeliverySelectionDecision :=
  if limit <=? len (selected_of before)
  then selection_decision i.2 false [] (Some ProfileBudgetExhausted)
  else match uncovered_evidence_bindings i.2 (covered_by before) with
       | [] => selection_decision i.2 false [] (Some DuplicateEvidenceGroup)
       | renderable => selection_decision i.2 true renderable None
       end.

Definition decide_all (limit : N) (before : list decided) (l : list indexed) : list decided :=
  foldl (λ before i, before ++ [(i, decision_after limit before i)]) before l.

Lemma decide_all_snoc limit before l i :
  decide_all limit before (l ++ [i])
  = decide_all limit before l ++ [(i, decision_after limit (decide_all limit before l) i)].
Proof. unfold decide_all. by rewrite foldl_app. Qed.

Lemma decide_all_order limit l : (decide_all limit [] l).*1 = l.
Proof.
  induction l as [|i l IH] using rev_ind; [done|]. by rewrite decide_all_snoc, fmap_app, IH.
Qed.

Lemma decide_all_at limit l before o after :
  decide_all limit [] l = before ++ o :: after → o.2 = decision_after limit before o.1.
Proof.
  revert after. induction l as [|i l IH] using rev_ind; intros after.
  { intros H. by destruct before. }
  rewrite decide_all_snoc. destruct after as [|x after _] using rev_ind.
  - intros [-> [= <-]]%app_inj_tail. done.
  - rewrite app_comm_cons, app_assoc. intros [H _]%app_inj_tail. by eapply IH.
Qed.

Definition decision_at (l : list decided) (j : nat) : option RecallDeliverySelectionDecision :=
  snd <$> List.find (λ o, Nat.eqb o.1.1 j) l.

Record represents (n : nat) (l : list decided) (a : allocation) : Prop := {
  rp_selected : al_selected a = (λ o : decided, dd_candidate_id o.2) <$> selected_of l;
  rp_covered : al_covered a = covered_by l;
  rp_length : length (al_decisions a) = n;
  rp_decisions j : (j < n)%nat → al_decisions a !! j = Some (decision_at l j);
}.

Lemma selected_of_snoc l o :
  selected_of (l ++ [o]) = selected_of l ++ (if dd_selected o.2 then [o] else []).
Proof. unfold selected_of. rewrite List.filter_app. cbn. by destruct (dd_selected o.2). Qed.

Lemma covered_by_snoc l o :
  covered_by (l ++ [o]) = covered_by l ∪ list_to_set (rendered_groups o.2).
Proof. unfold covered_by. rewrite bind_app. cbn. rewrite app_nil_r. apply list_to_set_app_L. Qed.

Lemma decision_at_fresh l j : j ∉ (λ o : decided, o.1.1) <$> l → decision_at l j = None.
Proof.
  unfold decision_at. induction l as [|o l IH]; cbn; [done|]. rewrite not_elem_of_cons.
  intros [Hne Hn]. destruct (_ =? _)%nat eqn:E; [apply Nat.eqb_eq in E; by destruct Hne|by apply IH].
Qed.

Lemma represents_decide n l a i d :
  represents n l a → (i.1 < n)%nat → i.1 ∉ (λ o : decided, o.1.1) <$> l →
  ∀ j, (j < n)%nat → <[i.1 := Some d]> (al_decisions a) !! j = Some (decision_at (l ++ [(i, d)]) j).
Proof.
  intros [_ _ Hlen Hdec] Hi Hfresh j Hj. unfold decision_at. rewrite find_snoc.
  destruct (decide (i.1 = j)) as [<-|Hne].
  - rewrite list_lookup_insert_eq by lia. pose proof (decision_at_fresh l i.1 Hfresh) as Hn.
    unfold decision_at in Hn. destruct (List.find _ l); [done|]. cbn. by rewrite Nat.eqb_refl.
  - rewrite list_lookup_insert_ne by done. rewrite Hdec by done. unfold decision_at.
    destruct (List.find _ l); [done|]. cbn. by apply Nat.eqb_neq in Hne as ->.
Qed.

Lemma allocate_one_represents limit n l a i :
  represents n l a → (i.1 < n)%nat → i.1 ∉ (λ o : decided, o.1.1) <$> l →
  represents n (l ++ [(i, decision_after limit l i)]) (allocate_one limit a i).
Proof.
  intros Hr Hi Hfresh. pose proof (λ d, represents_decide n l a i d Hr Hi Hfresh) as Hd.
  destruct Hr as [Hs Hc Hlen Hdec].
  assert (Hcount : len (al_selected a) = len (selected_of l))
    by (rewrite Hs; unfold len; by rewrite length_fmap).
  unfold allocate_one, decision_after. rewrite Hcount, Hc.
  destruct (limit <=? len (selected_of l)); [|destruct (uncovered_evidence_bindings _ _) as [|b bs]];
    split; rewrite ?selected_of_snoc, ?covered_by_snoc; cbn -[union list_to_set];
    rewrite ?app_nil_r, ?fmap_app, ?length_insert, ?Hs, ?Hc; try done; set_solver.
Qed.

Lemma allocation_represents limit n l0 a l :
  represents n l0 a → Forall (λ i : indexed, (i.1 < n)%nat) l →
  NoDup (((λ o : decided, o.1.1) <$> l0) ++ l.*1) →
  represents n (decide_all limit l0 l) (foldl (allocate_one limit) a l).
Proof.
  revert l0 a. induction l as [|i l IH]; intros l0 a Hr Hl Hnd; [done|].
  apply Forall_cons in Hl as [Hi Hl]. cbn. cbn in Hnd.
  apply IH; [|done|].
  - apply allocate_one_represents; [done..|]. apply NoDup_app in Hnd as (_ & Hnd & _).
    intros Hin. apply (Hnd _ Hin). by left.
  - rewrite fmap_app. cbn. by rewrite <- app_assoc.
Qed.

(** What the decision about a candidate says. *)
Variant decision_spec (limit : N) (before : list decided) (i : indexed)
    : RecallDeliverySelectionDecision → Prop :=
| spec_budget : limit ≤ len (selected_of before) →
    decision_spec limit before i (selection_decision i.2 false [] (Some ProfileBudgetExhausted))
| spec_duplicate : len (selected_of before) < limit →
    (∀ b, b ∈ dc_evidence_bindings i.2 → eb_canonical_evidence_group b ∈ covered_by before) →
    decision_spec limit before i (selection_decision i.2 false [] (Some DuplicateEvidenceGroup))
| spec_selected renderable : len (selected_of before) < limit → renderable ≠ [] →
    (∀ b, b ∈ renderable ↔
          b ∈ dc_evidence_bindings i.2 ∧ eb_canonical_evidence_group b ∉ covered_by before) →
    decision_spec limit before i (selection_decision i.2 true renderable None).

Lemma elem_of_uncovered c covered b :
  b ∈ uncovered_evidence_bindings c covered ↔
  b ∈ dc_evidence_bindings c ∧ eb_canonical_evidence_group b ∉ covered.
Proof.
  unfold uncovered_evidence_bindings. rewrite list_elem_of_In, filter_In, <- list_elem_of_In.
  by rewrite negb_true_iff, bool_decide_eq_false.
Qed.

Lemma decision_after_spec limit before i : decision_spec limit before i (decision_after limit before i).
Proof.
  unfold decision_after. destruct (limit <=? len (selected_of before)) eqn:E; split_bool; [by constructor|].
  pose proof (elem_of_uncovered i.2 (covered_by before)) as H.
  destruct (uncovered_evidence_bindings i.2 (covered_by before)) as [|b bs].
  - constructor; [done|]. intros b Hb. destruct (decide (eb_canonical_evidence_group b ∈ covered_by before));
      [done|]. assert (b ∈ []) as []%elem_of_nil by by apply H.
  - by constructor.
Qed.

Lemma elem_of_covered_by l g :
  g ∈ covered_by l ↔ ∃ o, o ∈ l ∧ g ∈ rendered_groups o.2.
Proof. unfold covered_by. rewrite elem_of_list_to_set, list_elem_of_bind. naive_solver. Qed.

Lemma selected_count limit l : len (selected_of (decide_all limit [] l)) ≤ limit.
Proof.
  induction l as [|i l IH] using rev_ind; [apply N.le_0_l|]. rewrite decide_all_snoc, selected_of_snoc.
  destruct (decision_after_spec limit (decide_all limit [] l) i); cbn; rewrite ?app_nil_r; [done..|].
  unfold len in *. rewrite length_app. cbn. lia.
Qed.

Lemma selected_of_app l k : selected_of (l ++ k) = selected_of l ++ selected_of k.
Proof. apply List.filter_app. Qed.

(** ** Elements with their indices *)

Lemma elem_of_pairs {A} (p : nat * A → bool) (l : list A) x :
  x ∈ List.filter p (imap (λ i c, (i, c)) l) ↔ l !! x.1 = Some x.2 ∧ p x = true.
Proof.
  rewrite list_elem_of_In, filter_In, <- list_elem_of_In, list_elem_of_lookup.
  setoid_rewrite list_lookup_imap. split; intros [H He]; split; try done.
  - destruct H as [j H]. destruct (l !! j) eqn:E; [|done]. cbn in H. by simplify_eq.
  - exists x.1. rewrite H. by destruct x.
Qed.

Lemma pairs_nodup {A} (p : nat * A → bool) (l : list A) :
  NoDup (List.filter p (imap (λ i c, (i, c)) l)).*1.
Proof.
  assert (H : ∀ k, NoDup (imap (λ i c, (k + i, c)%nat) l).*1
                   ∧ ∀ j, j ∈ (imap (λ i c, (k + i, c)%nat) l).*1 → (k ≤ j)%nat).
  { induction l as [|c l IH]; intros k; [split; [constructor|by intros ? ?%elem_of_nil]|].
    cbn. destruct (IH (S k)) as [Hnd Hle].
    assert (E : imap ((λ i c, (k + i, c)%nat) ∘ S) l = imap (λ i c, (S k + i, c)%nat) l)
      by (apply imap_ext; intros j x _; cbn; f_equal; lia).
    rewrite E, Nat.add_0_r. split.
    - constructor; [|done]. intros Hin%Hle. lia.
    - intros j [->|Hj%Hle]%elem_of_cons; lia. }
  destruct (H 0%nat) as [Hnd _]. cbn in Hnd. revert Hnd.
  generalize (imap (λ i c, (i, c)) l). clear. intros l.
  induction l as [|x l IH]; cbn; [done|]. intros [Hx Hnd]%NoDup_cons.
  destruct (p x); [|by apply IH]. cbn. constructor; [|by apply IH].
  intros Hin. apply Hx. apply list_elem_of_fmap in Hin as (y & -> & Hy).
  apply list_elem_of_In, filter_In in Hy as [Hy _]. by apply list_elem_of_fmap_2, list_elem_of_In.
Qed.

(** ** The contract of a report *)

(** What a candidate must pass, in order, and the reason of dropping it when it
    does not. *)
Definition checks (c : RecallDeliveryCandidate)
    : list (bool * RecallDeliverySelectionDropReason) :=
  [(dc_owner_available c, OwnerRecordUnavailable);
   (dc_governed_binding_eligible c, GovernedBindingInvalid);
   (dc_citation_eligible c && bool_decide (dc_evidence_bindings c ≠ []), CitationMissing);
   (dc_privacy_eligible c, PrivacyScopeBlocked);
   (dc_temporal_eligible c, TemporalSuperseded)].

Definition passes (c : RecallDeliveryCandidate) : Prop := Forall (λ k, k.1 = true) (checks c).

(** The first check of the list that fails has this reason. *)
Definition fails_first (c : RecallDeliveryCandidate) (reason : RecallDeliverySelectionDropReason)
    : Prop :=
  ∃ passed rest, checks c = passed ++ (false, reason) :: rest ∧ Forall (λ k, k.1 = true) passed.

Definition repeats (c : RecallDeliveryCandidate) (d : RecallDeliverySelectionDecision) : Prop :=
  dd_candidate_id d = dc_candidate_id c ∧ dd_evidence_bindings d = dc_evidence_bindings c.

Definition dropped (d : RecallDeliverySelectionDecision)
    (reason : RecallDeliverySelectionDropReason) : Prop :=
  dd_selected d = false ∧ dd_renderable_evidence_bindings d = [] ∧ dd_drop_reason d = Some reason.

Definition rendered (l : list decided) (g : string) : Prop :=
  ∃ o, o ∈ l ∧ g ∈ rendered_groups o.2.

(** The decision about a candidate whose turn comes after others were decided:
    it is dropped for the budget exactly when the limit is reached, otherwise
    as a duplicate exactly when each of its groups is already rendered, and
    otherwise selected with exactly its bindings of other groups. *)
Definition takes_turn (limit : N) (before : list decided) (c : RecallDeliveryCandidate)
    (d : RecallDeliverySelectionDecision) : Prop :=
  let full := limit ≤ len (selected_of before) in
  let stale b := rendered before (eb_canonical_evidence_group b) in
  repeats c d
  ∧ ((full ∧ dropped d ProfileBudgetExhausted)
     ∨ (~ full ∧ (∀ b, b ∈ dc_evidence_bindings c → stale b) ∧ dropped d DuplicateEvidenceGroup)
     ∨ (~ full ∧ (∃ b, b ∈ dc_evidence_bindings c ∧ ~ stale b)
        ∧ dd_selected d = true ∧ dd_drop_reason d = None
        ∧ dd_renderable_evidence_bindings d `sublist_of` dc_evidence_bindings c
        ∧ ∀ b, b ∈ dd_renderable_evidence_bindings d ↔ b ∈ dc_evidence_bindings c ∧ ~ stale b)).

(** A report is right when there is a sequence of turns that explains it. *)
Record delivered_by (candidates : list RecallDeliveryCandidate) (limit : N)
    (r : RecallDeliverySelectionReport) (turns : list decided) : Prop := {
  dl_length : length (ds_decisions r) = length candidates;
  dl_refused j c : candidates !! j = Some c → ~ passes c →
    ∃ d reason, ds_decisions r !! j = Some d ∧ repeats c d ∧ dropped d reason
                ∧ fails_first c reason;
  dl_turns j c : (j, c) ∈ turns.*1 ↔ candidates !! j = Some c ∧ passes c;
  dl_once : NoDup turns.*1.*1;
  dl_useful before o after o' : turns = before ++ o :: after → o' ∈ before →
    delivery_utility o.1.2 ≤ delivery_utility o'.1.2;
  dl_decided before o after : turns = before ++ o :: after →
    ds_decisions r !! o.1.1 = Some o.2 ∧ takes_turn limit before o.1.2 o.2;
  dl_selected : ds_selected_candidate_ids r = (λ o, dc_candidate_id o.1.2) <$> selected_of turns;
  dl_limit : len (ds_selected_candidate_ids r) ≤ limit;
  dl_rendered o1 o2 g : o1 ∈ turns → o2 ∈ turns →
    g ∈ rendered_groups o1.2 → g ∈ rendered_groups o2.2 → o1 = o2;
  dl_covered g : g ∈ ds_covered_evidence_groups r ↔ rendered turns g;
}.

Lemma eligible_passes c : delivery_eligible c = true ↔ passes c.
Proof.
  unfold delivery_eligible, passes, checks, candidate_has_governed_citation.
  rewrite !Forall_cons, Forall_nil. cbn. rewrite !andb_true_iff, bool_decide_eq_true.
  assert (match dc_evidence_bindings c with [] => false | _ => true end = true
          ↔ dc_evidence_bindings c ≠ []) as -> by by destruct (dc_evidence_bindings c).
  tauto.
Qed.

Lemma ineligible_fails_first c :
  delivery_eligible c = false → fails_first c (ineligible_drop_reason c).
Proof.
  unfold delivery_eligible, ineligible_drop_reason, fails_first, checks.
  assert (candidate_has_governed_citation c
          = dc_citation_eligible c && bool_decide (dc_evidence_bindings c ≠ [])) as ->.
  { unfold candidate_has_governed_citation. by destruct (dc_evidence_bindings c). }
  destruct (dc_owner_available c); [|intros _; eexists [], _; split; [done|by repeat constructor]].
  destruct (dc_governed_binding_eligible c);
    [|intros _; eexists [_], _; split; [done|by repeat constructor]].
  destruct (_ && bool_decide _);
    [|intros _; eexists [_; _], _; split; [done|by repeat constructor]].
  destruct (dc_privacy_eligible c);
    [|intros _; eexists [_; _; _], _; split; [done|by repeat constructor]].
  destruct (dc_temporal_eligible c);
    [done|intros _; eexists [_; _; _; _], _; split; [done|by repeat constructor]].
Qed.

(** Why an eligible candidate was not selected: each of its evidence groups is
    rendered by a selected candidate that is at least as useful, or the limit
    is filled with candidates that are. *)
Definition outranked (candidates : list RecallDeliveryCandidate) (limit : N)
    (r : RecallDeliverySelectionReport) (c : RecallDeliveryCandidate)
    (d : RecallDeliverySelectionDecision) : Prop :=
  (dd_drop_reason d = Some DuplicateEvidenceGroup
   ∧ ∀ b, b ∈ dc_evidence_bindings c →
       ∃ i c' d', candidates !! i = Some c' ∧ ds_decisions r !! i = Some d'
         ∧ dd_selected d' = true ∧ eb_canonical_evidence_group b ∈ rendered_groups d'
         ∧ delivery_utility c ≤ delivery_utility c')
  ∨ (dd_drop_reason d = Some ProfileBudgetExhausted
     ∧ len (ds_selected_candidate_ids r) = limit
     ∧ ∀ i c' d', candidates !! i = Some c' → ds_decisions r !! i = Some d' →
         dd_selected d' = true → delivery_utility c ≤ delivery_utility c').

#[local] Arguments allocate_recall_delivery_candidates : simpl never.

Section Delivery.
Context (candidates : list RecallDeliveryCandidate) (limit : N)
        (policy : RecallDeliveryOrderingPolicy).
#[local] Notation report := (allocate_recall_delivery_candidates candidates limit policy).
#[local] Notation order := (delivery_order policy (eligible_candidates candidates)).
#[local] Notation outcomes := (decide_all limit [] order).

Lemma elem_of_eligible i :
  i ∈ eligible_candidates candidates ↔
  candidates !! i.1 = Some i.2 ∧ delivery_eligible i.2 = true.
Proof. apply (elem_of_pairs (λ i : indexed, delivery_eligible i.2)). Qed.

Lemma eligible_nodup : NoDup (eligible_candidates candidates).*1.
Proof. apply pairs_nodup. Qed.

Lemma outcomes_indices : NoDup ((λ o : decided, o.1.1) <$> outcomes).
Proof.
  change ((λ o : decided, o.1.1) <$> outcomes) with ((fst ∘ fst) <$> outcomes).
  rewrite list_fmap_compose, decide_all_order, delivery_order_perm. apply eligible_nodup.
Qed.

Lemma report_represents :
  represents (length candidates) outcomes
    (foldl (allocate_one limit)
       (mkAllocation [] ∅ ∅ ∅ (replicate (length candidates) None)) order).
Proof.
  apply allocation_represents.
  - split; [done|done|cbn; apply length_replicate|]. intros j Hj. cbn. by apply lookup_replicate_2.
  - rewrite delivery_order_perm. apply Forall_forall. intros i [Hi _]%elem_of_eligible.
    by eapply lookup_lt_Some.
  - cbn. rewrite delivery_order_perm. apply eligible_nodup.
Qed.

Lemma decision_at_elem o : o ∈ outcomes → decision_at outcomes o.1.1 = Some o.2.
Proof.
  pose proof outcomes_indices as Hnd. revert Hnd. generalize outcomes. intros l.
  unfold decision_at. induction l as [|x l IH]; cbn; [by intros _ ?%elem_of_nil|].
  intros [Hx Hnd]%NoDup_cons [->|Hin]%elem_of_cons; [by rewrite Nat.eqb_refl|].
  destruct (Nat.eqb_spec x.1.1 o.1.1) as [E|_]; [|by apply IH]. destruct Hx. rewrite E.
  by apply (list_elem_of_fmap_2 (λ o : decided, o.1.1)).
Qed.

Lemma report_decisions j :
  ds_decisions report !! j
  = (λ c, default (selection_decision c false [] (Some (ineligible_drop_reason c)))
            (decision_at outcomes j)) <$> candidates !! j.
Proof.
  unfold allocate_recall_delivery_candidates. cbn. rewrite list_lookup_imap.
  destruct (candidates !! j) as [c|] eqn:E; [|done]. cbn. do 2 f_equal.
  by rewrite (rp_decisions _ _ _ report_represents) by by eapply lookup_lt_Some.
Qed.

(** The decision about an eligible candidate is one of the loop. *)
Lemma outcome_of_candidate j c :
  candidates !! j = Some c → delivery_eligible c = true →
  ∃ d, ((j, c), d) ∈ outcomes ∧ ds_decisions report !! j = Some d.
Proof.
  intros Hc He. assert (Hin : (j, c) ∈ order) by by rewrite delivery_order_perm, elem_of_eligible.
  rewrite <- (decide_all_order limit order) in Hin. apply list_elem_of_fmap in Hin as ([i d] & E & Hin).
  cbn in E. subst i. exists d. split; [done|]. rewrite report_decisions, Hc. cbn.
  pose proof (decision_at_elem _ Hin) as E. cbn in E. by rewrite E.
Qed.

Lemma outcome_candidate o :
  o ∈ outcomes →
  candidates !! o.1.1 = Some o.1.2 ∧ delivery_eligible o.1.2 = true
  ∧ ds_decisions report !! o.1.1 = Some o.2.
Proof.
  intros Hin. assert (Hi : o.1 ∈ order).
  { rewrite <- (decide_all_order limit order). by apply list_elem_of_fmap_2. }
  rewrite delivery_order_perm, elem_of_eligible in Hi. destruct Hi as [Hc He].
  split_and!; [done..|]. by rewrite report_decisions, Hc, decision_at_elem.
Qed.

Lemma ineligible_decision j c :
  candidates !! j = Some c → delivery_eligible c = false →
  ds_decisions report !! j = Some (selection_decision c false [] (Some (ineligible_drop_reason c))).
Proof.
  intros Hc He. rewrite report_decisions, Hc. cbn.
  destruct (decision_at outcomes j) as [d|] eqn:E; [|done]. exfalso. unfold decision_at in E.
  destruct (List.find _ outcomes) as [o|] eqn:Ef; [|done]. apply List.find_some in Ef as [Hin Ej].
  apply Nat.eqb_eq in Ej as <-. apply list_elem_of_In, outcome_candidate in Hin as (Hc' & He' & _).
  congruence.
Qed.

Lemma report_selected :
  ds_selected_candidate_ids report = (λ o : decided, dd_candidate_id o.2) <$> selected_of outcomes.
Proof. apply (rp_selected _ _ _ report_represents). Qed.

Lemma report_covered g :
  g ∈ ds_covered_evidence_groups report ↔ g ∈ covered_by outcomes.
Proof.
  unfold allocate_recall_delivery_candidates. cbn. unfold sorted_set.
  rewrite sort_perm, elem_of_elements. by rewrite (rp_covered _ _ _ report_represents).
Qed.

(** A decision renders no group that is covered before. *)
Lemma rendered_fresh before o after g :
  outcomes = before ++ o :: after → g ∈ rendered_groups o.2 → g ∉ covered_by before.
Proof.
  intros E Hg. rewrite (decide_all_at _ _ _ _ _ E) in Hg. unfold rendered_groups in Hg.
  destruct (decision_after_spec limit before o.1) as [| |renderable _ _ Hr]; cbn in Hg;
    [by apply elem_of_nil in Hg..|].
  apply list_elem_of_fmap in Hg as (b & -> & Hb). by apply Hr.
Qed.

Lemma rendered_once o1 o2 g :
  o1 ∈ outcomes → o2 ∈ outcomes → g ∈ rendered_groups o1.2 → g ∈ rendered_groups o2.2 → o1 = o2.
Proof.
  intros H1 H2 Hg1 Hg2. apply list_elem_of_split in H1 as (l & k & E).
  rewrite E in H2. apply elem_of_app in H2 as [H2|[->|H2]%elem_of_cons]; [|done|].
  - destruct (rendered_fresh _ _ _ g E Hg1). apply elem_of_covered_by. by exists o2.
  - apply list_elem_of_split in H2 as (k1 & k2 & ->).
    assert (E' : outcomes = (l ++ o1 :: k1) ++ o2 :: k2) by by rewrite E, <- app_assoc.
    destruct (rendered_fresh _ _ _ g E' Hg2). apply elem_of_covered_by. exists o1.
    split; [|done]. apply elem_of_app. right. left.
Qed.

Lemma filter_is_sublist {A} (p : A → bool) l : List.filter p l `sublist_of` l.
Proof. induction l as [|x l IH]; cbn; [constructor|]. destruct (p x); by constructor. Qed.

Lemma outcome_takes_turn before o after :
  outcomes = before ++ o :: after → takes_turn limit before o.1.2 o.2.
Proof.
  intros E. rewrite (decide_all_at _ _ _ _ _ E). unfold takes_turn, decision_after.
  pose proof (elem_of_uncovered o.1.2 (covered_by before)) as H.
  setoid_rewrite elem_of_covered_by in H. fold (rendered before) in H.
  assert (Hd : ∀ g, Decision (rendered before g)).
  { intros g. refine (cast_if (decide (g ∈ covered_by before))); by rewrite elem_of_covered_by in *. }
  destruct (N.leb_spec limit (len (selected_of before))) as [Hl|Hl]; cbv zeta.
  - split; [done|]. left. by split.
  - assert (Hs : uncovered_evidence_bindings o.1.2 (covered_by before)
                 `sublist_of` dc_evidence_bindings o.1.2) by apply filter_is_sublist.
    destruct (uncovered_evidence_bindings o.1.2 (covered_by before)) as [|b bs].
    + split; [done|]. right; left. split_and!; [lia| |done].
      intros b Hb. destruct (Hd (eb_canonical_evidence_group b)); [done|].
      assert (b ∈ []) as []%elem_of_nil by by apply H.
    + split; [done|]. right; right. split_and!; try done; [lia|].
      exists b. apply H. left.
Qed.

Lemma rendering_selected o g : o ∈ outcomes → g ∈ rendered_groups o.2 → dd_selected o.2 = true.
Proof.
  intros (l & k & E)%list_elem_of_split Hg. unfold rendered_groups in Hg.
  destruct (outcome_takes_turn _ _ _ E) as (_ & [(_ & _ & Hn & _)|[(_ & _ & _ & Hn & _)|Hs]]);
    [rewrite Hn in Hg; by apply elem_of_nil in Hg..|by apply Hs].
Qed.

Lemma before_no_rise before o after o' :
  outcomes = before ++ o :: after → o' ∈ before →
  delivery_utility o.1.2 ≤ delivery_utility o'.1.2.
Proof.
  intros E Hin. pose proof (delivery_order_no_rise policy (eligible_candidates candidates)) as Hs.
  rewrite <- (decide_all_order limit order), E, fmap_app in Hs. cbn in Hs.
  apply list_elem_of_split in Hin as (l1 & l2 & ->). rewrite fmap_app in Hs. cbn in Hs.
  rewrite <- app_assoc in Hs. cbn in Hs. clear E.
  induction l1 as [|x l1 IH]; cbn in Hs; apply StronglySorted_inv in Hs as [Hs Hx]; [|by apply IH].
  rewrite Forall_forall in Hx. apply (Hx o.1). apply elem_of_app. right. left.
Qed.

Lemma selected_ids : ds_selected_candidate_ids report = (λ o, dc_candidate_id o.1.2) <$> selected_of outcomes.
Proof.
  rewrite report_selected. apply list_fmap_ext. intros i o Ho%list_elem_of_lookup_2.
  apply list_elem_of_In, filter_In in Ho as [Ho _]. apply list_elem_of_In, list_elem_of_split in Ho as (l & k & E).
  by destruct (outcome_takes_turn _ _ _ E) as [[? _] _].
Qed.

(** C21: the report of an allocation is explained by a sequence of turns, for
    every list of candidates, limit and ordering policy.  A candidate that does
    not pass the five checks (owner, governed binding, citation, privacy, time)
    gets no turn and is dropped for the first check it fails.  Each of the
    others gets one turn, the more useful ones first.  At its turn it is dropped
    for the budget exactly when as many as the limit are selected before it,
    otherwise as a duplicate exactly when each of its evidence groups is
    rendered before it, and otherwise selected with exactly its bindings of
    groups that are not.  The report lists the selected candidates in the order
    of their turns, at most as many as the limit; no evidence group is rendered
    by two candidates; and the covered groups are exactly the rendered ones. *)
Theorem delivery_contract : ∃ turns, delivered_by candidates limit report turns.
Proof.
  exists outcomes. split.
  - unfold allocate_recall_delivery_candidates. cbn. by rewrite length_imap.
  - intros j c Hc Hp. rewrite <- eligible_passes, not_true_iff_false in Hp.
    eexists _, _. split; [by apply ineligible_decision|]. split_and!; [done..|].
    by apply ineligible_fails_first.
  - intros j c. by rewrite decide_all_order, delivery_order_perm, elem_of_eligible, <- eligible_passes.
  - rewrite decide_all_order, delivery_order_perm. apply eligible_nodup.
  - apply before_no_rise.
  - intros before o after E. split; [|by eapply outcome_takes_turn].
    apply outcome_candidate. rewrite E. apply elem_of_app. right. left.
  - apply selected_ids.
  - rewrite selected_ids. unfold len. rewrite length_fmap. apply selected_count.
  - apply rendered_once.
  - intros g. by rewrite report_covered, elem_of_covered_by.
Qed.

(** C22: no candidate is passed over for a less useful one: an eligible
    candidate is left out only when each of its evidence groups is rendered by
    a selected candidate of at least its utility, or when the limit is filled
    with candidates of at least its utility; under both ordering policies. *)
Theorem delivery_respects_relevance j c d :
  candidates !! j = Some c → ds_decisions report !! j = Some d →
  delivery_eligible c = true → dd_selected d = false → outranked candidates limit report c d.
Proof.
  intros Hc Hd He Hs. destruct (outcome_of_candidate j c Hc He) as (d' & Hin & Hd').
  rewrite Hd in Hd'. injection Hd' as <-. apply list_elem_of_split in Hin as (l & k & E).
  pose proof (decide_all_at _ _ _ _ _ E) as Hat. cbn in Hat.
  pose proof (decision_after_spec limit l (j, c)) as Hspec. rewrite <- Hat in Hspec. clear Hat.
  unfold outranked. inversion Hspec as [Hcount Ed|Hcount Hdup Ed|? ? ? ? Ed]; subst d; cbn in *.
  3: done.
  - right. split; [done|]. rewrite report_selected. unfold len at 1. rewrite length_fmap.
    fold (len (selected_of outcomes)). pose proof (selected_count limit order) as Hmax. split.
    { rewrite E, selected_of_app in Hmax |- *. unfold len in *. rewrite length_app in *. lia. }
    intros i c' d' Hc' Hd' Hs'. destruct (delivery_eligible c') eqn:Ee.
    2: { rewrite (ineligible_decision i c' Hc' Ee) in Hd'. injection Hd' as <-. done. }
    destruct (outcome_of_candidate i c' Hc' Ee) as (d'' & Hin & Hd'').
    rewrite Hd' in Hd''. injection Hd'' as <-. rewrite E in Hin.
    apply elem_of_app in Hin as [Hin|[Heq|Hin]%elem_of_cons].
    + by apply (before_no_rise _ _ _ _ E) in Hin.
    + injection Heq as -> -> ->. done.
    + apply list_elem_of_split in Hin as (k1 & k2 & ->).
      assert (E' : outcomes = (l ++ (j, c, selection_decision c false [] (Some ProfileBudgetExhausted)) :: k1)
                              ++ (i, c', d') :: k2) by by rewrite E, <- app_assoc.
      pose proof (decide_all_at _ _ _ _ _ E') as Hat'. cbn in Hat'.
      destruct (decision_after_spec limit (l ++ (j, c, selection_decision c false [] (Some ProfileBudgetExhausted)) :: k1) (i, c'));
        subst d'; try done; exfalso; rewrite selected_of_app in *; unfold len in *; rewrite length_app in *; lia.
  - left. split; [done|]. intros b Hb. specialize (Hdup b Hb).
    apply elem_of_covered_by in Hdup as (o & Ho & Hg). pose proof (before_no_rise _ _ _ _ E Ho) as Hu.
    assert (Hino : o ∈ outcomes) by (rewrite E; apply elem_of_app; by left).
    apply outcome_candidate in Hino as (Hoc & _ & Hod). exists o.1.1, o.1.2, o.2.
    split_and!; try done. apply (rendering_selected o (eb_canonical_evidence_group b)); [|done].
    rewrite E. apply elem_of_app. by left.
Qed.

End Delivery.

(** with rotation the delivery order is fair: the candidates come in tiers
    of falling utility, and within a tier, in which each evidence family ranks
    its own candidates, no family is given its next turn before every family
    with a candidate left had the one before. *)
Theorem rotation_is_fair (l : list indexed) :
  delivery_order EvidenceFamilyRotationWithinEqualUtility l ≡ₚ l
  ∧ StronglySorted (rotates (sort_by utility_le l))
      (delivery_order EvidenceFamilyRotationWithinEqualUtility l).
Proof. split; [apply delivery_order_perm|apply rotation_order]. Qed.
