(* ===== verification/RecallRerank.v ===== *)
(** * Recall: ranking across planes and routing

    Model of [crates/core/src/memory/recall_rerank.rs] and [recall_router.rs],
    with the reports of [recall_contract.rs]: the candidates of the recall
    planes are scored for an intent, ranked per plane and across planes, and
    the signals of the planes decide the intent of a prompt.  The terms of a
    query ([archive_search.rs]) are a parameter. *)

From S2P Require Import Prelude RustStr RustOrd Governed TurnTypes.

Local Open Scope string_scope.
Local Open Scope list_scope.
Local Open Scope N_scope.

(** [u32::saturating_add], [u32::saturating_mul] *)
Definition add32 (a b : N) : N := N.min u32_max (a + b).
Definition mul32 (a b : N) : N := N.min u32_max (a * b).

(** ** Reports of the planes *)

Inductive RecallPlane := SharedFactual | ContinuityCapsule | ArchivePlane | RuntimeSkill | TaskRecall.
Inductive PromptRecallIntent := Factual | Procedural | Continuity | EvidenceIntent | Mixed.

#[global] Instance recall_plane_eq_dec : EqDecision RecallPlane.
Proof. solve_decision. Defined.
#[global] Instance recall_intent_eq_dec : EqDecision PromptRecallIntent.
Proof. solve_decision. Defined.

Definition plane_label (p : RecallPlane) : string :=
  match p with
  | SharedFactual => "shared_factual"
  | ContinuityCapsule => "continuity_capsule"
  | ArchivePlane => "archive"
  | RuntimeSkill => "runtime_skill"
  | TaskRecall => "task_recall"
  end.

Definition intent_label (i : PromptRecallIntent) : string :=
  match i with
  | Factual => "factual"
  | Procedural => "procedural"
  | Continuity => "continuity"
  | EvidenceIntent => "evidence"
  | Mixed => "mixed"
  end.

Record RecallScoreBreakdown := mkScore {
  rs_lexical_score : N;
  rs_semantic_score : N;
  rs_exact_match_score : N;
  rs_entity_anchor_score : N;
  rs_temporal_anchor_score : N;
  rs_recency_score : N;
  rs_confidence_score : N;
  rs_importance_score : N;
  rs_scope_affinity_score : N;
  rs_governance_score : N;
  rs_evidence_quality_score : N;
  rs_source_score : N;
  rs_stale_penalty : N;
  rs_total_score : N;
  rs_reason_fragments : list string;
}.

Record RecallCandidate := mkCandidate {
  rc_plane : RecallPlane;
  rc_owner_ref : option GovernedMemoryOwnerRef;
  rc_candidate_id : string;
  rc_title : string;
  rc_excerpt : string;
  rc_citation : option string;
  rc_source : string;
  rc_observed_at : option N;
  rc_selected : bool;
  rc_score : RecallScoreBreakdown;
}.

Record RecallQuery := mkQuery {
  rq_plane : RecallPlane;
  rq_raw_query : string;
  rq_normalized_query : string;
  rq_preferred_chat_id : option string;
  rq_current_channel : option string;
  rq_summary_text : option string;
  rq_recent_grounding : list string;
  rq_active_run_id : option string;
  rq_exact_lookup : option string;
  rq_requested_limit : N;
  rq_max_chars : N;
  rq_notes : list string;
}.

Record RecallSelectionReport := mkPlaneReport {
  rr_plane : RecallPlane;
  rr_query : RecallQuery;
  rr_backend : string;
  rr_candidate_count : N;
  rr_selected_count : N;
  rr_selected_ids : list string;
  rr_miss_reason : option string;
  rr_selection_note : option string;
  rr_candidates : list RecallCandidate;
}.

(** ** Scores *)

Definition CROSS_PLANE_TOP_CANDIDATES : nat := 6.
Definition PLANE_SIGNAL_TOP_K : nat := 2.

Inductive CrossPlaneRerankPurpose := CandidateRanking | RouterSignal.

Definition plane_intent_bonus (intent : PromptRecallIntent) (plane : RecallPlane) : N :=
  match intent, plane with
  | Factual, SharedFactual => 18
  | Factual, ContinuityCapsule => 8
  | Factual, ArchivePlane => 3
  | Factual, RuntimeSkill => 2
  | Factual, TaskRecall => 4
  | Procedural, SharedFactual => 2
  | Procedural, ContinuityCapsule => 10
  | Procedural, ArchivePlane => 3
  | Procedural, RuntimeSkill => 18
  | Procedural, TaskRecall => 14
  | Continuity, SharedFactual => 5
  | Continuity, ContinuityCapsule => 20
  | Continuity, ArchivePlane => 8
  | Continuity, RuntimeSkill => 5
  | Continuity, TaskRecall => 16
  | EvidenceIntent, SharedFactual => 2
  | EvidenceIntent, ContinuityCapsule => 8
  | EvidenceIntent, ArchivePlane => 32
  | EvidenceIntent, RuntimeSkill => 1
  | EvidenceIntent, TaskRecall => 2
  | Mixed, SharedFactual => 12
  | Mixed, ContinuityCapsule => 10
  | Mixed, ArchivePlane => 8
  | Mixed, RuntimeSkill => 7
  | Mixed, TaskRecall => 7
  end.

Definition plane_rank := plane_intent_bonus.

Definition w42_hybrid_source_rerank_bonus (intent : PromptRecallIntent) (plane : RecallPlane)
    (s : RecallScoreBreakdown) : N :=
  let source_bonus :=
    add32 (add32 (mul32 (N.min (rs_entity_anchor_score s) 32) 2)
                 (mul32 (N.min (rs_temporal_anchor_score s) 24) 2))
          (N.min (rs_evidence_quality_score s) 24)
    - N.min (rs_stale_penalty s) 24 in
  match intent with
  | Factual => source_bonus
  | Mixed =>
      match plane with
      | SharedFactual | ArchivePlane => source_bonus
      | ContinuityCapsule | RuntimeSkill | TaskRecall => source_bonus / 2
      end
  | EvidenceIntent =>
      match plane with
      | ArchivePlane => N.min (rs_evidence_quality_score s) 24
      | _ => 0
      end
  | Continuity | Procedural => 0
  end.

Definition rerank_candidate_score (intent : PromptRecallIntent) (report : RecallSelectionReport)
    (c : RecallCandidate) (purpose : CrossPlaneRerankPurpose) : N :=
  let s := rc_score c in
  let rerank := plane_intent_bonus intent (rc_plane c) in
  let rerank := add32 rerank (mul32 (N.min (rs_exact_match_score s) 24) 2) in
  let rerank := add32 rerank (N.min (rs_lexical_score s) 24) in
  let rerank := add32 rerank (N.min (rs_semantic_score s) 20) in
  let rerank := add32 rerank (match purpose with
                              | CandidateRanking =>
                                  w42_hybrid_source_rerank_bonus intent (rc_plane c) s
                              | RouterSignal => 0
                              end) in
  let rerank := add32 rerank (mul32 (N.min (rs_scope_affinity_score s) 12) 2) in
  let rerank := add32 rerank (N.min (rs_recency_score s) 8) in
  let rerank := add32 rerank (N.min (rs_confidence_score s) 8) in
  let rerank := add32 rerank (N.min (rs_importance_score s) 8) in
  let rerank := add32 rerank (mul32 (N.min (rs_governance_score s) 8) 2) in
  let rerank := add32 rerank (N.min (rs_source_score s) 8) in
  let rerank := add32 rerank (N.min (rs_total_score s) 24 / 2) in
  let rerank := if rc_selected c then add32 rerank 4 else rerank in
  let rerank := if bool_decide (intent = EvidenceIntent) && bool_decide (is_Some (rc_citation c))
                then add32 rerank 4 else rerank in
  if bool_decide (is_Some (rq_exact_lookup (rr_query report)))
     && bool_decide (rc_plane c = SharedFactual)
  then add32 rerank 16 else rerank.

Definition rerank_reason_fragments (intent : PromptRecallIntent) (c : RecallCandidate)
    : list string :=
  ["intent=" +:+ intent_label intent; "plane=" +:+ plane_label (rc_plane c)]
  ++ take 4 (List.filter (λ r, negb (is_empty r)) (trim <$> rs_reason_fragments (rc_score c))).

(** ** Ranking *)

Record CrossPlaneRerankCandidate := mkRanked {
  xc_plane : RecallPlane;
  xc_candidate_id : string;
  xc_title : string;
  xc_source : string;
  xc_selected : bool;
  xc_original_total_score : N;
  xc_rerank_score : N;
  xc_reasons : list string;
}.

Record CrossPlanePlaneSignal := mkSignal {
  xs_plane : RecallPlane;
  xs_candidate_count : N;
  xs_selected_count : N;
  xs_top_rerank_score : N;
  xs_signal_score : N;
  xs_top_candidate_id : option string;
  xs_top_reason : option string;
}.

Record CrossPlaneRerankResult := mkRerank {
  xr_intent : PromptRecallIntent;
  xr_plane_signals : list CrossPlanePlaneSignal;
  xr_top_candidates : list CrossPlaneRerankCandidate;
}.

Record CrossPlaneRerankInput := mkRerankInput {
  xi_intent : PromptRecallIntent;
  xi_shared_factual_report : RecallSelectionReport;
  xi_continuity_capsule_report : RecallSelectionReport;
  xi_archive_report : RecallSelectionReport;
  xi_runtime_skill_report : RecallSelectionReport;
  xi_task_recall_report : option RecallSelectionReport;
}.

(** The comparison of the ranked candidates, as a key. *)
Definition rank_key (intent : PromptRecallIntent) (c : CrossPlaneRerankCandidate)
    : descending N * (descending bool * (descending N * (descending N * string))) :=
  (Reverse (xc_rerank_score c),
   (Reverse (xc_selected c),
    (Reverse (xc_original_total_score c),
     (Reverse (plane_rank intent (xc_plane c)), xc_candidate_id c)))).

Definition rank_candidates (intent : PromptRecallIntent)
    : list CrossPlaneRerankCandidate → list CrossPlaneRerankCandidate :=
  sort_by (λ a b, leb (rank_key intent a) (rank_key intent b)).

Definition ranked_candidate (intent : PromptRecallIntent) (purpose : CrossPlaneRerankPurpose)
    (report : RecallSelectionReport) (c : RecallCandidate) : CrossPlaneRerankCandidate :=
  mkRanked (rc_plane c) (rc_candidate_id c) (rc_title c) (rc_source c) (rc_selected c)
    (rs_total_score (rc_score c)) (rerank_candidate_score intent report c purpose)
    (rerank_reason_fragments intent c).

Definition ranked_of (intent : PromptRecallIntent) (purpose : CrossPlaneRerankPurpose)
    (report : RecallSelectionReport) : list CrossPlaneRerankCandidate :=
  rank_candidates intent
    (List.filter (λ c, 0 <? xc_rerank_score c)
       (ranked_candidate intent purpose report <$> rr_candidates report)).

(** The best score and half the next one. *)
Definition signal_of (ranked : list CrossPlaneRerankCandidate) : N :=
  foldl add32 0
    (imap (λ i c, if Nat.eqb i 0 then xc_rerank_score c else xc_rerank_score c / 2)
       (take PLANE_SIGNAL_TOP_K ranked)).

Definition plane_signal (report : RecallSelectionReport)
    (ranked : list CrossPlaneRerankCandidate) : CrossPlanePlaneSignal :=
  mkSignal (rr_plane report) (rr_candidate_count report) (rr_selected_count report)
    (from_option xc_rerank_score 0 (head ranked)) (signal_of ranked)
    (xc_candidate_id <$> head ranked) (head ranked ≫= λ c, head (xc_reasons c)).

Definition reports_of (i : CrossPlaneRerankInput) : list RecallSelectionReport :=
  [xi_shared_factual_report i; xi_continuity_capsule_report i; xi_archive_report i;
   xi_runtime_skill_report i] ++ option_list (xi_task_recall_report i).

(** A report without candidates and without counts says nothing. *)
Definition report_silent (report : RecallSelectionReport)
    (ranked : list CrossPlaneRerankCandidate) : bool :=
  match ranked with [] => true | _ => false end
  && (rr_candidate_count report =? 0) && (rr_selected_count report =? 0).

(** The reports that contribute, with their ranked candidates. *)
Definition contributions (i : CrossPlaneRerankInput) (purpose : CrossPlaneRerankPurpose)
    : list (RecallSelectionReport * list CrossPlaneRerankCandidate) :=
  List.filter (λ p, negb (report_silent p.1 p.2))
    ((λ r, (r, ranked_of (xi_intent i) purpose r)) <$> reports_of i).

Definition signal_key (intent : PromptRecallIntent) (s : CrossPlanePlaneSignal)
    : descending N * (descending N * descending N) :=
  (Reverse (xs_signal_score s),
   (Reverse (xs_top_rerank_score s), Reverse (plane_rank intent (xs_plane s)))).

Definition build_cross_plane_rerank_result_for (i : CrossPlaneRerankInput)
    (purpose : CrossPlaneRerankPurpose) : CrossPlaneRerankResult :=
  let intent := xi_intent i in
  let parts := contributions i purpose in
  mkRerank intent
    (sort_by (λ a b, leb (signal_key intent a) (signal_key intent b))
       ((λ p, plane_signal p.1 p.2) <$> parts))
    (take CROSS_PLANE_TOP_CANDIDATES
       (rank_candidates intent (parts ≫= λ p, take PLANE_SIGNAL_TOP_K p.2))).

Definition build_cross_plane_rerank_result (i : CrossPlaneRerankInput) : CrossPlaneRerankResult :=
  build_cross_plane_rerank_result_for i CandidateRanking.
Definition build_cross_plane_router_signal_result (i : CrossPlaneRerankInput)
    : CrossPlaneRerankResult :=
  build_cross_plane_rerank_result_for i RouterSignal.

Definition plane_signal_score (r : CrossPlaneRerankResult) (plane : RecallPlane) : N :=
  from_option xs_signal_score 0
    (List.find (λ s, bool_decide (xs_plane s = plane)) (xr_plane_signals r)).

(** ** Routing *)

Class QueryTerms := { collect_archive_match_terms : string → list string }.

Section Router.
Context {terms : QueryTerms}.

Definition structurally_weak_query (query : string) : bool :=
  let trimmed := trim query in
  if is_empty trimmed then true
  else (char_count trimmed <=? 12) && (len (collect_archive_match_terms trimmed) <=? 2).

(** [parts.join(" ")] *)
Definition join_spaces (parts : list string) : string := String.concat " " parts.

(** The fields of the active work and of the active task run that a weak query
    is expanded with. *)
Record ActiveWork := mkActiveWork {
  aw_title : string;
  aw_progress_summary : string;
  aw_next_action : string;
}.
Record ActiveTaskRun := mkActiveRun {
  ar_title : string;
  ar_goal : string;
}.

Definition build_continuity_recall_query (user_query : string) (summary_text : option string)
    (recent_messages : list SessionMessage) (active_work : option ActiveWork)
    (active_task_run : option ActiveTaskRun) : string :=
  let trimmed := trim user_query in
  if negb (structurally_weak_query trimmed) then trimmed
  else
    let recent := List.find (λ v, negb (is_empty v))
                    ((λ m, trim (sm_content m)) <$> take 2 (rev recent_messages)) in
    let expanded :=
      join_spaces
        (List.filter (λ v, negb (is_empty v))
           (omap id
              [Some trimmed;
               (λ r, trim (ar_title r)) <$> active_task_run;
               (λ r, trim (ar_goal r)) <$> active_task_run;
               (λ w, trim (aw_title w)) <$> active_work;
               (λ w, trim (aw_progress_summary w)) <$> active_work;
               (λ w, trim (aw_next_action w)) <$> active_work;
               trim <$> summary_text;
               recent])) in
    if is_empty expanded then trimmed else expanded.

Record PromptRecallRouterInput := mkRouterInput {
  pi_user_query : string;
  pi_has_active_continuity : bool;
  pi_has_active_task_run : bool;
  pi_shared_factual_report : RecallSelectionReport;
  pi_continuity_capsule_report : RecallSelectionReport;
  pi_archive_report : RecallSelectionReport;
  pi_runtime_skill_report : RecallSelectionReport;
  pi_task_recall_report : option RecallSelectionReport;
}.

Definition rerank_for (p : PromptRecallRouterInput) (intent : PromptRecallIntent)
    : CrossPlaneRerankResult :=
  build_cross_plane_router_signal_result
    (mkRerankInput intent (pi_shared_factual_report p) (pi_continuity_capsule_report p)
       (pi_archive_report p) (pi_runtime_skill_report p) (pi_task_recall_report p)).

Definition flag32 (b : bool) (weight : N) : N := if b then weight else 0.

Definition factual_support_signal (r : CrossPlaneRerankResult) : N :=
  add32 (add32 (plane_signal_score r SharedFactual) (plane_signal_score r ContinuityCapsule / 3))
    (plane_signal_score r ArchivePlane / 5).

Definition procedural_support_signal (r : CrossPlaneRerankResult) : N :=
  let runtime := plane_signal_score r RuntimeSkill in
  add32 (add32 (add32 runtime (runtime / 2)) (plane_signal_score r TaskRecall / 2))
    (plane_signal_score r ContinuityCapsule / 3).

Definition continuity_support_signal (r : CrossPlaneRerankResult)
    (has_active_continuity has_active_task_run query_is_weak : bool) : N :=
  let signal := plane_signal_score r ContinuityCapsule in
  let weighted :=
    if has_active_continuity || has_active_task_run || query_is_weak then signal
    else signal / 2 in
  add32 (add32 (add32 weighted (plane_signal_score r TaskRecall / 2))
           (plane_signal_score r ArchivePlane / 4))
    (plane_signal_score r SharedFactual / 5).

Definition evidence_support_signal (r : CrossPlaneRerankResult) : N :=
  add32 (add32 (plane_signal_score r ArchivePlane) (plane_signal_score r ContinuityCapsule / 4))
    (plane_signal_score r SharedFactual / 5).

Definition exact_lookup (p : PromptRecallRouterInput) : bool :=
  bool_decide (is_Some (rq_exact_lookup (rr_query (pi_shared_factual_report p)))).

Definition decide_prompt_recall_route (p : PromptRecallRouterInput) : PromptRecallIntent :=
  if exact_lookup p then Factual
  else
    let query_is_weak := structurally_weak_query (pi_user_query p) in
    let active_run := pi_has_active_task_run p in
    let factual_rerank := rerank_for p Factual in
    let procedural_rerank := rerank_for p Procedural in
    let continuity_rerank := rerank_for p Continuity in
    let evidence_rerank := rerank_for p EvidenceIntent in
    let evidence_archive_signal := plane_signal_score evidence_rerank ArchivePlane in
    let procedural_runtime_signal :=
      add32 (plane_signal_score procedural_rerank RuntimeSkill)
        (plane_signal_score procedural_rerank TaskRecall / 2) in
    let factual_signal :=
      add32 (factual_support_signal factual_rerank) (flag32 (exact_lookup p) 48) in
    let continuity_signal :=
      add32 (add32 (add32 (continuity_support_signal continuity_rerank
                             (pi_has_active_continuity p) active_run query_is_weak)
                      (flag32 active_run 8))
               (flag32 (pi_has_active_continuity p) 4))
        (flag32 query_is_weak 8) in
    let procedural_signal :=
      add32 (procedural_support_signal procedural_rerank) (flag32 active_run 4) in
    let evidence_signal := evidence_support_signal evidence_rerank in
    if active_run && query_is_weak && (factual_signal <=? continuity_signal)
       && (evidence_signal <=? continuity_signal) then Continuity
    else if (0 <? procedural_signal) && (continuity_signal <=? procedural_signal)
            && (evidence_signal <=? procedural_signal)
            && (add32 factual_signal 4 <=? procedural_signal) then Procedural
    else if (0 <? evidence_signal) && (continuity_signal <=? evidence_signal)
            && (procedural_signal <=? evidence_signal)
            && (plane_signal_score evidence_rerank SharedFactual <=? evidence_archive_signal)
            && (procedural_runtime_signal <=? evidence_archive_signal) then EvidenceIntent
    else if (0 <? continuity_signal) && (factual_signal <=? continuity_signal)
            && (procedural_signal <=? continuity_signal)
            && (evidence_signal <=? continuity_signal) then Continuity
    else if (0 <? factual_signal) && (continuity_signal <=? factual_signal)
            && (procedural_signal <=? factual_signal)
            && (evidence_signal <=? factual_signal) then Factual
    else if (0 <? evidence_signal) && (factual_signal =? 0) && (procedural_signal =? 0)
            && (continuity_signal =? 0) then EvidenceIntent
    else Mixed.

End Router.

Definition active_task_parts {A} (intent : PromptRecallIntent)
    (work_continuity recent_turn task_workspace task_recall capsule : option A)
    : list (option A) :=
  match intent with
  | Continuity => [work_continuity; recent_turn; capsule; task_workspace; task_recall]
  | _ => [work_continuity; recent_turn; task_workspace; task_recall; None]
  end.

Definition governed_memory_parts {A} (intent : PromptRecallIntent)
    (long_term capsule archive skill : option A) : list (option A) :=
  match intent with
  | Factual => [long_term; capsule; archive; skill]
  | Procedural => [skill; capsule; archive; long_term]
  | Continuity => [capsule; archive; long_term; skill]
  | EvidenceIntent => [archive; capsule; long_term; skill]
  | Mixed => [long_term; capsule; archive; skill]
  end.
