(* ===== verification/RecallRerankProps.v ===== *)
(** * Recall: theorems about ranking and routing

    Scores are exact sums (saturation is unreachable), the ranking is complete
    and does not depend on how candidates are listed, and the router follows
    an exact table in which the last test of the code is redundant. *)

From S2P Require Import Prelude RustStr Governed RustOrd TurnTypes RecallDelivery RecallOrder RecallDeliveryProps RecallRerank.

Local Open Scope string_scope.
Local Open Scope list_scope.
Local Open Scope N_scope.

(** ** Scores *)

Lemma add32_exact a b : a + b ≤ u32_max → add32 a b = a + b.
Proof. unfold add32. lia. Qed.

Lemma add32_le a b x y : a ≤ x → b ≤ y → add32 a b ≤ x + y.
Proof. unfold add32. lia. Qed.

Lemma add32_l a b : a ≤ u32_max → a ≤ add32 a b ≤ u32_max.
Proof. unfold add32. lia. Qed.

Lemma add32_max a b : add32 a b ≤ u32_max.
Proof. unfold add32. lia. Qed.

Lemma bonus_bounds intent plane : 1 ≤ plane_intent_bonus intent plane ≤ 32.
Proof. destruct intent, plane; cbn; lia. Qed.

Lemma procedural_bonus plane : 2 ≤ plane_intent_bonus Procedural plane.
Proof. destruct plane; cbn; lia. Qed.

Lemma mul32_min_le a k m : k * m ≤ u32_max → mul32 (N.min a k) m = N.min a k * m.
Proof. unfold mul32. intros. apply N.min_r. nia. Qed.

(** Saturating sums are plain sums, innermost first. *)
Ltac unsaturate :=
  repeat match goal with
  | |- context [add32 ?a ?b] =>
      lazymatch a with context [add32] => fail | _ => idtac end;
      rewrite (add32_exact a b) by (unfold u32_max; lia)
  end.

(** The score as a sum of integers. *)
Definition source_sum (s : RecallScoreBreakdown) : N :=
  N.min (rs_entity_anchor_score s) 32 * 2 + N.min (rs_temporal_anchor_score s) 24 * 2
  + N.min (rs_evidence_quality_score s) 24 - N.min (rs_stale_penalty s) 24.

Definition hybrid_sum (intent : PromptRecallIntent) (plane : RecallPlane)
    (s : RecallScoreBreakdown) : N :=
  match intent, plane with
  | Factual, _ | Mixed, SharedFactual | Mixed, ArchivePlane => source_sum s
  | Mixed, _ => source_sum s / 2
  | EvidenceIntent, ArchivePlane => N.min (rs_evidence_quality_score s) 24
  | _, _ => 0
  end.

Definition score_sum (intent : PromptRecallIntent) (report : RecallSelectionReport)
    (c : RecallCandidate) (purpose : CrossPlaneRerankPurpose) : N :=
  let s := rc_score c in
  plane_intent_bonus intent (rc_plane c)
  + N.min (rs_exact_match_score s) 24 * 2 + N.min (rs_lexical_score s) 24
  + N.min (rs_semantic_score s) 20
  + match purpose with CandidateRanking => hybrid_sum intent (rc_plane c) s | RouterSignal => 0 end
  + N.min (rs_scope_affinity_score s) 12 * 2 + N.min (rs_recency_score s) 8
  + N.min (rs_confidence_score s) 8 + N.min (rs_importance_score s) 8
  + N.min (rs_governance_score s) 8 * 2 + N.min (rs_source_score s) 8
  + N.min (rs_total_score s) 24 / 2
  + flag32 (rc_selected c) 4
  + flag32 (bool_decide (intent = EvidenceIntent) && bool_decide (is_Some (rc_citation c))) 4
  + flag32 (bool_decide (is_Some (rq_exact_lookup (rr_query report)))
            && bool_decide (rc_plane c = SharedFactual)) 16.

Lemma hybrid_exact intent plane s :
  w42_hybrid_source_rerank_bonus intent plane s = hybrid_sum intent plane s
  ∧ hybrid_sum intent plane s ≤ 136.
Proof.
  unfold w42_hybrid_source_rerank_bonus, hybrid_sum.
  rewrite !mul32_min_le by (unfold u32_max; lia).
  assert (Ha : add32 (N.min (rs_entity_anchor_score s) 32 * 2) (N.min (rs_temporal_anchor_score s) 24 * 2)
               = N.min (rs_entity_anchor_score s) 32 * 2 + N.min (rs_temporal_anchor_score s) 24 * 2)
    by (apply add32_exact; unfold u32_max; lia).
  rewrite Ha, add32_exact by (unfold u32_max; lia). fold (source_sum s).
  assert (source_sum s ≤ 136) by (unfold source_sum; lia).
  assert (source_sum s / 2 ≤ 136) by (apply N.Div0.div_le_upper_bound; lia).
  destruct intent, plane; cbn; split; (done || lia).
Qed.

Lemma score_exact intent report c purpose :
  rerank_candidate_score intent report c purpose = score_sum intent report c purpose
  ∧ 1 ≤ score_sum intent report c purpose ≤ 380.
Proof.
  unfold rerank_candidate_score, score_sum, flag32.
  destruct (hybrid_exact intent (rc_plane c) (rc_score c)) as [-> Hh].
  rewrite !mul32_min_le by (unfold u32_max; lia).
  pose proof (bonus_bounds intent (rc_plane c)) as Hb.
  assert (Ht : N.min (rs_total_score (rc_score c)) 24 / 2 ≤ 12)
    by (apply N.Div0.div_le_upper_bound; lia).
  set (h := match purpose with CandidateRanking => _ | RouterSignal => 0 end).
  assert (Hh' : h ≤ 136) by (unfold h; destruct purpose; lia).
  generalize dependent h. intros h Hh'.
  generalize dependent (plane_intent_bonus intent (rc_plane c)). intros b Hb.
  generalize dependent (N.min (rs_total_score (rc_score c)) 24 / 2). intros t Ht.
  pose proof (N.le_min_r (rs_exact_match_score (rc_score c)) 24).
  pose proof (N.le_min_r (rs_lexical_score (rc_score c)) 24).
  pose proof (N.le_min_r (rs_semantic_score (rc_score c)) 20).
  pose proof (N.le_min_r (rs_scope_affinity_score (rc_score c)) 12).
  pose proof (N.le_min_r (rs_recency_score (rc_score c)) 8).
  pose proof (N.le_min_r (rs_confidence_score (rc_score c)) 8).
  pose proof (N.le_min_r (rs_importance_score (rc_score c)) 8).
  pose proof (N.le_min_r (rs_governance_score (rc_score c)) 8).
  pose proof (N.le_min_r (rs_source_score (rc_score c)) 8).
  repeat match goal with |- context [N.min ?a ?k] => generalize dependent (N.min a k); intros end.
  cbn zeta. unsaturate. repeat case_match; unsaturate; split; lia.
Qed.

Lemma score_ge_bonus intent report c purpose :
  plane_intent_bonus intent (rc_plane c) ≤ score_sum intent report c purpose.
Proof. unfold score_sum. cbn zeta. repeat (etransitivity; [|apply N.le_add_r]). reflexivity. Qed.

(** ** Ranking *)

(** [y] ranks at or above [x]. *)
Definition outranks (intent : PromptRecallIntent) (y x : CrossPlaneRerankCandidate) : Prop :=
  leb (rank_key intent y) (rank_key intent x) = true.

Lemma filter_all {A} (p : A → bool) l : Forall (λ x, p x = true) l → List.filter p l = l.
Proof. induction 1 as [|x l Hx _ IH]; cbn; [done|]. by rewrite Hx, IH. Qed.

Lemma ranked_of_eq intent purpose r :
  ranked_of intent purpose r
  = rank_candidates intent (ranked_candidate intent purpose r <$> rr_candidates r).
Proof.
  unfold ranked_of. f_equal. apply filter_all, Forall_fmap, Forall_true. intros c. cbn.
  apply N.ltb_lt. destruct (score_exact intent r c purpose) as [-> ?]. lia.
Qed.

Lemma rank_perm intent l : rank_candidates intent l ≡ₚ l.
Proof. apply sort_by_perm. Qed.

Lemma rank_sorted intent l : StronglySorted (outranks intent) (rank_candidates intent l).
Proof. apply (sort_by_key_sorted (rank_key intent)). Qed.

Lemma elem_of_ranked intent purpose r x :
  x ∈ ranked_of intent purpose r ↔
  ∃ c, c ∈ rr_candidates r ∧ x = ranked_candidate intent purpose r c.
Proof. rewrite ranked_of_eq, rank_perm, list_elem_of_fmap. naive_solver. Qed.

(** What a prefix of a sorted list leaves out is outranked by all of it. *)
Lemma prefix_outranks intent n l x :
  StronglySorted (outranks intent) l → x ∈ l →
  x ∈ take n l ∨ (length (take n l) = n ∧ Forall (λ y, outranks intent y x) (take n l)).
Proof.
  intros Hs Hx. rewrite <- (take_drop n l) in Hx. apply elem_of_app in Hx as [Hx|Hx]; [by left|].
  right. split.
  - rewrite length_take. destruct (decide (n ≤ length l)%nat); [lia|].
    rewrite drop_ge in Hx by lia. by apply elem_of_nil in Hx.
  - rewrite <- (take_drop n l) in Hs. revert Hs Hx. generalize (take n l) (drop n l). intros a b Hs Hx.
    induction a as [|y a IH]; constructor; cbn in Hs; apply StronglySorted_inv in Hs as [Hs Hy].
    + rewrite Forall_forall in Hy. apply Hy, elem_of_app. by right.
    + by apply IH.
Qed.

Lemma take_sorted {A} (R : A → A → Prop) n l : StronglySorted R l → StronglySorted R (take n l).
Proof.
  revert n. induction l as [|x l IH]; intros n Hs; [by rewrite take_nil|].
  destruct n as [|n]; [constructor|]. cbn. apply StronglySorted_inv in Hs as [Hs Hx].
  constructor; [by apply IH|]. by apply Forall_take.
Qed.

Lemma elem_of_take {A} n (l : list A) x : x ∈ take n l → x ∈ l.
Proof. intros H. rewrite <- (take_drop n l). apply elem_of_app. by left. Qed.

Lemma elem_of_contributions i purpose p :
  p ∈ contributions i purpose ↔
  p.1 ∈ reports_of i ∧ p.2 = ranked_of (xi_intent i) purpose p.1 ∧ report_silent p.1 p.2 = false.
Proof.
  unfold contributions. rewrite list_elem_of_In, filter_In, <- list_elem_of_In, list_elem_of_fmap.
  rewrite negb_true_iff. destruct p as [r l]. cbn. split.
  - intros [(r' & [= -> ->] & Hr) Hs]. done.
  - intros (Hr & -> & Hs). split; [|done]. by exists r.
Qed.

Record ranking_of (i : CrossPlaneRerankInput) (purpose : CrossPlaneRerankPurpose)
    (top : list CrossPlaneRerankCandidate) : Prop := {
  rk_sorted : StronglySorted (outranks (xi_intent i)) top;
  rk_bound : (length top ≤ CROSS_PLANE_TOP_CANDIDATES)%nat;
  rk_sound x : x ∈ top →
    ∃ r c, r ∈ reports_of i ∧ c ∈ rr_candidates r ∧ x = ranked_candidate (xi_intent i) purpose r c
           ∧ xc_rerank_score x = score_sum (xi_intent i) r c purpose;
  rk_complete r c :
    r ∈ reports_of i → c ∈ rr_candidates r →
    let x := ranked_candidate (xi_intent i) purpose r c in
    let plane := take PLANE_SIGNAL_TOP_K (ranked_of (xi_intent i) purpose r) in
    x ∈ top
    ∨ (length plane = PLANE_SIGNAL_TOP_K ∧ Forall (λ y, outranks (xi_intent i) y x) plane)
    ∨ (length top = CROSS_PLANE_TOP_CANDIDATES ∧ Forall (λ y, outranks (xi_intent i) y x) top);
}.

(** the candidates ranked across the planes are sound and complete: they
    are candidates of the reports, with scores that are exact sums, in order
    and at most six; a candidate that is not among them is outranked by two of
    its own plane, or by six that are. *)
Theorem ranking_complete i purpose :
  ranking_of i purpose (xr_top_candidates (build_cross_plane_rerank_result_for i purpose)).
Proof.
  unfold build_cross_plane_rerank_result_for. cbn [xr_top_candidates].
  set (pool := contributions i purpose ≫= _).
  assert (Hpool : ∀ x, x ∈ pool ↔ ∃ r, r ∈ reports_of i ∧ x ∈ take PLANE_SIGNAL_TOP_K (ranked_of (xi_intent i) purpose r)).
  { intros x. unfold pool. rewrite list_elem_of_bind. split.
    - intros ([r l] & Hx & (Hr & E & _)%elem_of_contributions). cbn [fst snd] in *. subst l.
      by exists r.
    - intros (r & Hr & Hx). exists (r, ranked_of (xi_intent i) purpose r). split; [done|].
      apply elem_of_contributions. split_and!; [done..|]. unfold report_silent.
      cbn. destruct (ranked_of (xi_intent i) purpose r); [by apply elem_of_nil in Hx|done]. }
  split.
  - apply take_sorted, rank_sorted.
  - rewrite length_take. lia.
  - intros x Hx%elem_of_take. rewrite rank_perm, Hpool in Hx. destruct Hx as (r & Hr & Hx).
    apply elem_of_take, elem_of_ranked in Hx as (c & Hc & ->). exists r, c.
    split_and!; [done..|]. cbn. by apply score_exact.
  - intros r c Hr Hc x plane.
    assert (Hx : x ∈ ranked_of (xi_intent i) purpose r) by (apply elem_of_ranked; by exists c).
    destruct (prefix_outranks (xi_intent i) PLANE_SIGNAL_TOP_K (ranked_of (xi_intent i) purpose r) x)
      as [Hin|Hout]; [rewrite ranked_of_eq; apply rank_sorted|done| |right; by left].
    destruct (prefix_outranks (xi_intent i) CROSS_PLANE_TOP_CANDIDATES
                (rank_candidates (xi_intent i) pool) x) as [Htop|Htop]; [apply rank_sorted| |by left|right; by right].
    rewrite rank_perm, Hpool. by exists r.
Qed.

(** ** Independence of listing order *)

(** Two reports that list the same candidates. *)
Definition relisted (r r' : RecallSelectionReport) : Prop :=
  r' = mkPlaneReport (rr_plane r) (rr_query r) (rr_backend r) (rr_candidate_count r)
         (rr_selected_count r) (rr_selected_ids r) (rr_miss_reason r) (rr_selection_note r)
         (rr_candidates r')
  ∧ rr_candidates r ≡ₚ rr_candidates r' ∧ NoDup (rc_candidate_id <$> rr_candidates r).

Lemma relisted_ranked intent purpose r r' :
  relisted r r' → ranked_of intent purpose r = ranked_of intent purpose r'.
Proof.
  intros (E & Hp & Hnd). rewrite !ranked_of_eq.
  assert (Hf : ranked_candidate intent purpose r' = ranked_candidate intent purpose r) by (rewrite E; done).
  rewrite Hf. apply (sort_by_key_canonical (rank_key intent)); [|by rewrite Hp].
  rewrite <- list_fmap_compose.
  apply (NoDup_fmap_1 (λ k : descending N * (descending bool * (descending N * (descending N * string))), k.2.2.2.2)).
  by rewrite <- list_fmap_compose.
Qed.

Definition summary (p : RecallSelectionReport * list CrossPlaneRerankCandidate) :=
  (plane_signal p.1 p.2, take PLANE_SIGNAL_TOP_K p.2).

Lemma relisted_contributions intent purpose rs rs' :
  Forall2 relisted rs rs' →
  summary <$> List.filter (λ p, negb (report_silent p.1 p.2)) ((λ r, (r, ranked_of intent purpose r)) <$> rs)
  = summary <$> List.filter (λ p, negb (report_silent p.1 p.2)) ((λ r, (r, ranked_of intent purpose r)) <$> rs').
Proof.
  induction 1 as [|r r' rs rs' Hr _ IH]; [done|]. cbn.
  rewrite <- (relisted_ranked intent purpose r r' Hr). destruct Hr as (E & _).
  assert (Hs : report_silent r' (ranked_of intent purpose r) = report_silent r (ranked_of intent purpose r))
    by (rewrite E; done).
  rewrite Hs. destruct (negb _); cbn; [|done]. rewrite IH. unfold summary at 1 3. cbn. do 2 f_equal.
  rewrite E. done.
Qed.

Lemma build_from_summary i purpose :
  build_cross_plane_rerank_result_for i purpose
  = let parts := summary <$> contributions i purpose in
    mkRerank (xi_intent i)
      (sort_by (λ a b, leb (signal_key (xi_intent i) a) (signal_key (xi_intent i) b)) parts.*1)
      (take CROSS_PLANE_TOP_CANDIDATES (rank_candidates (xi_intent i) (mjoin parts.*2))).
Proof.
  unfold build_cross_plane_rerank_result_for. generalize (contributions i purpose). intros l.
  cbn zeta. rewrite <- !list_fmap_compose. f_equal. f_equal. f_equal.
  induction l as [|p l IH]; [done|]. rewrite bind_cons, IH. done.
Qed.

(** the ranking and the signals do not depend on the order in which the
    planes list their candidates, as long as a plane lists each only once. *)
Theorem ranking_canonical i j purpose :
  xi_intent i = xi_intent j → Forall2 relisted (reports_of i) (reports_of j) →
  build_cross_plane_rerank_result_for i purpose = build_cross_plane_rerank_result_for j purpose.
Proof.
  intros Hi Hr. rewrite !build_from_summary. unfold contributions. rewrite <- Hi.
  by rewrite (relisted_contributions (xi_intent i) purpose _ _ Hr).
Qed.

(** ** Routing *)

Section Route.
Context {terms : QueryTerms}.

(** Every plane has its place in the prompt, whatever the intent. *)
Lemma governed_parts_complete {A} intent (l c a s : option A) :
  governed_memory_parts intent l c a s ≡ₚ [l; c; a; s].
Proof. destruct intent; cbn; solve_Permutation. Qed.

Record labelled (p : PromptRecallRouterInput) : Prop := {
  lb_shared : rr_plane (pi_shared_factual_report p) = SharedFactual;
  lb_capsule : rr_plane (pi_continuity_capsule_report p) = ContinuityCapsule;
  lb_archive : rr_plane (pi_archive_report p) = ArchivePlane;
  lb_skill : rr_plane (pi_runtime_skill_report p) = RuntimeSkill;
  lb_task r : pi_task_recall_report p = Some r → rr_plane r = TaskRecall;
}.

Definition report_on (p : PromptRecallRouterInput) (plane : RecallPlane)
    : option RecallSelectionReport :=
  match plane with
  | SharedFactual => Some (pi_shared_factual_report p)
  | ContinuityCapsule => Some (pi_continuity_capsule_report p)
  | ArchivePlane => Some (pi_archive_report p)
  | RuntimeSkill => Some (pi_runtime_skill_report p)
  | TaskRecall => pi_task_recall_report p
  end.

Definition router_input (p : PromptRecallRouterInput) (intent : PromptRecallIntent)
    : CrossPlaneRerankInput :=
  mkRerankInput intent (pi_shared_factual_report p) (pi_continuity_capsule_report p)
    (pi_archive_report p) (pi_runtime_skill_report p) (pi_task_recall_report p).

Lemma elem_of_option_list' {A} (o : option A) x : x ∈ option_list o ↔ o = Some x.
Proof. destruct o; cbn; [rewrite list_elem_of_singleton|rewrite elem_of_nil]; naive_solver. Qed.

Lemma elem_of_reports p intent r :
  labelled p → r ∈ reports_of (router_input p intent) ↔ report_on p (rr_plane r) = Some r.
Proof.
  intros [H1 H2 H3 H4 H5]. unfold reports_of. rewrite elem_of_app, elem_of_option_list'. cbn.
  rewrite !elem_of_cons, elem_of_nil. split.
  - intros [[->|[->|[->|[->|[]]]]]|E]; [rewrite ?H1, ?H2, ?H3, ?H4; done..|].
    rewrite (H5 r E). done.
  - destruct (rr_plane r); cbn; naive_solver.
Qed.

Definition plane_strength (p : PromptRecallRouterInput) (intent : PromptRecallIntent)
    (plane : RecallPlane) : N :=
  match report_on p plane with
  | Some r => signal_of (ranked_of intent RouterSignal r)
  | None => 0
  end.

Lemma plane_signal_exact p intent plane :
  labelled p → plane_signal_score (rerank_for p intent) plane = plane_strength p intent plane.
Proof.
  intros Hl. unfold plane_signal_score, rerank_for, build_cross_plane_router_signal_result,
    build_cross_plane_rerank_result_for. cbn [xr_plane_signals].
  fold (router_input p intent). cbn [xi_intent router_input]. set (l := sort_by _ _).
  assert (Hin : ∀ s, s ∈ l ↔ ∃ r, report_on p (rr_plane r) = Some r
                    ∧ s = plane_signal r (ranked_of intent RouterSignal r)
                    ∧ report_silent r (ranked_of intent RouterSignal r) = false).
  { intros s. unfold l. rewrite sort_by_perm, list_elem_of_fmap. split.
    - intros ([r k] & -> & (Hr & E & Hs)%elem_of_contributions). cbn [fst snd] in *. subst k.
      exists r. by apply (elem_of_reports _ _ _ Hl) in Hr.
    - intros (r & Hr & -> & Hs). exists (r, ranked_of intent RouterSignal r). split; [done|].
      apply elem_of_contributions. by rewrite (elem_of_reports _ _ _ Hl). }
  unfold plane_strength. destruct (List.find _ l) as [s|] eqn:Ef.
  - apply List.find_some in Ef as [Hs Ep]. apply list_elem_of_In, Hin in Hs as (r & Hr & -> & _).
    apply bool_decide_eq_true in Ep as <-. cbn [xs_plane plane_signal]. by rewrite Hr.
  - cbn. destruct (report_on p plane) as [r|] eqn:Er; [|done].
    assert (Ep : rr_plane r = plane).
    { destruct Hl as [H1 H2 H3 H4 H5], plane; cbn in Er; try (injection Er as <-; done). by apply H5. }
    destruct (report_silent r (ranked_of intent RouterSignal r)) eqn:Es.
    + unfold report_silent in Es. split_bool. by destruct (ranked_of intent RouterSignal r).
    + exfalso. assert (Hs : plane_signal r (ranked_of intent RouterSignal r) ∈ l).
      { apply Hin. exists r. by rewrite Ep. }
      apply list_elem_of_In in Hs. eapply List.find_none in Ef; [|exact Hs]. cbn in Ef.
      by apply bool_decide_eq_false in Ef.
Qed.

(** A plane is silent exactly when it has no candidate, for every intent. *)
Lemma signal_of_bounds intent r :
  match rr_candidates r with
  | [] => signal_of (ranked_of intent RouterSignal r) = 0
  | _ => 1 ≤ signal_of (ranked_of intent RouterSignal r)
         ∧ (intent = Procedural → 2 ≤ signal_of (ranked_of intent RouterSignal r))
  end.
Proof.
  pose proof (λ x, elem_of_ranked intent RouterSignal r x) as Hin.
  pose proof (ranked_of_eq intent RouterSignal r) as E.
  assert (Hlen : length (ranked_of intent RouterSignal r) = length (rr_candidates r))
    by (rewrite E, rank_perm; apply length_fmap).
  destruct (ranked_of intent RouterSignal r) as [|x l].
  - by destruct (rr_candidates r).
  - destruct (proj1 (Hin x) (list_elem_of_here _ _)) as (c & Hc & ->).
    destruct (rr_candidates r) as [|c' k]; [done|].
    assert (Hx : xc_rerank_score (ranked_candidate intent RouterSignal r c)
                 ≤ signal_of (ranked_candidate intent RouterSignal r c :: l)).
    { unfold signal_of. cbn -[add32 ranked_candidate].
      destruct (score_exact intent r c RouterSignal) as [Hs Hb].
      change (xc_rerank_score (ranked_candidate intent RouterSignal r c))
        with (rerank_candidate_score intent r c RouterSignal). rewrite Hs.
      rewrite (add32_exact 0) by (unfold u32_max; lia). rewrite N.add_0_l.
      destruct l as [|y l]; cbn -[add32]; [done|]. apply add32_l. unfold u32_max; lia. }
    cbn [xc_rerank_score ranked_candidate] in Hx.
    destruct (score_exact intent r c RouterSignal) as [Hs Hb]. rewrite Hs in Hx. split; [lia|].
    intros ->. pose proof (procedural_bonus (rc_plane c)).
    pose proof (score_ge_bonus Procedural r c RouterSignal). lia.
Qed.

Lemma no_candidates p intent intent' plane :
  plane_strength p intent plane = 0 ∨ (intent = Procedural ∧ plane_strength p intent plane < 2) →
  plane_strength p intent' plane = 0.
Proof.
  unfold plane_strength. destruct (report_on p plane) as [r|]; [|done].
  pose proof (signal_of_bounds intent r) as H1. pose proof (signal_of_bounds intent' r) as H2.
  destruct (rr_candidates r); [done|]. destruct H1 as [H1 H1']. intros [H|[E H]]; [lia|].
  specialize (H1' E). lia.
Qed.
Lemma strength_bound p intent plane : plane_strength p intent plane ≤ 570.
Proof.
  unfold plane_strength. destruct (report_on p plane) as [r|]; [|lia].
  pose proof (λ x, elem_of_ranked intent RouterSignal r x) as Hin.
  assert (Hb : ∀ x, x ∈ ranked_of intent RouterSignal r → xc_rerank_score x ≤ 380).
  { intros x (c & _ & ->)%Hin. cbn. destruct (score_exact intent r c RouterSignal). lia. }
  unfold signal_of. destruct (ranked_of intent RouterSignal r) as [|x [|y l]]; cbn -[add32 N.div]; [lia|..].
  - specialize (Hb x ltac:(by left)). unfold add32. lia.
  - pose proof (Hb x ltac:(by left)) as Hx. pose proof (Hb y ltac:(right; by left)) as Hy.
    assert (xc_rerank_score y / 2 ≤ 190) by (apply N.Div0.div_le_upper_bound; lia).
    rewrite take_0. cbn -[add32 N.div]. unfold add32. lia.
Qed.

(** ** The signals of the intents *)

Definition factual_signal (p : PromptRecallRouterInput) : N :=
  plane_strength p Factual SharedFactual + plane_strength p Factual ContinuityCapsule / 3
  + plane_strength p Factual ArchivePlane / 5.

Definition skill_signal (p : PromptRecallRouterInput) : N :=
  plane_strength p Procedural RuntimeSkill + plane_strength p Procedural TaskRecall / 2.

Definition procedural_signal (p : PromptRecallRouterInput) : N :=
  plane_strength p Procedural RuntimeSkill + plane_strength p Procedural RuntimeSkill / 2
  + plane_strength p Procedural TaskRecall / 2 + plane_strength p Procedural ContinuityCapsule / 3
  + flag32 (pi_has_active_task_run p) 4.

Definition weak (p : PromptRecallRouterInput) : bool := structurally_weak_query (pi_user_query p).

Definition continuity_signal (p : PromptRecallRouterInput) : N :=
  (if pi_has_active_continuity p || pi_has_active_task_run p || weak p
   then plane_strength p Continuity ContinuityCapsule
   else plane_strength p Continuity ContinuityCapsule / 2)
  + plane_strength p Continuity TaskRecall / 2 + plane_strength p Continuity ArchivePlane / 4
  + plane_strength p Continuity SharedFactual / 5
  + flag32 (pi_has_active_task_run p) 8 + flag32 (pi_has_active_continuity p) 4
  + flag32 (weak p) 8.

Definition evidence_signal (p : PromptRecallRouterInput) : N :=
  plane_strength p EvidenceIntent ArchivePlane
  + plane_strength p EvidenceIntent ContinuityCapsule / 4
  + plane_strength p EvidenceIntent SharedFactual / 5.

(** The archive carries the evidence. *)
Definition archive_carries (p : PromptRecallRouterInput) : Prop :=
  plane_strength p EvidenceIntent SharedFactual ≤ plane_strength p EvidenceIntent ArchivePlane
  ∧ skill_signal p ≤ plane_strength p EvidenceIntent ArchivePlane.

Lemma div_570 a k : a ≤ 570 → a / k ≤ 570.
Proof.
  intros H. destruct (N.eq_dec k 0) as [->|Hk]; [by rewrite N.div_0_r; lia|].
  apply N.Div0.div_le_upper_bound. nia.
Qed.

(** The tests of the code, on the exact signals. *)
Lemma route_tests p :
  labelled p → exact_lookup p = false →
  decide_prompt_recall_route p
  = let c := continuity_signal p in
    let f := factual_signal p in
    let pr := procedural_signal p in
    let e := evidence_signal p in
    let archive := plane_strength p EvidenceIntent ArchivePlane in
    if pi_has_active_task_run p && weak p && (f <=? c) && (e <=? c) then Continuity
    else if (0 <? pr) && (c <=? pr) && (e <=? pr) && (f + 4 <=? pr) then Procedural
    else if (0 <? e) && (c <=? e) && (pr <=? e)
            && (plane_strength p EvidenceIntent SharedFactual <=? archive)
            && (skill_signal p <=? archive) then EvidenceIntent
    else if (0 <? c) && (f <=? c) && (pr <=? c) && (e <=? c) then Continuity
    else if (0 <? f) && (c <=? f) && (pr <=? f) && (e <=? f) then Factual
    else if (0 <? e) && (f =? 0) && (pr =? 0) && (c =? 0) then EvidenceIntent
    else Mixed.
Proof.
  intros Hl Hx. unfold decide_prompt_recall_route. rewrite Hx. cbn [flag32].
  unfold factual_support_signal, procedural_support_signal, continuity_support_signal,
    evidence_support_signal. rewrite !(plane_signal_exact p _ _ Hl).
  pose proof (λ i pl, strength_bound p i pl) as Hb.
  pose proof (λ i pl k, div_570 _ k (Hb i pl)) as Hd.
  assert (Hf : ∀ b, flag32 b 8 ≤ 8) by (intros []; cbn; lia).
  assert (Hf4 : ∀ b, flag32 b 4 ≤ 4) by (intros []; cbn; lia).
  unfold continuity_signal, factual_signal, procedural_signal, evidence_signal, skill_signal, weak.
  set (w := if _ || _ || _ then plane_strength p Continuity ContinuityCapsule else _).
  assert (Hw : w ≤ 570) by (unfold w; destruct (_ || _ || _); auto).
  clearbody w.
  repeat match goal with
  | |- context [plane_strength p ?i ?pl / ?k] =>
      generalize (Hd i pl k); generalize (plane_strength p i pl / k); intros ? ?
  end.
  repeat match goal with
  | |- context [plane_strength p ?i ?pl] =>
      generalize (Hb i pl); generalize (plane_strength p i pl); intros ? ?
  end.
  pose proof (Hf (pi_has_active_task_run p)). pose proof (Hf (structurally_weak_query (pi_user_query p))).
  pose proof (Hf4 (pi_has_active_task_run p)). pose proof (Hf4 (pi_has_active_continuity p)).
  cbn zeta. unsaturate. rewrite !N.add_0_r. done.
Qed.

(** the router follows this table on signals that are exact sums: an exact
    lookup is factual; otherwise the intent it answers dominates as stated,
    and it answers a mixed intent only when nothing was recalled, when skills
    lead the facts by less than four, or when evidence leads but the archive
    does not carry it.  The last test of the code never changes the answer. *)
Theorem route_exact p :
  labelled p →
  let c := continuity_signal p in
  let f := factual_signal p in
  let pr := procedural_signal p in
  let e := evidence_signal p in
  if exact_lookup p then decide_prompt_recall_route p = Factual
  else match decide_prompt_recall_route p with
       | Continuity => f ≤ c ∧ e ≤ c ∧ (pr ≤ c ∨ pi_has_active_task_run p && weak p = true)
       | Procedural => c ≤ pr ∧ e ≤ pr ∧ f + 4 ≤ pr
       | EvidenceIntent => 0 < e ∧ c ≤ e ∧ pr ≤ e ∧ archive_carries p
       | Factual => 0 < f ∧ c ≤ f ∧ pr ≤ f ∧ e ≤ f
       | Mixed => (c = 0 ∧ f = 0 ∧ pr = 0 ∧ e = 0)
                  ∨ (c < pr ∧ e ≤ pr ∧ f < pr < f + 4)
                  ∨ (c < e ∧ pr < e ∧ f < e ∧ ¬ archive_carries p)
       end.
Proof.
  intros Hl c f pr e. destruct (exact_lookup p) eqn:Hx.
  { unfold decide_prompt_recall_route. by rewrite Hx. }
  rewrite route_tests by done. fold c f pr e. cbn zeta.
  assert (Hdead : f = 0 → pr = 0 → archive_carries p).
  { intros Hf Hp. unfold f, factual_signal in Hf. unfold pr, procedural_signal in Hp.
    rewrite !N.eq_add_0 in Hf. rewrite !N.eq_add_0 in Hp.
    destruct Hf as ((Hf & _) & _), Hp as ((((Hp & _) & Ht) & _) & _).
    assert (Hs : plane_strength p EvidenceIntent SharedFactual = 0)
      by (apply (no_candidates p Factual); by left).
    unfold archive_carries, skill_signal. rewrite Hs, Hp, Ht. lia. }
  clearbody c f pr e. unfold archive_carries in *.
  generalize dependent (plane_strength p EvidenceIntent SharedFactual). intros shared.
  generalize (skill_signal p) (plane_strength p EvidenceIntent ArchivePlane).
  intros skill archive Hdead.
  set (carries := (shared <=? archive) && (skill <=? archive)).
  assert (Hc : carries = true ∧ shared ≤ archive ∧ skill ≤ archive
               ∨ carries = false ∧ ¬ (shared ≤ archive ∧ skill ≤ archive)).
  { unfold carries. destruct (N.leb_spec shared archive), (N.leb_spec skill archive); cbn; lia. }
  rewrite <- (andb_assoc _ (shared <=? archive)). fold carries. clearbody carries.
  destruct Hc as [[-> Hc]|[-> Hc]], (pi_has_active_task_run p && weak p); cbn [andb];
    rewrite ?andb_true_r, ?andb_false_r;
    repeat (match goal with
            | |- context [N.leb ?a ?b] => destruct (N.leb_spec a b)
            | |- context [N.ltb ?a ?b] => destruct (N.ltb_spec a b)
            | |- context [N.eqb ?a ?b] => destruct (N.eqb_spec a b)
            end; cbn [andb]; rewrite ?andb_true_r, ?andb_false_r; try lia).
Qed.

End Route.

(** * Recall: sample candidates

    Concrete candidates, reports and prompts, with the theorems about delivery,
    ranking and routing applied to them. *)

Module RecallSamples.

(** ** Delivery *)

Definition binding (group family : string) : GovernedEvidenceBinding :=
  mkBinding ("ref:" +:+ group) group (Some family).

Definition candidate (id : string) (bindings : list GovernedEvidenceBinding) (rank score : N)
    : RecallDeliveryCandidate :=
  mkDelivery id bindings true true true true true (Some rank) None rank score 0.

Definition private_candidate : RecallDeliveryCandidate :=
  mkDelivery "p" [binding "g9" "f9"] true true true false true (Some 0) None 0 99 0.

(** Two families of equal utility, a repeated group, and a private candidate. *)
Definition offered : list RecallDeliveryCandidate :=
  [candidate "a1" [binding "g1" "fa"] 1 5; candidate "a2" [binding "g2" "fa"] 1 5;
   candidate "b1" [binding "g3" "fb"] 1 5; candidate "c1" [binding "g1" "fa"] 3 1;
   private_candidate; candidate "d1" [binding "g4" "fd"] 4 0].

Definition rotated : RecallDeliverySelectionReport :=
  allocate_recall_delivery_candidates offered 3 EvidenceFamilyRotationWithinEqualUtility.

Example rotation_selects :
  ds_selected_candidate_ids rotated = ["a1"; "b1"; "a2"]
  ∧ (dd_drop_reason <$> ds_decisions rotated)
    = [None; None; None; Some ProfileBudgetExhausted; Some PrivacyScopeBlocked;
       Some ProfileBudgetExhausted]
  ∧ ds_covered_evidence_groups rotated = ["g1"; "g2"; "g3"].
Proof. vm_compute. done. Qed.

Example rank_selects :
  ds_selected_candidate_ids (allocate_recall_delivery_candidates offered 3 RelevanceRank)
  = ["a1"; "a2"; "b1"].
Proof. vm_compute. done. Qed.

Definition wide : RecallDeliverySelectionReport :=
  allocate_recall_delivery_candidates offered 9 RelevanceRank.

Lemma delivery_respects_relevance_witness :
  dd_drop_reason <$> (ds_decisions wide !! 3%nat) = Some (Some DuplicateEvidenceGroup)
  ∧ ∃ d, ds_decisions wide !! 3%nat = Some d
         ∧ outranked offered 9 wide (candidate "c1" [binding "g1" "fa"] 3 1) d.
Proof.
  split; [vm_compute; reflexivity|]. eexists. split; [vm_compute; reflexivity|].
  apply (delivery_respects_relevance offered 9 RelevanceRank 3 (candidate "c1" [binding "g1" "fa"] 3 1)).
  - reflexivity.
  - vm_compute. reflexivity.
  - reflexivity.
  - reflexivity.
Defined.

(** ** Ranking *)

Definition score (total exact : N) : RecallScoreBreakdown :=
  mkScore 0 0 exact 0 0 0 0 0 0 0 0 0 0 total [].

Definition found (plane : RecallPlane) (id : string) (total : N) : RecallCandidate :=
  mkCandidate plane None id id "" None "sample" None true (score total 0).

Definition query (plane : RecallPlane) : RecallQuery :=
  mkQuery plane "" "" None None None [] None None 4 400 [].

Definition plane_report (plane : RecallPlane) (l : list RecallCandidate) : RecallSelectionReport :=
  mkPlaneReport plane (query plane) "sample" (len l) (len l) [] None None l.

Definition facts (l : list RecallCandidate) : CrossPlaneRerankInput :=
  mkRerankInput Factual (plane_report SharedFactual l) (plane_report ContinuityCapsule [])
    (plane_report ArchivePlane [found ArchivePlane "r1" 20]) (plane_report RuntimeSkill []) None.

Definition f1 := found SharedFactual "f1" 9.
Definition f2 := found SharedFactual "f2" 9.
Definition f3 := found SharedFactual "f3" 12.

Lemma ranking_canonical_witness :
  (xc_candidate_id <$> xr_top_candidates (build_cross_plane_rerank_result_for (facts [f1; f2; f3]) CandidateRanking))
  = ["f3"; "f1"; "r1"]
  ∧ build_cross_plane_rerank_result_for (facts [f1; f2; f3]) CandidateRanking
    = build_cross_plane_rerank_result_for (facts [f3; f2; f1]) CandidateRanking.
Proof.
  split; [vm_compute; reflexivity|].
  apply (ranking_canonical (facts [f1; f2; f3]) (facts [f3; f2; f1]) CandidateRanking); [reflexivity|].
  repeat apply Forall2_cons_2; try apply Forall2_nil_2;
    (split; [reflexivity|split; [cbn; solve_Permutation|apply (bool_decide_unpack _); vm_compute; exact I]]).
Defined.

(** ** Routing *)

#[local] Instance whole_query : QueryTerms := {| collect_archive_match_terms := λ q, [q] |}.

Definition prompt : PromptRecallRouterInput :=
  mkRouterInput "publish the release with the procedure" false false
    (plane_report SharedFactual [f1]) (plane_report ContinuityCapsule [])
    (plane_report ArchivePlane []) (plane_report RuntimeSkill [found RuntimeSkill "s1" 20]) None.

Lemma route_exact_witness :
  decide_prompt_recall_route prompt = Procedural
  ∧ continuity_signal prompt ≤ procedural_signal prompt
  ∧ factual_signal prompt + 4 ≤ procedural_signal prompt.
Proof.
  split; [vm_compute; reflexivity|].
  assert (H : labelled prompt) by (split; [reflexivity..|discriminate]).
  pose proof (route_exact prompt H) as Hr. cbn zeta in Hr.
  assert (E1 : exact_lookup prompt = false) by (vm_compute; reflexivity).
  assert (E2 : decide_prompt_recall_route prompt = Procedural) by (vm_compute; reflexivity).
  rewrite E1, E2 in Hr. destruct Hr as (Hc & _ & Hf). split; [exact Hc|exact Hf].
Defined.

End RecallSamples.
