(* ===== verification/GovernanceTypes.v ===== *)
(** * Post-turn governance: jobs, indexes and their contracts

    Model of [crates/core/src/memory/post_turn_governance.rs]: the durable job
    that governs one committed turn, the index of the jobs of a runtime scope,
    the immutable binding snapshots a job executes under, receipts, and the
    validators of all of them.  Encoders and digests of other crates are the
    class [GovernanceCodec]. *)

From S2P Require Import Prelude RustStr RustOrd Governed StoreTypes ReadSession LongTermVersion TurnTypes.

Local Open Scope string_scope.
Local Open Scope list_scope.
Local Open Scope N_scope.

(** ** Semantic governance reports *)

Inductive MemoryWriteAuthority :=
| RuntimeDeterministic | LlmPrivateGardenFreeform | LlmGovernedSemantic | SoulGovernedCore.

Inductive MemoryWriteDomain := DomainProgram | DomainSubject | DomainProcedural.

Inductive GovernedWriteDecision :=
| WriteAccepted | WriteRejected | WriteMerged | WriteSuperseded | WriteDeferred | WriteNotApplicable.

Record MemoryPlaneGovernanceReport := mkPlaneReport {
  pr_domain : MemoryWriteDomain;
  pr_plane : string;
  pr_authority : MemoryWriteAuthority;
  pr_decision : GovernedWriteDecision;
  pr_reason : string;
  pr_evidence_refs : list string;
  pr_privacy_decision : string;
  pr_profile_decision : string;
}.

Inductive SoulCandidateDisposition :=
| SoulHandedOff | SoulRejectedAsMemoryOnly | SoulDeferred | SoulNotApplicable.

Record SoulCandidateHandoffReport := mkHandoff {
  sh_surface : string;
  sh_disposition : SoulCandidateDisposition;
  sh_existing_gate : string;
  sh_reason : string;
  sh_evidence_refs : list string;
}.

Record PostTurnSemanticGovernanceReport := mkSemanticReport {
  sr_attempted : bool;
  sr_executed : bool;
  sr_skipped_reason : option string;
  sr_proposal_count : N;
  sr_accepted_count : N;
  sr_accepted_candidate_ids : list string;
  sr_rejected_count : N;
  sr_deferred_count : N;
  sr_plane_reports : list MemoryPlaneGovernanceReport;
  sr_soul_candidate_handoffs : list SoulCandidateHandoffReport;
}.

Definition semantic_skipped (reason : string) : PostTurnSemanticGovernanceReport :=
  mkSemanticReport false false (Some reason) 0 0 [] 0 0 [] [].

Definition semantic_deferred (reason plane : string) : PostTurnSemanticGovernanceReport :=
  mkSemanticReport true false (Some reason) 1 0 [] 0 1
    [mkPlaneReport DomainProgram plane RuntimeDeterministic WriteDeferred reason []
       "deferred_without_semantic_mutation" "runtime_admission_or_service_unavailable"] [].

(** ** Constants *)

Definition POST_TURN_GOVERNANCE_JOB_SCHEMA_VERSION : N := 4.
Definition POST_TURN_GOVERNANCE_SCOPE_INDEX_SCHEMA_VERSION : N := 4.
Definition POST_TURN_GOVERNANCE_JOB_NAMESPACE : string := "post_turn_governance_jobs".
Definition POST_TURN_GOVERNANCE_SCOPE_INDEX_NAMESPACE : string :=
  "post_turn_governance_scope_indexes".
Definition MAX_POST_TURN_GOVERNANCE_ACTIVE_JOBS : N := 256.
Definition MAX_POST_TURN_GOVERNANCE_RECENT_TERMINAL_JOBS : N := 256.
Definition MAX_POST_TURN_GOVERNANCE_RECONCILIATION_CURSORS : N := 256.
Definition MAX_POST_TURN_GOVERNANCE_ERROR_CHARS : N := 512.
Definition POST_TURN_GOVERNANCE_BINDING_SNAPSHOT_NAMESPACE : string :=
  "post_turn_governance_binding_snapshots".
Definition POST_TURN_GOVERNANCE_BINDING_SNAPSHOT_SCHEMA_VERSION : N := 1.
Definition POST_TURN_GOVERNANCE_BINDING_REVISION_INDEX_NAMESPACE : string :=
  "post_turn_governance_binding_revision_indexes".
Definition POST_TURN_GOVERNANCE_BINDING_REVISION_INDEX_SCHEMA_VERSION : N := 1.
Definition MAX_POST_TURN_GOVERNANCE_BINDING_REVISIONS : N := 256.
Definition MAX_METHOD_LEARNING_PROPOSALS : N := 4.

(** ** Data *)

Record PostTurnGovernanceIdentityV2 := mkGovIdentity {
  gi_memory_space_id : string;
  gi_mounted_subject_id : string;
  gi_channel_id : string;
  gi_chat_id : string;
  gi_conversation_id : string;
  gi_turn_id : string;
}.

Inductive PostTurnGovernanceJobStatusV2 :=
| Pending | Leased | RetryWaiting | BlockedConfiguration | BlockedCapability | BlockedPolicy
| Succeeded | JobCancelled | DeadLetter.

Inductive PostTurnGovernanceErrorClassV2 :=
| ServiceUnavailable | JobTimeout | RateLimited | MalformedModelOutput | IdentityMismatch
| TranscriptDigestMismatch | SchemaViolation.

Inductive PostTurnGovernanceExecutionBindingV1 :=
| Unbound
| Bound (binding_id : string) (binding_revision : N).

Inductive PostTurnGovernanceProviderProtocolV1 := OpenAiCompatible | OllamaNative.

Record PostTurnGovernanceBindingSnapshotV1 := mkBindingSnapshot {
  bs_schema_version : N;
  bs_binding_id : string;
  bs_binding_revision : N;
  bs_source_owner_id : string;
  bs_source_config_id : string;
  bs_source_revision : N;
  bs_protocol : PostTurnGovernanceProviderProtocolV1;
  bs_endpoint : string;
  bs_model_id : string;
  bs_credential_reference : option string;
  bs_request_timeout_ms : N;
  bs_max_input_tokens : N;
  bs_max_output_tokens : N;
  bs_provider_permission_generation : N;
  bs_canonical_digest : string;
  bs_created_at : N;
}.

Record PostTurnGovernanceBindingRevisionRefV1 := mkRevisionEntry {
  br_binding_revision : N;
  br_canonical_digest : string;
  br_created_at : N;
  br_referenced : bool;
}.

Record PostTurnGovernanceBindingRevisionIndexV1 := mkRevisionIndex {
  bx_schema_version : N;
  bx_binding_id : string;
  bx_source_owner_id : string;
  bx_source_config_id : string;
  bx_revisions : list PostTurnGovernanceBindingRevisionRefV1;
  bx_index_revision : N;
  bx_updated_at : N;
}.

Inductive PostTurnGovernanceExecutionBlockReasonV1 :=
| BindingUnavailable | CredentialMissing | CredentialLocked | CredentialRejected
| ProviderPermissionDenied.

Record PostTurnGovernanceExecutionBlockAuthorityV1 := mkBlockAuthority {
  ba_binding_id : option string;
  ba_binding_revision : option N;
  ba_credential_ref_safe_id : option string;
  ba_typed_block_reason : PostTurnGovernanceExecutionBlockReasonV1;
  ba_credential_generation : option N;
  ba_provider_permission_generation : option N;
  ba_blocked_at : N;
}.

Record PostTurnGovernancePrivacyAuthorityV1 := mkPrivacyAuthority {
  pa_policy_schema_version : N;
  pa_exact_policy_digest : string;
}.

Record PostTurnGovernanceAttemptAuthorityV3 := mkAttemptAuthority {
  at_binding_id : string;
  at_binding_revision : N;
  at_model_id : string;
  at_privacy_authority : PostTurnGovernancePrivacyAuthorityV1;
  at_transcript_lifecycle_revision : N;
  at_disclosure_authority_digest : string;
}.

Inductive PostTurnGovernanceDecisionDispositionV1 :=
| DecisionAccepted | DecisionRejected | DecisionDeferred | DecisionMixed | DecisionNoCandidates.

Record PostTurnGovernanceDecisionSummaryV1 := mkDecisionSummary {
  ds_accepted_count : N;
  ds_rejected_count : N;
  ds_deferred_count : N;
  ds_disposition : PostTurnGovernanceDecisionDispositionV1;
  ds_plane_count : N;
  ds_plane_digest : string;
}.

(** [RuntimeSkillOwnerBinding] of [skills/governed_runtime_contract.rs] and
    [ProceduralAppliedOwnerBindingV1] of [post_turn_learning.rs]. *)
Record RuntimeSkillOwnerBinding := mkSkillBinding {
  sb_owner_ref : GovernedMemoryOwnerRef;
  sb_owner_revision : N;
  sb_owner_physical_key : string;
  sb_privacy_class : MemoryPrivacyClass;
  sb_content_digest : string;
}.

Inductive ProceduralAppliedOwnerBindingV1 :=
| AppliedAgentToolExperience (owner_revision : GovernedOwnerRevisionRef) (content_digest : string)
| AppliedRuntimeSkill (binding : RuntimeSkillOwnerBinding).

Inductive PostTurnGovernanceMethodApplicationV1 :=
| MethodNone
| MethodApplied (validity_epoch : N) (source_commitment_digest : string)
    (owner_bindings : list ProceduralAppliedOwnerBindingV1).

Record PostTurnGovernanceReceiptV4 := mkReceipt {
  rc_receipt_id : string;
  rc_semantic_transaction_id : string;
  rc_mutation_plan_digest : string;
  rc_memory_post_image_digest : string;
  rc_completed_at : N;
  rc_decision_summary : PostTurnGovernanceDecisionSummaryV1;
  rc_method_application : PostTurnGovernanceMethodApplicationV1;
}.

Record PostTurnGovernanceJobV4 := mkJob {
  jb_schema_version : N;
  jb_job_id : string;
  jb_idempotency_key : string;
  jb_scope_index_key : string;
  jb_identity : PostTurnGovernanceIdentityV2;
  jb_transcript_sequence : N;
  jb_transcript_digest : string;
  jb_runtime_binding_digest : string;
  jb_governance_contract_version : N;
  jb_execution_binding : PostTurnGovernanceExecutionBindingV1;
  jb_privacy_authority : PostTurnGovernancePrivacyAuthorityV1;
  jb_candidate_ids : list string;
  jb_tool_call_count : N;
  jb_status : PostTurnGovernanceJobStatusV2;
  jb_state_revision : N;
  jb_attempt_count : N;
  jb_max_attempts : N;
  jb_next_attempt_at : option N;
  jb_lease_owner : option string;
  jb_lease_until : option N;
  jb_lease_epoch : N;
  jb_attempt_authority : option PostTurnGovernanceAttemptAuthorityV3;
  jb_execution_block_authority : option PostTurnGovernanceExecutionBlockAuthorityV1;
  jb_last_provider_permission_recovery_generation : option N;
  jb_blocking_reason : option string;
  jb_last_error_class : option PostTurnGovernanceErrorClassV2;
  jb_receipt : option PostTurnGovernanceReceiptV4;
  jb_created_at : N;
  jb_updated_at : N;
  jb_terminal_at : option N;
}.

Record PostTurnGovernanceJobRefV2 := mkJobRef {
  rf_job_schema_version : N;
  rf_job_id : string;
  rf_job_key : string;
  rf_state_revision : N;
  rf_status : PostTurnGovernanceJobStatusV2;
  rf_next_attempt_at : option N;
  rf_lease_until : option N;
  rf_created_at : N;
  rf_updated_at : N;
}.

Record PostTurnGovernanceReconciliationCursorV1 := mkCursor {
  cu_conversation_id : string;
  cu_sequence : N;
  cu_turn_id : string;
}.

Record PostTurnGovernanceScopeIndexV4 := mkIndex {
  ix_schema_version : N;
  ix_scope_index_key : string;
  ix_memory_space_id : string;
  ix_mounted_subject_id : string;
  ix_channel_id : string;
  ix_chat_id : string;
  ix_index_revision : N;
  ix_active_jobs : list PostTurnGovernanceJobRefV2;
  ix_recent_terminal_jobs : list PostTurnGovernanceJobRefV2;
  ix_reconciliation_cursors : list PostTurnGovernanceReconciliationCursorV1;
  ix_updated_at : N;
}.

#[global] Instance gov_identity_eq_dec : EqDecision PostTurnGovernanceIdentityV2.
Proof. solve_decision. Defined.
#[global] Instance job_status_eq_dec : EqDecision PostTurnGovernanceJobStatusV2.
Proof. solve_decision. Defined.
#[global] Instance job_error_class_eq_dec : EqDecision PostTurnGovernanceErrorClassV2.
Proof. solve_decision. Defined.
#[global] Instance execution_binding_eq_dec : EqDecision PostTurnGovernanceExecutionBindingV1.
Proof. solve_decision. Defined.
#[global] Instance block_reason_eq_dec : EqDecision PostTurnGovernanceExecutionBlockReasonV1.
Proof. solve_decision. Defined.
#[global] Instance privacy_authority_eq_dec : EqDecision PostTurnGovernancePrivacyAuthorityV1.
Proof. solve_decision. Defined.
#[global] Instance attempt_authority_eq_dec : EqDecision PostTurnGovernanceAttemptAuthorityV3.
Proof. solve_decision. Defined.
#[global] Instance disposition_eq_dec : EqDecision PostTurnGovernanceDecisionDispositionV1.
Proof. solve_decision. Defined.
#[global] Instance decision_summary_eq_dec : EqDecision PostTurnGovernanceDecisionSummaryV1.
Proof. solve_decision. Defined.
#[global] Instance skill_binding_eq_dec : EqDecision RuntimeSkillOwnerBinding.
Proof. solve_decision. Defined.
#[global] Instance applied_binding_eq_dec : EqDecision ProceduralAppliedOwnerBindingV1.
Proof. solve_decision. Defined.
#[global] Instance method_application_eq_dec : EqDecision PostTurnGovernanceMethodApplicationV1.
Proof. solve_decision. Defined.
#[global] Instance job_ref_eq_dec : EqDecision PostTurnGovernanceJobRefV2.
Proof. solve_decision. Defined.
#[global] Instance cursor_eq_dec : EqDecision PostTurnGovernanceReconciliationCursorV1.
Proof. solve_decision. Defined.
#[global] Instance scope_index_eq_dec : EqDecision PostTurnGovernanceScopeIndexV4.
Proof. solve_decision. Defined.

(** Assignments to the fields of a job. *)
Definition set_execution_binding (x : PostTurnGovernanceExecutionBindingV1) (j : PostTurnGovernanceJobV4)
    : PostTurnGovernanceJobV4 :=
  mkJob (jb_schema_version j) (jb_job_id j) (jb_idempotency_key j) (jb_scope_index_key j)
    (jb_identity j) (jb_transcript_sequence j) (jb_transcript_digest j)
    (jb_runtime_binding_digest j) (jb_governance_contract_version j) x
    (jb_privacy_authority j) (jb_candidate_ids j) (jb_tool_call_count j) (jb_status j)
    (jb_state_revision j) (jb_attempt_count j) (jb_max_attempts j) (jb_next_attempt_at j)
    (jb_lease_owner j) (jb_lease_until j) (jb_lease_epoch j) (jb_attempt_authority j)
    (jb_execution_block_authority j) (jb_last_provider_permission_recovery_generation j)
    (jb_blocking_reason j) (jb_last_error_class j) (jb_receipt j) (jb_created_at j)
    (jb_updated_at j) (jb_terminal_at j).
Definition set_status (x : PostTurnGovernanceJobStatusV2) (j : PostTurnGovernanceJobV4)
    : PostTurnGovernanceJobV4 :=
  mkJob (jb_schema_version j) (jb_job_id j) (jb_idempotency_key j) (jb_scope_index_key j)
    (jb_identity j) (jb_transcript_sequence j) (jb_transcript_digest j)
    (jb_runtime_binding_digest j) (jb_governance_contract_version j) (jb_execution_binding j)
    (jb_privacy_authority j) (jb_candidate_ids j) (jb_tool_call_count j) x
    (jb_state_revision j) (jb_attempt_count j) (jb_max_attempts j) (jb_next_attempt_at j)
    (jb_lease_owner j) (jb_lease_until j) (jb_lease_epoch j) (jb_attempt_authority j)
    (jb_execution_block_authority j) (jb_last_provider_permission_recovery_generation j)
    (jb_blocking_reason j) (jb_last_error_class j) (jb_receipt j) (jb_created_at j)
    (jb_updated_at j) (jb_terminal_at j).
Definition set_state_revision (x : N) (j : PostTurnGovernanceJobV4)
    : PostTurnGovernanceJobV4 :=
  mkJob (jb_schema_version j) (jb_job_id j) (jb_idempotency_key j) (jb_scope_index_key j)
    (jb_identity j) (jb_transcript_sequence j) (jb_transcript_digest j)
    (jb_runtime_binding_digest j) (jb_governance_contract_version j) (jb_execution_binding j)
    (jb_privacy_authority j) (jb_candidate_ids j) (jb_tool_call_count j) (jb_status j) x
    (jb_attempt_count j) (jb_max_attempts j) (jb_next_attempt_at j) (jb_lease_owner j)
    (jb_lease_until j) (jb_lease_epoch j) (jb_attempt_authority j)
    (jb_execution_block_authority j) (jb_last_provider_permission_recovery_generation j)
    (jb_blocking_reason j) (jb_last_error_class j) (jb_receipt j) (jb_created_at j)
    (jb_updated_at j) (jb_terminal_at j).
Definition set_attempt_count (x : N) (j : PostTurnGovernanceJobV4)
    : PostTurnGovernanceJobV4 :=
  mkJob (jb_schema_version j) (jb_job_id j) (jb_idempotency_key j) (jb_scope_index_key j)
    (jb_identity j) (jb_transcript_sequence j) (jb_transcript_digest j)
    (jb_runtime_binding_digest j) (jb_governance_contract_version j) (jb_execution_binding j)
    (jb_privacy_authority j) (jb_candidate_ids j) (jb_tool_call_count j) (jb_status j)
    (jb_state_revision j) x (jb_max_attempts j) (jb_next_attempt_at j) (jb_lease_owner j)
    (jb_lease_until j) (jb_lease_epoch j) (jb_attempt_authority j)
    (jb_execution_block_authority j) (jb_last_provider_permission_recovery_generation j)
    (jb_blocking_reason j) (jb_last_error_class j) (jb_receipt j) (jb_created_at j)
    (jb_updated_at j) (jb_terminal_at j).
Definition set_next_attempt_at (x : option N) (j : PostTurnGovernanceJobV4)
    : PostTurnGovernanceJobV4 :=
  mkJob (jb_schema_version j) (jb_job_id j) (jb_idempotency_key j) (jb_scope_index_key j)
    (jb_identity j) (jb_transcript_sequence j) (jb_transcript_digest j)
    (jb_runtime_binding_digest j) (jb_governance_contract_version j) (jb_execution_binding j)
    (jb_privacy_authority j) (jb_candidate_ids j) (jb_tool_call_count j) (jb_status j)
    (jb_state_revision j) (jb_attempt_count j) (jb_max_attempts j) x (jb_lease_owner j)
    (jb_lease_until j) (jb_lease_epoch j) (jb_attempt_authority j)
    (jb_execution_block_authority j) (jb_last_provider_permission_recovery_generation j)
    (jb_blocking_reason j) (jb_last_error_class j) (jb_receipt j) (jb_created_at j)
    (jb_updated_at j) (jb_terminal_at j).
Definition set_lease_owner (x : option string) (j : PostTurnGovernanceJobV4)
    : PostTurnGovernanceJobV4 :=
  mkJob (jb_schema_version j) (jb_job_id j) (jb_idempotency_key j) (jb_scope_index_key j)
    (jb_identity j) (jb_transcript_sequence j) (jb_transcript_digest j)
    (jb_runtime_binding_digest j) (jb_governance_contract_version j) (jb_execution_binding j)
    (jb_privacy_authority j) (jb_candidate_ids j) (jb_tool_call_count j) (jb_status j)
    (jb_state_revision j) (jb_attempt_count j) (jb_max_attempts j) (jb_next_attempt_at j) x
    (jb_lease_until j) (jb_lease_epoch j) (jb_attempt_authority j)
    (jb_execution_block_authority j) (jb_last_provider_permission_recovery_generation j)
    (jb_blocking_reason j) (jb_last_error_class j) (jb_receipt j) (jb_created_at j)
    (jb_updated_at j) (jb_terminal_at j).
Definition set_lease_until (x : option N) (j : PostTurnGovernanceJobV4)
    : PostTurnGovernanceJobV4 :=
  mkJob (jb_schema_version j) (jb_job_id j) (jb_idempotency_key j) (jb_scope_index_key j)
    (jb_identity j) (jb_transcript_sequence j) (jb_transcript_digest j)
    (jb_runtime_binding_digest j) (jb_governance_contract_version j) (jb_execution_binding j)
    (jb_privacy_authority j) (jb_candidate_ids j) (jb_tool_call_count j) (jb_status j)
    (jb_state_revision j) (jb_attempt_count j) (jb_max_attempts j) (jb_next_attempt_at j)
    (jb_lease_owner j) x (jb_lease_epoch j) (jb_attempt_authority j)
    (jb_execution_block_authority j) (jb_last_provider_permission_recovery_generation j)
    (jb_blocking_reason j) (jb_last_error_class j) (jb_receipt j) (jb_created_at j)
    (jb_updated_at j) (jb_terminal_at j).
Definition set_lease_epoch (x : N) (j : PostTurnGovernanceJobV4)
    : PostTurnGovernanceJobV4 :=
  mkJob (jb_schema_version j) (jb_job_id j) (jb_idempotency_key j) (jb_scope_index_key j)
    (jb_identity j) (jb_transcript_sequence j) (jb_transcript_digest j)
    (jb_runtime_binding_digest j) (jb_governance_contract_version j) (jb_execution_binding j)
    (jb_privacy_authority j) (jb_candidate_ids j) (jb_tool_call_count j) (jb_status j)
    (jb_state_revision j) (jb_attempt_count j) (jb_max_attempts j) (jb_next_attempt_at j)
    (jb_lease_owner j) (jb_lease_until j) x (jb_attempt_authority j)
    (jb_execution_block_authority j) (jb_last_provider_permission_recovery_generation j)
    (jb_blocking_reason j) (jb_last_error_class j) (jb_receipt j) (jb_created_at j)
    (jb_updated_at j) (jb_terminal_at j).
Definition set_attempt_authority (x : option PostTurnGovernanceAttemptAuthorityV3) (j : PostTurnGovernanceJobV4)
    : PostTurnGovernanceJobV4 :=
  mkJob (jb_schema_version j) (jb_job_id j) (jb_idempotency_key j) (jb_scope_index_key j)
    (jb_identity j) (jb_transcript_sequence j) (jb_transcript_digest j)
    (jb_runtime_binding_digest j) (jb_governance_contract_version j) (jb_execution_binding j)
    (jb_privacy_authority j) (jb_candidate_ids j) (jb_tool_call_count j) (jb_status j)
    (jb_state_revision j) (jb_attempt_count j) (jb_max_attempts j) (jb_next_attempt_at j)
    (jb_lease_owner j) (jb_lease_until j) (jb_lease_epoch j) x
    (jb_execution_block_authority j) (jb_last_provider_permission_recovery_generation j)
    (jb_blocking_reason j) (jb_last_error_class j) (jb_receipt j) (jb_created_at j)
    (jb_updated_at j) (jb_terminal_at j).
Definition set_execution_block_authority (x : option PostTurnGovernanceExecutionBlockAuthorityV1) (j : PostTurnGovernanceJobV4)
    : PostTurnGovernanceJobV4 :=
  mkJob (jb_schema_version j) (jb_job_id j) (jb_idempotency_key j) (jb_scope_index_key j)
    (jb_identity j) (jb_transcript_sequence j) (jb_transcript_digest j)
    (jb_runtime_binding_digest j) (jb_governance_contract_version j) (jb_execution_binding j)
    (jb_privacy_authority j) (jb_candidate_ids j) (jb_tool_call_count j) (jb_status j)
    (jb_state_revision j) (jb_attempt_count j) (jb_max_attempts j) (jb_next_attempt_at j)
    (jb_lease_owner j) (jb_lease_until j) (jb_lease_epoch j) (jb_attempt_authority j) x
    (jb_last_provider_permission_recovery_generation j) (jb_blocking_reason j)
    (jb_last_error_class j) (jb_receipt j) (jb_created_at j) (jb_updated_at j)
    (jb_terminal_at j).
Definition set_last_provider_permission_recovery_generation (x : option N) (j : PostTurnGovernanceJobV4)
    : PostTurnGovernanceJobV4 :=
  mkJob (jb_schema_version j) (jb_job_id j) (jb_idempotency_key j) (jb_scope_index_key j)
    (jb_identity j) (jb_transcript_sequence j) (jb_transcript_digest j)
    (jb_runtime_binding_digest j) (jb_governance_contract_version j) (jb_execution_binding j)
    (jb_privacy_authority j) (jb_candidate_ids j) (jb_tool_call_count j) (jb_status j)
    (jb_state_revision j) (jb_attempt_count j) (jb_max_attempts j) (jb_next_attempt_at j)
    (jb_lease_owner j) (jb_lease_until j) (jb_lease_epoch j) (jb_attempt_authority j)
    (jb_execution_block_authority j) x (jb_blocking_reason j) (jb_last_error_class j)
    (jb_receipt j) (jb_created_at j) (jb_updated_at j) (jb_terminal_at j).
Definition set_blocking_reason (x : option string) (j : PostTurnGovernanceJobV4)
    : PostTurnGovernanceJobV4 :=
  mkJob (jb_schema_version j) (jb_job_id j) (jb_idempotency_key j) (jb_scope_index_key j)
    (jb_identity j) (jb_transcript_sequence j) (jb_transcript_digest j)
    (jb_runtime_binding_digest j) (jb_governance_contract_version j) (jb_execution_binding j)
    (jb_privacy_authority j) (jb_candidate_ids j) (jb_tool_call_count j) (jb_status j)
    (jb_state_revision j) (jb_attempt_count j) (jb_max_attempts j) (jb_next_attempt_at j)
    (jb_lease_owner j) (jb_lease_until j) (jb_lease_epoch j) (jb_attempt_authority j)
    (jb_execution_block_authority j) (jb_last_provider_permission_recovery_generation j) x
    (jb_last_error_class j) (jb_receipt j) (jb_created_at j) (jb_updated_at j)
    (jb_terminal_at j).
Definition set_last_error_class (x : option PostTurnGovernanceErrorClassV2) (j : PostTurnGovernanceJobV4)
    : PostTurnGovernanceJobV4 :=
  mkJob (jb_schema_version j) (jb_job_id j) (jb_idempotency_key j) (jb_scope_index_key j)
    (jb_identity j) (jb_transcript_sequence j) (jb_transcript_digest j)
    (jb_runtime_binding_digest j) (jb_governance_contract_version j) (jb_execution_binding j)
    (jb_privacy_authority j) (jb_candidate_ids j) (jb_tool_call_count j) (jb_status j)
    (jb_state_revision j) (jb_attempt_count j) (jb_max_attempts j) (jb_next_attempt_at j)
    (jb_lease_owner j) (jb_lease_until j) (jb_lease_epoch j) (jb_attempt_authority j)
    (jb_execution_block_authority j) (jb_last_provider_permission_recovery_generation j)
    (jb_blocking_reason j) x (jb_receipt j) (jb_created_at j) (jb_updated_at j)
    (jb_terminal_at j).
Definition set_receipt (x : option PostTurnGovernanceReceiptV4) (j : PostTurnGovernanceJobV4)
    : PostTurnGovernanceJobV4 :=
  mkJob (jb_schema_version j) (jb_job_id j) (jb_idempotency_key j) (jb_scope_index_key j)
    (jb_identity j) (jb_transcript_sequence j) (jb_transcript_digest j)
    (jb_runtime_binding_digest j) (jb_governance_contract_version j) (jb_execution_binding j)
    (jb_privacy_authority j) (jb_candidate_ids j) (jb_tool_call_count j) (jb_status j)
    (jb_state_revision j) (jb_attempt_count j) (jb_max_attempts j) (jb_next_attempt_at j)
    (jb_lease_owner j) (jb_lease_until j) (jb_lease_epoch j) (jb_attempt_authority j)
    (jb_execution_block_authority j) (jb_last_provider_permission_recovery_generation j)
    (jb_blocking_reason j) (jb_last_error_class j) x (jb_created_at j) (jb_updated_at j)
    (jb_terminal_at j).
Definition set_updated_at (x : N) (j : PostTurnGovernanceJobV4)
    : PostTurnGovernanceJobV4 :=
  mkJob (jb_schema_version j) (jb_job_id j) (jb_idempotency_key j) (jb_scope_index_key j)
    (jb_identity j) (jb_transcript_sequence j) (jb_transcript_digest j)
    (jb_runtime_binding_digest j) (jb_governance_contract_version j) (jb_execution_binding j)
    (jb_privacy_authority j) (jb_candidate_ids j) (jb_tool_call_count j) (jb_status j)
    (jb_state_revision j) (jb_attempt_count j) (jb_max_attempts j) (jb_next_attempt_at j)
    (jb_lease_owner j) (jb_lease_until j) (jb_lease_epoch j) (jb_attempt_authority j)
    (jb_execution_block_authority j) (jb_last_provider_permission_recovery_generation j)
    (jb_blocking_reason j) (jb_last_error_class j) (jb_receipt j) (jb_created_at j) x
    (jb_terminal_at j).
Definition set_terminal_at (x : option N) (j : PostTurnGovernanceJobV4)
    : PostTurnGovernanceJobV4 :=
  mkJob (jb_schema_version j) (jb_job_id j) (jb_idempotency_key j) (jb_scope_index_key j)
    (jb_identity j) (jb_transcript_sequence j) (jb_transcript_digest j)
    (jb_runtime_binding_digest j) (jb_governance_contract_version j) (jb_execution_binding j)
    (jb_privacy_authority j) (jb_candidate_ids j) (jb_tool_call_count j) (jb_status j)
    (jb_state_revision j) (jb_attempt_count j) (jb_max_attempts j) (jb_next_attempt_at j)
    (jb_lease_owner j) (jb_lease_until j) (jb_lease_epoch j) (jb_attempt_authority j)
    (jb_execution_block_authority j) (jb_last_provider_permission_recovery_generation j)
    (jb_blocking_reason j) (jb_last_error_class j) (jb_receipt j) (jb_created_at j)
    (jb_updated_at j) x.

(** ** Texts and digests *)

(** [format!("{:x}", Sha256::digest(b))] and the encodings of [serde_json]. *)
Class GovernanceCodec `{codec : StoreCodec} := {
  gov_sha256_hex : bytes → string;
  plane_reports_to_vec : list MemoryPlaneGovernanceReport → string + bytes;
  method_application_to_vec : PostTurnGovernanceMethodApplicationV1 → string + bytes;
  owner_binding_to_vec : ProceduralAppliedOwnerBindingV1 → string + bytes;
  job_to_value : PostTurnGovernanceJobV4 → string + Value;
  job_from_value : Value → string + PostTurnGovernanceJobV4;
  index_to_value : PostTurnGovernanceScopeIndexV4 → string + Value;
  index_from_value : Value → string + PostTurnGovernanceScopeIndexV4;
  snapshot_to_value : PostTurnGovernanceBindingSnapshotV1 → string + Value;
  snapshot_from_value : Value → string + PostTurnGovernanceBindingSnapshotV1;
  revision_index_to_value : PostTurnGovernanceBindingRevisionIndexV1 → string + Value;
  revision_index_from_value : Value → string + PostTurnGovernanceBindingRevisionIndexV1;
}.

Definition is_ascii_hexdigit (c : Ascii.ascii) : bool :=
  let b := byte_of c in
  ((48 <=? b) && (b <=? 57)) || ((65 <=? b) && (b <=? 70)) || ((97 <=? b) && (b <=? 102)).

(** The slice [value[7..]] is within bounds and starts at a character, since
    the prefix is ASCII. *)
Definition is_sha256_digest (value : string) : bool :=
  (str_len value =? 71) && starts_with value "sha256:"
  && forallb is_ascii_hexdigit (drop 7 (String.list_ascii_of_string value)).

Definition is_canonical_governance_text (value : string) : bool :=
  negb (is_empty value) && String.eqb (trim value) value && (char_count value <=? 2048)
  && negb (has_control value).

(** [value.trim().is_empty() || value.trim() != value] *)
Definition not_exact (value : string) : bool := blank value || negb (String.eqb (trim value) value).

(** ** Statuses and classes *)

Definition job_error_is_retryable (e : PostTurnGovernanceErrorClassV2) : bool :=
  match e with
  | ServiceUnavailable | JobTimeout | RateLimited | MalformedModelOutput => true
  | _ => false
  end.

Definition job_error_as_str (e : PostTurnGovernanceErrorClassV2) : string :=
  match e with
  | ServiceUnavailable => "service_unavailable"
  | JobTimeout => "timeout"
  | RateLimited => "rate_limited"
  | MalformedModelOutput => "malformed_model_output"
  | IdentityMismatch => "identity_mismatch"
  | TranscriptDigestMismatch => "transcript_digest_mismatch"
  | SchemaViolation => "schema_violation"
  end.

Definition status_is_active (s : PostTurnGovernanceJobStatusV2) : bool :=
  match s with
  | Pending | Leased | RetryWaiting | BlockedConfiguration | BlockedCapability | BlockedPolicy =>
      true
  | _ => false
  end.

Definition status_is_terminal (s : PostTurnGovernanceJobStatusV2) : bool :=
  negb (status_is_active s).

Definition block_reason_as_str (r : PostTurnGovernanceExecutionBlockReasonV1) : string :=
  match r with
  | BindingUnavailable => "governance_execution_binding_unavailable"
  | CredentialMissing => "governance_credential_missing"
  | CredentialLocked => "governance_credential_locked"
  | CredentialRejected => "governance_credential_rejected"
  | ProviderPermissionDenied => "governance_provider_permission_denied"
  end.

Definition blocked_status (r : PostTurnGovernanceExecutionBlockReasonV1)
    : PostTurnGovernanceJobStatusV2 :=
  match r with
  | BindingUnavailable | CredentialMissing | CredentialLocked | CredentialRejected =>
      BlockedConfiguration
  | ProviderPermissionDenied => BlockedPolicy
  end.

Definition is_credential_scoped (r : PostTurnGovernanceExecutionBlockReasonV1) : bool :=
  match r with CredentialMissing | CredentialLocked | CredentialRejected => true | _ => false end.

Definition binding_revision_of (b : PostTurnGovernanceExecutionBindingV1) : option N :=
  match b with Unbound => None | Bound _ r => Some r end.

Section Governance.
Context `{gcodec : GovernanceCodec}.

(** [push_receipt_field] *)
Definition push_receipt_field (payload field : bytes) : bytes :=
  payload ++ be_bytes (len field) ++ field.

(** The first 28 bytes of the digest of the length-prefixed fields. *)
Definition governance_digest (fields : list bytes) : string :=
  String.substring 0 56 (gov_sha256_hex (foldl push_receipt_field [] fields)).

(** [format!("sha256:{:x}", Sha256::digest(payload))] *)
Definition governance_sha256 (b : bytes) : string := "sha256:" +:+ gov_sha256_hex b.

(** [u32::to_be_bytes] *)
Definition be_bytes32 (n : N) : bytes :=
  (λ i, byte_of_N (N.shiftr n (8 * i))) <$> [3; 2; 1; 0].

(** ** Identities *)

Fixpoint exact_fields (l : list (string * string)) : result unit :=
  match l with
  | [] => Ok tt
  | (name, value) :: l' =>
      _ ← ensure (negb (is_empty value || negb (String.eqb (trim value) value)))
            (InvalidInput "post_turn_governance_identity"
               (name +:+ " must be exact and non-empty"));
      exact_fields l'
  end.

Definition identity_validate (i : PostTurnGovernanceIdentityV2) : result unit :=
  exact_fields
    [("memory_space_id", gi_memory_space_id i); ("mounted_subject_id", gi_mounted_subject_id i);
     ("channel_id", gi_channel_id i); ("chat_id", gi_chat_id i);
     ("conversation_id", gi_conversation_id i); ("turn_id", gi_turn_id i)].

Definition identity_new (memory_space_id mounted_subject_id channel_id chat_id conversation_id
    turn_id : string) : result PostTurnGovernanceIdentityV2 :=
  let identity := mkGovIdentity memory_space_id mounted_subject_id channel_id chat_id
                    conversation_id turn_id in
  _ ← identity_validate identity;
  Ok identity.

Definition identity_job_id (i : PostTurnGovernanceIdentityV2) : string :=
  "ptgj2:" +:+ governance_digest
    (str_bytes <$> ["post_turn_governance_job_v2"; gi_memory_space_id i; gi_mounted_subject_id i;
                    gi_channel_id i; gi_chat_id i; gi_conversation_id i; gi_turn_id i]).

Definition identity_scope_id (i : PostTurnGovernanceIdentityV2) : string :=
  "ptgsi2:" +:+ governance_digest
    (str_bytes <$> ["post_turn_governance_runtime_scope_index_v2"; gi_memory_space_id i;
                    gi_mounted_subject_id i; gi_channel_id i; gi_chat_id i]).

(** ** Bindings *)

Definition binding_source_error : Error :=
  InvalidInput "post_turn_governance_binding_snapshot" "binding source identity must be canonical".

Definition governance_binding_id (source_owner_id source_config_id : string) : result string :=
  _ ← ensure (is_canonical_governance_text source_owner_id
              && is_canonical_governance_text source_config_id) binding_source_error;
  Ok ("govbind1:" +:+ gov_sha256_hex
        (push_receipt_field
           (push_receipt_field (str_bytes "bm-governance-binding-owner-v1" ++ [x00])
              (str_bytes source_owner_id))
           (str_bytes source_config_id))).

Definition compute_canonical_digest (s : PostTurnGovernanceBindingSnapshotV1) : result string :=
  _ ← ensure (is_canonical_governance_text (bs_source_owner_id s)
              && is_canonical_governance_text (bs_source_config_id s)) binding_source_error;
  let payload := foldl push_receipt_field (str_bytes "bm-governance-binding-snapshot-v1" ++ [x00])
                   (str_bytes <$> [bs_source_owner_id s; bs_source_config_id s; bs_endpoint s;
                                   bs_model_id s; default "" (bs_credential_reference s)]) in
  Ok (governance_sha256
        (payload ++ be_bytes (bs_source_revision s)
         ++ [match bs_protocol s with OpenAiCompatible => x01 | OllamaNative => x02 end]
         ++ be_bytes (bs_request_timeout_ms s) ++ be_bytes (bs_max_input_tokens s)
         ++ be_bytes (bs_max_output_tokens s) ++ be_bytes (bs_provider_permission_generation s))).

(** The disjunction is evaluated from the left, and its two calls can fail. *)
Definition snapshot_validate (s : PostTurnGovernanceBindingSnapshotV1) : result unit :=
  let invalid := InvalidInput "post_turn_governance_binding_snapshot"
                   "binding snapshot identity, source, budgets, or digest is invalid" in
  _ ← ensure (bs_schema_version s =? POST_TURN_GOVERNANCE_BINDING_SNAPSHOT_SCHEMA_VERSION) invalid;
  id ← governance_binding_id (bs_source_owner_id s) (bs_source_config_id s);
  _ ← ensure (negb (negb (String.eqb (bs_binding_id s) id)
              || (bs_binding_revision s =? 0)
              || negb (bs_binding_revision s =? bs_source_revision s)
              || negb (is_canonical_governance_text (bs_endpoint s))
              || negb (is_canonical_governance_text (bs_model_id s))
              || match bs_credential_reference s with
                 | Some value => negb (is_canonical_governance_text value)
                 | None => false
                 end
              || (bs_request_timeout_ms s =? 0) || (bs_max_input_tokens s =? 0)
              || (bs_max_output_tokens s =? 0) || (bs_provider_permission_generation s =? 0)
              || (bs_created_at s =? 0))) invalid;
  digest ← compute_canonical_digest s;
  ensure (String.eqb (bs_canonical_digest s) digest) invalid.

Definition snapshot_storage_key (s : PostTurnGovernanceBindingSnapshotV1) : string :=
  bs_binding_id s +:+ ":" +:+ pretty (bs_binding_revision s).

Definition snapshot_new (source_owner_id source_config_id : string) (source_revision : N)
    (protocol : PostTurnGovernanceProviderProtocolV1) (endpoint model_id : string)
    (credential_reference : option string) (request_timeout_ms max_input_tokens max_output_tokens
    provider_permission_generation created_at : N)
    : result PostTurnGovernanceBindingSnapshotV1 :=
  binding_id ← governance_binding_id source_owner_id source_config_id;
  let with_digest := mkBindingSnapshot POST_TURN_GOVERNANCE_BINDING_SNAPSHOT_SCHEMA_VERSION
    binding_id source_revision source_owner_id source_config_id source_revision protocol endpoint
    model_id credential_reference request_timeout_ms max_input_tokens max_output_tokens
    provider_permission_generation in
  digest ← compute_canonical_digest (with_digest "" created_at);
  let snapshot := with_digest digest created_at in
  _ ← snapshot_validate snapshot;
  Ok snapshot.

Definition revision_ref_from_snapshot (s : PostTurnGovernanceBindingSnapshotV1)
    : PostTurnGovernanceBindingRevisionRefV1 :=
  mkRevisionEntry (bs_binding_revision s) (bs_canonical_digest s) (bs_created_at s) false.

Definition revision_ref_validate (r : PostTurnGovernanceBindingRevisionRefV1) : result unit :=
  ensure (negb ((br_binding_revision r =? 0) || negb (is_sha256_digest (br_canonical_digest r))
                || (br_created_at r =? 0)))
    (InvalidInput "post_turn_governance_binding_revision_ref"
       "binding revision reference is invalid").

Definition revision_index_empty (s : PostTurnGovernanceBindingSnapshotV1)
    : PostTurnGovernanceBindingRevisionIndexV1 :=
  mkRevisionIndex POST_TURN_GOVERNANCE_BINDING_REVISION_INDEX_SCHEMA_VERSION (bs_binding_id s)
    (bs_source_owner_id s) (bs_source_config_id s) [] 1 (bs_created_at s).

Definition revision_index_validate (x : PostTurnGovernanceBindingRevisionIndexV1) : result unit :=
  let invalid := InvalidInput "post_turn_governance_binding_revision_index"
                   "binding revision index identity, capacity, or revision is invalid" in
  _ ← ensure (bx_schema_version x =? POST_TURN_GOVERNANCE_BINDING_REVISION_INDEX_SCHEMA_VERSION)
        invalid;
  id ← governance_binding_id (bx_source_owner_id x) (bx_source_config_id x);
  _ ← ensure (negb (negb (String.eqb (bx_binding_id x) id)
              || match bx_revisions x with [] => true | _ => false end
              || (MAX_POST_TURN_GOVERNANCE_BINDING_REVISIONS <? len (bx_revisions x))
              || (bx_index_revision x =? 0) || (bx_updated_at x =? 0))) invalid;
  _ ← try_fold (λ previous r,
        _ ← revision_ref_validate r;
        _ ← ensure (previous <? br_binding_revision r)
              (InvalidInput "post_turn_governance_binding_revision_index"
                 "binding revisions must be unique and ascending");
        Ok (br_binding_revision r)) 0 (bx_revisions x);
  Ok tt.

Definition execution_binding_validate (b : PostTurnGovernanceExecutionBindingV1) : result unit :=
  ensure match b with
         | Unbound => true
         | Bound id revision => negb (blank id) && String.eqb (trim id) id && (0 <? revision)
         end
    (InvalidInput "post_turn_governance_execution_binding"
       "execution binding identity or revision is invalid").

(** ** Block authorities *)

Definition some_zero (o : option N) : bool := match o with Some n => n =? 0 | None => false end.
Definition is_some {A} (o : option A) : bool := match o with Some _ => true | None => false end.

Definition block_authority_validate (a : PostTurnGovernanceExecutionBlockAuthorityV1)
    : result unit :=
  let invalid := InvalidInput "post_turn_governance_execution_block_authority" in
  _ ← ensure (negb ((ba_blocked_at a =? 0)
              || match ba_binding_id a with Some v => not_exact v | None => false end
              || some_zero (ba_binding_revision a)
              || match ba_credential_ref_safe_id a with
                 | Some v => negb (is_sha256_digest v)
                 | None => false
                 end
              || some_zero (ba_credential_generation a)
              || some_zero (ba_provider_permission_generation a)
              || negb (Bool.eqb (is_some (ba_binding_id a)) (is_some (ba_binding_revision a)))))
        (invalid "execution block authority is incomplete or invalid");
  match ba_typed_block_reason a with
  | BindingUnavailable =>
      ensure (negb (is_some (ba_credential_ref_safe_id a) || is_some (ba_credential_generation a)
                    || is_some (ba_provider_permission_generation a)))
        (invalid "unbound authority must not invent binding or generation state")
  | CredentialMissing | CredentialLocked | CredentialRejected =>
      ensure (negb (negb (is_some (ba_binding_id a))
                    || negb (is_some (ba_credential_ref_safe_id a))
                    || is_some (ba_provider_permission_generation a)
                    || (bool_decide (ba_typed_block_reason a = CredentialRejected)
                        && negb (is_some (ba_credential_generation a)))))
        (invalid "credential block requires exact binding and safe credential authority")
  | ProviderPermissionDenied =>
      ensure (negb (negb (is_some (ba_binding_id a)) || is_some (ba_credential_generation a)
                    || negb (is_some (ba_provider_permission_generation a))))
        (invalid "permission block requires exact binding and permission generation")
  end.

Definition binding_unavailable (blocked_at : N) : PostTurnGovernanceExecutionBlockAuthorityV1 :=
  mkBlockAuthority None None None BindingUnavailable None None blocked_at.

Definition exact_binding_block (execution_binding : PostTurnGovernanceExecutionBindingV1)
    (credential_ref_safe_id : option string) (reason : PostTurnGovernanceExecutionBlockReasonV1)
    (credential_generation provider_permission_generation : option N) (blocked_at : N)
    : result PostTurnGovernanceExecutionBlockAuthorityV1 :=
  let '(binding_id, binding_revision) :=
    match execution_binding with
    | Unbound => (None, None)
    | Bound id revision => (Some id, Some revision)
    end in
  let authority := mkBlockAuthority binding_id binding_revision credential_ref_safe_id reason
                     credential_generation provider_permission_generation blocked_at in
  _ ← block_authority_validate authority;
  Ok authority.

(** ** Authorities of an attempt *)

Definition privacy_authority_validate (p : PostTurnGovernancePrivacyAuthorityV1) : result unit :=
  ensure (negb ((pa_policy_schema_version p =? 0)
                || negb (is_sha256_digest (pa_exact_policy_digest p))))
    (InvalidInput "post_turn_governance_privacy_authority"
       "privacy authority schema or digest is invalid").

Definition attempt_authority_validate (a : PostTurnGovernanceAttemptAuthorityV3) : result unit :=
  _ ← ensure (negb (blank (at_binding_id a) || blank (at_model_id a)
                    || (at_binding_revision a =? 0) || (at_transcript_lifecycle_revision a =? 0)
                    || negb (is_sha256_digest (at_disclosure_authority_digest a))))
        (InvalidInput "post_turn_governance_attempt_authority"
           "attempt authority is incomplete or invalid");
  privacy_authority_validate (at_privacy_authority a).

(** ** Decisions and receipts *)

Definition decision_error (message : string) : Error :=
  InvalidInput "post_turn_governance_decision_summary" message.

Definition decision_counts (d : PostTurnGovernanceDecisionSummaryV1) : list bool :=
  [0 <? ds_accepted_count d; 0 <? ds_rejected_count d; 0 <? ds_deferred_count d].

(** How many of the flags are set. *)
Definition count_true (l : list bool) : N := len (filter Is_true l).

Definition decision_summary_validate (d : PostTurnGovernanceDecisionSummaryV1) : result unit :=
  let total := ds_accepted_count d + ds_rejected_count d + ds_deferred_count d in
  _ ← ensure ((ds_accepted_count d + ds_rejected_count d <=? u32_max) && (total <=? u32_max))
        (decision_error "decision counts overflow");
  let disposition_matches :=
    match ds_disposition d with
    | DecisionAccepted =>
        (0 <? ds_accepted_count d) && (ds_rejected_count d =? 0) && (ds_deferred_count d =? 0)
    | DecisionRejected =>
        (0 <? ds_rejected_count d) && (ds_accepted_count d =? 0) && (ds_deferred_count d =? 0)
    | DecisionDeferred =>
        (0 <? ds_deferred_count d) && (ds_accepted_count d =? 0) && (ds_rejected_count d =? 0)
    | DecisionMixed => (0 <? total) && (1 <? count_true (decision_counts d))
    | DecisionNoCandidates => total =? 0
    end in
  ensure (disposition_matches && is_sha256_digest (ds_plane_digest d))
    (decision_error "decision disposition, counts, or plane digest is invalid").

(** [u32::try_from(n)] *)
Definition u32_try_from (n : N) (e : Error) : result N :=
  if n <=? u32_max then Ok n else Err e.

Definition decision_from_semantic_report (r : PostTurnSemanticGovernanceReport)
    : result PostTurnGovernanceDecisionSummaryV1 :=
  accepted ← u32_try_from (sr_accepted_count r)
    (decision_error "accepted decision count exceeds the durable contract");
  rejected ← u32_try_from (sr_rejected_count r)
    (decision_error "rejected decision count exceeds the durable contract");
  deferred ← u32_try_from (sr_deferred_count r)
    (decision_error "deferred decision count exceeds the durable contract");
  planes ← u32_try_from (len (sr_plane_reports r))
    (decision_error "plane decision count exceeds the durable contract");
  let present := count_true [0 <? accepted; 0 <? rejected; 0 <? deferred] in
  let disposition :=
    if present =? 0 then DecisionNoCandidates
    else if present =? 1 then
      if 0 <? accepted then DecisionAccepted
      else if 0 <? rejected then DecisionRejected else DecisionDeferred
    else DecisionMixed in
  payload ← encoded "post_turn_governance_decision_summary"
              (plane_reports_to_vec (sr_plane_reports r));
  let summary := mkDecisionSummary accepted rejected deferred disposition planes
                   (governance_sha256 payload) in
  _ ← decision_summary_validate summary;
  Ok summary.

(** [Option<Vec<u8>>] is ordered with [None] first and lexicographically. *)
Fixpoint bytes_ltb (a b : bytes) : bool :=
  match a, b with
  | [], [] => false
  | [], _ :: _ => true
  | _ :: _, [] => false
  | x :: a', y :: b' =>
      match N.compare (Byte.to_N x) (Byte.to_N y) with
      | Lt => true | Gt => false | Eq => bytes_ltb a' b'
      end
  end.

Definition encoding_ltb (a b : ProceduralAppliedOwnerBindingV1) : bool :=
  match owner_binding_to_vec a, owner_binding_to_vec b with
  | inl _, inr _ => true
  | inr x, inr y => bytes_ltb x y
  | _, inl _ => false
  end.

Definition method_binding_canonical (b : ProceduralAppliedOwnerBindingV1) : bool :=
  match b with
  | AppliedAgentToolExperience revision content_digest =>
      (0 <? owner_revision revision)
      && bool_decide (owner_plane (owner_ref revision) = AgentToolExperience)
      && is_sha256_digest content_digest
  | AppliedRuntimeSkill _ => false
  end.

Definition method_application_validate (m : PostTurnGovernanceMethodApplicationV1) : result unit :=
  match m with
  | MethodNone => Ok tt
  | MethodApplied validity_epoch source_commitment_digest owner_bindings =>
      ensure (negb ((validity_epoch =? 0) || negb (is_sha256_digest source_commitment_digest)
                    || match owner_bindings with [] => true | _ => false end
                    || (MAX_METHOD_LEARNING_PROPOSALS <? len owner_bindings)
                    || negb (forallb method_binding_canonical owner_bindings)
                    || windows2_any (λ a b, negb (encoding_ltb a b)) owner_bindings))
        (InvalidInput "post_turn_method_application" "method application is non-canonical")
  end.

Definition disposition_byte (d : PostTurnGovernanceDecisionDispositionV1) : byte :=
  match d with
  | DecisionAccepted => x01 | DecisionRejected => x02 | DecisionDeferred => x03
  | DecisionMixed => x04 | DecisionNoCandidates => x05
  end.

Definition canonical_receipt_id (r : PostTurnGovernanceReceiptV4) (job_id : string)
    : result string :=
  _ ← ensure (negb (blank job_id || blank (rc_semantic_transaction_id r)
                    || negb (is_sha256_digest (rc_mutation_plan_digest r))
                    || negb (is_sha256_digest (rc_memory_post_image_digest r))
                    || (rc_completed_at r =? 0)))
        (InvalidInput "post_turn_governance_receipt"
           "receipt identity payload is incomplete or invalid");
  let d := rc_decision_summary r in
  _ ← decision_summary_validate d;
  _ ← method_application_validate (rc_method_application r);
  method ← encoded "post_turn_governance_receipt"
             (method_application_to_vec (rc_method_application r));
  let payload := foldl push_receipt_field (str_bytes "bm-receipt-v4-id" ++ [x00])
                   (method :: (str_bytes <$> [job_id; rc_semantic_transaction_id r;
                                              rc_mutation_plan_digest r;
                                              rc_memory_post_image_digest r])) in
  Ok (governance_sha256
        (push_receipt_field
           (payload ++ be_bytes (rc_completed_at r) ++ be_bytes32 (ds_accepted_count d)
            ++ be_bytes32 (ds_rejected_count d) ++ be_bytes32 (ds_deferred_count d)
            ++ [disposition_byte (ds_disposition d)] ++ be_bytes32 (ds_plane_count d))
           (str_bytes (ds_plane_digest d)))).

Definition receipt_new (job_id semantic_transaction_id mutation_plan_digest
    memory_post_image_digest : string) (completed_at : N)
    (decision_summary : PostTurnGovernanceDecisionSummaryV1)
    (method_application : PostTurnGovernanceMethodApplicationV1)
    : result PostTurnGovernanceReceiptV4 :=
  let receipt id := mkReceipt id semantic_transaction_id mutation_plan_digest
                      memory_post_image_digest completed_at decision_summary method_application in
  id ← canonical_receipt_id (receipt "") job_id;
  Ok (receipt id).

(** ** Jobs *)

Definition job_error (message : string) : Error := InvalidInput "post_turn_governance_job" message.

(** The two checks that read the block of a job. *)
Definition validate_block (j : PostTurnGovernanceJobV4) : result unit :=
  match jb_execution_block_authority j with
  | Some authority =>
      _ ← block_authority_validate authority;
      ensure (bool_decide (jb_status j = blocked_status (ba_typed_block_reason authority))
              && bool_decide (jb_blocking_reason j
                              = Some (block_reason_as_str (ba_typed_block_reason authority))))
        (job_error "execution block authority differs from blocked job state")
  | None =>
      ensure (negb (bool_decide (jb_status j = BlockedConfiguration)
                    || bool_decide (jb_status j = BlockedPolicy)))
        (job_error "configuration or policy block requires execution block authority")
  end.

Definition is_bound (b : PostTurnGovernanceExecutionBindingV1) : bool :=
  match b with Bound _ _ => true | Unbound => false end.

(** The checks that read the attempt authority of a job. *)
Definition validate_attempt (j : PostTurnGovernanceJobV4) : result unit :=
  match jb_attempt_authority j with
  | Some authority =>
      _ ← attempt_authority_validate authority;
      _ ← ensure match jb_execution_binding j with
                 | Bound id revision => String.eqb id (at_binding_id authority)
                                        && (revision =? at_binding_revision authority)
                 | Unbound => false
                 end
            (job_error "attempt authority differs from the bound execution authority");
      _ ← ensure (bool_decide (at_privacy_authority authority = jb_privacy_authority j))
            (job_error "attempt privacy authority differs from the pinned policy");
      ensure (is_bound (jb_execution_binding j))
        (job_error "attempt authority requires one bound execution authority")
  | None => Ok tt
  end.

Definition validate_receipt (j : PostTurnGovernanceJobV4) : result unit :=
  match jb_receipt j with
  | Some receipt =>
      _ ← ensure (negb (negb (is_sha256_digest (rc_receipt_id receipt))
                        || blank (rc_semantic_transaction_id receipt)
                        || negb (is_sha256_digest (rc_mutation_plan_digest receipt))
                        || negb (is_sha256_digest (rc_memory_post_image_digest receipt))
                        || (rc_completed_at receipt =? 0)))
            (job_error "completion receipt is invalid");
      _ ← decision_summary_validate (rc_decision_summary receipt);
      id ← canonical_receipt_id receipt (jb_job_id j);
      ensure (String.eqb (rc_receipt_id receipt) id)
        (job_error "completion receipt identity differs from its canonical payload")
  | None => Ok tt
  end.

Definition job_validate (j : PostTurnGovernanceJobV4) : result unit :=
  _ ← identity_validate (jb_identity j);
  _ ← ensure (negb (negb (jb_schema_version j =? POST_TURN_GOVERNANCE_JOB_SCHEMA_VERSION)
              || negb (jb_governance_contract_version j =? POST_TURN_GOVERNANCE_JOB_SCHEMA_VERSION)
              || negb (String.eqb (jb_job_id j) (identity_job_id (jb_identity j)))
              || negb (String.eqb (jb_idempotency_key j) (jb_job_id j))
              || negb (String.eqb (jb_scope_index_key j) (identity_scope_id (jb_identity j)))
              || (jb_transcript_sequence j =? 0)
              || negb (is_sha256_digest (jb_transcript_digest j))
              || negb (is_sha256_digest (jb_runtime_binding_digest j))
              || (jb_state_revision j =? 0) || (jb_max_attempts j =? 0)
              || (jb_max_attempts j <? jb_attempt_count j) || (jb_created_at j =? 0)
              || (jb_updated_at j <? jb_created_at j)))
        (job_error "job identity, authority, revision, or timing is invalid");
  _ ← execution_binding_validate (jb_execution_binding j);
  _ ← privacy_authority_validate (jb_privacy_authority j);
  _ ← validate_block j;
  _ ← ensure (negb ((MAX_POST_TURN_GOVERNANCE_ACTIVE_JOBS <? len (jb_candidate_ids j))
              || existsb blank (jb_candidate_ids j)
              || match jb_blocking_reason j with
                 | Some value => blank value
                                 || (MAX_POST_TURN_GOVERNANCE_ERROR_CHARS <? char_count value)
                 | None => false
                 end
              || some_zero (jb_last_provider_permission_recovery_generation j)))
        (job_error "job metadata exceeds its bounded contract");
  _ ← ensure (Bool.eqb (bool_decide (jb_status j = Leased))
                (is_some (jb_lease_owner j) && is_some (jb_lease_until j)
                 && is_some (jb_attempt_authority j)))
        (job_error "lease fields differ from job status");
  _ ← validate_attempt j;
  _ ← ensure (Bool.eqb (status_is_terminal (jb_status j))
                (is_some (jb_terminal_at j) && negb (is_some (jb_lease_owner j))
                 && negb (is_some (jb_lease_until j))))
        (job_error "terminal fields differ from job status");
  _ ← ensure (Bool.eqb (bool_decide (jb_status j = Succeeded)) (is_some (jb_receipt j)))
        (job_error "success status requires one deterministic receipt");
  validate_receipt j.

Definition job_pending (identity : PostTurnGovernanceIdentityV2) (transcript_sequence : N)
    (transcript_digest runtime_binding_digest : string)
    (execution_binding : PostTurnGovernanceExecutionBindingV1)
    (privacy_authority : PostTurnGovernancePrivacyAuthorityV1) (candidate_ids : list string)
    (tool_call_count max_attempts now_secs : N) : result PostTurnGovernanceJobV4 :=
  let job_id := identity_job_id identity in
  let unbound := bool_decide (execution_binding = Unbound) in
  let job := mkJob POST_TURN_GOVERNANCE_JOB_SCHEMA_VERSION job_id job_id
    (identity_scope_id identity) identity transcript_sequence transcript_digest
    runtime_binding_digest POST_TURN_GOVERNANCE_JOB_SCHEMA_VERSION execution_binding
    privacy_authority candidate_ids tool_call_count
    (if unbound then BlockedConfiguration else Pending) 1 0 max_attempts
    (if unbound then None else Some now_secs) None None 0 None
    (if unbound then Some (binding_unavailable now_secs) else None) None
    (if unbound then Some (block_reason_as_str BindingUnavailable) else None) None None
    now_secs now_secs None in
  _ ← job_validate job;
  Ok job.

(** ** References and indexes *)

Definition ref_from_job (j : PostTurnGovernanceJobV4) : PostTurnGovernanceJobRefV2 :=
  mkJobRef POST_TURN_GOVERNANCE_JOB_SCHEMA_VERSION (jb_job_id j) (jb_job_id j)
    (jb_state_revision j) (jb_status j) (jb_next_attempt_at j) (jb_lease_until j)
    (jb_created_at j) (jb_updated_at j).

Definition cursor_validate (c : PostTurnGovernanceReconciliationCursorV1) : result unit :=
  ensure (negb (not_exact (cu_conversation_id c) || (cu_sequence c =? 0)
                || not_exact (cu_turn_id c)))
    (InvalidInput "post_turn_governance_reconciliation_cursor"
       "reconciliation cursor identity or sequence is invalid").

Definition index_empty (i : PostTurnGovernanceIdentityV2) (now_secs : N)
    : PostTurnGovernanceScopeIndexV4 :=
  mkIndex POST_TURN_GOVERNANCE_SCOPE_INDEX_SCHEMA_VERSION (identity_scope_id i)
    (gi_memory_space_id i) (gi_mounted_subject_id i) (gi_channel_id i) (gi_chat_id i) 1 [] [] []
    now_secs.

(** Assignments to the fields of an index. *)
Definition set_active_jobs (l : list PostTurnGovernanceJobRefV2) (x : PostTurnGovernanceScopeIndexV4)
    : PostTurnGovernanceScopeIndexV4 :=
  mkIndex (ix_schema_version x) (ix_scope_index_key x) (ix_memory_space_id x)
    (ix_mounted_subject_id x) (ix_channel_id x) (ix_chat_id x) (ix_index_revision x) l
    (ix_recent_terminal_jobs x) (ix_reconciliation_cursors x) (ix_updated_at x).
Definition set_recent_terminal_jobs (l : list PostTurnGovernanceJobRefV2)
    (x : PostTurnGovernanceScopeIndexV4) : PostTurnGovernanceScopeIndexV4 :=
  mkIndex (ix_schema_version x) (ix_scope_index_key x) (ix_memory_space_id x)
    (ix_mounted_subject_id x) (ix_channel_id x) (ix_chat_id x) (ix_index_revision x)
    (ix_active_jobs x) l (ix_reconciliation_cursors x) (ix_updated_at x).
Definition set_reconciliation_cursors (l : list PostTurnGovernanceReconciliationCursorV1)
    (x : PostTurnGovernanceScopeIndexV4) : PostTurnGovernanceScopeIndexV4 :=
  mkIndex (ix_schema_version x) (ix_scope_index_key x) (ix_memory_space_id x)
    (ix_mounted_subject_id x) (ix_channel_id x) (ix_chat_id x) (ix_index_revision x)
    (ix_active_jobs x) (ix_recent_terminal_jobs x) l (ix_updated_at x).
Definition set_index_revision (revision updated_at : N) (x : PostTurnGovernanceScopeIndexV4)
    : PostTurnGovernanceScopeIndexV4 :=
  mkIndex (ix_schema_version x) (ix_scope_index_key x) (ix_memory_space_id x)
    (ix_mounted_subject_id x) (ix_channel_id x) (ix_chat_id x) revision (ix_active_jobs x)
    (ix_recent_terminal_jobs x) (ix_reconciliation_cursors x) updated_at.

Definition reconciliation_cursor (x : PostTurnGovernanceScopeIndexV4) (conversation_id : string)
    : option PostTurnGovernanceReconciliationCursorV1 :=
  List.find (λ c, String.eqb (cu_conversation_id c) conversation_id) (ix_reconciliation_cursors x).

(** [*iter_mut().find(p) = y]: the first element that satisfies [p]. *)
Fixpoint replace_first {A} (p : A → bool) (y : A) (l : list A) : list A :=
  match l with
  | [] => []
  | x :: l' => if p x then y :: l' else x :: replace_first p y l'
  end.

Definition set_reconciliation_cursor (c : PostTurnGovernanceReconciliationCursorV1)
    (x : PostTurnGovernanceScopeIndexV4) : result PostTurnGovernanceScopeIndexV4 :=
  _ ← cursor_validate c;
  match reconciliation_cursor x (cu_conversation_id c) with
  | Some existing =>
      _ ← ensure (cu_sequence existing <? cu_sequence c)
            (Conflict "post_turn_governance_reconcile"
               "reconciliation cursor must advance monotonically");
      Ok (set_reconciliation_cursors
            (replace_first (λ e, String.eqb (cu_conversation_id e) (cu_conversation_id c)) c
               (ix_reconciliation_cursors x)) x)
  | None =>
      _ ← ensure (len (ix_reconciliation_cursors x)
                  <? MAX_POST_TURN_GOVERNANCE_RECONCILIATION_CURSORS)
            (Config "post_turn_governance_reconcile"
               "runtime scope reconciliation cursor budget is exhausted");
      Ok (set_reconciliation_cursors
            (sort_by (λ a b, leb (cu_conversation_id a) (cu_conversation_id b))
               (ix_reconciliation_cursors x ++ [c])) x)
  end.

Definition ref_invalid (status_ok : PostTurnGovernanceJobStatusV2 → bool)
    (r : PostTurnGovernanceJobRefV2) : bool :=
  negb (rf_job_schema_version r =? POST_TURN_GOVERNANCE_JOB_SCHEMA_VERSION)
  || negb (status_ok (rf_status r)) || negb (String.eqb (rf_job_id r) (rf_job_key r))
  || (rf_state_revision r =? 0) || (rf_updated_at r <? rf_created_at r).

(** [iter.any(|x| !ids.insert(x))]: two elements are equal. *)
Fixpoint has_duplicates (l : list string) : bool :=
  match l with
  | [] => false
  | x :: l' => bool_decide (x ∈ l') || has_duplicates l'
  end.

Definition index_refs (x : PostTurnGovernanceScopeIndexV4) : list PostTurnGovernanceJobRefV2 :=
  ix_active_jobs x ++ ix_recent_terminal_jobs x.

Definition index_validate (x : PostTurnGovernanceScopeIndexV4) : result unit :=
  let invalid := InvalidInput "post_turn_governance_scope_index" in
  identity ← identity_new (ix_memory_space_id x) (ix_mounted_subject_id x) (ix_channel_id x)
    (ix_chat_id x) "runtime-scope-validation-conversation" "scope-validation-turn";
  _ ← ensure (negb (negb (ix_schema_version x =? POST_TURN_GOVERNANCE_SCOPE_INDEX_SCHEMA_VERSION)
              || negb (String.eqb (ix_scope_index_key x) (identity_scope_id identity))
              || (ix_index_revision x =? 0) || (ix_updated_at x =? 0)
              || (MAX_POST_TURN_GOVERNANCE_RECONCILIATION_CURSORS
                  <? len (ix_reconciliation_cursors x))
              || existsb (λ c, negb (is_ok (cursor_validate c))) (ix_reconciliation_cursors x)
              || (MAX_POST_TURN_GOVERNANCE_ACTIVE_JOBS <? len (ix_active_jobs x))
              || (MAX_POST_TURN_GOVERNANCE_RECENT_TERMINAL_JOBS
                  <? len (ix_recent_terminal_jobs x))
              || existsb (ref_invalid status_is_active) (ix_active_jobs x)
              || existsb (ref_invalid status_is_terminal) (ix_recent_terminal_jobs x)))
        (invalid "scope index identity, revision, or active refs are invalid");
  _ ← ensure (negb (has_duplicates (rf_job_id <$> index_refs x)))
        (invalid "scope index contains duplicate job refs");
  ensure (negb (has_duplicates (cu_conversation_id <$> ix_reconciliation_cursors x)))
    (invalid "scope index contains duplicate reconciliation cursors").

(** ** Queue reports *)

Inductive DeferredGovernanceJobStatus :=
| SummaryPending | SummaryRetrying | SummaryFailed | SummaryTerminal.

Definition deferred_status (s : PostTurnGovernanceJobStatusV2) : DeferredGovernanceJobStatus :=
  match s with
  | Pending | BlockedConfiguration | BlockedCapability | BlockedPolicy => SummaryPending
  | Leased | RetryWaiting => SummaryRetrying
  | DeadLetter => SummaryFailed
  | Succeeded | JobCancelled => SummaryTerminal
  end.

Record DeferredGovernanceJobSummary := mkJobSummary {
  js_job_id : string;
  js_idempotency_key : string;
  js_status : DeferredGovernanceJobStatus;
  js_memory_space_id : string;
  js_subject_id : string;
  js_channel : string;
  js_chat_id : string;
  js_conversation_id : option string;
  js_turn_id : string;
  js_candidate_ids : list string;
  js_reason : string;
  js_retry_policy : string;
  js_created_at : N;
  js_attempts : N;
  js_last_error : option string;
}.

Definition summary_from_job (j : PostTurnGovernanceJobV4) : DeferredGovernanceJobSummary :=
  let i := jb_identity j in
  mkJobSummary (jb_job_id j) (jb_idempotency_key j) (deferred_status (jb_status j))
    (gi_memory_space_id i) (gi_mounted_subject_id i) (gi_channel_id i) (gi_chat_id i)
    (Some (gi_conversation_id i)) (gi_turn_id i) (jb_candidate_ids j)
    (default "v3_durable_governance_intent" (jb_blocking_reason j)) "bounded_exponential_backoff"
    (jb_created_at j) (jb_attempt_count j) (job_error_as_str <$> jb_last_error_class j).

Record DeferredGovernanceQueueReport := mkQueueReport {
  qr_total : N;
  qr_pending : N;
  qr_retrying : N;
  qr_failed : N;
  qr_terminal : N;
  qr_oldest_pending_at : option N;
  qr_newest_pending_at : option N;
  qr_recent_jobs : list DeferredGovernanceJobSummary;
}.

Definition merge_time (f : N → N → N) (o : option N) (at_secs : N) : option N :=
  Some (match o with Some value => f value at_secs | None => at_secs end).

(** One round of the loop over the jobs. *)
Definition count_job (r : DeferredGovernanceQueueReport) (j : PostTurnGovernanceJobV4)
    : DeferredGovernanceQueueReport :=
  let '(p, w, f, t) :=
    match deferred_status (jb_status j) with
    | SummaryPending => (saturating_add (qr_pending r) 1, qr_retrying r, qr_failed r, qr_terminal r)
    | SummaryRetrying => (qr_pending r, saturating_add (qr_retrying r) 1, qr_failed r, qr_terminal r)
    | SummaryFailed => (qr_pending r, qr_retrying r, saturating_add (qr_failed r) 1, qr_terminal r)
    | SummaryTerminal => (qr_pending r, qr_retrying r, qr_failed r, saturating_add (qr_terminal r) 1)
    end in
  let waiting := match deferred_status (jb_status j) with
                 | SummaryPending | SummaryRetrying => true
                 | _ => false
                 end in
  mkQueueReport (qr_total r) p w f t
    (if waiting then merge_time N.min (qr_oldest_pending_at r) (jb_created_at j)
     else qr_oldest_pending_at r)
    (if waiting then merge_time N.max (qr_newest_pending_at r) (jb_created_at j)
     else qr_newest_pending_at r) (qr_recent_jobs r).

Definition recent_first (a b : DeferredGovernanceJobSummary) : bool :=
  leb (Reverse (js_created_at a), Reverse (js_job_id a))
    (Reverse (js_created_at b), Reverse (js_job_id b)).

Definition build_deferred_governance_queue_report (jobs : list PostTurnGovernanceJobV4)
    (recent_limit : N) : DeferredGovernanceQueueReport :=
  let r := foldl count_job (mkQueueReport (len jobs) 0 0 0 0 None None []) jobs in
  mkQueueReport (qr_total r) (qr_pending r) (qr_retrying r) (qr_failed r) (qr_terminal r)
    (qr_oldest_pending_at r) (qr_newest_pending_at r)
    (take (N.to_nat (N.max recent_limit 1)) (sort_by recent_first (summary_from_job <$> jobs))).

End Governance.
