(* ===== verification/MutationOperation.v ===== *)
(** * Durable mutation operations

    Model of [crates/core/src/memory/mutation_operation.rs] and of the
    operation-aware commit of [crates/sdk/src/store_internal/platform.rs]: a
    caller names a mutation, and the store commits its effect together with a
    receipt and an audit record under the name, so that a repeated submission
    replays the receipt.  The rest of the platform's commit is an interface,
    [StorePlatform], with the contract of the store kernel: a commit checks its
    preconditions and applies its mutations at once, or fails and changes
    nothing. *)

From S2P Require Import Prelude Errors RustStr Governed StoreTypes StoreTransaction ReadSession LongTermVersion LongTermControl TurnTypes GovernanceTypes.

Local Open Scope string_scope.
Local Open Scope list_scope.
Local Open Scope N_scope.

(** ** Data *)

Definition MEMORY_MUTATION_RECEIPT_SCHEMA_VERSION : N := 1.
Definition MEMORY_MUTATION_RECEIPT_NAMESPACE : string := "memory_mutation_receipts".
Definition MEMORY_MUTATION_AUDIT_NAMESPACE : string := "memory_mutation_audits".
Definition OPERATION_STORAGE_KEY_DOMAIN : string := "memory_mutation_operation_storage_key_v1".
Definition OPERATION_ID_DIGEST_DOMAIN : string := "memory_mutation_operation_id_v1".
Definition MAX_OPERATION_COMPONENT_BYTES : N := 256.

Inductive MemoryMutationOperationKind :=
| KindWrite
| KindLongTermControl (operation : LongTermControlOperation)
| KindSoulEvidence | KindSoulProvision | KindSoulRevision | KindSoulArchive | KindSoulRestore
| KindSoulReset | KindSoulReseed | KindSoulDelete | KindRelationshipControl
| KindProceduralLearning | KindProceduralLifecycle | KindProceduralProducerControl
| KindGovernanceCredentialRecovery | KindGovernanceProviderPermissionRecovery.

#[global] Instance operation_kind_eq_dec : EqDecision MemoryMutationOperationKind.
Proof. solve_decision. Defined.

Definition canonical_key (k : MemoryMutationOperationKind) : string :=
  match k with
  | KindWrite => "write"
  | KindLongTermControl o => "long_term_control:" +:+ operation_as_str o
  | KindSoulEvidence => "soul_evidence"
  | KindSoulProvision => "soul_provision"
  | KindSoulRevision => "soul_revision"
  | KindSoulArchive => "soul_archive"
  | KindSoulRestore => "soul_restore"
  | KindSoulReset => "soul_reset"
  | KindSoulReseed => "soul_reseed"
  | KindSoulDelete => "soul_delete"
  | KindRelationshipControl => "relationship_control"
  | KindProceduralLearning => "procedural_learning"
  | KindProceduralLifecycle => "procedural_lifecycle"
  | KindProceduralProducerControl => "procedural_producer_control"
  | KindGovernanceCredentialRecovery => "governance_credential_recovery"
  | KindGovernanceProviderPermissionRecovery => "governance_provider_permission_recovery"
  end.

Record MemoryMutationOperationIdentity := mkOperationIdentity {
  oi_operation_id_digest : string;
  oi_memory_space_id : string;
  oi_mounted_subject_id : string;
  oi_actor_subject_id : string;
  oi_operation_kind : MemoryMutationOperationKind;
}.

#[global] Instance operation_identity_eq_dec : EqDecision MemoryMutationOperationIdentity.
Proof. solve_decision. Defined.

Inductive MemoryMutationEffect := EffectChanged | EffectNoop.

#[global] Instance effect_eq_dec : EqDecision MemoryMutationEffect.
Proof. solve_decision. Defined.

Record MemoryMutationReceipt := mkMutationReceipt {
  mr_schema_version : N;
  mr_identity : MemoryMutationOperationIdentity;
  mr_intent_digest : string;
  mr_effect_plan_digest : string;
  mr_transaction_id : string;
  mr_effect : MemoryMutationEffect;
  mr_changed_count : N;
  mr_audit_record_id : string;
  mr_committed_at_unix_secs : N;
}.

Record MemoryMutationAuditRecord := mkMutationAudit {
  ma_schema_version : N;
  ma_audit_record_id : string;
  ma_identity : MemoryMutationOperationIdentity;
  ma_intent_digest : string;
  ma_effect_plan_digest : string;
  ma_transaction_id : string;
  ma_effect : MemoryMutationEffect;
  ma_changed_count : N;
  ma_actor_subject_id : string;
  ma_committed_at_unix_secs : N;
}.

(** ** Validation *)

Definition validate_component (value field : string) : result unit :=
  ensure (negb (is_empty value || negb (String.eqb value (trim value))
                || (MAX_OPERATION_COMPONENT_BYTES <? str_len value) || has_control value))
    (InvalidInput "memory_mutation_operation_identity"
       (field +:+ " must be a non-empty canonical component")).

(** [value.strip_prefix("sha256:")] and 64 lowercase hexadecimal digits. *)
Definition canonical_sha256 (value : string) : bool :=
  starts_with value "sha256:"
  && (str_len value =? 71)
  && forallb is_lower_hex (drop 7 (String.list_ascii_of_string value)).

Definition validate_sha256_digest (value field : string) : result unit :=
  ensure (canonical_sha256 value)
    (InvalidInput "memory_mutation_receipt" (field +:+ " must be a canonical sha256 digest")).

(** [serde_json] and the digest of the crate [sha2]. *)
Class OperationCodec `{codec : StoreCodec} := {
  operation_sha256_hex : bytes → string;
  receipt_to_value : MemoryMutationReceipt → string + Value;
  receipt_from_value : Value → string + MemoryMutationReceipt;
  audit_to_value : MemoryMutationAuditRecord → string + Value;
  audit_from_value : Value → string + MemoryMutationAuditRecord;
  effect_plan_to_vec :
    string → string → StoreEventScope → list StoreMutation → string + bytes;
}.

(** Documented behaviour: reading back what was written gives the same value,
    and a printed digest is 64 lowercase hexadecimal digits. *)
Class OperationCodecLaws `{OperationCodec} : Prop := {
  receipt_round_trip r v : receipt_to_value r = inr v → receipt_from_value v = inr r;
  audit_round_trip a v : audit_to_value a = inr v → audit_from_value v = inr a;
}.

Section Operation.
Context `{ocodec : OperationCodec}.

(** Each field behind its length ([usize::to_be_bytes], 64 bits). *)
Definition operation_digest (domain : string) (fields : list bytes) : string :=
  "sha256:" +:+ operation_sha256_hex
    (foldl update_read_digest (update_read_digest [] (str_bytes domain)) fields).

Definition operation_identity_validate (i : MemoryMutationOperationIdentity) : result unit :=
  _ ← validate_sha256_digest (oi_operation_id_digest i) "operation_id_digest";
  _ ← validate_component (oi_memory_space_id i) "memory_space_id";
  _ ← validate_component (oi_mounted_subject_id i) "mounted_subject_id";
  validate_component (oi_actor_subject_id i) "actor_subject_id".

Definition operation_identity_new (operation_id memory_space_id mounted_subject_id
    actor_subject_id : string) (operation_kind : MemoryMutationOperationKind)
    : result MemoryMutationOperationIdentity :=
  _ ← validate_component operation_id "operation_id";
  let identity := mkOperationIdentity
    (operation_digest OPERATION_ID_DIGEST_DOMAIN [str_bytes operation_id]) memory_space_id
    mounted_subject_id actor_subject_id operation_kind in
  _ ← operation_identity_validate identity;
  Ok identity.

Definition operation_storage_key (i : MemoryMutationOperationIdentity) : string :=
  operation_digest OPERATION_STORAGE_KEY_DOMAIN
    (str_bytes <$> [oi_memory_space_id i; oi_mounted_subject_id i; oi_actor_subject_id i;
                    canonical_key (oi_operation_kind i); oi_operation_id_digest i]).

Definition receipt_error (message : string) : Error := InvalidInput "memory_mutation_receipt" message.
Definition audit_error (message : string) : Error :=
  InvalidInput "memory_mutation_audit_record" message.

Definition receipt_validate (r : MemoryMutationReceipt) : result unit :=
  _ ← ensure (mr_schema_version r =? MEMORY_MUTATION_RECEIPT_SCHEMA_VERSION)
        (receipt_error "unsupported mutation receipt schema version");
  _ ← operation_identity_validate (mr_identity r);
  _ ← validate_sha256_digest (mr_intent_digest r) "intent_digest";
  _ ← validate_sha256_digest (mr_effect_plan_digest r) "effect_plan_digest";
  _ ← validate_sha256_digest (mr_transaction_id r) "transaction_id";
  _ ← ensure (String.eqb (mr_audit_record_id r) (operation_storage_key (mr_identity r)))
        (receipt_error "audit_record_id must match the canonical operation storage key");
  _ ← ensure (negb (mr_committed_at_unix_secs r =? 0))
        (receipt_error "committed_at_unix_secs must be greater than zero");
  ensure match mr_effect r with
         | EffectChanged => negb (mr_changed_count r =? 0)
         | EffectNoop => mr_changed_count r =? 0
         end (receipt_error "mutation effect and changed_count disagree").

Definition mutation_receipt_new (identity : MemoryMutationOperationIdentity)
    (intent_digest effect_plan_digest transaction_id : string) (effect : MemoryMutationEffect)
    (changed_count committed_at : N) : result MemoryMutationReceipt :=
  _ ← ensure (changed_count <=? u64_max)
        (receipt_error "changed_count exceeds the durable receipt width");
  let receipt := mkMutationReceipt MEMORY_MUTATION_RECEIPT_SCHEMA_VERSION identity intent_digest
    effect_plan_digest transaction_id effect changed_count (operation_storage_key identity)
    committed_at in
  _ ← receipt_validate receipt;
  Ok receipt.

(** The receipt of an audit record. *)
Definition audited_receipt (a : MemoryMutationAuditRecord) : MemoryMutationReceipt :=
  mkMutationReceipt (ma_schema_version a) (ma_identity a) (ma_intent_digest a)
    (ma_effect_plan_digest a) (ma_transaction_id a) (ma_effect a) (ma_changed_count a)
    (ma_audit_record_id a) (ma_committed_at_unix_secs a).

Definition audit_validate (a : MemoryMutationAuditRecord) : result unit :=
  _ ← receipt_validate (audited_receipt a);
  _ ← validate_component (ma_actor_subject_id a) "actor_subject_id";
  _ ← ensure (String.eqb (ma_audit_record_id a) (operation_storage_key (ma_identity a)))
        (audit_error "audit_record_id must match the canonical operation storage key");
  ensure (String.eqb (ma_actor_subject_id a) (oi_actor_subject_id (ma_identity a)))
    (audit_error "audit actor must match the operation identity actor").

Definition audit_new (identity : MemoryMutationOperationIdentity)
    (intent_digest effect_plan_digest transaction_id : string) (effect : MemoryMutationEffect)
    (changed_count : N) (actor_subject_id : string) (committed_at : N)
    : result MemoryMutationAuditRecord :=
  _ ← ensure (changed_count <=? u64_max)
        (audit_error "changed_count exceeds the durable receipt width");
  let record := mkMutationAudit MEMORY_MUTATION_RECEIPT_SCHEMA_VERSION
    (operation_storage_key identity) identity intent_digest effect_plan_digest transaction_id
    effect changed_count actor_subject_id committed_at in
  _ ← audit_validate record;
  Ok record.

Definition replay_conflict : Error :=
  Conflict "memory_mutation_receipt_replay"
    "operation identity is already committed for a different mutation intent".

Definition classify_replay (r : MemoryMutationReceipt) (identity : MemoryMutationOperationIdentity)
    (intent_digest : string) : result unit :=
  _ ← receipt_validate r;
  _ ← operation_identity_validate identity;
  _ ← validate_sha256_digest intent_digest "intent_digest";
  ensure (bool_decide (mr_identity r = identity) && String.eqb (mr_intent_digest r) intent_digest)
    replay_conflict.

(** ** Plans *)

(** The authorities of a plan, which other components read, are left out. *)
Record StoreMutationOperationPlan := mkOperationPlan {
  op_identity : MemoryMutationOperationIdentity;
  op_intent_digest : string;
  op_effect : MemoryMutationEffect;
  op_changed_count : N;
  op_actor_subject_id : string;
  op_committed_at_unix_secs : N;
  op_transaction_id : string;
}.

Definition mutation_operation_transaction_id (i : MemoryMutationOperationIdentity)
    (intent_digest : string) : string :=
  operation_digest "memory_mutation_transaction_id_v1"
    [str_bytes (operation_storage_key i); str_bytes intent_digest].

Definition zero_digest : string :=
  "sha256:0000000000000000000000000000000000000000000000000000000000000000".

Definition operation_plan_new (identity : MemoryMutationOperationIdentity) (intent_digest : string)
    (effect : MemoryMutationEffect) (changed_count : N) (actor_subject_id : string)
    (committed_at : N) : result StoreMutationOperationPlan :=
  _ ← ensure (changed_count <=? u64_max)
        (InvalidInput "memory_mutation_operation_plan"
           "changed_count exceeds the durable receipt width");
  let transaction_id := mutation_operation_transaction_id identity intent_digest in
  _ ← audit_new identity intent_digest zero_digest transaction_id effect changed_count
        actor_subject_id committed_at;
  Ok (mkOperationPlan identity intent_digest effect changed_count actor_subject_id committed_at
        transaction_id).

(** ** Records of an operation *)

Definition is_operation_namespace (ns : string) : bool :=
  String.eqb ns MEMORY_MUTATION_RECEIPT_NAMESPACE || String.eqb ns MEMORY_MUTATION_AUDIT_NAMESPACE.

(** The address of a JSON mutation. *)
Definition json_mutation_address (m : StoreMutation) : option address :=
  match m with
  | DeclPutJson ns k _ _ _ _ | DeclDeleteJson ns k _ _ _ => Some (ns, k)
  | _ => None
  end.

Definition touches_namespace (p : string → bool) (m : StoreMutation) : bool :=
  match json_mutation_address m with Some (ns, _) => p ns | None => false end.

Definition batch_with (b : StoreMutationBatch) (ms : list StoreMutation) : StoreMutationBatch :=
  {| batch_transaction_id := batch_transaction_id b; batch_operation := batch_operation b;
     batch_scope := batch_scope b; batch_mutations := ms |}.

Definition put_operation_record (ns key : string) (v : Value) : StoreMutation :=
  DeclPutJson ns key v MemoryControl ns key.

Definition append_mutation_operation_records (b : StoreMutationBatch)
    (preconditions : list StoreJsonPrecondition) (operation : option StoreMutationOperationPlan)
    (transaction_timestamp : N)
    : result (StoreMutationBatch * list StoreJsonPrecondition) :=
  let protected := existsb (touches_namespace is_operation_namespace) (batch_mutations b) in
  match operation with
  | None =>
      _ ← ensure (negb protected)
            (Config "memory_mutation_operation_authority"
               "only the Store operation-aware commit may create mutation receipt records");
      Ok (b, preconditions)
  | Some op =>
      _ ← ensure (negb protected)
            (Config "memory_mutation_operation_authority"
               "callers must not provide mutation receipt or audit records");
      _ ← ensure (negb (negb (op_committed_at_unix_secs op =? transaction_timestamp)
                  || negb (String.eqb (batch_transaction_id b) (op_transaction_id op))
                  || negb (String.eqb (scope_memory_space_id (batch_scope b))
                             (oi_memory_space_id (op_identity op)))
                  || negb (String.eqb (scope_subject_id (batch_scope b))
                             (oi_mounted_subject_id (op_identity op)))))
            (InvalidInput "memory_mutation_operation_scope"
               "operation plan does not match the final governed batch authority");
      encoded_effect_plan ← encoded "memory_mutation_effect_plan_digest"
        (effect_plan_to_vec (batch_transaction_id b) (batch_operation b) (batch_scope b)
           (batch_mutations b));
      let effect_plan_digest :=
        operation_digest "memory_mutation_effect_plan_v1" [encoded_effect_plan] in
      let key := operation_storage_key (op_identity op) in
      audit ← audit_new (op_identity op) (op_intent_digest op) effect_plan_digest
        (op_transaction_id op) (op_effect op) (op_changed_count op) (op_actor_subject_id op)
        (op_committed_at_unix_secs op);
      receipt ← mutation_receipt_new (op_identity op) (op_intent_digest op) effect_plan_digest
        (op_transaction_id op) (op_effect op) (op_changed_count op) (op_committed_at_unix_secs op);
      audit_value ← encoded "memory_mutation_audit_encode" (audit_to_value audit);
      receipt_value ← encoded "memory_mutation_receipt_encode" (receipt_to_value receipt);
      Ok (batch_with b
            (batch_mutations b
             ++ [put_operation_record MEMORY_MUTATION_AUDIT_NAMESPACE key audit_value;
                 put_operation_record MEMORY_MUTATION_RECEIPT_NAMESPACE key receipt_value]),
          preconditions ++ [JsonAbsent MEMORY_MUTATION_AUDIT_NAMESPACE key;
                            JsonAbsent MEMORY_MUTATION_RECEIPT_NAMESPACE key])
  end.

(** The values a batch puts into a namespace. *)
Definition put_values (ns : string) (ms : list StoreMutation) : list Value :=
  omap (λ m, match m with
             | DeclPutJson ns' _ v _ _ _ => if String.eqb ns' ns then Some v else None
             | _ => None
             end) ms.

Definition absent_required (ns key : string) (preconditions : list StoreJsonPrecondition) : bool :=
  existsb (λ p, match p with
                | JsonAbsent ns' key' => String.eqb ns' ns && String.eqb key' key
                | JsonExact _ _ _ => false
                end) preconditions.

(** An audit record and a receipt bind the same commit. *)
Definition same_binding (a : MemoryMutationAuditRecord) (r : MemoryMutationReceipt) : bool :=
  String.eqb (ma_audit_record_id a) (mr_audit_record_id r)
  && bool_decide (ma_identity a = mr_identity r)
  && String.eqb (ma_intent_digest a) (mr_intent_digest r)
  && String.eqb (ma_effect_plan_digest a) (mr_effect_plan_digest r)
  && String.eqb (ma_transaction_id a) (mr_transaction_id r)
  && bool_decide (ma_effect a = mr_effect r)
  && (ma_changed_count a =? mr_changed_count r)
  && (ma_committed_at_unix_secs a =? mr_committed_at_unix_secs r).

Definition validate_mutation_operation_closure (b : StoreMutationBatch)
    (preconditions : list StoreJsonPrecondition) (operation : option StoreMutationOperationPlan)
    : result unit :=
  let stage := "memory_mutation_operation_closure" in
  let receipts := put_values MEMORY_MUTATION_RECEIPT_NAMESPACE (batch_mutations b) in
  let audits := put_values MEMORY_MUTATION_AUDIT_NAMESPACE (batch_mutations b) in
  match operation with
  | None =>
      ensure match receipts, audits with [], [] => true | _, _ => false end
        (Config "memory_mutation_operation_authority"
           "mutation receipt records require Store operation authority")
  | Some op =>
      match receipts, audits with
      | [receipt_value], [audit_value] =>
          receipt ← encoded stage (receipt_from_value receipt_value);
          audit ← encoded stage (audit_from_value audit_value);
          let key := operation_storage_key (op_identity op) in
          ensure (absent_required MEMORY_MUTATION_RECEIPT_NAMESPACE key preconditions
                  && absent_required MEMORY_MUTATION_AUDIT_NAMESPACE key preconditions
                  && bool_decide (mr_identity receipt = op_identity op)
                  && String.eqb (mr_intent_digest receipt) (op_intent_digest op)
                  && String.eqb (mr_transaction_id receipt) (op_transaction_id op)
                  && bool_decide (mr_effect receipt = op_effect op)
                  && (mr_changed_count receipt =? op_changed_count op)
                  && String.eqb (mr_audit_record_id receipt) key
                  && same_binding audit receipt
                  && String.eqb (ma_actor_subject_id audit) (op_actor_subject_id op))
            (Config stage
               "mutation receipt and authoritative audit are not an exact operation binding")
      | _, _ =>
          Err (Config stage "one operation transaction requires exactly one receipt and one audit")
      end
  end.

(** ** The platform *)

(** The documents of a store; the answer to a read of known keys (which may be
    refused, for instance under a stale budget); the closures a commit adds to a
    batch for the owners of other documents (recall indexes, scope bindings and
    manifests, dependents of a source, controls of procedural learning), which
    may fail; and the commit: everything the platform does once the records of
    the operation are in the batch. *)
Class StorePlatform (S : Type) := {
  platform_doc : S → address → option Value;
  platform_refuses : S → list address → option Error;
  platform_closures :
    StoreMutationBatch → list StoreJsonPrecondition → option StoreMutationOperationPlan → N → S
    → result (StoreMutationBatch * list StoreJsonPrecondition);
  platform_commit :
    StoreMutationBatch → list StoreJsonPrecondition → list StoreBlobPrecondition → N → S
    → result unit * S;
}.

(** The documents whose owners are modelled here: operation records and the
    documents of post-turn governance. *)
Definition owned_namespace (ns : string) : bool :=
  is_operation_namespace ns
  || String.eqb ns POST_TURN_GOVERNANCE_JOB_NAMESPACE
  || String.eqb ns POST_TURN_GOVERNANCE_SCOPE_INDEX_NAMESPACE
  || String.eqb ns POST_TURN_GOVERNANCE_BINDING_SNAPSHOT_NAMESPACE
  || String.eqb ns POST_TURN_GOVERNANCE_BINDING_REVISION_INDEX_NAMESPACE.

(** The document at an address after the mutations of a batch. *)
Definition mutate (a : address) (o : option Value) (m : StoreMutation) : option Value :=
  match m with
  | DeclPutJson ns k v _ _ _ => if decide (a = (ns, k)) then Some v else o
  | DeclDeleteJson ns k _ _ _ => if decide (a = (ns, k)) then None else o
  | _ => o
  end.
Definition mutated (ms : list StoreMutation) (a : address) (o : option Value) : option Value :=
  foldl (mutate a) o ms.

Definition expected (p : StoreJsonPrecondition) : option Value :=
  match p with JsonAbsent _ _ => None | JsonExact _ _ v => Some v end.

(** The closures keep the mutations of the documents modelled here and the
    preconditions of the batch.  A commit that the engine carries out to its end
    checks the preconditions and applies the mutations at once, or fails and
    changes nothing; that a commit interrupted by an error of the disk may still
    have taken effect is the subject of the file engine. *)
Class StorePlatformLaws (S : Type) `{StorePlatform S} : Prop := {
  platform_closures_law b pre op now s b' pre' :
    platform_closures b pre op now s = Ok (b', pre') →
    List.filter (touches_namespace owned_namespace) (batch_mutations b')
    = List.filter (touches_namespace owned_namespace) (batch_mutations b)
    ∧ ∀ p, p ∈ pre → p ∈ pre';
  platform_commit_law b pre bpre now s :
    match platform_commit b pre bpre now s with
    | (Err _, s') => ∀ a, platform_doc s' a = platform_doc s a
    | (Ok _, s') =>
        (∀ p, p ∈ pre → platform_doc s (json_precondition_address p) = expected p)
        ∧ ∀ a, owned_namespace a.1 = true →
            platform_doc s' a = mutated (batch_mutations b) a (platform_doc s a)
    end;
}.

Context {S : Type} {platform : StorePlatform S}.

Definition platform_read (s : S) (addresses : list address) : result (list (option Value)) :=
  match platform_refuses s addresses with
  | Some e => Err e
  | None => Ok (platform_doc s <$> addresses)
  end.

(** [commit_governed_memory_transaction_with_intake_authority]: the closures, the
    records of the operation, and the rest. *)
Definition commit_governed_memory_transaction (b : StoreMutationBatch)
    (preconditions : list StoreJsonPrecondition) (blob_preconditions : list StoreBlobPrecondition)
    (operation : option StoreMutationOperationPlan) (timestamp : N) (s : S) : result unit * S :=
  match (closed ← platform_closures b preconditions operation timestamp s;
         append_mutation_operation_records closed.1 closed.2 operation timestamp) with
  | Err e => (Err e, s)
  | Ok (b, preconditions) =>
      match validate_mutation_operation_closure b preconditions operation with
      | Err e => (Err e, s)
      | Ok _ => platform_commit b preconditions blob_preconditions timestamp s
      end
  end.

(** ** Loading and committing an operation *)

Definition repair_required (message : string) : Error :=
  Config "memory_write_transaction_repair_required" message.

(** [.map_err(...)] *)
Definition map_err {A} (f : Error → Error) (r : result A) : result A :=
  match r with Ok a => Ok a | Err e => Err (f e) end.

Definition decoded {A} (stage : string) (decode : Value → string + A) (o : option Value)
    : result (option A) :=
  match o with
  | Some v => a ← encoded stage (decode v); Ok (Some a)
  | None => Ok None
  end.

Definition load_committed_mutation_operation_parts (s : S)
    (identity : MemoryMutationOperationIdentity) (intent_digest : option string)
    : result (option MemoryMutationReceipt) :=
  let key := operation_storage_key identity in
  docs ← platform_read s [(MEMORY_MUTATION_RECEIPT_NAMESPACE, key);
                          (MEMORY_MUTATION_AUDIT_NAMESPACE, key)];
  receipt ← decoded "memory_mutation_receipt_read" receipt_from_value (mjoin (docs !! 0%nat));
  audit ← decoded "memory_mutation_audit_read" audit_from_value (mjoin (docs !! 1%nat));
  match receipt, audit with
  | None, None => Ok None
  | Some receipt, Some audit =>
      _ ← map_err (λ e, if decide (class e = Some ClassConflict) then e
                        else repair_required ("invalid durable mutation receipt: "
                                              +:+ error_display e))
            (classify_replay receipt identity (default (mr_intent_digest receipt) intent_digest));
      _ ← map_err (λ e, repair_required ("invalid authoritative mutation audit: "
                                         +:+ error_display e)) (audit_validate audit);
      _ ← ensure (same_binding audit receipt)
            (repair_required "mutation receipt and authoritative audit binding differ");
      Ok (Some receipt)
  | _, _ =>
      Err (repair_required "mutation receipt and authoritative audit must exist together")
  end.

Inductive StoreMutationOperationOutcome :=
| OperationCommitted (receipt : MemoryMutationReceipt)
| OperationReplayed (receipt : MemoryMutationReceipt).

(** The first read happens in state [s0], the commit in [s], and the read after
    the commit in a state [later] reached from its result: other commits may
    come between. *)
Definition commit_memory_mutation_operation (s0 : S) (later : S → S) (b : StoreMutationBatch)
    (preconditions : list StoreJsonPrecondition) (blob_preconditions : list StoreBlobPrecondition)
    (operation : StoreMutationOperationPlan) (s : S)
    : result StoreMutationOperationOutcome * S :=
  let load s := load_committed_mutation_operation_parts s (op_identity operation)
                  (Some (op_intent_digest operation)) in
  match (_ ← operation_identity_validate (op_identity operation);
         _ ← ensure (String.eqb (scope_memory_space_id (batch_scope b))
                       (oi_memory_space_id (op_identity operation))
                     && String.eqb (scope_subject_id (batch_scope b))
                          (oi_mounted_subject_id (op_identity operation))
                     && String.eqb (batch_transaction_id b) (op_transaction_id operation))
               (InvalidInput "memory_mutation_operation_scope"
                  "operation identity or transaction id differs from the governed batch scope");
         load s0) with
  | Err e => (Err e, s)
  | Ok (Some receipt) => (Ok (OperationReplayed receipt), s)
  | Ok None =>
      match commit_governed_memory_transaction b preconditions blob_preconditions
              (Some operation) (op_committed_at_unix_secs operation) s with
      | (Ok _, s') =>
          let s'' := later s' in
          (match load s'' with
           | Err e => Err e
           | Ok (Some receipt) => Ok (OperationCommitted receipt)
           | Ok None => Err (Config "memory_mutation_operation_commit"
                               "committed operation receipt is missing after store commit")
           end, s'')
      | (Err e, s') =>
          if String.eqb (error_stage e) "memory_write_transaction_precondition_failed"
          then let s'' := later s' in
               (match load s'' with
                | Err e' => Err e'
                | Ok (Some receipt) => Ok (OperationReplayed receipt)
                | Ok None => Err e
                end, s'')
          else (Err e, s')
      end
  end.

End Operation.
Arguments StorePlatformLaws {_} S {_}.

(** ** Operations commit at most once *)

Section OperationProps.
Context `{ocodec : OperationCodec} {claws : OperationCodecLaws}.
Context {S : Type} {platform : StorePlatform S} {plaws : StorePlatformLaws S}.

Abbreviation receipt_address key := (MEMORY_MUTATION_RECEIPT_NAMESPACE, key).
Abbreviation audit_address key := (MEMORY_MUTATION_AUDIT_NAMESPACE, key).

Lemma mutated_app ms1 ms2 a o : mutated (ms1 ++ ms2) a o = mutated ms2 a (mutated ms1 a o).
Proof. apply foldl_app. Qed.

(** Mutations of other namespaces leave a document alone. *)
Lemma mutated_other (p : string → bool) ms a o :
  existsb (touches_namespace p) ms = false → p a.1 = true → mutated ms a o = o.
Proof.
  intros H Hp. revert o. induction ms as [|m ms IH]; intros o; [done|].
  cbn in H. apply orb_false_iff in H as [Hm H].
  change (mutated ms a (mutate a o m) = o). rewrite (IH H).
  destruct m as [ns k v ? ? ?|ns k ? ? ?| | |]; cbn in Hm |- *; try done;
    destruct (decide _) as [->|]; [|done| |done]; cbn in *; congruence.
Qed.

(** The mutations of other owners than those modelled here do not matter to them. *)
Lemma mutated_owned ms a o :
  owned_namespace a.1 = true →
  mutated ms a o = mutated (List.filter (touches_namespace owned_namespace) ms) a o.
Proof.
  intros Ha. revert o. induction ms as [|m ms IH]; intros o; [done|]. cbn [List.filter].
  change (mutated (m :: ms) a o) with (mutated ms a (mutate a o m)). rewrite IH.
  destruct (touches_namespace owned_namespace m) eqn:Hm; [done|].
  f_equal. apply (mutated_other owned_namespace [m]); [|done]. cbn. by rewrite Hm.
Qed.

Lemma closures_keep b pre op now s b' pre' :
  platform_closures b pre op now s = Ok (b', pre') →
  (∀ a o, owned_namespace a.1 = true →
     mutated (batch_mutations b') a o = mutated (batch_mutations b) a o)
  ∧ ∀ p, p ∈ pre → p ∈ pre'.
Proof using plaws.
  intros [Hms Hpre]%platform_closures_law. split; [|done]. intros a o Ha.
  by rewrite (mutated_owned (batch_mutations b')), Hms, <- mutated_owned.
Qed.

(** What appending the records of an operation adds. *)
Record appended_records (b : StoreMutationBatch) (pre : list StoreJsonPrecondition)
    (op : StoreMutationOperationPlan) (key : string) (b' : StoreMutationBatch)
    (pre' : list StoreJsonPrecondition) (audit : MemoryMutationAuditRecord)
    (receipt : MemoryMutationReceipt) (av rv : Value) : Prop := {
  ar_unprotected : existsb (touches_namespace is_operation_namespace) (batch_mutations b) = false;
  ar_audit : audit_validate audit = Ok tt;
  ar_receipt : receipt_validate receipt = Ok tt;
  ar_binding : same_binding audit receipt = true;
  ar_identity : mr_identity receipt = op_identity op;
  ar_intent : mr_intent_digest receipt = op_intent_digest op;
  ar_transaction : mr_transaction_id receipt = op_transaction_id op;
  ar_effect : mr_effect receipt = op_effect op;
  ar_count : mr_changed_count receipt = op_changed_count op;
  ar_time : mr_committed_at_unix_secs receipt = op_committed_at_unix_secs op;
  ar_actor : ma_actor_subject_id audit = op_actor_subject_id op;
  ar_plan : ∃ plan, effect_plan_to_vec (batch_transaction_id b) (batch_operation b) (batch_scope b)
                      (batch_mutations b) = inr plan
    ∧ mr_effect_plan_digest receipt = operation_digest "memory_mutation_effect_plan_v1" [plan];
  ar_av : audit_to_value audit = inr av;
  ar_rv : receipt_to_value receipt = inr rv;
  ar_batch : batch_mutations b'
             = batch_mutations b
               ++ [put_operation_record MEMORY_MUTATION_AUDIT_NAMESPACE key av;
                   put_operation_record MEMORY_MUTATION_RECEIPT_NAMESPACE key rv];
  ar_pre : pre' = pre ++ [JsonAbsent MEMORY_MUTATION_AUDIT_NAMESPACE key;
                          JsonAbsent MEMORY_MUTATION_RECEIPT_NAMESPACE key];
}.

Lemma encoded_ok {A} stage (r : string + A) a : encoded stage r = Ok a → r = inr a.
Proof. destruct r; cbn; [done|]. by intros [= ->]. Qed.

Lemma unit_ok (r : result unit) u : r = Ok u → r = Ok tt.
Proof. by destruct u. Qed.

Lemma append_records_some b pre op t b' pre' :
  append_mutation_operation_records b pre (Some op) t = Ok (b', pre') →
  ∃ audit receipt av rv,
    appended_records b pre op (operation_storage_key (op_identity op)) b' pre' audit receipt av rv.
Proof.
  intros H. unfold append_mutation_operation_records in H. inv_ok.
  unfold audit_new, mutation_receipt_new in *. inv_ok. split_bool.
  repeat match goal with H : encoded _ _ = Ok _ |- _ => apply encoded_ok in H end.
  eexists _, _, _, _. split;
    [done|by eapply unit_ok|by eapply unit_ok| |done..|by eexists|done|done|done|done].
  unfold same_binding. cbn. rewrite !String.eqb_refl, !N.eqb_refl.
  by rewrite !bool_decide_eq_true_2.
Qed.

Lemma append_records_none b pre t b' pre' :
  append_mutation_operation_records b pre None t = Ok (b', pre') →
  b' = b ∧ pre' = pre ∧ existsb (touches_namespace is_operation_namespace) (batch_mutations b) = false.
Proof.
  unfold append_mutation_operation_records. intros H. inv_ok. by split_bool.
Qed.

(** A commit leaves the records of an operation alone, or writes both of them
    where there were none. *)
Lemma governed_commit_records b pre bpre op now s :
  match commit_governed_memory_transaction b pre bpre op now s with
  | (Err _, s') => ∀ a, platform_doc s' a = platform_doc s a
  | (Ok _, s') =>
      match op with
      | None => ∀ a, is_operation_namespace a.1 = true → platform_doc s' a = platform_doc s a
      | Some op =>
          let key := operation_storage_key (op_identity op) in
          (∀ a, is_operation_namespace a.1 = true → a.2 ≠ key → platform_doc s' a = platform_doc s a)
          ∧ platform_doc s (receipt_address key) = None ∧ platform_doc s (audit_address key) = None
          ∧ ∃ b0 pre0 b' pre' audit receipt av rv,
            platform_closures b pre (Some op) now s = Ok (b0, pre0)
            ∧ appended_records b0 pre0 op key b' pre' audit receipt av rv
            ∧ platform_doc s' (receipt_address key) = Some rv
            ∧ platform_doc s' (audit_address key) = Some av
      end
  end.
Proof.
  unfold commit_governed_memory_transaction.
  destruct (platform_closures b pre op now s) as [[b0 pre0]|] eqn:Hcl; [|done].
  cbn -[append_mutation_operation_records].
  destruct (append_mutation_operation_records _ _ _ _) as [[b' pre']|] eqn:Happ; [|done].
  destruct (validate_mutation_operation_closure _ _ _) as [[]|]; [|done].
  pose proof (platform_commit_law b' pre' bpre now s) as Hl.
  destruct (platform_commit _ _ _ _ _) as [[[]|] s']; [|done]. destruct Hl as [Hpre Hdoc].
  destruct op as [op|].
  - apply append_records_some in Happ as (audit & receipt & av & rv & Ha). 
    set (key := operation_storage_key _) in *. clearbody key.
    assert (∀ a, is_operation_namespace a.1 = true →
              platform_doc s' a
              = mutated [put_operation_record MEMORY_MUTATION_AUDIT_NAMESPACE key av;
                         put_operation_record MEMORY_MUTATION_RECEIPT_NAMESPACE key rv] a
                  (platform_doc s a)) as Hop.
    { intros a Hns. rewrite Hdoc by (unfold owned_namespace; by rewrite Hns).
      rewrite (ar_batch _ _ _ _ _ _ _ _ _ _ Ha), mutated_app.
      by rewrite (mutated_other is_operation_namespace (batch_mutations b0) a _
                    (ar_unprotected _ _ _ _ _ _ _ _ _ _ Ha) Hns). }
    rewrite (ar_pre _ _ _ _ _ _ _ _ _ _ Ha) in Hpre.
    split_and!.
    + intros a Hns Hne. rewrite (Hop a Hns). cbn.
      rewrite !decide_False by (intros ->; by apply Hne). done.
    + apply (Hpre (JsonAbsent MEMORY_MUTATION_RECEIPT_NAMESPACE key)). set_solver.
    + apply (Hpre (JsonAbsent MEMORY_MUTATION_AUDIT_NAMESPACE key)). set_solver.
    + eexists _, _, _, _, _, _, _, _. split_and!; [done|exact Ha|rewrite Hop by done..].
      * cbn. by rewrite decide_True.
      * cbn. rewrite decide_False by (intros [=]). by rewrite decide_True.
  - apply append_records_none in Happ as (-> & -> & Hun). intros a Hns.
    rewrite Hdoc by (unfold owned_namespace; by rewrite Hns).
    by rewrite (mutated_other is_operation_namespace).
Qed.

(** Executions: commits of any kind, by anyone.  The list holds the storage keys
    of the operations whose commits succeeded, latest first. *)
Inductive executes (s : S) : list string → S → Prop :=
| executes_refl : executes s [] s
| executes_commit ks s1 b pre bpre op now s2 r :
    executes s ks s1 →
    commit_governed_memory_transaction b pre bpre op now s1 = (r, s2) →
    executes s (match r, op with
                | Ok _, Some op => [operation_storage_key (op_identity op)]
                | _, _ => []
                end ++ ks) s2.

Lemma executes_keeps s ks s' a v :
  executes s ks s' → is_operation_namespace a.1 = true →
  platform_doc s a = Some v → platform_doc s' a = Some v.
Proof.
  intros H Hns Hv. induction H as [|ks s1 b pre bpre op now s2 r H IH Hc]; [done|].
  pose proof (governed_commit_records b pre bpre op now s1) as Hr. rewrite Hc in Hr.
  destruct r; [|by rewrite Hr]. destruct op as [op|]; [|by rewrite Hr].
  destruct Hr as (Hother & Hnr & Hna & _).
  destruct (decide (a.2 = operation_storage_key (op_identity op))) as [Heq|];
    [|by rewrite Hother].
  destruct a as [ns k]; cbn in *; subst k. unfold is_operation_namespace in Hns.
  apply orb_true_iff in Hns as [Hns|Hns]; apply String.eqb_eq in Hns as ->; congruence.
Qed.

Lemma operations_stored s ks s' :
  executes s ks s' →
  NoDup ks ∧ ∀ k, k ∈ ks → is_Some (platform_doc s' (receipt_address k))
                           ∧ is_Some (platform_doc s' (audit_address k)).
Proof.
  induction 1 as [|ks s1 b pre bpre op now s2 r H [Hnd IH] Hc].
  { split; [constructor|]. by intros k Hk%not_elem_of_nil. }
  assert (∀ k, k ∈ ks → is_Some (platform_doc s2 (receipt_address k))
                        ∧ is_Some (platform_doc s2 (audit_address k))) as Hkeep.
  { intros k Hk. destruct (IH k Hk) as [[v Hv] [w Hw]].
    assert (executes s1 (match r, op with
                         | Ok _, Some op => [operation_storage_key (op_identity op)]
                         | _, _ => []
                         end ++ []) s2) as Hstep by (by econstructor; [constructor|]).
    by split; eexists; eapply (executes_keeps _ _ _ _ _ Hstep). }
  pose proof (governed_commit_records b pre bpre op now s1) as Hr. rewrite Hc in Hr.
  destruct r; [|done]. destruct op as [op|]; [|done].
  destruct Hr as (_ & Hnr & _ & b0 & pre0 & b' & pre' & au & re & av & rv & _ & _ & Hrv & Hav). cbn. split.
  - constructor; [|done]. intros Hin. destruct (IH _ Hin) as [[v Hv] _]. congruence.
  - intros k [->|Hk]%elem_of_cons; [|by apply Hkeep]. rewrite Hrv, Hav. eauto.
Qed.

Lemma executes_trans s ks s1 ks' s2 :
  executes s ks s1 → executes s1 ks' s2 → executes s (ks' ++ ks) s2.
Proof.
  intros H1 H2. induction H2 as [|ks' s2 b pre bpre op now s3 r H IH Hc]; [done|].
  rewrite <- app_assoc. by eapply executes_commit.
Qed.

(** C16: In every execution each operation, identified by its storage key, has
    at most one successful commit, whoever submits it and however the
    submissions interleave with other commits.  That commit finds neither
    record, and stores a receipt and an audit record that decode to valid
    records bound to each other, with the identity, the intent, the effect, the
    changed count, the actor, the time and the transaction of the operation and
    the digest of the mutations that were committed; the two documents stay
    what they are ever after. *)
Theorem operations_commit_once s ks s1 b pre bpre op now u s2 :
  executes s ks s1 →
  commit_governed_memory_transaction b pre bpre (Some op) now s1 = (Ok u, s2) →
  let key := operation_storage_key (op_identity op) in
  platform_doc s1 (receipt_address key) = None ∧ platform_doc s1 (audit_address key) = None
  ∧ ∃ rv av r a b0 pre0 plan, receipt_from_value rv = inr r ∧ audit_from_value av = inr a
    ∧ receipt_validate r = Ok tt ∧ audit_validate a = Ok tt ∧ same_binding a r = true
    ∧ mr_identity r = op_identity op ∧ mr_intent_digest r = op_intent_digest op
    ∧ mr_effect r = op_effect op ∧ mr_changed_count r = op_changed_count op
    ∧ ma_actor_subject_id a = op_actor_subject_id op
    ∧ mr_committed_at_unix_secs r = op_committed_at_unix_secs op
    ∧ mr_transaction_id r = op_transaction_id op
    ∧ platform_closures b pre (Some op) now s1 = Ok (b0, pre0)
    ∧ effect_plan_to_vec (batch_transaction_id b0) (batch_operation b0) (batch_scope b0)
        (batch_mutations b0) = inr plan
    ∧ mr_effect_plan_digest r = operation_digest "memory_mutation_effect_plan_v1" [plan]
    ∧ ∀ ks' s', executes s2 ks' s' →
        NoDup (ks' ++ key :: ks)
        ∧ platform_doc s' (receipt_address key) = Some rv
        ∧ platform_doc s' (audit_address key) = Some av.
Proof.
  intros Hex Hc key. pose proof (governed_commit_records b pre bpre (Some op) now s1) as Hr.
  rewrite Hc in Hr.
  destruct Hr as (_ & Hnr & Hna & b0 & pre0 & b' & pre' & au & re & av & rv & Hcl & Ha & Hrv & Hav).
  split_and!; [done..|]. destruct Ha as [_ Hva Hvr Hb Hi Hin Htx He Hn Ht Hac (plan & Hp & Hpd) Hav' Hrv' _ _].
  exists rv, av, re, au, b0, pre0, plan.
  split_and!; try done; [by apply receipt_round_trip|by apply audit_round_trip|].
  intros ks' s' Hex'. split_and!; [|by apply (executes_keeps _ _ _ _ _ Hex')..].
  pose proof (executes_commit _ _ _ _ _ _ _ _ _ _ Hex Hc) as Hex2. cbn in Hex2.
  apply (operations_stored s _ s'). by eapply executes_trans.
Qed.

(** Receipts and audit records exist in pairs that bind the same commit. *)
Definition paired (s : S) : Prop := ∀ key,
  match platform_doc s (receipt_address key), platform_doc s (audit_address key) with
  | None, None => True
  | Some rv, Some av => ∃ r a, receipt_from_value rv = inr r ∧ audit_from_value av = inr a
      ∧ receipt_validate r = Ok tt ∧ audit_validate a = Ok tt ∧ same_binding a r = true
  | _, _ => False
  end.

Lemma paired_commit b pre bpre op now s r s' :
  commit_governed_memory_transaction b pre bpre op now s = (r, s') → paired s → paired s'.
Proof.
  intros Hc Hp key. specialize (Hp key).
  pose proof (governed_commit_records b pre bpre op now s) as Hr. rewrite Hc in Hr.
  destruct r; [|by rewrite !Hr]. destruct op as [op|]; [|by rewrite !Hr].
  destruct Hr as (Hother & Hnr & Hna & b0 & pre0 & b' & pre' & au & re & av & rv & _ & Ha & Hrv & Hav).
  destruct (decide (key = operation_storage_key (op_identity op))) as [->|];
    [|by rewrite !Hother].
  rewrite Hrv, Hav. exists re, au. split_and!.
  - apply receipt_round_trip, (ar_rv _ _ _ _ _ _ _ _ _ _ Ha).
  - apply audit_round_trip, (ar_av _ _ _ _ _ _ _ _ _ _ Ha).
  - apply (ar_receipt _ _ _ _ _ _ _ _ _ _ Ha).
  - apply (ar_audit _ _ _ _ _ _ _ _ _ _ Ha).
  - apply (ar_binding _ _ _ _ _ _ _ _ _ _ Ha).
Qed.

Lemma paired_executes s ks s' : executes s ks s' → paired s → paired s'.
Proof. induction 1; [done|]. intros Hp. eapply paired_commit; [eassumption|auto]. Qed.

(** Loading an operation whose records are stored. *)
Lemma load_stored s identity intent rv r :
  paired s → platform_doc s (receipt_address (operation_storage_key identity)) = Some rv →
  receipt_from_value rv = inr r →
  platform_refuses s [receipt_address (operation_storage_key identity);
                      audit_address (operation_storage_key identity)] = None →
  operation_identity_validate identity = Ok tt → canonical_sha256 intent = true →
  load_committed_mutation_operation_parts s identity (Some intent)
  = if bool_decide (mr_identity r = identity) && String.eqb (mr_intent_digest r) intent
    then Ok (Some r) else Err replay_conflict.
Proof.
  intros Hp Hrv Hr Href Hid Hin. specialize (Hp (operation_storage_key identity)).
  rewrite Hrv in Hp. destruct (platform_doc s (audit_address _)) as [av|] eqn:Hav; [|done].
  destruct Hp as (r' & a & Hr' & Ha & Hvr & Hva & Hb).
  assert (r' = r) as -> by congruence. clear Hr'.
  unfold load_committed_mutation_operation_parts, platform_read. rewrite Href.
  cbn -[map_err classify_replay]. rewrite Hrv, Hav. cbn -[map_err classify_replay].
  rewrite Hr, Ha. cbn -[map_err classify_replay]. unfold classify_replay.
  rewrite Hvr, Hid. unfold validate_sha256_digest. rewrite Hin. cbn.
  destruct (_ && _); cbn; [|done]. rewrite Hva. cbn. by rewrite Hb.
Qed.

(** C40: Once an operation is committed, every later submission of it, in any
    state the store can reach, replays the receipt of that one commit when it
    has the same intent, is a conflict when it has another, and changes
    nothing. *)
Theorem resubmission_replays s ks s0 later b pre bpre op s1 :
  paired s → executes s ks s0 → operation_storage_key (op_identity op) ∈ ks →
  platform_refuses s0 [receipt_address (operation_storage_key (op_identity op));
                       audit_address (operation_storage_key (op_identity op))] = None →
  operation_identity_validate (op_identity op) = Ok tt →
  canonical_sha256 (op_intent_digest op) = true →
  scope_memory_space_id (batch_scope b) = oi_memory_space_id (op_identity op) →
  scope_subject_id (batch_scope b) = oi_mounted_subject_id (op_identity op) →
  batch_transaction_id b = op_transaction_id op →
  ∃ rv r, platform_doc s0 (receipt_address (operation_storage_key (op_identity op))) = Some rv
    ∧ receipt_from_value rv = inr r
    ∧ commit_memory_mutation_operation s0 later b pre bpre op s1
      = (if bool_decide (mr_identity r = op_identity op)
            && String.eqb (mr_intent_digest r) (op_intent_digest op)
         then Ok (OperationReplayed r) else Err replay_conflict, s1).
Proof.
  intros Hp Hex Hin Href Hid Hint Hspace Hsubject Htx.
  pose proof (paired_executes _ _ _ Hex Hp) as Hp0.
  destruct (operations_stored _ _ _ Hex) as [_ Hst].
  destruct (Hst _ Hin) as [[rv Hrv] _]. pose proof (Hp0 (operation_storage_key (op_identity op))) as H.
  rewrite Hrv in H. destruct (platform_doc s0 (audit_address _)); [|done].
  destruct H as (r & a & Hr & _). exists rv, r. split_and!; [done..|].
  unfold commit_memory_mutation_operation. rewrite Hid. cbn -[load_committed_mutation_operation_parts].
  rewrite Hspace, Hsubject, Htx, !String.eqb_refl. cbn -[load_committed_mutation_operation_parts].
  rewrite (load_stored s0 _ _ rv r) by done. by destruct (_ && _).
Qed.

End OperationProps.
