(* ===== verification/GovernanceJobs.v ===== *)
(** * Post-turn governance: the durable job queue

    Model of [crates/sdk/src/store_internal/post_turn_governance.rs] (and of
    the semantic halves of [ensure_post_turn_learning_intents], with its source
    fence, and of [plan_transcript_learning_lifecycle] in
    [procedural_feedback.rs]): how jobs are created, claimed under a lease,
    renewed, retried, blocked, resumed, cancelled, failed and completed, and
    cancelled when their turns are withdrawn.
    An operation reads documents through a [view], which may be out of date,
    and commits under preconditions on everything it read. *)

From S2P Require Import Prelude Errors RustStr RustOrd Governed StoreTypes StoreTransaction ReadSession LongTermVersion TurnTypes Transcript GovernanceTypes MutationOperation.

Local Open Scope string_scope.
Local Open Scope list_scope.
Local Open Scope N_scope.

(** ** Encodings and collaborators *)

(** Encodings of [serde_json] the queue uses besides those of its documents, the
    standard library's hash of a string, and the effect a memory plan with
    method materials has on the owners of methods, which are another component
    (the second half of [derive_method_application]). *)
Class QueueCodec `{codec : StoreCodec} `{learning : LearningEvidence} := {
  turn_record_to_value : TranscriptTurnRecord → string + Value;
  turn_record_from_value : Value → string + TranscriptTurnRecord;
  turn_record_to_vec : TranscriptTurnRecord → string + bytes;
  str_hash_hex : string → string;
  memory_plan_to_vec : list StoreMutation → list StoreJsonPrecondition → string + bytes;
  memory_mutations_to_vec : list StoreMutation → string + bytes;
  completion_id_to_vec : string → N → string + bytes;
  derive_applied_methods :
    (address → result (option Value)) → PostTurnGovernanceJobV4 → list StoreMutation
    → list StoreJsonPrecondition
    → result (PostTurnGovernanceMethodApplicationV1 * list StoreJsonPrecondition);
}.

Definition AGENT_TOOL_EXPERIENCE_MATERIAL_NAMESPACE : string :=
  "agent_tool_experience_revision_materials".
Definition GOVERNANCE_RETRY_BASE_SECS : N := 5.
Definition GOVERNANCE_RETRY_MAX_SECS : N := 300.

Section Jobs.
Context `{gcodec : GovernanceCodec} {ocodec : OperationCodec}.
Context {learning : LearningEvidence} {qcodec : QueueCodec}.

(** What an operation reads: the answer to each known-key read. *)
Definition view : Type := address → result (option Value).

Abbreviation Job := PostTurnGovernanceJobV4.
Abbreviation Index := PostTurnGovernanceScopeIndexV4.

(** ** Reads *)

Definition read_job (v : view) (job_id : string) : result (option Job) :=
  doc ← v (POST_TURN_GOVERNANCE_JOB_NAMESPACE, job_id);
  decoded "post_turn_governance_read" job_from_value doc.

Definition read_scope_index (v : view) (key : string) : result (option Index) :=
  doc ← v (POST_TURN_GOVERNANCE_SCOPE_INDEX_NAMESPACE, key);
  decoded "post_turn_governance_read" index_from_value doc.

Definition binding_snapshot_key (binding_id : string) (revision : N) : string :=
  binding_id +:+ ":" +:+ pretty revision.

Definition read_binding_snapshot (v : view) (binding_id : string) (revision : N)
    : result (option PostTurnGovernanceBindingSnapshotV1) :=
  _ ← ensure (negb (blank binding_id || (revision =? 0)))
        (InvalidInput "post_turn_governance_binding_snapshot"
           "binding identity and revision are required");
  doc ← v (POST_TURN_GOVERNANCE_BINDING_SNAPSHOT_NAMESPACE, binding_snapshot_key binding_id revision);
  snapshot ← decoded "post_turn_governance_binding_snapshot" snapshot_from_value doc;
  match snapshot with
  | None => Ok None
  | Some s => _ ← snapshot_validate s; Ok (Some s)
  end.

Definition read_binding_revision_index (v : view) (binding_id : string)
    : result (option PostTurnGovernanceBindingRevisionIndexV1) :=
  _ ← ensure (negb (not_exact binding_id))
        (InvalidInput "post_turn_governance_binding_revision_index"
           "canonical binding identity is required");
  doc ← v (POST_TURN_GOVERNANCE_BINDING_REVISION_INDEX_NAMESPACE, binding_id);
  index ← decoded "post_turn_governance_binding_revision_index" revision_index_from_value doc;
  match index with
  | None => Ok None
  | Some x => _ ← revision_index_validate x; Ok (Some x)
  end.

(** [.ok_or_else(|| e)?] *)
Definition require {A} (e : Error) (r : result (option A)) : result A :=
  o ← r;
  match o with Some a => Ok a | None => Err e end.

(** ** Preconditions and mutations *)

Definition put_json (ns key : string) (v : Value) : StoreMutation :=
  DeclPutJson ns key v MemoryMaintenance "post_turn_governance" key.

Definition transaction_stage : string := "post_turn_governance_transaction".

Definition json_precondition {A} (encode : A → string + Value) (ns key : string) (value : option A)
    : result StoreJsonPrecondition :=
  match value with
  | Some a => v ← encoded transaction_stage (encode a); Ok (JsonExact ns key v)
  | None => Ok (JsonAbsent ns key)
  end.

(** [merge_completion_preconditions]: one precondition per address, in the order
    of the addresses. *)
Definition merge_completion_step (m : gmap address StoreJsonPrecondition) (p : StoreJsonPrecondition)
    : result (gmap address StoreJsonPrecondition) :=
  match m !! json_precondition_address p with
  | Some existing =>
      _ ← ensure (bool_decide (existing = p))
            (Conflict "post_turn_governance_complete"
               "memory plan contains conflicting JSON preconditions");
      Ok m
  | None => Ok (<[json_precondition_address p := p]> m)
  end.

Definition merge_completion_preconditions (target incoming : list StoreJsonPrecondition)
    : result (list StoreJsonPrecondition) :=
  m ← try_fold merge_completion_step ∅ (target ++ incoming);
  Ok (btree_map_iter m).*2.

(** ** The scope index *)

Definition ref_is (job_id : string) (r : PostTurnGovernanceJobRefV2) : bool :=
  String.eqb (rf_job_id r) job_id.

Definition find_ref (x : Index) (job_id : string) : option PostTurnGovernanceJobRefV2 :=
  List.find (ref_is job_id) (ix_active_jobs x).

(** The reference of the job is present and up to date. *)
Definition check_ref (stage missing differs : string) (x : Index) (before_job : Job)
    : result unit :=
  match find_ref x (jb_job_id before_job) with
  | None => Err (Config stage missing)
  | Some r => ensure (rf_state_revision r =? jb_state_revision before_job) (Conflict stage differs)
  end.

Definition missing_ref : string := "scope index is missing the governance job ref".
Definition stale_ref : string := "scope index job revision differs from job authority".

Definition replace_scope_index_ref (x : Index) (before_job after_job : Job) (stage : string)
    : result Index :=
  _ ← check_ref stage missing_ref stale_ref x before_job;
  Ok (set_active_jobs (replace_first (ref_is (jb_job_id before_job)) (ref_from_job after_job)
                         (ix_active_jobs x)) x).

(** [active_jobs.retain(|reference| reference.job_id != id)] *)
Definition drop_active (job_id : string) (x : Index) : Index :=
  set_active_jobs (List.filter (λ r, negb (ref_is job_id r)) (ix_active_jobs x)) x.

(** Newest first, then by identifier. *)
Definition terminal_order (a b : PostTurnGovernanceJobRefV2) : bool :=
  leb (Reverse (rf_updated_at a), rf_job_id a) (Reverse (rf_updated_at b), rf_job_id b).

Definition append_terminal_ref (x : Index) (job : Job) (stage : string) : result Index :=
  _ ← ensure (status_is_terminal (jb_status job))
        (Config stage "terminal index ref requires terminal job");
  _ ← ensure (len (ix_recent_terminal_jobs x) <? MAX_POST_TURN_GOVERNANCE_RECENT_TERMINAL_JOBS)
        (Config stage "governance terminal-receipt retention is exhausted");
  _ ← ensure (negb (existsb (ref_is (jb_job_id job)) (ix_recent_terminal_jobs x)))
        (Conflict stage "scope index already contains the terminal governance job ref");
  Ok (set_recent_terminal_jobs
        (sort_by terminal_order (ix_recent_terminal_jobs x ++ [ref_from_job job])) x).

(** Oldest first, then by identifier. *)
Definition active_order (a b : PostTurnGovernanceJobRefV2) : bool :=
  leb (rf_created_at a, rf_job_id a) (rf_created_at b, rf_job_id b).

(** [checked_add(1).ok_or_else(..)] *)
Definition increment (limit : N) (e : Error) (n : N) : result N :=
  if n + 1 <=? limit then Ok (n + 1) else Err e.

(** The end of every change of an index. *)
Definition bump_index (stage message : string) (now_secs : N) (x : Index) : result Index :=
  revision ← increment u64_max (Config stage message) (ix_index_revision x);
  let x := set_index_revision revision now_secs x in
  _ ← index_validate x;
  Ok x.

Definition scope_overflow : string := "governance scope index revision overflow".

(** ** Binding references *)

(** [revision.referenced = true] on the first entry of the revision. *)
Definition mark_referenced (revision : N) (l : list PostTurnGovernanceBindingRevisionRefV1)
    : list PostTurnGovernanceBindingRevisionRefV1 :=
  match List.find (λ r, br_binding_revision r =? revision) l with
  | Some r => replace_first (λ r, br_binding_revision r =? revision)
                (mkRevisionEntry (br_binding_revision r) (br_canonical_digest r)
                   (br_created_at r) true) l
  | None => l
  end.

Definition reference_error (message : string) : Error :=
  Config "post_turn_governance_binding_reference" message.

Definition append_binding_reference_mutation (v : view)
    (binding : PostTurnGovernanceExecutionBindingV1) (now_secs : N)
    (acc : list StoreMutation * list StoreJsonPrecondition)
    : result (list StoreMutation * list StoreJsonPrecondition) :=
  match binding with
  | Unbound => Ok acc
  | Bound binding_id binding_revision =>
      let '(mutations, preconditions) := acc in
      snapshot ← require
        (reference_error "bound governance job is missing its immutable binding snapshot")
        (read_binding_snapshot v binding_id binding_revision);
      before ← require
        (reference_error "bound governance job is missing its binding revision index")
        (read_binding_revision_index v binding_id);
      revision ← require
        (reference_error "binding revision index is missing the bound revision")
        (Ok (List.find (λ r, br_binding_revision r =? binding_revision) (bx_revisions before)));
      _ ← ensure (String.eqb (br_canonical_digest revision) (bs_canonical_digest snapshot))
            (reference_error "binding revision index digest differs from the immutable snapshot");
      p1 ← json_precondition snapshot_to_value POST_TURN_GOVERNANCE_BINDING_SNAPSHOT_NAMESPACE
             (snapshot_storage_key snapshot) (Some snapshot);
      p2 ← json_precondition revision_index_to_value
             POST_TURN_GOVERNANCE_BINDING_REVISION_INDEX_NAMESPACE binding_id (Some before);
      let preconditions := preconditions ++ [p1; p2] in
      if br_referenced revision then Ok (mutations, preconditions)
      else
        index_revision ← increment u64_max
          (reference_error "binding revision index revision overflow") (bx_index_revision before);
        let after := mkRevisionIndex (bx_schema_version before) (bx_binding_id before)
          (bx_source_owner_id before) (bx_source_config_id before)
          (mark_referenced binding_revision (bx_revisions before)) index_revision now_secs in
        _ ← revision_index_validate after;
        value ← encoded "post_turn_governance_binding_reference" (revision_index_to_value after);
        Ok (mutations ++ [put_json POST_TURN_GOVERNANCE_BINDING_REVISION_INDEX_NAMESPACE
                            binding_id value], preconditions)
  end.

(** ** Transitions of a job *)

(** What a transition plans to commit. *)
Record job_transition := mkTransition {
  jt_before_job : Job;
  jt_after_job : Job;
  jt_before_index : Index;
  jt_after_index : Index;
  jt_extra_mutations : list StoreMutation;
  jt_extra_preconditions : list StoreJsonPrecondition;
}.

Definition missing_job (stage : string) : Error := NotFound stage "governance job not found".
Definition missing_index (stage : string) : Error :=
  Config stage "governance job is missing its exact scope index".
Definition missing_runtime_index (stage : string) : Error :=
  Config stage "governance job is missing its runtime scope index".
Definition revision_overflow (stage : string) : Error := Config stage "job state revision overflow".

(** The job is leased to the owner at the epoch and the lease has not expired. *)
Definition holds_lease (j : Job) (lease_owner : string) (lease_epoch now_secs : N) : bool :=
  bool_decide (jb_status j = Leased) && bool_decide (jb_lease_owner j = Some lease_owner)
  && (jb_lease_epoch j =? lease_epoch)
  && match jb_lease_until j with Some until => now_secs <? until | None => false end.

(** The rest of a transition that keeps the job active. *)
Definition active_transition (stage : string) (now_secs : N) (before_job after_job : Job)
    (before_index : Index) : result job_transition :=
  _ ← job_validate after_job;
  after_index ← replace_scope_index_ref before_index before_job after_job stage;
  after_index ← bump_index stage scope_overflow now_secs after_index;
  Ok (mkTransition before_job after_job before_index after_index [] []).

(** The rest of a transition that ends the job. *)
Definition terminal_transition (stage missing differs : string) (now_secs : N)
    (before_job after_job : Job) (before_index : Index) : result job_transition :=
  _ ← job_validate after_job;
  _ ← check_ref stage missing differs before_index before_job;
  after_index ← append_terminal_ref (drop_active (jb_job_id before_job) before_index) after_job
                  stage;
  after_index ← bump_index stage scope_overflow now_secs after_index;
  Ok (mkTransition before_job after_job before_index after_index [] []).

(** *** Claim *)

Definition is_blocked (s : PostTurnGovernanceJobStatusV2) : bool :=
  match s with BlockedConfiguration | BlockedCapability | BlockedPolicy => true | _ => false end.

Definition unbound_adoption (j : Job) : bool :=
  bool_decide (jb_status j = BlockedConfiguration)
  && bool_decide (jb_execution_binding j = Unbound)
  && negb (is_some (jb_attempt_authority j))
  && match jb_execution_block_authority j with
     | Some block => bool_decide (ba_typed_block_reason block = BindingUnavailable)
     | None => false
     end.

Definition lease_active (j : Job) (now_secs : N) : bool :=
  bool_decide (jb_status j = Leased)
  && match jb_lease_until j with Some until => now_secs <? until | None => false end.

Definition not_yet_eligible (j : Job) (now_secs : N) : bool :=
  (is_blocked (jb_status j) && negb (unbound_adoption j))
  || match jb_next_attempt_at j with Some at_secs => now_secs <? at_secs | None => false end.

Definition claimed_job (before_job : Job) (lease_owner : string) (lease_until : N)
    (authority : PostTurnGovernanceAttemptAuthorityV3) (revision attempts epoch now_secs : N) : Job :=
  set_updated_at now_secs
    (set_blocking_reason None
       (set_execution_block_authority None
          (set_attempt_authority (Some authority)
             (set_execution_binding
                (Bound (at_binding_id authority) (at_binding_revision authority))
                (set_next_attempt_at None
                   (set_lease_until (Some lease_until)
                      (set_lease_owner (Some lease_owner)
                         (set_lease_epoch epoch
                            (set_attempt_count attempts
                               (set_state_revision revision
                                  (set_status Leased before_job))))))))))).

Definition claim_plan (v : view) (job_id lease_owner : string) (lease_until : N)
    (authority : PostTurnGovernanceAttemptAuthorityV3) (now_secs : N) : result job_transition :=
  let stage := "post_turn_governance_claim" in
  _ ← attempt_authority_validate authority;
  _ ← ensure (negb (blank lease_owner || (lease_until <=? now_secs)))
        (InvalidInput stage "lease owner and future lease deadline are required");
  before_job ← require (missing_job stage) (read_job v job_id);
  _ ← ensure (negb (lease_active before_job now_secs))
        (Conflict stage "governance job already has an active lease");
  _ ← ensure (negb (status_is_terminal (jb_status before_job)
                    || (jb_max_attempts before_job <=? jb_attempt_count before_job)))
        (Conflict stage "governance job is not claimable");
  _ ← ensure (negb (not_yet_eligible before_job now_secs))
        (Conflict stage "governance job is not yet eligible for claim");
  _ ← ensure match jb_attempt_authority before_job with
             | Some pinned => bool_decide (pinned = authority)
             | None => true
             end (Conflict stage "retry attempt authority differs from the first claim");
  _ ← ensure match jb_execution_binding before_job with
             | Unbound => true
             | Bound id revision => String.eqb id (at_binding_id authority)
                                    && (revision =? at_binding_revision authority)
             end (Conflict stage "execution binding differs from the durable job authority");
  before_index ← require (missing_index stage) (read_scope_index v (jb_scope_index_key before_job));
  revision ← increment u64_max (revision_overflow stage) (jb_state_revision before_job);
  attempts ← increment u32_max (Config stage "job attempt count overflow")
               (jb_attempt_count before_job);
  epoch ← increment u64_max (Config stage "job lease epoch overflow") (jb_lease_epoch before_job);
  let after_job := claimed_job before_job lease_owner lease_until authority revision attempts epoch
                     now_secs in
  t ← active_transition stage now_secs before_job after_job before_index;
  if bool_decide (jb_execution_binding before_job = Unbound) then
    extra ← append_binding_reference_mutation v (jb_execution_binding after_job) now_secs ([], []);
    Ok (mkTransition before_job after_job before_index (jt_after_index t) extra.1 extra.2)
  else Ok t.

(** *** Renew *)

Definition renew_plan (v : view) (job_id lease_owner : string) (lease_epoch lease_until now_secs : N)
    : result job_transition :=
  let stage := "post_turn_governance_renew" in
  before_job ← require (missing_job stage) (read_job v job_id);
  _ ← ensure (holds_lease before_job lease_owner lease_epoch now_secs)
        (Conflict stage "renew authority differs from the active unexpired lease");
  _ ← ensure (default 0 (jb_lease_until before_job) <? lease_until)
        (InvalidInput stage "renewed lease deadline must strictly extend the current lease");
  before_index ← require (missing_index stage) (read_scope_index v (jb_scope_index_key before_job));
  revision ← increment u64_max (revision_overflow stage) (jb_state_revision before_job);
  let after_job := set_updated_at now_secs
                     (set_lease_until (Some lease_until) (set_state_revision revision before_job)) in
  active_transition stage now_secs before_job after_job before_index.

(** *** Retry *)

(** [base.saturating_mul(1 << exponent).min(max)], the exponent at most 31. *)
Definition retry_delay (attempt_count : N) : N :=
  let exponent := N.min (attempt_count - 1) 31 in
  N.min (saturating_mul GOVERNANCE_RETRY_BASE_SECS (N.shiftl 1 exponent)) GOVERNANCE_RETRY_MAX_SECS.

Definition released (revision now_secs : N) (e : PostTurnGovernanceErrorClassV2) (j : Job) : Job :=
  set_updated_at now_secs
    (set_last_error_class (Some e)
       (set_execution_block_authority None
          (set_lease_until None (set_lease_owner None (set_state_revision revision j))))).

Definition retry_plan (v : view) (job_id lease_owner : string) (lease_epoch : N)
    (error_class : PostTurnGovernanceErrorClassV2) (now_secs : N) : result job_transition :=
  let stage := "post_turn_governance_retry" in
  _ ← ensure (job_error_is_retryable error_class)
        (InvalidInput stage "non-retryable errors must use a terminal transition");
  before_job ← require (missing_job stage) (read_job v job_id);
  _ ← ensure (holds_lease before_job lease_owner lease_epoch now_secs)
        (Conflict stage "retry authority differs from the active lease");
  before_index ← require (missing_index stage) (read_scope_index v (jb_scope_index_key before_job));
  revision ← increment u64_max (revision_overflow stage) (jb_state_revision before_job);
  let j := released revision now_secs error_class before_job in
  if jb_max_attempts j <=? jb_attempt_count j then
    let after_job := set_terminal_at (Some now_secs)
                       (set_blocking_reason (Some "retry_attempts_exhausted")
                          (set_next_attempt_at None (set_status DeadLetter j))) in
    terminal_transition stage missing_ref stale_ref now_secs before_job after_job before_index
  else
    let after_job :=
      set_terminal_at None
        (set_blocking_reason (Some "retry_backoff")
           (set_next_attempt_at
              (Some (saturating_add now_secs (retry_delay (jb_attempt_count j))))
              (set_status RetryWaiting j))) in
    active_transition stage now_secs before_job after_job before_index.

(** *** Block *)

Definition blocked_job (before_job : Job) (status : PostTurnGovernanceJobStatusV2) (reason : string)
    (authority : option PostTurnGovernanceExecutionBlockAuthorityV1) (revision now_secs : N) : Job :=
  set_updated_at now_secs
    (set_last_error_class None
       (set_blocking_reason (Some reason)
          (set_execution_block_authority authority
             (set_lease_until None
                (set_lease_owner None
                   (set_next_attempt_at None
                      (set_state_revision revision (set_status status before_job)))))))).

Definition block_request_error (stage : string) : Error :=
  InvalidInput stage "typed blocked status and reason are required".

(** [inl] when the job is already blocked for the reason. *)
Definition block_plan (v : view) (job_id : string) (status : PostTurnGovernanceJobStatusV2)
    (reason : string) (authority : option PostTurnGovernanceExecutionBlockAuthorityV1)
    (now_secs : N) : result (Job + job_transition) :=
  let stage := "post_turn_governance_block" in
  _ ← ensure (is_blocked status && negb (blank reason)) (block_request_error stage);
  before_job ← require (missing_job stage) (read_job v job_id);
  if bool_decide (jb_status before_job = status)
     && bool_decide (jb_blocking_reason before_job = Some reason)
  then Ok (inl before_job)
  else
    _ ← ensure (negb (status_is_terminal (jb_status before_job)
                      || bool_decide (jb_status before_job = Leased)))
          (Conflict stage "leased or terminal governance job cannot be blocked");
    before_index ← require (missing_runtime_index stage)
                     (read_scope_index v (jb_scope_index_key before_job));
    revision ← increment u64_max (revision_overflow stage) (jb_state_revision before_job);
    t ← active_transition stage now_secs before_job
          (blocked_job before_job status reason authority revision now_secs) before_index;
    Ok (inr t).

Definition block_claimed_plan (v : view) (job_id lease_owner : string) (lease_epoch : N)
    (status : PostTurnGovernanceJobStatusV2) (reason : string)
    (authority : option PostTurnGovernanceExecutionBlockAuthorityV1) (now_secs : N)
    : result job_transition :=
  let stage := "post_turn_governance_block_claimed" in
  _ ← ensure (is_blocked status && negb (blank reason)) (block_request_error stage);
  before_job ← require (missing_job stage) (read_job v job_id);
  _ ← ensure (holds_lease before_job lease_owner lease_epoch now_secs)
        (Conflict stage "blocked authority differs from the active lease");
  before_index ← require (missing_runtime_index stage)
                   (read_scope_index v (jb_scope_index_key before_job));
  revision ← increment u64_max (revision_overflow stage) (jb_state_revision before_job);
  active_transition stage now_secs before_job
    (blocked_job before_job status reason authority revision now_secs) before_index.

(** *** Resume *)

Definition resumed_job (before_job : Job) (revision now_secs : N) : Job :=
  set_updated_at now_secs
    (set_last_error_class None
       (set_blocking_reason None
          (set_execution_block_authority None
             (set_next_attempt_at (Some now_secs)
                (set_state_revision revision (set_status Pending before_job)))))).

Definition resume_plan (v : view) (job_id : string) (now_secs : N) : result job_transition :=
  let stage := "post_turn_governance_resume" in
  before_job ← require (missing_job stage) (read_job v job_id);
  _ ← ensure (is_blocked (jb_status before_job))
        (Conflict stage "only a blocked governance job can be resumed");
  before_index ← require (missing_runtime_index stage)
                   (read_scope_index v (jb_scope_index_key before_job));
  revision ← increment u64_max (revision_overflow stage) (jb_state_revision before_job);
  active_transition stage now_secs before_job (resumed_job before_job revision now_secs)
    before_index.

Definition credential_resume_plan (v : view) (job_id credential_ref_safe_id : string)
    (new_generation : N) (operation_id : string) (now_secs : N) : result job_transition :=
  let stage := "post_turn_governance_credential_resume" in
  _ ← ensure (negb (blank credential_ref_safe_id || (new_generation =? 0)
                    || not_exact operation_id))
        (InvalidInput stage "safe credential identity, generation, and operation id are required");
  before_job ← require (missing_job stage) (read_job v job_id);
  block ← require (Conflict stage "governance job has no durable execution block authority")
            (Ok (jb_execution_block_authority before_job));
  _ ← ensure (bool_decide (jb_status before_job = BlockedConfiguration)
              && is_credential_scoped (ba_typed_block_reason block)
              && bool_decide (ba_credential_ref_safe_id block = Some credential_ref_safe_id)
              && match ba_credential_generation block with
                 | Some generation => generation <? new_generation
                 | None => true
                 end)
        (Conflict stage
           "credential recovery authority does not advance the exact blocked generation");
  before_index ← require (missing_index stage) (read_scope_index v (jb_scope_index_key before_job));
  revision ← increment u64_max (revision_overflow stage) (jb_state_revision before_job);
  active_transition stage now_secs before_job (resumed_job before_job revision now_secs)
    before_index.

Definition permission_resume_plan (v : view) (job_id binding_id : string) (binding_revision
    new_generation : N) (operation_id : string) (now_secs : N) : result job_transition :=
  let stage := "post_turn_governance_permission_resume" in
  _ ← ensure (negb (not_exact binding_id || (binding_revision =? 0) || (new_generation =? 0)
                    || not_exact operation_id))
        (InvalidInput stage
           "exact binding, advanced permission generation, and operation id are required");
  before_job ← require (missing_job stage) (read_job v job_id);
  block ← require (Conflict stage "governance job has no durable execution block authority")
            (Ok (jb_execution_block_authority before_job));
  _ ← ensure (bool_decide (jb_status before_job = BlockedPolicy)
              && bool_decide (ba_typed_block_reason block = ProviderPermissionDenied)
              && bool_decide (ba_binding_id block = Some binding_id)
              && bool_decide (ba_binding_revision block = Some binding_revision)
              && match ba_provider_permission_generation block with
                 | Some generation => generation <? new_generation
                 | None => false
                 end
              && match jb_last_provider_permission_recovery_generation before_job with
                 | Some generation => generation <? new_generation
                 | None => true
                 end)
        (Conflict stage
           "permission recovery authority does not advance the exact blocked binding generation");
  before_index ← require (missing_index stage) (read_scope_index v (jb_scope_index_key before_job));
  revision ← increment u64_max (revision_overflow stage) (jb_state_revision before_job);
  let after_job := set_last_provider_permission_recovery_generation (Some new_generation)
                     (resumed_job before_job revision now_secs) in
  active_transition stage now_secs before_job after_job before_index.

(** *** Fail and cancel *)

Definition ended_job (before_job : Job) (status : PostTurnGovernanceJobStatusV2)
    (error_class : option PostTurnGovernanceErrorClassV2) (reason : option string)
    (revision now_secs : N) : Job :=
  set_terminal_at (Some now_secs)
    (set_updated_at now_secs
       (set_last_error_class error_class
          (set_blocking_reason reason
             (set_execution_block_authority None
                (set_lease_until None
                   (set_lease_owner None
                      (set_next_attempt_at None
                         (set_state_revision revision (set_status status before_job))))))))).

Definition fail_plan (v : view) (job_id lease_owner : string) (lease_epoch : N)
    (error_class : PostTurnGovernanceErrorClassV2) (reason : string) (now_secs : N)
    : result job_transition :=
  let stage := "post_turn_governance_fail" in
  _ ← ensure (negb (job_error_is_retryable error_class || blank reason))
        (InvalidInput stage "non-retryable error class and reason are required");
  before_job ← require (missing_job stage) (read_job v job_id);
  _ ← ensure (holds_lease before_job lease_owner lease_epoch now_secs)
        (Conflict stage "failure authority differs from the active lease");
  before_index ← require (missing_runtime_index stage)
                   (read_scope_index v (jb_scope_index_key before_job));
  revision ← increment u64_max (revision_overflow stage) (jb_state_revision before_job);
  terminal_transition stage "runtime scope index is missing the governance job ref"
    "runtime scope index job revision differs from job authority" now_secs before_job
    (ended_job before_job DeadLetter (Some error_class) (Some reason) revision now_secs)
    before_index.

(** [inl] when the job has ended already. *)
Definition cancel_plan (v : view) (job_id reason : string) (now_secs : N)
    : result (Job + job_transition) :=
  let stage := "post_turn_governance_cancel" in
  _ ← ensure (negb (blank reason)) (InvalidInput stage "cancellation reason is required");
  before_job ← require (missing_job stage) (read_job v job_id);
  if status_is_terminal (jb_status before_job) then Ok (inl before_job)
  else
    before_index ← require (missing_index stage)
                     (read_scope_index v (jb_scope_index_key before_job));
    revision ← increment u64_max (revision_overflow stage) (jb_state_revision before_job);
    t ← terminal_transition stage missing_ref stale_ref now_secs before_job
          (ended_job before_job JobCancelled None (Some reason) revision now_secs) before_index;
    Ok (inr t).

(** *** Completion *)

Definition is_governance_namespace (ns : string) : bool :=
  String.eqb ns POST_TURN_GOVERNANCE_JOB_NAMESPACE
  || String.eqb ns POST_TURN_GOVERNANCE_SCOPE_INDEX_NAMESPACE.

Definition complete_stage : string := "post_turn_governance_complete".

Definition governance_completion_transaction_id (job_id : string) (lease_epoch : N)
    : result string :=
  _ ← ensure (negb (blank job_id || (lease_epoch =? 0)))
        (InvalidInput complete_stage "job id and lease epoch are required for transaction identity");
  payload ← encoded complete_stage (completion_id_to_vec job_id lease_epoch);
  Ok (governance_sha256 payload).

(** The receipt's own identifier and time may differ. *)
Definition same_completion (actual expected : PostTurnGovernanceReceiptV4) : bool :=
  String.eqb (rc_semantic_transaction_id actual) (rc_semantic_transaction_id expected)
  && String.eqb (rc_mutation_plan_digest actual) (rc_mutation_plan_digest expected)
  && String.eqb (rc_memory_post_image_digest actual) (rc_memory_post_image_digest expected)
  && bool_decide (rc_decision_summary actual = rc_decision_summary expected)
  && bool_decide (rc_method_application actual = rc_method_application expected).

Definition completed_job_if_same_receipt (job : Job) (expected : PostTurnGovernanceReceiptV4)
    : result Job :=
  match jb_receipt job with
  | None => Err (Config complete_stage "succeeded governance job is missing its receipt")
  | Some actual =>
      _ ← ensure (same_completion actual expected)
            (Conflict complete_stage
               "governance job already completed with a different semantic result");
      Ok job
  end.

(** A plan without method materials applies none; what a plan with materials
    applies is decided by the owners of methods. *)
Definition derive_method_application (v : view) (job : Job) (mutations : list StoreMutation)
    (conditions : list StoreJsonPrecondition)
    : result (PostTurnGovernanceMethodApplicationV1 * list StoreJsonPrecondition) :=
  match put_values AGENT_TOOL_EXPERIENCE_MATERIAL_NAMESPACE mutations with
  | [] => Ok (MethodNone, conditions)
  | _ => derive_applied_methods v job mutations conditions
  end.

Record GovernanceCompletionPending := mkPendingCompletion {
  cp_expected_receipt : PostTurnGovernanceReceiptV4;
  cp_after_job : Job;
  cp_batch : StoreMutationBatch;
  cp_preconditions : list StoreJsonPrecondition;
}.

Inductive GovernanceCompletionPlan :=
| AlreadyCompleted (job : Job) (transaction_id : string)
| PendingCompletion (pending : GovernanceCompletionPending).

Definition touches_governance (mutations : list StoreMutation)
    (preconditions : list StoreJsonPrecondition) : bool :=
  existsb (touches_namespace is_governance_namespace) mutations
  || existsb (λ p, is_governance_namespace (json_precondition_address p).1) preconditions.

Definition succeeded_job (before_job : Job) (receipt : PostTurnGovernanceReceiptV4)
    (revision now_secs : N) : Job :=
  set_receipt (Some receipt) (ended_job before_job Succeeded None None revision now_secs).

Definition plan_governance_job_completion (v : view) (scope : StoreEventScope)
    (job_id lease_owner : string) (lease_epoch : N)
    (decision_summary : PostTurnGovernanceDecisionSummaryV1)
    (memory_mutations : list StoreMutation) (memory_preconditions : list StoreJsonPrecondition)
    (now_secs : N) : result GovernanceCompletionPlan :=
  let stage := complete_stage in
  _ ← ensure (negb (blank job_id || blank lease_owner || (lease_epoch =? 0)))
        (InvalidInput stage "job id and active lease authority are required");
  _ ← ensure (negb (touches_governance memory_mutations memory_preconditions))
        (InvalidInput stage "memory plan must not mutate governance job ownership");
  before_job ← require (missing_job stage) (read_job v job_id);
  derived ← derive_method_application v before_job memory_mutations memory_preconditions;
  let '(method_application, memory_preconditions) := derived in
  plan ← encoded stage (memory_plan_to_vec memory_mutations memory_preconditions);
  image ← encoded stage (memory_mutations_to_vec memory_mutations);
  transaction_id ← governance_completion_transaction_id job_id lease_epoch;
  expected_receipt ← receipt_new job_id transaction_id (governance_sha256 plan)
    (governance_sha256 image) now_secs decision_summary method_application;
  if bool_decide (jb_status before_job = Succeeded) then
    job ← completed_job_if_same_receipt before_job expected_receipt;
    Ok (AlreadyCompleted job transaction_id)
  else
    _ ← ensure (holds_lease before_job lease_owner lease_epoch now_secs)
          (Conflict stage "completion authority differs from the active lease");
    before_index ← require (missing_index stage)
                     (read_scope_index v (jb_scope_index_key before_job));
    _ ← check_ref stage missing_ref stale_ref before_index before_job;
    revision ← increment u64_max (revision_overflow stage) (jb_state_revision before_job);
    let after_job := succeeded_job before_job expected_receipt revision now_secs in
    t ← terminal_transition stage missing_ref stale_ref now_secs before_job after_job before_index;
    before_job_value ← encoded stage (job_to_value before_job);
    before_index_value ← encoded stage (index_to_value before_index);
    preconditions ← merge_completion_preconditions memory_preconditions
      [JsonExact POST_TURN_GOVERNANCE_JOB_NAMESPACE (jb_job_id before_job) before_job_value;
       JsonExact POST_TURN_GOVERNANCE_SCOPE_INDEX_NAMESPACE (jb_scope_index_key before_job)
         before_index_value];
    after_job_value ← encoded stage (job_to_value after_job);
    after_index_value ← encoded stage (index_to_value (jt_after_index t));
    let mutations :=
      memory_mutations
      ++ [put_json POST_TURN_GOVERNANCE_JOB_NAMESPACE (jb_job_id after_job) after_job_value;
          put_json POST_TURN_GOVERNANCE_SCOPE_INDEX_NAMESPACE (jb_scope_index_key after_job)
            after_index_value] in
    Ok (PendingCompletion
          (mkPendingCompletion expected_receipt after_job
             {| batch_transaction_id := transaction_id;
                batch_operation := "post_turn.governance.complete"; batch_scope := scope;
                batch_mutations := mutations |} preconditions)).

(** ** Commits *)

Context {S : Type} {platform : StorePlatform S}.

Definition commit_job_and_index_with_extra (scope : StoreEventScope) (operation : string)
    (t : job_transition) (now_secs : N) (s : S) : result unit * S :=
  let stage := transaction_stage in
  let after_job := jt_after_job t in
  match (before_job_value ← encoded stage (job_to_value (jt_before_job t));
         after_job_value ← encoded stage (job_to_value after_job);
         before_index_value ← encoded stage (index_to_value (jt_before_index t));
         after_index_value ← encoded stage (index_to_value (jt_after_index t));
         Ok ([put_json POST_TURN_GOVERNANCE_JOB_NAMESPACE (jb_job_id after_job) after_job_value;
              put_json POST_TURN_GOVERNANCE_SCOPE_INDEX_NAMESPACE (jb_scope_index_key after_job)
                after_index_value],
             [JsonExact POST_TURN_GOVERNANCE_JOB_NAMESPACE (jb_job_id (jt_before_job t))
                before_job_value;
              JsonExact POST_TURN_GOVERNANCE_SCOPE_INDEX_NAMESPACE
                (jb_scope_index_key (jt_before_job t)) before_index_value])) with
  | Err e => (Err e, s)
  | Ok (mutations, preconditions) =>
      commit_governed_memory_transaction
        {| batch_transaction_id := "post_turn_governance_" +:+ jb_job_id after_job +:+ "_"
                                   +:+ pretty (jb_state_revision after_job);
           batch_operation := operation; batch_scope := scope;
           batch_mutations := mutations ++ jt_extra_mutations t |}
        (preconditions ++ jt_extra_preconditions t) [] None now_secs s
  end.

(** An operation: the plan made from what was read, then its commit. *)
Definition run_plan (scope : StoreEventScope) (operation : string) (now_secs : N)
    (plan : result (Job + job_transition)) (s : S) : result Job * S :=
  match plan with
  | Err e => (Err e, s)
  | Ok (inl job) => (Ok job, s)
  | Ok (inr t) =>
      match commit_job_and_index_with_extra scope operation t now_secs s with
      | (Ok _, s') => (Ok (jt_after_job t), s')
      | (Err e, s') => (Err e, s')
      end
  end.

Definition planned (plan : result job_transition) : result (Job + job_transition) :=
  t ← plan; Ok (inr t).

Definition claim_governance_job (v : view) (scope : StoreEventScope) (job_id lease_owner : string)
    (lease_until : N) (authority : PostTurnGovernanceAttemptAuthorityV3) (now_secs : N)
    : S → result Job * S :=
  run_plan scope "post_turn.governance.claim" now_secs
    (planned (claim_plan v job_id lease_owner lease_until authority now_secs)).

Definition renew_governance_job (v : view) (scope : StoreEventScope) (job_id lease_owner : string)
    (lease_epoch lease_until now_secs : N) : S → result Job * S :=
  run_plan scope "post_turn.governance.renew" now_secs
    (planned (renew_plan v job_id lease_owner lease_epoch lease_until now_secs)).

Definition retry_governance_job (v : view) (scope : StoreEventScope) (job_id lease_owner : string)
    (lease_epoch : N) (error_class : PostTurnGovernanceErrorClassV2) (now_secs : N)
    : S → result Job * S :=
  run_plan scope "post_turn.governance.retry" now_secs
    (planned (retry_plan v job_id lease_owner lease_epoch error_class now_secs)).

Definition block_governance_job (v : view) (scope : StoreEventScope) (job_id : string)
    (status : PostTurnGovernanceJobStatusV2) (reason : string)
    (authority : option PostTurnGovernanceExecutionBlockAuthorityV1) (now_secs : N)
    : S → result Job * S :=
  run_plan scope "post_turn.governance.block" now_secs
    (block_plan v job_id status reason authority now_secs).

Definition block_claimed_governance_job (v : view) (scope : StoreEventScope)
    (job_id lease_owner : string) (lease_epoch : N) (status : PostTurnGovernanceJobStatusV2)
    (reason : string) (authority : option PostTurnGovernanceExecutionBlockAuthorityV1)
    (now_secs : N) : S → result Job * S :=
  run_plan scope "post_turn.governance.block_claimed" now_secs
    (planned (block_claimed_plan v job_id lease_owner lease_epoch status reason authority now_secs)).

Definition resume_governance_job (v : view) (scope : StoreEventScope) (job_id : string)
    (now_secs : N) : S → result Job * S :=
  run_plan scope "post_turn.governance.resume" now_secs (planned (resume_plan v job_id now_secs)).

Definition dead_letter_governance_job (v : view) (scope : StoreEventScope)
    (job_id lease_owner : string) (lease_epoch : N) (error_class : PostTurnGovernanceErrorClassV2)
    (reason : string) (now_secs : N) : S → result Job * S :=
  run_plan scope "post_turn.governance.fail" now_secs
    (planned (fail_plan v job_id lease_owner lease_epoch error_class reason now_secs)).

Definition cancel_governance_job (v : view) (scope : StoreEventScope) (job_id reason : string)
    (now_secs : N) : S → result Job * S :=
  run_plan scope "post_turn.governance.cancel" now_secs (cancel_plan v job_id reason now_secs).

(** After a commit that failed, the job is read again from [later]. *)
Definition complete_governance_job_with_memory_plan (v later : view) (scope : StoreEventScope)
    (job_id lease_owner : string) (lease_epoch : N)
    (decision_summary : PostTurnGovernanceDecisionSummaryV1)
    (memory_mutations : list StoreMutation) (memory_preconditions : list StoreJsonPrecondition)
    (memory_blob_preconditions : list StoreBlobPrecondition) (now_secs : N) (s : S)
    : result Job * S :=
  match plan_governance_job_completion v scope job_id lease_owner lease_epoch decision_summary
          memory_mutations memory_preconditions now_secs with
  | Err e => (Err e, s)
  | Ok (AlreadyCompleted job _) => (Ok job, s)
  | Ok (PendingCompletion p) =>
      match commit_governed_memory_transaction (cp_batch p) (cp_preconditions p)
              memory_blob_preconditions None now_secs s with
      | (Ok _, s') => (Ok (cp_after_job p), s')
      | (Err e, s') =>
          (current ← read_job later job_id;
           match current with
           | Some current =>
               if bool_decide (jb_status current = Succeeded)
               then completed_job_if_same_receipt current (cp_expected_receipt p) else Err e
           | None => Err e
           end, s')
      end
  end.

(** *** Recovery *)

Definition recovery_stage : string := "post_turn_governance_recovery_operation".

Definition governance_recovery_intent_digest (job_id : string)
    (operation_kind : MemoryMutationOperationKind) (recovery_authority_key : string)
    (new_generation : N) : result string :=
  operation_label ← match operation_kind with
                    | KindGovernanceCredentialRecovery => Ok "credential"
                    | KindGovernanceProviderPermissionRecovery => Ok "permission"
                    | _ => Err (Config recovery_stage
                             "recovery intent requires an exact governance recovery operation kind")
                    end;
  _ ← ensure (negb (blank job_id || not_exact recovery_authority_key || (new_generation =? 0)))
        (InvalidInput recovery_stage
           "canonical recovery job, authority key, and generation are required");
  Ok (governance_sha256
        (str_bytes "post-turn-governance-recovery-intent-v1" ++ [x00] ++ str_bytes operation_label
         ++ [x00] ++ str_bytes job_id ++ [x00] ++ str_bytes recovery_authority_key ++ [x00]
         ++ be_bytes new_generation)).

Definition governance_recovery_operation_identity (job : Job) (caller_operation_id
    actor_subject_id : string) (operation_kind : MemoryMutationOperationKind)
    : result MemoryMutationOperationIdentity :=
  let effective_operation_id := governance_sha256
    (str_bytes "post-turn-governance-recovery-operation-v1" ++ [x00]
     ++ str_bytes caller_operation_id ++ [x00] ++ str_bytes (jb_job_id job)) in
  operation_identity_new effective_operation_id (gi_memory_space_id (jb_identity job))
    (gi_mounted_subject_id (jb_identity job)) actor_subject_id operation_kind.

(** The operation's records are read in [s0] before and in [later] after the
    commit. *)
Definition commit_recovery_job_and_index (s0 : S) (later : S → S) (scope : StoreEventScope)
    (operation : string) (t : job_transition) (caller_operation_id actor_subject_id : string)
    (operation_kind : MemoryMutationOperationKind) (recovery_authority_key : string)
    (new_generation now_secs : N) (s : S) : result bool * S :=
  let stage := recovery_stage in
  let after_job := jt_after_job t in
  match (identity ← governance_recovery_operation_identity (jt_before_job t) caller_operation_id
           actor_subject_id operation_kind;
         intent_digest ← governance_recovery_intent_digest (jb_job_id (jt_before_job t))
           operation_kind recovery_authority_key new_generation;
         operation_plan ← operation_plan_new identity intent_digest EffectChanged 2
           actor_subject_id now_secs;
         before_job_value ← encoded stage (job_to_value (jt_before_job t));
         before_index_value ← encoded stage (index_to_value (jt_before_index t));
         after_job_value ← encoded stage (job_to_value after_job);
         after_index_value ← encoded stage (index_to_value (jt_after_index t));
         let event := event_with
           (event_new ("post-turn-governance-recovery:" +:+ operation_storage_key identity)
              MemoryControl scope now_secs) "post_turn_governance" (jb_job_id after_job) "" ∅ in
         Ok (operation_plan,
             [put_json POST_TURN_GOVERNANCE_JOB_NAMESPACE (jb_job_id after_job) after_job_value;
              put_json POST_TURN_GOVERNANCE_SCOPE_INDEX_NAMESPACE (jb_scope_index_key after_job)
                after_index_value;
              DeclAppendEvent event],
             [JsonExact POST_TURN_GOVERNANCE_JOB_NAMESPACE (jb_job_id (jt_before_job t))
                before_job_value;
              JsonExact POST_TURN_GOVERNANCE_SCOPE_INDEX_NAMESPACE
                (jb_scope_index_key (jt_before_job t)) before_index_value])) with
  | Err e => (Err e, s)
  | Ok (operation_plan, mutations, preconditions) =>
      match commit_memory_mutation_operation s0 later
              {| batch_transaction_id := op_transaction_id operation_plan;
                 batch_operation := operation; batch_scope := scope;
                 batch_mutations := mutations |} preconditions [] operation_plan s with
      | (Ok (OperationReplayed _), s') => (Ok true, s')
      | (Ok (OperationCommitted _), s') => (Ok false, s')
      | (Err e, s') => (Err e, s')
      end
  end.

Record GovernanceRecoveryOutcome := mkRecoveryOutcome {
  ro_job : Job;
  ro_replayed : bool;
}.

(** The rest of both recoveries; the job is read back from [final]. *)
Definition run_recovery (s0 : S) (later : S → S) (final : view) (scope : StoreEventScope)
    (stage operation operation_id actor_subject_id : string)
    (operation_kind : MemoryMutationOperationKind) (recovery_authority_key : string)
    (new_generation now_secs : N) (plan : result job_transition) (s : S)
    : result GovernanceRecoveryOutcome * S :=
  match plan with
  | Err e => (Err e, s)
  | Ok t =>
      match commit_recovery_job_and_index s0 later scope operation t operation_id actor_subject_id
              operation_kind recovery_authority_key new_generation now_secs s with
      | (Err e, s') => (Err e, s')
      | (Ok replayed, s') =>
          (job ← require (Config stage
                            "recovered governance job disappeared after operation commit")
                   (read_job final (jb_job_id (jt_after_job t)));
           Ok (mkRecoveryOutcome job replayed), s')
      end
  end.

Definition resume_governance_job_for_credential (v : view) (s0 : S) (later : S → S) (final : view)
    (scope : StoreEventScope) (job_id credential_ref_safe_id : string) (new_generation : N)
    (operation_id actor_subject_id : string) (now_secs : N)
    : S → result GovernanceRecoveryOutcome * S :=
  run_recovery s0 later final scope "post_turn_governance_credential_resume"
    "post_turn.governance.credential_resume" operation_id actor_subject_id
    KindGovernanceCredentialRecovery credential_ref_safe_id new_generation now_secs
    (credential_resume_plan v job_id credential_ref_safe_id new_generation operation_id now_secs).

Definition resume_governance_job_for_provider_permission (v : view) (s0 : S) (later : S → S)
    (final : view) (scope : StoreEventScope) (job_id binding_id : string)
    (binding_revision new_generation : N) (operation_id actor_subject_id : string) (now_secs : N)
    : S → result GovernanceRecoveryOutcome * S :=
  run_recovery s0 later final scope "post_turn_governance_permission_resume"
    "post_turn.governance.permission_resume" operation_id actor_subject_id
    KindGovernanceProviderPermissionRecovery binding_id new_generation now_secs
    (permission_resume_plan v job_id binding_id binding_revision new_generation operation_id
       now_secs).

Definition governance_recovery_operation_was_committed (v : view) (job : Job)
    (caller_operation_id actor_subject_id : string) (operation_kind : MemoryMutationOperationKind)
    (recovery_authority_key : string) (new_generation : N) : result bool :=
  identity ← governance_recovery_operation_identity job caller_operation_id actor_subject_id
               operation_kind;
  doc ← v (MEMORY_MUTATION_RECEIPT_NAMESPACE, operation_storage_key identity);
  receipt ← decoded recovery_stage receipt_from_value doc;
  match receipt with
  | None => Ok false
  | Some receipt =>
      intent_digest ← governance_recovery_intent_digest (jb_job_id job) operation_kind
                        recovery_authority_key new_generation;
      _ ← classify_replay receipt identity intent_digest;
      Ok true
  end.

(** ** The source of a job *)

Definition TRANSCRIPT_NAMESPACE : string := "conversation_transcript".

Definition transcript_owner_storage_key_prefix (k : ConversationKey) (mounted_subject_id : string)
    : string :=
  storage_key k +:+ "__subject__" +:+ str_hash_hex mounted_subject_id +:+ "__".

Definition transcript_turn_storage_key (k : ConversationKey) (mounted_subject_id turn_id : string)
    : string :=
  transcript_owner_storage_key_prefix k mounted_subject_id +:+ "turn__" +:+ str_hash_hex turn_id.

Definition post_turn_governance_transcript_digest (record : TranscriptTurnRecord)
    : result string :=
  let canonical := with_updated_at (with_states record LcActive (tt_redaction_state record))
                     (tt_created_at record) in
  payload ← encoded "post_turn_governance_transcript_digest" (turn_record_to_vec canonical);
  Ok (governance_sha256 payload).

(** [TranscriptLearningSource::semantic], which has no learning evidence. *)
Record TranscriptLearningSource := mkLearningSource {
  ls_key : ConversationKey;
  ls_subject_id : string;
  ls_turn_id : string;
  ls_sequence : N;
  ls_transcript_digest : string;
}.

Definition semantic_source (job : Job) : result TranscriptLearningSource :=
  let i := jb_identity job in
  key ← conversation_key_new (gi_memory_space_id i) (gi_channel_id i) (gi_conversation_id i);
  Ok (mkLearningSource key (gi_mounted_subject_id i) (gi_turn_id i) (jb_transcript_sequence job)
        (jb_transcript_digest job)).

Definition fence_error (message : string) : Error :=
  Conflict "post_turn_learning_source_fence" message.

Definition source_storage_key (l : TranscriptLearningSource) : string :=
  transcript_turn_storage_key (ls_key l) (ls_subject_id l) (ls_turn_id l).

(** The digest is computed only when the comparisons before it succeed. *)
Definition source_validate_record (l : TranscriptLearningSource) (value : Value) : result unit :=
  let differs := fence_error "canonical source no longer authorizes the exact learning intent" in
  record ← encoded "post_turn_learning_source_fence" (turn_record_from_value value);
  _ ← ensure (bool_decide (tt_key record = ls_key l)
              && String.eqb (tt_subject record) (ls_subject_id l)
              && String.eqb (tt_turn_id record) (ls_turn_id l)
              && (tt_sequence record =? ls_sequence l)
              && permits_post_turn_learning record) differs;
  digest ← post_turn_governance_transcript_digest record;
  ensure (String.eqb digest (ls_transcript_digest l)) differs.

Definition source_read_precondition (v : view) (l : TranscriptLearningSource)
    : result StoreJsonPrecondition :=
  value ← require (fence_error "canonical learning source is missing")
            (v (TRANSCRIPT_NAMESPACE, source_storage_key l));
  _ ← source_validate_record l value;
  Ok (JsonExact TRANSCRIPT_NAMESPACE (source_storage_key l) value).

Definition semantic_learning_transcript_precondition (v : view) (job : Job)
    : result StoreJsonPrecondition :=
  l ← semantic_source job;
  source_read_precondition v l.

(** ** Intents *)

Inductive GovernanceIntentEnsureOutcome := IntentCreated | IntentAlreadyPresent.

Definition same_transcript (existing job : Job) : bool :=
  bool_decide (jb_identity existing = jb_identity job)
  && (jb_transcript_sequence existing =? jb_transcript_sequence job)
  && String.eqb (jb_transcript_digest existing) (jb_transcript_digest job).

(** The end of the change of an index that may be new: its revision is raised
    when it existed. *)
Definition finish_index (stage overflow : string) (now_secs : N) (before_index : option Index)
    (x : Index) : result Index :=
  revision ← match before_index with
             | Some _ => increment u64_max (Config stage overflow) (ix_index_revision x)
             | None => Ok (ix_index_revision x)
             end;
  let x := set_index_revision revision now_secs x in
  _ ← index_validate x;
  Ok x.

Definition push_active (job : Job) (x : Index) : Index :=
  set_active_jobs (ix_active_jobs x ++ [ref_from_job job]) x.

Definition sort_active (x : Index) : Index :=
  set_active_jobs (sort_by active_order (ix_active_jobs x)) x.

(** What is committed for an intent that is not present yet. *)
Definition intent_plan (v : view) (job : Job) (now_secs : N)
    (additional_preconditions : list StoreJsonPrecondition)
    : result (list StoreMutation * list StoreJsonPrecondition) :=
  let stage := "post_turn_learning_intents" in
  source ← semantic_learning_transcript_precondition v job;
  before_index ← read_scope_index v (jb_scope_index_key job);
  let x := default (index_empty (jb_identity job) now_secs) before_index in
  _ ← ensure (negb ((MAX_POST_TURN_GOVERNANCE_ACTIVE_JOBS <=? len (ix_active_jobs x))
                    || (MAX_POST_TURN_GOVERNANCE_RECENT_TERMINAL_JOBS
                        <=? len (ix_recent_terminal_jobs x))))
        (Config stage "semantic job scope capacity or terminal retention is exhausted");
  after_index ← finish_index stage "semantic scope index revision overflow" now_secs before_index
                  (sort_active (push_active job x));
  index_precondition ← match before_index with
                       | Some x => value ← encoded stage (index_to_value x);
                                   Ok (JsonExact POST_TURN_GOVERNANCE_SCOPE_INDEX_NAMESPACE
                                         (jb_scope_index_key job) value)
                       | None => Ok (JsonAbsent POST_TURN_GOVERNANCE_SCOPE_INDEX_NAMESPACE
                                       (jb_scope_index_key job))
                       end;
  job_value ← encoded stage (job_to_value job);
  index_value ← encoded stage (index_to_value after_index);
  append_binding_reference_mutation v (jb_execution_binding job) now_secs
    ([put_json POST_TURN_GOVERNANCE_JOB_NAMESPACE (jb_job_id job) job_value;
      put_json POST_TURN_GOVERNANCE_SCOPE_INDEX_NAMESPACE (jb_scope_index_key job) index_value],
     (source :: additional_preconditions)
     ++ [JsonAbsent POST_TURN_GOVERNANCE_JOB_NAMESPACE (jb_job_id job); index_precondition]).

(** [ensure_post_turn_learning_intents] for a turn that has no procedural
    feedback ([procedural_job] is [None]). *)
Definition ensure_governance_intent (v later : view) (scope : StoreEventScope) (job : Job)
    (now_secs : N) (additional_preconditions : list StoreJsonPrecondition) (s : S)
    : result GovernanceIntentEnsureOutcome * S :=
  let stage := "post_turn_learning_intents" in
  match (_ ← job_validate job;
         existing ← read_job v (jb_job_id job);
         match existing with
         | Some existing =>
             _ ← ensure (same_transcript existing job)
                   (Conflict stage "semantic job identity has divergent transcript authority");
             Ok None
         | None => plan ← intent_plan v job now_secs additional_preconditions; Ok (Some plan)
         end) with
  | Err e => (Err e, s)
  | Ok None => (Ok IntentAlreadyPresent, s)
  | Ok (Some (mutations, preconditions)) =>
      match commit_governed_memory_transaction
              {| batch_transaction_id := "post_turn_learning_intents_"
                                         +:+ gi_turn_id (jb_identity job);
                 batch_operation := "post_turn.learning.enqueue"; batch_scope := scope;
                 batch_mutations := mutations |} preconditions [] None now_secs s with
      | (Ok _, s') => (Ok IntentCreated, s')
      | (Err e, s') =>
          (current ← read_job later (jb_job_id job);
           if match current with Some c => same_transcript c job | None => false end
           then Ok IntentAlreadyPresent else Err e, s')
      end
  end.

(** *** Reconciliation of a page of turns *)

Definition reconcile_stage : string := "post_turn_governance_reconcile".

Record reconcile_state := mkReconcile {
  rs_index : Index;
  rs_mutations : list StoreMutation;
  rs_preconditions : list StoreJsonPrecondition;
  rs_bindings : list (string * N);
  rs_created : N;
}.

Definition same_runtime_scope (key : string) (identity : PostTurnGovernanceIdentityV2) (job : Job)
    : bool :=
  let i := jb_identity job in
  String.eqb (jb_scope_index_key job) key
  && String.eqb (gi_memory_space_id i) (gi_memory_space_id identity)
  && String.eqb (gi_mounted_subject_id i) (gi_mounted_subject_id identity)
  && String.eqb (gi_channel_id i) (gi_channel_id identity)
  && String.eqb (gi_chat_id i) (gi_chat_id identity)
  && String.eqb (gi_conversation_id i) (gi_conversation_id identity).

(** A job that is present: its reference is checked, or restored. *)
Definition reconcile_existing (job_id : string) (existing : Job) (r : reconcile_state)
    : result reconcile_state :=
  p ← json_precondition job_to_value POST_TURN_GOVERNANCE_JOB_NAMESPACE job_id (Some existing);
  let x := rs_index r in
  x ← if status_is_active (jb_status existing) then
        match find_ref x (jb_job_id existing) with
        | Some reference =>
            _ ← ensure ((rf_state_revision reference =? jb_state_revision existing)
                        && bool_decide (rf_status reference = jb_status existing))
                  (Conflict reconcile_stage
                     "scope index ref differs from governance job authority");
            Ok x
        | None => Ok (push_active existing x)
        end
      else Ok x;
  Ok (mkReconcile x (rs_mutations r) (rs_preconditions r ++ [p]) (rs_bindings r) (rs_created r)).

(** A job that is missing is created. *)
Definition reconcile_missing (v : view) (job : Job) (r : reconcile_state)
    : result reconcile_state :=
  source ← semantic_learning_transcript_precondition v job;
  preconditions ← merge_completion_preconditions (rs_preconditions r) [source];
  value ← encoded reconcile_stage (job_to_value job);
  Ok (mkReconcile (push_active job (rs_index r))
        (rs_mutations r ++ [put_json POST_TURN_GOVERNANCE_JOB_NAMESPACE (jb_job_id job) value])
        (preconditions ++ [JsonAbsent POST_TURN_GOVERNANCE_JOB_NAMESPACE (jb_job_id job)])
        match jb_execution_binding job with
        | Bound id revision => (id, revision) :: rs_bindings r
        | Unbound => rs_bindings r
        end (saturating_add (rs_created r) 1)).

Definition reconcile_step (v : view) (key : string) (identity : PostTurnGovernanceIdentityV2)
    (r : reconcile_state) (job : Job) : result reconcile_state :=
  _ ← job_validate job;
  _ ← ensure (same_runtime_scope key identity job)
        (InvalidInput reconcile_stage "reconciliation page crosses its exact governance scope");
  existing ← read_job v (jb_job_id job);
  r ← match existing with
      | Some existing =>
          _ ← ensure (same_transcript existing job)
                (Conflict reconcile_stage
                   "deterministic job identity has divergent transcript authority");
          reconcile_existing (jb_job_id job) existing r
      | None => reconcile_missing v job r
      end;
  _ ← ensure (len (ix_active_jobs (rs_index r)) <=? MAX_POST_TURN_GOVERNANCE_ACTIVE_JOBS)
        (Config reconcile_stage "exact governance scope active-job budget is exhausted");
  Ok r.

(** [for .. in referenced_bindings], a [BTreeSet]. *)
Definition reference_bindings (v : view) (bindings : list (string * N)) (now_secs : N)
    (acc : list StoreMutation * list StoreJsonPrecondition)
    : result (list StoreMutation * list StoreJsonPrecondition) :=
  try_fold (λ acc b, append_binding_reference_mutation v (Bound b.1 b.2) now_secs acc) acc
    (sort_by leb (remove_dups bindings)).

(** What is committed for a page: its index, mutations and preconditions, and how
    many jobs it creates. *)
Definition reconcile_plan (v : view) (scope : StoreEventScope) (jobs : list Job)
    (cursor_source : TranscriptTurnRecord) (now_secs : N)
    : result (string * list StoreMutation * list StoreJsonPrecondition * N) :=
  let stage := reconcile_stage in
  let conversation_id := ck_conversation_id (tt_key cursor_source) in
  identity ← identity_new (scope_memory_space_id scope) (scope_subject_id scope)
    (scope_channel scope) (scope_chat_id scope) conversation_id (tt_turn_id cursor_source);
  _ ← ensure (String.eqb (ck_memory_space_id (tt_key cursor_source)) (scope_memory_space_id scope)
              && String.eqb (tt_subject cursor_source) (scope_subject_id scope)
              && String.eqb (ck_channel_id (tt_key cursor_source)) (scope_channel scope))
        (Config stage "cursor source crosses exact scope");
  let key := identity_scope_id identity in
  before_index ← read_scope_index v key;
  let x := default (index_empty identity now_secs) before_index in
  _ ← ensure (len (ix_recent_terminal_jobs x) <? MAX_POST_TURN_GOVERNANCE_RECENT_TERMINAL_JOBS)
        (Config stage "exact governance scope terminal-receipt retention is exhausted");
  _ ← ensure match reconciliation_cursor x conversation_id with
             | Some c => cu_sequence c <? tt_sequence cursor_source
             | None => true
             end (Conflict stage "reconciliation cursor must advance monotonically");
  p1 ← json_precondition index_to_value POST_TURN_GOVERNANCE_SCOPE_INDEX_NAMESPACE key before_index;
  source_value ← match turn_record_to_value cursor_source with
                 | inr value => Ok value
                 | inl _ => Err (Config stage "cursor source cannot be encoded")
                 end;
  let p2 := JsonExact TRANSCRIPT_NAMESPACE
    (transcript_turn_storage_key (tt_key cursor_source) (tt_subject cursor_source)
       (tt_turn_id cursor_source)) source_value in
  r ← try_fold (reconcile_step v key identity) (mkReconcile x [] [p1; p2] [] 0) jobs;
  x ← set_reconciliation_cursor
        (mkCursor conversation_id (tt_sequence cursor_source) (tt_turn_id cursor_source))
        (sort_active (rs_index r));
  after_index ← finish_index stage scope_overflow now_secs before_index x;
  acc ← reference_bindings v (rs_bindings r) now_secs (rs_mutations r, rs_preconditions r);
  value ← encoded stage (index_to_value after_index);
  Ok (key, acc.1 ++ [put_json POST_TURN_GOVERNANCE_SCOPE_INDEX_NAMESPACE key value], acc.2,
      rs_created r).

Definition reconcile_governance_intents (v : view) (scope : StoreEventScope) (jobs : list Job)
    (cursor_source : TranscriptTurnRecord) (now_secs : N) (s : S) : result N * S :=
  match reconcile_plan v scope jobs cursor_source now_secs with
  | Err e => (Err e, s)
  | Ok (key, mutations, preconditions, created) =>
      match commit_governed_memory_transaction
              {| batch_transaction_id := "post_turn_governance_reconcile_" +:+ key +:+ "_"
                                         +:+ pretty (tt_sequence cursor_source);
                 batch_operation := "post_turn.governance.reconcile"; batch_scope := scope;
                 batch_mutations := mutations |} preconditions [] None now_secs s with
      | (Ok _, s') => (Ok created, s')
      | (Err e, s') => (Err e, s')
      end
  end.

(** ** Withdrawal of transcripts *)

(** The part of [plan_transcript_learning_lifecycle] that concerns these jobs:
    what a change of transcripts commits to the queue along with its own
    mutations. *)

Definition withdraw_stage : string := "post_turn_learning_lifecycle".

Definition learning_put_json (ns key : string) (v : Value) : StoreMutation :=
  DeclPutJson ns key v MemoryWrite "procedural_feedback" key.

Definition learning_exact {A} (encode : A → string + Value) (ns key : string) (a : A)
    : result StoreJsonPrecondition :=
  v ← encoded withdraw_stage (encode a); Ok (JsonExact ns key v).

(** Archiving and restoring leave the jobs alone. *)
Definition withdrawal_reason (t : TranscriptLifecycleTransition) : option string :=
  match t with
  | Mask => Some "transcript_masked"
  | DeleteRaw => Some "transcript_raw_deleted"
  | Archive | Restore => None
  end.

(** The memory space, subject, channel, conversation and turn. *)
Definition turn_target : Type := string * string * string * string * string.

Definition record_target (r : TranscriptTurnRecord) : turn_target :=
  (ck_memory_space_id (tt_key r), tt_subject r, ck_channel_id (tt_key r),
   ck_conversation_id (tt_key r), tt_turn_id r).

Definition job_target (j : Job) : turn_target :=
  let i := jb_identity j in
  (gi_memory_space_id i, gi_mounted_subject_id i, gi_channel_id i, gi_conversation_id i,
   gi_turn_id i).

Record withdrawal := mkWithdrawal {
  wi_index : Index;
  wi_mutations : list StoreMutation;
  wi_preconditions : list StoreJsonPrecondition;
}.

(** The body of the loop over the active references of an index. *)
Definition withdraw_reference (v : view) (targets : list turn_target) (reason : string) (now_secs : N)
    (w : withdrawal) (reference : PostTurnGovernanceJobRefV2) : result withdrawal :=
  let stage := withdraw_stage in
  job ← require (Config stage "semantic scope references a missing job")
          (read_job v (rf_job_id reference));
  if bool_decide (job_target job ∈ targets) then
    revision ← increment u64_max (Config stage "job revision overflow") (jb_state_revision job);
    let cancelled := ended_job job JobCancelled None (Some reason) revision now_secs in
    _ ← job_validate cancelled;
    let after := wi_index w in
    _ ← ensure (len (ix_recent_terminal_jobs after) <? MAX_POST_TURN_GOVERNANCE_RECENT_TERMINAL_JOBS)
          (Config stage "semantic terminal retention is exhausted");
    let after := drop_active (jb_job_id job) after in
    let after := set_recent_terminal_jobs (ix_recent_terminal_jobs after ++ [ref_from_job cancelled])
                   after in
    p ← learning_exact job_to_value POST_TURN_GOVERNANCE_JOB_NAMESPACE (jb_job_id job) job;
    value ← encoded stage (job_to_value cancelled);
    Ok (mkWithdrawal after
          (wi_mutations w ++ [learning_put_json POST_TURN_GOVERNANCE_JOB_NAMESPACE (jb_job_id job) value])
          (wi_preconditions w ++ [p]))
  else Ok w.

(** The body of the loop over the documents of the namespace of indexes. *)
Definition withdraw_document (v : view) (scope : StoreEventScope) (targets : list turn_target)
    (reason : string) (now_secs : N) (document : Value)
    : result (list StoreMutation * list StoreJsonPrecondition) :=
  let stage := withdraw_stage in
  before ← encoded stage (index_from_value document);
  if negb (String.eqb (ix_memory_space_id before) (scope_memory_space_id scope))
     || negb (String.eqb (ix_mounted_subject_id before) (scope_subject_id scope))
  then Ok ([], [])
  else
    w ← try_fold (withdraw_reference v targets reason now_secs) (mkWithdrawal before [] [])
          (ix_active_jobs before);
    let after := wi_index w in
    if bool_decide (after = before) then Ok (wi_mutations w, wi_preconditions w)
    else
      let after := set_recent_terminal_jobs (sort_by terminal_order (ix_recent_terminal_jobs after))
                     after in
      revision ← increment u64_max (Config stage "index revision overflow") (ix_index_revision before);
      let after := set_index_revision revision now_secs after in
      _ ← index_validate after;
      p ← learning_exact index_to_value POST_TURN_GOVERNANCE_SCOPE_INDEX_NAMESPACE
            (ix_scope_index_key before) before;
      value ← encoded stage (index_to_value after);
      Ok (wi_mutations w ++ [learning_put_json POST_TURN_GOVERNANCE_SCOPE_INDEX_NAMESPACE
                               (ix_scope_index_key before) value],
          wi_preconditions w ++ [p]).

Definition withdrawal_plan (v : view) (documents : list Value) (scope : StoreEventScope)
    (records : list TranscriptTurnRecord) (transition : TranscriptLifecycleTransition) (now_secs : N)
    : result (list StoreMutation * list StoreJsonPrecondition) :=
  match withdrawal_reason transition with
  | None => Ok ([], [])
  | Some reason =>
      try_fold (λ plan document,
                  part ← withdraw_document v scope (record_target <$> records) reason now_secs document;
                  Ok (plan.1 ++ part.1, plan.2 ++ part.2)) ([], []) documents
  end.

(** ** Binding snapshots *)

Definition binding_snapshots_share_canonical_identity
    (existing requested : PostTurnGovernanceBindingSnapshotV1) : bool :=
  String.eqb (bs_binding_id existing) (bs_binding_id requested)
  && (bs_binding_revision existing =? bs_binding_revision requested)
  && String.eqb (bs_canonical_digest existing) (bs_canonical_digest requested).

Definition binding_snapshot_has_exact_revision_ref (s : PostTurnGovernanceBindingSnapshotV1)
    (x : PostTurnGovernanceBindingRevisionIndexV1) : bool :=
  String.eqb (bx_binding_id x) (bs_binding_id s)
  && String.eqb (bx_source_owner_id x) (bs_source_owner_id s)
  && String.eqb (bx_source_config_id x) (bs_source_config_id s)
  && existsb (λ r, (br_binding_revision r =? bs_binding_revision s)
                   && String.eqb (br_canonical_digest r) (bs_canonical_digest s)
                   && (br_created_at r =? bs_created_at s)) (bx_revisions x).

(** [position] and [remove]: the first element that satisfies [p], and the rest. *)
Fixpoint remove_first {A} (p : A → bool) (l : list A) : option (A * list A) :=
  match l with
  | [] => None
  | x :: l' => if p x then Some (x, l')
               else match remove_first p l' with Some (y, r) => Some (y, x :: r) | None => None end
  end.

Definition revision_index_error (message : string) : Error :=
  Config "post_turn_governance_binding_revision_index" message.

Definition divergent_snapshot : Error :=
  Conflict "post_turn_governance_binding_snapshot"
    "immutable binding identity already has a different canonical snapshot".

(** When the index is full, the oldest revision no job refers to is pruned. *)
Definition prune_revisions (l : list PostTurnGovernanceBindingRevisionRefV1)
    : result (option PostTurnGovernanceBindingRevisionRefV1
              * list PostTurnGovernanceBindingRevisionRefV1) :=
  if MAX_POST_TURN_GOVERNANCE_BINDING_REVISIONS <=? len l then
    match remove_first (λ r, negb (br_referenced r)) l with
    | Some (r, rest) => Ok (Some r, rest)
    | None => Err (Config "post_turn_governance_binding_retention_exhausted"
                     "all retained binding revisions are referenced by durable governance jobs")
    end
  else Ok (None, l).

Definition revision_order (a b : PostTurnGovernanceBindingRevisionRefV1) : bool :=
  leb (br_binding_revision a) (br_binding_revision b).

(** What is committed for a snapshot that is not present yet. *)
Definition binding_plan (v : view) (snapshot : PostTurnGovernanceBindingSnapshotV1) (now_secs : N)
    : result (list StoreMutation * list StoreJsonPrecondition) :=
  let stage := "post_turn_governance_binding_revision_index" in
  let id := bs_binding_id snapshot in
  before_index ← read_binding_revision_index v id;
  let x := default (revision_index_empty snapshot) before_index in
  _ ← ensure (String.eqb (bx_binding_id x) id
              && String.eqb (bx_source_owner_id x) (bs_source_owner_id snapshot)
              && String.eqb (bx_source_config_id x) (bs_source_config_id snapshot))
        (revision_index_error "binding revision index owner differs from the immutable snapshot");
  pruned ← prune_revisions (bx_revisions x);
  let revisions := sort_by revision_order (pruned.2 ++ [revision_ref_from_snapshot snapshot]) in
  revision ← match before_index with
             | Some _ => increment u64_max
                           (revision_index_error "binding revision index revision overflow")
                           (bx_index_revision x)
             | None => Ok (bx_index_revision x)
             end;
  let after_index := mkRevisionIndex (bx_schema_version x) (bx_binding_id x) (bx_source_owner_id x)
    (bx_source_config_id x) revisions revision now_secs in
  _ ← revision_index_validate after_index;
  value ← encoded "post_turn_governance_binding_snapshot" (snapshot_to_value snapshot);
  index_value ← encoded stage (revision_index_to_value after_index);
  p ← json_precondition revision_index_to_value
        POST_TURN_GOVERNANCE_BINDING_REVISION_INDEX_NAMESPACE id before_index;
  let preconditions :=
    [JsonAbsent POST_TURN_GOVERNANCE_BINDING_SNAPSHOT_NAMESPACE (snapshot_storage_key snapshot);
     p] in
  deletion ← match pruned.1 with
    | None => Ok ([], [])
    | Some r =>
        let pruned_key := binding_snapshot_key id (br_binding_revision r) in
        before_snapshot ← require
          (revision_index_error "binding revision index references a missing snapshot")
          (read_binding_snapshot v id (br_binding_revision r));
        _ ← ensure (String.eqb (bs_canonical_digest before_snapshot) (br_canonical_digest r))
              (revision_index_error "binding revision index digest differs from its snapshot");
        p ← json_precondition snapshot_to_value POST_TURN_GOVERNANCE_BINDING_SNAPSHOT_NAMESPACE
              pruned_key (Some before_snapshot);
        Ok ([DeclDeleteJson POST_TURN_GOVERNANCE_BINDING_SNAPSHOT_NAMESPACE pruned_key
               MemoryMaintenance "post_turn_governance" pruned_key], [p])
    end;
  Ok (deletion.1
      ++ [put_json POST_TURN_GOVERNANCE_BINDING_SNAPSHOT_NAMESPACE (snapshot_storage_key snapshot)
            value;
          put_json POST_TURN_GOVERNANCE_BINDING_REVISION_INDEX_NAMESPACE id index_value],
      preconditions ++ deletion.2).

Definition has_exact_ref (s : PostTurnGovernanceBindingSnapshotV1)
    (x : option PostTurnGovernanceBindingRevisionIndexV1) : bool :=
  match x with Some x => binding_snapshot_has_exact_revision_ref s x | None => false end.

Definition ensure_binding_snapshot (v later : view) (scope : StoreEventScope)
    (snapshot : PostTurnGovernanceBindingSnapshotV1) (now_secs : N) (s : S)
    : result PostTurnGovernanceBindingSnapshotV1 * S :=
  let id := bs_binding_id snapshot in
  let revision := bs_binding_revision snapshot in
  match (_ ← snapshot_validate snapshot;
         existing ← read_binding_snapshot v id revision;
         match existing with
         | Some existing =>
             if binding_snapshots_share_canonical_identity existing snapshot then
               index ← read_binding_revision_index v id;
               _ ← ensure (has_exact_ref existing index)
                     (revision_index_error
                        "binding snapshot lacks its exact revision index reference");
               Ok (inl existing)
             else Err divergent_snapshot
         | None => plan ← binding_plan v snapshot now_secs; Ok (inr plan)
         end) with
  | Err e => (Err e, s)
  | Ok (inl existing) => (Ok existing, s)
  | Ok (inr (mutations, preconditions)) =>
      match commit_governed_memory_transaction
              {| batch_transaction_id := "post_turn_governance_binding_"
                                         +:+ bs_canonical_digest snapshot;
                 batch_operation := "post_turn.governance.binding.ensure"; batch_scope := scope;
                 batch_mutations := mutations |} preconditions [] None now_secs s with
      | (Ok _, s') => (Ok snapshot, s')
      | (Err e, s') =>
          if String.eqb (error_stage e) "memory_write_transaction_precondition_failed" then
            (existing ← read_binding_snapshot later id revision;
             index ← read_binding_revision_index later id;
             match existing with
             | Some existing =>
                 if binding_snapshots_share_canonical_identity existing snapshot
                    && has_exact_ref existing index
                 then Ok existing else Err divergent_snapshot
             | None => Err e
             end, s')
          else (Err e, s')
      end
  end.

End Jobs.
