(* ===== verification/GovernanceFacts.v ===== *)
(** * Post-turn governance: what a transition and a commit do

    Lemmas about [GovernanceJobs]: how a transition changes the job and the
    index of its scope, what a successful commit says about the documents it
    replaced, and the same for the creation of jobs. *)

From stdpp Require Import sorting.
From S2P Require Import Prelude Errors RustStr RustOrd Governed StoreTypes StoreTransaction StoreFacts ReadSession LongTermVersion TurnTypes Transcript GovernanceTypes MutationOperation GovernanceJobs.

Local Open Scope string_scope.
Local Open Scope list_scope.
Local Open Scope N_scope.

(** Documented behaviour of [serde_json]: reading back what was written gives
    the same value. *)
Class GovernanceCodecLaws `{GovernanceCodec} : Prop := {
  job_round_trip j v : job_to_value j = inr v → job_from_value v = inr j;
  index_round_trip x v : index_to_value x = inr v → index_from_value v = inr x;
  snapshot_round_trip b v : snapshot_to_value b = inr v → snapshot_from_value v = inr b;
  revision_index_round_trip x v :
    revision_index_to_value x = inr v → revision_index_from_value v = inr x;
}.

(** ** Deep plans

    Inversion of long computations one call at a time. *)

Lemma bind_ok {A B} (f : A → result B) (r : result A) b :
  r ≫= f = Ok b → ∃ a, r = Ok a ∧ f a = Ok b.
Proof. destruct r; cbn; eauto. done. Qed.

Lemma ensure_ok b e u : ensure b e = Ok u → b = true.
Proof. by destruct b. Qed.

(** The converse: one successful call of a computation. *)
Lemma bind_eq {A B} (f : A → result B) (r : result A) a : r = Ok a → r ≫= f = f a.
Proof. by intros ->. Qed.

Lemma ensure_true b e : b = true → ensure b e = Ok tt.
Proof. by intros ->. Qed.

Lemma encoded_inr {A} stage (r : string + A) a : r = inr a → encoded stage r = Ok a.
Proof. by intros ->. Qed.

Ltac inv_plan :=
  repeat match goal with
  | H : mbind _ _ = Ok _ |- _ =>
      let a := fresh "a" in let E := fresh "E" in
      apply bind_ok in H as (a & E & H); cbv beta in H
  | H : ensure _ _ = Ok _ |- _ => apply ensure_ok in H
  | H : Ok _ = Ok _ |- _ => injection H; clear H; intros; subst
  | H : Err _ = Ok _ |- _ => discriminate H
  end.

(** ** Lists *)

Lemma has_duplicates_NoDup l : has_duplicates l = false ↔ NoDup l.
Proof.
  induction l as [|x l IH]; cbn; [split; [constructor|done]|].
  rewrite orb_false_iff, NoDup_cons, IH, bool_decide_eq_false. done.
Qed.

(** The one element that satisfies the test is replaced. *)
Lemma elem_of_replace_first {A} (f : A → string) (k : string) (y : A) (l : list A) :
  let p := λ a, String.eqb (f a) k in
  NoDup (f <$> l) → List.find p l ≠ None →
  ∀ x, x ∈ replace_first p y l ↔ (x ∈ l ∧ f x ≠ k) ∨ x = y.
Proof.
  intros p. induction l as [|a l IH]; cbn; [done|]. intros [Hn Hnd]%NoDup_cons Hf x.
  unfold p in Hf |- *. destruct (String.eqb_spec (f a) k) as [He|He].
  - rewrite !elem_of_cons. split.
    + intros [->|H]; [by right|]. left. split; [by right|]. intros <-. apply Hn. rewrite He.
      apply list_elem_of_fmap. eauto.
    + intros [([->|H] & Hk)| ->]; auto. done.
  - rewrite !elem_of_cons. fold p in Hf |- *. rewrite (IH Hnd Hf). set_solver.
Qed.

Lemma fmap_replace_first {A} (f : A → string) (k : string) (y : A) (l : list A) :
  f y = k → f <$> replace_first (λ a, String.eqb (f a) k) y l = f <$> l.
Proof.
  intros Hy. induction l as [|a l IH]; cbn; [done|].
  destruct (String.eqb_spec (f a) k) as [->|]; cbn; congruence.
Qed.

Lemma len_fmap {A B} (f : A → B) l : len (f <$> l) = len l.
Proof. unfold len. by rewrite length_fmap. Qed.

Section Facts.
Context `{gcodec : GovernanceCodec} {ocodec : OperationCodec}.
Context {learning : LearningEvidence} {qcodec : QueueCodec}.

Abbreviation Job := PostTurnGovernanceJobV4.
Abbreviation Index := PostTurnGovernanceScopeIndexV4.

(** ** Transitions *)

(** What no transition changes in a job. *)
Record same_authority (b a : Job) : Prop := {
  sa_job_id : jb_job_id a = jb_job_id b;
  sa_scope : jb_scope_index_key a = jb_scope_index_key b;
  sa_identity : jb_identity a = jb_identity b;
  sa_sequence : jb_transcript_sequence a = jb_transcript_sequence b;
  sa_digest : jb_transcript_digest a = jb_transcript_digest b;
  sa_privacy : jb_privacy_authority a = jb_privacy_authority b;
  sa_max : jb_max_attempts a = jb_max_attempts b;
}.

Definition claims (b a : Job) : Prop :=
  jb_status a = Leased ∧ jb_lease_epoch a = jb_lease_epoch b + 1
  ∧ jb_attempt_count a = jb_attempt_count b + 1 ∧ jb_attempt_count b < jb_max_attempts b.

Definition keeps_lease (b a : Job) : Prop :=
  jb_lease_epoch a = jb_lease_epoch b ∧ jb_attempt_count a = jb_attempt_count b
  ∧ (jb_status a = Leased → jb_status b = Leased ∧ jb_lease_owner a = jb_lease_owner b).

(** How a transition changes a job. *)
Record job_next (b a : Job) : Prop := {
  jn_same : same_authority b a;
  jn_valid : job_validate a = Ok tt;
  jn_active : status_is_terminal (jb_status b) = false;
  jn_revision : jb_state_revision a = jb_state_revision b + 1;
  jn_binding : jb_execution_binding b ≠ Unbound → jb_execution_binding a = jb_execution_binding b;
  jn_lease : claims b a ∨ keeps_lease b a;
}.

(** The index after the job: the same scope, and the reference of the job
    replaced by the new one. *)
Record index_next (x : Index) (a : Job) (x' : Index) : Prop := {
  in_valid : index_validate x' = Ok tt;
  in_key : ix_scope_index_key x' = ix_scope_index_key x;
  in_cursors : ix_reconciliation_cursors x' = ix_reconciliation_cursors x;
  in_refs : NoDup (rf_job_id <$> index_refs x) → ∀ r,
    r ∈ index_refs x' ↔ (r ∈ index_refs x ∧ rf_job_id r ≠ jb_job_id a) ∨ r = ref_from_job a;
}.

Lemma index_validate_NoDup x : index_validate x = Ok tt → NoDup (rf_job_id <$> index_refs x).
Proof.
  unfold index_validate. intros H. inv_ok. split_bool. by apply has_duplicates_NoDup.
Qed.

Lemma bump_index_ok stage m now x x' :
  bump_index stage m now x = Ok x' →
  index_validate x' = Ok tt ∧ ix_scope_index_key x' = ix_scope_index_key x
  ∧ ix_reconciliation_cursors x' = ix_reconciliation_cursors x
  ∧ ix_active_jobs x' = ix_active_jobs x ∧ ix_recent_terminal_jobs x' = ix_recent_terminal_jobs x.
Proof. unfold bump_index. intros H. inv_ok. split_and!; [by eapply unit_ok|done..]. Qed.

Lemma check_ref_ok stage m d x b u :
  check_ref stage m d x b = Ok u → find_ref x (jb_job_id b) ≠ None.
Proof. unfold check_ref. by destruct (find_ref _ _). Qed.

(** The reference of an active job is not among the terminal ones. *)
Lemma terminal_other x id :
  NoDup (rf_job_id <$> index_refs x) → find_ref x id ≠ None →
  NoDup (rf_job_id <$> ix_active_jobs x)
  ∧ ∀ r, r ∈ ix_recent_terminal_jobs x → rf_job_id r ≠ id.
Proof.
  intros Hnd Hf. unfold index_refs in Hnd. rewrite fmap_app in Hnd.
  apply NoDup_app in Hnd as (Hnd & Hdis & _). split; [done|].
  intros r' Hr' <-. unfold find_ref in Hf. destruct (List.find _ _) as [r0|] eqn:H0; [|done].
  apply List.find_some in H0 as [Hin Hid]. unfold ref_is in Hid. apply String.eqb_eq in Hid.
  apply (Hdis (rf_job_id r')); apply list_elem_of_fmap; [exists r0|exists r']; split; try done.
  by apply list_elem_of_In.
Qed.

Lemma index_next_refs x id y :
  NoDup (rf_job_id <$> index_refs x) → find_ref x id ≠ None →
  ∀ r, (r ∈ replace_first (ref_is id) y (ix_active_jobs x) ++ ix_recent_terminal_jobs x)
    ↔ (r ∈ index_refs x ∧ rf_job_id r ≠ id) ∨ r = y.
Proof.
  intros Hnd Hf r. destruct (terminal_other x id Hnd Hf) as [Hnd' Ht].
  pose proof (elem_of_replace_first rf_job_id id y (ix_active_jobs x) Hnd' Hf r) as He.
  unfold index_refs. rewrite !elem_of_app. unfold ref_is at 1. rewrite He.
  specialize (Ht r). naive_solver.
Qed.

Lemma active_transition_ok stage now b a x t :
  active_transition stage now b a x = Ok t → jb_job_id a = jb_job_id b →
  jt_before_job t = b ∧ jt_after_job t = a ∧ jt_before_index t = x
  ∧ jt_extra_mutations t = [] ∧ jt_extra_preconditions t = []
  ∧ job_validate a = Ok tt ∧ index_next x a (jt_after_index t).
Proof.
  unfold active_transition, replace_scope_index_ref. intros H Hid. inv_ok.
  split_and!; try done; [by eapply unit_ok|].
  match goal with H : bump_index _ _ _ _ = _ |- _ =>
    apply bump_index_ok in H as (? & ? & ? & Ha & Ht) end.
  split; [done..|]. intros Hnd r. cbn [jt_after_index]. unfold index_refs at 1. rewrite Ha, Ht, Hid.
  cbn. apply index_next_refs; [done|]. by eapply check_ref_ok.
Qed.

Lemma terminal_transition_ok stage m d now b a x t :
  terminal_transition stage m d now b a x = Ok t → jb_job_id a = jb_job_id b →
  jt_before_job t = b ∧ jt_after_job t = a ∧ jt_before_index t = x
  ∧ jt_extra_mutations t = [] ∧ jt_extra_preconditions t = []
  ∧ job_validate a = Ok tt ∧ index_next x a (jt_after_index t).
Proof.
  unfold terminal_transition, append_terminal_ref. intros H Hid. inv_ok. split_bool.
  split_and!; try done; [by eapply unit_ok|].
  match goal with H : bump_index _ _ _ _ = _ |- _ =>
    apply bump_index_ok in H as (? & ? & ? & Ha & Ht) end.
  split; [done..|]. intros Hnd r. cbn [jt_after_index]. unfold index_refs at 1.
  rewrite Ha, Ht. cbn [ix_active_jobs ix_recent_terminal_jobs set_recent_terminal_jobs drop_active set_active_jobs].
  rewrite sort_by_perm, !elem_of_app, list_elem_of_singleton, Hid.
  rewrite !list_elem_of_In, filter_In, <- !list_elem_of_In. unfold ref_is.
  rewrite negb_true_iff, String.eqb_neq. unfold index_refs. rewrite elem_of_app.
  edestruct (terminal_other x (jb_job_id b)) as [_ Hno]; [done|by eapply check_ref_ok|].
  specialize (Hno r). naive_solver.
Qed.

Lemma increment_ok l e n m : increment l e n = Ok m → m = n + 1 ∧ m ≤ l.
Proof. unfold increment. destruct (n + 1 <=? l) eqn:E; [|done]. intros [= <-]. split_bool. lia. Qed.

Lemma holds_lease_true j owner epoch now :
  holds_lease j owner epoch now = true →
  jb_status j = Leased ∧ jb_lease_owner j = Some owner ∧ jb_lease_epoch j = epoch
  ∧ ∃ until, jb_lease_until j = Some until ∧ now < until.
Proof.
  unfold holds_lease. intros H. split_bool. destruct (jb_lease_until j) as [u|]; [|done].
  split_bool. split_and!; [done..|]. by exists u.
Qed.

(** What a plan that succeeds commits: the extra mutations of a transition only
    mark binding revisions as referenced. *)
Definition is_reference_namespace (ns : string) : bool :=
  String.eqb ns POST_TURN_GOVERNANCE_BINDING_REVISION_INDEX_NAMESPACE.

Definition reference_only (ms : list StoreMutation) : bool :=
  forallb (λ m, match m with
                | DeclPutJson ns _ _ _ _ _ => is_reference_namespace ns
                | _ => false
                end) ms.

Record transition_ok (t : job_transition) : Prop := {
  tk_job : job_next (jt_before_job t) (jt_after_job t);
  tk_index : index_next (jt_before_index t) (jt_after_job t) (jt_after_index t);
  tk_extra : reference_only (jt_extra_mutations t) = true;
}.

Lemma append_reference_ok v binding now acc acc' :
  append_binding_reference_mutation v binding now acc = Ok acc' →
  ∃ ms ps, acc' = (acc.1 ++ ms, acc.2 ++ ps) ∧ reference_only ms = true.
Proof.
  unfold append_binding_reference_mutation. destruct binding as [|id rev], acc as [m0 p0].
  { intros [= <-]. exists [], []. by rewrite !app_nil_r. }
  intros H. inv_ok. destruct (br_referenced _) in H.
  - injection H as <-. exists [], [a3; a4]. by rewrite app_nil_r.
  - inv_ok. by eexists [_], [a3; a4].
Qed.

(** The transition of a plan, from the rest it ends in. *)
Lemma transition_ok_intro t b a x :
  jt_before_job t = b ∧ jt_after_job t = a ∧ jt_before_index t = x
  ∧ jt_extra_mutations t = [] ∧ jt_extra_preconditions t = []
  ∧ job_validate a = Ok tt ∧ index_next x a (jt_after_index t) →
  (job_validate a = Ok tt → job_next b a) → transition_ok t.
Proof. intros (<- & <- & <- & Hm & _ & Hv & Hx) Hn. split; [by apply Hn|done|by rewrite Hm]. Qed.

Lemma active_not_terminal s : status_is_active s = true → status_is_terminal s = false.
Proof. by destruct s. Qed.

Lemma same_authority_refl j : same_authority j j.
Proof. by split. Qed.

Ltac plan_ok :=
  repeat match goal with
  | H : increment _ _ _ = Ok _ |- _ => apply increment_ok in H as [-> ?]
  | H : holds_lease _ _ _ _ = true |- _ => apply holds_lease_true in H as (? & ? & ? & ? & ? & ?)
  end.

Ltac transition :=
  match goal with
  | H : active_transition _ _ _ _ _ = Ok _ |- _ =>
      apply active_transition_ok in H; [|done]; apply (transition_ok_intro _ _ _ _ H)
  | H : terminal_transition _ _ _ _ _ _ _ = Ok _ |- _ =>
      apply terminal_transition_ok in H; [|done]; apply (transition_ok_intro _ _ _ _ H)
  end; intros Hvalid; split;
    [by split|done
    |first [done|match goal with H : jb_status _ = _ |- _ => by rewrite H end]
    |done|try done|right; try by split_and!].

Lemma claimed_job_next b owner until authority now :
  let a := claimed_job b owner until authority (jb_state_revision b + 1) (jb_attempt_count b + 1)
             (jb_lease_epoch b + 1) now in
  job_validate a = Ok tt → status_is_terminal (jb_status b) = false →
  jb_attempt_count b < jb_max_attempts b →
  match jb_execution_binding b with
  | Unbound => true
  | Bound id revision => String.eqb id (at_binding_id authority)
                         && (revision =? at_binding_revision authority)
  end = true →
  job_next b a ∧ claims b a.
Proof.
  intros a Hv Ht Hm Hb. assert (claims b a) as Hc by (by split_and!). split; [|done].
  split; [by split|done|done|done| |by left].
  intros Hu. destruct (jb_execution_binding b) as [|i r]; [done|]. split_bool.
  cbn. f_equal; [symmetry; by apply String.eqb_eq|done].
Qed.

Lemma claim_plan_ok v id owner until authority now t :
  claim_plan v id owner until authority now = Ok t →
  transition_ok t ∧ claims (jt_before_job t) (jt_after_job t)
  ∧ jb_lease_owner (jt_after_job t) = Some owner ∧ jb_lease_until (jt_after_job t) = Some until
  ∧ lease_active (jt_before_job t) now = false.
Proof.
  cbv beta zeta delta [claim_plan]. intros H. inv_plan. split_bool. plan_ok.
  match goal with H : active_transition _ _ _ _ _ = Ok _ |- _ =>
    apply active_transition_ok in H as (Hb & Ha & Hx & Hm & _ & Hv & Hnx); [|done] end.
  destruct (claimed_job_next _ _ _ _ _ Hv) as [Hn Hc]; [done..|].
  destruct (bool_decide _).
  - inv_plan. match goal with H : append_binding_reference_mutation _ _ _ _ = _ |- _ =>
      apply append_reference_ok in H as (ms & ps & -> & Hr) end.
    split_and!; [by split|done..].
  - injection H as <-. rewrite Hb, Ha. split_and!; [|done..].
    split; [by rewrite Hb, Ha|by rewrite Hx, Ha|by rewrite Hm].
Qed.

(** A transition of a job whose lease, if any, is kept or given up. *)
Definition keeps_ok (t : job_transition) : Prop :=
  transition_ok t ∧ keeps_lease (jt_before_job t) (jt_after_job t).

Lemma require_ok {A} e (r : result (option A)) a : require e r = Ok a → r = Ok (Some a).
Proof. unfold require. destruct r as [[b|]|]; cbn; [by intros [= ->]|done..]. Qed.

(** A transition by the holder of the lease of the job read under [id]. *)
Definition holder_ok (v : view) (id owner : string) (epoch now : N) (t : job_transition) : Prop :=
  keeps_ok t ∧ holds_lease (jt_before_job t) owner epoch now = true
  ∧ read_job v id = Ok (Some (jt_before_job t)).

Ltac rest_of H :=
  let Ht := fresh in let Hb := fresh in let Ha := fresh in
  pose proof H as Ht;
  first [apply active_transition_ok in Ht as (Hb & Ha & _)
        |apply terminal_transition_ok in Ht as (Hb & Ha & _)]; [|done];
  unfold holder_ok, keeps_ok; rewrite Hb, Ha.

Ltac kept_lease := split_and!; [done|done|cbn; intros Hl; first [done|by subst]].
Ltac kept := plan_ok; split; [transition; kept_lease|kept_lease].

Lemma renew_plan_ok v id owner epoch until now t :
  renew_plan v id owner epoch until now = Ok t → holder_ok v id owner epoch now t.
Proof.
  cbv beta zeta delta [renew_plan]. intros H. inv_plan. split_bool. rest_of H.
  split; [kept|split; [done|by eapply require_ok]].
Qed.

Lemma retry_plan_ok v id owner epoch e now t :
  retry_plan v id owner epoch e now = Ok t → holder_ok v id owner epoch now t.
Proof.
  cbv beta zeta delta [retry_plan]. intros H. inv_plan. split_bool.
  destruct (_ <=? _) in H; rest_of H; (split; [kept|split; [done|by eapply require_ok]]).
Qed.

Lemma block_plan_ok v id status reason authority now t :
  block_plan v id status reason authority now = Ok (inr t) → keeps_ok t.
Proof.
  cbv beta zeta delta [block_plan]. intros H. inv_plan. split_bool.
  destruct (_ && _) in H; [done|]. inv_plan. split_bool.
  match goal with H : active_transition _ _ _ _ _ = _ |- _ => rest_of H end. kept.
Qed.

Lemma block_claimed_plan_ok v id owner epoch status reason authority now t :
  block_claimed_plan v id owner epoch status reason authority now = Ok t →
  holder_ok v id owner epoch now t.
Proof.
  cbv beta zeta delta [block_claimed_plan]. intros H. inv_plan. split_bool. rest_of H.
  split; [kept|split; [done|by eapply require_ok]].
Qed.

Lemma blocked_active s : is_blocked s = true → status_is_terminal s = false.
Proof. by destruct s. Qed.

Lemma resume_plan_ok v id now t : resume_plan v id now = Ok t → keeps_ok t.
Proof.
  cbv beta zeta delta [resume_plan]. intros H. inv_plan.
  match goal with H : is_blocked _ = true |- _ => apply blocked_active in H end.
  rest_of H. kept.
Qed.

Lemma credential_resume_plan_ok v id credential generation operation now t :
  credential_resume_plan v id credential generation operation now = Ok t → keeps_ok t.
Proof.
  cbv beta zeta delta [credential_resume_plan]. intros H. inv_plan. split_bool. rest_of H. kept.
Qed.

Lemma permission_resume_plan_ok v id binding revision generation operation now t :
  permission_resume_plan v id binding revision generation operation now = Ok t → keeps_ok t.
Proof.
  cbv beta zeta delta [permission_resume_plan]. intros H. inv_plan. split_bool. rest_of H. kept.
Qed.

Lemma fail_plan_ok v id owner epoch e reason now t :
  fail_plan v id owner epoch e reason now = Ok t → holder_ok v id owner epoch now t.
Proof.
  cbv beta zeta delta [fail_plan]. intros H. inv_plan. split_bool. rest_of H.
  split; [kept|split; [done|by eapply require_ok]].
Qed.

Lemma cancel_plan_ok v id reason now t : cancel_plan v id reason now = Ok (inr t) → keeps_ok t.
Proof.
  cbv beta zeta delta [cancel_plan]. intros H. inv_plan.
  destruct (status_is_terminal _) eqn:Hs in H; [done|]. inv_plan.
  match goal with H : terminal_transition _ _ _ _ _ _ _ = _ |- _ => rest_of H end. kept.
Qed.

(** ** Plans of completions *)

(** The mutations touch no document of the queue. *)
Definition leaves_queue (ms : list StoreMutation) : Prop :=
  existsb (touches_namespace is_governance_namespace) ms = false.

Lemma merge_steps l m m' :
  try_fold merge_completion_step m l = Ok m' →
  (∀ a q, m !! a = Some q → m' !! a = Some q)
  ∧ ∀ p, p ∈ l → m' !! json_precondition_address p = Some p.
Proof.
  revert m. induction l as [|p l IH]; intros m; cbn.
  { intros [= <-]. split; [done|]. by intros p Hp%not_elem_of_nil. }
  intros H. apply bind_ok in H as (m1 & H1 & H). apply IH in H as [Hkeep Hin].
  unfold merge_completion_step in H1.
  assert (m1 !! json_precondition_address p = Some p
          ∧ ∀ a q, m !! a = Some q → m1 !! a = Some q) as [Hp Hm].
  { destruct (m !! json_precondition_address p) as [q|] eqn:Hq.
    - inv_plan. split_bool. subst q. done.
    - injection H1 as <-. split; [by rewrite lookup_insert_eq|].
      intros a q Ha. rewrite lookup_insert_ne; [done|]. intros <-. congruence. }
  split; [auto|]. intros q [->|Hq]%elem_of_cons; auto.
Qed.

Lemma merge_completion_elem target incoming l p :
  merge_completion_preconditions target incoming = Ok l → p ∈ target ++ incoming → p ∈ l.
Proof.
  unfold merge_completion_preconditions. intros H Hp. inv_plan.
  match goal with H : try_fold _ _ _ = _ |- _ => apply merge_steps in H as [_ Hm] end.
  apply list_elem_of_fmap. exists (json_precondition_address p, p). split; [done|].
  by apply elem_of_btree_map_iter, Hm.
Qed.

(** What a completion that is not repeated commits. *)
Record completion_ok (v : view) (id : string) (memory : list StoreMutation) (owner : string) (epoch now : N)
    (p : GovernanceCompletionPending) (t : job_transition) : Prop := {
  ck_holder : holder_ok v id owner epoch now t;
  ck_after : cp_after_job p = jt_after_job t;
  ck_status : jb_status (jt_after_job t) = Succeeded;
  ck_receipt : jb_receipt (jt_after_job t) = Some (cp_expected_receipt p);
  ck_memory : leaves_queue memory;
  ck_values : ∃ jv xv jv' xv',
    job_to_value (jt_before_job t) = inr jv ∧ index_to_value (jt_before_index t) = inr xv
    ∧ job_to_value (jt_after_job t) = inr jv' ∧ index_to_value (jt_after_index t) = inr xv'
    ∧ JsonExact POST_TURN_GOVERNANCE_JOB_NAMESPACE (jb_job_id (jt_before_job t)) jv
        ∈ cp_preconditions p
    ∧ JsonExact POST_TURN_GOVERNANCE_SCOPE_INDEX_NAMESPACE (jb_scope_index_key (jt_before_job t))
        xv ∈ cp_preconditions p
    ∧ batch_mutations (cp_batch p)
      = memory ++ [put_json POST_TURN_GOVERNANCE_JOB_NAMESPACE (jb_job_id (jt_after_job t)) jv';
                   put_json POST_TURN_GOVERNANCE_SCOPE_INDEX_NAMESPACE
                     (jb_scope_index_key (jt_after_job t)) xv'];
}.

Lemma completion_plan_ok v scope id owner epoch decision memory pre now p :
  plan_governance_job_completion v scope id owner epoch decision memory pre now
  = Ok (PendingCompletion p) →
  ∃ t, completion_ok v id memory owner epoch now p t.
Proof.
  cbv beta zeta delta [plan_governance_job_completion]. intros H. inv_plan.
  match goal with d : (_ * _)%type |- _ => destruct d as [method conditions] end.
  inv_plan. destruct (bool_decide _) in H; inv_plan; [done|].
  unfold touches_governance in *. split_bool.
  repeat match goal with H : encoded _ _ = Ok _ |- _ => apply encoded_ok in H end.
  match goal with H : terminal_transition _ _ _ _ _ _ _ = Ok ?t0 |- _ =>
    exists t0; pose proof H as Ht;
    apply terminal_transition_ok in Ht as (Hb & Ha & Hx & _); [|done] end.
  split.
  - match goal with H : terminal_transition _ _ _ _ _ _ _ = Ok _ |- _ => rest_of H end.
    split; [kept|split; [done|by eapply require_ok]].
  - done.
  - by rewrite Ha.
  - by rewrite Ha.
  - done.
  - rewrite Hb, Ha, Hx. eexists _, _, _, _. split_and!; try done.
    all: eapply merge_completion_elem; [done|set_solver].
Qed.

(** ** Commits *)

Context {glaws : GovernanceCodecLaws}.
Context {S : Type} {platform : StorePlatform S} {plaws : StorePlatformLaws S}.

Abbreviation job_address id := (POST_TURN_GOVERNANCE_JOB_NAMESPACE, id).
Abbreviation index_address key := (POST_TURN_GOVERNANCE_SCOPE_INDEX_NAMESPACE, key).

Definition stored_job (s : S) (id : string) (j : Job) : Prop :=
  ∃ v, platform_doc s (job_address id) = Some v ∧ job_from_value v = inr j.

Definition stored_index (s : S) (key : string) (x : Index) : Prop :=
  ∃ v, platform_doc s (index_address key) = Some v ∧ index_from_value v = inr x.

Lemma stored_job_unique s id j j' : stored_job s id j → stored_job s id j' → j = j'.
Proof. intros (v & Hv & H) (v' & Hv' & H'). congruence. Qed.

Lemma stored_index_unique s key x x' : stored_index s key x → stored_index s key x' → x = x'.
Proof. intros (v & Hv & H) (v' & Hv' & H'). congruence. Qed.

(** The documents of the queue are the same. *)
Definition same_queue (s s' : S) : Prop :=
  ∀ a, is_governance_namespace a.1 = true → platform_doc s' a = platform_doc s a.

Lemma governance_owned ns : is_governance_namespace ns = true → owned_namespace ns = true.
Proof.
  unfold is_governance_namespace, owned_namespace. intros [->| ->]%orb_true_iff;
    by rewrite ?orb_true_r.
Qed.

Lemma governance_not_operation ns :
  is_governance_namespace ns = true → is_operation_namespace ns = false.
Proof. unfold is_governance_namespace. intros [->%String.eqb_eq| ->%String.eqb_eq]%orb_true_iff; done. Qed.

Lemma reference_leaves ms : reference_only ms = true → leaves_queue ms.
Proof.
  unfold leaves_queue. induction ms as [|m ms IH]; [done|]. cbn. intros [Hm H]%andb_true_iff.
  rewrite (IH H), orb_false_r. destruct m; try done. apply String.eqb_eq in Hm as ->. done.
Qed.

(** What a commit does to the documents of the queue. *)
Lemma queue_commit b pre bpre op now s r s' :
  commit_governed_memory_transaction b pre bpre op now s = (r, s') →
  match r with
  | Err _ => same_queue s s'
  | Ok _ => (∀ p, p ∈ pre → platform_doc s (json_precondition_address p) = expected p)
            ∧ ∀ a, is_governance_namespace a.1 = true →
                platform_doc s' a = mutated (batch_mutations b) a (platform_doc s a)
  end.
Proof.
  unfold commit_governed_memory_transaction.
  destruct (platform_closures b pre op now s) as [[b0 pre0]|] eqn:Hcl; [|by intros [= <- <-]].
  apply closures_keep in Hcl as [Hms Hpres]. cbn -[append_mutation_operation_records].
  destruct (append_mutation_operation_records b0 pre0 op now) as [[b' pre']|] eqn:Happ;
    [|by intros [= <- <-]].
  destruct (validate_mutation_operation_closure _ _ _) as [[]|]; [|by intros [= <- <-]].
  intros Hc. pose proof (platform_commit_law b' pre' bpre now s) as Hl. rewrite Hc in Hl.
  destruct r as [u|e]; [|intros a _; apply Hl]. destruct Hl as [Hpre Hdoc].
  destruct op as [op|].
  - apply append_records_some in Happ as (au & re & av & rv & Ha).
    rewrite (ar_pre _ _ _ _ _ _ _ _ _ _ Ha) in Hpre.
    split; [intros p Hp%Hpres; apply Hpre, elem_of_app; by left|]. intros a Hns.
    rewrite Hdoc by (by apply governance_owned).
    rewrite (ar_batch _ _ _ _ _ _ _ _ _ _ Ha), mutated_app, Hms by (by apply governance_owned). cbn.
    pose proof (governance_not_operation _ Hns) as Hno.
    rewrite !decide_False; [done|intros ->; done..].
  - apply append_records_none in Happ as (-> & -> & _). split; [auto|]. intros a Hns.
    rewrite <- Hms by (by apply governance_owned). by apply Hdoc, governance_owned.
Qed.

(** The job and the index of its scope were what the transition started from,
    and are what it ends in. *)
Record written (s : S) (t : job_transition) (s' : S) : Prop := {
  wr_job : stored_job s (jb_job_id (jt_before_job t)) (jt_before_job t);
  wr_index : stored_index s (jb_scope_index_key (jt_before_job t)) (jt_before_index t);
  wr_job' : stored_job s' (jb_job_id (jt_before_job t)) (jt_after_job t);
  wr_index' : stored_index s' (jb_scope_index_key (jt_before_job t)) (jt_after_index t);
  wr_other a : is_governance_namespace a.1 = true →
    a ≠ job_address (jb_job_id (jt_before_job t)) →
    a ≠ index_address (jb_scope_index_key (jt_before_job t)) →
    platform_doc s' a = platform_doc s a;
}.

Lemma commit_written b pre bpre op now s u s' t jv xv jv' xv' ms ms' :
  commit_governed_memory_transaction b pre bpre op now s = (Ok u, s') →
  same_authority (jt_before_job t) (jt_after_job t) →
  job_to_value (jt_before_job t) = inr jv → index_to_value (jt_before_index t) = inr xv →
  job_to_value (jt_after_job t) = inr jv' → index_to_value (jt_after_index t) = inr xv' →
  JsonExact POST_TURN_GOVERNANCE_JOB_NAMESPACE (jb_job_id (jt_before_job t)) jv ∈ pre →
  JsonExact POST_TURN_GOVERNANCE_SCOPE_INDEX_NAMESPACE (jb_scope_index_key (jt_before_job t)) xv
    ∈ pre →
  batch_mutations b
  = ms ++ [put_json POST_TURN_GOVERNANCE_JOB_NAMESPACE (jb_job_id (jt_after_job t)) jv';
           put_json POST_TURN_GOVERNANCE_SCOPE_INDEX_NAMESPACE
             (jb_scope_index_key (jt_after_job t)) xv'] ++ ms' →
  leaves_queue ms → leaves_queue ms' → written s t s'.
Proof.
  intros Hc [Hid Hkey _ _ _ _ _] Hj Hx Hj' Hx' Hpj Hpx Hb Hm Hm'.
  apply queue_commit in Hc as [Hpre Hdoc].
  assert (∀ a, is_governance_namespace a.1 = true → platform_doc s' a
    = mutated [put_json POST_TURN_GOVERNANCE_JOB_NAMESPACE (jb_job_id (jt_before_job t)) jv';
               put_json POST_TURN_GOVERNANCE_SCOPE_INDEX_NAMESPACE
                 (jb_scope_index_key (jt_before_job t)) xv'] a (platform_doc s a)) as Hdoc'.
  { intros a Ha. rewrite Hdoc, Hb, Hid, Hkey, !mutated_app by done.
    rewrite (mutated_other is_governance_namespace ms' _ _ Hm' Ha).
    by rewrite (mutated_other is_governance_namespace ms _ _ Hm Ha). }
  split.
  - exists jv. split; [apply (Hpre _ Hpj)|by apply job_round_trip].
  - exists xv. split; [apply (Hpre _ Hpx)|by apply index_round_trip].
  - exists jv'. split; [|by apply job_round_trip]. rewrite Hdoc' by done. cbn.
    by rewrite decide_False, decide_True by done.
  - exists xv'. split; [|by apply index_round_trip]. rewrite Hdoc' by done. cbn.
    by rewrite decide_True by done.
  - intros a Ha H1 H2. rewrite Hdoc' by done. cbn. by rewrite !decide_False by done.
Qed.

Lemma transition_written scope operation t now s u s' :
  commit_job_and_index_with_extra scope operation t now s = (Ok u, s') →
  transition_ok t → written s t s'.
Proof.
  unfold commit_job_and_index_with_extra. intros H Hok.
  destruct (encoded _ _ ≫= _) as [[ms ps]|] eqn:E; [|done]. inv_plan.
  repeat match goal with H : encoded _ _ = Ok _ |- _ => apply encoded_ok in H end.
  eapply (commit_written _ _ _ _ _ _ _ _ t _ _ _ _ [] (jt_extra_mutations t) H);
    [apply (tk_job _ Hok)|done..|set_solver|set_solver|done|done|].
  by apply reference_leaves, tk_extra.
Qed.

Lemma transition_failed scope operation t now s e s' :
  commit_job_and_index_with_extra scope operation t now s = (Err e, s') → same_queue s s'.
Proof.
  unfold commit_job_and_index_with_extra. intros H.
  destruct (encoded _ _ ≫= _) as [[ms ps]|] eqn:E; [|by injection H as _ <-].
  by apply queue_commit in H.
Qed.

Lemma run_plan_cases scope operation now plan s r s' :
  run_plan scope operation now plan s = (r, s') →
  same_queue s s' ∧ (∀ j, r = Ok j → plan = Ok (inl j))
  ∨ ∃ t, plan = Ok (inr t) ∧ r = Ok (jt_after_job t) ∧ (transition_ok t → written s t s').
Proof.
  unfold run_plan. destruct plan as [[j|t]|e].
  - intros [= <- <-]. left. split; [done|]. by intros ? [= ->].
  - destruct (commit_job_and_index_with_extra _ _ _ _ _) as [[u|e] s1] eqn:Hc; intros [= <- <-].
    + right. exists t. split_and!; [done..|]. by eapply transition_written.
    + left. split; [by eapply transition_failed|done].
  - intros [= <- <-]. by left.
Qed.

(** *** Completion *)

Lemma completion_cases v later scope id owner epoch decision memory pre bpre now s r s' :
  complete_governance_job_with_memory_plan v later scope id owner epoch decision memory pre bpre
    now s = (r, s') →
  same_queue s s'
  ∨ ∃ p t, plan_governance_job_completion v scope id owner epoch decision memory pre now
           = Ok (PendingCompletion p)
    ∧ completion_ok v id memory owner epoch now p t ∧ r = Ok (jt_after_job t) ∧ written s t s'.
Proof.
  unfold complete_governance_job_with_memory_plan.
  destruct (plan_governance_job_completion _ _ _ _ _ _ _ _ _) as [[j tx|p]|e] eqn:Hp;
    [by intros [= <- <-]; left| |by intros [= <- <-]; left].
  destruct (commit_governed_memory_transaction _ _ _ _ _ _) as [[u|e] s1] eqn:Hc;
    intros [= <- <-]; [right|left; by apply queue_commit in Hc].
  destruct (completion_plan_ok _ _ _ _ _ _ _ _ _ _ Hp) as [t Ht]. exists p, t.
  split_and!; [done..|by rewrite (ck_after _ _ _ _ _ _ _ _ Ht)|].
  pose proof Ht as [[[Hok _] _] _ _ _ Hmem (jv & xv & jv' & xv' & ? & ? & ? & ? & ? & ? & Hb)].
  eapply (commit_written _ _ _ _ _ _ _ _ t _ _ _ _ memory [] Hc); try done.
  apply (tk_job _ Hok).
Qed.

(** *** Recovery *)

(** The commit of an operation happens once, and then its records are read again
    from the state it left or from a later one. *)
Lemma operation_commit_cases s0 later b pre bpre op s r s' :
  commit_memory_mutation_operation s0 later b pre bpre op s = (r, s') →
  s' = s ∨ ∃ r1 s1, commit_governed_memory_transaction b pre bpre (Some op)
                      (op_committed_at_unix_secs op) s = (r1, s1) ∧ (s' = s1 ∨ s' = later s1).
Proof.
  unfold commit_memory_mutation_operation. destruct (operation_identity_validate _ ≫= _) as [[?|]|].
  1, 3: intros [= <- <-]; by left.
  destruct (commit_governed_memory_transaction _ _ _ _ _ _) as [[u|e] s1] eqn:Hc.
  - intros [= <- <-]. right. eauto.
  - destruct (String.eqb _ _); intros [= <- <-]; right; eauto.
Qed.

Lemma recovery_cases s0 later scope operation t caller actor kind key generation now s r s' :
  commit_recovery_job_and_index s0 later scope operation t caller actor kind key generation now s
  = (r, s') →
  transition_ok t →
  ∃ s1, (same_queue s s1 ∨ written s t s1) ∧ (s' = s1 ∨ s' = later s1).
Proof.
  cbv beta zeta delta [commit_recovery_job_and_index]. intros H Hok.
  destruct (governance_recovery_operation_identity _ _ _ _ ≫= _) as [[[plan ms] ps]|] eqn:E;
    [|injection H as _ <-; exists s; by split; left].
  inv_plan. repeat match goal with H : encoded _ _ = Ok _ |- _ => apply encoded_ok in H end.
  destruct (commit_memory_mutation_operation _ _ _ _ _ _ _) as [r' s2] eqn:Hc.
  assert (s2 = s') as -> by (by destruct r' as [[]|]; injection H as _ <-).
  apply operation_commit_cases in Hc as [->|(r1 & s1 & Hc & Hs)]; [exists s; by split; left|].
  exists s1. split; [|done]. destruct r1 as [u|e]; [right|left; by apply queue_commit in Hc].
  eapply (commit_written _ _ _ _ _ _ _ _ t _ _ _ _ [] [_] Hc); try done; [|set_solver..].
  apply (tk_job _ Hok).
Qed.

(** ** Creation *)

(** A batch that puts documents under different keys of one namespace. *)
Lemma mutated_puts_other ns (l : list (string * Value)) a o :
  (∀ k, k ∈ l.*1 → a ≠ (ns, k)) → mutated ((λ kv, put_json ns kv.1 kv.2) <$> l) a o = o.
Proof.
  revert o. induction l as [|[k v] l IH]; intros o H; [done|]. cbn.
  change (mutated ((λ kv, put_json ns kv.1 kv.2) <$> l) a
            (mutate a o (put_json ns k v)) = o).
  rewrite IH by set_solver. cbn. rewrite decide_False; [done|]. apply H. set_solver.
Qed.

Lemma mutated_puts ns (l : list (string * Value)) k v o :
  NoDup l.*1 → (k, v) ∈ l → mutated ((λ kv, put_json ns kv.1 kv.2) <$> l) (ns, k) o = Some v.
Proof.
  revert o. induction l as [|[k' v'] l IH]; intros o; [by intros _ ?%not_elem_of_nil|].
  cbn [fmap list_fmap fst]. intros [Hn Hnd]%NoDup_cons [H|H]%elem_of_cons.
  - injection H as <- <-.
    change (mutated ((λ kv, put_json ns kv.1 kv.2) <$> l) (ns, k)
              (mutate (ns, k) o (put_json ns k v)) = Some v).
    rewrite mutated_puts_other; [cbn; by rewrite decide_True|]. intros k' Hk' [= <-]. done.
  - exact (IH _ Hnd H).
Qed.

(** The stored transcript of the turn permits the job. *)
Definition authorized (s : S) (j : Job) : Prop :=
  ∃ l v, semantic_source j = Ok l
    ∧ platform_doc s (TRANSCRIPT_NAMESPACE, source_storage_key l) = Some v
    ∧ source_validate_record l v = Ok tt.

Definition index_or_empty (s : S) (key : string) (x : Index) : Prop :=
  stored_index s key x
  ∨ platform_doc s (index_address key) = None ∧ index_refs x = [] ∧ ix_reconciliation_cursors x = []
    ∧ ix_scope_index_key x = key.

(** New jobs in one scope, and references restored for jobs that lost theirs. *)
Record created (s : S) (key : string) (jobs restored : list Job) (x x' : Index) (s' : S) : Prop := {
  cr_valid j : j ∈ jobs → job_validate j = Ok tt ∧ jb_scope_index_key j = key
    ∧ platform_doc s (job_address (jb_job_id j)) = None ∧ authorized s j;
  cr_restored e : e ∈ restored → ∃ id, stored_job s id e ∧ status_is_active (jb_status e) = true
    ∧ identity_scope_id (jb_identity e) = key ∧ find_ref x (jb_job_id e) = None;
  cr_index : index_or_empty s key x;
  cr_index' : stored_index s' key x';
  cr_valid' : index_validate x' = Ok tt;
  cr_key : ix_scope_index_key x' = ix_scope_index_key x;
  cr_refs r : r ∈ index_refs x' ↔ r ∈ index_refs x ∨ r ∈ ref_from_job <$> jobs ++ restored;
  cr_nodup : NoDup (jb_job_id <$> jobs);
  cr_jobs j : j ∈ jobs → stored_job s' (jb_job_id j) j;
  cr_other a : is_governance_namespace a.1 = true → a ≠ index_address key →
    (∀ j, j ∈ jobs → a ≠ job_address (jb_job_id j)) → platform_doc s' a = platform_doc s a;
}.

Lemma finish_index_ok stage m now before x x' :
  finish_index stage m now before x = Ok x' →
  index_validate x' = Ok tt ∧ ix_scope_index_key x' = ix_scope_index_key x
  ∧ ix_reconciliation_cursors x' = ix_reconciliation_cursors x
  ∧ ix_active_jobs x' = ix_active_jobs x ∧ ix_recent_terminal_jobs x' = ix_recent_terminal_jobs x.
Proof. unfold finish_index. intros H. inv_plan. split_and!; [by eapply unit_ok|done..]. Qed.

Lemma source_precondition_ok v j p :
  semantic_learning_transcript_precondition v j = Ok p →
  ∃ l w, semantic_source j = Ok l ∧ source_validate_record l w = Ok tt
    ∧ p = JsonExact TRANSCRIPT_NAMESPACE (source_storage_key l) w.
Proof.
  unfold semantic_learning_transcript_precondition, source_read_precondition. intros H. inv_plan.
  eexists _, _. split_and!; [done|by eapply unit_ok|done].
Qed.

Lemma json_precondition_index key o p :
  json_precondition index_to_value POST_TURN_GOVERNANCE_SCOPE_INDEX_NAMESPACE key o = Ok p →
  json_precondition_address p = index_address key
  ∧ match o with
    | Some x => ∃ v, index_to_value x = inr v ∧ expected p = Some v
    | None => expected p = None
    end.
Proof.
  unfold json_precondition. destruct o; intros H; inv_plan; [|done].
  repeat match goal with H : encoded _ _ = Ok _ |- _ => apply encoded_ok in H end. eauto.
Qed.

(** The commit that creates jobs. *)
Lemma created_intro b pre bpre now s u s' key (pairs : list (Job * Value)) restored before x x' xv
    ip ms :
  commit_governed_memory_transaction b pre bpre None now s = (Ok u, s') →
  batch_mutations b
  = ((λ kv, put_json POST_TURN_GOVERNANCE_JOB_NAMESPACE kv.1 kv.2)
       <$> ((λ p, (jb_job_id p.1, p.2)) <$> pairs)) ++ ms →
  (∀ a o, is_governance_namespace a.1 = true →
     mutated ms a o = if decide (a = index_address key) then Some xv else o) →
  (∀ p, p ∈ pairs → job_to_value p.1 = inr p.2 ∧ job_validate p.1 = Ok tt
     ∧ jb_scope_index_key p.1 = key
     ∧ JsonAbsent POST_TURN_GOVERNANCE_JOB_NAMESPACE (jb_job_id p.1) ∈ pre
     ∧ ∃ l w, semantic_source p.1 = Ok l ∧ source_validate_record l w = Ok tt
         ∧ JsonExact TRANSCRIPT_NAMESPACE (source_storage_key l) w ∈ pre) →
  (∀ e, e ∈ restored → ∃ id w, JsonExact POST_TURN_GOVERNANCE_JOB_NAMESPACE id w ∈ pre
     ∧ job_to_value e = inr w ∧ status_is_active (jb_status e) = true
     ∧ identity_scope_id (jb_identity e) = key ∧ find_ref x (jb_job_id e) = None) →
  json_precondition index_to_value POST_TURN_GOVERNANCE_SCOPE_INDEX_NAMESPACE key before = Ok ip →
  ip ∈ pre →
  match before with
  | Some x0 => x0 = x
  | None => index_refs x = [] ∧ ix_reconciliation_cursors x = [] ∧ ix_scope_index_key x = key
  end →
  index_to_value x' = inr xv → index_validate x' = Ok tt →
  ix_scope_index_key x' = ix_scope_index_key x →
  index_refs x' ≡ₚ index_refs x ++ (ref_from_job <$> pairs.*1 ++ restored) →
  created s key pairs.*1 restored x x' s'.
Proof.
  intros Hc Hb Hms Hpairs Hrest Hip Hin Hbefore Hxv Hvx Hkey Hrefs.
  apply queue_commit in Hc as [Hpre Hdoc].
  assert (NoDup (jb_job_id <$> pairs.*1)) as Hnd.
  { pose proof (index_validate_NoDup _ Hvx) as H. rewrite Hrefs, !fmap_app in H.
    apply NoDup_app in H as (_ & _ & H). apply NoDup_app in H as (H & _ & _).
    by rewrite <- list_fmap_compose in H. }
  assert (∀ a, is_governance_namespace a.1 = true → platform_doc s' a
    = if decide (a = index_address key) then Some xv else
      mutated ((λ kv, put_json POST_TURN_GOVERNANCE_JOB_NAMESPACE kv.1 kv.2)
                 <$> ((λ p, (jb_job_id p.1, p.2)) <$> pairs)) a (platform_doc s a)) as Hdoc'.
  { intros a Ha. rewrite Hdoc, Hb, mutated_app by done. by rewrite Hms. }
  split.
  - intros j (p & -> & Hp)%list_elem_of_fmap.
    destruct (Hpairs p Hp) as (_ & Hv & Hk & Habs & l & w & Hl & Hw & Hex).
    split_and!; [done..|apply (Hpre _ Habs)|]. exists l, w. split_and!; [done| |done].
    apply (Hpre _ Hex).
  - intros e He. destruct (Hrest e He) as (id & w & Hex & Hw & Hact & Hk & Hf). exists id.
    split_and!; [|done..]. exists w. split; [apply (Hpre _ Hex)|by apply job_round_trip].
  - apply json_precondition_index in Hip as [Haddr Hexp]. pose proof (Hpre _ Hin) as Hold.
    rewrite Haddr in Hold. destruct before as [x0|].
    + subst x0. destruct Hexp as (v & Hv & Hexp). left. exists v.
      split; [congruence|by apply index_round_trip].
    + right. rewrite Hold, Hexp. done.
  - exists xv. split; [|by apply index_round_trip]. rewrite Hdoc' by done. by rewrite decide_True.
  - done.
  - done.
  - intros r. rewrite Hrefs. apply elem_of_app.
  - done.
  - intros j (p & -> & Hp)%list_elem_of_fmap. exists p.2.
    destruct (Hpairs p Hp) as (Hv & _). split; [|by apply job_round_trip].
    rewrite Hdoc' by done. rewrite decide_False by done.
    apply mutated_puts; [|apply list_elem_of_fmap; eauto].
    rewrite <- list_fmap_compose. rewrite <- list_fmap_compose in Hnd. exact Hnd.
  - intros a Ha Hi Hj. rewrite Hdoc' by done. rewrite decide_False by done.
    apply mutated_puts_other. intros k Hk. rewrite <- list_fmap_compose in Hk.
    apply list_elem_of_fmap in Hk as (p & -> & Hp). apply Hj, list_elem_of_fmap. eauto.
Qed.

Lemma mutated_cons m ms a o : mutated (m :: ms) a o = mutated ms a (mutate a o m).
Proof. done. Qed.

Lemma mutated_references ms a o :
  reference_only ms = true → is_governance_namespace a.1 = true → mutated ms a o = o.
Proof. intros H Ha. apply (mutated_other is_governance_namespace); [|done]. by apply reference_leaves. Qed.

Lemma sort_active_refs x : index_refs (sort_active x) ≡ₚ index_refs x.
Proof. unfold index_refs. cbn. by rewrite sort_by_perm. Qed.

Lemma finished_refs stage m now before x x' :
  finish_index stage m now before x = Ok x' → index_refs x' = index_refs x.
Proof. intros (_ & _ & _ & Ha & Ht)%finish_index_ok. unfold index_refs. by rewrite Ha, Ht. Qed.

Lemma job_scope_key j : job_validate j = Ok tt → jb_scope_index_key j = identity_scope_id (jb_identity j).
Proof.
  unfold job_validate. intros H. inv_plan. split_bool.
  match goal with H : String.eqb (jb_scope_index_key j) _ = true |- _ => by apply String.eqb_eq in H end.
Qed.

Lemma intent_cases v later scope job now additional s r s' :
  ensure_governance_intent v later scope job now additional s = (r, s') →
  same_queue s s' ∧ r ≠ Ok IntentCreated
  ∨ r = Ok IntentCreated
    ∧ ∃ x x', created s (jb_scope_index_key job) [job] [] x x' s'
              ∧ ix_reconciliation_cursors x' = ix_reconciliation_cursors x.
Proof.
  unfold ensure_governance_intent.
  destruct (job_validate job ≫= _) as [[[ms ps]|]|] eqn:Hp.
  2, 3: by intros [= <- <-]; left.
  destruct (commit_governed_memory_transaction _ _ _ _ _ _) as [[u|e] s1] eqn:Hc;
    intros [= <- <-].
  2: { left. split; [by apply queue_commit in Hc|]. intros H. inv_plan.
       by destruct (match _ with Some _ => _ | None => _ end) in H. }
  right. split; [done|]. inv_plan. destruct a0 as [existing|]; inv_plan; [done|].
  match goal with H : intent_plan _ _ _ _ = _ |- _ =>
    cbv beta zeta delta [intent_plan] in H; inv_plan end.
  match goal with H : append_binding_reference_mutation _ _ _ _ = _ |- _ =>
    apply append_reference_ok in H as (rms & rps & Heq & Href) end.
  injection Heq as -> ->.
  repeat match goal with H : encoded _ _ = Ok _ |- _ => apply encoded_ok in H end.
  match goal with H : semantic_learning_transcript_precondition _ _ = _ |- _ =>
    apply source_precondition_ok in H as (l & w & Hl & Hw & ->) end.
  match goal with H : finish_index _ _ _ ?o ?y = Ok ?y' |- _ =>
    set (before := o) in *; pose proof (finished_refs _ _ _ _ _ _ H) as Hrefs;
    apply finish_index_ok in H as (Hvx & Hkx & Hcur & _); set (x' := y') in *
  end.
  exists (default (index_empty (jb_identity job) now) before), x'. split; [|done].
  match goal with H : match before with Some _ => _ | None => _ end = Ok ?p |- _ =>
    assert (json_precondition index_to_value POST_TURN_GOVERNANCE_SCOPE_INDEX_NAMESPACE
              (jb_scope_index_key job) before = Ok p) as Hip end.
  { destruct before; inv_plan; [|done]. cbn.
    repeat match goal with H : encoded _ _ = Ok _ |- _ => apply encoded_ok in H; rewrite H end.
    done. }
  match goal with H : job_to_value job = inr ?jv, H' : index_to_value x' = inr ?xv |- _ =>
    eapply (created_intro _ _ _ _ _ _ _ _ [(job, jv)] [] before _ _ xv _
              (put_json POST_TURN_GOVERNANCE_SCOPE_INDEX_NAMESPACE (jb_scope_index_key job) xv :: rms)
              Hc) end; try done.
  - intros a' o Ha. by rewrite mutated_cons, mutated_references.
  - intros p ->%list_elem_of_singleton. cbn. split_and!; [done|by eapply unit_ok|done|set_solver|].
    exists l, w. split_and!; [done..|set_solver].
  - by intros e He%not_elem_of_nil.
  - set_solver.
  - destruct before; [done|]. split_and!; [done..|]. cbn. by rewrite (job_scope_key job) by (by eapply unit_ok).
  - rewrite Hrefs, sort_active_refs. unfold index_refs. cbn. solve_Permutation.
Qed.

(** *** A page of turns *)

(** The state of the loop over a page: the jobs it creates with their encodings,
    and the jobs whose references it restores. *)
Record page_ok (key : string) (x0 : Index) (p0 : list StoreJsonPrecondition)
    (pairs : list (Job * Value)) (restored : list Job) (r : reconcile_state) : Prop := {
  pg_mutations : rs_mutations r
    = (λ kv, put_json POST_TURN_GOVERNANCE_JOB_NAMESPACE kv.1 kv.2)
        <$> ((λ p, (jb_job_id p.1, p.2)) <$> pairs);
  pg_pairs p : p ∈ pairs → job_to_value p.1 = inr p.2 ∧ job_validate p.1 = Ok tt
     ∧ jb_scope_index_key p.1 = key
     ∧ JsonAbsent POST_TURN_GOVERNANCE_JOB_NAMESPACE (jb_job_id p.1) ∈ rs_preconditions r
     ∧ ∃ l w, semantic_source p.1 = Ok l ∧ source_validate_record l w = Ok tt
         ∧ JsonExact TRANSCRIPT_NAMESPACE (source_storage_key l) w ∈ rs_preconditions r;
  pg_restored e : e ∈ restored →
    ∃ id w, JsonExact POST_TURN_GOVERNANCE_JOB_NAMESPACE id w ∈ rs_preconditions r
     ∧ job_to_value e = inr w ∧ status_is_active (jb_status e) = true
     ∧ identity_scope_id (jb_identity e) = key ∧ find_ref x0 (jb_job_id e) = None;
  pg_pre p : p ∈ p0 → p ∈ rs_preconditions r;
  pg_active : ix_active_jobs (rs_index r)
              ≡ₚ ix_active_jobs x0 ++ (ref_from_job <$> pairs.*1 ++ restored);
  pg_terminal : ix_recent_terminal_jobs (rs_index r) = ix_recent_terminal_jobs x0;
  pg_key : ix_scope_index_key (rs_index r) = ix_scope_index_key x0;
  pg_cursors : ix_reconciliation_cursors (rs_index r) = ix_reconciliation_cursors x0;
  pg_created : rs_created r = N.min usize_max (len pairs);
}.

(** More preconditions do not matter. *)
Lemma page_ok_pre key x0 p0 pairs restored r ps :
  page_ok key x0 p0 pairs restored r →
  (∀ p, p ∈ rs_preconditions r → p ∈ ps) →
  page_ok key x0 p0 pairs restored
    (mkReconcile (rs_index r) (rs_mutations r) ps (rs_bindings r) (rs_created r)).
Proof.
  intros [? Hp Hr ? ? ? ? ? ?] Hps. split; cbn; try done.
  - intros p Hin. destruct (Hp p Hin) as (? & ? & ? & ? & l & w & ? & ? & ?).
    split_and!; auto. exists l, w. auto.
  - intros e He. destruct (Hr e He) as (id & w & ? & ? & ? & ? & ?). exists id, w.
    split_and!; auto.
  - auto.
Qed.

Lemma find_ref_none x id : find_ref x id = None ↔ ∀ r, r ∈ ix_active_jobs x → rf_job_id r ≠ id.
Proof.
  unfold find_ref. split.
  - intros H r Hr Hid. apply list_elem_of_In in Hr.
    pose proof (List.find_none _ _ H r Hr) as Hn. unfold ref_is in Hn.
    apply String.eqb_neq in Hn. done.
  - intros H. destruct (List.find _ _) as [r|] eqn:Hf; [|done].
    apply List.find_some in Hf as [Hin Hid]. apply list_elem_of_In in Hin.
    unfold ref_is in Hid. apply String.eqb_eq in Hid. by destruct (H r Hin).
Qed.

Lemma page_existing key x0 p0 pairs restored r id existing r' :
  page_ok key x0 p0 pairs restored r → identity_scope_id (jb_identity existing) = key →
  reconcile_existing id existing r = Ok r' →
  ∃ restored', page_ok key x0 p0 pairs restored' r'.
Proof.
  intros Hpg Hscope. unfold reconcile_existing, json_precondition. intros H. inv_plan.
  repeat match goal with H : encoded _ _ = Ok _ |- _ => apply encoded_ok in H end.
  match goal with |- context [rs_preconditions r ++ ?l] =>
    apply (page_ok_pre _ _ _ _ _ _ (rs_preconditions r ++ l)) in Hpg; [|set_solver] end.
  destruct (status_is_active (jb_status existing)) eqn:Hact; inv_plan; [|by exists restored].
  destruct (find_ref (rs_index r) (jb_job_id existing)) eqn:Hf; inv_plan; [by exists restored|].
  exists (restored ++ [existing]). destruct Hpg as [? ? Hr ? Ha ? ? ? ?]. split; cbn in *; try done.
  - intros e [He| ->%list_elem_of_singleton]%elem_of_app; [by apply Hr|].
    eexists _, _. split_and!; [apply elem_of_app; right; by apply list_elem_of_singleton|done..|].
    apply find_ref_none. intros r' Hr'. apply (proj1 (find_ref_none _ _) Hf).
    rewrite Ha. apply elem_of_app. by left.
  - rewrite Ha. rewrite !fmap_app. cbn. by rewrite !app_assoc.
Qed.

Lemma page_missing v key x0 p0 pairs restored r job r' :
  page_ok key x0 p0 pairs restored r → job_validate job = Ok tt → jb_scope_index_key job = key →
  reconcile_missing v job r = Ok r' →
  ∃ pairs', page_ok key x0 p0 pairs' restored r' ∧ pairs'.*1 = pairs.*1 ++ [job].
Proof.
  intros Hpg Hv Hk. unfold reconcile_missing. intros H. inv_plan.
  repeat match goal with H : encoded _ _ = Ok _ |- _ => apply encoded_ok in H end.
  match goal with H : semantic_learning_transcript_precondition _ _ = _ |- _ =>
    apply source_precondition_ok in H as (l & w & Hl & Hw & ->) end.
  match goal with H : merge_completion_preconditions _ _ = Ok ?m |- _ =>
    pose proof (λ p, merge_completion_elem _ _ _ p H) as Hmerge;
    apply (page_ok_pre _ _ _ _ _ _
      (m ++ [JsonAbsent POST_TURN_GOVERNANCE_JOB_NAMESPACE (jb_job_id job)])) in Hpg;
      [|intros p Hp; apply elem_of_app; left; apply Hmerge; set_solver] end.
  match goal with H : job_to_value job = inr ?jv |- _ => exists (pairs ++ [(job, jv)]) end.
  split; [|by rewrite fmap_app]. destruct Hpg as [Hm Hp ? ? Ha ? ? ? Hcr]. split; cbn in *; try done.
  - by rewrite Hm, !fmap_app.
  - intros p [Hin| ->%list_elem_of_singleton]%elem_of_app; [by apply Hp|]. cbn.
    split_and!; [done..|apply elem_of_app; right; by apply list_elem_of_singleton|].
    exists l, w. split_and!; [done..|].
    apply elem_of_app. left. apply Hmerge, elem_of_app. right. by apply list_elem_of_singleton.
  - rewrite Ha, !fmap_app. cbn. solve_Permutation.
  - rewrite Hcr, len_app. unfold saturating_add, len. cbn. lia.
Qed.

Lemma page_step v key identity x0 p0 pairs restored r job r' :
  page_ok key x0 p0 pairs restored r → reconcile_step v key identity r job = Ok r' →
  ∃ pairs' restored', page_ok key x0 p0 pairs' restored' r'.
Proof.
  intros Hpg. unfold reconcile_step. intros H. inv_plan.
  match goal with o : option Job |- _ => destruct o as [existing|]; inv_plan end.
  - unfold same_runtime_scope, same_transcript in *. split_bool.
    edestruct page_existing as [? ?]; [done| |done|eauto].
    match goal with H : jb_identity existing = _ |- _ => rewrite H end.
    rewrite <- job_scope_key by (by eapply unit_ok). by apply String.eqb_eq.
  - unfold same_runtime_scope in *. split_bool.
    edestruct page_missing as (? & ? & _); [done|by eapply unit_ok| |done|eauto].
    by apply String.eqb_eq.
Qed.

Lemma page_loop v key identity x0 p0 jobs r r' pairs restored :
  page_ok key x0 p0 pairs restored r →
  try_fold (reconcile_step v key identity) r jobs = Ok r' →
  ∃ pairs' restored', page_ok key x0 p0 pairs' restored' r'.
Proof.
  intros Hpg H. apply (try_fold_invariant (λ r, ∃ pairs restored, page_ok key x0 p0 pairs restored r)
    (reconcile_step v key identity) r jobs r'); [|eauto|done].
  intros r1 j r2 _ (ps & rs & H1) H2. by eapply page_step.
Qed.

Lemma reference_bindings_ok v l now acc acc' :
  reference_bindings v l now acc = Ok acc' →
  ∃ ms ps, acc' = (acc.1 ++ ms, acc.2 ++ ps) ∧ reference_only ms = true.
Proof.
  unfold reference_bindings. generalize (sort_by leb (remove_dups l)) as bs. intros bs.
  apply (try_fold_invariant (λ r, ∃ ms ps, r = (acc.1 ++ ms, acc.2 ++ ps)
                                           ∧ reference_only ms = true)).
  - intros r1 b r2 _ (ms & ps & -> & Hms) H.
    apply append_reference_ok in H as (ms' & ps' & -> & Hms'). cbn.
    exists (ms ++ ms'), (ps ++ ps'). rewrite !app_assoc. split; [done|].
    unfold reference_only in *. rewrite forallb_app. by rewrite Hms, Hms'.
  - exists [], []. rewrite !app_nil_r. by destruct acc.
Qed.

(** The cursor of a conversation. *)
Definition cursor_of (x : Index) (conversation : string) : N :=
  match reconciliation_cursor x conversation with Some c => cu_sequence c | None => 0 end.

Lemma cursor_of_eq x x' conversation :
  ix_reconciliation_cursors x' = ix_reconciliation_cursors x →
  cursor_of x' conversation = cursor_of x conversation.
Proof. unfold cursor_of, reconciliation_cursor. by intros ->. Qed.

Lemma find_perm_unique {A} (f : A → string) (k : string) (l l' : list A) :
  NoDup (f <$> l) → l ≡ₚ l' →
  List.find (λ a, String.eqb (f a) k) l' = List.find (λ a, String.eqb (f a) k) l.
Proof.
  intros Hnd Hp.
  assert (∀ l1 l2 : list A, NoDup (f <$> l1) → l1 ≡ₚ l2 → ∀ a,
    List.find (λ a, String.eqb (f a) k) l1 = Some a →
    List.find (λ a, String.eqb (f a) k) l2 = Some a) as Hone.
  { clear. intros l1 l2 Hnd Hp a Ha. apply List.find_some in Ha as [Hin Hk].
    apply String.eqb_eq in Hk. apply list_elem_of_In in Hin. rewrite Hp in Hin.
    rewrite Hp in Hnd. clear Hp l1. induction l2 as [|b l2 IH]; [by apply not_elem_of_nil in Hin|].
    cbn in Hnd. apply NoDup_cons in Hnd as [Hn Hnd]. cbn.
    apply elem_of_cons in Hin as [->|Hin]; [by rewrite Hk, String.eqb_refl|].
    destruct (String.eqb_spec (f b) k) as [He|]; [|by apply IH]. destruct Hn. rewrite He, <- Hk.
    apply list_elem_of_fmap. eauto. }
  destruct (List.find _ l) as [a|] eqn:Hl; [by eapply Hone|].
  destruct (List.find _ l') as [a|] eqn:Hl'; [|done].
  apply (Hone l' l) in Hl'; [congruence| |done]. by rewrite <- Hp.
Qed.

Lemma find_replace_first {A} (f : A → string) (k k' : string) (y : A) (l : list A) :
  f y = k → List.find (λ a, String.eqb (f a) k) l ≠ None →
  List.find (λ a, String.eqb (f a) k') (replace_first (λ a, String.eqb (f a) k) y l)
  = if String.eqb k k' then Some y else List.find (λ a, String.eqb (f a) k') l.
Proof.
  intros Hy. induction l as [|a l IH]; cbn; [done|].
  destruct (String.eqb_spec (f a) k) as [He|He]; cbn.
  - intros _. rewrite Hy, He. by destruct (String.eqb_spec k k').
  - intros Hf. rewrite (IH Hf). destruct (String.eqb_spec k k') as [->|]; [|done].
    by destruct (String.eqb_spec (f a) k').
Qed.

Lemma set_cursor_fields c x x' :
  set_reconciliation_cursor c x = Ok x' →
  ix_scope_index_key x' = ix_scope_index_key x ∧ index_refs x' = index_refs x.
Proof.
  unfold set_reconciliation_cursor. intros H. inv_plan.
  destruct (reconciliation_cursor _ _); by inv_plan.
Qed.

(** The cursor of the conversation advances, and the others stay. *)
Lemma set_cursor_ok c x x' :
  set_reconciliation_cursor c x = Ok x' →
  NoDup (cu_conversation_id <$> ix_reconciliation_cursors x) →
  cursor_of x (cu_conversation_id c) < cu_sequence c
  ∧ ∀ conversation, cursor_of x' conversation
      = if String.eqb (cu_conversation_id c) conversation then cu_sequence c
        else cursor_of x conversation.
Proof.
  unfold set_reconciliation_cursor. intros H Hnd. apply bind_ok in H as (u & Hv & H).
  unfold cursor_validate in Hv. apply ensure_ok in Hv. split_bool.
  destruct (reconciliation_cursor x (cu_conversation_id c)) as [old|] eqn:Hold; inv_plan; split_bool.
  - split.
    + unfold cursor_of. by rewrite Hold.
    + intros conversation. unfold cursor_of, reconciliation_cursor. cbn.
      rewrite find_replace_first; [by destruct (String.eqb _ _)|done|].
      unfold reconciliation_cursor in Hold. by rewrite Hold.
  - split.
    + unfold cursor_of. rewrite Hold. lia.
    + intros conversation. unfold cursor_of, reconciliation_cursor. cbn.
      rewrite (find_perm_unique cu_conversation_id conversation
                 (ix_reconciliation_cursors x ++ [c])); [| |by rewrite sort_by_perm].
      * rewrite find_snoc. cbn. unfold reconciliation_cursor in Hold.
        destruct (String.eqb_spec (cu_conversation_id c) conversation) as [<-|]; [by rewrite Hold|].
        match goal with |- context [List.find ?f ?l] => by destruct (List.find f l) end.
      * rewrite fmap_app. apply NoDup_app. split_and!; [done| |apply NoDup_singleton].
        intros k Hk ->%list_elem_of_singleton.
        apply list_elem_of_fmap in Hk as (old & Heq & Hin). apply list_elem_of_In in Hin.
        pose proof (List.find_none _ _ Hold old Hin) as Hne. cbn in Hne.
        apply String.eqb_neq in Hne. congruence.
Qed.

Lemma index_validate_cursors x :
  index_validate x = Ok tt → NoDup (cu_conversation_id <$> ix_reconciliation_cursors x).
Proof.
  unfold index_validate. intros H. inv_plan. split_bool. by apply has_duplicates_NoDup.
Qed.

Lemma page_start key x p0 :
  page_ok key x p0 [] [] (mkReconcile x [] p0 [] 0).
Proof.
  split; cbn; try done; [by intros ? ?%not_elem_of_nil..|]. by rewrite app_nil_r.
Qed.

Lemma reconcile_plan_ok v scope jobs cursor now key ms ps n :
  reconcile_plan v scope jobs cursor now = Ok (key, ms, ps, n) →
  let conversation := ck_conversation_id (tt_key cursor) in
  ∃ pairs restored r before x xs xc x' xv ip refs,
    page_ok key x [ip] pairs restored r ∧ rs_created r = n
    ∧ (∀ p, p ∈ rs_preconditions r → p ∈ ps)
    ∧ json_precondition index_to_value POST_TURN_GOVERNANCE_SCOPE_INDEX_NAMESPACE key before = Ok ip
    ∧ match before with
      | Some x0 => x0 = x
      | None => index_refs x = [] ∧ ix_reconciliation_cursors x = [] ∧ ix_scope_index_key x = key
      end
    ∧ xs = sort_active (rs_index r)
    ∧ set_reconciliation_cursor (mkCursor conversation (tt_sequence cursor) (tt_turn_id cursor)) xs
      = Ok xc
    ∧ finish_index reconcile_stage scope_overflow now before xc = Ok x'
    ∧ index_to_value x' = inr xv
    ∧ ms = (rs_mutations r ++ refs)
           ++ [put_json POST_TURN_GOVERNANCE_SCOPE_INDEX_NAMESPACE key xv]
    ∧ reference_only refs = true.
Proof.
  cbv beta zeta delta [reconcile_plan]. intros H. inv_plan.
  match goal with H : reference_bindings _ _ _ _ = _ |- _ =>
    apply reference_bindings_ok in H as (refs & rps & -> & Href) end.
  repeat match goal with H : encoded _ _ = Ok _ |- _ => apply encoded_ok in H end.
  match goal with H : try_fold _ (mkReconcile ?x [] [?p1; ?p2] [] 0) _ = Ok ?r,
                  H' : json_precondition _ _ ?k ?o = Ok ?p1 |- _ =>
    edestruct (page_loop _ _ _ x [p1] _ _ _ [] [] (page_ok_pre _ _ _ _ _ _ [p1; p2]
      (page_start k x [p1]) (λ p Hp, ltac:(set_solver))) H) as (pairs & restored & Hpg);
    exists pairs, restored, r, o, x end.
  eexists _, _, _, _, _, refs. split_and!; try done; [set_solver|].
  match goal with |- match ?o with Some _ => _ | None => _ end => destruct o; done end.
Qed.

Lemma reconcile_cases v scope jobs cursor now s r s' :
  reconcile_governance_intents v scope jobs cursor now s = (r, s') →
  let conversation := ck_conversation_id (tt_key cursor) in
  same_queue s s' ∧ is_ok r = false
  ∨ ∃ n key news restored x x',
    r = Ok n ∧ n = N.min usize_max (len news) ∧ created s key news restored x x' s'
    ∧ (NoDup (cu_conversation_id <$> ix_reconciliation_cursors x) →
       cursor_of x conversation < tt_sequence cursor
       ∧ ∀ c, cursor_of x' c = if String.eqb conversation c then tt_sequence cursor
                               else cursor_of x c).
Proof.
  unfold reconcile_governance_intents.
  destruct (reconcile_plan _ _ _ _ _) as [[[[key ms] ps] n]|] eqn:Hp; [|by intros [= <- <-]; left].
  destruct (commit_governed_memory_transaction _ _ _ _ _ _) as [[u|e] s1] eqn:Hc;
    intros [= <- <-]; [right|left; by apply queue_commit in Hc].
  apply reconcile_plan_ok in Hp as (pairs & restored & rs & before & x & xs & xc & x' & xv & ip
    & refs & [Hm Hpairs Hrest Hin Hact Hterm Hkey Hcur Hcr] & Hn & Hps & Hip & Hbefore & -> & Hset
    & Hfin & Hxv & -> & Href).
  exists n, key, pairs.*1, restored, x, x'.
  pose proof (finish_index_ok _ _ _ _ _ _ Hfin) as (Hvx & Hkx & Hcx & _).
  pose proof (finished_refs _ _ _ _ _ _ Hfin) as Hrefs.
  apply set_cursor_fields in Hset as Hfields. destruct Hfields as [Hkc Hrc].
  split_and!; [done|by rewrite <- Hn, Hcr, len_fmap| |].
  - eapply (created_intro _ _ _ _ _ _ _ _ pairs restored before x x' xv ip
      (refs ++ [put_json POST_TURN_GOVERNANCE_SCOPE_INDEX_NAMESPACE key xv]) Hc).
    + cbn. by rewrite Hm, app_assoc.
    + intros a o Ha. rewrite mutated_app, (mutated_references refs) by done. done.
    + intros p Hp. destruct (Hpairs p Hp) as (? & ? & ? & ? & l & w & ? & ? & ?).
      split_and!; auto. exists l, w. auto.
    + intros e He. destruct (Hrest e He) as (id & w & ? & ? & ? & ? & ?). exists id, w.
      split_and!; auto.
    + done.
    + apply Hps, Hin. set_solver.
    + done.
    + done.
    + done.
    + by rewrite Hkx, Hkc.
    + rewrite Hrefs, Hrc, sort_active_refs. unfold index_refs. rewrite Hact, Hterm.
      solve_Permutation.
  - intros Hnd. apply set_cursor_ok in Hset as [Hlt Hall]; [|cbn; by rewrite Hcur].
    cbn [cu_conversation_id cu_sequence] in *. split.
    + by erewrite <- (cursor_of_eq x) by exact Hcur.
    + intros c. erewrite (cursor_of_eq xc x') by exact Hcx. rewrite Hall.
      by erewrite (cursor_of_eq x (sort_active _)) by exact Hcur.
Qed.

(** ** Withdrawal *)

Abbreviation write := (address * Value)%type.

Definition put_at (w : write) : StoreMutation := learning_put_json w.1.1 w.1.2 w.2.

(** The job a withdrawal leaves in place of [b]. *)
Definition withdrawn_job (reason : string) (now : N) (b : Job) : Job :=
  ended_job b JobCancelled None (Some reason) (jb_state_revision b + 1) now.

(** The jobs [hits] with their ends, and what is written for them. *)
Record cancels (v : view) (targets : list turn_target) (reason : string) (now : N)
    (seen : list PostTurnGovernanceJobRefV2) (hits : list Job) (ws : list write) : Prop := {
  cn_hit b : b ∈ hits → (∃ r, r ∈ seen ∧ read_job v (rf_job_id r) = Ok (Some b))
    ∧ job_target b ∈ targets ∧ job_validate (withdrawn_job reason now b) = Ok tt;
  cn_all r b : r ∈ seen → read_job v (rf_job_id r) = Ok (Some b) → job_target b ∈ targets → b ∈ hits;
  cn_writes a u : (a, u) ∈ ws ↔
    ∃ b, b ∈ hits ∧ a = job_address (jb_job_id b) ∧ job_to_value (withdrawn_job reason now b) = inr u;
  cn_written b : b ∈ hits → ∃ u, (job_address (jb_job_id b), u) ∈ ws;
}.

Record withdrawing (v : view) (targets : list turn_target) (reason : string) (now : N) (x : Index)
    (seen : list PostTurnGovernanceJobRefV2) (hits : list Job) (ws : list write) (w : withdrawal)
    : Prop := {
  wg_cancels : cancels v targets reason now seen hits ws;
  wg_mutations : wi_mutations w = put_at <$> ws;
  wg_active r : r ∈ ix_active_jobs (wi_index w)
    ↔ r ∈ ix_active_jobs x ∧ rf_job_id r ∉ jb_job_id <$> hits;
  wg_terminal : ix_recent_terminal_jobs (wi_index w)
    = ix_recent_terminal_jobs x ++ (ref_from_job ∘ withdrawn_job reason now <$> hits);
  wg_key : ix_scope_index_key (wi_index w) = ix_scope_index_key x;
  wg_cursors : ix_reconciliation_cursors (wi_index w) = ix_reconciliation_cursors x;
  wg_none : hits = [] → wi_index w = x;
}.

Lemma in_left {A} (a : A) l1 l2 : a ∈ l1 → a ∈ l1 ++ l2.
Proof. intros H. apply elem_of_app. by left. Qed.

Lemma in_last {A} (a : A) l : a ∈ l ++ [a].
Proof. apply elem_of_app. right. by apply list_elem_of_singleton. Qed.

Lemma cancels_snoc_other v targets reason now seen hits ws r b :
  cancels v targets reason now seen hits ws → read_job v (rf_job_id r) = Ok (Some b) →
  job_target b ∉ targets → cancels v targets reason now (seen ++ [r]) hits ws.
Proof.
  intros [Hh Ha Hw Hs] Hr Ht. split; [| |done|done].
  - intros b' Hb. destruct (Hh b' Hb) as ((r' & ? & ?) & ?). split; [exists r'; split; [by apply in_left|done]|done].
  - intros r' b' [Hr'| ->%list_elem_of_singleton]%elem_of_app; [eauto|]. intros. congruence.
Qed.

Lemma withdrawing_step v targets reason now x seen hits ws w r w' :
  withdrawing v targets reason now x seen hits ws w →
  withdraw_reference v targets reason now w r = Ok w' →
  ∃ hits' ws', withdrawing v targets reason now x (seen ++ [r]) hits' ws' w'.
Proof.
  intros Hw. unfold withdraw_reference, learning_exact. intros H. inv_plan.
  match goal with H : require _ _ = Ok ?j |- _ => apply require_ok in H as Hr; rename j into b end.
  destruct (bool_decide _) eqn:Ht in H; split_bool; inv_plan; destruct Hw as [Hc Hm Ha Hte Hk Hcu Hn].
  2: { exists hits, ws. split; try done. by eapply cancels_snoc_other. }
  repeat match goal with H : encoded _ _ = Ok _ |- _ => apply encoded_ok in H end.
  match goal with H : increment _ _ _ = Ok _ |- _ => apply increment_ok in H as [-> _] end.
  match goal with H : job_to_value (ended_job _ _ _ _ _ _) = inr ?u |- _ =>
    exists (hits ++ [b]), (ws ++ [(job_address (jb_job_id b), u)]); rename H into Hu; rename u into u' end.
  destruct Hc as [Hh Hall Hws Hsome]. split; cbn; try done.
  - split.
    + intros b' [Hb| ->%list_elem_of_singleton]%elem_of_app.
      * destruct (Hh b' Hb) as ((r' & ? & ?) & ?). split; [exists r'; split; [by apply in_left|done]|done].
      * split_and!; [exists r; split; [apply in_last|done]|done|by eapply unit_ok].
    + intros r' b' [Hr'| ->%list_elem_of_singleton]%elem_of_app Hrd Htg.
      * apply in_left. eauto.
      * assert (b' = b) as -> by congruence. apply in_last.
    + intros a u. rewrite elem_of_app, Hws, list_elem_of_singleton. split.
      * intros [(b' & ? & ? & ?)|[= -> ->]]; 
          [exists b'; split_and!; [by apply in_left|done..]|]. exists b. by split_and!; [apply in_last|..].
      * intros (b' & [Hb| ->%list_elem_of_singleton]%elem_of_app & -> & He); [left; eauto|].
        right. f_equal. unfold withdrawn_job in He. congruence.
    + intros b' [Hb| ->%list_elem_of_singleton]%elem_of_app.
      * destruct (Hsome b' Hb) as [u ?]. exists u. by apply in_left.
      * exists u'. apply in_last.
  - rewrite Hm, fmap_app. done.
  - intros r'. rewrite list_elem_of_In, filter_In, <- list_elem_of_In, Ha, fmap_app.
    unfold ref_is. rewrite negb_true_iff, String.eqb_neq, elem_of_app. cbn. rewrite list_elem_of_singleton. naive_solver.
  - rewrite Hte, fmap_app, <- app_assoc. done.
  - intros He. by destruct hits.
Qed.

Lemma withdrawing_loop v targets reason now x seen hits ws w refs w' :
  withdrawing v targets reason now x seen hits ws w →
  try_fold (withdraw_reference v targets reason now) w refs = Ok w' →
  ∃ hits' ws', withdrawing v targets reason now x (seen ++ refs) hits' ws' w'.
Proof.
  revert seen hits ws w. induction refs as [|r refs IH]; intros seen hits ws w Hw; cbn.
  { intros [= <-]. exists hits, ws. by rewrite app_nil_r. }
  intros H. apply bind_ok in H as (w1 & H1 & H).
  destruct (withdrawing_step _ _ _ _ _ _ _ _ _ _ _ Hw H1) as (h1 & ws1 & Hw1).
  destruct (IH _ _ _ _ Hw1 H) as (h2 & ws2 & Hw2). exists h2, ws2.
  by rewrite <- app_assoc in Hw2.
Qed.

(** What is planned for the document of one index. *)
Record document_withdrawn (v : view) (scope : StoreEventScope) (targets : list turn_target)
    (reason : string) (now : N) (x : Index) (hits : list Job) (ws : list write)
    (after : option (Index * Value)) : Prop := {
  dw_hit b : b ∈ hits → (∃ r, r ∈ ix_active_jobs x ∧ read_job v (rf_job_id r) = Ok (Some b))
    ∧ job_target b ∈ targets ∧ job_validate (withdrawn_job reason now b) = Ok tt;
  dw_all r b : ix_memory_space_id x = scope_memory_space_id scope →
    ix_mounted_subject_id x = scope_subject_id scope → r ∈ ix_active_jobs x →
    read_job v (rf_job_id r) = Ok (Some b) → job_target b ∈ targets → b ∈ hits;
  dw_writes a u : (a, u) ∈ ws ↔
    (∃ b, b ∈ hits ∧ a = job_address (jb_job_id b)
          ∧ job_to_value (withdrawn_job reason now b) = inr u)
    ∨ ∃ x', after = Some (x', u) ∧ a = index_address (ix_scope_index_key x);
  dw_written b : b ∈ hits → ∃ u, (job_address (jb_job_id b), u) ∈ ws;
  dw_after : match after with
    | None => hits = []
    | Some (x', u) => index_to_value x' = inr u ∧ index_validate x' = Ok tt
        ∧ ix_scope_index_key x' = ix_scope_index_key x
        ∧ ix_reconciliation_cursors x' = ix_reconciliation_cursors x
        ∧ ∀ r, r ∈ index_refs x'
            ↔ (r ∈ ix_active_jobs x ∧ rf_job_id r ∉ jb_job_id <$> hits)
              ∨ r ∈ ix_recent_terminal_jobs x
              ∨ ∃ b, b ∈ hits ∧ r = ref_from_job (withdrawn_job reason now b)
    end;
}.

Lemma withdraw_document_ok v scope targets reason now document ms ps :
  withdraw_document v scope targets reason now document = Ok (ms, ps) →
  ∃ x hits ws after, index_from_value document = inr x ∧ ms = put_at <$> ws
    ∧ document_withdrawn v scope targets reason now x hits ws after.
Proof.
  unfold withdraw_document. intros H. inv_plan.
  match goal with H : encoded _ _ = Ok ?y |- _ => apply encoded_ok in H; rename y into x end.
  exists x. destruct (_ || _) eqn:Hscope in H.
  { injection H as <- <-. exists [], [], None. split_and!; [done..|].
    split; try done; try (intros ? ?%not_elem_of_nil; done).
    - intros r b Hm Hs. exfalso. rewrite Hm, Hs, !String.eqb_refl in Hscope. done.
    - intros a u. split; [by intros ?%not_elem_of_nil|].
      intros [(b & ?%not_elem_of_nil & _)|(x' & ? & _)]; done. }
  inv_plan. match goal with H : try_fold _ _ _ = Ok ?y |- _ => rename H into Hloop; rename y into w end.
  edestruct (withdrawing_loop v targets reason now x [] [] [] (mkWithdrawal x [] []))
    as (hits & ws & [[Hh Hall Hws Hsome] Hm Ha Hte Hk Hcu Hn]); [|exact Hloop|].
  { split; try done; cbn.
    - split; [by intros ? ?%not_elem_of_nil|by intros ? ? ?%not_elem_of_nil| |by intros ? ?%not_elem_of_nil].
      intros a u. split; [by intros ?%not_elem_of_nil|by intros (b & ?%not_elem_of_nil & _)].
    - intros r. split; [|by intros [? _]]. intros Hr. split; [done|apply not_elem_of_nil].
    - by rewrite app_nil_r. }
  cbn [app] in *. exists hits. destruct (bool_decide _) eqn:Heq in H; split_bool.
  - injection H as <- <-. exists ws, None. split_and!; [done..|].
    assert (hits = []) as ->.
    { assert (length (ix_recent_terminal_jobs (wi_index w)) = length (ix_recent_terminal_jobs x))
        as Hl by (by rewrite Heq).
      rewrite Hte, length_app, length_fmap in Hl. by destruct hits; cbn in Hl; [|lia]. }
    split; try done.
    + eauto.
    + intros a u. rewrite Hws. split; [by left|]. by intros [|(x' & ? & _)].
  - inv_plan. unfold learning_exact in *. inv_plan.
    repeat match goal with H : encoded _ _ = Ok _ |- _ => apply encoded_ok in H end.
    match goal with H : index_to_value (set_index_revision ?rv ?t ?y) = inr ?u |- _ =>
      exists (ws ++ [(index_address (ix_scope_index_key x), u)]),
        (Some (set_index_revision rv t y, u)); rename H into Hu end.
    split_and!; [done|by rewrite Hm, fmap_app|]. split.
    + done.
    + eauto.
    + intros ad u. rewrite elem_of_app, Hws, list_elem_of_singleton. split.
      * intros [?|[= -> ->]]; [by left|right; eauto].
      * intros [?|(x' & [= <- <-] & ->)]; [by left|by right].
    + intros b Hb. destruct (Hsome b Hb) as [u ?]. exists u. apply elem_of_app. by left.
    + split_and!; [exact Hu|by eapply unit_ok|done|done|]. intros r. unfold index_refs. cbn.
      rewrite elem_of_app, Ha, sort_by_perm, Hte, elem_of_app.
      split; (intros [?|[?|Hr]]; [by left|right; by left|right; right]).
      * apply list_elem_of_fmap in Hr as (b & -> & Hb). by exists b.
      * destruct Hr as (b & Hb & ->). apply list_elem_of_fmap. by exists b.
Qed.

(** The parts of a plan, one for each document. *)
Record document_part := mkPart {
  dp_index : Index;
  dp_hits : list Job;
  dp_writes : list write;
  dp_after : option (Index * Value);
}.

Definition part_of (v : view) (scope : StoreEventScope) (targets : list turn_target) (reason : string)
    (now : N) (document : Value) (g : document_part) : Prop :=
  index_from_value document = inr (dp_index g)
  ∧ document_withdrawn v scope targets reason now (dp_index g) (dp_hits g) (dp_writes g) (dp_after g).

Lemma withdrawal_plan_ok v documents scope records transition reason now ms ps :
  withdrawal_plan v documents scope records transition now = Ok (ms, ps) →
  withdrawal_reason transition = Some reason →
  ∃ parts, ms = put_at <$> concat (dp_writes <$> parts)
    ∧ Forall2 (part_of v scope (record_target <$> records) reason now) documents parts.
Proof.
  unfold withdrawal_plan. intros H Hr. rewrite Hr in H.
  match type of H with try_fold ?f _ _ = _ => set (step := f) in H end.
  assert (∀ documents acc res, try_fold step acc documents = Ok res →
    ∃ parts, res.1 = acc.1 ++ (put_at <$> concat (dp_writes <$> parts))
    ∧ Forall2 (part_of v scope (record_target <$> records) reason now) documents parts) as Hloop.
  { clear. intros documents. induction documents as [|d l IH]; intros acc res; cbn.
    { intros [= <-]. exists []. by rewrite app_nil_r. }
    intros H. apply bind_ok in H as (acc1 & H1 & H). unfold step in H1. inv_plan.
    match goal with H : withdraw_document _ _ _ _ _ _ = Ok ?p |- _ => destruct p as [ms1 ps1];
      apply withdraw_document_ok in H as (x & hits & ws & after & Hx & Hms & Hd) end.
    destruct (IH _ _ H) as (parts & Hres & Hall). exists (mkPart x hits ws after :: parts). cbn in *.
    rewrite Hres, Hms, fmap_app, app_assoc. split; [done|]. by constructor. }
  destruct (Hloop _ _ _ H) as (parts & Hms & Hall). exists parts. by split.
Qed.

(** The document at an address after writes that agree. *)
Lemma mutated_writes_other (ws : list write) a o :
  (∀ u, (a, u) ∉ ws) → mutated (put_at <$> ws) a o = o.
Proof.
  revert o. induction ws as [|[[ns k] u] ws IH]; intros o H; [done|].
  cbn [fmap list_fmap]. rewrite mutated_cons, IH.
  2: { intros u' Hu'. apply (H u'). by right. }
  cbn. rewrite decide_False; [done|]. intros ->. apply (H u). by left.
Qed.

Lemma mutated_writes (ws : list write) a u o :
  (a, u) ∈ ws → (∀ u', (a, u') ∈ ws → u' = u) → mutated (put_at <$> ws) a o = Some u.
Proof.
  revert o. induction ws as [|[[ns k] u1] ws IH]; intros o Hin Hall; [by apply not_elem_of_nil in Hin|].
  cbn [fmap list_fmap]. rewrite mutated_cons.
  destruct (decide (Exists (λ w, w.1 = a) ws)) as [Hex|Hno].
  - apply Exists_exists in Hex as ([a' u'] & Hw & Ha). cbn in Ha. subst a'.
    assert (u' = u) as -> by (apply Hall; by right).
    apply IH; [done|]. intros u2 Hu2. apply Hall. by right.
  - assert (∀ u', (a, u') ∉ ws) as Hnot.
    { intros u' Hu'. apply Hno, Exists_exists. by exists (a, u'). }
    rewrite mutated_writes_other by done. apply elem_of_cons in Hin as [[= -> ->]|Hin].
    + cbn. by rewrite decide_True.
    + by destruct (Hnot u).
Qed.

End Facts.
