(* ===== verification/GovernanceProps.v ===== *)
(** * Post-turn governance: properties of the job queue

    Executions of the queue: any sequence of its operations, by any workers,
    each planned from reads that may be out of date, interleaved with other
    commits.  The invariant that ties jobs to the index of their scope, leases
    and their fencing, attempts, terminal states, completion, the source of jobs
    and the withdrawal of turns. *)

From S2P Require Import Prelude Errors RustStr RustOrd Governed StoreTypes StoreTransaction ReadSession LongTermVersion TurnTypes Transcript GovernanceTypes MutationOperation GovernanceJobs GovernanceFacts.

Local Open Scope string_scope.
Local Open Scope list_scope.
Local Open Scope N_scope.

Section Queue.
Context `{gcodec : GovernanceCodec} {ocodec : OperationCodec}.
Context {learning : LearningEvidence} {qcodec : QueueCodec} {glaws : GovernanceCodecLaws}.
Context {S : Type} {platform : StorePlatform S} {plaws : StorePlatformLaws S}.

Abbreviation Job := PostTurnGovernanceJobV4.
Abbreviation Index := PostTurnGovernanceScopeIndexV4.
Abbreviation job_address id := (POST_TURN_GOVERNANCE_JOB_NAMESPACE, id).
Abbreviation index_address key := (POST_TURN_GOVERNANCE_SCOPE_INDEX_NAMESPACE, key).

(** ** Executions *)

(** What a worker does under a lease. *)
Inductive holder_operation :=
| HolderRenew (lease_until : N)
| HolderRetry (error_class : PostTurnGovernanceErrorClassV2)
| HolderBlock (status : PostTurnGovernanceJobStatusV2) (reason : string)
    (authority : option PostTurnGovernanceExecutionBlockAuthorityV1)
| HolderFail (error_class : PostTurnGovernanceErrorClassV2) (reason : string)
| HolderComplete (later : view) (decision : PostTurnGovernanceDecisionSummaryV1)
    (memory : list StoreMutation) (preconditions : list StoreJsonPrecondition)
    (blobs : list StoreBlobPrecondition).

Definition perform (v : view) (scope : StoreEventScope) (id owner : string) (epoch now : N)
    (o : holder_operation) (s : S) : result Job * S :=
  match o with
  | HolderRenew until => renew_governance_job v scope id owner epoch until now s
  | HolderRetry e => retry_governance_job v scope id owner epoch e now s
  | HolderBlock status reason authority =>
      block_claimed_governance_job v scope id owner epoch status reason authority now s
  | HolderFail e reason => dead_letter_governance_job v scope id owner epoch e reason now s
  | HolderComplete later decision memory pre bpre =>
      complete_governance_job_with_memory_plan v later scope id owner epoch decision memory pre
        bpre now s
  end.

(** What anyone may do to a job. *)
Inductive open_operation :=
| OpenBlock (status : PostTurnGovernanceJobStatusV2) (reason : string)
    (authority : option PostTurnGovernanceExecutionBlockAuthorityV1)
| OpenResume
| OpenCancel (reason : string).

Definition administer (v : view) (scope : StoreEventScope) (id : string) (now : N)
    (o : open_operation) (s : S) : result Job * S :=
  match o with
  | OpenBlock status reason authority =>
      block_governance_job v scope id status reason authority now s
  | OpenResume => resume_governance_job v scope id now s
  | OpenCancel reason => cancel_governance_job v scope id reason now s
  end.

(** A successful claim. *)
Record claim_event := mkClaimed { ce_job_id : string; ce_owner : string; ce_epoch : N }.

(** What is read while the store is locked: its documents, and all the indexes. *)
Definition reads (s : S) : view := λ a, Ok (platform_doc s a).

Definition lists_indexes (s : S) (documents : list (string * Value)) : Prop :=
  NoDup documents.*1
  ∧ ∀ key v, (key, v) ∈ documents ↔ platform_doc s (index_address key) = Some v.

(** One operation, or a commit of another component.  A withdrawal of transcripts
    is planned under the lock of the store and commits with the mutations of other
    components, here [before] and [after].  The read after the commit of
    a recovery changes nothing, and what happens before it are other steps. *)
Inductive queue_op (s : S) : list claim_event → S → Prop :=
| op_claim v scope id owner until authority now r s' :
    claim_governance_job v scope id owner until authority now s = (r, s') →
    queue_op s match r with
               | Ok j => [mkClaimed (jb_job_id j) owner (jb_lease_epoch j)]
               | Err _ => []
               end s'
| op_holder v scope id owner epoch now o r s' :
    perform v scope id owner epoch now o s = (r, s') → queue_op s [] s'
| op_open v scope id now o r s' :
    administer v scope id now o s = (r, s') → queue_op s [] s'
| op_credential v s0 final scope id credential generation operation actor now r s' :
    resume_governance_job_for_credential v s0 (λ x, x) final scope id credential generation
      operation actor now s = (r, s') → queue_op s [] s'
| op_permission v s0 final scope id binding revision generation operation actor now r s' :
    resume_governance_job_for_provider_permission v s0 (λ x, x) final scope id binding revision
      generation operation actor now s = (r, s') → queue_op s [] s'
| op_intent v later scope job now additional r s' :
    ensure_governance_intent v later scope job now additional s = (r, s') → queue_op s [] s'
| op_reconcile v scope jobs cursor now r s' :
    reconcile_governance_intents v scope jobs cursor now s = (r, s') → queue_op s [] s'
| op_withdraw documents scope records transition now ms ps before after b pre bpre op at_secs r s' :
    lists_indexes s documents →
    withdrawal_plan (reads s) documents.*2 scope records transition now = Ok (ms, ps) →
    leaves_queue before → leaves_queue after → batch_mutations b = before ++ ms ++ after →
    (∀ p, p ∈ ps → p ∈ pre) →
    commit_governed_memory_transaction b pre bpre op at_secs s = (r, s') → queue_op s [] s'
| op_other b pre bpre op now r s' :
    leaves_queue (batch_mutations b) →
    commit_governed_memory_transaction b pre bpre op now s = (r, s') → queue_op s [] s'.

(** The claims of an execution, latest first. *)
Inductive runs (s : S) : list claim_event → S → Prop :=
| runs_refl : runs s [] s
| runs_step h s1 e s2 : runs s h s1 → queue_op s1 e s2 → runs s (e ++ h) s2.

(** ** The change an operation makes *)

(** The jobs of withdrawn turns are ended, in the index of their scope too. *)
Record withdrawn (s : S) (hits : list Job) (reason : string) (now : N) (s' : S) : Prop := {
  wd_hit b : b ∈ hits → stored_job s (jb_job_id b) b
    ∧ stored_job s' (jb_job_id b) (withdrawn_job reason now b)
    ∧ job_next b (withdrawn_job reason now b) ∧ keeps_lease b (withdrawn_job reason now b);
  wd_other id : id ∉ jb_job_id <$> hits →
    platform_doc s' (job_address id) = platform_doc s (job_address id);
  wd_index key :
    platform_doc s' (index_address key) = platform_doc s (index_address key)
    ∧ (∀ b, b ∈ hits → jb_scope_index_key b ≠ key)
    ∨ ∃ x x', stored_index s key x ∧ stored_index s' key x' ∧ index_validate x' = Ok tt
      ∧ ix_scope_index_key x' = ix_scope_index_key x
      ∧ ix_reconciliation_cursors x' = ix_reconciliation_cursors x
      ∧ ∀ r, r ∈ index_refs x'
          ↔ (r ∈ index_refs x ∧ rf_job_id r ∉ jb_job_id <$> hits)
            ∨ ∃ b, b ∈ hits ∧ jb_scope_index_key b = key
                   ∧ r = ref_from_job (withdrawn_job reason now b);
}.

Inductive change (s : S) : list claim_event → S → Prop :=
| change_none s' : same_queue s s' → change s [] s'
| change_claim t owner s' :
    transition_ok t → claims (jt_before_job t) (jt_after_job t) → written s t s' →
    change s [mkClaimed (jb_job_id (jt_after_job t)) owner (jb_lease_epoch (jt_after_job t))] s'
| change_keep t s' : keeps_ok t → written s t s' → change s [] s'
| change_create key jobs restored x x' s' :
    created s key jobs restored x x' s' →
    (NoDup (cu_conversation_id <$> ix_reconciliation_cursors x) →
     ∀ c, cursor_of x c ≤ cursor_of x' c) →
    change s [] s'
| change_withdraw hits reason now s' : withdrawn s hits reason now s' → change s [] s'.

Lemma planned_inr plan t : planned plan = Ok (inr t) → plan = Ok t.
Proof. unfold planned. intros H. inv_plan. done. Qed.

Lemma planned_inl plan j : planned plan = Ok (inl j) → False.
Proof. unfold planned. intros H. by inv_plan. Qed.

Lemma claim_cases v scope id owner until authority now s r s' :
  claim_governance_job v scope id owner until authority now s = (r, s') →
  same_queue s s' ∧ is_ok r = false
  ∨ ∃ t, claim_plan v id owner until authority now = Ok t ∧ r = Ok (jt_after_job t)
         ∧ written s t s'.
Proof.
  intros [[Hs Hr]|(t & Hp%planned_inr & -> & Hw)]%run_plan_cases.
  - left. split; [done|]. destruct r as [j|]; [|done]. by destruct (planned_inl _ _ (Hr j eq_refl)).
  - right. exists t. split_and!; [done..|]. apply Hw. by apply claim_plan_ok in Hp as (? & _).
Qed.

Lemma holder_cases v scope id owner epoch now o s r s' :
  perform v scope id owner epoch now o s = (r, s') →
  same_queue s s'
  ∨ ∃ t, holder_ok v id owner epoch now t ∧ r = Ok (jt_after_job t) ∧ written s t s'.
Proof.
  assert (∀ plan name, (∀ t, plan = Ok t → holder_ok v id owner epoch now t) →
    run_plan scope name now (planned plan) s = (r, s') →
    same_queue s s' ∨ ∃ t, holder_ok v id owner epoch now t ∧ r = Ok (jt_after_job t) ∧ written s t s')
    as Hrun.
  { intros plan name Hok [[Hs _]|(t & Hp%planned_inr & -> & Hw)]%run_plan_cases; [by left|].
    right. exists t. pose proof (Hok t Hp) as Hh. split_and!; [done..|]. apply Hw, Hh. }
  destruct o; cbn.
  - apply Hrun. intros t. apply renew_plan_ok.
  - apply Hrun. intros t. apply retry_plan_ok.
  - apply Hrun. intros t. apply block_claimed_plan_ok.
  - apply Hrun. intros t. apply fail_plan_ok.
  - intros [Hs|(p & t & _ & Hc & Hr & Hw)]%completion_cases; [by left|].
    right. exists t. split_and!; [apply Hc|done..].
Qed.

Lemma open_cases v scope id now o s r s' :
  administer v scope id now o s = (r, s') →
  same_queue s s' ∨ ∃ t, keeps_ok t ∧ r = Ok (jt_after_job t) ∧ written s t s'.
Proof.
  assert (∀ plan name, (∀ t, plan = Ok (inr t) → keeps_ok t) →
    run_plan scope name now plan s = (r, s') →
    same_queue s s' ∨ ∃ t, keeps_ok t ∧ r = Ok (jt_after_job t) ∧ written s t s') as Hrun.
  { intros plan name Hok [[Hs _]|(t & Hp & -> & Hw)]%run_plan_cases; [by left|].
    right. exists t. pose proof (Hok t Hp) as Hh. split_and!; [done..|]. apply Hw, Hh. }
  destruct o; cbn; apply Hrun; intros t.
  - apply block_plan_ok.
  - intros H%planned_inr. by eapply resume_plan_ok.
  - apply cancel_plan_ok.
Qed.

Lemma recovery_change s0 final scope stage name operation actor kind key generation now plan s r s' :
  (∀ t, plan = Ok t → keeps_ok t) →
  run_recovery s0 (λ x, x) final scope stage name operation actor kind key generation now plan s
  = (r, s') → change s [] s'.
Proof.
  intros Hok. unfold run_recovery. destruct plan as [t|]; [|by intros [= <- <-]; apply change_none].
  destruct (commit_recovery_job_and_index _ _ _ _ _ _ _ _ _ _ _ _) as [r1 s1] eqn:Hc. intros H.
  assert (s1 = s') as -> by (by destruct r1; injection H as _ <-).
  apply recovery_cases in Hc as (s2 & Hs & Heq); [|apply Hok; done].
  assert (s2 = s') as -> by (by destruct Heq). destruct Hs; [by apply change_none|].
  eapply change_keep; [by apply Hok|done].
Qed.

(** ** Coherence *)

(** Every stored job is valid, is stored under its identifier and is listed as it
    is in the index of its scope; every stored index is valid and lists stored
    jobs of its scope as they are. *)
Record coherent (s : S) : Prop := {
  co_jobs id v : platform_doc s (job_address id) = Some v →
    ∃ j x, job_from_value v = inr j ∧ job_validate j = Ok tt ∧ jb_job_id j = id
      ∧ stored_index s (jb_scope_index_key j) x ∧ ref_from_job j ∈ index_refs x;
  co_indexes key v : platform_doc s (index_address key) = Some v →
    ∃ x, index_from_value v = inr x ∧ index_validate x = Ok tt ∧ ix_scope_index_key x = key
      ∧ ∀ r, r ∈ index_refs x →
          ∃ j, stored_job s (rf_job_id r) j ∧ r = ref_from_job j ∧ jb_scope_index_key j = key;
}.

Lemma coherent_job s id j :
  coherent s → stored_job s id j →
  job_validate j = Ok tt ∧ jb_job_id j = id
  ∧ ∃ x, stored_index s (jb_scope_index_key j) x ∧ ref_from_job j ∈ index_refs x.
Proof.
  intros Hs (v & Hv & Hj). destruct (co_jobs s Hs id v Hv) as (j' & x & Hj' & H1 & H2 & H3 & H4).
  assert (j' = j) as -> by congruence. split_and!; eauto.
Qed.

Lemma coherent_index s key x :
  coherent s → stored_index s key x →
  index_validate x = Ok tt ∧ ix_scope_index_key x = key
  ∧ ∀ r, r ∈ index_refs x →
      ∃ j, stored_job s (rf_job_id r) j ∧ r = ref_from_job j ∧ jb_scope_index_key j = key.
Proof.
  intros Hs (v & Hv & Hx). destruct (co_indexes s Hs key v Hv) as (x' & Hx' & H1 & H2 & H3).
  assert (x' = x) as -> by congruence. split_and!; eauto.
Qed.

Lemma same_queue_job s s' id j : same_queue s s' → stored_job s' id j ↔ stored_job s id j.
Proof. intros Hs. unfold stored_job. by rewrite (Hs (job_address id)). Qed.

Lemma same_queue_index s s' key x : same_queue s s' → stored_index s' key x ↔ stored_index s key x.
Proof. intros Hs. unfold stored_index. by rewrite (Hs (index_address key)). Qed.

Lemma coherent_same s s' : same_queue s s' → coherent s → coherent s'.
Proof.
  intros Hs [Hj Hx]. split.
  - intros id v Hv. rewrite (Hs (job_address id)) in Hv by done.
    destruct (Hj id v Hv) as (j & x & ? & ? & ? & ? & ?). exists j, x. split_and!; try done.
    by rewrite (same_queue_index s s').
  - intros key v Hv. rewrite (Hs (index_address key)) in Hv by done.
    destruct (Hx key v Hv) as (x & ? & ? & ? & Hr). exists x. split_and!; try done.
    intros r Hin. destruct (Hr r Hin) as (j & ? & ? & ?). exists j. split_and!; try done.
    by rewrite (same_queue_job s s').
Qed.

(** A stored job or index other than the one a transition writes. *)
Lemma written_job_doc s t s' id :
  written s t s' → id ≠ jb_job_id (jt_before_job t) →
  platform_doc s' (job_address id) = platform_doc s (job_address id).
Proof. intros Hw Hne. apply (wr_other _ _ _ Hw); [done| |done]. by intros [= ->]. Qed.

Lemma written_index_doc s t s' key :
  written s t s' → key ≠ jb_scope_index_key (jt_before_job t) →
  platform_doc s' (index_address key) = platform_doc s (index_address key).
Proof. intros Hw Hne. apply (wr_other _ _ _ Hw); [done|done|]. by intros [= ->]. Qed.

Lemma written_other_job s t s' id j :
  written s t s' → id ≠ jb_job_id (jt_before_job t) → stored_job s' id j ↔ stored_job s id j.
Proof. intros Hw Hne. unfold stored_job. by rewrite (written_job_doc s t s'). Qed.

Lemma written_other_index s t s' key x :
  written s t s' → key ≠ jb_scope_index_key (jt_before_job t) →
  stored_index s' key x ↔ stored_index s key x.
Proof. intros Hw Hne. unfold stored_index. by rewrite (written_index_doc s t s'). Qed.

Lemma ref_job_id j : rf_job_id (ref_from_job j) = jb_job_id j.
Proof. done. Qed.

Lemma coherent_written s t s' : transition_ok t → written s t s' → coherent s → coherent s'.
Proof.
  intros [Hj Hx _] Hw Hs.
  destruct (coherent_index _ _ _ Hs (wr_index _ _ _ Hw)) as (Hvx & Hkx & Hlist).
  pose proof (in_refs _ _ _ Hx (index_validate_NoDup _ Hvx)) as Hrefs.
  destruct (jn_same _ _ Hj) as [Hid Hkey _ _ _ _ _].
  pose proof (wr_job _ _ _ Hw) as Wj. pose proof (wr_index _ _ _ Hw) as Wx.
  pose proof (wr_job' _ _ _ Hw) as Wj'. pose proof (wr_index' _ _ _ Hw) as Wx'.
  set (b := jt_before_job t) in *. set (a := jt_after_job t) in *.
  set (x := jt_before_index t) in *. set (x' := jt_after_index t) in *.
  assert (∀ key y, stored_index s key y → ∃ y', stored_index s' key y'
            ∧ ∀ r, r ∈ index_refs y → rf_job_id r ≠ jb_job_id b → r ∈ index_refs y') as Hidx.
  { intros key y Hy. destruct (decide (key = jb_scope_index_key b)) as [->|Hne].
    - exists x'. split; [apply Wx'|]. intros r Hr Hr'. apply Hrefs. left.
      rewrite Hid. rewrite (stored_index_unique _ _ _ _ Hy Wx) in Hr. done.
    - exists y. split; [by rewrite (written_other_index s t s')|done]. }
  split.
  - intros id v Hv. destruct (decide (id = jb_job_id b)) as [->|Hne].
    + destruct Wj' as (v' & Hv' & Ha). assert (v' = v) as -> by congruence.
      exists a, x'. rewrite Hkey. split_and!; try done; [apply Hj|].
      apply Hrefs. by right.
    + rewrite (written_job_doc s t s') in Hv by done.
      destruct (co_jobs _ Hs id v Hv) as (j & y & Hv' & Hval & Hjid & Hy & Hr).
      destruct (Hidx _ _ Hy) as (y' & Hy' & Hin). exists j, y'. split_and!; try done.
      apply Hin; [done|]. rewrite ref_job_id. congruence.
  - intros key v Hv. destruct (decide (key = jb_scope_index_key b)) as [->|Hne].
    + destruct Wx' as (v' & Hv' & Hdec). assert (v' = v) as -> by congruence.
      exists x'. split_and!; [done|apply Hx|by rewrite (in_key _ _ _ Hx)|].
      intros r [[Hr Hne]| ->]%Hrefs.
      * destruct (Hlist r Hr) as (j & Hj' & -> & Hk). exists j. split_and!; [|done..].
        rewrite (written_other_job s t s'); [done..|]. fold b. by rewrite <- Hid.
      * exists a. split_and!; [|done|done]. rewrite ref_job_id, Hid. apply Wj'.
    + rewrite (written_index_doc s t s') in Hv by done.
      destruct (co_indexes _ Hs key v Hv) as (y & Hv' & Hval & Hk & Hr). exists y.
      split_and!; try done. intros r Hin. destruct (Hr r Hin) as (j & Hj' & -> & Hjk).
      exists j. split_and!; [|done..]. rewrite (written_other_job s t s'); [done..|].
      fold b. intros Heq. rewrite ref_job_id in Hj', Heq. rewrite Heq in Hj'.
      pose proof (stored_job_unique _ _ _ _ Hj' Wj) as ->. done.
Qed.

(** The status of a reference tells the list it is in. *)
Lemma index_validate_refs x :
  index_validate x = Ok tt →
  existsb (ref_invalid status_is_active) (ix_active_jobs x) = false
  ∧ existsb (ref_invalid status_is_terminal) (ix_recent_terminal_jobs x) = false.
Proof. unfold index_validate. intros H. inv_plan. by split_bool. Qed.

Lemma valid_refs p l r : existsb (ref_invalid p) l = false → r ∈ l → p (rf_status r) = true.
Proof.
  intros H Hr. destruct (ref_invalid p r) eqn:Hi.
  - apply list_elem_of_In in Hr. assert (existsb (ref_invalid p) l = true); [|congruence].
    apply existsb_exists. eauto.
  - unfold ref_invalid in Hi. by split_bool.
Qed.

Lemma ref_active x r :
  index_validate x = Ok tt → r ∈ index_refs x → status_is_active (rf_status r) = true →
  r ∈ ix_active_jobs x.
Proof.
  intros [_ Hv]%index_validate_refs [Hr|Hr]%elem_of_app Hact; [done|]. exfalso.
  apply (valid_refs _ _ _ Hv) in Hr. by destruct (rf_status r).
Qed.

Lemma ref_terminal x r :
  index_validate x = Ok tt → r ∈ index_refs x → status_is_active (rf_status r) = false →
  r ∈ ix_recent_terminal_jobs x.
Proof.
  intros [Hv _]%index_validate_refs [Hr|Hr]%elem_of_app Hact; [|done]. exfalso.
  apply (valid_refs _ _ _ Hv) in Hr. congruence.
Qed.

(** In a coherent store no active job has lost its reference. *)
Lemma nothing_restored s key jobs restored x x' s' :
  coherent s → created s key jobs restored x x' s' → restored = [].
Proof.
  intros Hs Hc. destruct restored as [|e restored]; [done|exfalso].
  destruct (cr_restored _ _ _ _ _ _ _ Hc e) as (id & Hj & Hact & Hkey & Hf); [by left|].
  destruct (coherent_job _ _ _ Hs Hj) as (Hv & _ & y & Hy & Hr).
  rewrite (job_scope_key _ Hv), Hkey in Hy.
  destruct (cr_index _ _ _ _ _ _ _ Hc) as [Hx|(Hnone & _)].
  - pose proof (stored_index_unique _ _ _ _ Hy Hx) as ->.
    destruct (coherent_index _ _ _ Hs Hx) as (Hvx & _).
    apply (ref_active _ _ Hvx) in Hr; [|done].
    by apply (proj1 (find_ref_none x (jb_job_id e)) Hf _ Hr).
  - destruct Hy as (v & Hv' & _). congruence.
Qed.

Lemma created_job_doc s key jobs restored x x' s' id :
  created s key jobs restored x x' s' → id ∉ jb_job_id <$> jobs →
  platform_doc s' (job_address id) = platform_doc s (job_address id).
Proof.
  intros Hc Hid. apply (cr_other _ _ _ _ _ _ _ Hc); [done|done|].
  intros j Hj [= ->]. apply Hid. apply list_elem_of_fmap. eauto.
Qed.

Lemma created_index_doc s key jobs restored x x' s' k :
  created s key jobs restored x x' s' → k ≠ key →
  platform_doc s' (index_address k) = platform_doc s (index_address k).
Proof.
  intros Hc Hk. apply (cr_other _ _ _ _ _ _ _ Hc); [done|by intros [= ->]|done].
Qed.

(** A stored job keeps its document when jobs are created. *)
Lemma created_keeps s key jobs restored x x' s' id v :
  created s key jobs restored x x' s' → platform_doc s (job_address id) = Some v →
  platform_doc s' (job_address id) = Some v.
Proof.
  intros Hc Hv. rewrite (created_job_doc _ _ _ _ _ _ _ _ Hc); [done|].
  intros (j & -> & Hj)%list_elem_of_fmap.
  destruct (cr_valid _ _ _ _ _ _ _ Hc j Hj) as (_ & _ & Hnone & _). congruence.
Qed.

Lemma coherent_created s key jobs restored x x' s' :
  created s key jobs restored x x' s' → coherent s → coherent s'.
Proof.
  intros Hc Hs. pose proof (nothing_restored _ _ _ _ _ _ _ Hs Hc) as ->.
  assert (∀ r, r ∈ index_refs x' ↔ r ∈ index_refs x ∨ r ∈ ref_from_job <$> jobs) as Hrefs.
  { intros r. rewrite (cr_refs _ _ _ _ _ _ _ Hc), app_nil_r. done. }
  assert (ix_scope_index_key x = key ∧ ∀ r, r ∈ index_refs x →
    ∃ j, stored_job s (rf_job_id r) j ∧ r = ref_from_job j ∧ jb_scope_index_key j = key) as [Hkx Hold].
  { destruct (cr_index _ _ _ _ _ _ _ Hc) as [Hx|(_ & -> & _ & Hk)].
    - by destruct (coherent_index _ _ _ Hs Hx) as (_ & ? & ?).
    - split; [done|]. by intros r Hr%not_elem_of_nil. }
  split.
  - intros id v Hv. destruct (decide (id ∈ jb_job_id <$> jobs)) as [Hin|Hout].
    + apply list_elem_of_fmap in Hin as (j & -> & Hj).
      destruct (cr_jobs _ _ _ _ _ _ _ Hc j Hj) as (v' & Hv' & Hdec).
      assert (v' = v) as -> by congruence.
      destruct (cr_valid _ _ _ _ _ _ _ Hc j Hj) as (Hval & Hk & _). exists j, x'. rewrite Hk.
      split_and!; [done..|apply (cr_index' _ _ _ _ _ _ _ Hc)|]. apply Hrefs. right.
      apply list_elem_of_fmap. eauto.
    + rewrite (created_job_doc _ _ _ _ _ _ _ _ Hc Hout) in Hv.
      destruct (co_jobs _ Hs id v Hv) as (j & y & Hdec & Hval & Hid & Hy & Hr).
      destruct (decide (jb_scope_index_key j = key)) as [Heq|Hne].
      * exists j, x'. rewrite Heq. split_and!; [done..|apply (cr_index' _ _ _ _ _ _ _ Hc)|].
        apply Hrefs. left. destruct (cr_index _ _ _ _ _ _ _ Hc) as [Hx|(Hnone & _)].
        -- rewrite Heq in Hy. by rewrite <- (stored_index_unique _ _ _ _ Hy Hx).
        -- rewrite Heq in Hy. destruct Hy as (w & Hw & _). congruence.
      * exists j, y. split_and!; try done. unfold stored_index.
        by rewrite (created_index_doc _ _ _ _ _ _ _ _ Hc Hne).
  - assert (∀ id j, stored_job s id j → stored_job s' id j) as Hkeep.
    { intros id j (w & Hw & Hdec). exists w. split; [|done]. by eapply created_keeps. }
    intros k v Hv. destruct (decide (k = key)) as [->|Hne].
    + destruct (cr_index' _ _ _ _ _ _ _ Hc) as (v' & Hv' & Hdec).
      assert (v' = v) as -> by congruence. exists x'.
      split_and!; [done|apply (cr_valid' _ _ _ _ _ _ _ Hc)|by rewrite (cr_key _ _ _ _ _ _ _ Hc)|].
      intros r [Hr|(j & -> & Hj)%list_elem_of_fmap]%Hrefs.
      * destruct (Hold r Hr) as (j & Hj & -> & Hk). exists j. split_and!; [|done..]. eauto.
      * exists j. destruct (cr_valid _ _ _ _ _ _ _ Hc j Hj) as (_ & Hk & _).
        split_and!; [|done..]. by apply (cr_jobs _ _ _ _ _ _ _ Hc).
    + rewrite (created_index_doc _ _ _ _ _ _ _ _ Hc Hne) in Hv.
      destruct (co_indexes _ Hs k v Hv) as (y & Hdec & Hval & Hk & Hr). exists y.
      split_and!; try done. intros r Hin. destruct (Hr r Hin) as (j & Hj & -> & Hjk).
      exists j. split_and!; [|done..]. eauto.
Qed.

(** *** Withdrawal *)

Lemma read_job_stored s id b : read_job (reads s) id = Ok (Some b) → stored_job s id b.
Proof.
  unfold read_job, reads, stored_job. cbn. destruct (platform_doc s _) as [v|]; [|done]. cbn.
  intros H. inv_plan. exists v. split; [done|]. by eapply encoded_ok.
Qed.

(** A job that a withdrawal ends was active and is listed in the index. *)
Lemma hit_ok s key x r b :
  coherent s → stored_index s key x → r ∈ ix_active_jobs x →
  read_job (reads s) (rf_job_id r) = Ok (Some b) →
  r = ref_from_job b ∧ stored_job s (jb_job_id b) b ∧ jb_scope_index_key b = key
  ∧ status_is_active (jb_status b) = true.
Proof.
  intros Hs Hx Hr Hb%read_job_stored. destruct (coherent_index _ _ _ Hs Hx) as (Hv & Hk & Hrefs).
  destruct (Hrefs r) as (j & Hj & -> & Hkj); [by apply in_left|].
  pose proof (stored_job_unique _ _ _ _ Hb Hj) as ->. split_and!; [done..|].
  apply index_validate_refs in Hv as [Hv _]. apply (valid_refs _ _ _ Hv Hr).
Qed.

Lemma withdrawn_next reason now b :
  status_is_active (jb_status b) = true → job_validate (withdrawn_job reason now b) = Ok tt →
  job_next b (withdrawn_job reason now b) ∧ keeps_lease b (withdrawn_job reason now b).
Proof.
  intros Ha Hv. assert (keeps_lease b (withdrawn_job reason now b)) as Hk by (by split_and!).
  split; [|done]. split; [by split|done| |done|done|by right]. by apply active_not_terminal.
Qed.

Section Withdrawn.
Context (s : S) (documents : list (string * Value)) (scope : StoreEventScope).
Context (targets : list turn_target) (reason : string) (now : N) (parts : list document_part).
Context (Hs : coherent s) (Hdocs : lists_indexes s documents).
Context (Hparts : Forall2 (part_of (reads s) scope targets reason now) documents.*2 parts).

#[local] Abbreviation hits := (concat (dp_hits <$> parts)).
#[local] Abbreviation writes := (concat (dp_writes <$> parts)).
#[local] Abbreviation after b := (withdrawn_job reason now b).

Lemma part_stored i g :
  parts !! i = Some g →
  ∃ v, documents !! i = Some (ix_scope_index_key (dp_index g), v)
    ∧ stored_index s (ix_scope_index_key (dp_index g)) (dp_index g)
    ∧ document_withdrawn (reads s) scope targets reason now (dp_index g) (dp_hits g) (dp_writes g)
        (dp_after g).
Proof.
  intros Hg. destruct (Forall2_lookup_r _ _ _ _ _ Hparts Hg) as (v & Hv & Hx & Hd).
  rewrite list_lookup_fmap in Hv. destruct (documents !! i) as [[key v']|] eqn:Hi; [|done].
  injection Hv as ->. apply list_elem_of_lookup_2 in Hi as Hin. apply (proj2 Hdocs) in Hin.
  assert (stored_index s key (dp_index g)) as Hst by (by exists v).
  destruct (coherent_index _ _ _ Hs Hst) as (_ & -> & _). eauto.
Qed.

Lemma part_elem g :
  g ∈ parts → stored_index s (ix_scope_index_key (dp_index g)) (dp_index g)
    ∧ document_withdrawn (reads s) scope targets reason now (dp_index g) (dp_hits g) (dp_writes g)
        (dp_after g).
Proof. intros [i Hg]%list_elem_of_lookup_1. by destruct (part_stored i g Hg) as (v & _ & H). Qed.

(** One part for each index. *)
Lemma part_unique g g' :
  g ∈ parts → g' ∈ parts →
  ix_scope_index_key (dp_index g) = ix_scope_index_key (dp_index g') → g = g'.
Proof.
  intros [i Hg]%list_elem_of_lookup_1 [i' Hg']%list_elem_of_lookup_1 Heq.
  destruct (part_stored i g Hg) as (v & Hi & _). destruct (part_stored i' g' Hg') as (v' & Hi' & _).
  assert (i = i') as ->; [|congruence].
  apply (NoDup_lookup documents.*1 i i' (ix_scope_index_key (dp_index g)) (proj1 Hdocs)).
  - by rewrite list_lookup_fmap, Hi.
  - by rewrite list_lookup_fmap, Hi', Heq.
Qed.

Lemma part_total key v :
  platform_doc s (index_address key) = Some v →
  ∃ g, g ∈ parts ∧ ix_scope_index_key (dp_index g) = key ∧ stored_index s key (dp_index g).
Proof.
  intros Hv. apply (proj2 Hdocs), list_elem_of_lookup_1 in Hv as [i Hi].
  destruct (Forall2_lookup_l _ _ _ i v Hparts) as (g & Hg & _); [by rewrite list_lookup_fmap, Hi|].
  destruct (part_stored i g Hg) as (v' & Hi' & Hst & _). rewrite Hi in Hi'. injection Hi' as -> ->.
  exists g. split_and!; [by eapply list_elem_of_lookup_2|done..].
Qed.

Lemma elem_of_parts {A} (f : document_part → list A) a :
  a ∈ concat (f <$> parts) ↔ ∃ g, g ∈ parts ∧ a ∈ f g.
Proof.
  rewrite list_elem_of_In, in_concat. setoid_rewrite <- list_elem_of_In. split.
  - intros (l & (g & -> & Hg)%list_elem_of_fmap & Ha). by exists g.
  - intros (g & Hg & Ha). exists (f g). split; [|done]. apply list_elem_of_fmap. by exists g.
Qed.

Lemma part_hit g b :
  g ∈ parts → b ∈ dp_hits g →
  stored_job s (jb_job_id b) b ∧ jb_scope_index_key b = ix_scope_index_key (dp_index g)
  ∧ ref_from_job b ∈ ix_active_jobs (dp_index g) ∧ status_is_active (jb_status b) = true
  ∧ job_validate (after b) = Ok tt ∧ job_target b ∈ targets.
Proof.
  intros Hg Hb. destruct (part_elem g Hg) as [Hst Hd].
  destruct (dw_hit _ _ _ _ _ _ _ _ _ Hd b Hb) as ((r & Hr & Hrd) & Ht & Hv).
  destruct (hit_ok _ _ _ _ _ Hs Hst Hr Hrd) as (-> & Hj & Hk & Ha). by split_and!.
Qed.

(** The part of a job, from the index of its scope. *)
Lemma hit_part g b :
  g ∈ parts → b ∈ hits → jb_scope_index_key b = ix_scope_index_key (dp_index g) → b ∈ dp_hits g.
Proof.
  intros Hg (g' & Hg' & Hb)%elem_of_parts Hk. destruct (part_hit g' b Hg' Hb) as (_ & Hk' & _).
  rewrite (part_unique g g'); [done..|congruence].
Qed.

Lemma hit_stored b : b ∈ hits → stored_job s (jb_job_id b) b.
Proof. intros (g & Hg & Hb)%elem_of_parts. by destruct (part_hit g b Hg Hb). Qed.

Lemma writes_job id u :
  (job_address id, u) ∈ writes ↔ ∃ b, b ∈ hits ∧ jb_job_id b = id ∧ job_to_value (after b) = inr u.
Proof.
  rewrite elem_of_parts. split.
  - intros (g & Hg & Hu). destruct (part_elem g Hg) as [_ Hd].
    apply (dw_writes _ _ _ _ _ _ _ _ _ Hd) in Hu as [(b & Hb & [= ->] & Hv)|(x' & _ & ?)]; [|done].
    exists b. split_and!; [|done..]. apply elem_of_parts. by exists g.
  - intros (b & (g & Hg & Hb)%elem_of_parts & <- & Hv). exists g. split; [done|].
    destruct (part_elem g Hg) as [_ Hd]. apply (dw_writes _ _ _ _ _ _ _ _ _ Hd). left. by exists b.
Qed.

Lemma writes_index key u :
  (index_address key, u) ∈ writes ↔
  ∃ g x', g ∈ parts ∧ ix_scope_index_key (dp_index g) = key ∧ dp_after g = Some (x', u).
Proof.
  rewrite elem_of_parts. split.
  - intros (g & Hg & Hu). destruct (part_elem g Hg) as [_ Hd].
    apply (dw_writes _ _ _ _ _ _ _ _ _ Hd) in Hu as [(b & _ & ? & _)|(x' & Ha & [= ->])]; [done|].
    by exists g, x'.
  - intros (g & x' & Hg & <- & Ha). exists g. split; [done|].
    destruct (part_elem g Hg) as [_ Hd]. apply (dw_writes _ _ _ _ _ _ _ _ _ Hd). right. by exists x'.
Qed.

Lemma hit_unique b b' : b ∈ hits → b' ∈ hits → jb_job_id b = jb_job_id b' → b = b'.
Proof.
  intros Hb%hit_stored Hb'%hit_stored Heq. rewrite Heq in Hb. by eapply stored_job_unique.
Qed.

(** A reference of the index keeps its place unless its own job is ended. *)
Lemma part_refs g r b :
  g ∈ parts → r ∈ index_refs (dp_index g) → b ∈ hits → rf_job_id r = jb_job_id b →
  b ∈ dp_hits g ∧ r ∈ ix_active_jobs (dp_index g).
Proof.
  intros Hg Hr Hb Heq. destruct (part_elem g Hg) as [Hst _].
  destruct (coherent_index _ _ _ Hs Hst) as (Hv & _ & Hrefs).
  destruct (Hrefs r Hr) as (j & Hj & -> & Hk). rewrite ref_job_id in *. rewrite Heq in Hj.
  pose proof (stored_job_unique _ _ _ _ (hit_stored b Hb) Hj) as <-.
  assert (b ∈ dp_hits g) as Hin by (by apply hit_part). split; [done|].
  by destruct (part_hit g b Hg Hin) as (_ & _ & ? & _).
Qed.

(** The references of an index after the withdrawal, in terms of all its jobs. *)
Lemma part_after g r :
  g ∈ parts →
  ((r ∈ ix_active_jobs (dp_index g) ∧ rf_job_id r ∉ jb_job_id <$> dp_hits g)
   ∨ r ∈ ix_recent_terminal_jobs (dp_index g)
   ∨ (∃ b, b ∈ dp_hits g ∧ r = ref_from_job (after b)))
  ↔ (r ∈ index_refs (dp_index g) ∧ rf_job_id r ∉ jb_job_id <$> hits)
    ∨ ∃ b, b ∈ hits ∧ jb_scope_index_key b = ix_scope_index_key (dp_index g)
           ∧ r = ref_from_job (after b).
Proof.
  intros Hg. split.
  - intros [[Hr Hn]|[Hr|(b & Hb & ->)]].
    + left. split; [by apply in_left|]. intros (b & Heq & Hb)%list_elem_of_fmap.
      apply Hn. apply list_elem_of_fmap. exists b. split; [done|].
      apply (part_refs g r b); [done|by apply in_left|done..].
    + left. assert (r ∈ index_refs (dp_index g)) as Hin by (apply elem_of_app; by right).
      split; [done|]. intros (b & Heq & Hb)%list_elem_of_fmap.
      destruct (part_refs g r b Hg Hin Hb Heq) as [_ Hact]. destruct (part_elem g Hg) as [Hst _].
      destruct (coherent_index _ _ _ Hs Hst) as (Hvx & _).
      apply index_validate_refs in Hvx as [H1 H2].
      pose proof (valid_refs _ _ _ H1 Hact) as S1. pose proof (valid_refs _ _ _ H2 Hr) as S2.
      by destruct (rf_status r).
    + right. exists b. destruct (part_hit g b Hg Hb) as (_ & Hkb & _).
      split_and!; [apply elem_of_parts; by exists g|done..].
  - intros [[Hr Hn]|(b & Hb & Hkb & ->)].
    + apply elem_of_app in Hr as [Hr|Hr]; [left|by right; left]. split; [done|].
      intros (b & Heq & Hb)%list_elem_of_fmap. apply Hn, list_elem_of_fmap. exists b.
      split; [done|]. apply elem_of_parts. by exists g.
    + right. right. exists b. split; [|done]. by apply hit_part.
Qed.

Lemma withdrawn_intro s' :
  (∀ a, is_governance_namespace a.1 = true →
     platform_doc s' a = mutated (put_at <$> writes) a (platform_doc s a)) →
  withdrawn s hits reason now s'.
Proof.
  intros Hdoc. split.
  - intros b Hb. pose proof Hb as (g & Hg & Hbg)%elem_of_parts.
    destruct (part_hit g b Hg Hbg) as (Hj & _ & _ & Ha & Hv & _).
    split_and!; [done| |by apply withdrawn_next..].
    destruct (part_elem g Hg) as [_ Hd]. destruct (dw_written _ _ _ _ _ _ _ _ _ Hd b Hbg) as [u Hu].
    assert ((job_address (jb_job_id b), u) ∈ writes) as Hw by (apply elem_of_parts; by exists g).
    pose proof Hw as (b' & Hb' & Heq & Hu')%writes_job.
    rewrite (hit_unique _ _ Hb' Hb Heq) in Hu'. exists u. split; [|by apply job_round_trip].
    rewrite Hdoc by done. apply mutated_writes; [done|].
    intros u2 (b2 & Hb2 & Heq2 & Hu2)%writes_job. rewrite (hit_unique _ _ Hb2 Hb Heq2) in Hu2. congruence.
  - intros id Hid. rewrite Hdoc by done. apply mutated_writes_other.
    intros u (b & Hb & <- & _)%writes_job. apply Hid, list_elem_of_fmap. by exists b.
  - intros key. destruct (platform_doc s (index_address key)) as [v|] eqn:Hv.
    2: { left. split.
         - rewrite Hdoc, Hv by done. apply mutated_writes_other.
           intros u (g & x' & Hg & <- & _)%writes_index. destruct (part_elem g Hg) as [(w & Hw & _) _].
           congruence.
         - intros b (g & Hg & Hb)%elem_of_parts <-.
           destruct (part_hit g b Hg Hb) as (_ & Hk & _). rewrite Hk in Hv.
           destruct (part_elem g Hg) as [(w & Hw & _) _]. congruence. }
    destruct (part_total key v Hv) as (g & Hg & <- & Hst). destruct (part_elem g Hg) as [_ Hd].
    pose proof (dw_after _ _ _ _ _ _ _ _ _ Hd) as Haft. destruct (dp_after g) as [[x' u]|] eqn:Ha.
    + right. destruct Haft as (Hu & Hvx & Hk & Hc & Hrefs).
      exists (dp_index g), x'. split_and!; [done| |done..|].
      * exists u. split; [|by apply index_round_trip]. rewrite Hdoc by done. apply mutated_writes.
        { apply writes_index. by exists g, x'. }
        intros u2 (g2 & x2 & Hg2 & Heq & Ha2)%writes_index.
        rewrite (part_unique g2 g Hg2 Hg Heq) in Ha2. congruence.
      * intros r. rewrite Hrefs. by apply part_after.
    + left. split.
      * rewrite Hdoc, Hv by done. apply mutated_writes_other.
        intros u (g2 & x2 & Hg2 & Heq & Ha2)%writes_index.
        rewrite (part_unique g2 g Hg2 Hg Heq) in Ha2. congruence.
      * intros b Hb Hk. apply (hit_part g b Hg Hb) in Hk. rewrite Haft in Hk.
        by apply not_elem_of_nil in Hk.
Qed.

End Withdrawn.

(** What the commit of a withdrawal does to the documents of the queue. *)
Lemma withdrawal_documents b pre bpre op at_secs s u s' before ms after a :
  commit_governed_memory_transaction b pre bpre op at_secs s = (Ok u, s') →
  leaves_queue before → leaves_queue after → batch_mutations b = before ++ ms ++ after →
  is_governance_namespace a.1 = true → platform_doc s' a = mutated ms a (platform_doc s a).
Proof.
  intros [_ Hdoc]%queue_commit Hm Hm' Hb Ha. rewrite Hdoc, Hb, !mutated_app by done.
  rewrite (mutated_other is_governance_namespace after _ _ Hm' Ha).
  by rewrite (mutated_other is_governance_namespace before _ _ Hm Ha).
Qed.

Lemma withdrawal_change s documents scope records transition now ms ps before after b pre bpre op
    at_secs r s' :
  coherent s → lists_indexes s documents →
  withdrawal_plan (reads s) documents.*2 scope records transition now = Ok (ms, ps) →
  leaves_queue before → leaves_queue after → batch_mutations b = before ++ ms ++ after →
  commit_governed_memory_transaction b pre bpre op at_secs s = (r, s') → change s [] s'.
Proof.
  intros Hs Hd Hp Hm Hm' Hb H. destruct r as [u|]; [|apply change_none; by apply queue_commit in H].
  pose proof (λ a, withdrawal_documents _ _ _ _ _ _ _ _ _ _ _ a H Hm Hm' Hb) as Hdoc.
  destruct (withdrawal_reason transition) as [reason|] eqn:Hr.
  - destruct (withdrawal_plan_ok _ _ _ _ _ _ _ _ _ Hp Hr) as (parts & -> & Hparts).
    eapply change_withdraw. by eapply withdrawn_intro.
  - apply change_none. unfold withdrawal_plan in Hp. rewrite Hr in Hp. by injection Hp as <- <-.
Qed.

Lemma withdrawn_other_job s hits reason now s' id j :
  withdrawn s hits reason now s' → id ∉ jb_job_id <$> hits → stored_job s' id j ↔ stored_job s id j.
Proof. intros Hw Hid. unfold stored_job. by rewrite (wd_other _ _ _ _ _ Hw id Hid). Qed.

(** What a withdrawal does to one stored job. *)
Lemma withdrawn_stored s hits reason now s' id j :
  withdrawn s hits reason now s' → stored_job s id j →
  (j ∈ hits ∧ id = jb_job_id j ∧ stored_job s' id (withdrawn_job reason now j)
   ∧ job_next j (withdrawn_job reason now j) ∧ keeps_lease j (withdrawn_job reason now j))
  ∨ (id ∉ jb_job_id <$> hits ∧ stored_job s' id j).
Proof.
  intros Hw Hj. destruct (decide (id ∈ jb_job_id <$> hits)) as [Hin|Hout].
  - left. apply list_elem_of_fmap in Hin as (b & -> & Hb).
    destruct (wd_hit _ _ _ _ _ Hw b Hb) as (Hb1 & Hb2 & Hn & Hk).
    pose proof (stored_job_unique _ _ _ _ Hj Hb1) as ->. by split_and!.
  - right. by rewrite (withdrawn_other_job s hits reason now s').
Qed.

Lemma coherent_withdrawn s hits reason now s' :
  withdrawn s hits reason now s' → coherent s → coherent s'.
Proof.
  intros Hw Hs. split.
  - intros id v Hv. destruct (decide (id ∈ jb_job_id <$> hits)) as [Hin|Hout].
    + apply list_elem_of_fmap in Hin as (b & -> & Hb).
      destruct (wd_hit _ _ _ _ _ Hw b Hb) as (_ & (v' & Hv' & Hdec) & Hn & _).
      assert (v' = v) as -> by congruence.
      destruct (wd_index _ _ _ _ _ Hw (jb_scope_index_key b))
        as [[_ Hno]|(x & x' & _ & Hx' & _ & _ & _ & Hrefs)]; [by destruct (Hno b Hb)|].
      exists (withdrawn_job reason now b), x'. split_and!; [done|apply Hn|done..|].
      apply Hrefs. right. by exists b.
    + rewrite (wd_other _ _ _ _ _ Hw id Hout) in Hv.
      destruct (co_jobs _ Hs id v Hv) as (j & x & Hdec & Hval & Hid & Hx & Hr). exists j.
      destruct (wd_index _ _ _ _ _ Hw (jb_scope_index_key j))
        as [[Hsame _]|(y & y' & Hy & Hy' & _ & _ & _ & Hrefs)].
      * exists x. split_and!; try done. unfold stored_index. by rewrite Hsame.
      * exists y'. pose proof (stored_index_unique _ _ _ _ Hx Hy) as ->. split_and!; try done.
        apply Hrefs. left. split; [done|]. by rewrite ref_job_id, Hid.
  - assert (∀ r j key, stored_job s (rf_job_id r) j → r = ref_from_job j → jb_scope_index_key j = key →
      rf_job_id r ∉ jb_job_id <$> hits →
      ∃ j', stored_job s' (rf_job_id r) j' ∧ r = ref_from_job j' ∧ jb_scope_index_key j' = key) as Hkeep.
    { intros r j key Hj Hr Hk Hout. exists j. split_and!; [|done..].
      by rewrite (withdrawn_other_job s hits reason now s'). }
    intros key v Hv.
    destruct (wd_index _ _ _ _ _ Hw key) as [[Hsame Hno]|(x & x' & Hx & Hx' & Hvx & Hk & _ & Hrefs)].
    + rewrite Hsame in Hv. destruct (co_indexes _ Hs key v Hv) as (x & Hdec & Hval & Hk & Hr).
      exists x. split_and!; try done. intros r Hin. destruct (Hr r Hin) as (j & Hj & Hrj & Hkj).
      apply (Hkeep r j key); try done. intros (b & Heq & Hb)%list_elem_of_fmap.
      destruct (wd_hit _ _ _ _ _ Hw b Hb) as (Hb1 & _). rewrite Heq in Hj.
      pose proof (stored_job_unique _ _ _ _ Hj Hb1) as ->. by apply (Hno b Hb).
    + destruct Hx' as (v' & Hv' & Hdec). assert (v' = v) as -> by congruence.
      destruct (coherent_index _ _ _ Hs Hx) as (_ & Hkx & Hold). exists x'.
      split_and!; [done|done|congruence|]. intros r [[Hr Hout]|(b & Hb & Hkb & ->)]%Hrefs.
      * destruct (Hold r Hr) as (j & Hj & Hrj & Hkj). by apply (Hkeep r j key).
      * destruct (wd_hit _ _ _ _ _ Hw b Hb) as (_ & Hb' & _). by exists (withdrawn_job reason now b).
Qed.

Lemma queue_op_change s h s' : coherent s → queue_op s h s' → change s h s'.
Proof.
  intros Hcoh. destruct 1 as [v scope id owner until authority now r s' H|v scope id owner epoch now o r s' H
    |v scope id now o r s' H|v s0 final scope id c g op actor now r s' H
    |v s0 final scope id b rev g op actor now r s' H|v later scope job now additional r s' H
    |v scope jobs cursor now r s' H
    |documents scope records transition now ms ps before after b pre bpre op at_secs r s' Hd Hp Hm Hm' Hb _ H
    |b pre bpre op now r s' Hm H].
  - apply claim_cases in H as [[Hs Hr]|(t & Hp & -> & Hw)].
    + destruct r; [done|]. by apply change_none.
    + apply claim_plan_ok in Hp as (Hok & Hc & _). by apply change_claim.
  - apply holder_cases in H as [Hs|(t & [Hk _] & _ & Hw)]; [by apply change_none|].
    by eapply change_keep.
  - apply open_cases in H as [Hs|(t & Hk & _ & Hw)]; [by apply change_none|]. by eapply change_keep.
  - eapply recovery_change in H; [done|]. intros t. apply credential_resume_plan_ok.
  - eapply recovery_change in H; [done|]. intros t. apply permission_resume_plan_ok.
  - apply intent_cases in H as [[Hs _]|(_ & x & x' & Hc & Hcur)]; [by apply change_none|].
    eapply change_create; [exact Hc|]. intros _ c. by rewrite (cursor_of_eq x x').
  - apply reconcile_cases in H as [[Hs _]|(n & key & news & restored & x & x' & _ & _ & Hc & Hcur)];
      [by apply change_none|].
    eapply change_create; [exact Hc|]. intros Hnd c. destruct (Hcur Hnd) as [Hlt Hall].
    rewrite Hall. destruct (String.eqb_spec (ck_conversation_id (tt_key cursor)) c) as [<-|]; lia.
  - exact (withdrawal_change _ _ _ _ _ _ _ _ _ _ _ _ _ _ _ _ _ Hcoh Hd Hp Hm Hm' Hb H).
  - apply change_none. apply queue_commit in H. destruct r as [[]|]; [|done]. destruct H as [_ Hdoc].
    intros a Ha. rewrite Hdoc by done. by apply (mutated_other is_governance_namespace).
Qed.

Lemma coherent_change s h s' : change s h s' → coherent s → coherent s'.
Proof.
  destruct 1 as [s' H|t owner s' Hok _ Hw|t s' [Hok _] Hw|key jobs restored x x' s' Hc _
    |hits reason now s' Hw].
  - by apply coherent_same.
  - by apply (coherent_written s t).
  - by apply (coherent_written s t).
  - by eapply coherent_created.
  - by eapply coherent_withdrawn.
Qed.

Lemma runs_coherent s h s' : runs s h s' → coherent s → coherent s'.
Proof.
  induction 1 as [|h s1 e s2 H IH Hop]; [done|]. intros Hs.
  exact (coherent_change _ _ _ (queue_op_change _ _ _ (IH Hs) Hop) (IH Hs)).
Qed.

(** C12: In every execution of the queue from a coherent store, by any number of
    workers whose reads may be arbitrarily out of date, every stored job is
    valid, is stored under its own identifier and is listed exactly as it is in
    the index of its scope, among the active jobs exactly when it is active, and
    the index lists nothing else and lists nothing twice. *)
Theorem queue_stays_coherent s h s' :
  runs s h s' → coherent s →
  (∀ id j, stored_job s' id j →
     job_validate j = Ok tt ∧ jb_job_id j = id
     ∧ ∃ x, stored_index s' (jb_scope_index_key j) x
         ∧ ref_from_job j
             ∈ (if status_is_active (jb_status j) then ix_active_jobs x
                else ix_recent_terminal_jobs x))
  ∧ (∀ key x, stored_index s' key x →
     index_validate x = Ok tt ∧ NoDup (rf_job_id <$> index_refs x)
     ∧ ∀ r, r ∈ index_refs x →
         ∃ j, stored_job s' (rf_job_id r) j ∧ r = ref_from_job j ∧ jb_scope_index_key j = key).
Proof.
  intros Hr Hs. apply (runs_coherent _ _ _ Hr) in Hs. split.
  - intros id j Hj. destruct (coherent_job _ _ _ Hs Hj) as (Hv & Hid & x & Hx & Hin).
    split_and!; [done..|]. exists x. split; [done|].
    destruct (coherent_index _ _ _ Hs Hx) as (Hvx & _).
    destruct (status_is_active (jb_status j)) eqn:Hact; [by apply ref_active|].
    by eapply ref_terminal.
  - intros key x Hx. destruct (coherent_index _ _ _ Hs Hx) as (Hvx & Hk & Hrefs).
    split_and!; [done|by apply index_validate_NoDup|done].
Qed.

(** ** Progress of a job *)

(** What a change does to one stored job. *)
Lemma change_job s h s' id j :
  change s h s' → stored_job s id j →
  stored_job s' id j ∧ h = []
  ∨ (∃ j' t owner, stored_job s' id j' ∧ jt_before_job t = j ∧ jt_after_job t = j'
       ∧ job_next j j' ∧ claims j j' ∧ h = [mkClaimed id owner (jb_lease_epoch j')])
  ∨ (∃ j', stored_job s' id j' ∧ job_next j j' ∧ keeps_lease j j' ∧ h = [])
  ∨ stored_job s' id j ∧ ∃ id' owner epoch, id' ≠ id ∧ h = [mkClaimed id' owner epoch].
Proof.
  intros Hc Hj.
  destruct Hc as [s' H|t owner s' Hok Hcl Hw|t s' [Hok Hk] Hw|key jobs restored x x' s' Hc _
    |hits reason now s' Hw].
  - left. by rewrite (same_queue_job s s').
  - pose proof (tk_job _ Hok) as Hn. pose proof (sa_job_id _ _ (jn_same _ _ Hn)) as Hid.
    destruct (decide (id = jb_job_id (jt_before_job t))) as [->|Hne].
    + right. left. pose proof (stored_job_unique _ _ _ _ Hj (wr_job _ _ _ Hw)) as ->.
      exists (jt_after_job t), t, owner. split_and!; try done; [apply (wr_job' _ _ _ Hw)|by rewrite Hid].
    + do 3 right. rewrite (written_other_job s t s') by done. split; [done|].
      exists (jb_job_id (jt_after_job t)), owner, (jb_lease_epoch (jt_after_job t)).
      split; [congruence|done].
  - pose proof (tk_job _ Hok) as Hn.
    destruct (decide (id = jb_job_id (jt_before_job t))) as [->|Hne].
    + right. right. left. pose proof (stored_job_unique _ _ _ _ Hj (wr_job _ _ _ Hw)) as ->.
      exists (jt_after_job t). split_and!; try done. apply (wr_job' _ _ _ Hw).
    + left. by rewrite (written_other_job s t s').
  - left. split; [|done]. destruct Hj as (v & Hv & Hdec). exists v. split; [|done].
    by eapply created_keeps.
  - destruct (withdrawn_stored _ _ _ _ _ _ _ Hw Hj) as [(_ & _ & Hj' & Hn & Hk)|[_ Hj']]; [|by left].
    right. right. left. by exists (withdrawn_job reason now j).
Qed.

(** How a stored job evolves: its authority and its binding stay, its revision,
    epoch and attempts do not go back, and once ended it stays as it is. *)
Record evolves (j j' : Job) : Prop := {
  ev_same : same_authority j j';
  ev_revision : jb_state_revision j ≤ jb_state_revision j';
  ev_epoch : jb_lease_epoch j ≤ jb_lease_epoch j';
  ev_attempts : jb_attempt_count j ≤ jb_attempt_count j';
  ev_binding : jb_execution_binding j ≠ Unbound → jb_execution_binding j' = jb_execution_binding j;
  ev_equal : jb_state_revision j' = jb_state_revision j → j' = j;
  ev_terminal : status_is_terminal (jb_status j) = true → j' = j;
}.

Lemma evolves_refl j : evolves j j.
Proof. split; try done; lia. Qed.

Lemma evolves_next j j' : job_next j j' → evolves j j'.
Proof.
  intros [Hs Hv Ha Hr Hb Hl]. split; try done; [lia| | |intros; lia|congruence];
    destruct Hl as [(_ & He & Hc & _)|(He & Hc & _)]; lia.
Qed.

Lemma evolves_trans j1 j2 j3 : evolves j1 j2 → evolves j2 j3 → evolves j1 j3.
Proof.
  intros [[] ? ? ? B1 E1 T1] [[] ? ? ? B2 E2 T2]. split.
  - split; congruence.
  - lia.
  - lia.
  - lia.
  - intros Hb. rewrite B2; [by apply B1|]. by rewrite B1.
  - intros He. rewrite E2 by lia. apply E1. lia.
  - intros Ht. pose proof (T1 Ht) as ->. by apply T2.
Qed.

Lemma change_evolves s h s' id j :
  change s h s' → stored_job s id j → ∃ j', stored_job s' id j' ∧ evolves j j'.
Proof.
  intros Hc Hj. destruct (change_job _ _ _ _ _ Hc Hj)
    as [[H _]|[(j' & _ & _ & H & _ & _ & Hn & _)|[(j' & H & Hn & _)|[H _]]]].
  - exists j. split; [done|apply evolves_refl].
  - exists j'. split; [done|by apply evolves_next].
  - exists j'. split; [done|by apply evolves_next].
  - exists j. split; [done|apply evolves_refl].
Qed.

Lemma runs_evolves s h s' id j :
  runs s h s' → coherent s → stored_job s id j → ∃ j', stored_job s' id j' ∧ evolves j j'.
Proof.
  induction 1 as [|h s1 e s2 H IH Hop]; intros Hs Hj; [exists j; split; [done|apply evolves_refl]|].
  destruct (IH Hs Hj) as (j1 & Hj1 & H1).
  destruct (change_evolves _ _ _ _ _ (queue_op_change _ _ _ (runs_coherent _ _ _ H Hs) Hop) Hj1)
    as (j2 & Hj2 & H2).
  exists j2. split; [done|by eapply evolves_trans].
Qed.

(** C38: A stored job is never lost: along every execution from a coherent store its
    identity, transcript and privacy policy stay, its revision, lease epoch and attempts never go
    back, a revision stands for one content, an execution binding once given is
    kept, and a job that has ended is never changed again. *)
Theorem jobs_evolve s h s' id j :
  runs s h s' → coherent s → stored_job s id j →
  ∃ j', stored_job s' id j' ∧ jb_identity j' = jb_identity j
    ∧ jb_transcript_digest j' = jb_transcript_digest j
    ∧ jb_privacy_authority j' = jb_privacy_authority j
    ∧ jb_state_revision j ≤ jb_state_revision j' ∧ jb_lease_epoch j ≤ jb_lease_epoch j'
    ∧ jb_attempt_count j ≤ jb_attempt_count j'
    ∧ (jb_state_revision j' = jb_state_revision j → j' = j)
    ∧ (jb_execution_binding j ≠ Unbound → jb_execution_binding j' = jb_execution_binding j)
    ∧ (status_is_terminal (jb_status j) = true → j' = j).
Proof.
  intros Hr Hs Hj. destruct (runs_evolves _ _ _ _ _ Hr Hs Hj) as (j' & Hj' & [[] ? ? ? ? ? ?]).
  exists j'. by split_and!.
Qed.

(** ** Leases *)

(** Every claim of the history was of a stored job, whose epoch has not gone back
    since, and no epoch of a job was claimed twice. *)
Lemma runs_claims s h s' :
  runs s h s' → coherent s →
  NoDup ((λ e, (ce_job_id e, ce_epoch e)) <$> h)
  ∧ ∀ e, e ∈ h → ∃ j, stored_job s' (ce_job_id e) j ∧ ce_epoch e ≤ jb_lease_epoch j.
Proof.
  induction 1 as [|h s1 e s2 H IHr Hop]; intros Hcoh;
    [split; [constructor|by intros e He%not_elem_of_nil]|].
  destruct (IHr Hcoh) as [Hnd IH].
  apply queue_op_change in Hop; [|by eapply runs_coherent].
  assert (∀ e', e' ∈ h → ∃ j, stored_job s2 (ce_job_id e') j ∧ ce_epoch e' ≤ jb_lease_epoch j)
    as Hold.
  { intros e' He'. destruct (IH e' He') as (j & Hj & Hle).
    destruct (change_evolves _ _ _ _ _ Hop Hj) as (j' & Hj' & Hev). exists j'. split; [done|].
    pose proof (ev_epoch _ _ Hev). lia. }
  destruct Hop as [s2 Hs|t owner s2 Hok Hcl Hw|t s2 Hk Hw|key jobs restored x x' s2 Hc _
    |hits reason now s2 Hw]; try done.
  pose proof (sa_job_id _ _ (jn_same _ _ (tk_job _ Hok))) as Hid. destruct Hcl as (_ & Hep & _).
  pose proof (wr_job' _ _ _ Hw) as Hnew. rewrite <- Hid in Hnew. cbn. split.
  - constructor; [|done]. intros (e' & Heq & He')%list_elem_of_fmap. injection Heq as Hi He.
    destruct (IH e' He') as (j & Hj & Hle). rewrite <- Hi, Hid in Hj.
    pose proof (stored_job_unique _ _ _ _ Hj (wr_job _ _ _ Hw)) as ->. lia.
  - intros e' [->|He']%elem_of_cons; [|by apply Hold]. cbn. eauto.
Qed.

(** C14: Fencing.  No epoch of a job is claimed twice in an execution; and once a
    later claim of the job has succeeded, whatever the worker of an earlier
    claim attempts under its own epoch, from any reads, changes nothing in the
    queue. *)
Theorem superseded_claims_are_fenced s h s' :
  runs s h s' → coherent s →
  NoDup ((λ e, (ce_job_id e, ce_epoch e)) <$> h)
  ∧ ∀ e e', e ∈ h → e' ∈ h → ce_job_id e = ce_job_id e' → ce_epoch e < ce_epoch e' →
      ∀ v scope id now o r s'' j,
        read_job v id = Ok (Some j) → jb_job_id j = ce_job_id e →
        perform v scope id (ce_owner e) (ce_epoch e) now o s' = (r, s'') → same_queue s' s''.
Proof.
  intros Hr Hcoh. destruct (runs_claims _ _ _ Hr Hcoh) as [Hnd Hst]. split; [done|].
  intros e e' He He' Hid Hlt v scope id now o r s'' j Hj Hjid Hp.
  apply holder_cases in Hp as [Hs|(t & (_ & Hh & Hrd) & _ & Hw)]; [done|exfalso].
  assert (j = jt_before_job t) as -> by congruence.
  destruct (Hst e' He') as (j' & Hj' & Hle). rewrite <- Hid, <- Hjid in Hj'.
  pose proof (stored_job_unique _ _ _ _ Hj' (wr_job _ _ _ Hw)) as ->.
  apply holds_lease_true in Hh as (_ & _ & Heq & _). lia.
Qed.

(** ** Attempts *)

Definition claims_of (id : string) (h : list claim_event) : N :=
  len (filter (λ e, ce_job_id e = id) h).

Lemma claims_of_nil id : claims_of id [] = 0.
Proof. done. Qed.

Lemma claims_of_one id id' owner epoch :
  claims_of id [mkClaimed id' owner epoch] = if decide (id' = id) then 1 else 0.
Proof. unfold claims_of. rewrite filter_cons. cbn. by destruct (decide _). Qed.

Lemma change_attempts s h s' id j j' :
  change s h s' → stored_job s id j → stored_job s' id j' →
  jb_attempt_count j' = jb_attempt_count j + claims_of id h.
Proof.
  intros Hc Hj Hj'. destruct (change_job _ _ _ _ _ Hc Hj)
    as [[H ->]|[(j1 & t & ow & H & _ & _ & _ & (_ & _ & Ha & _) & ->)|
        [(j1 & H & _ & (_ & Ha & _) & ->)|(H & id' & owner & epoch & Hne & ->)]]];
    pose proof (stored_job_unique _ _ _ _ Hj' H) as ->; rewrite ?claims_of_nil, ?claims_of_one.
  - lia.
  - rewrite decide_True by done. lia.
  - lia.
  - rewrite decide_False by done. lia.
Qed.

Lemma claims_of_app id h1 h2 : claims_of id (h1 ++ h2) = claims_of id h1 + claims_of id h2.
Proof. unfold claims_of. rewrite filter_app. apply len_app. Qed.

Lemma claims_of_none id h : (∀ e, e ∈ h → ce_job_id e ≠ id) → claims_of id h = 0.
Proof.
  intros H. unfold claims_of. induction h as [|e h IH]; [done|].
  rewrite filter_cons_False by (apply H; by left). apply IH. intros e' He'. apply H. by right.
Qed.

Lemma change_claims_stored s h s' e :
  change s h s' → e ∈ h → ∃ j, stored_job s (ce_job_id e) j.
Proof.
  destruct 1 as [s' H|t owner s' Hok Hcl Hw|t s' Hk Hw|key jobs restored x x' s' Hc _
    |hits reason now s' Hw]; try by intros He%not_elem_of_nil.
  intros ->%list_elem_of_singleton. cbn. rewrite (sa_job_id _ _ (jn_same _ _ (tk_job _ Hok))).
  eexists. apply (wr_job _ _ _ Hw).
Qed.

Lemma runs_attempts s h s' id j' :
  runs s h s' → coherent s → stored_job s' id j' → claims_of id h ≤ jb_attempt_count j'.
Proof.
  intros Hr Hs. revert j'. induction Hr as [|h s1 e s2 H IH Hop]; intros j' Hj';
    [rewrite claims_of_nil; lia|].
  apply queue_op_change in Hop; [|by eapply runs_coherent]. rewrite claims_of_app.
  destruct (platform_doc s1 (job_address id)) as [v|] eqn:Hv.
  - destruct (job_from_value v) as [err|j] eqn:Hdec.
    + rewrite (claims_of_none id h), (claims_of_none id e); [lia| |].
      * intros e' He' <-. destruct (change_claims_stored _ _ _ _ Hop He') as (j & w & ? & ?). congruence.
      * intros e' He' <-. destruct (proj2 (runs_claims _ _ _ H Hs) e' He') as (j & (w & ? & ?) & _). congruence.
    + assert (stored_job s1 id j) as Hj by (by exists v).
      rewrite (change_attempts _ _ _ _ _ _ Hop Hj Hj'). pose proof (IH j Hj). lia.
  - rewrite (claims_of_none id h), (claims_of_none id e); [lia| |].
    + intros e' He' <-. destruct (change_claims_stored _ _ _ _ Hop He') as (j & w & ? & ?). congruence.
    + intros e' He' <-. destruct (proj2 (runs_claims _ _ _ H Hs) e' He') as (j & (w & ? & ?) & _). congruence.
Qed.

Lemma job_validate_attempts j : job_validate j = Ok tt → jb_attempt_count j ≤ jb_max_attempts j.
Proof. unfold job_validate. intros H. inv_plan. split_bool. done. Qed.

(** C37: However many workers compete for a job and however often its leases expire,
    it is claimed at most [max_attempts] times in an execution. *)
Theorem attempts_bounded s h s' id j :
  runs s h s' → coherent s → stored_job s' id j → claims_of id h ≤ jb_max_attempts j.
Proof.
  intros Hr Hs Hj. pose proof (runs_attempts _ _ _ _ _ Hr Hs Hj).
  destruct (coherent_job _ _ _ (runs_coherent _ _ _ Hr Hs) Hj) as (Hv & _).
  apply job_validate_attempts in Hv. lia.
Qed.

(** ** Where jobs come from *)

(** C17: A job exists only for a turn whose transcript, at the moment the job was
    committed, was stored, was the turn of the job (same conversation, mounted
    subject, turn and sequence) with the digest of the job, and permitted
    learning: no race with masking, erasure or deletion creates
    a job for content that was withdrawn. *)
Theorem jobs_come_from_permitted_turns s h s' id j :
  queue_op s h s' → coherent s → platform_doc s (job_address id) = None → stored_job s' id j →
  ∃ l value record, semantic_source j = Ok l
    ∧ platform_doc s (TRANSCRIPT_NAMESPACE, source_storage_key l) = Some value
    ∧ turn_record_from_value value = inr record
    ∧ tt_key record = ls_key l ∧ tt_subject record = gi_mounted_subject_id (jb_identity j)
    ∧ tt_turn_id record = gi_turn_id (jb_identity j) ∧ tt_sequence record = jb_transcript_sequence j
    ∧ permits_post_turn_learning record = true
    ∧ post_turn_governance_transcript_digest record = Ok (jb_transcript_digest j).
Proof.
  intros Hop Hcoh Hnone (v & Hv & Hdec). apply queue_op_change in Hop; [|done].
  destruct Hop as [s' H|t owner s' Hok Hcl Hw|t s' Hk Hw|key jobs restored x x' s' Hc _
    |hits reason now s' Hw].
  - rewrite (H (job_address id)) in Hv by done. congruence.
  - destruct (decide (id = jb_job_id (jt_before_job t))) as [->|Hne].
    + destruct (wr_job _ _ _ Hw) as (w & Hw' & _). congruence.
    + rewrite (written_job_doc s t s') in Hv by done. congruence.
  - destruct (decide (id = jb_job_id (jt_before_job t))) as [->|Hne].
    + destruct (wr_job _ _ _ Hw) as (w & Hw' & _). congruence.
    + rewrite (written_job_doc s t s') in Hv by done. congruence.
  - destruct (decide (id ∈ jb_job_id <$> jobs)) as [Hin|Hout];
      [|rewrite (created_job_doc _ _ _ _ _ _ _ _ Hc Hout) in Hv; congruence].
    apply list_elem_of_fmap in Hin as (j' & -> & Hj').
    destruct (cr_jobs _ _ _ _ _ _ _ Hc j' Hj') as (v' & Hv' & Hdec').
    assert (j' = j) as -> by congruence.
    destruct (cr_valid _ _ _ _ _ _ _ Hc j Hj') as (_ & _ & _ & l & w & Hl & Hw & Hval).
    exists l, w. unfold source_validate_record in Hval. inv_plan. split_bool.
    match goal with H : encoded _ _ = Ok ?r |- _ => apply encoded_ok in H; exists r end.
    pose proof Hl as Hl'. unfold semantic_source in Hl'. inv_plan. cbn in *.
    repeat match goal with H : String.eqb _ _ = true |- _ => apply String.eqb_eq in H end.
    subst. by split_and!.
  - destruct (decide (id ∈ jb_job_id <$> hits)) as [Hin|Hout];
      [|rewrite (wd_other _ _ _ _ _ Hw id Hout) in Hv; congruence].
    apply list_elem_of_fmap in Hin as (b & -> & Hb).
    destruct (wd_hit _ _ _ _ _ Hw b Hb) as ((w & Hw' & _) & _). congruence.
Qed.

(** ** Exclusion *)

(** A claim or an operation anyone may perform starts from the job it read. *)
Lemma claim_reads v id owner until authority now t :
  claim_plan v id owner until authority now = Ok t →
  read_job v id = Ok (Some (jt_before_job t))
  ∧ not_yet_eligible (jt_before_job t) now = false
  ∧ jt_after_job t
    = claimed_job (jt_before_job t) owner until authority (jb_state_revision (jt_before_job t) + 1)
        (jb_attempt_count (jt_before_job t) + 1) (jb_lease_epoch (jt_before_job t) + 1) now.
Proof.
  cbv beta zeta delta [claim_plan]. intros H. inv_plan. split_bool.
  repeat match goal with H : increment _ _ _ = Ok _ |- _ => apply increment_ok in H as [-> _] end.
  match goal with H : active_transition _ _ _ _ _ = Ok _ |- _ =>
    apply active_transition_ok in H as (Hb & Ha & _); [|done] end.
  match goal with H : require _ (read_job _ _) = Ok _ |- _ => apply require_ok in H as Hrd end.
  destruct (bool_decide _).
  - inv_plan. cbn. done.
  - injection H as <-. by rewrite Hb, Ha.
Qed.

(** A claim succeeds exactly on the job its worker read: the job is stored
    unchanged, is not leased to anyone at that time, is due, has attempts left
    and is not blocked, except for a missing binding, which the claim supplies;
    the stored result is the job leased to the worker, with the next epoch and
    one more attempt. *)
Theorem claim_takes_free_due_job v scope id owner until authority now s j' s' :
  claim_governance_job v scope id owner until authority now s = (Ok j', s') →
  ∃ j, read_job v id = Ok (Some j) ∧ stored_job s (jb_job_id j) j ∧ stored_job s' (jb_job_id j) j'
    ∧ lease_active j now = false ∧ status_is_terminal (jb_status j) = false
    ∧ (is_blocked (jb_status j) = true → unbound_adoption j = true)
    ∧ (∀ at_secs, jb_next_attempt_at j = Some at_secs → at_secs ≤ now)
    ∧ jb_attempt_count j < jb_max_attempts j
    ∧ j' = claimed_job j owner until authority (jb_state_revision j + 1) (jb_attempt_count j + 1)
             (jb_lease_epoch j + 1) now
    ∧ job_validate j' = Ok tt.
Proof.
  intros [[_ Hr]|(t & Hp & [= ->] & Hw)]%claim_cases; [done|].
  destruct (claim_plan_ok _ _ _ _ _ _ _ Hp) as (Hok & (_ & _ & _ & Hmax) & _ & _ & Hfree).
  destruct (claim_reads _ _ _ _ _ _ _ Hp) as (Hrd & Hel & Haft).
  exists (jt_before_job t). destruct (tk_job _ Hok) as [_ Hv Hact _ _ _].
  unfold not_yet_eligible in Hel. split_bool.
  split_and!; [done|apply (wr_job _ _ _ Hw)|apply (wr_job' _ _ _ Hw)|done|done| | |done|done|done].
  - intros Hb. by destruct (is_blocked _), (unbound_adoption _).
  - intros at_secs Hat. rewrite Hat in *. by split_bool.
Qed.

Lemma block_not_leased v id status reason authority now t :
  block_plan v id status reason authority now = Ok (inr t) → jb_status (jt_before_job t) ≠ Leased.
Proof.
  cbv beta zeta delta [block_plan]. intros H. inv_plan. destruct (_ && _) in H; [done|].
  inv_plan. split_bool.
  match goal with H : active_transition _ _ _ _ _ = Ok _ |- _ =>
    apply active_transition_ok in H as (Hb & _); [|done]; by rewrite Hb end.
Qed.

Lemma resume_not_leased v id now t :
  resume_plan v id now = Ok t → jb_status (jt_before_job t) ≠ Leased.
Proof.
  cbv beta zeta delta [resume_plan]. intros H. inv_plan.
  apply active_transition_ok in H as (Hb & _); [|done]. rewrite Hb. intros Hl.
  by match goal with H : is_blocked _ = true |- _ => rewrite Hl in H end.
Qed.

(** C39: While a job is leased and the lease has not expired, nobody else takes it:
    a claim at that time, a block and a resume leave it as it is, whatever their
    reads. *)
Theorem leases_exclude_others s id j now until :
  stored_job s id j → jb_status j = Leased → jb_lease_until j = Some until → now < until →
  (∀ v scope id' owner until' authority r s',
     claim_governance_job v scope id' owner until' authority now s = (r, s') → stored_job s' id j)
  ∧ (∀ v scope id' now' o r s', (∀ reason, o ≠ OpenCancel reason) →
     administer v scope id' now' o s = (r, s') → stored_job s' id j).
Proof.
  intros Hj Hst Hun Hlt.
  assert (∀ t s', written s t s' → jb_status (jt_before_job t) ≠ Leased
                  ∨ lease_active (jt_before_job t) now = false → stored_job s' id j) as Hother.
  { intros t s' Hw Hne. destruct (decide (id = jb_job_id (jt_before_job t))) as [->|];
      [|by rewrite (written_other_job s t s')]. exfalso.
    pose proof (stored_job_unique _ _ _ _ Hj (wr_job _ _ _ Hw)) as ->.
    destruct Hne as [Hne|Hne]; [done|]. unfold lease_active in Hne.
    rewrite bool_decide_eq_true_2, Hun in Hne by done. split_bool. cbn in Hne. split_bool. lia. }
  split.
  - intros v scope id' owner until' authority r s' H.
    apply claim_cases in H as [[Hs _]|(t & Hp & _ & Hw)]; [by rewrite (same_queue_job s s')|].
    apply claim_plan_ok in Hp as (_ & _ & _ & _ & Hfree). eauto.
  - intros v scope id' now' o r s' Ho H.
    assert (∀ plan name, (∀ t, plan = Ok (inr t) → keeps_ok t ∧ jb_status (jt_before_job t) ≠ Leased) →
      run_plan scope name now' plan s = (r, s') → stored_job s' id j) as Hrun.
    { intros plan name Hok [[Hs _]|(t & Hp & _ & Hw)]%run_plan_cases;
        [by rewrite (same_queue_job s s')|]. destruct (Hok t Hp) as [[Hk _] Hne]. eauto. }
    destruct o as [status reason authority| |reason]; cbn in H; [| |by destruct (Ho reason)].
    + refine (Hrun _ _ _ H). intros t Hp. split; [by eapply block_plan_ok|].
      by apply block_not_leased in Hp.
    + refine (Hrun _ _ _ H). intros t Hp%planned_inr. split; [by eapply resume_plan_ok|].
      by apply resume_not_leased in Hp.
Qed.

(** ** Retries *)

Lemma retry_delay_exact n : 0 < n → retry_delay n = N.min (5 * 2 ^ (n - 1)) 300.
Proof.
  intros Hn. unfold retry_delay, saturating_mul, GOVERNANCE_RETRY_BASE_SECS, GOVERNANCE_RETRY_MAX_SECS.
  rewrite N.shiftl_mul_pow2, N.mul_1_l.
  destruct (N.le_gt_cases (n - 1) 31) as [Hle|Hgt].
  - rewrite (N.min_l (n - 1)) by done.
    assert (2 ^ (n - 1) ≤ 2 ^ 31) by (apply N.pow_le_mono_r; lia).
    unfold usize_max, u64_max. lia.
  - rewrite (N.min_r (n - 1)) by lia.
    assert (2 ^ 31 ≤ 2 ^ (n - 1)) by (apply N.pow_le_mono_r; lia).
    change (2 ^ 31) with 2147483648 in *. unfold usize_max, u64_max. lia.
Qed.

Lemma retry_delay_bounds n : 0 < n → 5 ≤ retry_delay n ≤ 300.
Proof.
  intros Hn. rewrite retry_delay_exact by done.
  assert (1 ≤ 2 ^ (n - 1)) by (apply (N.pow_le_mono_r 2 0); lia). lia.
Qed.

Lemma retry_after v id owner epoch e now t :
  retry_plan v id owner epoch e now = Ok t →
  let j := jt_before_job t in let j' := jt_after_job t in
  if jb_max_attempts j <=? jb_attempt_count j
  then jb_status j' = DeadLetter ∧ jb_terminal_at j' = Some now ∧ jb_next_attempt_at j' = None
  else jb_status j' = RetryWaiting
       ∧ jb_next_attempt_at j' = Some (saturating_add now (retry_delay (jb_attempt_count j))).
Proof.
  cbv beta zeta delta [retry_plan]. intros H. inv_plan. split_bool. cbn zeta.
  destruct (_ <=? _) eqn:Hle in H.
  - apply terminal_transition_ok in H as (Hb & Ha & _); [|done]. rewrite Hb, Ha.
    cbn in Hle. by rewrite Hle.
  - apply active_transition_ok in H as (Hb & Ha & _); [|done]. rewrite Hb, Ha.
    cbn in Hle. by rewrite Hle.
Qed.

(** A retry is made only by the holder of the lease.  It ends the job when its
    attempts are used up; otherwise the next attempt is due after five seconds
    doubled with every attempt and capped at five minutes, and until then no
    claim of the job succeeds. *)
Theorem retries_back_off v scope id owner epoch e now s j' s' :
  retry_governance_job v scope id owner epoch e now s = (Ok j', s') →
  ∃ j, read_job v id = Ok (Some j) ∧ stored_job s (jb_job_id j) j
    ∧ stored_job s' (jb_job_id j) j' ∧ holds_lease j owner epoch now = true
    ∧ if jb_max_attempts j <=? jb_attempt_count j
      then jb_status j' = DeadLetter ∧ jb_terminal_at j' = Some now
      else 0 < jb_attempt_count j → now + 300 ≤ u64_max →
        let due := now + N.min (5 * 2 ^ (jb_attempt_count j - 1)) 300 in
        jb_status j' = RetryWaiting ∧ jb_next_attempt_at j' = Some due
        ∧ now + 5 ≤ due ≤ now + 300
        ∧ ∀ v' scope' id' owner' until authority now' r s'',
            now' < due → claim_governance_job v' scope' id' owner' until authority now' s' = (r, s'') →
            stored_job s'' (jb_job_id j) j'.
Proof.
  intros [[_ Hr]|(t & Hp%planned_inr & [= ->] & Hw)]%run_plan_cases.
  { by destruct (planned_inl _ _ (Hr j' eq_refl)). }
  pose proof (retry_after _ _ _ _ _ _ _ Hp) as Haft.
  destruct (retry_plan_ok _ _ _ _ _ _ _ Hp) as ([Hok _] & Hh & Hrd). specialize (Hw Hok).
  exists (jt_before_job t).
  split_and!; [done|apply (wr_job _ _ _ Hw)|apply (wr_job' _ _ _ Hw)|done|].
  cbn zeta in Haft. destruct (_ <=? _); [by destruct Haft as (? & ? & _)|].
  destruct Haft as [Hst Hnext]. intros Hn Hmax due.
  assert (saturating_add now (retry_delay (jb_attempt_count (jt_before_job t))) = due) as Hdue.
  { unfold saturating_add, due. rewrite retry_delay_exact by done.
    unfold usize_max. lia. }
  rewrite Hdue in Hnext. pose proof (retry_delay_bounds _ Hn) as Hb.
  rewrite retry_delay_exact in Hb by done. split_and!; [done..|unfold due; lia|unfold due; lia|].
  intros v' scope' id' owner' until authority now' r s'' Hlt Hc.
  apply claim_cases in Hc as [[Hs _]|(t' & Hp' & _ & Hw')].
  { rewrite (same_queue_job s' s'') by done. apply (wr_job' _ _ _ Hw). }
  destruct (decide (jb_job_id (jt_before_job t) = jb_job_id (jt_before_job t'))) as [Heq|Hne].
  - exfalso. pose proof (wr_job' _ _ _ Hw) as H1. rewrite Heq in H1.
    pose proof (stored_job_unique _ _ _ _ H1 (wr_job _ _ _ Hw')) as Heq'.
    apply claim_reads in Hp' as (_ & Hel & _). unfold not_yet_eligible in Hel. split_bool.
    rewrite <- Heq', Hnext in *. split_bool. lia.
  - rewrite (written_other_job s' t' s''); [apply (wr_job' _ _ _ Hw)|done|done].
Qed.

(** ** Cursors *)

Lemma change_cursors s h s' key x :
  change s h s' → coherent s → stored_index s key x →
  ∃ x', stored_index s' key x' ∧ ∀ c, cursor_of x c ≤ cursor_of x' c.
Proof.
  intros Hc Hs Hx.
  assert (∀ t, transition_ok t → written s t s' →
    ∃ x', stored_index s' key x' ∧ ∀ c, cursor_of x c ≤ cursor_of x' c) as Htr.
  { intros t Hok Hw. destruct (decide (key = jb_scope_index_key (jt_before_job t))) as [->|Hne].
    - pose proof (stored_index_unique _ _ _ _ Hx (wr_index _ _ _ Hw)) as ->.
      exists (jt_after_index t). split; [apply (wr_index' _ _ _ Hw)|]. intros c.
      rewrite (cursor_of_eq (jt_before_index t) (jt_after_index t)); [done|].
      apply (in_cursors _ _ _ (tk_index _ Hok)).
    - exists x. split; [|done]. by rewrite (written_other_index s t s'). }
  destruct Hc as [s' H|t owner s' Hok _ Hw|t s' [Hok _] Hw|k jobs restored y y' s' Hc Hcur
    |hits reason now s' Hw].
  - exists x. by rewrite (same_queue_index s s').
  - by eapply Htr.
  - by eapply Htr.
  - destruct (decide (key = k)) as [->|Hne].
    + destruct (cr_index _ _ _ _ _ _ _ Hc) as [Hy|(Hnone & _)];
        [|destruct Hx as (v & Hv & _); congruence].
      pose proof (stored_index_unique _ _ _ _ Hx Hy) as ->. exists y'.
      split; [apply (cr_index' _ _ _ _ _ _ _ Hc)|]. apply Hcur, index_validate_cursors.
      by destruct (coherent_index _ _ _ Hs Hy).
    + exists x. split; [|done]. unfold stored_index.
      by rewrite (created_index_doc _ _ _ _ _ _ _ _ Hc Hne).
  - destruct (wd_index _ _ _ _ _ Hw key) as [[Hsame _]|(y & y' & Hy & Hy' & _ & _ & Hcur & _)].
    + exists x. split; [|done]. unfold stored_index. by rewrite Hsame.
    + pose proof (stored_index_unique _ _ _ _ Hx Hy) as ->. exists y'. split; [done|].
      intros c. by rewrite (cursor_of_eq y y').
Qed.

(** The reconciliation cursor of a conversation never goes back. *)
Theorem cursors_advance s h s' key x :
  runs s h s' → coherent s → stored_index s key x →
  ∃ x', stored_index s' key x' ∧ ∀ c, cursor_of x c ≤ cursor_of x' c.
Proof.
  intros Hr Hs Hx. induction Hr as [|h s1 e s2 H IH Hop]; [by exists x|].
  destruct IH as (x1 & Hx1 & H1).
  pose proof (runs_coherent _ _ _ H Hs) as Hs1.
  destruct (change_cursors _ _ _ _ _ (queue_op_change _ _ _ Hs1 Hop) Hs1 Hx1) as (x2 & Hx2 & H2).
  exists x2. split; [done|]. intros c. etrans; [apply H1|apply H2].
Qed.

(** ** Withdrawal of transcripts *)

Lemma stored_read s id j : stored_job s id j → read_job (reads s) id = Ok (Some j).
Proof. intros (v & Hv & Hj). unfold read_job, reads. cbn. rewrite Hv. cbn. by rewrite Hj. Qed.

Lemma inactive_terminal status : status_is_active status = false → status_is_terminal status = true.
Proof. by destruct status. Qed.

(** Every active job of the turns in the scope is found. *)
Lemma withdrawal_complete s documents scope targets reason now parts id j x :
  coherent s → lists_indexes s documents →
  Forall2 (part_of (reads s) scope targets reason now) documents.*2 parts →
  stored_job s id j → status_is_active (jb_status j) = true → job_target j ∈ targets →
  stored_index s (jb_scope_index_key j) x → ix_memory_space_id x = scope_memory_space_id scope →
  ix_mounted_subject_id x = scope_subject_id scope → j ∈ concat (dp_hits <$> parts).
Proof.
  intros Hs Hd Hparts Hj Hact Ht Hx Hm Hsub.
  destruct (coherent_job _ _ _ Hs Hj) as (_ & Hid & y & Hy & Hr).
  pose proof (stored_index_unique _ _ _ _ Hy Hx) as ->. pose proof Hx as (v & Hv & _).
  destruct (part_total _ _ _ _ _ _ _ Hs Hd Hparts _ _ Hv) as (g & Hg & _ & Hst).
  pose proof (stored_index_unique _ _ _ _ Hx Hst) as ->.
  apply elem_of_parts. exists g. split; [done|].
  destruct (part_elem _ _ _ _ _ _ _ Hs Hd Hparts g Hg) as [_ Hdw].
  apply (dw_all _ _ _ _ _ _ _ _ _ Hdw (ref_from_job j)); [done..| | |done].
  - apply ref_active; [by destruct (coherent_index _ _ _ Hs Hx)|done..].
  - rewrite ref_job_id, Hid. by apply stored_read.
Qed.

(** C18: Masking a turn or deleting its raw transcript ends the learning from it: when
    the withdrawal has committed, every job of the turn has ended, the ones that
    were active as cancelled for that reason, whatever lease they were under, and
    they stay as they are in every later execution; the jobs of other turns are
    untouched. *)
Theorem withdrawal_ends_learning s documents scope records transition reason now ms ps before after
    b pre bpre op at_secs u s1 :
  coherent s → lists_indexes s documents → withdrawal_reason transition = Some reason →
  withdrawal_plan (reads s) documents.*2 scope records transition now = Ok (ms, ps) →
  leaves_queue before → leaves_queue after → batch_mutations b = before ++ ms ++ after →
  commit_governed_memory_transaction b pre bpre op at_secs s = (Ok u, s1) →
  ∀ id j, stored_job s id j →
    (job_target j ∉ record_target <$> records → stored_job s1 id j)
    ∧ (∀ x, job_target j ∈ record_target <$> records →
         stored_index s (jb_scope_index_key j) x →
         ix_memory_space_id x = scope_memory_space_id scope →
         ix_mounted_subject_id x = scope_subject_id scope →
         let j' := if status_is_active (jb_status j)
                   then ended_job j JobCancelled None (Some reason) (jb_state_revision j + 1) now
                   else j in
         status_is_terminal (jb_status j') = true
         ∧ ∀ h s2, runs s1 h s2 → stored_job s2 id j').
Proof.
  intros Hs Hd Hr Hp Hm Hm' Hb Hc id j Hj.
  destruct (withdrawal_plan_ok _ _ _ _ _ _ _ _ _ Hp Hr) as (parts & -> & Hparts).
  pose proof (λ a, withdrawal_documents _ _ _ _ _ _ _ _ _ _ _ a Hc Hm Hm' Hb) as Hdoc.
  pose proof (withdrawn_intro _ _ _ _ _ _ _ Hs Hd Hparts _ Hdoc) as Hw.
  pose proof (coherent_withdrawn _ _ _ _ _ Hw Hs) as Hs1.
  pose proof (withdrawn_stored _ _ _ _ _ _ _ Hw Hj) as Hcases. split.
  - intros Ht. destruct Hcases as [(Hin & _)|[_ H]]; [exfalso|done].
    apply elem_of_parts in Hin as (g & Hg & Hin). apply Ht.
    by apply (part_hit _ _ _ _ _ _ _ Hs Hd Hparts g j Hg Hin).
  - intros x Ht Hx Hms Hsub j'.
    assert (status_is_terminal (jb_status j') = true ∧ stored_job s1 id j') as [Hterm Hj'].
    { unfold j'. destruct (status_is_active (jb_status j)) eqn:Hact.
      - split; [done|]. destruct Hcases as [(_ & _ & H & _)|[Hout _]]; [done|exfalso].
        apply Hout. apply list_elem_of_fmap. exists j.
        split; [by destruct (coherent_job _ _ _ Hs Hj) as (_ & ? & _)|].
        exact (withdrawal_complete _ _ _ _ _ _ _ _ _ x Hs Hd Hparts Hj Hact Ht Hx Hms Hsub).
      - apply inactive_terminal in Hact. split; [done|].
        destruct Hcases as [(_ & _ & _ & Hn & _)|[_ H]]; [|done].
        pose proof (jn_active _ _ Hn). congruence. }
    split; [done|]. intros h s2 Hruns.
    destruct (runs_evolves _ _ _ _ _ Hruns Hs1 Hj') as (j2 & Hj2 & Hev).
    by rewrite (ev_terminal _ _ Hev Hterm) in Hj2.
Qed.

(** ** Completion *)

Lemma canonical_receipt_id_time rid tx plan image now decision method id x now2 :
  canonical_receipt_id (mkReceipt rid tx plan image now decision method) id = Ok x → now2 ≠ 0 →
  ∃ y, canonical_receipt_id (mkReceipt rid tx plan image now2 decision method) id = Ok y.
Proof.
  unfold canonical_receipt_id. cbn [rc_semantic_transaction_id rc_mutation_plan_digest
    rc_memory_post_image_digest rc_completed_at rc_decision_summary rc_method_application].
  intros H Hn. inv_plan. split_bool.
  repeat match goal with H : _ = false |- _ => rewrite H; clear H end.
  repeat match goal with H : is_sha256_digest _ = true |- _ => rewrite H; clear H end.
  apply N.eqb_neq in Hn. rewrite Hn. cbn -[decision_summary_validate method_application_validate encoded].
  repeat match goal with H : _ = Ok _ |- _ => rewrite H; clear H end. cbn. eauto.
Qed.

(** The same completion at another time has the same content. *)
Lemma receipt_new_time id tx plan image now decision method r now2 :
  receipt_new id tx plan image now decision method = Ok r → now2 ≠ 0 →
  ∃ r2, receipt_new id tx plan image now2 decision method = Ok r2 ∧ same_completion r r2 = true.
Proof.
  unfold receipt_new. intros H Hn. apply bind_ok in H as (rid & Hid & H). injection H as <-.
  destruct (canonical_receipt_id_time _ _ _ _ _ _ _ _ _ _ Hid Hn) as [y ->].
  eexists. split; [done|]. unfold same_completion. cbn.
  rewrite !String.eqb_refl. by rewrite !bool_decide_eq_true_2.
Qed.

(** What a completion that commits was planned from. *)
Lemma completion_plan_parts v scope id owner epoch decision memory pre now p :
  plan_governance_job_completion v scope id owner epoch decision memory pre now
  = Ok (PendingCompletion p) →
  ∃ j method conditions plan image tx, blank id = false ∧ blank owner = false ∧ epoch ≠ 0
    ∧ touches_governance memory pre = false ∧ read_job v id = Ok (Some j)
    ∧ derive_method_application v j memory pre = Ok (method, conditions)
    ∧ memory_plan_to_vec memory conditions = inr plan ∧ memory_mutations_to_vec memory = inr image
    ∧ governance_completion_transaction_id id epoch = Ok tx
    ∧ receipt_new id tx (governance_sha256 plan) (governance_sha256 image) now decision method
      = Ok (cp_expected_receipt p).
Proof.
  cbv beta zeta delta [plan_governance_job_completion]. intros H. inv_plan.
  match goal with d : (_ * _)%type |- _ => destruct d as [method conditions] end.
  inv_plan. destruct (bool_decide _) in H; inv_plan; [done|]. split_bool.
  repeat match goal with H : encoded _ _ = Ok _ |- _ => apply encoded_ok in H end.
  match goal with H : require _ _ = Ok ?b |- _ => apply require_ok in H; exists b, method, conditions end.
  eexists _, _, _. by split_and!.
Qed.

(** Planning a completion of a job that has succeeded never asks for a commit. *)
Lemma completed_replans v scope id owner epoch decision memory pre now j p :
  read_job v id = Ok (Some j) → jb_status j = Succeeded →
  plan_governance_job_completion v scope id owner epoch decision memory pre now
  ≠ Ok (PendingCompletion p).
Proof.
  intros Hj Hst Hp. destruct (completion_plan_ok _ _ _ _ _ _ _ _ _ _ Hp) as [t [(_ & Hh & Hrd) _ _ _ _ _]].
  assert (jt_before_job t = j) as Ht by congruence. rewrite Ht in Hh.
  unfold holds_lease in Hh. rewrite Hst in Hh. by split_bool.
Qed.

(** Planning a completion again once the job has succeeded with its receipt,
    when the methods it applies are derived as they were. *)
Lemma completion_replans v scope id owner epoch decision memory pre now p v2 scope2 now2 j0 j :
  plan_governance_job_completion v scope id owner epoch decision memory pre now
  = Ok (PendingCompletion p) →
  read_job v id = Ok (Some j0) →
  derive_method_application v2 j memory pre = derive_method_application v j0 memory pre →
  now2 ≠ 0 → read_job v2 id = Ok (Some j) → jb_status j = Succeeded →
  jb_receipt j = Some (cp_expected_receipt p) →
  ∃ tx, plan_governance_job_completion v2 scope2 id owner epoch decision memory pre now2
        = Ok (AlreadyCompleted j tx).
Proof.
  intros Hp Hj0 Hm Hn Hj Hst Hrc.
  destruct (completion_plan_parts _ _ _ _ _ _ _ _ _ _ Hp)
    as (j1 & method & conditions & plan & image & tx & H1 & H2 & H3 & H4 & Hj1 & Hd & H5 & H6 & H7 & H8).
  assert (j1 = j0) as -> by congruence. rewrite Hd in Hm.
  destruct (receipt_new_time _ _ _ _ _ _ _ _ _ H8 Hn) as (r2 & Hr2 & Hsame). exists tx.
  cbv beta zeta delta [plan_governance_job_completion]. apply N.eqb_neq in H3.
  rewrite (bind_eq _ _ tt) by (apply ensure_true; by rewrite H1, H2, H3). cbv beta.
  rewrite (bind_eq _ _ tt) by (apply ensure_true; by rewrite H4). cbv beta.
  rewrite (bind_eq _ _ j) by (unfold require; by rewrite Hj). cbv beta.
  rewrite (bind_eq _ _ (method, conditions)) by done. cbv beta iota.
  rewrite (bind_eq _ _ plan) by (by apply encoded_inr). cbv beta.
  rewrite (bind_eq _ _ image) by (by apply encoded_inr). cbv beta.
  rewrite (bind_eq _ _ tx) by done. cbv beta.
  rewrite (bind_eq _ _ r2) by done. cbv beta.
  rewrite bool_decide_eq_true_2 by done.
  unfold completed_job_if_same_receipt. rewrite Hrc, Hsame. done.
Qed.

Lemma completion_repeats v scope id owner epoch decision memory pre now p j j' v2 later2 scope2 bpre2
    now2 s2 :
  plan_governance_job_completion v scope id owner epoch decision memory pre now
  = Ok (PendingCompletion p) →
  read_job v id = Ok (Some j) → read_job v2 id = Ok (Some j') → jb_status j' = Succeeded →
  jb_receipt j' = Some (cp_expected_receipt p) →
  let again := complete_governance_job_with_memory_plan v2 later2 scope2 id owner epoch decision
                 memory pre bpre2 now2 s2 in
  again.2 = s2
  ∧ (now2 ≠ 0 →
     put_values AGENT_TOOL_EXPERIENCE_MATERIAL_NAMESPACE memory = []
     ∨ derive_method_application v2 j' memory pre = derive_method_application v j memory pre →
     again.1 = Ok j').
Proof.
  intros Hp Hrd Hread Hst Hrc again. unfold again, complete_governance_job_with_memory_plan. split.
  - destruct (plan_governance_job_completion v2 _ _ _ _ _ _ _ _) as [[done_job tx|p2]|e] eqn:Hp2;
      [done| |done].
    by destruct (completed_replans _ _ _ _ _ _ _ _ _ _ _ Hread Hst Hp2).
  - intros Hn Hm.
    assert (derive_method_application v2 j' memory pre = derive_method_application v j memory pre) as Hm'.
    { destruct Hm as [Hm|Hm]; [|done]. unfold derive_method_application. by rewrite Hm. }
    destruct (completion_replans _ _ _ _ _ _ _ _ _ _ v2 scope2 now2 _ j' Hp Hrd Hm' Hn Hread Hst Hrc)
      as [tx Hplan].
    by rewrite Hplan.
Qed.

(** C13: A completion is atomic and takes effect once.  When its commit succeeds
    in a coherent store, the job was leased to the worker, and the same batch
    that applies the memory plan stores the job as succeeded with the receipt of
    the plan.  In every state reached afterwards, repeating the request under
    the same lease, at any time, changes nothing, whatever it reads besides the
    job; and it returns that job when the methods the plan applies are derived
    from what it reads as they were from what the first request read, which
    they always are when the plan writes no method material. *)
Theorem completion_takes_effect_once v later scope id owner epoch decision memory pre bpre now p s u s1 :
  plan_governance_job_completion v scope id owner epoch decision memory pre now
  = Ok (PendingCompletion p) →
  commit_governed_memory_transaction (cp_batch p) (cp_preconditions p) bpre None now s = (Ok u, s1) →
  jb_job_id (cp_after_job p) = id → coherent s →
  let j' := cp_after_job p in
  complete_governance_job_with_memory_plan v later scope id owner epoch decision memory pre bpre now
    s = (Ok j', s1)
  ∧ (∃ job_value index_value, batch_mutations (cp_batch p)
       = memory ++ [put_json POST_TURN_GOVERNANCE_JOB_NAMESPACE id job_value;
                    put_json POST_TURN_GOVERNANCE_SCOPE_INDEX_NAMESPACE (jb_scope_index_key j')
                      index_value]
     ∧ job_from_value job_value = inr j')
  ∧ stored_job s1 id j' ∧ jb_status j' = Succeeded ∧ jb_receipt j' = Some (cp_expected_receipt p)
  ∧ ∃ j, stored_job s id j ∧ holds_lease j owner epoch now = true
    ∧ ∀ h s2, runs s1 h s2 → ∀ v2 later2 scope2 bpre2 now2,
        v2 (job_address id) = Ok (platform_doc s2 (job_address id)) →
        let again := complete_governance_job_with_memory_plan v2 later2 scope2 id owner epoch decision
                       memory pre bpre2 now2 s2 in
        again.2 = s2
        ∧ (now2 ≠ 0 →
           put_values AGENT_TOOL_EXPERIENCE_MATERIAL_NAMESPACE memory = []
           ∨ derive_method_application v2 j' memory pre = derive_method_application v j memory pre →
           again.1 = Ok j').
Proof.
  intros Hp Hc Hid Hs j'.
  assert (complete_governance_job_with_memory_plan v later scope id owner epoch decision memory pre
            bpre now s = (Ok j', s1)) as Hcomplete.
  { unfold complete_governance_job_with_memory_plan. by rewrite Hp, Hc. }
  destruct (completion_plan_ok _ _ _ _ _ _ _ _ _ _ Hp) as [t Ht].
  pose proof Ht as [([Hok _] & Hh & Hrd) Haft Hst Hrc Hmem
    (jv & xv & jv' & xv' & H1 & H2 & H3 & H4 & H5 & H6 & Hb)].
  pose proof (commit_written _ _ _ _ _ _ _ _ t _ _ _ _ memory [] Hc
    (jn_same _ _ (tk_job _ Hok)) H1 H2 H3 H4 H5 H6 Hb Hmem eq_refl) as Hw.
  pose proof (sa_job_id _ _ (jn_same _ _ (tk_job _ Hok))) as Hjid.
  assert (jb_job_id (jt_before_job t) = id) as Hbid by congruence.
  assert (stored_job s1 id j') as Hj1.
  { unfold j'. rewrite Haft, <- Hbid. apply (wr_job' _ _ _ Hw). }
  assert (jb_status j' = Succeeded ∧ jb_receipt j' = Some (cp_expected_receipt p)) as [Hst' Hrc'].
  { unfold j'. by rewrite Haft. }
  split_and!; try done.
  - exists jv', xv'. rewrite Hb. unfold j'. rewrite Haft, Hjid, Hbid. split; [done|].
    by apply job_round_trip.
  - exists (jt_before_job t). split_and!; [rewrite <- Hbid; apply (wr_job _ _ _ Hw)|done|].
    intros h s2 Hr v2 later2 scope2 bpre2 now2 Hv2 again.
    destruct (runs_evolves _ _ _ _ _ Hr (coherent_written _ _ _ Hok Hw Hs) Hj1) as (j2 & (w & Hw2 & Hdec) & Hev).
    assert (j2 = j') as -> by (apply (ev_terminal _ _ Hev); by rewrite Hst').
    assert (read_job v2 id = Ok (Some j')) as Hread.
    { unfold read_job. rewrite Hv2, Hw2. cbn. by rewrite Hdec. }
    by apply (completion_repeats v scope id owner epoch decision memory pre now p).
Qed.

End Queue.
