(* ===== verification/GovernanceLane.v ===== *)
(** * Post-turn governance: the learning engine

    Model of a cycle of [crates/sdk/src/learning.rs] and of the operations of
    [MemoryRuntime] it calls ([crates/sdk/src/runtime.rs]): which lane and which
    job of the mounted scope is taken, the authority an attempt runs under, and
    what becomes of the job when its execution succeeds or fails.  The work of
    the procedural lane and the execution of the model itself are other
    components: the procedural jobs that are due, the procedural cycle and the
    port that executes are arguments. *)

From S2P Require Import Prelude Errors RustStr RustOrd Governed StoreTypes StoreTransaction ReadSession LongTermVersion TurnTypes Transcript GovernanceTypes MutationOperation GovernanceJobs GovernanceFacts GovernanceProps.

Local Open Scope string_scope.
Local Open Scope list_scope.
Local Open Scope N_scope.

Definition MAX_LEARNING_CYCLE_JOBS : N := 32.
Definition MAX_LEARNING_LEASE_SECS : N := 15 * 60.
Definition MAX_ACTIVE_JOB_PAGE : N := 32.

(** [now_secs.checked_add(duration)] *)
Definition increment_by (now_secs duration : N) : result N :=
  if now_secs + duration <=? u64_max then Ok (now_secs + duration)
  else Err (Config "memory_learning_cycle" "lease deadline overflow").

(** ** Requests and outcomes *)

Record MemoryLearningCycleRequest := mkCycleRequest {
  cy_lease_owner : string;
  cy_lease_duration_secs : N;
}.

Definition cycle_request_validate (r : MemoryLearningCycleRequest) : result unit :=
  ensure (negb (not_exact (cy_lease_owner r) || (cy_lease_duration_secs r =? 0)
                || (MAX_LEARNING_LEASE_SECS <? cy_lease_duration_secs r)))
    (InvalidInput "memory_learning_cycle" "lease owner and bounded lease duration must be exact").

Inductive GovernanceExecutionPortFailure :=
| CapabilityUnavailable
| PortCredentialMissing (credential_ref_safe_id : string)
| PortCredentialLocked (credential_ref_safe_id : string)
| PortCredentialRejected (credential_ref_safe_id : string) (credential_generation : N)
| PortPermissionDenied (provider_permission_generation : N)
| PortOther (e : Error).

(** The outcomes of a cycle; [Report] is what an execution returns, and
    [Procedural] the outcomes of the procedural lane. *)
Inductive MemoryLearningCycleOutcome (Report Procedural : Type) :=
| CycleIdle (reason : string)
| CycleCompleted (report : Report)
| CycleRetrying (job : PostTurnGovernanceJobV4) (reason : string)
| CycleBlocked (job : PostTurnGovernanceJobV4) (reason : string)
| CycleCancelled (job : PostTurnGovernanceJobV4) (reason : string)
| CycleFailed (job : PostTurnGovernanceJobV4) (reason : string)
| CycleProcedural (outcome : Procedural).
Arguments CycleIdle {Report Procedural}.
Arguments CycleCompleted {Report Procedural}.
Arguments CycleRetrying {Report Procedural}.
Arguments CycleBlocked {Report Procedural}.
Arguments CycleCancelled {Report Procedural}.
Arguments CycleFailed {Report Procedural}.
Arguments CycleProcedural {Report Procedural}.

Inductive MemoryGovernanceBlockKind := BlockConfiguration | BlockCapability | BlockPolicy.

Definition block_kind_status (k : MemoryGovernanceBlockKind) : PostTurnGovernanceJobStatusV2 :=
  match k with
  | BlockConfiguration => BlockedConfiguration
  | BlockCapability => BlockedCapability
  | BlockPolicy => BlockedPolicy
  end.

(** ** Selection and classification *)

Definition is_due (j : PostTurnGovernanceJobV4) (now_secs : N) : bool :=
  let reached (o : option N) := match o with Some t => t <=? now_secs | None => true end in
  match jb_status j with
  | Pending | RetryWaiting => reached (jb_next_attempt_at j)
  | Leased => reached (jb_lease_until j)
  | BlockedConfiguration | BlockedCapability | BlockedPolicy => true
  | Succeeded | JobCancelled | DeadLetter => false
  end.

Definition job_priority (j : PostTurnGovernanceJobV4) (now_secs : N) : N :=
  let reached (o : option N) := match o with Some t => t <=? now_secs | None => true end in
  match jb_status j with
  | Pending => 0
  | Leased => if reached (jb_lease_until j) then 0 else 4
  | RetryWaiting => if reached (jb_next_attempt_at j) then 0 else 4
  | BlockedConfiguration => 1
  | BlockedPolicy => 2
  | BlockedCapability => 3
  | Succeeded | JobCancelled | DeadLetter => 5
  end.

Definition job_order (now_secs : N) (a b : PostTurnGovernanceJobV4) : bool :=
  let key j := (job_priority j now_secs,
                (default (jb_created_at j) (jb_next_attempt_at j), (jb_created_at j, jb_job_id j))) in
  leb (key a) (key b).

Definition classify_http_status (status_code : N) : PostTurnGovernanceErrorClassV2 :=
  if status_code =? 429 then RateLimited
  else if (status_code =? 408) || (status_code =? 504) then JobTimeout
  else ServiceUnavailable.

Definition model_output_stage (stage : string) : bool :=
  bool_decide (stage ∈ ["governance_model_llm"; "private_garden_governance_output";
                        "long_term_memory_extraction_output"]).

Definition classify_execution_error (e : Error) : PostTurnGovernanceErrorClassV2 :=
  match e with
  | Http _ status_code => classify_http_status status_code
  | Io _ _ | Other _ _ | Nvs _ _ | Storage _ _ | Esp _ _ => ServiceUnavailable
  | Conflict _ _ | NotFound _ _ => IdentityMismatch
  | Config stage _ => if model_output_stage stage then MalformedModelOutput else SchemaViolation
  | InvalidInput _ _ => SchemaViolation
  end.

(** ** The runtime *)

(** The mounted scope and what the runtime answers without changing the queue:
    whether an operation is visible, whether a legacy queue file is present, the
    digests of its binding and its privacy policy, its current binding. *)
Record LaneRuntime := mkLaneRuntime {
  rt_memory_space_id : string;
  rt_subject_id : string;
  rt_channel : string;
  rt_chat_id : string;
  rt_transaction_scope : StoreEventScope;
  rt_maintenance_visible : bool;
  rt_inspection_visible : bool;
  rt_legacy_queue : result unit;
  rt_runtime_binding_digest : string;
  rt_privacy_digest : string;
  rt_disclosure_allowed : bool;
  rt_current_binding : option PostTurnGovernanceExecutionBindingV1;
}.

(** The calls that read the clock. *)
Inductive clock_call :=
| ClockCycle | ClockActiveJobs | ClockResume | ClockBlock | ClockPrepare | ClockClaimable | ClockClaim
| ClockEgress | ClockEgressCancel | ClockBlockAuthority | ClockTransition.

Section Lane.
Context `{gcodec : GovernanceCodec} {ocodec : OperationCodec}.
Context {learning : LearningEvidence} {qcodec : QueueCodec}.
Context {S : Type} {platform : StorePlatform S}.

Abbreviation Job := PostTurnGovernanceJobV4.

(** How documents are read in a state, the transcripts of the mounted platform, and
    the clock. *)
Context (look : S → view).
Context (get_turn : S → ConversationKey → string → string → result (option TranscriptTurnRecord)).
Context (clock : clock_call → N) (rt : LaneRuntime).

(** Computations that change the store and may fail. *)
Definition action (A : Type) : Type := S → result A * S.

Definition act_ret {A} (a : A) : action A := λ s, (Ok a, s).
Definition act_fail {A} (e : Error) : action A := λ s, (Err e, s).
Definition act_lift {A} (r : result A) : action A := λ s, (r, s).
Definition act_read {A} (f : S → result A) : action A := λ s, (f s, s).
Definition act_bind {A B} (m : action A) (k : A → action B) : action B := λ s,
  match m s with (Ok a, s') => k a s' | (Err e, s') => (Err e, s') end.
(** [match m { Ok(a) => .., Err(e) => .. }] *)
Definition act_try {A B} (m : action A) (k : A → action B) (h : Error → action B) : action B := λ s,
  match m s with (Ok a, s') => k a s' | (Err e, s') => h e s' end.

Notation "x ⇐ m ; k" := (act_bind m (λ x, k))
  (at level 20, m at level 100, k at level 200, right associativity, only parsing).

Definition ensure_visible (operation : string) (visible : bool) : result unit :=
  ensure visible (Config "memory_runtime_operation"
                    (operation +:+ " is not visible for current profile")).

Definition validate_governance_job_runtime_scope (j : Job) : result unit :=
  let i := jb_identity j in
  ensure (String.eqb (gi_memory_space_id i) (rt_memory_space_id rt)
          && String.eqb (gi_mounted_subject_id i) (rt_subject_id rt)
          && String.eqb (gi_channel_id i) (rt_channel rt)
          && String.eqb (gi_chat_id i) (rt_chat_id rt))
    (Config "post_turn_governance_scope" "governance job identity differs from mounted runtime").

Definition job_scope (j : Job) : StoreEventScope :=
  scope_with_conversation (rt_transaction_scope rt) (gi_conversation_id (jb_identity j)).

(** The start of every operation on one job: it is visible, the job exists and
    belongs to the mounted scope. *)
Definition scoped_job (stage job_id : string) : action Job :=
  _ ⇐ act_lift (ensure_visible "maintain" (rt_maintenance_visible rt));
  before ⇐ act_read (λ s, require (missing_job stage) (read_job (look s) (trim job_id)));
  _ ⇐ act_lift (validate_governance_job_runtime_scope before);
  act_ret before.

Definition active_governance_jobs (limit : N) : action (list Job * bool) :=
  let stage := "post_turn_governance_active_jobs" in
  _ ⇐ act_lift (ensure_visible "maintain" (rt_maintenance_visible rt));
  _ ⇐ act_lift (ensure (negb ((limit =? 0) || (MAX_ACTIVE_JOB_PAGE <? limit)))
                  (InvalidInput stage "active governance job limit must be between 1 and 32"));
  identity ⇐ act_lift (identity_new (rt_memory_space_id rt) (rt_subject_id rt) (rt_channel rt)
                         (rt_chat_id rt) "runtime-scope-job-query" "runtime-scope-job-query");
  index ⇐ act_read (λ s, read_scope_index (look s) (identity_scope_id identity));
  match index with
  | None => act_ret ([], false)
  | Some x =>
      jobs ⇐ act_read (λ s,
        try_fold (λ jobs reference,
          job ← require (Config stage "runtime scope index references a missing governance job")
                  (read_job (look s) (rf_job_id reference));
          _ ← validate_governance_job_runtime_scope job;
          _ ← ensure ((rf_state_revision reference =? jb_state_revision job)
                      && bool_decide (rf_status reference = jb_status job))
                (Conflict stage "runtime scope index ref differs from governance job authority");
          Ok (jobs ++ [job])) [] (ix_active_jobs x));
      act_ret (take (N.to_nat limit) (sort_by (job_order (clock ClockActiveJobs)) jobs),
               limit <? len (ix_active_jobs x))
  end.

(** The job the semantic lane takes. *)
Definition due_semantic_job (now_secs : N) : action (option Job) :=
  report ⇐ active_governance_jobs MAX_LEARNING_CYCLE_JOBS;
  act_ret (List.find (λ j, is_due j now_secs) report.1).

(** *** Authority of an attempt *)

Definition load_turn (stage : string) (j : Job) : action TranscriptTurnRecord :=
  let i := jb_identity j in
  key ⇐ act_lift (conversation_key_new (gi_memory_space_id i) (gi_channel_id i)
                    (gi_conversation_id i));
  act_read (λ s, require (Config stage "canonical transcript authority is missing")
                   (get_turn s key (gi_mounted_subject_id i) (gi_turn_id i))).

(** A job whose turn was masked or erased is cancelled. *)
Definition ensure_governance_transcript_claimable (call : clock_call) (j : Job) : action unit :=
  let stage := "post_turn_governance_claim" in
  record ⇐ load_turn stage j;
  let masked := bool_decide (tt_lifecycle_state record = LcMasked)
                || bool_decide (tt_redaction_state record = RawMasked) in
  let deleted := bool_decide (tt_lifecycle_state record = LcRawDeleted)
                 || bool_decide (tt_redaction_state record = RawGone) in
  if masked || deleted then
    _ ⇐ (λ s, cancel_governance_job (look s) (job_scope j) (jb_job_id j)
                (if deleted then "transcript_raw_deleted" else "transcript_masked") (clock call) s);
    act_fail (Conflict stage "canonical transcript no longer permits governance")
  else
    let differs := Conflict stage "canonical transcript authority differs from the durable intent" in
    _ ⇐ act_lift (ensure (tt_sequence record =? jb_transcript_sequence j) differs);
    digest ⇐ act_lift (post_turn_governance_transcript_digest record);
    act_lift (ensure (String.eqb digest (jb_transcript_digest j)) differs).

Definition sha256_field_digest (fields : list bytes) : string :=
  governance_sha256 (foldl (λ h f, h ++ be_bytes (len f) ++ f) [] fields).

Definition attempt_error (message : string) : Error :=
  Conflict "post_turn_governance_attempt_authority" message.

Definition prepare_governance_attempt_authority (job_id binding_id : string) (binding_revision : N)
    (model_id : string) : action PostTurnGovernanceAttemptAuthorityV3 :=
  job ⇐ scoped_job "post_turn_governance_attempt_authority" job_id;
  _ ⇐ act_lift (ensure (String.eqb (jb_runtime_binding_digest job) (rt_runtime_binding_digest rt))
        (attempt_error "governance job runtime binding differs from mounted runtime"));
  _ ⇐ ensure_governance_transcript_claimable ClockPrepare job;
  _ ⇐ act_lift (ensure (rt_disclosure_allowed rt
                        && String.eqb (rt_privacy_digest rt)
                             (pa_exact_policy_digest (jb_privacy_authority job)))
        (attempt_error "current privacy authority differs from the pinned governance policy"));
  transcript ⇐ load_turn "post_turn_governance_run" job;
  _ ⇐ act_lift (ensure match binding_revision_of (jb_execution_binding job) with
                       | Some revision => binding_revision =? revision
                       | None => true
                       end
        (attempt_error "requested execution binding revision differs from durable job authority"));
  let authority := mkAttemptAuthority (trim binding_id) binding_revision (trim model_id)
    (jb_privacy_authority job) (N.max (tt_updated_at transcript) 1)
    (sha256_field_digest
       (str_bytes <$> [jb_job_id job; jb_transcript_digest job; trim binding_id;
                       pretty binding_revision; trim model_id;
                       pa_exact_policy_digest (jb_privacy_authority job);
                       pretty (tt_updated_at transcript)])) in
  _ ⇐ act_lift (attempt_authority_validate authority);
  _ ⇐ act_lift (ensure match jb_attempt_authority job with
                       | Some pinned => bool_decide (pinned = authority)
                       | None => true
                       end
        (attempt_error "current execution authority differs from the first claimed attempt"));
  act_ret authority.

Definition governance_binding_snapshot_for_job (j : Job)
    : action PostTurnGovernanceBindingSnapshotV1 :=
  let stage := "post_turn_governance_binding_snapshot" in
  binding ⇐ act_lift match jb_execution_binding j with
                     | Bound id revision => Ok (Bound id revision)
                     | Unbound => require (Config stage "current governance binding is unavailable")
                                    (Ok (rt_current_binding rt))
                     end;
  match binding with
  | Unbound => act_fail (Config stage "resolved governance binding remains unbound")
  | Bound id revision =>
      act_read (λ s, require (Config stage "durable immutable binding snapshot is missing")
                       (read_binding_snapshot (look s) id revision))
  end.
(** [ImmutableGovernanceExecutionBinding::from_snapshot] and [validate]. *)
Definition execution_binding_complete (b : PostTurnGovernanceBindingSnapshotV1) : result unit :=
  ensure (negb (not_exact (bs_binding_id b) || (bs_binding_revision b =? 0)
                || not_exact (bs_endpoint b) || not_exact (bs_model_id b)
                || match bs_credential_reference b with Some v => not_exact v | None => false end
                || (bs_request_timeout_ms b =? 0) || (bs_max_input_tokens b =? 0)
                || (bs_max_output_tokens b =? 0) || (bs_provider_permission_generation b =? 0)
                || negb (canonical_sha256 (bs_canonical_digest b))))
    (InvalidInput "memory_learning_binding" "immutable execution binding is incomplete").

(** *** Operations of the runtime on one job *)

Definition runtime_block (job_id : string) (kind : MemoryGovernanceBlockKind) (reason : string)
    (authority : option PostTurnGovernanceExecutionBlockAuthorityV1) : action Job :=
  before ⇐ scoped_job "post_turn_governance_block" job_id;
  λ s, block_governance_job (look s) (job_scope before) (jb_job_id before)
         (block_kind_status kind) reason authority (clock ClockBlock) s.

Definition runtime_resume (job_id : string) : action Job :=
  before ⇐ scoped_job "post_turn_governance_resume" job_id;
  λ s, resume_governance_job (look s) (job_scope before) (jb_job_id before) (clock ClockResume) s.

Definition runtime_claim (job_id lease_owner : string) (lease_until : N)
    (authority : PostTurnGovernanceAttemptAuthorityV3) : action Job :=
  _ ⇐ act_lift (ensure_visible "maintain" (rt_maintenance_visible rt));
  _ ⇐ act_lift (rt_legacy_queue rt);
  before ⇐ scoped_job "post_turn_governance_claim" job_id;
  _ ⇐ ensure_governance_transcript_claimable ClockClaimable before;
  λ s, claim_governance_job (look s) (job_scope before) (jb_job_id before) lease_owner lease_until
         authority (clock ClockClaim) s.

Definition runtime_block_claimed (job_id lease_owner : string) (lease_epoch : N)
    (kind : MemoryGovernanceBlockKind) (reason : string)
    (authority : option PostTurnGovernanceExecutionBlockAuthorityV1) : action Job :=
  before ⇐ scoped_job "post_turn_governance_block_claimed" job_id;
  λ s, block_claimed_governance_job (look s) (job_scope before) (jb_job_id before) lease_owner
         lease_epoch (block_kind_status kind) reason authority (clock ClockTransition) s.

Definition runtime_retry (job_id lease_owner : string) (lease_epoch : N)
    (error_class : PostTurnGovernanceErrorClassV2) : action Job :=
  before ⇐ scoped_job "post_turn_governance_retry" job_id;
  λ s, retry_governance_job (look s) (job_scope before) (jb_job_id before) lease_owner lease_epoch
         error_class (clock ClockTransition) s.

Definition runtime_fail (job_id lease_owner : string) (lease_epoch : N)
    (error_class : PostTurnGovernanceErrorClassV2) (reason : string) : action Job :=
  before ⇐ scoped_job "post_turn_governance_fail" job_id;
  λ s, dead_letter_governance_job (look s) (job_scope before) (jb_job_id before) lease_owner
         lease_epoch error_class reason (clock ClockTransition) s.

Definition governance_job_status (job_id : string) : action Job :=
  _ ⇐ act_lift (ensure_visible "inspect.governance_job" (rt_inspection_visible rt));
  job ⇐ act_read (λ s, require (missing_job "post_turn_governance_status")
                         (read_job (look s) (trim job_id)));
  _ ⇐ act_lift (validate_governance_job_runtime_scope job);
  act_ret job.

(** *** Egress *)

Definition disclosure_error (message : string) : Error :=
  Conflict "post_turn_governance_disclosure" message.

Definition ensure_governance_disclosure_authority (leased : Job) : action unit :=
  let stage := "post_turn_governance_disclosure" in
  current ⇐ act_read (λ s, require (missing_job stage) (read_job (look s) (jb_job_id leased)));
  _ ⇐ act_lift (ensure (bool_decide (jb_status current = Leased)
                        && bool_decide (jb_lease_owner current = jb_lease_owner leased)
                        && (jb_lease_epoch current =? jb_lease_epoch leased)
                        && String.eqb (jb_transcript_digest current) (jb_transcript_digest leased)
                        && match jb_lease_until current with
                           | Some lease_until => clock ClockEgress <? lease_until
                           | None => false
                           end) (disclosure_error "governance disclosure authority is stale"));
  authority ⇐ act_lift (require (Config stage "leased governance job is missing attempt authority")
                          (Ok (jb_attempt_authority current)));
  _ ⇐ act_lift (ensure (bool_decide (at_privacy_authority authority = jb_privacy_authority current)
                        && String.eqb (pa_exact_policy_digest (at_privacy_authority authority))
                             (rt_privacy_digest rt)
                        && rt_disclosure_allowed rt)
        (disclosure_error "attempt privacy authority differs from pinned governance policy"));
  ensure_governance_transcript_claimable ClockEgressCancel current.

Definition revalidate_governance_egress_authority (job_id lease_owner : string) (lease_epoch : N)
    : action unit :=
  job ⇐ act_read (λ s, require (missing_job "post_turn_governance_disclosure")
                         (read_job (look s) job_id));
  _ ⇐ act_lift (validate_governance_job_runtime_scope job);
  _ ⇐ act_lift (ensure (bool_decide (jb_lease_owner job = Some lease_owner)
                        && (jb_lease_epoch job =? lease_epoch))
        (disclosure_error "network disclosure lease is stale"));
  ensure_governance_disclosure_authority job.

(** ** What becomes of a claimed job *)

Context {Report Procedural ProceduralJob : Type}.
Abbreviation Outcome := (MemoryLearningCycleOutcome Report Procedural).

Definition transition_classified_failure (claimed : Job) (lease_owner : string)
    (error_class : PostTurnGovernanceErrorClassV2) : action Outcome :=
  if job_error_is_retryable error_class then
    job ⇐ runtime_retry (jb_job_id claimed) lease_owner (jb_lease_epoch claimed) error_class;
    act_ret (if bool_decide (jb_status job = DeadLetter)
             then CycleFailed job "governance_retry_attempts_exhausted"
             else CycleRetrying job (job_error_as_str error_class))
  else
    job ⇐ runtime_fail (jb_job_id claimed) lease_owner (jb_lease_epoch claimed) error_class
            (job_error_as_str error_class);
    act_ret (CycleFailed job (job_error_as_str error_class)).

Definition block_claimed_execution (claimed : Job) (lease_owner : string)
    (kind : MemoryGovernanceBlockKind) (reason : PostTurnGovernanceExecutionBlockReasonV1)
    (credential_ref_safe_id : option string)
    (credential_generation provider_permission_generation : option N) : action Outcome :=
  authority ⇐ act_lift (exact_binding_block (jb_execution_binding claimed) credential_ref_safe_id
                          reason credential_generation provider_permission_generation
                          (clock ClockBlockAuthority));
  blocked ⇐ runtime_block_claimed (jb_job_id claimed) lease_owner (jb_lease_epoch claimed) kind
              (block_reason_as_str reason) (Some authority);
  act_ret (CycleBlocked blocked (block_reason_as_str reason)).

(** Errors of the store that say another writer was first are not the job's. *)
Definition store_race (e : Error) : bool :=
  bool_decide (class e = Some ClassConflict)
  && (String.eqb (error_stage e) "memory_write_transaction_precondition_failed"
      || String.eqb (error_stage e) "subject_soul_store_expected_state").

Definition transition_execution_failure (claimed : Job) (lease_owner : string)
    (failure : GovernanceExecutionPortFailure) : action Outcome :=
  let block kind reason authority :=
    blocked ⇐ runtime_block_claimed (jb_job_id claimed) lease_owner (jb_lease_epoch claimed) kind
                reason authority;
    act_ret (CycleBlocked blocked reason) in
  act_try (revalidate_governance_egress_authority (jb_job_id claimed) lease_owner
             (jb_lease_epoch claimed))
    (λ _,
      match failure with
      | CapabilityUnavailable =>
          block BlockCapability "governance_execution_capability_unavailable" None
      | PortCredentialMissing id =>
          block_claimed_execution claimed lease_owner BlockConfiguration CredentialMissing (Some id)
            None None
      | PortCredentialLocked id =>
          block_claimed_execution claimed lease_owner BlockConfiguration CredentialLocked (Some id)
            None None
      | PortCredentialRejected id generation =>
          block_claimed_execution claimed lease_owner BlockConfiguration CredentialRejected (Some id)
            (Some generation) None
      | PortPermissionDenied generation =>
          block_claimed_execution claimed lease_owner BlockPolicy ProviderPermissionDenied None None
            (Some (N.max (default generation (jb_last_provider_permission_recovery_generation claimed))
                     generation))
      | PortOther e =>
          if store_race e then act_fail e
          else transition_classified_failure claimed lease_owner (classify_execution_error e)
      end)
    (λ _,
      current ⇐ governance_job_status (jb_job_id claimed);
      if bool_decide (jb_status current = JobCancelled)
      then act_ret (CycleCancelled current "governance_source_authority_revoked")
      else block BlockPolicy "governance_egress_authority_revoked" None).

(** The execution of a claimed job: the report of the run, if it ran, and what
    the port answers; the procedural jobs that are due, and the cycle of one. *)
Section Engine.
Context (execute : Job → PostTurnGovernanceBindingSnapshotV1
                   → S → (option Report * (unit + GovernanceExecutionPortFailure)) * S).
Context (due_procedural_feedback_jobs : N → S → result (list ProceduralJob)).
Context (run_procedural_cycle : ProceduralJob → MemoryLearningCycleRequest → N → action Outcome).

(** From the claim on. *)
Definition execute_attempt (job : Job) (binding : PostTurnGovernanceBindingSnapshotV1)
    (request : MemoryLearningCycleRequest) (now_secs : N)
    (authority : PostTurnGovernanceAttemptAuthorityV3) : action Outcome :=
  lease_until ⇐ act_lift (increment_by now_secs (cy_lease_duration_secs request));
  act_try (runtime_claim (jb_job_id job) (cy_lease_owner request) lease_until authority)
    (λ claimed,
      _ ⇐ act_lift (require (Config "memory_learning_envelope"
                               "claimed job is missing immutable attempt authority")
                      (Ok (jb_attempt_authority claimed)));
      λ s,
        match execute claimed binding s with
        | ((Some report, _), s') => (Ok (CycleCompleted report), s')
        | ((None, inl _), s') =>
            transition_classified_failure claimed (cy_lease_owner request) SchemaViolation s'
        | ((None, inr failure), s') =>
            transition_execution_failure claimed (cy_lease_owner request) failure s'
        end)
    (λ e, match e with
          | Conflict _ _ => act_ret (CycleIdle "governance_claim_lost")
          | _ => act_fail e
          end).

(** [run_due_cycle] once the semantic lane has a job. *)
Definition semantic_cycle (request : MemoryLearningCycleRequest) (now_secs : N) (job : Job)
    : action Outcome :=
  if bool_decide (jb_status job = BlockedPolicy)
  then act_ret (CycleBlocked job "governance_policy_requires_explicit_resume")
  else if bool_decide (jb_status job = BlockedConfiguration)
          && match jb_execution_block_authority job with
             | Some b => negb (bool_decide (ba_typed_block_reason b = BindingUnavailable))
             | None => false
             end
  then act_ret (CycleBlocked job "governance_configuration_requires_authorized_resume")
  else
    job ⇐ if bool_decide (jb_status job = BlockedCapability) then runtime_resume (jb_job_id job)
          else act_ret job;
    let block kind reason authority :=
      blocked ⇐ runtime_block (jb_job_id job) kind reason authority;
      act_ret (CycleBlocked blocked reason) in
    let unavailable := exact_binding_block (jb_execution_binding job) None BindingUnavailable None
                         None now_secs in
    act_try (governance_binding_snapshot_for_job job)
      (λ binding,
        _ ⇐ act_lift (execution_binding_complete binding);
        if match jb_execution_binding job with
           | Bound id revision => negb (String.eqb id (bs_binding_id binding))
                                  || negb (revision =? bs_binding_revision binding)
           | Unbound => false
           end
        then
          authority ⇐ act_lift unavailable;
          block BlockConfiguration "governance_execution_binding_revision_unavailable"
            (Some authority)
        else
          act_try (prepare_governance_attempt_authority (jb_job_id job) (bs_binding_id binding)
                     (bs_binding_revision binding) (bs_model_id binding))
            (execute_attempt job binding request now_secs)
            (λ _, block BlockPolicy "governance_disclosure_authority_unavailable" None))
      (λ _,
        if bool_decide (jb_status job = BlockedConfiguration)
        then act_ret (CycleBlocked job "governance_execution_binding_unavailable")
        else
          authority ⇐ act_lift unavailable;
          block BlockConfiguration "governance_execution_binding_unavailable" (Some authority)).

(** The work that is due in each lane. *)
Definition due_work (request : MemoryLearningCycleRequest)
    : action (option Job * option ProceduralJob) :=
  _ ⇐ act_lift (cycle_request_validate request);
  semantic ⇐ due_semantic_job (clock ClockCycle);
  procedural ⇐ act_read (due_procedural_feedback_jobs MAX_LEARNING_CYCLE_JOBS);
  act_ret (semantic, head procedural).

(** [run_due_cycle]: the lane that goes first alternates with the bit
    [next_lane], which changes once both lanes have answered what is due. *)
Definition run_due_cycle (request : MemoryLearningCycleRequest) (next_lane : N) (s : S)
    : (result Outcome * S) * N :=
  let now_secs := clock ClockCycle in
  match due_work request s with
  | (Err e, s1) => ((Err e, s1), next_lane)
  | (Ok (semantic_job, procedural_job), s1) =>
      let prefer_procedural := next_lane =? 0 in
      (match procedural_job, semantic_job with
       | Some job, Some semantic =>
           if prefer_procedural then run_procedural_cycle job request now_secs s1
           else semantic_cycle request now_secs semantic s1
       | Some job, None => run_procedural_cycle job request now_secs s1
       | None, Some semantic => semantic_cycle request now_secs semantic s1
       | None, None => (Ok (CycleIdle "no_due_learning_job"), s1)
       end, N.lxor next_lane 1)
  end.

End Engine.

(** ** Computations that only read, and operations of the queue *)

Definition reads_only {A} (m : action A) : Prop := ∀ s, (m s).2 = s.

Lemma reads_try {A B} (m : action A) (k : A → action B) (h : Error → action B) :
  reads_only m → (∀ a, reads_only (k a)) → (∀ e, reads_only (h e)) → reads_only (act_try m k h).
Proof.
  intros Hm Hk Hh s. unfold act_try. pose proof (Hm s) as E.
  destruct (m s) as [[a|e] s']; cbn in E; subst s'; [apply Hk|apply Hh].
Qed.

Lemma reads_bind {A B} (m : action A) (k : A → action B) :
  reads_only m → (∀ a, reads_only (k a)) → reads_only (act_bind m k).
Proof. intros Hm Hk. by apply (reads_try m k (λ e, act_fail e)). Qed.

Lemma reads_leaf {A} (f : S → result A) : reads_only (act_read f).
Proof. done. Qed.

Ltac reads :=
  repeat first
    [ done
    | apply reads_bind; [|intro]
    | match goal with |- reads_only (match ?o with _ => _ end) => destruct o end ].

(** A computation is safe when it is an execution of the queue. *)
Definition safe {A} (m : action A) : Prop := ∀ s r s', m s = (r, s') → ∃ h, runs s h s'.

Lemma safe_reads {A} (m : action A) : reads_only m → safe m.
Proof. intros H s r s' Hm. specialize (H s). rewrite Hm in H. cbn in H. subst. exists []. constructor. Qed.

Lemma safe_op {A} (m : action A) :
  (∀ s r s', m s = (r, s') → ∃ e, queue_op s e s') → safe m.
Proof.
  intros H s r s' Hm. destruct (H s r s' Hm) as [e He]. exists (e ++ []).
  by eapply runs_step; [constructor|].
Qed.

Lemma runs_trans s h s1 h' s2 : runs s h s1 → runs s1 h' s2 → runs s (h' ++ h) s2.
Proof.
  intros H1 H2. induction H2 as [|h' s2 e s3 H2 IH Hop]; [done|]. rewrite <- app_assoc.
  by eapply runs_step.
Qed.

Lemma safe_bind {A B} (m : action A) (k : A → action B) :
  safe m → (∀ a, safe (k a)) → safe (act_bind m k).
Proof.
  intros Hm Hk s r s' H. unfold act_bind in H. destruct (m s) as [[a|e] s1] eqn:E;
    apply Hm in E as [h1 H1]; [|injection H as _ <-; by exists h1].
  apply Hk in H as [h2 H2]. exists (h2 ++ h1). by eapply runs_trans.
Qed.

Lemma scoped_job_reads stage id : reads_only (scoped_job stage id).
Proof. unfold scoped_job. reads. Qed.

Lemma due_semantic_job_reads now : reads_only (due_semantic_job now).
Proof. unfold due_semantic_job, active_governance_jobs. cbv zeta. reads. Qed.

Lemma binding_snapshot_reads j : reads_only (governance_binding_snapshot_for_job j).
Proof. unfold governance_binding_snapshot_for_job. cbv zeta. reads. Qed.

Lemma safe_open scope id now o : safe (λ s, administer (look s) scope id now o s).
Proof. apply safe_op. intros s r s' H. eexists. by eapply op_open. Qed.

Lemma safe_resume id : safe (runtime_resume id).
Proof.
  apply safe_bind; [apply safe_reads, scoped_job_reads|]. intros j. apply (safe_open _ _ _ OpenResume).
Qed.

(** ** The authority an attempt runs under *)

(** What holds when the port is asked to execute a claimed job in state [s2]:
    the job was claimed in state [s1] by this cycle, and everything the attempt
    needs was true there. *)
Record authorised (request : MemoryLearningCycleRequest) (claimed : Job)
    (binding : PostTurnGovernanceBindingSnapshotV1) (s1 s2 : S) : Prop := {
  au_free : ∃ before, stored_job s1 (jb_job_id claimed) before
    ∧ lease_active before (clock ClockClaim) = false
    ∧ jb_attempt_count before < jb_max_attempts before
    ∧ jb_lease_epoch claimed = jb_lease_epoch before + 1;
  au_stored : stored_job s2 (jb_job_id claimed) claimed;
  au_lease : jb_status claimed = Leased ∧ jb_lease_owner claimed = Some (cy_lease_owner request)
    ∧ jb_lease_until claimed = Some (clock ClockCycle + cy_lease_duration_secs request);
  au_scope : gi_memory_space_id (jb_identity claimed) = rt_memory_space_id rt
    ∧ gi_mounted_subject_id (jb_identity claimed) = rt_subject_id rt
    ∧ gi_channel_id (jb_identity claimed) = rt_channel rt
    ∧ gi_chat_id (jb_identity claimed) = rt_chat_id rt;
  au_disclosure : rt_disclosure_allowed rt = true
    ∧ pa_exact_policy_digest (jb_privacy_authority claimed) = rt_privacy_digest rt
    ∧ jb_runtime_binding_digest claimed = rt_runtime_binding_digest rt;
  au_binding : (∃ id revision, read_binding_snapshot (look s1) id revision = Ok (Some binding))
    ∧ execution_binding_complete binding = Ok tt
    ∧ jb_execution_binding claimed = Bound (bs_binding_id binding) (bs_binding_revision binding);
  au_attempt : ∃ authority, jb_attempt_authority claimed = Some authority
    ∧ at_binding_id authority = bs_binding_id binding
    ∧ at_binding_revision authority = bs_binding_revision binding
    ∧ at_model_id authority = bs_model_id binding
    ∧ at_privacy_authority authority = jb_privacy_authority claimed;
  au_transcript : ∃ key record,
    conversation_key_new (gi_memory_space_id (jb_identity claimed))
      (gi_channel_id (jb_identity claimed)) (gi_conversation_id (jb_identity claimed)) = Ok key
    ∧ get_turn s1 key (gi_mounted_subject_id (jb_identity claimed)) (gi_turn_id (jb_identity claimed))
      = Ok (Some record)
    ∧ tt_lifecycle_state record ≠ LcMasked ∧ tt_lifecycle_state record ≠ LcRawDeleted
    ∧ tt_redaction_state record ≠ RawMasked ∧ tt_redaction_state record ≠ RawGone
    ∧ tt_sequence record = jb_transcript_sequence claimed
    ∧ post_turn_governance_transcript_digest record = Ok (jb_transcript_digest claimed);
}.

(** What a computation that succeeds went through. *)
Lemma act_bind_ok {A B} (m : action A) (k : A → action B) s b s' :
  act_bind m k s = (Ok b, s') → ∃ a s1, m s = (Ok a, s1) ∧ k a s1 = (Ok b, s').
Proof. unfold act_bind. destruct (m s) as [[a|e] s1]; [|done]. intros H. by exists a, s1. Qed.

Lemma act_lift_ok {A} (r : result A) s a s' : act_lift r s = (Ok a, s') → r = Ok a ∧ s' = s.
Proof. by intros [= -> ->]. Qed.

Lemma act_read_ok {A} (f : S → result A) s a s' : act_read f s = (Ok a, s') → f s = Ok a ∧ s' = s.
Proof. by intros [= -> ->]. Qed.

Ltac act_inv :=
  repeat match goal with
  | H : act_bind _ _ _ = (Ok _, _) |- _ => apply act_bind_ok in H as (? & ? & ? & H)
  | H : act_lift _ _ = (Ok _, _) |- _ => apply act_lift_ok in H as [? ->]
  | H : act_read _ _ = (Ok _, _) |- _ => apply act_read_ok in H as [? ->]
  | H : act_ret _ _ = (Ok _, _) |- _ => injection H as <- <-
  | H : act_fail _ _ = (Ok _, _) |- _ => discriminate H
  | u : unit |- _ => destruct u
  end.

Ltac split_checks :=
  repeat match goal with
  | H : ensure _ _ = Ok _ |- _ => apply ensure_ok in H
  | H : require _ _ = Ok _ |- _ => apply require_ok in H
  end; split_bool;
  repeat match goal with H : String.eqb _ _ = true |- _ => apply String.eqb_eq in H end.

Lemma scoped_job_ok stage id s j s' :
  scoped_job stage id s = (Ok j, s') →
  s' = s ∧ read_job (look s) (trim id) = Ok (Some j)
  ∧ gi_memory_space_id (jb_identity j) = rt_memory_space_id rt
  ∧ gi_mounted_subject_id (jb_identity j) = rt_subject_id rt
  ∧ gi_channel_id (jb_identity j) = rt_channel rt ∧ gi_chat_id (jb_identity j) = rt_chat_id rt.
Proof.
  unfold scoped_job. intros H. act_inv. unfold validate_governance_job_runtime_scope in *.
  split_checks. by split_and!.
Qed.

Lemma claimable_ok call j s s' :
  ensure_governance_transcript_claimable call j s = (Ok tt, s') →
  s' = s ∧ ∃ key record,
    conversation_key_new (gi_memory_space_id (jb_identity j)) (gi_channel_id (jb_identity j))
      (gi_conversation_id (jb_identity j)) = Ok key
    ∧ get_turn s key (gi_mounted_subject_id (jb_identity j)) (gi_turn_id (jb_identity j))
      = Ok (Some record)
    ∧ tt_lifecycle_state record ≠ LcMasked ∧ tt_lifecycle_state record ≠ LcRawDeleted
    ∧ tt_redaction_state record ≠ RawMasked ∧ tt_redaction_state record ≠ RawGone
    ∧ tt_sequence record = jb_transcript_sequence j
    ∧ post_turn_governance_transcript_digest record = Ok (jb_transcript_digest j).
Proof.
  unfold ensure_governance_transcript_claimable, load_turn. intros H. act_inv.
  destruct (_ || _) eqn:Em in H; act_inv. split; [done|].
  split_checks. eexists _, _. split_and!; try done. congruence.
Qed.

Lemma prepare_ok id binding_id revision model s a s' :
  prepare_governance_attempt_authority id binding_id revision model s = (Ok a, s') →
  s' = s ∧ ∃ j, read_job (look s) (trim id) = Ok (Some j)
    ∧ jb_runtime_binding_digest j = rt_runtime_binding_digest rt
    ∧ rt_disclosure_allowed rt = true
    ∧ pa_exact_policy_digest (jb_privacy_authority j) = rt_privacy_digest rt
    ∧ at_binding_id a = trim binding_id ∧ at_binding_revision a = revision
    ∧ at_model_id a = trim model ∧ at_privacy_authority a = jb_privacy_authority j.
Proof.
  cbv beta zeta delta [prepare_governance_attempt_authority]. unfold load_turn. intros H. act_inv.
  match goal with H : scoped_job _ _ _ = _ |- _ => apply scoped_job_ok in H as (-> & Hrd & _) end.
  match goal with H : ensure_governance_transcript_claimable _ _ _ = _ |- _ =>
    apply claimable_ok in H as (-> & _) end.
  split_checks. split; [done|]. eexists. by split_and!.
Qed.

Context {glaws : GovernanceCodecLaws} {plaws : StorePlatformLaws S}.
Context (reads_current : ∀ s a v, look s a = Ok v → v = platform_doc s a).

Lemma read_stored s id j : read_job (look s) id = Ok (Some j) → stored_job s id j.
Proof using reads_current.
  unfold read_job, decoded. intros H. inv_plan.
  match goal with H : look _ _ = Ok ?o |- _ => apply reads_current in H as -> end.
  destruct (platform_doc s _) as [v|] eqn:Hv; inv_plan; [|done].
  match goal with H : encoded _ _ = Ok _ |- _ => apply encoded_ok in H end. by exists v.
Qed.

Lemma read_keyed s id j : coherent s → read_job (look s) id = Ok (Some j) → jb_job_id j = id.
Proof using reads_current. intros Hs H%read_stored. by apply (coherent_job s id j Hs). Qed.

(** A claim by the cycle after its authority was prepared in the same state. *)
Lemma claim_authorised request binding job_id authority until s1 claimed s2 :
  coherent s1 → increment_by (clock ClockCycle) (cy_lease_duration_secs request) = Ok until →
  (∃ id revision, read_binding_snapshot (look s1) id revision = Ok (Some binding)) →
  execution_binding_complete binding = Ok tt →
  prepare_governance_attempt_authority job_id (bs_binding_id binding) (bs_binding_revision binding)
    (bs_model_id binding) s1 = (Ok authority, s1) →
  runtime_claim job_id (cy_lease_owner request) until authority s1 = (Ok claimed, s2) →
  authorised request claimed binding s1 s2.
Proof using reads_current plaws glaws.
  intros Hs Hu Hsnap Hcomplete Hprep Hclaim.
  apply prepare_ok in Hprep as (_ & j & Hrd & Hrun & Hallow & Hpriv & Hb & Hr & Hm & Hp).
  unfold runtime_claim in Hclaim. act_inv.
  match goal with H : scoped_job _ _ _ = (Ok ?x, _) |- _ =>
    apply scoped_job_ok in H as (-> & Hrd' & Hscope); assert (x = j) as -> by congruence end.
  match goal with H : ensure_governance_transcript_claimable _ _ _ = _ |- _ =>
    apply claimable_ok in H as (-> & Htr) end.
  pose proof (read_keyed s1 _ j Hs Hrd) as Hkey.
  destruct (claim_takes_free_due_job _ _ _ _ _ _ _ _ _ _ Hclaim)
    as (j2 & Hrd2 & Hst & Hst' & Hfree & _ & _ & _ & Hmax & -> & _).
  assert (j2 = j) as -> by congruence.
  unfold increment_by in Hu. destruct (_ <=? u64_max) in Hu; [|done]. injection Hu as <-.
  assert (trim (bs_binding_id binding) = bs_binding_id binding
          ∧ trim (bs_model_id binding) = bs_model_id binding) as [Eb Em].
  { unfold execution_binding_complete, not_exact in Hcomplete. apply ensure_ok in Hcomplete.
    split_bool. by split; apply String.eqb_eq. }
  rewrite Eb in Hb. rewrite Em in Hm.
  split; cbn; try done.
  - exists j. by split_and!.
  - split_and!; [done..|]. by rewrite Hb, Hr.
  - exists authority. by split_and!.
Qed.

(** ** What a failed attempt leaves *)




(** What a valid blocked job carries. *)
Lemma valid_block j :
  job_validate j = Ok tt →
  match jb_execution_block_authority j with
  | Some a => jb_status j = blocked_status (ba_typed_block_reason a)
              ∧ jb_blocking_reason j = Some (block_reason_as_str (ba_typed_block_reason a))
  | None => jb_status j ≠ BlockedConfiguration ∧ jb_status j ≠ BlockedPolicy
  end.
Proof.
  unfold job_validate. intros H. inv_plan.
  match goal with H : validate_block j = _ |- _ => unfold validate_block in H end.
  destruct (jb_execution_block_authority j); inv_plan; by split_bool.
Qed.











(** ** Ports *)

Lemma act_bind_ext {A B} (m : action A) (k k' : A → action B) s :
  (∀ a s', m s = (Ok a, s') → k a s' = k' a s') → act_bind m k s = act_bind m k' s.
Proof. unfold act_bind. destruct (m s) as [[a|e] s']; [|done]. intros H. by apply H. Qed.

Lemma act_try_ext {A B} (m : action A) (k k' : A → action B) (h : Error → action B) s :
  (∀ a s', m s = (Ok a, s') → k a s' = k' a s') → act_try m k h s = act_try m k' h s.
Proof. unfold act_try. destruct (m s) as [[a|e] s']; [|done]. intros H. by apply H. Qed.

Context (execute execute' : Job → PostTurnGovernanceBindingSnapshotV1
                            → S → (option Report * (unit + GovernanceExecutionPortFailure)) * S).

Definition agree_when_authorised (request : MemoryLearningCycleRequest) : Prop :=
  ∀ claimed binding s1 s2, authorised request claimed binding s1 s2 →
    execute claimed binding s2 = execute' claimed binding s2.

Lemma attempt_ext request job binding authority s :
  agree_when_authorised request → coherent s →
  (∃ id revision, read_binding_snapshot (look s) id revision = Ok (Some binding)) →
  execution_binding_complete binding = Ok tt →
  prepare_governance_attempt_authority (jb_job_id job) (bs_binding_id binding)
    (bs_binding_revision binding) (bs_model_id binding) s = (Ok authority, s) →
  execute_attempt execute job binding request (clock ClockCycle) authority s
  = execute_attempt execute' job binding request (clock ClockCycle) authority s.
Proof using reads_current plaws glaws.
  intros Hag Hs Hsnap Hcomplete Hprep. apply act_bind_ext. intros deadline s1 [Hu ->]%act_lift_ok.
  apply act_try_ext. intros claimed s2 Hclaim. apply act_bind_ext. intros pinned s3 [_ ->]%act_lift_ok.
  by rewrite (Hag claimed binding s s2) by (by eapply claim_authorised).
Qed.

Lemma semantic_ext request job s :
  agree_when_authorised request → coherent s →
  semantic_cycle execute request (clock ClockCycle) job s
  = semantic_cycle execute' request (clock ClockCycle) job s.
Proof using reads_current plaws glaws.
  intros Hag Hs. unfold semantic_cycle. destruct (bool_decide _); [done|]. destruct (_ && _); [done|].
  apply act_bind_ext. intros job1 s1 H1.
  assert (coherent s1) as Hs1.
  { destruct (bool_decide _) in H1; [|by injection H1 as <- <-].
    apply safe_resume in H1 as [h H1]. by eapply runs_coherent. }
  clear H1 Hs s. apply act_try_ext. intros binding s2 Hb.
  pose proof (binding_snapshot_reads job1 s1) as E. rewrite Hb in E. cbn in E. subst s2.
  assert (∃ id revision, read_binding_snapshot (look s1) id revision = Ok (Some binding)) as Hsnap.
  { unfold governance_binding_snapshot_for_job in Hb. cbv zeta in Hb. act_inv.
    destruct x as [|id revision]; [done|]. apply act_read_ok in Hb as [Hb%require_ok _].
    by exists id, revision. }
  apply act_bind_ext. intros [] s2 [Hcomplete ->]%act_lift_ok.
  destruct (match jb_execution_binding job1 with Unbound => _ | Bound _ _ => _ end); [done|].
  apply act_try_ext. intros authority s2 Hprep. pose proof Hprep as [-> _]%prepare_ok.
  by apply attempt_ext.
Qed.

(** C15: The engine asks the port to execute only what it is authorised to: in a
    coherent store whose reads are of its current documents, what a port would
    answer to any other call cannot make a difference to a cycle.  An
    authorised call is about a job of the mounted scope that this cycle has
    just claimed, when it was free and had attempts left, and that is stored
    leased to the owner of the request until the requested deadline; whose
    runtime binding and privacy policy are those of the runtime, with disclosure
    allowed; whose attempt authority and binding are those of the complete
    binding snapshot that was read; and whose turn, read in the state of the
    claim, is neither masked nor deleted and has the sequence and the digest of
    the job. *)
Theorem port_runs_under_authority due_procedural procedural_cycle request next_lane s :
  coherent s → agree_when_authorised request →
  run_due_cycle execute due_procedural procedural_cycle request next_lane s
  = run_due_cycle execute' due_procedural procedural_cycle request next_lane s.
Proof using reads_current plaws glaws.
  intros Hs Hag. unfold run_due_cycle. cbv zeta.
  assert (reads_only (due_work due_procedural request)) as Hr.
  { unfold due_work. apply reads_bind; [done|intros _]. apply reads_bind; [apply due_semantic_job_reads|].
    intros semantic. reads. }
  specialize (Hr s). destruct (due_work due_procedural request s) as [[[semantic procedural]|e] s1];
    cbn in Hr; subst s1; [|done].
  by destruct procedural, semantic; rewrite ?semantic_ext.
Qed.

End Lane.

(** ** Jobs the lane cannot move *)

Section Stuck.
Context `{gcodec : GovernanceCodec} {ocodec : OperationCodec}.
Context {learning : LearningEvidence} {qcodec : QueueCodec}.

Lemma block_plan_after v id status reason authority now t :
  block_plan v id status reason authority now = Ok (inr t) →
  jb_status (jt_after_job t) = status ∧ jb_blocking_reason (jt_after_job t) = Some reason
  ∧ jb_execution_block_authority (jt_after_job t) = authority.
Proof.
  cbv beta zeta delta [block_plan]. intros H. inv_plan. destruct (_ && _) in H; [done|]. inv_plan.
  match goal with H : active_transition _ _ _ _ _ = Ok _ |- _ =>
    apply active_transition_ok in H as (_ & Ha & _); [|done]; by rewrite Ha end.
Qed.

Lemma block_claimed_plan_after v id owner epoch status reason authority now t :
  block_claimed_plan v id owner epoch status reason authority now = Ok t →
  jb_status (jt_after_job t) = status ∧ jb_blocking_reason (jt_after_job t) = Some reason
  ∧ jb_execution_block_authority (jt_after_job t) = authority.
Proof.
  cbv beta zeta delta [block_claimed_plan]. intros H. inv_plan.
  apply active_transition_ok in H as (_ & Ha & _); [|done]; by rewrite Ha.
Qed.

(** A block is stored only with an authority whose reason is the reason given.
    The engine asks for three blocks that never are: with the policy kind and no
    authority, when disclosure is refused before the claim or after it, and with
    a reason that its binding authority does not have, when the binding revision
    differs. *)
Theorem mismatched_blocks_never_stored :
  (∀ v id reason now t, block_plan v id BlockedPolicy reason None now ≠ Ok (inr t))
  ∧ (∀ v id owner epoch reason now t,
       block_claimed_plan v id owner epoch BlockedPolicy reason None now ≠ Ok t)
  ∧ (∀ v id binding at_secs authority now t,
       exact_binding_block binding None BindingUnavailable None None at_secs = Ok authority →
       block_plan v id BlockedConfiguration "governance_execution_binding_revision_unavailable"
         (Some authority) now ≠ Ok (inr t)).
Proof.
  split_and!.
  - intros v id reason now t H. pose proof (block_plan_after _ _ _ _ _ _ _ H) as (Hs & _ & Ha).
    apply block_plan_ok in H as [[Hj _ _] _]. apply jn_valid, valid_block in Hj.
    rewrite Ha in Hj. naive_solver.
  - intros v id owner epoch reason now t H.
    pose proof (block_claimed_plan_after _ _ _ _ _ _ _ _ _ H) as (Hs & _ & Ha).
    apply block_claimed_plan_ok in H as [[[Hj _ _] _] _]. apply jn_valid, valid_block in Hj.
    rewrite Ha in Hj. naive_solver.
  - intros v id binding at_secs authority now t He H.
    pose proof (block_plan_after _ _ _ _ _ _ _ H) as (_ & Hr & Ha).
    apply block_plan_ok in H as [[Hj _ _] _]. apply jn_valid, valid_block in Hj.
    rewrite Ha in Hj. destruct Hj as [_ Hj]. rewrite Hr in Hj.
    unfold exact_binding_block in He. destruct binding; inv_plan; done.
Qed.

(** A job whose worker is lost on its last attempt stays leased for ever: once the
    lease has expired the engine takes it before every job that is not due yet,
    and no operation but a cancellation moves it. *)
Theorem exhausted_lease_is_stuck v id j now until :
  read_job v id = Ok (Some j) → jb_status j = Leased → jb_lease_until j = Some until → until ≤ now →
  jb_max_attempts j ≤ jb_attempt_count j →
  is_due j now = true ∧ job_priority j now = 0
  ∧ (∀ owner until' authority t, claim_plan v id owner until' authority now ≠ Ok t)
  ∧ (∀ owner epoch until' t, renew_plan v id owner epoch until' now ≠ Ok t)
  ∧ (∀ owner epoch e t, retry_plan v id owner epoch e now ≠ Ok t)
  ∧ (∀ owner epoch e reason t, fail_plan v id owner epoch e reason now ≠ Ok t)
  ∧ (∀ owner epoch status reason authority t,
       block_claimed_plan v id owner epoch status reason authority now ≠ Ok t)
  ∧ (∀ scope owner epoch decision memory pre p,
       plan_governance_job_completion v scope id owner epoch decision memory pre now
       ≠ Ok (PendingCompletion p)).
Proof.
  intros Hj Hs Hu Hle Hmax.
  assert (∀ owner epoch t, ¬ holder_ok v id owner epoch now t) as Hno.
  { intros owner epoch t (_ & Hh & Hrd). assert (j = jt_before_job t) as -> by congruence.
    apply holds_lease_true in Hh as (_ & _ & _ & u & Hu' & Hlt). assert (u = until) by congruence. lia. }
  split_and!.
  - unfold is_due. rewrite Hs, Hu. by apply N.leb_le.
  - unfold job_priority. rewrite Hs, Hu. by rewrite (proj2 (N.leb_le until now) Hle).
  - intros owner until' authority t H. destruct (claim_reads _ _ _ _ _ _ _ H) as (Hrd & _).
    apply claim_plan_ok in H as (_ & (_ & _ & _ & Hlt) & _).
    assert (j = jt_before_job t) as -> by congruence. lia.
  - intros owner epoch until' t H%renew_plan_ok. by eapply Hno.
  - intros owner epoch e t H%retry_plan_ok. by eapply Hno.
  - intros owner epoch e reason t H%fail_plan_ok. by eapply Hno.
  - intros owner epoch status reason authority t H%block_claimed_plan_ok. by eapply Hno.
  - intros scope owner epoch decision memory pre p [t H]%completion_plan_ok.
    eapply Hno, (ck_holder _ _ _ _ _ _ _ _ H).
Qed.

End Stuck.
