(* ===== verification/GovernanceSamples.v ===== *)
(** * Post-turn governance: concrete executions

    A store of documents in memory that meets the contract of [StorePlatform], an
    encoding that meets [GovernanceCodecLaws], and a job that is created, claimed,
    lost, claimed again, retried and completed; the properties of the queue and
    of mutation operations are applied to it. *)

From S2P Require Import Prelude Errors RustStr RustOrd Governed StoreTypes StoreTransaction ReadSession LongTermVersion LongTermSamples TurnTypes Transcript GovernanceTypes MutationOperation GovernanceJobs GovernanceFacts GovernanceProps GovernanceLane.

Local Open Scope string_scope.
Local Open Scope list_scope.
Local Open Scope N_scope.

Module GovernanceSamples.

(** ** Documents *)

#[local] Instance learning : LearningEvidence :=
  {| PostTurnLearningEvidence := unit; le_memory_space_id := λ _, ""; le_mounted_subject_id := λ _, "";
     le_conversation_id := λ _, ""; le_turn_id := λ _, ""; le_canonical_turn_digest := λ _, "";
     le_validate_contract := λ _, true |}.

Inductive document :=
| DocJob (j : PostTurnGovernanceJobV4)
| DocIndex (x : PostTurnGovernanceScopeIndexV4)
| DocSnapshot (b : PostTurnGovernanceBindingSnapshotV1)
| DocRevisions (x : PostTurnGovernanceBindingRevisionIndexV1)
| DocTurn (r : TranscriptTurnRecord)
| DocReceipt (r : MemoryMutationReceipt)
| DocAudit (a : MemoryMutationAuditRecord)
| DocMemory (text : string).

#[local] Instance receipt_dec : EqDecision PostTurnGovernanceReceiptV4.
Proof. solve_decision. Defined.
#[local] Instance protocol_dec : EqDecision PostTurnGovernanceProviderProtocolV1.
Proof. solve_decision. Defined.
#[local] Instance block_authority_dec : EqDecision PostTurnGovernanceExecutionBlockAuthorityV1.
Proof. solve_decision. Defined.
#[local] Instance job_dec : EqDecision PostTurnGovernanceJobV4.
Proof. solve_decision. Defined.
#[local] Instance snapshot_dec : EqDecision PostTurnGovernanceBindingSnapshotV1.
Proof. solve_decision. Defined.
#[local] Instance revision_dec : EqDecision PostTurnGovernanceBindingRevisionRefV1.
Proof. solve_decision. Defined.
#[local] Instance revisions_dec : EqDecision PostTurnGovernanceBindingRevisionIndexV1.
Proof. solve_decision. Defined.
#[local] Instance mutation_receipt_dec : EqDecision MemoryMutationReceipt.
Proof. solve_decision. Defined.
#[local] Instance mutation_audit_dec : EqDecision MemoryMutationAuditRecord.
Proof. solve_decision. Defined.
#[local] Instance document_dec : EqDecision document.
Proof. solve_decision. Defined.

#[local] Instance sample_store_codec : StoreCodec :=
  {| Value := document; json_to_vec := λ _, inr []; event_to_vec := λ e, inr (str_bytes (event_id e));
     sha256_digest := λ b, pretty (len b); default_hash := λ b, pretty (len b) |}.

Definition sample_hex (b : bytes) : string :=
  LongTermSamples.hex_digits 64 (LongTermSamples.checksum b).

Definition wrong {A} : string + A := inl "another kind of document".

#[local] Instance sample_codec : GovernanceCodec :=
  {| gov_sha256_hex := sample_hex;
     plane_reports_to_vec := λ l, inr (be_bytes (len l));
     method_application_to_vec := λ _, inr [];
     owner_binding_to_vec := λ _, inr [];
     job_to_value := λ j, inr (DocJob j);
     job_from_value := λ v, match v with DocJob j => inr j | _ => wrong end;
     index_to_value := λ x, inr (DocIndex x);
     index_from_value := λ v, match v with DocIndex x => inr x | _ => wrong end;
     snapshot_to_value := λ b, inr (DocSnapshot b);
     snapshot_from_value := λ v, match v with DocSnapshot b => inr b | _ => wrong end;
     revision_index_to_value := λ x, inr (DocRevisions x);
     revision_index_from_value := λ v, match v with DocRevisions x => inr x | _ => wrong end |}.

#[local] Instance sample_codec_laws : GovernanceCodecLaws.
Proof. split; intros ? ? [= <-]; done. Qed.

#[local] Instance sample_operation_codec : OperationCodec :=
  {| operation_sha256_hex := sample_hex;
     receipt_to_value := λ r, inr (DocReceipt r);
     receipt_from_value := λ v, match v with DocReceipt r => inr r | _ => wrong end;
     audit_to_value := λ a, inr (DocAudit a);
     audit_from_value := λ v, match v with DocAudit a => inr a | _ => wrong end;
     effect_plan_to_vec := λ tx _ _ _, inr (str_bytes tx) |}.

#[local] Instance sample_operation_laws : OperationCodecLaws.
Proof. split; intros ? ? [= <-]; done. Qed.

#[local] Instance sample_queue_codec : QueueCodec :=
  {| turn_record_to_value := λ r, inr (DocTurn r);
     turn_record_from_value := λ v, match v with DocTurn r => inr r | _ => wrong end;
     turn_record_to_vec := λ r, inr (str_bytes (tt_turn_id r));
     str_hash_hex := λ s, sample_hex (str_bytes s);
     memory_plan_to_vec := λ ms ps, inr (be_bytes (len ms) ++ be_bytes (len ps));
     memory_mutations_to_vec := λ ms, inr (be_bytes (len ms));
     completion_id_to_vec := λ id epoch, inr (str_bytes id ++ be_bytes epoch);
     derive_applied_methods := λ _ _ _ pre, Ok (MethodNone, pre) |}.

(** ** A store *)

Abbreviation store := (gmap address document).

Definition store_apply (s : store) (m : StoreMutation) : store :=
  match m with
  | DeclPutJson ns k v _ _ _ => <[(ns, k) := v]> s
  | DeclDeleteJson ns k _ _ _ => delete (ns, k) s
  | _ => s
  end.

Definition holds (s : store) (p : StoreJsonPrecondition) : bool :=
  bool_decide (s !! json_precondition_address p = expected p).

#[local] Instance sample_platform : StorePlatform store :=
  {| platform_doc := λ s a, s !! a;
     platform_refuses := λ _ _, None;
     platform_closures := λ b pre _ _ _, Ok (b, pre);
     platform_commit := λ b pre _ _ s,
       if forallb (holds s) pre then (Ok tt, foldl store_apply s (batch_mutations b))
       else (Err (Conflict "memory_write_transaction_precondition_failed" "document changed"), s) |}.

Lemma store_apply_lookup s m a : store_apply s m !! a = mutate a (s !! a) m.
Proof.
  destruct m as [ns k v ? ? ?|ns k ? ? ?| | |]; cbn [store_apply mutate]; try done.
  - destruct (decide _) as [->|Hne]; [by rewrite lookup_insert_eq|].
    by rewrite lookup_insert_ne by congruence.
  - destruct (decide _) as [->|Hne]; [by rewrite lookup_delete_eq|].
    by rewrite lookup_delete_ne by congruence.
Qed.

Lemma store_apply_all ms s a : foldl store_apply s ms !! a = mutated ms a (s !! a).
Proof.
  revert s. induction ms as [|m ms IH]; intros s; [done|].
  cbn [foldl]. by rewrite IH, store_apply_lookup.
Qed.

#[local] Instance sample_platform_laws : StorePlatformLaws store.
Proof.
  split; [by intros b pre op now s b' pre' [= <- <-]|].
  intros b pre bpre now s. cbn. destruct (forallb (holds s) pre) eqn:Hp; [|done].
  split; [|intros a _; apply store_apply_all].
  intros p Hin. rewrite forallb_forall in Hp. apply list_elem_of_In in Hin.
  specialize (Hp p Hin). unfold holds in Hp. by apply bool_decide_eq_true in Hp.
Qed.

(** ** A turn, a binding and a job *)

Definition identity : PostTurnGovernanceIdentityV2 :=
  mkGovIdentity "space" "subject" "channel" "chat" "conversation" "turn-1".
Definition turn_key : ConversationKey := mkConversationKey "space" "channel" "conversation".
Definition actor : ActorAttribution := actor_for_subject "subject".

Definition turn : TranscriptTurnRecord :=
  mkTurnRecord 0 turn_key "turn-1" "chat" "digest" 1 Delivered
    (mkTurnSource IngressUser "channel" None OpenAiChat None None None None None) "subject" actor
    [] [] [] [] None false [] LcActive RawAvailable 10 10.

Definition digest_of (text : string) : string := governance_sha256 (str_bytes text).
Definition policy : PostTurnGovernancePrivacyAuthorityV1 := mkPrivacyAuthority 1 (digest_of "policy").

(** [ok] of the results computed below. *)
Definition from_ok {A} (d : A) (r : result A) : A := match r with Ok a => a | Err _ => d end.

Definition blank_snapshot : PostTurnGovernanceBindingSnapshotV1 :=
  mkBindingSnapshot 0 "" 0 "" "" 0 OllamaNative "" "" None 0 0 0 0 "" 0.
Definition snapshot : PostTurnGovernanceBindingSnapshotV1 :=
  from_ok blank_snapshot
    (snapshot_new "owner" "config" 1 OllamaNative "http://localhost" "model" None 1000 100 100 1 5).
Definition binding : PostTurnGovernanceExecutionBindingV1 :=
  Bound (bs_binding_id snapshot) (bs_binding_revision snapshot).
Definition authority : PostTurnGovernanceAttemptAuthorityV3 :=
  mkAttemptAuthority (bs_binding_id snapshot) (bs_binding_revision snapshot) "model" policy 10
    (digest_of "disclosure").

Definition blank_job : PostTurnGovernanceJobV4 :=
  mkJob 0 "" "" "" identity 0 "" "" 0 Unbound policy [] 0 Pending 0 0 0 None None None 0 None None
    None None None None 0 0 None.
Definition job : PostTurnGovernanceJobV4 :=
  from_ok blank_job
    (job_pending identity 1 (from_ok "" (post_turn_governance_transcript_digest turn))
       (digest_of "runtime") binding policy [] 0 3 50).
Definition job_key : string := jb_job_id job.
Definition scope : StoreEventScope :=
  scope_with_subject (scope_with_memory_space (scope_new "agent" "subject" "channel" "chat") "space")
    "subject".

(** Before anything happens: the turn, and the binding that was ensured. *)
Definition start : store :=
  list_to_map
    [((TRANSCRIPT_NAMESPACE, transcript_turn_storage_key turn_key "subject" "turn-1"), DocTurn turn);
     ((POST_TURN_GOVERNANCE_BINDING_SNAPSHOT_NAMESPACE, snapshot_storage_key snapshot),
      DocSnapshot snapshot);
     ((POST_TURN_GOVERNANCE_BINDING_REVISION_INDEX_NAMESPACE, bs_binding_id snapshot),
      DocRevisions (mkRevisionIndex 1 (bs_binding_id snapshot) "owner" "config"
                      [revision_ref_from_snapshot snapshot] 1 5))].

(** Reads that are up to date. *)
Definition fresh (s : store) : view := λ a, Ok (s !! a).

(** The job is created, claimed by a worker that is lost, claimed by another after
    the lease has expired, and retried by it. *)
Definition creation := ensure_governance_intent (fresh start) (fresh start) scope job 50 [] start.
Definition created_state : store := creation.2.
Definition claim1 :=
  claim_governance_job (fresh created_state) scope job_key "worker-a" 160 authority 100 created_state.
Definition leased_state : store := claim1.2.
Definition claim2 :=
  claim_governance_job (fresh leased_state) scope job_key "worker-b" 260 authority 200 leased_state.
Definition reclaimed_state : store := claim2.2.
Definition retry :=
  retry_governance_job (fresh reclaimed_state) scope job_key "worker-b" 2 JobTimeout 210 reclaimed_state.
Definition retried_state : store := retry.2.

Lemma creation_ok : creation.1 = Ok IntentCreated.
Proof. vm_compute. reflexivity. Qed.
Lemma claim1_ok : is_ok claim1.1 = true.
Proof. vm_compute. reflexivity. Qed.
Lemma claim2_ok : is_ok claim2.1 = true.
Proof. vm_compute. reflexivity. Qed.
Lemma retry_ok : is_ok retry.1 = true.
Proof. vm_compute. reflexivity. Qed.

(** ** As an execution of the queue *)

Lemma no_queue_coherent (l : list (address * document)) :
  forallb (λ p, negb (is_governance_namespace p.1.1)) l = true → coherent (list_to_map l : store).
Proof.
  intros Hl. rewrite forallb_forall in Hl.
  assert (∀ a v, (list_to_map l : store) !! a = Some v → is_governance_namespace a.1 = false) as Hno.
  { intros a v H%elem_of_list_to_map_2. apply list_elem_of_In, Hl in H. by apply negb_true_iff. }
  split; intros k v H; apply Hno in H; done.
Qed.

Lemma start_coherent : coherent start.
Proof. apply no_queue_coherent. vm_compute. reflexivity. Qed.

Definition claimed_by (owner : string) (r : result PostTurnGovernanceJobV4) : list claim_event :=
  match r with Ok j => [mkClaimed (jb_job_id j) owner (jb_lease_epoch j)] | Err _ => [] end.

Definition history1 : list claim_event := claimed_by "worker-a" claim1.1 ++ [].
Definition history2 : list claim_event := claimed_by "worker-b" claim2.1 ++ history1.

Lemma intent_step s v later sc j now additional :
  queue_op s [] (ensure_governance_intent v later sc j now additional s).2.
Proof. eapply op_intent, surjective_pairing. Qed.

Lemma claim_step s h s1 v sc k owner until a now :
  runs s h s1 →
  runs s (claimed_by owner (claim_governance_job v sc k owner until a now s1).1 ++ h)
    (claim_governance_job v sc k owner until a now s1).2.
Proof. intros H. eapply runs_step; [exact H|]. eapply op_claim, surjective_pairing. Qed.

Lemma retry_step s h s1 v sc k owner epoch e now :
  runs s h s1 → runs s h (retry_governance_job v sc k owner epoch e now s1).2.
Proof.
  intros H. apply (runs_step s h s1 [] _ H).
  apply (op_holder s1 v sc k owner epoch now (HolderRetry e) _ _ (surjective_pairing _)).
Qed.

Lemma created_op : queue_op start [] created_state.
Proof. unfold created_state, creation. apply intent_step. Qed.

Lemma created_runs : runs start [] created_state.
Proof. apply (runs_step start [] start [] created_state (runs_refl start) created_op). Qed.

Lemma leased_runs : runs start history1 leased_state.
Proof. unfold history1, leased_state, claim1. apply claim_step. exact created_runs. Qed.

Lemma reclaimed_runs : runs start history2 reclaimed_state.
Proof. unfold history2, reclaimed_state, claim2. apply claim_step. exact leased_runs. Qed.

Lemma retried_runs : runs start history2 retried_state.
Proof. unfold retried_state, retry. apply retry_step. exact reclaimed_runs. Qed.

Lemma leased_coherent : coherent leased_state.
Proof. exact (runs_coherent _ _ _ leased_runs start_coherent). Qed.
Lemma reclaimed_coherent : coherent reclaimed_state.
Proof. exact (runs_coherent _ _ _ reclaimed_runs start_coherent). Qed.

(** The job in a state. *)
Definition job_in (s : store) : PostTurnGovernanceJobV4 :=
  match s !! (POST_TURN_GOVERNANCE_JOB_NAMESPACE, job_key) with Some (DocJob j) => j | _ => blank_job end.

Lemma stored_in s :
  match s !! (POST_TURN_GOVERNANCE_JOB_NAMESPACE, job_key) with Some (DocJob _) => true | _ => false end
  = true → stored_job s job_key (job_in s).
Proof.
  unfold stored_job, job_in. cbn [platform_doc sample_platform].
  destruct (s !! _) as [[]|]; try done. intros _. eexists. split; [done|]. done.
Qed.

Lemma claim2_result : claim2.1 = Ok (job_in reclaimed_state).
Proof. vm_compute. reflexivity. Qed.
Lemma retry_result : retry.1 = Ok (job_in retried_state).
Proof. vm_compute. reflexivity. Qed.

Lemma queue_stays_coherent_witness :
  job_validate (job_in retried_state) = Ok tt ∧ jb_status (job_in retried_state) = RetryWaiting.
Proof.
  split; [|vm_compute; reflexivity].
  apply (proj1 (queue_stays_coherent start history2 retried_state retried_runs start_coherent)
           job_key (job_in retried_state)).
  apply stored_in. vm_compute. reflexivity.
Defined.

Lemma leased_epoch : jb_lease_epoch (job_in leased_state) = 1.
Proof. vm_compute. reflexivity. Qed.
Lemma leased_identity : jb_identity (job_in leased_state) = identity.
Proof. vm_compute. reflexivity. Qed.

Lemma jobs_evolve_witness :
  ∃ j', stored_job reclaimed_state job_key j' ∧ jb_identity j' = identity ∧ 1 ≤ jb_lease_epoch j'.
Proof.
  destruct (jobs_evolve leased_state (claimed_by "worker-b" claim2.1 ++ []) reclaimed_state job_key
              (job_in leased_state)) as (j' & Hj & Hi & _ & _ & _ & He & _).
  { unfold reclaimed_state, claim2. apply claim_step, runs_refl. }
  { exact leased_coherent. }
  { apply stored_in. vm_compute. reflexivity. }
  exists j'. rewrite leased_epoch in He. rewrite leased_identity in Hi.
  split; [exact Hj|]. split; [exact Hi|exact He].
Defined.

Lemma history2_claims : history2 = [mkClaimed job_key "worker-b" 2; mkClaimed job_key "worker-a" 1].
Proof. vm_compute. reflexivity. Qed.

(** The first worker, come back after the second claim, tries to renew its lease. *)
Definition late_renewal :=
  perform (fresh reclaimed_state) scope job_key "worker-a" 1 150 (HolderRenew 300) reclaimed_state.

Lemma superseded_claims_are_fenced_witness : same_queue reclaimed_state late_renewal.2.
Proof.
  unfold late_renewal. destruct (perform _ _ _ _ _ _ _ _) as [r s''] eqn:E.
  refine (proj2 (superseded_claims_are_fenced start history2 reclaimed_state reclaimed_runs start_coherent)
            (mkClaimed job_key "worker-a" 1) (mkClaimed job_key "worker-b" 2) _ _ eq_refl _
            (fresh reclaimed_state) scope job_key 150 (HolderRenew 300) r s''
            (job_in reclaimed_state) _ _ E).
  - rewrite history2_claims. right. left.
  - rewrite history2_claims. left.
  - vm_compute. reflexivity.
  - vm_compute. reflexivity.
  - vm_compute. reflexivity.
Defined.

Lemma attempts_bounded_witness : claims_of job_key history2 ≤ 3 ∧ claims_of job_key history2 = 2.
Proof.
  split; [|vm_compute; reflexivity].
  apply (attempts_bounded start history2 retried_state job_key (job_in retried_state) retried_runs
           start_coherent).
  apply stored_in. vm_compute. reflexivity.
Defined.

Lemma jobs_come_from_permitted_turns_witness :
  ∃ record, permits_post_turn_learning record = true ∧ tt_turn_id record = "turn-1".
Proof.
  destruct (jobs_come_from_permitted_turns start [] created_state job_key (job_in created_state)
              created_op start_coherent) as (l & value & record & _ & _ & _ & _ & _ & Ht & _ & Hp & _).
  - vm_compute. reflexivity.
  - apply stored_in. vm_compute. reflexivity.
  - exists record. split; [exact Hp|]. rewrite Ht. vm_compute. reflexivity.
Defined.

Lemma claim_takes_free_due_job_witness : ∃ j, lease_active j 200 = false ∧ jb_attempt_count j < jb_max_attempts j.
Proof.
  pose proof claim2_result as Hr. unfold claim2 in Hr.
  destruct (claim_governance_job _ _ _ _ _ _ _ _) as [r s'] eqn:E. cbn [fst] in Hr. subst r.
  destruct (claim_takes_free_due_job _ _ _ _ _ _ _ _ _ _ E)
    as (j & _ & _ & _ & Hf & _ & _ & _ & Hm & _).
  exists j. split; [exact Hf|exact Hm].
Defined.

(** A third worker tries to claim the job while the first lease is active. *)
Definition early_claim :=
  claim_governance_job (fresh leased_state) scope job_key "worker-c" 260 authority 120 leased_state.

Lemma leases_exclude_others_witness : stored_job early_claim.2 job_key (job_in leased_state).
Proof.
  destruct (leases_exclude_others leased_state job_key (job_in leased_state) 120 160) as [H _].
  - apply stored_in. vm_compute. reflexivity.
  - vm_compute. reflexivity.
  - vm_compute. reflexivity.
  - vm_compute. reflexivity.
  - unfold early_claim. destruct (claim_governance_job _ _ _ _ _ _ _ _) as [r s'] eqn:E.
    exact (H _ _ _ _ _ _ _ _ E).
Defined.

Lemma reclaimed_read : read_job (fresh reclaimed_state) job_key = Ok (Some (job_in reclaimed_state)).
Proof. vm_compute. reflexivity. Qed.

Lemma some_inj {A} (a b : A) : Ok (Some a) = Ok (Some b) → a = b.
Proof. by intros [= ->]. Qed.

Lemma retry_left :
  (jb_max_attempts (job_in reclaimed_state) <=? jb_attempt_count (job_in reclaimed_state)) = false.
Proof. vm_compute. reflexivity. Qed.

Lemma retry_attempts : jb_attempt_count (job_in reclaimed_state) = 2.
Proof. vm_compute. reflexivity. Qed.

Lemma retries_back_off_witness : jb_next_attempt_at (job_in retried_state) = Some 220.
Proof.
  pose proof retry_result as Hr. unfold retry in Hr.
  destruct (retry_governance_job _ _ _ _ _ _ _ _) as [r s'] eqn:E. cbn [fst] in Hr. subst r.
  destruct (retries_back_off _ _ _ _ _ _ _ _ _ _ E) as (j & Hj & _ & _ & _ & Hif).
  rewrite reclaimed_read in Hj. apply some_inj in Hj. subst j.
  rewrite retry_left in Hif. destruct Hif as (_ & H & _); [by rewrite retry_attempts|done|].
  rewrite H, retry_attempts. reflexivity.
Defined.

(** ** A completion, repeated *)

Definition decision : PostTurnGovernanceDecisionSummaryV1 :=
  mkDecisionSummary 1 0 0 DecisionAccepted 1 (digest_of "planes").
Definition memory : list StoreMutation :=
  [DeclPutJson "memory" "m" (DocMemory "learned") MemoryWrite "memory" "m"].

Definition completion_plan : result GovernanceCompletionPlan :=
  plan_governance_job_completion (fresh reclaimed_state) scope job_key "worker-b" 2 decision memory []
    220.
Definition blank_batch : StoreMutationBatch :=
  {| batch_transaction_id := ""; batch_operation := ""; batch_scope := scope; batch_mutations := [] |}.
Definition pending_of (r : result GovernanceCompletionPlan) : GovernanceCompletionPending :=
  match r with
  | Ok (PendingCompletion p) => p
  | _ => mkPendingCompletion (mkReceipt "" "" "" "" 0 decision MethodNone) blank_job blank_batch []
  end.
Definition is_pending (r : result GovernanceCompletionPlan) : bool :=
  match r with Ok (PendingCompletion _) => true | _ => false end.
Definition pending : GovernanceCompletionPending := pending_of completion_plan.
Definition completion_commit : result unit * store :=
  commit_governed_memory_transaction (cp_batch pending) (cp_preconditions pending) [] None 220
    reclaimed_state.

Lemma is_pending_of r : is_pending r = true → r = Ok (PendingCompletion (pending_of r)).
Proof. by destruct r as [[]|]. Qed.

Lemma completion_pending : is_pending completion_plan = true.
Proof. vm_compute. reflexivity. Qed.
Lemma completion_committed : completion_commit.1 = Ok tt.
Proof. vm_compute. reflexivity. Qed.
Lemma pending_key : jb_job_id (cp_after_job pending) = job_key.
Proof. vm_compute. reflexivity. Qed.

Definition learned (v : option document) : bool :=
  match v with Some (DocMemory t) => String.eqb t "learned" | _ => false end.

Lemma completed_memory : learned (completion_commit.2 !! ("memory", "m")) = true.
Proof. vm_compute. reflexivity. Qed.

Lemma completion_planned : ∃ p s1,
  plan_governance_job_completion (fresh reclaimed_state) scope job_key "worker-b" 2 decision memory []
    220 = Ok (PendingCompletion p)
  ∧ commit_governed_memory_transaction (cp_batch p) (cp_preconditions p) [] None 220 reclaimed_state
    = (Ok tt, s1)
  ∧ jb_job_id (cp_after_job p) = job_key ∧ learned (s1 !! ("memory", "m")) = true.
Proof.
  exists pending. pose proof (is_pending_of _ completion_pending) as Hp.
  pose proof completion_committed as Hc. pose proof completed_memory as Hm.
  pose proof pending_key as Hk.
  change (pending_of completion_plan) with pending in Hp. unfold completion_plan in Hp.
  unfold completion_commit in *. generalize dependent pending. intros p Hp Hc Hm Hk.
  destruct (commit_governed_memory_transaction _ _ _ _ _ _) as [r s1]. exists s1.
  cbn [fst snd] in *. subst r. exact (conj Hp (conj eq_refl (conj Hk Hm))).
Qed.

Lemma completion_takes_effect_once_witness : ∃ j' s1,
  learned (s1 !! ("memory", "m")) = true ∧ jb_status j' = Succeeded
  ∧ complete_governance_job_with_memory_plan (fresh s1) (fresh s1) scope job_key "worker-b" 2 decision
      memory [] [] 900 s1 = (Ok j', s1).
Proof.
  destruct completion_planned as (p & s1 & Hp & Hc & Hk & Hm). exists (cp_after_job p), s1.
  destruct (completion_takes_effect_once _ (fresh reclaimed_state) _ _ _ _ _ _ _ _ _ p _ tt s1 Hp Hc Hk
              reclaimed_coherent) as (_ & _ & _ & Hs & _ & j & _ & _ & H).
  split; [exact Hm|]. split; [exact Hs|].
  destruct (H [] s1 (runs_refl s1) (fresh s1) (fresh s1) scope [] 900 eq_refl) as [H1 H2].
  specialize (H2 ltac:(discriminate) (or_introl eq_refl)).
  destruct (complete_governance_job_with_memory_plan _ _ _ _ _ _ _ _ _ _ _ _) as [r s2].
  cbn [fst snd] in *. subst r s2. reflexivity.
Defined.

(** ** A turn that is masked while its job is leased *)

Definition indexes_of (s : store) : list (string * document) :=
  omap (λ p, if String.eqb p.1.1 POST_TURN_GOVERNANCE_SCOPE_INDEX_NAMESPACE
             then Some (p.1.2, p.2) else None) (map_to_list s).

Lemma elem_of_indexes s key v :
  (key, v) ∈ indexes_of s ↔ s !! (POST_TURN_GOVERNANCE_SCOPE_INDEX_NAMESPACE, key) = Some v.
Proof.
  unfold indexes_of. rewrite list_elem_of_omap. split.
  - intros ([[ns k] u] & Hin & Heq). cbn in Heq.
    destruct (String.eqb_spec ns POST_TURN_GOVERNANCE_SCOPE_INDEX_NAMESPACE) as [->|]; [|done].
    injection Heq as -> ->. by apply elem_of_map_to_list.
  - intros Hs. exists ((POST_TURN_GOVERNANCE_SCOPE_INDEX_NAMESPACE, key), v).
    split; [by apply elem_of_map_to_list|done].
Qed.

Lemma indexes_listed (s : store) : lists_indexes s (indexes_of s).
Proof.
  split; [|intros key v; apply elem_of_indexes]. unfold indexes_of.
  pose proof (NoDup_fst_map_to_list s) as Hnd. induction (map_to_list s) as [|[[ns k] u] l IH];
    [constructor|]. cbn in Hnd. apply NoDup_cons in Hnd as [Hn Hnd]. cbn.
  destruct (String.eqb_spec ns POST_TURN_GOVERNANCE_SCOPE_INDEX_NAMESPACE) as [->|]; [|by apply IH].
  cbn. constructor; [|by apply IH]. intros ([k' u'] & -> & Hin)%list_elem_of_fmap.
  apply list_elem_of_omap in Hin as ([[ns2 k2] u2] & Hin & Heq). cbn in Heq.
  destruct (String.eqb_spec ns2 POST_TURN_GOVERNANCE_SCOPE_INDEX_NAMESPACE) as [->|]; [|done].
  injection Heq as -> ->. apply Hn. apply list_elem_of_fmap. by exists (POST_TURN_GOVERNANCE_SCOPE_INDEX_NAMESPACE, k', u').
Qed.

Definition masked_turn : StoreMutation :=
  DeclPutJson TRANSCRIPT_NAMESPACE (transcript_turn_storage_key turn_key "subject" "turn-1")
    (DocTurn (apply_lifecycle_transition Mask 120 turn)) MemoryWrite "conversation_transcript" "turn-1".
Definition masking : result (list StoreMutation * list StoreJsonPrecondition) :=
  withdrawal_plan (reads leased_state) (indexes_of leased_state).*2 scope [turn] Mask 120.
Definition masking_batch (ms : list StoreMutation) : StoreMutationBatch :=
  {| batch_transaction_id := "mask"; batch_operation := "conversation.transcript.lifecycle";
     batch_scope := scope; batch_mutations := [masked_turn] ++ ms ++ [] |}.
Definition masked_commit : result unit * store :=
  let plan := from_ok ([], []) masking in
  commit_governed_memory_transaction (masking_batch plan.1) plan.2 [] None 120 leased_state.

Lemma masking_ok : is_ok masking = true.
Proof. vm_compute. reflexivity. Qed.
Lemma masked_ok : masked_commit.1 = Ok tt.
Proof. vm_compute. reflexivity. Qed.

(** The worker that holds the lease tries to complete the job of the masked turn. *)
Definition late_completion (s : store) :=
  perform (fresh s) scope job_key "worker-a" 1 130
    (HolderComplete (fresh s) decision memory [] []) s.

Lemma masked_planned : ∃ ms ps s1,
  withdrawal_plan (reads leased_state) (indexes_of leased_state).*2 scope [turn] Mask 120 = Ok (ms, ps)
  ∧ commit_governed_memory_transaction (masking_batch ms) ps [] None 120 leased_state = (Ok tt, s1).
Proof.
  pose proof masking_ok as Hp. pose proof masked_ok as Hc. unfold masked_commit, masking in *.
  destruct (withdrawal_plan _ _ _ _ _ _) as [[ms ps]|]; [|discriminate Hp].
  exists ms, ps. cbn [from_ok fst snd] in Hc.
  destruct (commit_governed_memory_transaction _ _ _ _ _ _) as [r s1]. exists s1.
  cbn [fst] in Hc. subst r. exact (conj eq_refl eq_refl).
Qed.

Definition blank_index : PostTurnGovernanceScopeIndexV4 := index_empty identity 0.
Definition index_in (s : store) : PostTurnGovernanceScopeIndexV4 :=
  match s !! (POST_TURN_GOVERNANCE_SCOPE_INDEX_NAMESPACE, jb_scope_index_key (job_in s)) with
  | Some (DocIndex x) => x
  | _ => blank_index
  end.

Lemma index_stored_in s :
  match s !! (POST_TURN_GOVERNANCE_SCOPE_INDEX_NAMESPACE, jb_scope_index_key (job_in s)) with
  | Some (DocIndex _) => true
  | _ => false
  end = true → stored_index s (jb_scope_index_key (job_in s)) (index_in s).
Proof.
  unfold stored_index, index_in. cbn [platform_doc sample_platform].
  destruct (s !! _) as [[]|]; try done. intros _. eexists. split; [done|]. done.
Qed.

Lemma leased_active : status_is_active (jb_status (job_in leased_state)) = true.
Proof. vm_compute. reflexivity. Qed.
Lemma leased_target : job_target (job_in leased_state) = record_target turn.
Proof. vm_compute. reflexivity. Qed.

Lemma late_step s : runs s [] (late_completion s).2.
Proof.
  unfold late_completion. apply (runs_step s [] s [] _ (runs_refl s)).
  eapply op_holder, surjective_pairing.
Qed.

Lemma withdrawal_ends_learning_witness : ∃ s1,
  stored_job (late_completion s1).2 job_key
    (ended_job (job_in leased_state) JobCancelled None (Some "transcript_masked")
       (jb_state_revision (job_in leased_state) + 1) 120).
Proof.
  destruct masked_planned as (ms & ps & s1 & Hp & Hc). exists s1.
  destruct (withdrawal_ends_learning leased_state _ scope [turn] Mask
              "transcript_masked" 120 ms ps [masked_turn] [] (masking_batch ms) ps [] None 120 tt s1
              leased_coherent (indexes_listed leased_state) eq_refl Hp eq_refl eq_refl eq_refl Hc
              job_key (job_in leased_state)) as [_ H].
  - apply stored_in. vm_compute. reflexivity.
  - destruct (H (index_in leased_state)) as [_ Hruns].
    + rewrite leased_target. left.
    + apply index_stored_in. vm_compute. reflexivity.
    + vm_compute. reflexivity.
    + vm_compute. reflexivity.
    + pose proof (Hruns [] _ (late_step s1)) as Hj. rewrite leased_active in Hj. exact Hj.
Defined.

(** ** An operation, submitted twice *)

Definition operation_identity : MemoryMutationOperationIdentity :=
  from_ok (mkOperationIdentity "" "" "" "" KindWrite)
    (operation_identity_new "op-1" "space" "subject" "actor" KindWrite).
Definition intent : string := digest_of "intent".
Definition operation : StoreMutationOperationPlan :=
  from_ok (mkOperationPlan operation_identity "" EffectNoop 0 "" 0 "")
    (operation_plan_new operation_identity intent EffectChanged 1 "actor" 30).
Definition operation_batch : StoreMutationBatch :=
  {| batch_transaction_id := op_transaction_id operation; batch_operation := "memory.write";
     batch_scope := scope; batch_mutations := memory |}.
Definition submission := commit_governed_memory_transaction operation_batch [] [] (Some operation) 30 start.
Definition submitted_state : store := submission.2.
Definition operation_key : string := operation_storage_key (op_identity operation).

Lemma submission_ok : submission.1 = Ok tt.
Proof. vm_compute. reflexivity. Qed.

Lemma submission_executes : executes start [operation_key] submitted_state.
Proof.
  pose proof submission_ok as Hr. unfold submitted_state, submission in *.
  destruct (commit_governed_memory_transaction _ _ _ _ _ _) as [r s1] eqn:E. cbn [fst snd] in *.
  subst r. exact (executes_commit start [] start _ _ _ _ _ _ _ (executes_refl start) E).
Qed.

Lemma start_paired : paired start.
Proof.
  assert (∀ l : list (address * document),
    forallb (λ p, negb (is_operation_namespace p.1.1)) l = true → paired (list_to_map l : store)) as H.
  { intros l Hl key. rewrite forallb_forall in Hl.
    assert (∀ a, is_operation_namespace a.1 = true → (list_to_map l : store) !! a = None) as Hno.
    { intros a Ha. apply eq_None_not_Some. intros [v Hv%elem_of_list_to_map_2].
      apply list_elem_of_In, Hl in Hv. cbn in Hv. by rewrite Ha in Hv. }
    cbn. by rewrite !Hno. }
  apply H. vm_compute. reflexivity.
Qed.

Lemma operations_commit_once_witness :
  ∃ rv r, submitted_state !! (MEMORY_MUTATION_RECEIPT_NAMESPACE, operation_key) = Some rv
    ∧ receipt_from_value rv = inr r ∧ mr_intent_digest r = intent.
Proof.
  pose proof submission_ok as Hr. unfold submitted_state, submission in *.
  destruct (commit_governed_memory_transaction _ _ _ _ _ _) as [res s1] eqn:E. cbn [fst snd] in *.
  subst res.
  destruct (operations_commit_once start [] start _ _ _ _ _ _ _ (executes_refl start) E)
    as (_ & _ & rv & av & r & a & b0 & pre0 & plan & Hr & _ & _ & _ & _ & _ & Hin & _ & _ & _ & _ & _
        & _ & _ & _ & Hlater).
  exists rv, r. split; [exact (proj1 (proj2 (Hlater [] s1 (executes_refl s1))))|].
  split; [exact Hr|]. rewrite Hin. vm_compute. reflexivity.
Defined.

Definition same_operation (v : document) : bool :=
  match v with
  | DocReceipt r => bool_decide (mr_identity r = op_identity operation)
                    && String.eqb (mr_intent_digest r) (op_intent_digest operation)
  | _ => false
  end.

Lemma submitted_receipt :
  match platform_doc submitted_state
          (MEMORY_MUTATION_RECEIPT_NAMESPACE, operation_storage_key (op_identity operation)) with
  | Some v => same_operation v
  | None => false
  end = true.
Proof. vm_compute. reflexivity. Qed.

Lemma resubmission_replays_witness :
  ∃ r, commit_memory_mutation_operation submitted_state (λ s, s) operation_batch [] [] operation
         submitted_state = (Ok (OperationReplayed r), submitted_state).
Proof.
  pose proof submitted_receipt as Hs.
  destruct (resubmission_replays start [operation_key] submitted_state (λ s, s) operation_batch [] []
              operation submitted_state start_paired submission_executes) as (rv & r & Hrv & Hr & H).
  - left.
  - reflexivity.
  - vm_compute. reflexivity.
  - vm_compute. reflexivity.
  - vm_compute. reflexivity.
  - vm_compute. reflexivity.
  - reflexivity.
  - exists r. rewrite H. clear H.
    rewrite Hrv in Hs. clear Hrv. destruct rv; try discriminate. injection Hr as ->.
    cbn [same_operation] in Hs. by rewrite Hs.
Defined.

(** ** A cycle of the engine *)

Definition runtime : LaneRuntime :=
  mkLaneRuntime "space" "subject" "channel" "chat" scope true true (Ok tt) (digest_of "runtime")
    (digest_of "policy") true None.
Definition turns (_ : store) (_ : ConversationKey) (_ _ : string)
    : result (option TranscriptTurnRecord) := Ok (Some turn).
Definition cycle_clock (_ : clock_call) : N := 100.
(** The port answers that the model service timed out. *)
Definition failing_port (_ : PostTurnGovernanceJobV4) (_ : PostTurnGovernanceBindingSnapshotV1) (s : store)
    : (option unit * (unit + GovernanceExecutionPortFailure)) * store :=
  ((None, inr (PortOther (Http "model" 504))), s).

(** Both lanes have work; the bit says that the semantic lane is next. *)
Definition procedural_due (_ : N) (_ : store) : result (list unit) := Ok [tt].
Definition procedural_run (_ : unit) (_ : MemoryLearningCycleRequest) (_ : N) (s : store)
    : result (MemoryLearningCycleOutcome unit unit) * store := (Ok (CycleProcedural tt), s).
Definition cycle_request : MemoryLearningCycleRequest := mkCycleRequest "engine" 60.

Definition cycle_with (port : PostTurnGovernanceJobV4 → PostTurnGovernanceBindingSnapshotV1 → store
                              → (option unit * (unit + GovernanceExecutionPortFailure)) * store)
    (next_lane : N) :=
  run_due_cycle fresh turns cycle_clock runtime port procedural_due procedural_run cycle_request
    next_lane created_state.
Definition cycle := cycle_with failing_port 1.

(** The cycle claims the job and, after the timeout, leaves it waiting for a retry;
    with the other bit the procedural lane goes first. *)
Lemma cycle_retries :
  match cycle.1.1 with
  | Ok (CycleRetrying j _) => jb_status j = RetryWaiting ∧ jb_next_attempt_at j = Some 105
  | _ => False
  end
  ∧ cycle.2 = 0
  ∧ match (cycle_with failing_port 0).1.1 with Ok (CycleProcedural _) => True | _ => False end
  ∧ (cycle_with failing_port 0).2 = 1.
Proof. vm_compute. done. Qed.

(** A port that would answer and wipe the store if it were asked about a job
    that is not leased to the engine. *)
Definition strict_port (j : PostTurnGovernanceJobV4) (b : PostTurnGovernanceBindingSnapshotV1) (s : store)
    : (option unit * (unit + GovernanceExecutionPortFailure)) * store :=
  if bool_decide (jb_status j = Leased) && bool_decide (jb_lease_owner j = Some "engine")
  then failing_port j b s else ((Some tt, inl tt), ∅).

Lemma fresh_current (s : store) a v : fresh s a = Ok v → v = platform_doc s a.
Proof. by intros [= <-]. Qed.

Lemma port_runs_under_authority_witness : cycle_with strict_port 1 = cycle.
Proof.
  symmetry. unfold cycle, cycle_with.
  apply (port_runs_under_authority fresh turns cycle_clock runtime fresh_current failing_port strict_port).
  - exact (runs_coherent _ _ _ created_runs start_coherent).
  - intros claimed binding s1 s2 [_ _ (Hl & Ho & _) _ _ _ _ _]. unfold strict_port.
    rewrite (bool_decide_eq_true_2 _ Hl), (bool_decide_eq_true_2 _ Ho). reflexivity.
Defined.




End GovernanceSamples.
